(* ===== verification/_CoqProject ===== *)
-Q . S2P
Prelude.v
Bits.v
Bitmap.v
BitmapProps.v
DynArray.v
LinkedList.v
Queue.v
Pack.v
Ctype.v
Base64.v
IntStr.v
Decimal.v
DecimalProps.v
DecimalConv.v
DecimalMul.v
DecimalBin.v
DecimalBinProps.v
DecimalRound.v
DecimalRoundProps.v
DecimalShift.v
DecimalShiftProps.v
DecimalText.v
DecimalTextProps.v
Digest.v
Sha1.v
Password.v
MyTime.v
MyTimeZone.v
TimeStr.v
TimeStrProps.v
TimeStrRound.v
CtypeBin.v
DecimalBinMain.v
DecimalBinLoad.v
Collate.v
Like.v
LikeRange.v
Instr.v
StrNum.v
Tree.v
TreeRep.v
TreeInsert.v
TreeDelete.v
TreeOps.v
TreeProps.v
TreeMain.v
Utf8.v
Utf8Tables.v
Utf8Props.v
Utf8Main.v
ThrLock.v
ThrSpec.v
ThrLinks.v
ThrSim.v
ThrInv.v
ThrWake.v
ThrRequest.v
ThrSteps.v
ThrFrame.v
ThrMain.v
ThrSort.v
ThrMulti.v
ThrMultiInv.v
ThrMultiMain.v
Vio.v
Compress.v
Net.v
NetProps.v
NetRead.v
NetSafe.v
NetMain.v
NetComp.v
NetZip.v
NetZipMain.v
Hash.v
HashChain.v
HashProps.v
HashSplit.v
HashTable.v
HashMain.v
