(* ===== verification/Prelude.v ===== *)
(** * A verification of the C runtime library of MySQL Connector/C

    The repository collects C and C++ libraries; its C program is
    [src/mysql-connector-c-6.0.2], the client library of MySQL.  This development
    models the data structures and codecs that the rest of the client is built
    on, as executable functions translated line by line from the C code, and
    proves what they compute.

    ** Conventions

    - A [w]-bit C integer is a [Z] in range; every operation that can leave the
      range is followed by [uwrap] ([u8], [u16], [u32], [u64]) or [swrap] ([s8] ..
      [s64]).  The configuration is the one of the repository's build: [long] and
      pointers 32 bits, [longlong] 64 bits, [DBUG_OFF], [THREAD], [HAVE_LDIV].
    - A C array is a list.  [load], [store], [read] and [write] are [None] outside
      the array, so a theorem that a routine returns [Some] is also a proof that
      it stays inside its buffers.
    - A C loop is [for_up], [for_ret] (with an early exit) or [while_] with fuel, or
      a [Fixpoint] on the passes that are left.  [None] also stands for fuel that
      ran out; the theorems state [Some], so the fuel is enough.  Each fuel is the
      length of the input, the width of an integer in bits or digits, or a
      parameter bounded below by the length of the list in the theorem.
    - Code outside the sources modelled (memory allocation, a comparison function,
      the action of a list walk, the place of a table in memory) is a parameter;
      what is assumed of it is a named hypothesis, and each theorem with
      hypotheses has a witness at a concrete instance.

    ** Files

    - [Prelude]: machine integers, arrays, loops and their rules, tactics ([inv_opt],
      [bdec], [unwrap]) and the hint databases [cmem] and [cbits].
    - [Bits]: [include/my_bit.h], [mysys/my_bit.c].  Each function equals its
      arithmetic meaning.
    - [Bitmap], [BitmapProps]: [mysys/my_bitmap.c], [include/my_bitmap.h], for both byte
      orders.  [repr be m n mx S] relates a map to a finite set [S]; every operation
      is a refinement of the operation on sets, and the locking versions agree
      with the plain ones.
    - [DynArray]: [mysys/array.c].  [repr a l] relates the array to a list of elements.
    - [LinkedList]: [mysys/list.c] on a heap of nodes.  [dlist h l] is a list linked in
      both directions.
    - [Queue]: [mysys/queues.c].  [repr q l] is a heap with the elements [l]; both
      versions of [_downheap] are shown to compute the same array.
    - [Pack]: [libmysql/pack.c], [mysys/my_vle.c] and the byte order macros.  Round trips.
    - [Ctype], [Base64]: [mysys/base64.c] with the character classes it uses.
    - [IntStr]: [strings/int2str.c], [longlong2str.c], [llstr.c], [my_strtoll10.c].
    - [Decimal], [DecimalProps], [DecimalConv], [DecimalMul], [DecimalBin],
      [DecimalBinProps], [DecimalBinMain], [DecimalBinLoad], [DecimalRound], [DecimalRoundProps],
      [DecimalShift], [DecimalShiftProps], [DecimalText], [DecimalTextProps]: [strings/decimal.c].  [dval],
      [absval] and [sval] give the value of a decimal; the loops over the words are
      described by [phase], a number with a carry.  Addition, subtraction,
      comparison, multiplication and the conversions from and to 64-bit integers
      are exact, or saturate as the error code says.  The binary format of a decimal
      is the big endian form of one number ([sort_number]), from which the round trip
      and the order of the bytes follow.
      [decimal_round] rounds to a scale, [decimal_shift] multiplies by a power of ten and the
      text of a decimal is read back; where they go wrong, [decimal_round_gaps],
      [decimal_shift_gaps] and [decimal2string_overruns] have the inputs.
    - [Digest], [Sha1], [Password]: [mysys/sha1.c] and [libmysql/password.c].  [Digest] is
      the contract between them: a context absorbs bytes and the result is the
      hash of all of them.  [Sha1] proves that [sha1.c] computes the SHA-1 of the
      standard (module [Fips]) whatever the pieces of the input; [Password] proves,
      from the contract alone, that the challenge-response protocol accepts the
      right password, and when it accepts nothing else.
    - [MyTime], [MyTimeZone], [TimeStr], [TimeStrProps], [TimeStrRound]: [libmysql/my_time.c].
      [MyTime] has the calendar and packed numbers: day numbers count days, numbers
      round trip.  [MyTimeZone] proves [my_system_gmt_sec] exact in a zone of fixed
      offset ([localtime_r] is a parameter) and the clipping of TIME values.
      [TimeStr] has the parsers and printers, [TimeStrProps] that both parsers end
      and stay inside their input on every byte string, [TimeStrRound] that they
      read back what was printed.
    - [CtypeBin], [Collate], [Like], [LikeRange], [Instr]: [strings/ctype-bin.c] and
      [strings/ctype-simple.c].  [Collate] compares weights padded with spaces: sort keys,
      comparison and hash numbers agree.  [Like] proves [my_wildcmp_8bit] equivalent to
      the meaning of a pattern, [LikeRange] that the keys computed for a pattern
      bound its matches, [Instr] that a search finds the first occurrence.
      [StrNum] has the conversions between numbers and strings.
    - [ThrLock], [ThrSpec], [ThrLinks], [ThrSim], [ThrInv], [ThrWake], [ThrRequest],
      [ThrSteps], [ThrFrame], [ThrMain], [ThrSort]: [mysys/thr_lock.c].  The operations are programs over a few
      primitives; [ThrLock] runs the primitives on the doubly linked queues of the C
      code, [ThrSpec] on lists, and [ThrSim] proves, with the theory of links of [ThrLinks], that
      the first refine the second.  The module [ThrSys] of [ThrWake] makes a transition system of the calls,
      where a thread that sleeps in [wait_for_lock] resumes in a later step, so every
      interleaving of threads is a run; [permitted] states how the server uses the interface
      ([table_lock_upgrade] shows what happens otherwise).
      [ThrInv], [ThrWake], [ThrRequest] and [ThrSteps] prove the invariant (compatibility
      of the running locks, no lost waiter), [ThrMain] states the theorems on the linked
      structure.  The fuel of the loops is the number of instances of the lock.
      [ThrSort] has the order in which several locks are taken and [ThrMulti] threads that
      run [thr_multi_lock] and [thr_multi_unlock] on a set of tables; [ThrFrame] shows what a
      call leaves to the other instances, [ThrMultiInv] that the calls of threads are
      permitted ones, [ThrMultiMain] that the threads do not deadlock.  There each call names
      a table at most once; [multi_lock_twice] is a deadlock with a table named twice.
    - [Utf8], [Utf8Tables], [Utf8Props], [Utf8Main]: [strings/ctype-utf8.c].  [Utf8Props] has the
      interface [Decoder], that a function inverts the encoding form, with instances for
      utf8mb3 and utf8mb4; the lemmas on comparison, hashing, sort keys and case use only it.
      [Utf8Tables] has the case tables, and [Utf8Main] checks what the theorems need of them.
    - [Tree], [TreeRep], [TreeInsert], [TreeDelete], [TreeOps], [TreeProps], [TreeMain]:
      [mysys/tree.c].  [Tree] has the operations on a heap of elements, with the array
      [tree->parents] as a stack of at most [MAX_TREE_HEIGHT] links; the mirrored branches
      of the rebalancing are one definition with a direction.  [TreeRep] views the
      heap as an inductive tree with a focus, [TreeInsert] and [TreeDelete] prove that
      the two rebalancing loops restore the red-black invariant, [TreeOps] that unlinking an
      element is sound and that the height is bounded, [TreeProps] relates a tree to the ordered
      list of its elements ([tree_ok]); [TreeMain] states the contract.  The
      comparison function is any total preorder ([Comparison]), the allocator any function
      that returns unused addresses.
    - [Vio], [Compress], [Net], [NetProps], [NetRead], [NetSafe], [NetMain], [NetComp], [NetZip], [NetZipMain]:
      [vio/viosocket.c], [mysys/my_compress.c] and [libmysql/net_serv.c].  A [Vio] carries the
      results of the system calls to come, so a theorem about every [Vio] is one
      about every way the kernel can cut, delay or refuse the bytes.  [Net] has
      the connection and the operations of the plain protocol, [NetComp] the compressed
      branch of [my_net_read].  [NetProps] and [NetRead] relate writing and
      reading to the protocol ([framed]), [NetSafe] shows that reading is safe against any peer,
      [NetMain] states the contract; [NetZip] and [NetZipMain] do the same for
      the compressed protocol ([zipped]).  The fuel of the loops is the length of the data
      and of the script of results, which every step shortens; zlib and the allocator are
      parameters with their documented behaviour.
    - [Hash], [HashChain], [HashProps], [HashSplit], [HashTable], [HashMain]:
      [mysys/hash.c].  [Hash] has the operations over the interface [LinkArray], an
      array of links.  [HashChain] is the theory of chains through an array,
      [HashProps] and [HashSplit] that the steps of the code keep them, [HashTable]
      relates a table to the multiset of its records ([table key h rs]).
      In [HashMain] the module [HashArray] shows that [DynArray] obeys the interface,
      and the module [HashMain] states the properties.
    ** What the theorems show

    Each theorem that states a property of the program carries its claim id in
    its comment.  They are of these kinds: refinement of sets, lists and
    multisets by bitmaps, arrays and queues; invariants (well-formed maps, linked
    lists, heaps, decimals) kept by every operation; equivalence of an optimised
    routine with the older one; round trips of the codecs; exact results with
    their error codes and bounds; termination; and, where the code does not do
    what its comments say, the concrete input that shows it.

    ** Not modelled

    Multi-byte character sets and Unicode collations (mostly conversion tables),
    floating point conversion, sockets, files, threads and start-up code
    (operating system calls), the bundled zlib, regex and debug libraries, and
    the C++ libraries of the repository.  Of [decimal.c]: division and the conversions from and to double.
    Operands and results of decimal operations do not share a buffer in the
    model, and word counts are not wrapped to 32 bits.  [pthread] mutexes are a
    flag: a second lock of a held mutex does not return.
*)
From stdpp Require Import base tactics option list numbers gmap sets fin_sets.
From Stdlib Require Import ZArith Lia.

#[global] Open Scope Z_scope.
Declare Scope cint_scope.
Delimit Scope cint_scope with cint.

(** ** Machine integers *)

(** Reduction modulo [2^w]: the value an unsigned [w]-bit C object keeps. *)
Definition uwrap (w x : Z) : Z := x mod 2 ^ w.

(** Two's complement reading of the low [w] bits: a signed [w]-bit object. *)
Definition swrap (w x : Z) : Z := (x + 2 ^ (w - 1)) mod 2 ^ w - 2 ^ (w - 1).

Abbreviation u8 := (uwrap 8).
Abbreviation u16 := (uwrap 16).
Abbreviation u32 := (uwrap 32).
Abbreviation u64 := (uwrap 64).
Abbreviation s8 := (swrap 8).
Abbreviation s16 := (swrap 16).
Abbreviation s32 := (swrap 32).
Abbreviation s64 := (swrap 64).

Infix "&&&" := Z.land (at level 40, left associativity) : cint_scope.
Infix "|||" := Z.lor (at level 50, left associativity) : cint_scope.
Infix "^^^" := Z.lxor (at level 50, left associativity) : cint_scope.
#[global] Open Scope cint_scope.

(** ** Memory: a C array is a list, an index a [Z]; [None] is an access
    outside the array, which the C program must never perform. *)

Definition load {A} (m : list A) (i : Z) : option A :=
  if decide (0 <= i) then m !! Z.to_nat i else None.

Definition store {A} (m : list A) (i : Z) (v : A) : option (list A) :=
  if decide (0 <= i < Z.of_nat (length m)) then Some (<[Z.to_nat i := v]> m)
  else None.

(** Blocks: [memcpy] out of and into an array, at a cell offset. *)
Definition read {A} (m : list A) (off n : Z) : option (list A) :=
  if decide (0 <= off /\ 0 <= n /\ off + n <= Z.of_nat (length m))
  then Some (take (Z.to_nat n) (drop (Z.to_nat off) m)) else None.

Definition write {A} (m : list A) (off : Z) (bs : list A) : option (list A) :=
  if decide (0 <= off /\ off + Z.of_nat (length bs) <= Z.of_nat (length m))
  then Some (take (Z.to_nat off) m ++ bs ++ drop (Z.to_nat off + length bs) m) else None.

(** ** Loops *)

(** [for_up n i body s]: run [body] at [i], [i+1], ..., [i+n-1]. *)
Fixpoint for_up {S} (n : nat) (i : Z) (body : Z -> S -> option S) (s : S)
  : option S :=
  match n with
  | O => Some s
  | Datatypes.S n' => s' ← body i s; for_up n' (i + 1) body s'
  end.

(** What one pass through the body of a C loop does: go on with a new state,
    or leave the loop. *)
Inductive ctl (S R : Type) : Type :=
| Next (s : S)
| Ret (r : R).
Arguments Next {S R} s.
Arguments Ret {S R} r.

(** [for_ret]: as [for_up], for a body with an early [return] or [break]. *)
Fixpoint for_ret {S R} (n : nat) (i : Z) (body : Z -> S -> option (ctl S R))
    (s : S) : option (ctl S R) :=
  match n with
  | O => Some (Next s)
  | Datatypes.S n' =>
      match body i s with
      | Some (Next s') => for_ret n' (i + 1) body s'
      | Some (Ret r) => Some (Ret r)
      | None => None
      end
  end.

(** [while_ fuel cond body]: a C [while] loop.  [None] also stands for fuel
    that ran out, so a theorem that such a loop returns [Some] is a theorem
    that it terminates. *)
Fixpoint while_ {S} (fuel : nat) (body : S -> option (ctl S S)) (s : S)
  : option S :=
  match fuel with
  | O => None
  | Datatypes.S n =>
      match body s with
      | Some (Next s') => while_ n body s'
      | Some (Ret r) => Some r
      | None => None
      end
  end.

(** ** Hint databases and tactics *)

Create HintDb cmem.
Create Rewrite HintDb cbits.

(** Split the [option] binds of a hypothesis and the [decide]s of the goal. *)
Ltac inv_opt :=
  repeat match goal with
  | H : Some _ = Some _ |- _ => injection H as H
  | H : None = Some _ |- _ => discriminate H
  | H : Some _ = None |- _ => discriminate H
  | H : mbind _ ?o = Some _ |- _ =>
      let E := fresh "E" in destruct o eqn:E; simpl in H; [| discriminate H]
  end; try subst.

(** Decide the tests of the goal that arithmetic settles. *)
Ltac bdec := repeat match goal with
  | |- context [bool_decide ?P] =>
      first [rewrite (bool_decide_true P) by (done || lia)
            |rewrite (bool_decide_false P) by (done || lia)]
  end.

Ltac Zdm := Z.div_mod_to_equations; nia.
Ltac Zlia := Z.div_mod_to_equations; lia.

(** ** Lemmas on machine integers *)

Lemma uwrap_range w x : 0 <= w -> 0 <= uwrap w x < 2 ^ w.
Proof. intros; unfold uwrap; apply Z.mod_pos_bound; lia. Qed.

Lemma uwrap_small w x : 0 <= x < 2 ^ w -> uwrap w x = x.
Proof. apply Z.mod_small. Qed.

(** Remove the wrap-arounds that arithmetic shows to be no-ops. *)
Ltac unwrap := repeat match goal with
  | |- context [uwrap ?w ?x] => rewrite (uwrap_small w x) by lia
  end.

Lemma uwrap_idemp w x : uwrap w (uwrap w x) = uwrap w x.
Proof. apply Zmod_mod. Qed.

Lemma swrap_small w x : 0 < w -> - 2 ^ (w - 1) <= x < 2 ^ (w - 1) -> swrap w x = x.
Proof.
  intros Hw Hx; unfold swrap.
  assert (2 ^ w = 2 * 2 ^ (w - 1)) by (rewrite <- Z.pow_succ_r by lia; f_equal; lia).
  rewrite Z.mod_small; lia.
Qed.

Lemma swrap_range w x : 0 < w -> - 2 ^ (w - 1) <= swrap w x < 2 ^ (w - 1).
Proof.
  intros Hw; unfold swrap.
  assert (2 ^ w = 2 * 2 ^ (w - 1)) by (rewrite <- Z.pow_succ_r by lia; f_equal; lia).
  pose proof (Z.mod_pos_bound (x + 2 ^ (w - 1)) (2 ^ w)). lia.
Qed.

Lemma uwrap_testbit w x i :
  0 <= w -> 0 <= i -> Z.testbit (uwrap w x) i = (i <? w) && Z.testbit x i.
Proof.
  intros; unfold uwrap. destruct (Z.ltb_spec i w).
  - by rewrite Z.mod_pow2_bits_low.
  - by rewrite Z.mod_pow2_bits_high by lia.
Qed.

Lemma testbit_high w x i : 0 <= x < 2 ^ w -> w <= i -> Z.testbit x i = false.
Proof.
  intros Hx Hi. destruct (decide (0 <= w)).
  - rewrite <- (uwrap_small w x) by done. rewrite uwrap_testbit by lia.
    by rewrite (proj2 (Z.ltb_ge i w)).
  - rewrite Z.pow_neg_r in Hx by lia. lia.
Qed.

Lemma range_of_bits w x :
  0 <= w -> (forall i, w <= i -> Z.testbit x i = false) -> 0 <= x < 2 ^ w.
Proof.
  intros Hw H. assert (Hx : x = uwrap w x); [| rewrite Hx; by apply uwrap_range].
  apply Z.bits_inj'; intros i Hi. rewrite uwrap_testbit by lia.
  destruct (Z.ltb_spec i w); [done | by rewrite H].
Qed.

(** Equality of two words of [w] bits is equality of their low bits. *)
Lemma bits_eq w x y :
  0 <= x < 2 ^ w -> 0 <= y < 2 ^ w ->
  (forall i, 0 <= i < w -> Z.testbit x i = Z.testbit y i) -> x = y.
Proof.
  intros Hx Hy H. apply Z.bits_inj'; intros i Hi.
  destruct (decide (i < w)); [apply H; lia |].
  by rewrite !(testbit_high w) by lia.
Qed.

Lemma land_ones_uwrap w x : 0 <= w -> x &&& (2 ^ w - 1) = uwrap w x.
Proof.
  intros. unfold uwrap. rewrite <- Z.land_ones by done.
  by rewrite Z.ones_equiv, Z.sub_1_r.
Qed.

Lemma pow2_testbit k i : 0 <= k -> Z.testbit (2 ^ k) i = bool_decide (i = k).
Proof.
  intros. case_bool_decide; [subst; by apply Z.pow2_bits_true |].
  by apply Z.pow2_bits_false.
Qed.

Lemma land_pow2 x k : 0 <= k -> x &&& 2 ^ k = if Z.testbit x k then 2 ^ k else 0.
Proof.
  intros Hk. apply Z.bits_inj'; intros i Hi.
  rewrite Z.land_spec, pow2_testbit by done. case_bool_decide as Hik.
  - subst i. rewrite andb_true_r. destruct (Z.testbit x k) eqn:E.
    + by rewrite pow2_testbit, bool_decide_true.
    + by rewrite Z.testbit_0_l.
  - rewrite andb_false_r. destruct (Z.testbit x k).
    + by rewrite pow2_testbit, bool_decide_false.
    + by rewrite Z.testbit_0_l.
Qed.

Lemma shiftl_1 k : 0 <= k -> 1 ≪ k = 2 ^ k.
Proof. intros. rewrite Z.shiftl_mul_pow2 by done. lia. Qed.

Lemma land_7 x : x &&& 7 = x mod 8.
Proof. change 7 with (2 ^ 3 - 1). by rewrite land_ones_uwrap. Qed.

(** Bits put below a shifted value: [|] is [+]. *)
Lemma lor_shift_add a b k : 0 <= k -> 0 <= b < 2 ^ k -> (a ≪ k) ||| b = a * 2 ^ k + b.
Proof.
  intros Hk Hb.
  assert (Hl : Z.land (a ≪ k) b = 0).
  { apply Z.bits_inj'. intros i Hi. rewrite Z.land_spec, Z.testbit_0_l.
    destruct (decide (i < k)).
    - by rewrite Z.shiftl_spec_low.
    - rewrite (testbit_high k b) by lia. apply andb_false_r. }
  rewrite <- Z.lxor_lor, <- Z.add_nocarry_lxor by done. by rewrite Z.shiftl_mul_pow2.
Qed.

Lemma land_127 x : x &&& 127 = x mod 128.
Proof. change 127 with (2 ^ 7 - 1). by rewrite land_ones_uwrap. Qed.

Lemma land_255 x : x &&& 255 = x mod 256.
Proof. change 255 with (2 ^ 8 - 1). by rewrite land_ones_uwrap. Qed.

#[export] Hint Rewrite Z.land_spec Z.lor_spec Z.lxor_spec Z.ldiff_spec : cbits.
#[export] Hint Rewrite Z.lnot_spec Z.shiftl_spec Z.shiftr_spec uwrap_testbit
  using lia : cbits.

(** ** Lemmas on memory *)

Section Memory.
Context {A : Type}.
Implicit Types (m : list A) (i j : Z) (v : A).

Lemma load_nat m (n : nat) : load m (Z.of_nat n) = m !! n.
Proof. unfold load. case_decide; [by rewrite Nat2Z.id | lia]. Qed.

Lemma load_bounds m i v : load m i = Some v -> 0 <= i < Z.of_nat (length m).
Proof.
  unfold load. case_decide; [| done]. intros Hl%lookup_lt_Some. lia.
Qed.

Lemma load_in m i : 0 <= i < Z.of_nat (length m) -> exists v, load m i = Some v.
Proof.
  intros. unfold load. rewrite decide_True by lia.
  apply lookup_lt_is_Some. lia.
Qed.

Lemma load_out m i : ~ (0 <= i < Z.of_nat (length m)) -> load m i = None.
Proof.
  intros. destruct (load m i) eqn:E; [| done]. by apply load_bounds in E.
Qed.

Lemma store_in m i v :
  0 <= i < Z.of_nat (length m) -> store m i v = Some (<[Z.to_nat i := v]> m).
Proof. intros. unfold store. by rewrite decide_True. Qed.

Lemma store_bounds m i v m' :
  store m i v = Some m' ->
  0 <= i < Z.of_nat (length m) /\ m' = <[Z.to_nat i := v]> m.
Proof. unfold store. case_decide; [| done]. intros; by simplify_eq. Qed.

Lemma store_out m i v : ~ (0 <= i < Z.of_nat (length m)) -> store m i v = None.
Proof. intros. unfold store. by rewrite decide_False. Qed.

Lemma length_store m i v m' : store m i v = Some m' -> length m' = length m.
Proof. intros [_ ->]%store_bounds. apply length_insert. Qed.

Lemma load_store m i v m' j :
  store m i v = Some m' ->
  load m' j = if decide (i = j) then Some v else load m j.
Proof.
  intros [Hi ->]%store_bounds. case_decide as Hij.
  - subst j. unfold load. rewrite decide_True by lia.
    apply list_lookup_insert_eq. lia.
  - unfold load. case_decide; [| done].
    apply list_lookup_insert_ne. lia.
Qed.

Lemma Forall_load (P : A -> Prop) m i v : Forall P m -> load m i = Some v -> P v.
Proof.
  intros HF. unfold load. case_decide; [| done]. by apply Forall_lookup_1.
Qed.

Lemma Forall_store (P : A -> Prop) m i v m' :
  Forall P m -> P v -> store m i v = Some m' -> Forall P m'.
Proof. intros HF Hv [_ ->]%store_bounds. by apply Forall_insert. Qed.

Lemma load_ext m1 m2 :
  length m1 = length m2 ->
  (forall i, 0 <= i < Z.of_nat (length m1) -> load m1 i = load m2 i) -> m1 = m2.
Proof.
  intros Hl H. apply list_eq_same_length with (length m1); [done | done |].
  intros n x y Hn. rewrite <- !load_nat, H by lia. congruence.
Qed.
End Memory.

(** Reading and writing blocks of an array seen as [l ++ x ++ r]. *)
Lemma read_app {A} (l x r : list A) :
  read (l ++ x ++ r) (Z.of_nat (length l)) (Z.of_nat (length x)) = Some x.
Proof.
  unfold read. rewrite decide_True by (rewrite !length_app; lia).
  by rewrite !Nat2Z.id, drop_app_length, take_app_length.
Qed.

Lemma write_app {A} (l x y r : list A) :
  length x = length y ->
  write (l ++ x ++ r) (Z.of_nat (length l)) y = Some (l ++ y ++ r).
Proof.
  intros Hl. unfold write. rewrite decide_True by (rewrite !length_app; lia).
  rewrite Nat2Z.id, take_app_length, <- Hl. do 3 f_equal.
  by rewrite <- drop_drop, drop_app_length, drop_app_length.
Qed.

Lemma read_app_0 {A} (x r : list A) : read (x ++ r) 0 (Z.of_nat (length x)) = Some x.
Proof. exact (read_app [] x r). Qed.

Lemma write_app_0 {A} (x y r : list A) :
  length x = length y -> write (x ++ r) 0 y = Some (y ++ r).
Proof. exact (write_app [] x y r). Qed.

Lemma load_app {A} (pre l rest : list A) i :
  0 <= i < Z.of_nat (length l) ->
  load (pre ++ l ++ rest) (Z.of_nat (length pre) + i) = load l i.
Proof.
  intros Hi. unfold load. rewrite !decide_True by lia.
  rewrite lookup_app_r by lia. rewrite lookup_app_l by lia. f_equal. lia.
Qed.

Lemma length_write {A} (m : list A) off bs m' :
  write m off bs = Some m' -> length m' = length m.
Proof.
  unfold write. case_decide; [| done]. intros [= <-].
  rewrite !length_app, length_take, length_drop. lia.
Qed.

(** ** Loop rules *)

Lemma for_up_rule {S} (P : Z -> S -> Prop) n i body (s : S) :
  P i s ->
  (forall j t, i <= j < i + Z.of_nat n -> P j t ->
     exists t', body j t = Some t' /\ P (j + 1) t') ->
  exists s', for_up n i body s = Some s' /\ P (i + Z.of_nat n) s'.
Proof.
  revert i s; induction n as [| n IH]; intros i s Hi Hb; cbn [for_up for_ret].
  - exists s. split; [done |]. by rewrite Z.add_0_r.
  - destruct (Hb i s) as (t & -> & Ht); [lia | done |]. simpl.
    destruct (IH (i + 1) t) as (s' & -> & Hs'); [done | |].
    + intros j u Hj. apply Hb. lia.
    + exists s'. split; [done |].
      by replace (i + Z.of_nat (Datatypes.S n)) with (i + 1 + Z.of_nat n) by lia.
Qed.

(** The rule for a loop with an early exit: [P] holds at the start of each
    pass, [Q] of a value returned from inside the loop. *)
Lemma for_ret_rule {S R} (P : Z -> S -> Prop) (Q : R -> Prop) n i body (s : S) :
  P i s ->
  (forall j t, i <= j < i + Z.of_nat n -> P j t ->
     (exists t', body j t = Some (Next t') /\ P (j + 1) t') \/
     (exists r, body j t = Some (Ret r) /\ Q r)) ->
  (exists s', for_ret n i body s = Some (Next s') /\ P (i + Z.of_nat n) s') \/
  (exists r : R, for_ret n i body s = Some (Ret r) /\ Q r).
Proof.
  revert i s; induction n as [| n IH]; intros i s Hi Hb; cbn [for_up for_ret].
  - left. exists s. split; [done |]. by rewrite Z.add_0_r.
  - destruct (Hb i s) as [(t & -> & Ht) | (r & -> & Hr)]; [lia | done | |].
    + destruct (IH (i + 1) t) as [(s' & -> & Hs') | Hr]; [done | | |].
      * intros j u Hj. apply Hb. lia.
      * left. exists s'. split; [done |].
        by replace (i + Z.of_nat (Datatypes.S n)) with (i + 1 + Z.of_nat n) by lia.
      * by right.
    + right. by exists r.
Qed.

(** Total correctness of a [while]: an invariant and a measure below the fuel. *)
Lemma while_rule {S} (P Q : S -> Prop) (mu : S -> Z) fuel body (s : S) :
  P s -> mu s < Z.of_nat fuel ->
  (forall t, P t -> 0 <= mu t) ->
  (forall t, P t ->
     (exists t', body t = Some (Next t') /\ P t' /\ mu t' < mu t) \/
     (exists r, body t = Some (Ret r) /\ Q r)) ->
  exists r, while_ fuel body s = Some r /\ Q r.
Proof.
  intros Hs Hmu Hpos Hb. revert s Hs Hmu.
  induction fuel as [| n IH]; intros s Hs Hmu; simpl.
  - specialize (Hpos s Hs). lia.
  - destruct (Hb s Hs) as [(t & -> & Ht & Hlt) | (r & -> & Hr)].
    + apply IH; [done | lia].
    + by exists r.
Qed.

Lemma Forall_of_load {A} (P : A -> Prop) (m : list A) :
  (forall i v, load m i = Some v -> P v) -> Forall P m.
Proof.
  intros H. apply Forall_lookup_2. intros i v Hi. apply (H (Z.of_nat i)).
  by rewrite load_nat.
Qed.

(** A loop that rewrites the cells [i .. i+n-1] of an array one by one. *)
Lemma for_up_update {A} (g : Z -> A -> option A) (f : Z -> A -> A) n i (m : list A) :
  0 <= i -> i + Z.of_nat n <= Z.of_nat (length m) ->
  (forall j w, i <= j < i + Z.of_nat n -> load m j = Some w -> g j w = Some (f j w)) ->
  exists m',
    for_up n i (fun j s => w ← load s j; v ← g j w; store s j v) m = Some m' /\
    length m' = length m /\
    forall j, load m' j =
      if decide (i <= j < i + Z.of_nat n) then f j <$> load m j else load m j.
Proof.
  intros Hi Hn Hg.
  destruct (for_up_rule (fun k s => length s = length m /\ forall j, load s j =
      if decide (i <= j < k) then f j <$> load m j else load m j) n i
      (fun j s => w ← load s j; v ← g j w; store s j v) m) as (m' & Hm & HP).
  - split; [done |]. intros j. by rewrite decide_False by lia.
  - intros j t Hj [Hl Ht].
    destruct (load_in m j) as [w Hw]; [lia |].
    rewrite Ht, decide_False, Hw by lia. cbn [mbind option_bind].
    rewrite (Hg j w) by done. cbn [mbind option_bind].
    rewrite store_in by lia. eexists; split; [done |].
    split; [by rewrite length_insert |]. intros k.
    rewrite (load_store t j (f j w) _ k) by (apply store_in; lia).
    case_decide; [subst k; rewrite decide_True, Hw by lia; done |].
    rewrite Ht. repeat case_decide; lia || done.
  - exists m'. destruct HP. done.
Qed.

(** A loop that fills the cells [i .. i+n-1] with [v]. *)
Lemma for_up_fill {A} (v : A) n i (m : list A) :
  0 <= i -> i + Z.of_nat n <= Z.of_nat (length m) ->
  exists m', for_up n i (fun j s => store s j v) m = Some m' /\ length m' = length m /\
    forall j, load m' j = if decide (i <= j < i + Z.of_nat n) then Some v else load m j.
Proof.
  intros Hi Hn.
  destruct (for_up_rule (fun k s => length s = length m /\ forall j, load s j =
      if decide (i <= j < k) then Some v else load m j) n i
      (fun j s => store s j v) m) as (m' & Hm & HP).
  - split; [done |]. intros j. by rewrite decide_False by lia.
  - intros j t Hj [Hl Ht]. rewrite store_in by lia. eexists; split; [done |].
    split; [by rewrite length_insert |]. intros k.
    rewrite (load_store t j v _ k) by (apply store_in; lia).
    rewrite Ht. repeat case_decide; lia || done.
  - exists m'. by destruct HP.
Qed.

(** A search loop: it stops at the first index where [p] holds. *)
Lemma for_ret_first {R} (p : Z -> bool) (r : Z -> R) n i
    (body : Z -> unit -> option (ctl unit R)) :
  (forall k, i <= k < i + Z.of_nat n ->
     body k tt = Some (if p k then Ret (r k) else Next tt)) ->
  (for_ret n i body tt = Some (Next tt) /\
     forall k, i <= k < i + Z.of_nat n -> p k = false) \/
  (exists k, i <= k < i + Z.of_nat n /\ p k = true /\
     (forall j, i <= j < k -> p j = false) /\
     for_ret n i body tt = Some (Ret (r k))).
Proof.
  revert i; induction n as [| n IH]; intros i H; cbn [for_ret].
  - left. split; [done |]. lia.
  - rewrite H by lia. destruct (p i) eqn:Ep.
    + right. exists i. split_and!; [lia | lia | done | lia | done].
    + destruct (IH (i + 1)) as [[-> Hall] | (k & Hk & Hp & Hj & ->)].
      * intros k Hk. apply H. lia.
      * left. split; [done |]. intros k Hk. destruct (decide (k = i)); [by subst |].
        apply Hall. lia.
      * right. exists k. split_and!; [lia | lia | done | | done].
        intros j Hj'. destruct (decide (j = i)); [by subst |]. apply Hj. lia.
Qed.

(** The least index of a range where a decidable property holds. *)
Lemma least_in_range (p : Z -> bool) i n :
  (exists k, i <= k < i + Z.of_nat n /\ p k = true) ->
  exists k, i <= k < i + Z.of_nat n /\ p k = true /\ forall j, i <= j < k -> p j = false.
Proof.
  intros (k & Hk & Hp).
  destruct (for_ret_first p id n i (fun k _ => Some (if p k then Ret k else Next tt)))
    as [[_ H] | (k' & Hk' & Hp' & Hj & _)]; [done | |].
  - rewrite H in Hp; done.
  - by exists k'.
Qed.

(** A [for (k = i; ; k++)] loop that stops at the first hit. *)
Lemma while_least (p : Z -> bool) (body : Z -> option (ctl Z Z)) fuel i k :
  i <= k < i + Z.of_nat fuel -> p k = true -> (forall j, i <= j < k -> p j = false) ->
  (forall j, i <= j <= k -> body j = Some (if p j then Ret j else Next (j + 1))) ->
  while_ fuel body i = Some k.
Proof.
  revert i; induction fuel as [| n IH]; intros i Hk Hp Hj Hb; [lia |].
  cbn [while_]. rewrite Hb by lia. destruct (decide (i = k)).
  - subst. by rewrite Hp.
  - rewrite Hj by lia. apply IH; [lia | done | |]; intros; [apply Hj | apply Hb]; lia.
Qed.

(** ** Big-step view of loops: [runs body s r] when some fuel is enough *)

Definition runs {S} (body : S -> option (ctl S S)) (s r : S) : Prop :=
  exists fuel, while_ fuel body s = Some r.

Lemma while_mono {S} (body : S -> option (ctl S S)) f f' s r :
  while_ f body s = Some r -> (f <= f')%nat -> while_ f' body s = Some r.
Proof.
  revert f' s; induction f as [| f IH]; intros f' s H Hf; [done |].
  destruct f' as [| f']; [lia |]. cbn [while_] in *.
  destruct (body s) as [[s' | r'] |]; [apply IH; [done | lia] | done | done].
Qed.

Lemma runs_ret {S} (body : S -> option (ctl S S)) s r : body s = Some (Ret r) -> runs body s r.
Proof. intros H. exists 1%nat. cbn [while_]. by rewrite H. Qed.

Lemma runs_next {S} (body : S -> option (ctl S S)) s s' r :
  body s = Some (Next s') -> runs body s' r -> runs body s r.
Proof. intros H [f Hf]. exists (Datatypes.S f). cbn [while_]. by rewrite H. Qed.

Lemma runs_det {S} (body : S -> option (ctl S S)) s r r' : runs body s r -> runs body s r' -> r = r'.
Proof.
  intros [f H] [f' H']. apply (while_mono _ _ (Nat.max f f')) in H, H'; [congruence | lia | lia].
Qed.

(** A loop that ends within its fuel ends where the big-step view says. *)
Lemma runs_while {S} (body : S -> option (ctl S S)) f s r r' :
  while_ f body s = Some r -> runs body s r' -> while_ f body s = Some r'.
Proof. intros H Hr. rewrite H. f_equal. apply (runs_det body s); [by exists f | done]. Qed.

(** ** Arrays as total functions on valid indices *)

Definition at_ (m : list Z) (i : Z) : Z := default 0 (load m i).

Lemma load_at m i : 0 <= i < Z.of_nat (length m) -> load m i = Some (at_ m i).
Proof. intros H. unfold at_. by destruct (load_in m i H) as [v ->]. Qed.

Lemma at_insert m i v j :
  0 <= i < Z.of_nat (length m) ->
  at_ (<[Z.to_nat i := v]> m) j = if decide (j = i) then v else at_ m j.
Proof.
  intros Hi. unfold at_. rewrite (load_store m i v _ j) by by apply store_in.
  repeat case_decide; congruence || done.
Qed.

Lemma at_ext m1 m2 :
  length m1 = length m2 ->
  (forall i, 0 <= i < Z.of_nat (length m1) -> at_ m1 i = at_ m2 i) -> m1 = m2.
Proof.
  intros Hl H. apply load_ext; [done |]. intros i Hi.
  rewrite !load_at by lia. by rewrite H.
Qed.

(** ** Arrays filled from the left, and loops that are folds *)

Lemma store_next {A} (l : list A) x r v :
  store (l ++ x :: r) (Z.of_nat (length l)) v = Some (l ++ v :: r).
Proof.
  rewrite store_in by (rewrite length_app; simpl; lia).
  rewrite Nat2Z.id, insert_app_r_alt by lia. by rewrite Nat.sub_diag.
Qed.

Lemma at_app_l l r i : i < Z.of_nat (length l) -> at_ (l ++ r) i = at_ l i.
Proof.
  intros Hi. unfold at_, load. case_decide; [| done]. rewrite lookup_app_l by lia. done.
Qed.

(** A loop that writes the cells [0 .. n-1] of an array. *)
Lemma for_up_write {A} (g : Z -> option A) (f : Z -> A) n (m : list A) :
  (n <= length m)%nat ->
  (forall i, 0 <= i < Z.of_nat n -> g i = Some (f i)) ->
  for_up n 0 (fun i m => b ← g i; store m i b) m = Some ((f <$> seqZ 0 (Z.of_nat n)) ++ drop n m).
Proof.
  intros Hn Hg.
  destruct (for_up_rule (fun k s => 0 <= k /\ s = (f <$> seqZ 0 k) ++ drop (Z.to_nat k) m) n 0
    (fun i m => b ← g i; store m i b) m) as (s & Hs & _ & ->).
  - done.
  - intros j t Hj [_ ->]. rewrite Hg by lia. cbn [mbind option_bind].
    assert (Hl : Z.of_nat (length (f <$> seqZ 0 j)) = j) by (rewrite length_fmap, length_seqZ; lia).
    destruct (drop (Z.to_nat j) m) as [| x r] eqn:Hd.
    { apply (f_equal length) in Hd. rewrite length_drop in Hd. simpl in Hd. lia. }
    eexists. split; [rewrite <- Hl at 2; apply store_next |].
    split; [lia |]. rewrite seqZ_app by lia. rewrite fmap_app. simpl. rewrite <- app_assoc. simpl.
    replace (Z.to_nat (j + 1)) with (Z.to_nat j + 1)%nat by lia.
    by rewrite <- drop_drop, Hd.
  - rewrite Hs. by rewrite Z.add_0_l, Nat2Z.id.
Qed.

Lemma for_up_ext {S} (f g : Z -> S -> option S) n i s :
  (forall j t, i <= j < i + Z.of_nat n -> f j t = g j t) -> for_up n i f s = for_up n i g s.
Proof.
  revert i s; induction n as [| n IH]; intros i s H; [done |].
  cbn [for_up]. rewrite H by lia. destruct (g i s); [| done]. apply IH. intros. apply H. lia.
Qed.

(** A loop whose body never fails is a fold; [P] is kept by every pass. *)
Lemma for_up_fold {S} (P : S -> Prop) (body : Z -> S -> option S) (g : S -> Z -> S) n i s :
  P s ->
  (forall j t, i <= j < i + Z.of_nat n -> P t -> body j t = Some (g t j) /\ P (g t j)) ->
  for_up n i body s = Some (foldl g s (seqZ i (Z.of_nat n))) /\
  P (foldl g s (seqZ i (Z.of_nat n))).
Proof.
  revert i s; induction n as [| n IH]; intros i s Hs H; [done |].
  rewrite seqZ_cons by lia. cbn [for_up foldl].
  destruct (H i s) as [-> Hg]; [lia | done |]. cbn [mbind option_bind].
  replace (Z.pred (Z.of_nat (Datatypes.S n))) with (Z.of_nat n) by lia.
  apply IH; [done |]. intros j t Hj. apply H. lia.
Qed.

Lemma store_app_r {A} (l r : list A) k j v :
  k = Z.of_nat (length l) + j -> 0 <= j ->
  store (l ++ r) k v = r' ← store r j v; Some (l ++ r').
Proof.
  intros -> Hj. unfold store. rewrite length_app. case_decide as H1; case_decide as H2; try lia; [| done].
  cbn [mbind option_bind]. rewrite insert_app_r_alt by lia. do 3 f_equal. lia.
Qed.

Lemma bind_eq {A B} (f : A -> option B) o x : o = Some x -> (y ← o; f y) = f x.
Proof. by intros ->. Qed.
