(* ===== verification/Bits.v ===== *)
(** * Bits: integer bit functions

    [mysys/my_bit.c] (the two tables) and [include/my_bit.h] (the inline
    functions over them).  [ulong] has 32 bits, as [SIZEOF_LONG] of
    [include/my_config.h] says.  The theorems relate every function to a
    reference definition: [popcount], [Z.log2], the reversal of bit
    positions, the least power of two that is not smaller. *)
From stdpp Require Import base tactics option list numbers.
From Stdlib Require Import ZArith Lia.
From S2P Require Import Prelude.

Module Bits.

(** ** Model *)

Definition _my_bits_nbits : list Z :=
  [
   0; 1; 1; 2; 1; 2; 2; 3; 1; 2; 2; 3; 2; 3; 3; 4;
   1; 2; 2; 3; 2; 3; 3; 4; 2; 3; 3; 4; 3; 4; 4; 5;
   1; 2; 2; 3; 2; 3; 3; 4; 2; 3; 3; 4; 3; 4; 4; 5;
   2; 3; 3; 4; 3; 4; 4; 5; 3; 4; 4; 5; 4; 5; 5; 6;
   1; 2; 2; 3; 2; 3; 3; 4; 2; 3; 3; 4; 3; 4; 4; 5;
   2; 3; 3; 4; 3; 4; 4; 5; 3; 4; 4; 5; 4; 5; 5; 6;
   2; 3; 3; 4; 3; 4; 4; 5; 3; 4; 4; 5; 4; 5; 5; 6;
   3; 4; 4; 5; 4; 5; 5; 6; 4; 5; 5; 6; 5; 6; 6; 7;
   1; 2; 2; 3; 2; 3; 3; 4; 2; 3; 3; 4; 3; 4; 4; 5;
   2; 3; 3; 4; 3; 4; 4; 5; 3; 4; 4; 5; 4; 5; 5; 6;
   2; 3; 3; 4; 3; 4; 4; 5; 3; 4; 4; 5; 4; 5; 5; 6;
   3; 4; 4; 5; 4; 5; 5; 6; 4; 5; 5; 6; 5; 6; 6; 7;
   2; 3; 3; 4; 3; 4; 4; 5; 3; 4; 4; 5; 4; 5; 5; 6;
   3; 4; 4; 5; 4; 5; 5; 6; 4; 5; 5; 6; 5; 6; 6; 7;
   3; 4; 4; 5; 4; 5; 5; 6; 4; 5; 5; 6; 5; 6; 6; 7;
   4; 5; 5; 6; 5; 6; 6; 7; 5; 6; 6; 7; 6; 7; 7; 8 ].

Definition _my_bits_reverse_table : list Z :=
  [
   0; 128; 64; 192; 32; 160; 96; 224; 16; 144; 80; 208; 48;
   176; 112; 240; 8; 136; 72; 200; 40; 168; 104; 232; 24; 152;
   88; 216; 56; 184; 120; 248; 4; 132; 68; 196; 36; 164; 100;
   228; 20; 148; 84; 212; 52; 180; 116; 244; 12; 140; 76; 204;
   44; 172; 108; 236; 28; 156; 92; 220; 60; 188; 124; 252; 2;
   130; 66; 194; 34; 162; 98; 226; 18; 146; 82; 210; 50; 178;
   114; 242; 10; 138; 74; 202; 42; 170; 106; 234; 26; 154; 90;
   218; 58; 186; 122; 250; 6; 134; 70; 198; 38; 166; 102; 230;
   22; 150; 86; 214; 54; 182; 118; 246; 14; 142; 78; 206; 46;
   174; 110; 238; 30; 158; 94; 222; 62; 190; 126; 254; 1; 129;
   65; 193; 33; 161; 97; 225; 17; 145; 81; 209; 49; 177; 113;
   241; 9; 137; 73; 201; 41; 169; 105; 233; 25; 153; 89; 217;
   57; 185; 121; 249; 5; 133; 69; 197; 37; 165; 101; 229; 21;
   149; 85; 213; 53; 181; 117; 245; 13; 141; 77; 205; 45; 173;
   109; 237; 29; 157; 93; 221; 61; 189; 125; 253; 3; 131; 67;
   195; 35; 163; 99; 227; 19; 147; 83; 211; 51; 179; 115; 243;
   11; 139; 75; 203; 43; 171; 107; 235; 27; 155; 91; 219; 59;
   187; 123; 251; 7; 135; 71; 199; 39; 167; 103; 231; 23; 151;
   87; 215; 55; 183; 119; 247; 15; 143; 79; 207; 47; 175; 111;
   239; 31; 159; 95; 223; 63; 191; 127; 255 ].

(** [for (bit=0 ; value > 1 ; value>>=1, bit++) ;] *)
Definition my_bit_log2_loop (value : Z) : option (Z * Z) :=
  while_ 33
    (fun '(value, bit) =>
       Some (if bool_decide (value > 1)
             then Next (value ≫ 1, u32 (bit + 1)) else Ret (value, bit)))
    (value, 0).

Definition my_bit_log2 (value : Z) : option Z := snd <$> my_bit_log2_loop value.

(** The sum of table entries is an [int], truncated to [uchar]. *)
Definition my_count_bits (v : Z) : option Z :=
  let v2 := u32 (v ≫ 32) in
  a0 ← load _my_bits_nbits (u8 v);
  a1 ← load _my_bits_nbits (u8 (v ≫ 8));
  a2 ← load _my_bits_nbits (u8 (v ≫ 16));
  a3 ← load _my_bits_nbits (u8 (v ≫ 24));
  b0 ← load _my_bits_nbits (u8 v2);
  b1 ← load _my_bits_nbits (u8 (v2 ≫ 8));
  b2 ← load _my_bits_nbits (u8 (v2 ≫ 16));
  b3 ← load _my_bits_nbits (u8 (v2 ≫ 24));
  Some (u8 (a0 + a1 + a2 + a3 + b0 + b1 + b2 + b3)).

Definition my_count_bits_ushort (v : Z) : option Z := load _my_bits_nbits v.

Definition my_round_up_to_next_power (v : Z) : Z :=
  let v := u32 (v - 1) in
  let v := v ||| (v ≫ 1) in
  let v := v ||| (v ≫ 2) in
  let v := v ||| (v ≫ 4) in
  let v := v ||| (v ≫ 8) in
  let v := v ||| (v ≫ 16) in
  u32 (v + 1).

Definition my_clear_highest_bit (v : Z) : Z :=
  let w := v ≫ 1 in
  let w := w ||| (w ≫ 1) in
  let w := w ||| (w ≫ 2) in
  let w := w ||| (w ≫ 4) in
  let w := w ||| (w ≫ 8) in
  let w := w ||| (w ≫ 16) in
  v &&& w.

Definition my_reverse_bits (key : Z) : option Z :=
  r0 ← load _my_bits_reverse_table (key &&& 255);
  r1 ← load _my_bits_reverse_table ((key ≫ 8) &&& 255);
  r2 ← load _my_bits_reverse_table ((key ≫ 16) &&& 255);
  r3 ← load _my_bits_reverse_table (key ≫ 24);
  Some (u32 (r0 ≪ 24) ||| u32 (r1 ≪ 16) ||| u32 (r2 ≪ 8) ||| r3).

(** ** Reference definitions *)

(** The number of bits set among the [n] low bits of [v]. *)
Fixpoint popcount (n : nat) (v : Z) : Z :=
  match n with
  | O => 0
  | S n' => popcount n' v + Z.b2z (Z.testbit v (Z.of_nat n'))
  end.

(** ** Lemmas *)

Lemma popcount_add a b v :
  popcount (a + b) v = popcount a v + popcount b (v ≫ Z.of_nat a).
Proof.
  induction b as [| b IH]; [rewrite Nat.add_0_r; simpl; lia |].
  rewrite Nat.add_succ_r; cbn [popcount]. rewrite IH.
  rewrite Z.shiftr_spec by lia. replace (Z.of_nat (a + b)) with (Z.of_nat b + Z.of_nat a) by lia.
  lia.
Qed.

Lemma popcount_ext n v w :
  (forall i, 0 <= i < Z.of_nat n -> Z.testbit v i = Z.testbit w i) ->
  popcount n v = popcount n w.
Proof.
  induction n as [| n IH]; intros H; cbn [popcount]; [done |].
  rewrite IH by (intros; apply H; lia). rewrite H by lia. done.
Qed.

Lemma popcount_uwrap n w v : Z.of_nat n <= w -> popcount n (uwrap w v) = popcount n v.
Proof.
  intros. apply popcount_ext. intros i Hi. rewrite uwrap_testbit by lia.
  by rewrite (proj2 (Z.ltb_lt i w)) by lia.
Qed.

Lemma popcount_range n v : 0 <= popcount n v <= Z.of_nat n.
Proof.
  induction n as [| n IH]; cbn [popcount]; [lia |]. destruct (Z.testbit _ _); simpl; lia.
Qed.

(** A statement checked on every byte holds of every byte. *)
Lemma byte_cases (P : Z -> bool) :
  forallb P (seqZ 0 256) = true -> forall b, 0 <= b < 256 -> P b = true.
Proof.
  intros H b Hb. rewrite forallb_forall in H. apply H.
  apply list_elem_of_In, elem_of_seqZ. lia.
Qed.

Lemma nbits_table b :
  0 <= b < 256 -> load _my_bits_nbits b = Some (popcount 8 b).
Proof.
  intros Hb.
  pose (P := fun b => match load _my_bits_nbits b with
    | Some r => r =? popcount 8 b | None => false end).
  assert (HP : P b = true) by (apply byte_cases; [vm_compute; reflexivity | done]).
  unfold P in HP. destruct (load _my_bits_nbits b); [| done].
  by apply Z.eqb_eq in HP as ->.
Qed.

Lemma reverse_table b :
  0 <= b < 256 -> exists r, load _my_bits_reverse_table b = Some r /\ 0 <= r < 256 /\
    forall i, 0 <= i < 8 -> Z.testbit r i = Z.testbit b (7 - i).
Proof.
  intros Hb.
  pose (P := fun b => match load _my_bits_reverse_table b with
    | Some r => (0 <=? r) && (r <? 256) &&
        forallb (fun i => Bool.eqb (Z.testbit r i) (Z.testbit b (7 - i))) (seqZ 0 8)
    | None => false end).
  assert (HP : P b = true) by (apply byte_cases; [vm_compute; reflexivity | done]).
  unfold P in HP. destruct (load _my_bits_reverse_table b) as [r |]; [| done].
  apply andb_prop in HP as [[H1 H2]%andb_prop H3].
  exists r. split; [done |]. split; [lia |]. intros i Hi.
  rewrite forallb_forall in H3. apply eqb_prop, H3, list_elem_of_In, elem_of_seqZ. lia.
Qed.

Lemma nbits_byte v : load _my_bits_nbits (u8 v) = Some (popcount 8 v).
Proof.
  rewrite nbits_table by (apply (uwrap_range 8); lia).
  by rewrite popcount_uwrap by lia.
Qed.

(** [smeared L k x]: the [k] bits of [x] from position [L] down are set and
    none above it is. *)
Definition smeared (L k x : Z) : Prop :=
  0 <= x /\ (forall i, 0 <= i -> L - k < i <= L -> Z.testbit x i = true) /\
  (forall i, L < i -> Z.testbit x i = false).

Lemma smear_start v : 0 < v -> smeared (Z.log2 v) 1 v.
Proof.
  intros Hv. split; [lia |]. split.
  - intros i Hi HL. replace i with (Z.log2 v) by lia. by apply Z.bit_log2.
  - intros i Hi. by apply Z.bits_above_log2; [lia |].
Qed.

Lemma smear_step L k x :
  0 <= k -> smeared L k x -> smeared L (k + k) (x ||| (x ≫ k)).
Proof.
  intros Hk (Hx & Hs & Hc). split; [| split].
  - apply Z.lor_nonneg. split; [done |]. by apply Z.shiftr_nonneg.
  - intros i Hi HL. rewrite Z.lor_spec, Z.shiftr_spec by done.
    destruct (decide (L - k < i)).
    + by rewrite Hs by lia.
    + rewrite (Hs (i + k)) by lia. apply orb_true_r.
  - intros i Hi. destruct (decide (0 <= i)).
    + by rewrite Z.lor_spec, Z.shiftr_spec, !Hc by lia.
    + by apply Z.testbit_neg_r; lia.
Qed.

Lemma smeared_ones L k x : 0 <= L < k -> smeared L k x -> x = 2 ^ (L + 1) - 1.
Proof.
  intros HL (Hx & Hs & Hc).
  replace (2 ^ (L + 1) - 1) with (Z.ones (L + 1)) by (rewrite Z.ones_equiv; lia).
  apply Z.bits_inj'; intros i Hi. destruct (decide (i <= L)).
  - rewrite Hs, Z.ones_spec_low by lia. done.
  - rewrite Hc, Z.ones_spec_high by lia. done.
Qed.

Lemma log2_lt32 v : 0 < v < 2 ^ 32 -> 0 <= Z.log2 v < 32.
Proof.
  intros Hv. pose proof (Z.log2_nonneg v).
  assert (Z.log2 v < 32) by (apply Z.log2_lt_pow2; lia). lia.
Qed.

(** The five shift-and-or steps of the two routines. *)
Lemma smear_all v :
  0 < v < 2 ^ 32 ->
  let v1 := v ||| (v ≫ 1) in let v2 := v1 ||| (v1 ≫ 2) in
  let v4 := v2 ||| (v2 ≫ 4) in let v8 := v4 ||| (v4 ≫ 8) in
  v8 ||| (v8 ≫ 16) = 2 ^ (Z.log2 v + 1) - 1.
Proof.
  intros Hv. cbv zeta.
  apply (smeared_ones (Z.log2 v) 32).
  - by apply log2_lt32.
  - apply (smear_step _ 16), (smear_step _ 8), (smear_step _ 4), (smear_step _ 2),
      (smear_step _ 1), smear_start; lia.
Qed.

(** ** Properties *)

(** my_count_bits counts the bits of a 64-bit integer, by table lookups that
    stay inside the table. *)
Lemma my_count_bits_spec v :
  0 <= v < 2 ^ 64 -> my_count_bits v = Some (popcount 64 v).
Proof.
  intros Hv. unfold my_count_bits.
  rewrite !nbits_byte. cbn [mbind option_bind]. f_equal.
  assert (H32 : forall k, 0 <= k <= 24 ->
     popcount 8 (u32 (v ≫ 32) ≫ k) = popcount 8 (v ≫ (32 + k))).
  { intros k Hk. apply popcount_ext. intros i Hi. autorewrite with cbits.
    rewrite (proj2 (Z.ltb_lt _ _)) by lia. simpl andb. f_equal. lia. }
  rewrite !H32, popcount_uwrap by lia. clear H32.
  rewrite (popcount_add 56 8 v : popcount 64 v = popcount 56 v + popcount 8 (v ≫ (32 + 24))).
  rewrite (popcount_add 48 8 v : popcount 56 v = popcount 48 v + popcount 8 (v ≫ (32 + 16))).
  rewrite (popcount_add 40 8 v : popcount 48 v = popcount 40 v + popcount 8 (v ≫ (32 + 8))).
  rewrite (popcount_add 32 8 v : popcount 40 v = popcount 32 v + popcount 8 (v ≫ (32))).
  rewrite (popcount_add 24 8 v : popcount 32 v = popcount 24 v + popcount 8 (v ≫ (24))).
  rewrite (popcount_add 16 8 v : popcount 24 v = popcount 16 v + popcount 8 (v ≫ (16))).
  rewrite (popcount_add 8 8 v : popcount 16 v = popcount 8 v + popcount 8 (v ≫ (8))).
  apply (uwrap_small 8).
  pose proof (popcount_range 8 v).
  repeat match goal with |- context [popcount 8 (v ≫ ?k)] =>
    pose proof (popcount_range 8 (v ≫ k)); generalize dependent (popcount 8 (v ≫ k)); intros end.
  lia.
Qed.

Lemma my_bit_log2_spec v :
  0 <= v < 2 ^ 32 -> my_bit_log2 v = Some (Z.log2 v).
Proof.
  intros Hv. unfold my_bit_log2, my_bit_log2_loop.
  destruct (while_rule
    (fun '(x, b) => 0 <= b /\ 0 <= x < 2 ^ 32 /\ b + Z.log2 x = Z.log2 v /\ (v = 0 -> x = 0) /\ (x = 0 -> v = 0))
    (fun '(x, b) => b = Z.log2 v) (fun '(x, b) => Z.log2 x) 33
    (fun '(value, bit) =>
       Some (if bool_decide (value > 1)
             then Next (value ≫ 1, u32 (bit + 1)) else Ret (value, bit)))
    (v, 0)) as ([x b] & Hr & Hq).
  - split_and!; try lia; done.
  - destruct (decide (v = 0)) as [-> | ]; [done |].
    pose proof (log2_lt32 v ltac:(lia)). lia.
  - intros [x b] _. apply Z.log2_nonneg.
  - intros [x b] (Hb & Hx & Hsum & H0 & H1). case_bool_decide as Hgt.
    + left. assert (Hlog : Z.log2 (x ≫ 1) = Z.log2 x - 1).
      { rewrite Z.log2_shiftr by lia. pose proof (Z.log2_le_mono 2 x ltac:(lia)).
        change (Z.log2 2) with 1 in *. lia. }
      pose proof (log2_lt32 x ltac:(lia)).
      destruct (decide (v = 0)) as [-> | ]; [lia |].
      pose proof (log2_lt32 v ltac:(lia)).
      eexists. split; [done |]. rewrite (uwrap_small 32) by lia.
      rewrite Hlog, Z.shiftr_div_pow2 by lia. change (2 ^ 1) with 2.
      split_and!; try lia; Zlia.
    + right. eexists. split; [done |]. destruct (decide (x = 0)) as [-> | ].
      * rewrite H1 by done. simpl in *. rewrite H1 in Hsum by done. simpl in Hsum. lia.
      * replace x with 1 in Hsum by lia. simpl in Hsum. lia.
  - rewrite Hr. simpl. by rewrite Hq.
Qed.

Lemma my_round_up_spec v :
  1 <= v <= 2 ^ 31 -> my_round_up_to_next_power v = 2 ^ Z.log2_up v.
Proof.
  intros Hv. destruct (decide (v = 1)) as [-> | ]; [reflexivity |].
  unfold my_round_up_to_next_power. cbv zeta.
  rewrite (uwrap_small 32 (v - 1)) by lia.
  rewrite (smear_all (v - 1)) by lia.
  rewrite Z.log2_up_eqn by lia. replace (Z.pred v) with (v - 1) by lia.
  pose proof (Z.log2_nonneg (v - 1)).
  assert (Hl : Z.log2 (v - 1) < 31) by (apply Z.log2_lt_pow2; lia).
  rewrite <- Z.add_1_r. rewrite Z.sub_add. apply uwrap_small.
  split; [lia |]. apply Z.pow_lt_mono_r; lia.
Qed.

Lemma my_clear_highest_bit_spec v :
  0 < v < 2 ^ 32 -> my_clear_highest_bit v = v - 2 ^ Z.log2 v.
Proof.
  intros Hv. destruct (decide (v = 1)) as [-> | ]; [reflexivity |].
  unfold my_clear_highest_bit. cbv zeta.
  assert (Hs : v ≫ 1 = v / 2) by by rewrite Z.shiftr_div_pow2.
  rewrite (smear_all (v ≫ 1)) by (rewrite Hs; Zlia).
  rewrite Z.log2_shiftr by lia. pose proof (Z.log2_le_mono 2 v ltac:(lia)) as Hl.
  change (Z.log2 2) with 1 in Hl. rewrite Z.max_r by lia.
  rewrite Z.sub_add, land_ones_uwrap by lia.
  pose proof (Z.log2_spec v ltac:(lia)) as Hsp. unfold uwrap.
  rewrite Z.pow_succ_r in Hsp by lia.
  symmetry. apply Z.mod_unique_pos with 1; lia.
Qed.

(** The byte of [x] at bit offset [k]. *)
Lemma testbit_byte x k i :
  0 <= k -> 0 <= i -> Z.testbit ((x ≫ k) &&& 255) i = (i <? 8) && Z.testbit x (i + k).
Proof.
  intros. change 255 with (2 ^ 8 - 1). rewrite land_ones_uwrap by lia.
  by autorewrite with cbits.
Qed.

(** my_reverse_bits mirrors the 32 bit positions. *)
Lemma my_reverse_bits_spec key :
  0 <= key < 2 ^ 32 -> exists r, my_reverse_bits key = Some r /\ 0 <= r < 2 ^ 32 /\
    forall i, 0 <= i < 32 -> Z.testbit r i = Z.testbit key (31 - i).
Proof.
  intros Hk.
  assert (Hb : forall k, 0 <= (key ≫ k) &&& 255 < 256).
  { intros k. change 255 with (2 ^ 8 - 1). rewrite land_ones_uwrap by lia.
    by apply (uwrap_range 8). }
  assert (H24 : key ≫ 24 = (key ≫ 24) &&& 255).
  { change 255 with (2 ^ 8 - 1). rewrite land_ones_uwrap by lia.
    symmetry. apply uwrap_small. rewrite Z.shiftr_div_pow2 by lia. Zlia. }
  destruct (reverse_table (key &&& 255)) as (r0 & E0 & R0 & B0); [apply (Hb 0) |].
  destruct (reverse_table _ (Hb 8)) as (r1 & E1 & R1 & B1).
  destruct (reverse_table _ (Hb 16)) as (r2 & E2 & R2 & B2).
  destruct (reverse_table _ (Hb 24)) as (r3 & E3 & R3 & B3).
  exists (u32 (r0 ≪ 24) ||| u32 (r1 ≪ 16) ||| u32 (r2 ≪ 8) ||| r3).
  assert (Hbits : forall i, 0 <= i -> Z.testbit
      (u32 (r0 ≪ 24) ||| u32 (r1 ≪ 16) ||| u32 (r2 ≪ 8) ||| r3) i
      = (i <? 32) && Z.testbit key (31 - i)).
  { intros i Hi. autorewrite with cbits.
    assert (Hr : forall r k, 0 <= r < 256 -> 0 <= k -> ~ (k <= i < k + 8) ->
      Z.testbit r (i - k) = false).
    { intros r k Hr Hk' Hik. destruct (decide (i < k)); [by apply Z.testbit_neg_r; lia |].
      apply (testbit_high 8); [done | lia]. }
    pose proof (Hr r3 0 R3) as Hr3. rewrite Z.sub_0_r in Hr3.
    destruct (decide (24 <= i < 32)).
    { rewrite (Hr r1), (Hr r2), Hr3, (B0 (i - 24)) by lia.
      rewrite (testbit_byte key 0) by lia. rewrite !(proj2 (Z.ltb_lt _ _)) by lia. simpl.
      rewrite !orb_false_r. f_equal; lia. }
    destruct (decide (16 <= i < 24)).
    { rewrite (Hr r0), (Hr r2), Hr3, (B1 (i - 16)) by lia.
      rewrite testbit_byte by lia. rewrite !(proj2 (Z.ltb_lt _ _)) by lia. simpl.
      rewrite !orb_false_r. f_equal; lia. }
    destruct (decide (8 <= i < 16)).
    { rewrite (Hr r0), (Hr r1), Hr3, (B2 (i - 8)) by lia.
      rewrite testbit_byte by lia. rewrite !(proj2 (Z.ltb_lt _ _)) by lia. simpl.
      rewrite !orb_false_r. f_equal; lia. }
    destruct (decide (i < 8)).
    { rewrite (Hr r0), (Hr r1), (Hr r2), (B3 i) by lia.
      rewrite testbit_byte by lia. rewrite !(proj2 (Z.ltb_lt _ _)) by lia. simpl.
      f_equal; lia. }
    rewrite !(proj2 (Z.ltb_ge i 32)) by lia. simpl. apply (testbit_high 8); [done | lia]. }
  split; [| split].
  - unfold my_reverse_bits. rewrite H24, E0, E1, E2, E3. done.
  - apply range_of_bits; [lia |]. intros i Hi. rewrite Hbits by lia.
    by rewrite (proj2 (Z.ltb_ge i 32)).
  - intros i Hi. rewrite Hbits by lia. by rewrite (proj2 (Z.ltb_lt i 32)) by lia.
Qed.

(** The bit utilities of [my_bit.h] on 32-bit (64-bit for the count)
    arguments: [my_bit_log2] terminates with the rounded-down binary logarithm,
    [my_count_bits] counts the one bits through the table,
    [my_round_up_to_next_power] is the least power of two not below its
    argument, [my_clear_highest_bit] removes the leading bit and
    [my_reverse_bits] mirrors the 32 bits. *)
Theorem bit_functions (v : Z) :
  0 < v < 2 ^ 32 ->
  my_bit_log2 v = Some (Z.log2 v) /\
  my_count_bits v = Some (popcount 64 v) /\
  (v <= 2 ^ 31 -> my_round_up_to_next_power v = 2 ^ Z.log2_up v) /\
  my_clear_highest_bit v = v - 2 ^ Z.log2 v /\
  exists r, my_reverse_bits v = Some r /\ 0 <= r < 2 ^ 32 /\
    forall i, 0 <= i < 32 -> Z.testbit r i = Z.testbit v (31 - i).
Proof.
  intros Hv. split_and!.
  - apply my_bit_log2_spec. lia.
  - apply my_count_bits_spec. lia.
  - intros. apply my_round_up_spec. lia.
  - by apply my_clear_highest_bit_spec.
  - apply my_reverse_bits_spec. lia.
Qed.

Lemma bit_functions_witness : my_bit_log2 1000 = Some (Z.log2 1000).
Proof. apply (bit_functions 1000). lia. Defined.

End Bits.
