(* ===== verification/Bitmap.v ===== *)
(** * Bitmap: uchar arrays as large bitmaps

    [mysys/my_bitmap.c] and the macros and inline functions of
    [include/my_bitmap.h], with [DBUG_OFF] (the assertions are hypotheses of
    the theorems, not code) and [THREAD].

    The buffer is an array of 32-bit words that the code reads and writes
    both as words and as bytes.  [be] is the byte order of the machine: every
    theorem holds for both.  [None] is an access outside the buffer, a [NULL]
    buffer, or a mutex locked twice.  The abstraction [bits_of] is the finite
    set of the bit numbers that are set, and the theorems say that the
    operations are the operations of finite sets. *)
From stdpp Require Import base tactics option list numbers gmap sets fin_sets.
From Stdlib Require Import ZArith Lia.
From S2P Require Import Prelude.
From S2P Require Import Bits.

Module Bitmap.

(** ** Model *)

(** [st_bitmap].  [last_word_ptr] is a word index into [bitmap]; [mutex] is
    [None] for a null pointer and [Some held] for a mutex. *)
Record MY_BITMAP := mk_MY_BITMAP {
  bitmap : option (list Z);
  n_bits : Z;
  last_word_mask : Z;
  last_word_ptr : Z;
  mutex : option bool
}.

Definition set_bitmap (m : MY_BITMAP) (b : option (list Z)) : MY_BITMAP :=
  mk_MY_BITMAP b (n_bits m) (last_word_mask m) (last_word_ptr m) (mutex m).

Definition set_mutex (m : MY_BITMAP) (x : option bool) : MY_BITMAP :=
  mk_MY_BITMAP (bitmap m) (n_bits m) (last_word_mask m) (last_word_ptr m) x.

Definition MY_BIT_NONE : Z := 2 ^ 32 - 1.

Definition bitmap_buffer_size (bits : Z) : Z := u32 (bits + 31) / 32 * 4.
Definition no_bytes_in_map (m : MY_BITMAP) : Z := u32 (n_bits m + 7) / 8.
Definition no_words_in_map (m : MY_BITMAP) : Z := u32 (n_bits m + 31) / 32.

Section ByteOrder.
Context (be : bool).

(** The position inside its word of the byte at byte address [k]. *)
Definition byte_shift (k : Z) : Z := 8 * (if be then 3 - k mod 4 else k mod 4).

Definition load_byte (ws : list Z) (k : Z) : option Z :=
  w ← load ws (k / 4); Some ((w ≫ byte_shift k) &&& 255).

Definition store_byte (ws : list Z) (k v : Z) : option (list Z) :=
  w ← load ws (k / 4);
  store ws (k / 4) (Z.ldiff w (255 ≪ byte_shift k) ||| (u8 v ≪ byte_shift k)).

(** [memset(p, v, n)] at byte address [k]. *)
Definition memset (ws : list Z) (k v : Z) (n : Z) : option (list Z) :=
  for_up (Z.to_nat n) k (fun j s => store_byte s j v) ws.

Definition create_last_word_mask (map : MY_BITMAP) : option MY_BITMAP :=
  let used := u32 (1 + (u32 (n_bits map - 1) &&& 7)) in
  let mask := Z.lnot ((1 ≪ used) - 1) &&& 255 in
  let lwp := no_words_in_map map - 1 in
  let fin ptr := w ← load ptr 0;
    Some (mk_MY_BITMAP (bitmap map) (n_bits map) w lwp (mutex map)) in
  match no_bytes_in_map map &&& 3 with
  | 1 => ptr ← store_byte [2 ^ 32 - 1] 0 mask; fin ptr
  | 2 => ptr ← store_byte [2 ^ 32 - 1] 0 0; ptr ← store_byte ptr 1 mask; fin ptr
  | 3 => ptr ← store_byte [0] 2 mask; ptr ← store_byte ptr 3 255; fin ptr
  | _ => ptr ← store_byte [0] 3 mask; fin ptr
  end.

Definition bitmap_lock (map : MY_BITMAP) : option MY_BITMAP :=
  match mutex map with
  | None => Some map
  | Some false => Some (set_mutex map (Some true))
  | Some true => None
  end.

Definition bitmap_unlock (map : MY_BITMAP) : option MY_BITMAP :=
  match mutex map with
  | None => Some map
  | Some true => Some (set_mutex map (Some false))
  | Some false => None
  end.

Definition bitmap_clear_all (map : MY_BITMAP) : option MY_BITMAP :=
  b ← bitmap map;
  b ← memset b 0 0 (4 * no_words_in_map map);
  Some (set_bitmap map (Some b)).

Definition bitmap_set_all (map : MY_BITMAP) : option MY_BITMAP :=
  b ← bitmap map;
  b ← memset b 0 255 (4 * no_words_in_map map);
  Some (set_bitmap map (Some b)).

(** [my_malloc size] gives the words of a fresh block of [size] bytes, of
    unknown content, or [None].  The buffer of the map is the first
    [bitmap_buffer_size] bytes of the block: the padding of [ALIGN_SIZE] and
    the mutex, which lie behind, are not a place the bitmap may write.  The
    result is [my_bool] (0 is success) and the map. *)
Definition bitmap_init (my_malloc : Z -> option (list Z)) (sizeof_mutex : Z)
    (map : MY_BITMAP) (buf : option (list Z)) (nbits : Z) (thread_safe : bool)
  : option (Z * MY_BITMAP) :=
  let finish map b :=
    map ← create_last_word_mask
            (mk_MY_BITMAP (Some b) nbits (last_word_mask map)
               (last_word_ptr map) (mutex map));
    map ← bitmap_clear_all map;
    Some (0, map) in
  match buf with
  | None =>
      let size_in_bytes := bitmap_buffer_size nbits in
      let '(size_in_bytes, extra) :=
        if thread_safe
        then ((size_in_bytes + 7) / 8 * 8, sizeof_mutex)
        else (size_in_bytes, 0) in
      let map := set_mutex map None in
      match my_malloc (size_in_bytes + extra) with
      | None => Some (1, map)
      | Some b =>
          let map := if thread_safe then set_mutex map (Some false) else map in
          finish map (take (Z.to_nat (bitmap_buffer_size nbits / 4)) b)
      end
  | Some b => finish map b
  end.

Definition bitmap_free (map : MY_BITMAP) : MY_BITMAP :=
  match bitmap map with
  | Some _ => set_bitmap map None
  | None => map
  end.

(** The four byte macros of the header. *)
Definition bitmap_set_bit (map : MY_BITMAP) (bit : Z) : option MY_BITMAP :=
  b ← bitmap map;
  x ← load_byte b (bit / 8);
  b ← store_byte b (bit / 8) (x ||| (1 ≪ (bit &&& 7)));
  Some (set_bitmap map (Some b)).

Definition bitmap_flip_bit (map : MY_BITMAP) (bit : Z) : option MY_BITMAP :=
  b ← bitmap map;
  x ← load_byte b (bit / 8);
  b ← store_byte b (bit / 8) (x ^^^ (1 ≪ (bit &&& 7)));
  Some (set_bitmap map (Some b)).

Definition bitmap_clear_bit (map : MY_BITMAP) (bit : Z) : option MY_BITMAP :=
  b ← bitmap map;
  x ← load_byte b (bit / 8);
  b ← store_byte b (bit / 8) (x &&& Z.lnot (1 ≪ (bit &&& 7)));
  Some (set_bitmap map (Some b)).

Definition bitmap_is_set (map : MY_BITMAP) (bit : Z) : option Z :=
  b ← bitmap map;
  x ← load_byte b (bit / 8);
  Some (x &&& (1 ≪ (bit &&& 7))).

Definition bitmap_fast_test_and_set (map : MY_BITMAP) (bitmap_bit : Z)
  : option (Z * MY_BITMAP) :=
  b ← bitmap map;
  value ← load_byte b (bitmap_bit / 8);
  let bit := u8 (1 ≪ (bitmap_bit &&& 7)) in
  let res := value &&& bit in
  b ← store_byte b (bitmap_bit / 8) (value ||| bit);
  Some (s8 res, set_bitmap map (Some b)).

Definition bitmap_test_and_set (map : MY_BITMAP) (bitmap_bit : Z)
  : option (Z * MY_BITMAP) :=
  map ← bitmap_lock map;
  '(res, map) ← bitmap_fast_test_and_set map bitmap_bit;
  map ← bitmap_unlock map;
  Some (res, map).

Definition bitmap_fast_test_and_clear (map : MY_BITMAP) (bitmap_bit : Z)
  : option (Z * MY_BITMAP) :=
  b ← bitmap map;
  byte ← load_byte b (bitmap_bit / 8);
  let bit := u8 (1 ≪ (bitmap_bit &&& 7)) in
  let res := byte &&& bit in
  b ← store_byte b (bitmap_bit / 8) (byte &&& Z.lnot bit);
  Some (s8 res, set_bitmap map (Some b)).

Definition bitmap_test_and_clear (map : MY_BITMAP) (bitmap_bit : Z)
  : option (Z * MY_BITMAP) :=
  map ← bitmap_lock map;
  '(res, map) ← bitmap_fast_test_and_clear map bitmap_bit;
  map ← bitmap_unlock map;
  Some (res, map).

Definition bitmap_set_prefix (map : MY_BITMAP) (prefix_size : Z)
  : option MY_BITMAP :=
  m ← bitmap map;
  let prefix_size := if bool_decide (prefix_size > n_bits map)
                     then n_bits map else prefix_size in
  let prefix_bytes := prefix_size / 8 in
  m ← (if bool_decide (prefix_bytes <> 0) then memset m 0 255 prefix_bytes else Some m);
  let prefix_bits := prefix_size &&& 7 in
  '(m, p) ← (if bool_decide (prefix_bits <> 0)
             then m ← store_byte m prefix_bytes ((1 ≪ prefix_bits) - 1);
                  Some (m, prefix_bytes + 1)
             else Some (m, prefix_bytes));
  let d := u32 (no_bytes_in_map map - prefix_bytes) in
  m ← (if bool_decide (d <> 0) then memset m p 0 d else Some m);
  Some (set_bitmap map (Some m)).

(** [*map->last_word_ptr op= ...], used by most of the routines below. *)
Definition clear_last_bits (map : MY_BITMAP) : option MY_BITMAP :=
  b ← bitmap map;
  w ← load b (last_word_ptr map);
  b ← store b (last_word_ptr map) (w &&& u32 (Z.lnot (last_word_mask map)));
  Some (set_bitmap map (Some b)).

Definition set_last_bits (map : MY_BITMAP) : option MY_BITMAP :=
  b ← bitmap map;
  w ← load b (last_word_ptr map);
  b ← store b (last_word_ptr map) (w ||| last_word_mask map);
  Some (set_bitmap map (Some b)).

(** [while (m < end) if ( *m++ != v) return ...] over the bytes [from .. to-1]. *)
Definition bytes_are (ws : list Z) (v from to : Z) : option (ctl unit unit) :=
  for_ret (Z.to_nat (to - from)) from
    (fun k _ => b ← load_byte ws k;
       Some (if bool_decide (b <> v) then Ret tt else Next tt)) tt.

Definition bitmap_is_prefix (map : MY_BITMAP) (prefix_size : Z)
  : option (bool * MY_BITMAP) :=
  b ← bitmap map;
  let prefix_bits := prefix_size &&& 7 in
  let end_prefix := prefix_size / 8 in
  let end_ := no_bytes_in_map map in
  r ← bytes_are b 255 0 end_prefix;
  match r with
  | Ret _ => Some (false, map)
  | Next _ =>
      map ← clear_last_bits map;
      b ← bitmap map;
      '(bad, m) ← (if bool_decide (prefix_bits <> 0)
                   then x ← load_byte b end_prefix;
                        Some (bool_decide (x <> (1 ≪ prefix_bits) - 1), end_prefix + 1)
                   else Some (false, end_prefix));
      if bad : bool then Some (false, map)
      else
        r ← bytes_are b 0 m end_;
        Some (match r with Ret _ => false | Next _ => true end, map)
  end.

(** [for (; data_ptr <= end; data_ptr++) if (bad( *data_ptr)) return ...] over
    the words [0 .. n-1]. *)
Definition words_until (ws : list Z) (bad : Z -> bool) (n : Z) : option (ctl unit unit) :=
  for_ret (Z.to_nat n) 0
    (fun k _ => w ← load ws k; Some (if bad w then Ret tt else Next tt)) tt.

Definition bitmap_is_set_all (map : MY_BITMAP) : option (bool * MY_BITMAP) :=
  map ← set_last_bits map;
  b ← bitmap map;
  r ← words_until b (fun w => bool_decide (w <> 2 ^ 32 - 1)) (last_word_ptr map + 1);
  Some (match r with Ret _ => false | Next _ => true end, map).

Definition bitmap_is_clear_all (map : MY_BITMAP) : option bool :=
  b ← bitmap map;
  w ← load b (last_word_ptr map);
  if bool_decide (w &&& u32 (Z.lnot (last_word_mask map)) <> 0) then Some false
  else
    r ← words_until b (fun w => bool_decide (w <> 0)) (last_word_ptr map);
    Some (match r with Ret _ => false | Next _ => true end).

(** [while (m1 <= end) if (bad( *m1++, *m2++)) return ...]. *)
Definition words_until2 (ws1 ws2 : list Z) (bad : Z -> Z -> bool) (n : Z)
  : option (ctl unit unit) :=
  for_ret (Z.to_nat n) 0
    (fun k _ => w1 ← load ws1 k; w2 ← load ws2 k;
       Some (if bad w1 w2 then Ret tt else Next tt)) tt.

Definition bitmap_is_subset (map1 map2 : MY_BITMAP)
  : option (bool * MY_BITMAP * MY_BITMAP) :=
  map1 ← clear_last_bits map1;
  map2 ← clear_last_bits map2;
  m1 ← bitmap map1;
  m2 ← bitmap map2;
  r ← words_until2 m1 m2
        (fun w1 w2 => bool_decide (w1 &&& u32 (Z.lnot w2) <> 0)) (last_word_ptr map1 + 1);
  Some (match r with Ret _ => false | Next _ => true end, map1, map2).

Definition bitmap_is_overlapping (map1 map2 : MY_BITMAP)
  : option (bool * MY_BITMAP * MY_BITMAP) :=
  map1 ← clear_last_bits map1;
  map2 ← clear_last_bits map2;
  m1 ← bitmap map1;
  m2 ← bitmap map2;
  r ← words_until2 m1 m2
        (fun w1 w2 => bool_decide (w1 &&& w2 <> 0)) (last_word_ptr map1 + 1);
  Some (match r with Ret _ => true | Next _ => false end, map1, map2).

(** The word loops of the set operations: [*to++ = f( *to, *from++)]. *)
Definition combine_words (f : Z -> Z -> Z) (to from : list Z) (n : Z)
  : option (list Z) :=
  for_up (Z.to_nat n) 0
    (fun k s => w ← load s k; v ← (x ← load from k; Some (f w x)); store s k v) to.

Definition bitmap_intersect (map map2 : MY_BITMAP)
  : option (MY_BITMAP * MY_BITMAP) :=
  let len := no_words_in_map map in
  let len2 := no_words_in_map map2 in
  map2 ← clear_last_bits map2;
  to ← bitmap map;
  from ← bitmap map2;
  let end_ := Z.min len len2 in
  to ← combine_words Z.land to from end_;
  to ← (if bool_decide (len2 < len)
        then for_up (Z.to_nat (len - len2)) end_ (fun k s => store s k 0) to
        else Some to);
  Some (set_bitmap map (Some to), map2).

Definition bitmap_set_above (map : MY_BITMAP) (from_byte use_bit : Z)
  : option MY_BITMAP :=
  let use_byte := if bool_decide (use_bit <> 0) then 255 else 0 in
  b ← bitmap map;
  let end_ := u32 (n_bits map + 7) / 8 in
  b ← for_up (Z.to_nat (end_ - from_byte)) from_byte
        (fun k s => store_byte s k use_byte) b;
  Some (set_bitmap map (Some b)).

Definition bitmap_subtract (map map2 : MY_BITMAP) : option MY_BITMAP :=
  to ← bitmap map;
  from ← bitmap map2;
  to ← combine_words (fun w x => w &&& u32 (Z.lnot x)) to from (last_word_ptr map + 1);
  Some (set_bitmap map (Some to)).

Definition bitmap_union (map map2 : MY_BITMAP) : option MY_BITMAP :=
  to ← bitmap map;
  from ← bitmap map2;
  to ← combine_words Z.lor to from (last_word_ptr map + 1);
  Some (set_bitmap map (Some to)).

Definition bitmap_xor (map map2 : MY_BITMAP) : option MY_BITMAP :=
  to ← bitmap map;
  from ← bitmap map2;
  to ← combine_words Z.lxor to from (last_word_ptr map + 1);
  Some (set_bitmap map (Some to)).

Definition bitmap_invert (map : MY_BITMAP) : option MY_BITMAP :=
  to ← bitmap map;
  to ← for_up (Z.to_nat (last_word_ptr map + 1)) 0
         (fun k s => w ← load s k; v ← Some (w ^^^ (2 ^ 32 - 1)); store s k v) to;
  Some (set_bitmap map (Some to)).

Definition bitmap_copy (map map2 : MY_BITMAP) : option MY_BITMAP :=
  to ← bitmap map;
  from ← bitmap map2;
  to ← combine_words (fun _ x => x) to from (last_word_ptr map + 1);
  Some (set_bitmap map (Some to)).

(** [memcmp] of the first [4*no_words] bytes of the two buffers. *)
Definition bitmap_cmp (map1 map2 : MY_BITMAP)
  : option (bool * MY_BITMAP * MY_BITMAP) :=
  map1 ← set_last_bits map1;
  map2 ← set_last_bits map2;
  b1 ← bitmap map1;
  b2 ← bitmap map2;
  r ← for_ret (Z.to_nat (4 * no_words_in_map map1)) 0
        (fun k (_ : unit) => x ← load_byte b1 k; y ← load_byte b2 k;
           Some (if bool_decide (x <> y) then Ret tt else Next tt)) tt;
  Some (match r with Ret _ => false | Next _ => true end, map1, map2).

Definition bitmap_bits_set (map : MY_BITMAP) : option (Z * MY_BITMAP) :=
  let end_ := no_bytes_in_map map in
  map ← clear_last_bits map;
  b ← bitmap map;
  res ← for_up (Z.to_nat end_) 0
          (fun k res => x ← load_byte b k;
             c ← Bits.my_count_bits_ushort x; Some (u32 (res + c))) 0;
  Some (res, map).

(** The two inner loops of the scans for a bit: the byte [j] of word [i] for
    which [stop] holds, then the bit [k] of that byte for which [hit] holds. *)
Definition scan_word (ws : list Z) (stop : Z -> bool) (hit : Z -> Z -> bool) (i : Z)
  : option Z :=
  j ← while_ 5 (fun j => b ← load_byte ws (4 * i + j);
                  Some (if stop b then Ret j else Next (j + 1))) 0;
  b ← load_byte ws (4 * i + j);
  k ← while_ 9 (fun k => Some (if hit b k then Ret k else Next (k + 1))) 0;
  Some (u32 (i * 32 + j * 8 + k)).

Definition bitmap_get_first_set (map : MY_BITMAP) : option (Z * MY_BITMAP) :=
  map ← clear_last_bits map;
  b ← bitmap map;
  r ← for_ret (Z.to_nat (last_word_ptr map + 1)) 0
        (fun i (_ : unit) =>
           w ← load b i;
           if bool_decide (w <> 0)
           then r ← scan_word b (fun x => bool_decide (x <> 0))
                      (fun x k => bool_decide (x &&& (1 ≪ k) <> 0)) i;
                Some (Ret r)
           else Some (Next tt)) tt;
  Some (match r with Ret r => r | Next _ => MY_BIT_NONE end, map).

Definition bitmap_get_first (map : MY_BITMAP) : option (Z * MY_BITMAP) :=
  map ← set_last_bits map;
  b ← bitmap map;
  r ← for_ret (Z.to_nat (last_word_ptr map + 1)) 0
        (fun i (_ : unit) =>
           w ← load b i;
           if bool_decide (w <> 2 ^ 32 - 1)
           then r ← scan_word b (fun x => bool_decide (x <> 255))
                      (fun x k => bool_decide (x &&& (1 ≪ k) = 0)) i;
                Some (Ret r)
           else Some (Next tt)) tt;
  Some (match r with Ret r => r | Next _ => MY_BIT_NONE end, map).

Definition bitmap_set_next (map : MY_BITMAP) : option (Z * MY_BITMAP) :=
  '(bit_found, map) ← bitmap_get_first map;
  map ← (if bool_decide (bit_found <> MY_BIT_NONE)
         then bitmap_set_bit map bit_found else Some map);
  Some (bit_found, map).

(** The thread safe versions. *)
Definition with_lock {R} (op : MY_BITMAP -> option (R * MY_BITMAP)) (map : MY_BITMAP)
  : option (R * MY_BITMAP) :=
  map ← bitmap_lock map;
  '(res, map) ← op map;
  map ← bitmap_unlock map;
  Some (res, map).

Definition void {R} (op : MY_BITMAP -> option R) (map : MY_BITMAP)
  : option (unit * R) :=
  map ← op map; Some (tt, map).

Definition pure {R} (op : MY_BITMAP -> option R) (map : MY_BITMAP)
  : option (R * MY_BITMAP) :=
  r ← op map; Some (r, map).

Definition bitmap_lock_set_next := with_lock bitmap_set_next.
Definition bitmap_lock_clear_bit (map : MY_BITMAP) (bit : Z) :=
  with_lock (void (fun m => bitmap_clear_bit m bit)) map.
Definition bitmap_lock_is_prefix (map : MY_BITMAP) (prefix_size : Z) :=
  with_lock (fun m => bitmap_is_prefix m prefix_size) map.
Definition bitmap_lock_set_all := with_lock (void bitmap_set_all).
Definition bitmap_lock_clear_all := with_lock (void bitmap_clear_all).
Definition bitmap_lock_set_prefix (map : MY_BITMAP) (prefix_size : Z) :=
  with_lock (void (fun m => bitmap_set_prefix m prefix_size)) map.
Definition bitmap_lock_is_clear_all := with_lock (pure bitmap_is_clear_all).
Definition bitmap_lock_is_set_all := with_lock bitmap_is_set_all.
Definition bitmap_lock_is_set (map : MY_BITMAP) (bit : Z) :=
  with_lock (pure (fun m => bitmap_is_set m bit)) map.
Definition bitmap_lock_bits_set := with_lock bitmap_bits_set.
Definition bitmap_lock_get_first := with_lock bitmap_get_first.
Definition bitmap_lock_get_first_set := with_lock bitmap_get_first_set.
Definition bitmap_lock_set_bit (map : MY_BITMAP) (bit : Z) :=
  with_lock (void (fun m => bitmap_set_bit m bit)) map.
Definition bitmap_lock_flip_bit (map : MY_BITMAP) (bit : Z) :=
  with_lock (void (fun m => bitmap_flip_bit m bit)) map.

(** Two maps: [map] is locked first and released last. *)
Definition with_lock2 {R}
    (op : MY_BITMAP -> MY_BITMAP -> option (R * MY_BITMAP * MY_BITMAP))
    (map map2 : MY_BITMAP) : option (R * MY_BITMAP * MY_BITMAP) :=
  map ← bitmap_lock map;
  map2 ← bitmap_lock map2;
  '(res, map, map2) ← op map map2;
  map2 ← bitmap_unlock map2;
  map ← bitmap_unlock map;
  Some (res, map, map2).

Definition update_first (op : MY_BITMAP -> MY_BITMAP -> option MY_BITMAP)
    (map map2 : MY_BITMAP) : option (unit * MY_BITMAP * MY_BITMAP) :=
  map ← op map map2; Some (tt, map, map2).

Definition bitmap_lock_is_subset := with_lock2 bitmap_is_subset.
Definition bitmap_lock_cmp := with_lock2 bitmap_cmp.
Definition bitmap_lock_intersect := with_lock2 (fun map map2 =>
  '(map, map2) ← bitmap_intersect map map2; Some (tt, map, map2)).
Definition bitmap_lock_subtract := with_lock2 (update_first bitmap_subtract).
Definition bitmap_lock_union := with_lock2 (update_first bitmap_union).

(** ** Abstraction and well-formedness *)

(** The position inside its word of bit number [r] of that word. *)
Definition wpos (r : Z) : Z := 8 * (if be then 3 - r / 8 else r / 8) + r mod 8.

Definition bit_at (ws : list Z) (i : Z) : bool :=
  match load ws (i / 32) with
  | Some w => Z.testbit w (wpos (i mod 32))
  | None => false
  end.

Definition words (m : MY_BITMAP) : list Z := default [] (bitmap m).

(** The set of bit numbers below [n_bits] that are set. *)
Definition bits_of (m : MY_BITMAP) : gset Z :=
  list_to_set (filter (fun i => bit_at (words m) i = true) (seqZ 0 (n_bits m))).

(** All bit numbers of the map. *)
Definition universe (m : MY_BITMAP) : gset Z := list_to_set (seqZ 0 (n_bits m)).

Definition u32_word (w : Z) : Prop := 0 <= w < 2 ^ 32.

Definition mask_ok (n mask : Z) : Prop :=
  u32_word mask /\
  forall r, 0 <= r < 32 -> Z.testbit mask (wpos r) = bool_decide ((n - 1) mod 32 < r).

Record wf (m : MY_BITMAP) : Prop := {
  wf_buf : bitmap m = Some (words m);
  wf_bits : 0 < n_bits m <= 2 ^ 32 - 32;
  wf_len : Z.of_nat (length (words m)) = (n_bits m + 31) / 32;
  wf_words : Forall u32_word (words m);
  wf_mask : mask_ok (n_bits m) (last_word_mask m);
  wf_lwp : last_word_ptr m = (n_bits m + 31) / 32 - 1
}.

(** ** Lemmas: bit positions *)

Lemma wpos_range r : 0 <= r < 32 -> 0 <= wpos r < 32.
Proof. intros. unfold wpos. destruct be; Zlia. Qed.

Lemma wpos_inj r s : 0 <= r < 32 -> 0 <= s < 32 -> wpos r = wpos s -> r = s.
Proof. intros. unfold wpos in *. destruct be; Zlia. Qed.

Lemma wpos_surj p : 0 <= p < 32 -> exists r, 0 <= r < 32 /\ wpos r = p.
Proof.
  intros. exists (8 * (if be then 3 - p / 8 else p / 8) + p mod 8).
  unfold wpos. destruct be; split; Zlia.
Qed.

Lemma byte_shift_range k : 0 <= byte_shift k <= 24.
Proof. unfold byte_shift. destruct be; Zlia. Qed.

(** Byte [i / 8] covers bit [i] of its word. *)
Lemma wpos_byte i : wpos (i mod 32) = byte_shift (i / 8) + i mod 8.
Proof.
  unfold wpos, byte_shift.
  replace ((i / 8) mod 4) with (i mod 32 / 8) by Zlia.
  replace (i mod 32 mod 8) with (i mod 8) by Zlia. done.
Qed.

Lemma byte_shift_disjoint i k :
  i / 8 <> k -> (i / 8) / 4 = k / 4 ->
  ~ (byte_shift k <= wpos (i mod 32) < byte_shift k + 8).
Proof.
  intros Hne Heq. rewrite wpos_byte.
  assert ((i / 8) mod 4 <> k mod 4) by Zlia.
  unfold byte_shift. destruct be; Zlia.
Qed.

Lemma word_eq w v :
  u32_word w -> u32_word v ->
  (forall r, 0 <= r < 32 -> Z.testbit w (wpos r) = Z.testbit v (wpos r)) -> w = v.
Proof.
  intros Hw Hv H. apply (bits_eq 32); [done | done |]. intros p Hp.
  destruct (wpos_surj p) as (r & Hr & <-); auto.
Qed.

(** ** Lemmas: buffers as bit functions *)

Lemma bit_at_word ws j w r :
  load ws j = Some w -> 0 <= r < 32 -> bit_at ws (32 * j + r) = Z.testbit w (wpos r).
Proof.
  intros Hw Hr. unfold bit_at. replace ((32 * j + r) / 32) with j by Zlia.
  rewrite Hw. f_equal. f_equal. Zlia.
Qed.

Lemma bit_at_store ws j v ws' i :
  store ws j v = Some ws' ->
  bit_at ws' i = if decide (i / 32 = j) then Z.testbit v (wpos (i mod 32)) else bit_at ws i.
Proof.
  intros Hs. unfold bit_at. rewrite (load_store _ _ _ _ _ Hs).
  repeat case_decide; congruence || done.
Qed.

Lemma load_byte_in ws k :
  0 <= k < 4 * Z.of_nat (length ws) -> exists b, load_byte ws k = Some b /\ 0 <= b < 256 /\
    forall r, 0 <= r < 8 -> Z.testbit b r = bit_at ws (8 * k + r).
Proof.
  intros Hk. unfold load_byte. destruct (load_in ws (k / 4)) as [w Hw]; [Zlia |].
  rewrite Hw. eexists. split; [done |].
  change 255 with (2 ^ 8 - 1). rewrite land_ones_uwrap by lia.
  split; [by apply (uwrap_range 8) |]. intros r Hr.
  pose proof (byte_shift_range k).
  rewrite uwrap_testbit, Z.shiftr_spec, (proj2 (Z.ltb_lt r 8)) by lia. simpl.
  unfold bit_at. replace ((8 * k + r) / 32) with (k / 4) by Zlia. rewrite Hw.
  rewrite wpos_byte. replace ((8 * k + r) / 8) with k by Zlia. f_equal. Zlia.
Qed.

Lemma store_byte_in ws k v :
  0 <= k < 4 * Z.of_nat (length ws) -> Forall u32_word ws ->
  exists ws', store_byte ws k v = Some ws' /\ length ws' = length ws /\
    Forall u32_word ws' /\
    forall i, bit_at ws' i =
      if decide (i / 8 = k) then Z.testbit v (i mod 8) else bit_at ws i.
Proof.
  intros Hk HF. unfold store_byte. destruct (load_in ws (k / 4)) as [w Hw]; [Zlia |].
  rewrite Hw. cbn [mbind option_bind]. pose proof (byte_shift_range k) as Hsh.
  set (v' := Z.ldiff w (255 ≪ byte_shift k) ||| (u8 v ≪ byte_shift k)).
  assert (Hbits : forall p, 0 <= p -> Z.testbit v' p =
    if decide (byte_shift k <= p < byte_shift k + 8)
    then Z.testbit v (p - byte_shift k) else Z.testbit w p).
  { intros p Hp. unfold v'. autorewrite with cbits. change 255 with (Z.ones 8).
    destruct (decide (p < byte_shift k)).
    { rewrite decide_False by lia. rewrite !(Z.testbit_neg_r _ (p - byte_shift k)) by lia.
      simpl. by rewrite andb_true_r, orb_false_r. }
    rewrite uwrap_testbit by lia. case_decide.
    - rewrite Z.ones_spec_low, (proj2 (Z.ltb_lt _ _)) by lia. simpl.
      by rewrite andb_false_r.
    - rewrite Z.ones_spec_high, (proj2 (Z.ltb_ge _ _)) by lia. simpl.
      by rewrite andb_true_r, orb_false_r. }
  assert (Hv' : u32_word v').
  { apply range_of_bits; [lia |]. intros p Hp. rewrite Hbits, decide_False by lia.
    apply (testbit_high 32); [| done]. by apply (Forall_load u32_word ws (k / 4)). }
  destruct (store ws (k / 4) v') as [ws' |] eqn:Hs;
    [| rewrite store_in in Hs by Zlia; done].
  exists ws'. split; [done |]. split; [by eapply length_store |].
  split; [by eapply Forall_store |]. intros i.
  rewrite (bit_at_store _ _ _ _ _ Hs). case_decide as H4; case_decide as H8.
  - rewrite Hbits by (apply wpos_range; Zlia). rewrite wpos_byte, H8.
    rewrite decide_True by Zlia. f_equal. lia.
  - rewrite Hbits by (apply wpos_range; Zlia). rewrite decide_False.
    + unfold bit_at. by rewrite H4, Hw.
    + apply byte_shift_disjoint; [done | Zlia].
  - exfalso. Zlia.
  - done.
Qed.

Lemma memset_in ws k v n :
  0 <= k -> 0 <= n -> k + n <= 4 * Z.of_nat (length ws) -> Forall u32_word ws ->
  exists ws', memset ws k v n = Some ws' /\ length ws' = length ws /\
    Forall u32_word ws' /\
    forall i, bit_at ws' i =
      if decide (k <= i / 8 < k + n) then Z.testbit v (i mod 8) else bit_at ws i.
Proof.
  intros Hk Hn Hl HF. unfold memset.
  destruct (for_up_rule (fun j s => length s = length ws /\ Forall u32_word s /\
      forall i, bit_at s i =
        if decide (k <= i / 8 < j) then Z.testbit v (i mod 8) else bit_at ws i)
      (Z.to_nat n) k (fun j s => store_byte s j v) ws) as (ws' & H1 & H2).
  - split_and!; [done | done |]. intros i. by rewrite decide_False by lia.
  - intros j t Hj (Ht1 & Ht2 & Ht3).
    destruct (store_byte_in t j v) as (t' & Ht' & L' & F' & B'); [lia | done |].
    exists t'. split; [done |]. split_and!; [congruence | done |].
    intros i. rewrite B', Ht3. repeat case_decide; lia || done.
  - exists ws'. split; [done |]. by rewrite Z2Nat.id in H2 by lia.
Qed.

(** Outside the buffer a byte store is not possible. *)
Lemma store_byte_out ws k v : 4 * Z.of_nat (length ws) <= k -> store_byte ws k v = None.
Proof. intros Hk. unfold store_byte. rewrite load_out by Zlia. done. Qed.

(** ** Lemmas: maps *)

Lemma elem_of_bits m i :
  i ∈ bits_of m <-> 0 <= i < n_bits m /\ bit_at (words m) i = true.
Proof.
  unfold bits_of. rewrite elem_of_list_to_set, list_elem_of_filter, elem_of_seqZ.
  rewrite Z.add_0_l. tauto.
Qed.

Lemma elem_of_universe m i : i ∈ universe m <-> 0 <= i < n_bits m.
Proof. unfold universe. rewrite elem_of_list_to_set, elem_of_seqZ. lia. Qed.

Lemma bits_of_ext m m' :
  n_bits m = n_bits m' ->
  (forall i, 0 <= i < n_bits m -> bit_at (words m) i = bit_at (words m') i) ->
  bits_of m = bits_of m'.
Proof.
  intros Hn H. apply set_eq. intros i. rewrite !elem_of_bits, <- Hn.
  split; intros [Hi Hb]; (split; [done |]); [by rewrite <- H | by rewrite H].
Qed.

Section Wf.
Context (m : MY_BITMAP) (Hwf : wf m).

Lemma wf_no_words : no_words_in_map m = (n_bits m + 31) / 32.
Proof.
  unfold no_words_in_map. pose proof (wf_bits m Hwf). by rewrite uwrap_small by lia.
Qed.

Lemma wf_no_bytes : no_bytes_in_map m = (n_bits m + 7) / 8.
Proof.
  unfold no_bytes_in_map. pose proof (wf_bits m Hwf). by rewrite uwrap_small by lia.
Qed.

(** The number of words, as a number the arithmetic tactics can use. *)
Lemma wf_size :
  0 < n_bits m <= 2 ^ 32 - 32 /\
  last_word_ptr m = Z.of_nat (length (words m)) - 1 /\
  32 * (Z.of_nat (length (words m)) - 1) < n_bits m <= 32 * Z.of_nat (length (words m)).
Proof.
  pose proof (wf_bits m Hwf). pose proof (wf_len m Hwf). pose proof (wf_lwp m Hwf).
  split; [done |]. split; [lia | Zlia].
Qed.

Lemma wf_set_bitmap b :
  length b = length (words m) -> Forall u32_word b -> wf (set_bitmap m (Some b)).
Proof.
  destruct Hwf. intros Hl HF. split; change (words (set_bitmap m (Some b))) with b;
    try done. by rewrite Hl.
Qed.

Lemma wf_buf_len b : bitmap m = Some b -> b = words m.
Proof. intros Hb. unfold words. by rewrite Hb. Qed.

Lemma mask_bit r :
  0 <= r < 32 -> Z.testbit (last_word_mask m) (wpos r) = bool_decide ((n_bits m - 1) mod 32 < r).
Proof. apply (wf_mask m Hwf). Qed.

Lemma clear_last_bits_spec :
  exists m', clear_last_bits m = Some m' /\ wf m' /\ n_bits m' = n_bits m /\
    mutex m' = mutex m /\ length (words m') = length (words m) /\
    forall i, bit_at (words m') i = bool_decide (i < n_bits m) && bit_at (words m) i.
Proof.
  destruct wf_size as (Hn & Hp & Hs). unfold clear_last_bits.
  rewrite (wf_buf m Hwf). cbn [mbind option_bind].
  destruct (load_in (words m) (last_word_ptr m)) as [w Hw]; [lia |].
  rewrite Hw. cbn [mbind option_bind].
  set (v := w &&& u32 (Z.lnot (last_word_mask m))).
  destruct (store (words m) (last_word_ptr m) v) as [b |] eqn:Hst;
    [| by rewrite store_in in Hst by lia].
  pose proof (length_store _ _ _ _ Hst) as Hl.
  assert (Hu : u32_word v).
  { apply range_of_bits; [lia |]. intros i Hi. unfold v. autorewrite with cbits.
    by rewrite (proj2 (Z.ltb_ge i 32)), andb_false_r by lia. }
  eexists. split; [done |]. split_and!; [| done | done | done |].
  - apply wf_set_bitmap; [done |]. eapply Forall_store; [apply (wf_words m Hwf) | | done]. done.
  - intros i. change (words (set_bitmap m (Some b))) with b.
    rewrite (bit_at_store _ _ _ _ _ Hst). case_decide as Hi.
    + unfold v. pose proof (wpos_range (i mod 32)).
      assert (0 <= i mod 32 < 32) by Zlia.
      autorewrite with cbits. rewrite mask_bit, (proj2 (Z.ltb_lt _ 32)) by lia.
      simpl. unfold bit_at. rewrite Hi, Hw, andb_comm. f_equal.
      rewrite Hp in Hi. do 2 case_bool_decide; simpl; try done; exfalso; Zlia.
    + case_bool_decide as Hlt; [done |]. simpl. unfold bit_at. rewrite load_out; [done |].
      rewrite Hp in Hi. Zlia.
Qed.

Lemma set_last_bits_spec :
  exists m', set_last_bits m = Some m' /\ wf m' /\ n_bits m' = n_bits m /\
    mutex m' = mutex m /\ length (words m') = length (words m) /\
    forall i, i < 32 * Z.of_nat (length (words m)) ->
      bit_at (words m') i = bool_decide (n_bits m <= i) || bit_at (words m) i.
Proof.
  destruct wf_size as (Hn & Hp & Hs). unfold set_last_bits.
  rewrite (wf_buf m Hwf). cbn [mbind option_bind].
  destruct (load_in (words m) (last_word_ptr m)) as [w Hw]; [lia |].
  rewrite Hw. cbn [mbind option_bind].
  set (v := w ||| last_word_mask m).
  destruct (store (words m) (last_word_ptr m) v) as [b |] eqn:Hst;
    [| by rewrite store_in in Hst by lia].
  pose proof (length_store _ _ _ _ Hst) as Hl.
  pose proof (wf_words m Hwf) as HF.
  assert (Hu : u32_word v).
  { apply range_of_bits; [lia |]. intros i Hi. unfold v. autorewrite with cbits.
    rewrite !(testbit_high 32); [done | apply (wf_mask m Hwf) | done | | done].
    by apply (Forall_load u32_word (words m) (last_word_ptr m)). }
  eexists. split; [done |]. split_and!; [| done | done | done |].
  - apply wf_set_bitmap; [done |]. by eapply Forall_store.
  - intros i Hil. change (words (set_bitmap m (Some b))) with b.
    rewrite (bit_at_store _ _ _ _ _ Hst). case_decide as Hi.
    + unfold v. assert (0 <= i mod 32 < 32) by Zlia.
      autorewrite with cbits. rewrite mask_bit by lia.
      unfold bit_at. rewrite Hi, Hw, orb_comm. f_equal.
      rewrite Hp in Hi. do 2 case_bool_decide; simpl; try done; exfalso; Zlia.
    + case_bool_decide as Hlt; [| done]. exfalso. rewrite Hp in Hi. Zlia.
Qed.
End Wf.

Lemma clear_last_bits_set m m' :
  wf m -> clear_last_bits m = Some m' -> bits_of m' = bits_of m.
Proof.
  intros Hwf H. destruct (clear_last_bits_spec m Hwf) as (m1 & E & _ & Hn & _ & _ & Hb).
  simplify_eq. apply bits_of_ext; [done |]. intros i Hi. rewrite Hb.
  by rewrite bool_decide_true by lia.
Qed.

Lemma set_last_bits_set m m' :
  wf m -> set_last_bits m = Some m' -> bits_of m' = bits_of m.
Proof.
  intros Hwf H. destruct (set_last_bits_spec m Hwf) as (m1 & E & _ & Hn & _ & _ & Hb).
  simplify_eq. apply bits_of_ext; [done |]. intros i Hi.
  destruct (wf_size m Hwf). rewrite Hb by lia. by rewrite bool_decide_false by lia.
Qed.

(** The word loop of a set operation acts on the bits one by one. *)
Lemma combine_words_spec (f : Z -> Z -> Z) (fb : bool -> bool -> bool) to from n :
  0 <= n <= Z.of_nat (length to) -> n <= Z.of_nat (length from) ->
  Forall u32_word to -> Forall u32_word from ->
  (forall w x, u32_word w -> u32_word x -> u32_word (f w x) /\
     forall p, 0 <= p < 32 -> Z.testbit (f w x) p = fb (Z.testbit w p) (Z.testbit x p)) ->
  exists to', combine_words f to from n = Some to' /\ length to' = length to /\
    Forall u32_word to' /\
    forall i, 0 <= i -> bit_at to' i =
      if decide (i / 32 < n) then fb (bit_at to i) (bit_at from i) else bit_at to i.
Proof.
  intros Hn Hn2 HFt HFf Hf.
  destruct (for_up_update (fun k w => x ← load from k; Some (f w x))
    (fun k w => f w (default 0 (load from k))) (Z.to_nat n) 0 to) as (to' & E & L & H).
  - lia.
  - lia.
  - intros j w Hj Hw. destruct (load_in from j) as [x Hx]; [lia |]. by rewrite Hx.
  - rewrite Z2Nat.id, Z.add_0_l in H by lia.
    assert (Hw : forall j w, load to j = Some w -> j < n -> exists x, load from j = Some x /\
      u32_word w /\ u32_word x).
    { intros j w Hw Hj. pose proof (load_bounds _ _ _ Hw).
      destruct (load_in from j) as [x Hx]; [lia |]. exists x. split; [done |].
      split; [by eapply (Forall_load u32_word to) | by eapply (Forall_load u32_word from)]. }
    exists to'. split; [done |]. split; [done |]. split.
    + apply Forall_of_load. intros j v. rewrite H. case_decide as Hj.
      * destruct (load to j) as [w |] eqn:Ew; [| done]. intros [= <-].
        destruct (Hw j w Ew) as (x & Hx & ? & ?); [lia |]. rewrite Hx. by apply Hf.
      * intros Hv. by eapply (Forall_load u32_word to).
    + intros i Hi. assert (0 <= i mod 32 < 32) by Zlia. unfold bit_at. rewrite H.
      case_decide as H1; case_decide as H2; try done; [| exfalso; Zlia ..].
      destruct (load_in to (i / 32)) as [w Ew]; [lia |]. rewrite Ew. simpl.
      destruct (Hw _ w Ew) as (x & Hx & ? & ?); [lia |]. rewrite Hx. simpl.
      apply Hf; [done | done |]. by apply wpos_range.
Qed.

#[local] Ltac bit_fun :=
  let w := fresh "w" in let x := fresh "x" in let Hw := fresh in let Hx := fresh in
  intros w x Hw Hx; split;
  [ apply range_of_bits; [lia |]; intros ? ?; autorewrite with cbits;
    rewrite ?(testbit_high 32 w), ?(testbit_high 32 x), ?(proj2 (Z.ltb_ge _ 32)) by done || lia;
    done
  | intros ? ?; autorewrite with cbits; rewrite ?(proj2 (Z.ltb_lt _ 32)) by lia; done ].

(** The four operations that rewrite every word of [map] from [map2]. *)
Lemma binop_spec (op : MY_BITMAP -> MY_BITMAP -> option MY_BITMAP) f fb m m2 :
  (forall m m2, op m m2 = (to ← bitmap m; from ← bitmap m2;
     to ← combine_words f to from (last_word_ptr m + 1); Some (set_bitmap m (Some to)))) ->
  (forall w x, u32_word w -> u32_word x -> u32_word (f w x) /\
     forall p, 0 <= p < 32 -> Z.testbit (f w x) p = fb (Z.testbit w p) (Z.testbit x p)) ->
  wf m -> wf m2 -> n_bits m = n_bits m2 ->
  exists m', op m m2 = Some m' /\ wf m' /\ n_bits m' = n_bits m /\ mutex m' = mutex m /\
    forall i, 0 <= i < n_bits m ->
      bit_at (words m') i = fb (bit_at (words m) i) (bit_at (words m2) i).
Proof.
  intros Hop Hf H1 H2 Hn. rewrite Hop, (wf_buf m H1), (wf_buf m2 H2). cbn [mbind option_bind].
  destruct (wf_size m H1) as (Hn1 & Hp1 & Hs1). destruct (wf_size m2 H2) as (_ & _ & Hs2).
  destruct (combine_words_spec f fb (words m) (words m2) (last_word_ptr m + 1))
    as (to & E & L & F & B);
    [lia | lia | apply (wf_words m H1) | apply (wf_words m2 H2) | done |].
  rewrite E. eexists. split; [done |]. split_and!; [by apply wf_set_bitmap | done | done |].
  intros i Hi. change (words (set_bitmap m (Some to))) with to.
  rewrite B, decide_True by (lia || Zlia). done.
Qed.

Lemma bitmap_union_spec m m2 :
  wf m -> wf m2 -> n_bits m = n_bits m2 ->
  exists m', bitmap_union m m2 = Some m' /\ wf m' /\ n_bits m' = n_bits m /\ mutex m' = mutex m /\
    bits_of m' = bits_of m ∪ bits_of m2.
Proof.
  intros H1 H2 Hn. destruct (binop_spec bitmap_union Z.lor orb m m2)
    as (m' & E & W & N & M & B); [done | bit_fun | done | done | done |].
  exists m'. split_and!; [done .. |]. apply set_eq. intros i.
  rewrite elem_of_union, !elem_of_bits, N, <- Hn. split.
  - intros [Hi Hb]. rewrite B in Hb by done. apply orb_true_iff in Hb. tauto.
  - intros [[Hi Hb] | [Hi Hb]]; (split; [done |]); rewrite B, Hb by done;
      [done | apply orb_true_r].
Qed.

Lemma bitmap_subtract_spec m m2 :
  wf m -> wf m2 -> n_bits m = n_bits m2 ->
  exists m', bitmap_subtract m m2 = Some m' /\ wf m' /\ n_bits m' = n_bits m /\ mutex m' = mutex m /\
    bits_of m' = bits_of m ∖ bits_of m2.
Proof.
  intros H1 H2 Hn.
  destruct (binop_spec bitmap_subtract (fun w x => w &&& u32 (Z.lnot x))
    (fun a b => a && negb b) m m2)
    as (m' & E & W & N & M & B); [done | bit_fun | done | done | done |].
  exists m'. split_and!; [done .. |]. apply set_eq. intros i.
  rewrite elem_of_difference, !elem_of_bits, N, <- Hn. split.
  - intros [Hi Hb]. rewrite B in Hb by done. apply andb_true_iff in Hb as [Hb Hc].
    apply negb_true_iff in Hc. split; [done |]. intros [_ ?]. congruence.
  - intros [[Hi Hb] Hc]. split; [done |]. rewrite B, Hb by done.
    destruct (bit_at (words m2) i); [| done]. tauto.
Qed.

Lemma bitmap_xor_spec m m2 :
  wf m -> wf m2 -> n_bits m = n_bits m2 ->
  exists m', bitmap_xor m m2 = Some m' /\ wf m' /\ n_bits m' = n_bits m /\ mutex m' = mutex m /\
    bits_of m' = (bits_of m ∖ bits_of m2) ∪ (bits_of m2 ∖ bits_of m).
Proof.
  intros H1 H2 Hn. destruct (binop_spec bitmap_xor Z.lxor xorb m m2)
    as (m' & E & W & N & M & B); [done | bit_fun | done | done | done |].
  exists m'. split_and!; [done .. |]. apply set_eq. intros i.
  rewrite elem_of_union, !elem_of_difference, !elem_of_bits, N, <- Hn. split.
  - intros [Hi Hb]. rewrite B in Hb by done.
    destruct (bit_at (words m) i), (bit_at (words m2) i); simpl in Hb; intuition congruence.
  - intros Hor. assert (Hi : 0 <= i < n_bits m) by tauto. split; [done |]. rewrite B by done.
    destruct (bit_at (words m) i), (bit_at (words m2) i); simpl; intuition congruence.
Qed.

Lemma bitmap_copy_spec m m2 :
  wf m -> wf m2 -> n_bits m = n_bits m2 ->
  exists m', bitmap_copy m m2 = Some m' /\ wf m' /\ n_bits m' = n_bits m /\ mutex m' = mutex m /\
    bits_of m' = bits_of m2.
Proof.
  intros H1 H2 Hn. destruct (binop_spec bitmap_copy (fun _ x => x) (fun _ b => b) m m2)
    as (m' & E & W & N & M & B); [done | done | done | done | done |].
  exists m'. split_and!; [done .. |]. apply bits_of_ext; [congruence |].
  rewrite N. done.
Qed.

Lemma bitmap_invert_spec m :
  wf m -> exists m', bitmap_invert m = Some m' /\ wf m' /\ n_bits m' = n_bits m /\
    mutex m' = mutex m /\ bits_of m' = universe m ∖ bits_of m.
Proof.
  intros H1. destruct (wf_size m H1) as (Hn1 & Hp1 & Hs1).
  pose proof (wf_words m H1) as HF. unfold bitmap_invert.
  rewrite (wf_buf m H1). cbn [mbind option_bind].
  destruct (for_up_update (fun _ w => Some (w ^^^ (2 ^ 32 - 1))) (fun _ w => w ^^^ (2 ^ 32 - 1))
    (Z.to_nat (last_word_ptr m + 1)) 0 (words m)) as (to & E & L & H);
    [lia | lia | done |].
  cbn [mbind option_bind] in E. rewrite E.
  rewrite Z2Nat.id, Z.add_0_l in H by lia. cbn [mbind option_bind].
  assert (Hbit : forall w p, 0 <= p < 32 ->
    Z.testbit (w ^^^ (2 ^ 32 - 1)) p = negb (Z.testbit w p)).
  { intros w p Hp. change (2 ^ 32 - 1) with (Z.ones 32).
    rewrite Z.lxor_spec, Z.ones_spec_low by lia. apply xorb_true_r. }
  eexists. split; [done |]. split_and!; [| done | done |].
  - apply wf_set_bitmap; [done | done |]. apply Forall_of_load. intros j v. rewrite H.
    destruct (load (words m) j) as [w |] eqn:Ew; [| by case_decide].
    pose proof (Forall_load u32_word _ _ _ HF Ew) as Hw. case_decide; [| by intros [= <-]].
    intros [= <-]. apply range_of_bits; [lia |]. intros p Hp.
    change (2 ^ 32 - 1) with (Z.ones 32).
    rewrite Z.lxor_spec, Z.ones_spec_high, (testbit_high 32 w) by done || lia. done.
  - apply set_eq. intros i. rewrite elem_of_difference, elem_of_universe, !elem_of_bits.
    change (words (set_bitmap m (Some to))) with to. change (n_bits (set_bitmap m (Some to)))
      with (n_bits m).
    assert (HB : 0 <= i < n_bits m -> bit_at to i = negb (bit_at (words m) i)).
    { intros Hi. unfold bit_at. destruct (load_in (words m) (i / 32)) as [w Hw]; [Zlia |].
      rewrite H, decide_True, Hw by Zlia. simpl. apply Hbit, wpos_range. Zlia. }
    split.
    + intros [Hi Hb]. rewrite HB in Hb by done. apply negb_true_iff in Hb.
      split; [done |]. rewrite Hb. by intros [_ ?].
    + intros [Hi Hb]. split; [done |]. rewrite HB by done.
      destruct (bit_at (words m) i); [tauto | done].
Qed.

Lemma bitmap_intersect_spec m m2 :
  wf m -> wf m2 ->
  exists m' m2', bitmap_intersect m m2 = Some (m', m2') /\ wf m' /\ wf m2' /\
    n_bits m' = n_bits m /\ mutex m' = mutex m /\ mutex m2' = mutex m2 /\
    bits_of m' = bits_of m ∩ bits_of m2 /\ bits_of m2' = bits_of m2.
Proof.
  intros H1 H2. destruct (wf_size m H1) as (Hn1 & Hp1 & Hs1).
  destruct (wf_size m2 H2) as (Hn2 & Hp2 & Hs2).
  destruct (clear_last_bits_spec m2 H2) as (m2' & E2 & W2 & N2 & M2 & L2 & B2).
  pose proof (wf_words m H1) as HF1. pose proof (wf_words m2' W2) as HF2.
  unfold bitmap_intersect. rewrite !wf_no_words by done. rewrite <- !wf_len by done.
  rewrite E2, (wf_buf m H1). cbn [mbind option_bind].
  rewrite (wf_buf m2' W2). cbn [mbind option_bind].
  set (l := Z.of_nat (length (words m))) in *. set (l2 := Z.of_nat (length (words m2))) in *.
  destruct (combine_words_spec Z.land andb (words m) (words m2') (Z.min l l2))
    as (to & E & L & F & B); [lia | lia | done | done | bit_fun |].
  rewrite E. cbn [mbind option_bind].
  assert (Hfill : exists to', (if bool_decide (l2 < l)
      then for_up (Z.to_nat (l - l2)) (Z.min l l2) (fun k s => store s k 0) to else Some to)
      = Some to' /\ length to' = length to /\ Forall u32_word to' /\
      forall i, 0 <= i -> bit_at to' i = if decide (i / 32 < l2) then bit_at to i else false).
  { case_bool_decide as Hlt.
    - destruct (for_up_fill 0 (Z.to_nat (l - l2)) (Z.min l l2) to) as (to' & E' & L' & H');
        [lia | lia |].
      exists to'. split_and!; [done | done | |].
      + apply Forall_of_load. intros j v. rewrite H'. case_decide; [intros [= <-]; done |].
        by apply Forall_load.
      + intros i Hi. unfold bit_at. rewrite H'. repeat case_decide; try lia; try done.
        * apply Z.testbit_0_l.
        * rewrite load_out; [done |]. lia.
    - exists to. split_and!; [done .. |]. intros i Hi. case_decide; [done |].
      unfold bit_at. rewrite load_out; [done |]. lia. }
  destruct Hfill as (to' & E' & L' & F' & B'). rewrite E'. cbn [mbind option_bind].
  eexists _, _. split; [done |].
  split_and!; [apply wf_set_bitmap; [done | congruence | done] | done | done | done | done | |].
  - apply set_eq. intros i. rewrite elem_of_intersection, !elem_of_bits.
    change (words (set_bitmap m (Some to'))) with to'.
    change (n_bits (set_bitmap m (Some to'))) with (n_bits m).
    split.
    + intros [Hi Hb]. rewrite B' in Hb by lia. case_decide as Hd; [| done].
      rewrite B, decide_True, B2 in Hb by (lia || Zlia).
      apply andb_true_iff in Hb as [Hb [Hc Hd']%andb_true_iff].
      apply bool_decide_eq_true in Hc. split; split; try done. lia.
    + intros [[Hi Hb] [Hj Hc]]. split; [done |]. rewrite B', decide_True by (lia || Zlia).
      rewrite B, decide_True, B2, Hb, Hc by (lia || Zlia).
      by rewrite bool_decide_true by lia.
  - by apply (clear_last_bits_set m2 m2').
Qed.

(** ** Single bits *)

(** Reading the byte of [bit], changing it there by [gb] and writing it back. *)
Lemma byte_op_spec m bit (g : Z -> Z) (gb : bool -> bool) :
  wf m -> 0 <= bit < n_bits m ->
  (forall x r, 0 <= x < 256 -> 0 <= r < 8 -> Z.testbit (g x) r =
     if decide (r = bit mod 8) then gb (Z.testbit x r) else Z.testbit x r) ->
  exists x b, load_byte (words m) (bit / 8) = Some x /\ 0 <= x < 256 /\
    Z.testbit x (bit mod 8) = bit_at (words m) bit /\
    store_byte (words m) (bit / 8) (g x) = Some b /\
    wf (set_bitmap m (Some b)) /\
    forall i, bit_at b i =
      if decide (i = bit) then gb (bit_at (words m) i) else bit_at (words m) i.
Proof.
  intros Hwf Hbit Hg. destruct (wf_size m Hwf) as (Hn & Hp & Hs).
  destruct (load_byte_in (words m) (bit / 8)) as (x & Ex & Rx & Bx); [Zlia |].
  destruct (store_byte_in (words m) (bit / 8) (g x)) as (b & Eb & Lb & Fb & Bb);
    [Zlia | apply (wf_words m Hwf) |].
  exists x, b. split_and!; [done | lia | lia | | done | by apply wf_set_bitmap |].
  - rewrite Bx by Zlia. f_equal. Zlia.
  - intros i. rewrite Bb. case_decide as H8.
    + rewrite Hg, Bx by Zlia. replace (8 * (bit / 8) + i mod 8) with i by Zlia.
      repeat case_decide; try done; exfalso; Zlia.
    + by rewrite decide_False by (intros ->; lia).
Qed.

#[local] Ltac bit_byte :=
  intros ? ? ? ?; rewrite ?land_7, ?shiftl_1 by Zlia;
  rewrite ?(uwrap_small 8 (2 ^ _)) by (split; [lia |]; apply (Z.pow_lt_mono_r 2 _ 8); Zlia);
  autorewrite with cbits; rewrite pow2_testbit by Zlia;
  repeat case_decide; case_bool_decide; try done; simpl;
  rewrite ?orb_true_r, ?orb_false_r, ?andb_true_r, ?andb_false_r, ?xorb_true_r, ?xorb_false_r;
  done.

Lemma bitmap_set_bit_spec m bit :
  wf m -> 0 <= bit < n_bits m ->
  exists m', bitmap_set_bit m bit = Some m' /\ wf m' /\ n_bits m' = n_bits m /\
    mutex m' = mutex m /\ bits_of m' = {[bit]} ∪ bits_of m.
Proof.
  intros Hwf Hbit.
  destruct (byte_op_spec m bit (fun x => x ||| (1 ≪ (bit &&& 7))) (fun _ => true))
    as (x & b & E1 & R & T & E2 & W & B); [done | done | bit_byte |].
  unfold bitmap_set_bit. rewrite (wf_buf m Hwf). cbn [mbind option_bind].
  rewrite E1. cbn [mbind option_bind]. rewrite E2. eexists. split; [done |].
  split_and!; [done .. |]. apply set_eq. intros i.
  rewrite elem_of_union, elem_of_singleton, !elem_of_bits.
  change (words (set_bitmap m (Some b))) with b. change (n_bits (set_bitmap m (Some b))) with (n_bits m).
  rewrite B. case_decide; [subst; intuition |]. intuition congruence.
Qed.

Lemma bitmap_clear_bit_spec m bit :
  wf m -> 0 <= bit < n_bits m ->
  exists m', bitmap_clear_bit m bit = Some m' /\ wf m' /\ n_bits m' = n_bits m /\
    mutex m' = mutex m /\ bits_of m' = bits_of m ∖ {[bit]}.
Proof.
  intros Hwf Hbit.
  destruct (byte_op_spec m bit (fun x => x &&& Z.lnot (1 ≪ (bit &&& 7))) (fun _ => false))
    as (x & b & E1 & R & T & E2 & W & B); [done | done | bit_byte |].
  unfold bitmap_clear_bit. rewrite (wf_buf m Hwf). cbn [mbind option_bind].
  rewrite E1. cbn [mbind option_bind]. rewrite E2. eexists. split; [done |].
  split_and!; [done .. |]. apply set_eq. intros i.
  rewrite elem_of_difference, elem_of_singleton, !elem_of_bits.
  change (words (set_bitmap m (Some b))) with b. change (n_bits (set_bitmap m (Some b))) with (n_bits m).
  rewrite B. case_decide; intuition congruence.
Qed.

Lemma bitmap_flip_bit_spec m bit :
  wf m -> 0 <= bit < n_bits m ->
  exists m', bitmap_flip_bit m bit = Some m' /\ wf m' /\ n_bits m' = n_bits m /\
    mutex m' = mutex m /\
    bits_of m' = if decide (bit ∈ bits_of m) then bits_of m ∖ {[bit]} else {[bit]} ∪ bits_of m.
Proof.
  intros Hwf Hbit.
  destruct (byte_op_spec m bit (fun x => x ^^^ (1 ≪ (bit &&& 7))) negb)
    as (x & b & E1 & R & T & E2 & W & B); [done | done | bit_byte |].
  unfold bitmap_flip_bit. rewrite (wf_buf m Hwf). cbn [mbind option_bind].
  rewrite E1. cbn [mbind option_bind]. rewrite E2. eexists. split; [done |].
  split_and!; [done .. |]. apply set_eq. intros i.
  rewrite elem_of_bits.
  change (words (set_bitmap m (Some b))) with b. change (n_bits (set_bitmap m (Some b))) with (n_bits m).
  rewrite B. case_decide as H1; case_decide as H2; rewrite elem_of_bits in H2;
    rewrite ?elem_of_difference, ?elem_of_union, elem_of_singleton, elem_of_bits; subst.
  - destruct H2 as [_ ->]. simpl. intuition congruence.
  - destruct (bit_at (words m) _); [tauto |]. simpl. intuition.
  - intuition congruence.
  - intuition congruence.
Qed.

(** The value of the test part: non-zero exactly when the bit is set. *)
Lemma tested_bit x k : 0 <= k < 8 -> s8 (x &&& 2 ^ k) <> 0 <-> Z.testbit x k = true.
Proof.
  intros Hk. rewrite land_pow2 by lia. destruct (Z.testbit x k).
  - split; [done |]. intros _.
    assert (k = 0 \/ k = 1 \/ k = 2 \/ k = 3 \/ k = 4 \/ k = 5 \/ k = 6 \/ k = 7) by lia.
    by destruct_or!; subst.
  - split; [| done]. intros H. by destruct H.
Qed.

Lemma bitmap_is_set_spec m bit :
  wf m -> 0 <= bit < n_bits m ->
  exists v, bitmap_is_set m bit = Some v /\ (v <> 0 <-> bit ∈ bits_of m).
Proof.
  intros Hwf Hbit. destruct (wf_size m Hwf) as (Hn & Hp & Hs).
  destruct (load_byte_in (words m) (bit / 8)) as (x & Ex & Rx & Bx); [Zlia |].
  unfold bitmap_is_set. rewrite (wf_buf m Hwf). cbn [mbind option_bind].
  rewrite Ex. cbn [mbind option_bind]. eexists. split; [done |].
  rewrite land_7, shiftl_1, land_pow2, Bx, elem_of_bits by Zlia.
  replace (8 * (bit / 8) + bit mod 8) with bit by Zlia.
  assert (2 ^ (bit mod 8) <> 0) by (apply Z.pow_nonzero; Zlia).
  destruct (bit_at (words m) bit); intuition congruence.
Qed.

Lemma bitmap_fast_test_and_set_spec m bit :
  wf m -> 0 <= bit < n_bits m ->
  exists r m', bitmap_fast_test_and_set m bit = Some (r, m') /\ wf m' /\
    n_bits m' = n_bits m /\ mutex m' = mutex m /\
    (r <> 0 <-> bit ∈ bits_of m) /\ bits_of m' = {[bit]} ∪ bits_of m.
Proof.
  intros Hwf Hbit.
  destruct (byte_op_spec m bit (fun x => x ||| u8 (1 ≪ (bit &&& 7))) (fun _ => true))
    as (x & b & E1 & R & T & E2 & W & B); [done | done | bit_byte |].
  unfold bitmap_fast_test_and_set. rewrite (wf_buf m Hwf). cbn [mbind option_bind].
  rewrite E1. cbn [mbind option_bind]. rewrite E2. eexists _, _. split; [done |].
  split_and!; [done .. | |].
  - rewrite land_7, shiftl_1 by Zlia.
    rewrite (uwrap_small 8) by (split; [lia |]; apply (Z.pow_lt_mono_r 2 _ 8); Zlia).
    rewrite tested_bit, T, elem_of_bits by Zlia. tauto.
  - apply set_eq. intros i. rewrite elem_of_union, elem_of_singleton, !elem_of_bits.
    change (words (set_bitmap m (Some b))) with b.
    change (n_bits (set_bitmap m (Some b))) with (n_bits m).
    rewrite B. case_decide; [subst; intuition |]. intuition congruence.
Qed.

Lemma bitmap_fast_test_and_clear_spec m bit :
  wf m -> 0 <= bit < n_bits m ->
  exists r m', bitmap_fast_test_and_clear m bit = Some (r, m') /\ wf m' /\
    n_bits m' = n_bits m /\ mutex m' = mutex m /\
    (r <> 0 <-> bit ∈ bits_of m) /\ bits_of m' = bits_of m ∖ {[bit]}.
Proof.
  intros Hwf Hbit.
  destruct (byte_op_spec m bit (fun x => x &&& Z.lnot (u8 (1 ≪ (bit &&& 7)))) (fun _ => false))
    as (x & b & E1 & R & T & E2 & W & B); [done | done | bit_byte |].
  unfold bitmap_fast_test_and_clear. rewrite (wf_buf m Hwf). cbn [mbind option_bind].
  rewrite E1. cbn [mbind option_bind]. rewrite E2. eexists _, _. split; [done |].
  split_and!; [done .. | |].
  - rewrite land_7, shiftl_1 by Zlia.
    rewrite (uwrap_small 8) by (split; [lia |]; apply (Z.pow_lt_mono_r 2 _ 8); Zlia).
    rewrite tested_bit, T, elem_of_bits by Zlia. tauto.
  - apply set_eq. intros i. rewrite elem_of_difference, elem_of_singleton, !elem_of_bits.
    change (words (set_bitmap m (Some b))) with b.
    change (n_bits (set_bitmap m (Some b))) with (n_bits m).
    rewrite B. case_decide; intuition congruence.
Qed.

(** ** Predicates *)

(** A word of the buffer is determined by its 32 bits. *)
Lemma word_forall ws j w v :
  load ws j = Some w -> u32_word w -> u32_word v ->
  (w = v <-> forall r, 0 <= r < 32 -> bit_at ws (32 * j + r) = Z.testbit v (wpos r)).
Proof.
  intros Hw Hu Hv. split.
  - intros ->. intros r Hr. by apply bit_at_word.
  - intros H. apply word_eq; [done | done |]. intros r Hr. rewrite <- H by done.
    symmetry. by apply bit_at_word.
Qed.

Lemma zero_word ws j w :
  load ws j = Some w -> u32_word w ->
  (w = 0 <-> forall i, 32 * j <= i < 32 * j + 32 -> bit_at ws i = false).
Proof.
  intros Hw Hu. rewrite (word_forall ws j w 0) by (done || (unfold u32_word; lia)).
  setoid_rewrite Z.testbit_0_l. split.
  - intros H i Hi. replace i with (32 * j + (i - 32 * j)) by lia. apply H. lia.
  - intros H r Hr. apply H. lia.
Qed.

Lemma full_word ws j w :
  load ws j = Some w -> u32_word w ->
  (w = 2 ^ 32 - 1 <-> forall i, 32 * j <= i < 32 * j + 32 -> bit_at ws i = true).
Proof.
  intros Hw Hu. rewrite (word_forall ws j w (2 ^ 32 - 1)) by (done || (unfold u32_word; lia)).
  change (2 ^ 32 - 1) with (Z.ones 32). split.
  - intros H i Hi. replace i with (32 * j + (i - 32 * j)) by lia. rewrite H by lia.
    apply Z.ones_spec_low, wpos_range. lia.
  - intros H r Hr. rewrite H by lia. symmetry. by apply Z.ones_spec_low, wpos_range.
Qed.

(** A byte of the buffer equals [v] when its eight bits are those of [v]. *)
Lemma byte_is ws k b v :
  0 <= k < 4 * Z.of_nat (length ws) -> load_byte ws k = Some b -> 0 <= v < 256 ->
  (b = v <-> forall i, i / 8 = k -> bit_at ws i = Z.testbit v (i mod 8)).
Proof.
  intros Hk Hb Hv. destruct (load_byte_in ws k Hk) as (b' & Hb' & R & B).
  assert (b' = b) by congruence. subst b'. split.
  - intros -> i Hi. rewrite B by Zlia. f_equal. Zlia.
  - intros H. apply (bits_eq 8); [done | done |]. intros r Hr. rewrite B, H by (done || Zlia).
    f_equal. Zlia.
Qed.

Lemma bytes_are_spec ws v from to :
  0 <= from -> to <= 4 * Z.of_nat (length ws) -> 0 <= v < 256 ->
  exists c : bool, bytes_are ws v from to = Some (if c then Next tt else Ret tt) /\
    (c = true <-> forall i, from <= i / 8 < to -> bit_at ws i = Z.testbit v (i mod 8)).
Proof.
  intros Hf Ht Hv. unfold bytes_are.
  destruct (for_ret_first (fun k => bool_decide (default 0 (load_byte ws k) <> v)) (fun _ => tt)
    (Z.to_nat (to - from)) from (fun k _ => b ← load_byte ws k;
       Some (if bool_decide (b <> v) then Ret tt else Next tt)))
    as [[E H] | (k & Hk & Hp & _ & E)].
  - intros k Hk. destruct (load_byte_in ws k) as (b & -> & _); [lia |]. done.
  - exists true. split; [done |]. split; [| done]. intros _ i Hi.
    specialize (H (i / 8) ltac:(lia)). apply bool_decide_eq_false, dec_stable in H.
    destruct (load_byte_in ws (i / 8)) as (b & Eb & _); [lia |]. rewrite Eb in H. simpl in H.
    apply (byte_is ws (i / 8) b v); [lia | done | done | done | done].
  - exists false. split; [done |]. split; [done |]. intros H. exfalso.
    apply bool_decide_eq_true in Hp. apply Hp.
    destruct (load_byte_in ws k) as (b & Eb & _); [lia |]. rewrite Eb. simpl.
    apply (byte_is ws k b v); [lia | done | done |]. intros i Hi. apply H. lia.
Qed.

Lemma words_until_spec ws bad n :
  n <= Z.of_nat (length ws) ->
  exists c : bool, words_until ws bad n = Some (if c then Next tt else Ret tt) /\
    (c = true <-> forall j w, 0 <= j < n -> load ws j = Some w -> bad w = false).
Proof.
  intros Hn. unfold words_until.
  destruct (for_ret_first (fun k => bad (default 0 (load ws k))) (fun _ => tt) (Z.to_nat n) 0
    (fun k _ => w ← load ws k; Some (if bad w then Ret tt else Next tt)))
    as [[E H] | (k & Hk & Hp & _ & E)].
  - intros k Hk. destruct (load_in ws k) as [w ->]; [lia |]. done.
  - exists true. split; [done |]. split; [| done]. intros _ j w Hj Hw.
    specialize (H j ltac:(lia)). by rewrite Hw in H.
  - exists false. split; [done |]. split; [done |]. intros H.
    destruct (load_in ws k) as [w Hw]; [lia |]. rewrite Hw in Hp. simpl in Hp.
    rewrite (H k w) in Hp by (done || lia). done.
Qed.

Lemma words_until2_spec ws1 ws2 bad n :
  n <= Z.of_nat (length ws1) -> n <= Z.of_nat (length ws2) ->
  exists c : bool, words_until2 ws1 ws2 bad n = Some (if c then Next tt else Ret tt) /\
    (c = true <-> forall j w1 w2, 0 <= j < n -> load ws1 j = Some w1 -> load ws2 j = Some w2 ->
       bad w1 w2 = false).
Proof.
  intros Hn Hn2. unfold words_until2.
  destruct (for_ret_first (fun k => bad (default 0 (load ws1 k)) (default 0 (load ws2 k)))
    (fun _ => tt) (Z.to_nat n) 0
    (fun k _ => w1 ← load ws1 k; w2 ← load ws2 k;
       Some (if bad w1 w2 then Ret tt else Next tt)))
    as [[E H] | (k & Hk & Hp & _ & E)].
  - intros k Hk. destruct (load_in ws1 k) as [w ->]; [lia |].
    destruct (load_in ws2 k) as [w2 ->]; [lia |]. done.
  - exists true. split; [done |]. split; [| done]. intros _ j w w2 Hj Hw Hw2.
    specialize (H j ltac:(lia)). by rewrite Hw, Hw2 in H.
  - exists false. split; [done |]. split; [done |]. intros H.
    destruct (load_in ws1 k) as [w Hw]; [lia |]. destruct (load_in ws2 k) as [w2 Hw2]; [lia |].
    rewrite Hw, Hw2 in Hp. simpl in Hp. rewrite (H k w w2) in Hp by (done || lia). done.
Qed.

(** The set [{0, ..., n-1}]. *)
Definition below (n : Z) : gset Z := list_to_set (seqZ 0 n).

Lemma elem_of_below n i : i ∈ below n <-> 0 <= i < n.
Proof. unfold below. rewrite elem_of_list_to_set, elem_of_seqZ. lia. Qed.

Lemma bits_eq_iff m (S : gset Z) (P : Z -> bool) :
  (forall i, i ∈ S <-> 0 <= i < n_bits m /\ P i = true) ->
  (bits_of m = S <-> forall i, 0 <= i < n_bits m -> bit_at (words m) i = P i).
Proof.
  intros HS. rewrite set_eq. setoid_rewrite elem_of_bits. setoid_rewrite HS. split.
  - intros H i Hi. specialize (H i). destruct (bit_at (words m) i), (P i); try done; intuition congruence.
  - intros H i. split; intros [Hi Hb]; (split; [done |]); [by rewrite <- H | by rewrite H].
Qed.

Lemma bitmap_is_set_all_spec m :
  wf m -> exists c m', bitmap_is_set_all m = Some (c, m') /\ wf m' /\ n_bits m' = n_bits m /\
    mutex m' = mutex m /\ bits_of m' = bits_of m /\ (c = true <-> bits_of m = universe m).
Proof.
  intros Hwf. destruct (wf_size m Hwf) as (Hn & Hp & Hs).
  destruct (set_last_bits_spec m Hwf) as (m' & E & W & N & M & L & B).
  destruct (wf_size m' W) as (_ & Hp' & _).
  unfold bitmap_is_set_all. rewrite E. cbn [mbind option_bind].
  rewrite (wf_buf m' W). cbn [mbind option_bind].
  destruct (words_until_spec (words m') (fun w => bool_decide (w <> 2 ^ 32 - 1))
    (last_word_ptr m' + 1)) as (c & -> & Hc); [lia |]. cbn [mbind option_bind].
  exists c, m'. split; [by destruct c |]. split_and!; [done .. | by apply set_last_bits_set |].
  rewrite Hc, (bits_eq_iff m (universe m) (fun _ => true))
    by (intros i; rewrite elem_of_universe; tauto).
  split.
  - intros H i Hi. destruct (load_in (words m') (i / 32)) as [w Hw]; [Zlia |].
    assert (Hf : w = 2 ^ 32 - 1).
    { apply dec_stable, (bool_decide_eq_false_1 _). by apply (H (i / 32)); [Zlia |]. }
    pose proof (Forall_load u32_word _ _ _ (wf_words m' W) Hw) as Hu.
    rewrite (full_word _ _ _ Hw Hu) in Hf.
    specialize (Hf i ltac:(Zlia)). rewrite B in Hf by lia.
    by rewrite bool_decide_false in Hf by lia.
  - intros H j w Hj Hw. apply bool_decide_eq_false. intros Hne. apply Hne.
    pose proof (Forall_load u32_word _ _ _ (wf_words m' W) Hw) as Hu.
    rewrite (full_word _ _ _ Hw Hu). intros i Hi. rewrite B by lia.
    destruct (decide (i < n_bits m)); [rewrite H by lia; apply orb_true_r |].
    by rewrite bool_decide_true by lia.
Qed.

Lemma last_word_zero m w :
  wf m -> load (words m) (last_word_ptr m) = Some w ->
  (w &&& u32 (Z.lnot (last_word_mask m)) = 0 <->
   forall i, 32 * last_word_ptr m <= i < n_bits m -> bit_at (words m) i = false).
Proof.
  intros Hwf Hw. destruct (clear_last_bits_spec m Hwf) as (m' & E & W & N & M & L & B).
  unfold clear_last_bits in E. rewrite (wf_buf m Hwf) in E. cbn [mbind option_bind] in E.
  rewrite Hw in E. cbn [mbind option_bind] in E.
  set (v := w &&& u32 (Z.lnot (last_word_mask m))) in *.
  destruct (store (words m) (last_word_ptr m) v) as [b |] eqn:Hst; [| done].
  cbn [mbind option_bind] in E. injection E as <-.
  change (words (set_bitmap m (Some b))) with b in *.
  pose proof (load_store _ _ _ _ (last_word_ptr m) Hst) as Hv. rewrite decide_True in Hv by done.
  pose proof (Forall_load u32_word _ _ _ (wf_words _ W) Hv) as Hu.
  rewrite (zero_word b _ _ Hv Hu). destruct (wf_size m Hwf) as (Hn & Hp & Hs). split.
  - intros H i Hi. specialize (H i ltac:(lia)). rewrite B in H.
    by rewrite bool_decide_true in H by lia.
  - intros H i Hi. rewrite B. case_bool_decide; [| done]. simpl. apply H. lia.
Qed.

Lemma bitmap_is_clear_all_spec m :
  wf m -> exists c, bitmap_is_clear_all m = Some c /\ (c = true <-> bits_of m = ∅).
Proof.
  intros Hwf. destruct (wf_size m Hwf) as (Hn & Hp & Hs).
  setoid_rewrite (bits_eq_iff m ∅ (fun _ => false));
    [| intros i; split; [by intros ?%not_elem_of_empty | by intros [_ ?]]].
  unfold bitmap_is_clear_all. rewrite (wf_buf m Hwf). cbn [mbind option_bind].
  destruct (load_in (words m) (last_word_ptr m)) as [w Hw]; [lia |].
  rewrite Hw. cbn [mbind option_bind].
  pose proof (last_word_zero m w Hwf Hw) as Hz. case_bool_decide as Hne.
  - exists false. split; [done |]. split; [done |]. intros H. exfalso. apply Hne, Hz.
    intros i Hi. apply H. lia.
  - rewrite Hz in Hne.
    destruct (words_until_spec (words m) (fun w => bool_decide (w <> 0)) (last_word_ptr m))
      as (c & -> & Hc); [lia |]. exists c. split; [by destruct c |]. rewrite Hc. split.
    + intros H i Hi. destruct (decide (32 * last_word_ptr m <= i)); [apply Hne; lia |].
      destruct (load_in (words m) (i / 32)) as [x Hx]; [Zlia |].
      assert (Hx0 : x = 0).
      { apply dec_stable, (bool_decide_eq_false_1 _). by apply (H (i / 32)); [Zlia |]. }
      pose proof (Forall_load u32_word _ _ _ (wf_words m Hwf) Hx) as Hu.
      rewrite (zero_word _ _ _ Hx Hu) in Hx0. apply Hx0. Zlia.
    + intros H j x Hj Hx. apply bool_decide_eq_false. intros Hn0. apply Hn0.
      pose proof (Forall_load u32_word _ _ _ (wf_words m Hwf) Hx) as Hu.
      rewrite (zero_word _ _ _ Hx Hu). intros i Hi. apply H. lia.
Qed.

(** Two words without a bit of [f]: what the loops over two maps test. *)
Lemma pair_zero (f : Z -> Z -> Z) (fb : bool -> bool -> bool) ws1 ws2 j w1 w2 :
  load ws1 j = Some w1 -> load ws2 j = Some w2 -> u32_word w1 -> u32_word w2 ->
  (forall w x, u32_word w -> u32_word x -> u32_word (f w x) /\
     forall p, 0 <= p < 32 -> Z.testbit (f w x) p = fb (Z.testbit w p) (Z.testbit x p)) ->
  (f w1 w2 = 0 <-> forall i, 32 * j <= i < 32 * j + 32 ->
     fb (bit_at ws1 i) (bit_at ws2 i) = false).
Proof.
  intros H1 H2 U1 U2 Hf. destruct (Hf w1 w2 U1 U2) as [Hu Hb]. split.
  - intros H0 i Hi. replace i with (32 * j + (i - 32 * j)) by lia.
    rewrite (bit_at_word _ _ _ _ H1), (bit_at_word _ _ _ _ H2) by lia.
    rewrite <- Hb by (apply wpos_range; lia). by rewrite H0, Z.testbit_0_l.
  - intros H. apply word_eq; [done | unfold u32_word; lia |]. intros r Hr.
    rewrite Hb, Z.testbit_0_l by by apply wpos_range.
    rewrite <- (bit_at_word _ _ _ _ H1), <- (bit_at_word _ _ _ _ H2) by done. apply H. lia.
Qed.

(** The test loops over two maps, after both last words have been cleared. *)
Lemma pair_scan (f : Z -> Z -> Z) (fb : bool -> bool -> bool) m1 m2 m1' m2' :
  wf m1 -> wf m2 -> n_bits m1 = n_bits m2 ->
  clear_last_bits m1 = Some m1' -> clear_last_bits m2 = Some m2' ->
  fb false false = false ->
  (forall w x, u32_word w -> u32_word x -> u32_word (f w x) /\
     forall p, 0 <= p < 32 -> Z.testbit (f w x) p = fb (Z.testbit w p) (Z.testbit x p)) ->
  exists c : bool,
    words_until2 (words m1') (words m2') (fun w1 w2 => bool_decide (f w1 w2 <> 0))
      (last_word_ptr m1' + 1) = Some (if c then Next tt else Ret tt) /\
    (c = true <-> forall i, 0 <= i < n_bits m1 ->
       fb (bit_at (words m1) i) (bit_at (words m2) i) = false).
Proof.
  intros W1 W2 Hn E1 E2 Hfb Hf.
  destruct (clear_last_bits_spec m1 W1) as (x1 & E1' & W1' & N1 & _ & L1 & B1).
  destruct (clear_last_bits_spec m2 W2) as (x2 & E2' & W2' & N2 & _ & L2 & B2).
  simplify_eq. destruct (wf_size _ W1') as (Hn1 & Hp1 & Hs1).
  destruct (wf_size _ W2') as (Hn2 & Hp2 & Hs2).
  destruct (words_until2_spec (words m1') (words m2') (fun w1 w2 => bool_decide (f w1 w2 <> 0))
    (last_word_ptr m1' + 1)) as (c & E & Hc); [lia | lia |].
  exists c. split; [done |]. rewrite Hc. split.
  - intros H i Hi.
    destruct (load_in (words m1') (i / 32)) as [w1 Hw1]; [Zlia |].
    destruct (load_in (words m2') (i / 32)) as [w2 Hw2]; [Zlia |].
    assert (H0 : f w1 w2 = 0).
    { apply dec_stable, (bool_decide_eq_false_1 _). by apply (H (i / 32)); [Zlia | |]. }
    pose proof (Forall_load u32_word _ _ _ (wf_words _ W1') Hw1) as U1.
    pose proof (Forall_load u32_word _ _ _ (wf_words _ W2') Hw2) as U2.
    rewrite (pair_zero f fb _ _ _ _ _ Hw1 Hw2 U1 U2 Hf) in H0.
    specialize (H0 i ltac:(Zlia)). rewrite B1, B2 in H0.
    by rewrite !bool_decide_true in H0 by lia.
  - intros H j w1 w2 Hj Hw1 Hw2. apply bool_decide_eq_false. intros Hne. apply Hne.
    pose proof (Forall_load u32_word _ _ _ (wf_words _ W1') Hw1) as U1.
    pose proof (Forall_load u32_word _ _ _ (wf_words _ W2') Hw2) as U2.
    rewrite (pair_zero f fb _ _ _ _ _ Hw1 Hw2 U1 U2 Hf). intros i Hi. rewrite B1, B2, <- Hn.
    case_bool_decide; simpl; [apply H; lia | done].
Qed.

Lemma bitmap_is_subset_spec m1 m2 :
  wf m1 -> wf m2 -> n_bits m1 = n_bits m2 ->
  exists c m1' m2', bitmap_is_subset m1 m2 = Some (c, m1', m2') /\ wf m1' /\ wf m2' /\
    bits_of m1' = bits_of m1 /\ bits_of m2' = bits_of m2 /\
    (c = true <-> bits_of m1 ⊆ bits_of m2).
Proof.
  intros W1 W2 Hn.
  destruct (clear_last_bits_spec m1 W1) as (x1 & E1 & W1' & N1 & M1 & L1 & B1).
  destruct (clear_last_bits_spec m2 W2) as (x2 & E2 & W2' & N2 & M2 & L2 & B2).
  destruct (pair_scan (fun w1 w2 => w1 &&& u32 (Z.lnot w2)) (fun a b => a && negb b)
    m1 m2 x1 x2) as (c & E & Hc); [done .. | bit_fun |].
  unfold bitmap_is_subset. rewrite E1, E2. cbn [mbind option_bind].
  rewrite (wf_buf x1 W1'), (wf_buf x2 W2'). cbn [mbind option_bind]. rewrite E.
  exists c, x1, x2. split; [by destruct c |].
  split_and!; [done | done | by apply clear_last_bits_set .. |].
  rewrite Hc, elem_of_subseteq. setoid_rewrite elem_of_bits. split.
  - intros H i [Hi Hb]. specialize (H i Hi). rewrite Hb in H. split; [lia |].
    by destruct (bit_at (words m2) i).
  - intros H i Hi. specialize (H i). destruct (bit_at (words m1) i), (bit_at (words m2) i);
      try done. destruct H; done.
Qed.

Lemma bitmap_is_overlapping_spec m1 m2 :
  wf m1 -> wf m2 -> n_bits m1 = n_bits m2 ->
  exists c m1' m2', bitmap_is_overlapping m1 m2 = Some (c, m1', m2') /\ wf m1' /\ wf m2' /\
    bits_of m1' = bits_of m1 /\ bits_of m2' = bits_of m2 /\
    (c = true <-> bits_of m1 ∩ bits_of m2 <> ∅).
Proof.
  intros W1 W2 Hn.
  destruct (clear_last_bits_spec m1 W1) as (x1 & E1 & W1' & N1 & M1 & L1 & B1).
  destruct (clear_last_bits_spec m2 W2) as (x2 & E2 & W2' & N2 & M2 & L2 & B2).
  destruct (pair_scan Z.land andb m1 m2 x1 x2) as (c & E & Hc); [done .. | bit_fun |].
  unfold bitmap_is_overlapping. rewrite E1, E2. cbn [mbind option_bind].
  rewrite (wf_buf x1 W1'), (wf_buf x2 W2'). cbn [mbind option_bind]. rewrite E.
  exists (negb c), x1, x2. split; [by destruct c |].
  split_and!; [done | done | by apply clear_last_bits_set .. |].
  assert (Hd : c = true <-> bits_of m1 ∩ bits_of m2 = ∅).
  { rewrite Hc, set_eq. setoid_rewrite elem_of_intersection. setoid_rewrite elem_of_bits.
    split.
    - intros H i. split; [| set_solver]. intros [[Hi Hb] [_ Hb2]]. specialize (H i Hi).
      rewrite Hb, Hb2 in H. done.
    - intros H i Hi. destruct (bit_at (words m1) i) eqn:Eb1, (bit_at (words m2) i) eqn:Eb2; try done.
      exfalso. apply (not_elem_of_empty (C := gset Z) i), H. repeat split; done || lia. }
  rewrite <- Hd. by destruct c.
Qed.

Lemma bitmap_cmp_spec m1 m2 :
  wf m1 -> wf m2 -> n_bits m1 = n_bits m2 ->
  exists c m1' m2', bitmap_cmp m1 m2 = Some (c, m1', m2') /\ wf m1' /\ wf m2' /\
    bits_of m1' = bits_of m1 /\ bits_of m2' = bits_of m2 /\
    (c = true <-> bits_of m1 = bits_of m2).
Proof.
  intros W1 W2 Hn.
  destruct (set_last_bits_spec m1 W1) as (x1 & E1 & W1' & N1 & M1 & L1 & B1).
  destruct (set_last_bits_spec m2 W2) as (x2 & E2 & W2' & N2 & M2 & L2 & B2).
  destruct (wf_size m1 W1) as (Hn1 & _ & Hs1). destruct (wf_size m2 W2) as (_ & _ & Hs2).
  unfold bitmap_cmp. rewrite E1, E2. cbn [mbind option_bind].
  rewrite (wf_buf x1 W1'), (wf_buf x2 W2'), (wf_no_words x1 W1'), <- (wf_len x1 W1').
  cbn [mbind option_bind]. rewrite L1.
  set (l := Z.of_nat (length (words m1))) in *.
  assert (Hc : exists c : bool, for_ret (Z.to_nat (4 * l)) 0
    (fun k (_ : unit) => x ← load_byte (words x1) k; y ← load_byte (words x2) k;
       Some (if bool_decide (x <> y) then Ret tt else Next tt)) tt
    = Some (if c then Next tt else Ret tt) /\
    (c = true <-> forall i, 0 <= i < 32 * l -> bit_at (words x1) i = bit_at (words x2) i)).
  { destruct (for_ret_first (fun k => bool_decide
        (default 0 (load_byte (words x1) k) <> default 0 (load_byte (words x2) k))) (fun _ => tt)
      (Z.to_nat (4 * l)) 0 (fun k (_ : unit) => x ← load_byte (words x1) k;
         y ← load_byte (words x2) k; Some (if bool_decide (x <> y) then Ret tt else Next tt)))
      as [[E H] | (k & Hk & Hp & _ & E)].
    - intros k Hk. destruct (load_byte_in (words x1) k) as (x & -> & _); [lia |].
      destruct (load_byte_in (words x2) k) as (y & -> & _); [lia |]. done.
    - exists true. split; [done |]. split; [| done]. intros _ i Hi.
      specialize (H (i / 8) ltac:(Zlia)). apply bool_decide_eq_false, dec_stable in H.
      destruct (load_byte_in (words x1) (i / 8)) as (x & Ex & _ & Bx); [Zlia |].
      destruct (load_byte_in (words x2) (i / 8)) as (y & Ey & _ & By); [Zlia |].
      rewrite Ex, Ey in H. simpl in H. subst y. replace i with (8 * (i / 8) + i mod 8) by Zlia.
      rewrite <- Bx, <- By by Zlia. done.
    - exists false. split; [done |]. split; [done |]. intros H. exfalso.
      apply bool_decide_eq_true in Hp. apply Hp.
      destruct (load_byte_in (words x1) k) as (x & Ex & Rx & Bx); [lia |].
      destruct (load_byte_in (words x2) k) as (y & Ey & Ry & By); [lia |].
      rewrite Ex, Ey. simpl. apply (bits_eq 8); [done | done |]. intros r Hr.
      rewrite Bx, By by done. apply H. lia. }
  destruct Hc as (c & -> & Hc). exists c, x1, x2. split; [by destruct c |].
  split_and!; [done | done | by apply set_last_bits_set .. |].
  rewrite Hc, (bits_eq_iff m1 (bits_of m2) (bit_at (words m2)))
    by (intros i; by rewrite elem_of_bits, <- Hn).
  split.
  - intros H i Hi. specialize (H i ltac:(lia)). rewrite B1, B2 in H by lia.
    by rewrite !bool_decide_false in H by lia.
  - intros H i Hi. rewrite B1, B2, <- Hn by lia. case_bool_decide; [done |]. simpl.
    apply H. lia.
Qed.

Lemma bitmap_is_prefix_spec m p :
  wf m -> 0 <= p <= n_bits m ->
  exists c m', bitmap_is_prefix m p = Some (c, m') /\ wf m' /\ bits_of m' = bits_of m /\
    (c = true <-> bits_of m = below p).
Proof.
  intros Hwf Hpn. destruct (wf_size m Hwf) as (Hn & _ & Hs).
  destruct (clear_last_bits_spec m Hwf) as (m' & E & W & N & M & L & B).
  setoid_rewrite (bits_eq_iff m (below p) (fun i => bool_decide (i < p)));
    [| intros i; rewrite elem_of_below, bool_decide_eq_true; lia].
  unfold bitmap_is_prefix. rewrite (wf_buf m Hwf), (wf_no_bytes m Hwf), land_7.
  cbn [mbind option_bind].
  destruct (bytes_are_spec (words m) 255 0 (p / 8)) as (c1 & -> & H1); [lia | Zlia | lia |].
  cbn [mbind option_bind].
  assert (H255 : forall r, 0 <= r < 8 -> Z.testbit 255 r = true)
    by (intros r Hr; change 255 with (Z.ones 8); by apply Z.ones_spec_low).
  destruct c1; cycle 1.
  { exists false, m. split; [done |]. split_and!; [done | done |]. split; [done |]. intros H.
    apply H1. intros i Hi. rewrite H255 by Zlia. rewrite H by Zlia.
    apply bool_decide_true. Zlia. }
  pose proof (proj1 H1 eq_refl) as Hfull. clear H1.
  rewrite E. cbn [mbind option_bind]. rewrite (wf_buf m' W). cbn [mbind option_bind].
  assert (Hmid : exists bad q, (if bool_decide (p mod 8 <> 0)
      then x ← load_byte (words m') (p / 8);
           Some (bool_decide (x <> (1 ≪ (p mod 8)) - 1), p / 8 + 1)
      else Some (false, p / 8)) = Some (bad, q) /\ q = (p + 7) / 8 /\
      (bad = false <-> forall i, p / 8 <= i / 8 < q ->
         bit_at (words m') i = bool_decide (i < p))).
  { case_bool_decide as Hp8.
    - assert (Hpr : 0 <= p / 8 < 4 * Z.of_nat (length (words m'))) by Zlia.
      destruct (load_byte_in (words m') (p / 8)) as (x & Ex & Rx & Bx); [done |].
      rewrite Ex. eexists _, _. split; [done |]. split; [Zlia |].
      rewrite bool_decide_eq_false. rewrite shiftl_1 by Zlia.
      assert (Hr : 0 <= 2 ^ (p mod 8) - 1 < 256).
      { assert (0 < 2 ^ (p mod 8)) by (apply Z.pow_pos_nonneg; Zlia).
        assert (2 ^ (p mod 8) < 2 ^ 8) by (apply Z.pow_lt_mono_r; Zlia). lia. }
      assert (Hbits : forall i, i / 8 = p / 8 ->
        Z.testbit (2 ^ (p mod 8) - 1) (i mod 8) = bool_decide (i < p)).
      { intros i Hi. replace (2 ^ (p mod 8) - 1) with (Z.ones (p mod 8))
          by (rewrite Z.ones_equiv; lia).
        case_bool_decide; [apply Z.ones_spec_low | apply Z.ones_spec_high]; Zlia. }
      split.
      + intros Hx%dec_stable i Hi. rewrite (byte_is _ _ _ _ Hpr Ex Hr) in Hx.
        rewrite Hx, Hbits by lia. done.
      + intros H Hne. apply Hne, (byte_is _ _ _ _ Hpr Ex Hr). intros i Hi.
        rewrite Hbits by lia. apply H. lia.
    - eexists _, _. split; [done |]. split; [Zlia |]. split; [| done]. intros _ i Hi. lia. }
  destruct Hmid as (bad & q & -> & Hq & Hbad). cbn [mbind option_bind].
  assert (Hall : forall i, 0 <= i < n_bits m -> bit_at (words m') i = bit_at (words m) i).
  { intros i Hi. rewrite B. by rewrite bool_decide_true by lia. }
  destruct bad.
  { exists false, m'. split; [done |].
    split_and!; [done | by apply clear_last_bits_set |]. split; [done |]. intros H.
    exfalso. enough (true = false) by done. apply Hbad. intros i Hi.
    rewrite B. case_bool_decide as Hin; simpl; [apply H; Zlia |].
    symmetry. apply bool_decide_false. lia. }
  destruct (bytes_are_spec (words m') 0 q ((n_bits m + 7) / 8)) as (c2 & -> & H2);
    [Zlia | Zlia | lia |].
  exists c2, m'. split; [by destruct c2 |]. split; [done |].
  split; [by apply clear_last_bits_set |]. rewrite H2. clear H2.
  pose proof (proj1 Hbad eq_refl) as Hm. split.
  - intros H i Hi. rewrite <- Hall by done. destruct (decide (i / 8 < p / 8)).
    { rewrite Hall, Hfull, H255 by Zlia. symmetry. apply bool_decide_true. Zlia. }
    destruct (decide (i / 8 < q)); [apply Hm; lia |].
    rewrite H, Z.testbit_0_l by Zlia. symmetry. apply bool_decide_false. Zlia.
  - intros H i Hi. rewrite Z.testbit_0_l, B. case_bool_decide; [| done]. simpl.
    rewrite H by Zlia. apply bool_decide_false. Zlia.
Qed.

(** ** Counting *)

(** The number of bits set among the first [n]. *)
Fixpoint bit_count (ws : list Z) (n : nat) : Z :=
  match n with
  | O => 0
  | S n' => bit_count ws n' + Z.b2z (bit_at ws (Z.of_nat n'))
  end.

Lemma bit_count_range ws n : 0 <= bit_count ws n <= Z.of_nat n.
Proof.
  induction n as [| n IH]; cbn [bit_count]; [lia |]. destruct (bit_at _ _); simpl; lia.
Qed.

Lemma bit_count_size m : 0 <= n_bits m ->
  bit_count (words m) (Z.to_nat (n_bits m)) = Z.of_nat (size (bits_of m)).
Proof.
  intros Hn. unfold bits_of.
  rewrite size_list_to_set by apply NoDup_filter, NoDup_seqZ.
  replace (seqZ 0 (n_bits m)) with (seqZ 0 (Z.of_nat (Z.to_nat (n_bits m)))) by (f_equal; lia).
  induction (Z.to_nat (n_bits m)) as [| n IH]; [done |].
  cbn [bit_count]. rewrite seqZ_S, filter_app, length_app, Nat2Z.inj_add, IH, Z.add_0_l.
  f_equal. rewrite filter_cons, filter_nil. case_decide as Hb; [by rewrite Hb |].
  by apply not_true_is_false in Hb as ->.
Qed.

Lemma bit_count_byte ws (k b : Z) :
  0 <= k -> 0 <= b < 256 -> (forall r, 0 <= r < 8 -> Z.testbit b r = bit_at ws (8 * k + r)) ->
  bit_count ws (Z.to_nat (8 * (k + 1))) = bit_count ws (Z.to_nat (8 * k)) + Bits.popcount 8 b.
Proof.
  intros Hk Hb H. replace (Z.to_nat (8 * (k + 1))) with (8 + Z.to_nat (8 * k))%nat by lia.
  assert (Hj : forall j, (j <= 8)%nat -> bit_count ws (j + Z.to_nat (8 * k)) =
    bit_count ws (Z.to_nat (8 * k)) + Bits.popcount j b).
  { induction j as [| j IH]; intros Hj; [simpl; lia |].
    cbn [Nat.add bit_count Bits.popcount]. rewrite IH by lia. rewrite H by lia.
    replace (Z.of_nat (j + Z.to_nat (8 * k))) with (8 * k + Z.of_nat j) by lia. lia. }
  by apply Hj.
Qed.

Lemma bit_count_ext ws ws' n :
  (forall i, 0 <= i < Z.of_nat n -> bit_at ws i = bit_at ws' i) ->
  bit_count ws n = bit_count ws' n.
Proof.
  induction n as [| n IH]; intros H; cbn [bit_count]; [done |].
  rewrite IH, H by (intros; try apply H; lia). done.
Qed.

(** Bits that are clear do not count. *)
Lemma bit_count_tail ws n n' :
  (n <= n')%nat -> (forall i, Z.of_nat n <= i < Z.of_nat n' -> bit_at ws i = false) ->
  bit_count ws n' = bit_count ws n.
Proof.
  intros Hn H. induction n' as [| n' IH].
  - by replace n with 0%nat by lia.
  - destruct (decide (n = S n')) as [-> | ]; [done |]. cbn [bit_count].
    rewrite IH, H by (intros; try apply H; lia). simpl. lia.
Qed.

Lemma bitmap_bits_set_spec m :
  wf m -> exists m', bitmap_bits_set m = Some (Z.of_nat (size (bits_of m)), m') /\ wf m' /\
    n_bits m' = n_bits m /\ mutex m' = mutex m /\ bits_of m' = bits_of m.
Proof.
  intros Hwf. destruct (wf_size m Hwf) as (Hn & _ & Hs).
  destruct (clear_last_bits_spec m Hwf) as (m' & E & W & N & M & L & B).
  unfold bitmap_bits_set. rewrite E, (wf_no_bytes m Hwf). cbn [mbind option_bind].
  rewrite (wf_buf m' W). cbn [mbind option_bind].
  set (body := fun k res => x ← load_byte (words m') k;
     c ← Bits.my_count_bits_ushort x; Some (u32 (res + c))).
  destruct (for_up_rule (fun k res => res = bit_count (words m') (Z.to_nat (8 * k)))
    (Z.to_nat ((n_bits m + 7) / 8)) 0 body 0) as (res & Hres & Hr).
  - done.
  - intros k res Hk ->. eexists. split; [| done]. unfold body.
    destruct (load_byte_in (words m') k) as (x & -> & Rx & Bx); [Zlia |].
    cbn [mbind option_bind]. unfold Bits.my_count_bits_ushort.
    rewrite Bits.nbits_table by done. cbn [mbind option_bind]. f_equal.
    rewrite (bit_count_byte (words m') k x) by (done || lia). apply uwrap_small.
    pose proof (bit_count_range (words m') (Z.to_nat (8 * k))).
    pose proof (Bits.popcount_range 8 x). Zlia.
  - rewrite Hres. cbn [mbind option_bind]. exists m'. split.
    + f_equal. f_equal. rewrite Hr, <- bit_count_size by lia.
      rewrite (bit_count_tail _ (Z.to_nat (n_bits m))).
      * apply bit_count_ext. intros i Hi. rewrite B. by rewrite bool_decide_true by lia.
      * Zlia.
      * intros i Hi. rewrite B. by rewrite bool_decide_false by lia.
    + split_and!; [done | done | done |]. by apply clear_last_bits_set.
Qed.

(** ** Scans *)

(** A word that has a bit equal to [t]: the two inner loops find the least one. *)
Lemma scan_word_spec ws stop hit (t : bool) i :
  0 <= i < Z.of_nat (length ws) -> 32 * Z.of_nat (length ws) <= 2 ^ 32 ->
  (forall b, 0 <= b < 256 -> stop b = true <-> exists r, 0 <= r < 8 /\ Z.testbit b r = t) ->
  (forall b k, 0 <= b < 256 -> 0 <= k < 8 -> hit b k = Bool.eqb (Z.testbit b k) t) ->
  (exists r, 0 <= r < 32 /\ bit_at ws (32 * i + r) = t) ->
  exists v, scan_word ws stop hit i = Some v /\ 32 * i <= v < 32 * i + 32 /\
    bit_at ws v = t /\ forall s, 32 * i <= s < v -> bit_at ws s = negb t.
Proof.
  intros Hi Hl Hstop Hhit (r0 & Hr0 & Ht0).
  set (bt := fun j => default 0 (load_byte ws (4 * i + j))).
  assert (Hb : forall j, 0 <= j < 4 -> load_byte ws (4 * i + j) = Some (bt j) /\
    0 <= bt j < 256 /\ forall r, 0 <= r < 8 -> Z.testbit (bt j) r = bit_at ws (32 * i + 8 * j + r)).
  { intros j Hj. destruct (load_byte_in ws (4 * i + j)) as (b & E & R & B); [lia |].
    unfold bt. rewrite E. simpl. split_and!; [done | lia | lia |]. intros r Hr.
    rewrite B by done. f_equal. lia. }
  destruct (least_in_range (fun j => stop (bt j)) 0 4) as (j & Hj & Hsj & Hlj).
  { exists (r0 / 8). split; [Zlia |]. apply Hstop; [apply Hb; Zlia |]. exists (r0 mod 8).
    split; [Zlia |]. rewrite (proj2 (proj2 (Hb (r0 / 8) ltac:(Zlia)))) by Zlia.
    rewrite <- Ht0. f_equal. Zlia. }
  destruct (Hb j) as (Eb & Rb & Bb); [lia |].
  destruct (least_in_range (fun k => hit (bt j) k) 0 8) as (k & Hk & Hhk & Hlk).
  { apply (Hstop _ Rb) in Hsj as (r & Hr & Hrt). exists r. split; [lia |].
    rewrite Hhit by done. rewrite Hrt. apply eqb_reflx. }
  exists (32 * i + 8 * j + k). unfold scan_word.
  rewrite (while_least (fun j => stop (bt j)) _ 5 0 j); cycle 1; [lia | done | done | |].
  { intros j' Hj'. destruct (Hb j') as (-> & _ & _); [lia |]. done. }
  cbn [mbind option_bind]. rewrite Eb. cbn [mbind option_bind].
  rewrite (while_least (fun k => hit (bt j) k) _ 9 0 k); cycle 1; [lia | done | done | done |].
  cbn [mbind option_bind]. rewrite uwrap_small by lia.
  split_and!; [f_equal; lia | lia | lia | |].
  - rewrite <- Bb by lia. rewrite Hhit in Hhk by (done || lia). by apply eqb_prop.
  - intros s Hs. destruct (decide (s < 32 * i + 8 * j)) as [Hlt | Hge].
    + specialize (Hlj ((s - 32 * i) / 8) ltac:(Zlia)). simpl in Hlj.
      destruct (Hb ((s - 32 * i) / 8)) as (_ & Rs & Bs); [Zlia |].
      specialize (Bs ((s - 32 * i) mod 8) ltac:(Zlia)).
      replace (32 * i + 8 * ((s - 32 * i) / 8) + (s - 32 * i) mod 8) with s in Bs by Zlia.
      destruct (bit_at ws s) eqn:Ebs, t; try done; exfalso;
        (enough (stop (bt ((s - 32 * i) / 8)) = true) by congruence);
        apply Hstop; try done; exists ((s - 32 * i) mod 8); split; try done; Zlia.
    + specialize (Hlk (s - 32 * i - 8 * j) ltac:(lia)). simpl in Hlk.
      rewrite Hhit, Bb in Hlk by (done || lia).
      replace (32 * i + 8 * j + (s - 32 * i - 8 * j)) with s in Hlk by lia.
      by destruct (bit_at ws s), t.
Qed.

Lemma byte_nonzero b :
  0 <= b < 256 -> bool_decide (b <> 0) = true <-> exists r, 0 <= r < 8 /\ Z.testbit b r = true.
Proof.
  intros Hb. rewrite bool_decide_eq_true. split.
  - intros Hne. exists (Z.log2 b). split; [| by apply Z.bit_log2; lia].
    split; [apply Z.log2_nonneg |]. apply Z.log2_lt_pow2; lia.
  - intros (r & Hr & H) ->. by rewrite Z.testbit_0_l in H.
Qed.

Lemma byte_nonfull b :
  0 <= b < 256 -> bool_decide (b <> 255) = true <-> exists r, 0 <= r < 8 /\ Z.testbit b r = false.
Proof.
  intros Hb. rewrite bool_decide_eq_true. split.
  - intros Hne. destruct (proj1 (byte_nonzero (255 - b) ltac:(lia))) as (r & Hr & H);
      [apply bool_decide_eq_true; lia |].
    exists r. split; [done |]. replace (255 - b) with (Z.ldiff (Z.ones 8) b) in H.
    + rewrite Z.ldiff_spec, Z.ones_spec_low in H by done. by destruct (Z.testbit b r).
    + change 255 with (Z.ones 8). symmetry. apply Z.sub_nocarry_ldiff.
      apply Z.bits_inj'. intros i Hi. rewrite Z.ldiff_spec, Z.testbit_0_l.
      destruct (decide (i < 8)); [rewrite Z.ones_spec_low by lia; apply andb_false_r |].
      by rewrite (testbit_high 8) by lia.
  - intros (r & Hr & H) ->. change 255 with (Z.ones 8) in H.
    by rewrite Z.ones_spec_low in H.
Qed.

(** The outer loop of both scans, over the words [0 .. l-1] of the buffer. *)
Lemma scan_spec ws (wtest : Z -> bool) stop hit (t : bool) :
  32 * Z.of_nat (length ws) <= 2 ^ 32 ->
  (forall b, 0 <= b < 256 -> stop b = true <-> exists r, 0 <= r < 8 /\ Z.testbit b r = t) ->
  (forall b k, 0 <= b < 256 -> 0 <= k < 8 -> hit b k = Bool.eqb (Z.testbit b k) t) ->
  (forall j w, load ws j = Some w -> wtest w = false <->
     forall i, 32 * j <= i < 32 * j + 32 -> bit_at ws i = negb t) ->
  let r := for_ret (length ws) 0 (fun i (_ : unit) => w ← load ws i;
     if wtest w then r ← scan_word ws stop hit i; Some (Ret r) else Some (Next tt)) tt in
  (r = Some (Next tt) /\ forall i, 0 <= i < 32 * Z.of_nat (length ws) -> bit_at ws i = negb t) \/
  (exists v, r = Some (Ret v) /\ 0 <= v < 32 * Z.of_nat (length ws) /\ bit_at ws v = t /\
     forall s, 0 <= s < v -> bit_at ws s = negb t).
Proof.
  intros Hl Hstop Hhit Hw r.
  assert (Hword : forall j w, load ws j = Some w -> wtest w = true ->
    exists v, scan_word ws stop hit j = Some v /\ 32 * j <= v < 32 * j + 32 /\
    bit_at ws v = t /\ forall s, 32 * j <= s < v -> bit_at ws s = negb t).
  { intros j w Hj Ht. pose proof (load_bounds _ _ _ Hj).
    apply scan_word_spec; [done .. |].
    destruct (for_ret_first (fun r => Bool.eqb (bit_at ws (32 * j + r)) t) id 32 0
      (fun r _ => Some (if Bool.eqb (bit_at ws (32 * j + r)) t then Ret r else Next tt)))
      as [[_ Hno] | (q & Hq & Hb & _)]; [done | |].
    - enough (wtest w = false) by congruence. apply (Hw j w Hj). intros i Hi.
      specialize (Hno (i - 32 * j) ltac:(lia)).
      replace (32 * j + (i - 32 * j)) with i in Hno by lia.
      by destruct (bit_at ws i), t.
    - exists q. split; [lia | by destruct (bit_at ws (32 * j + q)), t]. }
  subst r.
  destruct (for_ret_first (fun k => wtest (default 0 (load ws k)))
    (fun k => default 0 (scan_word ws stop hit k)) (length ws) 0
    (fun i (_ : unit) => w ← load ws i;
       if wtest w then r ← scan_word ws stop hit i; Some (Ret r) else Some (Next tt)))
    as [[E H] | (k & Hk & Hp & Hlt & E)].
  - intros k Hk. destruct (load_in ws k) as [w Ew]; [lia |]. rewrite Ew. simpl.
    destruct (wtest w) eqn:Et; [| done].
    destruct (Hword k w Ew Et) as (v & -> & _). done.
  - left. rewrite Z.add_0_l in H. split; [done |]. intros i Hi.
    destruct (load_in ws (i / 32)) as [w Ew]; [Zlia |].
    specialize (H (i / 32) ltac:(Zlia)). rewrite Ew in H. simpl in H.
    apply (Hw (i / 32) w Ew); [done | Zlia].
  - right. destruct (load_in ws k) as [w Ew]; [lia |]. rewrite Ew in Hp. simpl in Hp.
    destruct (Hword k w Ew Hp) as (v & Ev & Hv & Hb & Hs). exists v. rewrite E, Ev.
    split_and!; [done | lia | lia | done |]. intros s Hsv.
    destruct (decide (32 * k <= s)); [apply Hs; lia |].
    destruct (load_in ws (s / 32)) as [x Ex]; [Zlia |].
    specialize (Hlt (s / 32) ltac:(Zlia)). rewrite Ex in Hlt. simpl in Hlt.
    apply (Hw (s / 32) x Ex); [done | Zlia].
Qed.


(** The least element of a set of bit numbers, [MY_BIT_NONE] when it is empty. *)
Definition is_first (S : gset Z) (r : Z) : Prop :=
  (S = ∅ /\ r = MY_BIT_NONE) \/ (r ∈ S /\ forall i, i ∈ S -> r <= i).

Lemma bitmap_get_first_set_spec m :
  wf m -> exists r m', bitmap_get_first_set m = Some (r, m') /\ wf m' /\
    n_bits m' = n_bits m /\ mutex m' = mutex m /\ bits_of m' = bits_of m /\
    is_first (bits_of m) r.
Proof.
  intros Hwf. destruct (clear_last_bits_spec m Hwf) as (m' & E & Hw' & Hn & Hm & Hl & Hb).
  pose proof (clear_last_bits_set m m' Hwf E) as Hset.
  destruct (wf_size m' Hw') as (Hnb & Hp & Hs).
  unfold bitmap_get_first_set. rewrite E. cbn [mbind option_bind].
  rewrite (wf_buf m' Hw'). cbn [mbind option_bind].
  replace (Z.to_nat (last_word_ptr m' + 1)) with (length (words m')) by lia.
  destruct (scan_spec (words m') (fun w => bool_decide (w <> 0))
    (fun x => bool_decide (x <> 0)) (fun x k => bool_decide (x &&& (1 ≪ k) <> 0)) true)
    as [[-> Hall] | (v & -> & Hv & Hbv & Hmin)].
  - lia.
  - intros b. apply byte_nonzero.
  - intros b k Hbr Hk. rewrite shiftl_1, land_pow2 by lia.
    destruct (Z.testbit b k); simpl; [apply bool_decide_true | done].
    pose proof (Z.pow_pos_nonneg 2 k). lia.
  - intros j w Hj. rewrite bool_decide_eq_false. rewrite <- (zero_word _ j w Hj).
    + destruct (decide (w = 0)); intuition congruence.
    + by apply (Forall_load u32_word (words m') j); [apply wf_words |].
  - eexists _, m'. split; [done |]. split_and!; [done .. |]. left. split; [| done].
    rewrite <- Hset. apply set_eq. intros i. rewrite elem_of_bits. split; [| set_solver].
    intros [Hi Hbi]. rewrite Hall in Hbi by lia. done.
  - eexists v, m'. split; [done |]. split_and!; [done .. |]. right. rewrite <- Hset.
    rewrite Hb in Hbv. apply andb_true_iff in Hbv as [Hlt%bool_decide_eq_true Hbv].
    split.
    + apply elem_of_bits. split; [lia |]. rewrite Hb, Hbv. by rewrite bool_decide_true.
    + intros i [Hi Hbi]%elem_of_bits. destruct (decide (v <= i)); [done |].
      rewrite Hmin in Hbi by lia. done.
Qed.

Lemma bitmap_get_first_spec m :
  wf m -> exists r m', bitmap_get_first m = Some (r, m') /\ wf m' /\
    n_bits m' = n_bits m /\ mutex m' = mutex m /\ bits_of m' = bits_of m /\
    is_first (universe m ∖ bits_of m) r.
Proof.
  intros Hwf. destruct (set_last_bits_spec m Hwf) as (m' & E & Hw' & Hn & Hm & Hl & Hb).
  pose proof (set_last_bits_set m m' Hwf E) as Hset.
  destruct (wf_size m' Hw') as (Hnb & Hp & Hs).
  unfold bitmap_get_first. rewrite E. cbn [mbind option_bind].
  rewrite (wf_buf m' Hw'). cbn [mbind option_bind].
  replace (Z.to_nat (last_word_ptr m' + 1)) with (length (words m')) by lia.
  destruct (scan_spec (words m') (fun w => bool_decide (w <> 2 ^ 32 - 1))
    (fun x => bool_decide (x <> 255)) (fun x k => bool_decide (x &&& (1 ≪ k) = 0)) false)
    as [[-> Hall] | (v & -> & Hv & Hbv & Hmin)].
  - lia.
  - intros b. apply byte_nonfull.
  - intros b k Hbr Hk. rewrite shiftl_1, land_pow2 by lia.
    destruct (Z.testbit b k); simpl; [apply bool_decide_false | done].
    pose proof (Z.pow_pos_nonneg 2 k). lia.
  - intros j w Hj. rewrite bool_decide_eq_false. rewrite <- (full_word _ j w Hj).
    + destruct (decide (w = 2 ^ 32 - 1)); intuition congruence.
    + by apply (Forall_load u32_word (words m') j); [apply wf_words |].
  - eexists _, m'. split; [done |]. split_and!; [done .. |]. left. split; [| done].
    rewrite <- Hset. apply set_eq. intros i.
    rewrite elem_of_difference, elem_of_universe, elem_of_bits. split; [| set_solver].
    intros [Hi Hbi]. exfalso. apply Hbi. split; [lia |]. apply Hall. lia.
  - eexists v, m'. split; [done |]. split_and!; [done .. |]. right. rewrite <- Hset.
    rewrite Hb in Hbv by lia. apply orb_false_iff in Hbv as [Hlt%bool_decide_eq_false Hbv].
    split.
    + rewrite elem_of_difference, elem_of_universe, elem_of_bits. split; [lia |].
      rewrite Hb, Hbv, bool_decide_false by lia. by intros [_ ?].
    + intros i. rewrite elem_of_difference, elem_of_universe, elem_of_bits.
      intros [Hi Hbi]. destruct (decide (v <= i)); [done |].
      exfalso. apply Hbi. split; [lia |]. rewrite Hmin by lia. done.
Qed.

Lemma bitmap_set_next_spec m :
  wf m -> exists r m', bitmap_set_next m = Some (r, m') /\ wf m' /\
    n_bits m' = n_bits m /\ mutex m' = mutex m /\ is_first (universe m ∖ bits_of m) r /\
    bits_of m' = (if decide (r = MY_BIT_NONE) then bits_of m else {[ r ]} ∪ bits_of m).
Proof.
  intros Hwf. destruct (bitmap_get_first_spec m Hwf) as (r & m1 & E & Hw1 & Hn & Hm & Hset & Hf).
  unfold bitmap_set_next. rewrite E. cbn [mbind option_bind].
  case_bool_decide as Hr.
  - assert (Hin : 0 <= r < n_bits m1).
    { destruct Hf as [[_ ?] | [Hin _]]; [done |].
      rewrite elem_of_difference, elem_of_universe in Hin. lia. }
    destruct (bitmap_set_bit_spec m1 r Hw1 Hin) as (m2 & -> & H2). simpl.
    exists r, m2. rewrite decide_False by done. intuition congruence.
  - simpl. exists r, m1. rewrite decide_True by (by destruct (decide (r = MY_BIT_NONE))).
    intuition congruence.
Qed.

(** ** Lemmas: filling and initialisation *)

Lemma fill_spec m v (t : bool) :
  wf m -> (forall r, 0 <= r < 8 -> Z.testbit v r = t) ->
  exists b, memset (words m) 0 v (4 * no_words_in_map m) = Some b /\
    wf (set_bitmap m (Some b)) /\
    bits_of (set_bitmap m (Some b)) = (if t then universe m else ∅).
Proof.
  intros Hwf Hv. destruct (wf_size m Hwf) as (Hn & Hp & Hs).
  pose proof (wf_len m Hwf) as Hlen.
  destruct (memset_in (words m) 0 v (4 * no_words_in_map m)) as (b & E & L & F & B);
    [lia | rewrite wf_no_words by done; lia .. | by apply wf_words |].
  exists b. split_and!; [done | by apply wf_set_bitmap |].
  apply set_eq. intros i. rewrite elem_of_bits.
  change (words (set_bitmap m (Some b))) with b. change (n_bits (set_bitmap m (Some b))) with (n_bits m).
  rewrite wf_no_words in B by done.
  destruct (decide (0 <= i < n_bits m)) as [Hi |].
  - rewrite B, decide_True, Hv by Zlia.
    destruct t; [rewrite elem_of_universe | rewrite elem_of_empty]; intuition congruence.
  - destruct t; [rewrite elem_of_universe | rewrite elem_of_empty]; intuition.
Qed.

Lemma bitmap_set_all_spec m :
  wf m -> exists m', bitmap_set_all m = Some m' /\ wf m' /\ n_bits m' = n_bits m /\
    mutex m' = mutex m /\ bits_of m' = universe m.
Proof.
  intros Hwf. unfold bitmap_set_all. rewrite (wf_buf m Hwf). cbn [mbind option_bind].
  destruct (fill_spec m 255 true) as (b & -> & H1 & H2); [done | |].
  - intros r Hr. change 255 with (Z.ones 8). by apply Z.ones_spec_low.
  - eexists. split; [done |]. done.
Qed.

Lemma bitmap_clear_all_spec m :
  wf m -> exists m', bitmap_clear_all m = Some m' /\ wf m' /\ n_bits m' = n_bits m /\
    mutex m' = mutex m /\ bits_of m' = ∅.
Proof.
  intros Hwf. unfold bitmap_clear_all. rewrite (wf_buf m Hwf). cbn [mbind option_bind].
  destruct (fill_spec m 0 false) as (b & -> & H1 & H2); [done | |].
  - intros r Hr. apply Z.testbit_0_l.
  - eexists. split; [done |]. done.
Qed.

Lemma bitmap_set_above_spec m from_byte use_bit :
  wf m -> 0 <= from_byte ->
  exists m', bitmap_set_above m from_byte use_bit = Some m' /\ wf m' /\
    n_bits m' = n_bits m /\ mutex m' = mutex m /\
    bits_of m' = (bits_of m ∩ below (8 * from_byte)) ∪
      (if decide (use_bit = 0) then ∅ else universe m ∖ below (8 * from_byte)).
Proof.
  intros Hwf Hfrom. destruct (wf_size m Hwf) as (Hn & Hp & Hs).
  unfold bitmap_set_above. rewrite (wf_buf m Hwf). cbn [mbind option_bind].
  fold (no_bytes_in_map m).
  set (v := if bool_decide (use_bit <> 0) then 255 else 0).
  assert (Hv : forall r, 0 <= r < 8 -> Z.testbit v r = bool_decide (use_bit <> 0)).
  { intros r Hr. unfold v. case_bool_decide; [| apply Z.testbit_0_l].
    change 255 with (Z.ones 8). by apply Z.ones_spec_low. }
  set (d := Z.max 0 (no_bytes_in_map m - from_byte)).
  destruct (decide (from_byte <= no_bytes_in_map m)) as [Hle |].
  - destruct (memset_in (words m) from_byte v d) as (b & E & L & F & B);
      [done | lia | unfold d; rewrite wf_no_bytes in * by done; Zlia | by apply wf_words |].
    unfold memset in E. replace (Z.to_nat d) with (Z.to_nat (no_bytes_in_map m - from_byte)) in E by lia.
    rewrite E. eexists. split; [done |]. split_and!; [by apply wf_set_bitmap | done | done |].
    apply set_eq. intros i. rewrite elem_of_union, elem_of_intersection, !elem_of_bits.
    change (words (set_bitmap m (Some b))) with b. change (n_bits (set_bitmap m (Some b))) with (n_bits m).
    assert (Hc : 0 <= i < n_bits m -> bit_at b i = if decide (i < 8 * from_byte)
      then bit_at (words m) i else bool_decide (use_bit <> 0)).
    { intros Hi. rewrite B. unfold d. rewrite wf_no_bytes in * by done.
      destruct (decide (i < 8 * from_byte)); [by rewrite decide_False by Zlia |].
      rewrite decide_True by Zlia. apply Hv. Zlia. }
    rewrite elem_of_below.
    destruct (decide (0 <= i < n_bits m)) as [Hi |]; [rewrite Hc by done; clear Hc |];
      destruct (decide (i < 8 * from_byte)), (decide (use_bit = 0));
      try case_bool_decide;
      rewrite ?elem_of_difference, ?elem_of_universe, ?elem_of_below, ?elem_of_empty;
      intuition (congruence || lia).
  - replace (Z.to_nat (no_bytes_in_map m - from_byte)) with 0%nat by lia. cbn.
    eexists. split; [done |]. split_and!; [apply wf_set_bitmap; [done | done | by apply wf_words] | done | done |].
    assert (n_bits m <= 8 * from_byte) by (rewrite wf_no_bytes in * by done; Zlia).
    apply set_eq. intros i. rewrite elem_of_union, elem_of_intersection, !elem_of_bits.
    change (words (set_bitmap m (Some (words m)))) with (words m).
    change (n_bits (set_bitmap m (Some (words m)))) with (n_bits m). rewrite elem_of_below.
    destruct (decide (0 <= i < 8 * from_byte)), (decide (use_bit = 0));
      rewrite ?elem_of_difference, ?elem_of_universe, ?elem_of_below, ?elem_of_empty;
      intuition (congruence || lia).
Qed.

(** [memset] past the end of the buffer. *)
Lemma memset_out ws k v n :
  0 <= k -> 0 < n -> 4 * Z.of_nat (length ws) < k + n -> memset ws k v n = None.
Proof.
  unfold memset. intros Hk Hn. rewrite <- (Z2Nat.id n) at 1 by lia.
  assert (Hne : (Z.to_nat n <> 0)%nat) by lia. revert Hk Hne. clear Hn.
  generalize (Z.to_nat n). intros q. revert ws k.
  induction q as [| q IH]; intros ws k Hk Hq Hl; [done |]. cbn [for_up].
  destruct (store_byte ws k v) as [ws' |] eqn:E; cbn [mbind option_bind]; [| done].
  assert (length ws' = length ws).
  { unfold store_byte in E. inv_opt. by eapply length_store. }
  destruct q as [| q].
  - rewrite store_byte_out in E by lia. done.
  - apply IH; lia.
Qed.

(** The bytes of a [bitmap_set_prefix]: [prefix_size / 8] full ones, a partial
    one, and the zeros, of which one lies past [no_bytes_in_map] when there is
    a partial byte. *)
Lemma set_prefix_bytes m p :
  wf m -> 0 <= p <= n_bits m ->
  exists b1 b2, 
    (if bool_decide (p / 8 <> 0) then memset (words m) 0 255 (p / 8) else Some (words m)) = Some b1 /\
    (if bool_decide (p &&& 7 <> 0)
     then b ← store_byte b1 (p / 8) ((1 ≪ (p &&& 7)) - 1); Some (b, p / 8 + 1)
     else Some (b1, p / 8)) = Some (b2, (p + 7) / 8) /\
    length b2 = length (words m) /\ Forall u32_word b2 /\
    forall i, 0 <= i < 8 * ((p + 7) / 8) -> bit_at b2 i = bool_decide (i < p).
Proof.
  intros Hwf Hp. destruct (wf_size m Hwf) as (Hn & _ & Hs). rewrite land_7.
  assert (H1 : exists b1,
    (if bool_decide (p / 8 <> 0) then memset (words m) 0 255 (p / 8) else Some (words m)) = Some b1 /\
    length b1 = length (words m) /\ Forall u32_word b1 /\
    forall i, 0 <= i < 8 * (p / 8) -> bit_at b1 i = true).
  { case_bool_decide.
    - destruct (memset_in (words m) 0 255 (p / 8)) as (b & E & L & F & B);
        [lia | Zlia | Zlia | by apply wf_words |].
      exists b. split_and!; [done .. |]. intros i Hi. rewrite B, decide_True by Zlia.
      change 255 with (Z.ones 8). apply Z.ones_spec_low. Zlia.
    - exists (words m). split_and!; [done | done | by apply wf_words | lia]. }
  destruct H1 as (b1 & E1 & L1 & F1 & B1). exists b1. rewrite E1. clear E1.
  case_bool_decide as Hr.
  - destruct (store_byte_in b1 (p / 8) ((1 ≪ (p mod 8)) - 1)) as (b2 & E2 & L2 & F2 & B2);
      [Zlia | done |].
    exists b2. rewrite E2. cbn [mbind option_bind].
    split_and!; [done | | congruence | done |]. { do 2 f_equal. Zlia. }
    intros i Hi. rewrite B2. case_decide as Hd.
    + rewrite shiftl_1, Z.sub_1_r, <- Z.ones_equiv by Zlia.
      case_bool_decide; [apply Z.ones_spec_low | apply Z.ones_spec_high]; Zlia.
    + rewrite B1, bool_decide_true by Zlia. done.
  - exists b1. split_and!; [done | | done | done |]. { do 2 f_equal. Zlia. }
    intros i Hi. rewrite B1, bool_decide_true by Zlia. done.
Qed.

Lemma bitmap_set_prefix_spec m p :
  wf m -> 0 <= p ->
  let q := Z.min p (n_bits m) in
  (q mod 8 = 0 \/ no_bytes_in_map m mod 4 <> 0 ->
     exists m', bitmap_set_prefix m p = Some m' /\ wf m' /\ n_bits m' = n_bits m /\
       mutex m' = mutex m /\ bits_of m' = below q) /\
  (q mod 8 <> 0 -> no_bytes_in_map m mod 4 = 0 -> bitmap_set_prefix m p = None).
Proof.
  intros Hwf Hp q. destruct (wf_size m Hwf) as (Hn & Hlp & Hs).
  destruct (set_prefix_bytes m q Hwf) as (b1 & b2 & E1 & E2 & L2 & F2 & B2); [lia |].
  unfold bitmap_set_prefix. rewrite (wf_buf m Hwf). cbn [mbind option_bind].
  replace (if bool_decide (p > n_bits m) then n_bits m else p) with q
    by (clear E1 E2; case_bool_decide; lia).
  rewrite E1. cbn [mbind option_bind]. rewrite E2. cbn [mbind option_bind]. clear E1 E2.
  pose proof (wf_len m Hwf) as Hlen. rewrite wf_no_bytes by done.
  rewrite uwrap_small by (subst q; Zlia). split.
  - intros Hok. assert (H3 : exists b3, (if bool_decide ((n_bits m + 7) / 8 - q / 8 <> 0)
      then memset b2 ((q + 7) / 8) 0 ((n_bits m + 7) / 8 - q / 8) else Some b2) = Some b3 /\
      length b3 = length (words m) /\ Forall u32_word b3 /\
      forall i, 0 <= i < n_bits m -> bit_at b3 i = bool_decide (i < q)).
    { case_bool_decide as Hd.
      - destruct (memset_in b2 ((q + 7) / 8) 0 ((n_bits m + 7) / 8 - q / 8))
          as (b3 & E & L & F & B); [Zlia | Zlia | Zlia | done |].
        exists b3. split_and!; [done | congruence | done |]. intros i Hi. rewrite B.
        case_decide; [rewrite Z.testbit_0_l, bool_decide_false by Zlia; done |].
        apply B2. Zlia.
      - exists b2. split_and!; [done .. |]. intros i Hi. apply B2. Zlia. }
    destruct H3 as (b3 & -> & L3 & F3 & B3). eexists. split; [done |].
    split_and!; [by apply wf_set_bitmap | done | done |].
    apply set_eq. intros i. rewrite elem_of_bits, elem_of_below.
    change (words (set_bitmap m (Some b3))) with b3. change (n_bits (set_bitmap m (Some b3))) with (n_bits m).
    split; [intros [Hi Hb] | intros Hi; split; [lia |]].
    + rewrite B3, bool_decide_eq_true in Hb by done. lia.
    + rewrite B3, bool_decide_eq_true by lia. lia.
  - intros Hq H4. rewrite bool_decide_true by Zlia. rewrite memset_out; [done | Zlia ..].
Qed.

(** The byte of [create_last_word_mask]: the bits from [used] on. *)
Lemma mask_byte n r :
  0 < n < 2 ^ 32 -> 0 <= r < 8 ->
  Z.testbit (Z.lnot ((1 ≪ u32 (1 + (u32 (n - 1) &&& 7))) - 1) &&& 255) r =
  bool_decide ((n - 1) mod 8 < r).
Proof.
  intros Hn Hr. rewrite land_7, (uwrap_small 32 (n - 1)) by lia.
  rewrite uwrap_small by Zlia. rewrite shiftl_1, Z.sub_1_r, <- Z.ones_equiv by Zlia.
  change 255 with (Z.ones 8). autorewrite with cbits.
  rewrite (Z.ones_spec_low 8) by lia. rewrite andb_true_r.
  case_bool_decide; [rewrite Z.ones_spec_high by Zlia | rewrite Z.ones_spec_low by Zlia]; done.
Qed.

Lemma create_last_word_mask_spec m :
  0 < n_bits m <= 2 ^ 32 - 32 ->
  exists mask, create_last_word_mask m =
    Some (mk_MY_BITMAP (bitmap m) (n_bits m) mask ((n_bits m + 31) / 32 - 1) (mutex m)) /\
    mask_ok (n_bits m) mask.
Proof.
  intros Hn. unfold create_last_word_mask.
  set (mask := Z.lnot _ &&& 255).
  assert (Hmask : forall r, 0 <= r < 8 -> Z.testbit mask r = bool_decide ((n_bits m - 1) mod 8 < r))
    by (intros; apply mask_byte; lia).
  clearbody mask.
  unfold no_words_in_map, no_bytes_in_map. rewrite !uwrap_small by lia.
  change 3 with (2 ^ 2 - 1). rewrite land_ones_uwrap by lia. unfold uwrap. change (2 ^ 2) with 4.
  assert (Hfull : forall r, 0 <= r < 32 -> bit_at [2 ^ 32 - 1] r = true).
  { intros r Hr. rewrite <- (Z.add_0_l r). change 0 with (32 * 0).
    rewrite (bit_at_word _ 0 (2 ^ 32 - 1)) by done. by apply (Z.ones_spec_low 32), wpos_range. }
  assert (Hzero : forall r, 0 <= r < 32 -> bit_at [0] r = false).
  { intros r Hr. rewrite <- (Z.add_0_l r). change 0 with (32 * 0) at 2.
    rewrite (bit_at_word _ 0 0) by done. apply Z.testbit_0_l. }
  assert (Hfin : forall ptr, Forall u32_word ptr -> length ptr = 1%nat ->
    (forall r, 0 <= r < 32 -> bit_at ptr r = bool_decide ((n_bits m - 1) mod 32 < r)) ->
    exists w, load ptr 0 = Some w /\ mask_ok (n_bits m) w).
  { intros ptr HF HL HB. destruct (load_in ptr 0) as [w Hw]; [lia |]. exists w. split; [done |].
    split; [by apply (Forall_load u32_word ptr 0) |]. intros r Hr. rewrite <- HB by done.
    rewrite <- (bit_at_word ptr 0 w r) by done. f_equal. }
  assert (Hall : Forall u32_word [2 ^ 32 - 1]) by (repeat constructor; unfold u32_word; lia).
  assert (Hnil : Forall u32_word [0]) by (repeat constructor; unfold u32_word; lia).
  pose proof (Z.mod_pos_bound ((n_bits m + 7) / 8) 4 ltac:(lia)) as Hc.
  destruct (((n_bits m + 7) / 8) mod 4) as [| [[|[]|] | [|[]|] |] |] eqn:Ec; try lia.
  all: repeat (match goal with |- context [store_byte ?p ?k ?v ≫= _] =>
         let b := fresh "ptr" in let L := fresh "L" in let F := fresh "F" in
         let B := fresh "B" in let E := fresh "E" in
         destruct (store_byte_in p k v) as (b & E & L & F & B);
           [simpl in *; lia | done |]; rewrite E; clear E; cbn [mbind option_bind] end).
  all: match goal with |- context [load ?p 0] =>
         destruct (Hfin p) as (w & -> & Hok);
           [done | simpl in *; lia | | by eexists] end.
  all: intros r Hr.
  all: assert (H255 : Z.testbit 255 (r mod 8) = true) by (apply (Z.ones_spec_low 8); Zlia).
  all: first [rewrite B0, B | rewrite B]; repeat case_decide;
    rewrite ?H255, ?Z.testbit_0_l, ?Hzero, ?Hfull, ?Hmask by (done || Zlia);
    repeat case_bool_decide; Zlia || done.
Qed.

(** What a successful initialisation establishes. *)
Definition fresh_map (m : MY_BITMAP) (nbits : Z) (mtx : option bool) : Prop :=
  wf m /\ n_bits m = nbits /\ mutex m = mtx /\ bits_of m = ∅.

Lemma init_finish (m : MY_BITMAP) nbits b :
  0 < nbits <= 2 ^ 32 - 32 -> Z.of_nat (length b) = (nbits + 31) / 32 -> Forall u32_word b ->
  exists m', (map ← create_last_word_mask
                (mk_MY_BITMAP (Some b) nbits (last_word_mask m) (last_word_ptr m) (mutex m));
              map ← bitmap_clear_all map; Some (0, map)) = Some (0, m') /\
    fresh_map m' nbits (mutex m).
Proof.
  intros Hn Hl HF.
  destruct (create_last_word_mask_spec
    (mk_MY_BITMAP (Some b) nbits (last_word_mask m) (last_word_ptr m) (mutex m)))
    as (mask & -> & Hmask); [done |]. cbn [mbind option_bind bitmap n_bits mutex].
  destruct (bitmap_clear_all_spec (mk_MY_BITMAP (Some b) nbits mask ((nbits + 31) / 32 - 1) (mutex m)))
    as (m' & -> & H1 & H2 & H3 & H4); [by split | by exists m'].
Qed.

(** What the code needs of [my_malloc]: a block of the size asked for. *)
Definition malloc_ok (my_malloc : Z -> option (list Z)) : Prop :=
  forall size b, my_malloc size = Some b ->
    size <= 4 * Z.of_nat (length b) /\ Forall u32_word b.

Lemma bitmap_init_spec my_malloc sizeof_mutex m buf nbits thread_safe :
  malloc_ok my_malloc -> 0 <= sizeof_mutex -> 0 < nbits <= 2 ^ 32 - 32 ->
  (forall b, buf = Some b -> Forall u32_word b /\ Z.of_nat (length b) = (nbits + 31) / 32) ->
  exists r m', bitmap_init my_malloc sizeof_mutex m buf nbits thread_safe = Some (r, m') /\
    match buf with
    | Some _ => r = 0 /\ fresh_map m' nbits (mutex m)
    | None => (r = 0 /\ fresh_map m' nbits (if thread_safe then Some false else None)) \/
              (r = 1 /\ exists size, my_malloc size = None)
    end.
Proof.
  intros Hmal Hsz Hn Hbuf. unfold bitmap_init. destruct buf as [b |].
  - destruct (Hbuf b eq_refl) as [HF HL].
    destruct (init_finish m nbits b) as (m' & -> & H); [done ..|]. by exists 0, m'.
  - set (size := bitmap_buffer_size nbits).
    assert (Hsize : size = 4 * ((nbits + 31) / 32)).
    { unfold size, bitmap_buffer_size. rewrite uwrap_small by lia. lia. }
    destruct (if thread_safe then _ else _) as [sz extra] eqn:Esz.
    assert (size <= sz + extra) by (destruct thread_safe; simplify_eq; Zlia).
    destruct (my_malloc (sz + extra)) as [b |] eqn:Em.
    + destruct (Hmal _ _ Em) as [HL HF].
      destruct (init_finish (if thread_safe then set_mutex (set_mutex m None) (Some false)
        else set_mutex m None) nbits (take (Z.to_nat (size / 4)) b)) as (m' & E & H0);
        [done | rewrite length_take; Zlia | by apply Forall_take |].
      exists 0, m'. split; [done |]. left. split; [done |]. by destruct thread_safe.
    + eexists 1, _. split; [done |]. right. split; [done |]. by exists (sz + extra).
Qed.

(** ** Lemmas: the thread safe versions *)

Lemma wf_set_mutex m x : wf m -> wf (set_mutex m x).
Proof. intros []. by split. Qed.

Lemma with_lock_spec {R} (op : MY_BITMAP -> option (R * MY_BITMAP)) m (Q : R -> gset Z -> Prop) :
  wf m -> mutex m <> Some true ->
  (forall m0, wf m0 -> n_bits m0 = n_bits m -> bits_of m0 = bits_of m ->
     exists r m1, op m0 = Some (r, m1) /\ wf m1 /\ n_bits m1 = n_bits m0 /\
       mutex m1 = mutex m0 /\ Q r (bits_of m1)) ->
  exists r m', with_lock op m = Some (r, m') /\ wf m' /\ n_bits m' = n_bits m /\
    mutex m' = mutex m /\ Q r (bits_of m').
Proof.
  intros Hwf Hm Hop. unfold with_lock, bitmap_lock, bitmap_unlock.
  destruct (mutex m) as [[|] |] eqn:Em; [done | |]; cbn [mbind option_bind].
  - destruct (Hop (set_mutex m (Some true))) as (r & m1 & -> & H1 & H2 & H3 & H4);
      [by apply wf_set_mutex | done | done |].
    cbn [mbind option_bind]. rewrite H3. cbn. eexists r, _. split; [done |].
    split_and!; [by apply wf_set_mutex | done | done | done].
  - destruct (Hop m) as (r & m1 & -> & H1 & H2 & H3 & H4); [done ..|].
    cbn [mbind option_bind]. rewrite H3, Em. cbn. exists r, m1. intuition congruence.
Qed.

(** A mutex that the caller already holds: the thread blocks on itself. *)
Lemma with_lock_held {R} (op : MY_BITMAP -> option (R * MY_BITMAP)) m :
  mutex m = Some true -> with_lock op m = None.
Proof. intros Hm. unfold with_lock, bitmap_lock. by rewrite Hm. Qed.

Lemma with_lock2_spec {R} (op : MY_BITMAP -> MY_BITMAP -> option (R * MY_BITMAP * MY_BITMAP))
    m m2 (Q : R -> gset Z -> gset Z -> Prop) :
  wf m -> wf m2 -> mutex m <> Some true -> mutex m2 <> Some true ->
  (forall a b, wf a -> wf b -> n_bits a = n_bits m -> n_bits b = n_bits m2 ->
     bits_of a = bits_of m -> bits_of b = bits_of m2 ->
     exists r a1 b1, op a b = Some (r, a1, b1) /\ wf a1 /\ wf b1 /\
       mutex a1 = mutex a /\ mutex b1 = mutex b /\ Q r (bits_of a1) (bits_of b1)) ->
  exists r m' m2', with_lock2 op m m2 = Some (r, m', m2') /\ wf m' /\ wf m2' /\
    mutex m' = mutex m /\ mutex m2' = mutex m2 /\ Q r (bits_of m') (bits_of m2').
Proof.
  intros H1 H2 Hm1 Hm2 Hop. unfold with_lock2, bitmap_lock, bitmap_unlock.
  destruct (Hop (match mutex m with Some _ => set_mutex m (Some true) | None => m end)
                (match mutex m2 with Some _ => set_mutex m2 (Some true) | None => m2 end))
    as (r & a & b & E & Ha & Hb & Ma & Mb & HQ);
    try (destruct (mutex m), (mutex m2); by try apply wf_set_mutex).
  destruct (mutex m) as [[|] |] eqn:Em, (mutex m2) as [[|] |] eqn:Em2; try done;
    cbn [mbind option_bind] in *; rewrite Em2 || idtac; cbn [mbind option_bind];
    rewrite E; cbn [mbind option_bind]; simpl in Ma, Mb; rewrite ?Em, ?Em2 in *;
    rewrite Mb; cbn [mbind option_bind]; rewrite Ma; cbn [mbind option_bind];
    eexists r, _, _; split; try done; split_and!; by try apply wf_set_mutex.
Qed.

(** A map that represents the set [S] of numbers below [n]. *)
Definition repr (m : MY_BITMAP) (n : Z) (mtx : option bool) (S : gset Z) : Prop :=
  wf m /\ n_bits m = n /\ mutex m = mtx /\ bits_of m = S.

Lemma universe_below m : universe m = below (n_bits m).
Proof. done. Qed.

(** A decidable form of well-formedness, to evaluate on concrete maps. *)
Definition wfb (m : MY_BITMAP) : bool :=
  bool_decide (bitmap m = Some (words m)) &&
  bool_decide (0 < n_bits m <= 2 ^ 32 - 32) &&
  bool_decide (Z.of_nat (length (words m)) = (n_bits m + 31) / 32) &&
  forallb (fun w => bool_decide (0 <= w < 2 ^ 32)) (words m) &&
  bool_decide (0 <= last_word_mask m < 2 ^ 32) &&
  forallb (fun r => Bool.eqb (Z.testbit (last_word_mask m) (wpos r))
                      (bool_decide ((n_bits m - 1) mod 32 < r))) (seqZ 0 32) &&
  bool_decide (last_word_ptr m = (n_bits m + 31) / 32 - 1).

Lemma wfb_wf m : wfb m = true -> wf m.
Proof.
  unfold wfb. rewrite !andb_true_iff, !bool_decide_eq_true, !forallb_forall.
  intros ((((((H1 & H2) & H3) & H4) & H5) & H6) & H7). split; try done.
  - apply Forall_forall. intros w Hw. apply (bool_decide_eq_true (0 <= w < 2 ^ 32)), H4.
    by apply list_elem_of_In.
  - split; [done |]. intros r Hr. apply eqb_prop, H6. apply list_elem_of_In, elem_of_seqZ. lia.
Qed.

End ByteOrder.
End Bitmap.
