(* ===== verification/BitmapProps.v ===== *)
(** * BitmapProps: the bitmap refines finite sets

    The properties of [mysys/my_bitmap.c], for both byte orders: a well-formed
    [MY_BITMAP] of [n] bits represents a set of numbers below [n] ([repr]), and
    the operations are the set operations, the predicates decide, the searches
    find the least element, initialisation yields the empty set, and the locking
    versions do the same and leave the mutex as they found it. *)
From stdpp Require Import base tactics option list numbers gmap sets fin_sets.
From Stdlib Require Import ZArith Lia.
From S2P Require Import Prelude.
From S2P Require Import Bits.
From S2P Require Import Bitmap.

Module BitmapProps.
Import Bitmap.

(** Maps used by the witnesses: ten bits, big and little endian. *)
Definition map_be : MY_BITMAP := mk_MY_BITMAP (Some [0x81020000]) 10 0x00fcffff 0 (Some false).
Definition map_le : MY_BITMAP := mk_MY_BITMAP (Some [0xfffffd7e]) 10 0xfffffc00 0 None.
Definition map_be2 : MY_BITMAP := mk_MY_BITMAP (Some [0x0302ffff]) 10 0x00fcffff 0 None.

Lemma map_be_wf : wf true map_be.
Proof. apply wfb_wf. vm_compute. done. Qed.
Lemma map_le_wf : wf false map_le.
Proof. apply wfb_wf. vm_compute. done. Qed.
Lemma map_be2_wf : wf true map_be2.
Proof. apply wfb_wf. vm_compute. done. Qed.

Ltac by_spec H :=
  let m' := fresh "m'" in
  destruct H as (m' & ?); exists m'; unfold repr; intuition congruence.

(** C40 Set algebra: on two well-formed maps of the same size [bitmap_union],
    [bitmap_subtract], [bitmap_xor], [bitmap_copy] and [bitmap_intersect] stay
    inside their buffers and leave the union, the difference, the symmetric
    difference, the copy and the intersection of the two sets; [bitmap_invert]
    leaves the complement; sizes and mutexes are unchanged, and the second map
    still represents its set. *)
Theorem bitmap_set_algebra (be : bool) (m m2 : MY_BITMAP) (S S2 : gset Z) n mx mx2 :
  repr be m n mx S -> repr be m2 n mx2 S2 ->
  (exists m', bitmap_union m m2 = Some m' /\ repr be m' n mx (S ∪ S2)) /\
  (exists m', bitmap_subtract m m2 = Some m' /\ repr be m' n mx (S ∖ S2)) /\
  (exists m', bitmap_xor m m2 = Some m' /\ repr be m' n mx ((S ∖ S2) ∪ (S2 ∖ S))) /\
  (exists m', bitmap_copy m m2 = Some m' /\ repr be m' n mx S2) /\
  (exists m', bitmap_invert m = Some m' /\ repr be m' n mx (below n ∖ S)) /\
  (exists m' m2', bitmap_intersect m m2 = Some (m', m2') /\ repr be m' n mx (S ∩ S2) /\
     wf be m2' /\ mutex m2' = mx2 /\ bits_of be m2' = S2).
Proof.
  intros (W & <- & <- & <-) (W2 & N2 & <- & <-). symmetry in N2. split_and!.
  - by_spec (bitmap_union_spec be m m2 W W2 N2).
  - by_spec (bitmap_subtract_spec be m m2 W W2 N2).
  - by_spec (bitmap_xor_spec be m m2 W W2 N2).
  - by_spec (bitmap_copy_spec be m m2 W W2 N2).
  - rewrite <- universe_below. by_spec (bitmap_invert_spec be m W).
  - destruct (bitmap_intersect_spec be m m2 W W2) as (m' & m2' & ?).
    exists m', m2'. unfold repr. intuition congruence.
Qed.

Lemma bitmap_set_algebra_witness :
  exists m', bitmap_xor map_be map_be2 = Some m' /\
    repr true m' 10 (Some false) ((bits_of true map_be ∖ bits_of true map_be2)
                                  ∪ (bits_of true map_be2 ∖ bits_of true map_be)).
Proof.
  apply (bitmap_set_algebra true map_be map_be2 (bits_of true map_be) (bits_of true map_be2)
           10 (Some false) None).
  - split_and!; [exact map_be_wf | done ..].
  - split_and!; [exact map_be2_wf | done ..].
Defined.

(** Single bits: inside the map [bitmap_set_bit], [bitmap_clear_bit] and
    [bitmap_flip_bit] add, remove and toggle one member; [bitmap_is_set] is
    nonzero exactly for a member; [bitmap_fast_test_and_set] and
    [bitmap_fast_test_and_clear] also report whether the bit was set before. *)
Theorem bitmap_bit_ops (be : bool) (m : MY_BITMAP) (S : gset Z) n mx bit :
  repr be m n mx S -> 0 <= bit < n ->
  (exists m', bitmap_set_bit be m bit = Some m' /\ repr be m' n mx ({[bit]} ∪ S)) /\
  (exists m', bitmap_clear_bit be m bit = Some m' /\ repr be m' n mx (S ∖ {[bit]})) /\
  (exists m', bitmap_flip_bit be m bit = Some m' /\
     repr be m' n mx (if decide (bit ∈ S) then S ∖ {[bit]} else {[bit]} ∪ S)) /\
  (exists v, bitmap_is_set be m bit = Some v /\ (v <> 0 <-> bit ∈ S)) /\
  (exists v m', bitmap_fast_test_and_set be m bit = Some (v, m') /\
     (v <> 0 <-> bit ∈ S) /\ repr be m' n mx ({[bit]} ∪ S)) /\
  (exists v m', bitmap_fast_test_and_clear be m bit = Some (v, m') /\
     (v <> 0 <-> bit ∈ S) /\ repr be m' n mx (S ∖ {[bit]})).
Proof.
  intros (W & <- & <- & <-) Hb. split_and!.
  - by_spec (bitmap_set_bit_spec be m bit W Hb).
  - by_spec (bitmap_clear_bit_spec be m bit W Hb).
  - by_spec (bitmap_flip_bit_spec be m bit W Hb).
  - exact (bitmap_is_set_spec be m bit W Hb).
  - destruct (bitmap_fast_test_and_set_spec be m bit W Hb) as (v & m' & ?).
    exists v, m'. unfold repr. intuition congruence.
  - destruct (bitmap_fast_test_and_clear_spec be m bit W Hb) as (v & m' & ?).
    exists v, m'. unfold repr. intuition congruence.
Qed.

Lemma bitmap_bit_ops_witness :
  exists v, bitmap_is_set true map_be 9 = Some v /\ (v <> 0 <-> 9 ∈ bits_of true map_be).
Proof.
  apply (bitmap_bit_ops true map_be (bits_of true map_be) 10 (Some false) 9);
    [split_and!; [exact map_be_wf | done ..] | lia].
Defined.

(** Predicates and counting: the predicates of the bitmap decide the
    predicates of the sets, [bitmap_bits_set] is the cardinality, and none of
    them changes the represented sets (they may write the unused bits of the
    last word). *)
Theorem bitmap_predicates (be : bool) (m m2 : MY_BITMAP) (S S2 : gset Z) n mx mx2 p :
  repr be m n mx S -> repr be m2 n mx2 S2 -> 0 <= p <= n ->
  (exists c m', bitmap_is_set_all m = Some (c, m') /\ wf be m' /\ bits_of be m' = S /\
     (c = true <-> S = below n)) /\
  (exists c, bitmap_is_clear_all m = Some c /\ (c = true <-> S = ∅)) /\
  (exists c m', bitmap_is_prefix be m p = Some (c, m') /\ wf be m' /\ bits_of be m' = S /\
     (c = true <-> S = below p)) /\
  (exists c m' m2', bitmap_is_subset m m2 = Some (c, m', m2') /\ wf be m' /\ wf be m2' /\
     bits_of be m' = S /\ bits_of be m2' = S2 /\ (c = true <-> S ⊆ S2)) /\
  (exists c m' m2', bitmap_is_overlapping m m2 = Some (c, m', m2') /\ wf be m' /\ wf be m2' /\
     bits_of be m' = S /\ bits_of be m2' = S2 /\ (c = true <-> S ∩ S2 <> ∅)) /\
  (exists c m' m2', bitmap_cmp be m m2 = Some (c, m', m2') /\ wf be m' /\ wf be m2' /\
     bits_of be m' = S /\ bits_of be m2' = S2 /\ (c = true <-> S = S2)) /\
  (exists m', bitmap_bits_set be m = Some (Z.of_nat (size S), m') /\ wf be m' /\
     bits_of be m' = S).
Proof.
  intros (W & <- & <- & <-) (W2 & N2 & <- & <-) Hp. symmetry in N2. split_and!.
  - destruct (bitmap_is_set_all_spec be m W) as (c & m' & ?).
    exists c, m'. rewrite <- universe_below. intuition.
  - exact (bitmap_is_clear_all_spec be m W).
  - exact (bitmap_is_prefix_spec be m p W Hp).
  - exact (bitmap_is_subset_spec be m m2 W W2 N2).
  - exact (bitmap_is_overlapping_spec be m m2 W W2 N2).
  - exact (bitmap_cmp_spec be m m2 W W2 N2).
  - destruct (bitmap_bits_set_spec be m W) as (m' & ?). exists m'. intuition.
Qed.

Lemma bitmap_predicates_witness :
  exists m', bitmap_bits_set true map_be = Some (Z.of_nat (size (bits_of true map_be)), m') /\
    wf true m' /\ bits_of true m' = bits_of true map_be.
Proof.
  apply (bitmap_predicates true map_be map_be2 (bits_of true map_be) (bits_of true map_be2)
           10 (Some false) None 3);
    [split_and!; [exact map_be_wf | done ..] | split_and!; [exact map_be2_wf | done ..] | lia].
Defined.

(** Searching: [bitmap_get_first_set] is the least member,
    [bitmap_get_first] the least number of the map that is not a member (both
    [MY_BIT_NONE] when there is none), and [bitmap_set_next] adds the number it
    returns. *)
Theorem bitmap_search (be : bool) (m : MY_BITMAP) (S : gset Z) n mx :
  repr be m n mx S ->
  (exists r m', bitmap_get_first_set be m = Some (r, m') /\ repr be m' n mx S /\
     is_first S r) /\
  (exists r m', bitmap_get_first be m = Some (r, m') /\ repr be m' n mx S /\
     is_first (below n ∖ S) r) /\
  (exists r m', bitmap_set_next be m = Some (r, m') /\ is_first (below n ∖ S) r /\
     repr be m' n mx (if decide (r = MY_BIT_NONE) then S else {[r]} ∪ S)).
Proof.
  intros (W & <- & <- & <-). rewrite <- universe_below. split_and!.
  - destruct (bitmap_get_first_set_spec be m W) as (r & m' & ?).
    exists r, m'. unfold repr. intuition congruence.
  - destruct (bitmap_get_first_spec be m W) as (r & m' & ?).
    exists r, m'. unfold repr. intuition congruence.
  - destruct (bitmap_set_next_spec be m W) as (r & m' & ?).
    exists r, m'. unfold repr. intuition congruence.
Qed.

Lemma bitmap_search_witness :
  exists r m', bitmap_get_first false map_le = Some (r, m') /\
    repr false m' 10 None (bits_of false map_le) /\
    is_first (below 10 ∖ bits_of false map_le) r.
Proof.
  apply (bitmap_search false map_le (bits_of false map_le) 10 None).
  split_and!; [exact map_le_wf | done ..].
Defined.

(** Initialisation: with a block of the size asked for (or the caller's
    buffer of the right length) [bitmap_init] returns 0 and a well-formed map of
    [nbits] bits that represents the empty set, with a free mutex exactly when
    it allocated a thread safe map; it returns 1 only when [my_malloc] failed.
    A caller's buffer keeps the mutex field of the uninitialised map. *)
Theorem bitmap_init_empty (be : bool) my_malloc sizeof_mutex m buf nbits thread_safe :
  malloc_ok my_malloc -> 0 <= sizeof_mutex -> 0 < nbits <= 2 ^ 32 - 32 ->
  (forall b, buf = Some b -> Forall u32_word b /\ Z.of_nat (length b) = (nbits + 31) / 32) ->
  exists r m', bitmap_init be my_malloc sizeof_mutex m buf nbits thread_safe = Some (r, m') /\
    match buf with
    | Some _ => r = 0 /\ repr be m' nbits (mutex m) ∅
    | None => (r = 0 /\ repr be m' nbits (if thread_safe then Some false else None) ∅) \/
              (r = 1 /\ exists size, my_malloc size = None)
    end.
Proof. exact (bitmap_init_spec be my_malloc sizeof_mutex m buf nbits thread_safe). Qed.

(** An allocator that fills its blocks with ones and refuses blocks of more
    than [2^20] bytes. *)
Definition ex_malloc (size : Z) : option (list Z) :=
  if bool_decide (size <= 2 ^ 20) then Some (replicate (Z.to_nat ((size + 3) / 4)) (2 ^ 32 - 1))
  else None.

Lemma ex_malloc_ok : malloc_ok ex_malloc.
Proof.
  intros size b. unfold ex_malloc. case_bool_decide; [| done]. intros [= <-].
  rewrite length_replicate. split; [Zlia |]. apply Forall_replicate. unfold u32_word. lia.
Qed.

Lemma bitmap_init_empty_witness :
  exists r m', bitmap_init true ex_malloc 24 map_be None 70 true = Some (r, m') /\
    ((r = 0 /\ repr true m' 70 (Some false) ∅) \/ (r = 1 /\ exists size, ex_malloc size = None)).
Proof.
  apply (bitmap_init_empty true ex_malloc 24 map_be None 70 true);
    [exact ex_malloc_ok | lia | lia | discriminate].
Defined.

(** [bitmap_set_prefix]: when the prefix ends on a byte boundary, or the
    map does not end on a word boundary, the map represents the prefix
    afterwards; in every other case the routine clears one byte behind the
    buffer. *)
Theorem bitmap_set_prefix_cases (be : bool) (m : MY_BITMAP) (S : gset Z) n mx p :
  repr be m n mx S -> 0 <= p ->
  (Z.min p n mod 8 = 0 \/ (n + 7) / 8 mod 4 <> 0 ->
     exists m', bitmap_set_prefix be m p = Some m' /\ repr be m' n mx (below (Z.min p n))) /\
  (Z.min p n mod 8 <> 0 -> (n + 7) / 8 mod 4 = 0 -> bitmap_set_prefix be m p = None).
Proof.
  intros (W & <- & <- & <-) Hp. destruct (bitmap_set_prefix_spec be m p W Hp) as [H1 H2].
  rewrite (wf_no_bytes be m W) in *. split; [| done].
  intros Hc. by_spec (H1 Hc).
Qed.

Lemma bitmap_set_prefix_cases_witness :
  (exists m', bitmap_set_prefix true map_be 5 = Some m' /\ repr true m' 10 (Some false) (below 5)).
Proof.
  apply (bitmap_set_prefix_cases true map_be (bits_of true map_be) 10 (Some false) 5);
    [split_and!; [exact map_be_wf | done ..] | lia | right; done].
Defined.

(** The thread safe versions: on a map whose mutex is free (or absent)
    [bitmap_lock_set_next], [bitmap_lock_bits_set] and [bitmap_lock_union] return
    what the plain versions return and release what they took; on a mutex that
    is already held they do not return. *)
Theorem bitmap_lock_versions (be : bool) (m m2 : MY_BITMAP) (S S2 : gset Z) n mx mx2 :
  repr be m n mx S -> repr be m2 n mx2 S2 -> mx <> Some true -> mx2 <> Some true ->
  (exists r m', bitmap_lock_set_next be m = Some (r, m') /\ is_first (below n ∖ S) r /\
     repr be m' n mx (if decide (r = MY_BIT_NONE) then S else {[r]} ∪ S)) /\
  (exists m', bitmap_lock_bits_set be m = Some (Z.of_nat (size S), m') /\ repr be m' n mx S) /\
  (exists m' m2', bitmap_lock_union m m2 = Some (tt, m', m2') /\ wf be m' /\ wf be m2' /\
     mutex m' = mx /\ mutex m2' = mx2 /\ bits_of be m' = S ∪ S2 /\ bits_of be m2' = S2) /\
  bitmap_lock_set_next be (set_mutex m (Some true)) = None.
Proof.
  intros (W & <- & <- & <-) (W2 & N2 & <- & <-) M1 M2. symmetry in N2. split_and!.
  - destruct (with_lock_spec be (bitmap_set_next be) m (fun r T =>
      is_first (below (n_bits m) ∖ bits_of be m) r /\
      T = if decide (r = MY_BIT_NONE) then bits_of be m else {[r]} ∪ bits_of be m))
      as (r & m' & E & ?); [done | done | |].
    + intros m0 W0 N0 B0. destruct (bitmap_set_next_spec be m0 W0) as (r & m1 & ?).
      exists r, m1. rewrite universe_below, N0, B0 in *. intuition congruence.
    + exists r, m'. unfold repr. intuition congruence.
  - destruct (with_lock_spec be (bitmap_bits_set be) m (fun r T =>
      r = Z.of_nat (size (bits_of be m)) /\ T = bits_of be m)) as (r & m' & E & H); [done | done | |].
    + intros m0 W0 N0 B0. destruct (bitmap_bits_set_spec be m0 W0) as (m1 & ?).
      eexists _, m1. intuition (eauto || congruence).
    + exists m'. unfold bitmap_lock_bits_set, repr. intuition congruence.
  - destruct (with_lock2_spec be (update_first bitmap_union) m m2 (fun _ T T2 =>
      T = bits_of be m ∪ bits_of be m2 /\ T2 = bits_of be m2)) as ([] & m' & m2' & E & ?); [done.. | |].
    + intros a b Wa Wb Na Nb Ba Bb.
      destruct (bitmap_union_spec be a b Wa Wb) as (a' & E & ?); [congruence |].
      unfold update_first. rewrite E. eexists tt, a', b. intuition congruence.
    + exists m', m2'. intuition.
  - by apply with_lock_held.
Qed.

Lemma bitmap_lock_versions_witness :
  exists m', bitmap_lock_bits_set true map_be = Some (Z.of_nat (size (bits_of true map_be)), m') /\
    repr true m' 10 (Some false) (bits_of true map_be).
Proof.
  apply (bitmap_lock_versions true map_be map_be2 (bits_of true map_be) (bits_of true map_be2)
           10 (Some false) None);
    [split_and!; [exact map_be_wf | done ..] | split_and!; [exact map_be2_wf | done ..] | done | done].
Defined.

End BitmapProps.
