(* ===== verification/DynArray.v ===== *)
(** * DynArray: arrays that grow dynamically

    [mysys/array.c] and [DYNAMIC_ARRAY] of [include/my_sys.h].  The buffer is
    an array of bytes; a pointer into it is a byte offset.  [my_malloc] and
    [my_realloc] are parameters; [alloc_ok] states what the code relies on.
    Sizes are [uint]s and wrap at 32 bits.  [repr] relates an array to the
    list of its elements, each a list of [size_of_element] bytes. *)
From stdpp Require Import base tactics option list numbers.
From Stdlib Require Import ZArith Lia.
From S2P Require Import Prelude.

Module DynArray.

(** ** Model *)

(** Where the bytes live: nowhere, right behind the structure
    ([buffer == (uchar* )(array + 1)]), or in another block. *)
Inductive bufptr : Type :=
| Null
| Static (b : list Z)
| Heap (b : list Z).

Definition bytes (p : bufptr) : list Z :=
  match p with Null => [] | Static b | Heap b => b end.

Definition with_bytes (p : bufptr) (b : list Z) : bufptr :=
  match p with Null => Null | Static _ => Static b | Heap _ => Heap b end.

Record DYNAMIC_ARRAY := mk_DYNAMIC_ARRAY {
  buffer : bufptr;
  elements : Z;
  max_element : Z;
  alloc_increment : Z;
  size_of_element : Z
}.

Definition set_buffer (a : DYNAMIC_ARRAY) (p : bufptr) (max : Z) : DYNAMIC_ARRAY :=
  mk_DYNAMIC_ARRAY p (elements a) max (alloc_increment a) (size_of_element a).

Definition set_elements (a : DYNAMIC_ARRAY) (n : Z) : DYNAMIC_ARRAY :=
  mk_DYNAMIC_ARRAY (buffer a) n (max_element a) (alloc_increment a) (size_of_element a).

(** [memcpy] of [bs] to [array->buffer + off]. *)
Definition memcpy_to (a : DYNAMIC_ARRAY) (off : Z) (bs : list Z) : option DYNAMIC_ARRAY :=
  b ← write (bytes (buffer a)) off bs;
  Some (set_buffer a (with_bytes (buffer a) b) (max_element a)).

Definition MALLOC_OVERHEAD : Z := 8.

Section Alloc.
(** [my_malloc size] and [my_realloc old size]: a block or [NULL]; the old
    block is the empty list for a null pointer. *)
Context (my_malloc : Z -> option (list Z)) (my_realloc : list Z -> Z -> option (list Z)).

Definition init_dynamic_array2 (element_size : Z) (init_buffer : bufptr)
    (init_alloc alloc_increment : Z) : bool * DYNAMIC_ARRAY :=
  let alloc_increment :=
    if bool_decide (alloc_increment = 0)
    then let inc := Z.max ((8192 - MALLOC_OVERHEAD) / element_size) 16 in
         if bool_decide (init_alloc > 8) && bool_decide (inc > u32 (init_alloc * 2))
         then u32 (init_alloc * 2) else inc
    else alloc_increment in
  let array := mk_DYNAMIC_ARRAY init_buffer 0 init_alloc alloc_increment element_size in
  match init_buffer with
  | Null =>
      if bool_decide (init_alloc <> 0)
      then match my_malloc (u32 (element_size * init_alloc)) with
           | Some b => (false, set_buffer array (Heap b) init_alloc)
           | None => (true, set_buffer array Null 0)
           end
      else (false, array)
  | _ => (false, array)
  end.

Definition init_dynamic_array (element_size init_alloc alloc_increment : Z)
  : bool * DYNAMIC_ARRAY :=
  init_dynamic_array2 element_size Null init_alloc alloc_increment.

(** The block that replaces a full one, [size] bytes large. *)
Definition grow (a : DYNAMIC_ARRAY) (size : Z) : option (option (list Z)) :=
  match buffer a with
  | Static b =>
      match my_malloc size with
      | None => Some None
      | Some new_ptr =>
          old ← read b 0 (u32 (elements a * size_of_element a));
          new_ptr ← write new_ptr 0 old;
          Some (Some new_ptr)
      end
  | _ => Some (my_realloc (bytes (buffer a)) size)
  end.

(** Returns the offset of the new element, [None] inside for a null result. *)
Definition alloc_dynamic (a : DYNAMIC_ARRAY) : option (option Z * DYNAMIC_ARRAY) :=
  r ← (if bool_decide (elements a = max_element a)
       then new_ptr ← grow a (u32 (u32 (max_element a + alloc_increment a) * size_of_element a));
            Some (match new_ptr with
                  | None => None
                  | Some b => Some (set_buffer a (Heap b) (u32 (max_element a + alloc_increment a)))
                  end)
       else Some (Some a));
  match r with
  | None => Some (None, a)
  | Some a =>
      Some (Some (u32 (elements a * size_of_element a)), set_elements a (u32 (elements a + 1)))
  end.

(** [true] is failure, as in the C code. *)
Definition insert_dynamic (a : DYNAMIC_ARRAY) (element : list Z)
  : option (bool * DYNAMIC_ARRAY) :=
  r ← (if bool_decide (elements a = max_element a) then alloc_dynamic a
       else Some (Some (u32 (elements a * size_of_element a)),
                  set_elements a (u32 (elements a + 1))));
  match r with
  | (None, a) => Some (true, a)
  | (Some buf, a) => a ← memcpy_to a buf element; Some (false, a)
  end.

Definition pop_dynamic (a : DYNAMIC_ARRAY) : option Z * DYNAMIC_ARRAY :=
  if bool_decide (elements a <> 0)
  then (Some (u32 ((elements a - 1) * size_of_element a)), set_elements a (elements a - 1))
  else (None, a).

Definition allocate_dynamic (a : DYNAMIC_ARRAY) (max_elements : Z)
  : option (bool * DYNAMIC_ARRAY) :=
  if bool_decide (max_elements >= max_element a)
  then
    let size := u32 (max_elements + alloc_increment a) / alloc_increment a in
    let size := u32 (size * alloc_increment a) in
    new_ptr ← grow a (u32 (size * size_of_element a));
    match new_ptr, buffer a with
    | None, Static _ => Some (false, a)
    | None, _ => Some (true, a)
    | Some b, _ => Some (false, set_buffer a (Heap b) size)
    end
  else Some (false, a).

Definition set_dynamic (a : DYNAMIC_ARRAY) (element : list Z) (idx : Z)
  : option (bool * DYNAMIC_ARRAY) :=
  r ← (if bool_decide (idx >= elements a)
       then
         '(failed, a) ← (if bool_decide (idx >= max_element a)
                         then allocate_dynamic a idx else Some (false, a));
         if failed : bool then Some (true, a)
         else
           a ← memcpy_to a (u32 (elements a * size_of_element a))
                 (replicate (Z.to_nat (u32 (u32 (idx - elements a) * size_of_element a))) 0);
           Some (false, set_elements a (u32 (idx + 1)))
       else Some (false, a));
  match r with
  | (true, a) => Some (true, a)
  | (false, a) =>
      a ← memcpy_to a (u32 (idx * size_of_element a)) element;
      Some (false, a)
  end.

(** The [size_of_element] bytes copied to the caller's [element]. *)
Definition get_dynamic (a : DYNAMIC_ARRAY) (idx : Z) : option (list Z) :=
  if bool_decide (idx >= elements a)
  then Some (replicate (Z.to_nat (size_of_element a)) 0)
  else read (bytes (buffer a)) (u32 (idx * size_of_element a)) (size_of_element a).

Definition delete_dynamic (a : DYNAMIC_ARRAY) : DYNAMIC_ARRAY :=
  match buffer a with
  | Static _ => set_elements a 0
  | Heap _ => set_elements (set_buffer a Null 0) 0
  | Null => a
  end.

Definition delete_dynamic_element (a : DYNAMIC_ARRAY) (idx : Z) : option DYNAMIC_ARRAY :=
  let ptr := u32 (size_of_element a * idx) in
  let a := set_elements a (u32 (elements a - 1)) in
  moved ← read (bytes (buffer a)) (ptr + size_of_element a)
            (u32 (u32 (elements a - idx) * size_of_element a));
  memcpy_to a ptr moved.

Definition freeze_size (a : DYNAMIC_ARRAY) : DYNAMIC_ARRAY :=
  let n := Z.max (elements a) 1 in
  match buffer a with
  | Static _ | Null => a
  | Heap b =>
      if bool_decide (max_element a <> n)
      then match my_realloc b (u32 (n * size_of_element a)) with
           | Some b' => set_buffer a (Heap b') n
           | None => set_buffer a Null n
           end
      else a
  end.

(** [element] is an address relative to [array->buffer]. *)
Definition get_index_dynamic (a : DYNAMIC_ARRAY) (element : Z) : Z :=
  if bool_decide (0 > element) then -1
  else
    let ret := u32 (element / size_of_element a) in
    if bool_decide (ret > elements a) then -1 else s32 ret.

(** ** Specification *)

(** What the code relies on of the allocator: blocks of the size asked for,
    and a [realloc] that keeps the bytes the two blocks have in common. *)
Class alloc_ok : Prop := {
  malloc_len : forall size b, my_malloc size = Some b -> Z.of_nat (length b) = size;
  realloc_len : forall old size b, my_realloc old size = Some b -> Z.of_nat (length b) = size;
  realloc_keep : forall old size b n, my_realloc old size = Some b ->
    (n <= length old)%nat -> Z.of_nat n <= size -> take n b = take n old
}.
Context `{Hal : alloc_ok}.

(** The array [a] holds the elements [l] ([n] bytes each). *)
Record repr (a : DYNAMIC_ARRAY) (l : list (list Z)) : Prop := {
  r_size : 0 < size_of_element a < 2 ^ 32;
  r_elems : elements a = Z.of_nat (length l);
  r_max : elements a <= max_element a;
  r_room : max_element a * size_of_element a <= Z.of_nat (length (bytes (buffer a)));
  r_bound : max_element a * size_of_element a < 2 ^ 32;
  r_each : Forall (fun e => Z.of_nat (length e) = size_of_element a) l;
  r_data : exists rest, bytes (buffer a) = concat l ++ rest;
  r_inc : 0 < alloc_increment a
}.

(** ** Lemmas *)

#[local] Arguments with_bytes : simpl never.

Lemma length_concat_each {A} (l : list (list A)) n :
  Forall (fun e => Z.of_nat (length e) = n) l ->
  Z.of_nat (length (concat l)) = Z.of_nat (length l) * n.
Proof.
  induction 1 as [| e l He _ IH]; [simpl; lia |]. cbn [concat]. rewrite length_app.
  cbn [length]. lia.
Qed.

(** The bytes around the element [idx]. *)
Lemma concat_at {A} (l : list (list A)) n idx e :
  Forall (fun e => Z.of_nat (length e) = n) l -> l !! idx = Some e ->
  concat l = concat (take idx l) ++ e ++ concat (drop (S idx) l) /\
  Z.of_nat (length (concat (take idx l))) = Z.of_nat idx * n.
Proof.
  intros HF Hi. split.
  - rewrite <- (take_drop_middle l idx e Hi) at 1. by rewrite concat_app.
  - rewrite (length_concat_each _ n) by by apply Forall_take.
    rewrite length_take. apply lookup_lt_Some in Hi. lia.
Qed.

Lemma bytes_with p b : p <> Null -> bytes (with_bytes p b) = b.
Proof. by destruct p. Qed.

Lemma repr_nonnull a l : repr a l -> 0 < max_element a -> buffer a <> Null.
Proof.
  intros [H1 _ _ H4 _ _ _ _] Hm Hb. rewrite Hb in H4. simpl in H4. nia.
Qed.

(** Any room behind the elements can be filled with further elements. *)
Lemma append_bytes a l new :
  repr a l -> Forall (fun e => Z.of_nat (length e) = size_of_element a) new -> new <> [] ->
  Z.of_nat (length l + length new) <= max_element a ->
  exists a', memcpy_to a (elements a * size_of_element a) (concat new) = Some a' /\
    repr (set_elements a' (Z.of_nat (length l + length new))) (l ++ new) /\
    a' = set_buffer a (buffer a') (max_element a).
Proof.
  intros R HF Hne Hm. destruct R as [H1 H2 H3 H4 H5 H6 [rest H7] H8].
  pose proof (length_concat_each l _ H6) as Hl.
  pose proof (length_concat_each new _ HF) as Hn.
  assert (Hlen : (length (concat new) <= length rest)%nat).
  { rewrite H7, length_app in H4. nia. }
  unfold memcpy_to. rewrite H7. replace (elements a * size_of_element a) with (Z.of_nat (length (concat l))) by nia.
  rewrite <- (take_drop (length (concat new)) rest).
  rewrite write_app by (rewrite length_take; lia). cbn [mbind option_bind].
  eexists. split; [done |]. split; [| done].
  assert (Hnn : buffer a <> Null).
  { intros E. rewrite E in H4. simpl in H4. destruct new; [done |]. simpl in Hm. nia. }
  split; simpl; rewrite ?bytes_with by done; try done; try lia.
  - by rewrite length_app.
  - rewrite H7, length_app in H4. rewrite !length_app, length_drop. lia.
  - by apply Forall_app.
  - eexists. rewrite concat_app, <- app_assoc. done.
Qed.

(** Growing keeps the elements and makes room. *)
Lemma grow_spec a l n size :
  repr a l -> elements a <= n -> size = n * size_of_element a -> size < 2 ^ 32 ->
  (grow a size = Some None /\
     (my_malloc size = None \/ my_realloc (bytes (buffer a)) size = None)) \/
  (exists b, grow a size = Some (Some b) /\ repr (set_buffer a (Heap b) n) l).
Proof.
  intros R Hn -> Hs. destruct R as [H1 H2 H3 H4 H5 H6 [rest H7] H8].
  pose proof (length_concat_each l _ H6) as Hl.
  assert (Hfit : Z.of_nat (length (concat l)) <= n * size_of_element a) by nia.
  assert (Hrepr : forall b, Z.of_nat (length b) = n * size_of_element a ->
    take (length (concat l)) b = concat l -> repr (set_buffer a (Heap b) n) l).
  { intros b Hb Ht. split; simpl; try done; try lia.
    exists (drop (length (concat l)) b). rewrite <- Ht at 1. by rewrite take_drop. }
  unfold grow. destruct (buffer a) as [| b0 | b0] eqn:Eb.
  - destruct (my_realloc (bytes Null) _) as [b |] eqn:Er; [right | left; auto].
    exists b. split; [done |]. apply Hrepr; [by eapply realloc_len |].
    rewrite (realloc_keep _ _ _ _ Er); [| rewrite H7, length_app | ]; [| lia | lia].
    by rewrite H7, take_app_length.
  - destruct (my_malloc _) as [b |] eqn:Em; [right | left; auto].
    pose proof (malloc_len _ _ Em) as Hb. simpl in H7. subst b0.
    rewrite uwrap_small by nia.
    replace (elements a * size_of_element a) with (Z.of_nat (length (concat l))) by nia.
    rewrite read_app_0. cbn [mbind option_bind].
    rewrite <- (take_drop (length (concat l)) b).
    rewrite write_app_0 by (rewrite length_take; lia). cbn [mbind option_bind].
    eexists. split; [done |]. apply Hrepr; [| apply take_app_length].
    rewrite length_app, length_drop. lia.
  - destruct (my_realloc (bytes (Heap b0)) _) as [b |] eqn:Er; [right | left; auto].
    exists b. split; [done |]. apply Hrepr; [by eapply realloc_len |].
    rewrite (realloc_keep _ _ _ _ Er); [| rewrite H7, length_app | ]; [| lia | lia].
    by rewrite H7, take_app_length.
Qed.

Lemma memcpy_set_elements a n off bs :
  memcpy_to (set_elements a n) off bs = (fun a' => set_elements a' n) <$> memcpy_to a off bs.
Proof. unfold memcpy_to. simpl. by destruct (write _ _ _). Qed.

(** An allocation failed. *)
Definition no_memory (a : DYNAMIC_ARRAY) : Prop :=
  exists size, my_malloc size = None \/ my_realloc (bytes (buffer a)) size = None.

Lemma alloc_dynamic_spec a l :
  repr a l -> (max_element a + alloc_increment a) * size_of_element a < 2 ^ 32 ->
  (alloc_dynamic a = Some (None, a) /\ no_memory a) \/
  (exists a1, alloc_dynamic a =
     Some (Some (elements a1 * size_of_element a1), set_elements a1 (Z.of_nat (length l + 1))) /\
     repr a1 l /\ elements a1 < max_element a1 /\ size_of_element a1 = size_of_element a).
Proof.
  intros R Hov. unfold alloc_dynamic. pose proof (r_size a l R). pose proof (r_elems a l R).
  pose proof (r_max a l R). pose proof (r_inc a l R). case_bool_decide as Hfull.
  - rewrite (uwrap_small 32 (max_element a + alloc_increment a)) by nia.
    rewrite (uwrap_small 32 (_ * _)) by nia.
    destruct (grow_spec a l (max_element a + alloc_increment a)
      ((max_element a + alloc_increment a) * size_of_element a) R)
      as [[-> Hno] | (b & -> & R')]; [lia | done | done | left | right].
    + split; [done | by eexists].
    + cbn [mbind option_bind]. eexists. split; [| split; [exact R' | simpl; lia]]. simpl.
      rewrite !uwrap_small by nia. do 3 f_equal. lia.
  - right. exists a. cbn [mbind option_bind]. split; [| split_and!; [done | lia | done]].
    pose proof (r_bound a l R). rewrite !uwrap_small by nia. do 3 f_equal. lia.
Qed.

Lemma insert_dynamic_spec a l e :
  repr a l -> (max_element a + alloc_increment a) * size_of_element a < 2 ^ 32 ->
  Z.of_nat (length e) = size_of_element a ->
  (insert_dynamic a e = Some (true, a) /\ no_memory a) \/
  (exists a', insert_dynamic a e = Some (false, a') /\ repr a' (l ++ [e])).
Proof.
  intros R Hov He. unfold insert_dynamic.
  assert (Hput : forall a1, repr a1 l -> elements a1 < max_element a1 ->
    size_of_element a1 = size_of_element a ->
    exists a', (a2 ← memcpy_to (set_elements a1 (Z.of_nat (length l + 1)))
                       (elements a1 * size_of_element a1) e; Some (false, a2)) = Some (false, a') /\
      repr a' (l ++ [e])).
  { intros a1 R1 Hlt Hs. rewrite memcpy_set_elements.
    destruct (append_bytes a1 l [e] R1) as (a' & E & Ra & _);
      [by repeat constructor; lia | done | |].
    - pose proof (r_elems a1 l R1). simpl. lia.
    - cbn [concat] in E. rewrite app_nil_r in E. rewrite E. by eexists. }
  destruct (alloc_dynamic_spec a l R Hov) as [[Ea Hno] | (a1 & Ea & R1 & Hlt & Hs)].
  - case_bool_decide as Hfull; [left; by rewrite Ea |]. exfalso.
    unfold alloc_dynamic in Ea. rewrite bool_decide_false in Ea by done. done.
  - right. assert (Hr : (if bool_decide (elements a = max_element a) then alloc_dynamic a
      else Some (Some (u32 (elements a * size_of_element a)), set_elements a (u32 (elements a + 1))))
      = alloc_dynamic a).
    { case_bool_decide; [done |]. unfold alloc_dynamic. by rewrite bool_decide_false. }
    rewrite Hr, Ea. cbn [mbind option_bind]. by apply Hput.
Qed.

Lemma allocate_dynamic_spec a l n :
  repr a l -> 0 <= n -> (n + alloc_increment a) * size_of_element a < 2 ^ 32 ->
  (exists r, allocate_dynamic a n = Some (r, a) /\ max_element a <= n /\ no_memory a /\
     (r = false <-> exists b, buffer a = Static b)) \/
  (exists a', allocate_dynamic a n = Some (false, a') /\ repr a' l /\ n < max_element a' /\
     size_of_element a' = size_of_element a).
Proof.
  intros R Hn Hov. pose proof (r_size a l R). pose proof (r_inc a l R).
  pose proof (r_max a l R). pose proof (r_elems a l R).
  unfold allocate_dynamic. case_bool_decide as Hc.
  - rewrite (uwrap_small 32 (n + alloc_increment a)) by nia.
    set (k := (n + alloc_increment a) / alloc_increment a).
    assert (Hk : n < k * alloc_increment a <= n + alloc_increment a) by (unfold k; Zdm).
    rewrite (uwrap_small 32 (k * alloc_increment a)) by nia. rewrite uwrap_small by nia.
    destruct (grow_spec a l (k * alloc_increment a)
      (k * alloc_increment a * size_of_element a) R) as [[-> Hno] | (b & -> & R')];
      [lia | done | nia | left | right].
    + assert (no_memory a) by by eexists.
      assert (max_element a <= n) by lia.
      destruct (buffer a) as [| b | b] eqn:Eb; cbn [mbind option_bind];
        [exists true | exists false | exists true]; split_and!; try done;
        (split; [intros; by (discriminate || eexists) | by intros [? ?]]).
    + cbn [mbind option_bind]. eexists. split; [done |]. split; [done |]. simpl. split; [lia | done].
  - right. exists a. split_and!; [done .. | lia | done].
Qed.

Lemma repr_set_elements a l n :
  repr (set_elements a n) l -> n = elements a -> repr a l.
Proof. intros R ->. by destruct a. Qed.

(** Overwriting an element in place. *)
Lemma overwrite a l idx e :
  repr a l -> 0 <= idx < elements a -> Z.of_nat (length e) = size_of_element a ->
  exists a', memcpy_to a (u32 (idx * size_of_element a)) e = Some a' /\
    repr a' (<[Z.to_nat idx := e]> l) /\ size_of_element a' = size_of_element a.
Proof.
  intros R Hi He. pose proof R as [H1 H2 H3 H4 H5 H6 [rest H7] H8].
  destruct (lookup_lt_is_Some_2 l (Z.to_nat idx)) as [x Hx]; [lia |].
  destruct (concat_at l _ _ _ H6 Hx) as [Hc Hl]. rewrite Z2Nat.id in Hl by lia.
  pose proof (proj1 (Forall_lookup _ _) H6 _ _ Hx) as Hlx. cbv beta in Hlx.
  rewrite uwrap_small by nia. unfold memcpy_to. rewrite H7, Hc, <- !app_assoc, <- Hl.
  rewrite write_app by lia. cbn [mbind option_bind]. eexists. split; [done |].
  split; [| done].
  assert (Hnn : buffer a <> Null) by (apply (repr_nonnull a l); [done | lia]).
  split; simpl; rewrite ?bytes_with by done; try done.
  - by rewrite length_insert.
  - rewrite H7, Hc in H4. rewrite !length_app in H4. rewrite !length_app. lia.
  - by apply Forall_insert.
  - exists rest. rewrite insert_take_drop by lia. rewrite concat_app. cbn [concat].
    by rewrite <- !app_assoc.
Qed.

Lemma concat_zeros (n : nat) es :
  0 <= es -> concat (replicate n (replicate (Z.to_nat es) 0)) = replicate (Z.to_nat (Z.of_nat n * es)) 0.
Proof.
  intros He. induction n as [| n IH]; [done |]. cbn [replicate concat]. rewrite IH.
  rewrite <- replicate_add. f_equal. lia.
Qed.

(** The list after [set_dynamic]: beyond the end, zeroed elements fill the gap. *)
Definition set_list (l : list (list Z)) (es : Z) (idx : nat) (e : list Z) : list (list Z) :=
  if decide (idx < length l)%nat then <[idx := e]> l
  else l ++ replicate (idx - length l) (replicate (Z.to_nat es) 0) ++ [e].

(** Setting at or behind the end when there is room. *)
Lemma extend a l idx e :
  repr a l -> elements a <= idx < max_element a -> Z.of_nat (length e) = size_of_element a ->
  exists a1 a2, memcpy_to a (u32 (elements a * size_of_element a))
      (replicate (Z.to_nat (u32 (u32 (idx - elements a) * size_of_element a))) 0) = Some a1 /\
    size_of_element a1 = size_of_element a /\
    memcpy_to (set_elements a1 (u32 (idx + 1))) (u32 (idx * size_of_element a)) e = Some a2 /\
    repr a2 (set_list l (size_of_element a) (Z.to_nat idx) e) /\
    size_of_element a2 = size_of_element a.
Proof.
  intros R Hi He. pose proof R as [H1 H2 H3 H4 H5 H6 _ H8].
  assert (Hx : max_element a < 2 ^ 32) by nia.
  rewrite (uwrap_small 32 (idx - elements a)), !(uwrap_small 32 (_ * _)), (uwrap_small 32 (idx + 1)) by nia.
  set (gap := replicate (Z.to_nat idx - length l) (replicate (Z.to_nat (size_of_element a)) 0)).
  assert (Hz : Forall (fun e => Z.of_nat (length e) = size_of_element a) gap).
  { apply Forall_replicate. rewrite length_replicate. lia. }
  assert (Hg : replicate (Z.to_nat ((idx - elements a) * size_of_element a)) 0 = concat gap).
  { unfold gap. rewrite concat_zeros by lia. do 2 f_equal. nia. }
  assert (Hlg : length gap = (Z.to_nat idx - length l)%nat) by apply length_replicate.
  assert (Hmid : exists a1, memcpy_to a (elements a * size_of_element a) (concat gap) = Some a1 /\
    repr (set_elements a1 idx) (l ++ gap) /\ size_of_element a1 = size_of_element a /\
    max_element a1 = max_element a).
  { destruct (decide (gap = [])) as [Hnil | Hne].
    - rewrite Hnil. destruct R as [_ _ _ _ _ _ [rest H7] _]. cbn [concat]. unfold memcpy_to.
      rewrite H7. pose proof (length_concat_each l _ H6) as Hl.
      replace (elements a * size_of_element a) with (Z.of_nat (length (concat l))) by nia.
      pose proof (write_app (concat l) [] [] rest eq_refl) as Hw. cbn [app] in Hw.
      rewrite Hw. cbn [mbind option_bind].
      eexists. split; [done |]. split; [| done].
      assert (Hnn : buffer a <> Null).
      { intros E. rewrite E in H4. simpl in H4. nia. }
      rewrite Hnil in Hlg. simpl in Hlg. rewrite app_nil_r.
      split; simpl; rewrite ?bytes_with by done; try done; try lia; [| by exists rest].
      by rewrite <- H7.
    - destruct (append_bytes a l gap R Hz Hne) as (a1 & E & R1 & Ea); [lia |].
      exists a1. rewrite E. split; [done |].
      replace (Z.of_nat (length l + length gap)) with idx in R1 by lia.
      split; [done |]. by rewrite Ea. }
  destruct Hmid as (a1 & E1 & R1 & Hs1 & Hm1). exists a1. rewrite Hg, E1.
  destruct (append_bytes (set_elements a1 idx) (l ++ gap) [e] R1) as (a2 & E2 & R2 & _);
    [simpl; rewrite Hs1; by repeat constructor | done | rewrite length_app; simpl; lia |].
  cbn [concat] in E2. rewrite app_nil_r in E2. simpl in E2. rewrite Hs1 in E2.
  rewrite memcpy_set_elements in E2 |- *.
  destruct (memcpy_to a1 (idx * size_of_element a) e) as [a3 |] eqn:E3; [| done].
  exists (set_elements a3 (idx + 1)). split_and!; [done .. | |].
  2: { unfold memcpy_to in E3. destruct (write _ _ _); [| done]. simpl in E3. by injection E3 as <-. }
  simpl in E2. injection E2 as <-. unfold set_list. rewrite decide_False by lia.
  rewrite length_app in R2. rewrite <- app_assoc in R2.
  replace (Z.of_nat (length l + length gap + length [e])) with (idx + 1) in R2 by (simpl; lia).
  exact R2.
Qed.

Lemma set_dynamic_spec a l idx e :
  repr a l -> 0 <= idx -> (Z.max (max_element a) (idx + alloc_increment a)) * size_of_element a < 2 ^ 32 ->
  Z.of_nat (length e) = size_of_element a -> (forall b, buffer a <> Static b) ->
  (set_dynamic a e idx = Some (true, a) /\ max_element a <= idx /\ no_memory a) \/
  (exists a', set_dynamic a e idx = Some (false, a') /\
     repr a' (set_list l (size_of_element a) (Z.to_nat idx) e) /\
     size_of_element a' = size_of_element a).
Proof.
  intros R Hi Hov He Hst. pose proof (r_elems a l R). pose proof (r_max a l R).
  pose proof (r_inc a l R). pose proof (r_size a l R).
  unfold set_dynamic. case_bool_decide as Hge.
  - assert (Hroom : (if bool_decide (idx >= max_element a) then allocate_dynamic a idx
      else Some (false, a)) = Some (true, a) /\ max_element a <= idx /\ no_memory a \/
      exists a1, (if bool_decide (idx >= max_element a) then allocate_dynamic a idx
        else Some (false, a)) = Some (false, a1) /\ repr a1 l /\ idx < max_element a1 /\
        size_of_element a1 = size_of_element a).
    { case_bool_decide; [| right; exists a; split_and!; [done .. | lia | done]].
      destruct (allocate_dynamic_spec a l idx) as [(r & E & ? & ? & Hr) | ?];
        [done | lia | nia | left | by right].
      destruct r; [done |]. exfalso. destruct (proj1 Hr eq_refl) as [b Hb]. by apply (Hst b). }
    destruct Hroom as [[-> ?] | (a1 & -> & R1 & Hlt & Hs)]; cbn [mbind option_bind]; [by left | right].
    pose proof (r_elems a1 l R1).
    destruct (extend a1 l idx e R1) as (a2 & a3 & E2 & Hs2 & E3 & R3 & Hs3); [lia | lia |].
    rewrite E2. cbn [mbind option_bind]. exists a3. simpl. rewrite Hs2, E3. simpl.
    split; [done |]. rewrite <- Hs. done.
  - right. cbn [mbind option_bind].
    destruct (overwrite a l idx e R) as (a' & -> & R' & Hs'); [lia | done |]. simpl.
    exists a'. split; [done |]. unfold set_list. by rewrite decide_True by lia.
Qed.

Lemma get_dynamic_spec a l idx :
  repr a l -> 0 <= idx ->
  get_dynamic a idx =
    Some (default (replicate (Z.to_nat (size_of_element a)) 0) (l !! Z.to_nat idx)).
Proof.
  intros R Hi. pose proof R as [H1 H2 H3 H4 H5 H6 [rest H7] H8]. unfold get_dynamic.
  case_bool_decide; [by rewrite (lookup_ge_None_2 l) by lia |].
  destruct (lookup_lt_is_Some_2 l (Z.to_nat idx)) as [x Hx]; [lia |].
  destruct (concat_at l _ _ _ H6 Hx) as [Hc Hl]. rewrite Z2Nat.id in Hl by lia.
  pose proof (proj1 (Forall_lookup _ _) H6 _ _ Hx) as Hlx. cbv beta in Hlx.
  rewrite uwrap_small by nia. rewrite H7, Hc, <- !app_assoc, <- Hl, <- Hlx, Hx.
  apply read_app.
Qed.

Lemma pop_dynamic_spec a l x :
  repr a (l ++ [x]) ->
  exists off a', pop_dynamic a = (Some off, a') /\ repr a' l /\
    read (bytes (buffer a')) off (size_of_element a') = Some x.
Proof.
  intros R. pose proof R as [H1 H2 H3 H4 H5 H6 [rest H7] H8].
  rewrite length_app in H2. simpl in H2. unfold pop_dynamic.
  rewrite bool_decide_true by lia. eexists _, _. split; [done |].
  apply Forall_app in H6 as [H6 Hx]. rewrite Forall_singleton in Hx.
  rewrite concat_app in H7. cbn [concat] in H7. rewrite app_nil_r, <- app_assoc in H7. split.
  - split; simpl; try done; try lia. by exists (x ++ rest).
  - simpl. rewrite uwrap_small by nia. pose proof (length_concat_each l _ H6).
    replace ((elements a - 1) * size_of_element a) with (Z.of_nat (length (concat l))) by nia.
    rewrite H7, <- Hx. apply read_app.
Qed.

Lemma delete_dynamic_element_spec a l idx :
  repr a l -> 0 <= idx < Z.of_nat (length l) ->
  exists a', delete_dynamic_element a idx = Some a' /\ repr a' (delete (Z.to_nat idx) l).
Proof.
  intros R Hi. pose proof R as [H1 H2 H3 H4 H5 H6 [rest H7] H8].
  destruct (lookup_lt_is_Some_2 l (Z.to_nat idx)) as [x Hx]; [lia |].
  destruct (concat_at l _ _ _ H6 Hx) as [Hc Hl]. rewrite Z2Nat.id in Hl by lia.
  pose proof (proj1 (Forall_lookup _ _) H6 _ _ Hx) as Hlx. cbv beta in Hlx.
  set (tl := drop (S (Z.to_nat idx)) l) in *. set (hd := concat (take (Z.to_nat idx) l)) in *.
  assert (Htl : Z.of_nat (length (concat tl)) = (elements a - 1 - idx) * size_of_element a).
  { rewrite (length_concat_each tl (size_of_element a)) by by apply Forall_drop.
    unfold tl. rewrite length_drop. nia. }
  unfold delete_dynamic_element. simpl.
  rewrite (uwrap_small 32 (size_of_element a * idx)) by nia.
  rewrite (uwrap_small 32 (elements a - 1)) by nia.
  rewrite (uwrap_small 32 (elements a - 1 - idx)) by nia. rewrite uwrap_small by nia.
  assert (Hb : bytes (buffer a) = (hd ++ x) ++ concat tl ++ rest)
    by (rewrite H7, Hc; by rewrite <- !app_assoc).
  rewrite Hb, <- Htl.
  replace (size_of_element a * idx + size_of_element a) with (Z.of_nat (length (hd ++ x)))
    by (rewrite length_app; nia).
  rewrite read_app. cbn [mbind option_bind]. rewrite memcpy_set_elements.
  unfold memcpy_to. rewrite Hb, <- app_assoc, (app_assoc x).
  replace (size_of_element a * idx) with (Z.of_nat (length hd)) by nia.
  rewrite <- (take_drop (length (concat tl)) (x ++ concat tl)), <- (app_assoc (take _ _)).
  rewrite write_app by (rewrite length_take, length_app; lia). simpl.
  eexists. split; [done |].
  assert (Hnn : buffer a <> Null) by (apply (repr_nonnull a l); [done | lia]).
  assert (Hdel : delete (Z.to_nat idx) l = take (Z.to_nat idx) l ++ tl) by apply delete_take_drop.
  split; simpl; rewrite ?bytes_with by done; try done; try lia.
  - rewrite length_delete by by eexists. lia.
  - rewrite Hb in H4. rewrite !length_app in H4. rewrite !length_app, length_drop, length_app. lia.
  - rewrite Hdel. apply Forall_app. split; [by apply Forall_take | by apply Forall_drop].
  - eexists. rewrite Hdel, concat_app, <- app_assoc. fold hd. done.
Qed.

Lemma freeze_size_spec a l :
  repr a l -> no_memory a \/ repr (freeze_size a) l.
Proof.
  intros R. pose proof R as [H1 H2 H3 H4 H5 H6 [rest H7] H8]. unfold freeze_size.
  destruct (buffer a) as [| b | b] eqn:Eb; [by right | by right |].
  case_bool_decide as Hn; [| by right].
  assert (Hfit : Z.max (elements a) 1 <= max_element a \/ max_element a = 0) by lia.
  destruct (decide (max_element a = 0)) as [Hz | Hz].
  - destruct (my_realloc b (u32 _)) as [b' |] eqn:Er; [| left; eexists; right; by rewrite Eb].
    right. assert (l = []) as -> by (destruct l; [done | simpl in H2; lia]).
    rewrite uwrap_small in Er by lia. pose proof (realloc_len _ _ _ Er).
    split; simpl; try done; try lia. by exists b'.
  - destruct (my_realloc b (u32 _)) as [b' |] eqn:Er; [| left; eexists; right; by rewrite Eb].
    right. pose proof (length_concat_each l _ H6). rewrite uwrap_small in Er by nia.
    pose proof (realloc_len _ _ _ Er) as Hlen. simpl in H7.
    split; simpl; try done; try lia; [nia |].
    exists (drop (length (concat l)) b').
    rewrite <- (take_drop (length (concat l)) b') at 1. f_equal.
    rewrite (realloc_keep _ _ _ (length (concat l)) Er);
      [by rewrite H7, take_app_length | rewrite H7, length_app; lia | nia].
Qed.

Lemma init_dynamic_array2_spec es buf init inc :
  0 < es < 2 ^ 32 -> 0 <= init < 2 ^ 31 -> es * init < 2 ^ 32 -> 0 <= inc ->
  (forall b, buf = Static b \/ buf = Heap b -> es * init <= Z.of_nat (length b)) ->
  exists r a, init_dynamic_array2 es buf init inc = (r, a) /\
    size_of_element a = es /\ repr a [] /\
    (if r : bool then max_element a = 0 /\ buffer a = Null /\ my_malloc (es * init) = None
     else max_element a = init).
Proof.
  intros He Hi Hov Hinc Hbuf. unfold init_dynamic_array2.
  set (incr := if bool_decide (inc = 0) then _ else inc).
  assert (Hpos : 0 < incr).
  { unfold incr. case_bool_decide; [| lia]. destruct (_ && _) eqn:E; [| lia].
    apply andb_true_iff in E as [E%bool_decide_eq_true _]. rewrite uwrap_small by lia. lia. }
  clearbody incr. rewrite uwrap_small by nia.
  assert (Hrepr : forall p m, m * es <= Z.of_nat (length (bytes p)) -> 0 <= m -> m * es < 2 ^ 32 ->
    repr (mk_DYNAMIC_ARRAY p 0 m incr es) []).
  { intros p m H1 H2 H3. split; simpl; try done. by exists (bytes p). }
  destruct buf as [| b | b].
  - case_bool_decide as Hz.
    + destruct (my_malloc (es * init)) as [b |] eqn:Em.
      * eexists false, _. split; [done |]. pose proof (malloc_len _ _ Em).
        split; [done |]. split; [apply Hrepr; simpl; lia | done].
      * eexists true, _. split; [done |]. split; [done |].
        split; [apply Hrepr; simpl; lia | done].
    + eexists false, _. split; [done |]. split; [done |]. split; [| done].
      assert (init = 0) as -> by lia. apply Hrepr; simpl; lia.
  - eexists false, _. split; [done |]. split; [done |]. split; [| done].
    specialize (Hbuf b (or_introl eq_refl)). apply Hrepr; simpl; lia.
  - eexists false, _. split; [done |]. split; [done |]. split; [| done].
    specialize (Hbuf b (or_intror eq_refl)). apply Hrepr; simpl; lia.
Qed.

End Alloc.

(** ** Properties *)

(** The allocator of the witnesses: blocks of zeros, up to 64 bytes. *)
Definition ex_malloc (size : Z) : option (list Z) :=
  if bool_decide (0 <= size <= 64) then Some (replicate (Z.to_nat size) 0) else None.

Definition ex_realloc (old : list Z) (size : Z) : option (list Z) :=
  if bool_decide (0 <= size <= 64)
  then Some (take (Z.to_nat size) (old ++ replicate (Z.to_nat size) 0)) else None.

#[export] Instance ex_alloc_ok : alloc_ok ex_malloc ex_realloc.
Proof.
  split; unfold ex_malloc, ex_realloc; intros *; case_bool_decide; try done; intros [= <-].
  - rewrite length_replicate. lia.
  - rewrite length_take, length_app, length_replicate. lia.
  - intros Hn Hs. rewrite take_take. rewrite Nat.min_l by lia. by rewrite take_app_le by lia.
Qed.

Definition ex_array : DYNAMIC_ARRAY :=
  mk_DYNAMIC_ARRAY (Heap [1; 2; 3; 4]) 2 2 4 2.

Lemma ex_array_repr : repr ex_array [[1; 2]; [3; 4]].
Proof. split; simpl; try lia; [by repeat constructor | by exists []]. Qed.

(** [insert_dynamic] appends: with no 32-bit overflow of the new size it
    either stores the element behind the others (growing the block when it is
    full, without losing an element), or it returns [TRUE], changes nothing and
    an allocation failed. *)
Theorem insert_dynamic_appends my_malloc my_realloc (Hal : alloc_ok my_malloc my_realloc) a l e :
  repr a l -> (max_element a + alloc_increment a) * size_of_element a < 2 ^ 32 ->
  Z.of_nat (length e) = size_of_element a ->
  (insert_dynamic my_malloc my_realloc a e = Some (true, a) /\ no_memory my_malloc my_realloc a) \/
  (exists a', insert_dynamic my_malloc my_realloc a e = Some (false, a') /\ repr a' (l ++ [e])).
Proof. apply insert_dynamic_spec. done. Qed.

Lemma insert_dynamic_appends_witness :
  (insert_dynamic ex_malloc ex_realloc ex_array [5; 6] = Some (true, ex_array) /\
     no_memory ex_malloc ex_realloc ex_array) \/
  (exists a', insert_dynamic ex_malloc ex_realloc ex_array [5; 6] = Some (false, a') /\
     repr a' ([[1; 2]; [3; 4]] ++ [[5; 6]])).
Proof.
  apply (insert_dynamic_appends ex_malloc ex_realloc ex_alloc_ok ex_array);
    [exact ex_array_repr | simpl; lia | done].
Defined.

(** [set_dynamic], then [get_dynamic]: on an array that is not static, a
    successful [set_dynamic] leaves the list with the element at [idx], the gap
    behind the old end filled with zeroed elements, so that [get_dynamic] of
    [idx] returns the element, of an older index what it returned before and of
    an index behind the end zeros; a failure changes nothing. *)
Theorem set_then_get_dynamic my_malloc my_realloc (Hal : alloc_ok my_malloc my_realloc) a l idx e :
  repr a l -> 0 <= idx ->
  Z.max (max_element a) (idx + alloc_increment a) * size_of_element a < 2 ^ 32 ->
  Z.of_nat (length e) = size_of_element a -> (forall b, buffer a <> Static b) ->
  (set_dynamic my_malloc my_realloc a e idx = Some (true, a) /\ max_element a <= idx /\
     no_memory my_malloc my_realloc a) \/
  (exists a', set_dynamic my_malloc my_realloc a e idx = Some (false, a') /\
     repr a' (set_list l (size_of_element a) (Z.to_nat idx) e) /\
     get_dynamic a' idx = Some e /\
     forall j, 0 <= j -> j <> idx -> get_dynamic a' j = get_dynamic a j).
Proof.
  intros R Hi Hov He Hst.
  destruct (set_dynamic_spec my_malloc my_realloc a l idx e R Hi Hov He Hst) as [H | (a' & E & R' & Hs)];
    [by left | right].
  exists a'. split; [done |]. split; [done |].
  assert (Hl : forall j, set_list l (size_of_element a) (Z.to_nat idx) e !! j =
    if decide (j = Z.to_nat idx) then Some e
    else if decide (j < length l)%nat then l !! j
    else if decide (j < Z.to_nat idx)%nat then Some (replicate (Z.to_nat (size_of_element a)) 0) else None).
  { intros j. unfold set_list. case_decide as Hlt.
    - rewrite list_lookup_insert. repeat case_decide; try lia; try done.
      all: apply lookup_ge_None_2; lia.
    - rewrite lookup_app. case_decide as Hj; [subst j |].
      + rewrite lookup_ge_None_2 by lia. rewrite lookup_app_r by (rewrite length_replicate; lia).
        by rewrite length_replicate, Nat.sub_diag.
      + case_decide as Hjl; [destruct (lookup_lt_is_Some_2 l j Hjl) as [y ->]; done |].
        rewrite lookup_ge_None_2 by lia. case_decide.
        * rewrite lookup_app_l by (rewrite length_replicate; lia). apply lookup_replicate_2. lia.
        * apply lookup_ge_None_2. rewrite length_app, length_replicate. simpl. lia. }
  split.
  - rewrite (get_dynamic_spec a' _ idx R' Hi), Hl, decide_True by done. done.
  - intros j Hj Hne. rewrite (get_dynamic_spec a' _ j R' Hj), (get_dynamic_spec a l j R Hj), Hl, Hs.
    rewrite decide_False by lia. case_decide; [done |].
    rewrite (lookup_ge_None_2 l (Z.to_nat j)) by lia. by case_decide.
Qed.

Lemma set_then_get_dynamic_witness :
  (set_dynamic ex_malloc ex_realloc ex_array [5; 6] 4 = Some (true, ex_array) /\
     max_element ex_array <= 4 /\ no_memory ex_malloc ex_realloc ex_array) \/
  (exists a', set_dynamic ex_malloc ex_realloc ex_array [5; 6] 4 = Some (false, a') /\
     repr a' (set_list [[1; 2]; [3; 4]] 2 4 [5; 6]) /\ get_dynamic a' 4 = Some [5; 6] /\
     forall j, 0 <= j -> j <> 4 -> get_dynamic a' j = get_dynamic ex_array j).
Proof.
  apply (set_then_get_dynamic ex_malloc ex_realloc ex_alloc_ok ex_array _ 4);
    [exact ex_array_repr | lia | simpl; lia | done | discriminate].
Defined.

(** Removal: [pop_dynamic] gives the last element and drops it,
    [delete_dynamic_element] closes the gap of the element it deletes, and
    [freeze_size] keeps all elements unless [my_realloc] fails. *)
Theorem remove_dynamic my_malloc my_realloc (Hal : alloc_ok my_malloc my_realloc) a l x idx :
  repr a (l ++ [x]) -> 0 <= idx <= Z.of_nat (length l) ->
  (exists off a', pop_dynamic a = (Some off, a') /\ repr a' l /\
     read (bytes (buffer a')) off (size_of_element a') = Some x) /\
  (exists a', delete_dynamic_element a idx = Some a' /\ repr a' (delete (Z.to_nat idx) (l ++ [x]))) /\
  (no_memory my_malloc my_realloc a \/ repr (freeze_size my_realloc a) (l ++ [x])).
Proof.
  intros R Hi. split_and!.
  - by apply pop_dynamic_spec.
  - apply delete_dynamic_element_spec; [done |]. rewrite length_app. simpl. lia.
  - by apply freeze_size_spec.
Qed.

Lemma remove_dynamic_witness :
  exists a', delete_dynamic_element ex_array 0 = Some a' /\ repr a' [[3; 4]].
Proof.
  apply (remove_dynamic ex_malloc ex_realloc ex_alloc_ok ex_array [[1; 2]] [3; 4] 0);
    [exact ex_array_repr | simpl; lia].
Defined.

(** [allocate_dynamic] of a full static array reports success although
    nothing was allocated: when [my_malloc] fails the result is [FALSE] and the
    array is unchanged, too small for the elements that were asked for. *)
Theorem allocate_dynamic_static_failure my_realloc a b n :
  buffer a = Static b -> max_element a <= n ->
  allocate_dynamic (fun _ => None) my_realloc a n = Some (false, a).
Proof.
  intros Hb Hn. unfold allocate_dynamic, grow. rewrite bool_decide_true by lia.
  by rewrite Hb.
Qed.

Lemma allocate_dynamic_static_failure_witness :
  allocate_dynamic (fun _ => None) ex_realloc (mk_DYNAMIC_ARRAY (Static [1; 2]) 1 1 4 2) 7 =
  Some (false, mk_DYNAMIC_ARRAY (Static [1; 2]) 1 1 4 2).
Proof.
  apply (allocate_dynamic_static_failure ex_realloc (mk_DYNAMIC_ARRAY (Static [1; 2]) 1 1 4 2) [1; 2] 7);
    [done | simpl; lia].
Defined.

End DynArray.
