(* ===== verification/LinkedList.v ===== *)
(** * LinkedList: doubly linked lists

    [mysys/list.c] and [LIST] of [include/my_list.h].  Nodes live in a heap, a
    finite map from addresses to nodes; 0 is the null pointer and following a
    pointer that is not in the heap is [None].  [dlist h l] says that the heap
    holds a well linked list of the nodes [l] (address and data, in order). *)
From stdpp Require Import base tactics option list numbers gmap.
From Stdlib Require Import ZArith Lia.
From S2P Require Import Prelude.

Set Warnings "-clear-no-such-hyp".

Module LinkedList.

(** ** Model *)

Record LIST := mk_LIST { prev : Z; next : Z; data : Z }.
Abbreviation store_heap := (gmap Z LIST).
Implicit Types (h : store_heap) (root element p : Z).

Definition set_prev h a v : option store_heap :=
  n ← h !! a; Some (<[a := mk_LIST v (next n) (data n)]> h).
Definition set_next h a v : option store_heap :=
  n ← h !! a; Some (<[a := mk_LIST (prev n) v (data n)]> h).

Definition list_add h root element : option (store_heap * Z) :=
  h ← (if bool_decide (root <> 0)
       then
         r ← h !! root;
         h ← (if bool_decide (prev r <> 0) then set_next h (prev r) element else Some h);
         r ← h !! root;
         h ← set_prev h element (prev r);
         set_prev h root element
       else set_prev h element 0);
  h ← set_next h element root;
  Some (h, element).

Definition list_delete h root element : option (store_heap * Z) :=
  e ← h !! element;
  '(h, root) ← (if bool_decide (prev e <> 0)
                then h ← set_next h (prev e) (next e); Some (h, root)
                else Some (h, next e));
  e ← h !! element;
  h ← (if bool_decide (next e <> 0) then set_prev h (next e) (prev e) else Some h);
  Some (h, root).

(** The heap afterwards and the data pointers that were passed to [my_free];
    the fuel bounds the length of the list. *)
Fixpoint list_free (fuel : nat) h root (free_data : bool) : option (store_heap * list Z) :=
  if bool_decide (root <> 0)
  then
    match fuel with
    | O => None
    | S fuel =>
        r ← h !! root;
        '(h', freed) ← list_free fuel (delete root h) (next r) free_data;
        Some (h', if free_data then data r :: freed else freed)
    end
  else Some (h, []).

(** [new_charset] is the address of the node that [my_malloc] returned. *)
Definition list_cons h (new_charset : Z) (d : Z) (list : Z) : option (store_heap * Z) :=
  if bool_decide (new_charset = 0) then Some (h, 0)
  else list_add (<[new_charset := mk_LIST 0 0 d]> h) list new_charset.

Fixpoint reverse_loop (fuel : nat) h root last : option (store_heap * Z) :=
  if bool_decide (root <> 0)
  then
    match fuel with
    | O => None
    | S fuel =>
        let last := root in
        r ← h !! root;
        let root := next r in
        h ← set_next h last (prev r);
        h ← set_prev h last root;
        reverse_loop fuel h root last
    end
  else Some (h, last).

Definition list_reverse (fuel : nat) h root : option (store_heap * Z) :=
  reverse_loop fuel h root root.

Fixpoint length_loop (fuel : nat) h (list count : Z) : option Z :=
  if bool_decide (list <> 0)
  then
    match fuel with
    | O => None
    | S fuel => n ← h !! list; length_loop fuel h (next n) (u32 (count + 1))
    end
  else Some count.

Definition list_length (fuel : nat) h (list : Z) : option Z := length_loop fuel h list 0.

(** [action data argument] may change what [argument] points to: a state. *)
Fixpoint list_walk {S} (fuel : nat) h (list : Z) (action : Z -> S -> Z * S) (argument : S)
  : option (Z * S) :=
  if bool_decide (list <> 0)
  then
    match fuel with
    | O => None
    | Datatypes.S fuel =>
        n ← h !! list;
        let '(error, argument) := action (data n) argument in
        if bool_decide (error <> 0) then Some (error, argument)
        else list_walk fuel h (next n) action argument
    end
  else Some (0, argument).

(** ** Specification *)

(** The address of the first node of [l], or [z]. *)
Definition first (l : list (Z * Z)) (z : Z) : Z :=
  match l with [] => z | (a, _) :: _ => a end.

(** The address of the last node of [l], or [z]. *)
Definition final (l : list (Z * Z)) (z : Z) : Z := from_option fst z (last l).

(** A linked segment: [p] in front of it, [n] behind it. *)
Fixpoint seg h p (l : list (Z * Z)) (n : Z) : Prop :=
  match l with
  | [] => True
  | (a, d) :: l' => h !! a = Some (mk_LIST p (first l' n) d) /\ seg h a l' n
  end.

Definition addrs (l : list (Z * Z)) : list Z := l.*1.

Definition dlist h (l : list (Z * Z)) : Prop :=
  seg h 0 l 0 /\ NoDup (addrs l) /\ 0 ∉ addrs l.

(** ** Lemmas *)

Lemma seg_frame h p l n a v : a ∉ addrs l -> seg (<[a := v]> h) p l n <-> seg h p l n.
Proof.
  revert p; induction l as [| [b d] l IH]; intros p Ha; [done |]. simpl.
  rewrite lookup_insert_ne by set_solver. rewrite IH by set_solver. done.
Qed.

Lemma seg_frame_delete h p l n a : a ∉ addrs l -> seg (delete a h) p l n <-> seg h p l n.
Proof.
  revert p; induction l as [| [b d] l IH]; intros p Ha; [done |]. simpl.
  rewrite lookup_delete_ne by set_solver. rewrite IH by set_solver. done.
Qed.

Lemma final_cons a d l z : final ((a, d) :: l) z = final l a.
Proof. unfold final. destruct l as [| x l]; [done |]. rewrite last_cons_cons. destruct (last (x :: l)) eqn:E; [done |]. by apply last_None in E. Qed.

Lemma seg_app h p l1 l2 n :
  seg h p (l1 ++ l2) n <-> seg h p l1 (first l2 n) /\ seg h (final l1 p) l2 n.
Proof.
  revert p; induction l1 as [| [a d] l1 IH]; intros p; [simpl; intuition |].
  rewrite final_cons. simpl. rewrite IH.
  assert (first (l1 ++ l2) n = first l1 (first l2 n)) as -> by by destruct l1 as [| [? ?] ?].
  intuition.
Qed.

Lemma first_elem l z : first l z ∈ addrs l \/ (l = [] /\ first l z = z).
Proof. destruct l as [| [a d] l]; simpl; [by right | left; set_solver]. Qed.

Lemma final_elem l z : final l z ∈ addrs l \/ (l = [] /\ final l z = z).
Proof.
  unfold final. destruct (last l) as [[a d] |] eqn:E; simpl.
  - left. apply last_Some_elem_of in E. unfold addrs. by apply (list_elem_of_fmap_2 fst l (a, d)).
  - right. by apply last_None in E.
Qed.

(** Redirecting the pointer behind a segment. *)
Lemma seg_set_next h p l n n' :
  seg h p l n -> NoDup (addrs l) -> l <> [] ->
  exists h', set_next h (final l 0) n' = Some h' /\ seg h' p l n' /\
    forall a, a ∉ addrs l -> h' !! a = h !! a.
Proof.
  intros Hs Hnd Hne. destruct l as [| [a0 d0] l0] using rev_ind; [done |]. clear IHl0.
  unfold addrs in Hnd. rewrite fmap_app in Hnd. apply NoDup_app in Hnd as (H1 & H2 & _).
  apply seg_app in Hs as [Hs1 Hs2]. simpl in Hs2. destruct Hs2 as [Hs2 _].
  unfold final. rewrite last_snoc. simpl. unfold set_next. rewrite Hs2. simpl.
  assert (Hn : a0 ∉ addrs l0) by (intros Hin; apply (H2 a0 Hin); simpl; set_solver).
  eexists. split; [done |]. split.
  - apply seg_app. split; [by apply seg_frame |]. simpl. by rewrite lookup_insert_eq.
  - intros a Ha. unfold addrs in Ha. rewrite fmap_app in Ha. simpl in Ha.
    apply lookup_insert_ne. set_solver.
Qed.

(** Redirecting the pointer in front of a segment. *)
Lemma seg_set_prev h p p' l n :
  seg h p l n -> NoDup (addrs l) -> l <> [] ->
  exists h', set_prev h (first l 0) p' = Some h' /\ seg h' p' l n /\
    forall a, a ∉ addrs l -> h' !! a = h !! a.
Proof.
  intros Hs Hnd Hne. destruct l as [| [a d] l]; [done |]. simpl in *.
  destruct Hs as [Ha Hs]. unfold set_prev. rewrite Ha. simpl. eexists. split; [done |].
  apply NoDup_cons in Hnd as [Hn _]. split.
  - rewrite lookup_insert_eq. split; [done |]. by apply seg_frame.
  - intros b Hb. apply lookup_insert_ne. set_solver.
Qed.

Lemma seg_ext h h' p l n : (forall a, a ∈ addrs l -> h' !! a = h !! a) -> seg h p l n -> seg h' p l n.
Proof.
  revert p; induction l as [| [a d] l IH]; intros p Hh Hs; [done |]. simpl in *.
  destruct Hs as [Ha Hs]. split; [rewrite Hh; [done | set_solver] |].
  apply IH; [| done]. intros b Hb. apply Hh. set_solver.
Qed.

Lemma addrs_app l1 l2 : addrs (l1 ++ l2) = addrs l1 ++ addrs l2.
Proof. apply fmap_app. Qed.

(** [list_add] in front of the segment [l2]. *)
Lemma list_add_spec h l1 l2 e n0 :
  dlist h (l1 ++ l2) -> (l2 = [] -> l1 = []) -> e <> 0 -> e ∉ addrs (l1 ++ l2) ->
  h !! e = Some n0 ->
  exists h', list_add h (first l2 0) e = Some (h', e) /\ dlist h' (l1 ++ (e, data n0) :: l2) /\
    forall a, a ∉ addrs (l1 ++ l2) -> a <> e -> h' !! a = h !! a.
Proof.
  intros (Hs & Hnd & H0) Hl He Hfresh Hn0. rewrite !addrs_app in *.
  apply NoDup_app in Hnd as (N1 & N12 & N2). apply seg_app in Hs as [S1 S2].
  assert (Hdl : NoDup (addrs (l1 ++ (e, data n0) :: l2)) /\ 0 ∉ addrs (l1 ++ (e, data n0) :: l2)).
  { rewrite addrs_app. simpl. split; [| set_solver]. apply NoDup_app. split_and!; [done | set_solver |].
    apply NoDup_cons. split; [set_solver | done]. }
  unfold list_add. destruct l2 as [| [b d] l2].
  - rewrite (Hl eq_refl) in *. simpl. unfold set_prev. rewrite Hn0. simpl. unfold set_next.
    rewrite lookup_insert_eq. simpl. eexists. split; [done |]. split.
    + split; [| done]. simpl. by rewrite lookup_insert_eq.
    + intros a _ Ha. by rewrite !lookup_insert_ne by congruence.
  - simpl first in *. simpl in S2, N12, N2, H0, Hfresh. destruct S2 as [Sb S2].
    apply NoDup_cons in N2 as [Nb N2].
    assert (Hb : b <> 0 /\ b <> e /\ (b ∉ addrs l1) /\ (e ∉ addrs l1) /\ (e ∉ addrs l2) /\ (0 ∉ addrs l1))
      by (rewrite elem_of_app, elem_of_cons in H0, Hfresh; split_and!; intros ?; subst;
          try (by apply H0; auto); try (by apply Hfresh; auto);
          eapply (N12 b); [done | by apply elem_of_cons; left]).
    destruct Hb as (Hb0 & Hbe & Hb1 & He1 & He2 & H01).
    assert (Hl2 : forall a, a ∈ addrs l2 -> (a ∉ addrs l1) /\ a <> e /\ a <> b).
    { intros a Ha. split_and!; [| by intros -> | by intros ->].
      intros Ha1. apply (N12 a Ha1). apply elem_of_cons. by right. }
    clear Hfresh N12 H0.
    rewrite bool_decide_true by done. rewrite Sb. simpl.
    assert (H1 : exists h1, (if bool_decide (final l1 0 <> 0) then set_next h (final l1 0) e else Some h)
      = Some h1 /\ seg h1 0 l1 e /\ forall a, a ∉ addrs l1 -> h1 !! a = h !! a).
    { destruct (decide (l1 = [])) as [-> | Hne]; [by exists h |].
      rewrite bool_decide_true; [by eapply seg_set_next |].
      destruct (final_elem l1 0) as [? | [? _]]; [congruence | done]. }
    destruct H1 as (h1 & -> & S1' & F1). simpl. rewrite F1, Sb by done. simpl.
    unfold set_prev. rewrite (F1 e), Hn0 by done. simpl.
    rewrite lookup_insert_ne, F1, Sb by done. simpl.
    unfold set_next. rewrite lookup_insert_ne, lookup_insert_eq by done. simpl.
    eexists. split; [done |]. split; [split; [| done] |].
    + apply seg_app. split; [by repeat apply seg_frame |].
      simpl. rewrite lookup_insert_eq. split; [done |].
      rewrite lookup_insert_ne, lookup_insert_eq by done. split; [done |].
      apply (seg_ext h); [| done]. intros a Ha. destruct (Hl2 a Ha) as (? & ? & ?).
      rewrite !lookup_insert_ne by done. by apply F1.
    + intros a Ha Hae. simpl in Ha. rewrite elem_of_app, elem_of_cons in Ha.
      assert (a <> b) by (intros ->; apply Ha; auto).
      rewrite !lookup_insert_ne by congruence. apply F1. auto.
Qed.

Lemma split_facts l1 e d l2 :
  NoDup (addrs (l1 ++ (e, d) :: l2)) -> 0 ∉ addrs (l1 ++ (e, d) :: l2) ->
  NoDup (addrs l1) /\ NoDup (addrs l2) /\ (forall a, a ∈ addrs l1 -> a ∉ addrs l2) /\
  (e ∉ addrs l1) /\ (e ∉ addrs l2) /\ (0 ∉ addrs l1) /\ (0 ∉ addrs l2) /\
  NoDup (addrs (l1 ++ l2)) /\ (0 ∉ addrs (l1 ++ l2)).
Proof.
  rewrite !addrs_app. cbn [addrs fmap list_fmap fst]. rewrite !elem_of_app, elem_of_cons.
  intros (N1 & N12 & [Ne N2]%NoDup_cons)%NoDup_app H0.
  assert (Hd : forall a, a ∈ addrs l1 -> a ∉ addrs l2).
  { intros a Ha Ha2. apply (N12 a Ha). apply elem_of_cons. by right. }
  assert (e ∉ addrs l1) by (intros He; apply (N12 e He), elem_of_cons; by left).
  split_and!; try done; try (intros ?; apply H0; auto; fail).
  - by apply NoDup_app.
  - intros [? | ?]; apply H0; auto.
Qed.

(** [list_delete] of a node in the middle, at the front or at the end. *)
Lemma list_delete_spec h l1 e d l2 :
  dlist h (l1 ++ (e, d) :: l2) ->
  exists h', list_delete h (first (l1 ++ (e, d) :: l2) 0) e = Some (h', first (l1 ++ l2) 0) /\
    dlist h' (l1 ++ l2) /\ forall a, a ∉ addrs (l1 ++ l2) -> h' !! a = h !! a.
Proof.
  intros (Hs & Hnd & H0). destruct (split_facts _ _ _ _ Hnd H0)
    as (N1 & N2 & Hdis & He1 & He2 & H01 & H02 & Hdl).
  apply seg_app in Hs as [S1 S2]. simpl in S1, S2. destruct S2 as [Se S2].
  unfold list_delete. rewrite Se. simpl.
  assert (H1 : exists h1, (if bool_decide (final l1 0 <> 0)
      then h ← set_next h (final l1 0) (first l2 0); Some (h, first (l1 ++ (e, d) :: l2) 0)
      else Some (h, first l2 0)) = Some (h1, first (l1 ++ l2) 0) /\
    seg h1 0 l1 (first l2 0) /\ forall a, a ∉ addrs l1 -> h1 !! a = h !! a).
  { destruct (decide (l1 = [])) as [-> | Hne]; [by exists h |].
    rewrite bool_decide_true
      by (destruct (final_elem l1 0) as [? | [? _]]; [congruence | done]).
    destruct (seg_set_next h 0 l1 e (first l2 0)) as (h1 & -> & ?); [done ..|]. exists h1.
    split; [| done]. by destruct l1 as [| [? ?] ?]. }
  destruct H1 as (h1 & -> & S1' & F1). simpl. rewrite F1, Se by done. simpl.
  destruct (decide (l2 = [])) as [-> | Hne].
  - simpl. rewrite app_nil_r in *. eexists. split; [done |]. split; [by split | done].
  - rewrite bool_decide_true
      by (destruct (first_elem l2 0) as [? | [? _]]; [congruence | done]).
    destruct (seg_set_prev h1 e (final l1 0) l2 0) as (h2 & -> & S2' & F2); [| done | done |].
    + apply (seg_ext h); [| done]. intros a Ha. apply F1. intros Ha1. by apply (Hdis a).
    + simpl. eexists. split; [done |]. split.
      * split; [| done]. apply seg_app. split; [| done].
        apply (seg_ext h1); [| done]. intros a Ha. apply F2. by apply Hdis.
      * intros a Ha. rewrite addrs_app, elem_of_app in Ha. rewrite F2, F1 by auto. done.
Qed.

(** [reverse_loop] with the reversed nodes [done] behind it. *)
Lemma reverse_loop_spec fuel h l rdone :
  (length l <= fuel)%nat -> NoDup (addrs (rev l ++ rdone)) -> 0 ∉ addrs (rev l ++ rdone) ->
  seg h (first rdone 0) l 0 -> seg h (first l 0) rdone 0 ->
  exists h', reverse_loop fuel h (first l 0) (first rdone 0) =
      Some (h', first (rev l ++ rdone) 0) /\ seg h' 0 (rev l ++ rdone) 0.
Proof.
  revert h l rdone; induction fuel as [| fuel IH]; intros h l rdone Hf Hnd H0 Hl Hd.
  - destruct l; [| simpl in Hf; lia]. simpl. by exists h.
  - destruct l as [| [a d] l]; [simpl; by exists h |]. cbn [reverse_loop first].
    assert (Ha : (a ∉ addrs l) /\ (a ∉ addrs rdone) /\ a <> 0).
    { cbn [rev] in Hnd, H0. rewrite <- app_assoc in Hnd, H0. cbn [app] in Hnd, H0.
      destruct (split_facts _ _ _ _ Hnd H0) as (_ & _ & _ & Hr & Hd' & _).
      split_and!; [| done |].
      - intros Hx. apply Hr. unfold addrs in *. apply list_elem_of_fmap in Hx as (y & -> & Hy).
        apply list_elem_of_fmap. exists y. split; [done |]. rewrite list_elem_of_In, <- in_rev.
        by apply list_elem_of_In.
      - intros ->. apply H0. rewrite addrs_app. apply elem_of_app. right. by apply elem_of_cons; left. }
    destruct Ha as (Ha1 & Ha2 & Ha3). rewrite bool_decide_true by done.
    simpl in Hl. destruct Hl as [Hla Hl]. rewrite Hla. cbn [mbind option_bind next prev].
    unfold set_next, set_prev. rewrite Hla. cbn [mbind option_bind]. rewrite lookup_insert_eq.
    cbn [mbind option_bind next prev data].
    destruct (IH (<[a := mk_LIST (first l 0) (first rdone 0) d]> (<[a := mk_LIST (first rdone 0) (first rdone 0) d]> h))
      l ((a, d) :: rdone)) as (h' & E & Hs).
    + simpl in Hf. lia.
    + cbn [rev] in Hnd. by rewrite <- app_assoc in Hnd.
    + cbn [rev] in H0. by rewrite <- app_assoc in H0.
    + simpl. apply seg_frame; [done |]. by apply seg_frame.
    + simpl. rewrite lookup_insert_eq. split; [done |]. apply seg_frame; [done |]. apply seg_frame; [done |].
      exact Hd.
    + exists h'. cbn [rev]. rewrite <- app_assoc. cbn [app]. simpl first in E. rewrite E. done.
Qed.

Lemma list_length_spec fuel h l p c :
  (length l <= fuel)%nat -> seg h p l 0 -> 0 ∉ addrs l -> 0 <= c ->
  c + Z.of_nat (length l) < 2 ^ 32 ->
  length_loop fuel h (first l 0) c = Some (c + Z.of_nat (length l)).
Proof.
  revert p l c; induction fuel as [| fuel IH]; intros p l c Hf Hs H0 Hc Hov.
  - destruct l; [simpl; f_equal; lia | simpl in Hf; lia].
  - destruct l as [| [a d] l]; [simpl; f_equal; lia |]. simpl in Hs, H0 |- *.
    destruct Hs as [Ha Hs]. rewrite elem_of_cons in H0.
    rewrite bool_decide_true by (intros ->; apply H0; by left). rewrite Ha. simpl.
    cbn [length] in Hov, Hf.
    rewrite uwrap_small by lia. rewrite (IH a l); [f_equal; lia | lia | done | tauto | lia | lia].
Qed.

(** What [list_walk] computes, on the list of the data pointers. *)
Fixpoint walk {S} (action : Z -> S -> Z * S) (ds : list Z) (s : S) : Z * S :=
  match ds with
  | [] => (0, s)
  | d :: ds => let '(error, s) := action d s in
               if bool_decide (error <> 0) then (error, s) else walk action ds s
  end.

Lemma list_walk_spec {S} fuel h l p (action : Z -> S -> Z * S) s :
  (length l <= fuel)%nat -> seg h p l 0 -> 0 ∉ addrs l ->
  list_walk fuel h (first l 0) action s = Some (walk action (l.*2) s).
Proof.
  revert p l s; induction fuel as [| fuel IH]; intros p l s Hf Hs H0.
  - destruct l; [done | simpl in Hf; lia].
  - destruct l as [| [a d] l]; [done |]. simpl in Hs, H0 |- *.
    destruct Hs as [Ha Hs]. rewrite elem_of_cons in H0.
    rewrite bool_decide_true by (intros ->; apply H0; by left). rewrite Ha. simpl.
    destruct (action d s) as [err s']. case_bool_decide; [done |].
    apply (IH a); [simpl in Hf; lia | done | tauto].
Qed.

Lemma list_free_spec fuel h l p (free_data : bool) :
  (length l <= fuel)%nat -> seg h p l 0 -> NoDup (addrs l) -> 0 ∉ addrs l ->
  exists h', list_free fuel h (first l 0) free_data = Some (h', if free_data then l.*2 else []) /\
    (forall a, a ∈ addrs l -> h' !! a = None) /\ (forall a, a ∉ addrs l -> h' !! a = h !! a).
Proof.
  revert h p l; induction fuel as [| fuel IH]; intros h p l Hf Hs Hnd H0.
  - destruct l; [| simpl in Hf; lia]. exists h. split; [by destruct free_data |].
    split; [intros a Ha; by apply elem_of_nil in Ha | done].
  - destruct l as [| [b d] l].
    { exists h. split; [by destruct free_data |].
      split; [intros a Ha; by apply elem_of_nil in Ha | done]. }
    simpl in Hs, H0, Hnd |- *. destruct Hs as [Hb Hs]. apply NoDup_cons in Hnd as [Hnb Hnd].
    rewrite elem_of_cons in H0. rewrite bool_decide_true by (intros ->; apply H0; by left).
    rewrite Hb. simpl.
    destruct (IH (delete b h) b l) as (h' & E & F1 & F2);
      [simpl in Hf; lia | by apply seg_frame_delete | done | tauto |].
    rewrite E. simpl. exists h'. split; [by destruct free_data |]. split.
    + intros a. rewrite elem_of_cons. intros [-> | Ha]; [| by apply F1].
      rewrite F2 by done. apply lookup_delete_eq.
    + intros a. rewrite elem_of_cons. intros Ha. rewrite F2 by tauto.
      apply lookup_delete_ne. intros ->. tauto.
Qed.

(** ** Properties *)

Definition ex_heap : store_heap :=
  <[16 := mk_LIST 0 32 1]> (<[32 := mk_LIST 16 48 2]> (<[48 := mk_LIST 32 0 3]> ∅)).

Lemma ex_dlist : dlist ex_heap [(16, 1); (32, 2); (48, 3)].
Proof.
  split; [simpl; split_and!; vm_compute; reflexivity || done |].
  split; [by apply (bool_decide_unpack _); vm_compute |].
  apply (bool_decide_unpack _). by vm_compute.
Qed.

(** [list_add] inserts the element in front of [root] (at the start of the
    list, or in its middle when [root] points there) and [list_delete] of the
    same element restores the list: both keep the list well linked in both
    directions, return its first node and touch no other node. *)
Theorem list_add_then_delete h l1 l2 e n0 :
  dlist h (l1 ++ l2) -> (l2 = [] -> l1 = []) -> e <> 0 -> e ∉ addrs (l1 ++ l2) ->
  h !! e = Some n0 ->
  exists h1 h2, list_add h (first l2 0) e = Some (h1, e) /\
    dlist h1 (l1 ++ (e, data n0) :: l2) /\
    list_delete h1 (first (l1 ++ (e, data n0) :: l2) 0) e = Some (h2, first (l1 ++ l2) 0) /\
    dlist h2 (l1 ++ l2) /\
    forall a, a ∉ addrs (l1 ++ l2) -> a <> e -> h2 !! a = h !! a.
Proof.
  intros Hd Hl He Hf Hn. destruct (list_add_spec h l1 l2 e n0 Hd Hl He Hf Hn) as (h1 & E1 & D1 & F1).
  destruct (list_delete_spec h1 l1 e (data n0) l2 D1) as (h2 & E2 & D2 & F2).
  exists h1, h2. split_and!; try done. intros a Ha Hae. rewrite F2, F1 by done. done.
Qed.

Lemma list_add_then_delete_witness :
  exists h1 h2, list_add (<[64 := mk_LIST 7 7 4]> ex_heap) 32 64 = Some (h1, 64) /\
    dlist h1 [(16, 1); (64, 4); (32, 2); (48, 3)] /\
    list_delete h1 16 64 = Some (h2, 16) /\
    dlist h2 [(16, 1); (32, 2); (48, 3)] /\
    forall a, a ∉ addrs [(16, 1); (32, 2); (48, 3)] -> a <> 64 ->
      h2 !! a = <[64 := mk_LIST 7 7 4]> ex_heap !! a.
Proof.
  apply (list_add_then_delete (<[64 := mk_LIST 7 7 4]> ex_heap) [(16, 1)] [(32, 2); (48, 3)] 64
           (mk_LIST 7 7 4)).
  - split; [apply seg_frame; [apply (bool_decide_unpack _); by vm_compute | apply ex_dlist] | apply ex_dlist].
  - done.
  - lia.
  - apply (bool_decide_unpack _). by vm_compute.
  - vm_compute. done.
Defined.

(** [list_reverse] terminates and reverses the list in place: the heap
    holds the reversed list, well linked, and the result is its first node. *)
Theorem list_reverse_reverses h l fuel :
  dlist h l -> (length l <= fuel)%nat ->
  exists h', list_reverse fuel h (first l 0) = Some (h', first (rev l) 0) /\ dlist h' (rev l).
Proof.
  intros (Hs & Hnd & H0) Hf. unfold list_reverse.
  assert (Hp : addrs (rev l) ≡ₚ addrs l).
  { unfold addrs. rewrite <- Permutation_rev. done. }
  destruct l as [| [a d] l]; [exists h; by destruct fuel |].
  destruct (reverse_loop_spec fuel h ((a, d) :: l) []) as (h' & E & Hr).
  - done.
  - rewrite app_nil_r. by rewrite Hp.
  - rewrite app_nil_r. by rewrite Hp.
  - done.
  - done.
  - rewrite app_nil_r in *. exists h'. split.
    + destruct fuel as [| fuel]; [simpl in Hf; lia |]. cbn [reverse_loop first] in E |- *.
      assert (a <> 0) by (intros ->; apply H0; by apply elem_of_cons; left).
      rewrite bool_decide_true in E |- * by done. exact E.
    + split; [done |]. by rewrite Hp.
Qed.

Lemma list_reverse_reverses_witness :
  exists h', list_reverse 3 ex_heap 16 = Some (h', 48) /\ dlist h' [(48, 3); (32, 2); (16, 1)].
Proof.
  apply (list_reverse_reverses ex_heap [(16, 1); (32, 2); (48, 3)] 3); [exact ex_dlist | simpl; lia].
Defined.

(** Traversals of a well linked list terminate: [list_length] counts the
    nodes, [list_walk] calls the action on the data in order and returns the
    first nonzero error with the state reached, and [list_free] frees every node
    once (and, when asked, every data pointer, in order) and nothing else. *)
Theorem list_traversals {S} h l fuel (action : Z -> S -> Z * S) s free_data :
  dlist h l -> (length l <= fuel)%nat -> Z.of_nat (length l) < 2 ^ 32 ->
  list_length fuel h (first l 0) = Some (Z.of_nat (length l)) /\
  list_walk fuel h (first l 0) action s = Some (walk action (l.*2) s) /\
  exists h', list_free fuel h (first l 0) free_data = Some (h', if free_data : bool then l.*2 else []) /\
    (forall a, a ∈ addrs l -> h' !! a = None) /\ (forall a, a ∉ addrs l -> h' !! a = h !! a).
Proof.
  intros (Hs & Hnd & H0) Hf Hov. split_and!.
  - unfold list_length. by rewrite (list_length_spec fuel h l 0 0).
  - by apply (list_walk_spec fuel h l 0).
  - by apply (list_free_spec fuel h l 0).
Qed.

Lemma list_traversals_witness :
  list_walk 3 ex_heap 16 (fun d s => (if bool_decide (d = 2) then 7 else 0, s + d)) 0 = Some (7, 3).
Proof.
  refine (proj1 (proj2 (list_traversals ex_heap [(16, 1); (32, 2); (48, 3)] 3
    (fun d s => (if bool_decide (d = 2) then 7 else 0, s + d)) 0 true ex_dlist _ _)));
    simpl; lia.
Defined.

End LinkedList.
