(* ===== verification/Queue.v ===== *)
(** * Queue: priority queues

    [mysys/queues.c] and the macros of [include/queues.h].  The heap is the
    array [root], element pointers at the indices [1 .. elements]; index 0 is
    the sentinel that [queue_insert] uses.  The compare function is a field of
    the queue, as in the code; the class [compare_ok] states what the heap
    relies on.  [_downheap] is modelled in both versions of the source, and the
    optimised one is proved equal to the older one. *)
From stdpp Require Import base tactics option list numbers sorting.
From Stdlib Require Import ZArith Lia Permutation.
From S2P Require Import Prelude.

Module Queue.

(** ** Model *)

Record QUEUE := mk_QUEUE {
  root : option (list Z);
  first_cmp_arg : Z;
  elements : Z;
  max_elements : Z;
  offset_to_key : Z;
  max_at_top : Z;
  compare : Z -> Z -> Z -> Z;
  auto_extent : Z
}.

Definition set_root (q : QUEUE) (r : option (list Z)) : QUEUE :=
  mk_QUEUE r (first_cmp_arg q) (elements q) (max_elements q) (offset_to_key q)
    (max_at_top q) (compare q) (auto_extent q).

Definition set_elements (q : QUEUE) (n : Z) : QUEUE :=
  mk_QUEUE (root q) (first_cmp_arg q) n (max_elements q) (offset_to_key q)
    (max_at_top q) (compare q) (auto_extent q).

Definition set_max_elements (q : QUEUE) (n : Z) : QUEUE :=
  mk_QUEUE (root q) (first_cmp_arg q) (elements q) n (offset_to_key q)
    (max_at_top q) (compare q) (auto_extent q).

(** The assignments shared by [init_queue] and [reinit_queue]. *)
Definition set_order (q : QUEUE) (offset : Z) (at_top : bool) (cmp : Z -> Z -> Z -> Z) (arg : Z)
  : QUEUE :=
  mk_QUEUE (root q) arg 0 (max_elements q) offset (if at_top then -1 else 1) cmp (auto_extent q).

Definition queue_top (q : QUEUE) : option Z := r ← root q; load r 1.
Definition queue_element (q : QUEUE) (index : Z) : option Z := r ← root q; load r (index + 1).
Definition queue_end (q : QUEUE) : option Z := r ← root q; load r (elements q).
Definition queue_remove_all (q : QUEUE) : QUEUE := set_elements q 0.
Definition queue_is_full (q : QUEUE) : bool := bool_decide (elements q = max_elements q).

Definition SIZEOF_PTR : Z := 4.

Section Alloc.
(** [my_malloc n] and [my_realloc old n]: a block of [n] pointers, or [NULL]. *)
Context (my_malloc : Z -> option (list Z)) (my_realloc : list Z -> Z -> option (list Z)).

Definition init_queue (q : QUEUE) (max_elems offset : Z) (at_top : bool)
    (cmp : Z -> Z -> Z -> Z) (arg : Z) : Z * QUEUE :=
  match my_malloc (u32 (u32 (max_elems + 1) * SIZEOF_PTR) / SIZEOF_PTR) with
  | None => (1, set_root q None)
  | Some r =>
      (0, set_max_elements (set_order (set_root q (Some r)) offset at_top cmp arg) max_elems)
  end.

Definition init_queue_ex (q : QUEUE) (max_elems offset : Z) (at_top : bool)
    (cmp : Z -> Z -> Z -> Z) (arg auto_ext : Z) : Z * QUEUE :=
  let '(ret, q) := init_queue q max_elems offset at_top cmp arg in
  if bool_decide (ret <> 0) then (ret, q)
  else (0, mk_QUEUE (root q) (first_cmp_arg q) (elements q) (max_elements q)
             (offset_to_key q) (max_at_top q) (compare q) auto_ext).

Definition resize_queue (q : QUEUE) (max_elems : Z) : Z * QUEUE :=
  if bool_decide (max_elements q = max_elems) then (0, q)
  else
    match my_realloc (default [] (root q))
            (u32 (u32 (max_elems + 1) * SIZEOF_PTR) / SIZEOF_PTR) with
    | None => (1, q)
    | Some new_root =>
        let n := if bool_decide (elements q > max_elems) then max_elems else elements q in
        (0, set_root (set_max_elements (set_elements q n) max_elems) (Some new_root))
    end.

(** The result of [resize_queue] is not looked at. *)
Definition reinit_queue (q : QUEUE) (max_elems offset : Z) (at_top : bool)
    (cmp : Z -> Z -> Z -> Z) (arg : Z) : Z * QUEUE :=
  (0, snd (resize_queue (set_order q offset at_top cmp arg) max_elems)).

Definition delete_queue (q : QUEUE) : QUEUE :=
  match root q with Some _ => set_root q None | None => q end.

(** [queue->compare(first_cmp_arg, a + offset_to_key, b + offset_to_key) *
    queue->max_at_top], an [int]. *)
Definition qcmp (q : QUEUE) (a b : Z) : Z :=
  s32 (compare q (first_cmp_arg q) (a + offset_to_key q) (b + offset_to_key q) * max_at_top q).

(** The loop goes up from [idx]; the sentinel at index 0 ends it. *)
Definition insert_step (q : QUEUE) (element : Z) (st : list Z * Z)
  : option (ctl (list Z * Z) (list Z * Z)) :=
  let '(r, idx) := st in
  let next := idx ≫ 1 in
  x ← load r next;
  if bool_decide (qcmp q element x < 0)
  then r ← store r idx x; Some (Next (r, next))
  else Some (Ret (r, idx)).

Definition queue_insert (q : QUEUE) (element : Z) : option QUEUE :=
  r ← root q;
  r ← store r 0 element;
  let n := u32 (elements q + 1) in
  '(r, idx) ← while_ (S (Z.to_nat n)) (insert_step q element) (r, n);
  r ← store r idx element;
  Some (set_root (set_elements q n) (Some r)).

Definition queue_insert_safe (q : QUEUE) (element : Z) : option (Z * QUEUE) :=
  if queue_is_full q
  then
    if bool_decide (auto_extent q = 0) then Some (2, q)
    else
      let '(err, q) := resize_queue q (u32 (max_elements q + auto_extent q)) in
      if bool_decide (err <> 0) then Some (1, q)
      else q ← queue_insert q element; Some (0, q)
  else q ← queue_insert q element; Some (0, q).

(** The child of [idx] that the downward loops follow. *)
Definition pick_child (q : QUEUE) (r : list Z) (idx : Z) : option Z :=
  let next_index := u32 (idx + idx) in
  if bool_decide (next_index < elements q)
  then a ← load r next_index;
       b ← load r (next_index + 1);
       Some (if bool_decide (qcmp q a b > 0) then next_index + 1 else next_index)
  else Some next_index.

(** First loop of the optimised [_downheap]: [Ret] with [true] is the early
    return of the first pass. *)
Definition down_step (q : QUEUE) (element : Z) (st : list Z * Z * bool * bool)
  : option (ctl (list Z * Z * bool * bool) (list Z * Z * bool * bool)) :=
  let '(r, idx, first, done_) := st in
  if bool_decide (idx <= elements q ≫ 1)
  then
    next_index ← pick_child q r idx;
    x ← load r next_index;
    if first && bool_decide (qcmp q x element >= 0)
    then Some (Ret (r, idx, first, true))
    else r ← store r idx x; Some (Next (r, next_index, false, false))
  else Some (Ret (r, idx, first, false)).

(** Second loop: back up, not above [start_idx]. *)
Definition up_step (q : QUEUE) (element start_idx : Z) (st : list Z * Z)
  : option (ctl (list Z * Z) (list Z * Z)) :=
  let '(r, idx) := st in
  let next_index := idx ≫ 1 in
  if bool_decide (next_index > start_idx)
  then
    x ← load r next_index;
    if bool_decide (qcmp q x element < 0) then Some (Ret (r, idx))
    else r ← store r idx x; Some (Next (r, next_index))
  else Some (Ret (r, idx)).

Definition _downheap (q : QUEUE) (start_idx : Z) : option QUEUE :=
  r ← root q;
  element ← load r start_idx;
  '(r, idx, _, early) ← while_ (S (Z.to_nat (elements q))) (down_step q element)
                          (r, start_idx, true, false);
  if early : bool
  then r ← store r idx element; Some (set_root q (Some r))
  else
    '(r, idx) ← while_ (S (Z.to_nat (Z.max start_idx (elements q)))) (up_step q element start_idx) (r, idx);
    r ← store r idx element;
    Some (set_root q (Some r)).

(** The version under [OLD_VERSION]. *)
Definition old_step (q : QUEUE) (element : Z) (st : list Z * Z)
  : option (ctl (list Z * Z) (list Z * Z)) :=
  let '(r, idx) := st in
  if bool_decide (idx <= elements q ≫ 1)
  then
    next_index ← pick_child q r idx;
    x ← load r next_index;
    if bool_decide (qcmp q x element >= 0) then Some (Ret (r, idx))
    else r ← store r idx x; Some (Next (r, next_index))
  else Some (Ret (r, idx)).

Definition _downheap_old (q : QUEUE) (idx : Z) : option QUEUE :=
  r ← root q;
  element ← load r idx;
  '(r, idx) ← while_ (S (Z.to_nat (elements q))) (old_step q element) (r, idx);
  r ← store r idx element;
  Some (set_root q (Some r)).

Definition queue_replaced (q : QUEUE) : option QUEUE := _downheap q 1.

Definition queue_remove (q : QUEUE) (idx : Z) : option (Z * QUEUE) :=
  r ← root q;
  let idx := u32 (idx + 1) in
  element ← load r idx;
  x ← load r (elements q);
  r ← store r idx x;
  q ← _downheap (set_root (set_elements q (u32 (elements q - 1))) (Some r)) idx;
  Some (element, q).

Definition queue_fix (q : QUEUE) : option QUEUE :=
  for_up (Z.to_nat (elements q ≫ 1)) 0
    (fun k q => _downheap q ((elements q ≫ 1) - k)) q.
End Alloc.

(** ** Specification *)

(** What the heap relies on of a compare function: [int] results whose signs
    are those of a total preorder. *)
Class compare_ok (cmp : Z -> Z -> Z -> Z) (arg : Z) : Prop := {
  cmp_int : forall a b, - 2 ^ 31 < cmp arg a b < 2 ^ 31;
  cmp_anti : forall a b, cmp arg a b < 0 <-> 0 < cmp arg b a;
  cmp_trans : forall a b c, cmp arg a b <= 0 -> cmp arg b c <= 0 -> cmp arg a c <= 0
}.

(** [a] may stay above [b]. *)
Definition le (q : QUEUE) (a b : Z) : Prop := qcmp q a b <= 0.

(** The heap order on the edges whose upper node is [k] or later. *)
Definition heap (q : QUEUE) (r : list Z) (n k : Z) : Prop :=
  forall j, 2 <= j <= n -> k <= j / 2 -> le q (at_ r (j / 2)) (at_ r j).

(** The elements, in heap order. *)
Definition contents (r : list Z) (n : Z) : list Z := take (Z.to_nat n) (drop 1 r).

(** A queue whose array [r] has room for [max_elements] elements. *)
Record wfq (q : QUEUE) (r : list Z) : Prop := {
  q_root : root q = Some r;
  q_len : Z.of_nat (length r) = max_elements q + 1;
  q_elems : 0 <= elements q <= max_elements q;
  q_max : max_elements q < 2 ^ 30 - 1;
  q_top : max_at_top q = 1 \/ max_at_top q = -1;
  q_cmp : compare_ok (compare q) (first_cmp_arg q)
}.

(** The queue [q] holds the elements [l], in some heap order. *)
Definition repr (q : QUEUE) (l : list Z) : Prop :=
  exists r, wfq q r /\ heap q r (elements q) 1 /\ contents r (elements q) ≡ₚ l.

(** ** Lemmas: the order *)

Section Order.
Context (q : QUEUE) (Htop : max_at_top q = 1 \/ max_at_top q = -1)
  (Hcmp : compare_ok (compare q) (first_cmp_arg q)).

Lemma qcmp_value a b :
  qcmp q a b = compare q (first_cmp_arg q) (a + offset_to_key q) (b + offset_to_key q) * max_at_top q.
Proof.
  unfold qcmp. apply swrap_small; [lia |].
  pose proof (cmp_int (a + offset_to_key q) (b + offset_to_key q)).
  destruct Htop as [-> | ->]; simpl; lia.
Qed.

Lemma qcmp_anti a b : qcmp q a b < 0 <-> 0 < qcmp q b a.
Proof.
  rewrite !qcmp_value. pose proof (cmp_anti (a + offset_to_key q) (b + offset_to_key q)).
  pose proof (cmp_anti (b + offset_to_key q) (a + offset_to_key q)).
  destruct Htop as [-> | ->]; lia.
Qed.

Lemma qcmp_refl a : qcmp q a a = 0.
Proof. pose proof (qcmp_anti a a). lia. Qed.

Lemma le_refl a : le q a a.
Proof. unfold le. rewrite qcmp_refl. done. Qed.

Lemma not_lt_le a b : ~ qcmp q a b < 0 -> le q b a.
Proof. unfold le. pose proof (qcmp_anti b a). pose proof (qcmp_anti a b). lia. Qed.

Lemma lt_le a b : qcmp q a b < 0 -> le q a b.
Proof. unfold le. lia. Qed.

Lemma le_ge a b : le q a b -> 0 <= qcmp q b a.
Proof. unfold le. pose proof (qcmp_anti b a). pose proof (qcmp_anti a b). lia. Qed.

Lemma le_trans a b c : le q a b -> le q b c -> le q a c.
Proof.
  unfold le. rewrite !qcmp_value.
  set (x := a + offset_to_key q). set (y := b + offset_to_key q). set (z := c + offset_to_key q).
  pose proof (cmp_trans x y z). pose proof (cmp_trans z y x).
  pose proof (cmp_anti x y). pose proof (cmp_anti y z). pose proof (cmp_anti x z).
  pose proof (cmp_anti y x). pose proof (cmp_anti z y). pose proof (cmp_anti z x).
  destruct Htop as [-> | ->]; lia.
Qed.

(** [pick_child] chooses a child that may stay above its sibling. *)
Lemma pick_child_spec r idx :
  1 <= idx <= elements q / 2 -> elements q < Z.of_nat (length r) -> elements q < 2 ^ 30 ->
  exists c, pick_child q r idx = Some c /\ c / 2 = idx /\ idx < c <= elements q /\
    forall j, j / 2 = idx -> 2 <= j <= elements q -> le q (at_ r c) (at_ r j).
Proof.
  intros Hi Hl Hn. unfold pick_child. rewrite uwrap_small by Zlia.
  case_bool_decide as Hlt.
  - rewrite !load_at by Zlia. cbn [mbind option_bind]. eexists. split; [done |].
    case_bool_decide as Hc.
    + split_and!; [Zlia | Zlia | Zlia |]. intros j Hj Hr.
      assert (j = idx + idx \/ j = idx + idx + 1) as [-> | ->] by Zlia; [| apply le_refl].
      apply not_lt_le. lia.
    + split_and!; [Zlia | Zlia | Zlia |]. intros j Hj Hr.
      assert (j = idx + idx \/ j = idx + idx + 1) as [-> | ->] by Zlia; [apply le_refl |].
      unfold le. lia.
  - eexists. split; [done |]. split_and!; [Zlia | Zlia | Zlia |]. intros j Hj Hr.
    assert (j = idx + idx) as -> by Zlia. apply le_refl.
Qed.
End Order.

(** ** Lemmas: contents *)

Lemma contents_insert r n i v :
  1 <= i <= n -> contents (<[Z.to_nat i := v]> r) n = <[(Z.to_nat i - 1)%nat := v]> (contents r n).
Proof.
  intros Hi. unfold contents. rewrite drop_insert_ge by lia. by rewrite take_insert_lt by lia.
Qed.

Lemma contents_lookup r n i :
  1 <= i <= n -> n < Z.of_nat (length r) -> contents r n !! (Z.to_nat i - 1)%nat = Some (at_ r i).
Proof.
  intros Hi Hn. unfold contents. rewrite lookup_take_lt by lia. rewrite lookup_drop.
  rewrite <- (load_at r i) by lia. unfold load. rewrite decide_True by lia. f_equal. lia.
Qed.

(** Moving the hole from [i] to [c] permutes the elements. *)
Lemma hole_move r n i c e :
  1 <= i <= n -> 1 <= c <= n -> i <> c -> n < Z.of_nat (length r) ->
  contents (<[Z.to_nat c := e]> (<[Z.to_nat i := at_ r c]> r)) n ≡ₚ
  contents (<[Z.to_nat i := e]> r) n.
Proof.
  intros Hi Hc Hne Hn. rewrite !contents_insert by done.
  rewrite <- (Permutation_insert_swap (<[(Z.to_nat i - 1)%nat := e]> (contents r n))
    (Z.to_nat i - 1) (Z.to_nat c - 1) e (at_ r c)).
  - by rewrite list_insert_insert_eq.
  - apply list_lookup_insert_eq. unfold contents. rewrite length_take, length_drop. lia.
  - rewrite list_lookup_insert_ne by lia. by apply contents_lookup.
Qed.

(** ** Lemmas: sifting down *)

Lemma shiftr_1 x : x ≫ 1 = x / 2.
Proof. by rewrite Z.shiftr_div_pow2. Qed.

(** The array seen while the hole that waits for [e] is at [idx]: all edges
    from [k] on that do not touch the hole are in order, and what is above the
    hole is in order with [e] and with the children of the hole. *)
Record sift (q : QUEUE) (n k e : Z) (r : list Z) (idx : Z) : Prop := {
  s_idx : 1 <= idx < Z.of_nat (length r);
  s_edges : forall j, 2 <= j <= n -> k <= j / 2 -> j <> idx -> j / 2 <> idx ->
    le q (at_ r (j / 2)) (at_ r j);
  s_up : k <= idx / 2 -> idx <= n -> le q (at_ r (idx / 2)) e;
  s_down : k <= idx / 2 -> idx <= n ->
    forall j, 2 <= j <= n -> j / 2 = idx -> le q (at_ r (idx / 2)) (at_ r j)
}.

Section Sift.
Context (q : QUEUE) (Htop : max_at_top q = 1 \/ max_at_top q = -1)
  (Hcmp : compare_ok (compare q) (first_cmp_arg q)) (Hn : 0 <= elements q < 2 ^ 30).
Abbreviation n := (elements q).

(** The hole moves to the chosen child [c]. *)
Lemma sift_move k e r idx c :
  1 <= k -> n < Z.of_nat (length r) -> sift q n k e r idx -> idx <= n / 2 ->
  c / 2 = idx -> idx < c <= n ->
  (forall j, j / 2 = idx -> 2 <= j <= n -> le q (at_ r c) (at_ r j)) ->
  le q (at_ r c) e -> sift q n k e (<[Z.to_nat idx := at_ r c]> r) c.
Proof.
  intros Hk Hl [H1 H2 H3 H4] Hi Hc Hcn Hmin Hlt.
  split; rewrite ?length_insert; [lia | ..].
  - intros j Hj Hkj Hjc Hj2. rewrite !at_insert by lia. repeat case_decide.
    + exfalso. Zlia.
    + by apply Hmin.
    + subst j. apply H4; [done | Zlia | lia | done].
    + by apply H2.
  - intros Hkc _. rewrite at_insert by lia. by rewrite decide_True by done.
  - intros Hkc _ j Hj Hj2. rewrite !at_insert by lia.
    rewrite decide_True, decide_False by Zlia. rewrite <- Hj2. apply H2; [done | Zlia | Zlia | Zlia].
Qed.

(** Filling the hole where the element belongs completes the heap. *)
Lemma sift_fill k e r idx :
  1 <= k -> sift q n k e r idx ->
  (forall j, 2 <= j <= n -> j / 2 = idx -> le q e (at_ r j)) ->
  heap q (<[Z.to_nat idx := e]> r) n k.
Proof.
  intros Hk [H1 H2 H3 H4] Hc j Hj Hkj. rewrite !at_insert by lia. repeat case_decide.
  - exfalso. Zlia.
  - by apply Hc.
  - subst j. apply H3; [done | lia].
  - by apply H2.
Qed.

Lemma old_loop_spec k e r0 start :
  1 <= k -> n < Z.of_nat (length r0) -> sift q n k e r0 start ->
  exists r idx, while_ (S (Z.to_nat n)) (old_step q e) (r0, start) = Some (r, idx) /\
    1 <= idx < Z.of_nat (length r) /\ length r = length r0 /\
    heap q (<[Z.to_nat idx := e]> r) n k /\
    contents (<[Z.to_nat idx := e]> r) n ≡ₚ contents (<[Z.to_nat start := e]> r0) n.
Proof.
  intros Hk Hl Hs.
  destruct (while_rule
    (fun '(r, idx) => sift q n k e r idx /\ length r = length r0 /\
       contents (<[Z.to_nat idx := e]> r) n ≡ₚ contents (<[Z.to_nat start := e]> r0) n)
    (fun '(r, idx) => 1 <= idx < Z.of_nat (length r) /\ length r = length r0 /\
       heap q (<[Z.to_nat idx := e]> r) n k /\
       contents (<[Z.to_nat idx := e]> r) n ≡ₚ contents (<[Z.to_nat start := e]> r0) n)
    (fun '(r, idx) => Z.max 0 (n - idx)) (S (Z.to_nat n)) (old_step q e) (r0, start))
    as ([r idx] & E & H); [done | destruct Hs; lia | intros [r idx] _; lia | | by exists r, idx].
  intros [r idx] (Hsi & Hlen & Hp). pose proof (s_idx _ _ _ _ _ _ Hsi) as Hidx.
  unfold old_step. rewrite shiftr_1. case_bool_decide as Hhalf.
  - destruct (pick_child_spec q Htop Hcmp r idx) as (c & -> & Hc & Hcn & Hmin); [lia ..|].
    cbn [mbind option_bind]. rewrite load_at by lia. cbn [mbind option_bind].
    case_bool_decide as Hcmpe.
    + right. eexists. split; [done |]. split_and!; [lia | lia | done | | done].
      apply sift_fill; [done | done |]. intros j Hj Hj2.
      apply (le_trans q Htop Hcmp) with (at_ r c); [| by apply Hmin].
      apply not_lt_le; [done | done | lia].
    + left. rewrite store_in by lia. cbn [mbind option_bind]. eexists. split; [done |].
      split; [split_and! | lia].
      * apply sift_move; try done; [lia |]. apply lt_le. lia.
      * by rewrite length_insert.
      * rewrite <- Hp. apply hole_move; lia.
  - right. eexists. split; [done |]. split_and!; [lia | lia | done | | done].
    apply sift_fill; [done | done |]. intros j Hj Hj2. exfalso. Zlia.
Qed.

(** ** Lemmas: the optimised [_downheap] equals the older one *)

Lemma insert_at_self (r : list Z) i : 
  0 <= i < Z.of_nat (length r) -> <[Z.to_nat i := at_ r i]> r = r.
Proof.
  intros Hi. apply at_ext; [by rewrite length_insert |]. intros j Hj.
  rewrite at_insert by done. by case_decide; subst.
Qed.

(** One pass of the first loop after the first one. *)
Lemma down_step_next e r idx :
  1 <= idx <= n / 2 -> n < Z.of_nat (length r) ->
  exists c, pick_child q r idx = Some c /\ c / 2 = idx /\ idx < c <= n /\
    down_step q e (r, idx, false, false) =
      Some (Next (<[Z.to_nat idx := at_ r c]> r, c, false, false)).
Proof.
  intros Hi Hl. destruct (pick_child_spec q Htop Hcmp r idx) as (c & E & Hc & Hcn & _); [lia ..|].
  exists c. split_and!; [done | done | lia | lia |]. unfold down_step. rewrite shiftr_1, bool_decide_true by lia.
  rewrite E. cbn [mbind option_bind]. rewrite load_at by lia. cbn [mbind option_bind andb].
  rewrite store_in by lia. done.
Qed.

Lemma down_step_end e r idx :
  n / 2 < idx -> down_step q e (r, idx, false, false) = Some (Ret (r, idx, false, false)).
Proof. intros Hi. unfold down_step. by rewrite shiftr_1, bool_decide_false by lia. Qed.

Lemma up_step_next e start r idx :
  1 <= idx < Z.of_nat (length r) -> start < idx / 2 -> 0 <= qcmp q (at_ r (idx / 2)) e -> 0 <= start ->
  up_step q e start (r, idx) = Some (Next (<[Z.to_nat idx := at_ r (idx / 2)]> r, idx / 2)).
Proof.
  intros Hi Hs Hc H0. unfold up_step. rewrite shiftr_1, bool_decide_true by lia.
  rewrite load_at by Zlia. cbn [mbind option_bind]. rewrite bool_decide_false by lia.
  by rewrite store_in by lia.
Qed.

(** From a node below which everything, and whose own value, is not above
    [e], the first loop runs to a leaf and the second one comes back. *)
Lemma down_and_up e start r idx r2 idx2 :
  0 <= start < idx / 2 -> n < Z.of_nat (length r) -> idx <= n ->
  0 <= qcmp q (at_ r (idx / 2)) e ->
  (forall j, 2 <= j <= n -> j / 2 = idx -> le q (at_ r (idx / 2)) (at_ r j)) ->
  (forall j, 2 <= j <= n -> idx < j / 2 -> le q (at_ r (j / 2)) (at_ r j)) ->
  runs (up_step q e start) (<[Z.to_nat idx := at_ r (idx / 2)]> r, idx / 2) (r2, idx2) ->
  exists r1 idx1, runs (down_step q e) (r, idx, false, false) (r1, idx1, false, false) /\
    length r1 = length r /\ 1 <= idx1 <= n /\ runs (up_step q e start) (r1, idx1) (r2, idx2).
Proof.
  remember (Z.to_nat (n - idx)) as m eqn:Em. revert r idx Em r2 idx2.
  induction (lt_wf m) as [m _ IH]. intros r idx Em r2 idx2 Hst Hl Hin Hge Hc Hb Hup.
  assert (Hi1 : 1 <= idx) by Zlia.
  assert (Hone : runs (up_step q e start) (r, idx) (r2, idx2)).
  { eapply runs_next; [| exact Hup]. apply up_step_next; lia || done. }
  destruct (decide (idx <= n / 2)).
  - destruct (down_step_next e r idx) as (c & _ & Hcc & Hcn & Ed); [lia | done |].
    set (r' := <[Z.to_nat idx := at_ r c]> r) in *.
    assert (Hlen : length r' = length r) by apply length_insert.
    assert (Hat : forall j, at_ r' j = if decide (j = idx) then at_ r c else at_ r j)
      by (intros; apply at_insert; lia).
    assert (Hge' : 0 <= qcmp q (at_ r c) e).
    { apply le_ge; [done | done |]. apply (le_trans q Htop Hcmp) with (at_ r (idx / 2)).
      - apply not_lt_le; [done | done | lia].
      - apply Hc; [Zlia | done]. }
    destruct (IH (Z.to_nat (n - c)) ltac:(lia) r' c eq_refl r2 idx2) as (r1 & i1 & D & L1 & R1 & U).
    + Zlia.
    + lia.
    + lia.
    + rewrite Hat, Hcc, decide_True by done. done.
    + intros j Hj Hjc. rewrite !Hat, Hcc, decide_True, decide_False by Zlia.
      rewrite <- Hjc. apply Hb; Zlia.
    + intros j Hj Hjc. rewrite !Hat, !decide_False by Zlia. apply Hb; lia.
    + rewrite Hcc. replace (at_ r' idx) with (at_ r' c)
        by (rewrite !Hat; repeat case_decide; congruence || lia).
      rewrite insert_at_self by lia. eapply runs_next; [apply up_step_next; [lia | lia | | lia] |].
      * rewrite Hat, decide_False by Zlia. done.
      * rewrite Hat, decide_False by Zlia. unfold r'. rewrite list_insert_insert_eq. done.
    + exists r1, i1. split; [by eapply runs_next |]. split; [lia | done].
  - exists r, idx. split; [apply runs_ret, down_step_end; lia |]. done.
Qed.

(** From a node whose parent is above [e] (or where the search started) both
    versions put [e] in the same place. *)
Lemma new_equals_old e start r idx ro io :
  1 <= start < idx -> n < Z.of_nat (length r) -> idx <= n ->
  (idx / 2 = start \/ start < idx / 2 /\ qcmp q (at_ r (idx / 2)) e < 0) ->
  (forall j, 2 <= j <= n -> idx < j / 2 -> le q (at_ r (j / 2)) (at_ r j)) ->
  runs (old_step q e) (r, idx) (ro, io) ->
  exists r1 i1 r2 i2, runs (down_step q e) (r, idx, false, false) (r1, i1, false, false) /\
    length r1 = length r /\ 1 <= i1 <= n /\
    runs (up_step q e start) (r1, i1) (r2, i2) /\ store r2 i2 e = store ro io e.
Proof.
  remember (Z.to_nat (n - idx)) as m eqn:Em. revert r idx Em.
  induction (lt_wf m) as [m _ IH]. intros r idx Em Hst Hl Hin Hpar Hb Hold.
  assert (Hstop : forall s, length s = length r -> at_ s (idx / 2) = at_ r (idx / 2) ->
    up_step q e start (s, idx) = Some (Ret (s, idx))).
  { intros s Hs Hsa. unfold up_step. rewrite shiftr_1.
    destruct Hpar as [-> | [Hgt Hlt]]; [by rewrite bool_decide_false by lia |].
    rewrite bool_decide_true by lia. rewrite load_at by Zlia. cbn [mbind option_bind].
    rewrite Hsa. by rewrite bool_decide_true. }
  destruct (decide (idx <= n / 2)).
  - destruct (down_step_next e r idx) as (c & Ec & Hcc & Hcn & Ed); [lia | done |].
    set (r' := <[Z.to_nat idx := at_ r c]> r) in *.
    assert (Hlen : length r' = length r) by apply length_insert.
    assert (Hat : forall j, at_ r' j = if decide (j = idx) then at_ r c else at_ r j)
      by (intros; apply at_insert; lia).
    destruct (decide (qcmp q (at_ r c) e >= 0)) as [Hge | Hlt].
    + assert (Eo : old_step q e (r, idx) = Some (Ret (r, idx))).
      { unfold old_step. rewrite shiftr_1, bool_decide_true, Ec by lia. cbn [mbind option_bind].
        rewrite load_at by lia. cbn [mbind option_bind]. by rewrite bool_decide_true. }
      pose proof (runs_det _ _ _ _ Hold (runs_ret _ _ _ Eo)) as [= -> ->].
      destruct (down_and_up e start r' c r' idx) as (r1 & i1 & D & L1 & R1 & U).
      * lia.
      * lia.
      * lia.
      * rewrite Hat, decide_True by done. lia.
      * intros j Hj Hjc. rewrite !Hat, Hcc, decide_True, decide_False by Zlia.
        rewrite <- Hjc. apply Hb; Zlia.
      * intros j Hj Hjc. rewrite !Hat, !decide_False by Zlia. apply Hb; lia.
      * rewrite Hcc. replace (at_ r' idx) with (at_ r' c)
          by (rewrite !Hat; repeat case_decide; congruence || lia).
        rewrite insert_at_self by lia. apply runs_ret, Hstop; [done |].
        rewrite Hat, decide_False by Zlia. done.
      * exists r1, i1, r', idx. split_and!; [by eapply runs_next | lia | lia | lia | done |].
        rewrite !store_in by lia. unfold r'. by rewrite list_insert_insert_eq.
    + assert (Eo : old_step q e (r, idx) = Some (Next (r', c))).
      { unfold old_step. rewrite shiftr_1, bool_decide_true, Ec by lia. cbn [mbind option_bind].
        rewrite load_at by lia. cbn [mbind option_bind]. rewrite bool_decide_false by done.
        by rewrite store_in by lia. }
      destruct (IH (Z.to_nat (n - c)) ltac:(lia) r' c eq_refl) as (r1 & i1 & r2 & i2 & D & L1 & R1 & U & Es).
      * lia.
      * lia.
      * lia.
      * right. rewrite Hcc, Hat, decide_True by done. lia.
      * intros j Hj Hjc. rewrite !Hat, !decide_False by Zlia. apply Hb; lia.
      * destruct Hold as [[| f] Hf]; [done |]. cbn [while_] in Hf. rewrite Eo in Hf. by exists f.
      * exists r1, i1, r2, i2. split; [by eapply runs_next |]. split; [lia | done].
  - assert (Eo : old_step q e (r, idx) = Some (Ret (r, idx))).
    { unfold old_step. by rewrite shiftr_1, bool_decide_false by lia. }
    pose proof (runs_det _ _ _ _ Hold (runs_ret _ _ _ Eo)) as [= -> ->].
    exists r, idx, r, idx. split_and!; [apply runs_ret, down_step_end; lia | done | lia | lia | | done].
    by apply runs_ret, Hstop.
Qed.
End Sift.

Section Downheap.
Context (q : QUEUE) (r : list Z) (start : Z)
  (Htop : max_at_top q = 1 \/ max_at_top q = -1)
  (Hcmp : compare_ok (compare q) (first_cmp_arg q)) (Hn : 0 <= elements q < 2 ^ 30)
  (Hroot : root q = Some r) (Hlen : elements q < Z.of_nat (length r))
  (Hstart : 1 <= start < Z.of_nat (length r)).
Abbreviation n := (elements q).
Abbreviation e := (at_ r start).

(** The two loops of the optimised version end within their fuel. *)
Lemma down_terminates s i first :
  length s = length r -> 1 <= i ->
  exists st, while_ (S (Z.to_nat n)) (down_step q e) (s, i, first, false) = Some st.
Proof.
  intros Hs Hi.
  destruct (while_rule (fun '(s, i, _, _) => length s = length r /\ 1 <= i) (fun _ => True)
    (fun '(s, i, _, _) => Z.max 0 (n - i)) (S (Z.to_nat n)) (down_step q e) (s, i, first, false))
    as (st & E & _); [done | lia | intros [[[? ?] ?] ?]; lia | | by exists st].
  intros [[[t j] f] d] (Ht & Hj). unfold down_step. rewrite shiftr_1. case_bool_decide as Hh.
  - destruct (pick_child_spec q Htop Hcmp t j) as (c & -> & Hc & Hcn & _); [lia ..|].
    cbn [mbind option_bind]. rewrite load_at by lia. cbn [mbind option_bind].
    destruct (f && _); [right; by eexists |]. left. rewrite store_in by Zlia.
    eexists. split; [done |]. cbv beta iota. rewrite length_insert. lia.
  - right. by eexists.
Qed.

Lemma up_terminates s i m :
  length s = length r -> 1 <= i < Z.of_nat (length r) -> i <= m ->
  exists st, while_ (S (Z.to_nat m)) (up_step q e start) (s, i) = Some st.
Proof.
  intros Hs Hi Hm.
  destruct (while_rule (fun '(s, i) => length s = length r /\ 1 <= i < Z.of_nat (length r))
    (fun _ => True) (fun '(s, i) => i) (S (Z.to_nat m)) (up_step q e start) (s, i))
    as (st & E & _); [done | lia | intros [? ?]; lia | | by exists st].
  intros [t j] (Ht & Hj). unfold up_step. rewrite shiftr_1. case_bool_decide as Hh; [| right; by eexists].
  rewrite load_at by Zlia. cbn [mbind option_bind]. case_bool_decide; [right; by eexists | left].
  rewrite store_in by lia. eexists. split; [done |]. cbv beta iota. rewrite length_insert. split; Zlia.
Qed.

Lemma old_terminates :
  exists st, while_ (S (Z.to_nat n)) (old_step q e) (r, start) = Some st.
Proof.
  destruct (while_rule (fun '(s, i) => length s = length r /\ 1 <= i) (fun _ => True)
    (fun '(s, i) => Z.max 0 (n - i)) (S (Z.to_nat n)) (old_step q e) (r, start))
    as (st & E & _); [split; [done | lia] | lia | intros [? ?]; lia | | by exists st].
  intros [t j] (Ht & Hj). unfold old_step. rewrite shiftr_1. case_bool_decide as Hh.
  - destruct (pick_child_spec q Htop Hcmp t j) as (c & -> & Hc & Hcn & _); [lia ..|].
    cbn [mbind option_bind]. rewrite load_at by lia. cbn [mbind option_bind].
    case_bool_decide; [right; by eexists |]. left. rewrite store_in by Zlia.
    eexists. split; [done |]. cbv beta iota. rewrite length_insert. lia.
  - right. by eexists.
Qed.

Lemma downheap_is_old :
  (forall j, 2 <= j <= n -> start < j / 2 -> le q (at_ r (j / 2)) (at_ r j)) ->
  _downheap q start = _downheap_old q start.
Proof.
  intros Hb. unfold _downheap, _downheap_old. rewrite Hroot. cbn [mbind option_bind].
  rewrite load_at by lia. cbn [mbind option_bind].
  destruct old_terminates as [[ro io] Eo]. rewrite Eo.
  destruct (down_terminates r start true) as [[[[rd id] fd] ed] Ed]; [done | lia |]. rewrite Ed.
  cbn [mbind option_bind]. cbn [while_] in Ed, Eo. unfold down_step at 1 in Ed.
  unfold old_step at 1 in Eo. rewrite shiftr_1 in Ed, Eo. case_bool_decide as Hh.
  - destruct (pick_child_spec q Htop Hcmp r start) as (c & Ec & Hc & Hcn & Hmin); [lia ..|].
    rewrite Ec in Ed, Eo. cbn [mbind option_bind] in Ed, Eo. rewrite load_at in Ed, Eo by lia.
    cbn [mbind option_bind andb] in Ed, Eo. case_bool_decide as Hge.
    + injection Ed as <- <- <- <-. by injection Eo as <- <-.
    + rewrite store_in in Ed, Eo by lia. cbn [mbind option_bind] in Ed, Eo.
      destruct (new_equals_old q Htop Hcmp Hn e start (<[Z.to_nat start := at_ r c]> r) c ro io)
        as (r1 & i1 & r2 & i2 & D & L1 & R1 & U & Es).
      * lia.
      * rewrite length_insert. lia.
      * lia.
      * by left.
      * intros j Hj Hjc. rewrite !at_insert, !decide_False by Zlia. apply Hb; Zlia.
      * by eexists.
      * rewrite length_insert in L1.
        pose proof (runs_det _ _ _ _ D (ex_intro _ _ Ed)) as [= -> -> <- <-].
        destruct (up_terminates rd id (Z.max start n)) as [[ru iu] Eu]; [done | lia | lia |].
        rewrite Eu. cbn [mbind option_bind].
        pose proof (runs_det _ _ _ _ U (ex_intro _ _ Eu)) as [= -> ->]. by rewrite Es.
  - injection Ed as <- <- <- <-. injection Eo as <- <-.
    destruct (up_terminates r start (Z.max start n)) as [[ru iu] Eu]; [done | lia | lia |].
    rewrite Eu. cbn [while_] in Eu. unfold up_step at 1 in Eu. rewrite shiftr_1 in Eu.
    rewrite bool_decide_false in Eu by Zlia. by injection Eu as <- <-.
Qed.

Lemma downheap_spec k :
  1 <= k <= start -> sift q n k e r start ->
  exists r', _downheap q start = Some (set_root q (Some r')) /\ length r' = length r /\
    heap q r' n k /\ contents r' n ≡ₚ contents r n.
Proof.
  intros Hk Hs. rewrite downheap_is_old.
  - unfold _downheap_old. rewrite Hroot. cbn [mbind option_bind]. rewrite load_at by lia.
    cbn [mbind option_bind].
    destruct (old_loop_spec q Htop Hcmp Hn k e r start) as (ro & io & -> & Hio & Hl & Hh & Hp);
      [lia | done | done |].
    cbn [mbind option_bind]. rewrite store_in by lia. cbn [mbind option_bind].
    eexists. split; [done |]. rewrite length_insert. split_and!; [done | done |].
    rewrite Hp. by rewrite insert_at_self by lia.
  - intros j Hj Hj2. apply (s_edges _ _ _ _ _ _ Hs); Zlia.
Qed.
End Downheap.

(** ** Lemmas: sifting up *)

(** The array while [queue_insert] looks for the place of [e]. *)
Record rise (q : QUEUE) (n e : Z) (r : list Z) (idx : Z) : Prop := {
  u_idx : 1 <= idx <= n;
  u_sentinel : at_ r 0 = e;
  u_edges : forall j, 2 <= j <= n -> j <> idx -> j / 2 <> idx -> le q (at_ r (j / 2)) (at_ r j);
  u_elem : forall j, 2 <= j <= n -> j / 2 = idx -> le q e (at_ r j);
  u_skip : 2 <= idx -> forall j, 2 <= j <= n -> j / 2 = idx -> le q (at_ r (idx / 2)) (at_ r j)
}.

Section Insert.
Context (q : QUEUE) (Htop : max_at_top q = 1 \/ max_at_top q = -1)
  (Hcmp : compare_ok (compare q) (first_cmp_arg q)).

Lemma rise_move n e r idx :
  n < Z.of_nat (length r) -> rise q n e r idx -> 2 <= idx -> qcmp q e (at_ r (idx / 2)) < 0 ->
  rise q n e (<[Z.to_nat idx := at_ r (idx / 2)]> r) (idx / 2).
Proof.
  intros Hl [H1 H2 H3 H4 H5] Hi Hlt. pose proof (lt_le q _ _ Hlt) as Hle.
  assert (Hat : forall j, at_ (<[Z.to_nat idx := at_ r (idx / 2)]> r) j =
    if decide (j = idx) then at_ r (idx / 2) else at_ r j) by (intros; apply at_insert; lia).
  split; [Zlia | rewrite Hat, decide_False by lia; done | ..].
  - intros j Hj Hne Hne2. rewrite !Hat. repeat case_decide; try (exfalso; Zlia).
    + by apply H5.
    + by apply H3.
  - intros j Hj Hj2. rewrite Hat. case_decide; [done |].
    apply (le_trans q Htop Hcmp) with (at_ r (idx / 2)); [done |].
    rewrite <- Hj2. apply H3; Zlia.
  - intros Hi2 j Hj Hj2. rewrite !Hat. rewrite decide_False by Zlia.
    assert (Hup : le q (at_ r (idx / 2 / 2)) (at_ r (idx / 2))) by (apply H3; Zlia).
    case_decide; [done |]. apply (le_trans q Htop Hcmp) with (at_ r (idx / 2)); [done |].
    rewrite <- Hj2 at 1. apply H3; Zlia.
Qed.

Lemma rise_fill n e r idx :
  n < Z.of_nat (length r) -> rise q n e r idx -> (2 <= idx -> le q (at_ r (idx / 2)) e) ->
  heap q (<[Z.to_nat idx := e]> r) n 1.
Proof.
  intros Hl [H1 H2 H3 H4 H5] Hup j Hj _. rewrite !at_insert by lia. repeat case_decide.
  - exfalso. Zlia.
  - by apply H4.
  - subst j. apply Hup. lia.
  - by apply H3.
Qed.

Lemma insert_loop_spec n e r0 :
  1 <= n < Z.of_nat (length r0) -> rise q n e r0 n ->
  exists r idx, while_ (S (Z.to_nat n)) (insert_step q e) (r0, n) = Some (r, idx) /\
    1 <= idx <= n /\ length r = length r0 /\
    heap q (<[Z.to_nat idx := e]> r) n 1 /\
    contents (<[Z.to_nat idx := e]> r) n ≡ₚ contents (<[Z.to_nat n := e]> r0) n.
Proof.
  intros Hn Hr.
  destruct (while_rule
    (fun '(r, idx) => rise q n e r idx /\ length r = length r0 /\
       contents (<[Z.to_nat idx := e]> r) n ≡ₚ contents (<[Z.to_nat n := e]> r0) n)
    (fun '(r, idx) => 1 <= idx <= n /\ length r = length r0 /\
       heap q (<[Z.to_nat idx := e]> r) n 1 /\
       contents (<[Z.to_nat idx := e]> r) n ≡ₚ contents (<[Z.to_nat n := e]> r0) n)
    (fun '(r, idx) => idx) (S (Z.to_nat n)) (insert_step q e) (r0, n)) as ([r idx] & E & H);
    [| | | | by exists r, idx].
  - done.
  - cbv beta iota. lia.
  - intros [r idx] ([? _ _ _ _] & _). lia.
  - intros [r idx] (Hri & Hl & Hp). pose proof (u_idx _ _ _ _ _ Hri) as Hi. unfold insert_step.
    rewrite shiftr_1, load_at by Zlia. cbn [mbind option_bind]. case_bool_decide as Hc.
    + left. assert (2 <= idx).
      { destruct (decide (2 <= idx)); [done |]. assert (idx = 1) as -> by lia.
        change (1 / 2) with 0 in Hc. rewrite (u_sentinel _ _ _ _ _ Hri) in Hc.
        rewrite qcmp_refl in Hc by done. lia. }
      rewrite store_in by lia. cbn [mbind option_bind]. eexists. split; [done |].
      split; [split_and! | Zlia].
      * apply rise_move; try done; lia.
      * by rewrite length_insert.
      * rewrite <- Hp. apply hole_move; Zlia.
    + right. eexists. split; [done |]. split_and!; [lia | lia | done | | done].
      apply rise_fill; [lia | done |]. intros _. by apply not_lt_le.
Qed.
End Insert.

Lemma contents_snoc r n e :
  0 <= n -> n + 1 < Z.of_nat (length r) ->
  contents (<[Z.to_nat (n + 1) := e]> r) (n + 1) = contents r n ++ [e].
Proof.
  intros Hn Hl. unfold contents. rewrite drop_insert_ge by lia.
  replace (Z.to_nat (n + 1)) with (S (Z.to_nat n)) by lia.
  assert (Hlt : (Z.to_nat n < length (drop 1 r))%nat) by (rewrite length_drop; lia).
  rewrite (take_S_r _ _ e).
  - rewrite take_insert_ge by lia. done.
  - replace (S (Z.to_nat n) - 1)%nat with (Z.to_nat n) by lia. by apply list_lookup_insert_eq.
Qed.

Lemma queue_insert_spec q l e :
  repr q l -> elements q < max_elements q ->
  exists q', queue_insert q e = Some q' /\ repr q' (e :: l) /\ elements q' = elements q + 1 /\
    max_elements q' = max_elements q /\ (forall a b, qcmp q' a b = qcmp q a b).
Proof.
  intros (r & [H1 H2 H3 H4 H5 H6] & Hh & Hp) Hlt. unfold queue_insert.
  rewrite H1. cbn [mbind option_bind]. rewrite store_in by lia. cbn [mbind option_bind].
  rewrite uwrap_small by lia. set (r0 := <[Z.to_nat 0 := e]> r).
  assert (Hat : forall j, at_ r0 j = if decide (j = 0) then e else at_ r j)
    by (intros; apply at_insert; lia).
  assert (Hl0 : length r0 = length r) by apply length_insert.
  destruct (insert_loop_spec q H5 H6 (elements q + 1) e r0) as (r1 & i & -> & Hi & Hl1 & Hh1 & Hp1).
  - lia.
  - split; [lia | rewrite Hat; done | ..].
    + intros j Hj Hne _. rewrite !Hat, !decide_False by Zlia. apply Hh; Zlia.
    + intros j Hj Hj2. exfalso. Zlia.
    + intros _ j Hj Hj2. exfalso. Zlia.
  - cbn [mbind option_bind]. rewrite store_in by lia. cbn [mbind option_bind].
    eexists. split; [done |]. split; [| done].
    exists (<[Z.to_nat i := e]> r1). split; [| split; [done |]].
    + split; simpl; try done; [by rewrite length_insert, Hl1, Hl0 | lia].
    + simpl. rewrite Hp1, contents_snoc by lia. rewrite <- Hp, Permutation_app_comm. simpl.
      constructor. unfold contents, r0. by rewrite drop_insert_lt by lia.
Qed.

(** ** Lemmas: removing, rebuilding, resizing *)

Lemma heap_top q r n j :
  (max_at_top q = 1 \/ max_at_top q = -1) -> compare_ok (compare q) (first_cmp_arg q) ->
  heap q r n 1 -> 1 <= j <= n -> le q (at_ r 1) (at_ r j).
Proof.
  intros Ht Hc Hh. remember (Z.to_nat j) as m eqn:Em. revert j Em.
  induction (lt_wf m) as [m _ IH]. intros j Em Hj.
  destruct (decide (j = 1)) as [-> |]; [by apply le_refl |].
  apply (le_trans q Ht Hc) with (at_ r (j / 2)); [| apply Hh; Zlia].
  apply (IH (Z.to_nat (j / 2))); [Zlia | done | Zlia].
Qed.

Lemma insert_perm {A} (L : list A) i x v : L !! i = Some x -> x :: <[i := v]> L ≡ₚ v :: L.
Proof.
  intros Hi. rewrite insert_take_drop by by eapply lookup_lt_Some.
  rewrite <- (take_drop_middle L i x Hi) at 3.
  rewrite <- !Permutation_middle. apply perm_swap.
Qed.

Lemma contents_last r n :
  1 <= n < Z.of_nat (length r) -> contents r n = contents r (n - 1) ++ [at_ r n].
Proof.
  intros Hn. rewrite <- (contents_snoc r (n - 1)) by lia.
  replace (n - 1 + 1) with n by lia. by rewrite insert_at_self by lia.
Qed.

Lemma contents_remove r n i :
  1 <= i <= n -> n < Z.of_nat (length r) ->
  at_ r i :: contents (<[Z.to_nat i := at_ r n]> r) (n - 1) ≡ₚ contents r n.
Proof.
  intros Hi Hn. rewrite (contents_last r n) by lia. rewrite Permutation_app_comm. simpl.
  destruct (decide (i = n)) as [-> |].
  - by rewrite insert_at_self by lia.
  - rewrite contents_insert by lia. apply insert_perm, contents_lookup; lia.
Qed.

Lemma queue_remove_spec q r idx :
  wfq q r -> heap q r (elements q) 1 -> 0 <= idx < elements q ->
  exists r' q', queue_remove q idx = Some (at_ r (idx + 1), q') /\ wfq q' r' /\
    elements q' = elements q - 1 /\ (forall a b, qcmp q' a b = qcmp q a b) /\
    at_ r (idx + 1) :: contents r' (elements q') ≡ₚ contents r (elements q) /\
    (idx = 0 \/ le q (at_ r ((idx + 1) / 2)) (at_ r (elements q)) ->
     heap q' r' (elements q') 1).
Proof.
  intros [H1 H2 H3 H4 H5 H6] Hh Hi. unfold queue_remove. rewrite H1. cbn [mbind option_bind].
  rewrite (uwrap_small 32 (idx + 1)) by lia. rewrite !load_at by lia. cbn [mbind option_bind].
  rewrite store_in by lia. cbn [mbind option_bind]. rewrite uwrap_small by lia.
  set (r1 := <[Z.to_nat (idx + 1) := at_ r (elements q)]> r).
  assert (Hl1 : length r1 = length r) by apply length_insert.
  assert (Hat : forall j, at_ r1 j = if decide (j = idx + 1) then at_ r (elements q) else at_ r j)
    by (intros; apply at_insert; lia).
  set (q1 := set_root (set_elements q (elements q - 1)) (Some r1)).
  assert (Hsift : forall k, 1 <= k <= idx + 1 ->
    (k <= (idx + 1) / 2 -> le q (at_ r ((idx + 1) / 2)) (at_ r (elements q))) ->
    sift q1 (elements q1) k (at_ r1 (idx + 1)) r1 (idx + 1)).
  { intros k Hk Hup. split; [lia | ..]; simpl.
    - intros j Hj Hkj Hne Hne2. rewrite !Hat, !decide_False by done. apply Hh; Zlia.
    - intros Hkj Hj. rewrite !Hat, decide_False, decide_True by Zlia. by apply Hup.
    - intros Hkj Hj j Hjn Hj2. rewrite !Hat, !decide_False by Zlia.
      apply (le_trans q H5 H6) with (at_ r (idx + 1)); [apply Hh; Zlia |].
      rewrite <- Hj2. apply Hh; Zlia. }
  assert (Hd : forall k, 1 <= k <= idx + 1 ->
    (k <= (idx + 1) / 2 -> le q (at_ r ((idx + 1) / 2)) (at_ r (elements q))) ->
    exists r', _downheap q1 (idx + 1) = Some (set_root q1 (Some r')) /\ length r' = length r1 /\
    heap q1 r' (elements q1) k /\ contents r' (elements q1) ≡ₚ contents r1 (elements q1)).
  { intros k Hk Hup. apply downheap_spec; simpl; try done; try lia. by apply Hsift. }
  destruct (Hd (idx + 1)) as (r' & E & Hl & _ & Hp); [lia | intros; Zlia |].
  rewrite E. cbn [mbind option_bind]. exists r'. eexists. split; [done |].
  split; [split; simpl; try done; lia |]. split; [done |]. split; [done |]. split.
  - simpl. simpl in Hp. rewrite Hp. apply contents_remove; lia.
  - intros Hor. destruct (Hd 1) as (r'' & E' & _ & Hh' & _); [lia | |].
    + intros Hz. destruct Hor as [-> | ?]; [done | done].
    + rewrite E in E'. injection E' as <-. exact Hh'.
Qed.

Lemma queue_fix_spec q r :
  wfq q r -> exists r' q', queue_fix q = Some q' /\ wfq q' r' /\ elements q' = elements q /\
    heap q' r' (elements q') 1 /\ contents r' (elements q') ≡ₚ contents r (elements q).
Proof.
  intros Hw. pose proof Hw as [H1 H2 H3 H4 H5 H6]. unfold queue_fix. rewrite shiftr_1.
  destruct (for_up_rule (fun k q1 => exists r1, q1 = set_root q (Some r1) /\ length r1 = length r /\
      contents r1 (elements q) ≡ₚ contents r (elements q) /\
      heap q r1 (elements q) (elements q / 2 - k + 1))
    (Z.to_nat (elements q / 2)) 0 (fun k q => _downheap q ((elements q ≫ 1) - k)) q)
    as (q' & E & r' & -> & Hl & Hp & Hh).
  - exists r. split; [by destruct q; simpl in *; subst |]. split_and!; [done | done |].
    intros j Hj Hk. exfalso. Zlia.
  - intros k q1 Hk (r1 & -> & Hl & Hp & Hh). rewrite shiftr_1.
    change (elements (set_root q (Some r1))) with (elements q).
    destruct (downheap_spec (set_root q (Some r1)) r1 (elements q / 2 - k))
      with (k := elements q / 2 - k) as (r2 & E2 & Hl2 & Hh2 & Hp2);
      simpl; try done; try Zlia.
    + split; [Zlia | | intros; exfalso; Zlia | intros; exfalso; Zlia].
      intros j Hj Hkj Hne Hne2. apply Hh; lia.
    + rewrite E2. eexists. split; [done |]. exists r2. split_and!; [done | lia | | ].
      * simpl in Hp2. by rewrite Hp2.
      * simpl in Hh2. replace (elements q / 2 - (k + 1) + 1) with (elements q / 2 - k) by lia. done.
  - rewrite E. exists r'. eexists. split; [done |]. split; [split; simpl; try done; lia |].
    split; [done |]. split; [| done]. intros j Hj Hk. simpl in *. apply Hh; [done |]. Zlia.
Qed.

(** What the code relies on of [my_realloc]: [n] pointers, the common part kept. *)
Class realloc_ok (my_realloc : list Z -> Z -> option (list Z)) : Prop := {
  realloc_len : forall old n b, my_realloc old n = Some b -> Z.of_nat (length b) = n;
  realloc_keep : forall old n b k, my_realloc old n = Some b ->
    (k <= length old)%nat -> Z.of_nat k <= n -> take k b = take k old
}.

Lemma contents_take r n : contents r n = drop 1 (take (S (Z.to_nat n)) r).
Proof. unfold contents. destruct r; simpl; [by rewrite take_nil | done]. Qed.

Lemma at_take r s k j :
  take k r = take k s -> 0 <= j < Z.of_nat k -> at_ r j = at_ s j.
Proof.
  intros Ht Hj. unfold at_, load. rewrite !decide_True by lia.
  rewrite <- (lookup_take_lt r k) by lia. rewrite <- (lookup_take_lt s k) by lia. by rewrite Ht.
Qed.

Lemma resize_queue_spec my_realloc `{!realloc_ok my_realloc} q l max :
  repr q l -> elements q <= max < 2 ^ 30 - 1 ->
  exists err q', resize_queue my_realloc q max = (err, q') /\
    ((err = 1 /\ q' = q) \/ (err = 0 /\ repr q' l /\ max_elements q' = max /\
       elements q' = elements q /\ forall a b, qcmp q' a b = qcmp q a b)).
Proof.
  intros (r & [H1 H2 H3 H4 H5 H6] & Hh & Hp) Hm. unfold resize_queue, SIZEOF_PTR.
  case_bool_decide as Heq.
  - eexists 0, q. split; [done |]. right. split_and!; try done. by exists r.
  - rewrite (uwrap_small 32 (max + 1)), (uwrap_small 32 (_ * 4)) by lia.
    rewrite Z.div_mul by lia. rewrite H1. simpl.
    destruct (my_realloc r (max + 1)) as [nr |] eqn:Er; [| eexists 1, q; auto].
    rewrite bool_decide_false by lia. eexists 0, _. split; [done |]. right.
    split; [done |]. split; [| done].
    pose proof (realloc_len _ _ _ Er) as Hlen.
    assert (Ht : take (S (Z.to_nat (elements q))) nr = take (S (Z.to_nat (elements q))) r)
      by (apply (realloc_keep _ _ _ _ Er); lia).
    exists nr. split; [split; simpl; try done; lia |]. split.
    + intros j Hj Hk. simpl in Hj. rewrite !(at_take nr r _ _ Ht) by Zlia. apply Hh; [done | done].
    + simpl. rewrite <- Hp. rewrite !contents_take. by rewrite Ht.
Qed.

(** ** Properties *)

(** A queue for the witnesses: keys are the addresses themselves. *)
Definition ex_cmp (_ a b : Z) : Z := Z.sgn (a - b).

#[export] Instance ex_cmp_ok arg : compare_ok ex_cmp arg.
Proof. split; unfold ex_cmp; intros *; lia. Qed.

Definition ex_queue (at_top : Z) : QUEUE :=
  mk_QUEUE (Some [0; 1; 10; 2; 11; 12; 3; 4; 0]) 0 7 8 0 at_top ex_cmp 4.

Lemma ex_wfq : wfq (ex_queue 1) [0; 1; 10; 2; 11; 12; 3; 4; 0].
Proof. split; simpl; try lia; apply _ || done. Qed.

Lemma ex_heap : heap (ex_queue 1) [0; 1; 10; 2; 11; 12; 3; 4; 0] 7 1.
Proof.
  intros j Hj _. assert (j = 2 \/ j = 3 \/ j = 4 \/ j = 5 \/ j = 6 \/ j = 7) as Hc by lia.
  destruct_or! Hc; subst; vm_compute; discriminate.
Qed.

Lemma ex_repr : repr (ex_queue 1) [1; 10; 2; 11; 12; 3; 4].
Proof. exists [0; 1; 10; 2; 11; 12; 3; 4; 0]. split_and!; [exact ex_wfq | exact ex_heap | done]. Qed.

Definition ex_realloc (old : list Z) (n : Z) : option (list Z) :=
  if bool_decide (0 <= n <= 64)
  then Some (take (Z.to_nat n) (old ++ replicate (Z.to_nat n) 0)) else None.

#[export] Instance ex_realloc_ok : realloc_ok ex_realloc.
Proof.
  split; unfold ex_realloc; intros *; case_bool_decide; try done; intros [= <-].
  - rewrite length_take, length_app, length_replicate. lia.
  - intros Hn Hs. rewrite take_take. rewrite Nat.min_l by lia. by rewrite take_app_le by lia.
Qed.

(** C39 The optimised [_downheap] (down to a leaf, then back up) computes
    exactly the array of the older version, whenever the nodes below [idx] are
    in heap order; both terminate. *)
Theorem downheap_optimised_is_old q r idx :
  wfq q r -> 1 <= idx <= max_elements q ->
  (forall j, 2 <= j <= elements q -> idx < j / 2 -> le q (at_ r (j / 2)) (at_ r j)) ->
  _downheap q idx = _downheap_old q idx /\ exists q', _downheap q idx = Some q'.
Proof.
  intros [H1 H2 H3 H4 H5 H6] Hi Hb.
  assert (E : _downheap q idx = _downheap_old q idx) by (apply (downheap_is_old q r); try done; lia).
  split; [done |].
  destruct (downheap_spec q r idx H5 H6 ltac:(lia) H1 ltac:(lia) ltac:(lia) idx) as (r' & E' & _);
    [lia | | by eexists].
  split; [lia | | intros; exfalso; Zlia | intros; exfalso; Zlia].
  intros j Hj Hk _ Hne. apply Hb; lia.
Qed.

Lemma downheap_optimised_is_old_witness :
  _downheap (ex_queue 1) 1 = _downheap_old (ex_queue 1) 1 /\
  exists q', _downheap (ex_queue 1) 1 = Some q'.
Proof.
  apply (downheap_optimised_is_old (ex_queue 1) [0; 1; 10; 2; 11; 12; 3; 4; 0] 1);
    [exact ex_wfq | simpl; lia | intros j Hj _; apply ex_heap; simpl in Hj; [lia | Zlia]].
Defined.

(** [queue_insert_safe] on every branch: with room it inserts and the queue
    holds the new element besides the old ones, in heap order; a full queue
    without [auto_extent] returns 2, one that cannot grow returns 1, both
    unchanged; otherwise it grows by [auto_extent] and inserts. *)
Theorem queue_insert_safe_cases my_realloc (Hal : realloc_ok my_realloc) q l e :
  repr q l -> 0 <= auto_extent q -> max_elements q + auto_extent q < 2 ^ 30 - 1 ->
  exists err q', queue_insert_safe my_realloc q e = Some (err, q') /\
    ((err = 0 /\ repr q' (e :: l) /\ (elements q < max_elements q \/ 0 < auto_extent q)) \/
     (err = 1 /\ q' = q /\ elements q = max_elements q /\ 0 < auto_extent q) \/
     (err = 2 /\ q' = q /\ elements q = max_elements q /\ auto_extent q = 0)).
Proof.
  intros R Ha Hov. unfold queue_insert_safe, queue_is_full.
  assert (Hb : elements q <= max_elements q) by (destruct R as (r & [? ? ? ? ? ?] & _); lia).
  case_bool_decide as Hf.
  - case_bool_decide as Hz; [eexists 2, q; split; [done |]; by do 2 right |].
    rewrite uwrap_small by (destruct R as (r & [? ? ? ? ? ?] & _); lia).
    destruct (resize_queue_spec my_realloc q l (max_elements q + auto_extent q))
      as (err & q1 & -> & [[-> ->] | (-> & R1 & Hm & He & _)]); [done | lia | |]; simpl.
    + eexists 1, q. split; [done |]. right. left. split_and!; try done. lia.
    + destruct (queue_insert_spec q1 l e R1) as (q2 & -> & R2 & _); [lia |]. simpl.
      eexists 0, q2. split; [done |]. left. split_and!; [done | done | right; lia].
  - destruct (queue_insert_spec q l e R) as (q2 & -> & R2 & _); [lia |]. simpl.
    eexists 0, q2. split; [done |]. left. split_and!; [done | done | left; lia].
Qed.

Lemma queue_insert_safe_cases_witness :
  exists err q', queue_insert_safe ex_realloc (ex_queue 1) 5 = Some (err, q') /\
    ((err = 0 /\ repr q' (5 :: [1; 10; 2; 11; 12; 3; 4]) /\ (7 < 8 \/ 0 < 4)) \/
     (err = 1 /\ q' = ex_queue 1 /\ 7 = 8 /\ 0 < 4) \/
     (err = 2 /\ q' = ex_queue 1 /\ 7 = 8 /\ 4 = 0)).
Proof.
  apply (queue_insert_safe_cases ex_realloc ex_realloc_ok (ex_queue 1));
    [exact ex_repr | simpl; lia | simpl; lia].
Defined.

(** Taking the top: on a queue that is not empty [queue_remove(queue, 0)]
    returns the element of [queue_top], it may stay above every element of the
    queue, and the queue that is left holds the other elements in heap order. *)
Theorem queue_remove_top q l :
  repr q l -> 0 < elements q ->
  exists x q' l', queue_remove q 0 = Some (x, q') /\ queue_top q = Some x /\
    l ≡ₚ x :: l' /\ repr q' l' /\ elements q' = elements q - 1 /\
    forall y, y ∈ l -> le q x y.
Proof.
  intros (r & Hw & Hh & Hp) Hn. pose proof Hw as [H1 H2 H3 H4 H5 H6].
  destruct (queue_remove_spec q r 0 Hw Hh) as (r' & q' & E & Hw' & He & _ & Hc & Hheap); [lia |].
  exists (at_ r 1), q', (contents r' (elements q')).
  split_and!; [done | unfold queue_top; rewrite H1; cbn; apply load_at; lia | | | done |].
  - rewrite <- Hp. by rewrite <- Hc.
  - exists r'. split_and!; [done | by apply Hheap; left | done].
  - intros y Hy. rewrite <- Hp in Hy. apply list_elem_of_lookup in Hy as [i Hi].
    pose proof (lookup_lt_Some _ _ _ Hi) as Hlt. unfold contents in Hlt.
    rewrite length_take, length_drop in Hlt.
    replace i with (Z.to_nat (Z.of_nat i + 1) - 1)%nat in Hi by lia.
    rewrite contents_lookup in Hi by lia. injection Hi as <-.
    apply (heap_top q r (elements q)); [done | done | done | lia].
Qed.

Lemma queue_remove_top_witness :
  exists x q' l', queue_remove (ex_queue 1) 0 = Some (x, q') /\ queue_top (ex_queue 1) = Some x /\
    [1; 10; 2; 11; 12; 3; 4] ≡ₚ x :: l' /\ repr q' l' /\ elements q' = 6 /\
    forall y, y ∈ [1; 10; 2; 11; 12; 3; 4] -> le (ex_queue 1) x y.
Proof. apply (queue_remove_top (ex_queue 1)); [exact ex_repr | simpl; lia]. Defined.

(** Removing any element: [queue_remove(queue, idx)] returns the element at
    [idx] and leaves exactly the others; the heap order is kept for the top and
    whenever the last element may stay below the parent of [idx]. *)
Theorem queue_remove_any q r idx :
  wfq q r -> heap q r (elements q) 1 -> 0 <= idx < elements q ->
  exists x r' q', queue_remove q idx = Some (x, q') /\ queue_element q idx = Some x /\
    wfq q' r' /\ elements q' = elements q - 1 /\
    x :: contents r' (elements q') ≡ₚ contents r (elements q) /\
    (idx = 0 \/ le q (at_ r ((idx + 1) / 2)) (at_ r (elements q)) -> heap q' r' (elements q') 1).
Proof.
  intros Hw Hh Hi. pose proof Hw as [H1 H2 H3 H4 H5 H6].
  destruct (queue_remove_spec q r idx Hw Hh Hi) as (r' & q' & E & Hw' & He & _ & Hc & Hheap).
  exists (at_ r (idx + 1)), r', q'. split_and!; try done.
  unfold queue_element. rewrite H1. cbn. apply load_at. lia.
Qed.

Lemma queue_remove_any_witness :
  exists x r' q', queue_remove (ex_queue 1) 1 = Some (x, q') /\
    queue_element (ex_queue 1) 1 = Some x /\ wfq q' r' /\ elements q' = 6 /\
    x :: contents r' (elements q') ≡ₚ contents [0; 1; 10; 2; 11; 12; 3; 4; 0] 7 /\
    (1 = 0 \/ le (ex_queue 1) 1 4 -> heap q' r' (elements q') 1).
Proof.
  apply (queue_remove_any (ex_queue 1) [0; 1; 10; 2; 11; 12; 3; 4; 0] 1);
    [exact ex_wfq | exact ex_heap | simpl; lia].
Defined.

(** [queue_remove] can break the heap order: it only moves the last element
    down, so removing index 3 of the heap [1,10,2,11,12,3,4] leaves 4 below 10. *)
Theorem queue_remove_breaks_heap :
  repr (ex_queue 1) [1; 10; 2; 11; 12; 3; 4] /\
  exists q' r', queue_remove (ex_queue 1) 3 = Some (11, q') /\ root q' = Some r' /\
    elements q' = 6 /\ ~ heap q' r' (elements q') 1.
Proof.
  split; [exact ex_repr |]. eexists _, _. split_and!; [vm_compute; reflexivity | done | done |].
  intros Hh. specialize (Hh 4 ltac:(simpl; lia) ltac:(done)). vm_compute in Hh. by apply Hh.
Qed.

(** [queue_fix] makes a heap of any array: the same elements, in heap order. *)
Theorem queue_fix_heapifies q r :
  wfq q r -> exists q', queue_fix q = Some q' /\ elements q' = elements q /\
    repr q' (contents r (elements q)).
Proof.
  intros Hw. destruct (queue_fix_spec q r Hw) as (r' & q' & E & Hw' & He & Hh & Hp).
  exists q'. split_and!; [done | done |]. exists r'. done.
Qed.

Lemma queue_fix_heapifies_witness :
  exists q', queue_fix (ex_queue (-1)) = Some q' /\ elements q' = 7 /\
    repr q' (contents [0; 1; 10; 2; 11; 12; 3; 4; 0] 7).
Proof.
  apply (queue_fix_heapifies (ex_queue (-1)) [0; 1; 10; 2; 11; 12; 3; 4; 0]).
  split; simpl; try lia; apply _ || done.
Defined.

End Queue.
