(* ===== verification/Pack.v ===== *)
(** * Pack: integers as bytes

    The byte-order macros of [include/my_global.h] (the portable versions), the
    packed lengths of the client protocol, [libmysql/pack.c], and the
    variable length encoding of [mysys/my_vle.c].  [ulong] is 32 bits wide, as
    configured in [include/my_config.h].  A packet is a list of bytes, a pointer
    into it an offset; a routine that writes returns the bytes it writes. *)
From stdpp Require Import base tactics option list numbers.
From Stdlib Require Import ZArith Lia.
From S2P Require Import Prelude.

Module Pack.

(** ** Model *)

Definition uint2korr (m : list Z) (p : Z) : option Z :=
  a ← load m p; b ← load m (p + 1); Some (u16 (u8 a + (u8 b ≪ 8))).

Definition uint3korr (m : list Z) (p : Z) : option Z :=
  a ← load m p; b ← load m (p + 1); c ← load m (p + 2);
  Some (u32 (u8 a + (u8 b ≪ 8) + (u8 c ≪ 16))).

Definition uint4korr (m : list Z) (p : Z) : option Z :=
  a ← load m p; b ← load m (p + 1); c ← load m (p + 2); d ← load m (p + 3);
  Some (u32 (u8 a + (u8 b ≪ 8) + (u8 c ≪ 16) + (u8 d ≪ 24))).

Definition uint8korr (m : list Z) (p : Z) : option Z :=
  lo ← uint4korr m p; hi ← uint4korr m (p + 4); Some (u64 (lo + (hi ≪ 32))).

Definition int2store (a : Z) : list Z := let d := u32 a in [u8 d; u8 (d ≫ 8)].
Definition int3store (a : Z) : list Z := [u8 a; u8 (a ≫ 8); u8 (a ≫ 16)].
Definition int4store (a : Z) : list Z := [u8 a; u8 (a ≫ 8); u8 (a ≫ 16); u8 (a ≫ 24)].
Definition int8store (a : Z) : list Z := int4store (u32 a) ++ int4store (u32 (a ≫ 32)).

Definition NULL_LENGTH : Z := 2 ^ 32 - 1.

(** The value and the new packet pointer. *)
Definition net_field_length (m : list Z) (pos : Z) : option (Z * Z) :=
  c ← load m pos;
  if bool_decide (c < 251) then Some (c, pos + 1)
  else if bool_decide (c = 251) then Some (NULL_LENGTH, pos + 1)
  else if bool_decide (c = 252) then v ← uint2korr m (pos + 1); Some (v, pos + 3)
  else if bool_decide (c = 253) then v ← uint3korr m (pos + 1); Some (v, pos + 4)
  else v ← uint4korr m (pos + 1); Some (v, pos + 9).

Definition net_field_length_ll (m : list Z) (pos : Z) : option (Z * Z) :=
  c ← load m pos;
  if bool_decide (c < 251) then Some (c, pos + 1)
  else if bool_decide (c = 251) then Some (NULL_LENGTH, pos + 1)
  else if bool_decide (c = 252) then v ← uint2korr m (pos + 1); Some (v, pos + 3)
  else if bool_decide (c = 253) then v ← uint3korr m (pos + 1); Some (v, pos + 4)
  else v ← uint8korr m (pos + 1); Some (v, pos + 9).

Definition net_store_length (length : Z) : list Z :=
  if bool_decide (length < 251) then [u8 length]
  else if bool_decide (length < 65536) then 252 :: int2store (u32 length)
  else if bool_decide (length < 16777216) then 253 :: int3store (u32 length)
  else 254 :: int8store length.

(** [my_vle_sizeof] of an [ulong]. *)
Definition my_vle_sizeof : Z := (32 + 6) / 7.

(** The [do] loop: seven bits at a time into [buf]; [None] is a write behind
    the [my_vle_sizeof] bytes of [buf]. *)
Fixpoint vle_groups (room : nat) (n : Z) : option (list Z) :=
  match room with
  | O => None
  | S room =>
      let g := u8 (n &&& 127) in
      let n := n ≫ 7 in
      if bool_decide (n > 0) then gs ← vle_groups room n; Some (g :: gs) else Some [g]
  end.

(** The [while] loop: from [ptr] down to the start of [buf]. *)
Fixpoint vle_write (ptr : nat) (buf : list Z) : option (list Z) :=
  match ptr with
  | O => Some []
  | S ptr =>
      v ← buf !! ptr;
      let v := if bool_decide (0 < ptr)%nat then v ||| 128 else v in
      out ← vle_write ptr buf;
      Some (v :: out)
  end.

(** The bytes written to [out]: none when there are more than [max]. *)
Definition my_vle_encode (max n : Z) : option (list Z) :=
  buf ← vle_groups (Z.to_nat my_vle_sizeof) n;
  if bool_decide (Z.of_nat (length buf) <= max) then vle_write (length buf) buf else Some [].

Fixpoint vle_decode_loop (fuel : nat) (vle : list Z) (pos result cnt : Z)
  : option (Z * Z * Z) :=
  match fuel with
  | O => None
  | S fuel =>
      b ← load vle pos;
      let result := u32 (result ≪ 7) ||| (b &&& 127) in
      if bool_decide (b &&& 128 <> 0)
      then if bool_decide (cnt + 1 <= 5)
           then vle_decode_loop fuel vle (pos + 1) result (cnt + 1)
           else Some (result, cnt + 1, pos + 1)
      else Some (result, cnt, pos + 1)
  end.

(** The number ([None] when [*result_ptr] is not assigned) and the pointer. *)
Definition my_vle_decode (vle : list Z) (pos : Z) : option (option Z * Z) :=
  '(result, cnt, pos) ← vle_decode_loop 6 vle pos 0 1;
  Some (if bool_decide (cnt <= 5) then Some result else None, pos).

(** ** Lemmas *)

Lemma shift_arith x k : 0 <= k -> x ≫ k = x / 2 ^ k.
Proof. apply Z.shiftr_div_pow2. Qed.

Lemma shl_arith x k : 0 <= k -> x ≪ k = x * 2 ^ k.
Proof. apply Z.shiftl_mul_pow2. Qed.

(** Reading back the bytes of a number. *)
Ltac korr_solve :=
  repeat match goal with H : load _ _ = Some _ |- _ => rewrite H; clear H end;
  cbn [mbind option_bind]; f_equal; rewrite ?shift_arith, ?shl_arith by lia;
  unfold uwrap; rewrite ?Z.mod_mod by lia; Zlia.

Lemma uint2_back l q x :
  0 <= x < 2 ^ 16 -> load l q = Some (u8 x) -> load l (q + 1) = Some (u8 (x ≫ 8)) ->
  uint2korr l q = Some x.
Proof. intros. unfold uint2korr. korr_solve. Qed.

Lemma uint3_back l q x :
  0 <= x < 2 ^ 24 -> load l q = Some (u8 x) -> load l (q + 1) = Some (u8 (x ≫ 8)) ->
  load l (q + 2) = Some (u8 (x ≫ 16)) -> uint3korr l q = Some x.
Proof. intros. unfold uint3korr. korr_solve. Qed.

Lemma uint4_back l q x :
  0 <= x < 2 ^ 32 -> load l q = Some (u8 x) -> load l (q + 1) = Some (u8 (x ≫ 8)) ->
  load l (q + 2) = Some (u8 (x ≫ 16)) -> load l (q + 3) = Some (u8 (x ≫ 24)) ->
  uint4korr l q = Some x.
Proof. intros. unfold uint4korr. korr_solve. Qed.

(** A byte of the packed number that starts at the end of [pre]. *)
Lemma packed_byte (pre l rest : list Z) i j b :
  Z.of_nat (length pre) + i = j -> l !! Z.to_nat i = Some b -> 0 <= i ->
  load (pre ++ l ++ rest) j = Some b.
Proof.
  intros <- Hl Hi. pose proof (lookup_lt_Some _ _ _ Hl). rewrite load_app by lia.
  unfold load. by rewrite decide_True.
Qed.

Lemma store8_bytes pre x rest q :
  q = Z.of_nat (length pre) + 1 -> 0 <= x < 2 ^ 64 ->
  uint4korr (pre ++ (254 :: int8store x) ++ rest) q = Some (u32 x) /\
  uint4korr (pre ++ (254 :: int8store x) ++ rest) (q + 4) = Some (u32 (x ≫ 32)).
Proof.
  intros -> Hx. split; apply uint4_back; try by apply (uwrap_range 32).
  - by apply packed_byte with 1.
  - by apply packed_byte with 2; [lia |..].
  - by apply packed_byte with 3; [lia |..].
  - by apply packed_byte with 4; [lia |..].
  - by apply packed_byte with 5; [lia |..].
  - by apply packed_byte with 6; [lia |..].
  - by apply packed_byte with 7; [lia |..].
  - by apply packed_byte with 8; [lia |..].
Qed.

(** [vle_groups] gives the seven-bit groups of [n], least significant first. *)
Fixpoint val7 (gs : list Z) : Z :=
  match gs with [] => 0 | g :: gs => g + 128 * val7 gs end.

Lemma vle_groups_spec room n :
  0 <= n < 2 ^ (7 * Z.of_nat room) -> (0 < room)%nat ->
  exists gs, vle_groups room n = Some gs /\ val7 gs = n /\ Forall (fun g => 0 <= g < 128) gs /\
    (0 < length gs <= room)%nat.
Proof.
  revert n; induction room as [| room IH]; intros n Hn Hr; [lia |].
  cbn [vle_groups]. rewrite shift_arith, land_127 by lia. rewrite uwrap_small by Zlia.
  assert (Hp : 2 ^ (7 * Z.of_nat (S room)) = 128 * 2 ^ (7 * Z.of_nat room)).
  { replace (7 * Z.of_nat (S room)) with (7 + 7 * Z.of_nat room) by lia. by rewrite Z.pow_add_r by lia. }
  change (2 ^ 7) with 128. case_bool_decide as Hpos.
  - destruct (decide (room = 0%nat)) as [-> | Hr0].
    { change (2 ^ (7 * Z.of_nat 0)) with 1 in Hp. rewrite Hp in Hn. exfalso. Zlia. }
    destruct (IH (n / 128)) as (gs & -> & Hv & HF & Hlen); [rewrite Hp in Hn; Zlia | lia |].
    exists (n mod 128 :: gs). cbn [mbind option_bind]. split_and!; [done | | | simpl; lia | simpl; lia].
    + cbn [val7]. rewrite Hv. Zlia.
    + constructor; [Zlia | done].
  - exists [n mod 128]. split_and!; [done | | | simpl; lia | simpl; lia].
    + cbn [val7]. Zlia.
    + constructor; [Zlia | done].
Qed.

Lemma val7_nonneg gs : Forall (fun g => 0 <= g < 128) gs -> 0 <= val7 gs.
Proof. induction 1; simpl; lia. Qed.

Lemma val7_drop gs k : Forall (fun g => 0 <= g < 128) gs -> 0 <= val7 (drop k gs) <= val7 gs.
Proof.
  intros HF. revert k; induction HF as [| g gs Hg HF IH]; intros k; [by rewrite drop_nil |].
  pose proof (val7_nonneg gs HF). destruct k as [| k]; simpl; [lia |]. specialize (IH k). lia.
Qed.

Lemma high_bit g : 0 <= g < 128 -> (g ||| 128) &&& 127 = g /\ (g ||| 128) &&& 128 <> 0.
Proof.
  intros Hg. rewrite Z.lor_comm. change 128 with (1 ≪ 7) at 1 2. rewrite !lor_shift_add by lia.
  rewrite land_127. split; [Zlia |]. change 128 with (2 ^ 7). rewrite land_pow2 by lia.
  replace (Z.testbit (1 * 2 ^ 7 + g) 7) with true; [lia |].
  rewrite <- lor_shift_add by lia. autorewrite with cbits. rewrite (testbit_high 7 g) by lia. done.
Qed.

Lemma low_bit g : 0 <= g < 128 -> g &&& 127 = g /\ g &&& 128 = 0.
Proof.
  intros Hg. rewrite land_127. split; [Zlia |]. change 128 with (2 ^ 7).
  rewrite land_pow2 by lia. by rewrite (testbit_high 7 g) by lia.
Qed.

Lemma length_vle_write k buf out : vle_write k buf = Some out -> length out = k.
Proof.
  revert out; induction k as [| k IH]; intros out; simpl; [by intros [= <-] |].
  intros H. inv_opt. simpl. f_equal. by apply IH.
Qed.

(** Decoding the groups [k-1 .. 0] when those above gave [val7 (drop k buf)]. *)
Lemma vle_decode_write k buf out fuel vle q cnt :
  Forall (fun g => 0 <= g < 128) buf -> val7 buf < 2 ^ 32 -> (0 < k <= length buf)%nat ->
  vle_write k buf = Some out -> (forall i, (i < k)%nat -> load vle (q + Z.of_nat i) = out !! i) ->
  cnt + Z.of_nat k <= 6 -> (k <= fuel)%nat ->
  vle_decode_loop fuel vle q (val7 (drop k buf)) cnt =
    Some (val7 buf, cnt + Z.of_nat k - 1, q + Z.of_nat k).
Proof.
  intros HF Hv. revert out fuel q cnt.
  induction k as [| k IH]; intros out fuel q cnt Hk Hw Hvle Hcnt Hfuel; [lia |].
  destruct fuel as [| fuel]; [lia |]. cbn [vle_write] in Hw.
  destruct (lookup_lt_is_Some_2 buf k) as [g Hg]; [lia |]. rewrite Hg in Hw. cbn [mbind option_bind] in Hw.
  destruct (vle_write k buf) as [out' |] eqn:Ew; [| done]. cbn [mbind option_bind] in Hw.
  injection Hw as <-. cbn [vle_decode_loop].
  pose proof (Hvle 0%nat ltac:(lia)) as Hb. rewrite Z.add_0_r in Hb. rewrite Hb. cbn [mbind option_bind lookup list_lookup].
  pose proof (proj1 (Forall_lookup _ _) HF _ _ Hg) as Hgr. cbv beta in Hgr.
  assert (Hdrop : val7 (drop k buf) = g + 128 * val7 (drop (S k) buf)).
  { by rewrite (drop_S buf g k Hg). }
  assert (Hres : u32 (val7 (drop (S k) buf) ≪ 7) ||| g = val7 (drop k buf)).
  { pose proof (val7_drop buf (S k) HF). pose proof (val7_drop buf k HF).
    rewrite (uwrap_small 32) by (rewrite shl_arith by lia; lia). rewrite lor_shift_add by lia. lia. }
  case_bool_decide as Hpos.
  - destruct (high_bit g Hgr) as [-> Hne]. rewrite bool_decide_true by done.
    rewrite bool_decide_true by lia. rewrite Hres.
    rewrite (IH out' fuel (q + 1) (cnt + 1)); [f_equal; f_equal; [f_equal; lia | lia] | lia | done | | lia | lia].
    intros i Hi.
    specialize (Hvle (S i) ltac:(lia)). rewrite lookup_cons in Hvle. rewrite <- Hvle. f_equal. lia.
  - assert (k = 0%nat) as -> by lia. destruct (low_bit g Hgr) as [-> ->]. rewrite bool_decide_false by lia.
    rewrite Hres, drop_0. f_equal. f_equal. f_equal. lia.
Qed.

(** ** Properties *)

(** C38 Packed lengths: [net_field_length_ll] reads back what
    [net_store_length] wrote, for every 64-bit length, and moves the packet
    pointer behind exactly the bytes that were written; [net_field_length],
    whose result is a 32-bit [ulong], returns the length modulo [2^32].  251 is
    the encoding of SQL [NULL] and is never written for a length. *)
Theorem net_length_roundtrip pre x rest :
  0 <= x < 2 ^ 64 ->
  let packet := pre ++ net_store_length x ++ rest in
  let pos := Z.of_nat (length pre) in
  let end_ := Z.of_nat (length (pre ++ net_store_length x)) in
  net_field_length_ll packet pos = Some (x, end_) /\
  net_field_length packet pos = Some (u32 x, end_) /\
  load packet pos <> Some 251.
Proof.
  intros Hx packet pos end_.
  assert (Hend : end_ = pos + Z.of_nat (length (net_store_length x)))
    by (unfold end_; rewrite length_app; lia).
  rewrite Hend. clear Hend end_. unfold net_field_length_ll, net_field_length.
  subst packet pos. unfold net_store_length. repeat case_bool_decide.
  - rewrite (packed_byte _ _ _ 0 _ (u8 x)) by (done || lia). rewrite uwrap_small by lia.
    cbn [mbind option_bind]. rewrite !bool_decide_true by done. rewrite (uwrap_small 32) by lia.
    split_and!; [done | done |]. intros [= ->]. lia.
  - rewrite (packed_byte _ _ _ 0 _ 252) by (done || lia). cbn [mbind option_bind].
    rewrite (uint2_back _ _ x); [| lia | | ].
    + rewrite (uwrap_small 32 x) by lia. done.
    + apply packed_byte with 1; [lia | | lia]. unfold int2store, int3store; by rewrite ?uwrap_idemp, (uwrap_small 32 x) by lia.
    + apply packed_byte with 2; [lia | | lia]. unfold int2store, int3store; by rewrite ?uwrap_idemp, (uwrap_small 32 x) by lia.
  - rewrite (packed_byte _ _ _ 0 _ 253) by (done || lia). cbn [mbind option_bind].
    rewrite (uint3_back _ _ x); [| lia | | |].
    + rewrite (uwrap_small 32 x) by lia. done.
    + apply packed_byte with 1; [lia | | lia]. unfold int2store, int3store; by rewrite ?uwrap_idemp, (uwrap_small 32 x) by lia.
    + apply packed_byte with 2; [lia | | lia]. unfold int2store, int3store; by rewrite ?uwrap_idemp, (uwrap_small 32 x) by lia.
    + apply packed_byte with 3; [lia | | lia]. unfold int2store, int3store; by rewrite ?uwrap_idemp, (uwrap_small 32 x) by lia.
  - rewrite (packed_byte _ _ _ 0 _ 254) by (done || lia). cbn [mbind option_bind].
    destruct (store8_bytes pre x rest (Z.of_nat (length pre) + 1)) as [E1 E2]; [done | done |].
    unfold uint8korr. rewrite E1, E2. cbn [mbind option_bind].
    replace (u64 (u32 x + (u32 (x ≫ 32) ≪ 32))) with x.
    + done.
    + rewrite shift_arith, shl_arith by lia. unfold uwrap. Zlia.
Qed.

Lemma net_length_roundtrip_witness :
  net_field_length_ll ([7] ++ net_store_length 70000 ++ [9]) 1 = Some (70000, 5).
Proof. exact (proj1 (net_length_roundtrip [7] 70000 [9] ltac:(lia))). Defined.

(** Variable length encoding: for every [ulong] and room for five bytes
    [my_vle_encode] stays inside its buffer and writes one to five bytes, and
    [my_vle_decode] of these bytes (whatever follows them) gives the number back
    and the pointer behind them. *)
Theorem vle_roundtrip n max pre rest :
  0 <= n < 2 ^ 32 -> 5 <= max ->
  exists out, my_vle_encode max n = Some out /\ (0 < length out <= 5)%nat /\
    my_vle_decode (pre ++ out ++ rest) (Z.of_nat (length pre)) =
      Some (Some n, Z.of_nat (length pre) + Z.of_nat (length out)).
Proof.
  intros Hn Hmax. unfold my_vle_encode. change (Z.to_nat my_vle_sizeof) with 5%nat.
  destruct (vle_groups_spec 5 n) as (gs & -> & Hv & HF & Hlen); [simpl Z.of_nat; lia | lia |].
  cbn [mbind option_bind]. rewrite bool_decide_true by lia.
  assert (Hw : forall k, (k <= length gs)%nat -> exists out, vle_write k gs = Some out).
  { induction k as [| k IH]; intros Hk; [by eexists |]. cbn [vle_write].
    destruct (lookup_lt_is_Some_2 gs k) as [g ->]; [lia |]. cbn [mbind option_bind].
    destruct IH as [out ->]; [lia |]. by eexists. }
  destruct (Hw (length gs)) as [out Eo]; [done |]. exists out.
  pose proof (length_vle_write _ _ _ Eo) as Hlo. rewrite Eo, Hlo. split_and!; [done | lia | lia |].
  unfold my_vle_decode.
  pose proof (vle_decode_write (length gs) gs out 6 (pre ++ out ++ rest) (Z.of_nat (length pre)) 1) as H.
  rewrite drop_all in H. cbn [val7] in H. rewrite H; try done; try lia.
  - cbn [mbind option_bind]. rewrite bool_decide_true by lia. by rewrite Hv.
  - intros i Hi. rewrite load_app by lia. apply load_nat.
Qed.

Lemma vle_roundtrip_witness :
  exists out, my_vle_encode 5 300 = Some out /\ (0 < length out <= 5)%nat /\
    my_vle_decode ([1] ++ out ++ [2]) 1 = Some (Some 300, 1 + Z.of_nat (length out)).
Proof. apply (vle_roundtrip 300 5 [1] [2]); lia. Defined.

End Pack.
