(* ===== verification/Ctype.v ===== *)
(** * Ctype: character classes of latin1

    The class table of [strings/ctype-latin1.c] and the macros of
    [include/m_ctype.h] that the modelled code uses.  Index 0 of the table is
    the class of [EOF]. *)
From stdpp Require Import base tactics option list numbers.
From Stdlib Require Import ZArith Lia.
From S2P Require Import Prelude.

Module Ctype.

(** ** Model *)

Definition ctype_latin1 : list Z :=
  [0;
   32; 32; 32; 32; 32; 32; 32; 32; 32; 40; 40; 40; 40; 40; 32; 32;
   32; 32; 32; 32; 32; 32; 32; 32; 32; 32; 32; 32; 32; 32; 32; 32;
   72; 16; 16; 16; 16; 16; 16; 16; 16; 16; 16; 16; 16; 16; 16; 16;
   132; 132; 132; 132; 132; 132; 132; 132; 132; 132; 16; 16; 16; 16; 16; 16;
   16; 129; 129; 129; 129; 129; 129; 1; 1; 1; 1; 1; 1; 1; 1; 1;
   1; 1; 1; 1; 1; 1; 1; 1; 1; 1; 1; 16; 16; 16; 16; 16;
   16; 130; 130; 130; 130; 130; 130; 2; 2; 2; 2; 2; 2; 2; 2; 2;
   2; 2; 2; 2; 2; 2; 2; 2; 2; 2; 2; 16; 16; 16; 16; 32;
   16; 0; 16; 2; 16; 16; 16; 16; 16; 16; 1; 16; 1; 0; 1; 0;
   0; 16; 16; 16; 16; 16; 16; 16; 16; 16; 2; 16; 2; 0; 2; 1;
   72; 16; 16; 16; 16; 16; 16; 16; 16; 16; 16; 16; 16; 16; 16; 16;
   16; 16; 16; 16; 16; 16; 16; 16; 16; 16; 16; 16; 16; 16; 16; 16;
   1; 1; 1; 1; 1; 1; 1; 1; 1; 1; 1; 1; 1; 1; 1; 1;
   1; 1; 1; 1; 1; 1; 1; 16; 1; 1; 1; 1; 1; 1; 1; 2;
   2; 2; 2; 2; 2; 2; 2; 2; 2; 2; 2; 2; 2; 2; 2; 2;
   2; 2; 2; 2; 2; 2; 2; 16; 2; 2; 2; 2; 2; 2; 2; 2].

Definition _MY_NMR : Z := 4.
Definition _MY_SPC : Z := 8.
Definition _MY_PNT : Z := 16.

(** [((s)->ctype+1)[(uchar) c] & class]. *)
Definition ctype_is (class c : Z) : option bool :=
  v ← load ctype_latin1 (1 + u8 c); Some (bool_decide (v &&& class <> 0)).

Definition my_isspace : Z -> option bool := ctype_is _MY_SPC.
Definition my_isdigit : Z -> option bool := ctype_is _MY_NMR.
Definition my_ispunct : Z -> option bool := ctype_is _MY_PNT.

(** ** Lemmas *)

(** A statement checked on every byte holds of every byte. *)
Lemma byte_check (P : Z -> bool) :
  forallb P (seqZ 0 256) = true -> forall b, 0 <= b < 256 -> P b = true.
Proof.
  intros H b Hb. rewrite forallb_forall in H. apply H, list_elem_of_In, elem_of_seqZ. lia.
Qed.

(** The space characters: tab to carriage return, blank, no-break space. *)
Lemma my_isspace_spec c :
  0 <= c < 256 ->
  my_isspace c = Some (bool_decide (9 <= c <= 13 \/ c = 32 \/ c = 160)).
Proof.
  intros Hc.
  pose proof (byte_check (fun c => bool_decide
    (my_isspace c = Some (bool_decide (9 <= c <= 13 \/ c = 32 \/ c = 160)))) ltac:(vm_compute; done) c Hc) as H.
  by apply bool_decide_eq_true in H.
Qed.

Lemma my_isdigit_spec c :
  0 <= c < 256 -> my_isdigit c = Some (bool_decide (48 <= c <= 57)).
Proof.
  intros Hc.
  pose proof (byte_check (fun c => bool_decide
    (my_isdigit c = Some (bool_decide (48 <= c <= 57)))) ltac:(vm_compute; done) c Hc) as H.
  by apply bool_decide_eq_true in H.
Qed.

End Ctype.
