(* ===== verification/Base64.v ===== *)
(** * Base64: encoding and decoding

    [mysys/base64.c].  Bytes and characters are numbers below 256; source and
    destination are lists.  [strchr] of a character that is not in the table
    returns a null pointer, so that [pos] depends on the address of the table:
    [table_addr] is a parameter of the decoder. *)
From stdpp Require Import base tactics option list numbers.
From Stdlib Require Import ZArith Lia.
From S2P Require Import Prelude.
From S2P Require Import Ctype.

Module Base64.
Import Ctype.

(** ** Model *)

(** The 64 characters and the terminating zero. *)
Definition base64_table : list Z :=
  seqZ 65 26 ++ seqZ 97 26 ++ seqZ 48 10 ++ [43; 47; 0].

(** [int] arithmetic; [/] truncates towards zero. *)
Definition my_base64_needed_encoded_length (length_of_data : Z) : Z :=
  let nb_base64_chars := Z.quot (length_of_data + 2) 3 * 4 in
  nb_base64_chars + Z.quot (nb_base64_chars - 1) 76 + 1.

Definition my_base64_needed_decoded_length (length_of_encoded_data : Z) : Z :=
  Z.quot (length_of_encoded_data * 3) 4.

(** One pass of the encoding loop at [i]: the characters written. *)
Definition encode_group (s : list Z) (src_len i : Z) : option (list Z) :=
  c ← load s i;
  let c := u32 (c ≪ 8) in
  let i := i + 1 in
  c ← (if bool_decide (i < src_len) then x ← load s i; Some (u32 (c + x)) else Some c);
  let c := u32 (c ≪ 8) in
  let i := i + 1 in
  c ← (if bool_decide (i < src_len) then x ← load s i; Some (u32 (c + x)) else Some c);
  let i := i + 1 in
  d0 ← load base64_table ((c ≫ 18) &&& 63);
  d1 ← load base64_table ((c ≫ 12) &&& 63);
  d2 ← (if bool_decide (i > src_len + 1) then Some 61
        else load base64_table ((c ≫ 6) &&& 63));
  d3 ← (if bool_decide (i > src_len) then Some 61 else load base64_table (c &&& 63));
  Some [d0; d1; d2; d3].

Fixpoint encode_loop (fuel : nat) (s : list Z) (src_len i len : Z) : option (list Z) :=
  if bool_decide (i < src_len)
  then
    match fuel with
    | O => None
    | S fuel =>
        let '(nl, len) := if bool_decide (len = 76) then ([10], 0) else ([], len) in
        g ← encode_group s src_len i;
        rest ← encode_loop fuel s src_len (i + 3) (len + 4);
        Some (nl ++ g ++ rest)
    end
  else Some [].

(** What is written to [dst], with the terminating zero. *)
Definition my_base64_encode (src : list Z) (src_len : Z) : option (list Z) :=
  out ← encode_loop (Z.to_nat src_len) src src_len 0 0;
  Some (out ++ [0]).

Fixpoint index_of (c : Z) (l : list Z) : option Z :=
  match l with
  | [] => None
  | x :: l => if bool_decide (x = c) then Some 0 else i ← index_of c l; Some (i + 1)
  end.

Section Decode.
Context (table_addr : Z).

Definition pos (c : Z) : Z :=
  match index_of c base64_table with Some i => i | None => u32 (- table_addr) end.

Section Source.
Context (src : list Z) (len : Z).

(** [SKIP_SPACE]: the new [src] and [i]; the macro leaves the loop of its
    caller when [i] has reached the end. *)
Definition skip_space (p i : Z) : option (Z * Z) :=
  while_ (S (Z.to_nat (len - i))) (fun '(p, i) =>
    if bool_decide (i < len)
    then c ← load src p; sp ← my_isspace c;
         Some (if sp : bool then Next (p + 1, i + 1) else Ret (p, i))
    else Some (Ret (p, i))) (p, i).

(** [b[0]], [b[1]], [b[2]] and the loop that stores [3 - mark] of them. *)
Definition emit (c mark : Z) : list Z :=
  take (Z.to_nat (3 - mark)) [(c ≫ 16) &&& 255; (c ≫ 8) &&& 255; c &&& 255].

(** One pass of the decoding loop. *)
Definition decode_step (st : Z * Z * list Z) : option (ctl (Z * Z * list Z) (Z * Z * list Z)) :=
  let '(p, i, d) := st in
  if bool_decide (i < len)
  then
    '(p, i) ← skip_space p i;
    if bool_decide (i = len) then Some (Ret (p, i, d)) else
    x ← load src p;
    let c := u32 (u32 (0 + pos x) ≪ 6) in
    '(p, i) ← skip_space (p + 1) (i + 1);
    if bool_decide (i = len) then Some (Ret (p, i, d)) else
    x ← load src p;
    let c := u32 (u32 (c + pos x) ≪ 6) in
    '(p, i) ← skip_space (p + 1) (i + 1);
    if bool_decide (i = len) then Some (Ret (p, i, d)) else
    x ← load src p;
    if bool_decide (x = 61)
    then Some (Next (p + 2, len, d ++ emit (u32 (c ≪ 6)) 2))
    else
      let c := u32 (u32 (c + pos x) ≪ 6) in
      '(p, i) ← skip_space (p + 1) (i + 1);
      if bool_decide (i = len) then Some (Ret (p, i, d)) else
      x ← load src p;
      if bool_decide (x = 61)
      then Some (Next (p + 1, len, d ++ emit c 1))
      else Some (Next (p + 1, i + 1, d ++ emit (u32 (c + pos x)) 0))
  else Some (Ret (p, i, d)).
End Source.

(** The result, the bytes stored at [dst] and the offset stored in [*end_ptr]. *)
Definition my_base64_decode (src : list Z) (len : Z) : option (Z * list Z * Z) :=
  '(p, i, d) ← while_ (S (Z.to_nat len)) (decode_step src len) (0, 0, []);
  Some (if bool_decide (i <> len) then -1 else s32 (Z.of_nat (length d)), d, p).
End Decode.

(** ** Specification *)

Definition byte (b : Z) : Prop := 0 <= b < 256.

(** ** Lemmas *)

Lemma table_entry addr v :
  0 <= v < 64 -> exists c, load base64_table v = Some c /\ pos addr c = v /\
    my_isspace c = Some false /\ c <> 61 /\ 0 <= c < 256.
Proof.
  intros Hv.
  pose (P := fun v => match load base64_table v with
    | Some c => bool_decide (index_of c base64_table = Some v) &&
                bool_decide (my_isspace c = Some false) && bool_decide (c <> 61) &&
                bool_decide (0 <= c < 256)
    | None => 64 <=? v end).
  assert (HP : P v = true) by (apply Ctype.byte_check; [vm_compute; done | lia]).
  unfold P in HP. destruct (load base64_table v) as [c |] eqn:E; [| lia].
  rewrite !andb_true_iff, !bool_decide_eq_true in HP. destruct HP as (((H1 & H2) & H3) & H4).
  exists c. split_and!; [done | | done | done | lia | lia]. unfold pos. by rewrite H1.
Qed.

(** Nothing to skip in front of a character that is not a space. *)
Lemma skip_none src len p i c :
  i < len -> load src p = Some c -> my_isspace c = Some false ->
  skip_space src len p i = Some (p, i).
Proof.
  intros Hi Hc Hs. unfold skip_space. cbn [while_]. rewrite bool_decide_true by done.
  rewrite Hc. cbn [mbind option_bind]. by rewrite Hs.
Qed.

Lemma skip_newline src len p i c :
  i + 1 < len -> 0 <= i -> load src p = Some 10 -> load src (p + 1) = Some c ->
  my_isspace c = Some false -> skip_space src len p i = Some (p + 1, i + 1).
Proof.
  intros Hi H0 Hn Hc Hs. unfold skip_space.
  destruct (Z.to_nat (len - i)) as [| k] eqn:Ek; [lia |].
  cbn [while_]. rewrite bool_decide_true by lia. rewrite Hn. cbn [mbind option_bind].
  replace (my_isspace 10) with (Some true) by (vm_compute; done). cbn [mbind option_bind].
  rewrite bool_decide_true by lia. rewrite Hc. cbn [mbind option_bind]. by rewrite Hs.
Qed.

(** The four six-bit digits of a 24-bit group. *)
Definition digit (c k : Z) : Z := (c ≫ k) &&& 63.

Lemma digit_arith c k : 0 <= k -> digit c k = c / 2 ^ k mod 64.
Proof.
  intros. unfold digit. change 63 with (2 ^ 6 - 1). rewrite land_ones_uwrap by lia.
  unfold uwrap. by rewrite Z.shiftr_div_pow2.
Qed.

Lemma digit_range c k : 0 <= k -> 0 <= digit c k < 64.
Proof. intros. rewrite digit_arith by done. apply Z.mod_pos_bound. lia. Qed.

(** What the encoder writes for one to three bytes. *)
Definition chars_of (b : list Z) : option (list Z) :=
  match b with
  | b0 :: b1 :: b2 :: _ =>
      let c := b0 * 65536 + b1 * 256 + b2 in
      d0 ← load base64_table (digit c 18); d1 ← load base64_table (digit c 12);
      d2 ← load base64_table (digit c 6); d3 ← load base64_table (digit c 0);
      Some [d0; d1; d2; d3]
  | [b0; b1] =>
      let c := b0 * 65536 + b1 * 256 in
      d0 ← load base64_table (digit c 18); d1 ← load base64_table (digit c 12);
      d2 ← load base64_table (digit c 6); Some [d0; d1; d2; 61]
  | [b0] =>
      let c := b0 * 65536 in
      d0 ← load base64_table (digit c 18); d1 ← load base64_table (digit c 12);
      Some [d0; d1; 61; 61]
  | [] => None
  end.

Lemma load_drop (s : list Z) i k b :
  0 <= i -> drop (Z.to_nat i) s !! k = Some b -> load s (i + Z.of_nat k) = Some b.
Proof.
  intros Hi Hd. rewrite lookup_drop in Hd. unfold load. rewrite decide_True by lia.
  rewrite <- Hd. f_equal. lia.
Qed.

Lemma load_head (s : list Z) i b r : 0 <= i -> drop (Z.to_nat i) s = b :: r -> load s i = Some b.
Proof. intros Hi Hd. rewrite <- (Z.add_0_r i). apply (load_drop s i 0); [done | by rewrite Hd]. Qed.

Lemma shl8 x : x ≪ 8 = x * 256.
Proof. by rewrite Z.shiftl_mul_pow2. Qed.

Lemma digit_0 c : c &&& 63 = digit c 0.
Proof. unfold digit. by rewrite Z.shiftr_0_r. Qed.

Lemma encode_group_spec s i r :
  0 <= i -> drop (Z.to_nat i) s = r -> r <> [] -> Forall byte s ->
  encode_group s (Z.of_nat (length s)) i = chars_of r.
Proof.
  intros Hi Hr Hne HF.
  assert (Hlen : Z.of_nat (length r) = Z.of_nat (length s) - i /\ i < Z.of_nat (length s)).
  { assert (length r <> 0%nat) by (by destruct r). rewrite <- Hr, length_drop in *. lia. }
  assert (HFr : Forall byte r) by (rewrite <- Hr; by apply Forall_drop).
  unfold encode_group. destruct r as [| b0 [| b1 [| b2 r]]]; [done | ..];
    repeat match goal with H : Forall byte (_ :: _) |- _ => apply Forall_cons_1 in H as [? H] end;
    unfold byte in *; cbn [length] in Hlen.
  - rewrite (load_head s i b0 []) by done. cbn [mbind option_bind].
    bdec. cbn [mbind option_bind]. rewrite !shl8. unwrap.
    replace (b0 * 256 * 256) with (b0 * 65536) by lia. done.
  - rewrite (load_head s i b0 [b1]) by done. cbn [mbind option_bind].
    bdec. rewrite (load_drop s i 1 b1 Hi ltac:(by rewrite Hr) : load s (i + 1) = _).
    cbn [mbind option_bind]. rewrite !shl8. unwrap.
    replace ((b0 * 256 + b1) * 256) with (b0 * 65536 + b1 * 256) by lia. done.
  - rewrite (load_head s i b0 (b1 :: b2 :: r)) by done. cbn [mbind option_bind].
    bdec. rewrite (load_drop s i 1 b1 Hi ltac:(by rewrite Hr) : load s (i + 1) = _).
    cbn [mbind option_bind]. replace (i + 1 + 1) with (i + 2) by lia.
    rewrite (load_drop s i 2 b2 Hi ltac:(by rewrite Hr) : load s (i + 2) = _).
    cbn [mbind option_bind].
    rewrite !shl8. unwrap. rewrite digit_0.
    replace ((b0 * 256 + b1) * 256 + b2) with (b0 * 65536 + b1 * 256 + b2) by lia. done.
Qed.

Section DecodeStep.
Context (addr : Z) (src : list Z) (len : Z).

(** One digit, accumulated behind those read before. *)
Lemma acc6 c v : 0 <= c < 2 ^ 24 -> 0 <= v < 64 -> u32 (u32 (c + v) ≪ 6) = (c + v) * 64.
Proof.
  intros Hc Hv. rewrite (uwrap_small 32 (c + v)) by lia.
  rewrite Z.shiftl_mul_pow2 by lia. apply uwrap_small. lia.
Qed.

Ltac acc := repeat match goal with
  | |- context [uwrap 32 (uwrap 32 (?c + ?v) ≪ 6)] => rewrite (acc6 c v) by lia end.

(** The characters of a group start at [q], after a newline or not. *)
Definition group_at (p q : Z) (cs : list Z) : Prop :=
  0 <= p /\ (q = p \/ (q = p + 1 /\ load src p = Some 10)) /\ q + 4 <= len /\
  load src q = cs !! 0%nat /\ load src (q + 1) = cs !! 1%nat /\
  load src (q + 2) = cs !! 2%nat /\ load src (q + 3) = cs !! 3%nat.

Lemma first_skip p q cs c0 :
  group_at p q cs -> cs !! 0%nat = Some c0 -> my_isspace c0 = Some false ->
  skip_space src len p p = Some (q, q).
Proof.
  intros (Hp & Hq & Hl & Hq0 & _) H0 Hs. rewrite H0 in Hq0.
  destruct Hq as [-> | [-> Hn]]; [by apply (skip_none _ _ _ _ c0); [lia | ..] |].
  by apply (skip_newline _ _ _ _ c0); [lia | ..].
Qed.

Lemma decode_group p q b cs d :
  Forall byte b -> b <> [] -> chars_of b = Some cs -> group_at p q cs ->
  exists i, decode_step addr src len (p, p, d) = Some (Next (q + 4, i, d ++ take 3 b)) /\
    ((3 <= length b)%nat -> i = q + 4) /\ ((length b < 3)%nat -> i = len).
Proof.
  intros HF Hne Hcs Hg. pose proof Hg as (Hp & Hq & Hl & L0 & L1 & L2 & L3).
  assert (Hlt : p < len) by lia.
  destruct b as [| b0 [| b1 [| b2 r]]]; [done | ..];
    repeat match goal with H : Forall byte (_ :: _) |- _ => apply Forall_cons_1 in H as [? H] end;
    unfold byte in *; cbn [chars_of] in Hcs.
  - set (c := b0 * 65536) in *.
    destruct (table_entry addr (digit c 18)) as (c0 & E0 & P0 & S0 & _); [by apply digit_range |].
    destruct (table_entry addr (digit c 12)) as (c1 & E1 & P1 & S1 & _); [by apply digit_range |].
    rewrite E0, E1 in Hcs. cbn [mbind option_bind] in Hcs. injection Hcs as <-.
    cbn in L0, L1, L2. unfold decode_step.
    rewrite bool_decide_true, (first_skip p q _ c0 Hg eq_refl S0) by done. cbn [mbind option_bind].
    rewrite bool_decide_false, L0 by lia. cbn [mbind option_bind].
    rewrite (skip_none _ _ _ _ c1) by (done || lia). cbn [mbind option_bind].
    rewrite bool_decide_false, L1 by lia. cbn [mbind option_bind].
    replace (q + 1 + 1) with (q + 2) by lia.
    rewrite (skip_none _ _ _ _ 61) by (done || lia || (vm_compute; done)). cbn [mbind option_bind].
    rewrite bool_decide_false, L2 by lia. cbn [mbind option_bind]. rewrite bool_decide_true by done.
    eexists. split; [| split; [simpl; lia | done]]. do 2 f_equal. f_equal; [f_equal; lia |].
    rewrite P0, P1. pose proof (digit_range c 18). pose proof (digit_range c 12).
    acc. rewrite Z.shiftl_mul_pow2, uwrap_small by lia.
    unfold emit. cbn [take Z.to_nat Z.sub]. simpl take. f_equal. f_equal.
    rewrite land_255, Z.shiftr_div_pow2, !digit_arith by lia. subst c. Zlia.
  - set (c := b0 * 65536 + b1 * 256) in *.
    destruct (table_entry addr (digit c 18)) as (c0 & E0 & P0 & S0 & _); [by apply digit_range |].
    destruct (table_entry addr (digit c 12)) as (c1 & E1 & P1 & S1 & _); [by apply digit_range |].
    destruct (table_entry addr (digit c 6)) as (c2 & E2 & P2 & S2 & N2 & _); [by apply digit_range |].
    rewrite E0, E1, E2 in Hcs. cbn [mbind option_bind] in Hcs. injection Hcs as <-.
    cbn in L0, L1, L2, L3. unfold decode_step.
    rewrite bool_decide_true, (first_skip p q _ c0 Hg eq_refl S0) by done. cbn [mbind option_bind].
    rewrite bool_decide_false, L0 by lia. cbn [mbind option_bind].
    rewrite (skip_none _ _ _ _ c1) by (done || lia). cbn [mbind option_bind].
    rewrite bool_decide_false, L1 by lia. cbn [mbind option_bind].
    replace (q + 1 + 1) with (q + 2) by lia.
    rewrite (skip_none _ _ _ _ c2) by (done || lia). cbn [mbind option_bind].
    rewrite bool_decide_false, L2 by lia. cbn [mbind option_bind]. rewrite bool_decide_false by done.
    replace (q + 2 + 1) with (q + 3) by lia.
    rewrite (skip_none _ _ _ _ 61) by (done || lia || (vm_compute; done)). cbn [mbind option_bind].
    rewrite bool_decide_false, L3 by lia. cbn [mbind option_bind]. rewrite bool_decide_true by done.
    eexists. split; [| split; [simpl; lia | done]]. do 2 f_equal. f_equal; [f_equal; lia |].
    rewrite P0, P1, P2. pose proof (digit_range c 18). pose proof (digit_range c 12).
    pose proof (digit_range c 6). acc.
    unfold emit. simpl take. f_equal.
    rewrite !land_255, !Z.shiftr_div_pow2, !digit_arith by lia. subst c. f_equal; [Zlia | f_equal; Zlia].
  - set (c := b0 * 65536 + b1 * 256 + b2) in *.
    destruct (table_entry addr (digit c 18)) as (c0 & E0 & P0 & S0 & _); [by apply digit_range |].
    destruct (table_entry addr (digit c 12)) as (c1 & E1 & P1 & S1 & _); [by apply digit_range |].
    destruct (table_entry addr (digit c 6)) as (c2 & E2 & P2 & S2 & N2 & _); [by apply digit_range |].
    destruct (table_entry addr (digit c 0)) as (c3 & E3 & P3 & S3 & N3 & _); [by apply digit_range |].
    rewrite E0, E1, E2, E3 in Hcs. cbn [mbind option_bind] in Hcs. injection Hcs as <-.
    cbn in L0, L1, L2, L3. unfold decode_step.
    rewrite bool_decide_true, (first_skip p q _ c0 Hg eq_refl S0) by done. cbn [mbind option_bind].
    rewrite bool_decide_false, L0 by lia. cbn [mbind option_bind].
    rewrite (skip_none _ _ _ _ c1) by (done || lia). cbn [mbind option_bind].
    rewrite bool_decide_false, L1 by lia. cbn [mbind option_bind].
    replace (q + 1 + 1) with (q + 2) by lia.
    rewrite (skip_none _ _ _ _ c2) by (done || lia). cbn [mbind option_bind].
    rewrite bool_decide_false, L2 by lia. cbn [mbind option_bind]. rewrite bool_decide_false by done.
    replace (q + 2 + 1) with (q + 3) by lia.
    rewrite (skip_none _ _ _ _ c3) by (done || lia). cbn [mbind option_bind].
    rewrite bool_decide_false, L3 by lia. cbn [mbind option_bind]. rewrite bool_decide_false by done.
    eexists. split; [| split; [done | simpl; lia]]. do 2 f_equal.
    rewrite P0, P1, P2, P3. pose proof (digit_range c 18). pose proof (digit_range c 12).
    pose proof (digit_range c 6). pose proof (digit_range c 0). acc.
    replace (q + 3 + 1) with (q + 4) by lia. f_equal.
    rewrite uwrap_small by lia. unfold emit. simpl take. f_equal.
    rewrite !land_255, !Z.shiftr_div_pow2, !digit_arith by lia. subst c.
    f_equal; [Zlia | f_equal; [Zlia | f_equal; Zlia]].
Qed.
End DecodeStep.

Lemma chars_of_total b : Forall byte b -> b <> [] -> exists cs, chars_of b = Some cs /\ length cs = 4%nat.
Proof.
  intros HF Hne. destruct b as [| b0 [| b1 [| b2 r]]]; [done | ..]; unfold chars_of;
    repeat match goal with |- context [load base64_table (digit ?c ?k)] =>
      let E := fresh "E" in
      destruct (table_entry 0 (digit c k)) as (? & E & _); [by apply digit_range | rewrite E]; clear E;
      cbn [mbind option_bind] end; by eexists.
Qed.

(** The length of what the loop writes for [k] groups when [4 * m] characters
    are on the current line. *)
Definition loop_length (k m : Z) : Z := if decide (k = 0) then 0 else 4 * k + (m + k - 1) / 19.

Lemma loop_length_step k m :
  0 < k -> 0 <= m <= 19 ->
  loop_length k m = (if decide (m = 19) then 1 + 4 + loop_length (k - 1) 1
                     else 4 + loop_length (k - 1) (m + 1)).
Proof. intros Hk Hm. unfold loop_length. repeat case_decide; Zlia. Qed.

Lemma drop3 (s : list Z) i : 0 <= i -> drop (Z.to_nat (i + 3)) s = drop 3 (drop (Z.to_nat i) s).
Proof. intros Hi. rewrite drop_drop. f_equal. lia. Qed.

(** The characters written from byte [i] on, and their decoding. *)
Lemma loop_roundtrip addr fuel s i m :
  Forall byte s -> 0 <= i -> 0 <= m <= 19 -> (length (drop (Z.to_nat i) s) <= fuel)%nat ->
  exists E, encode_loop fuel s (Z.of_nat (length s)) i (4 * m) = Some E /\
    Z.of_nat (length E) = loop_length ((Z.of_nat (length (drop (Z.to_nat i) s)) + 2) / 3) m /\
    forall pre post d f, (length E < f)%nat ->
      let n := Z.of_nat (length pre) + Z.of_nat (length E) in
      while_ f (decode_step addr (pre ++ E ++ post) n) (Z.of_nat (length pre), Z.of_nat (length pre), d)
      = Some (n, n, d ++ drop (Z.to_nat i) s).
Proof.
  intros HF. revert i m. induction fuel as [| fuel IH]; intros i m Hi Hm Hf.
  - exists []. assert (Hd : drop (Z.to_nat i) s = []) by (apply length_zero_iff_nil; lia).
    assert (Z.of_nat (length s) <= i).
    { apply (f_equal length) in Hd. rewrite length_drop in Hd. simpl in Hd. lia. }
    cbn [encode_loop]. bdec. rewrite Hd. split_and!; [done | done |].
    intros pre post d [| f] Hlen; [simpl in Hlen; lia |]. cbn [while_ decode_step length]. bdec.
    by rewrite app_nil_r, Z.add_0_r.
  - cbn [encode_loop]. case_bool_decide as Hlt.
    + set (r := drop (Z.to_nat i) s) in *.
      assert (Hr : r <> []).
      { intros Hr. apply (f_equal length) in Hr. unfold r in Hr. rewrite length_drop in Hr. simpl in Hr. lia. }
      assert (HFr : Forall byte r) by by apply Forall_drop.
      assert (Hlr : (0 < length r)%nat) by (destruct r; [done | simpl; lia]).
      destruct (chars_of_total r HFr Hr) as (cs & Ecs & Lcs).
      set (nl := if decide (m = 19) then [10] else []).
      set (m' := if decide (m = 19) then 1 else m + 1).
      assert (Hm' : 0 <= m' <= 19) by (unfold m'; destruct (decide (m = 19)); lia).
      assert (Hline : (if bool_decide (4 * m = 76) then ([10], 0) else ([], 4 * m)) = (nl, 4 * m' - 4)).
      { unfold nl, m'. destruct (decide (m = 19)); bdec; f_equal; lia. }
      rewrite Hline, (encode_group_spec s i r) by done. rewrite Ecs. cbn [mbind option_bind].
      replace (4 * m' - 4 + 4) with (4 * m') by lia.
      destruct (IH (i + 3) m') as (E & Ee & El & Ed); [lia | done | |].
      { rewrite drop3 by done. fold r. rewrite length_drop. lia. }
      rewrite drop3 in El, Ed by done. fold r in El, Ed. rewrite length_drop in El.
      rewrite Ee. cbn [mbind option_bind]. eexists. split; [done |].
      split.
      * rewrite !length_app, Lcs. rewrite loop_length_step by Zlia.
        replace (Z.of_nat (length nl + (4 + length E))) with
          (Z.of_nat (length nl) + 4 + Z.of_nat (length E)) by lia.
        rewrite El. unfold nl, m'.
        replace ((Z.of_nat (length r - 3) + 2) / 3) with ((Z.of_nat (length r) + 2) / 3 - 1) by Zlia.
        destruct (decide (m = 19)); cbn [length]; lia.
      * intros pre post d [| f] Hlen; [lia |]. rewrite !length_app, Lcs in *. cbv zeta.
        set (n := Z.of_nat (length pre) + Z.of_nat (length nl + (4 + length E))).
        set (src := pre ++ (nl ++ cs ++ E) ++ post).
        set (p := Z.of_nat (length pre)). set (q := p + Z.of_nat (length nl)).
        assert (Hnl : length nl = 0%nat \/ length nl = 1%nat) by (unfold nl; destruct (decide (m = 19)); simpl; lia).
        assert (Hload : forall k, (k < 4)%nat -> load src (q + Z.of_nat k) = cs !! k).
        { intros k Hk. unfold src, q, p. rewrite <- Z.add_assoc, load_app by (rewrite !length_app; lia).
          unfold load. rewrite decide_True by lia. rewrite lookup_app_r by lia.
          rewrite lookup_app_l by lia. f_equal. lia. }
        destruct (decode_group addr src n p q r cs d HFr Hr Ecs) as (j & Hstep & J3 & J2).
        { split_and!; [lia | | unfold n, q, p in *; lia | rewrite <- (Hload 0%nat) by lia; f_equal; lia |
            by apply (Hload 1%nat); lia | by apply (Hload 2%nat); lia | by apply (Hload 3%nat); lia].
          unfold q. destruct Hnl as [Hz | Hz]; rewrite Hz; [left; lia | right]. split; [lia |].
          unfold src, p. rewrite <- (Z.add_0_r (Z.of_nat (length pre))).
          rewrite load_app by (rewrite !length_app; lia). unfold nl in *. by destruct (decide (m = 19)). }
        cbn [while_]. fold n. rewrite Hstep.
        assert (Hj : j = q + 4).
        { destruct (decide (3 <= length r)%nat) as [H3 | H3]; [by apply J3 |].
          rewrite J2 by lia. assert (length E = 0%nat); [| unfold n, q, p; lia].
          apply Nat2Z.inj. rewrite El. replace (length r - 3)%nat with 0%nat by lia. done. }
        rewrite Hj. specialize (Ed (pre ++ nl ++ cs) post (d ++ take 3 r) f ltac:(lia)).
        cbv zeta in Ed. rewrite !length_app, Lcs in Ed.
        replace (Z.of_nat (length pre + (length nl + 4))) with (q + 4) in Ed by (unfold q, p; lia).
        replace (q + 4 + Z.of_nat (length E)) with n in Ed by (unfold n, q, p; lia).
        replace ((pre ++ nl ++ cs) ++ E ++ post) with src in Ed by (unfold src; by rewrite <- !app_assoc).
        rewrite Ed. rewrite <- app_assoc, take_drop. done.
    + exists []. assert (Hd : drop (Z.to_nat i) s = []) by (apply drop_ge; lia).
      rewrite Hd. split_and!; [done | done |].
      intros pre post d [| f] Hlen; [simpl in Hlen; lia |]. cbn [while_ decode_step length]. bdec.
      by rewrite app_nil_r, Z.add_0_r.
Qed.

(** ** Properties *)

(** C37 Round trip: for every byte string [my_base64_encode] terminates, fills
    exactly [my_base64_needed_encoded_length] characters (newlines and the
    terminating zero included), and [my_base64_decode] of the text gives the
    bytes back, returns their number and sets [*end_ptr] to the end of the text,
    wherever the table lies in memory. *)
Theorem base64_roundtrip addr s :
  Forall byte s -> Z.of_nat (length s) < 2 ^ 29 ->
  exists out, my_base64_encode s (Z.of_nat (length s)) = Some (out ++ [0]) /\
    Z.of_nat (length (out ++ [0])) = my_base64_needed_encoded_length (Z.of_nat (length s)) /\
    my_base64_decode addr (out ++ [0]) (Z.of_nat (length out)) =
      Some (Z.of_nat (length s), s, Z.of_nat (length out)).
Proof.
  intros HF Hlen. destruct (loop_roundtrip addr (length s) s 0 0 HF) as (E & Ee & El & Ed);
    [lia | lia | by rewrite drop_0 |].
  change (Z.to_nat 0) with 0%nat in *. rewrite drop_0 in *. exists E.
  unfold my_base64_encode. rewrite Nat2Z.id. change (4 * 0) with 0 in Ee. rewrite Ee.
  split; [done |]. split.
  - rewrite length_app. cbn [length]. rewrite Nat2Z.inj_add, El.
    unfold my_base64_needed_encoded_length, loop_length.
    rewrite Z.quot_div_nonneg by lia. case_decide as Hz.
    + rewrite Hz. done.
    + rewrite Z.quot_div_nonneg by Zlia. Zlia.
  - unfold my_base64_decode. specialize (Ed [] [0] [] (S (length E)) ltac:(lia)).
    cbn [length app] in Ed. rewrite Z.add_0_l in Ed. change (Z.of_nat 0) with 0 in Ed. rewrite Nat2Z.id. rewrite Ed.
    cbn [mbind option_bind]. bdec. rewrite swrap_small by (simpl; lia). done.
Qed.

Lemma base64_roundtrip_witness :
  exists out, my_base64_encode [1; 200; 3; 77] 4 = Some (out ++ [0]) /\
    Z.of_nat (length (out ++ [0])) = my_base64_needed_encoded_length 4 /\
    my_base64_decode 4096 (out ++ [0]) (Z.of_nat (length out)) =
      Some (4, [1; 200; 3; 77], Z.of_nat (length out)).
Proof.
  apply (base64_roundtrip 4096 [1; 200; 3; 77]); [repeat constructor; unfold byte; lia | simpl; lia].
Defined.

Lemma skip_space_range src len p i p' i' :
  i <= len -> skip_space src len p i = Some (p', i') -> i <= i' <= len.
Proof.
  intros Hi. unfold skip_space. remember (S (Z.to_nat (len - i))) as f eqn:Ef. clear Ef.
  revert p i Hi. induction f as [| f IH]; intros p i Hi; cbn [while_]; [done |].
  case_bool_decide as Hlt; [| intros; simplify_eq; lia].
  destruct (load src p) as [c |]; cbn [mbind option_bind]; [| done].
  destruct (my_isspace c) as [[|] |]; cbn [mbind option_bind]; try done.
  - intros H. apply IH in H; lia.
  - intros; simplify_eq; lia.
Qed.

(** Every pass keeps [i] at most [len], and leaves the loop at [len] only. *)
Lemma decode_step_range addr src len p i d :
  i <= len ->
  match decode_step addr src len (p, i, d) with
  | Some (Next (_, i', _)) => i' <= len
  | Some (Ret (_, i', _)) => i' = len
  | None => True
  end.
Proof.
  intros Hi. unfold decode_step. case_bool_decide as Hlt; [| lia].
  repeat match goal with
  | |- context [skip_space src len ?p ?i ≫= _] =>
      let E := fresh "E" in destruct (skip_space src len p i) as [[? ?] |] eqn:E;
        cbn [mbind option_bind]; [apply skip_space_range in E; [| lia] | done]
  | |- context [load src ?p ≫= _] => destruct (load src p); cbn [mbind option_bind]; [| done]
  | |- context [if bool_decide ?P then _ else _] => destruct (decide P); bdec
  end; lia.
Qed.

(** The decoder never reports an error: whatever the text (characters
    outside the alphabet, a truncated group), if [my_base64_decode] returns, its
    result is the number of bytes stored and not [-1]. *)
Theorem base64_decode_never_fails addr src len r d e :
  0 <= len -> my_base64_decode addr src len = Some (r, d, e) -> r = s32 (Z.of_nat (length d)).
Proof.
  intros Hlen. unfold my_base64_decode. remember (S (Z.to_nat len)) as f eqn:Ef. clear Ef.
  assert (Hgen : forall p i d0 p' i' d', i <= len ->
    while_ f (decode_step addr src len) (p, i, d0) = Some (p', i', d') -> i' = len).
  { induction f as [| f IH]; intros p i d0 p' i' d' Hi; cbn [while_]; [done |].
    pose proof (decode_step_range addr src len p i d0 Hi) as Hs.
    destruct (decode_step addr src len (p, i, d0)) as [[[[p1 i1] d1] | [[p1 i1] d1]] |]; [| | done].
    - by apply IH.
    - intros; by simplify_eq. }
  destruct (while_ _ _ _) as [[[p' i'] d'] |] eqn:E; cbn [mbind option_bind]; [| done].
  intros [= <- <- <-]. rewrite (Hgen _ _ _ _ _ _ Hlen E). by rewrite bool_decide_false by (intros H; by apply H).
Qed.

Lemma base64_decode_never_fails_witness : 0 = s32 (Z.of_nat (length (@nil Z))).
Proof.
  apply (base64_decode_never_fails 4096 [81; 85; 73] 3 0 [] 3); [lia | vm_compute; reflexivity].
Defined.

End Base64.
