(* ===== verification/IntStr.v ===== *)
(** * IntStr: integers and their decimal (or other) representation

    [strings/int2str.c], [strings/longlong2str.c], [strings/llstr.c] and
    [strings/my_strtoll10.c].  [long] is 32 bits and [longlong] 64 bits wide.
    Characters are their codes.  A routine that prints returns the characters
    it stores at [dst], the terminating zero included. *)
From stdpp Require Import base tactics option list numbers.
From Stdlib Require Import ZArith Lia.
From S2P Require Import Prelude.

Module IntStr.

(** ** Model: printing *)

Definition _dig_vec_upper : list Z := seqZ 48 10 ++ seqZ 65 26 ++ [0].
Definition _dig_vec_lower : list Z := seqZ 48 10 ++ seqZ 97 26 ++ [0].

Definition LONG_MAX : Z := 2 ^ 31 - 1.

(** [while (val != 0) { *--p = dig_vec[val % radix]; val /= radix; }]: [room] is
    what is left of [buffer] in front of [p], and the characters from [p] on are
    [acc]. *)
Fixpoint long_digits (room : nat) (dig_vec : list Z) (radix val : Z) (acc : list Z)
  : option (nat * list Z) :=
  if bool_decide (val <> 0)
  then
    match room with
    | O => None
    | S room =>
        let quot := Z.quot val radix in
        d ← load dig_vec (u8 (val - quot * radix));
        long_digits room dig_vec radix quot (d :: acc)
    end
  else Some (room, acc).

(** The inner [None] is the result [NullS] for a bad radix. *)
Definition int2str (val radix : Z) (upcase : bool) : option (option (list Z)) :=
  let dig_vec := if upcase then _dig_vec_upper else _dig_vec_lower in
  let go sign uval radix :=
    let new_val := s32 (uval / radix) in
    d ← load dig_vec (u8 (u32 (uval - u32 (u32 new_val * radix))));
    '(_, out) ← long_digits 63 dig_vec radix new_val [d; 0];
    Some (Some (sign ++ out)) in
  let uval := u32 val in
  if bool_decide (radix < 0)
  then if bool_decide (radix < -36) || bool_decide (radix > -2) then Some None
       else if bool_decide (val < 0) then go [45] (u32 (0 - uval)) (- radix)
       else go [] uval (- radix)
  else if bool_decide (radix > 36) || bool_decide (radix < 2) then Some None
  else go [] uval radix.

(** [while (val != 0) { new_val= val/10; *--p= '0' + ...; }]. *)
Fixpoint long_digits10 (room : nat) (val : Z) (acc : list Z) : option (nat * list Z) :=
  if bool_decide (val <> 0)
  then
    match room with
    | O => None
    | S room =>
        let new_val := Z.quot val 10 in
        long_digits10 room new_val (48 + s8 (val - new_val * 10) :: acc)
    end
  else Some (room, acc).

Definition int10_to_str (val radix : Z) : option (list Z) :=
  let uval := u32 val in
  let '(sign, uval) :=
    if bool_decide (radix < 0) && bool_decide (val < 0) then ([45], u32 (0 - uval))
    else ([], uval) in
  let new_val := s32 (uval / 10) in
  '(_, out) ← long_digits10 63 new_val [48 + s8 (u32 (uval - u32 (u32 new_val * 10))); 0];
  Some (sign ++ out).

(** [while (uval > LONG_MAX)], with 64-bit division. *)
Fixpoint ll_digits (room : nat) (dig_vec : list Z) (radix uval : Z) (acc : list Z)
  : option (nat * Z * list Z) :=
  if bool_decide (uval > LONG_MAX)
  then
    match room with
    | O => None
    | S room =>
        let quo := uval / radix in
        d ← load dig_vec (u32 (u64 (uval - u64 (quo * radix))));
        ll_digits room dig_vec radix quo (d :: acc)
    end
  else Some (room, uval, acc).

(** The part of [ll2str] and [longlong10_to_str] behind the sign. *)
Definition ll_print (dig_vec : list Z) (radix uval : Z) : option (list Z) :=
  if bool_decide (uval = 0) then Some [48; 0]
  else
    '(room, uval, acc) ← ll_digits 64 dig_vec radix uval [0];
    '(_, out) ← long_digits room dig_vec radix (s32 uval) acc;
    Some out.

Definition ll2str (val radix : Z) (upcase : bool) : option (option (list Z)) :=
  let dig_vec := if upcase then _dig_vec_upper else _dig_vec_lower in
  let uval := u64 val in
  let go sign uval radix := out ← ll_print dig_vec radix uval; Some (Some (sign ++ out)) in
  if bool_decide (radix < 0)
  then if bool_decide (radix < -36) || bool_decide (radix > -2) then Some None
       else if bool_decide (val < 0) then go [45] (u64 (0 - uval)) (- radix)
       else go [] uval (- radix)
  else if bool_decide (radix > 36) || bool_decide (radix < 2) then Some None
  else go [] uval radix.

Definition longlong10_to_str (val radix : Z) : option (list Z) :=
  let uval := u64 val in
  let '(sign, uval) :=
    if bool_decide (radix < 0) && bool_decide (val < 0) then ([45], u64 (0 - uval))
    else ([], uval) in
  out ← ll_print _dig_vec_upper 10 uval;
  Some (sign ++ out).

Definition llstr (value : Z) : option (list Z) := longlong10_to_str value (-10).
Definition ullstr (value : Z) : option (list Z) := longlong10_to_str value 10.

(** ** Model: [my_strtoll10] *)

Definition MY_ERRNO_EDOM : Z := 33.
Definition MY_ERRNO_ERANGE : Z := 34.
Definition ULONGLONG_MAX : Z := 2 ^ 64 - 1.
Definition LONGLONG_MIN : Z := - 2 ^ 63.
Definition MAX_NEGATIVE_NUMBER : Z := 2 ^ 63.
Definition INIT_CNT : Z := 9.
Definition LFACTOR : Z := 1000000000.
Definition LFACTOR1 : Z := 10000000000.
Definition LFACTOR2 : Z := 100000000000.
Definition lfactor : list Z :=
  [1; 10; 100; 1000; 10000; 100000; 1000000; 10000000; 100000000].

(** [c= ( *s-'0')], an [uchar]. *)
Definition digit_of (x : Z) : Z := u8 (x - 48).

(** [for (; s != n_end; s++)]: the digits are accumulated in an [ulong]; the
    flag tells that a character that is no digit ended the loop. *)
Fixpoint read_digits (n : nat) (str : list Z) (s acc : Z) : option (Z * Z * bool) :=
  match n with
  | O => Some (s, acc, false)
  | S n =>
      x ← load str s;
      let c := digit_of x in
      if bool_decide (c > 9) then Some (s, acc, true)
      else read_digits n str (s + 1) (u32 (u32 (acc * 10) + c))
  end.

(** The test of the last branch: more than the largest number. *)
Definition over20 (negative : bool) (i j k : Z) : bool :=
  let cutoff := if negative then MAX_NEGATIVE_NUMBER / LFACTOR2 else ULONGLONG_MAX / LFACTOR2 in
  let cutoff2 := if negative then MAX_NEGATIVE_NUMBER mod LFACTOR2 / 100
                 else ULONGLONG_MAX mod LFACTOR2 / 100 in
  let cutoff3 := if negative then MAX_NEGATIVE_NUMBER mod 100 else ULONGLONG_MAX mod 100 in
  bool_decide (i > cutoff) ||
    (bool_decide (i = cutoff) &&
     ((bool_decide (j > cutoff2) || bool_decide (j = cutoff2)) && bool_decide (k > cutoff3))).

(** Behind the first nine digits [i]: the next nine in [j], one or two in [k],
    and the labels [overflow], [end_i_and_j], [end3] and [end4].  The result,
    [*endptr] and [*error]. *)
Definition strtoll_rest (str : list Z) (end_ : Z) (negative : bool) (s i : Z)
  : option (Z * Z * Z) :=
  let error := if negative then -1 else 0 in
  let overflow s := Some (if negative then LONGLONG_MIN else s64 ULONGLONG_MAX, s, MY_ERRNO_ERANGE) in
  let result li s := Some (if negative then s64 (- s64 li) else s64 li, s, error) in
  let start := s in
  let true_end := s + INIT_CNT in
  let n_end := if bool_decide (true_end > end_) then end_ else true_end in
  '(s, j, stop) ← read_digits (Z.to_nat (n_end - s)) str s 0;
  let end_i_and_j := f ← load lfactor (s - start); result (u64 (u64 (i * f) + j)) s in
  let end3 := result (u64 (u64 (i * LFACTOR) + j)) s in
  if stop : bool then end_i_and_j
  else if bool_decide (s = end_)
  then (if bool_decide (s <> true_end) then end_i_and_j else end3)
  else
    x ← load str s;
    let c := digit_of x in
    if bool_decide (c > 9) then end3
    else
      let k := c in
      let s := s + 1 in
      '(c, no_more) ← (if bool_decide (s = end_) then Some (0, true)
                       else x ← load str s;
                            Some (digit_of x, bool_decide (digit_of x > 9)));
      if no_more : bool
      then
        let li := u64 (u64 (u64 (i * LFACTOR1) + u64 (j * 10)) + k) in
        if negative && bool_decide (li > MAX_NEGATIVE_NUMBER) then overflow s
        else result li s
      else
        let k := u32 (u32 (k * 10) + c) in
        let s := s + 1 in
        more ← (if bool_decide (s <> end_)
                then x ← load str s; Some (bool_decide (digit_of x <= 9)) else Some false);
        if more : bool then overflow s
        else if over20 negative i j k then overflow s
        else Some (s64 (u64 (u64 (u64 (i * LFACTOR2) + u64 (j * 100)) + k)), s, error).

(** From the digits on: [s] points behind the leading zeros (or behind the
    first digit, kept in [i]); the label [end_i]. *)
Definition strtoll_digits (str : list Z) (end_ : Z) (negative : bool) (s i n_end : Z)
  : option (Z * Z * Z) :=
  let error := if negative then -1 else 0 in
  let n_end := if bool_decide (n_end > end_) then end_ else n_end in
  '(s, i, stop) ← read_digits (Z.to_nat (n_end - s)) str s i;
  if (stop : bool) || bool_decide (s = end_)
  then Some (if negative then s64 (s32 (- s32 i)) else i, s, error)
  else strtoll_rest str end_ negative s i.

(** [do { if (++s == end) goto end_i; } while ( *s == '0')]: the flag tells
    that the end was reached. *)
Fixpoint skip_zeros (fuel : nat) (str : list Z) (end_ s : Z) : option (Z * bool) :=
  match fuel with
  | O => None
  | S fuel =>
      let s := s + 1 in
      if bool_decide (s = end_) then Some (s, true)
      else x ← load str s;
           if bool_decide (x = 48) then skip_zeros fuel str end_ s else Some (s, false)
  end.

(** [while (s != end && ( *s == ' ' || *s == '\t')) s++], without an end when
    [endptr] is null. *)
Fixpoint skip_blanks (fuel : nat) (str : list Z) (endptr : option Z) (s : Z) : option Z :=
  match fuel with
  | O => None
  | S fuel =>
      if bool_decide (endptr = Some s) then Some s
      else x ← load str s;
           if bool_decide (x = 32) || bool_decide (x = 9)
           then skip_blanks fuel str endptr (s + 1) else Some s
  end.

(** [endptr] is [None] for a null pointer and [Some end] for the end of the
    string otherwise.  The result, [*endptr] and [*error]. *)
Definition my_strtoll10 (str : list Z) (endptr : option Z) : option (Z * Z * Z) :=
  let no_conv := Some (0, 0, MY_ERRNO_EDOM) in
  s ← skip_blanks (S (length str)) str endptr 0;
  '(empty, end_) ← match endptr with
                   | Some end_ => Some (bool_decide (s = end_), end_)
                   | None => x ← load str s; Some (bool_decide (x = 0), s + 65535)
                   end;
  if empty : bool then no_conv
  else
    x ← load str s;
    let negative := bool_decide (x = 45) in
    let s := if bool_decide (x = 45) || bool_decide (x = 43) then s + 1 else s in
    if (bool_decide (x = 45) || bool_decide (x = 43)) && bool_decide (s = end_) then no_conv
    else
      x ← load str s;
      if bool_decide (x = 48)
      then
        '(s, at_end) ← skip_zeros (S (length str)) str end_ s;
        if at_end : bool then Some (0, s, if negative then -1 else 0)
        else strtoll_digits str end_ negative s 0 (s + INIT_CNT)
      else
        let c := digit_of x in
        if bool_decide (c > 9) then no_conv
        else strtoll_digits str end_ negative (s + 1) c (s + 1 + INIT_CNT - 1).

(** ** Specification: the digits of a number *)

(** The digits of [v] in front of [acc], most significant first. *)
Fixpoint push_digits (fuel : nat) (radix v : Z) (acc : list Z) : list Z :=
  match fuel with
  | O => acc
  | S fuel => if decide (v = 0) then acc else push_digits fuel radix (v / radix) (v mod radix :: acc)
  end.

(** The digits of [v < 2^64], at least one. *)
Definition digits (radix v : Z) : list Z :=
  if decide (v = 0) then [0] else push_digits 64 radix v [].

(** The character of a digit. *)
Definition digit_char (upcase : bool) (d : Z) : Z :=
  if decide (d < 10) then 48 + d else (if upcase then 65 else 97) + d - 10.

Definition print (upcase : bool) (radix v : Z) : list Z :=
  (digit_char upcase <$> digits radix v) ++ [0].

(** The value of a list of digits. *)
Definition value (radix : Z) (ds : list Z) : Z := fold_left (fun v d => v * radix + d) ds 0.

(** ** Lemmas: printing *)

Lemma dig_vec_spec (upcase : bool) d :
  0 <= d < 36 ->
  load (if upcase then _dig_vec_upper else _dig_vec_lower) d = Some (digit_char upcase d).
Proof.
  intros Hd.
  pose (P := fun d => (36 <=? d) || bool_decide (load _dig_vec_upper d = Some (digit_char true d)) &&
                      bool_decide (load _dig_vec_lower d = Some (digit_char false d))).
  assert (HP : forallb P (seqZ 0 36) = true) by (vm_compute; done).
  rewrite forallb_forall in HP. specialize (HP d). unfold P in HP.
  rewrite orb_true_iff, andb_true_iff, !bool_decide_eq_true in HP.
  destruct HP as [HP | [H1 H2]]; [by apply list_elem_of_In, elem_of_seqZ | lia | by destruct upcase].
Qed.

Lemma push_digits_app fuel radix v acc :
  push_digits fuel radix v acc = push_digits fuel radix v [] ++ acc.
Proof.
  revert v acc; induction fuel as [| fuel IH]; intros v acc; simpl; [done |].
  case_decide; [done |]. rewrite IH, (IH _ [_]), <- app_assoc. done.
Qed.

(** Enough fuel is enough. *)
Lemma push_digits_fuel f f' radix v acc :
  2 <= radix -> 0 <= v < 2 ^ Z.of_nat f -> (f <= f')%nat ->
  push_digits f radix v acc = push_digits f' radix v acc.
Proof.
  intros Hr. revert f' v acc; induction f as [| f IH]; intros f' v acc Hv Hf.
  - change (2 ^ Z.of_nat 0) with 1 in Hv. assert (v = 0) as -> by lia. by destruct f'.
  - destruct f' as [| f']; [lia |]. cbn [push_digits]. case_decide; [done |].
    apply IH; [| lia]. rewrite Nat2Z.inj_succ, Z.pow_succ_r in Hv by lia.
    split; [by apply Z.div_pos; lia |]. apply Z.div_lt_upper_bound; nia.
Qed.

(** The signed loop pushes the digits, and leaves room for nothing else. *)
Lemma long_digits_spec room (upcase : bool) radix v acc :
  2 <= radix <= 36 -> 0 <= v < 2 ^ Z.of_nat room ->
  exists room', long_digits room (if upcase then _dig_vec_upper else _dig_vec_lower) radix v acc =
    Some (room', (digit_char upcase <$> push_digits room radix v []) ++ acc).
Proof.
  intros Hr. revert v acc; induction room as [| room IH]; intros v acc Hv; cbn [long_digits].
  - change (2 ^ Z.of_nat 0) with 1 in Hv. bdec. by eexists.
  - cbn [push_digits]. case_bool_decide as Hz; [| assert (v = 0) as -> by lia; by eexists].
    rewrite decide_False by done. rewrite Z.quot_div_nonneg by lia.
    assert (Hm : v - v / radix * radix = v mod radix) by (rewrite Z.mod_eq by lia; lia).
    pose proof (Z.mod_pos_bound v radix). rewrite Hm, uwrap_small by lia.
    rewrite dig_vec_spec by lia. cbn [mbind option_bind].
    rewrite Nat2Z.inj_succ, Z.pow_succ_r in Hv by lia.
    destruct (IH (v / radix) (digit_char upcase (v mod radix) :: acc)) as [room' ->].
    { split; [by apply Z.div_pos; lia |]. apply Z.div_lt_upper_bound; nia. }
    exists room'. do 2 f_equal. rewrite (push_digits_app room _ _ [_]), fmap_app, <- app_assoc. done.
Qed.

Lemma long_digits10_is room val acc :
  0 <= val -> long_digits10 room val acc = long_digits room _dig_vec_upper 10 val acc.
Proof.
  revert val acc; induction room as [| room IH]; intros val acc Hv; cbn [long_digits long_digits10]; [done |].
  case_bool_decide; [| done]. rewrite Z.quot_div_nonneg by lia.
  rewrite uwrap_small by Zlia. rewrite (dig_vec_spec true) by Zlia. cbn [mbind option_bind].
  rewrite IH by Zlia. do 2 f_equal. rewrite swrap_small by (simpl; Zlia).
  unfold digit_char. by rewrite decide_True by Zlia.
Qed.

Lemma int2str_go (upcase : bool) radix uval :
  2 <= radix <= 36 -> 0 <= uval < 2 ^ 32 ->
  exists room, (d ← load (if upcase then _dig_vec_upper else _dig_vec_lower)
          (u8 (u32 (uval - u32 (u32 (s32 (uval / radix)) * radix))));
   long_digits 63 (if upcase then _dig_vec_upper else _dig_vec_lower) radix (s32 (uval / radix)) [d; 0])
  = Some (room, print upcase radix uval).
Proof.
  intros Hr Hu.
  assert (Hq : 0 <= uval / radix < 2 ^ 31).
  { split; [apply Z.div_pos; lia |]. apply Z.div_lt_upper_bound; nia. }
  assert (Hm : uval - uval / radix * radix = uval mod radix) by (rewrite Z.mod_eq by lia; lia).
  pose proof (Z.mod_pos_bound uval radix ltac:(lia)).
  assert (Hqr : 0 <= uval / radix * radix <= uval) by lia.
  rewrite swrap_small by (simpl; lia).
  rewrite (uwrap_small 32 (uval / radix)) by lia. unwrap. rewrite Hm. unwrap.
  rewrite dig_vec_spec by lia. cbn [mbind option_bind].
  destruct (long_digits_spec 63 upcase radix (uval / radix) [digit_char upcase (uval mod radix); 0])
    as [room ->]; [done | lia |].
  exists room. do 2 f_equal. unfold print, digits. case_decide as Hz.
  - subst uval. by rewrite Z.div_0_l, Z.mod_0_l by lia.
  - change (push_digits 64 radix uval []) with
      (if decide (uval = 0) then [] else push_digits 63 radix (uval / radix) [uval mod radix]).
    rewrite decide_False by done. rewrite (push_digits_app 63 radix (uval / radix) [uval mod radix]), fmap_app, <- app_assoc. done.
Qed.

Lemma ll_digits_spec room (upcase : bool) radix v acc :
  2 <= radix <= 36 -> 0 <= v < 2 ^ 64 -> v < 2 ^ Z.of_nat room ->
  exists room' w ds, ll_digits room (if upcase then _dig_vec_upper else _dig_vec_lower) radix v acc =
    Some (room', w, (digit_char upcase <$> ds) ++ acc) /\ 0 <= w <= LONG_MAX /\
    w < 2 ^ Z.of_nat room' /\
    (forall f tl, (room <= f)%nat -> exists f', (room' <= f')%nat /\
       push_digits f radix v tl = push_digits f' radix w (ds ++ tl)) /\ (w = 0 -> v = 0).
Proof.
  intros Hr. revert v acc; induction room as [| room IH]; intros v acc Hv Hb; cbn [ll_digits].
  - change (2 ^ Z.of_nat 0) with 1 in Hb. unfold LONG_MAX. bdec. exists 0%nat, v, [].
    split_and!; [done | lia | lia | done | | done]. intros f tl _. exists f. split; [lia | done].
  - unfold LONG_MAX in *. case_bool_decide as Hbig.
    + assert (Hm : v - v / radix * radix = v mod radix) by (rewrite Z.mod_eq by lia; lia).
      pose proof (Z.mod_pos_bound v radix ltac:(lia)).
      assert (Hqv : 0 <= v / radix * radix <= v) by lia.
      unwrap. rewrite Hm. unwrap. rewrite dig_vec_spec by lia. cbn [mbind option_bind].
      rewrite Nat2Z.inj_succ, Z.pow_succ_r in Hb by lia.
      assert (Hq : 0 <= v / radix <= v / 2).
      { split; [by apply Z.div_pos; lia |]. apply Z.div_le_compat_l; lia. }
      destruct (IH (v / radix) (digit_char upcase (v mod radix) :: acc))
        as (room' & w & ds & -> & Hw & Hwr & Hpush & Hz); [Zlia | Zlia |].
      exists room', w, (ds ++ [v mod radix]). split_and!; [| lia | lia | done | |].
      * rewrite fmap_app, <- app_assoc. done.
      * intros f tl Hf. destruct f as [| f]; [lia |]. cbn [push_digits].
        rewrite decide_False by lia. rewrite <- app_assoc. apply Hpush. lia.
      * intros ->. specialize (Hz eq_refl). exfalso.
        apply Z.div_small_iff in Hz; lia.
    + exists (S room), v, []. split_and!; [done | lia | lia | done | | done].
      intros f tl Hf. exists f. done.
Qed.

Lemma ll_print_spec (upcase : bool) radix v :
  2 <= radix <= 36 -> 0 <= v < 2 ^ 64 ->
  ll_print (if upcase then _dig_vec_upper else _dig_vec_lower) radix v = Some (print upcase radix v).
Proof.
  intros Hr Hv. unfold ll_print, print, digits. case_bool_decide as Hz; [by rewrite decide_True |].
  rewrite decide_False by done.
  destruct (ll_digits_spec 64 upcase radix v [0]) as (room & w & ds & -> & Hw & Hwr & Hpush & _);
    [done | done | simpl; lia |].
  cbn [mbind option_bind]. unfold LONG_MAX in Hw. rewrite swrap_small by (simpl; lia).
  destruct (long_digits_spec room upcase radix w ((digit_char upcase <$> ds) ++ [0])) as [room' ->];
    [done | lia |].
  cbn [mbind option_bind]. f_equal. rewrite app_assoc, <- fmap_app. do 2 f_equal.
  destruct (Hpush 64%nat [] ltac:(lia)) as (f' & Hf' & ->). rewrite app_nil_r.
  rewrite <- push_digits_app. apply push_digits_fuel; [lia | lia | done].
Qed.

Lemma push_digits_value fuel radix v acc k :
  2 <= radix -> 0 <= v < 2 ^ Z.of_nat fuel ->
  fold_left (fun v d => v * radix + d) (push_digits fuel radix v acc) k =
  fold_left (fun v d => v * radix + d) acc (k * radix ^ Z.of_nat (length (push_digits fuel radix v [])) + v).
Proof.
  intros Hr. revert v acc; induction fuel as [| fuel IH]; intros v acc Hv; cbn [push_digits].
  - change (2 ^ Z.of_nat 0) with 1 in Hv. f_equal. simpl. lia.
  - case_decide as Hz; [f_equal; simpl; lia |].
    rewrite Nat2Z.inj_succ, Z.pow_succ_r in Hv by lia.
    rewrite IH by (split; [by apply Z.div_pos; lia | apply Z.div_lt_upper_bound; nia]).
    cbn [fold_left]. f_equal. rewrite (push_digits_app fuel _ _ [_]), length_app. cbn [length].
    rewrite Nat2Z.inj_add, Z.pow_add_r by lia. change (Z.of_nat 1) with 1. rewrite Z.pow_1_r.
    pose proof (Z.div_mod v radix ltac:(lia)). nia.
Qed.

Lemma push_digits_range fuel radix v acc :
  2 <= radix -> 0 <= v -> Forall (fun d => 0 <= d < radix) acc ->
  Forall (fun d => 0 <= d < radix) (push_digits fuel radix v acc).
Proof.
  intros Hr. revert v acc; induction fuel as [| fuel IH]; intros v acc Hv HF; cbn [push_digits]; [done |].
  case_decide; [done |]. apply IH; [by apply Z.div_pos; lia |]. constructor; [apply Z.mod_pos_bound; lia | done].
Qed.

Lemma push_digits_length fuel radix v : (length (push_digits fuel radix v []) <= fuel)%nat.
Proof.
  revert v; induction fuel as [| fuel IH]; intros v; cbn [push_digits]; [simpl; lia |].
  case_decide; [simpl; lia |]. rewrite push_digits_app, length_app. cbn [length].
  specialize (IH (v / radix)). lia.
Qed.

Lemma digits_value radix v : 2 <= radix -> 0 <= v < 2 ^ 64 -> value radix (digits radix v) = v.
Proof.
  intros Hr Hv. unfold value, digits. case_decide; [by subst |].
  rewrite push_digits_value by (change (Z.of_nat 64) with 64; lia). cbn [fold_left]. lia.
Qed.

Lemma digits_range radix v : 2 <= radix -> 0 <= v -> Forall (fun d => 0 <= d < radix) (digits radix v).
Proof.
  intros Hr Hv. unfold digits. case_decide; [constructor; [lia | done] |]. by apply push_digits_range.
Qed.

(** No leading zero. *)
Lemma push_digits_head fuel radix v acc :
  2 <= radix -> 0 < v < 2 ^ Z.of_nat fuel -> exists d tl, push_digits fuel radix v acc = d :: tl /\ 0 < d.
Proof.
  intros Hr. revert v acc; induction fuel as [| fuel IH]; intros v acc Hv.
  - change (2 ^ Z.of_nat 0) with 1 in Hv. lia.
  - cbn [push_digits]. rewrite decide_False by lia. rewrite Nat2Z.inj_succ, Z.pow_succ_r in Hv by lia.
    destruct (decide (v < radix)) as [Hlt | Hge].
    + rewrite (Z.div_small v), (Z.mod_small v) by lia. exists v, acc. split; [by destruct fuel | lia].
    + apply IH. split; [apply Z.div_str_pos; lia |]. apply Z.div_lt_upper_bound; nia.
Qed.

(** ** Lemmas: parsing *)

(** At [s] there are the digits [ds], and behind them the end of the string or
    a character that is no digit. *)
Record digits_at (str : list Z) (end_ s : Z) (ds : list Z) : Prop := {
  d_pos : 0 <= s;
  d_range : Forall (fun d => 0 <= d < 10) ds;
  d_load : forall k d, ds !! k = Some d -> load str (s + Z.of_nat k) = Some (48 + d);
  d_fits : s + Z.of_nat (length ds) <= end_;
  d_stop : s + Z.of_nat (length ds) = end_ \/
           exists x, load str (s + Z.of_nat (length ds)) = Some x /\ digit_of x > 9
}.

Lemma digit_of_char d : 0 <= d < 10 -> digit_of (48 + d) = d.
Proof. intros. unfold digit_of. replace (48 + d - 48) with d by lia. apply uwrap_small. lia. Qed.

Lemma digits_at_tail str end_ s d ds :
  digits_at str end_ s (d :: ds) ->
  digits_at str end_ (s + 1) ds /\ load str s = Some (48 + d) /\ 0 <= d < 10 /\ s < end_.
Proof.
  intros [H1 H2 H3 H4 H5]. apply Forall_cons_1 in H2 as [Hd H2]. cbn [length] in *.
  split_and!; [| | lia | lia | lia].
  - split; [lia | done | | lia |].
    + intros k x Hk. replace (s + 1 + Z.of_nat k) with (s + Z.of_nat (S k)) by lia. by apply H3.
    + destruct H5 as [? | (x & ? & ?)]; [left; lia | right]. exists x.
      replace (s + 1 + Z.of_nat (length ds)) with (s + Z.of_nat (S (length ds))) by lia. done.
  - specialize (H3 0%nat d eq_refl). by rewrite Z.add_0_r in H3.
Qed.

Lemma digits_at_drop str end_ s ds k :
  (k <= length ds)%nat -> digits_at str end_ s ds -> digits_at str end_ (s + Z.of_nat k) (drop k ds).
Proof.
  revert s ds; induction k as [| k IH]; intros s ds Hk H.
  - by rewrite Z.add_0_r, drop_0.
  - destruct ds as [| d ds]; [simpl in Hk; lia |]. apply digits_at_tail in H as [H _]. simpl.
    replace (s + Z.of_nat (S k)) with (s + 1 + Z.of_nat k) by lia. apply IH; [simpl in Hk; lia | done].
Qed.

Lemma value_cons d ds : value 10 (d :: ds) = d * 10 ^ Z.of_nat (length ds) + value 10 ds.
Proof.
  unfold value. cbn [fold_left]. 
  assert (H : forall v, fold_left (fun v d => v * 10 + d) ds v =
    v * 10 ^ Z.of_nat (length ds) + fold_left (fun v d => v * 10 + d) ds 0).
  { induction ds as [| x ds IH]; intros v; [simpl; lia |]. cbn [fold_left length].
    rewrite (IH (v * 10 + x)), (IH (0 * 10 + x)). rewrite Nat2Z.inj_succ, Z.pow_succ_r by lia. lia. }
  rewrite H. lia.
Qed.

Lemma value_app l1 l2 : value 10 (l1 ++ l2) = value 10 l1 * 10 ^ Z.of_nat (length l2) + value 10 l2.
Proof.
  induction l1 as [| d l1 IH]; [unfold value; simpl; lia |]. cbn [app].
  rewrite !value_cons, IH, length_app, Nat2Z.inj_add, Z.pow_add_r by lia. lia.
Qed.

Lemma value_range ds :
  Forall (fun d => 0 <= d < 10) ds -> 0 <= value 10 ds < 10 ^ Z.of_nat (length ds).
Proof.
  induction 1 as [| d ds Hd HF IH]; [unfold value; simpl; lia |].
  rewrite value_cons. cbn [length]. rewrite Nat2Z.inj_succ, Z.pow_succ_r by lia. nia.
Qed.

(** Reading up to nine digits of [ds]. *)
Lemma read_digits_spec n str end_ s ds acc p :
  digits_at str end_ s ds -> s + Z.of_nat n <= end_ -> 0 <= acc < 10 ^ p -> 0 <= p ->
  p + Z.of_nat n <= 9 ->
  let m := Nat.min n (length ds) in
  read_digits n str s acc =
    Some (s + Z.of_nat m, acc * 10 ^ Z.of_nat m + value 10 (take m ds),
          bool_decide (length ds < n)%nat).
Proof.
  revert s ds acc p; induction n as [| n IH]; intros s ds acc p H Hend Hacc Hp Hpn m.
  - unfold m. cbn [read_digits Nat.min take]. bdec. unfold value. cbn [fold_left].
    change (Z.of_nat 0) with 0. rewrite Z.pow_0_r. f_equal. f_equal. rewrite take_0. simpl. f_equal; lia.
  - cbn [read_digits]. destruct ds as [| d ds].
    + unfold m. cbn [Nat.min length take]. destruct H as [_ _ _ _ [Hs | (x & Hx & Hgt)]]; [cbn [length] in Hs; lia |].
      cbn [length] in Hx. rewrite Z.add_0_r in Hx. rewrite Hx. cbn [mbind option_bind].
      unfold value. cbn [fold_left]. bdec. change (Z.of_nat 0) with 0. rewrite Z.pow_0_r.
      f_equal. f_equal. f_equal; lia.
    + apply digits_at_tail in H as (H & Hx & Hd & Hlt). rewrite Hx. cbn [mbind option_bind].
      rewrite digit_of_char by done. rewrite bool_decide_false by lia.
      assert (Hp9 : 10 ^ (p + 1) <= 10 ^ 9) by (apply Z.pow_le_mono_r; lia).
      rewrite Z.pow_add_r in Hp9 by lia.
      unwrap. rewrite (IH (s + 1) ds (acc * 10 + d) (p + 1)); [| done | lia | | lia | lia].
      * unfold m. cbn [Nat.min length take]. rewrite value_cons, length_take.
        set (q := Nat.min n (length ds)).
        rewrite (Nat.min_l q) by lia. f_equal. f_equal; [f_equal; [lia |] |].
        -- rewrite Nat2Z.inj_succ, Z.pow_succ_r by lia. lia.
        -- apply bool_decide_ext. lia.
      * rewrite Z.pow_add_r by lia. lia.
Qed.

(** What a call on a number of [n] digits and value [v] may return. *)
Definition parsed (negative : bool) (n v stop : Z) (r : option (Z * Z * Z)) : Prop :=
  if negative
  then (v <= 2 ^ 63 -> r = Some (s64 (- v), stop, -1)) /\
       (2 ^ 63 < v -> exists e, r = Some (LONGLONG_MIN, e, MY_ERRNO_ERANGE))
  else (v < 2 ^ 64 -> r = Some (s64 v, stop, 0)) /\
       (20 < n -> exists e, r = Some (s64 ULONGLONG_MAX, e, MY_ERRNO_ERANGE)).

Lemma parsed_small negative n v stop :
  0 <= v < 2 ^ 63 -> n <= 20 ->
  parsed negative n v stop (Some (if negative then s64 (- s64 v) else s64 v, stop, if negative then -1 else 0)).
Proof.
  intros Hv Hn. unfold parsed. rewrite !(swrap_small 64 v) by (simpl; lia).
  destruct negative; split; intros; done || lia.
Qed.

Lemma strtoll_first negative n i stop :
  0 <= i < 10 ^ 9 -> n <= 20 ->
  parsed negative n i stop (Some (if negative then s64 (s32 (- s32 i)) else i, stop, if negative then -1 else 0)).
Proof.
  intros Hi Hn. rewrite (swrap_small 32 i), (swrap_small 32 (- i)) by (simpl; lia).
  pose proof (parsed_small negative n i stop) as H. rewrite !(swrap_small 64 i) in H by (simpl; lia).
  apply H; lia.
Qed.

Lemma lfactor_spec k : (k <= 8)%nat -> load lfactor (Z.of_nat k) = Some (10 ^ Z.of_nat k).
Proof. intros Hk. do 9 (destruct k as [| k]; [done |]). lia. Qed.

Lemma over20_neg i j k : 10 ^ 8 <= i -> over20 true i j k = true.
Proof. intros Hi. unfold over20. cbv zeta. 
  replace (MAX_NEGATIVE_NUMBER / LFACTOR2) with 92233720 by (vm_compute; reflexivity).
  by rewrite bool_decide_true by lia.
Qed.

Lemma over20_pos i j k :
  0 <= j -> 0 <= k -> i * LFACTOR2 + j * 100 + k < 2 ^ 64 -> over20 false i j k = false.
Proof.
  intros Hj Hk Hv. unfold over20, LFACTOR2 in *. cbv zeta.
  replace (ULONGLONG_MAX / 100000000000) with 184467440 by (vm_compute; reflexivity).
  replace (ULONGLONG_MAX mod 100000000000 / 100) with 737095516 by (vm_compute; reflexivity).
  replace (ULONGLONG_MAX mod 100) with 15 by (vm_compute; reflexivity).
  rewrite (bool_decide_false (i > _)) by lia. case_bool_decide; [| done]. simpl.
  destruct (decide (j < 737095516)).
  - by rewrite !bool_decide_false by lia.
  - rewrite (bool_decide_false (k > 15)) by lia. by rewrite andb_false_r.
Qed.

Lemma nine (l : list Z) k : (k <= length l)%nat -> length (take k l) = k.
Proof. intros. rewrite length_take. lia. Qed.

(** The first nine digits. *)
Lemma strtoll_part1 str end_ s ds pre n_end :
  digits_at str end_ s ds -> Forall (fun d => 0 <= d < 10) pre -> (length pre <= 1)%nat ->
  n_end = Z.min end_ (s + 9 - Z.of_nat (length pre)) ->
  let q := Nat.min (9 - length pre) (length ds) in
  exists stop, read_digits (Z.to_nat (n_end - s)) str s (value 10 pre) =
    Some (s + Z.of_nat q, value 10 (pre ++ take q ds), stop) /\
    0 <= value 10 (pre ++ take q ds) < 10 ^ 9 /\
    (stop || bool_decide (s + Z.of_nat q = end_) = true -> q = length ds) /\
    (stop || bool_decide (s + Z.of_nat q = end_) = false -> length (pre ++ take q ds) = 9%nat).
Proof.
  intros Hd Hpre Hp -> q. pose proof (d_fits _ _ _ _ Hd). pose proof (d_stop _ _ _ _ Hd) as Hstop.
  rewrite (read_digits_spec _ str end_ s ds (value 10 pre) (Z.of_nat (length pre)));
    [| done | lia | by apply value_range | lia | lia].
  set (n := Z.to_nat _).
  assert (Hq : Nat.min n (length ds) = q) by (unfold n, q; lia).
  rewrite Hq. eexists. split.
  { do 3 f_equal. rewrite value_app. rewrite length_take. rewrite Nat.min_l by (unfold q; lia). done. }
  split_and!.
  - apply value_range. apply Forall_app. split; [done | apply Forall_take, Hd].
  - pose proof (value_range (pre ++ take q ds)) as Hr. rewrite length_app, length_take in Hr.
    assert (10 ^ Z.of_nat (length pre + q `min` length ds) <= 10 ^ 9)
      by (apply Z.pow_le_mono_r; unfold q; lia).
    destruct Hr; [apply Forall_app; split; [done | apply Forall_take, Hd] | lia].
  - rewrite orb_true_iff, !bool_decide_eq_true. unfold q, n. lia.
  - rewrite orb_false_iff, !bool_decide_eq_false. intros [H1 H2].
    rewrite length_app, length_take. unfold q, n in *.
    destruct Hstop as [Hs | (x & Hx & Hgt)]; lia.
Qed.

Lemma low_bound m0 m i rest b :
  10 ^ 8 <= i -> 0 <= rest -> (m0 <= m)%nat -> b < 10 ^ (17 + Z.of_nat m0) ->
  b < i * 10 ^ Z.of_nat (9 + m) + rest.
Proof.
  intros Hi Hr Hm Hb.
  assert (10 ^ (17 + Z.of_nat m0) <= 10 ^ (17 + Z.of_nat m)) by (apply Z.pow_le_mono_r; lia).
  replace (17 + Z.of_nat m) with (8 + Z.of_nat (9 + m)) in H by lia.
  rewrite (Z.pow_add_r 10 8) in H by lia.
  pose proof (Z.pow_pos_nonneg 10 (Z.of_nat (9 + m)) ltac:(lia) ltac:(lia)).
  pose proof (Z.mul_le_mono_nonneg_r (10 ^ 8) i (10 ^ Z.of_nat (9 + m)) ltac:(lia) Hi). lia.
Qed.

Ltac value_nonneg := repeat apply Z.add_nonneg_nonneg; try apply Z.mul_nonneg_nonneg; lia.

(** The remaining digits, behind nine digits of value [i]. *)
Lemma strtoll_rest_spec str end_ negative s ds D :
  digits_at str end_ s ds -> s <> end_ -> Forall (fun d => 0 <= d < 10) D -> length D = 9%nat ->
  10 ^ 8 <= value 10 D ->
  parsed negative (Z.of_nat (length (D ++ ds))) (value 10 (D ++ ds)) (s + Z.of_nat (length ds))
    (strtoll_rest str end_ negative s (value 10 D)).
Proof.
  intros Hd Hne HF HD Hi8. pose proof (d_fits _ _ _ _ Hd) as Hfit. pose proof (d_stop _ _ _ _ Hd) as Hstop.
  pose proof (value_range D HF) as Hi. rewrite HD in Hi. change (10 ^ Z.of_nat 9) with (10 ^ 9) in Hi.
  unfold strtoll_rest, INIT_CNT. cbv zeta.
  set (n_end := if bool_decide (s + 9 > end_) then end_ else s + 9).
  assert (Hn : n_end = Z.min end_ (s + 9)) by (unfold n_end; case_bool_decide; lia). clearbody n_end.
  rewrite (read_digits_spec _ str end_ s ds 0 0) by (done || lia). cbn [mbind option_bind].
  rewrite !Z.mul_0_l, !Z.add_0_l. set (q := Nat.min _ (length ds)).
  rewrite value_app, length_app, HD. set (i := value 10 D) in *.
  assert (Hq : q = Nat.min 9 (length ds)) by (unfold q; lia). clearbody q. subst q.
  pose proof (value_range (take 9 ds) ltac:(apply Forall_take, Hd)) as Hj.
  destruct (decide (length ds < 9)%nat) as [Hshort | Hlong].
  - (* fewer than eighteen digits *)
    rewrite !Nat.min_r by lia. rewrite take_ge in * by lia.
    assert (Hp8 : 10 ^ Z.of_nat (length ds) <= 10 ^ 8) by (apply Z.pow_le_mono_r; lia).
    replace (s + Z.of_nat (length ds) - s) with (Z.of_nat (length ds)) by lia.
    rewrite lfactor_spec by lia. cbn [mbind option_bind].
    assert (Hv : 0 <= i * 10 ^ Z.of_nat (length ds) < 10 ^ 17) by nia.
    unwrap.
    assert (Hres : parsed negative (Z.of_nat (9 + length ds)) (i * 10 ^ Z.of_nat (length ds) + value 10 ds)
      (s + Z.of_nat (length ds))
      (Some (if negative then s64 (- s64 (i * 10 ^ Z.of_nat (length ds) + value 10 ds))
             else s64 (i * 10 ^ Z.of_nat (length ds) + value 10 ds), s + Z.of_nat (length ds),
             if negative then -1 else 0))) by (apply parsed_small; lia).
    case_bool_decide; [exact Hres |]. rewrite (bool_decide_true (_ = end_)) by lia.
    by rewrite bool_decide_true by lia.
  - rewrite !Nat.min_l by lia. rewrite nine in * by lia. change (Z.of_nat 9) with 9 in *.
    set (j := value 10 (take 9 ds)) in *. change (10 ^ Z.of_nat 9) with (10 ^ 9) in Hj.
    rewrite (bool_decide_false (length ds < _)%nat) by lia.
    pose proof (digits_at_drop str end_ s ds 9 ltac:(lia) Hd) as Hd3. change (Z.of_nat 9) with 9 in Hd3.
    assert (HV : value 10 ds = j * 10 ^ Z.of_nat (length (drop 9 ds)) + value 10 (drop 9 ds))
      by (unfold j; rewrite <- value_app; by rewrite take_drop).
    assert (HL : length ds = (9 + length (drop 9 ds))%nat) by (rewrite length_drop; lia).
    rewrite HV, HL. clear HV. set (ds3 := drop 9 ds) in *. clearbody ds3 j.
    unfold LFACTOR, LFACTOR1. unwrap.
    destruct ds3 as [| k ds3].
    + (* eighteen digits *)
      assert (Hres : parsed negative (Z.of_nat (9 + (9 + 0))) (i * 10 ^ Z.of_nat (9 + 0) + (j * 10 ^ Z.of_nat 0 + value 10 []))
        (s + Z.of_nat (9 + 0))
        (Some (if negative then s64 (- s64 (i * 1000000000 + j)) else s64 (i * 1000000000 + j), s + 9,
             if negative then -1 else 0))).
      { change (value 10 []) with 0. replace (s + Z.of_nat (9 + 0)) with (s + 9) by lia.
        replace (i * 10 ^ Z.of_nat (9 + 0) + (j * 10 ^ Z.of_nat 0 + 0)) with (i * 1000000000 + j)
          by (change (10 ^ Z.of_nat (9 + 0)) with 1000000000; change (10 ^ Z.of_nat 0) with 1; lia).
        apply parsed_small; lia. }
      cbn [length] in *. case_bool_decide; [by rewrite bool_decide_false by (intros H'; by apply H') |].
      destruct (d_stop _ _ _ _ Hd3) as [Hs | (x & Hx & Hgt)]; [cbn [length] in Hs; lia |].
      cbn [length] in Hx. rewrite Z.add_0_r in Hx. rewrite Hx. cbn [mbind option_bind].
      by rewrite bool_decide_true by done.
    + apply digits_at_tail in Hd3 as (Hd4 & Hx & Hk & Hlt). rewrite (bool_decide_false (s + 9 = end_)) by lia.
      rewrite Hx. cbn [mbind option_bind]. rewrite digit_of_char by done.
      rewrite bool_decide_false by lia. cbn [length].
      destruct ds3 as [| k2 ds3].
      * (* nineteen digits *)
        assert (Hno : (if bool_decide (s + 9 + 1 = end_) then Some (0, true)
          else x ← load str (s + 9 + 1); Some (digit_of x, bool_decide (digit_of x > 9)))
          = Some (if bool_decide (s + 9 + 1 = end_) then 0 else digit_of (at_ str (s + 9 + 1)), true)).
        { case_bool_decide; [done |].
          destruct (d_stop _ _ _ _ Hd4) as [Hs | (x & Hx' & Hgt)]; [cbn [length] in Hs; lia |].
          cbn [length] in Hx'. rewrite Z.add_0_r in Hx'. unfold at_. rewrite Hx'. cbn.
          by rewrite bool_decide_true. }
        rewrite Hno. clear Hno. cbn [mbind option_bind].
        rewrite value_cons. change (value 10 []) with 0. cbn [length].
        change (10 ^ Z.of_nat 0) with 1. change (10 ^ Z.of_nat 1) with 10.
        change (10 ^ Z.of_nat (9 + 1)) with 10000000000.
        replace (i * 10000000000 + (j * 10 + (k * 1 + 0))) with (i * 10000000000 + j * 10 + k) by lia.
        unwrap. unfold MAX_NEGATIVE_NUMBER. replace (s + Z.of_nat (9 + 1)) with (s + 9 + 1) by lia.
        set (V := i * 10000000000 + j * 10 + k). assert (0 <= V < 10 ^ 19) by (unfold V; lia).
        destruct negative; cbn [andb].
        -- case_bool_decide; split; intros; try lia; [by eexists |].
           do 2 f_equal. f_equal. unfold swrap. Zlia.
        -- split; intros; [done | lia].
      * apply digits_at_tail in Hd4 as (Hd5 & Hx2 & Hk2 & Hlt2).
        rewrite (bool_decide_false (s + 9 + 1 = end_)) by lia. rewrite Hx2. cbn [mbind option_bind].
        rewrite digit_of_char, bool_decide_false by lia. unwrap.
        rewrite !value_cons. cbn [length].
        pose proof (value_range ds3 ltac:(apply Hd5)) as Hv3.
        destruct negative.
        -- (* negative: always out of range *)
           rewrite over20_neg by lia.
           assert (Hm : exists b, (if bool_decide (s + 9 + 1 + 1 <> end_)
             then x ← load str (s + 9 + 1 + 1); Some (bool_decide (digit_of x <= 9)) else Some false) = Some b).
           { case_bool_decide as He; [| by eexists]. destruct ds3 as [| k3 ds3].
             - destruct (d_stop _ _ _ _ Hd5) as [Hs | (x & Hx' & _)]; cbn [length] in *; [lia |].
               rewrite Z.add_0_r in Hx'. rewrite Hx'. by eexists.
             - apply digits_at_tail in Hd5 as (_ & -> & _). by eexists. }
           destruct Hm as [b ->]. cbn [mbind option_bind].
           split; [| intros _; destruct b; by eexists]. intros HV. exfalso. revert HV.
           apply Z.lt_nge, (low_bound 2 (S (S (length ds3)))); lia || value_nonneg.
        -- destruct ds3 as [| k3 ds3].
           ++ (* twenty digits *)
              assert (Hm : (if bool_decide (s + 9 + 1 + 1 <> end_)
                then x ← load str (s + 9 + 1 + 1); Some (bool_decide (digit_of x <= 9)) else Some false) = Some false).
              { case_bool_decide as He; [| done].
                destruct (d_stop _ _ _ _ Hd5) as [Hs | (x & Hx' & Hgt)]; cbn [length] in *; [lia |].
                rewrite Z.add_0_r in Hx'. rewrite Hx'. cbn. by rewrite bool_decide_false by lia. }
              rewrite Hm. cbn [mbind option_bind length]. change (value 10 []) with 0.
              change (10 ^ Z.of_nat 0) with 1. change (10 ^ Z.of_nat 1) with 10. change (10 ^ Z.of_nat 2) with 100.
              change (10 ^ Z.of_nat (9 + 2)) with LFACTOR2.
              replace (i * LFACTOR2 + (j * 100 + (k * 10 + (k2 * 1 + 0)))) with
                (i * LFACTOR2 + j * 100 + (k * 10 + k2)) by lia.
              split; [| intros; lia]. intros HV. rewrite over20_pos by lia.
              unfold LFACTOR2 in *. unwrap. do 2 f_equal. f_equal. lia.
           ++ (* more *)
              apply digits_at_tail in Hd5 as (_ & Hx3 & Hk3 & Hlt3).
              rewrite bool_decide_true, Hx3 by lia. cbn [mbind option_bind].
              rewrite digit_of_char, bool_decide_true by lia. split; [| intros; by eexists].
              intros HV. exfalso. revert HV.
              apply Z.le_ngt, Z.lt_le_incl, (low_bound 3 (S (S (S (length ds3))))); lia || value_nonneg.
Qed.

Lemma strtoll_digits_spec str end_ negative s ds pre :
  digits_at str end_ s ds -> Forall (fun d => 0 <= d < 10) pre -> (length pre <= 1)%nat ->
  ((0 < length (pre ++ ds))%nat -> exists d tl, pre ++ ds = d :: tl /\ 0 < d) ->
  parsed negative (Z.of_nat (length (pre ++ ds))) (value 10 (pre ++ ds)) (s + Z.of_nat (length ds))
    (strtoll_digits str end_ negative s (value 10 pre) (s + INIT_CNT - Z.of_nat (length pre))).
Proof.
  intros Hd Hpre Hp Hlead. unfold strtoll_digits. cbv zeta.
  set (n1 := if bool_decide (s + INIT_CNT - Z.of_nat (length pre) > end_) then end_ else _).
  destruct (strtoll_part1 str end_ s ds pre n1) as (stop & -> & Hi & Hend & Hcont);
    [done .. | unfold n1, INIT_CNT; case_bool_decide; lia |].
  set (q := Nat.min (9 - length pre) (length ds)) in *. cbn [mbind option_bind].
  destruct (stop || bool_decide (s + Z.of_nat q = end_)) eqn:E1.
  { specialize (Hend eq_refl). rewrite Hend, take_ge in * by lia. apply strtoll_first; [done |].
    rewrite length_app. unfold q in Hend. lia. }
  clear Hend. specialize (Hcont eq_refl). apply orb_false_iff in E1 as [_ E1%bool_decide_eq_false].
  assert (Hq : (q <= length ds)%nat) by lia.
  assert (HD : pre ++ ds = (pre ++ take q ds) ++ drop q ds) by (by rewrite <- app_assoc, take_drop).
  assert (HF : Forall (fun d => 0 <= d < 10) (pre ++ take q ds))
    by (apply Forall_app; split; [done | apply Forall_take, Hd]).
  replace (s + Z.of_nat (length ds)) with (s + Z.of_nat q + Z.of_nat (length (drop q ds)))
    by (rewrite length_drop; lia).
  rewrite HD in *. apply strtoll_rest_spec; [by apply digits_at_drop | done | done | done |].
  destruct Hlead as (d & tl & Ed & Hd0); [rewrite length_app; lia |].
  destruct (pre ++ take q ds) as [| d' D1]; [done |]. injection Ed as -> _.
  apply Forall_cons_1 in HF as [_ HF%value_range]. rewrite value_cons. cbn [length] in Hcont.
  replace (length D1) with 8%nat in * by lia. change (Z.of_nat 8) with 8. lia.
Qed.

(** A number in a string: blanks, a sign, zeros and the digits [ds]. *)
Record number_at (str : list Z) (endptr : option Z) (b : nat) (sign : list Z) (z : nat) (ds : list Z) : Prop := {
  na_blank : forall k, (k < b)%nat -> exists x, str !! k = Some x /\ (x = 32 \/ x = 9);
  na_sign : (sign = [] \/ sign = [43] \/ sign = [45]) /\ forall k x, sign !! k = Some x -> str !! (b + k)%nat = Some x;
  na_zero : forall k, (k < z)%nat -> str !! (b + length sign + k)%nat = Some 48;
  na_digits : forall k d, ds !! k = Some d -> str !! (b + length sign + z + k)%nat = Some (48 + d);
  na_range : Forall (fun d => 0 <= d < 10) ds;
  na_lead : ds <> [] -> exists d tl, ds = d :: tl /\ 0 < d;
  na_some : (0 < z + length ds)%nat;
  na_end : let n := (b + length sign + z + length ds)%nat in
    endptr = Some (Z.of_nat n) \/
    ((endptr = None \/ exists e, endptr = Some e /\ Z.of_nat n < e) /\ Z.of_nat n < Z.of_nat b + 65535 /\
      exists x, str !! n = Some x /\ digit_of x > 9)
}.

Lemma load_lookup (str : list Z) k x : str !! k = Some x -> load str (Z.of_nat k) = Some x.
Proof. by rewrite load_nat. Qed.

Lemma skip_blanks_spec fuel str endptr (b j : nat) x :
  (forall k, (j <= k < b)%nat -> exists x, str !! k = Some x /\ (x = 32 \/ x = 9)) ->
  (j <= b)%nat -> (b - j < fuel)%nat -> str !! b = Some x -> x <> 32 -> x <> 9 ->
  (forall e, endptr = Some e -> Z.of_nat b < e) ->
  skip_blanks fuel str endptr (Z.of_nat j) = Some (Z.of_nat b).
Proof.
  intros Hb. revert j Hb. induction fuel as [| fuel IH]; intros j Hb Hj Hf Hx H1 H2 He; [lia |].
  cbn [skip_blanks]. rewrite bool_decide_false by (intros E; specialize (He _ E); lia).
  destruct (decide (j = b)) as [-> | Hne].
  - rewrite (load_lookup _ _ _ Hx). cbn [mbind option_bind]. by bdec.
  - destruct (Hb j ltac:(lia)) as (y & Hy & Hor). rewrite (load_lookup _ _ _ Hy). cbn [mbind option_bind].
    replace (bool_decide (y = 32) || bool_decide (y = 9)) with true
      by (destruct Hor as [-> | ->]; done).
    replace (Z.of_nat j + 1) with (Z.of_nat (S j)) by lia.
    apply IH; [intros; apply Hb; lia | lia | lia | done ..].
Qed.

Lemma skip_zeros_spec fuel str end_ (s z : nat) :
  (forall k, (k < z)%nat -> str !! (s + 1 + k)%nat = Some 48) -> (z < fuel)%nat ->
  Z.of_nat (s + 1 + z) = end_ \/
  (Z.of_nat (s + 1 + z) < end_ /\ exists x, str !! (s + 1 + z)%nat = Some x /\ x <> 48) ->
  skip_zeros fuel str end_ (Z.of_nat s) =
    Some (Z.of_nat (s + 1 + z), bool_decide (Z.of_nat (s + 1 + z) = end_)).
Proof.
  revert s z; induction fuel as [| fuel IH]; intros s z Hz Hf Hend; [lia |]. cbn [skip_zeros].
  replace (Z.of_nat s + 1) with (Z.of_nat (s + 1)) by lia.
  destruct z as [| z].
  - rewrite Nat.add_0_r in *. destruct Hend as [-> | (Hlt & x & Hx & Hne)]; [by bdec |].
    bdec. rewrite (load_lookup _ _ _ Hx). cbn [mbind option_bind]. by bdec.
  - rewrite bool_decide_false by lia. pose proof (Hz 0%nat ltac:(lia)) as H0. rewrite Nat.add_0_r in H0.
    rewrite (load_lookup _ _ _ H0). cbn [mbind option_bind]. bdec.
    rewrite (IH (s + 1)%nat z).
    + do 2 f_equal; [lia |]. apply bool_decide_ext. lia.
    + intros k Hk. specialize (Hz (S k) ltac:(lia)). rewrite <- Hz. f_equal. lia.
    + lia.
    + replace (s + 1 + 1 + z)%nat with (s + 1 + S z)%nat by lia. done.
Qed.

Lemma my_strtoll10_spec str endptr b sign z ds :
  number_at str endptr b sign z ds ->
  parsed (bool_decide (sign = [45])) (Z.of_nat (length ds)) (value 10 ds)
    (Z.of_nat (b + length sign + z + length ds)) (my_strtoll10 str endptr).
Proof.
  intros [Hb [Hsg Hsl] Hz Hds HF Hlead Hsome Hend].
  set (n := (b + length sign + z + length ds)%nat) in *.
  set (end_ := match endptr with Some e => e | None => Z.of_nat b + 65535 end).
  assert (Hne : Z.of_nat n = end_ \/ (Z.of_nat n < end_ /\ exists x, str !! n = Some x /\ digit_of x > 9)).
  { unfold end_. destruct Hend as [-> | ([-> | (e & -> & ?)] & ? & ?)]; [by left | right; split; [lia | done] ..]. }
  assert (Hn : Z.of_nat n <= end_) by lia.
  (* the character behind the sign *)
  set (s := (b + length sign)%nat).
  assert (Hc : exists c, str !! s = Some c /\ (48 <= c <= 57) /\ ((0 < z)%nat <-> c = 48)).
  { destruct z as [| z].
    - destruct ds as [| d ds]; [simpl in Hsome; lia |]. destruct Hlead as (d' & tl & [= -> ->] & Hpos); [done |].
      specialize (Hds 0%nat _ eq_refl). rewrite !Nat.add_0_r in Hds. apply Forall_cons_1 in HF as [? _].
      exists (48 + d'). split_and!; [done | lia | lia | lia].
    - specialize (Hz 0%nat ltac:(lia)). rewrite Nat.add_0_r in Hz. exists 48. split_and!; [done | lia | lia | lia]. }
  destruct Hc as (c & Hc & Hcr & Hcz).
  (* the first character behind the blanks *)
  assert (Hf : exists x, str !! b = Some x /\ x <> 32 /\ x <> 9 /\ x <> 0 /\
    (bool_decide (x = 45) = bool_decide (sign = [45])) /\
    (bool_decide (x = 45) || bool_decide (x = 43) = bool_decide (sign <> []))).
  { destruct Hsg as [-> | [-> | ->]].
    - exists c. unfold s in Hc. rewrite Nat.add_0_r in Hc. bdec. split_and!; done || lia.
    - specialize (Hsl 0%nat 43 eq_refl). rewrite Nat.add_0_r in Hsl. exists 43. split_and!; done.
    - specialize (Hsl 0%nat 45 eq_refl). rewrite Nat.add_0_r in Hsl. exists 45. split_and!; done. }
  destruct Hf as (x & Hx & Hx32 & Hx9 & Hx0 & Hneg & Hsn).
  assert (Hbn : (b < n)%nat) by (unfold n; lia).
  unfold my_strtoll10. change 0 with (Z.of_nat 0) at 1.
  rewrite (skip_blanks_spec _ str endptr b 0 x); try done; try lia.
  2: { intros k Hk. apply Hb. lia. }
  2: { apply lookup_lt_Some in Hx. lia. }
  2: { intros e ->. unfold end_ in Hn. lia. }
  cbn [mbind option_bind]. rewrite (load_lookup _ _ _ Hx).
  assert (Hemp : match endptr with
     | Some end_ => Some (bool_decide (Z.of_nat b = end_), end_)
     | None => x ← Some x; Some (bool_decide (x = 0), Z.of_nat b + 65535) end = Some (false, end_)).
  { unfold end_ in *. destruct endptr as [e |]; cbn [mbind option_bind]; by bdec. }
  rewrite Hemp. clear Hemp. cbn [mbind option_bind]. cbv zeta. rewrite Hsn, Hneg.
  assert (Hs : (if bool_decide (sign <> []) then Z.of_nat b + 1 else Z.of_nat b) = Z.of_nat s).
  { unfold s. destruct Hsg as [-> | [-> | ->]]; simpl; lia. }
  rewrite Hs. rewrite (bool_decide_false (Z.of_nat s = end_)) by (unfold s, n in *; lia).
  rewrite andb_false_r, (load_lookup _ _ _ Hc). cbn [mbind option_bind].
  assert (Hat : forall k, (k <= length ds)%nat ->
    digits_at str end_ (Z.of_nat (s + z + k)) (drop k ds)).
  { intros k Hk. split; [lia | by apply Forall_drop | | rewrite length_drop; unfold n, s in *; lia | ].
    - intros m d Hm. rewrite lookup_drop in Hm. specialize (Hds _ _ Hm).
      rewrite <- Nat2Z.inj_add. apply load_lookup. rewrite <- Hds. f_equal. unfold s. lia.
    - rewrite length_drop. rewrite <- Nat2Z.inj_add.
      replace (s + z + k + (length ds - k))%nat with n by (unfold n, s; lia).
      destruct Hne as [? | (_ & y & Hy & Hgt)]; [by left | right]. exists y. split; [by apply load_lookup | done]. }
  destruct z as [| z].
  - rewrite (bool_decide_false (c = 48)) by lia. destruct ds as [| d ds]; [simpl in Hsome; lia |].
    pose proof (Hds 0%nat d eq_refl) as Hd0. rewrite !Nat.add_0_r in Hd0. fold s in Hd0.
    rewrite Hc in Hd0. injection Hd0 as ->. pose proof HF as HF'. apply Forall_cons_1 in HF' as [Hd _].
    rewrite digit_of_char, (bool_decide_false (d > 9)) by lia.
    pose proof (strtoll_digits_spec str end_ (bool_decide (sign = [45])) (Z.of_nat s + 1) ds [d]) as H.
    cbn [app length] in H. unfold value in H at 2. cbn [fold_left] in H. rewrite Z.mul_0_l, Z.add_0_l in H.
    unfold n. cbn [length]. replace (Z.of_nat (b + length sign + 0 + S (length ds)))
      with (Z.of_nat s + 1 + Z.of_nat (length ds)) by (unfold s; lia).
    replace (Z.of_nat s + 1 + INIT_CNT - Z.of_nat 1) with (Z.of_nat s + 1 + INIT_CNT - 1) in H by lia.
    apply H; [| by repeat constructor; lia | lia | intros _; by apply Hlead].
    specialize (Hat 1%nat ltac:(simpl; lia)). simpl drop in Hat. rewrite drop_0 in Hat.
    replace (Z.of_nat (s + 0 + 1)) with (Z.of_nat s + 1) in Hat by lia. done.
  - rewrite (bool_decide_true (c = 48)) by (apply Hcz; lia).
    rewrite (skip_zeros_spec _ str end_ s z).
    + cbn [mbind option_bind]. specialize (Hat 0%nat ltac:(lia)). rewrite drop_0, Nat.add_0_r in Hat.
      replace (s + 1 + z)%nat with (s + S z)%nat by lia.
      destruct (decide (Z.of_nat (s + S z) = end_)) as [He | He];
        [rewrite (bool_decide_true (_ = end_)) by done | rewrite (bool_decide_false (_ = end_)) by done].
      * assert (ds = []) as -> by (apply length_zero_iff_nil; unfold n, s in *; lia).
        replace (Z.of_nat n) with (Z.of_nat (s + S z)) by (unfold n, s; simpl; lia).
        change (value 10 []) with 0.
        pose proof (parsed_small (bool_decide (sign = [45])) 0 0 (Z.of_nat (s + S z))) as H.
        destruct (bool_decide (sign = [45])); apply H; lia.
      * pose proof (strtoll_digits_spec str end_ (bool_decide (sign = [45])) (Z.of_nat (s + S z)) ds []) as H.
        cbn [app length] in H. change (value 10 []) with 0 in H. rewrite Z.sub_0_r in H.
        replace (Z.of_nat n) with (Z.of_nat (s + S z) + Z.of_nat (length ds)) by (unfold n, s; lia).
        apply H; [done | done | lia |]. intros Hl. apply Hlead. by destruct ds; [simpl in Hl; lia |].
    + intros k Hk. specialize (Hz (S k) ltac:(lia)). rewrite <- Hz. f_equal. unfold s. lia.
    + assert (Hl : (s + z < length str)%nat); [| lia].
      specialize (Hz z ltac:(lia)). by apply lookup_lt_Some in Hz.
    + destruct ds as [| d ds].
      * replace (s + 1 + z)%nat with n by (unfold n, s; simpl; lia).
        destruct Hne as [? | (? & y & Hy & Hgt)]; [by left | right]. split; [done |]. exists y.
        split; [done |]. intros ->. by vm_compute in Hgt.
      * right. cbn [length] in *. split; [unfold n, s in *; lia |].
        destruct Hlead as (d' & tl & [= -> ->] & Hpos); [done |]. exists (48 + d').
        specialize (Hds 0%nat d' eq_refl). rewrite Nat.add_0_r in Hds. split; [| lia].
        rewrite <- Hds. f_equal. unfold s. lia.
Qed.

(** ** Properties *)

(** The magnitude that is printed: signed for a negative radix. *)
Definition magnitude (w val radix : Z) : Z :=
  if decide (radix < 0) then Z.abs val else uwrap w val.

Definition sign_of (val radix : Z) : list Z :=
  if decide (radix < 0 /\ val < 0) then [45] else [].

Lemma neg_wrap w val : 0 < w -> - 2 ^ (w - 1) <= val < 0 -> uwrap w (0 - uwrap w val) = - val.
Proof.
  intros Hw Hv. assert (Hp : 2 ^ w = 2 * 2 ^ (w - 1)) by (rewrite <- Z.pow_succ_r by lia; f_equal; lia).
  assert (E : uwrap w val = val + 2 ^ w).
  { unfold uwrap. symmetry. apply Z.mod_unique with (-1); lia. }
  rewrite E. unfold uwrap. symmetry. apply Z.mod_unique with (-1); lia.
Qed.

(** The printed digits are a number that [my_strtoll10] can read. *)
Lemma printed_number sign v :
  0 <= v < 2 ^ 64 -> sign = [] \/ sign = [45] ->
  exists b z ds, number_at (sign ++ print true 10 v) None b sign z ds /\ value 10 ds = v /\
    (length ds <= 64)%nat.
Proof.
  intros Hv Hs. exists 0%nat. unfold print, digits. case_decide as Hz.
  - exists 1%nat, []. subst v. split; [| split; [done | simpl; lia]]. split.
    + intros k Hk. lia.
    + split; [destruct Hs; auto |]. intros k x Hk. by apply lookup_app_l_Some.
    + intros k Hk. assert (k = 0%nat) as -> by lia. rewrite Nat.add_0_r. simpl.
      by rewrite lookup_app_r, Nat.sub_diag by lia.
    + done.
    + done.
    + done.
    + simpl. lia.
    + right. split; [by left |]. split; [destruct Hs as [-> | ->]; simpl; lia |]. exists 0.
      split; [| by vm_compute]. simpl. rewrite lookup_app_r by lia.
      by replace (length sign + 1 + 0 - length sign)%nat with 1%nat by lia.
  - set (ds := push_digits 64 10 v []). exists 0%nat, ds.
    assert (HF : Forall (fun d => 0 <= d < 10) ds) by (by apply push_digits_range; [lia | lia |]).
    assert (Hval : value 10 ds = v).
    { rewrite <- (digits_value 10 v) by lia. unfold digits. by rewrite decide_False by done. }
    assert (Hlen : (length ds <= 64)%nat) by apply push_digits_length.
    assert (Hchar : forall d, 0 <= d < 10 -> digit_char true d = 48 + d)
      by (intros d Hd; unfold digit_char; by rewrite decide_True by lia).
    split; [| done]. split.
    + intros k Hk. lia.
    + split; [destruct Hs; auto |]. intros k x Hk. by apply lookup_app_l_Some.
    + intros k Hk. lia.
    + intros k d Hk. simpl. rewrite lookup_app_r by lia.
      replace (length sign + 0 + k - length sign)%nat with k by lia.
      rewrite lookup_app_l by (rewrite length_fmap; by apply lookup_lt_Some in Hk).
      rewrite list_lookup_fmap, Hk. simpl. f_equal. apply Hchar.
      by apply (proj1 (Forall_lookup _ _) HF _ _ Hk).
    + done.
    + intros _. apply push_digits_head; [lia | change (Z.of_nat 64) with 64; lia].
    + destruct (push_digits_head 64 10 v []) as (d & tl & E & _); [lia | change (Z.of_nat 64) with 64; lia |].
      fold ds in E. rewrite E. simpl. lia.
    + right. split; [by left |].
      split; [destruct Hs as [-> | ->]; simpl; lia |]. exists 0. split; [| by vm_compute].
      simpl. rewrite lookup_app_r by lia. rewrite lookup_app_r by (rewrite length_fmap; lia).
      rewrite length_fmap. by replace (length sign + 0 + length ds - length sign - length ds)%nat with 0%nat by lia.
Qed.

Lemma longlong10_spec val radix :
  - 2 ^ 63 <= val < 2 ^ 63 ->
  longlong10_to_str val radix = Some (sign_of val radix ++ print true 10 (magnitude 64 val radix)).
Proof.
  intros Hv. unfold longlong10_to_str.
  assert (Hs : (if bool_decide (radix < 0) && bool_decide (val < 0) then ([45], u64 (0 - u64 val))
    else ([], u64 val)) = (sign_of val radix, magnitude 64 val radix)).
  { unfold sign_of, magnitude. destruct (decide (radix < 0)), (decide (val < 0)); bdec; cbn [andb].
    - rewrite decide_True by done. rewrite neg_wrap by (simpl; lia). f_equal. lia.
    - rewrite decide_False by tauto. rewrite uwrap_small by lia. f_equal. lia.
    - by rewrite decide_False by tauto.
    - by rewrite decide_False by tauto. }
  rewrite Hs. clear Hs. cbv iota beta. rewrite (ll_print_spec true 10); [done | lia |].
  unfold magnitude. case_decide; [lia | by apply (uwrap_range 64)].
Qed.

(** [int2str] for a 32-bit [long]: a radix outside 2..36 and -36..-2 gives
    [NullS]; otherwise it writes the sign (for a negative radix), the canonical
    digits of the magnitude in that radix and a zero, never overruns its buffer,
    and reading the digits back gives the magnitude, [LONG_MIN] included.
    [int10_to_str] writes the same as [int2str] with radix 10 or -10. *)
Theorem int2str_prints val radix upcase :
  - 2 ^ 31 <= val < 2 ^ 31 ->
  (2 <= Z.abs radix <= 36 ->
   int2str val radix upcase =
     Some (Some (sign_of val radix ++ print upcase (Z.abs radix) (magnitude 32 val radix))) /\
   value (Z.abs radix) (digits (Z.abs radix) (magnitude 32 val radix)) = magnitude 32 val radix) /\
  (~ (2 <= Z.abs radix <= 36) -> int2str val radix upcase = Some None) /\
  int10_to_str val radix =
    Some (sign_of val radix ++ print true 10 (magnitude 32 val radix)).
Proof.
  intros Hv.
  assert (Hm : 0 <= magnitude 32 val radix < 2 ^ 32).
  { unfold magnitude. case_decide; [lia | by apply (uwrap_range 32)]. }
  split_and!.
  - intros Hr. split; [| apply digits_value; lia].
    destruct (int2str_go upcase (Z.abs radix) (magnitude 32 val radix)) as [room E]; [lia | done |].
    unfold int2str, magnitude, sign_of in *.
    destruct (decide (radix < 0)) as [Hneg | Hneg].
    + rewrite (bool_decide_true (radix < 0)) by done.
      rewrite (bool_decide_false (radix < -36)), (bool_decide_false (radix > -2)) by lia. cbn [orb].
      replace (- radix) with (Z.abs radix) by lia.
      destruct (decide (val < 0)).
      * rewrite (bool_decide_true (val < 0)), (decide_True (P := _ /\ _)) by done.
        rewrite neg_wrap by (simpl; lia). replace (- val) with (Z.abs val) by lia.
        destruct (load _ _) as [d |]; [| done]. cbn [mbind option_bind] in E |- *. by rewrite E.
      * rewrite (bool_decide_false (val < 0)), (decide_False (P := _ /\ _)) by tauto.
        rewrite (uwrap_small 32 val) by lia. replace val with (Z.abs val) at 1 2 by lia.
        destruct (load _ _) as [d |]; [| done]. cbn [mbind option_bind] in E |- *.
        replace (Z.abs val) with val in * by lia. by rewrite E.
    + rewrite (bool_decide_false (radix < 0)), (bool_decide_false (radix > 36)),
        (bool_decide_false (radix < 2)), (decide_False (P := _ /\ _)) by (lia || tauto). cbn [orb].
      replace (Z.abs radix) with radix in * by lia.
      destruct (load _ _) as [d |]; [| done]. cbn [mbind option_bind] in E |- *. by rewrite E.
  - intros Hr. unfold int2str.
    destruct (decide (radix < 0)); [rewrite (bool_decide_true (radix < 0)) by done |
                                    rewrite (bool_decide_false (radix < 0)) by done].
    + destruct (decide (radix < -36)); [by rewrite (bool_decide_true (radix < -36)) by done |].
      rewrite (bool_decide_true (radix > -2)) by lia. by rewrite orb_true_r.
    + destruct (decide (radix > 36)); [by rewrite (bool_decide_true (radix > 36)) by done |].
      rewrite (bool_decide_true (radix < 2)) by lia. by rewrite orb_true_r.
  - destruct (int2str_go true 10 (magnitude 32 val radix)) as [room E]; [lia | done |].
    unfold int10_to_str.
    assert (Hs : (if bool_decide (radix < 0) && bool_decide (val < 0) then ([45], u32 (0 - u32 val))
      else ([], u32 val)) = (sign_of val radix, magnitude 32 val radix)).
    { unfold sign_of, magnitude. destruct (decide (radix < 0)), (decide (val < 0)); bdec; cbn [andb].
      - rewrite decide_True by done. rewrite neg_wrap by (simpl; lia). f_equal. lia.
      - rewrite decide_False by tauto. rewrite uwrap_small by lia. f_equal. lia.
      - by rewrite decide_False by tauto.
      - by rewrite decide_False by tauto. }
    rewrite Hs. clear Hs. set (u := magnitude 32 val radix) in *. clearbody u.
    assert (Hu : 0 <= u / 10 < 2 ^ 31 /\ 0 <= u - u / 10 * 10 < 10 /\ u / 10 * 10 <= u) by Zlia.
    destruct Hu as (Hq & Hd & Hle).
    rewrite (swrap_small 32 (u / 10)) in E |- * by (simpl; lia).
    rewrite (uwrap_small 32 (u / 10)), (uwrap_small 32 (u / 10 * 10)), (uwrap_small 32 (u - _))
      in E |- * by lia.
    rewrite (uwrap_small 8), (dig_vec_spec true) in E by lia. cbn [mbind option_bind] in E.
    unfold digit_char in E. rewrite decide_True in E by lia.
    rewrite (swrap_small 8), long_digits10_is by (simpl; lia). by rewrite E.
Qed.

Lemma int2str_prints_witness :
  int2str (- 2 ^ 31) (-10) false = Some (Some ([45] ++ print false 10 (2 ^ 31))).
Proof. apply (int2str_prints (- 2 ^ 31) (-10) false); lia. Defined.

(** [ll2str] and [longlong10_to_str] for 64-bit integers: as [int2str], with
    the digits computed by 64-bit divisions as long as the value exceeds
    [LONG_MAX] and by 32-bit ones afterwards; [LONGLONG_MIN] is printed
    correctly, and [longlong10_to_str] agrees with [ll2str] in radix 10. *)
Theorem ll2str_prints val radix upcase :
  - 2 ^ 63 <= val < 2 ^ 63 ->
  (2 <= Z.abs radix <= 36 ->
   ll2str val radix upcase =
     Some (Some (sign_of val radix ++ print upcase (Z.abs radix) (magnitude 64 val radix))) /\
   value (Z.abs radix) (digits (Z.abs radix) (magnitude 64 val radix)) = magnitude 64 val radix) /\
  (~ (2 <= Z.abs radix <= 36) -> ll2str val radix upcase = Some None) /\
  longlong10_to_str val radix = Some (sign_of val radix ++ print true 10 (magnitude 64 val radix)).
Proof.
  intros Hv.
  assert (Hm : 0 <= magnitude 64 val radix < 2 ^ 64).
  { unfold magnitude. case_decide; [lia | by apply (uwrap_range 64)]. }
  assert (Hneg : radix < 0 -> val < 0 -> u64 (0 - u64 val) = magnitude 64 val radix).
  { intros Hr H0. rewrite neg_wrap by (simpl; lia). unfold magnitude. rewrite decide_True by done. lia. }
  assert (Hpos : ~ (radix < 0 /\ val < 0) -> u64 val = magnitude 64 val radix).
  { intros H0. unfold magnitude. case_decide; [| done]. rewrite uwrap_small by lia. lia. }
  split_and!.
  - intros Hr. split; [| apply digits_value; lia].
    unfold ll2str, sign_of. destruct (decide (radix < 0)), (decide (val < 0));
      bdec; cbn [orb].
    + rewrite (decide_True (P := _ /\ _)) by done. rewrite Hneg by done.
      replace (- radix) with (Z.abs radix) by lia. by rewrite ll_print_spec by lia.
    + rewrite (decide_False (P := _ /\ _)) by tauto. rewrite Hpos by tauto.
      replace (- radix) with (Z.abs radix) by lia. by rewrite ll_print_spec by lia.
    + rewrite (decide_False (P := _ /\ _)) by tauto. rewrite Hpos by tauto.
      rewrite (Z.abs_eq radix) by lia. by rewrite ll_print_spec by lia.
    + rewrite (decide_False (P := _ /\ _)) by tauto. rewrite Hpos by tauto.
      rewrite (Z.abs_eq radix) by lia. by rewrite ll_print_spec by lia.
  - intros Hr. unfold ll2str.
    destruct (decide (radix < 0)); [rewrite (bool_decide_true (radix < 0)) by done |
                                    rewrite (bool_decide_false (radix < 0)) by done].
    + destruct (decide (radix < -36)); [by rewrite (bool_decide_true (radix < -36)) by done |].
      rewrite (bool_decide_true (radix > -2)) by lia. by rewrite orb_true_r.
    + destruct (decide (radix > 36)); [by rewrite (bool_decide_true (radix > 36)) by done |].
      rewrite (bool_decide_true (radix < 2)) by lia. by rewrite orb_true_r.
  - by apply longlong10_spec.
Qed.

Lemma ll2str_prints_witness :
  ll2str (- 2 ^ 63) (-16) true = Some (Some ([45] ++ print true 16 (2 ^ 63))).
Proof. apply (ll2str_prints (- 2 ^ 63) (-16) true); lia. Defined.

(** [my_strtoll10] on a number (blanks, a sign, zeros, then the digits
    [ds]) that ends at [*endptr] or at a character that is no digit: the exact
    value and end pointer, with error 0 or -1, whenever the magnitude is below
    [2^64] (at most [2^63] for a negative one); [LONGLONG_MIN] with [ERANGE] for
    every negative number below it; the largest number with [ERANGE] for more
    than twenty digits. *)
Theorem my_strtoll10_parses str endptr b sign z ds :
  number_at str endptr b sign z ds ->
  parsed (bool_decide (sign = [45])) (Z.of_nat (length ds)) (value 10 ds)
    (Z.of_nat (b + length sign + z + length ds)) (my_strtoll10 str endptr).
Proof. apply my_strtoll10_spec. Qed.

(** " -0012x" *)
Lemma my_strtoll10_parses_witness :
  parsed true 2 12 6 (my_strtoll10 [32; 45; 48; 48; 49; 50; 120] None).
Proof.
  apply (my_strtoll10_parses [32; 45; 48; 48; 49; 50; 120] None 1 [45] 2 [1; 2]). split.
  - intros k Hk. assert (k = 0%nat) as -> by lia. exists 32. auto.
  - split; [auto |]. intros [| k] x Hx; [by injection Hx as <- | done].
  - intros k Hk. assert (k = 0%nat \/ k = 1%nat) as [-> | ->] by lia; done.
  - intros [| [| k]] d Hd; [by injection Hd as <- .. | done].
  - repeat constructor; lia.
  - intros _. eexists 1, [2]. split; [done | lia].
  - simpl. lia.
  - right. split; [by left |]. split; [simpl; lia |]. exists 120. split; [done |]. vm_compute. done.
Defined.

(** Print, then parse: for every [longlong] [my_strtoll10] of the string that
    [llstr] stores gives the number back (error -1 for a negative one, else 0),
    and for every [ulonglong] that of [ullstr] gives its 64 bits back. *)
Theorem strtoll10_of_llstr v :
  (- 2 ^ 63 <= v < 2 ^ 63 -> exists s e, llstr v = Some s /\
     my_strtoll10 s None = Some (v, e, if decide (v < 0) then -1 else 0)) /\
  (0 <= v < 2 ^ 64 -> exists s e, ullstr (s64 v) = Some s /\
     my_strtoll10 s None = Some (s64 v, e, 0)).
Proof.
  split; intros Hv.
  - unfold llstr. rewrite longlong10_spec by lia. unfold sign_of, magnitude.
    rewrite (decide_True (P := -10 < 0)) by lia.
    pose proof (printed_number (if decide (-10 < 0 /\ v < 0) then [45] else []) (Z.abs v)) as Hn.
    destruct Hn as (b & z & ds & Hna & Hval & Hlen); [lia | case_decide; auto |].
    pose proof (my_strtoll10_spec _ _ _ _ _ _ Hna) as Hp. rewrite Hval in Hp.
    destruct (decide (v < 0)); eexists _, _; (split; [done |]).
    + rewrite decide_True in * by lia. rewrite bool_decide_true in Hp by done. destruct Hp as [Hp _].
      rewrite Hp by lia. replace (s64 (- Z.abs v)) with v; [done |].
      rewrite swrap_small by (simpl; lia). lia.
    + rewrite decide_False in * by lia. rewrite bool_decide_false in Hp by done. destruct Hp as [Hp _].
      rewrite Hp by lia. replace (s64 (Z.abs v)) with v; [done |].
      rewrite swrap_small by (simpl; lia). lia.
  - unfold ullstr. assert (Hr : - 2 ^ 63 <= s64 v < 2 ^ 63) by by apply (swrap_range 64).
    rewrite longlong10_spec by done. unfold sign_of, magnitude.
    rewrite (decide_False (P := 10 < 0)), (decide_False (P := _ /\ _)) by lia.
    replace (u64 (s64 v)) with v by (unfold uwrap, swrap; Zlia).
    destruct (printed_number [] v) as (b & z & ds & Hna & Hval & Hlen); [lia | auto |].
    eexists _, _. split; [done |]. pose proof (my_strtoll10_spec _ _ _ _ _ _ Hna) as Hp.
    rewrite Hval, bool_decide_false in Hp by done. destruct Hp as [Hp _]. by rewrite Hp by lia.
Qed.

Lemma strtoll10_of_llstr_witness :
  exists s e, llstr (- 2 ^ 63) = Some s /\ my_strtoll10 s None = Some (- 2 ^ 63, e, -1).
Proof. apply (strtoll10_of_llstr (- 2 ^ 63)); lia. Defined.

(** An overflow that [my_strtoll10] misses: "18446744073709551700" exceeds
    the largest [ulonglong] by 85, and the result is 84 with error 0. *)
Theorem strtoll10_missed_overflow :
  let s := (fun d => 48 + d) <$> [1; 8; 4; 4; 6; 7; 4; 4; 0; 7; 3; 7; 0; 9; 5; 5; 1; 7; 0; 0] in
  value 10 [1; 8; 4; 4; 6; 7; 4; 4; 0; 7; 3; 7; 0; 9; 5; 5; 1; 7; 0; 0] = 2 ^ 64 + 84 /\
  my_strtoll10 (s ++ [0]) None = Some (84, 20, 0).
Proof. split; vm_compute; reflexivity. Qed.

End IntStr.
