(* ===== verification/Decimal.v ===== *)
(** * Decimal: fixed-point decimals ([strings/decimal.c])

    A decimal is kept in words of nine decimal digits, most significant first:
    [ROUND_UP(intg)] words before the point and [ROUND_UP(frac)] words behind
    it.  The file models the representation and the additive operations
    ([do_add], [do_sub], [decimal_add], [decimal_sub], [decimal_cmp],
    [decimal_is_zero], [max_decimal]).  A pointer into a word buffer is an
    index; [to] does not share its buffer with an operand.  Words ([dec1]) are
    32 bits wide; word counts are unbounded. *)
From stdpp Require Import base tactics option list numbers.
From Stdlib Require Import ZArith Lia.
From S2P Require Import Prelude.

Module Decimal.

(** ** Model: data *)

Record decimal_t := mk_decimal
  { intg : Z; frac : Z; len : Z; sign : Z; buf : list Z }.

Definition E_DEC_OK : Z := 0.
Definition E_DEC_TRUNCATED : Z := 1.
Definition E_DEC_OVERFLOW : Z := 2.
Definition E_DEC_BAD_NUM : Z := 8.

Definition DIG_PER_DEC1 : Z := 9.
Definition DIG_BASE : Z := 1000000000.
Definition DIG_MAX : Z := DIG_BASE - 1.
Definition ROUND_UP (x : Z) : Z := Z.quot (x + DIG_PER_DEC1 - 1) DIG_PER_DEC1.
Definition powers10 : list Z :=
  [1; 10; 100; 1000; 10000; 100000; 1000000; 10000000; 100000000; 1000000000].
Definition frac_max : list Z :=
  [900000000; 990000000; 999000000; 999900000; 999990000; 999999000;
   999999900; 999999990].

Definition with_buf (d : decimal_t) (m : list Z) : decimal_t :=
  mk_decimal (intg d) (frac d) (len d) (sign d) m.

(** The new [intg1], [frac1] and [error]. *)
Definition FIX_INTG_FRAC_ERROR (len intg1 frac1 : Z) : Z * Z * Z :=
  if bool_decide (intg1 + frac1 > len)
  then if bool_decide (intg1 > len) then (len, 0, E_DEC_OVERFLOW)
       else (intg1, len - intg1, E_DEC_TRUNCATED)
  else (intg1, frac1, E_DEC_OK).

(** The word stored and the new carry. *)
Definition ADD (from1 from2 carry : Z) : Z * Z :=
  let a := s32 (from1 + from2 + carry) in
  if bool_decide (a >= DIG_BASE) then (a - DIG_BASE, 1) else (a, 0).

Definition SUB (from1 from2 carry : Z) : Z * Z :=
  let a := s32 (from1 - from2 - carry) in
  if bool_decide (a < 0) then (a + DIG_BASE, 1) else (a, 0).

Definition decimal_make_zero (d : decimal_t) : option decimal_t :=
  m ← store (buf d) 0 0;
  Some (mk_decimal 1 0 (len d) 0 m).

(** [for (...; n; n--) *buf++= DIG_MAX;] *)
Definition fill_max (n p : Z) (m : list Z) : option (list Z) :=
  for_up (Z.to_nat n) p (fun k m => store m k DIG_MAX) m.

Definition max_decimal (precision frac : Z) (to : decimal_t) : option decimal_t :=
  let intpart := precision - frac in
  '(m, p) ←
    (if bool_decide (intpart <> 0)
     then
       let firstdigits := Z.rem intpart DIG_PER_DEC1 in
       '(m, p) ←
         (if bool_decide (firstdigits <> 0)
          then w ← load powers10 firstdigits;
               m ← store (buf to) 0 (w - 1);
               Some (m, 1)
          else Some (buf to, 0));
       m ← fill_max (Z.quot intpart DIG_PER_DEC1) p m;
       Some (m, p + Z.quot intpart DIG_PER_DEC1)
     else Some (buf to, 0));
  m ←
    (if bool_decide (frac <> 0)
     then
       let lastdigits := Z.rem frac DIG_PER_DEC1 in
       m ← fill_max (Z.quot frac DIG_PER_DEC1) p m;
       if bool_decide (lastdigits <> 0)
       then w ← load frac_max (lastdigits - 1);
            store m (p + Z.quot frac DIG_PER_DEC1) w
       else Some m
     else Some m);
  Some (mk_decimal intpart frac (len to) 0 m).

(** ** Model: loops over the words, from the least significant one down *)

(** [while (buf1 > stop) *--buf0= *--buf1;]: the buffer of [to], [buf0], [buf1]. *)
Definition copy_down (b1 : list Z) (stop p1 p0 : Z) (m : list Z) : option (list Z * Z * Z) :=
  let n := Z.to_nat (p1 - stop) in
  m ← for_up n 0 (fun k m => x ← load b1 (p1 - 1 - k); store m (p0 - 1 - k) x) m;
  Some (m, p0 - Z.of_nat n, p1 - Z.of_nat n).

(** [while (frac0-- > n) *--buf0= 0;] *)
Definition zero_down (n p0 : Z) (m : list Z) : option (list Z * Z) :=
  let n := Z.to_nat n in
  m ← for_up n 0 (fun k m => store m (p0 - 1 - k) 0) m;
  Some (m, p0 - Z.of_nat n).

(** [n] passes of [OP( *--buf0, *--x, *--y, carry)]. *)
Definition op_down (op : Z -> Z -> Z -> Z * Z) (x y : Z -> option Z) (n p0 : Z)
    (m : list Z) (carry : Z) : option (list Z * Z) :=
  for_up (Z.to_nat n) 0
    (fun k '(m, carry) =>
       a ← x k; b ← y k;
       let '(r, carry) := op a b carry in
       m ← store m (p0 - 1 - k) r;
       Some (m, carry)) (m, carry).

(** Parts 1 and 2 of [do_add]: the buffer, the carry and [buf0] behind them. *)
Definition add_low_parts (from1 from2 : decimal_t) (intg1 intg2 frac1 frac2 buf0 : Z) (m : list Z)
  : option (list Z * Z * Z) :=
  (* part 1 - max(frac) ... min (frac) *)
  let '(b1, buf1, stop, b2, buf2, stop2) :=
    if bool_decide (frac1 > frac2)
    then (buf from1, intg1 + frac1, intg1 + frac2, buf from2, intg2 + frac2,
          if bool_decide (intg1 > intg2) then intg1 - intg2 else 0)
    else (buf from2, intg2 + frac2, intg2 + frac1, buf from1, intg1 + frac1,
          if bool_decide (intg2 > intg1) then intg2 - intg1 else 0) in
  '(m, buf0, buf1) ← copy_down b1 stop buf1 buf0 m;
  (* part 2 - min(frac) ... min(intg) *)
  let n := Z.max 0 (buf1 - stop2) in
  '(m, carry) ← op_down ADD (fun k => load b1 (buf1 - 1 - k))
                  (fun k => load b2 (buf2 - 1 - k)) n buf0 m 0;
  Some (m, carry, buf0 - n).

(** Part 3 of [do_add], min(intg) ... max(intg). *)
Definition add_high_part (from1 from2 : decimal_t) (intg1 intg2 buf0 : Z) (m : list Z) (carry : Z)
  : option (list Z * Z * Z) :=
  let '(b1, buf1) :=
    if bool_decide (intg1 > intg2) then (buf from1, intg1 - intg2)
    else (buf from2, intg2 - intg1) in
  '(m, carry) ← op_down ADD (fun k => load b1 (buf1 - 1 - k)) (fun _ => Some 0)
                  buf1 buf0 m carry;
  Some (m, carry, buf0 - buf1).

(** [do_add] behind the test for an extra word; [m] is the buffer of [to]. *)
Definition add_words (from1 from2 to : decimal_t) (m : list Z) (intg1 intg2 frac1 frac2 intg0 frac0 : Z)
  : option (Z * decimal_t) :=
  let '(intg0, frac0, error) := FIX_INTG_FRAC_ERROR (len to) intg0 frac0 in
  if bool_decide (error = E_DEC_OVERFLOW)
  then to ← max_decimal (len to * DIG_PER_DEC1) 0 (with_buf to m); Some (error, to)
  else
    let buf0 := intg0 + frac0 in
    let to_frac := Z.max (frac from1) (frac from2) in
    let to_intg := intg0 * DIG_PER_DEC1 in
    let '(to_frac, frac1, frac2, intg1, intg2) :=
      if bool_decide (error <> 0)
      then (Z.min to_frac (frac0 * DIG_PER_DEC1), Z.min frac1 frac0, Z.min frac2 frac0,
            Z.min intg1 intg0, Z.min intg2 intg0)
      else (to_frac, frac1, frac2, intg1, intg2) in
    '(m, carry, buf0) ← add_low_parts from1 from2 intg1 intg2 frac1 frac2 buf0 m;
    '(m, carry, buf0) ← add_high_part from1 from2 intg1 intg2 buf0 m carry;
    m ← (if bool_decide (carry <> 0) then store m (buf0 - 1) 1 else Some m);
    Some (error, mk_decimal to_intg to_frac (len to) (sign from1) m).

Definition do_add (from1 from2 to : decimal_t) : option (Z * decimal_t) :=
  let intg1 := ROUND_UP (intg from1) in
  let intg2 := ROUND_UP (intg from2) in
  let frac1 := ROUND_UP (frac from1) in
  let frac2 := ROUND_UP (frac from2) in
  let frac0 := Z.max frac1 frac2 in
  let intg0 := Z.max intg1 intg2 in
  x ← (if bool_decide (intg1 > intg2) then load (buf from1) 0
       else if bool_decide (intg2 > intg1) then load (buf from2) 0
       else a ← load (buf from1) 0; b ← load (buf from2) 0; Some (s32 (a + b)));
  '(intg0, m) ←
    (if bool_decide (x > DIG_MAX - 1)
     then m ← store (buf to) 0 0; Some (intg0 + 1, m)
     else Some (intg0, buf to));
  add_words from1 from2 to m intg1 intg2 frac1 frac2 intg0 frac0.

(** [while (p < stop && *p == 0) p++;], at most [n] words. *)
Fixpoint skip_up (n : nat) (b : list Z) (p : Z) : option Z :=
  match n with
  | O => Some p
  | S n => x ← load b p; if bool_decide (x = 0) then skip_up n b (p + 1) else Some p
  end.

(** [while (start <= end && *end == 0) end--;] *)
Fixpoint skip_down (n : nat) (b : list Z) (p : Z) : option Z :=
  match n with
  | O => Some p
  | S n => x ← load b p; if bool_decide (x = 0) then skip_down n b (p - 1) else Some p
  end.

(** [while (buf1 <= end1 && buf2 <= end2 && *buf1 == *buf2) buf1++, buf2++;] *)
Fixpoint skip_equal (n : nat) (b1 b2 : list Z) (p1 p2 : Z) : option (Z * Z) :=
  match n with
  | O => Some (p1, p2)
  | S n => x ← load b1 p1; y ← load b2 p2;
      if bool_decide (x = y) then skip_equal n b1 b2 (p1 + 1) (p2 + 1) else Some (p1, p2)
  end.

(** The start and the number of the words in front of the point, without the
    leading zero words. *)
Definition strip_lead (from : decimal_t) : option (Z * Z) :=
  let stop := ROUND_UP (intg from) in
  x ← load (buf from) 0;
  if bool_decide (x = 0)
  then p ← skip_up (Z.to_nat stop) (buf from) 0; Some (p, stop - p)
  else Some (0, stop).

(** The first stage of [do_sub], "let carry:=1 if from2 > from1": the carry, the
    starts and the word counts of both operands without the zero words; the
    inner [None] is the short-circuit for equal operands. *)
Definition sub_order (from1 from2 : decimal_t)
  : option (option (Z * Z * Z * Z * Z * Z * Z)) :=
  let frac1 := ROUND_UP (frac from1) in
  let frac2 := ROUND_UP (frac from2) in
  let stop1 := ROUND_UP (intg from1) in
  let stop2 := ROUND_UP (intg from2) in
  '(start1, intg1) ← strip_lead from1;
  '(start2, intg2) ← strip_lead from2;
  if bool_decide (intg2 > intg1)
  then Some (Some (1, start1, start2, intg1, intg2, frac1, frac2))
  else if bool_decide (intg2 = intg1)
  then
    let end1 := stop1 + (frac1 - 1) in
    let end2 := stop2 + (frac2 - 1) in
    end1 ← skip_down (Z.to_nat (end1 - start1 + 1)) (buf from1) end1;
    end2 ← skip_down (Z.to_nat (end2 - start2 + 1)) (buf from2) end2;
    let frac1 := end1 - stop1 + 1 in
    let frac2 := end2 - stop2 + 1 in
    '(buf1, buf2) ← skip_equal (Nat.min (Z.to_nat (end1 - start1 + 1)) (Z.to_nat (end2 - start2 + 1)))
                      (buf from1) (buf from2) start1 start2;
    if bool_decide (buf1 <= end1)
    then if bool_decide (buf2 <= end2)
         then x ← load (buf from1) buf1; y ← load (buf from2) buf2;
              Some (Some (if bool_decide (y > x) then 1 else 0,
                          start1, start2, intg1, intg2, frac1, frac2))
         else Some (Some (0, start1, start2, intg1, intg2, frac1, frac2))
    else if bool_decide (buf2 <= end2)
         then Some (Some (1, start1, start2, intg1, intg2, frac1, frac2))
         else Some None
  else Some (Some (0, start1, start2, intg1, intg2, frac1, frac2)).

(** [while (carry && buf1 > start1) SUB( *--buf0, *--buf1, 0, carry);] *)
Fixpoint borrow_down (n : nat) (b1 : list Z) (p1 p0 : Z) (m : list Z) (carry : Z)
  : option (list Z * Z * Z) :=
  match n with
  | O => Some (m, p0, p1)
  | S n =>
      if bool_decide (carry = 0) then Some (m, p0, p1)
      else
        x ← load b1 (p1 - 1);
        let '(r, carry) := SUB x 0 carry in
        m ← store m (p0 - 1) r;
        borrow_down n b1 (p1 - 1) (p0 - 1) m carry
  end.

(** Part 1 of the subtraction, max(frac) ... min(frac): the buffer, [buf0], [buf1],
    [buf2] and the carry behind it. *)
Definition sub_part1 (b1 b2 : list Z) (start1 start2 intg1 intg2 frac1 frac2 frac0 buf0 : Z)
    (m : list Z) : option (list Z * Z * Z * Z * Z) :=
  let buf1 := start1 + intg1 + frac1 in
  let buf2 := start2 + intg2 + frac2 in
  if bool_decide (frac1 > frac2)
  then
    '(m, buf0) ← zero_down (frac0 - frac1) buf0 m;
    '(m, buf0, buf1) ← copy_down b1 (start1 + intg1 + frac2) buf1 buf0 m;
    Some (m, buf0, buf1, buf2, 0)
  else
    '(m, buf0) ← zero_down (frac0 - frac2) buf0 m;
    let n := Z.max 0 (buf2 - (start2 + intg2 + frac1)) in
    '(m, carry) ← op_down SUB (fun _ => Some 0) (fun k => load b2 (buf2 - 1 - k)) n buf0 m 0;
    Some (m, buf0 - n, buf1, buf2 - n, carry).

(** The loops of the second stage: the buffer of [to] behind them. *)
Definition sub_loops (b1 b2 : list Z) (start1 start2 intg1 intg2 frac1 frac2 frac0 buf0 : Z)
    (m : list Z) : option (list Z) :=
  '(m, buf0, buf1, buf2, carry) ←
    sub_part1 b1 b2 start1 start2 intg1 intg2 frac1 frac2 frac0 buf0 m;
  (* part 2 - min(frac) ... intg2 *)
  let n := Z.max 0 (buf2 - start2) in
  '(m, carry) ← op_down SUB (fun k => load b1 (buf1 - 1 - k))
                  (fun k => load b2 (buf2 - 1 - k)) n buf0 m carry;
  let '(buf0, buf1) := (buf0 - n, buf1 - n) in
  (* part 3 - intg2 ... intg1 *)
  '(m, buf0, buf1) ← borrow_down (Z.to_nat (buf1 - start1)) b1 buf1 buf0 m carry;
  '(m, buf0, _) ← copy_down b1 start1 buf1 buf0 m;
  '(m, _) ← zero_down buf0 buf0 m;
  Some m.

(** The second stage of [do_sub], "always from1 > from2": [b1] and [b2] are the
    buffers of the larger and the smaller operand. *)
Definition sub_words (b1 b2 : list Z) (start1 start2 intg1 intg2 frac1 frac2 frac : Z)
    (sign : Z) (to : decimal_t) (frac0 : Z) : option (Z * decimal_t) :=
  let '(intg1, frac0, error) := FIX_INTG_FRAC_ERROR (len to) intg1 frac0 in
  let buf0 := intg1 + frac0 in
  let to_intg := intg1 * DIG_PER_DEC1 in
  let '(to_frac, frac1, frac2, intg2) :=
    if bool_decide (error <> 0)
    then (Z.min frac (frac0 * DIG_PER_DEC1), Z.min frac1 frac0, Z.min frac2 frac0,
          Z.min intg2 intg1)
    else (frac, frac1, frac2, intg2) in
  m ← sub_loops b1 b2 start1 start2 intg1 intg2 frac1 frac2 frac0 buf0 (buf to);
  Some (error, mk_decimal to_intg to_frac (len to) sign m).

(** [to= None] is the null pointer that [decimal_cmp] passes. *)
Definition do_sub (from1 from2 : decimal_t) (to : option decimal_t)
  : option (Z * option decimal_t) :=
  r ← sub_order from1 from2;
  match r, to with
  | None, None => Some (0, None)
  | None, Some to => to ← decimal_make_zero to; Some (E_DEC_OK, Some to)
  | Some (carry, _, _, _, _, _, _), None =>
      Some (if bool_decide (carry = sign from1) then 1 else -1, None)
  | Some (carry, start1, start2, intg1, intg2, frac1, frac2), Some to =>
      let frac0 := Z.max (ROUND_UP (frac from1)) (ROUND_UP (frac from2)) in
      let to_frac := Z.max (frac from1) (frac from2) in
      '(error, to) ←
        (if bool_decide (carry <> 0)
         then sub_words (buf from2) (buf from1) start2 start1 intg2 intg1 frac2 frac1 to_frac
                (1 - sign from1) to frac0
         else sub_words (buf from1) (buf from2) start1 start2 intg1 intg2 frac1 frac2 to_frac
                (sign from1) to frac0);
      Some (error, Some to)
  end.

Definition decimal_add (from1 from2 to : decimal_t) : option (Z * decimal_t) :=
  if bool_decide (sign from1 = sign from2) then do_add from1 from2 to
  else r ← do_sub from1 from2 (Some to); to ← r.2; Some (r.1, to).

Definition decimal_sub (from1 from2 to : decimal_t) : option (Z * decimal_t) :=
  if bool_decide (sign from1 = sign from2)
  then r ← do_sub from1 from2 (Some to); to ← r.2; Some (r.1, to)
  else do_add from1 from2 to.

Definition decimal_cmp (from1 from2 : decimal_t) : option Z :=
  if bool_decide (sign from1 = sign from2)
  then r ← do_sub from1 from2 None; Some r.1
  else Some (if bool_decide (sign from1 > sign from2) then -1 else 1).

(** [while (buf1 < end) if ( *buf1++) return 0; return 1;] *)
Fixpoint all_zero (n : nat) (b : list Z) (p : Z) : option Z :=
  match n with
  | O => Some 1
  | S n => x ← load b p; if bool_decide (x <> 0) then Some 0 else all_zero n b (p + 1)
  end.

Definition decimal_is_zero (from : decimal_t) : option Z :=
  all_zero (Z.to_nat (ROUND_UP (intg from) + ROUND_UP (frac from))) (buf from) 0.

(** [op] is ['-'] (45), ['+'] (43), ['*'] (42) or ['/'] (47). *)
Definition decimal_result_size (from1 from2 : decimal_t) (op param : Z) : Z :=
  if bool_decide (op = 45)
  then ROUND_UP (Z.max (intg from1) (intg from2)) + ROUND_UP (Z.max (frac from1) (frac from2))
  else if bool_decide (op = 43)
  then ROUND_UP (Z.max (intg from1) (intg from2) + 1) +
       ROUND_UP (Z.max (frac from1) (frac from2))
  else if bool_decide (op = 42)
  then ROUND_UP (intg from1 + intg from2) + ROUND_UP (frac from1) + ROUND_UP (frac from2)
  else if bool_decide (op = 47)
  then ROUND_UP (intg from1 + intg from2 + 1 + frac from1 + frac from2 + param)
  else -1.

(** ** Numbers as words

    [ws f n] is the number with the words [f 0] (the least significant one),
    ..., [f (n-1)]. *)

Fixpoint ws (f : Z -> Z) (n : nat) : Z :=
  match n with
  | O => 0
  | S n => ws f n + f (Z.of_nat n) * DIG_BASE ^ Z.of_nat n
  end.

Lemma base_pos n : 0 < DIG_BASE ^ Z.of_nat n.
Proof. apply Z.pow_pos_nonneg; unfold DIG_BASE; lia. Qed.

Lemma base_S n : DIG_BASE ^ Z.of_nat (S n) = DIG_BASE * DIG_BASE ^ Z.of_nat n.
Proof. rewrite Nat2Z.inj_succ, Z.pow_succ_r by lia. done. Qed.

Lemma base_add a b : DIG_BASE ^ Z.of_nat (a + b) = DIG_BASE ^ Z.of_nat a * DIG_BASE ^ Z.of_nat b.
Proof. rewrite Nat2Z.inj_add, Z.pow_add_r by lia. done. Qed.

Lemma ws_ext f g n : (forall k, 0 <= k < Z.of_nat n -> f k = g k) -> ws f n = ws g n.
Proof.
  induction n as [| n IH]; intros H; cbn [ws]; [done |].
  rewrite IH by (intros; apply H; lia). by rewrite H by lia.
Qed.

Lemma ws_app f a b :
  ws f (a + b) = ws f a + DIG_BASE ^ Z.of_nat a * ws (fun k => f (k + Z.of_nat a)) b.
Proof.
  induction b as [| b IH]; [rewrite Nat.add_0_r; cbn [ws]; lia |].
  rewrite Nat.add_succ_r. cbn [ws]. rewrite IH, base_add.
  replace (Z.of_nat (a + b)) with (Z.of_nat b + Z.of_nat a) by lia. ring.
Qed.

Lemma ws_bound f n :
  (forall k, 0 <= k < Z.of_nat n -> 0 <= f k < DIG_BASE) -> 0 <= ws f n < DIG_BASE ^ Z.of_nat n.
Proof.
  induction n as [| n IH]; intros H; cbn [ws]; [rewrite Z.pow_0_r; lia |].
  rewrite base_S. pose proof (base_pos n). specialize (H (Z.of_nat n)) as Hn.
  assert (0 <= ws f n < DIG_BASE ^ Z.of_nat n) by (apply IH; intros; apply H; lia).
  assert (0 <= f (Z.of_nat n) <= DIG_BASE - 1) by lia. nia.
Qed.

Lemma ws_zero f n : (forall k, 0 <= k < Z.of_nat n -> f k = 0) -> ws f n = 0.
Proof.
  induction n as [| n IH]; intros H; cbn [ws]; [done |].
  rewrite IH by (intros; apply H; lia). rewrite H by lia. lia.
Qed.

Lemma ws_pos f n i :
  (forall k, 0 <= k < Z.of_nat n -> 0 <= f k) -> 0 <= i < Z.of_nat n -> f i <> 0 -> 0 < ws f n.
Proof.
  induction n as [| n IH]; intros Hr Hi Hne; cbn [ws]; [lia |]. pose proof (base_pos n).
  assert (0 <= ws f n).
  { clear IH Hi. induction n as [| n IH]; cbn [ws]; [lia |]. pose proof (base_pos n).
    assert (0 <= ws f n) by (apply IH; [intros; apply Hr; lia | done]).
    pose proof (Hr (Z.of_nat n) ltac:(lia)). nia. }
  pose proof (Hr (Z.of_nat n) ltac:(lia)).
  destruct (decide (i = Z.of_nat n)) as [-> |]; [nia |].
  assert (0 < ws f n); [| nia]. apply IH; [intros; apply Hr; lia | lia | done].
Qed.

Lemma ws_add f g n : ws (fun k => f k + g k) n = ws f n + ws g n.
Proof. induction n as [| n IH]; cbn [ws]; [done |]. rewrite IH. lia. Qed.

Lemma ws_sub f g n : ws (fun k => f k - g k) n = ws f n - ws g n.
Proof. induction n as [| n IH]; cbn [ws]; [done |]. rewrite IH. lia. Qed.

(** Two numbers are ordered as their first different words. *)
Lemma ws_lt f g n i :
  0 <= i < Z.of_nat n -> f i < g i ->
  (forall k, i < k < Z.of_nat n -> f k = g k) ->
  (forall k, 0 <= k < Z.of_nat n -> 0 <= f k < DIG_BASE /\ 0 <= g k < DIG_BASE) ->
  ws f n < ws g n.
Proof.
  induction n as [| n IH]; intros Hi Hlt Heq Hr; [lia |]. cbn [ws].
  destruct (decide (i = Z.of_nat n)) as [-> | Hn].
  - pose proof (ws_bound f n ltac:(intros; apply Hr; lia)).
    pose proof (ws_bound g n ltac:(intros; apply Hr; lia)).
    pose proof (base_pos n). nia.
  - rewrite (Heq (Z.of_nat n)) by lia.
    assert (ws f n < ws g n); [| lia]. apply IH; [lia | done | |]; intros; [apply Heq | apply Hr]; lia.
Qed.

(** [phase xs n p0 m c m' c']: the cells [p0-n .. p0-1] of [m] become, in [m'],
    the words of the number with the "words" [xs] (each a sum or a difference)
    plus [c], the carry [c'] left over; the other cells stay. *)
Definition phase (xs : Z -> Z) (n : nat) (p0 : Z) (m : list Z) (c : Z) (m' : list Z) (c' : Z) : Prop :=
  length m' = length m /\
  (forall j, ~ (p0 - Z.of_nat n <= j < p0) -> at_ m' j = at_ m j) /\
  (forall k, 0 <= k < Z.of_nat n -> 0 <= at_ m' (p0 - 1 - k) < DIG_BASE) /\
  ws (fun k => at_ m' (p0 - 1 - k)) n + c' * DIG_BASE ^ Z.of_nat n = ws xs n + c.

Lemma phase_0 xs p0 m c : phase xs 0 p0 m c m c.
Proof. unfold phase. cbn [ws]. split_and!; [done | done | lia | lia]. Qed.

Lemma phase_snoc xs n p0 m c m' c' r c'' :
  phase xs n p0 m c m' c' -> 0 <= p0 - 1 - Z.of_nat n -> p0 <= Z.of_nat (length m) ->
  0 <= r < DIG_BASE -> r + c'' * DIG_BASE = xs (Z.of_nat n) + c' ->
  phase xs (S n) p0 m c (<[Z.to_nat (p0 - 1 - Z.of_nat n) := r]> m') c''.
Proof.
  intros (Hl & Hout & Hr & Hv) Hlo Hhi Hrr Hstep. unfold phase. rewrite length_insert.
  assert (Hin : 0 <= p0 - 1 - Z.of_nat n < Z.of_nat (length m')) by lia.
  split_and!; [done | | |].
  - intros j Hj. rewrite at_insert, decide_False by lia. apply Hout. lia.
  - intros k Hk. rewrite at_insert by lia. case_decide; [done |]. apply Hr. lia.
  - cbn [ws]. rewrite (ws_ext _ (fun k => at_ m' (p0 - 1 - k))).
    + rewrite at_insert, decide_True by lia. rewrite base_S.
      pose proof (base_pos n). nia.
    + intros k Hk. rewrite at_insert, decide_False by lia. done.
Qed.

Lemma phase_seq xs n n' p0 m c m1 c1 m2 c2 :
  phase xs n p0 m c m1 c1 ->
  phase (fun k => xs (k + Z.of_nat n)) n' (p0 - Z.of_nat n) m1 c1 m2 c2 ->
  phase xs (n + n') p0 m c m2 c2.
Proof.
  intros (Hl & Hout & Hr & Hv) (Hl' & Hout' & Hr' & Hv').
  assert (Hlow : forall k, 0 <= k < Z.of_nat n -> at_ m2 (p0 - 1 - k) = at_ m1 (p0 - 1 - k))
    by (intros; apply Hout'; lia).
  unfold phase. split_and!; [lia | | |].
  - intros j Hj. rewrite Hout', Hout by lia. done.
  - intros k Hk. destruct (decide (k < Z.of_nat n)).
    + rewrite Hlow by lia. apply Hr. lia.
    + replace (p0 - 1 - k) with (p0 - Z.of_nat n - 1 - (k - Z.of_nat n)) by lia. apply Hr'. lia.
  - rewrite !ws_app, base_add.
    rewrite (ws_ext _ (fun k => at_ m1 (p0 - 1 - k))) by done.
    rewrite (ws_ext (fun k => at_ m2 (p0 - 1 - (k + Z.of_nat n)))
      (fun k => at_ m2 (p0 - Z.of_nat n - 1 - k))) by (intros; f_equal; lia).
    pose proof (base_pos n). nia.
Qed.

Lemma phase_ext xs ys n p0 m c m' c' :
  (forall k, 0 <= k < Z.of_nat n -> xs k = ys k) -> phase xs n p0 m c m' c' -> phase ys n p0 m c m' c'.
Proof. intros H (? & ? & ? & Hv). unfold phase. by rewrite <- (ws_ext xs ys). Qed.

(** ** The loops are phases *)

Lemma ADD_step a b c :
  0 <= a < DIG_BASE -> 0 <= b < DIG_BASE -> 0 <= c <= 1 ->
  exists r c', ADD a b c = (r, c') /\ 0 <= r < DIG_BASE /\ 0 <= c' <= 1 /\
    r + 1 * c' * DIG_BASE = a + b + 1 * c.
Proof.
  intros Ha Hb Hc. unfold ADD, DIG_BASE in *. rewrite swrap_small by lia.
  case_bool_decide; eexists _, _; (split; [reflexivity |]); lia.
Qed.

Lemma SUB_step a b c :
  0 <= a < DIG_BASE -> 0 <= b < DIG_BASE -> 0 <= c <= 1 ->
  exists r c', SUB a b c = (r, c') /\ 0 <= r < DIG_BASE /\ 0 <= c' <= 1 /\
    r + -1 * c' * DIG_BASE = a - b + -1 * c.
Proof.
  intros Ha Hb Hc. unfold SUB, DIG_BASE in *. rewrite swrap_small by lia.
  case_bool_decide; eexists _, _; (split; [reflexivity |]); lia.
Qed.

Section Loops.
Context (p0 : Z) (m : list Z) (n : nat).
Hypothesis (Hlo : 0 <= p0 - Z.of_nat n) (Hhi : p0 <= Z.of_nat (length m)).

Lemma op_down_phase op xs cmap (x y : Z -> option Z) xv yv carry :
  (forall k, 0 <= k < Z.of_nat n -> x k = Some (xv k) /\ y k = Some (yv k)) ->
  (0 <= carry <= 1) ->
  (forall k c, 0 <= k < Z.of_nat n -> 0 <= c <= 1 -> exists r c',
     op (xv k) (yv k) c = (r, c') /\ 0 <= r < DIG_BASE /\ 0 <= c' <= 1 /\
     r + cmap * c' * DIG_BASE = xs k + cmap * c) ->
  exists m' carry', op_down op x y (Z.of_nat n) p0 m carry = Some (m', carry') /\
    0 <= carry' <= 1 /\ phase xs n p0 m (cmap * carry) m' (cmap * carry').
Proof.
  intros Hxy Hc Hop. unfold op_down. rewrite Nat2Z.id.
  destruct (for_up_rule (fun k '(m', c') => 0 <= c' <= 1 /\
      phase xs (Z.to_nat k) p0 m (cmap * carry) m' (cmap * c')) n 0
      (fun k '(m, carry) => a ← x k; b ← y k; let '(r, carry) := op a b carry in
         m ← store m (p0 - 1 - k) r; Some (m, carry)) (m, carry)) as ([m' c'] & -> & Hc' & Hph).
  - split; [done | apply phase_0].
  - intros k [mk ck] Hk [Hck Hph]. destruct (Hxy k) as [-> ->]; [lia |].
    destruct (Hop k ck) as (r & c' & Er & Hr & Hc' & Hstep); [lia | done |].
    cbn [mbind option_bind]. rewrite Er.
    assert (length mk = length m) by apply Hph.
    rewrite store_in by lia. cbn [mbind option_bind]. eexists; split; [done |].
    split; [done |].
    replace (Z.to_nat (k + 1)) with (S (Z.to_nat k)) by lia.
    replace (p0 - 1 - k) with (p0 - 1 - Z.of_nat (Z.to_nat k)) by lia.
    eapply phase_snoc; [done | lia | lia | lia |].
    rewrite Z2Nat.id by lia. lia.
  - exists m', c'. rewrite Z.add_0_l, Nat2Z.id in Hph. done.
Qed.

Lemma zero_down_phase z :
  Z.to_nat z = n ->
  exists m', zero_down z p0 m = Some (m', p0 - Z.of_nat n) /\ phase (fun _ => 0) n p0 m 0 m' 0.
Proof.
  intros Hz. unfold zero_down. rewrite Hz.
  destruct (for_up_rule (fun k m' => phase (fun _ => 0) (Z.to_nat k) p0 m 0 m' 0) n 0
      (fun k m => store m (p0 - 1 - k) 0) m) as (m' & -> & Hph).
  - apply phase_0.
  - intros k mk Hk Hph. assert (length mk = length m) by apply Hph.
    rewrite store_in by lia. eexists; split; [done |].
    replace (Z.to_nat (k + 1)) with (S (Z.to_nat k)) by lia.
    replace (p0 - 1 - k) with (p0 - 1 - Z.of_nat (Z.to_nat k)) by lia.
    eapply phase_snoc; [done | lia | lia | unfold DIG_BASE; lia | lia].
  - exists m'. rewrite Z.add_0_l, Nat2Z.id in Hph. done.
Qed.

Lemma copy_down_phase b1 stop p1 xv :
  Z.to_nat (p1 - stop) = n ->
  (forall k, 0 <= k < Z.of_nat n -> load b1 (p1 - 1 - k) = Some (xv k) /\ 0 <= xv k < DIG_BASE) ->
  exists m', copy_down b1 stop p1 p0 m = Some (m', p0 - Z.of_nat n, p1 - Z.of_nat n) /\
    phase xv n p0 m 0 m' 0.
Proof.
  intros Hn Hx. unfold copy_down. rewrite Hn.
  destruct (for_up_rule (fun k m' => phase xv (Z.to_nat k) p0 m 0 m' 0) n 0
      (fun k m => x ← load b1 (p1 - 1 - k); store m (p0 - 1 - k) x) m) as (m' & -> & Hph).
  - apply phase_0.
  - intros k mk Hk Hph. assert (length mk = length m) by apply Hph.
    destruct (Hx k) as [-> Hr]; [lia |]. cbn [mbind option_bind].
    rewrite store_in by lia. eexists; split; [done |].
    replace (Z.to_nat (k + 1)) with (S (Z.to_nat k)) by lia.
    replace (p0 - 1 - k) with (p0 - 1 - Z.of_nat (Z.to_nat k)) by lia.
    eapply phase_snoc; [done | lia | lia | lia |]. rewrite Z2Nat.id by lia. lia.
  - exists m'. rewrite Z.add_0_l, Nat2Z.id in Hph. done.
Qed.
End Loops.

(** Borrowing and then copying the rest is one phase. *)
Lemma borrow_copy_phase n b1 p1 p0 m carry start xv :
  0 <= p0 - Z.of_nat n -> p0 <= Z.of_nat (length m) -> p1 = start + Z.of_nat n ->
  (forall k, 0 <= k < Z.of_nat n -> load b1 (p1 - 1 - k) = Some (xv k) /\ 0 <= xv k < DIG_BASE) ->
  0 <= carry <= 1 ->
  exists m1 q0 q1 m2 carry', borrow_down n b1 p1 p0 m carry = Some (m1, q0, q1) /\
    copy_down b1 start q1 q0 m1 = Some (m2, p0 - Z.of_nat n, start) /\
    0 <= carry' <= 1 /\ phase xv n p0 m (-1 * carry) m2 (-1 * carry').
Proof.
  revert p1 p0 m carry xv; induction n as [| n IH];
    intros p1 p0 m carry xv Hlo Hhi Hp1 Hx Hc; cbn [borrow_down].
  - exists m, p0, p1.
    destruct (copy_down_phase p0 m 0 ltac:(lia) ltac:(lia) b1 start p1 xv) as (m2 & Hcp & Hph);
      [lia | lia |].
    exists m2, carry. split; [done |]. rewrite Hcp. split; [by repeat (f_equal; try lia) |].
    split; [done |]. destruct Hph as (? & ? & ? & Hv). split_and!; try done. cbn [ws] in *. lia.
  - case_bool_decide as Hz.
    + subst carry. exists m, p0, p1.
      destruct (copy_down_phase p0 m (S n) ltac:(lia) ltac:(lia) b1 start p1 xv)
        as (m2 & Hcp & Hph); [lia | done |].
      exists m2, 0. split; [done |]. rewrite Hcp. split; [by repeat (f_equal; try lia) |]. done.
    + destruct (Hx 0) as [Hx0 Hr0]; [lia |]. replace (p1 - 1) with (p1 - 1 - 0) by lia.
      rewrite Hx0. cbn [mbind option_bind].
      destruct (SUB_step (xv 0) 0 carry) as (r & c' & -> & Hr & Hc' & Hstep);
        [done | unfold DIG_BASE; lia | done |].
      rewrite store_in by lia. cbn [mbind option_bind].
      destruct (IH (p1 - 1 - 0) (p0 - 1) (<[Z.to_nat (p0 - 1):=r]> m) c' (fun k => xv (k + 1)))
        as (m1 & q0 & q1 & m2 & c2 & -> & Hcp & Hc2 & Hph);
        [lia | rewrite length_insert; lia | lia | | done |].
      { intros k Hk. replace (p1 - 1 - 0 - 1 - k) with (p1 - 1 - (k + 1)) by lia. apply Hx. lia. }
      exists m1, q0, q1, m2, c2. split; [done |]. rewrite Hcp. split; [by repeat (f_equal; try lia) |].
      split; [done |].
      apply (phase_seq xv 1 n p0 m _ (<[Z.to_nat (p0 - 1):=r]> m) (-1 * c')); [| done].
      replace (p0 - 1) with (p0 - 1 - Z.of_nat 0) by lia.
      apply (phase_snoc xv 0 p0 m (-1 * carry) m (-1 * carry)); [apply phase_0 | lia | lia | lia |].
      change (Z.of_nat 0) with 0. lia.
Qed.

(** ** The value of a decimal *)

(** The words in front of and behind the point. *)
Definition iw (d : decimal_t) : Z := ROUND_UP (intg d).
Definition fw (d : decimal_t) : Z := ROUND_UP (frac d).

(** A decimal whose words lie inside its buffer, each below [DIG_BASE]; without
    words, the first word is still read. *)
Record wf (d : decimal_t) : Prop := mk_wf {
  wf_intg : 0 <= intg d;
  wf_frac : 0 <= frac d;
  wf_len : len d = Z.of_nat (length (buf d));
  wf_pos : 0 < len d;
  wf_fit : iw d + fw d <= len d;
  wf_sign : 0 <= sign d <= 1;
  wf_words : forall i, 0 <= i < Z.max 1 (iw d + fw d) -> 0 <= at_ (buf d) i < DIG_BASE }.

(** All the words as one integer: the absolute value times [DIG_BASE ^ fw d]. *)
Definition dval (d : decimal_t) : Z :=
  ws (fun k => at_ (buf d) (iw d + fw d - 1 - k)) (Z.to_nat (iw d + fw d)).

(** The absolute value with [F] words behind the point (the others cut off),
    times [DIG_BASE ^ F]. *)
Definition absval (F : Z) (d : decimal_t) : Z := dval d * DIG_BASE ^ F / DIG_BASE ^ fw d.

Definition sval (F : Z) (d : decimal_t) : Z :=
  if bool_decide (sign d = 0) then absval F d else - absval F d.

(** The word of weight [DIG_BASE ^ e], for a number in [b] whose point is at
    index [pt], with [i] words in front of it and [f] words behind. *)
Definition dig (b : list Z) (pt i f e : Z) : Z :=
  if decide (- f <= e < i) then at_ b (pt - 1 - e) else 0.

Definition word (d : decimal_t) (e : Z) : Z := dig (buf d) (iw d) (iw d) (fw d) e.

Lemma ROUND_UP_div x : 0 <= x -> ROUND_UP x = (x + 8) / 9.
Proof.
  intros. unfold ROUND_UP, DIG_PER_DEC1. rewrite Z.quot_div_nonneg by lia. f_equal. lia.
Qed.

Lemma ROUND_UP_nonneg x : 0 <= x -> 0 <= ROUND_UP x.
Proof. intros. rewrite ROUND_UP_div by done. Zlia. Qed.

Lemma ROUND_UP_mul k : 0 <= k -> ROUND_UP (k * 9) = k.
Proof. intros. rewrite ROUND_UP_div by lia. Zlia. Qed.

Lemma ROUND_UP_max a b : 0 <= a -> 0 <= b -> ROUND_UP (Z.max a b) = Z.max (ROUND_UP a) (ROUND_UP b).
Proof. intros. rewrite !ROUND_UP_div by lia. Zlia. Qed.

Lemma ROUND_UP_min a b : 0 <= a -> 0 <= b -> ROUND_UP (Z.min a b) = Z.min (ROUND_UP a) (ROUND_UP b).
Proof. intros. rewrite !ROUND_UP_div by lia. Zlia. Qed.

Lemma ROUND_UP_mono a b : 0 <= a <= b -> ROUND_UP a <= ROUND_UP b.
Proof. intros. rewrite !ROUND_UP_div by lia. Zlia. Qed.

Lemma iw_nonneg d : wf d -> 0 <= iw d.
Proof. intros []. by apply ROUND_UP_nonneg. Qed.

Lemma fw_nonneg d : wf d -> 0 <= fw d.
Proof. intros []. by apply ROUND_UP_nonneg. Qed.
#[local] Hint Resolve iw_nonneg fw_nonneg : core.

Lemma word_range d e : wf d -> 0 <= word d e < DIG_BASE.
Proof.
  intros Hd. unfold word, dig. case_decide; [| unfold DIG_BASE; lia].
  apply wf_words; [done | lia].
Qed.

Lemma load_word d e : wf d -> - fw d <= e < iw d -> load (buf d) (iw d - 1 - e) = Some (word d e).
Proof.
  intros Hd He. pose proof (wf_fit d Hd). pose proof (wf_len d Hd).
  unfold word, dig. rewrite decide_True by lia. apply load_at. lia.
Qed.

Lemma load_first d : wf d -> load (buf d) 0 = Some (at_ (buf d) 0).
Proof. intros []. apply load_at. lia. Qed.

(** The value read off the words: any window that holds the integer part. *)
Lemma absval_ws d F I :
  wf d -> iw d <= I -> 0 <= F -> ws (fun k => word d (k - F)) (Z.to_nat (I + F)) = absval F d.
Proof.
  intros Hd HI HF. pose proof (iw_nonneg d Hd). pose proof (fw_nonneg d Hd).
  assert (HB : DIG_BASE ^ fw d <> 0) by (apply Z.pow_nonzero; unfold DIG_BASE; lia).
  assert (Htop : ws (fun k => word d (k - F)) (Z.to_nat (I + F))
               = ws (fun k => word d (k - F)) (Z.to_nat (iw d + F))).
  { replace (Z.to_nat (I + F)) with (Z.to_nat (iw d + F) + Z.to_nat (I - iw d))%nat by lia.
    rewrite ws_app, (ws_zero (fun k => word d (k + _ - F))); [lia |].
    intros k Hk. unfold word, dig. rewrite decide_False by lia. done. }
  assert (Hval : dval d = ws (fun k => word d (k - fw d)) (Z.to_nat (iw d + fw d))).
  { apply ws_ext. intros k Hk. unfold word, dig. rewrite decide_True by lia. f_equal. lia. }
  rewrite Htop. unfold absval. destruct (decide (fw d <= F)).
  - replace (Z.to_nat (iw d + F)) with (Z.to_nat (F - fw d) + Z.to_nat (iw d + fw d))%nat by lia.
    rewrite ws_app, ws_zero by (intros k Hk; unfold word, dig; rewrite decide_False by lia; done).
    rewrite (ws_ext _ (fun k => word d (k - fw d))) by (intros; f_equal; lia).
    rewrite <- Hval. replace F with (F - fw d + fw d) at 2 by lia.
    rewrite Z.pow_add_r by lia. rewrite Z.mul_assoc, Z.div_mul by done.
    rewrite Z2Nat.id by lia. lia.
  - rewrite Hval.
    replace (Z.to_nat (iw d + fw d)) with (Z.to_nat (fw d - F) + Z.to_nat (iw d + F))%nat by lia.
    rewrite ws_app. rewrite (ws_ext (fun k => word d (k + _ - fw d)) (fun k => word d (k - F)))
      by (intros; f_equal; lia).
    pose proof (ws_bound (fun k => word d (k - fw d)) (Z.to_nat (fw d - F))
      ltac:(intros; by apply word_range)) as Hb.
    rewrite Z2Nat.id in Hb |- * by lia.
    replace (DIG_BASE ^ fw d) with (DIG_BASE ^ (fw d - F) * DIG_BASE ^ F)
      by (rewrite <- Z.pow_add_r by lia; f_equal; lia).
    rewrite Z.div_mul_cancel_r by (apply Z.pow_nonzero; unfold DIG_BASE; lia).
    rewrite (Z.mul_comm (DIG_BASE ^ (fw d - F)) (ws _ _)), Z.div_add, Z.div_small by lia. lia.
Qed.

(** The words of a result: its value is read off its buffer. *)
Lemma absval_buf d F I (m : list Z) :
  wf d -> buf d = m -> iw d = I -> fw d = F ->
  absval F d = ws (fun k => at_ m (I + F - 1 - k)) (Z.to_nat (I + F)).
Proof.
  intros Hd <- <- <-. unfold absval, dval. apply Z.div_mul, Z.pow_nonzero; [unfold DIG_BASE; lia |].
  auto.
Qed.

(** A decimal built from the result of a phase over all its words. *)
Lemma wf_phase xs n m c m' c' i f l s :
  phase xs n (ROUND_UP i + ROUND_UP f) m c m' c' -> Z.of_nat n = ROUND_UP i + ROUND_UP f ->
  0 <= i -> 0 <= f -> l = Z.of_nat (length m) -> 0 < ROUND_UP i + ROUND_UP f <= l -> 0 <= s <= 1 ->
  wf (mk_decimal i f l s m').
Proof.
  intros (Hl & Hout & Hr & _) Hn Hi Hf Hlen Hfit Hs. split; unfold iw, fw; simpl; try lia.
  intros k Hk. replace k with (ROUND_UP i + ROUND_UP f - 1 - (ROUND_UP i + ROUND_UP f - 1 - k)) by lia.
  apply Hr. lia.
Qed.

(** ** Addition *)

Definition sum_word (d1 d2 : decimal_t) (e : Z) : Z := word d1 e + word d2 e.

(** Parts 1 and 2: [a] is the operand with more words behind the point. *)
Lemma add_low a b F p0 m :
  wf a -> wf b -> 0 <= F <= fw a -> F + Z.min (iw a) (iw b) <= p0 <= Z.of_nat (length m) ->
  exists m1 m2 c,
    copy_down (buf a) (iw a + Z.min (fw b) F) (iw a + F) p0 m =
      Some (m1, p0 - (F - Z.min (fw b) F), iw a + Z.min (fw b) F) /\
    op_down ADD (fun k => load (buf a) (iw a + Z.min (fw b) F - 1 - k))
      (fun k => load (buf b) (iw b + Z.min (fw b) F - 1 - k))
      (Z.min (iw a) (iw b) + Z.min (fw b) F) (p0 - (F - Z.min (fw b) F)) m1 0 = Some (m2, c) /\
    0 <= c <= 1 /\
    phase (fun k => sum_word a b (k - F)) (Z.to_nat (F + Z.min (iw a) (iw b))) p0 m 0 m2 c.
Proof.
  intros Ha Hb HF Hp0. pose proof (iw_nonneg a Ha). pose proof (iw_nonneg b Hb).
  pose proof (fw_nonneg b Hb). set (fb := Z.min (fw b) F). assert (0 <= fb <= F) by lia.
  destruct (copy_down_phase p0 m (Z.to_nat (F - fb)) ltac:(lia) ltac:(lia) (buf a) (iw a + fb)
    (iw a + F) (fun k => word a (k - F))) as (m1 & Hcp & Hph1); [f_equal; lia | |].
  { intros k Hk. split; [| by apply word_range].
    rewrite <- load_word by (done || lia). f_equal. lia. }
  rewrite Z2Nat.id in Hcp by lia.
  assert (length m1 = length m) by apply Hph1.
  destruct (op_down_phase (p0 - (F - fb)) m1 (Z.to_nat (Z.min (iw a) (iw b) + fb))
    ltac:(lia) ltac:(lia) ADD (fun k => sum_word a b (k - fb)) 1
    (fun k => load (buf a) (iw a + fb - 1 - k)) (fun k => load (buf b) (iw b + fb - 1 - k))
    (fun k => word a (k - fb)) (fun k => word b (k - fb)) 0) as (m2 & c & Hop & Hc & Hph2).
  - intros k Hk. split; (rewrite <- load_word by (done || lia)); f_equal; lia.
  - lia.
  - intros k c Hk Hc. by apply ADD_step; try apply word_range.
  - rewrite Z2Nat.id in Hop by lia. exists m1, m2, c. split_and!; [| done | lia | lia |].
    { rewrite Hcp. by repeat (f_equal; try lia). }
    replace (Z.to_nat (F + Z.min (iw a) (iw b)))
      with (Z.to_nat (F - fb) + Z.to_nat (Z.min (iw a) (iw b) + fb))%nat by lia.
    eapply phase_seq.
    + eapply phase_ext; [| exact Hph1]. intros k Hk. unfold sum_word, word at 3, dig.
      rewrite decide_False by lia. lia.
    + rewrite Z.mul_0_r in Hph2. rewrite Z.mul_1_l in Hph2. rewrite Z2Nat.id by lia.
      eapply phase_ext; [| exact Hph2]. intros k Hk. cbn beta. f_equal. lia.
Qed.

(** Part 3: [a] is the operand with more words in front of the point. *)
Lemma add_high a b p m c :
  wf a -> wf b -> iw b <= iw a -> iw a - iw b <= p <= Z.of_nat (length m) -> 0 <= c <= 1 ->
  exists m' c', op_down ADD (fun k => load (buf a) (iw a - iw b - 1 - k)) (fun _ => Some 0)
      (iw a - iw b) p m c = Some (m', c') /\ 0 <= c' <= 1 /\
    phase (fun k => sum_word a b (k + iw b)) (Z.to_nat (iw a - iw b)) p m c m' c'.
Proof.
  intros Ha Hb Hi Hp Hc. pose proof (iw_nonneg b Hb). pose proof (fw_nonneg a Ha).
  destruct (op_down_phase p m (Z.to_nat (iw a - iw b)) ltac:(lia) ltac:(lia) ADD
    (fun k => sum_word a b (k + iw b)) 1 (fun k => load (buf a) (iw a - iw b - 1 - k))
    (fun _ => Some 0) (fun k => word a (k + iw b)) (fun _ => 0) c) as (m' & c' & Hop & Hc' & Hph).
  - intros k Hk. split; [| done]. rewrite <- load_word by (done || lia). f_equal. lia.
  - done.
  - intros k c0 Hk Hc0. unfold sum_word. replace (word b (k + iw b)) with 0.
    + apply ADD_step; [by apply word_range | unfold DIG_BASE; lia | done].
    + unfold word, dig. rewrite decide_False by lia. done.
  - rewrite Z2Nat.id in Hop by lia. rewrite !Z.mul_1_l in Hph. by exists m', c'.
Qed.

Lemma sum_word_comm a b e : sum_word a b e = sum_word b a e.
Proof. unfold sum_word. lia. Qed.

(** Without an extra word the last carry is zero: the first words sum up to at
    most [DIG_MAX - 1]. *)
Lemma add_no_carry a b F I m m' c :
  wf a -> wf b -> I = Z.max (iw a) (iw b) -> 0 <= F -> 0 <= c ->
  (0 < I + F -> sum_word a b (I - 1) <= DIG_MAX - 1) ->
  phase (fun k => sum_word a b (k - F)) (Z.to_nat (I + F)) (I + F) m 0 m' c -> c = 0.
Proof.
  intros Ha Hb HI HF Hc Htop (_ & _ & Hr & Hv). pose proof (iw_nonneg a Ha).
  pose proof (ws_bound _ _ Hr) as Hb1.
  destruct (decide (I + F = 0)) as [E | E].
  { rewrite E in Hv, Hb1. change (Z.to_nat 0) with 0%nat in Hv, Hb1. cbn [ws] in Hv. lia. }
  replace (Z.to_nat (I + F)) with (S (Z.to_nat (I + F - 1))) in Hv, Hb1 by lia.
  cbn [ws] in Hv. set (n := Z.to_nat (I + F - 1)) in *.
  assert (Hs : ws (fun k => sum_word a b (k - F)) n < 2 * DIG_BASE ^ Z.of_nat n).
  { unfold sum_word. rewrite ws_add.
    pose proof (ws_bound (fun k => word a (k - F)) n ltac:(intros; by apply word_range)).
    pose proof (ws_bound (fun k => word b (k - F)) n ltac:(intros; by apply word_range)). lia. }
  replace (Z.of_nat n - F) with (I - 1) in Hv by lia.
  assert (Ht : sum_word a b (I - 1) <= DIG_MAX - 1) by (apply Htop; lia).
  rewrite base_S in Hv, Hb1. unfold DIG_MAX in Ht. pose proof (base_pos n).
  pose proof (ws_bound (fun k => at_ m' (I + F - 1 - k)) n ltac:(intros; apply Hr; lia)).
  assert (sum_word a b (I - 1) * DIG_BASE ^ Z.of_nat n
    <= (DIG_BASE - 2) * DIG_BASE ^ Z.of_nat n) by nia.
  assert (c * (DIG_BASE * DIG_BASE ^ Z.of_nat n) < DIG_BASE * DIG_BASE ^ Z.of_nat n).
  { cbn [ws] in Hb1. lia. }
  nia.
Qed.

Lemma fill_max_words n (m : list Z) :
  0 <= n <= Z.of_nat (length m) ->
  exists m', fill_max n 0 m = Some m' /\ length m' = length m /\
    forall i, 0 <= i < n -> at_ m' i = DIG_MAX.
Proof.
  intros Hn. unfold fill_max.
  destruct (for_up_fill DIG_MAX (Z.to_nat n) 0 m) as (m' & -> & Hl & Hm); [lia | lia |].
  exists m'. split_and!; [done | done |]. intros i Hi. unfold at_.
  rewrite Hm, decide_True by lia. done.
Qed.

Lemma ws_max n : ws (fun _ => DIG_MAX) n = DIG_BASE ^ Z.of_nat n - 1.
Proof.
  induction n as [| n IH]; cbn [ws]; [done |]. rewrite IH, base_S. unfold DIG_MAX. lia.
Qed.

(** What an overflow stores: the largest number of [len] words, positive. *)
Lemma max_decimal_full to :
  len to = Z.of_nat (length (buf to)) -> 0 < len to ->
  exists to', max_decimal (len to * DIG_PER_DEC1) 0 to = Some to' /\ wf to' /\
    len to' = len to /\ sign to' = 0 /\ iw to' = len to /\ fw to' = 0 /\
    dval to' = DIG_BASE ^ len to - 1.
Proof.
  intros Hl Hp. unfold max_decimal. rewrite Z.sub_0_r.
  rewrite (bool_decide_true (len to * DIG_PER_DEC1 <> 0)) by (unfold DIG_PER_DEC1; lia).
  rewrite Z.rem_mul, bool_decide_false by (done || (unfold DIG_PER_DEC1; lia)).
  cbn [mbind option_bind]. rewrite Z.quot_mul by (unfold DIG_PER_DEC1; lia).
  destruct (fill_max_words (len to) (buf to)) as (m' & -> & Hlm & Hm); [lia |].
  cbn [mbind option_bind].
  eexists; split; [done |].
  assert (Hiw : ROUND_UP (len to * DIG_PER_DEC1) = len to) by (apply ROUND_UP_mul; lia).
  unfold iw, fw, dval. simpl. split_and!; try done.
  - split; unfold iw, fw; simpl; rewrite ?Hiw; change (ROUND_UP 0) with 0;
      unfold DIG_PER_DEC1; try lia.
    intros i Hi. rewrite Hm by lia. unfold DIG_MAX, DIG_BASE. lia.
  - unfold iw, fw; simpl. rewrite Hiw. change (ROUND_UP 0) with 0.
    rewrite (ws_ext _ (fun _ => DIG_MAX)) by (intros; apply Hm; lia).
    rewrite ws_max, Z2Nat.id by lia. by rewrite Z.add_0_r.
Qed.

(** The words that the integer part of the sum may need. *)
Definition add_first (d1 d2 : decimal_t) : Z :=
  if decide (iw d1 > iw d2) then at_ (buf d1) 0
  else if decide (iw d2 > iw d1) then at_ (buf d2) 0
  else at_ (buf d1) 0 + at_ (buf d2) 0.

Definition add_intg (d1 d2 : decimal_t) : Z :=
  Z.max (iw d1) (iw d2) + (if decide (add_first d1 d2 > DIG_MAX - 1) then 1 else 0).

Lemma add_first_top d1 d2 F :
  wf d1 -> wf d2 -> 0 <= F <= Z.max (fw d1) (fw d2) -> 0 < Z.max (iw d1) (iw d2) + F ->
  sum_word d1 d2 (Z.max (iw d1) (iw d2) - 1) <= add_first d1 d2.
Proof.
  intros H1 H2 HF Hpos.
  pose proof (iw_nonneg d1 H1). pose proof (iw_nonneg d2 H2).
  pose proof (wf_words d1 H1 0 ltac:(lia)). pose proof (wf_words d2 H2 0 ltac:(lia)).
  unfold add_first, sum_word, word, dig. repeat case_decide; try lia.
  all: repeat match goal with |- context [at_ ?b ?i] =>
    progress replace i with 0 by lia end; lia.
Qed.

(** What the addition leaves in [to], given the words [I] of its integer part. *)
Definition added (d1 d2 to : decimal_t) (I err : Z) (to' : decimal_t) : Prop :=
  wf to' /\ len to' = len to /\
  if decide (len to < I)
  then err = E_DEC_OVERFLOW /\ sign to' = 0 /\ fw to' = 0 /\ dval to' = DIG_BASE ^ len to - 1
  else iw to' = I /\ fw to' = Z.min (Z.max (fw d1) (fw d2)) (len to - I) /\
    frac to' = Z.min (Z.max (frac d1) (frac d2)) (fw to' * DIG_PER_DEC1) /\
    err = (if decide (Z.max (fw d1) (fw d2) <= fw to') then E_DEC_OK else E_DEC_TRUNCATED) /\
    sign to' = sign d1 /\ absval (fw to') to' = absval (fw to') d1 + absval (fw to') d2.

Lemma add_high_part_spec d1 d2 p m c :
  wf d1 -> wf d2 -> Z.max (iw d1) (iw d2) - Z.min (iw d1) (iw d2) <= p <= Z.of_nat (length m) ->
  0 <= c <= 1 ->
  exists n m' c', n = Z.max (iw d1) (iw d2) - Z.min (iw d1) (iw d2) /\
    add_high_part d1 d2 (iw d1) (iw d2) p m c = Some (m', c', p - n) /\ 0 <= c' <= 1 /\
    phase (fun k => sum_word d1 d2 (k + Z.min (iw d1) (iw d2))) (Z.to_nat n) p m c m' c'.
Proof.
  intros H1 H2 Hp Hc. unfold add_high_part. case_bool_decide.
  - destruct (add_high d1 d2 p m c) as (m' & c' & Hop & Hc' & Hph); [done..| lia | lia | done |].
    exists (iw d1 - iw d2), m', c'. rewrite Hop, Z.min_r by lia. split_and!; done || lia.
  - destruct (add_high d2 d1 p m c) as (m' & c' & Hop & Hc' & Hph); [done..| lia | lia | done |].
    exists (iw d2 - iw d1), m', c'. rewrite Hop, Z.min_l by lia. split_and!; try done || lia.
    eapply phase_ext; [| exact Hph]. intros. apply sum_word_comm.
Qed.

Lemma add_low_parts_spec d1 d2 F I m :
  wf d1 -> wf d2 -> 0 <= F <= Z.max (fw d1) (fw d2) -> Z.max (iw d1) (iw d2) <= I ->
  I + F <= Z.of_nat (length m) ->
  exists m2 c,
    add_low_parts d1 d2 (iw d1) (iw d2) (Z.min (fw d1) F) (Z.min (fw d2) F) (I + F) m =
      Some (m2, c, I - Z.min (iw d1) (iw d2)) /\ 0 <= c <= 1 /\
    phase (fun k => sum_word d1 d2 (k - F)) (Z.to_nat (F + Z.min (iw d1) (iw d2))) (I + F) m 0 m2 c.
Proof.
  intros H1 H2 HF HI Hlen. pose proof (iw_nonneg d1 H1). pose proof (iw_nonneg d2 H2).
  pose proof (fw_nonneg d1 H1). pose proof (fw_nonneg d2 H2).
  unfold add_low_parts. case_bool_decide as Hf.
  - destruct (add_low d1 d2 F (I + F) m) as (m1 & m2 & c & E1 & E2 & Hc & Hph); [done..| lia | lia |].
    exists m2, c. rewrite (Z.min_r (fw d1)), E1 by lia. cbn [mbind option_bind].
    replace (Z.max 0 _) with (Z.min (iw d1) (iw d2) + Z.min (fw d2) F) by (case_bool_decide; lia).
    rewrite E2. cbn [mbind option_bind]. split_and!; [| lia | lia | done]. by repeat (f_equal; try lia).
  - destruct (add_low d2 d1 F (I + F) m) as (m1 & m2 & c & E1 & E2 & Hc & Hph); [done..| lia | lia |].
    exists m2, c. rewrite (Z.min_r (fw d2)), E1 by lia. cbn [mbind option_bind].
    replace (Z.max 0 _) with (Z.min (iw d2) (iw d1) + Z.min (fw d1) F) by (case_bool_decide; lia).
    rewrite E2. cbn [mbind option_bind]. rewrite (Z.min_comm (iw d1)).
    split_and!; [| lia | lia |]; [by repeat (f_equal; try lia) |].
    eapply phase_ext; [| exact Hph]. intros. apply sum_word_comm.
Qed.

(** The last carry goes into the extra word, which is zero. *)
Lemma add_last_carry d1 d2 F I m m3 c :
  wf d1 -> wf d2 -> 0 <= F <= Z.max (fw d1) (fw d2) ->
  I = add_intg d1 d2 -> I + F <= Z.of_nat (length m) ->
  (Z.max (iw d1) (iw d2) < I -> at_ m 0 = 0) -> 0 <= c <= 1 ->
  phase (fun k => sum_word d1 d2 (k - F)) (Z.to_nat (Z.max (iw d1) (iw d2) + F)) (I + F) m 0 m3 c ->
  exists m4, (if bool_decide (c <> 0) then store m3 (I - Z.max (iw d1) (iw d2) - 1) 1 else Some m3)
      = Some m4 /\
    phase (fun k => sum_word d1 d2 (k - F)) (Z.to_nat (I + F)) (I + F) m 0 m4 0.
Proof.
  intros H1 H2 HF HI Hfit Hzero Hc Hph. pose proof (iw_nonneg d1 H1). pose proof (iw_nonneg d2 H2).
  unfold add_intg in HI. case_decide as Hx.
  - rewrite HI in *. clear HI. set (K := Z.max (iw d1) (iw d2)) in *.
    assert (Hl : length m3 = length m) by apply Hph.
    exists (<[Z.to_nat (K + 1 + F - 1 - Z.of_nat (Z.to_nat (K + F))) := c]> m3). split.
    + replace (K + 1 - K - 1) with 0 by lia. replace (K + 1 + F - 1 - _) with 0 by lia.
      case_bool_decide; [rewrite store_in by lia; repeat f_equal; lia |].
      rewrite list_insert_id; [done |]. rewrite <- load_nat, load_at by lia. f_equal.
      destruct Hph as (_ & Hout & _). change (Z.of_nat (Z.to_nat 0)) with 0.
      rewrite Hout by lia. rewrite Hzero by lia. lia.
    + replace (Z.to_nat (K + 1 + F)) with (S (Z.to_nat (K + F))) by lia.
      eapply phase_snoc; [exact Hph | lia | lia | unfold DIG_BASE; lia |].
      unfold sum_word, word, dig. rewrite !decide_False by lia. lia.
  - rewrite Z.add_0_r in HI. exists m3. rewrite <- HI in *.
    assert (c = 0) as ->; [| by rewrite bool_decide_false by lia].
    eapply (add_no_carry d1 d2 F I m m3); [done..| lia | lia | | exact Hph].
    intros Hpos. rewrite HI. etrans; [apply add_first_top with F; done || lia | lia].
Qed.

Lemma fix_intg_frac len I G :
  0 <= G -> FIX_INTG_FRAC_ERROR len I G =
    if decide (len < I) then (len, 0, E_DEC_OVERFLOW)
    else (I, Z.min G (len - I), if decide (G <= Z.min G (len - I)) then E_DEC_OK else E_DEC_TRUNCATED).
Proof.
  intros HG. unfold FIX_INTG_FRAC_ERROR.
  repeat case_bool_decide; repeat case_decide; try lia; by repeat (f_equal; try lia).
Qed.

Lemma fw_frac a b F :
  0 <= a -> 0 <= b -> 0 <= F <= Z.max (ROUND_UP a) (ROUND_UP b) ->
  ROUND_UP (Z.min (Z.max a b) (F * DIG_PER_DEC1)) = F.
Proof.
  intros. unfold DIG_PER_DEC1. rewrite ROUND_UP_min, ROUND_UP_max, ROUND_UP_mul by lia. lia.
Qed.

(** The sizes of [to] are cut down in the same way whether [error] is set or not. *)
Lemma add_sizes d1 d2 F I :
  0 <= frac d1 -> 0 <= frac d2 -> Z.max (iw d1) (iw d2) <= I -> F <= Z.max (fw d1) (fw d2) ->
  (if bool_decide ((if decide (Z.max (fw d1) (fw d2) <= F) then E_DEC_OK else E_DEC_TRUNCATED) <> 0)
   then (Z.min (Z.max (frac d1) (frac d2)) (F * DIG_PER_DEC1), Z.min (fw d1) F, Z.min (fw d2) F,
         Z.min (iw d1) I, Z.min (iw d2) I)
   else (Z.max (frac d1) (frac d2), fw d1, fw d2, iw d1, iw d2)) =
  (Z.min (Z.max (frac d1) (frac d2)) (F * DIG_PER_DEC1), Z.min (fw d1) F, Z.min (fw d2) F, iw d1, iw d2).
Proof.
  intros H1 H2 HI HF. unfold fw in *. rewrite !(ROUND_UP_div (frac _)) in * by lia.
  unfold DIG_PER_DEC1, E_DEC_OK, E_DEC_TRUNCATED. case_decide; bdec.
  - repeat f_equal; Zlia.
  - repeat f_equal; lia.
Qed.

(** A result built by phases that cover all its words. *)
Lemma result_of_phase xs i f l s F I m m' :
  phase xs (Z.to_nat (I + F)) (I + F) m 0 m' 0 -> ROUND_UP i = I -> ROUND_UP f = F ->
  0 <= i -> 0 <= f -> l = Z.of_nat (length m) -> 0 < I + F <= l -> 0 <= s <= 1 ->
  wf (mk_decimal i f l s m') /\
  absval F (mk_decimal i f l s m') = ws xs (Z.to_nat (I + F)).
Proof.
  intros Hph <- <- Hi Hf Hl Hfit Hs.
  assert (Hwf : wf (mk_decimal i f l s m')) by (eapply wf_phase; [exact Hph | lia..]).
  split; [done |]. rewrite (absval_buf _ _ (ROUND_UP i) m') by done.
  destruct Hph as (_ & _ & _ & Hv). lia.
Qed.

Lemma add_words_spec d1 d2 to m I :
  wf d1 -> wf d2 -> 0 < iw d1 + fw d1 + iw d2 + fw d2 -> len to = Z.of_nat (length m) -> 0 < len to -> I = add_intg d1 d2 ->
  (Z.max (iw d1) (iw d2) < I -> at_ m 0 = 0) ->
  exists err to', add_words d1 d2 to m (iw d1) (iw d2) (fw d1) (fw d2) I
      (Z.max (fw d1) (fw d2)) = Some (err, to') /\ added d1 d2 to I err to'.
Proof.
  intros H1 H2 Hsome Hlen Hpos HI Hzero.
  pose proof (iw_nonneg d1 H1). pose proof (iw_nonneg d2 H2).
  pose proof (fw_nonneg d1 H1). pose proof (fw_nonneg d2 H2).
  pose proof (wf_frac d1 H1). pose proof (wf_frac d2 H2).
  assert (HImax : Z.max (iw d1) (iw d2) <= I) by (rewrite HI; unfold add_intg; case_decide; lia).
  unfold add_words, added. rewrite fix_intg_frac by lia.
  destruct (decide (len to < I)) as [Hov | Hfit].
  { rewrite bool_decide_true by done.
    destruct (max_decimal_full (with_buf to m)) as (to' & Hmax & Hwf & Hl & Hs & _ & Hf & Hv);
      [done..|]. simpl len in *. rewrite Hmax. eexists _, _. split; [done |]. by split_and!. }
  set (F := Z.min (Z.max (fw d1) (fw d2)) (len to - I)).
  rewrite bool_decide_false by (by case_decide). rewrite add_sizes by lia.
  destruct (add_low_parts_spec d1 d2 F I m) as (m2 & c & -> & Hc & Hph2); [done..| lia | lia | lia |].
  cbn [mbind option_bind].
  assert (length m2 = length m) by apply Hph2.
  destruct (add_high_part_spec d1 d2 (I - Z.min (iw d1) (iw d2)) m2 c)
    as (n & m3 & c' & Hn & -> & Hc' & Hph3); [done..| lia | done |]. cbn [mbind option_bind].
  destruct (add_last_carry d1 d2 F I m m3 c') as (m4 & Hst & Hph4); try done; try lia.
  { replace (Z.to_nat (Z.max (iw d1) (iw d2) + F))
      with (Z.to_nat (F + Z.min (iw d1) (iw d2)) + Z.to_nat n)%nat by lia.
    eapply phase_seq; [exact Hph2 |]. rewrite Z2Nat.id by lia.
    replace (I + F - (F + Z.min (iw d1) (iw d2))) with (I - Z.min (iw d1) (iw d2)) by lia.
    eapply phase_ext; [| exact Hph3]. intros k Hk. cbn beta. f_equal. lia. }
  replace (I - Z.min (iw d1) (iw d2) - n) with (I - Z.max (iw d1) (iw d2)) by lia.
  rewrite Hst. cbn [mbind option_bind]. eexists _, _. split; [done |].
  destruct (result_of_phase _ (I * DIG_PER_DEC1)
    (Z.min (Z.max (frac d1) (frac d2)) (F * DIG_PER_DEC1)) (len to) (sign d1) F I m m4 Hph4)
    as [Hwf Hval]; try done; try lia.
  { apply ROUND_UP_mul. lia. }
  { apply fw_frac; unfold fw in *; lia. }
  { unfold DIG_PER_DEC1. lia. }
  { unfold DIG_PER_DEC1. lia. }
  { apply wf_sign, H1. }
  assert (HfF : fw (mk_decimal (I * DIG_PER_DEC1)
    (Z.min (Z.max (frac d1) (frac d2)) (F * DIG_PER_DEC1)) (len to) (sign d1) m4) = F)
    by (apply fw_frac; unfold fw in *; lia).
  rewrite HfF, Hval. split; [done |]. split_and!; try done.
  - apply ROUND_UP_mul. lia.
  - unfold sum_word. rewrite ws_add, !absval_ws by (done || lia). done.
Qed.

Lemma do_add_spec d1 d2 to :
  wf d1 -> wf d2 -> 0 < iw d1 + fw d1 + iw d2 + fw d2 ->
  len to = Z.of_nat (length (buf to)) -> 0 < len to ->
  exists err to', do_add d1 d2 to = Some (err, to') /\ added d1 d2 to (add_intg d1 d2) err to'.
Proof.
  intros H1 H2 Hsome Hlen Hpos.
  pose proof (iw_nonneg d1 H1). pose proof (iw_nonneg d2 H2).
  pose proof (wf_words d1 H1 0 ltac:(lia)) as Hw1. pose proof (wf_words d2 H2 0 ltac:(lia)) as Hw2.
  unfold do_add. fold (iw d1) (iw d2) (fw d1) (fw d2).
  rewrite (load_first d1), (load_first d2) by done. cbn [mbind option_bind].
  match goal with |- context [mbind _ ?o] => replace o with (Some (add_first d1 d2)) end.
  2: { unfold add_first. repeat (case_bool_decide; case_decide; try lia; try done).
       rewrite swrap_small; [done | lia | unfold DIG_BASE in *; lia]. }
  cbn [mbind option_bind]. unfold add_intg. case_bool_decide; case_decide; try lia.
  - rewrite store_in by lia. cbn [mbind option_bind].
    apply add_words_spec; try done; try (unfold add_intg; case_decide; lia).
    + by rewrite length_insert.
    + intros _. rewrite (at_insert (buf to) 0) by lia. done.
  - cbn [mbind option_bind]. rewrite Z.add_0_r.
    apply add_words_spec; try done; try (unfold add_intg; case_decide; lia). lia.
Qed.

(** ** Comparison: the first stage of [do_sub] *)

Lemma skip_up_spec n b p :
  0 <= p -> p + Z.of_nat n <= Z.of_nat (length b) ->
  exists q, skip_up n b p = Some q /\ p <= q <= p + Z.of_nat n /\
    (forall j, p <= j < q -> at_ b j = 0) /\ (q < p + Z.of_nat n -> at_ b q <> 0).
Proof.
  revert p; induction n as [| n IH]; intros p Hp Hn; cbn [skip_up].
  - exists p. split_and!; [done | lia | lia | lia | lia].
  - rewrite load_at by lia. cbn [mbind option_bind]. case_bool_decide as Hz.
    + destruct (IH (p + 1)) as (q & -> & Hq & Hzs & Hne); [lia | lia |].
      exists q. split_and!; [done | lia | lia | | intros; apply Hne; lia].
      intros j Hj. destruct (decide (j = p)); [by subst | apply Hzs; lia].
    + exists p. split_and!; [done | lia | lia | lia | done].
Qed.

Lemma skip_down_spec n b p :
  0 <= p + 1 - Z.of_nat n -> p < Z.of_nat (length b) ->
  exists q, skip_down n b p = Some q /\ p - Z.of_nat n <= q <= p /\
    (forall j, q < j <= p -> at_ b j = 0) /\ (p - Z.of_nat n < q -> at_ b q <> 0).
Proof.
  revert p; induction n as [| n IH]; intros p Hp Hn; cbn [skip_down].
  - exists p. split_and!; [done | lia | lia | lia | lia].
  - rewrite load_at by lia. cbn [mbind option_bind]. case_bool_decide as Hz.
    + destruct (IH (p - 1)) as (q & -> & Hq & Hzs & Hne); [lia | lia |].
      exists q. split_and!; [done | lia | lia | | intros; apply Hne; lia].
      intros j Hj. destruct (decide (j = p)); [by subst | apply Hzs; lia].
    + exists p. split_and!; [done | lia | lia | lia | done].
Qed.

Lemma skip_equal_spec n b1 b2 p1 p2 :
  0 <= p1 -> p1 + Z.of_nat n <= Z.of_nat (length b1) ->
  0 <= p2 -> p2 + Z.of_nat n <= Z.of_nat (length b2) ->
  exists t, skip_equal n b1 b2 p1 p2 = Some (p1 + t, p2 + t) /\ 0 <= t <= Z.of_nat n /\
    (forall j, 0 <= j < t -> at_ b1 (p1 + j) = at_ b2 (p2 + j)) /\
    (t < Z.of_nat n -> at_ b1 (p1 + t) <> at_ b2 (p2 + t)).
Proof.
  revert p1 p2; induction n as [| n IH]; intros p1 p2 Hp1 Hn1 Hp2 Hn2; cbn [skip_equal].
  - exists 0. rewrite !Z.add_0_r. split_and!; [done | lia | lia | lia | lia].
  - rewrite (load_at b1), (load_at b2) by lia. cbn [mbind option_bind]. case_bool_decide as Hz.
    + destruct (IH (p1 + 1) (p2 + 1)) as (t & -> & Ht & Heq & Hne); [lia.. |].
      exists (t + 1). split_and!; [by repeat (f_equal; try lia) | lia | lia | |].
      * intros j Hj. destruct (decide (j = 0)) as [-> | Hj0]; [by rewrite !Z.add_0_r |].
        specialize (Heq (j - 1)). replace (p1 + j) with (p1 + 1 + (j - 1)) by lia.
        replace (p2 + j) with (p2 + 1 + (j - 1)) by lia. apply Heq. lia.
      * intros Hlt. replace (p1 + (t + 1)) with (p1 + 1 + t) by lia.
        replace (p2 + (t + 1)) with (p2 + 1 + t) by lia. apply Hne. lia.
    + exists 0. rewrite !Z.add_0_r. split_and!; [done | lia | lia | lia | done].
Qed.

(** [trimmed d s i f]: the number has [i] words in front of the point, from
    index [s], and its words with a weight below [-f] are zero. *)
Definition trimmed (d : decimal_t) (s i f : Z) : Prop :=
  s + i = iw d /\ 0 <= s /\ 0 <= i /\ - i <= f <= fw d /\
  forall e, ~ (- f <= e < i) -> word d e = 0.

Lemma word_at d e : - fw d <= e < iw d -> word d e = at_ (buf d) (iw d - 1 - e).
Proof. intros. unfold word, dig. by rewrite decide_True. Qed.

Lemma word_out d e : ~ (- fw d <= e < iw d) -> word d e = 0.
Proof. intros. unfold word, dig. by rewrite decide_False. Qed.

Lemma strip_lead_spec d :
  wf d -> exists s i, strip_lead d = Some (s, i) /\ trimmed d s i (fw d) /\
    (0 < i -> word d (i - 1) <> 0).
Proof.
  intros Hd. pose proof (iw_nonneg d Hd). pose proof (fw_nonneg d Hd).
  pose proof (wf_fit d Hd). pose proof (wf_len d Hd).
  unfold strip_lead. rewrite load_first by done. cbn [mbind option_bind]. fold (iw d).
  case_bool_decide as Hz.
  - destruct (skip_up_spec (Z.to_nat (iw d)) (buf d) 0) as (q & -> & Hq & Hzs & Hne); [lia | lia |].
    exists q, (iw d - q). split; [done |]. split.
    + unfold trimmed. split_and!; try lia. intros e He.
      destruct (decide (- fw d <= e < iw d)); [| by apply word_out].
      rewrite word_at by done. apply Hzs. lia.
    + intros Hi. rewrite word_at by lia. replace (iw d - 1 - (iw d - q - 1)) with q by lia.
      apply Hne. lia.
  - exists 0, (iw d). split; [done |]. split.
    + unfold trimmed. split_and!; try lia. intros e He. by apply word_out.
    + intros Hi. rewrite word_at by lia. by replace (iw d - 1 - (iw d - 1)) with 0 by lia.
Qed.

Lemma strip_trail_spec d s i :
  wf d -> trimmed d s i (fw d) ->
  exists f, skip_down (Z.to_nat (iw d + (fw d - 1) - s + 1)) (buf d) (iw d + (fw d - 1)) =
      Some (iw d + f - 1) /\
    trimmed d s i f /\ (- i < f -> word d (- f) <> 0).
Proof.
  intros Hd (Hs & Hs0 & Hi & Hf & Hz). pose proof (fw_nonneg d Hd).
  pose proof (wf_fit d Hd). pose proof (wf_len d Hd).
  destruct (skip_down_spec (Z.to_nat (iw d + (fw d - 1) - s + 1)) (buf d) (iw d + (fw d - 1)))
    as (q & -> & Hq & Hzs & Hne); [lia | lia |].
  exists (q - iw d + 1). split; [f_equal; lia |]. split.
  - unfold trimmed. split_and!; try lia. intros e He.
    destruct (decide (- fw d <= e < i)); [| apply Hz; lia].
    rewrite word_at by lia. apply Hzs. lia.
  - intros Hlt. rewrite word_at by lia.
    replace (iw d - 1 - - (q - iw d + 1)) with q by lia. apply Hne. lia.
Qed.

(** The order of two decimals, by their first different words. *)
Definition wlt (d1 d2 : decimal_t) : Prop :=
  exists e, word d1 e < word d2 e /\ forall e', e < e' -> word d1 e' = word d2 e'.

Lemma nonzero_wlt d1 d2 E e1 :
  wf d2 -> e1 <= E -> word d2 e1 <> 0 -> (forall e, e <= E -> word d1 e = 0) ->
  (forall e, E < e -> word d1 e = word d2 e) -> wlt d1 d2.
Proof.
  intros H2 HE Hne Hz Heq.
  destruct (least_in_range (fun k => bool_decide (word d2 (E - k) <> 0)) 0 (S (Z.to_nat (E - e1))))
    as (k & Hk & Hp & Hj).
  { exists (E - e1). split; [lia |]. replace (E - (E - e1)) with e1 by lia. by apply bool_decide_eq_true. }
  apply bool_decide_eq_true in Hp. exists (E - k). split.
  - rewrite Hz by lia. pose proof (word_range d2 (E - k) H2). lia.
  - intros e' He'. destruct (decide (e' <= E)); [| apply Heq; lia].
    rewrite Hz by lia. specialize (Hj (E - e') ltac:(lia)). apply bool_decide_eq_false in Hj.
    replace (E - (E - e')) with e' in Hj by lia. lia.
Qed.

Definition ordered (d1 d2 : decimal_t) (r : option (Z * Z * Z * Z * Z * Z * Z)) : Prop :=
  match r with
  | None => forall e, word d1 e = word d2 e
  | Some (carry, s1, s2, i1, i2, f1, f2) =>
      trimmed d1 s1 i1 f1 /\ trimmed d2 s2 i2 f2 /\
      (i1 <> i2 -> f1 = fw d1 /\ f2 = fw d2) /\
      (carry = 1 /\ i1 <= i2 /\ wlt d1 d2 \/ carry = 0 /\ i2 <= i1 /\ wlt d2 d1)
  end.

Lemma top_wlt d1 d2 s1 i1 f1 s2 i2 f2 :
  wf d2 -> trimmed d1 s1 i1 f1 -> trimmed d2 s2 i2 f2 -> i1 < i2 -> word d2 (i2 - 1) <> 0 -> wlt d1 d2.
Proof.
  intros H2 (_ & _ & _ & _ & Hz1) (_ & _ & _ & _ & Hz2) Hlt Hne. exists (i2 - 1). split.
  - rewrite Hz1 by lia. pose proof (word_range d2 (i2 - 1) H2). lia.
  - intros e' He'. by rewrite Hz1, Hz2 by lia.
Qed.

(** The search for the first different word, behind [t] equal ones. *)
Lemma compare_words d1 d2 s1 s2 i f1 f2 t n :
  wf d1 -> wf d2 -> trimmed d1 s1 i f1 -> trimmed d2 s2 i f2 ->
  (- i < f1 -> word d1 (- f1) <> 0) -> (- i < f2 -> word d2 (- f2) <> 0) ->
  n = Z.min (i + f1) (i + f2) -> 0 <= t <= n ->
  (forall j, 0 <= j < t -> word d1 (i - 1 - j) = word d2 (i - 1 - j)) ->
  (t < n -> word d1 (i - 1 - t) <> word d2 (i - 1 - t)) ->
  (t < n /\ (word d1 (i - 1 - t) < word d2 (i - 1 - t) /\ wlt d1 d2 \/
             word d2 (i - 1 - t) < word d1 (i - 1 - t) /\ wlt d2 d1)) \/
  (t = i + f2 /\ t < i + f1 /\ wlt d2 d1) \/ (t = i + f1 /\ t < i + f2 /\ wlt d1 d2) \/
  (t = i + f1 /\ t = i + f2 /\ forall e, word d1 e = word d2 e).
Proof.
  intros H1 H2 (_ & _ & _ & _ & Hz1) (_ & _ & _ & _ & Hz2) Hn1 Hn2 Hn Ht Heq Hne.
  assert (Hup : forall e, i - 1 - t < e -> word d1 e = word d2 e).
  { intros e He. destruct (decide (i <= e)); [by rewrite Hz1, Hz2 by lia |].
    replace e with (i - 1 - (i - 1 - e)) by lia. apply Heq. lia. }
  destruct (decide (t < n)) as [Hlt |].
  { left. split; [done |]. specialize (Hne Hlt).
    destruct (decide (word d1 (i - 1 - t) < word d2 (i - 1 - t))); [left | right];
      (split; [lia |]; exists (i - 1 - t); split; [lia |]); [done |].
    intros e' He'. symmetry. by apply Hup. }
  right. destruct (decide (t < i + f1)); [| destruct (decide (t < i + f2))].
  - left. split_and!; [lia | lia |]. apply (nonzero_wlt d2 d1 (i - 1 - t) (- f1)); [done | lia | | |].
    + apply Hn1. lia.
    + intros e He. apply Hz2. lia.
    + intros e He. symmetry. by apply Hup.
  - right. left. split_and!; [lia | lia |].
    apply (nonzero_wlt d1 d2 (i - 1 - t) (- f2)); [done | lia | | | done].
    + apply Hn2. lia.
    + intros e He. apply Hz1. lia.
  - right. right. split_and!; [lia | lia |]. intros e.
    destruct (decide (i - 1 - t < e)); [by apply Hup | by rewrite Hz1, Hz2 by lia].
Qed.

Lemma sub_order_spec d1 d2 :
  wf d1 -> wf d2 -> exists r, sub_order d1 d2 = Some r /\ ordered d1 d2 r.
Proof.
  intros H1 H2. unfold sub_order. fold (iw d1) (iw d2) (fw d1) (fw d2).
  destruct (strip_lead_spec d1 H1) as (s1 & i1 & -> & Ht1 & Hn1).
  destruct (strip_lead_spec d2 H2) as (s2 & i2 & -> & Ht2 & Hn2). cbn [mbind option_bind].
  assert (0 <= i1 /\ 0 <= i2) as [] by (destruct Ht1 as (_ & _ & ? & _), Ht2 as (_ & _ & ? & _); done).
  destruct (decide (i2 > i1)).
  { rewrite bool_decide_true by done. eexists; split; [done |]. split_and!; [done.. |].
    left. split_and!; [done | lia |]. eapply top_wlt; [| exact Ht1 | exact Ht2 | lia |]; auto with lia. }
  rewrite bool_decide_false by done. destruct (decide (i2 = i1)) as [-> |].
  2: { rewrite bool_decide_false by done. eexists; split; [done |]. split_and!; [done.. |].
       right. split_and!; [done | lia |].
       eapply top_wlt; [| exact Ht2 | exact Ht1 | lia |]; auto with lia. }
  rewrite bool_decide_true by done.
  destruct (strip_trail_spec d1 s1 i1 H1 Ht1) as (f1 & -> & Hf1 & Hl1).
  destruct (strip_trail_spec d2 s2 i1 H2 Ht2) as (f2 & -> & Hf2 & Hl2). cbn [mbind option_bind].
  pose proof Hf1 as (Hs1 & ? & _ & Hr1 & _). pose proof Hf2 as (Hs2 & ? & _ & Hr2 & _).
  pose proof (wf_fit d1 H1). pose proof (wf_len d1 H1). pose proof (wf_fit d2 H2). pose proof (wf_len d2 H2).
  replace (Nat.min _ _) with (Z.to_nat (Z.min (i1 + f1) (i1 + f2))) by lia.
  destruct (skip_equal_spec (Z.to_nat (Z.min (i1 + f1) (i1 + f2))) (buf d1) (buf d2) s1 s2)
    as (t & -> & Ht & Heq & Hne); [lia.. |]. cbn [mbind option_bind].
  assert (Hw1 : forall j, 0 <= j < Z.min (i1 + f1) (i1 + f2) ->
    at_ (buf d1) (s1 + j) = word d1 (i1 - 1 - j)).
  { intros j Hj. rewrite word_at by lia. f_equal. lia. }
  assert (Hw2 : forall j, 0 <= j < Z.min (i1 + f1) (i1 + f2) ->
    at_ (buf d2) (s2 + j) = word d2 (i1 - 1 - j)).
  { intros j Hj. rewrite word_at by lia. f_equal. lia. }
  assert (Hfs : forall c, (c = 1 /\ wlt d1 d2 \/ c = 0 /\ wlt d2 d1) ->
    ordered d1 d2 (Some (c, s1, s2, i1, i1, iw d1 + f1 - 1 - iw d1 + 1, iw d2 + f2 - 1 - iw d2 + 1))).
  { intros c Hc. replace (iw d1 + f1 - 1 - iw d1 + 1) with f1 by lia.
    replace (iw d2 + f2 - 1 - iw d2 + 1) with f2 by lia. split_and!; [done | done | done |].
    destruct Hc as [[-> Hc] | [-> Hc]]; [left | right]; split_and!; done || lia. }
  destruct (compare_words d1 d2 s1 s2 i1 f1 f2 t (Z.min (i1 + f1) (i1 + f2)))
    as [(Hlt & Hcmp) | [(E2 & E1 & Hw) | [(E1 & E2 & Hw) | (E1 & E2 & Hw)]]]; try done; try lia.
  { intros j Hj. rewrite <- Hw1, <- Hw2 by lia. apply Heq. lia. }
  { intros Hj. rewrite <- Hw1, <- Hw2 by lia. apply Hne. lia. }
  - bdec. rewrite !load_at by lia. cbn [mbind option_bind]. rewrite Hw1, Hw2 by lia.
    eexists; split; [done |]. apply Hfs. case_bool_decide; [left | right]; (split; [done |]).
    + destruct Hcmp as [[] | []]; done || lia.
    + destruct Hcmp as [[] | []]; done || lia.
  - bdec. eexists; split; [done |]. apply Hfs. by right.
  - bdec. eexists; split; [done |]. apply Hfs. by left.
  - bdec. by eexists.
Qed.

(** The order of the words is the order of the values. *)
Lemma wlt_absval d1 d2 F :
  wf d1 -> wf d2 -> wlt d1 d2 -> 0 <= F ->
  absval F d1 <= absval F d2 /\ (Z.max (fw d1) (fw d2) <= F -> absval F d1 < absval F d2).
Proof.
  intros H1 H2 (e & Hlt & Heq) HF.
  pose proof (iw_nonneg d1 H1). pose proof (iw_nonneg d2 H2).
  pose proof (word_range d1 e H1). pose proof (word_range d2 e H2).
  assert (He : - fw d2 <= e < iw d2).
  { destruct (decide (- fw d2 <= e < iw d2)); [done |]. rewrite (word_out d2 e) in Hlt by done. lia. }
  set (I := Z.max (iw d1) (iw d2)).
  rewrite <- (absval_ws d1 F I), <- (absval_ws d2 F I) by (done || lia).
  destruct (decide (- F <= e)) as [Hin | Hout].
  - assert (ws (fun k => word d1 (k - F)) (Z.to_nat (I + F)) <
            ws (fun k => word d2 (k - F)) (Z.to_nat (I + F))); [| lia].
    apply (ws_lt _ _ _ (e + F)); [lia | | |].
    + by replace (e + F - F) with e by lia.
    + intros k Hk. apply Heq. lia.
    + intros k Hk. split; by apply word_range.
  - split; [| lia]. apply Z.eq_le_incl, ws_ext. intros k Hk. apply Heq. lia.
Qed.

Lemma equal_absval d1 d2 F :
  wf d1 -> wf d2 -> 0 <= F -> (forall e, word d1 e = word d2 e) -> absval F d1 = absval F d2.
Proof.
  intros H1 H2 HF Heq. pose proof (iw_nonneg d1 H1). pose proof (iw_nonneg d2 H2).
  rewrite <- (absval_ws d1 F (Z.max (iw d1) (iw d2))), <- (absval_ws d2 F (Z.max (iw d1) (iw d2)))
    by (done || lia). by apply ws_ext.
Qed.

(** ** Subtraction: the second stage of [do_sub] *)

Definition diff_word (d1 d2 : decimal_t) (e : Z) : Z := word d1 e - word d2 e.

(** As [trimmed], for the words that [F] words behind the point keep. *)
Definition window (F : Z) (d : decimal_t) (s i f : Z) : Prop :=
  s + i = iw d /\ 0 <= s /\ 0 <= i /\ - i <= f <= fw d /\
  forall e, - F <= e -> ~ (- f <= e < i) -> word d e = 0.

Lemma trimmed_window d s i f F :
  trimmed d s i f -> 0 <= F -> window F d s i (Z.min f F).
Proof.
  intros (? & ? & ? & ? & Hz) HF. unfold window. split_and!; try lia. intros e He Hn. apply Hz. lia.
Qed.

Lemma load_window F d s i f e :
  wf d -> window F d s i f -> - f <= e < i -> load (buf d) (s + i - 1 - e) = Some (word d e).
Proof. intros Hd (Hs & ? & ? & ? & _) He. rewrite Hs. apply load_word; [done | lia]. Qed.

Lemma absval_window F d s i f I :
  wf d -> window F d s i f -> i <= I -> 0 <= F ->
  ws (fun k => word d (k - F)) (Z.to_nat (I + F)) = absval F d.
Proof.
  intros Hd (? & ? & ? & ? & Hz) HI HF. rewrite <- (absval_ws d F (Z.max I (iw d))) by (done || lia).
  replace (Z.to_nat (Z.max I (iw d) + F)) with (Z.to_nat (I + F) + Z.to_nat (Z.max I (iw d) - I))%nat by lia.
  rewrite ws_app, (ws_zero (fun k => word d (k + _ - F))); [lia |].
  intros k Hk. apply Hz; lia.
Qed.

(** The operands of the second stage: [a] is the larger one. *)
Section Subtract.
Context (a b : decimal_t) (sa ia fa sb ib fb : Z) (F : Z).
Hypotheses (Ha : wf a) (Hb : wf b) (Hta : window F a sa ia fa) (Htb : window F b sb ib fb)
  (Hib : ib <= ia) (Hne : ia <> ib -> 0 <= fa) (HfaF : fa <= F) (HfbF : fb <= F) (HF : 0 <= F).

Lemma sub_sizes : sa + ia = iw a /\ 0 <= sa /\ - ia <= fa <= fw a /\
  sb + ib = iw b /\ 0 <= sb /\ 0 <= ib /\ - ib <= fb <= fw b /\ - fa <= ib.
Proof.
  destruct Hta as (? & ? & ? & ? & _), Htb as (? & ? & ? & ? & _).
  destruct (decide (ia = ib)); [lia |]. specialize (Hne ltac:(done)). lia.
Qed.

Lemma diff_left e : - F <= e -> ~ (- fb <= e < ib) -> diff_word a b e = word a e.
Proof. intros HFe He. unfold diff_word. destruct Htb as (_ & _ & _ & _ & ->); lia. Qed.

Lemma diff_right e : - F <= e -> ~ (- fa <= e < ia) -> diff_word a b e = 0 - word b e.
Proof. intros HFe He. unfold diff_word. destruct Hta as (_ & _ & _ & _ & ->); lia. Qed.

Lemma sub_part1_spec p0 m :
  ia + F <= p0 -> p0 <= Z.of_nat (length m) ->
  exists m' c, sub_part1 (buf a) (buf b) sa sb ia ib fa fb F p0 m =
      Some (m', p0 - (F - Z.min fa fb), iw a + Z.min fa fb, iw b + Z.min fa fb, c) /\
    0 <= c <= 1 /\
    phase (fun k => diff_word a b (k - F)) (Z.to_nat (F - Z.min fa fb)) p0 m 0 m' (-1 * c).
Proof.
  intros Hlo Hhi. pose proof sub_sizes as (Hsa & ? & ? & Hsb & ? & ? & ? & ?).
  unfold sub_part1.
  destruct (zero_down_phase p0 m (Z.to_nat (F - Z.max fa fb)) ltac:(lia) ltac:(lia) (F - Z.max fa fb))
    as (m1 & Hzd & Hph1); [done |].
  assert (Hl1 : length m1 = length m) by apply Hph1. rewrite Z2Nat.id in Hzd by lia.
  assert (Hz : forall k, 0 <= k < F - Z.max fa fb -> diff_word a b (k - F) = 0).
  { intros k Hk. rewrite diff_left by lia. destruct Hta as (_ & _ & _ & _ & ->); lia. }
  case_bool_decide as Hf.
  - rewrite Z.max_l in Hzd, Hph1, Hz by lia. rewrite Z.min_r by lia. rewrite Hzd. cbn [mbind option_bind].
    destruct (copy_down_phase (p0 - (F - fa)) m1 (Z.to_nat (fa - fb)) ltac:(lia) ltac:(lia) (buf a)
      (sa + ia + fb) (sa + ia + fa) (fun k => word a (k - fa))) as (m2 & -> & Hph2); [lia | |].
    { intros k Hk. split; [| by apply word_range].
      rewrite <- (load_window F a sa ia fa) by (done || lia). f_equal. lia. }
    cbn [mbind option_bind]. exists m2, 0. split; [by repeat (f_equal; try lia) |]. split; [lia |].
    replace (Z.to_nat (F - fb)) with (Z.to_nat (F - fa) + Z.to_nat (fa - fb))%nat by lia.
    eapply phase_seq.
    + eapply phase_ext; [| exact Hph1]. intros k Hk. symmetry. apply Hz. lia.
    + rewrite Z2Nat.id by lia. eapply phase_ext; [| exact Hph2]. intros k Hk. cbn beta.
      rewrite diff_left by lia. f_equal. lia.
  - rewrite Z.max_r in Hzd, Hph1, Hz by lia. rewrite Z.min_l by lia. rewrite Hzd. cbn [mbind option_bind].
    replace (Z.max 0 _) with (Z.of_nat (Z.to_nat (fb - fa))) by lia.
    destruct (op_down_phase (p0 - (F - fb)) m1 (Z.to_nat (fb - fa)) ltac:(lia) ltac:(lia) SUB
      (fun k => 0 - word b (k - fb)) (-1) (fun _ => Some 0)
      (fun k => load (buf b) (sb + ib + fb - 1 - k)) (fun _ => 0) (fun k => word b (k - fb)) 0)
      as (m2 & c & -> & Hc & Hph2); [| lia | |].
    { intros k Hk. split; [done |].
      rewrite <- (load_window F b sb ib fb) by (done || lia). f_equal. lia. }
    { intros k c Hk Hc. apply SUB_step; [unfold DIG_BASE; lia | by apply word_range | done]. }
    cbn [mbind option_bind]. exists m2, c. split; [by repeat (f_equal; try lia) |]. split; [done |].
    replace (Z.to_nat (F - fa)) with (Z.to_nat (F - fb) + Z.to_nat (fb - fa))%nat by lia.
    eapply phase_seq.
    + eapply phase_ext; [| exact Hph1]. intros k Hk. symmetry. apply Hz. lia.
    + rewrite Z2Nat.id by lia. eapply phase_ext; [| exact Hph2]. intros k Hk. cbn beta.
      rewrite diff_right by lia. do 2 f_equal. lia.
Qed.
(** Parts 2 and 3 take up the rest. *)
Lemma sub_rest_spec p0 m c :
  0 <= c <= 1 -> ia + Z.min fa fb <= p0 -> p0 <= Z.of_nat (length m) ->
  exists m2 c2 m3 q0 q1 m4 c4,
    op_down SUB (fun k => load (buf a) (iw a + Z.min fa fb - 1 - k))
      (fun k => load (buf b) (iw b + Z.min fa fb - 1 - k)) (ib + Z.min fa fb) p0 m c = Some (m2, c2) /\
    borrow_down (Z.to_nat (ia - ib)) (buf a) (sa + (ia - ib)) (p0 - (ib + Z.min fa fb)) m2 c2 =
      Some (m3, q0, q1) /\
    copy_down (buf a) sa q1 q0 m3 = Some (m4, p0 - (ia + Z.min fa fb), sa) /\ 0 <= c4 <= 1 /\
    phase (fun k => diff_word a b (k - Z.min fa fb)) (Z.to_nat (ia + Z.min fa fb)) p0 m
      (-1 * c) m4 (-1 * c4).
Proof.
  intros Hc Hlo Hhi. pose proof sub_sizes as (Hsa & ? & ? & Hsb & ? & ? & ? & ?).
  set (f := Z.min fa fb) in *.
  destruct (op_down_phase p0 m (Z.to_nat (ib + f)) ltac:(lia) ltac:(lia) SUB
    (fun k => diff_word a b (k - f)) (-1) (fun k => load (buf a) (iw a + f - 1 - k))
    (fun k => load (buf b) (iw b + f - 1 - k)) (fun k => word a (k - f)) (fun k => word b (k - f)) c)
    as (m2 & c2 & Hop & Hc2 & Hph2); [| done | |].
  { intros k Hk. rewrite <- Hsa, <- Hsb.
    split; [rewrite <- (load_window F a sa ia fa) | rewrite <- (load_window F b sb ib fb)];
      try done; try lia; f_equal; lia. }
  { intros k c' Hk Hc'. apply SUB_step; [by apply word_range.. | done]. }
  rewrite Z2Nat.id in Hop by lia. assert (Hl2 : length m2 = length m) by apply Hph2.
  destruct (borrow_copy_phase (Z.to_nat (ia - ib)) (buf a) (sa + (ia - ib)) (p0 - (ib + f)) m2 c2 sa
    (fun k => word a (k + ib))) as (m3 & q0 & q1 & m4 & c4 & Hbd & Hcp & Hc4 & Hph4);
    [lia | lia | lia | | done |].
  { intros k Hk. split; [| by apply word_range].
    rewrite <- (load_window F a sa ia fa) by (done || lia). f_equal. lia. }
  exists m2, c2, m3, q0, q1, m4, c4. split_and!; try done; try lia.
  { rewrite Hcp. by repeat (f_equal; try lia). }
  replace (Z.to_nat (ia + f)) with (Z.to_nat (ib + f) + Z.to_nat (ia - ib))%nat by lia.
  eapply phase_seq; [exact Hph2 |]. rewrite Z2Nat.id by lia.
  eapply phase_ext; [| exact Hph4]. intros k Hk. cbn beta.
  rewrite diff_left by lia. f_equal. lia.
Qed.

(** Nothing is left to borrow: [a] is not smaller than [b]. *)
Lemma sub_no_borrow p0 m m' c :
  absval F b <= absval F a -> 0 <= c ->
  phase (fun k => diff_word a b (k - F)) (Z.to_nat (ia + F)) p0 m 0 m' (-1 * c) -> c = 0.
Proof.
  intros Hle Hc (_ & _ & Hr & Hv).
  unfold diff_word in Hv. rewrite ws_sub, (absval_window F a sa ia fa ia),
    (absval_window F b sb ib fb ia) in Hv by (done || lia).
  pose proof (ws_bound _ _ Hr). pose proof (base_pos (Z.to_nat (ia + F))). nia.
Qed.

Lemma sub_loops_spec m :
  ia + F <= Z.of_nat (length m) -> absval F b <= absval F a ->
  exists m', sub_loops (buf a) (buf b) sa sb ia ib fa fb F (ia + F) m = Some m' /\
  phase (fun k => diff_word a b (k - F)) (Z.to_nat (ia + F)) (ia + F) m 0 m' 0.
Proof.
  intros Hfit Hle. unfold sub_loops. pose proof sub_sizes as (Hsa & ? & ? & Hsb & ? & ? & ? & ?).
  destruct (sub_part1_spec (ia + F) m) as (m1 & c1 & -> & Hc1 & Hph1); [lia | lia |].
  cbn [mbind option_bind]. assert (length m1 = length m) by apply Hph1.
  destruct (sub_rest_spec (ia + F - (F - Z.min fa fb)) m1 c1)
    as (m2 & c2 & m3 & q0 & q1 & m4 & c4 & E1 & E2 & E3 & Hc4 & Hph4); [done | lia | lia |].
  replace (Z.max 0 (iw b + Z.min fa fb - sb)) with (ib + Z.min fa fb) by lia.
  rewrite E1. cbn [mbind option_bind].
  replace (iw a + Z.min fa fb - (ib + Z.min fa fb)) with (sa + (ia - ib)) by lia.
  replace (sa + (ia - ib) - sa) with (ia - ib) by lia.
  rewrite E2. cbn [mbind option_bind]. rewrite E3. cbn [mbind option_bind].
  replace (ia + F - (F - Z.min fa fb) - (ia + Z.min fa fb)) with 0 by lia.
  exists m4. split; [done |].
  assert (Hph : phase (fun k => diff_word a b (k - F)) (Z.to_nat (ia + F)) (ia + F) m 0 m4
    (-1 * c4)).
  { replace (Z.to_nat (ia + F)) with (Z.to_nat (F - Z.min fa fb) + Z.to_nat (ia + Z.min fa fb))%nat by lia.
    eapply phase_seq; [exact Hph1 |]. rewrite Z2Nat.id by lia.
    eapply phase_ext; [| exact Hph4]. intros k Hk. cbn beta. f_equal. lia. }
  assert (c4 = 0) as -> by (eapply sub_no_borrow; done || lia). done.
Qed.
End Subtract.

(** What the subtraction [s * (a - b)] leaves in [to]. *)
Definition subtracted (a b to : decimal_t) (s err : Z) (to' : decimal_t) : Prop :=
  wf to' /\ len to' = len to /\ exists F,
    (err = E_DEC_OK /\ F = Z.max (fw a) (fw b) \/
     err = E_DEC_TRUNCATED /\ F = fw to' /\ fw to' < Z.max (fw a) (fw b) /\
     len to < Z.max (iw a) (iw b) + Z.max (fw a) (fw b)) /\
    sval F to' = (if bool_decide (s = 0) then 1 else -1) * (absval F a - absval F b).

Lemma wlt_nonzero a b s i f : wf b -> trimmed a s i f -> wlt b a -> 0 < i + fw a.
Proof.
  intros Hb (? & ? & ? & ? & Hz) (e & Hlt & _). destruct (decide (- f <= e < i)); [lia |].
  rewrite (Hz e) in Hlt by done. pose proof (word_range b e Hb). lia.
Qed.

Lemma fw_result a b F I l s m :
  0 <= frac a -> 0 <= frac b -> 0 <= F <= Z.max (fw a) (fw b) ->
  fw (mk_decimal I (Z.min (Z.max (frac a) (frac b)) (F * DIG_PER_DEC1)) l s m) = F.
Proof. intros. apply fw_frac; unfold fw in *; lia. Qed.

Lemma sub_words_spec a b sa ia fa sb ib fb to s :
  wf a -> wf b -> trimmed a sa ia fa -> trimmed b sb ib fb -> ib <= ia ->
  (ia <> ib -> 0 <= fa) -> wlt b a ->
  len to = Z.of_nat (length (buf to)) -> 0 < len to -> ia <= len to -> 0 <= s <= 1 ->
  exists err to', sub_words (buf a) (buf b) sa sb ia ib fa fb (Z.max (frac a) (frac b)) s to
      (Z.max (fw a) (fw b)) = Some (err, to') /\ subtracted a b to s err to'.
Proof.
  intros Ha Hb Hta Htb Hib Hne Hlt Hlen Hpos Hfit Hs.
  pose proof (fw_nonneg a Ha). pose proof (fw_nonneg b Hb). pose proof (wf_frac a Ha).
  pose proof (wf_frac b Hb). pose proof (wlt_nonzero a b sa ia fa Hb Hta Hlt).
  pose proof Hta as (Hsa & ? & ? & ? & Hza). pose proof Htb as (Hsb & ? & ? & ? & _).
  unfold sub_words. rewrite fix_intg_frac, decide_False by lia.
  set (F := Z.min (Z.max (fw a) (fw b)) (len to - ia)).
  match goal with |- context [if bool_decide (?e <> 0) then ?t else ?u] =>
    replace (if bool_decide (e <> 0) then t else u) with
      (Z.min (Z.max (frac a) (frac b)) (F * DIG_PER_DEC1), Z.min fa F, Z.min fb F, ib) end.
  2: { unfold E_DEC_OK, E_DEC_TRUNCATED, DIG_PER_DEC1. unfold fw in *.
       rewrite !(ROUND_UP_div (frac _)) in * by lia. case_decide; bdec; repeat f_equal; Zlia. }
  destruct (sub_loops_spec a b sa ia (Z.min fa F) sb ib (Z.min fb F) F) with (m := buf to)
    as (m' & -> & Hph); try done; try lia; try (apply trimmed_window; done || lia).
  { apply wlt_absval; done || lia. }
  cbn [mbind option_bind]. eexists _, _; split; [done |].
  destruct (result_of_phase _ (ia * DIG_PER_DEC1)
    (Z.min (Z.max (frac a) (frac b)) (F * DIG_PER_DEC1)) (len to) s F ia (buf to) m' Hph)
    as [Hwf Hval]; try done; try (unfold DIG_PER_DEC1; lia).
  { apply ROUND_UP_mul. lia. }
  { apply fw_frac; unfold fw in *; lia. }
  unfold diff_word in Hval. rewrite ws_sub in Hval.
  rewrite (absval_window F a sa ia (Z.min fa F) ia), (absval_window F b sb ib (Z.min fb F) ia) in Hval
    by (done || lia || (apply trimmed_window; done || lia)).
  split; [done |]. split; [done |]. exists F. split.
  - rewrite (fw_result a b F) by lia. case_decide; [left | right]; split_and!; done || lia.
  - unfold sval. simpl sign. rewrite Hval. case_bool_decide; lia.
Qed.

(** The difference of equal numbers is zero, whatever their fractions. *)
Lemma make_zero_spec a b to s :
  len to = Z.of_nat (length (buf to)) -> 0 < len to ->
  (forall F, 0 <= F -> absval F a = absval F b) -> 0 <= fw a -> 0 <= fw b ->
  exists to', decimal_make_zero to = Some to' /\ subtracted a b to s E_DEC_OK to'.
Proof.
  intros Hlen Hpos Heq Hfa Hfb. unfold decimal_make_zero. rewrite store_in by lia.
  cbn [mbind option_bind]. eexists; split; [done |].
  assert (Hz : at_ (<[Z.to_nat 0:=0]> (buf to)) 0 = 0) by (rewrite at_insert by lia; done).
  split; [| split; [done |]].
  - split; unfold iw, fw; simpl; rewrite ?length_insert; try lia; try done.
    + change (ROUND_UP 1) with 1. change (ROUND_UP 0) with 0. lia.
    + change (ROUND_UP 1) with 1. change (ROUND_UP 0) with 0. intros i Hi.
      replace i with 0 by lia. rewrite Hz. unfold DIG_BASE. lia.
  - exists (Z.max (fw a) (fw b)). split; [by left |]. rewrite Heq by lia.
    unfold sval, absval, dval, iw, fw; simpl. change (ROUND_UP 1) with 1. change (ROUND_UP 0) with 0.
    change (Z.to_nat (1 + 0)) with 1%nat. cbn [ws].
    replace (at_ _ _) with 0 by (symmetry; exact Hz).
    rewrite !Z.mul_0_l, Zdiv_0_l. lia.
Qed.

Lemma do_sub_spec d1 d2 to :
  wf d1 -> wf d2 -> len to = Z.of_nat (length (buf to)) -> 0 < len to ->
  Z.max (iw d1) (iw d2) <= len to ->
  exists err to', do_sub d1 d2 (Some to) = Some (err, Some to') /\
    subtracted d1 d2 to (sign d1) err to'.
Proof.
  intros H1 H2 Hlen Hpos Hfit. unfold do_sub.
  pose proof (fw_nonneg d1 H1). pose proof (fw_nonneg d2 H2). pose proof (wf_sign d1 H1).
  destruct (sub_order_spec d1 d2 H1 H2) as (r & -> & Hord). cbn [mbind option_bind].
  destruct r as [[[[[[[c s1] s2] i1] i2] f1] f2] |]; cbn [ordered] in Hord.
  - fold (fw d1) (fw d2).
    destruct Hord as (Ht1 & Ht2 & Hf & [(-> & Hi & Hlt) | (-> & Hi & Hlt)]).
    + rewrite bool_decide_true by done. rewrite (Z.max_comm (frac d1)), (Z.max_comm (fw d1)).
      destruct (sub_words_spec d2 d1 s2 i2 f2 s1 i1 f1 to (1 - sign d1))
        as (err & to' & -> & Hsub); try done; try lia.
      { destruct Ht2 as (? & ? & ? & ? & _). lia. }
      exists err, to'. split; [done |]. destruct Hsub as (Hwf & Hl & F & HF & Hv).
      split; [done |]. split; [done |]. exists F. rewrite (Z.max_comm (iw d1)), (Z.max_comm (fw d1)). split; [done |].
      rewrite Hv. repeat case_bool_decide; lia.
    + rewrite bool_decide_false by lia.
      destruct (sub_words_spec d1 d2 s1 i1 f1 s2 i2 f2 to (sign d1))
        as (err & to' & -> & Hsub); try done; try lia.
      { destruct Ht1 as (? & ? & ? & ? & _). lia. }
      by exists err, to'.
  - destruct (make_zero_spec d1 d2 to (sign d1)) as (to' & -> & Hsub); try done.
    { intros F HF. by apply equal_absval. }
    by exists E_DEC_OK, to'.
Qed.

Lemma all_zero_spec n b p :
  0 <= p -> p + Z.of_nat n <= Z.of_nat (length b) ->
  exists r, all_zero n b p = Some r /\
    (r = 1 /\ (forall j, p <= j < p + Z.of_nat n -> at_ b j = 0) \/
     r = 0 /\ exists j, p <= j < p + Z.of_nat n /\ at_ b j <> 0).
Proof.
  revert p; induction n as [| n IH]; intros p Hp Hn; cbn [all_zero].
  - exists 1. split; [done |]. left. split; [done |]. lia.
  - rewrite load_at by lia. cbn [mbind option_bind]. case_bool_decide as Hz.
    + exists 0. split; [done |]. right. split; [done |]. exists p. split; [lia | done].
    + destruct (IH (p + 1)) as (r & -> & [[-> Hall] | [-> (j & Hj & Hne)]]); [lia | lia | |].
      * exists 1. split; [done |]. left. split; [done |]. intros j Hj.
        destruct (decide (j = p)) as [-> |]; [lia | apply Hall; lia].
      * exists 0. split; [done |]. right. split; [done |]. exists j. split; [lia | done].
Qed.

(** A test for [wf]. *)
Definition wfb (d : decimal_t) : bool :=
  bool_decide (0 <= intg d /\ 0 <= frac d /\ len d = Z.of_nat (length (buf d)) /\ 0 < len d /\
    iw d + fw d <= len d /\ 0 <= sign d <= 1) &&
  forallb (fun w => bool_decide (0 <= w < DIG_BASE)) (take (Z.to_nat (Z.max 1 (iw d + fw d))) (buf d)).

Lemma decimal_wfb_wf d : wfb d = true -> wf d.
Proof.
  unfold wfb. intros [(? & ? & ? & ? & ? & ?)%bool_decide_eq_true Hw]%andb_prop. split; try done.
  intros i Hi. rewrite forallb_forall in Hw.
  assert (Hl : load (buf d) i = Some (at_ (buf d) i)) by (apply load_at; lia).
  unfold load in Hl. rewrite decide_True in Hl by lia.
  apply (bool_decide_eq_true (0 <= at_ (buf d) i < DIG_BASE)), Hw, list_elem_of_In.
  apply list_elem_of_lookup. exists (Z.to_nat i). rewrite lookup_take, decide_True by lia. done.
Qed.
End Decimal.
