(* ===== verification/DecimalProps.v ===== *)
(** * DecimalProps: what the additive operations on decimals compute

    The theorems on [decimal_add], [decimal_sub], [decimal_cmp],
    [decimal_is_zero] and [decimal_result_size], on top of the loop
    specifications of [Decimal]. *)
From stdpp Require Import base tactics option list numbers.
From Stdlib Require Import ZArith Lia.
From S2P Require Import Prelude Decimal.

Module DecimalProps.
Import Decimal.

#[local] Hint Resolve iw_nonneg fw_nonneg : core.

(** How many words behind the point the result keeps, by the error code. *)
Definition kept (d1 d2 to : decimal_t) (err F : Z) (to' : decimal_t) : Prop :=
  err = E_DEC_OK /\ F = Z.max (fw d1) (fw d2) \/
  err = E_DEC_TRUNCATED /\ F = fw to' /\ F < Z.max (fw d1) (fw d2) /\
    len to < Z.max (iw d1) (iw d2) + 1 + Z.max (fw d1) (fw d2).

(** The first word has no more digits than [intg] says. *)
Definition canonical (d : decimal_t) : Prop :=
  0 < intg d -> at_ (buf d) 0 < 10 ^ (intg d - 9 * (iw d - 1)).

Lemma add_intg_bound d1 d2 :
  add_intg d1 d2 <= Z.max (iw d1) (iw d2) + 1.
Proof. unfold add_intg. case_decide; lia. Qed.

Lemma do_add_value d1 d2 to :
  wf d1 -> wf d2 -> 0 < iw d1 + fw d1 + iw d2 + fw d2 ->
  len to = Z.of_nat (length (buf to)) -> 0 < len to -> add_intg d1 d2 <= len to ->
  exists err to' F, do_add d1 d2 to = Some (err, to') /\ wf to' /\ kept d1 d2 to err F to' /\
    (add_intg d1 d2 + Z.max (fw d1) (fw d2) <= len to -> err = E_DEC_OK) /\
    sval F to' = (if bool_decide (sign d1 = 0) then 1 else -1) * (absval F d1 + absval F d2).
Proof.
  intros H1 H2 Hsome Hlen Hpos Hfit.
  destruct (do_add_spec d1 d2 to) as (err & to' & -> & Hwf & Hl & Hadd); [done..|].
  rewrite decide_False in Hadd by lia. destruct Hadd as (Hi & Hf & Hfr & He & Hs & Hv).
  pose proof (add_intg_bound d1 d2).
  exists err, to', (fw to'). split; [done |]. split; [done |]. split_and!.
  - rewrite He. case_decide; [left | right]; split_and!; done || lia.
  - intros Hroom. rewrite He, decide_True by lia. done.
  - unfold sval. rewrite Hs, Hv. case_bool_decide; lia.
Qed.

Lemma do_sub_value d1 d2 to :
  wf d1 -> wf d2 -> len to = Z.of_nat (length (buf to)) -> 0 < len to ->
  Z.max (iw d1) (iw d2) <= len to ->
  exists err to' F, (r ← do_sub d1 d2 (Some to); t ← r.2; Some (r.1, t)) = Some (err, to') /\
    wf to' /\ kept d1 d2 to err F to' /\
    (Z.max (iw d1) (iw d2) + Z.max (fw d1) (fw d2) <= len to -> err = E_DEC_OK) /\
    sval F to' = (if bool_decide (sign d1 = 0) then 1 else -1) * (absval F d1 - absval F d2).
Proof.
  intros H1 H2 Hlen Hpos Hfit.
  destruct (do_sub_spec d1 d2 to) as (err & to' & -> & Hwf & Hl & F & HF & Hv); [done..|].
  exists err, to', F. split; [done |]. split; [done |]. split_and!; [| | done].
  - destruct HF as [[-> ->] | (-> & -> & ? & ?)]; [left | right]; split_and!; done || lia.
  - intros. destruct HF as [[-> ->] | (-> & -> & ? & ?)]; [done | lia].
Qed.

(** The two signs of a well-formed decimal. *)
Lemma sval_sign F d :
  sval F d = (if bool_decide (sign d = 0) then 1 else -1) * absval F d.
Proof. unfold sval. case_bool_decide; lia. Qed.

Lemma sign_cases d1 d2 :
  wf d1 -> wf d2 -> sign d1 <> sign d2 ->
  (if bool_decide (sign d2 = 0) then 1 else -1) = - (if bool_decide (sign d1 = 0) then 1 else -1).
Proof.
  intros H1 H2 Hne. pose proof (wf_sign d1 H1). pose proof (wf_sign d2 H2).
  repeat case_bool_decide; lia.
Qed.

(** Both operations, the needed integer words being [I]. *)
Lemma add_sub_value d1 d2 to I :
  wf d1 -> wf d2 -> 0 < iw d1 + fw d1 + iw d2 + fw d2 ->
  len to = Z.of_nat (length (buf to)) -> 0 < len to ->
  Z.max (iw d1) (iw d2) <= I -> add_intg d1 d2 <= I -> I <= len to ->
  (exists err to' F, decimal_add d1 d2 to = Some (err, to') /\ wf to' /\ kept d1 d2 to err F to' /\
    (I + Z.max (fw d1) (fw d2) <= len to -> err = E_DEC_OK) /\
    sval F to' = sval F d1 + sval F d2) /\
  (exists err to' F, decimal_sub d1 d2 to = Some (err, to') /\ wf to' /\ kept d1 d2 to err F to' /\
    (I + Z.max (fw d1) (fw d2) <= len to -> err = E_DEC_OK) /\
    sval F to' = sval F d1 - sval F d2).
Proof.
  intros H1 H2 Hsome Hlen Hpos HI1 HI2 Hfit. unfold decimal_add, decimal_sub.
  destruct (do_add_value d1 d2 to) as (e & t & F & Ha & Hwf & Hk & Hok & Hv); [done..| lia |].
  destruct (do_sub_value d1 d2 to) as (e' & t' & F' & Hs & Hwf' & Hk' & Hok' & Hv'); [done..| lia |].
  destruct (decide (sign d1 = sign d2)) as [Hsg | Hsg].
  - rewrite !bool_decide_true by done. split; [exists e, t, F | exists e', t', F'];
      (split; [done |]; split; [done |]; split; [done |]; split; [intros; auto with lia |]);
      rewrite !(sval_sign _ d1), !(sval_sign _ d2), <- Hsg; [rewrite Hv | rewrite Hv']; lia.
  - rewrite !bool_decide_false by done. split; [exists e', t', F' | exists e, t, F];
      (split; [done |]; split; [done |]; split; [done |]; split; [intros; auto with lia |]);
      rewrite !(sval_sign _ d1), !(sval_sign _ d2), (sign_cases d1 d2) by done;
      [rewrite Hv' | rewrite Hv]; lia.
Qed.

(** C1 [decimal_add] and [decimal_sub] are exact: with room in [to] for the integer
    part and a carry word, they return [E_DEC_OK] and the signed value of [to] is
    the sum or the difference, or, when the fraction does not fit, they return
    [E_DEC_TRUNCATED] and the result is the sum or the difference of the operands
    cut to the words that fit. *)
Theorem decimal_add_sub_value d1 d2 to :
  wf d1 -> wf d2 -> 0 < iw d1 + fw d1 + iw d2 + fw d2 ->
  len to = Z.of_nat (length (buf to)) -> 0 < len to -> Z.max (iw d1) (iw d2) + 1 <= len to ->
  (exists err to' F, decimal_add d1 d2 to = Some (err, to') /\ wf to' /\
    kept d1 d2 to err F to' /\ sval F to' = sval F d1 + sval F d2) /\
  (exists err to' F, decimal_sub d1 d2 to = Some (err, to') /\ wf to' /\
    kept d1 d2 to err F to' /\ sval F to' = sval F d1 - sval F d2).
Proof.
  intros H1 H2 Hsome Hlen Hpos Hfit. pose proof (add_intg_bound d1 d2).
  destruct (add_sub_value d1 d2 to (Z.max (iw d1) (iw d2) + 1))
    as [(e & t & F & ? & ? & ? & _ & ?) (e' & t' & F' & ? & ? & ? & _ & ?)]; try done; try lia.
  split; [by exists e, t, F | by exists e', t', F'].
Qed.

(** ** The size of a result *)

Lemma first_word_small d N :
  wf d -> canonical d -> intg d <= N -> iw d = ROUND_UP N -> 0 < intg d -> N mod 9 <> 0 ->
  at_ (buf d) 0 < 100000000.
Proof.
  intros Hd Hc HN Hi Hpos Hmod. eapply Z.lt_le_trans; [by apply Hc |].
  change 100000000 with (10 ^ 8). apply Z.pow_le_mono_r; [lia |].
  unfold iw in *. rewrite ROUND_UP_div in Hi by lia. rewrite (ROUND_UP_div N) in Hi by lia.
  rewrite ROUND_UP_div by lia. Zlia.
Qed.

Lemma add_intg_canonical d1 d2 :
  wf d1 -> wf d2 -> canonical d1 -> canonical d2 ->
  add_intg d1 d2 <= ROUND_UP (Z.max (intg d1) (intg d2) + 1).
Proof.
  intros H1 H2 Hc1 Hc2. pose proof (wf_intg d1 H1). pose proof (wf_intg d2 H2).
  set (N := Z.max (intg d1) (intg d2)).
  assert (HN : Z.max (iw d1) (iw d2) = ROUND_UP N) by (unfold iw, N; rewrite ROUND_UP_max by lia; done).
  unfold add_intg. rewrite HN. case_decide as Hx; [| rewrite !ROUND_UP_div by lia; Zlia].
  destruct (decide (N mod 9 = 0)) as [Hm | Hm]; [rewrite !ROUND_UP_div by lia; Zlia |].
  exfalso. assert (0 < N) by (destruct (decide (N = 0)) as [E |]; [rewrite E in Hm; done | lia]).
  assert (Hpos : forall d, wf d -> 0 <= intg d -> iw d = ROUND_UP N -> 0 < intg d).
  { intros d Hd Hi Hw. unfold iw in Hw. rewrite !ROUND_UP_div in Hw by lia. Zlia. }
  unfold add_first, DIG_MAX, DIG_BASE in Hx. repeat case_decide.
  - pose proof (first_word_small d1 N H1 Hc1 ltac:(lia) ltac:(lia)
      ltac:(apply Hpos; done || lia) Hm). lia.
  - pose proof (first_word_small d2 N H2 Hc2 ltac:(lia) ltac:(lia)
      ltac:(apply Hpos; done || lia) Hm). lia.
  - pose proof (first_word_small d1 N H1 Hc1 ltac:(lia) ltac:(lia)
      ltac:(apply Hpos; done || lia) Hm).
    pose proof (first_word_small d2 N H2 Hc2 ltac:(lia) ltac:(lia)
      ltac:(apply Hpos; done || lia) Hm). lia.
Qed.

(** [decimal_result_size] is enough: when the first words have no more digits
    than [intg] says, a [to] of the size it gives for ['+'] makes [decimal_add]
    and [decimal_sub] return [E_DEC_OK] with the exact sum and difference, and the
    size for ['-'] does so for [decimal_sub] of operands of the same sign. *)
Theorem decimal_result_size_enough d1 d2 to :
  wf d1 -> wf d2 -> canonical d1 -> canonical d2 -> 0 < iw d1 + fw d1 + iw d2 + fw d2 ->
  len to = Z.of_nat (length (buf to)) -> 0 < len to ->
  (decimal_result_size d1 d2 43 0 <= len to ->
   (exists to', decimal_add d1 d2 to = Some (E_DEC_OK, to') /\ wf to' /\
      let F := Z.max (fw d1) (fw d2) in sval F to' = sval F d1 + sval F d2) /\
   (exists to', decimal_sub d1 d2 to = Some (E_DEC_OK, to') /\ wf to' /\
      let F := Z.max (fw d1) (fw d2) in sval F to' = sval F d1 - sval F d2)) /\
  (sign d1 = sign d2 -> decimal_result_size d1 d2 45 0 <= len to ->
   exists to', decimal_sub d1 d2 to = Some (E_DEC_OK, to') /\ wf to' /\
     let F := Z.max (fw d1) (fw d2) in sval F to' = sval F d1 - sval F d2).
Proof.
  intros H1 H2 Hc1 Hc2 Hsome Hlen Hpos. pose proof (add_intg_canonical d1 d2 H1 H2 Hc1 Hc2).
  pose proof (wf_intg d1 H1). pose proof (wf_intg d2 H2). pose proof (wf_frac d1 H1).
  pose proof (wf_frac d2 H2). pose proof (fw_nonneg d1 H1). pose proof (fw_nonneg d2 H2).
  assert (Hkept : forall err F to', err = E_DEC_OK -> kept d1 d2 to err F to' -> F = Z.max (fw d1) (fw d2))
    by (intros err F to' -> [[_ ->] | [? _]]; done).
  assert (Hfr : ROUND_UP (Z.max (frac d1) (frac d2)) = Z.max (fw d1) (fw d2)) by (apply ROUND_UP_max; done).
  assert (Hin : ROUND_UP (Z.max (intg d1) (intg d2)) = Z.max (iw d1) (iw d2)) by (apply ROUND_UP_max; done).
  split.
  - change (decimal_result_size d1 d2 43 0) with
      (ROUND_UP (Z.max (intg d1) (intg d2) + 1) + ROUND_UP (Z.max (frac d1) (frac d2))).
    intros Hroom. rewrite Hfr in Hroom.
    pose proof (ROUND_UP_mono (Z.max (intg d1) (intg d2)) (Z.max (intg d1) (intg d2) + 1) ltac:(lia)).
    destruct (add_sub_value d1 d2 to (ROUND_UP (Z.max (intg d1) (intg d2) + 1)))
      as [(e & t & F & ? & ? & Hk & Hok & ?) (e' & t' & F' & ? & ? & Hk' & Hok' & ?)]; try done; try lia.
    apply (Hkept _ _ _ (Hok ltac:(lia))) in Hk. apply (Hkept _ _ _ (Hok' ltac:(lia))) in Hk'.
    rewrite Hok, Hok' in * by lia. subst. split; [by exists t | by exists t'].
  - intros Hsg.
    change (decimal_result_size d1 d2 45 0) with
      (ROUND_UP (Z.max (intg d1) (intg d2)) + ROUND_UP (Z.max (frac d1) (frac d2))).
    intros Hroom. rewrite Hfr, Hin in Hroom.
    destruct (do_sub_value d1 d2 to) as (e & t & F & ? & ? & Hk & Hok & Hv); [done..| lia |].
    apply (Hkept _ _ _ (Hok ltac:(lia))) in Hk. rewrite Hok in * by lia. subst F.
    exists t. unfold decimal_sub. rewrite bool_decide_true by done. split_and!; [done | done |].
    cbn zeta. rewrite Hv, (sval_sign _ d1), (sval_sign _ d2), <- Hsg. lia.
Qed.

(** ** Comparison *)

Definition no_negative_zero (d : decimal_t) : Prop := sign d = 0 \/ dval d <> 0.

Lemma dval_nonneg d : wf d -> 0 <= dval d.
Proof.
  intros Hd. pose proof (iw_nonneg d Hd). pose proof (fw_nonneg d Hd).
  apply ws_bound. intros k Hk. apply wf_words; [done | lia].
Qed.

Lemma absval_dval F d : fw d <= F -> 0 <= fw d -> absval F d = dval d * DIG_BASE ^ (F - fw d).
Proof.
  intros HF Hf. unfold absval. replace F with (F - fw d + fw d) at 1 by lia.
  rewrite Z.pow_add_r by lia. rewrite Z.mul_assoc. apply Z.div_mul, Z.pow_nonzero; [done | lia].
Qed.

Lemma absval_pos F d :
  wf d -> fw d <= F -> 0 <= absval F d /\ (dval d <> 0 -> 0 < absval F d).
Proof.
  intros Hd HF. rewrite absval_dval by auto. pose proof (dval_nonneg d Hd).
  assert (0 < DIG_BASE ^ (F - fw d)) by (apply Z.pow_pos_nonneg; unfold DIG_BASE; lia). nia.
Qed.

Lemma do_cmp_value d1 d2 :
  wf d1 -> wf d2 ->
  (r ← do_sub d1 d2 None; Some r.1) =
  Some ((if bool_decide (sign d1 = 0) then 1 else -1) *
        Z.sgn (absval (Z.max (fw d1) (fw d2)) d1 - absval (Z.max (fw d1) (fw d2)) d2)).
Proof.
  intros H1 H2. pose proof (fw_nonneg d1 H1). pose proof (wf_sign d1 H1).
  set (F := Z.max (fw d1) (fw d2)). unfold do_sub.
  destruct (sub_order_spec d1 d2 H1 H2) as (r & -> & Hord). cbn [mbind option_bind].
  destruct r as [[[[[[[c s1] s2] i1] i2] f1] f2] |]; cbn [ordered] in Hord.
  - destruct Hord as (_ & _ & _ & [(-> & _ & Hlt) | (-> & _ & Hlt)]).
    + destruct (wlt_absval d1 d2 F H1 H2 Hlt ltac:(lia)) as [_ Hv].
      rewrite Z.sgn_neg by lia. repeat case_bool_decide; simpl; f_equal; lia.
    + destruct (wlt_absval d2 d1 F H2 H1 Hlt ltac:(lia)) as [_ Hv].
      rewrite Z.sgn_pos by lia. repeat case_bool_decide; simpl; f_equal; lia.
  - rewrite (equal_absval d1 d2 F) by (done || lia). rewrite Z.sub_diag. simpl. f_equal. lia.
Qed.

(** The order of [decimal_cmp]: signs first, so that a minus zero is below a plus zero. *)
Definition cmp_number (F : Z) (d1 d2 : decimal_t) : Z :=
  if decide (sign d1 = sign d2)
  then (if bool_decide (sign d1 = 0) then 1 else -1) * Z.sgn (absval F d1 - absval F d2)
  else if decide (sign d1 > sign d2) then -1 else 1.

Lemma decimal_cmp_number d1 d2 : wf d1 -> wf d2 ->
  decimal_cmp d1 d2 = Some (cmp_number (Z.max (fw d1) (fw d2)) d1 d2).
Proof.
  intros H1 H2. unfold decimal_cmp, cmp_number. destruct (decide (sign d1 = sign d2)) as [Hsg | Hsg].
  - rewrite bool_decide_true by done. by rewrite do_cmp_value.
  - rewrite bool_decide_false by done. destruct (decide (sign d1 > sign d2)); [by rewrite bool_decide_true | by rewrite bool_decide_false].
Qed.

Lemma decimal_cmp_spec d1 d2 :
  wf d1 -> wf d2 -> no_negative_zero d1 -> no_negative_zero d2 ->
  let F := Z.max (fw d1) (fw d2) in
  decimal_cmp d1 d2 = Some (Z.sgn (sval F d1 - sval F d2)).
Proof.
  intros H1 H2 Hz1 Hz2 F. unfold decimal_cmp.
  pose proof (wf_sign d1 H1). pose proof (wf_sign d2 H2).
  destruct (absval_pos F d1 H1 ltac:(lia)) as [Hp1 Hn1].
  destruct (absval_pos F d2 H2 ltac:(lia)) as [Hp2 Hn2].
  destruct (decide (sign d1 = sign d2)) as [Hsg | Hsg].
  - rewrite bool_decide_true by done. rewrite do_cmp_value by done. f_equal.
    fold F. rewrite !sval_sign, <- Hsg, <- Z.mul_sub_distr_l, Z.sgn_mul.
    case_bool_decide; reflexivity.
  - rewrite bool_decide_false by done. f_equal. unfold no_negative_zero in *.
    rewrite !sval_sign. repeat case_bool_decide; try lia.
    all: first [rewrite Z.sgn_neg by lia | rewrite Z.sgn_pos by lia]; done.
Qed.

Lemma decimal_is_zero_spec d :
  wf d -> decimal_is_zero d = Some (if bool_decide (dval d = 0) then 1 else 0).
Proof.
  intros Hd. pose proof (iw_nonneg d Hd). pose proof (fw_nonneg d Hd).
  pose proof (wf_fit d Hd). pose proof (wf_len d Hd).
  unfold decimal_is_zero. fold (iw d) (fw d).
  destruct (all_zero_spec (Z.to_nat (iw d + fw d)) (buf d) 0)
    as (r & -> & [[-> Hall] | [-> (j & Hj & Hne)]]); [lia | lia | |].
  - rewrite bool_decide_true; [done |]. apply ws_zero. intros k Hk. apply Hall. lia.
  - rewrite bool_decide_false; [done |].
    assert (0 < dval d); [| lia]. apply (ws_pos _ _ (iw d + fw d - 1 - j)); [| lia |].
    + intros k Hk. apply wf_words; [done | lia].
    + by replace (iw d + fw d - 1 - (iw d + fw d - 1 - j)) with j by lia.
Qed.

(** [decimal_cmp] is the order of the values: it returns the sign of the
    difference of the signed values (a negative zero excluded), whatever leading
    or trailing zero words the operands carry; and [decimal_is_zero] returns 1
    exactly for the decimals of value zero. *)
Theorem decimal_order_value d1 d2 :
  wf d1 -> wf d2 -> no_negative_zero d1 -> no_negative_zero d2 ->
  (let F := Z.max (fw d1) (fw d2) in
   decimal_cmp d1 d2 = Some (Z.sgn (sval F d1 - sval F d2))) /\
  decimal_is_zero d1 = Some (if bool_decide (dval d1 = 0) then 1 else 0).
Proof. intros. split; [by apply decimal_cmp_spec | by apply decimal_is_zero_spec]. Qed.

(** ** The limits of [to] *)

(** An addition that does not fit saturates: when [to] is too short for the
    integer part of a sum of operands of the same sign, [decimal_add] returns
    [E_DEC_OVERFLOW] and [to] holds the largest number of its length (with a plus
    sign, also for negative operands). *)
Theorem decimal_add_saturates d1 d2 to :
  wf d1 -> wf d2 -> 0 < iw d1 + fw d1 + iw d2 + fw d2 -> sign d1 = sign d2 ->
  len to = Z.of_nat (length (buf to)) -> 0 < len to -> len to < Z.max (iw d1) (iw d2) ->
  exists to', decimal_add d1 d2 to = Some (E_DEC_OVERFLOW, to') /\ wf to' /\
    fw to' = 0 /\ sval 0 to' = DIG_BASE ^ len to - 1.
Proof.
  intros H1 H2 Hsome Hsg Hlen Hpos Hshort. unfold decimal_add. rewrite bool_decide_true by done.
  assert (len to < add_intg d1 d2) by (unfold add_intg; case_decide; lia).
  destruct (do_add_spec d1 d2 to) as (err & to' & -> & Hwf & Hl & Hadd); [done..|].
  rewrite decide_True in Hadd by done.
  destruct Hadd as (-> & Hs & Hf & Hv). exists to'. split_and!; try done.
  unfold sval. rewrite bool_decide_true by done. rewrite absval_dval by lia.
  rewrite Hv, Hf. lia.
Qed.

(** Two limits of a short [to].  The size that [decimal_result_size] gives for ['-']
    can be too small: 999999999 - (-1) is then reported as an overflow, since
    operands of opposite signs are added.  And where [to] is shorter than the
    integer part, [do_sub] writes in front of its buffer: for 5 * 10^18 - 4 * 10^18
    and a [to] of one word the word counts of the stripped operands are negative,
    and the zero fill runs past the first word (no result is reached). *)
Theorem decimal_sub_short_to :
  (let d1 := mk_decimal 9 0 1 0 [999999999] in
   let d2 := mk_decimal 1 0 1 1 [1] in
   let to := mk_decimal 0 0 1 0 [0] in
   decimal_result_size d1 d2 45 0 = len to /\
   exists to', decimal_sub d1 d2 to = Some (E_DEC_OVERFLOW, to')) /\
  (let d1 := mk_decimal 19 0 3 0 [5; 0; 0] in
   let d2 := mk_decimal 19 0 3 0 [4; 0; 0] in
   let to := mk_decimal 0 0 1 0 [0] in
   sub_order d1 d2 = Some (Some (0, 0, 0, 3, 3, -2, -2)) /\
   zero_down (0 - -2) 1 (buf to) = None /\ decimal_sub d1 d2 to = None).
Proof.
  split; [split; [reflexivity |]; eexists; vm_compute; reflexivity |].
  vm_compute. auto.
Qed.

(** ** Witnesses *)

Definition w_12_5 : decimal_t := mk_decimal 2 1 3 0 [12; 500000000; 0].
Definition w_minus_99_75 : decimal_t := mk_decimal 2 2 2 1 [99; 750000000].
Definition w_to : decimal_t := mk_decimal 0 0 3 0 [7; 7; 7].
Definition w_to1 : decimal_t := mk_decimal 0 0 1 0 [7].
Definition w_big : decimal_t := mk_decimal 12 0 2 0 [999; 999999999].

Lemma decimal_add_sub_value_witness :
  (exists err to' F, decimal_add w_12_5 w_minus_99_75 w_to = Some (err, to') /\ wf to' /\
    kept w_12_5 w_minus_99_75 w_to err F to' /\ sval F to' = sval F w_12_5 + sval F w_minus_99_75) /\
  (exists err to' F, decimal_sub w_12_5 w_minus_99_75 w_to = Some (err, to') /\ wf to' /\
    kept w_12_5 w_minus_99_75 w_to err F to' /\ sval F to' = sval F w_12_5 - sval F w_minus_99_75).
Proof.
  apply (decimal_add_sub_value w_12_5 w_minus_99_75 w_to);
    try (apply decimal_wfb_wf; reflexivity); try reflexivity; vm_compute; congruence.
Defined.

Lemma decimal_result_size_enough_witness :
  exists to', decimal_sub w_12_5 w_minus_99_75 w_to = Some (E_DEC_OK, to') /\ wf to' /\
    let F := Z.max (fw w_12_5) (fw w_minus_99_75) in
    sval F to' = sval F w_12_5 - sval F w_minus_99_75.
Proof.
  apply (fun h1 h2 h3 h4 h5 h6 h7 h8 => proj2 (proj1
    (decimal_result_size_enough w_12_5 w_minus_99_75 w_to h1 h2 h3 h4 h5 h6 h7) h8));
    try (apply decimal_wfb_wf; reflexivity); try reflexivity; vm_compute; congruence.
Defined.

Lemma decimal_order_value_witness :
  decimal_cmp w_12_5 w_minus_99_75 = Some 1 /\ decimal_is_zero w_12_5 = Some 0.
Proof.
  apply (decimal_order_value w_12_5 w_minus_99_75); try (apply decimal_wfb_wf; reflexivity).
  - left. reflexivity.
  - right. vm_compute. congruence.
Defined.

Lemma decimal_add_saturates_witness :
  exists to', decimal_add w_big w_big w_to1 = Some (E_DEC_OVERFLOW, to') /\ wf to' /\
    fw to' = 0 /\ sval 0 to' = DIG_BASE ^ len w_to1 - 1.
Proof.
  apply (decimal_add_saturates w_big w_big w_to1);
    try (apply decimal_wfb_wf; reflexivity); reflexivity.
Defined.

End DecimalProps.

(** * DecimalDigits: lists of words as numbers *)
Module DecimalDigits.
Import Decimal.

(** The number with the digits [l] in base [c]. *)
Fixpoint hl (c : Z) (l : list Z) : Z :=
  match l with [] => 0 | x :: l => x * c ^ Z.of_nat (length l) + hl c l end.

Lemma hl_app c l l' : 0 <= c -> hl c (l ++ l') = hl c l * c ^ Z.of_nat (length l') + hl c l'.
Proof.
  intros C. induction l as [|x l IH]; cbn [hl app]; [lia|].
  rewrite IH, length_app, Nat2Z.inj_add, Z.pow_add_r by lia. ring.
Qed.

Lemma hl_bound c l : 0 < c -> Forall (fun x => 0 <= x < c) l -> 0 <= hl c l < c ^ Z.of_nat (length l).
Proof.
  intros C. induction 1 as [|x l X F IH]; cbn [hl length]; [lia|].
  rewrite Nat2Z.inj_succ, Z.pow_succ_r by lia. assert (0 <= x <= c - 1) by lia. nia.
Qed.

(** The order of numbers does not depend on the base. *)
Lemma hl_order c l l' : 0 < c -> length l = length l' ->
  Forall (fun x => 0 <= x < c) l -> Forall (fun x => 0 <= x < c) l' ->
  forall b, 0 < b -> Forall (fun x => 0 <= x < b) l -> Forall (fun x => 0 <= x < b) l' ->
  hl c l < hl c l' -> hl b l < hl b l'.
Proof.
  intros C. revert l'. induction l as [|x l IH]; intros [|x' l'] L F F' b B G G'; try done; cbn [hl length] in *.
  injection L as L. apply Forall_cons_1 in F as (X & F), F' as (X' & F'), G as (Y & G), G' as (Y' & G').
  pose proof (hl_bound c l C F). pose proof (hl_bound c l' C F'). pose proof (hl_bound b l B G). pose proof (hl_bound b l' B G').
  rewrite L in *. set (m := c ^ _) in *. set (n := b ^ _) in *. intros Lt.
  destruct (Z.lt_trichotomy x x') as [A|[A|A]].
  - assert (x + 1 <= x') by lia. nia.
  - subst x'. enough (hl b l < hl b l') by lia. apply (IH l'); auto. lia.
  - exfalso. assert (x' + 1 <= x) by lia. nia.
Qed.

Lemma at_cons x l i : 0 < i -> at_ (x :: l) i = at_ l (i - 1).
Proof.
  intros I. unfold at_, load. rewrite !decide_True by lia.
  replace (Z.to_nat i) with (S (Z.to_nat (i - 1))) by lia. done.
Qed.

Lemma ws_list l rm : ws (fun k => at_ (l ++ rm) (Z.of_nat (length l) - 1 - k)) (length l) = hl DIG_BASE l.
Proof.
  induction l as [|x l IH]; [done|]. cbn [ws length hl app]. rewrite Z.add_comm. f_equal.
  - rewrite Nat2Z.inj_succ. replace (Z.succ _ - 1 - _) with 0 by lia. done.
  - rewrite <- IH. apply ws_ext. intros k K. rewrite at_cons by lia. f_equal. lia.
Qed.

(** A decimal built from its words. *)
Lemma result_ok g s rm' (words : list Z) len sgn :
  Forall (fun x => 0 <= x < DIG_BASE) words -> 0 <= g -> 0 <= s -> ROUND_UP g + ROUND_UP s = Z.of_nat (length words) ->
  (words = [] -> head rm' = Some 0) -> len = Z.of_nat (length (words ++ rm')) -> 0 <= sgn <= 1 ->
  let d' := mk_decimal g s len sgn (words ++ rm') in
  wf d' /\ absval (ROUND_UP s) d' = hl DIG_BASE words.
Proof.
  intros F G S0 Lw H0 L Sg d'. assert (Hw : words <> [] \/ head rm' = Some 0) by (destruct words; auto).
  rewrite length_app in L.
  assert (0 < len) by (destruct Hw as [Hw|Hw]; [destruct words; [done|cbn in *; lia]|destruct rm'; [done|cbn in *; lia]]).
  split.
  - split; unfold iw, fw, d'; cbn [intg frac Decimal.len buf sign]; rewrite ?length_app; try lia.
    intros i I. rewrite Lw in I. destruct (decide (i < Z.of_nat (length words))) as [Lt|Ge].
    + rewrite at_app_l by done. rewrite Forall_lookup in F. unfold at_, load. rewrite decide_True by lia.
      destruct (lookup_lt_is_Some_2 words (Z.to_nat i) ltac:(lia)) as (x & Ex). rewrite Ex. apply (F _ _ Ex).
    + assert (words = []) as -> by (destruct words; [done|cbn in *; lia]). assert (i = 0) as -> by (cbn in *; lia).
      cbn [app]. destruct rm' as [|y rm']; [by specialize (H0 eq_refl)|]. specialize (H0 eq_refl). cbn in H0. injection H0 as ->.
      change (at_ (0 :: rm') 0) with 0. unfold DIG_BASE. lia.
  - pose proof (ROUND_UP_nonneg s ltac:(lia)). unfold absval, dval, iw, fw, d'. cbn [intg frac buf].
    rewrite Lw, Nat2Z.id, ws_list. apply Z.div_mul, Z.pow_nonzero; unfold DIG_BASE; lia.
Qed.

(** The words of a decimal. *)
Lemma words_of d : wf d -> exists l rest, buf d = l ++ rest /\ Z.of_nat (length l) = iw d + fw d /\
  Forall (fun x => 0 <= x < DIG_BASE) l /\ dval d = hl DIG_BASE l.
Proof.
  intros W. pose proof (iw_nonneg d W). pose proof (fw_nonneg d W). pose proof (wf_fit d W). pose proof (wf_len d W).
  set (n := Z.to_nat (iw d + fw d)). exists (take n (buf d)), (drop n (buf d)).
  assert (Ln : length (take n (buf d)) = n) by (rewrite length_take; lia).
  split_and!; [by rewrite take_drop|lia| |].
  - apply Forall_lookup. intros i x X. pose proof (lookup_lt_Some _ _ _ X). rewrite lookup_take_lt in X by lia.
    pose proof (wf_words d W (Z.of_nat i) ltac:(lia)) as R. unfold at_, load in R.
    rewrite decide_True in R by lia. rewrite Nat2Z.id, X in R. exact R.
  - unfold dval. fold n. rewrite <- (ws_list _ (drop n (buf d))), take_drop, Ln.
    apply ws_ext. intros k K. f_equal. lia.
Qed.
End DecimalDigits.
