(* ===== verification/DecimalConv.v ===== *)
(** * DecimalConv: decimals and 64-bit integers

    [ull2dec], [ulonglong2decimal], [longlong2decimal], [decimal2ulonglong] and
    [decimal2longlong] of [strings/decimal.c]. *)
From stdpp Require Import base tactics option list numbers.
From Stdlib Require Import ZArith Lia.
From S2P Require Import Prelude Decimal.

Module DecimalConv.
Import Decimal.

(** ** Model *)

Definition ULONGLONG_MAX : Z := 2 ^ 64 - 1.
Definition LONGLONG_MAX : Z := 2 ^ 63 - 1.
Definition LONGLONG_MIN : Z := - 2 ^ 63.

(** [for (intg1=1; from >= DIG_BASE; intg1++, from/=DIG_BASE);]; two passes are
    enough for 64 bits. *)
Fixpoint count_words (fuel : nat) (intg1 from : Z) : option Z :=
  if bool_decide (from >= DIG_BASE)
  then match fuel with
       | O => None
       | S fuel => count_words fuel (intg1 + 1) (from / DIG_BASE)
       end
  else Some intg1.

(** [for (buf=to->buf+intg1; intg1; intg1--) {...}] *)
Definition store_words (intg1 from : Z) (m : list Z) : option (list Z * Z) :=
  for_up (Z.to_nat intg1) 0
    (fun k '(m, x) =>
       let y := x / DIG_BASE in
       m ← store m (intg1 - 1 - k) (s32 (u64 (x - u64 (y * DIG_BASE))));
       Some (m, y)) (m, from).

Definition ull2dec (from : Z) (to : decimal_t) : option (Z * decimal_t) :=
  intg1 ← count_words 2 1 from;
  let '(intg1, error) :=
    if bool_decide (intg1 > len to) then (len to, E_DEC_OVERFLOW) else (intg1, E_DEC_OK) in
  '(m, _) ← store_words intg1 from (buf to);
  Some (error, mk_decimal (intg1 * DIG_PER_DEC1) 0 (len to) (sign to) m).

Definition with_sign (d : decimal_t) (s : Z) : decimal_t :=
  mk_decimal (intg d) (frac d) (len d) s (buf d).

Definition ulonglong2decimal (from : Z) (to : decimal_t) : option (Z * decimal_t) :=
  ull2dec from (with_sign to 0).

Definition longlong2decimal (from : Z) (to : decimal_t) : option (Z * decimal_t) :=
  if bool_decide (from < 0) then ull2dec (u64 (s64 (- from))) (with_sign to 1)
  else ull2dec (u64 from) (with_sign to 0).

(** [for (frac=from->frac; frac > 0; frac-=DIG_PER_DEC1) if ( *buf++) return E_DEC_TRUNCATED;
    return E_DEC_OK;] *)
Definition frac_error (from : decimal_t) : option Z :=
  r ← all_zero (Z.to_nat (ROUND_UP (frac from))) (buf from) (ROUND_UP (intg from));
  Some (if bool_decide (r = 1) then E_DEC_OK else E_DEC_TRUNCATED).

(** The value stored at [to] and the error code. *)
Definition decimal2ulonglong (from : decimal_t) : option (Z * Z) :=
  if bool_decide (sign from <> 0) then Some (0, E_DEC_OVERFLOW)
  else
    r ← for_ret (Z.to_nat (ROUND_UP (intg from))) 0
      (fun k x =>
         let y := x in
         w ← load (buf from) k;
         let x := u64 (u64 (x * DIG_BASE) + u64 w) in
         if bool_decide (y > ULONGLONG_MAX / DIG_BASE) || bool_decide (x < y)
         then Some (Ret (ULONGLONG_MAX, E_DEC_OVERFLOW))
         else Some (Next x)) 0;
    match r with
    | Ret r => Some r
    | Next x => e ← frac_error from; Some (x, e)
    end.

Definition decimal2longlong (from : decimal_t) : option (Z * Z) :=
  r ← for_ret (Z.to_nat (ROUND_UP (intg from))) 0
    (fun k x =>
       let y := x in
       w ← load (buf from) k;
       let x := s64 (s64 (x * DIG_BASE) - w) in
       if bool_decide (y < Z.quot LONGLONG_MIN DIG_BASE) || bool_decide (x > y)
       then Some (Ret (if bool_decide (sign from <> 0) then LONGLONG_MIN else LONGLONG_MAX,
                       E_DEC_OVERFLOW))
       else Some (Next x)) 0;
  match r with
  | Ret r => Some r
  | Next x =>
      if bool_decide (sign from = 0) && bool_decide (x = LONGLONG_MIN)
      then Some (LONGLONG_MAX, E_DEC_OVERFLOW)
      else
        e ← frac_error from;
        Some (if bool_decide (sign from <> 0) then x else s64 (- x), e)
  end.

(** ** Reading the integer part, most significant word first *)

(** The number in the first [j] words. *)
Definition high (b : list Z) (j : Z) : Z := ws (fun k => at_ b (j - 1 - k)) (Z.to_nat j).

Lemma high_succ b j : 0 <= j -> high b (j + 1) = high b j * DIG_BASE + at_ b j.
Proof.
  intros Hj. unfold high. replace (Z.to_nat (j + 1)) with (1 + Z.to_nat j)%nat by lia.
  rewrite ws_app. cbn [ws]. change (Z.of_nat 0) with 0. change (Z.of_nat 1) with 1.
  rewrite (ws_ext (fun k => at_ b (j + 1 - 1 - (k + 1))) (fun k => at_ b (j - 1 - k)))
    by (intros; f_equal; lia).
  replace (j + 1 - 1 - 0) with j by lia. rewrite Z.pow_0_r, Z.pow_1_r. lia.
Qed.

Lemma high_mono b i j :
  0 <= i <= j -> (forall k, 0 <= k < j -> 0 <= at_ b k < DIG_BASE) -> 0 <= high b i <= high b j.
Proof.
  intros Hij Hw.
  assert (Hpos : forall k, 0 <= k <= j -> 0 <= high b k).
  { intros k Hk. apply ws_bound. intros t Ht. apply Hw. lia. }
  split; [apply Hpos; lia |].
  assert (exists n, j = i + Z.of_nat n) as [n ->] by (exists (Z.to_nat (j - i)); lia).
  induction n as [| n IH]; [rewrite Z.add_0_r; lia |].
  rewrite Nat2Z.inj_succ, <- Z.add_1_r, Z.add_assoc, high_succ by lia.
  assert (high b i <= high b (i + Z.of_nat n))
    by (apply IH; first [lia | intros; apply Hw; lia | intros; apply Hpos; lia]).
  specialize (Hw (i + Z.of_nat n) ltac:(lia)). specialize (Hpos (i + Z.of_nat n) ltac:(lia)).
  unfold DIG_BASE in *. lia.
Qed.

Lemma high_absval d : wf d -> high (buf d) (iw d) = absval 0 d.
Proof.
  intros Hd. pose proof (iw_nonneg d Hd). pose proof (fw_nonneg d Hd).
  rewrite <- (absval_ws d 0 (iw d)) by (done || lia).
  unfold high. rewrite Z.add_0_r. apply ws_ext. intros k Hk.
  unfold word, dig. rewrite decide_True by lia. f_equal. lia.
Qed.

(** A word is lost behind the point exactly when the fraction is not zero. *)
Definition has_fraction (d : decimal_t) : bool := bool_decide (dval d mod DIG_BASE ^ fw d <> 0).

Lemma frac_error_spec d :
  wf d -> frac_error d = Some (if has_fraction d then E_DEC_TRUNCATED else E_DEC_OK).
Proof.
  intros Hd. pose proof (iw_nonneg d Hd). pose proof (fw_nonneg d Hd).
  pose proof (wf_fit d Hd). pose proof (wf_len d Hd).
  unfold frac_error. fold (iw d) (fw d).
  assert (Hmod : dval d mod DIG_BASE ^ fw d =
    ws (fun k => at_ (buf d) (iw d + fw d - 1 - k)) (Z.to_nat (fw d))).
  { unfold dval. replace (Z.to_nat (iw d + fw d)) with (Z.to_nat (fw d) + Z.to_nat (iw d))%nat by lia.
    rewrite ws_app, Z2Nat.id by lia. rewrite Z.mul_comm, Z_mod_plus_full. apply Z.mod_small.
    rewrite <- (Z2Nat.id (fw d)) at 3 by lia. apply ws_bound. intros k Hk. apply wf_words; [done | lia]. }
  destruct (all_zero_spec (Z.to_nat (fw d)) (buf d) (iw d))
    as (r & -> & [[-> Hall] | [-> (j & Hj & Hne)]]); [lia | lia | |];
    cbn [mbind option_bind]; unfold has_fraction; rewrite Hmod.
  - rewrite ws_zero by (intros; apply Hall; lia). done.
  - rewrite (bool_decide_true (ws _ _ <> 0)); [done |].
    assert (0 < ws (fun k => at_ (buf d) (iw d + fw d - 1 - k)) (Z.to_nat (fw d))); [| lia].
    apply (ws_pos _ _ (iw d + fw d - 1 - j)); [| lia |].
    + intros k Hk. apply wf_words; [done | lia].
    + by replace (iw d + fw d - 1 - (iw d + fw d - 1 - j)) with j by lia.
Qed.

(** One word more, in 64 bits: the test after the fact finds every overflow. *)
Lemma ull_step x w :
  0 <= x <= ULONGLONG_MAX -> 0 <= w < DIG_BASE ->
  let x' := u64 (u64 (x * DIG_BASE) + u64 w) in
  if bool_decide (x > ULONGLONG_MAX / DIG_BASE) || bool_decide (x' < x)
  then ULONGLONG_MAX < x * DIG_BASE + w
  else x' = x * DIG_BASE + w /\ x * DIG_BASE + w <= ULONGLONG_MAX.
Proof.
  unfold ULONGLONG_MAX, DIG_BASE. intros Hx Hw.
  change ((2 ^ 64 - 1) / 1000000000) with 18446744073.
  destruct (decide (x > 18446744073)); [rewrite bool_decide_true by done; simpl; lia |].
  rewrite bool_decide_false by done. cbn [orb]. unfold uwrap in *.
  rewrite (Z.mod_small (x * _)), (Z.mod_small w) by lia.
  destruct (decide (x * 1000000000 + w < 2 ^ 64)).
  - rewrite Z.mod_small by lia. rewrite bool_decide_false by lia. lia.
  - replace ((x * 1000000000 + w) mod 2 ^ 64) with (x * 1000000000 + w - 2 ^ 64)
      by (apply Z.mod_unique with 1; lia).
    rewrite bool_decide_true by lia. lia.
Qed.

Lemma ll_step x w :
  LONGLONG_MIN <= x <= 0 -> 0 <= w < DIG_BASE ->
  let x' := s64 (s64 (x * DIG_BASE) - w) in
  if bool_decide (x < Z.quot LONGLONG_MIN DIG_BASE) || bool_decide (x' > x)
  then x * DIG_BASE - w < LONGLONG_MIN
  else x' = x * DIG_BASE - w /\ LONGLONG_MIN <= x * DIG_BASE - w.
Proof.
  unfold LONGLONG_MIN, DIG_BASE. intros Hx Hw.
  change (Z.quot (- 2 ^ 63) 1000000000) with (-9223372036).
  destruct (decide (x < -9223372036)); [rewrite bool_decide_true by done; simpl; lia |].
  rewrite bool_decide_false by done. cbn [orb].
  rewrite (swrap_small 64 (x * _)) by lia.
  destruct (decide (- 2 ^ 63 <= x * 1000000000 - w)).
  - rewrite swrap_small by lia. rewrite bool_decide_false by lia. lia.
  - replace (swrap 64 (x * 1000000000 - w)) with (x * 1000000000 - w + 2 ^ 64).
    + rewrite bool_decide_true by lia. lia.
    + unfold swrap. change (64 - 1) with 63.
      replace ((x * 1000000000 - w + 2 ^ 63) mod 2 ^ 64) with (x * 1000000000 - w + 2 ^ 63 + 2 ^ 64)
        by (apply Z.mod_unique with (-1); lia). lia.
Qed.

Lemma decimal2ulonglong_spec d :
  wf d ->
  decimal2ulonglong d = Some
    (if bool_decide (sign d <> 0) then (0, E_DEC_OVERFLOW)
     else if bool_decide (absval 0 d <= ULONGLONG_MAX)
     then (absval 0 d, if has_fraction d then E_DEC_TRUNCATED else E_DEC_OK)
     else (ULONGLONG_MAX, E_DEC_OVERFLOW)).
Proof.
  intros Hd. pose proof (iw_nonneg d Hd). pose proof (fw_nonneg d Hd).
  pose proof (wf_fit d Hd). pose proof (wf_len d Hd).
  unfold decimal2ulonglong. case_bool_decide; [done |]. fold (iw d). rewrite <- high_absval by done.
  assert (Hw : forall k, 0 <= k < iw d -> 0 <= at_ (buf d) k < DIG_BASE)
    by (intros; apply wf_words; [done | lia]).
  match goal with |- context [for_ret ?n 0 ?b 0] =>
    destruct (for_ret_rule (fun j x => x = high (buf d) j /\ x <= ULONGLONG_MAX)
      (fun r => r = (ULONGLONG_MAX, E_DEC_OVERFLOW) /\ ULONGLONG_MAX < high (buf d) (iw d)) n 0 b 0)
      as [(x & -> & -> & Hx) | (r & -> & -> & Hx)] end; [done | | |].
  - intros j x Hj [-> Hx]. rewrite load_at by lia. cbn [mbind option_bind].
    pose proof (high_mono (buf d) 0 j ltac:(lia) ltac:(intros; apply Hw; lia)) as [_ Hp].
    assert (0 <= high (buf d) j) by (apply high_mono with j; [lia | intros; apply Hw; lia]).
    pose proof (ull_step (high (buf d) j) (at_ (buf d) j) ltac:(lia) ltac:(apply Hw; lia)) as Hs.
    cbn zeta in Hs. rewrite <- high_succ in Hs by lia. case_match.
    + right. eexists; split; [done |]. split; [done |].
      pose proof (high_mono (buf d) (j + 1) (iw d) ltac:(lia) Hw). lia.
    + left. eexists; split; [done |]. destruct Hs as [-> ?]. done.
  - cbn [mbind option_bind]. rewrite Z.add_0_l, Z2Nat.id in * by lia.
    rewrite frac_error_spec by done. rewrite bool_decide_true by done. done.
  - cbn [mbind option_bind]. rewrite bool_decide_false by lia. done.
Qed.

Lemma decimal2longlong_spec d :
  wf d ->
  decimal2longlong d = Some
    (let e := if has_fraction d then E_DEC_TRUNCATED else E_DEC_OK in
     if bool_decide (sign d = 0)
     then if bool_decide (absval 0 d <= LONGLONG_MAX) then (absval 0 d, e)
          else (LONGLONG_MAX, E_DEC_OVERFLOW)
     else if bool_decide (LONGLONG_MIN <= - absval 0 d) then (- absval 0 d, e)
          else (LONGLONG_MIN, E_DEC_OVERFLOW)).
Proof.
  intros Hd. pose proof (iw_nonneg d Hd). pose proof (fw_nonneg d Hd).
  pose proof (wf_fit d Hd). pose proof (wf_len d Hd).
  unfold decimal2longlong. fold (iw d). rewrite <- high_absval by done.
  assert (Hw : forall k, 0 <= k < iw d -> 0 <= at_ (buf d) k < DIG_BASE)
    by (intros; apply wf_words; [done | lia]).
  match goal with |- context [for_ret ?n 0 ?b 0] =>
    destruct (for_ret_rule (fun j x => x = - high (buf d) j /\ LONGLONG_MIN <= x)
      (fun r => r = (if bool_decide (sign d <> 0) then LONGLONG_MIN else LONGLONG_MAX, E_DEC_OVERFLOW)
         /\ - high (buf d) (iw d) < LONGLONG_MIN) n 0 b 0)
      as [(x & -> & -> & Hx) | (r & -> & -> & Hx)] end; [done | | |].
  - intros j x Hj [-> Hx]. rewrite load_at by lia. cbn [mbind option_bind].
    assert (0 <= high (buf d) j) by (apply high_mono with j; [lia | intros; apply Hw; lia]).
    pose proof (ll_step (- high (buf d) j) (at_ (buf d) j) ltac:(lia) ltac:(apply Hw; lia)) as Hs.
    cbn zeta in Hs. replace (- high (buf d) j * DIG_BASE - at_ (buf d) j)
      with (- high (buf d) (j + 1)) in Hs by (rewrite high_succ by lia; lia). case_match.
    + right. eexists; split; [done |]. split; [done |].
      pose proof (high_mono (buf d) (j + 1) (iw d) ltac:(lia) Hw). lia.
    + left. eexists; split; [done |]. destruct Hs as [-> ?]. done.
  - cbn [mbind option_bind]. rewrite Z.add_0_l, Z2Nat.id in * by lia.
    rewrite frac_error_spec by done. cbn [mbind option_bind].
    assert (0 <= high (buf d) (iw d)) by (apply high_mono with (iw d); [lia | done]).
    unfold LONGLONG_MIN, LONGLONG_MAX in *. destruct (decide (sign d = 0)).
    + rewrite (bool_decide_true (sign d = 0)), (bool_decide_false (sign d <> 0)) by lia. cbn [andb].
      case_bool_decide; [rewrite bool_decide_false by lia; done |].
      rewrite bool_decide_true by lia. by rewrite Z.opp_involutive, swrap_small by lia.
    + rewrite (bool_decide_false (sign d = 0)), (bool_decide_true (sign d <> 0)) by lia. cbn [andb].
      by rewrite bool_decide_true by lia.
  - cbn [mbind option_bind]. unfold LONGLONG_MIN, LONGLONG_MAX in *. destruct (decide (sign d = 0)).
    + rewrite (bool_decide_true (sign d = 0)), (bool_decide_false (sign d <> 0)) by lia.
      by rewrite bool_decide_false by lia.
    + rewrite (bool_decide_false (sign d = 0)), (bool_decide_true (sign d <> 0)) by lia.
      by rewrite bool_decide_false by lia.
Qed.

(** [decimal2longlong] and [decimal2ulonglong] return the integer part when it fits
    into 64 bits (-2^63 included), with [E_DEC_TRUNCATED] exactly when a fraction is
    lost; otherwise they saturate at the nearest bound with [E_DEC_OVERFLOW].  The
    test after the multiplication finds every overflow. *)
Theorem decimal2int_value d :
  wf d ->
  let e := if has_fraction d then E_DEC_TRUNCATED else E_DEC_OK in
  decimal2longlong d = Some
    (if bool_decide (sign d = 0)
     then if bool_decide (absval 0 d <= LONGLONG_MAX) then (absval 0 d, e)
          else (LONGLONG_MAX, E_DEC_OVERFLOW)
     else if bool_decide (LONGLONG_MIN <= - absval 0 d) then (- absval 0 d, e)
          else (LONGLONG_MIN, E_DEC_OVERFLOW)) /\
  decimal2ulonglong d = Some
    (if bool_decide (sign d <> 0) then (0, E_DEC_OVERFLOW)
     else if bool_decide (absval 0 d <= ULONGLONG_MAX) then (absval 0 d, e)
     else (ULONGLONG_MAX, E_DEC_OVERFLOW)).
Proof. intros Hd e. split; [by apply decimal2longlong_spec | by apply decimal2ulonglong_spec]. Qed.

(** ** Integers to decimals *)

Lemma count_words_spec x :
  0 <= x < 2 ^ 64 -> exists n, count_words 2 1 x = Some n /\ 1 <= n <= 3 /\ x < DIG_BASE ^ n.
Proof.
  intros Hx. unfold count_words, DIG_BASE.
  repeat case_bool_decide; [Zlia | exists 3 | exists 2 | exists 1]; (split; [done |]);
    (split; [lia |]).
  - change (1000000000 ^ 3) with 1000000000000000000000000000. lia.
  - change (1000000000 ^ 2) with 1000000000000000000. Zlia.
  - change (1000000000 ^ 1) with 1000000000. lia.
Qed.

(** The loop that cuts words off a number is a phase that carries the rest. *)
Lemma store_words_spec n x m :
  0 <= x < 2 ^ 64 -> 0 <= n <= Z.of_nat (length m) ->
  exists m', store_words n x m = Some (m', x / DIG_BASE ^ n) /\
    phase (fun _ => 0) (Z.to_nat n) n m x m' (x / DIG_BASE ^ n).
Proof.
  intros Hx Hn. unfold store_words.
  match goal with |- context [for_up ?N 0 ?f ?s0] =>
    destruct (for_up_rule (fun k '(m', y) => y = x / DIG_BASE ^ k /\ 0 <= y < 2 ^ 64 /\
      phase (fun _ => 0) (Z.to_nat k) n m x m' y) N 0 f s0)
      as ([m' y] & -> & -> & _ & Hph) end.
  - rewrite Z.pow_0_r, Z.div_1_r. split_and!; [done | lia | lia | apply phase_0].
  - intros k [mk y] Hk (-> & Hy & Hph). set (y := x / DIG_BASE ^ k) in *. cbn zeta.
    assert (length mk = length m) by apply Hph. rewrite store_in by lia. cbn [mbind option_bind].
    eexists; split; [done |].
    assert (Hw : s32 (u64 (y - u64 (y / DIG_BASE * DIG_BASE))) = y mod DIG_BASE).
    { pose proof (Z.mod_pos_bound y DIG_BASE ltac:(unfold DIG_BASE; lia)).
      pose proof (Z.div_mod y DIG_BASE ltac:(unfold DIG_BASE; lia)).
      rewrite (uwrap_small 64 (y / _ * _)) by (unfold DIG_BASE in *; lia).
      rewrite uwrap_small by (unfold DIG_BASE in *; lia).
      rewrite swrap_small by (unfold DIG_BASE in *; lia). lia. }
    rewrite Hw. split_and!.
    + unfold y. rewrite Z.pow_add_r, Z.pow_1_r by lia. apply Z.div_div; [| done].
      apply Z.pow_nonzero; [done | lia].
    + apply Z.div_pos; unfold DIG_BASE; lia.
    + unfold DIG_BASE. Zlia.
    + replace (Z.to_nat (k + 1)) with (S (Z.to_nat k)) by lia.
      replace (n - 1 - k) with (n - 1 - Z.of_nat (Z.to_nat k)) by lia.
      eapply phase_snoc; [exact Hph | lia | lia | apply Z.mod_pos_bound; unfold DIG_BASE; lia |].
      pose proof (Z.div_mod y DIG_BASE ltac:(unfold DIG_BASE; lia)). lia.
  - exists m'. rewrite Z.add_0_l, Z2Nat.id in * by lia. done.
Qed.

Lemma ull2dec_spec x to :
  0 <= x < 2 ^ 64 -> len to = Z.of_nat (length (buf to)) -> 3 <= len to -> 0 <= sign to <= 1 ->
  exists to', ull2dec x to = Some (E_DEC_OK, to') /\ wf to' /\ sign to' = sign to /\
    frac to' = 0 /\ absval 0 to' = x.
Proof.
  intros Hx Hlen Hroom Hs. unfold ull2dec.
  destruct (count_words_spec x Hx) as (n & -> & Hn & Hxn). cbn [mbind option_bind].
  rewrite bool_decide_false by lia.
  destruct (store_words_spec n x (buf to)) as (m' & -> & Hph); [done | lia |]. cbn [mbind option_bind].
  eexists; split; [done |]. rewrite Z.div_small in Hph by lia.
  assert (Hph' : phase (fun _ => 0) (Z.to_nat (n + 0)) (n + 0) (buf to) x m' 0) by (by rewrite Z.add_0_r).
  assert (Hwf : wf (mk_decimal (n * DIG_PER_DEC1) 0 (len to) (sign to) m')).
  { eapply wf_phase; unfold DIG_PER_DEC1; rewrite ?ROUND_UP_mul by lia; change (ROUND_UP 0) with 0;
      [exact Hph' | lia..]. }
  split_and!; try done.
  rewrite (absval_buf _ 0 n m' Hwf) by (try done; unfold iw; simpl; apply ROUND_UP_mul; lia).
  destruct Hph' as (_ & _ & _ & Hv). rewrite (ws_zero (fun _ => 0)) in Hv by done. lia.
Qed.

Lemma no_fraction d : frac d = 0 -> has_fraction d = false.
Proof.
  intros Hf. unfold has_fraction, fw. rewrite Hf. change (ROUND_UP 0) with 0.
  rewrite Z.pow_0_r, Z.mod_1_r. done.
Qed.

(** Round trip of 64-bit integers through decimals: with three words in [to] the
    conversion of any [longlong] or [ulonglong] succeeds with that value, and
    converting back gives the same integer and [E_DEC_OK]; -2^63 and 2^64-1
    included. *)
Theorem longlong_decimal_roundtrip v u to :
  - 2 ^ 63 <= v < 2 ^ 63 -> 0 <= u < 2 ^ 64 ->
  len to = Z.of_nat (length (buf to)) -> 3 <= len to ->
  (exists to', longlong2decimal v to = Some (E_DEC_OK, to') /\ wf to' /\ sval 0 to' = v /\
     decimal2longlong to' = Some (v, E_DEC_OK)) /\
  (exists to', ulonglong2decimal u to = Some (E_DEC_OK, to') /\ wf to' /\ sval 0 to' = u /\
     decimal2ulonglong to' = Some (u, E_DEC_OK)).
Proof.
  intros Hv Hu Hlen Hroom. split.
  - unfold longlong2decimal. case_bool_decide.
    + assert (Hneg : u64 (s64 (- v)) = - v).
      { destruct (decide (v = - 2 ^ 63)) as [-> |]; [reflexivity |].
        rewrite swrap_small by lia. rewrite uwrap_small by lia. done. }
      rewrite Hneg. destruct (ull2dec_spec (- v) (with_sign to 1))
        as (to' & -> & Hwf & Hs & Hf & Ha); [lia | done | done | simpl; lia |].
      simpl in Hs. exists to'. unfold sval. rewrite decimal2longlong_spec by done.
      rewrite no_fraction by done. rewrite Hs, Ha, Z.opp_involutive.
      split_and!; try done. rewrite (bool_decide_false (1 = 0)), (bool_decide_true (LONGLONG_MIN <= v))
        by (unfold LONGLONG_MIN; lia). done.
    + rewrite uwrap_small by lia. destruct (ull2dec_spec v (with_sign to 0))
        as (to' & -> & Hwf & Hs & Hf & Ha); [lia | done | done | simpl; lia |].
      simpl in Hs. exists to'. unfold sval. rewrite decimal2longlong_spec by done.
      rewrite no_fraction by done. rewrite Hs, Ha. split_and!; try done.
      rewrite (bool_decide_true (0 = 0)), (bool_decide_true (v <= LONGLONG_MAX))
        by (unfold LONGLONG_MAX; lia). done.
  - unfold ulonglong2decimal. destruct (ull2dec_spec u (with_sign to 0))
      as (to' & -> & Hwf & Hs & Hf & Ha); [lia | done | done | simpl; lia |].
    simpl in Hs. exists to'. unfold sval. rewrite decimal2ulonglong_spec by done.
    rewrite no_fraction by done. rewrite Hs, Ha. split_and!; try done.
    rewrite (bool_decide_false (0 <> 0)), (bool_decide_true (u <= ULONGLONG_MAX))
      by (unfold ULONGLONG_MAX; lia). done.
Qed.

(** ** Witnesses *)

Definition w_huge : decimal_t := mk_decimal 21 1 4 1 [123; 456789012; 345678901; 500000000].
Definition w_room : decimal_t := mk_decimal 0 0 3 0 [5; 5; 5].

Lemma decimal2int_value_witness :
  decimal2longlong w_huge = Some (LONGLONG_MIN, E_DEC_OVERFLOW) /\
  decimal2ulonglong w_huge = Some (0, E_DEC_OVERFLOW).
Proof. apply (decimal2int_value w_huge). apply decimal_wfb_wf. reflexivity. Defined.

Lemma longlong_decimal_roundtrip_witness :
  exists to', longlong2decimal (- 2 ^ 63) w_room = Some (E_DEC_OK, to') /\ wf to' /\
    sval 0 to' = - 2 ^ 63 /\ decimal2longlong to' = Some (- 2 ^ 63, E_DEC_OK).
Proof.
  apply (fun h1 h2 h3 h4 => proj1
    (longlong_decimal_roundtrip (- 2 ^ 63) (2 ^ 64 - 1) w_room h1 h2 h3 h4)); try lia.
  all: vm_compute; congruence.
Defined.

End DecimalConv.
