(* ===== verification/DecimalMul.v ===== *)
(** * DecimalMul: [decimal_mul] of [strings/decimal.c]

    The schoolbook product of two decimals, row by row into the zeroed buffer of
    [to], the removal of a negative zero and of the leading zero words. *)
From stdpp Require Import base tactics option list numbers.
From Stdlib Require Import ZArith Lia Znumtheory.
From S2P Require Import Prelude Decimal DecimalProps.

Module DecimalMul.
Import Decimal DecimalProps.

(** ** Model *)

Definition ADD2 (from1 from2 carry : Z) : Z * Z :=
  let a := s64 (s64 (from1 + from2) + carry) in
  let '(a, carry) := if bool_decide (a >= DIG_BASE) then (a - DIG_BASE, 1) else (a, 0) in
  let '(a, carry) := if bool_decide (a >= DIG_BASE) then (a - DIG_BASE, carry + 1) else (a, carry) in
  (s32 a, carry).

(** [for (buf0=start0, buf2=start2; buf2 >= stop2; buf2--, buf0--) {...}], [n] passes
    for the word [x] of [from1]: the buffer of [to] and the carry. *)
Definition mul_inner (x : Z) (b2 : list Z) (start2 start0 : Z) (n : nat) (m : list Z)
  : option (list Z * Z) :=
  for_up n 0
    (fun k '(m, carry) =>
       y ← load b2 (start2 - k);
       let p := s64 (x * y) in
       let hi := s32 (Z.quot p DIG_BASE) in
       let lo := s32 (s64 (p - s64 (hi * DIG_BASE))) in
       w ← load m (start0 - k);
       let '(r, carry) := ADD2 w lo carry in
       m ← store m (start0 - k) r;
       Some (m, s32 (carry + hi))) (m, 0).

(** [for (buf0--; carry; buf0--) {...}] with [n] words left in front of [buf0+1];
    [Ret] is the return of [E_DEC_OVERFLOW]. *)
Fixpoint propagate (n : nat) (m : list Z) (buf0 carry : Z) : option (ctl (list Z) (list Z)) :=
  if bool_decide (carry <> 0)
  then
    match n with
    | O => Some (Ret m)
    | S n =>
        w ← load m buf0;
        let '(r, carry) := ADD w 0 carry in
        m ← store m buf0 r;
        propagate n m (buf0 - 1) carry
    end
  else Some (Next m).

(** One pass of the outer loop. *)
Definition mul_row (x : Z) (b2 : list Z) (start2 start0 n2 : Z) (m : list Z)
  : option (ctl (list Z) (list Z)) :=
  '(m, carry) ← mul_inner x b2 start2 start0 (Z.to_nat n2) m;
  let buf0 := start0 - Z.max 0 n2 in
  if bool_decide (carry <> 0)
  then
    if bool_decide (buf0 < 0) then Some (Ret m)
    else
      w ← load m buf0;
      let '(r, carry) := ADD2 w 0 carry in
      m ← store m buf0 r;
      propagate (Z.to_nat buf0) m (buf0 - 1) carry
  else Some (Next m).

(** [while (!*buf1 && (to->intg > DIG_PER_DEC1)) {...}]: [buf1] and [to->intg]. *)
Fixpoint drop_zero_words (n : nat) (m : list Z) (buf1 to_intg : Z) : option (Z * Z) :=
  match n with
  | O => None
  | S n =>
      w ← load m buf1;
      if bool_decide (w = 0) && bool_decide (to_intg > DIG_PER_DEC1)
      then drop_zero_words n m (buf1 + 1) (to_intg - DIG_PER_DEC1)
      else Some (buf1, to_intg)
  end.

(** [for (; d_to_move--; cur_d++, buf1++) *cur_d= *buf1;] *)
Definition move_words (d_to_move buf1 : Z) (m : list Z) : option (list Z) :=
  for_up (Z.to_nat d_to_move) 0 (fun k m => w ← load m (buf1 + k); store m k w) m.

(** The word counts of the operands when the product is cut down. *)
Definition mul_cut (error i j intg0 frac0 intg1 intg2 frac1 frac2 : Z) : Z * Z * Z * Z :=
  if bool_decide (error <> 0)
  then
    if bool_decide (i > intg0)
    then
      let i := i - intg0 in
      let j := i ≫ 1 in
      (intg1 - j, intg2 - (i - j), 0, 0)
    else
      let j := j - frac0 in
      let i := j ≫ 1 in
      if bool_decide (frac1 <= frac2) then (intg1, intg2, frac1 - i, frac2 - (j - i))
      else (intg1, intg2, frac1 - (j - i), frac2 - i)
  else (intg1, intg2, frac1, frac2).

(** The removal of the leading zero words. *)
Definition mul_strip (error intg0 : Z) (to : decimal_t) : option (Z * decimal_t) :=
  let d_to_move := intg0 + ROUND_UP (frac to) in
  '(buf1, to_intg) ← drop_zero_words (S (Z.to_nat (intg to))) (buf to) 0 (intg to);
  m ← (if bool_decide (0 < buf1) then move_words (d_to_move - buf1) buf1 (buf to) else Some (buf to));
  Some (error, mk_decimal to_intg (frac to) (len to) (sign to) m).

(** Behind the rows: the test for -0.000, then the removal. *)
Definition mul_finish (error intg0 frac0 : Z) (to : decimal_t) : option (Z * decimal_t) :=
  to ←
    (if bool_decide (sign to <> 0)
     then
       if bool_decide (intg0 + frac0 <= 0) then None
       else
         z ← all_zero (Z.to_nat (intg0 + frac0)) (buf to) 0;
         if bool_decide (z = 1) then decimal_make_zero to else Some to
     else Some to);
  mul_strip error intg0 to.

Definition decimal_mul (from1 from2 to : decimal_t) : option (Z * decimal_t) :=
  let intg1 := ROUND_UP (intg from1) in
  let intg2 := ROUND_UP (intg from2) in
  let frac1 := ROUND_UP (frac from1) in
  let frac2 := ROUND_UP (frac from2) in
  let intg0 := ROUND_UP (intg from1 + intg from2) in
  let frac0 := frac1 + frac2 in
  let buf1 := intg1 in
  let buf2 := intg2 in
  let i := intg0 in
  let j := frac0 in
  let '(intg0, frac0, error) := FIX_INTG_FRAC_ERROR (len to) intg0 frac0 in
  let to_sign := if bool_decide (sign from1 <> sign from2) then 1 else 0 in
  let to_frac := frac from1 + frac from2 in
  let to_intg := intg0 * DIG_PER_DEC1 in
  let '(to_frac, to_intg) :=
    if bool_decide (error <> 0)
    then (Z.min to_frac (frac0 * DIG_PER_DEC1), Z.min to_intg (intg0 * DIG_PER_DEC1))
    else (to_frac, to_intg) in
  let '(intg1, intg2, frac1, frac2) := mul_cut error i j intg0 frac0 intg1 intg2 frac1 frac2 in
  let start0 := intg0 + frac0 - 1 in
  let start2 := buf2 + frac2 - 1 in
  let stop1 := buf1 - intg1 in
  let stop2 := buf2 - intg2 in
  m ← for_up (Z.to_nat (intg0 + frac0)) 0 (fun k m => store m k 0) (buf to);
  let buf1 := buf1 + (frac1 - 1) in
  r ← for_ret (Z.to_nat (buf1 - stop1 + 1)) 0
    (fun k m =>
       x ← load (buf from1) (buf1 - k);
       mul_row x (buf from2) start2 (start0 - k) (start2 - stop2 + 1) m) m;
  match r with
  | Ret m => Some (E_DEC_OVERFLOW, mk_decimal to_intg to_frac (len to) to_sign m)
  | Next m => mul_finish error intg0 frac0 (mk_decimal to_intg to_frac (len to) to_sign m)
  end.

(** ** One row *)

Lemma ADD2_step w v c :
  0 <= w < DIG_BASE -> 0 <= v < DIG_BASE -> 0 <= c < DIG_BASE ->
  exists r c', ADD2 w v c = (r, c') /\ 0 <= r < DIG_BASE /\ 0 <= c' <= 2 /\
    r + c' * DIG_BASE = w + v + c.
Proof.
  intros Hw Hv Hc. unfold ADD2, DIG_BASE in *. rewrite (swrap_small 64 (w + v)) by lia.
  rewrite (swrap_small 64 (w + v + c)) by lia.
  assert (Hs : forall a, 0 <= a < 1000000000 -> s32 a = a) by (intros; apply swrap_small; lia).
  repeat case_bool_decide; try (exfalso; lia); rewrite Hs by lia; eexists _, _;
    (split; [reflexivity |]); lia.
Qed.

(** A word product splits into [hi] and [lo]. *)
Lemma split_product x y :
  0 <= x < DIG_BASE -> 0 <= y < DIG_BASE ->
  let p := s64 (x * y) in let hi := s32 (Z.quot p DIG_BASE) in
  let lo := s32 (s64 (p - s64 (hi * DIG_BASE))) in
  0 <= hi < DIG_BASE - 1 /\ 0 <= lo < DIG_BASE /\ lo + hi * DIG_BASE = x * y.
Proof.
  intros Hx Hy. cbn zeta.
  assert (Hp : 0 <= x * y <= (DIG_BASE - 1) * (DIG_BASE - 1)) by nia.
  rewrite (swrap_small 64 (x * y)) by (unfold DIG_BASE in *; lia).
  rewrite Z.quot_div_nonneg by (unfold DIG_BASE in *; lia).
  generalize dependent (x * y). intros p Hp.
  assert (Hq : 0 <= p / DIG_BASE < DIG_BASE - 1).
  { split; [apply Z.div_pos; unfold DIG_BASE in *; lia |].
    apply Z.div_lt_upper_bound; unfold DIG_BASE in *; lia. }
  pose proof (Z.mod_pos_bound p DIG_BASE ltac:(unfold DIG_BASE; lia)).
  pose proof (Z.div_mod p DIG_BASE ltac:(unfold DIG_BASE; lia)).
  unfold DIG_BASE in *. rewrite (swrap_small 32 (p / _)) by lia.
  rewrite (swrap_small 64 (_ * _)) by lia. rewrite (swrap_small 64) by lia.
  rewrite (swrap_small 32) by lia. lia.
Qed.

Definition digits_upto (n : Z) (m : list Z) : Prop := forall j, 0 <= j < n -> 0 <= at_ m j < DIG_BASE.

Lemma mul_inner_phase x b2 start2 p n m yv :
  0 <= x < DIG_BASE -> 0 <= p + 1 - Z.of_nat n -> p < Z.of_nat (length m) -> digits_upto (p + 1) m ->
  (forall k, 0 <= k < Z.of_nat n -> load b2 (start2 - k) = Some (yv k) /\ 0 <= yv k < DIG_BASE) ->
  exists m' c, mul_inner x b2 start2 p n m = Some (m', c) /\ 0 <= c < DIG_BASE /\
    phase (fun k => at_ m (p - k) + x * yv k) n (p + 1) m 0 m' c.
Proof.
  intros Hx Hlo Hhi Hd Hy. unfold mul_inner.
  match goal with |- context [for_up ?N 0 ?f ?s0] =>
    destruct (for_up_rule (fun k '(m', c) => 0 <= c < DIG_BASE /\
      phase (fun k => at_ m (p - k) + x * yv k) (Z.to_nat k) (p + 1) m 0 m' c) N 0 f s0)
      as ([m' c] & -> & Hc & Hph) end.
  - split; [unfold DIG_BASE; lia | apply phase_0].
  - intros k [mk c] Hk [Hc Hph]. destruct (Hy k) as [-> Hyk]; [lia |].
    pose proof Hph as (Hl & Hout & _). cbn [mbind option_bind].
    rewrite (load_at mk) by lia. cbn [mbind option_bind]. rewrite (Hout (p - k)) by lia.
    destruct (split_product x (yv k) Hx Hyk) as (Hhi' & Hlo' & Hxy).
    set (hi := s32 (Z.quot (s64 (x * yv k)) DIG_BASE)) in *.
    set (lo := s32 (s64 (s64 (x * yv k) - s64 (hi * DIG_BASE)))) in *.
    destruct (ADD2_step (at_ m (p - k)) lo c) as (r & c' & -> & Hr & Hc' & Hstep);
      [apply Hd; lia | done | done |].
    rewrite store_in by lia. cbn [mbind option_bind]. eexists; split; [done |].
    assert (Hcc : c' + hi < DIG_BASE).
    { pose proof (Hd (p - k) ltac:(lia)). assert (x * yv k <= (DIG_BASE - 1) * (DIG_BASE - 1)) by nia.
      unfold DIG_BASE in *. lia. }
    rewrite swrap_small by (unfold DIG_BASE in *; lia). split; [lia |].
    replace (Z.to_nat (k + 1)) with (S (Z.to_nat k)) by lia.
    replace (p - k) with (p + 1 - 1 - Z.of_nat (Z.to_nat k)) by lia.
    eapply phase_snoc; [exact Hph | lia | lia | done |]. rewrite Z2Nat.id by lia. lia.
  - exists m', c. rewrite Z.add_0_l, Nat2Z.id in Hph. done.
Qed.

(** Cells that stay as they are. *)
Lemma phase_same n p m :
  Z.of_nat n <= p -> digits_upto p m -> phase (fun k => at_ m (p - 1 - k)) n p m 0 m 0.
Proof.
  intros Hn Hd. unfold phase. split_and!; [done | done | | lia]. intros k Hk. apply Hd. lia.
Qed.

Lemma phase_one xs p m c r c' :
  0 <= p -> p < Z.of_nat (length m) -> 0 <= r < DIG_BASE -> r + c' * DIG_BASE = xs 0 + c ->
  phase xs 1 (p + 1) m c (<[Z.to_nat p := r]> m) c'.
Proof.
  intros. replace p with (p + 1 - 1 - Z.of_nat 0) at 2 by lia.
  apply (phase_snoc xs 0 (p + 1) m c m c); [apply phase_0 | lia | lia | done | done].
Qed.

(** The carry runs up to the first cell, or the sum is too large. *)
Lemma propagate_phase n m p c :
  p = Z.of_nat n - 1 -> p < Z.of_nat (length m) -> digits_upto (p + 1) m -> 0 <= c <= 1 ->
  exists m' c', phase (fun k => at_ m (p - k)) n (p + 1) m c m' c' /\
    (c' = 0 /\ propagate n m p c = Some (Next m') \/
     0 < c' /\ exists m'', propagate n m p c = Some (Ret m'')).
Proof.
  revert m p c; induction n as [| n IH]; intros m p c Hp Hl Hd Hc; cbn [propagate].
  - exists m, c. split; [apply phase_0 |]. case_bool_decide; [right | left; by split; [lia |]].
    split; [lia |]. by exists m.
  - case_bool_decide as Hz.
    2: { exists m, 0. assert (c = 0) as -> by lia. split; [| by left].
         eapply phase_ext; [| apply phase_same; [lia | done]]. intros k Hk. cbn beta. f_equal. lia. }
    rewrite load_at by lia. cbn [mbind option_bind].
    destruct (ADD_step (at_ m p) 0 c) as (r & c1 & -> & Hr & Hc1 & Hstep);
      [apply Hd; lia | unfold DIG_BASE; lia | done |].
    rewrite store_in by lia. cbn [mbind option_bind].
    destruct (IH (<[Z.to_nat p:=r]> m) (p - 1) c1) as (m' & c' & Hph & Hres);
      [lia | rewrite length_insert; lia | | done |].
    { intros j Hj. rewrite at_insert, decide_False by lia. apply Hd. lia. }
    exists m', c'. split; [| done].
    apply (phase_seq _ 1 n (p + 1) m c (<[Z.to_nat p:=r]> m) c1).
    + apply phase_one; [lia | lia | done |]. rewrite Z.sub_0_r. lia.
    + replace (p + 1 - Z.of_nat 1) with (p - 1 + 1) by lia. eapply phase_ext; [| exact Hph].
      intros k Hk. cbn beta. rewrite at_insert, decide_False by lia. f_equal. lia.
Qed.

(** A row adds [x] times the second operand, or the sum has more than [p+1] words. *)
Lemma mul_row_phase x b2 start2 p n2 m yv :
  0 <= x < DIG_BASE -> 0 <= n2 <= p + 1 -> p < Z.of_nat (length m) -> digits_upto (p + 1) m ->
  (forall k, 0 <= k < n2 -> load b2 (start2 - k) = Some (yv k) /\ 0 <= yv k < DIG_BASE) ->
  (forall k, n2 <= k -> yv k = 0) ->
  exists m' c, phase (fun k => at_ m (p - k) + x * yv k) (Z.to_nat (p + 1)) (p + 1) m 0 m' c /\
    (c = 0 /\ mul_row x b2 start2 p n2 m = Some (Next m') \/
     0 < c /\ exists m'', mul_row x b2 start2 p n2 m = Some (Ret m'')).
Proof.
  intros Hx Hn Hl Hd Hy Hy0. unfold mul_row.
  destruct (mul_inner_phase x b2 start2 p (Z.to_nat n2) m yv) as (m1 & c1 & -> & Hc1 & Hph1);
    [done | lia | done | done | intros; apply Hy; lia |].
  cbn [mbind option_bind]. pose proof Hph1 as (Hl1 & Hout1 & _). rewrite Z.max_r by lia.
  assert (Hd1 : digits_upto (p - n2 + 1) m1).
  { intros j Hj. rewrite Hout1 by lia. apply Hd. lia. }
  assert (Hrest : forall m2 c2,
    phase (fun k => at_ m1 (p - n2 - k)) (Z.to_nat (p - n2 + 1)) (p - n2 + 1) m1 c1 m2 c2 ->
    phase (fun k => at_ m (p - k) + x * yv k) (Z.to_nat (p + 1)) (p + 1) m 0 m2 c2).
  { intros m2 c2 Hph2.
    replace (Z.to_nat (p + 1)) with (Z.to_nat n2 + Z.to_nat (p - n2 + 1))%nat by lia.
    eapply phase_seq; [exact Hph1 |]. rewrite Z2Nat.id by lia.
    replace (p + 1 - n2) with (p - n2 + 1) by lia.
    eapply phase_ext; [| exact Hph2]. intros k Hk. cbn beta.
    rewrite Hy0 by lia. rewrite Hout1 by lia. rewrite Z.mul_0_r, Z.add_0_r. f_equal. lia. }
  case_bool_decide as Hz.
  2: { exists m1, 0. assert (c1 = 0) as -> by lia. split; [| by left]. apply Hrest.
       eapply phase_ext; [| apply phase_same; [lia | done]]. intros k Hk. cbn beta. f_equal. lia. }
  destruct (decide (p - n2 < 0)).
  { rewrite bool_decide_true by done. exists m1, c1. split; [| right; split; [lia | by exists m1]].
    apply Hrest. replace (Z.to_nat (p - n2 + 1)) with 0%nat by lia. apply phase_0. }
  rewrite bool_decide_false by done. rewrite load_at by lia. cbn [mbind option_bind].
  destruct (ADD2_step (at_ m1 (p - n2)) 0 c1) as (r & c2 & -> & Hr & Hc2 & Hstep);
    [apply Hd1; lia | unfold DIG_BASE; lia | done |].
  assert (c2 <= 1) by (pose proof (Hd1 (p - n2) ltac:(lia)); unfold DIG_BASE in *; lia).
  rewrite store_in by lia. cbn [mbind option_bind].
  destruct (propagate_phase (Z.to_nat (p - n2)) (<[Z.to_nat (p - n2):=r]> m1) (p - n2 - 1) c2)
    as (m3 & c3 & Hph3 & Hres); [lia | rewrite length_insert; lia | | lia |].
  { intros j Hj. rewrite at_insert, decide_False by lia. apply Hd1. lia. }
  exists m3, c3. split; [| done]. apply Hrest.
  replace (Z.to_nat (p - n2 + 1)) with (1 + Z.to_nat (p - n2))%nat by lia.
  apply (phase_seq _ 1 _ (p - n2 + 1) m1 c1 (<[Z.to_nat (p - n2):=r]> m1) c2).
  - apply phase_one; [lia | lia | done |]. rewrite Z.sub_0_r. lia.
  - replace (p - n2 + 1 - Z.of_nat 1) with (p - n2 - 1 + 1) by lia. eapply phase_ext; [| exact Hph3].
    intros k Hk. cbn beta. rewrite at_insert, decide_False by lia. f_equal. lia.
Qed.

(** ** All rows *)

Lemma ws_scale x f n : ws (fun k => x * f k) n = x * ws f n.
Proof. induction n as [| n IH]; cbn [ws]; [lia |]. rewrite IH. lia. Qed.

Lemma ws_prefix_le f k n :
  (k <= n)%nat -> (forall j, 0 <= j < Z.of_nat n -> 0 <= f j < DIG_BASE) -> ws f k <= ws f n.
Proof.
  intros Hk Hf. replace n with (k + (n - k))%nat by lia. rewrite ws_app.
  pose proof (ws_bound (fun j => f (j + Z.of_nat k)) (n - k) ltac:(intros; apply Hf; lia)).
  pose proof (base_pos k). nia.
Qed.

(** The number in the first [N] cells. *)
Definition mval (N : Z) (m : list Z) : Z := ws (fun j => at_ m (N - 1 - j)) (Z.to_nat N).

(** A phase on the first [N - k] cells changes the number by what it adds. *)
Lemma phase_mval N k m m' c xs :
  0 <= k <= N -> phase (fun j => at_ m (N - 1 - k - j) + xs j) (Z.to_nat (N - k)) (N - k) m 0 m' c ->
  mval N m' + c * DIG_BASE ^ N = mval N m + DIG_BASE ^ k * ws xs (Z.to_nat (N - k)).
Proof.
  intros Hk (Hl & Hout & _ & Hv). rewrite ws_add in Hv. unfold mval.
  replace (Z.to_nat N) with (Z.to_nat k + Z.to_nat (N - k))%nat by lia. rewrite !ws_app.
  rewrite (ws_ext (fun j => at_ m' (N - 1 - j)) (fun j => at_ m (N - 1 - j)))
    by (intros; apply Hout; lia).
  rewrite (ws_ext (fun j => at_ m' (N - 1 - (j + _))) (fun j => at_ m' (N - k - 1 - j)))
    by (intros; f_equal; lia).
  rewrite (ws_ext (fun j => at_ m (N - 1 - (j + _))) (fun j => at_ m (N - 1 - k - j)))
    by (intros; f_equal; lia).
  replace (DIG_BASE ^ N) with (DIG_BASE ^ k * DIG_BASE ^ (N - k))
    by (rewrite <- Z.pow_add_r by lia; f_equal; lia).
  rewrite Z2Nat.id in Hv |- * by lia. nia.
Qed.

Lemma rows_spec b1 b2 p1 start2 n1 n2 N m xw yw :
  0 <= n1 -> 0 <= n2 -> n1 + n2 <= N + 1 -> N <= Z.of_nat (length m) ->
  (forall k, 0 <= k < n1 -> load b1 (p1 - k) = Some (xw k) /\ 0 <= xw k < DIG_BASE) ->
  (forall k, 0 <= k < n2 -> load b2 (start2 - k) = Some (yw k) /\ 0 <= yw k < DIG_BASE) ->
  (forall k, n2 <= k -> yw k = 0) ->
  digits_upto N m -> mval N m = 0 -> n1 <= N -> n2 <= N ->
  ws xw (Z.to_nat n1) * ws yw (Z.to_nat n2) < DIG_BASE ^ N ->
  exists m', for_ret (Z.to_nat n1) 0
      (fun k m => x ← load b1 (p1 - k); mul_row x b2 start2 (N - 1 - k) n2 m) m = Some (Next m') /\
    length m' = length m /\ digits_upto N m' /\
    (forall j, N <= j -> at_ m' j = at_ m j) /\
    mval N m' = ws xw (Z.to_nat n1) * ws yw (Z.to_nat n2).
Proof.
  intros Hn1 Hn2 Hn HN Hx Hy Hy0 Hd Hz Hn1N Hn2N Hlt.
  pose proof (ws_bound yw (Z.to_nat n2) ltac:(intros; apply Hy; lia)) as HY.
  destruct (for_ret_rule (R := list Z) (fun k m' => length m' = length m /\ digits_upto N m' /\
      (forall j, N <= j -> at_ m' j = at_ m j) /\
      mval N m' = ws xw (Z.to_nat k) * ws yw (Z.to_nat n2)) (fun _ => False) (Z.to_nat n1) 0
    (fun k m => x ← load b1 (p1 - k); mul_row x b2 start2 (N - 1 - k) n2 m) m)
    as [(m' & Hr & Hres) | (r & _ & [])].
  - split_and!; [done | done | done |]. rewrite Hz. change (Z.to_nat 0) with 0%nat. cbn [ws]. lia.
  - intros k mk Hk (Hl & Hdk & Hhi & Hv). left. destruct (Hx k) as [Hxk Hxr]; [lia |].
    rewrite Hxk. cbn [mbind option_bind].
    destruct (mul_row_phase (xw k) b2 start2 (N - 1 - k) n2 mk yw) as (m' & c & Hph & Hres);
      [done | lia | lia | intros j Hj; apply Hdk; lia | done | done |].
    replace (N - 1 - k + 1) with (N - k) in Hph by lia.
    pose proof Hph as (Hl' & Hout & Hr & _).
    assert (Hval := phase_mval N k mk m' c (fun j => xw k * yw j) ltac:(lia) Hph).
    replace (Z.to_nat (N - k)) with (Z.to_nat n2 + Z.to_nat (N - k - n2))%nat in Hval by lia.
    rewrite ws_scale, ws_app, (ws_zero (fun j => yw (j + _))), Z.mul_0_r, Z.add_0_r in Hval
      by (intros; apply Hy0; lia).
    assert (Hsucc : ws xw (Z.to_nat (k + 1)) = ws xw (Z.to_nat k) + xw k * DIG_BASE ^ k).
    { replace (Z.to_nat (k + 1)) with (S (Z.to_nat k)) by lia. cbn [ws]. by rewrite !Z2Nat.id by lia. }
    assert (Hle : ws xw (Z.to_nat (k + 1)) <= ws xw (Z.to_nat n1))
      by (apply ws_prefix_le; [lia | intros; apply Hx; lia]).
    assert (Hd' : digits_upto N m').
    { intros j Hj. destruct (decide (j < N - k)).
      - replace j with (N - k - 1 - (N - k - 1 - j)) by lia. apply Hr. lia.
      - rewrite Hout by lia. apply Hdk. lia. }
    assert (0 <= mval N m') by (apply ws_bound; intros; apply Hd'; lia).
    assert (Hc : c = 0).
    { destruct Hres as [[-> _] | [Hc _]]; [done |]. exfalso.
      assert (DIG_BASE ^ N <= c * DIG_BASE ^ N) by nia. nia. }
    subst c. destruct Hres as [[_ ->] | [Hc _]]; [| lia].
    exists m'. split; [done |]. split_and!; [lia | done | |].
    + intros j Hj. rewrite Hout by lia. by apply Hhi.
    + rewrite Hsucc. nia.
  - exists m'. rewrite Z.add_0_l, Z2Nat.id in Hres by lia. done.
Qed.

(** ** Behind the rows *)

Lemma drop_zero_words_spec n m p i :
  0 <= p -> 0 <= i < Z.of_nat n -> p + ROUND_UP i <= Z.of_nat (length m) -> p < Z.of_nat (length m) ->
  exists t, drop_zero_words n m p i = Some (p + t, i - 9 * t) /\ 0 <= t /\
    (t = 0 \/ 9 * t < i) /\ (forall j, p <= j < p + t -> at_ m j = 0).
Proof.
  revert p i; induction n as [| n IH]; intros p i Hp Hi Hl Hl'; [lia |]. cbn [drop_zero_words].
  rewrite load_at by lia. cbn [mbind option_bind].
  destruct (decide (at_ m p = 0)) as [Hz |].
  2: { rewrite bool_decide_false by done. exists 0. rewrite Z.mul_0_r, Z.add_0_r, Z.sub_0_r.
       split_and!; [done | lia | by left | lia]. }
  rewrite bool_decide_true by done. cbn [andb]. unfold DIG_PER_DEC1 in *.
  case_bool_decide.
  2: { exists 0. rewrite Z.mul_0_r, Z.add_0_r, Z.sub_0_r. split_and!; [done | lia | by left | lia]. }
  assert (HR : ROUND_UP i = ROUND_UP (i - 9) + 1) by (rewrite !ROUND_UP_div by lia; Zlia).
  assert (0 < ROUND_UP (i - 9)) by (rewrite ROUND_UP_div by lia; Zlia).
  destruct (IH (p + 1) (i - 9)) as (t & -> & Ht & Hti & Hzs); [lia | lia | lia | lia |].
  exists (t + 1). split; [by repeat (f_equal; try lia) |]. split_and!; [lia | right; lia |].
  intros j Hj. destruct (decide (j = p)) as [-> |]; [done | apply Hzs; lia].
Qed.

Lemma move_words_spec d t m :
  0 <= d -> 0 <= t -> t + d <= Z.of_nat (length m) ->
  exists m', move_words d t m = Some m' /\ length m' = length m /\
    (forall k, 0 <= k < d -> at_ m' k = at_ m (t + k)).
Proof.
  intros Hd Ht Hl. unfold move_words.
  destruct (for_up_rule (fun k m' => length m' = length m /\
      (forall j, 0 <= j < k -> at_ m' j = at_ m (t + j)) /\ (forall j, k <= j -> at_ m' j = at_ m j))
    (Z.to_nat d) 0 (fun k m => w ← load m (t + k); store m k w) m) as (m' & -> & Hlm & Hlow & _).
  - split_and!; [done | lia | done].
  - intros k mk Hk (Hlm & Hlow & Hhi). rewrite load_at by lia. cbn [mbind option_bind].
    rewrite store_in by lia. eexists; split; [done |]. rewrite length_insert. split_and!; [done | |].
    + intros j Hj. rewrite at_insert by lia. case_decide; [subst; apply Hhi; lia | apply Hlow; lia].
    + intros j Hj. rewrite at_insert, decide_False by lia. apply Hhi. lia.
  - exists m'. split_and!; [done | done |]. intros k Hk. apply Hlow. lia.
Qed.

(** Stripping leading zero words keeps the value. *)
Lemma mul_strip_spec err I to :
  intg to = I * 9 -> 0 <= I -> 0 <= frac to -> len to = Z.of_nat (length (buf to)) ->
  0 < I + fw to <= len to -> 0 <= sign to <= 1 -> digits_upto (I + fw to) (buf to) ->
  exists to', mul_strip err I to = Some (err, to') /\ wf to' /\ sign to' = sign to /\
    frac to' = frac to /\ dval to' = mval (I + fw to) (buf to).
Proof.
  intros Hi HI Hf Hlen Hfit Hs Hd. pose proof (ROUND_UP_nonneg (frac to) Hf). fold (fw to) in *.
  unfold mul_strip. fold (fw to).
  destruct (drop_zero_words_spec (S (Z.to_nat (intg to))) (buf to) 0 (intg to))
    as (t & -> & Ht & Hti & Hz); [lia | lia | rewrite Hi, ROUND_UP_mul; lia | lia |].
  cbn [mbind option_bind]. rewrite !Z.add_0_l in *.
  assert (exists m', (if bool_decide (0 < t) then move_words (I + fw to - t) t (buf to)
    else Some (buf to)) = Some m' /\ length m' = length (buf to) /\
    forall k, 0 <= k < I + fw to - t -> at_ m' k = at_ (buf to) (t + k)) as (m' & -> & Hl & Hm).
  { case_bool_decide; [apply move_words_spec; lia |]. exists (buf to). split_and!; [done | done |].
    intros k Hk. f_equal. lia. }
  cbn [mbind option_bind]. eexists; split; [done |].
  assert (HR : ROUND_UP (intg to - 9 * t) = I - t)
    by (replace (intg to - 9 * t) with ((I - t) * 9) by lia; apply ROUND_UP_mul; lia).
  unfold dval, iw, fw; simpl. rewrite HR. fold (fw to). split_and!; try done.
  - split; unfold iw, fw; simpl; rewrite ?HR; fold (fw to); try lia.
    intros i Hik. rewrite Hm by lia. apply Hd. lia.
  - unfold mval. replace (Z.to_nat (I + fw to)) with (Z.to_nat (I - t + fw to) + Z.to_nat t)%nat by lia.
    rewrite ws_app, (ws_zero (fun k => at_ (buf to) (I + fw to - 1 - (k + _))))
      by (intros; apply Hz; lia).
    rewrite Z.mul_0_r, Z.add_0_r. apply ws_ext. intros k Hk. rewrite Hm by lia. f_equal. lia.
Qed.

(** A negative zero becomes zero. *)
Lemma mul_finish_spec err I F to :
  intg to = I * 9 -> 0 <= I -> 0 <= frac to -> len to = Z.of_nat (length (buf to)) ->
  0 < I + fw to -> fw to <= F -> I + F <= len to -> 0 <= sign to <= 1 -> digits_upto (I + F) (buf to) ->
  (exists to', mul_finish err I F to = Some (err, to') /\ wf to' /\ fw to' <= fw to /\
    dval to' * DIG_BASE ^ (fw to - fw to') = mval (I + fw to) (buf to) /\ sign to' = sign to) \/
  mval (I + F) (buf to) = 0 /\ exists to', mul_finish err I F to = Some (err, to') /\ wf to' /\
    dval to' = 0 /\ fw to' = 0.
Proof.
  intros Hi HI Hf Hlen Hpos HfF Hfit Hs Hd. unfold mul_finish.
  pose proof (ROUND_UP_nonneg (frac to) Hf). fold (fw to) in *.
  assert (Hstrip : exists to', mul_strip err I to = Some (err, to') /\ wf to' /\ fw to' <= fw to /\
    dval to' * DIG_BASE ^ (fw to - fw to') = mval (I + fw to) (buf to) /\ sign to' = sign to).
  { destruct (mul_strip_spec err I to) as (to' & Hr & Hwf & Hs' & Hfr & Hv); try done; try lia.
    { intros j Hj. apply Hd. lia. }
    assert (Hfw : fw to' = fw to) by (unfold fw; by rewrite Hfr).
    exists to'. rewrite Hfw, Z.sub_diag, Z.pow_0_r, Z.mul_1_r.
    split_and!; done || lia. }
  destruct (decide (sign to = 0)) as [Hs0 | Hs1].
  { rewrite bool_decide_false by lia. cbn [mbind option_bind]. left. done. }
  rewrite bool_decide_true by done. rewrite bool_decide_false by lia.
  destruct (all_zero_spec (Z.to_nat (I + F)) (buf to) 0)
    as (z & -> & [[-> Hall] | [-> _]]); [lia | lia | |]; cbn [mbind option_bind].
  2: { left. done. }
  rewrite bool_decide_true by done. right. split.
  { apply ws_zero. intros k Hk. apply Hall. lia. }
  unfold decimal_make_zero. rewrite store_in by lia. cbn [mbind option_bind].
  unfold mul_strip. cbn [intg frac len sign buf]. change (S (Z.to_nat 1)) with 2%nat.
  assert (Hz0 : load (<[Z.to_nat 0:=0]> (buf to)) 0 = Some 0).
  { rewrite (load_store (buf to) 0 0) by (apply store_in; lia). done. }
  cbn [drop_zero_words]. rewrite Hz0. cbn [mbind option_bind].
  rewrite (bool_decide_true (0 = 0)), (bool_decide_false (1 > DIG_PER_DEC1))
    by (done || (unfold DIG_PER_DEC1; lia)). cbn [andb mbind option_bind].
  rewrite bool_decide_false by lia. cbn [mbind option_bind].
  eexists; split; [done |]. split; [| split; [| done]].
  - split; unfold iw, fw; simpl; rewrite ?length_insert; try lia; try done.
    + change (ROUND_UP 1) with 1. change (ROUND_UP 0) with 0. lia.
    + change (ROUND_UP 1) with 1. change (ROUND_UP 0) with 0. intros i Hik.
      replace i with 0 by lia. unfold at_. rewrite Hz0. unfold DIG_BASE. simpl. lia.
  - unfold dval, iw, fw; simpl. change (ROUND_UP 1) with 1. change (ROUND_UP 0) with 0.
    change (Z.to_nat (1 + 0)) with 1%nat. cbn [ws]. unfold at_.
    change (1 + 0 - 1 - Z.of_nat 0) with 0. by rewrite Hz0.
Qed.

(** ** The product *)

(** No digit behind the last one that [frac] counts. *)
Definition canonical_frac (d : decimal_t) : Prop := (10 ^ (9 * fw d - frac d) | dval d).

Lemma base_10 n : 0 <= n -> DIG_BASE ^ n = 10 ^ (9 * n).
Proof. intros. rewrite Z.pow_mul_r by lia. reflexivity. Qed.

Lemma fw_bounds d : wf d -> frac d <= 9 * fw d < frac d + 9.
Proof. intros []. unfold fw. rewrite ROUND_UP_div by done. Zlia. Qed.

Lemma canonical_bound d : wf d -> canonical d -> 0 <= dval d < 10 ^ (intg d + 9 * fw d).
Proof.
  intros Hd Hc. split; [by apply dval_nonneg |]. pose proof (fw_nonneg d Hd).
  pose proof (wf_intg d Hd). destruct (decide (0 < intg d)) as [Hpos |].
  - assert (Hi : 0 < iw d /\ intg d - 9 * (iw d - 1) <= 9 /\ 0 < intg d - 9 * (iw d - 1)).
    { unfold iw. rewrite ROUND_UP_div by lia. Zlia. }
    specialize (Hc Hpos). unfold dval.
    replace (Z.to_nat (iw d + fw d)) with (S (Z.to_nat (iw d + fw d - 1))) by lia. cbn [ws].
    rewrite Z2Nat.id by lia. replace (iw d + fw d - 1 - (iw d + fw d - 1)) with 0 by lia.
    pose proof (ws_bound (fun k => at_ (buf d) (iw d + fw d - 1 - k)) (Z.to_nat (iw d + fw d - 1))
      ltac:(intros; apply wf_words; [done | lia])) as Hb. rewrite Z2Nat.id in Hb by lia.
    rewrite base_10 in Hb |- * by lia.
    replace (intg d + 9 * fw d) with (intg d - 9 * (iw d - 1) + 9 * (iw d + fw d - 1)) by lia.
    rewrite Z.pow_add_r by lia. nia.
  - assert (intg d = 0) as E by lia. assert (Hi : iw d = 0) by (unfold iw; by rewrite E).
    rewrite E, Z.add_0_l, <- base_10 by done. unfold dval. rewrite Hi, Z.add_0_l.
    pose proof (ws_bound (fun k => at_ (buf d) (fw d - 1 - k)) (Z.to_nat (fw d))
      ltac:(intros; apply wf_words; [done | lia])) as Hb. rewrite Z2Nat.id in Hb by lia. lia.
Qed.

Lemma product_bound d1 d2 :
  wf d1 -> wf d2 -> canonical d1 -> canonical d2 ->
  dval d1 * dval d2 < DIG_BASE ^ (ROUND_UP (intg d1 + intg d2) + (fw d1 + fw d2)).
Proof.
  intros H1 H2 Hc1 Hc2. pose proof (wf_intg d1 H1). pose proof (wf_intg d2 H2).
  pose proof (fw_nonneg d1 H1). pose proof (fw_nonneg d2 H2).
  pose proof (canonical_bound d1 H1 Hc1). pose proof (canonical_bound d2 H2 Hc2).
  pose proof (ROUND_UP_nonneg (intg d1 + intg d2) ltac:(lia)).
  rewrite base_10 by lia. apply Z.lt_le_trans with (10 ^ (intg d1 + 9 * fw d1) * 10 ^ (intg d2 + 9 * fw d2)).
  - nia.
  - rewrite <- Z.pow_add_r by lia. apply Z.pow_le_mono_r; [lia |].
    rewrite ROUND_UP_div by lia. Zlia.
Qed.

(** The words behind [ROUND_UP(frac1+frac2)] of the product are zero. *)
Lemma product_divides d1 d2 :
  wf d1 -> wf d2 -> canonical_frac d1 -> canonical_frac d2 ->
  let G := ROUND_UP (frac d1 + frac d2) in
  0 <= G <= fw d1 + fw d2 /\ (DIG_BASE ^ (fw d1 + fw d2 - G) | dval d1 * dval d2).
Proof.
  intros H1 H2 Hc1 Hc2 G. pose proof (fw_bounds d1 H1). pose proof (fw_bounds d2 H2).
  pose proof (wf_frac d1 H1). pose proof (wf_frac d2 H2).
  assert (HG : 0 <= G <= fw d1 + fw d2 /\ frac d1 + frac d2 <= 9 * G).
  { unfold G. rewrite ROUND_UP_div by lia. Zlia. }
  split; [lia |]. rewrite base_10 by lia.
  destruct Hc1 as [q1 ->], Hc2 as [q2 ->].
  exists (q1 * q2 * 10 ^ (9 * G - (frac d1 + frac d2))).
  transitivity (q1 * q2 * (10 ^ (9 * fw d1 - frac d1) * 10 ^ (9 * fw d2 - frac d2))); [ring |].
  transitivity (q1 * q2 * (10 ^ (9 * G - (frac d1 + frac d2)) * 10 ^ (9 * (fw d1 + fw d2 - G))));
    [| ring].
  rewrite <- !Z.pow_add_r by lia. do 2 f_equal. lia.
Qed.

Lemma mval_divides I F G m V :
  0 <= I -> 0 <= G <= F -> digits_upto (I + F) m -> mval (I + F) m = V -> (DIG_BASE ^ (F - G) | V) ->
  V = mval (I + G) m * DIG_BASE ^ (F - G).
Proof.
  intros HI HG Hd HV [q Hq]. unfold mval in *.
  replace (Z.to_nat (I + F)) with (Z.to_nat (F - G) + Z.to_nat (I + G))%nat in HV by lia.
  rewrite ws_app, Z2Nat.id in HV by lia.
  rewrite (ws_ext (fun j => at_ m (I + F - 1 - (j + _))) (fun j => at_ m (I + G - 1 - j))) in HV
    by (intros; f_equal; lia).
  pose proof (ws_bound (fun j => at_ m (I + F - 1 - j)) (Z.to_nat (F - G))
    ltac:(intros; apply Hd; lia)) as Hb. rewrite Z2Nat.id in Hb by lia.
  set (lo := ws _ (Z.to_nat (F - G))) in *. set (hi := ws _ (Z.to_nat (I + G))) in *.
  set (b := DIG_BASE ^ (F - G)) in *. assert (lo = (q - hi) * b) by nia.
  assert (q - hi = 0) by nia. nia.
Qed.

Lemma product_sign d1 d2 :
  wf d1 -> wf d2 ->
  (if bool_decide ((if bool_decide (sign d1 <> sign d2) then 1 else 0) = 0) then 1 else -1) =
  (if bool_decide (sign d1 = 0) then 1 else -1) * (if bool_decide (sign d2 = 0) then 1 else -1).
Proof.
  intros H1 H2. pose proof (wf_sign d1 H1). pose proof (wf_sign d2 H2).
  repeat case_bool_decide; lia.
Qed.

(** The rows compute the product of all the words. *)
Lemma mul_rows d1 d2 I F m0 :
  wf d1 -> wf d2 -> F = fw d1 + fw d2 -> Z.max (iw d1) (iw d2) <= I -> iw d1 + iw d2 <= I + 1 ->
  I + F <= Z.of_nat (length m0) -> (forall j, 0 <= j < I + F -> at_ m0 j = 0) ->
  dval d1 * dval d2 < DIG_BASE ^ (I + F) ->
  exists m', for_ret (Z.to_nat (iw d1 + fw d1)) 0
      (fun k m => x ← load (buf d1) (iw d1 + (fw d1 - 1) - k);
         mul_row x (buf d2) (iw d2 + fw d2 - 1) (I + F - 1 - k) (iw d2 + fw d2) m) m0 = Some (Next m') /\
    length m' = length m0 /\ digits_upto (I + F) m' /\ mval (I + F) m' = dval d1 * dval d2.
Proof.
  intros H1 H2 HF HI HI1 Hl Hz Hlt.
  pose proof (iw_nonneg d1 H1). pose proof (iw_nonneg d2 H2).
  pose proof (fw_nonneg d1 H1). pose proof (fw_nonneg d2 H2).
  assert (Hload : forall d k, wf d -> 0 <= k < iw d + fw d ->
    load (buf d) (iw d + fw d - 1 - k) = Some (at_ (buf d) (iw d + fw d - 1 - k)) /\
    0 <= at_ (buf d) (iw d + fw d - 1 - k) < DIG_BASE).
  { intros d k Hd Hk. pose proof (wf_fit d Hd). pose proof (wf_len d Hd).
    split; [apply load_at; lia | apply wf_words; [done | lia]]. }
  set (yw := fun k => if decide (k < iw d2 + fw d2) then at_ (buf d2) (iw d2 + fw d2 - 1 - k) else 0).
  assert (Hyw : ws yw (Z.to_nat (iw d2 + fw d2)) = dval d2).
  { apply ws_ext. intros k Hk. unfold yw. by rewrite decide_True by lia. }
  destruct (rows_spec (buf d1) (buf d2) (iw d1 + (fw d1 - 1)) (iw d2 + fw d2 - 1) (iw d1 + fw d1)
    (iw d2 + fw d2) (I + F) m0 (fun k => at_ (buf d1) (iw d1 + fw d1 - 1 - k)) yw)
    as (m' & Hr & Hl' & Hd' & _ & Hv); try lia.
  - intros k Hk. replace (iw d1 + (fw d1 - 1) - k) with (iw d1 + fw d1 - 1 - k) by lia. by apply Hload.
  - intros k Hk. unfold yw. rewrite decide_True by lia. by apply Hload.
  - intros k Hk. unfold yw. by rewrite decide_False by lia.
  - intros j Hj. rewrite Hz by lia. unfold DIG_BASE. lia.
  - apply ws_zero. intros k Hk. apply Hz. lia.
  - rewrite Hyw. exact Hlt.
  - exists m'. rewrite Hyw in Hv. done.
Qed.

(** C2 [decimal_mul] is exact: for decimals without digits beyond [intg] and [frac],
    a [to] of [decimal_result_size(.., '*')] words makes it return [E_DEC_OK] (no
    carry runs out of the buffer), and the signed value of the result is the
    product. *)
Theorem decimal_mul_exact d1 d2 to :
  wf d1 -> wf d2 -> canonical d1 -> canonical d2 -> canonical_frac d1 -> canonical_frac d2 ->
  0 < iw d1 + fw d1 + iw d2 + fw d2 -> len to = Z.of_nat (length (buf to)) ->
  decimal_result_size d1 d2 42 0 <= len to ->
  exists to', decimal_mul d1 d2 to = Some (E_DEC_OK, to') /\ wf to' /\
    fw to' <= fw d1 + fw d2 /\
    sval (fw d1 + fw d2) to' = sval (fw d1) d1 * sval (fw d2) d2.
Proof.
  intros H1 H2 Hc1 Hc2 Hf1 Hf2 Hsome Hlen.
  change (decimal_result_size d1 d2 42 0) with
    (ROUND_UP (intg d1 + intg d2) + ROUND_UP (frac d1) + ROUND_UP (frac d2)).
  fold (fw d1) (fw d2). intros Hroom.
  set (I := ROUND_UP (intg d1 + intg d2)) in *. set (F := fw d1 + fw d2) in *.
  destruct (product_divides d1 d2 H1 H2 Hf1 Hf2) as [HG Hdiv].
  pose proof (product_bound d1 d2 H1 H2 Hc1 Hc2) as Hlt. fold I F in Hlt, Hdiv, HG.
  set (G := ROUND_UP (frac d1 + frac d2)) in *.
  pose proof (wf_intg d1 H1). pose proof (wf_intg d2 H2). pose proof (iw_nonneg d1 H1).
  pose proof (iw_nonneg d2 H2). pose proof (fw_nonneg d1 H1). pose proof (fw_nonneg d2 H2).
  assert (HI : Z.max (iw d1) (iw d2) <= I /\ iw d1 + iw d2 <= I + 1 /\ 0 <= I).
  { unfold I, iw. rewrite !ROUND_UP_div by lia. Zlia. }
  unfold decimal_mul. fold (iw d1) (iw d2) (fw d1) (fw d2) I F.
  rewrite fix_intg_frac, decide_False, Z.min_l, decide_True by lia.
  unfold mul_cut. rewrite !(bool_decide_false (E_DEC_OK <> 0)) by (unfold E_DEC_OK; lia).
  replace (iw d1 + (fw d1 - 1) - (iw d1 - iw d1) + 1) with (iw d1 + fw d1) by lia.
  replace (iw d2 + fw d2 - 1 - (iw d2 - iw d2) + 1) with (iw d2 + fw d2) by lia.
  destruct (for_up_fill 0 (Z.to_nat (I + F)) 0 (buf to)) as (m0 & -> & Hl0 & Hm0); [lia | lia |].
  match goal with |- context [mbind ?f (Some ?x)] => change (mbind f (Some x)) with (f x) end.
  cbv beta zeta.
  destruct (mul_rows d1 d2 I F m0) as (m' & -> & Hl' & Hd' & Hv); try done; try lia.
  { intros j Hj. unfold at_. rewrite Hm0, decide_True by lia. done. }
  cbn [mbind option_bind].
  set (s := if bool_decide (sign d1 <> sign d2) then 1 else 0).
  assert (Hval := mval_divides I F G m' _ ltac:(lia) ltac:(lia) Hd' Hv Hdiv).
  pose proof (wf_frac d1 H1). pose proof (wf_frac d2 H2).
  set (t0 := mk_decimal (I * DIG_PER_DEC1) (frac d1 + frac d2) (len to) s m').
  assert (Hf0 : fw t0 = G) by done.
  assert (HIG : 0 < I + G).
  { unfold I, G. rewrite !ROUND_UP_div by lia. unfold fw, iw in Hsome.
    rewrite !ROUND_UP_div in Hsome by lia. Zlia. }
  assert (Hs : 0 <= s <= 1) by (unfold s; case_bool_decide; lia).
  destruct (mul_finish_spec E_DEC_OK I F t0)
    as [(to' & Hr & Hwf & Hfw & Hd & Hs') | (Hz & to' & Hr & Hwf & Hd & Hfw)];
    rewrite ?Hf0 in *; try done; try (simpl; lia);
    exists to'; (split; [done |]; split; [done |]; split; [lia |]);
    rewrite !sval_sign, !absval_dval, !Z.sub_diag, !Z.pow_0_r, !Z.mul_1_r by (lia || by apply fw_nonneg).
  - rewrite Hs'. unfold t0; cbn [sign]. unfold s. rewrite product_sign by done.
    simpl buf in Hd. rewrite <- Hd in Hval.
    replace (F - fw to') with (F - G + (G - fw to')) by lia. rewrite Z.pow_add_r by lia.
    match goal with |- _ = ?s1 * ?a * (?s2 * ?b) => transitivity (s1 * s2 * (a * b)); [| ring] end.
    rewrite Hval. ring.
  - simpl buf in Hz. rewrite Hv in Hz. rewrite Hd.
    match goal with |- _ = ?s1 * ?a * (?s2 * ?b) => transitivity (s1 * s2 * (a * b)); [| ring] end.
    rewrite Hz. ring.
Qed.

(** ** Witness *)

Lemma decimal_mul_exact_witness :
  exists to', decimal_mul w_12_5 w_minus_99_75 w_to = Some (E_DEC_OK, to') /\ wf to' /\
    fw to' <= 2 /\ sval 2 to' = sval 1 w_12_5 * sval 1 w_minus_99_75.
Proof.
  apply (decimal_mul_exact w_12_5 w_minus_99_75 w_to);
    try (apply decimal_wfb_wf; reflexivity); try reflexivity; try (vm_compute; congruence).
  - exists 125. reflexivity.
  - exists 9975. reflexivity.
Defined.
End DecimalMul.
