(* ===== verification/DecimalBin.v ===== *)
(** * DecimalBin: the binary format of decimals

    [decimal2bin], [bin2decimal], [decimal_bin_size] and [decimal_size] of
    [strings/decimal.c], with the big endian stores and loads of
    [include/myisampack.h].  [to] is a buffer of bytes and a pointer into it or
    into the words is an index. *)
From stdpp Require Import base tactics option list numbers.
From Stdlib Require Import ZArith Lia.
From S2P Require Import Prelude Decimal.

Module DecimalBin.
Import Decimal.

(** ** Model *)

Definition dig2bytes : list Z := [0; 1; 1; 2; 2; 3; 3; 4; 4; 4].

Definition mi_int1store (to : list Z) (p x : Z) : option (list Z) := store to p (u8 x).
Definition mi_int2store (to : list Z) (p x : Z) : option (list Z) :=
  let def_temp := u32 x in
  to ← store to (p + 1) (u8 def_temp);
  store to p (u8 (def_temp ≫ 8)).
Definition mi_int3store (to : list Z) (p x : Z) : option (list Z) :=
  let def_temp := u32 x in
  to ← store to (p + 2) (u8 def_temp);
  to ← store to (p + 1) (u8 (def_temp ≫ 8));
  store to p (u8 (def_temp ≫ 16)).
Definition mi_int4store (to : list Z) (p x : Z) : option (list Z) :=
  let def_temp := u32 x in
  to ← store to (p + 3) (u8 def_temp);
  to ← store to (p + 2) (u8 (def_temp ≫ 8));
  to ← store to (p + 1) (u8 (def_temp ≫ 16));
  store to p (u8 (def_temp ≫ 24)).

(** [switch (i)] over the stores and over the loads. *)
Definition mi_store (i : Z) (to : list Z) (p x : Z) : option (list Z) :=
  if bool_decide (i = 1) then mi_int1store to p x
  else if bool_decide (i = 2) then mi_int2store to p x
  else if bool_decide (i = 3) then mi_int3store to p x
  else if bool_decide (i = 4) then mi_int4store to p x
  else None.

Definition mi_sint1korr (a : list Z) (p : Z) : option Z := x ← load a p; Some (s8 x).
Definition mi_sint2korr (a : list Z) (p : Z) : option Z :=
  x0 ← load a p; x1 ← load a (p + 1);
  Some (s16 (x1 + (s8 x0 ≪ 8))).
Definition mi_sint3korr (a : list Z) (p : Z) : option Z :=
  x0 ← load a p; x1 ← load a (p + 1); x2 ← load a (p + 2);
  Some (s32 (if bool_decide (x0 &&& 128 <> 0)
             then (255 ≪ 24) ||| (x0 ≪ 16) ||| (x1 ≪ 8) ||| x2
             else (x0 ≪ 16) ||| (x1 ≪ 8) ||| x2)).
Definition mi_sint4korr (a : list Z) (p : Z) : option Z :=
  x0 ← load a p; x1 ← load a (p + 1); x2 ← load a (p + 2); x3 ← load a (p + 3);
  Some (s32 (x3 + (x2 ≪ 8) + (x1 ≪ 16) + (s8 x0 ≪ 24))).

Definition mi_korr (i : Z) (a : list Z) (p : Z) : option Z :=
  if bool_decide (i = 1) then mi_sint1korr a p
  else if bool_decide (i = 2) then mi_sint2korr a p
  else if bool_decide (i = 3) then mi_sint3korr a p
  else if bool_decide (i = 4) then mi_sint4korr a p
  else None.

(** [while (intg > 0 && *buf0 == 0)], at most [n] words. *)
Fixpoint skip_zero_words (n : nat) (b : list Z) (buf0 intg i : Z) : option (Z * Z) :=
  if bool_decide (intg > 0)
  then
    x ← load b buf0;
    if bool_decide (x = 0)
    then match n with
         | O => None
         | S n => skip_zero_words n b (buf0 + 1) (intg - i) DIG_PER_DEC1
         end
    else Some (buf0, intg)
  else Some (buf0, intg).

(** [for (i= ...; *buf0 < powers10[i--]; intg--) ;], at most [n] digits. *)
Fixpoint skip_zero_digits (n : nat) (x i intg : Z) : option Z :=
  w ← load powers10 i;
  if bool_decide (x < w)
  then match n with O => None | S n => skip_zero_digits n x (i - 1) (intg - 1) end
  else Some intg.

(** The first word that is not zero and the number of digits from there on. *)
Definition remove_leading_zeroes (from : decimal_t) : option (Z * Z) :=
  '(buf0, intg) ← skip_zero_words (length (buf from)) (buf from) 0 (intg from)
                    (Z.rem (intg from - 1) DIG_PER_DEC1 + 1);
  if bool_decide (intg > 0)
  then
    x ← load (buf from) buf0;
    intg ← skip_zero_digits 9 x (Z.rem (intg - 1) DIG_PER_DEC1) intg;
    Some (buf0, intg)
  else Some (buf0, 0).

(** [n] times [*to++= mask]. *)
Definition fill_bytes (n p mask : Z) (to : list Z) : option (list Z) :=
  for_up (Z.to_nat n) 0 (fun k to => store to (p + k) (u8 mask)) to.

(** The loop that stores whole words. *)
Definition store_words (n : Z) (b1 : list Z) (buf1 p mask : Z) (to : list Z) : option (list Z) :=
  for_up (Z.to_nat n) 0
    (fun k to => x ← load b1 (buf1 + k); mi_int4store to (p + 4 * k) (Z.lxor x mask)) to.

(** [while (frac1x < lim && dig2bytes[frac1x] == i) frac1x++;] *)
Fixpoint more_digits (n : nat) (frac1x lim i : Z) : option Z :=
  if bool_decide (frac1x < lim)
  then
    b ← load dig2bytes frac1x;
    if bool_decide (b = i)
    then match n with O => None | S n => more_digits n (frac1x + 1) lim i end
    else Some frac1x
  else Some frac1x.

(** The words, and what is in front of and behind them: the new [to] pointer and
    the buffer. *)
Definition store_number (b1 : list Z) (buf1 mask intg1 intg1x frac1 frac1x frac0 frac0x p : Z) (to : list Z)
  : option (Z * list Z) :=
  '(p, buf1, to) ←
    (if bool_decide (intg1x <> 0)
     then
       i ← load dig2bytes intg1x;
       w ← load powers10 intg1x;
       x ← load b1 buf1;
       to ← mi_store i to p (Z.lxor (Z.rem x w) mask);
       Some (p + i, buf1 + 1, to)
     else Some (p, buf1, to));
  let n := Z.max 0 (intg1 + frac1) in
  to ← store_words n b1 buf1 p mask to;
  let p := p + 4 * n in
  let buf1 := buf1 + n in
  if bool_decide (frac1x <> 0)
  then
    i ← load dig2bytes frac1x;
    frac1x ← more_digits 9 frac1x (if bool_decide (frac1 < frac0) then DIG_PER_DEC1 else frac0x) i;
    w ← load powers10 (DIG_PER_DEC1 - frac1x);
    x ← load b1 buf1;
    to ← mi_store i to p (Z.lxor (Z.quot x w) mask);
    Some (p + i, to)
  else Some (p, to).

(** What the fraction part is stored as: [frac1], [frac1x], [fsize0] and whether it
    is cut. *)
Definition fit_frac (frac0 frac0x fsize0 frac1 frac1x fsize1 : Z) : Z * Z * Z * bool :=
  if bool_decide (fsize0 < fsize1) then (frac0, frac0x, fsize0, true)
  else if bool_decide (fsize0 > fsize1) && bool_decide (frac1x <> 0)
  then if bool_decide (frac0 = frac1) then (frac1, frac0x, fsize1, false)
       else (frac1 + 1, 0, fsize0, false)
  else (frac1, frac1x, fsize0, false).

Definition decimal2bin (from : decimal_t) (to : list Z) (precision frac : Z) : option (Z * list Z) :=
  let mask := if bool_decide (sign from <> 0) then -1 else 0 in
  let intg := precision - frac in
  let intg0 := Z.quot intg DIG_PER_DEC1 in
  let frac0 := Z.quot frac DIG_PER_DEC1 in
  let intg0x := intg - intg0 * DIG_PER_DEC1 in
  let frac0x := frac - frac0 * DIG_PER_DEC1 in
  let frac1 := Z.quot (Decimal.frac from) DIG_PER_DEC1 in
  let frac1x := Decimal.frac from - frac1 * DIG_PER_DEC1 in
  b_intg0x ← load dig2bytes intg0x;
  b_frac0x ← load dig2bytes frac0x;
  b_frac1x ← load dig2bytes frac1x;
  let isize0 := intg0 * 4 + b_intg0x in
  let fsize0 := frac0 * 4 + b_frac0x in
  let fsize1 := frac1 * 4 + b_frac1x in
  let to_end := fsize0 + isize0 in
  '(buf1, from_intg) ← remove_leading_zeroes from;
  let '(mask, intg, b1, buf1) :=
    if bool_decide (from_intg + fsize1 = 0) then (0, 1, [0], 0) else (mask, intg, buf from, buf1) in
  let intg1 := Z.quot from_intg DIG_PER_DEC1 in
  let intg1x := from_intg - intg1 * DIG_PER_DEC1 in
  b_intg1x ← load dig2bytes intg1x;
  let isize1 := intg1 * 4 + b_intg1x in
  '(buf1, intg1, intg1x, error, p, to) ←
    (if bool_decide (intg < from_intg)
     then Some (buf1 + (intg1 - intg0 + Z.b2z (bool_decide (intg1x > 0)) - Z.b2z (bool_decide (intg0x > 0))),
                intg0, intg0x, E_DEC_OVERFLOW, 0, to)
     else if bool_decide (isize0 > isize1)
     then to ← fill_bytes (isize0 - isize1) 0 mask to;
          Some (buf1, intg1, intg1x, E_DEC_OK, isize0 - isize1, to)
     else Some (buf1, intg1, intg1x, E_DEC_OK, 0, to));
  let '(frac1, frac1x, fsize0, cut) := fit_frac frac0 frac0x fsize0 frac1 frac1x fsize1 in
  let error := if (cut : bool) then E_DEC_TRUNCATED else error in
  '(p, to) ← store_number b1 buf1 mask intg1 intg1x frac1 frac1x frac0 frac0x p to;
  to ← (if bool_decide (fsize0 > fsize1)
        then fill_bytes (Z.min (fsize0 - fsize1) (Z.max 0 (to_end - p))) p mask to
        else Some to);
  x ← load to 0;
  to ← store to 0 (Z.lxor x 0x80);
  Some (error, to).

Definition decimal_size (precision scale : Z) : Z := ROUND_UP (precision - scale) + ROUND_UP scale.

Definition decimal_bin_size (precision scale : Z) : option Z :=
  let intg := precision - scale in
  let intg0 := Z.quot intg DIG_PER_DEC1 in
  let frac0 := Z.quot scale DIG_PER_DEC1 in
  b_intg0x ← load dig2bytes (intg - intg0 * DIG_PER_DEC1);
  b_frac0x ← load dig2bytes (scale - frac0 * DIG_PER_DEC1);
  Some (intg0 * 4 + b_intg0x + frac0 * 4 + b_frac0x).

(** The words that are read: the index of the next one, [to->intg] and the
    buffer; a buffer alone is what [goto err] leaves. *)
Definition read_state : Type := Z * Z * list Z.
Definition read_result : Type := read_state + list Z.

(** [if (buf > to->buf || *buf != 0) buf++; else to->intg-= digits;] *)
Definition keep_word (digits x b to_intg : Z) (m : list Z) : read_state :=
  if bool_decide (b > 0) || bool_decide (x <> 0) then (b + 1, to_intg, m) else (b, to_intg - digits, m).

(** One of the loops over whole words, [n] of them from [p] on. *)
Fixpoint read_words (n : nat) (from : list Z) (p mask : Z) (leading : bool) (st : read_state)
  : option read_result :=
  match n with
  | O => Some (inl st)
  | S n =>
      x ← mi_sint4korr from p;
      let '(b, to_intg, m) := st in
      let x := s32 (Z.lxor x mask) in
      m ← store m b x;
      if bool_decide (u32 x > DIG_MAX) then Some (inr m)
      else
        read_words n from (p + 4) mask leading
          (if leading then keep_word DIG_PER_DEC1 x b to_intg m else (b + 1, to_intg, m))
  end.

(** The digits in front of the first whole word. *)
Definition read_head (intg0x : Z) (from : list Z) (p mask : Z) (st : read_state)
  : option (Z * read_result) :=
  if bool_decide (intg0x <> 0)
  then
    i ← load dig2bytes intg0x;
    x ← mi_korr i from p;
    let '(b, to_intg, m) := st in
    let x := s32 (Z.lxor x mask) in
    m ← store m b x;
    w ← load powers10 (intg0x + 1);
    Some (p + i, if bool_decide (u64 x >= w) then inr m else inl (keep_word intg0x x b to_intg m))
  else Some (p, inl st).

(** The digits behind the last whole word. *)
Definition read_tail (frac0x : Z) (from : list Z) (p mask : Z) (st : read_state) : option read_result :=
  if bool_decide (frac0x <> 0)
  then
    i ← load dig2bytes frac0x;
    x ← mi_korr i from p;
    w ← load powers10 (DIG_PER_DEC1 - frac0x);
    let '(b, to_intg, m) := st in
    let x := s32 (s32 (Z.lxor x mask) * w) in
    m ← store m b x;
    Some (if bool_decide (u32 x > DIG_MAX) then inr m else inl (b + 1, to_intg, m))
  else Some (inl st).

(** The sizes that fit into [to]: [intg0], [intg0x], [frac0], [frac0x], the bytes
    that are left out in front and the error. *)
Definition fit_words (len intg0 intg0x frac0 frac0x : Z) : option (Z * Z * Z * Z * Z * Z) :=
  let '(intg1, frac1, error) :=
    FIX_INTG_FRAC_ERROR len (intg0 + Z.b2z (bool_decide (intg0x > 0))) (frac0 + Z.b2z (bool_decide (frac0x > 0))) in
  if bool_decide (error <> 0)
  then
    if bool_decide (intg1 < intg0 + Z.b2z (bool_decide (intg0x > 0)))
    then b ← load dig2bytes intg0x; Some (intg1, 0, 0, 0, b + 4 * (intg0 - intg1), error)
    else Some (intg0, intg0x, frac1, 0, 0, error)
  else Some (intg0, intg0x, frac0, frac0x, 0, error).

(** The parts of the number. *)
Definition read_number (intg0 intg0x frac0 frac0x : Z) (from : list Z) (p mask : Z) (st : read_state)
  : option read_result :=
  '(p, r) ← read_head intg0x from p mask st;
  match r with
  | inr m => Some (inr m)
  | inl st =>
      r ← read_words (Z.to_nat intg0) from p mask true st;
      match r with
      | inr m => Some (inr m)
      | inl st =>
          let p := p + 4 * Z.max 0 intg0 in
          r ← read_words (Z.to_nat frac0) from p mask false st;
          match r with
          | inr m => Some (inr m)
          | inl st => read_tail frac0x from (p + 4 * Z.max 0 frac0) mask st
          end
      end
  end.

Definition bin2decimal (from : list Z) (to : decimal_t) (precision scale : Z) : option (Z * decimal_t) :=
  let intg := precision - scale in
  let intg0 := Z.quot intg DIG_PER_DEC1 in
  let frac0 := Z.quot scale DIG_PER_DEC1 in
  let intg0x := intg - intg0 * DIG_PER_DEC1 in
  let frac0x := scale - frac0 * DIG_PER_DEC1 in
  first ← load from 0;
  let mask := if bool_decide (first &&& 0x80 <> 0) then 0 else -1 in
  bin_size ← decimal_bin_size precision scale;
  d_copy ← read from 0 bin_size;
  x ← load d_copy 0;
  d_copy ← store d_copy 0 (Z.lxor x 0x80);
  '(intg0, intg0x, frac0, frac0x, p, error) ← fit_words (len to) intg0 intg0x frac0 frac0x;
  let to_frac := frac0 * DIG_PER_DEC1 + frac0x in
  r ← read_number intg0 intg0x frac0 frac0x d_copy p mask (0, intg0 * DIG_PER_DEC1 + intg0x, buf to);
  match r with
  | inl (_, to_intg, m) =>
      Some (error, mk_decimal to_intg to_frac (len to) (Z.b2z (bool_decide (mask <> 0))) m)
  | inr m => to ← decimal_make_zero (with_buf to m); Some (E_DEC_BAD_NUM, to)
  end.

End DecimalBin.
