(* ===== verification/DecimalBinProps.v ===== *)
(** * DecimalBinProps: bytes, words and digits of the binary format *)
From stdpp Require Import base tactics option list numbers.
From Stdlib Require Import ZArith Lia.
From S2P Require Import Prelude Decimal DecimalProps DecimalMul DecimalBin.

Module DecimalBinProps.
Import Decimal DecimalProps DecimalMul DecimalBin.

(** ** Big endian bytes *)

Fixpoint be (n : nat) (x : Z) : list Z :=
  match n with O => [] | S n => (x / 256 ^ Z.of_nat n) mod 256 :: be n x end.

Lemma length_be n x : length (be n x) = n.
Proof. induction n; cbn; auto. Qed.

Lemma pow256 n : 0 < 256 ^ Z.of_nat n.
Proof. apply Z.pow_pos_nonneg; lia. Qed.

Lemma be_app n m x : be (n + m) x = be n (x / 256 ^ Z.of_nat m) ++ be m x.
Proof.
  induction n as [|n IH]; [done|]. cbn [be Nat.add app]. rewrite IH. do 2 f_equal.
  rewrite Nat2Z.inj_add, Z.pow_add_r by lia. pose proof (pow256 n). pose proof (pow256 m).
  rewrite (Z.mul_comm (256 ^ Z.of_nat n)), Z.div_div by lia. done.
Qed.

Lemma be_mod n x : be n (x mod 256 ^ Z.of_nat n) = be n x.
Proof.
  enough (H : forall m, (m <= n)%nat -> be m (x mod 256 ^ Z.of_nat n) = be m x) by (by apply H).
  induction m as [|m IH]; intros L; [done|]. cbn [be]. rewrite IH by lia. f_equal.
  pose proof (pow256 m). pose proof (pow256 n).
  replace (256 ^ Z.of_nat n) with (256 ^ Z.of_nat m * (256 * 256 ^ (Z.of_nat (n - m - 1)))).
  2:{ rewrite <- Z.pow_succ_r, <- Z.pow_add_r by lia. f_equal. lia. }
  assert (0 < 256 ^ Z.of_nat (n - m - 1)) by (apply Z.pow_pos_nonneg; lia).
  rewrite Z.rem_mul_r by lia. rewrite Z.add_comm, Z.mul_comm, Z.div_add_l by lia.
  rewrite (Z.div_small (x mod _)) by (apply Z.mod_pos_bound; lia). rewrite Z.add_0_r.
  rewrite Z.rem_mul_r by lia. by rewrite (Z.mul_comm 256), Z.mod_add, Z.mod_mod by lia.
Qed.

Lemma be_congr n x y : x mod 256 ^ Z.of_nat n = y mod 256 ^ Z.of_nat n -> be n x = be n y.
Proof. intros E. by rewrite <- (be_mod n x), E, be_mod. Qed.

(** A word under the mask of the sign. *)
Definition inv (neg : bool) (x : Z) : Z := if neg then -1 - x else x.

Definition mask_of (neg : bool) : Z := if neg then -1 else 0.

Lemma lxor_inv neg x : Z.lxor x (mask_of neg) = inv neg x.
Proof.
  destruct neg; cbn; [|apply Z.lxor_0_r]. rewrite Z.lxor_m1_r. unfold Z.lnot. lia.
Qed.

Lemma inv_div neg x c : 0 < c -> inv neg x / c = inv neg (x / c).
Proof. intros. destruct neg; cbn; [|done]. Zdm. Qed.

Lemma inv_mod neg x c : 0 < c -> inv neg (x mod c) mod c = inv neg x mod c.
Proof.
  intros. destruct neg; cbn; [|apply Z.mod_mod; lia].
  rewrite Zminus_mod, Z.mod_mod, <- Zminus_mod by lia. done.
Qed.

Lemma be_inv_mod n neg x : be n (inv neg (x mod 256 ^ Z.of_nat n)) = be n (inv neg x).
Proof. apply be_congr, inv_mod, pow256. Qed.

(** Two numbers in one. *)
Lemma be_inv_app n m neg a b : 0 <= b < 256 ^ Z.of_nat m ->
  be (n + m) (inv neg (a * 256 ^ Z.of_nat m + b)) = be n (inv neg a) ++ be m (inv neg b).
Proof.
  intros B. rewrite be_app, inv_div by lia. rewrite Z.div_add_l, (Z.div_small b), Z.add_0_r by lia.
  f_equal. rewrite <- be_inv_mod. by rewrite Z.add_comm, Z.mod_add, Z.mod_small by lia.
Qed.

(** A byte more in front of a number that does not need it. *)
Lemma be_more n neg x : 0 <= x < 256 ^ Z.of_nat n -> be (S n) (inv neg x) = u8 (mask_of neg) :: be n (inv neg x).
Proof.
  intros X. cbn [be]. rewrite inv_div by lia. rewrite Z.div_small by lia. by destruct neg.
Qed.

(** ** Stores *)

Lemma byte_of x k : 0 <= k <= 3 -> u8 (u32 x ≫ (8 * k)) = (x / 256 ^ k) mod 256.
Proof.
  intros K. rewrite Z.shiftr_div_pow2 by lia. unfold uwrap.
  replace (256 ^ k) with (2 ^ (8 * k)) by (rewrite Z.pow_mul_r by lia; done).
  assert (k = 0 \/ k = 1 \/ k = 2 \/ k = 3) as [-> | [-> | [-> | ->]]] by lia; cbn [Z.mul Z.pow Z.pow_pos Pos.iter Pos.mul]; Zlia.
Qed.

Lemma store_mid (dn l rest : list Z) k v : 0 <= k < Z.of_nat (length l) ->
  store (dn ++ l ++ rest) (Z.of_nat (length dn) + k) v = Some (dn ++ <[Z.to_nat k := v]> l ++ rest).
Proof.
  intros K. rewrite store_in by (rewrite !length_app; lia). f_equal.
  rewrite insert_app_r_alt by lia. f_equal.
  replace (Z.to_nat (Z.of_nat (length dn) + k) - length dn)%nat with (Z.to_nat k) by lia.
  by rewrite insert_app_l by lia.
Qed.

Lemma store_mid_0 (dn l rest : list Z) v : l <> [] ->
  store (dn ++ l ++ rest) (Z.of_nat (length dn)) v = Some (dn ++ <[0%nat := v]> l ++ rest).
Proof.
  intros L. rewrite <- (Z.add_0_r (Z.of_nat (length dn))). apply store_mid. destruct l; [done|cbn; lia].
Qed.

(** A store of [i] bytes. *)
Lemma mi_store_bytes i dn old rest x : 1 <= i <= 4 -> Z.of_nat (length old) = i ->
  mi_store i (dn ++ old ++ rest) (Z.of_nat (length dn)) x = Some (dn ++ be (Z.to_nat i) x ++ rest).
Proof.
  intros I L. pose proof (byte_of x) as B.
  pose proof (B 0 ltac:(lia)) as B0. pose proof (B 1 ltac:(lia)) as B1.
  pose proof (B 2 ltac:(lia)) as B2. pose proof (B 3 ltac:(lia)) as B3.
  change (8 * 0) with 0 in B0. change (8 * 1) with 8 in B1. change (8 * 2) with 16 in B2. change (8 * 3) with 24 in B3.
  rewrite Z.shiftr_0_r in B0.
  assert (i = 1 \/ i = 2 \/ i = 3 \/ i = 4) as [-> | [-> | [-> | ->]]] by lia;
    unfold mi_store; bdec; unfold mi_int1store, mi_int2store, mi_int3store, mi_int4store.
  - destruct old as [|a [|]]; cbn in L; try lia. rewrite store_mid_0 by done.
    change (be (Z.to_nat 1) x) with [(x / 256 ^ 0) mod 256]. rewrite <- B0. cbn. do 3 f_equal. unfold uwrap. Zlia.
  - destruct old as [|a [|b [|]]]; cbn in L; try lia.
    rewrite store_mid by (rewrite ?length_insert; cbn; lia). cbn [mbind option_bind]. rewrite store_mid_0 by done.
    rewrite B0, B1. done.
  - destruct old as [|a [|b [|c [|]]]]; cbn in L; try lia.
    rewrite store_mid by (rewrite ?length_insert; cbn; lia). cbn [mbind option_bind].
    rewrite store_mid by (rewrite ?length_insert; cbn; lia). cbn [mbind option_bind]. rewrite store_mid_0 by done.
    rewrite B0, B1, B2. done.
  - destruct old as [|a [|b [|c [|d [|]]]]]; cbn in L; try lia.
    rewrite store_mid by (rewrite ?length_insert; cbn; lia). cbn [mbind option_bind].
    rewrite store_mid by (rewrite ?length_insert; cbn; lia). cbn [mbind option_bind].
    rewrite store_mid by (rewrite ?length_insert; cbn; lia). cbn [mbind option_bind]. rewrite store_mid_0 by done.
    rewrite B0, B1, B2, B3. done.
Qed.

(** What is left of a buffer. *)
Lemma split_bytes {A} (rest : list A) n : (n <= length rest)%nat ->
  exists old, length old = n /\ rest = old ++ drop n rest.
Proof. intros L. exists (take n rest). rewrite take_drop, length_take. split; [lia|done]. Qed.

Lemma mi_store_next i dn rest x : 1 <= i <= 4 -> i <= Z.of_nat (length rest) ->
  mi_store i (dn ++ rest) (Z.of_nat (length dn)) x =
  Some ((dn ++ be (Z.to_nat i) x) ++ drop (Z.to_nat i) rest).
Proof.
  intros I L. destruct (split_bytes rest (Z.to_nat i)) as (old & Lo & E); [lia|].
  rewrite E at 1. rewrite mi_store_bytes by lia. by rewrite <- app_assoc.
Qed.

(** A loop that writes one piece after the other. *)
Fixpoint pieces (n : nat) (i : Z) (bs : Z -> list Z) : list Z :=
  match n with O => [] | S n => bs i ++ pieces n (i + 1) bs end.

Lemma length_pieces n bs sz : forall i, (forall k, length (bs k) = sz) -> length (pieces n i bs) = (n * sz)%nat.
Proof.
  induction n as [|n IH]; intros i S; [done|]. cbn [pieces]. rewrite length_app, S, (IH (i + 1) S). lia.
Qed.

Lemma loop_pieces (sz : nat) (bs : Z -> list Z) body p n : forall i dn rest,
  (forall k dn rest, i <= k < i + Z.of_nat n -> (sz <= length rest)%nat ->
     Z.of_nat (length dn) = p + Z.of_nat sz * k -> body k (dn ++ rest) = Some ((dn ++ bs k) ++ drop sz rest)) ->
  (forall k, length (bs k) = sz) -> Z.of_nat (length dn) = p + Z.of_nat sz * i -> (n * sz <= length rest)%nat ->
  for_up n i body (dn ++ rest) = Some ((dn ++ pieces n i bs) ++ drop (n * sz) rest).
Proof.
  induction n as [|n IH]; intros i dn rest B S P L; cbn [for_up pieces].
  - by rewrite app_nil_r.
  - rewrite B by (done || lia). cbn [mbind option_bind]. rewrite IH.
    + by rewrite drop_drop, <- !app_assoc.
    + intros k dn' rest' K. apply B. lia.
    + done.
    + rewrite length_app, S. lia.
    + rewrite length_drop. lia.
Qed.

Lemma fill_bytes_next n dn rest neg : 0 <= n <= Z.of_nat (length rest) ->
  fill_bytes n (Z.of_nat (length dn)) (mask_of neg) (dn ++ rest) =
  Some ((dn ++ replicate (Z.to_nat n) (u8 (mask_of neg))) ++ drop (Z.to_nat n) rest).
Proof.
  intros N. unfold fill_bytes. rewrite (loop_pieces 1 (fun _ => [u8 (mask_of neg)]) _ (Z.of_nat (length dn))).
  - rewrite Nat.mul_1_r. do 3 f_equal. generalize 0. induction (Z.to_nat n) as [|m IH]; intros i; [done|].
    cbn [pieces replicate app]. by rewrite IH.
  - intros k dn' [|x rest'] K L P; [cbn in L; lia|].
    replace (Z.of_nat (length dn) + k) with (Z.of_nat (length dn')) by lia.
    rewrite store_next. cbn [drop]. by rewrite <- app_assoc.
  - done.
  - lia.
  - lia.
Qed.

(** The loop over whole words, for the words [f 0], [f 1], ... *)
Lemma store_words_next n b1 buf1 f dn rest neg : 0 <= n -> 4 * n <= Z.of_nat (length rest) ->
  (forall k, 0 <= k < n -> load b1 (buf1 + k) = Some (f k)) ->
  store_words n b1 buf1 (Z.of_nat (length dn)) (mask_of neg) (dn ++ rest) =
  Some ((dn ++ pieces (Z.to_nat n) 0 (fun k => be 4 (inv neg (f k)))) ++ drop (Z.to_nat (4 * n)) rest).
Proof.
  intros N L F. unfold store_words.
  rewrite (loop_pieces 4 (fun k => be 4 (inv neg (f k))) _ (Z.of_nat (length dn))).
  - do 3 f_equal. lia.
  - intros k dn' rest' K L' P. rewrite F by lia. cbn [mbind option_bind]. rewrite lxor_inv.
    replace (Z.of_nat (length dn) + 4 * k) with (Z.of_nat (length dn')) by lia.
    pose proof (mi_store_next 4 dn' rest' (inv neg (f k)) ltac:(lia) ltac:(lia)) as E.
    unfold mi_store in E. rewrite !bool_decide_false, bool_decide_true in E by lia. exact E.
  - intros k. apply length_be.
  - lia.
  - lia.
Qed.

(** ** Loads *)

Lemma byte_range x k : 0 <= (x / 256 ^ k) mod 256 < 256.
Proof. apply Z.mod_pos_bound. lia. Qed.

Lemma load_mid (dn l rest : list Z) k v : load l k = Some v -> load (dn ++ l ++ rest) (Z.of_nat (length dn) + k) = Some v.
Proof. intros L. pose proof (load_bounds _ _ _ L). by rewrite load_app. Qed.

Lemma load_mid_0 (dn l rest : list Z) v : load l 0 = Some v -> load (dn ++ l ++ rest) (Z.of_nat (length dn)) = Some v.
Proof. intros L. rewrite <- (Z.add_0_r (Z.of_nat (length dn))). by apply load_mid. Qed.

Lemma land_128 x : 0 <= x < 256 -> x &&& 128 = if decide (128 <= x) then 128 else 0.
Proof.
  intros X. change 128 with (2 ^ 7) at 1. rewrite land_pow2 by lia.
  destruct (decide (128 <= x)) as [H|H].
  - assert (Z.testbit x 7 = true) as ->; [|done]. apply Z.testbit_true; [lia|]. Zlia.
  - assert (Z.testbit x 7 = false) as ->; [|done]. apply Z.testbit_false; [lia|]. Zlia.
Qed.

Lemma join_low_bytes a b c : 0 <= b < 256 -> 0 <= c < 256 ->
  ((a ≪ 16) ||| (b ≪ 8)) ||| c = a * 65536 + b * 256 + c.
Proof.
  intros B C. replace (a ≪ 16) with ((a ≪ 8) ≪ 8) by (rewrite Z.shiftl_shiftl by lia; done).
  rewrite <- Z.shiftl_lor, (lor_shift_add a b 8), lor_shift_add by lia. lia.
Qed.

Lemma join_ones a b c : 0 <= a < 256 -> 0 <= b < 256 -> 0 <= c < 256 ->
  (((255 ≪ 24) ||| (a ≪ 16)) ||| (b ≪ 8)) ||| c = 255 * 16777216 + a * 65536 + b * 256 + c.
Proof.
  intros A B C. replace (255 ≪ 24) with ((255 ≪ 8) ≪ 16) by (rewrite Z.shiftl_shiftl by lia; done).
  rewrite <- Z.shiftl_lor, (lor_shift_add 255 a 8), join_low_bytes by lia. lia.
Qed.

(** A load of [i] bytes gives back a number that fits. *)
Lemma mi_korr_bytes i dn rest x : 1 <= i <= 4 -> - 2 ^ (8 * i - 1) <= x < 2 ^ (8 * i - 1) ->
  mi_korr i (dn ++ be (Z.to_nat i) x ++ rest) (Z.of_nat (length dn)) = Some x.
Proof.
  intros I X. assert (i = 1 \/ i = 2 \/ i = 3 \/ i = 4) as [-> | [-> | [-> | ->]]] by lia;
    unfold mi_korr; bdec;
    unfold mi_sint1korr, mi_sint2korr, mi_sint3korr, mi_sint4korr;
    set (l := be _ x); pose proof (byte_range x 0); pose proof (byte_range x 1);
    pose proof (byte_range x 2);
    rewrite (load_mid_0 dn l rest _ eq_refl); cbn [mbind option_bind];
    rewrite ?(load_mid dn l rest 1 _ eq_refl); cbn [mbind option_bind];
    rewrite ?(load_mid dn l rest 2 _ eq_refl); cbn [mbind option_bind];
    rewrite ?(load_mid dn l rest 3 _ eq_refl); cbn [mbind option_bind]; f_equal; clear l I;
    change (256 ^ Z.of_nat 0) with 1; change (256 ^ Z.of_nat 1) with 256;
    change (256 ^ Z.of_nat 2) with 65536; change (256 ^ Z.of_nat 3) with 16777216;
    change (256 ^ 0) with 1 in *; change (256 ^ 1) with 256 in *; change (256 ^ 2) with 65536 in *.
  - change (2 ^ (8 * 1 - 1)) with 128 in X. unfold swrap. change (2 ^ 8) with 256. change (2 ^ (8 - 1)) with 128. Zlia.
  - change (2 ^ (8 * 2 - 1)) with 32768 in X. rewrite Z.shiftl_mul_pow2 by lia. unfold swrap.
    change (2 ^ 8) with 256. change (2 ^ (8 - 1)) with 128. change (2 ^ 16) with 65536. change (2 ^ (16 - 1)) with 32768. Zlia.
  - change (2 ^ (8 * 3 - 1)) with 8388608 in X. rewrite land_128 by done.
    destruct (decide _) as [D|D]; bdec; [rewrite join_ones by done|rewrite join_low_bytes by done]; unfold swrap;
      change (2 ^ 32) with 4294967296; change (2 ^ (32 - 1)) with 2147483648; Zlia.
  - change (2 ^ (8 * 4 - 1)) with 2147483648 in X. rewrite !Z.shiftl_mul_pow2 by lia. unfold swrap.
    change (2 ^ 8) with 256. change (2 ^ (8 - 1)) with 128. change (2 ^ 16) with 65536. change (2 ^ 24) with 16777216.
    change (2 ^ 32) with 4294967296. change (2 ^ (32 - 1)) with 2147483648. Zlia.
Qed.

(** ** The format *)

(** The bytes for [k] digits, and for [n] digits in whole and partial words. *)
Definition d2b (k : Z) : Z := at_ dig2bytes k.
Definition size_of (n : Z) : Z := 4 * (n / 9) + d2b (n mod 9).

Ltac small k := assert (k = 0 \/ k = 1 \/ k = 2 \/ k = 3 \/ k = 4 \/ k = 5 \/ k = 6 \/ k = 7 \/ k = 8) by lia;
  repeat match goal with H : _ \/ _ |- _ => destruct H as [H|H]; [subst k|] end; try subst k.

Lemma d2b_range k : 0 <= k < 9 -> 0 <= d2b k <= 4 /\ (0 < k -> 1 <= d2b k) /\ 10 ^ k * 2 <= 256 ^ d2b k + 1.
Proof. intros K. small k; vm_compute; intuition discriminate. Qed.

Lemma load_d2b k : 0 <= k < 9 -> load dig2bytes k = Some (d2b k).
Proof. intros K. small k; done. Qed.

Lemma load_power k : 0 <= k <= 9 -> load powers10 k = Some (10 ^ k).
Proof. intros K. assert (k = 9 \/ 0 <= k < 9) as [-> |] by lia; [done|]. small k; done. Qed.

Lemma size_nonneg n : 0 <= n -> 0 <= size_of n.
Proof. intros N. unfold size_of. pose proof (d2b_range (n mod 9) ltac:(Zlia)). Zlia. Qed.

Lemma size_mono n m : 0 <= n <= m -> size_of n <= size_of m.
Proof.
  intros N. unfold size_of. assert (0 <= n mod 9 < 9) by Zlia. assert (0 <= m mod 9 < 9) by Zlia.
  destruct (decide (n / 9 = m / 9)) as [E|E].
  - rewrite E. assert (n mod 9 <= m mod 9) by Zlia. clear E. generalize dependent (n mod 9). generalize dependent (m mod 9).
    intros j J k K L. enough (d2b k <= d2b j) by lia. small j; small k; vm_compute; try discriminate; lia.
  - assert (n / 9 < m / 9) by Zlia. pose proof (d2b_range (n mod 9) ltac:(lia)). pose proof (d2b_range (m mod 9) ltac:(lia)). lia.
Qed.

Lemma pieces_app n m bs : forall i, pieces (n + m) i bs = pieces n i bs ++ pieces m (i + Z.of_nat n) bs.
Proof.
  induction n as [|n IH]; intros i; cbn [pieces Nat.add app]; [by rewrite Z.add_0_r|].
  rewrite IH, <- app_assoc. do 3 f_equal. lia.
Qed.

Lemma pieces_shift bs cs n : forall i j, (forall k, 0 <= k < Z.of_nat n -> bs (i + k) = cs (j + k)) ->
  pieces n i bs = pieces n j cs.
Proof.
  induction n as [|n IH]; intros i j H; cbn [pieces]; [done|]. f_equal.
  - specialize (H 0). rewrite !Z.add_0_r in H. apply H. lia.
  - apply IH. intros k K. replace (i + 1 + k) with (i + (k + 1)) by lia. replace (j + 1 + k) with (j + (k + 1)) by lia.
    apply H. lia.
Qed.

Lemma more_digits_up a b : 0 < a <= b -> b < 9 -> d2b a = d2b b -> more_digits 9 a b (d2b a) = Some b.
Proof.
  intros A B. small b; small a; try lia; try (vm_compute; discriminate); intros _; reflexivity.
Qed.

Lemma more_digits_nine a : 0 < a < 9 -> d2b a = 4 -> more_digits 9 a 9 (d2b a) = Some 9.
Proof. intros A. small a; try lia; try (vm_compute; discriminate); intros _; reflexivity. Qed.

Section Words.
Context (neg : bool) (wd : Z -> Z).

(** The words [e], [e - 1], ..., [n] of them. *)
Definition word_bytes (e n : Z) : list Z := pieces (Z.to_nat n) 0 (fun k => be 4 (inv neg (wd (e - k)))).

Definition int_bytes (n : Z) : list Z :=
  be (Z.to_nat (d2b (n mod 9))) (inv neg (wd (n / 9) mod 10 ^ (n mod 9))) ++ word_bytes (n / 9 - 1) (n / 9).

Definition frac_bytes (n : Z) : list Z :=
  word_bytes (-1) (n / 9) ++
  be (Z.to_nat (d2b (n mod 9))) (inv neg (wd (- (n / 9) - 1) / 10 ^ (9 - n mod 9))).

Lemma word_bytes_app e n m : 0 <= n -> 0 <= m -> word_bytes e (n + m) = word_bytes e n ++ word_bytes (e - n) m.
Proof.
  intros N M. unfold word_bytes. rewrite Z2Nat.inj_add, pieces_app by done. f_equal.
  apply pieces_shift. intros k K. do 2 f_equal. f_equal. lia.
Qed.

Lemma word_bytes_one e : word_bytes e 1 = be 4 (inv neg (wd e)).
Proof. unfold word_bytes. change (Z.to_nat 1) with 1%nat. cbn [pieces]. by rewrite app_nil_r, Z.sub_0_r. Qed.

Lemma length_word_bytes e n : 0 <= n -> Z.of_nat (length (word_bytes e n)) = 4 * n.
Proof. intros N. unfold word_bytes. rewrite (length_pieces _ _ 4); [lia|]. intros; apply length_be. Qed.

Lemma length_int_bytes n : 0 <= n -> Z.of_nat (length (int_bytes n)) = size_of n.
Proof.
  intros N. unfold int_bytes, size_of. pose proof (d2b_range (n mod 9) ltac:(Zlia)).
  rewrite length_app, length_be, Nat2Z.inj_add, length_word_bytes by Zlia. lia.
Qed.

Lemma length_frac_bytes n : 0 <= n -> Z.of_nat (length (frac_bytes n)) = size_of n.
Proof.
  intros N. unfold frac_bytes, size_of. pose proof (d2b_range (n mod 9) ltac:(Zlia)).
  rewrite length_app, length_be, Nat2Z.inj_add, length_word_bytes by Zlia. lia.
Qed.

(** *** Digits that are not there *)

Definition blank : Z := u8 (mask_of neg).

(** There are at most [n] digits in front of the point. *)
Definition at_most (n : Z) : Prop := 0 <= wd (n / 9) < 10 ^ (n mod 9) /\ forall e, n / 9 < e -> wd e = 0.

Lemma at_most_mono n m : 0 <= n <= m -> at_most n -> at_most m.
Proof.
  intros N (A & Z0). split.
  - destruct (decide (m / 9 = n / 9)) as [E|E].
    + rewrite E. assert (10 ^ (n mod 9) <= 10 ^ (m mod 9)) by (apply Z.pow_le_mono_r; Zlia). lia.
    + rewrite Z0 by Zlia. assert (0 < 10 ^ (m mod 9)) by (apply Z.pow_pos_nonneg; Zlia). lia.
  - intros e E. apply Z0. Zlia.
Qed.

Lemma be_blank n : be n (inv neg 0) = replicate n blank.
Proof. induction n as [|n IH]; [done|]. rewrite be_more by (pose proof (pow256 n); lia). cbn. by rewrite IH. Qed.

Lemma int_bytes_step n : 0 <= n -> at_most n ->
  int_bytes (n + 1) = replicate (Z.to_nat (size_of (n + 1) - size_of n)) blank ++ int_bytes n.
Proof.
  intros N (A & _). unfold int_bytes, size_of. set (q := n / 9) in *.
  destruct (decide (n mod 9 = 8)) as [K|K].
  - assert ((n + 1) / 9 = q + 1) as -> by (unfold q; Zlia). assert ((n + 1) mod 9 = 0) as -> by Zlia.
    rewrite K in *. rewrite (Z.mod_small (wd q)) by lia.
    change (d2b 8) with 4. change (d2b 0) with 0. replace (4 * (q + 1) + 0 - (4 * q + 4)) with 0 by lia.
    cbn [Z.to_nat replicate be app]. replace (q + 1 - 1) with q by lia. rewrite (Z.add_comm q 1).
    rewrite word_bytes_app, word_bytes_one by (unfold q; Zlia). done.
  - assert ((n + 1) / 9 = q) as -> by (unfold q; Zlia). assert ((n + 1) mod 9 = n mod 9 + 1) as -> by Zlia.
    replace (4 * q + d2b (n mod 9 + 1) - (4 * q + d2b (n mod 9))) with (d2b (n mod 9 + 1) - d2b (n mod 9)) by lia.
    rewrite app_assoc. f_equal. remember (n mod 9) as k eqn:Ek. assert (0 <= k < 8) by Zlia.
    assert (10 ^ k <= 10 ^ (k + 1)) by (apply Z.pow_le_mono_r; lia).
    rewrite !(Z.mod_small (wd q)) by lia. clear Ek K. revert A. generalize (wd q). intros x A.
    assert (k = 0 \/ k = 1 \/ k = 2 \/ k = 3 \/ k = 4 \/ k = 5 \/ k = 6 \/ k = 7) as B by lia.
    repeat destruct B as [-> | B]; try subst k; try reflexivity.
    all: match goal with |- be (Z.to_nat (d2b ?a)) _ = _ => let m := eval vm_compute in (Nat.pred (Z.to_nat (d2b a))) in
      change (Z.to_nat (d2b a)) with (S m) end.
    all: rewrite be_more by (cbn in *; lia). all: done.
Qed.
(** Blanks in front of a number that has fewer digits. *)
Lemma int_bytes_pad n m : 0 <= n <= m -> at_most n ->
  int_bytes m = replicate (Z.to_nat (size_of m - size_of n)) blank ++ int_bytes n.
Proof.
  intros N A. replace m with (n + Z.of_nat (Z.to_nat (m - n))) by lia.
  induction (Z.to_nat (m - n)) as [|k IH].
  - rewrite Z.add_0_r, Z.sub_diag. done.
  - rewrite Nat2Z.inj_succ. unfold Z.succ. rewrite Z.add_assoc.
    rewrite int_bytes_step by (lia || (apply (at_most_mono n); lia || done)). rewrite IH, app_assoc. f_equal.
    rewrite <- replicate_add. f_equal.
    pose proof (size_mono n (n + Z.of_nat k) ltac:(lia)). pose proof (size_mono (n + Z.of_nat k) (n + Z.of_nat k + 1) ltac:(lia)).
    lia.
Qed.

(** Blanks behind the last word that is not zero. *)
Lemma word_bytes_blank e n : 0 <= n -> (forall k, 0 <= k < n -> wd (e - k) = 0) ->
  word_bytes e n = replicate (Z.to_nat (4 * n)) blank.
Proof.
  intros N H. replace n with (Z.of_nat (Z.to_nat n)) in * by lia. revert H. induction (Z.to_nat n) as [|m IH]; intros H; [done|].
  rewrite Nat2Z.inj_succ. unfold Z.succ. rewrite word_bytes_app, IH, word_bytes_one by (lia || (intros; apply H; lia)).
  rewrite H by lia. rewrite be_blank. rewrite <- replicate_add. f_equal. lia.
Qed.

Lemma frac_bytes_pad n j : 0 <= j <= n / 9 -> (forall e, e < - j -> wd e = 0) ->
  frac_bytes n = word_bytes (-1) j ++ replicate (Z.to_nat (size_of n - 4 * j)) blank.
Proof.
  intros J H. unfold frac_bytes. replace (n / 9) with (j + (n / 9 - j)) at 1 by lia.
  rewrite word_bytes_app, <- app_assoc by lia. f_equal.
  rewrite word_bytes_blank by (lia || (intros; apply H; lia)). rewrite H by lia.
  rewrite Z.div_0_l by (apply Z.pow_nonzero; Zlia). rewrite be_blank, <- replicate_add. f_equal.
  unfold size_of. pose proof (d2b_range (n mod 9) ltac:(Zlia)). lia.
Qed.

(** *** The fraction part that [decimal2bin] writes *)

Definition frac_tail (frac1 frac1x fx : Z) : list Z :=
  if bool_decide (frac1x <> 0)
  then be (Z.to_nat (d2b frac1x)) (inv neg (wd (- frac1 - 1) / 10 ^ (9 - fx))) else [].

Lemma frac_part f s frac1 frac1x fsize0 cut :
  0 <= f <= s -> (forall e, e < - ROUND_UP f -> wd e = 0) ->
  fit_frac (s / 9) (s mod 9) (size_of s) (f / 9) (f mod 9) (size_of f) = (frac1, frac1x, fsize0, cut) ->
  cut = false /\ 0 <= frac1 <= ROUND_UP f /\ 0 <= frac1x < 9 /\
  exists fx fill, (frac1x <> 0 ->
      more_digits 9 frac1x (if bool_decide (frac1 < s / 9) then DIG_PER_DEC1 else s mod 9) (d2b frac1x) = Some fx /\
      0 < fx <= 9 /\ frac1 < ROUND_UP f) /\
    (if bool_decide (fsize0 > size_of f)
     then Z.min (fsize0 - size_of f) (Z.max 0 (size_of s - (4 * frac1 + (if bool_decide (frac1x <> 0) then d2b frac1x else 0))))
     else 0) = fill /\
    frac_bytes s = (word_bytes (-1) frac1 ++ frac_tail frac1 frac1x fx) ++ replicate (Z.to_nat fill) blank.
Proof.
  intros F H E. rewrite ROUND_UP_div in * by lia.
  pose proof (size_mono f s F) as Sm. pose proof (d2b_range (s mod 9) ltac:(Zlia)) as D0.
  pose proof (d2b_range (f mod 9) ltac:(Zlia)) as D1. unfold size_of in *.
  set (j0 := s / 9) in *. set (k0 := s mod 9) in *. set (j1 := f / 9) in *. set (k1 := f mod 9) in *.
  assert (K0 : 0 <= k0 < 9) by (unfold k0; Zlia). assert (K1 : 0 <= k1 < 9) by (unfold k1; Zlia).
  assert (J : 0 <= j1 <= j0 /\ (j1 = j0 -> k1 <= k0)) by (unfold j0, j1, k0, k1; Zlia).
  assert (R : (f + 8) / 9 = j1 + (if bool_decide (k1 = 0) then 0 else 1)).
  { destruct (bool_decide_reflect (k1 = 0)); unfold j1, k1 in *; Zlia. }
  unfold fit_frac in E. rewrite (bool_decide_false (_ < _)) in E by lia.
  destruct (bool_decide_reflect (4 * j0 + d2b k0 > 4 * j1 + d2b k1)) as [G|G]; cbn [andb] in E.
  - destruct (bool_decide_reflect (k1 <> 0)) as [Z1|Z1].
    + rewrite (bool_decide_false (k1 = 0)) in R by done. destruct (bool_decide_reflect (j0 = j1)) as [Ej|Ej]; injection E as <- <- <- <-.
      * (* the digits of the last word *)
        split_and!; try lia. exists k0, 0. assert (k0 <> 0) by (intros Z0; rewrite Z0, Ej in G; change (d2b 0) with 0 in G; lia).
        rewrite (bool_decide_false (j1 < j0)) by lia. split_and!; [|bdec; done|].
        -- intros _. split_and!; try lia. apply more_digits_up; lia || done.
        -- unfold frac_bytes, frac_tail. fold j0 k0. rewrite bool_decide_true by done. cbn [Z.to_nat replicate]. by rewrite app_nil_r, Ej.
      * split_and!; try lia. exists 0, (4 * j0 + d2b k0 - 4 * (j1 + 1)). bdec. split_and!; [done|lia|].
        unfold frac_tail. bdec. rewrite app_nil_r.
        rewrite (frac_bytes_pad s (j1 + 1)); [done|fold j0; lia|]. intros e L. apply H. lia.
    + assert (k1 = 0) as Z0 by lia. rewrite Z0 in *. rewrite (bool_decide_true (0 = 0)) in R by done. injection E as <- <- <- <-.
      change (d2b 0) with 0 in *. split_and!; try lia. exists 0, (4 * j0 + d2b k0 - 4 * j1). bdec. split_and!; [done|lia|].
      unfold frac_tail. bdec. rewrite app_nil_r. rewrite (frac_bytes_pad s j1); [done|fold j0; lia|]. intros e L. apply H. lia.
  - injection E as <- <- <- <-. assert (Sz : 4 * j0 + d2b k0 = 4 * j1 + d2b k1) by lia.
    destruct (decide (k1 = 0)) as [Z0|Z1].
    + rewrite Z0 in *. rewrite (bool_decide_true (0 = 0)) in R by done. change (d2b 0) with 0 in *.
      assert (j0 = j1) as Ej by lia. assert (k0 = 0) as Ek by lia.
      split_and!; try lia. exists 0, 0. bdec. split_and!; [done|done|].
      unfold frac_tail, frac_bytes. fold j0 k0. rewrite Ek, Ej. bdec. by rewrite !app_nil_r.
    + rewrite (bool_decide_false (k1 = 0)) in R by done. split_and!; try lia.
      rewrite (bool_decide_true (k1 <> 0)), (bool_decide_false (_ > _)) by (done || lia).
      unfold frac_tail. rewrite (bool_decide_true (k1 <> 0)) by done.
      destruct (decide (j0 = j1)) as [Ej|Ej].
      * exists k0, 0. rewrite (bool_decide_false (j1 < j0)) by lia. split_and!; [|done|].
        -- intros _. split_and!; try lia. apply more_digits_up; lia.
        -- unfold frac_bytes. fold j0 k0. cbn [Z.to_nat replicate]. rewrite app_nil_r, Ej. do 3 f_equal. lia.
      * assert (j0 = j1 + 1) as E0 by lia. assert (k0 = 0) as Ek by lia. assert (d2b k1 = 4) as E4 by (rewrite Ek in Sz; change (d2b 0) with 0 in Sz; lia).
        exists 9, 0. rewrite (bool_decide_true (j1 < j0)) by lia. split_and!; [|done|].
        -- intros _. split_and!; try lia. apply more_digits_nine; lia || done.
        -- unfold frac_bytes. fold j0 k0. rewrite E0, Ek, E4. cbn [Z.to_nat replicate]. rewrite !app_nil_r.
           rewrite word_bytes_app, word_bytes_one by lia. f_equal.
           rewrite Z.div_1_r. do 2 f_equal. f_equal. lia.
Qed.
End Words.

(** ** Leading zeroes *)

Section Lead.
Context (d : decimal_t) (Wd : wf d).

(** The digits from word [b] on and those in word [b]. *)
Definition left_at (b : Z) : Z := if decide (b = 0) then intg d else 9 * (iw d - b).
Definition digits_at (b : Z) : Z := if decide (b = 0) then intg d - 9 * (iw d - 1) else 9.

Lemma iw_intg : 0 < intg d -> 9 * (iw d - 1) < intg d <= 9 * iw d.
Proof. intros. unfold iw. rewrite ROUND_UP_div by lia. Zlia. Qed.

Lemma left_step b : 0 <= b < iw d -> left_at b - digits_at b = left_at (b + 1) /\ 0 < digits_at b <= 9 /\ 0 < left_at b.
Proof.
  intros B. assert (0 < intg d).
  { pose proof (wf_intg d Wd). destruct (decide (intg d = 0)) as [E|]; [|lia]. unfold iw in B. rewrite E in B. change (ROUND_UP 0) with 0 in B. lia. }
  pose proof (iw_intg ltac:(done)). unfold left_at, digits_at.
  destruct (decide (b = 0)), (decide (b + 1 = 0)); lia.
Qed.

Lemma left_last b : b = iw d -> left_at b = 0.
Proof.
  intros ->. unfold left_at. destruct (decide (iw d = 0)) as [E|]; [|lia].
  pose proof (wf_intg d Wd). destruct (decide (intg d = 0)) as [|N]; [done|]. pose proof (iw_intg ltac:(lia)). lia.
Qed.

Lemma skip_zero_words_spec n : forall b, (Z.to_nat (iw d - b) <= n)%nat -> 0 <= b <= iw d ->
  exists b', skip_zero_words n (buf d) b (left_at b) (if decide (b < iw d) then digits_at b else Z.rem (intg d - 1) 9 + 1) = Some (b', left_at b') /\
    b <= b' <= iw d /\ (forall j, b <= j < b' -> at_ (buf d) j = 0) /\ (b' < iw d -> at_ (buf d) b' <> 0).
Proof.
  pose proof (wf_fit d Wd). pose proof (wf_len d Wd). pose proof (fw_nonneg d Wd).
  induction n as [|n IH]; intros b N B; cbn [skip_zero_words].
  - exists b. rewrite left_last by lia. cbn [bool_decide]. split_and!; try lia; done.
  - destruct (decide (b < iw d)) as [L|L].
    + destruct (left_step b) as (E & D & P); [lia|]. rewrite bool_decide_true by lia.
      rewrite load_at by lia. cbn [mbind option_bind].
      destruct (bool_decide_reflect (at_ (buf d) b = 0)) as [Z0|Z0].
      * destruct (IH (b + 1)) as (b' & Eb & Bb & Zb & Nb); [lia|lia|].
        assert (Hn : skip_zero_words n (buf d) (b + 1) (left_at (b + 1)) DIG_PER_DEC1 = Some (b', left_at b')).
        { destruct (decide (b + 1 < iw d)) as [L'|L'].
          - unfold digits_at in Eb. rewrite decide_False in Eb by lia. exact Eb.
          - assert (b + 1 = iw d) as Eq by lia. assert (b' = iw d) as -> by lia. rewrite Eq, left_last by done.
            destruct n; reflexivity. }
        rewrite E, Hn. exists b'. split_and!; try lia; try done.
        intros j J. destruct (decide (j = b)) as [->|]; [done|apply Zb; lia].
      * exists b. split_and!; try lia; done.
    + rewrite left_last by lia. exists b. rewrite (left_last b) by lia. split_and!; try lia; done.
Qed.

Lemma skip_zero_digits_spec n : forall x i g, 0 <= i <= 8 -> (Z.to_nat i <= n)%nat -> 1 <= x < 10 ^ (i + 1) ->
  exists i', skip_zero_digits n x i g = Some (g - (i - i')) /\ 0 <= i' <= i /\ 10 ^ i' <= x < 10 ^ (i' + 1).
Proof.
  induction n as [|n IH]; intros x i g I N X; cbn [skip_zero_digits]; rewrite load_power by lia; cbn [mbind option_bind].
  - assert (i = 0) as -> by lia. rewrite bool_decide_false by lia. exists 0. split_and!; try lia. f_equal. lia.
  - destruct (bool_decide_reflect (x < 10 ^ i)) as [L|L].
    + assert (i <> 0) by (intros ->; lia).
      destruct (IH x (i - 1) (g - 1)) as (i' & E & I' & X'); [lia|lia|replace (i - 1 + 1) with i by lia; lia|].
      exists i'. rewrite E. split_and!; try lia. f_equal. lia.
    + exists i. split_and!; try lia. f_equal. lia.
Qed.

Lemma remove_leading_zeroes_spec : canonical d ->
  exists n, remove_leading_zeroes d = Some (iw d - ROUND_UP n, n) /\ 0 <= n <= intg d /\ at_most (word d) n /\
    (0 < n -> 10 ^ ((n - 1) mod 9) <= word d ((n - 1) / 9)).
Proof.
  intros Can. pose proof (wf_fit d Wd). pose proof (wf_len d Wd). pose proof (fw_nonneg d Wd). pose proof (iw_nonneg d Wd).
  pose proof (wf_intg d Wd).
  unfold remove_leading_zeroes.
  destruct (skip_zero_words_spec (length (buf d)) 0) as (b & E & B & Zb & Nb); [lia|lia|].
  assert (Hd : (if decide (0 < iw d) then digits_at 0 else Z.rem (intg d - 1) 9 + 1) = Z.rem (intg d - 1) DIG_PER_DEC1 + 1).
  { destruct (decide (0 < iw d)); [|done]. unfold digits_at. rewrite decide_True by done. unfold DIG_PER_DEC1.
    destruct (decide (intg d = 0)) as [E0|]; [assert (iw d = 0) by (unfold iw; by rewrite E0); lia|].
    pose proof (iw_intg ltac:(lia)). rewrite Z.rem_mod_nonneg by lia. Zlia. }
  rewrite Hd in E. change (left_at 0) with (intg d) in E. rewrite E. cbn [mbind option_bind].
  assert (Above : forall e, iw d - 1 - b < e -> word d e = 0).
  { intros e L. destruct (decide (e < iw d)); [|apply word_out; lia]. rewrite word_at by lia. apply Zb. lia. }
  destruct (decide (b = iw d)) as [Eb|Nb'].
  - rewrite left_last by done. rewrite bool_decide_false by lia. exists 0. change (ROUND_UP 0) with 0.
    split_and!; try lia; [by rewrite Z.sub_0_r, Eb|]. split; [change (0 / 9) with 0; rewrite Above by lia; change (10 ^ (0 mod 9)) with 1; lia|].
    intros e L. apply Above. change (0 / 9) with 0 in L. lia.
  - destruct (left_step b) as (Es & D & P); [lia|]. rewrite bool_decide_true by lia.
    rewrite load_at by lia. cbn [mbind option_bind]. specialize (Nb ltac:(lia)).
    pose proof (wf_words d Wd b ltac:(lia)) as Wr.
    assert (Dg : Z.rem (left_at b - 1) DIG_PER_DEC1 = digits_at b - 1).
    { unfold DIG_PER_DEC1. rewrite Z.rem_mod_nonneg by lia. unfold left_at, digits_at in *.
      destruct (decide (b = 0)); Zlia. }
    assert (Xb : 1 <= at_ (buf d) b < 10 ^ (digits_at b - 1 + 1)).
    { split; [lia|]. replace (digits_at b - 1 + 1) with (digits_at b) by lia. unfold digits_at.
      destruct (decide (b = 0)) as [->|]; [|exact (proj2 Wr)]. apply Can. unfold left_at in P. by rewrite decide_True in P. }
    rewrite Dg. destruct (skip_zero_digits_spec 9 _ (digits_at b - 1) (left_at b) ltac:(lia) ltac:(lia) Xb) as (i' & Ei & I' & X').
    rewrite Ei. cbn [mbind option_bind].
    set (e := iw d - 1 - b). set (n := left_at b - (digits_at b - 1 - i')).
    assert (Ln : left_at b = 9 * e + digits_at b).
    { unfold left_at, digits_at, e in *. destruct (decide (b = 0)); lia. }
    assert (En : n = 9 * e + i' + 1) by (unfold n; lia).
    assert (Ew : word d e = at_ (buf d) b) by (rewrite word_at by (unfold e; lia); f_equal; unfold e; lia).
    assert (El : left_at b <= intg d) by (unfold left_at; destruct (decide (b = 0)); [lia|]; destruct (decide (intg d = 0)) as [E0|]; [assert (iw d = 0) by (unfold iw; by rewrite E0)|pose proof (iw_intg ltac:(lia))]; lia).
    exists n. split_and!; [|lia|lia| |].
    + do 2 f_equal. rewrite ROUND_UP_div by lia. unfold e in En. Zlia.
    + unfold at_most. destruct (decide (i' = 8)) as [E8|N8].
      * assert (n / 9 = e + 1) as -> by Zlia. assert (n mod 9 = 0) as -> by Zlia.
        rewrite Above by (unfold e; lia). split; [change (10 ^ 0) with 1; lia|]. intros e' L. apply Above. unfold e in L. lia.
      * assert (n / 9 = e) as -> by Zlia. assert (n mod 9 = i' + 1) as -> by Zlia.
        rewrite Ew. split; [lia|]. intros e' L. apply Above. unfold e in L. lia.
    + intros _. assert ((n - 1) / 9 = e) as -> by Zlia. assert ((n - 1) mod 9 = i') as -> by Zlia. lia.
Qed.
End Lead.
End DecimalBinProps.

(** * DecimalBinStore: what [decimal2bin] writes *)
Module DecimalBinStore.
Import Decimal DecimalProps DecimalMul DecimalBin DecimalBinProps.

Lemma quot_9 x : 0 <= x -> Z.quot x DIG_PER_DEC1 = x / 9.
Proof. intros. apply Z.quot_div_nonneg; unfold DIG_PER_DEC1; lia. Qed.

Lemma rest_9 x : x - x / 9 * DIG_PER_DEC1 = x mod 9.
Proof. unfold DIG_PER_DEC1. Zlia. Qed.

Lemma ws_ge f n i : (forall k, 0 <= k < Z.of_nat n -> 0 <= f k) -> 0 <= i < Z.of_nat n -> f i * DIG_BASE ^ i <= ws f n.
Proof.
  intros P I. induction n as [|n IH]; [lia|]. cbn [ws]. pose proof (base_pos n).
  assert (0 <= f (Z.of_nat n)) by (apply P; lia).
  destruct (decide (i = Z.of_nat n)) as [->|N].
  - assert (0 <= ws f n); [|lia]. clear - P. induction n as [|n IH]; [done|]. cbn [ws]. pose proof (base_pos n).
    assert (0 <= ws f n) by (apply IH; intros; apply P; lia). specialize (P (Z.of_nat n)). nia.
  - assert (f i * DIG_BASE ^ i <= ws f n) by (apply IH; [intros; apply P; lia|lia]). nia.
Qed.

Section Store.
Context (d : decimal_t) (Wd : wf d) (Cd : canonical d).

Lemma digits_bound n I : 0 <= n <= intg d -> (0 < n -> 10 ^ ((n - 1) mod 9) <= word d ((n - 1) / 9)) ->
  0 <= I -> absval 0 d < 10 ^ I -> n <= I.
Proof.
  intros N T HI A. destruct (decide (n = 0)); [lia|]. specialize (T ltac:(lia)).
  rewrite <- (absval_ws d 0 (iw d) Wd) in A by lia. rewrite Z.add_0_r in A.
  pose proof (iw_nonneg d Wd).
  assert (E : (n - 1) / 9 < iw d) by (pose proof (iw_intg d ltac:(lia)); Zlia).
  pose proof (ws_ge (fun k => word d (k - 0)) (Z.to_nat (iw d)) ((n - 1) / 9)
    ltac:(intros; apply word_range, Wd) ltac:(Zlia)) as G. cbn beta in G. rewrite Z.sub_0_r in G.
  rewrite base_10 in G by Zlia.
  assert (10 ^ (n - 1) <= word d ((n - 1) / 9) * 10 ^ (9 * ((n - 1) / 9))).
  { replace (n - 1) with ((n - 1) mod 9 + 9 * ((n - 1) / 9)) at 1 by Zlia. rewrite Z.pow_add_r by Zlia.
    apply Z.mul_le_mono_nonneg_r; [apply Z.pow_nonneg; lia|done]. }
  enough (n - 1 < I) by lia. apply (Z.pow_lt_mono_r_iff 10); lia.
Qed.

(** The words from the first digit on. *)
Lemma store_number_spec neg n frac1 frac1x fx s dn rest :
  0 <= n <= intg d -> at_most (word d) n -> 0 <= frac1 <= fw d -> 0 <= frac1x < 9 -> 0 <= s ->
  (frac1x <> 0 ->
     more_digits 9 frac1x (if bool_decide (frac1 < s / 9) then DIG_PER_DEC1 else s mod 9) (d2b frac1x) = Some fx /\
     0 < fx <= 9 /\ frac1 < fw d) ->
  let out := int_bytes neg (word d) n ++ word_bytes neg (word d) (-1) frac1 ++ frac_tail neg (word d) frac1 frac1x fx in
  (length out <= length rest)%nat ->
  store_number (buf d) (iw d - ROUND_UP n) (mask_of neg) (n / 9) (n mod 9) frac1 frac1x (s / 9) (s mod 9)
    (Z.of_nat (length dn)) (dn ++ rest) =
  Some (Z.of_nat (length (dn ++ out)), (dn ++ out) ++ drop (length out) rest).
Proof.
  intros N A F Fx S M out L. pose proof (d2b_range (n mod 9) ltac:(Zlia)) as D. pose proof (iw_nonneg d Wd).
  assert (Nw : n / 9 <= iw d /\ (n mod 9 <> 0 -> n / 9 < iw d)).
  { unfold iw. rewrite ROUND_UP_div by lia. Zlia. }
  set (dn1 := dn ++ be (Z.to_nat (d2b (n mod 9))) (inv neg (word d (n / 9) mod 10 ^ (n mod 9)))).
  set (rest1 := drop (Z.to_nat (d2b (n mod 9))) rest).
  assert (Lo : length out = (Z.to_nat (d2b (n mod 9)) + Z.to_nat (4 * (n / 9 + frac1)) + length (frac_tail neg (word d) frac1 frac1x fx))%nat).
  { unfold out, int_bytes. rewrite !length_app, length_be.
    pose proof (length_word_bytes neg (word d) (n / 9 - 1) (n / 9) ltac:(Zlia)).
    pose proof (length_word_bytes neg (word d) (-1) frac1 ltac:(lia)). lia. }
  unfold store_number.
  assert (Head : (if bool_decide (n mod 9 <> 0)
     then i ← load dig2bytes (n mod 9); w ← load powers10 (n mod 9); x ← load (buf d) (iw d - ROUND_UP n);
          to ← mi_store i (dn ++ rest) (Z.of_nat (length dn)) (Z.lxor (Z.rem x w) (mask_of neg));
          Some (Z.of_nat (length dn) + i, iw d - ROUND_UP n + 1, to)
     else Some (Z.of_nat (length dn), iw d - ROUND_UP n, dn ++ rest)) =
     Some (Z.of_nat (length dn1), iw d - n / 9, dn1 ++ rest1)).
  { rewrite ROUND_UP_div by lia. destruct (bool_decide_reflect (n mod 9 <> 0)) as [K|K].
    - rewrite load_d2b, load_power by Zlia. cbn [mbind option_bind].
      replace (iw d - (n + 8) / 9) with (iw d - 1 - n / 9) by Zlia.
      rewrite load_word by (done || pose proof (fw_nonneg d Wd); Zlia). cbn [mbind option_bind].
      rewrite lxor_inv. pose proof (word_range d (n / 9) Wd).
      assert (0 < 10 ^ (n mod 9)) by (apply Z.pow_pos_nonneg; Zlia).
      rewrite Z.rem_mod_nonneg by lia. rewrite mi_store_next by (lia || Zlia). cbn [mbind option_bind].
      do 3 f_equal; [|Zlia]. unfold dn1. rewrite length_app, length_be. lia.
    - unfold dn1, rest1. assert (n mod 9 = 0) as E by lia. rewrite E. change (d2b 0) with 0. cbn [Z.to_nat be drop].
      rewrite app_nil_r. do 3 f_equal. Zlia. }
  rewrite Head. cbn [mbind option_bind]. rewrite Z.max_r by Zlia.
  assert (Lr : length rest1 = (length rest - Z.to_nat (d2b (n mod 9)))%nat) by (unfold rest1; by rewrite length_drop).
  rewrite (store_words_next _ _ _ (fun k => word d (n / 9 - 1 - k))).
  2: Zlia. 2: lia.
  2:{ intros k K. replace (iw d - n / 9 + k) with (iw d - 1 - (n / 9 - 1 - k)) by lia. apply load_word; [done|]. Zlia. }
  cbn [mbind option_bind].
  change (pieces (Z.to_nat (n / 9 + frac1)) 0 (fun k => be 4 (inv neg (word d (n / 9 - 1 - k)))))
    with (word_bytes neg (word d) (n / 9 - 1) (n / 9 + frac1)).
  rewrite word_bytes_app by Zlia. replace (n / 9 - 1 - n / 9) with (-1) by lia.
  set (dn2 := dn1 ++ _ ++ _). set (rest2 := drop _ rest1).
  assert (E2 : dn2 = dn ++ int_bytes neg (word d) n ++ word_bytes neg (word d) (-1) frac1).
  { unfold dn2, dn1, int_bytes. by rewrite <- !app_assoc. }
  assert (P2 : Z.of_nat (length dn1) + 4 * (n / 9 + frac1) = Z.of_nat (length dn2)).
  { unfold dn2. rewrite !length_app, !Nat2Z.inj_add, !length_word_bytes by Zlia. lia. }
  rewrite P2. unfold out, frac_tail in *.
  destruct (bool_decide_reflect (frac1x <> 0)) as [K|K].
  - destruct (M K) as (Mo & Fr & Lt). rewrite load_d2b by lia. cbn [mbind option_bind]. rewrite Mo. cbn [mbind option_bind].
    rewrite load_power by (unfold DIG_PER_DEC1; lia). cbn [mbind option_bind].
    replace (iw d - n / 9 + (n / 9 + frac1)) with (iw d - 1 - (- frac1 - 1)) by lia.
    rewrite load_word by (done || lia). cbn [mbind option_bind]. rewrite lxor_inv.
    assert (0 < 10 ^ (DIG_PER_DEC1 - fx)) by (apply Z.pow_pos_nonneg; unfold DIG_PER_DEC1; lia).
    pose proof (word_range d (- frac1 - 1) Wd). rewrite Z.quot_div_nonneg by lia.
    pose proof (d2b_range frac1x Fx) as D1.
    assert (L2 : d2b frac1x <= Z.of_nat (length rest2)).
    { unfold rest2. rewrite length_drop. rewrite length_be in Lo. lia. }
    rewrite mi_store_next by lia. cbn [mbind option_bind]. change DIG_PER_DEC1 with 9. rewrite E2. do 2 f_equal.
    + rewrite !length_app, !length_be. lia.
    + rewrite <- !app_assoc. do 4 f_equal. unfold rest2, rest1. rewrite !drop_drop. f_equal. rewrite length_be in Lo. lia.
  - rewrite E2, app_nil_r in *. do 2 f_equal. f_equal. unfold rest2, rest1. rewrite drop_drop. f_equal. cbn [length] in Lo. lia.
Qed.

(** ** The whole number *)

Definition negative : bool := bool_decide (sign d <> 0).

(** The bytes before the first bit is inverted. *)
Definition packed (precision scale : Z) : list Z :=
  int_bytes negative (word d) (precision - scale) ++ frac_bytes negative (word d) scale.

(** The first bit of a block of bytes inverted. *)
Definition flip (l : list Z) : list Z := match l with [] => [] | x :: l => Z.lxor x 0x80 :: l end.

Lemma length_packed p s : 0 <= s <= p -> Z.of_nat (length (packed p s)) = size_of (p - s) + size_of s.
Proof.
  intros S. unfold packed. rewrite length_app, Nat2Z.inj_add, length_int_bytes, length_frac_bytes by lia. done.
Qed.

Lemma size_positive n : 0 < n -> 0 < size_of n.
Proof.
  intros N. unfold size_of. pose proof (d2b_range (n mod 9) ltac:(Zlia)) as (D & D1 & _).
  destruct (decide (n mod 9 = 0)); [Zlia|]. specialize (D1 ltac:(Zlia)). Zlia.
Qed.

Lemma frac_words : fw d = ROUND_UP (frac d).
Proof. done. Qed.

(** The special case of an empty number, which has no word to read. *)
Lemma store_number_empty b buf1 mask frac0 frac0x p to :
  store_number b buf1 mask 0 0 0 0 frac0 frac0x p to = Some (p, to).
Proof.
  unfold store_number, store_words. rewrite !(bool_decide_false (0 <> 0)) by lia. cbn [mbind option_bind].
  change (Z.max 0 (0 + 0)) with 0. change (4 * 0) with 0. by rewrite Z.add_0_r.
Qed.

(** What the call of [store_number] writes behind the blanks. *)
Definition stores (b1 : list Z) (buf1 n s : Z) : Prop :=
  forall frac1 frac1x fx dn rest,
  0 <= frac1 <= fw d -> 0 <= frac1x < 9 ->
  (frac1x <> 0 ->
     more_digits 9 frac1x (if bool_decide (frac1 < s / 9) then DIG_PER_DEC1 else s mod 9) (d2b frac1x) = Some fx /\
     0 < fx <= 9 /\ frac1 < fw d) ->
  let out := int_bytes negative (word d) n ++ word_bytes negative (word d) (-1) frac1 ++
             frac_tail negative (word d) frac1 frac1x fx in
  (length out <= length rest)%nat ->
  store_number b1 buf1 (mask_of negative) (n / 9) (n mod 9) frac1 frac1x (s / 9) (s mod 9)
    (Z.of_nat (length dn)) (dn ++ rest) =
  Some (Z.of_nat (length (dn ++ out)), (dn ++ out) ++ drop (length out) rest).

Lemma length_tail frac1 frac1x fx : 0 <= frac1 -> 0 <= frac1x < 9 ->
  Z.of_nat (length (word_bytes negative (word d) (-1) frac1 ++ frac_tail negative (word d) frac1 frac1x fx)) =
  4 * frac1 + (if bool_decide (frac1x <> 0) then d2b frac1x else 0).
Proof.
  intros F X. rewrite length_app, Nat2Z.inj_add, length_word_bytes by lia. unfold frac_tail.
  pose proof (d2b_range frac1x X). destruct (bool_decide _); cbn [length]; rewrite ?length_be; lia.
Qed.

(** Behind the blanks in front: the number and the blanks behind it. *)
Lemma store_rest b1 buf1 n s dn rest :
  0 <= n -> 0 <= frac d <= s -> stores b1 buf1 n s ->
  let out := int_bytes negative (word d) n ++ frac_bytes negative (word d) s in
  (length out <= length rest)%nat ->
  (let '(frac1, frac1x, fsize0, cut) :=
     fit_frac (s / 9) (s mod 9) (size_of s) (frac d / 9) (frac d mod 9) (size_of (frac d)) in
   '(p, to) ← store_number b1 buf1 (mask_of negative) (n / 9) (n mod 9) frac1 frac1x (s / 9) (s mod 9)
                (Z.of_nat (length dn)) (dn ++ rest);
   to ← (if bool_decide (fsize0 > size_of (frac d))
         then fill_bytes (Z.min (fsize0 - size_of (frac d))
                            (Z.max 0 (Z.of_nat (length dn) + size_of n + size_of s - p))) p (mask_of negative) to
         else Some to);
   Some (cut, to)) = Some (false, (dn ++ out) ++ drop (length out) rest).
Proof.
  intros N F St out L.
  destruct (fit_frac _ _ _ _ _ _) as [[[frac1 frac1x] fsize0] cut] eqn:Fit.
  destruct (frac_part negative (word d) (frac d) s frac1 frac1x fsize0 cut F) as (-> & Fr & Fx & fx & fill & Mo & Fl & E); [|done|].
  { intros e H. apply word_out. unfold fw. lia. }
  pose proof (length_tail frac1 frac1x fx ltac:(lia) Fx) as Lt. pose proof (length_frac_bytes negative (word d) s ltac:(lia)) as Lf.
  rewrite E in Lf. pose proof (length_int_bytes negative (word d) n N) as Li.
  rewrite !length_app, length_replicate in Lf. rewrite length_app in Lt.
  unfold out in *. rewrite E in *. rewrite !length_app, length_replicate in L.
  rewrite (St frac1 frac1x fx) by (done || (rewrite !length_app; lia)). cbn [mbind option_bind].
  set (o1 := int_bytes _ _ n ++ _ ++ _).
  assert (Lo : Z.of_nat (length o1) = size_of n + Z.of_nat (length (word_bytes negative (word d) (-1) frac1)) +
    Z.of_nat (length (frac_tail negative (word d) frac1 frac1x fx))) by (unfold o1; rewrite !length_app; lia).
  assert (Fill : (if bool_decide (fsize0 > size_of (frac d))
    then fill_bytes (Z.min (fsize0 - size_of (frac d))
           (Z.max 0 (Z.of_nat (length dn) + size_of n + size_of s - Z.of_nat (length (dn ++ o1)))))
           (Z.of_nat (length (dn ++ o1))) (mask_of negative) ((dn ++ o1) ++ drop (length o1) rest)
    else Some ((dn ++ o1) ++ drop (length o1) rest)) =
    Some (((dn ++ o1) ++ replicate (Z.to_nat fill) (blank negative)) ++ drop (Z.to_nat fill) (drop (length o1) rest))).
  { destruct (bool_decide_reflect (fsize0 > size_of (frac d))) as [G|G].
    - replace (Z.min _ _) with fill by (rewrite <- Fl, length_app; lia).
      apply fill_bytes_next. rewrite length_drop. lia.
    - rewrite <- Fl. cbn [Z.to_nat replicate]. by rewrite app_nil_r, drop_0. }
  rewrite Fill. cbn [mbind option_bind]. rewrite drop_drop. unfold o1. rewrite <- !app_assoc.
  rewrite !length_app, length_replicate. by rewrite <- !Nat.add_assoc.
Qed.

Lemma empty_number : at_most (word d) 0 -> frac d = 0 -> dval d = 0.
Proof.
  intros (A & B) F. assert (Fw : fw d = 0) by (unfold fw; by rewrite F).
  unfold dval. apply ws_zero. intros k K. rewrite Fw, Z.add_0_r in *. pose proof (iw_nonneg d Wd).
  rewrite Z2Nat.id in K by done. rewrite <- (word_at d k) by lia.
  change (0 / 9) with 0 in *. change (10 ^ (0 mod 9)) with 1 in A.
  destruct (decide (k = 0)) as [->|]; [lia|apply B; lia].
Qed.

Lemma decimal2bin_spec p s to :
  sign d = 0 \/ dval d <> 0 \/ frac d <> 0 -> 0 <= s <= p -> 0 < p -> frac d <= s -> absval 0 d < 10 ^ (p - s) ->
  (length (packed p s) <= length to)%nat ->
  decimal2bin d to p s = Some (E_DEC_OK, flip (packed p s) ++ drop (length (packed p s)) to).
Proof.
  intros Nz S P F A L. pose proof (wf_frac d Wd) as F0.
  destruct (remove_leading_zeroes_spec d Wd Cd) as (n & Rl & N & Am & Top).
  pose proof (digits_bound n (p - s) N Top ltac:(lia) A) as Nle.
  unfold decimal2bin. rewrite !(quot_9 (p - s)), !(quot_9 s), !(quot_9 (frac d)) by lia. rewrite !rest_9.
  rewrite !load_d2b by Zlia. cbn [mbind option_bind]. rewrite Rl. cbn [mbind option_bind].
  assert (forall x, x / 9 * 4 + d2b (x mod 9) = size_of x) as Sz by (intros; unfold size_of; lia).
  rewrite !Sz.
  assert (Start : exists intg' b1 buf1, n <= intg' /\ stores b1 buf1 n s /\
    (if bool_decide (n + size_of (frac d) = 0) then (0, 1, [0], 0)
     else (if bool_decide (sign d <> 0) then -1 else 0, p - s, buf d, iw d - ROUND_UP n)) =
    (mask_of negative, intg', b1, buf1)).
  { destruct (bool_decide_reflect (n + size_of (frac d) = 0)) as [E|E].
    - assert (n = 0) as -> by (pose proof (size_nonneg (frac d) F0); lia).
      assert (Ef : frac d = 0) by (destruct (decide (frac d = 0)); [done|pose proof (size_positive (frac d)); lia]).
      assert (negative = false) as Ng.
      { apply bool_decide_eq_false. pose proof (empty_number Am Ef). lia. }
      exists 1, [0], 0. rewrite Ng. split_and!; [lia| |done]. intros frac1 frac1x fx dn rest Fr Fx Mo out Lo.
      assert (Fw : fw d = 0) by (unfold fw; by rewrite Ef). assert (frac1 = 0) as -> by lia.
      assert (frac1x = 0) as -> by (destruct (decide (frac1x = 0)); [done|destruct Mo as (_ & _ & ?); lia]).
      change (0 / 9) with 0. change (0 mod 9) with 0. rewrite store_number_empty.
      assert (Eo : out = []) by reflexivity. rewrite Eo, !app_nil_r, drop_0. reflexivity.
    - exists (p - s), (buf d), (iw d - ROUND_UP n). split_and!; [lia| |unfold negative; by destruct (bool_decide (sign d <> 0))].
      intros frac1 frac1x fx dn rest Fr Fx Mo out Lo. apply store_number_spec; auto; lia. }
  destruct Start as (intg' & b1 & buf1 & Li & St & ->). rewrite (quot_9 n), !rest_9, load_d2b by Zlia. cbn [mbind option_bind].
  rewrite Sz, bool_decide_false by lia.
  pose proof (size_mono n (p - s) ltac:(lia)) as Sm. pose proof (length_packed p s ltac:(lia)) as Lp.
  pose proof (size_nonneg n ltac:(lia)). pose proof (size_nonneg s ltac:(lia)).
  set (dn := replicate (Z.to_nat (size_of (p - s) - size_of n)) (blank negative)).
  assert (Ld : Z.of_nat (length dn) = size_of (p - s) - size_of n) by (unfold dn; rewrite length_replicate; lia).
  assert (Pad : (if bool_decide (size_of (p - s) > size_of n)
     then to0 ← fill_bytes (size_of (p - s) - size_of n) 0 (mask_of negative) to;
          Some (buf1, n / 9, n mod 9, E_DEC_OK, size_of (p - s) - size_of n, to0)
     else Some (buf1, n / 9, n mod 9, E_DEC_OK, 0, to)) =
     Some (buf1, n / 9, n mod 9, E_DEC_OK, Z.of_nat (length dn), dn ++ drop (length dn) to)).
  { destruct (bool_decide_reflect (size_of (p - s) > size_of n)) as [G|G].
    - pose proof (fill_bytes_next (size_of (p - s) - size_of n) [] to negative) as Fb. cbn [length app] in Fb. change (Z.of_nat 0) with 0 in Fb.
      rewrite Fb by lia. cbn [mbind option_bind]. rewrite Ld. do 2 f_equal. unfold dn. by rewrite length_replicate.
    - assert (dn = []) as -> by (unfold dn; replace (size_of (p - s) - size_of n) with 0 by lia; done). done. }
  rewrite Pad. cbn [mbind option_bind].
  assert (Ep : packed p s = dn ++ int_bytes negative (word d) n ++ frac_bytes negative (word d) s).
  { unfold packed. rewrite (int_bytes_pad negative (word d) n (p - s)) by (done || lia). by rewrite <- app_assoc. }
  pose proof (store_rest b1 buf1 n s dn (drop (length dn) to) ltac:(lia) ltac:(lia) St) as Sr. cbv zeta in Sr.
  rewrite Ep, length_app in L. specialize (Sr ltac:(rewrite length_drop; lia)).
  destruct (fit_frac _ _ _ _ _ _) as [[[frac1 frac1x] fsize0] cut]. 
  destruct (store_number _ _ _ _ _ _ _ _ _ _ _) as [[p1 to1]|]; [|done]. cbn [mbind option_bind] in *.
  replace (size_of s + size_of (p - s) - p1) with (Z.of_nat (length dn) + size_of n + size_of s - p1) by lia.
  destruct (if bool_decide (fsize0 > size_of (frac d)) then _ else _) as [to2|]; [|done]. cbn [mbind option_bind] in *.
  injection Sr as -> ->. rewrite drop_drop, <- Ep. 
  assert (length (packed p s) = length dn + length (int_bytes negative (word d) n ++ frac_bytes negative (word d) s))%nat as <-
    by (by rewrite Ep, length_app).
  assert (0 < size_of p) by (by apply size_positive). 
  destruct (packed p s) as [|x l] eqn:Eq.
  { exfalso. cbn [length] in Lp. pose proof (size_nonneg (p - s) ltac:(lia)). pose proof (size_nonneg s ltac:(lia)).
    destruct (decide (s = 0)) as [->|]; [pose proof (size_positive (p - 0)); lia|pose proof (size_positive s); lia]. }
  cbn [app flip]. reflexivity.
Qed.
End Store.
End DecimalBinStore.
