(* ===== verification/DecimalRound.v ===== *)
(** * DecimalRound: rounding of decimals

    [decimal_round] of [strings/decimal.c], with [decimal_actual_fraction].  The
    result may be the operand itself ([to] is [None]); otherwise the buffers are
    different ones. *)
From stdpp Require Import base tactics option list numbers.
From Stdlib Require Import ZArith Lia.
From S2P Require Import Prelude Decimal.

Module DecimalRound.
Import Decimal.

(** ** Model *)

Inductive decimal_round_mode := TRUNCATE | HALF_EVEN | HALF_UP | CEILING | FLOOR.

Definition DIG_MASK : Z := 100000000.

#[export] Instance decimal_round_mode_eq_dec : EqDecision decimal_round_mode.
Proof. solve_decision. Defined.

Definition round_digit_of (mode : decimal_round_mode) (sign : Z) : Z :=
  match mode with
  | HALF_UP | HALF_EVEN => 5
  | CEILING => if bool_decide (sign <> 0) then 10 else 0
  | FLOOR => if bool_decide (sign <> 0) then 0 else 10
  | TRUNCATE => 10
  end.

(** [while (buf0 < p0) *--p1 = *--p0;], [n] words; [src] is the buffer that is
    read when it is not the one that is written. *)
Fixpoint copy_back (n : nat) (src : option (list Z)) (p0 p1 : Z) (m : list Z) : option (list Z) :=
  match n with
  | O => Some m
  | S n =>
      x ← load (default m src) (p0 - 1);
      m ← store m (p1 - 1) x;
      copy_back n src (p0 - 1) (p1 - 1) m
  end.

(** [n] times [*buf++=0;] from [p] on. *)
Definition zero_words (n p : Z) (m : list Z) : option (list Z) :=
  for_up (Z.to_nat n) 0 (fun k m => store m (p + k) 0) m.

(** [for (; p0 > buf0; p0--) if ( *p0) ...], [n] words. *)
Fixpoint any_word (n : nat) (p0 : Z) (m : list Z) : option bool :=
  match n with
  | O => Some false
  | S n => x ← load m p0; if bool_decide (x <> 0) then Some true else any_word n (p0 - 1) m
  end.

(** The words behind the last one that is kept decide whether it is incremented. *)
Definition do_inc (mode : decimal_round_mode) (round_digit frac0 frac1 intg0 buf0 : Z) (m : list Z) : option bool :=
  if bool_decide (round_digit = 0) then any_word (Z.to_nat (frac1 - frac0)) (buf0 + (frac1 - frac0)) m
  else if bool_decide (round_digit = 5)
  then
    x ← load m (buf0 + 1);
    let x := Z.quot x DIG_MASK in
    if bool_decide (x > 5) then Some true
    else if bool_decide (x = 5)
    then if bool_decide (mode = HALF_UP) then Some true
         else if bool_decide (frac0 + intg0 > 0) then y ← load m buf0; Some (bool_decide (y &&& 1 <> 0))
         else Some false
    else Some false
  else Some false.

(** The last word that is kept, when it is kept whole: the words and [buf1], or
    nothing when the number becomes zero. *)
Definition round_aligned (mode : decimal_round_mode) (round_digit frac0 frac1 intg0 : Z) (m : list Z)
  : option (option (list Z * Z)) :=
  let buf1 := intg0 + frac0 - 1 in
  inc ← do_inc mode round_digit frac0 frac1 intg0 buf1 m;
  if inc : bool
  then
    if bool_decide (frac0 + intg0 > 0)
    then x ← load m buf1; m ← store m buf1 (s32 (x + 1)); Some (Some (m, buf1))
    else m ← store m (buf1 + 1) DIG_BASE; Some (Some (m, buf1 + 1))
  else if bool_decide (frac0 + intg0 = 0) then Some None
  else Some (Some (m, buf1)).

(** The last word when only some of its digits are kept. *)
Definition round_inside (mode : decimal_round_mode) (round_digit scale frac0 intg0 : Z) (m : list Z)
  : option (list Z * Z) :=
  let buf1 := intg0 + frac0 - 1 in
  let pos := frac0 * DIG_PER_DEC1 - scale - 1 in
  w ← load powers10 pos;
  z ← load m buf1;
  let x := Z.quot z w in
  let y := Z.rem x 10 in
  let x := if bool_decide (y > round_digit) ||
              (bool_decide (round_digit = 5) && bool_decide (y = 5) &&
               (bool_decide (mode = HALF_UP) || bool_decide (Z.quot x 10 &&& 1 <> 0)))
           then x + 10 else x in
  m ← store m buf1 (s32 (w * (x - y)));
  Some (m, buf1).

(** [while (carry && --buf1 >= to->buf) ADD( *buf1, *buf1, 0, carry);] *)
Fixpoint carry_on (n : nat) (buf1 carry : Z) (m : list Z) : option (list Z * Z * Z) :=
  if bool_decide (carry <> 0)
  then
    match n with
    | O => Some (m, buf1 - 1, carry)
    | S n =>
        let buf1 := buf1 - 1 in
        x ← load m buf1;
        let '(x, carry) := ADD x 0 carry in
        m ← store m buf1 x;
        carry_on n buf1 carry m
    end
  else Some (m, buf1, carry).

(** [for (;;) { if ( *buf1) break; if (buf1-- == to->buf) ... }]: the word that
    is not zero, if there is one. *)
Fixpoint find_word (n : nat) (buf1 : Z) (m : list Z) : option (option Z) :=
  x ← load m buf1;
  if bool_decide (x <> 0) then Some (Some buf1)
  else match n with O => Some None | S n => find_word n (buf1 - 1) m end.

(** Carries and leading zeroes: [frac0], [scale], [error], [to->intg], [buf1] and
    the words, or nothing when all the words are zero. *)
Definition round_carry (len intg0 frac0 scale error to_intg buf1 : Z) (m : list Z)
  : option (option (Z * Z * Z * Z * Z * list Z)) :=
  x ← load m buf1;
  if bool_decide (x >= DIG_BASE)
  then
    m ← store m buf1 (x - DIG_BASE);
    '(m, buf1, carry) ← carry_on (Z.to_nat buf1) buf1 1 m;
    if bool_decide (carry <> 0)
    then
      let '(frac0, scale, error) :=
        if bool_decide (frac0 + intg0 >= len) then (frac0 - 1, (frac0 - 1) * DIG_PER_DEC1, E_DEC_TRUNCATED)
        else (frac0, scale, error) in
      let n := intg0 + Z.max frac0 0 in
      m ← copy_back (Z.to_nat n) None n (n + 1) m;
      m ← store m 0 1;
      Some (Some (frac0, scale, error, to_intg + 1, 0, m))
    else Some (Some (frac0, scale, error, to_intg, buf1, m))
  else
    b ← find_word (Z.to_nat buf1) buf1 m;
    Some (match b with Some buf1 => Some (frac0, scale, error, to_intg, buf1, m) | None => None end).

(** From the last word that is kept on. *)
Definition round_words (mode : decimal_round_mode) (round_digit scale frac0 frac1 intg0 error : Z) (to : decimal_t)
  : option (Z * decimal_t) :=
  r ← (if bool_decide (scale = frac0 * DIG_PER_DEC1)
       then round_aligned mode round_digit frac0 frac1 intg0 (buf to)
       else mb ← round_inside mode round_digit scale frac0 intg0 (buf to); Some (Some mb));
  match r with
  | None => to ← decimal_make_zero to; Some (E_DEC_OK, to)
  | Some (m, buf1) =>
      m ← (if bool_decide (frac0 < frac1)
           then
             let b := if bool_decide (scale = 0) && bool_decide (intg0 = 0) then 1 else intg0 + frac0 in
             zero_words (len to - b) b m
           else Some m);
      c ← round_carry (len to) intg0 frac0 scale error (intg to) buf1 m;
      match c with
      | None =>
          m ← zero_words (frac0 + 1) 0 m;
          Some (E_DEC_OK, mk_decimal 1 (Z.max scale 0) (len to) 0 m)
      | Some (frac0, scale, error, to_intg, buf1, m) =>
          let first_dig := Z.rem to_intg DIG_PER_DEC1 in
          to_intg ←
            (if bool_decide (first_dig <> 0)
             then w ← load powers10 first_dig; x ← load m buf1;
                  Some (if bool_decide (x >= w) then to_intg + 1 else to_intg)
             else Some to_intg);
          Some (error, mk_decimal to_intg (if bool_decide (scale < 0) then 0 else scale) (len to) (sign to) m)
      end
  end.

Definition decimal_round (from : decimal_t) (to : option decimal_t) (scale : Z) (mode : decimal_round_mode)
  : option (Z * decimal_t) :=
  let dest := default from to in
  let frac0 := if bool_decide (scale > 0) then ROUND_UP scale else Z.quot scale DIG_PER_DEC1 in
  let frac1 := ROUND_UP (frac from) in
  let intg0 := ROUND_UP (intg from) in
  let len := len dest in
  nine ← (if bool_decide (intg0 + frac0 > 0) then x ← load (buf from) 0; Some (bool_decide (x = DIG_MAX)) else Some false);
  let intg1 := ROUND_UP (intg from + Z.b2z nine) in
  let round_digit := round_digit_of mode (sign from) in
  let '(frac0, scale, error) :=
    if bool_decide (frac0 + intg0 > len) then (len - intg0, (len - intg0) * DIG_PER_DEC1, E_DEC_TRUNCATED)
    else (frac0, scale, E_DEC_OK) in
  if bool_decide (scale + intg from < 0)
  then to ← decimal_make_zero dest; Some (E_DEC_OK, to)
  else
    '(intg0, dest) ←
      (if bool_decide (is_Some to) || bool_decide (intg1 > intg0)
       then
         let n := Z.max frac1 frac0 in
         m ← copy_back (Z.to_nat (intg0 + n)) (match to with Some _ => Some (buf from) | None => None end) (intg0 + n) (intg1 + n) (buf dest);
         m ← (if bool_decide (intg1 > intg0) then store m 0 0 else Some m);
         Some (intg1, mk_decimal (Z.min intg1 len * DIG_PER_DEC1) (frac dest) len (sign from) m)
       else Some (intg0, dest));
    if bool_decide (frac0 > frac1)
    then
      m ← zero_words (frac0 - frac1) (intg0 + frac1) (buf dest);
      Some (error, mk_decimal (intg dest) scale len (sign dest) m)
    else if bool_decide (scale >= frac from)
    then Some (error, mk_decimal (intg dest) scale len (sign dest) (buf dest))
    else round_words mode round_digit scale frac0 frac1 intg0 error dest.

(** [while (frac > 0 && *buf0 == 0)], at most [n] words. *)
Fixpoint skip_last_words (n : nat) (b : list Z) (buf0 frac i : Z) : option (Z * Z) :=
  if bool_decide (frac > 0)
  then
    x ← load b buf0;
    if bool_decide (x = 0)
    then match n with O => None | S n => skip_last_words n b (buf0 - 1) (frac - i) DIG_PER_DEC1 end
    else Some (buf0, frac)
  else Some (buf0, frac).

(** [for (i= ...; *buf0 % powers10[i++] == 0; frac--);], at most [n] digits. *)
Fixpoint skip_last_digits (n : nat) (x i frac : Z) : option Z :=
  w ← load powers10 i;
  if bool_decide (Z.rem x w = 0)
  then match n with O => None | S n => skip_last_digits n x (i + 1) (frac - 1) end
  else Some frac.

Definition decimal_actual_fraction (from : decimal_t) : option Z :=
  let frac := Decimal.frac from in
  if bool_decide (frac = 0) then Some 0
  else
    '(buf0, frac) ← skip_last_words (length (buf from)) (buf from) (ROUND_UP (intg from) + ROUND_UP frac - 1) frac
                      (Z.rem (frac - 1) DIG_PER_DEC1 + 1);
    if bool_decide (frac > 0)
    then x ← load (buf from) buf0; skip_last_digits 9 x (DIG_PER_DEC1 - Z.rem (frac - 1) DIG_PER_DEC1) frac
    else Some frac.

End DecimalRound.
