(* ===== verification/DecimalRoundProps.v ===== *)
(** * DecimalRoundProps: the loops of [decimal_round] on lists of words *)
From stdpp Require Import base tactics option list numbers.
From Stdlib Require Import ZArith Lia.
From S2P Require Import Prelude Decimal DecimalProps DecimalRound DecimalMul.

Module DecimalRoundProps.
Import Decimal DecimalDigits DecimalRound.

Definition in_base : Z -> Prop := fun x => 0 <= x < DIG_BASE.

Lemma load_word_next {A} (l : list A) x r : load (l ++ x :: r) (Z.of_nat (length l)) = Some x.
Proof.
  unfold load. rewrite decide_True by lia. rewrite Nat2Z.id. by apply list_lookup_middle.
Qed.

Lemma pow_base_pos n : 0 <= n -> 0 < DIG_BASE ^ n.
Proof. intros. apply Z.pow_pos_nonneg; unfold DIG_BASE; lia. Qed.

Lemma hl_snoc l x : hl DIG_BASE (l ++ [x]) = hl DIG_BASE l * DIG_BASE + x.
Proof. rewrite hl_app by done. cbn [hl length]. change (DIG_BASE ^ Z.of_nat 1) with DIG_BASE. change (DIG_BASE ^ Z.of_nat 0) with 1. lia. Qed.

Lemma hl_zeros n : hl DIG_BASE (replicate n 0) = 0.
Proof. induction n as [|n IH]; [done|]. cbn [replicate hl]. lia. Qed.

Lemma in_base_zeros n : Forall in_base (replicate n 0).
Proof. apply Forall_replicate. unfold in_base, DIG_BASE. lia. Qed.

Lemma hl_range l : Forall in_base l -> 0 <= hl DIG_BASE l < DIG_BASE ^ Z.of_nat (length l).
Proof. apply hl_bound. done. Qed.

(** The last word of a list. *)
Lemma last_word (l : list Z) : l <> [] -> exists l0 x, l = l0 ++ [x].
Proof. destruct l as [|x l0] using rev_ind; [done|]. eauto. Qed.

(** ** Copying and clearing *)

Lemma copy_back_spec src n : forall p1 (m : list Z),
  (n <= length (default m src))%nat -> (n <= p1 <= length m)%nat ->
  copy_back n src (Z.of_nat n) (Z.of_nat p1) m = Some (take (p1 - n) m ++ take n (default m src) ++ drop p1 m).
Proof.
  induction n as [|n IH]; intros p1 m Lb P; cbn [copy_back].
  - by rewrite Nat.sub_0_r, take_0, app_nil_l, take_drop.
  - destruct (lookup_lt_is_Some_2 (default m src) n ltac:(lia)) as (x & X).
    replace (Z.of_nat (S n) - 1) with (Z.of_nat n) by lia. replace (Z.of_nat p1 - 1) with (Z.of_nat (p1 - 1)) by lia.
    assert (Lx : load (default m src) (Z.of_nat n) = Some x).
    { unfold load. rewrite decide_True by lia. by rewrite Nat2Z.id. }
    rewrite Lx. cbn [mbind option_bind]. rewrite store_in by lia. cbn [mbind option_bind]. rewrite Nat2Z.id.
    assert (Ln : take n (default (<[(p1 - 1)%nat:=x]> m) src) = take n (default m src)).
    { destruct src; cbn; [done|]. apply take_insert_ge. lia. }
    rewrite IH by (rewrite ?length_insert; destruct src; cbn in *; rewrite ?length_insert; lia).
    rewrite Ln. rewrite take_insert_ge by lia. replace (p1 - 1 - n)%nat with (p1 - S n)%nat by lia. do 2 f_equal.
    rewrite (take_S_r _ _ _ X), <- app_assoc. f_equal. cbn [app].
    rewrite (drop_S _ x) by (apply list_lookup_insert_eq; lia). f_equal.
    replace (S (p1 - 1)) with p1 by lia. apply drop_insert_lt. lia.
Qed.

Lemma zero_words_spec n : forall (l mid rest : list Z) p,
  p = Z.of_nat (length l) -> Z.of_nat (length mid) = Z.max 0 n ->
  zero_words n p (l ++ mid ++ rest) = Some (l ++ replicate (length mid) 0 ++ rest).
Proof.
  intros l mid rest p -> M. unfold zero_words. replace (Z.to_nat n) with (length mid) by lia. clear n M.
  assert (G : forall dn i, Z.of_nat (length dn) = i ->
    for_up (length mid) i (fun k m => store m (Z.of_nat (length l) + k) 0) (l ++ dn ++ mid ++ rest) =
    Some (l ++ dn ++ replicate (length mid) 0 ++ rest)); [|exact (G [] 0 eq_refl)].
  induction mid as [|x mid IH]; intros dn i Hi; [done|]. cbn [for_up length].
  pose proof (store_next (l ++ dn) x (mid ++ rest) 0) as Sn. rewrite length_app, Nat2Z.inj_add, Hi in Sn.
  rewrite <- !app_assoc in Sn. cbn [app]. rewrite Sn. cbn [mbind option_bind].
  specialize (IH (dn ++ [0]) (i + 1)). rewrite <- !app_assoc in IH. cbn [app] in IH. rewrite IH; [done|].
  rewrite length_app. cbn [length]. lia.
Qed.

(** ** Carries and leading zeroes *)

Lemma carry_on_spec l : forall rest, Forall in_base l -> hl DIG_BASE l + 1 < DIG_BASE ^ Z.of_nat (length l) ->
  exists l' b, carry_on (length l) (Z.of_nat (length l)) 1 (l ++ rest) = Some (l' ++ rest, b, 0) /\
    length l' = length l /\ Forall in_base l' /\ hl DIG_BASE l' = hl DIG_BASE l + 1 /\ 0 <= b < Z.of_nat (length l).
Proof.
  induction l as [|x l IH] using rev_ind; intros rest F H; [cbn in H; lia|].
  apply Forall_app in F as (F & Fx). apply Forall_cons_1 in Fx as (Fx & _).
  rewrite length_app in *. cbn [length] in *. replace (length l + 1)%nat with (S (length l)) in * by lia.
  cbn [carry_on]. rewrite bool_decide_true by lia. replace (Z.of_nat (S (length l)) - 1) with (Z.of_nat (length l)) by lia.
  rewrite <- app_assoc. cbn [app]. rewrite load_word_next. cbn [mbind option_bind].
  destruct (ADD_step x 0 1 Fx ltac:(unfold DIG_BASE; lia) ltac:(lia)) as (r & c & Ea & R & C & V). rewrite Ea.
  rewrite store_next. cbn [mbind option_bind]. rewrite hl_snoc in *. rewrite Nat2Z.inj_succ, Z.pow_succ_r in H by lia.
  assert (c = 0 \/ c = 1) as [-> | ->] by lia.
  - destruct (length l) eqn:E; cbn [carry_on]; rewrite bool_decide_false by lia;
      (exists (l ++ [r]); eexists; rewrite <- app_assoc; cbn [app]; split; [done|];
       rewrite hl_snoc, length_app, E; cbn [length]; split_and!; try lia; apply Forall_app; split; [done|by constructor]).
  - destruct (IH (r :: rest) F) as (l' & b & E & L & F' & V' & B); [unfold DIG_BASE in *; nia|].
    rewrite E. exists (l' ++ [r]), b. rewrite <- app_assoc, length_app, hl_snoc. cbn [app length].
    split_and!; try done; try lia. apply Forall_app. split; [done|by constructor].
Qed.

Lemma find_word_spec l : forall x rest, Forall in_base (l ++ [x]) ->
  (find_word (length l) (Z.of_nat (length l)) (l ++ x :: rest) = Some None /\ hl DIG_BASE (l ++ [x]) = 0 /\
   l ++ [x] = replicate (length (l ++ [x])) 0) \/
  (exists b, find_word (length l) (Z.of_nat (length l)) (l ++ x :: rest) = Some (Some b) /\ 0 <= b <= Z.of_nat (length l)).
Proof.
  induction l as [|y l IH] using rev_ind; intros x rest F.
  - unfold find_word. cbn [length app]. change (Z.of_nat 0) with 0. change (load (x :: rest) 0) with (Some x). cbn [mbind option_bind].
    destruct (bool_decide_reflect (x <> 0)) as [X|X]; [right; exists 0; done|]. left. assert (x = 0) as -> by lia. done.
  - rewrite length_app. cbn [length]. replace (length l + 1)%nat with (S (length l)) by lia. cbn [find_word].
    rewrite <- app_assoc. cbn [app].
    pose proof (load_word_next (l ++ [y]) x rest) as Ln. rewrite length_app, <- app_assoc in Ln. cbn [length app] in Ln.
    replace (length l + 1)%nat with (S (length l)) in Ln by lia. rewrite Ln. cbn [mbind option_bind].
    destruct (bool_decide_reflect (x <> 0)) as [X|X]; [right; eexists; split; [done|lia]|].
    assert (x = 0) as -> by lia. replace (Z.of_nat (S (length l)) - 1) with (Z.of_nat (length l)) by lia.
    apply Forall_app in F as (F & _).
    destruct (IH y (0 :: rest) F) as [(E & V & R)|(b & E & B)].
    + left. rewrite E. split; [done|]. rewrite (hl_snoc (l ++ [y])), V. split; [done|].
      by rewrite (length_app (l ++ [y])), replicate_add, <- R.
    + right. exists b. split; [done|lia].
Qed.

(** ** The last word that is kept *)

(** [v] rounded to a multiple of [u], half of it upwards or all of it downwards. *)
Definition round_to (up : bool) (u v : Z) : Z := (v + if up then u / 2 else 0) / u * u.

Lemma round_to_split up h q r : 0 < h -> 0 <= r < 2 * h ->
  round_to up (2 * h) (q * (2 * h) + r) = (q + Z.b2z (up && bool_decide (h <= r))) * (2 * h).
Proof.
  intros H R. unfold round_to. f_equal. destruct up; cbn [andb].
  - replace (2 * h / 2) with h by Zlia. rewrite <- Z.add_assoc, Z.div_add_l by lia. f_equal.
    destruct (bool_decide_reflect (h <= r)); cbn [Z.b2z].
    + symmetry. apply (Z.div_unique _ _ _ (r - h)); lia.
    + apply Z.div_small. lia.
  - rewrite Z.add_0_r, Z.div_add_l, Z.div_small by lia. done.
Qed.

Section Rounding.
Context (mode : decimal_round_mode) (Hm : mode = HALF_UP \/ mode = TRUNCATE).

Definition up : bool := bool_decide (mode = HALF_UP).

Lemma do_inc_spec sg frac0 frac1 intg0 (k : list Z) r0 rest : 0 <= r0 ->
  do_inc mode (round_digit_of mode sg) frac0 frac1 intg0 (Z.of_nat (length k) - 1) (k ++ r0 :: rest) =
  Some (up && bool_decide (500000000 <= r0)).
Proof.
  intros R. unfold do_inc, up. destruct Hm as [-> | ->]; cbn [round_digit_of]; bdec; [|done].
  replace (Z.of_nat (length k) - 1 + 1) with (Z.of_nat (length k)) by lia. rewrite load_word_next. cbn [mbind option_bind andb].
  unfold DIG_MASK. rewrite Z.quot_div_nonneg by lia.
  destruct (bool_decide_reflect (500000000 <= r0)); [|rewrite !bool_decide_false by Zlia; done].
  destruct (bool_decide_reflect (r0 / 100000000 > 5)); [done|]. rewrite !bool_decide_true by (done || Zlia). done.
Qed.

(** The last word after rounding, when [u1] is the weight in it of the last digit
    that is kept and [r] all that is behind it. *)
Lemma round_aligned_spec sg frac0 frac1 intg0 k z r0 rr rest :
  in_base z -> Forall in_base (r0 :: rr) -> Z.of_nat (length k) + 1 = intg0 + frac0 ->
  exists z', round_aligned mode (round_digit_of mode sg) frac0 frac1 intg0 (k ++ z :: (r0 :: rr) ++ rest) =
      Some (Some (k ++ z' :: (r0 :: rr) ++ rest, Z.of_nat (length k))) /\ 0 <= z' <= DIG_BASE /\ z' <= z + 100000000 /\
    (hl DIG_BASE k * DIG_BASE + z') * DIG_BASE ^ Z.of_nat (length (r0 :: rr)) =
    round_to up (DIG_BASE ^ Z.of_nat (length (r0 :: rr))) (hl DIG_BASE (k ++ z :: r0 :: rr)).
Proof.
  intros Z0 F L. apply Forall_cons_1 in F as (R0 & F). unfold in_base in *.
  pose proof (hl_range rr F) as Hr. set (c := DIG_BASE ^ Z.of_nat (length rr)) in *.
  assert (C : DIG_BASE ^ Z.of_nat (length (r0 :: rr)) = 2 * (500000000 * c)).
  { cbn [length]. rewrite Nat2Z.inj_succ, Z.pow_succ_r by lia. fold c. unfold DIG_BASE. lia. }
  assert (V : hl DIG_BASE (k ++ z :: r0 :: rr) = (hl DIG_BASE k * DIG_BASE + z) * (2 * (500000000 * c)) + (r0 * c + hl DIG_BASE rr)).
  { change (z :: r0 :: rr) with ([z] ++ r0 :: rr). rewrite app_assoc, hl_app, hl_snoc, C by done. reflexivity. }
  assert (Cp : 0 < c) by (apply pow_base_pos; lia). unfold DIG_BASE in R0.
  rewrite C, V, round_to_split by nia.
  assert (E : bool_decide (500000000 * c <= r0 * c + hl DIG_BASE rr) = bool_decide (500000000 <= r0)).
  { apply bool_decide_ext. split; intros; nia. }
  rewrite E. unfold round_aligned.
  replace (intg0 + frac0 - 1) with (Z.of_nat (length k)) by lia.
  pose proof (do_inc_spec sg frac0 frac1 intg0 (k ++ [z]) r0 (rr ++ rest) ltac:(lia)) as D.
  rewrite length_app, <- app_assoc in D. cbn [length app] in D.
  replace (Z.of_nat (length k + 1) - 1) with (Z.of_nat (length k)) in D by lia. cbn [app]. rewrite D. cbn [mbind option_bind].
  set (inc := up && _). exists (z + Z.b2z inc). destruct inc; cbn [Z.b2z].
  - rewrite bool_decide_true by lia. rewrite load_word_next. cbn [mbind option_bind]. unfold DIG_BASE in *.
    rewrite swrap_small by (cbn; lia). rewrite store_next. cbn [mbind option_bind]. split_and!; [done|lia|lia|lia|ring].
  - rewrite bool_decide_false by lia. rewrite !Z.add_0_r. split_and!; [done|lia|lia|lia|ring].
Qed.

Lemma round_inside_spec sg scale frac0 intg0 k z rr rest :
  in_base z -> Forall in_base rr -> Z.of_nat (length k) + 1 = intg0 + frac0 -> 0 < 9 * frac0 - scale < 9 ->
  exists z', round_inside mode (round_digit_of mode sg) scale frac0 intg0 (k ++ z :: rr ++ rest) =
      Some (k ++ z' :: rr ++ rest, Z.of_nat (length k)) /\ 0 <= z' <= DIG_BASE /\ z' <= z + 100000000 /\
    (hl DIG_BASE k * DIG_BASE + z') * DIG_BASE ^ Z.of_nat (length rr) =
    round_to up (10 ^ (9 * frac0 - scale) * DIG_BASE ^ Z.of_nat (length rr)) (hl DIG_BASE (k ++ z :: rr)).
Proof.
  intros Z0 F L P. unfold in_base in *. pose proof (hl_range rr F) as Hr. set (c := DIG_BASE ^ Z.of_nat (length rr)) in *.
  assert (Cp : 0 < c) by (apply pow_base_pos; lia).
  set (pos := 9 * frac0 - scale - 1). set (w := 10 ^ pos). assert (Wp : 0 < w) by (apply Z.pow_pos_nonneg; unfold pos; lia).
  assert (U : 10 ^ (9 * frac0 - scale) = 10 * w).
  { unfold w. rewrite <- Z.pow_succ_r by (unfold pos; lia). f_equal. unfold pos. lia. }
  assert (Bw : exists t, DIG_BASE = t * (10 * w) /\ 0 < t).
  { exists (10 ^ (8 - pos)). split; [|apply Z.pow_pos_nonneg; unfold pos; lia].
    unfold w. rewrite <- Z.pow_succ_r, <- Z.pow_add_r by (unfold pos; lia).
    change DIG_BASE with (10 ^ 9). f_equal. unfold pos. lia. }
  destruct Bw as (t & Bt & Tp). set (g := z / (10 * w)). set (y := z / w mod 10).
  pose proof (Z.div_mod z w ltac:(lia)) as E1. pose proof (Z.mod_pos_bound z w Wp) as M1.
  pose proof (Z.div_mod (z / w) 10 ltac:(lia)) as E2. rewrite Z.div_div in E2 by lia. rewrite (Z.mul_comm w) in E2. fold g y in E2.
  assert (Y : 0 <= y < 10) by (unfold y; Zlia).
  assert (V : hl DIG_BASE (k ++ z :: rr) = (hl DIG_BASE k * t + g) * (2 * (5 * w * c)) + ((y * w + z mod w) * c + hl DIG_BASE rr)).
  { change (z :: rr) with ([z] ++ rr). rewrite app_assoc, hl_app, hl_snoc by done. fold c. rewrite Bt at 2.
    rewrite E1 at 1. rewrite E2. ring. }
  rewrite U, V. replace (10 * w * c) with (2 * (5 * w * c)) by ring. rewrite round_to_split by nia.
  assert (E : bool_decide (5 * w * c <= (y * w + z mod w) * c + hl DIG_BASE rr) = bool_decide (5 <= y)).
  { apply bool_decide_ext. split; intros H; [|nia]. destruct (decide (5 <= y)); [done|].
    exfalso. assert (y + 1 <= 5) by lia. assert ((y * w + z mod w + 1) * c <= 5 * w * c) by nia. nia. }
  rewrite E. unfold round_inside. replace (intg0 + frac0 - 1) with (Z.of_nat (length k)) by lia.
  change DIG_PER_DEC1 with 9. replace (frac0 * 9 - scale - 1) with pos by (unfold pos; lia).
  assert (Lw : load powers10 pos = Some w).
  { unfold w. assert (0 <= pos <= 7) by (unfold pos; lia).
    assert (pos = 0 \/ pos = 1 \/ pos = 2 \/ pos = 3 \/ pos = 4 \/ pos = 5 \/ pos = 6 \/ pos = 7) as D by lia.
    repeat destruct D as [-> | D]; try reflexivity. by rewrite D. }
  rewrite Lw. cbn [mbind option_bind]. rewrite load_word_next. cbn [mbind option_bind].
  rewrite Z.quot_div_nonneg, Z.rem_mod_nonneg by (try apply Z.div_pos; lia). fold y.
  assert (Inc : bool_decide (y > round_digit_of mode sg) ||
    (bool_decide (round_digit_of mode sg = 5) && bool_decide (y = 5) &&
     (bool_decide (mode = HALF_UP) || bool_decide (Z.quot (z / w) 10 &&& 1 <> 0))) = up && bool_decide (5 <= y)).
  { unfold up. destruct Hm as [-> | ->]; cbn [round_digit_of].
    - rewrite (bool_decide_true (HALF_UP = HALF_UP)), (bool_decide_true (5 = 5)) by done. cbn [andb orb]. rewrite andb_true_r.
      destruct (bool_decide_reflect (y > 5)), (bool_decide_reflect (y = 5)), (bool_decide_reflect (5 <= y)); lia || done.
    - rewrite (bool_decide_false (y > 10)), (bool_decide_false (10 = 5)), (bool_decide_false (TRUNCATE = HALF_UP)) by (done || lia). done. }
  rewrite Inc. set (inc := up && _). exists (10 * w * (g + Z.b2z inc)).
  assert (G : g + 1 <= t) by (enough (g < t) by lia; apply Z.div_lt_upper_bound; lia).
  assert (0 <= g) by (apply Z.div_pos; lia).
  assert (Zr : 0 <= 10 * w * (g + Z.b2z inc) <= DIG_BASE) by (destruct inc; cbn [Z.b2z]; nia).
  replace (w * ((if inc then z / w + 10 else z / w) - y)) with (10 * w * (g + Z.b2z inc)) by (destruct inc; cbn [Z.b2z]; lia).
  rewrite swrap_small by (unfold DIG_BASE in Zr; cbn; lia). rewrite store_next. cbn [mbind option_bind].
  assert (10 * w <= 100000000).
  { unfold w. rewrite <- Z.pow_succ_r by (unfold pos; lia). change 100000000 with (10 ^ 8). apply Z.pow_le_mono_r; unfold pos; lia. }
  split_and!; [done|lia|lia|destruct inc; cbn [Z.b2z]; nia|]. rewrite Bt. ring.
Qed.
End Rounding.

(** ** What is behind it *)

(** The words after the carry: the same number with words below the base, one more
    word, or nothing at all. *)
Lemma round_carry_spec len intg0 frac0 scale err g k z t :
  Forall in_base k -> 0 <= z <= DIG_BASE ->
  z < DIG_BASE \/ k = [] \/ hl DIG_BASE k + 1 < DIG_BASE ^ Z.of_nat (length k) ->
  Z.of_nat (length k) + 1 = intg0 + frac0 -> (k = [] -> z = DIG_BASE -> frac0 + intg0 < len /\ intg0 + Z.max frac0 0 <= Z.of_nat (length t)) ->
  let v := hl DIG_BASE k * DIG_BASE + z in
  let n := Z.to_nat (intg0 + Z.max frac0 0) in
  let r := round_carry len intg0 frac0 scale err g (Z.of_nat (length k)) (k ++ z :: t) in
  (r = Some None /\ v = 0 /\ k ++ [z] = replicate (length (k ++ [z])) 0) \/
  (exists b k', r = Some (Some (frac0, scale, err, g, b, k' ++ t)) /\ length k' = S (length k) /\ Forall in_base k' /\
     hl DIG_BASE k' = v /\ 0 <= b < Z.of_nat (length k')) \/
  (k = [] /\ z = DIG_BASE /\ r = Some (Some (frac0, scale, err, g + 1, 0, 1 :: take n (0 :: t) ++ drop n t))).
Proof.
  intros F Z0 C L Lt v n. unfold round_carry. rewrite load_word_next. cbn [mbind option_bind]. cbv zeta.
  destruct (bool_decide_reflect (z >= DIG_BASE)) as [Zb|Zb].
  - assert (z = DIG_BASE) as -> by lia. rewrite store_next. cbn [mbind option_bind]. rewrite Z.sub_diag. right.
    destruct C as [C|[C|C]]; [lia| |left].
    + right. destruct (Lt C eq_refl) as (Ln & Lt'). subst k. cbn [length] in L. split_and!; [done|done|]. cbn [length app].
      change (carry_on (Z.to_nat (Z.of_nat 0)) (Z.of_nat 0) 1 (0 :: t)) with (Some (0 :: t, -1, 1)). cbn [mbind option_bind]. rewrite bool_decide_true by lia. rewrite bool_decide_false by lia.
      replace (intg0 + Z.max frac0 0) with (Z.of_nat n) by (unfold n; lia).
      replace (Z.of_nat n + 1) with (Z.of_nat (S n)) by lia. rewrite Nat2Z.id.
      rewrite copy_back_spec by (cbn [default length]; unfold n; lia). cbn [default mbind option_bind drop].
      replace (S n - n)%nat with 1%nat by lia. done.
    + destruct (carry_on_spec k (0 :: t) F C) as (k' & b & E & L' & F' & V & B).
      rewrite Nat2Z.id, E. cbn [mbind option_bind]. rewrite bool_decide_false by lia.
      exists b, (k' ++ [0]). rewrite <- app_assoc, length_app, hl_snoc. cbn [app length].
      split_and!; [done|lia| | |lia|lia].
      * apply Forall_app. split; [done|]. repeat constructor; unfold DIG_BASE; lia.
      * unfold v. lia.
  - rewrite Nat2Z.id. assert (Fk : Forall in_base (k ++ [z])).
    { apply Forall_app. split; [done|]. constructor; [|constructor]. unfold in_base. lia. }
    destruct (find_word_spec k z t Fk) as [(E & V & R)|(b & E & B)]; rewrite E; cbn [mbind option_bind].
    + left. unfold v. rewrite hl_snoc in V. done.
    + right. left. exists b, (k ++ [z]). rewrite <- app_assoc, length_app, hl_snoc. cbn [app length].
      split_and!; [done|lia|done|done|lia|lia].
Qed.

(** Both ways to round the last word. *)
Lemma round_last_spec mode sg scale frac0 frac1 intg0 k z rr rest : mode = HALF_UP \/ mode = TRUNCATE ->
  in_base z -> Forall in_base rr -> Z.of_nat (length k) + 1 = intg0 + frac0 -> 0 <= 9 * frac0 - scale < 9 ->
  Z.of_nat (length rr) = frac1 - frac0 -> scale < 9 * frac1 ->
  exists z', (if bool_decide (scale = frac0 * DIG_PER_DEC1)
       then round_aligned mode (round_digit_of mode sg) frac0 frac1 intg0 (k ++ z :: rr ++ rest)
       else mb ← round_inside mode (round_digit_of mode sg) scale frac0 intg0 (k ++ z :: rr ++ rest); Some (Some mb)) =
      Some (Some (k ++ z' :: rr ++ rest, Z.of_nat (length k))) /\ 0 <= z' <= DIG_BASE /\ z' <= z + 100000000 /\
    (hl DIG_BASE k * DIG_BASE + z') * DIG_BASE ^ (frac1 - frac0) =
    round_to (up mode) (10 ^ (9 * frac1 - scale)) (hl DIG_BASE (k ++ z :: rr)).
Proof.
  intros Hm Hz F L S Lr S1. rewrite <- Lr. unfold DIG_PER_DEC1.
  assert (E : 10 ^ (9 * frac1 - scale) = 10 ^ (9 * frac0 - scale) * DIG_BASE ^ Z.of_nat (length rr)).
  { rewrite Lr. change DIG_BASE with (10 ^ 9). rewrite <- Z.pow_mul_r, <- Z.pow_add_r by lia. f_equal. lia. }
  rewrite E. destruct (bool_decide_reflect (scale = frac0 * 9)) as [A|A].
  - destruct rr as [|r0 rr]; [cbn in Lr; lia|]. replace (9 * frac0 - scale) with 0 by lia. change (10 ^ 0) with 1.
    rewrite Z.mul_1_l. by apply round_aligned_spec.
  - destruct (round_inside_spec mode Hm sg scale frac0 intg0 k z rr rest Hz F L ltac:(lia)) as (z' & Ei & R).
    rewrite Ei. by exists z'.
Qed.

(** [to->intg] may count one digit more, in the same words. *)
Lemma more_intg g b (m : list Z) x : 0 <= g -> load m b = Some x ->
  exists g', (if bool_decide (Z.rem g DIG_PER_DEC1 <> 0)
       then w ← load powers10 (Z.rem g DIG_PER_DEC1); x ← load m b; Some (if bool_decide (x >= w) then g + 1 else g)
       else Some g) = Some g' /\ 0 <= g' /\ ROUND_UP g' = ROUND_UP g.
Proof.
  intros G L. unfold DIG_PER_DEC1. rewrite Z.rem_mod_nonneg by lia.
  destruct (bool_decide_reflect (g mod 9 <> 0)) as [K|K]; [|by exists g].
  destruct (load_in powers10 (g mod 9)) as (w & ->); [cbn; Zlia|]. cbn [mbind option_bind]. rewrite L. cbn [mbind option_bind].
  destruct (bool_decide _); eexists; (split; [done|]); (split; [lia|]); [|done].
  rewrite !ROUND_UP_div by lia. Zlia.
Qed.

Lemma absval_up J d : wf d -> fw d <= J -> absval J d = absval (fw d) d * DIG_BASE ^ (J - fw d).
Proof.
  intros W L. pose proof (fw_nonneg d W). unfold absval. rewrite Z.div_mul by (apply Z.pow_nonzero; unfold DIG_BASE; lia).
  replace J with (J - fw d + fw d) at 1 by lia. rewrite Z.pow_add_r by lia.
  rewrite Z.mul_assoc, Z.div_mul; [done|apply Z.pow_nonzero; unfold DIG_BASE; lia].
Qed.

(** A decimal from its words and the words behind them that are zero. *)
Lemma rounded_ok g scale frac0 frac1 intg0 len sgn k t :
  Forall in_base k -> 0 <= g -> ROUND_UP g = intg0 -> ROUND_UP (Z.max scale 0) = Z.max frac0 0 ->
  Z.of_nat (length k) = intg0 + frac0 -> 0 < Z.of_nat (length k) -> frac0 <= frac1 -> 0 <= frac1 ->
  len = Z.of_nat (length (k ++ replicate (Z.to_nat (- frac0)) 0 ++ t)) -> 0 <= sgn <= 1 ->
  let d := mk_decimal g (Z.max scale 0) len sgn (k ++ replicate (Z.to_nat (- frac0)) 0 ++ t) in
  wf d /\ absval frac1 d = hl DIG_BASE k * DIG_BASE ^ (frac1 - frac0).
Proof.
  intros F G Rg Rs L Lp F01 F1 Len Sg d.
  destruct (result_ok g (Z.max scale 0) t (k ++ replicate (Z.to_nat (- frac0)) 0) len sgn) as (W & V).
  - apply Forall_app. split; [done|apply in_base_zeros].
  - done.
  - lia.
  - rewrite Rg, Rs, length_app, length_replicate. lia.
  - destruct k; [cbn in Lp; lia|done].
  - by rewrite <- app_assoc.
  - done.
  - rewrite <- app_assoc in W, V. fold d in W, V. split; [done|].
    assert (Fw : fw d = Z.max frac0 0) by (unfold fw, d; cbn [frac]; done).
    rewrite absval_up by (done || lia). rewrite Fw. rewrite Rs in V. rewrite V.
    rewrite hl_app, hl_zeros, length_replicate, Z.add_0_r, <- Z.mul_assoc, <- Z.pow_add_r by (done || lia).
    do 2 f_equal. lia.
Qed.

(** From the last word that is kept on, when there is one. *)
Lemma round_words_spec mode sg scale frac0 frac1 intg0 to k z rr rest : mode = HALF_UP \/ mode = TRUNCATE ->
  buf to = k ++ z :: rr ++ rest -> Forall in_base (k ++ z :: rr) -> Z.of_nat (length k) + 1 = intg0 + frac0 ->
  Z.of_nat (length rr) = frac1 - frac0 -> 0 <= 9 * frac0 - scale < 9 -> ROUND_UP (Z.max scale 0) = Z.max frac0 0 ->
  scale < 9 * frac1 -> 0 <= frac1 -> len to = Z.of_nat (length (buf to)) -> intg0 + frac1 <= len to -> frac0 + 1 <= len to ->
  (k = [] -> 100000000 <= z -> intg0 + 1 + frac1 <= len to) ->
  0 <= intg to -> ROUND_UP (intg to) = intg0 -> 0 <= sign to <= 1 ->
  (k <> [] -> hl DIG_BASE k + 1 < DIG_BASE ^ Z.of_nat (length k)) ->
  (k = [] -> intg to = 9 * intg0 \/ z < 100000000) ->
  exists to', round_words mode (round_digit_of mode sg) scale frac0 frac1 intg0 E_DEC_OK to = Some (E_DEC_OK, to') /\
    wf to' /\ frac to' = Z.max scale 0 /\ (sign to' = sign to \/ absval frac1 to' = 0) /\
    absval frac1 to' = round_to (up mode) (10 ^ (9 * frac1 - scale)) (hl DIG_BASE (k ++ z :: rr)).
Proof.
  intros Hm Eb F L Lr Sc Rs S1 F1 Len Fit Fit0 Room G Rg Sg Top First. pose proof (ROUND_UP_nonneg (intg to) G). unfold round_words. rewrite Eb.
  apply Forall_app in F as (Fk & Fz). apply Forall_cons_1 in Fz as (Fz & Fr).
  destruct (round_last_spec mode sg scale frac0 frac1 intg0 k z rr rest Hm Fz Fr L Sc Lr S1) as (z' & El & Zr & Zi & V).
  rewrite El. cbn [mbind option_bind]. clear El. rewrite <- V. clear V.
  assert (Lb : Z.of_nat (length (buf to)) = Z.of_nat (length k) + 1 + Z.of_nat (length rr) + Z.of_nat (length rest)).
  { rewrite Eb, !length_app. cbn [length]. rewrite length_app. lia. }
  assert (Tz : exists t, (if bool_decide (frac0 < frac1)
      then zero_words (Decimal.len to - (if bool_decide (scale = 0) && bool_decide (intg0 = 0) then 1 else intg0 + frac0))
             (if bool_decide (scale = 0) && bool_decide (intg0 = 0) then 1 else intg0 + frac0) (k ++ z' :: rr ++ rest)
      else Some (k ++ z' :: rr ++ rest)) = Some (k ++ z' :: replicate (Z.to_nat (- frac0)) 0 ++ t) /\
      Z.of_nat (length t) + Z.max 0 (- frac0) = Z.of_nat (length rr) + Z.of_nat (length rest)).
  { destruct (bool_decide_reflect (frac0 < frac1)) as [Lt|Ge].
    - assert (bool_decide (scale = 0) && bool_decide (intg0 = 0) = false) as ->.
      { destruct (bool_decide_reflect (scale = 0)), (bool_decide_reflect (intg0 = 0)); try done. lia. }
      pose proof (zero_words_spec (Decimal.len to - (intg0 + frac0)) (k ++ [z']) (rr ++ rest) [] (intg0 + frac0)) as Zw.
      rewrite app_nil_r, <- !app_assoc in Zw. cbn [app] in Zw.
      rewrite Zw by (rewrite !length_app; cbn [length]; lia).
      exists (replicate (length (rr ++ rest) - Z.to_nat (- frac0)) 0). rewrite app_nil_r, length_replicate, length_app.
      split; [|lia]. do 3 f_equal. rewrite <- replicate_add. f_equal. lia.
    - exists (rr ++ rest). replace (Z.to_nat (- frac0)) with 0%nat by lia. rewrite length_app. split; [done|lia]. }
  destruct Tz as (t & -> & Lt). cbn [mbind option_bind].
  set (zs := replicate (Z.to_nat (- frac0)) 0) in *.
  assert (Lzs : Z.of_nat (length zs) = Z.max 0 (- frac0)) by (unfold zs; rewrite length_replicate; lia).
  pose proof (round_carry_spec (Decimal.len to) intg0 frac0 scale E_DEC_OK (intg to) k z' (zs ++ t) Fk Zr
    ltac:(destruct k; [tauto|right; right; by apply Top]) L) as C.
  cbv zeta in C. assert (Cr : k = [] -> z' = DIG_BASE ->
    frac0 + intg0 < Decimal.len to /\ intg0 + Z.max frac0 0 <= Z.of_nat (length (zs ++ t))).
  { intros E ->. specialize (Room E ltac:(unfold DIG_BASE in Zi; lia)). subst k. cbn [length] in *. rewrite length_app. lia. }
  specialize (C Cr).
  destruct C as [(-> & V0 & R0)|[(b & k' & -> & L' & F' & V' & B)|(Ek & Ez & ->)]]; cbn [mbind option_bind].
  - (* all the words are zero *)
    assert (Em : exists u, k ++ z' :: zs ++ t = 0 :: u /\ Z.of_nat (length u) + 1 = len to).
    { change (z' :: zs ++ t) with ([z'] ++ zs ++ t). rewrite app_assoc, R0. eexists. rewrite length_app. cbn [length]. rewrite Nat.add_comm.
      cbn [Nat.add replicate app]. split; [done|]. rewrite !length_app, length_replicate. lia. }
    destruct Em as (u & Eu & Lu). rewrite Eu.
    assert (Ew : zero_words (frac0 + 1) 0 (0 :: u) = Some (replicate (S (Z.to_nat frac0)) 0 ++ drop (Z.to_nat frac0) u)).
    { destruct (decide (0 <= frac0)) as [P|P].
      - pose proof (zero_words_spec (frac0 + 1) [] (0 :: take (Z.to_nat frac0) u) (drop (Z.to_nat frac0) u) 0 eq_refl) as Zw.
        cbn [app length] in Zw. rewrite take_drop, length_take in Zw. rewrite Zw by lia. do 3 f_equal. lia.
      - unfold zero_words. replace (Z.to_nat (frac0 + 1)) with 0%nat by lia. by replace (Z.to_nat frac0) with 0%nat by lia. }
    rewrite Ew. cbn [mbind option_bind]. eexists. split; [done|].
    destruct (result_ok 1 (Z.max scale 0) (drop (Z.to_nat frac0) u) (replicate (S (Z.to_nat frac0)) 0) (len to) 0) as (W & V).
    + apply in_base_zeros.
    + lia.
    + lia.
    + rewrite Rs, length_replicate. change (ROUND_UP 1) with 1. lia.
    + done.
    + rewrite length_app, length_replicate, length_drop. lia.
    + lia.
    + rewrite hl_zeros in V. set (d' := mk_decimal _ _ _ _ _) in *.
      assert (A0 : absval frac1 d' = 0).
      { rewrite absval_up by (done || (unfold fw, d'; cbn [frac]; rewrite Rs; lia)).
        change (fw d') with (ROUND_UP (Z.max scale 0)). by rewrite V. }
      split_and!; [done|done|by right|]. rewrite A0, V0. done.
  - (* no carry out of the words *)
    destruct (load_in (k' ++ zs ++ t) b) as (x & X); [rewrite !length_app; lia|].
    destruct (more_intg (intg to) b _ x G X) as (g' & -> & G' & Rg'). cbn [mbind option_bind].
    replace (if bool_decide (scale < 0) then 0 else scale) with (Z.max scale 0) by (destruct (bool_decide_reflect (scale < 0)); lia).
    eexists. split; [done|].
    destruct (rounded_ok g' scale frac0 frac1 intg0 (len to) (sign to) k' t) as (W & V); try done; try lia.
    { fold zs. rewrite !length_app. lia. }
    fold zs in W, V. split_and!; [done|done|by left|]. rewrite V, V'. done.
  - (* one more word *)
    specialize (Cr Ek Ez). subst k z'. cbn [length] in L, Lb. rewrite length_app in Cr. destruct (First eq_refl) as [Gi|?]; [|unfold DIG_BASE in Zi; lia].
    assert (En : Z.to_nat (intg0 + Z.max frac0 0) = S (length zs)) by lia. rewrite En. cbn [take drop app].
    rewrite take_app_length.
    change (1 :: 0 :: zs ++ drop (S (length zs)) (zs ++ t)) with ([1; 0] ++ zs ++ drop (S (length zs)) (zs ++ t)).
    destruct (more_intg (intg to + 1) 0 ([1; 0] ++ zs ++ drop (S (length zs)) (zs ++ t)) 1 ltac:(lia) eq_refl) as (g' & -> & G' & Rg').
    cbn [mbind option_bind].
    replace (if bool_decide (scale < 0) then 0 else scale) with (Z.max scale 0) by (destruct (bool_decide_reflect (scale < 0)); lia).
    eexists. split; [done|].
    destruct (rounded_ok g' scale frac0 frac1 (intg0 + 1) (len to) (sign to) [1; 0] (drop (S (length zs)) (zs ++ t))) as (W & V); try done; try lia.
    { repeat constructor; unfold DIG_BASE; lia. }
    { rewrite Rg', ROUND_UP_div by lia. rewrite Gi. Zlia. }
    { cbn [length]. lia. }
    { fold zs. rewrite !length_app, length_drop, length_app. cbn [length]. lia. }
    fold zs in W, V. split_and!; [done|done|by left|]. rewrite V. done.
Qed.
End DecimalRoundProps.

(** * DecimalRoundMain: [decimal_round] rounds *)
Module DecimalRoundMain.
Import Decimal DecimalProps DecimalMul DecimalDigits DecimalRound DecimalRoundProps.

Definition frac0_of (scale : Z) : Z :=
  if bool_decide (scale > 0) then ROUND_UP scale else Z.quot scale DIG_PER_DEC1.

Lemma frac0_spec scale :
  0 <= 9 * frac0_of scale - scale < 9 /\ ROUND_UP (Z.max scale 0) = Z.max (frac0_of scale) 0.
Proof.
  unfold frac0_of. destruct (bool_decide_reflect (scale > 0)) as [S|S].
  - rewrite Z.max_l by lia. rewrite ROUND_UP_div by lia. Zlia.
  - rewrite Z.max_r by lia. change (ROUND_UP 0) with 0. unfold DIG_PER_DEC1.
    replace scale with (- (- scale)) by lia. rewrite Z.quot_opp_l, Z.quot_div_nonneg by lia. Zlia.
Qed.

Lemma round_to_multiple u q up : 0 < u -> round_to up u (q * u) = q * u.
Proof.
  intros U. unfold round_to. f_equal. rewrite Z.add_comm, Z.div_add, Z.div_small; [lia| |lia].
  destruct up; Zlia.
Qed.

Lemma round_to_small u v up : 0 <= v -> 10 * v < u -> round_to up u v = 0.
Proof. intros V L. unfold round_to. rewrite Z.div_small; [lia|]. destruct up; Zlia. Qed.

Lemma hl_head x l : Forall in_base (x :: l) -> x + 1 < DIG_BASE -> hl DIG_BASE (x :: l) + 1 < DIG_BASE ^ Z.of_nat (length (x :: l)).
Proof.
  intros F X. apply Forall_cons_1 in F as (_ & F). pose proof (hl_range l F). cbn [hl length].
  rewrite Nat2Z.inj_succ, Z.pow_succ_r by lia. nia.
Qed.

Section Round.
Context (from : decimal_t) (W : wf from) (C : canonical from) (Cf : canonical_frac from) (Pos : 0 < intg from + frac from).
Context (to : option decimal_t) (scale : Z).
Context (Len : len (default from to) = Z.of_nat (length (buf (default from to)))).
Context (Room : iw from + 1 + Z.max (fw from) (frac0_of scale) <= len (default from to)).
Context (Over : is_Some to -> iw from + Z.max (fw from) (frac0_of scale) <= len from).

(** The words in the result before any of them is rounded: those of the operand,
    behind a zero word when a carry out of them is possible. *)
Record staged (l : list Z) (intg0 : Z) (dest : decimal_t) (pre rest : list Z) : Prop := {
  sg_buf : buf dest = pre ++ l ++ rest;
  sg_words : Z.of_nat (length pre) + iw from = intg0;
  sg_len : len dest = Z.of_nat (length (buf dest));
  sg_same : len dest = len (default from to);
  sg_nonneg : 0 <= intg dest;
  sg_intg : ROUND_UP (intg dest) = intg0;
  sg_sign : sign dest = sign from;
  sg_pre : pre = [] \/ pre = [0];
  sg_top : 0 < iw from + frac0_of scale ->
    forall x r, pre ++ l = x :: r -> x + 1 < DIG_BASE /\ (intg dest = 9 * intg0 \/ x < 100000000);
  sg_none : iw from + frac0_of scale <= 0 -> pre = [] }.

Lemma first_of_words l rest x r : buf from = l ++ rest -> l = x :: r -> at_ (buf from) 0 = x.
Proof. intros -> ->. reflexivity. Qed.

(** A first word of nines has nine digits. *)
Lemma first_nines : 0 < iw from -> at_ (buf from) 0 = DIG_MAX \/ 100000000 <= at_ (buf from) 0 -> intg from = 9 * iw from.
Proof.
  intros I H. pose proof (wf_intg from W) as G.
  assert (0 < intg from) by (destruct (decide (intg from = 0)) as [E|]; [unfold iw in I; rewrite E in I; change (ROUND_UP 0) with 0 in I; lia|lia]).
  destruct (decide (intg from mod 9 = 0)) as [M|M]; [unfold iw; rewrite ROUND_UP_div by lia; Zlia|].
  pose proof (first_word_small from (intg from) W C ltac:(lia) eq_refl ltac:(lia) M). unfold DIG_MAX, DIG_BASE in H. lia.
Qed.

Lemma stage_words l rest0 : buf from = l ++ rest0 -> Z.of_nat (length l) = iw from + fw from -> Forall in_base l ->
  let frac0 := frac0_of scale in
  let dest := default from to in
  exists nine, (if bool_decide (iw from + frac0 > 0) then x ← load (buf from) 0; Some (bool_decide (x = DIG_MAX)) else Some false) = Some nine /\
  let intg1 := ROUND_UP (intg from + Z.b2z nine) in
  exists intg0' dest' pre rest,
    (if bool_decide (is_Some to) || bool_decide (intg1 > iw from)
     then
       let n := Z.max (fw from) frac0 in
       m ← copy_back (Z.to_nat (iw from + n)) (match to with Some _ => Some (buf from) | None => None end) (iw from + n) (intg1 + n) (buf dest);
       m ← (if bool_decide (intg1 > iw from) then store m 0 0 else Some m);
       Some (intg1, mk_decimal (Z.min intg1 (len dest) * DIG_PER_DEC1) (frac dest) (len dest) (sign from) m)
     else Some (iw from, dest)) = Some (intg0', dest') /\ staged l intg0' dest' pre rest.
Proof.
  intros Eb Ll Fl frac0 dest. pose proof (iw_nonneg from W) as I0. pose proof (fw_nonneg from W) as F0.
  pose proof (wf_intg from W) as G0. pose proof (wf_len from W) as Lf. pose proof (load_first from W) as X0.
  set (x0 := at_ (buf from) 0) in *.
  assert (Z0 : iw from = 0 -> intg from = 0) by (unfold iw; rewrite ROUND_UP_div by lia; Zlia).
  set (nine := bool_decide (iw from + frac0 > 0) && bool_decide (x0 = DIG_MAX)). exists nine. split.
  { unfold nine. destruct (bool_decide _); [|done]. by rewrite X0. }
  assert (I1 : ROUND_UP (intg from + Z.b2z nine) = iw from + Z.b2z nine).
  { destruct nine eqn:N; cbn [Z.b2z]; [|by rewrite !Z.add_0_r]. unfold nine in N. apply andb_prop in N as (_ & N).
    apply bool_decide_eq_true in N. assert (E : intg from = 9 * iw from).
    { destruct (decide (0 < iw from)); [apply first_nines; [done|by left]|rewrite Z0; lia]. }
    rewrite E, ROUND_UP_div by lia. Zlia. }
  cbv zeta. rewrite I1.
  set (n := Z.max (fw from) frac0). fold dest in Len, Room.
  assert (Gt : bool_decide (iw from + Z.b2z nine > iw from) = nine).
  { destruct nine; cbn [Z.b2z]; [by apply bool_decide_true; lia|by apply bool_decide_false; lia]. }
  rewrite Gt.
  assert (Top : nine = false -> forall x r, l = x :: r -> 0 < iw from + frac0 ->
    x + 1 < DIG_BASE /\ (intg from = 9 * iw from \/ x < 100000000)).
  { intros N x r El P. pose proof (first_of_words l rest0 x r Eb El) as Ex. fold x0 in Ex. subst x.
    assert (Xb : in_base x0) by (rewrite El in Fl; by apply Forall_inv in Fl).
    unfold nine in N. rewrite bool_decide_true in N by lia. cbn [andb] in N. apply bool_decide_eq_false in N.
    unfold in_base, DIG_MAX in *. split; [lia|]. destruct (decide (x0 < 100000000)); [by right|left].
    destruct (decide (0 < iw from)); [apply first_nines; [done|right; fold x0; lia]|rewrite Z0; lia]. }
  destruct (bool_decide (is_Some to) || nine) eqn:Copy.
  - pose proof (copy_back_spec (match to with Some _ => Some (buf from) | None => None end) (Z.to_nat (iw from + n))
      (Z.to_nat (iw from + Z.b2z nine + n)) (buf dest)) as Cb.
    assert (Ed : default (buf dest) (match to with Some _ => Some (buf from) | None => None end) = buf from)
      by (unfold dest; by destruct to).
    rewrite Ed in Cb. assert (Nl : Z.of_nat (length (buf from)) >= iw from + n).
    { rewrite <- Lf. destruct to; [specialize (Over ltac:(eauto)); unfold n, frac0; lia|]. cbn in Room. unfold n, frac0. lia. }
    assert (Nb : 0 <= Z.b2z nine <= 1) by (destruct nine; cbn; lia).
    assert (Nn : 0 <= n) by (unfold n; lia).
    rewrite !Z2Nat.id in Cb by lia. rewrite Cb by (unfold n, frac0 in *; lia). clear Cb. cbn [mbind option_bind].
    replace (Z.to_nat (iw from + Z.b2z nine + n) - Z.to_nat (iw from + n))%nat with (Z.to_nat (Z.b2z nine)) by lia.
    rewrite Eb, take_app_ge by (unfold n; lia).
    set (rest := take (Z.to_nat (iw from + n) - length l) rest0 ++ drop (Z.to_nat (iw from + Z.b2z nine + n)) (buf dest)).
    assert (Lr : Z.of_nat (length rest) + (iw from + fw from) + Z.b2z nine = len dest).
    { unfold rest. rewrite length_app, length_take, length_drop. rewrite Eb, length_app in Nl. unfold n, frac0 in *. lia. }
    assert (St : (if nine then store (take (Z.to_nat (Z.b2z nine)) (buf dest) ++ (l ++ take (Z.to_nat (iw from + n) - length l) rest0) ++
        drop (Z.to_nat (iw from + Z.b2z nine + n)) (buf dest)) 0 0
      else Some (take (Z.to_nat (Z.b2z nine)) (buf dest) ++ (l ++ take (Z.to_nat (iw from + n) - length l) rest0) ++
        drop (Z.to_nat (iw from + Z.b2z nine + n)) (buf dest))) = Some ((if nine then [0] else []) ++ l ++ rest)).
    { unfold rest. rewrite <- !app_assoc. destruct nine; [|done]. destruct (buf dest) as [|y b]; [cbn in *; lia|done]. }
    rewrite St. cbn [mbind option_bind]. eexists _, _, (if nine then [0] else []), rest. split; [done|].
    assert (Lp : Z.of_nat (length (if nine then [0] else [])) = Z.b2z nine) by (by destruct nine).
    rewrite Z.min_l by lia. split; cbn [buf Decimal.len intg sign]; try done.
    + lia.
    + rewrite !length_app. lia.
    + unfold DIG_PER_DEC1. lia.
    + unfold DIG_PER_DEC1. rewrite ROUND_UP_mul by lia. done.
    + destruct nine; auto.
    + intros P x r E. split; [|left; unfold DIG_PER_DEC1; lia]. destruct nine eqn:N; [cbn in E; injection E as <-; unfold DIG_BASE; lia|].
      by eapply (Top eq_refl).
    + intros P. unfold nine. by rewrite bool_decide_false by (unfold frac0; lia).
  - apply orb_false_iff in Copy as (T & N). apply bool_decide_eq_false in T.
    assert (to = None) as Et by (destruct to; [exfalso; apply T; eauto|done]). unfold dest. rewrite Et in *. cbn [default] in *.
    exists (iw from), from, [], rest0. split; [done|]. split; try done; try (by left); [by rewrite Et|].
    intros P x r E. by eapply (Top N).
Qed.

(** What [decimal_round] promises. *)
Definition rounds (mode : decimal_round_mode) (r : option (Z * decimal_t)) : Prop :=
  let J := Z.max (fw from) (ROUND_UP (Z.max scale 0)) in
  exists to', r = Some (E_DEC_OK, to') /\ wf to' /\ frac to' = Z.max scale 0 /\
    (sign to' = sign from \/ absval J to' = 0) /\
    absval J to' = round_to (up mode) (10 ^ (9 * J - scale)) (absval J from).

Lemma zero_ok dest : len dest = Z.of_nat (length (buf dest)) -> 0 < len dest ->
  exists d', decimal_make_zero dest = Some d' /\ wf d' /\ frac d' = 0 /\ forall J, 0 <= J -> absval J d' = 0.
Proof.
  intros L P. destruct dest as [i f n sg [|x b]]; cbn [Decimal.len buf] in *; [cbn in L; lia|].
  unfold decimal_make_zero. cbn [buf Decimal.len].
  change (store (x :: b) 0 0) with (Some (0 :: b)). cbn [mbind option_bind]. eexists. split; [done|].
  destruct (result_ok 1 0 b [0] n 0) as (W' & _); try done; try lia.
  repeat constructor; unfold DIG_BASE; lia.
Qed.

(** More digits than the operand has: zeroes are appended. *)
Lemma round_longer mode l intg0 dest pre rest : staged l intg0 dest pre rest ->
  Z.of_nat (length l) = iw from + fw from -> Forall in_base l -> dval from = hl DIG_BASE l -> frac from <= scale ->
  rounds mode (if bool_decide (frac0_of scale > fw from)
    then m ← zero_words (frac0_of scale - fw from) (intg0 + fw from) (buf dest);
         Some (E_DEC_OK, mk_decimal (intg dest) scale (len (default from to)) (sign dest) m)
    else Some (E_DEC_OK, mk_decimal (intg dest) scale (len (default from to)) (sign dest) (buf dest))).
Proof.
  intros [Eb Ew Ln Sm G Rg Sg Pr _ _] Ll Fl V Sc. destruct (frac0_spec scale) as (S9 & Rs).
  pose proof (iw_nonneg from W) as I0. pose proof (fw_bounds from W) as Fb. pose proof (wf_frac from W) as Fr. pose proof (wf_sign from W).
  rewrite Z.max_l in Rs by lia. rewrite Z.max_l in Rs by lia.
  set (e := Z.to_nat (frac0_of scale - fw from)). assert (Lp : (length pre <= 1)%nat) by (destruct Pr as [-> | ->]; cbn; lia).
  assert (E : exists t, (if bool_decide (frac0_of scale > fw from)
    then m ← zero_words (frac0_of scale - fw from) (intg0 + fw from) (buf dest);
         Some (E_DEC_OK, mk_decimal (intg dest) scale (len (default from to)) (sign dest) m)
    else Some (E_DEC_OK, mk_decimal (intg dest) scale (len (default from to)) (sign dest) (buf dest))) =
    Some (E_DEC_OK, mk_decimal (intg dest) scale (len dest) (sign dest) ((pre ++ l ++ replicate e 0) ++ t)) /\
    Z.of_nat (length ((pre ++ l ++ replicate e 0) ++ t)) = len dest).
  { rewrite <- Sm. rewrite Eb in Ln |- *. rewrite !length_app in Ln. destruct (bool_decide_reflect (frac0_of scale > fw from)) as [Gt|Le].
    - pose proof (zero_words_spec (frac0_of scale - fw from) (pre ++ l) (take e rest) (drop e rest) (intg0 + fw from)) as Zw.
      rewrite take_drop, <- !app_assoc in Zw. rewrite Zw by (rewrite ?length_app, ?length_take; lia). cbn [mbind option_bind].
      exists (drop e rest). rewrite length_take, Nat.min_l by lia. rewrite <- !app_assoc. split; [done|].
      rewrite !length_app, length_replicate, length_drop. lia.
    - exists rest. assert (e = 0%nat) as -> by lia. cbn [replicate]. rewrite app_nil_r, <- !app_assoc, !length_app. split; [done|lia]. }
  destruct E as (t & -> & Lt).
  destruct (result_ok (intg dest) scale t (pre ++ l ++ replicate e 0) (len dest) (sign dest)) as (W' & Vr); try done.
  { apply Forall_app. split; [destruct Pr as [-> | ->]; repeat constructor; unfold DIG_BASE; lia|]. apply Forall_app.
    split; [done|apply in_base_zeros]. }
  { lia. }
  { rewrite !length_app, length_replicate, Rs, Rg. lia. }
  { intros N. apply app_eq_nil in N as (_ & N). apply app_eq_nil in N as (N & _). rewrite N in Ll. cbn in Ll.
    exfalso. pose proof (wf_intg from W). unfold iw, fw in Ll. rewrite !ROUND_UP_div in Ll by lia. Zlia. }
  { lia. }
  assert (Vp : hl DIG_BASE (pre ++ l) = hl DIG_BASE l) by (destruct Pr as [-> | ->]; [done|cbn [app hl]; lia]).
  set (J := Z.max (fw from) (ROUND_UP (Z.max scale 0))).
  assert (EJ : J = frac0_of scale) by (unfold J; replace (Z.max scale 0) with scale by lia; rewrite Rs; lia).
  set (d' := mk_decimal _ _ _ _ _) in *.
  assert (A : absval J d' = absval J from).
  { rewrite EJ, <- Rs, Vr. rewrite app_assoc, hl_app, hl_zeros, Vp, length_replicate, Z.add_0_r by done.
    rewrite absval_dval, V by lia. do 2 f_equal. lia. }
  exists d'. split_and!; [done|done|cbn [frac d']; lia|left; done|].
  fold J. rewrite A. symmetry. destruct Cf as (c & Cd). rewrite absval_dval, Cd by lia.
  rewrite base_10, <- Z.mul_assoc, <- Z.pow_add_r by lia.
  replace (9 * fw from - frac from + 9 * (J - fw from)) with (scale - frac from + (9 * J - scale)) by lia.
  rewrite Z.pow_add_r, Z.mul_assoc by lia. apply round_to_multiple. apply Z.pow_pos_nonneg; lia.
Qed.

Context (mode : decimal_round_mode) (Hm : mode = HALF_UP \/ mode = TRUNCATE).

(** Fewer digits, some words of which are kept. *)
Lemma round_shorter l intg0 dest pre rest : staged l intg0 dest pre rest ->
  Z.of_nat (length l) = iw from + fw from -> Forall in_base l -> dval from = hl DIG_BASE l -> scale < frac from ->
  0 < iw from + frac0_of scale ->
  rounds mode (round_words mode (round_digit_of mode (sign from)) scale (frac0_of scale) (fw from) intg0 E_DEC_OK dest).
Proof.
  intros [Eb Ew Ln Sm G Rg Sg Pr Top _] Ll Fl V Sc Nz. specialize (Top Nz). destruct (frac0_spec scale) as (S9 & Rs).
  pose proof (iw_nonneg from W) as I0. pose proof (fw_bounds from W) as Fb. pose proof (fw_nonneg from W) as F0.
  pose proof (wf_sign from W). assert (Lp : (length pre <= 1)%nat) by (destruct Pr as [-> | ->]; cbn; lia).
  set (frac0 := frac0_of scale) in *. assert (Fle : frac0 <= fw from) by lia.
  set (n := Z.to_nat (intg0 + frac0)).
  assert (Lw : (n <= length (pre ++ l))%nat) by (rewrite length_app; lia).
  destruct (last_word (take n (pre ++ l))) as (k & z & Ek).
  { intros E. apply (f_equal length) in E. rewrite length_take in E. cbn in E. lia. }
  set (rr := drop n (pre ++ l)).
  assert (Es : pre ++ l = k ++ z :: rr).
  { rewrite <- (take_drop n (pre ++ l)), Ek, <- app_assoc. done. }
  assert (Lk : Z.of_nat (length k) + 1 = intg0 + frac0).
  { apply (f_equal length) in Ek. rewrite length_take, (length_app k) in Ek. cbn [length] in Ek. lia. }
  assert (Lr : Z.of_nat (length rr) = fw from - frac0) by (unfold rr; rewrite length_drop, length_app; lia).
  assert (Fw : Forall in_base (k ++ z :: rr)).
  { rewrite <- Es. apply Forall_app. split; [|done]. destruct Pr as [-> | ->]; repeat constructor; unfold DIG_BASE; lia. }
  destruct (round_words_spec mode (sign from) scale frac0 (fw from) intg0 dest k z rr rest Hm) as (to' & E & W' & Ft & Sn & A);
    try done; try lia.
  { rewrite Eb, app_assoc, Es, <- app_assoc. done. }
  { intros -> Zb. destruct Pr as [-> | ->]; [cbn [length] in Ew; lia|]. cbn in Es. injection Es as <- _. lia. }
  { intros N. destruct k as [|x k]; [done|]. apply Forall_app in Fw as (Fk & _). apply hl_head; [done|].
    by eapply (Top x). }
  { intros ->. by eapply (Top z). }
  assert (Vp : hl DIG_BASE (k ++ z :: rr) = dval from).
  { rewrite <- Es, V. destruct Pr as [-> | ->]; [done|cbn [app hl]; lia]. }
  exists to'. cbv zeta. rewrite Rs. replace (Z.max (fw from) (Z.max frac0 0)) with (fw from) by lia. split_and!; [done|done|done|by rewrite <- Sg|].
  rewrite A, Vp, absval_dval, Z.sub_diag by lia. f_equal. rewrite Z.mul_1_r. done.
Qed.

(** No word is kept: the number is rounded to one or to zero. *)
Lemma round_to_unit l intg0 dest pre rest : staged l intg0 dest pre rest ->
  Z.of_nat (length l) = iw from + fw from -> Forall in_base l -> dval from = hl DIG_BASE l -> scale = 0 -> 0 < frac from ->
  iw from = 0 ->
  rounds mode (round_words mode (round_digit_of mode (sign from)) scale (frac0_of scale) (fw from) intg0 E_DEC_OK dest).
Proof.
  intros [Eb Ew Ln Sm G Rg Sg Pr _ Nn] Ll Fl V Sc Fp Iz. pose proof (fw_bounds from W) as Fb. pose proof (wf_sign from W) as Si.
  rewrite Sc in *. change (frac0_of 0) with 0 in *. rewrite Nn in * by lia. cbn [app length] in *. assert (intg0 = 0) as -> by lia.
  assert (intg dest = 0) as Gi by (rewrite ROUND_UP_div in Rg by lia; Zlia).
  destruct l as [|r0 rr]; [cbn in Ll; lia|]. rewrite Iz, Z.add_0_l in Ll.
  apply Forall_cons_1 in Fl as (R0 & Fl). pose proof (hl_range rr Fl) as Hr. set (c := DIG_BASE ^ Z.of_nat (length rr)) in *.
  assert (Cp : 0 < c) by (apply pow_base_pos; lia).
  assert (U : 10 ^ (9 * fw from - 0) = 2 * (500000000 * c)).
  { rewrite Z.sub_0_r, <- base_10, <- Ll by lia. cbn [length]. rewrite Nat2Z.inj_succ, Z.pow_succ_r by lia. fold c. unfold DIG_BASE. lia. }
  set (inc := up mode && bool_decide (500000000 <= r0)).
  assert (Vr : round_to (up mode) (10 ^ (9 * fw from - 0)) (dval from) = Z.b2z inc * 10 ^ (9 * fw from)).
  { rewrite U, V. cbn [hl]. fold c. unfold in_base, DIG_BASE in R0.
    pose proof (round_to_split (up mode) (500000000 * c) 0 (r0 * c + hl DIG_BASE rr) ltac:(lia) ltac:(nia)) as Rt.
    rewrite Z.mul_0_l, !Z.add_0_l in Rt. rewrite Rt, <- (Z.sub_0_r (9 * fw from)), U. do 2 f_equal. unfold inc. f_equal.
    apply bool_decide_ext. split; intros; nia. }
  unfold rounds, round_words. cbv zeta. rewrite Sc. change (ROUND_UP (Z.max 0 0)) with 0.
  replace (Z.max (fw from) 0) with (fw from) by lia.
  rewrite (absval_dval (fw from) from), Z.sub_diag, Z.mul_1_r by lia.
  change (0 = 0 * DIG_PER_DEC1) with (0 = 0). rewrite (bool_decide_true (0 = 0)) by done. rewrite Eb. unfold round_aligned.
  pose proof (do_inc_spec mode Hm (sign from) 0 (fw from) 0 [] r0 (rr ++ rest)) as Di. cbn [app length] in *.
  change (Z.of_nat 0 - 1) with (0 + 0 - 1) in Di. rewrite Di by (unfold in_base in R0; lia). fold inc. cbn [mbind option_bind].
  destruct inc; cbn [Z.b2z] in Vr.
  - rewrite (bool_decide_false (0 + 0 > 0)) by lia. cbn [mbind option_bind].
    change (store (r0 :: rr ++ rest) (0 + 0 - 1 + 1) DIG_BASE) with (Some (DIG_BASE :: rr ++ rest)). cbn [mbind option_bind].
    rewrite (bool_decide_true (0 < fw from)) by lia. rewrite ?(bool_decide_true (0 = 0)) by done. cbn [andb mbind option_bind].
    pose proof (zero_words_spec (len dest - 1) [DIG_BASE] (rr ++ rest) [] 1 eq_refl) as Zw. rewrite !app_nil_r in Zw. cbn [app] in Zw.
    rewrite Eb in Ln. cbn [length] in Ln. rewrite Zw by lia. cbn [mbind option_bind]. set (zs := replicate _ 0).
    unfold round_carry. change (load (DIG_BASE :: zs) (0 + 0 - 1 + 1)) with (Some DIG_BASE). cbn [mbind option_bind].
    rewrite (bool_decide_true (DIG_BASE >= DIG_BASE)) by lia.
    change (store (DIG_BASE :: zs) (0 + 0 - 1 + 1) (DIG_BASE - DIG_BASE)) with (Some (0 :: zs)). cbn [mbind option_bind].
    change (carry_on (Z.to_nat (0 + 0 - 1 + 1)) (0 + 0 - 1 + 1) 1 (0 :: zs)) with (Some (0 :: zs, -1, 1)). cbn [mbind option_bind].
    rewrite (bool_decide_true (1 <> 0)), (bool_decide_false (0 + 0 >= len dest)) by lia.
    change (copy_back (Z.to_nat (0 + Z.max 0 0)) None (0 + Z.max 0 0) (0 + Z.max 0 0 + 1) (0 :: zs)) with (Some (0 :: zs)).
    cbn [mbind option_bind]. change (store (0 :: zs) 0 1) with (Some (1 :: zs)). cbn [mbind option_bind]. rewrite Gi.
    change (Z.rem (0 + 1) DIG_PER_DEC1) with 1. rewrite (bool_decide_true (1 <> 0)) by lia.
    change (load powers10 1) with (Some 10). change (load (1 :: zs) 0) with (Some 1). cbn [mbind option_bind].
    rewrite (bool_decide_false (1 >= 10)), (bool_decide_false (0 < 0)) by lia. eexists. split; [done|].
    destruct (result_ok (0 + 1) 0 zs [1] (len dest) (sign dest)) as (W' & Va); try done.
    { repeat constructor; unfold DIG_BASE; lia. }
    { rewrite length_app. unfold zs. rewrite length_replicate. cbn [length]. lia. }
    { lia. }
    cbn [app] in W', Va. split_and!; [done|done|by left|]. rewrite Vr, absval_up by (done || (unfold fw at 1; cbn [frac]; change (ROUND_UP 0) with 0; lia)).
    match goal with |- context [fw (mk_decimal ?a ?b ?c ?d ?e)] => change (fw (mk_decimal a b c d e)) with (ROUND_UP 0) end.
    rewrite Va. change (ROUND_UP 0) with 0. rewrite Z.sub_0_r, base_10 by lia. done.
  - rewrite (bool_decide_true (0 + 0 = 0)) by done. cbn [mbind option_bind].
    destruct (zero_ok dest Ln ltac:(lia)) as (d' & Ed & W' & Fd & A0).
    rewrite Ed. cbn [mbind option_bind]. exists d'. rewrite A0 by lia. split_and!; [done|done|done|by right|by rewrite Vr].
Qed.

(** All the words in front of the point are cut off, and the rest is less than half. *)
Lemma round_whole l rest0 intg0 dest pre rest : staged l intg0 dest pre rest -> buf from = l ++ rest0 ->
  Z.of_nat (length l) = iw from + fw from -> Forall in_base l -> dval from = hl DIG_BASE l -> scale = - 9 * iw from ->
  0 < iw from -> ~ (mode = HALF_UP /\ 500000000 <= at_ (buf from) 0) ->
  rounds mode (round_words mode (round_digit_of mode (sign from)) scale (frac0_of scale) (fw from) intg0 E_DEC_OK dest).
Proof.
  intros [Eb Ew Ln Sm G Rg Sg Pr _ Nn] Ef Ll Fl V Sc Ip Half. pose proof (fw_nonneg from W) as F0.
  assert (E0 : frac0_of scale = - iw from) by (destruct (frac0_spec scale) as (S9 & _); lia).
  rewrite E0 in *. rewrite Nn in * by lia. cbn [app length] in *. assert (intg0 = iw from) as -> by lia.
  destruct l as [|r0 rr]; [cbn in Ll; lia|]. rewrite (first_of_words _ _ r0 rr Ef eq_refl) in Half.
  apply Forall_cons_1 in Fl as (R0 & Fl). pose proof (hl_range rr Fl) as Hr. set (c := DIG_BASE ^ Z.of_nat (length rr)) in *.
  assert (Cp : 0 < c) by (apply pow_base_pos; lia). unfold in_base, DIG_BASE in R0.
  assert (Inc : up mode && bool_decide (500000000 <= r0) = false).
  { unfold up. destruct (bool_decide_reflect (mode = HALF_UP)); [|done]. apply bool_decide_eq_false. tauto. }
  unfold rounds, round_words. cbv zeta. replace (Z.max scale 0) with 0 by lia. change (ROUND_UP 0) with 0.
  replace (Z.max (fw from) 0) with (fw from) by lia.
  rewrite (absval_dval (fw from) from), Z.sub_diag, Z.mul_1_r by lia.
  rewrite (bool_decide_true (scale = - iw from * DIG_PER_DEC1)) by (unfold DIG_PER_DEC1; lia). rewrite Eb. unfold round_aligned.
  pose proof (do_inc_spec mode Hm (sign from) (- iw from) (fw from) (iw from) [] r0 (rr ++ rest)) as Di. cbn [app length] in *.
  replace (iw from + - iw from - 1) with (Z.of_nat 0 - 1) by lia. rewrite Di, Inc by lia. cbn [mbind option_bind].
  rewrite (bool_decide_true (- iw from + iw from = 0)) by lia. cbn [mbind option_bind].
  destruct (zero_ok dest Ln ltac:(lia)) as (d' & Ed & W' & Fd & A0). rewrite Ed. cbn [mbind option_bind]. exists d'. rewrite A0 by lia.
  split_and!; [done|done|done|by right|]. symmetry.
  assert (U : 10 ^ (9 * fw from - scale) = 2 * (500000000 * c)).
  { replace (9 * fw from - scale) with (9 * (iw from + fw from)) by lia. rewrite <- base_10, <- Ll by lia. cbn [length].
    rewrite Nat2Z.inj_succ, Z.pow_succ_r by lia. fold c. unfold DIG_BASE. lia. }
  rewrite U, V. cbn [hl]. fold c.
  pose proof (round_to_split (up mode) (500000000 * c) 0 (r0 * c + hl DIG_BASE rr) ltac:(lia) ltac:(nia)) as Rt.
  rewrite Z.mul_0_l, !Z.add_0_l in Rt. rewrite Rt. replace (bool_decide (500000000 * c <= _)) with (bool_decide (500000000 <= r0)).
  - rewrite Inc. done.
  - apply bool_decide_ext. split; intros; nia.
Qed.

Lemma decimal_round_spec : ~ (mode = HALF_UP /\ 0 < iw from /\ scale = - 9 * iw from /\ 500000000 <= at_ (buf from) 0) ->
  rounds mode (decimal_round from to scale mode).
Proof.
  intros Edge. destruct (words_of from W) as (l & rest0 & Eb & Ll & Fl & V). destruct (frac0_spec scale) as (S9 & Rs).
  pose proof (iw_nonneg from W) as I0. pose proof (fw_nonneg from W) as F0. pose proof (fw_bounds from W) as Fb.
  pose proof (wf_intg from W) as G0. pose proof (wf_frac from W) as Fr0.
  assert (Iw : intg from <= 9 * iw from) by (unfold iw; rewrite ROUND_UP_div by lia; Zlia).
  destruct (stage_words l rest0 Eb Ll Fl) as (nine & En & intg0 & dest & pre & rest & Es & St). cbv zeta in Es.
  unfold decimal_round. fold (frac0_of scale) (iw from) (fw from). rewrite En. cbn [mbind option_bind].
  rewrite (bool_decide_false (frac0_of scale + iw from > len (default from to))) by lia.
  destruct (bool_decide_reflect (scale + intg from < 0)) as [Lo|Hi].
  - destruct (zero_ok (default from to) Len ltac:(lia)) as (d' & Ed & W' & Fd & A0). rewrite Ed. cbn [mbind option_bind].
    exists d'. cbv zeta. rewrite A0 by lia. split_and!; [done|done|lia|by right|]. symmetry.
    replace (Z.max (fw from) (ROUND_UP (Z.max scale 0))) with (fw from) by (rewrite Rs; lia).
    rewrite absval_dval, Z.sub_diag, Z.mul_1_r by lia. pose proof (canonical_bound from W C) as Cb.
    apply round_to_small; [lia|]. apply Z.lt_le_trans with (10 ^ Z.succ (intg from + 9 * fw from)); [rewrite Z.pow_succ_r by lia; lia|].
    apply Z.pow_le_mono_r; lia.
  - rewrite Es. cbn [mbind option_bind]. destruct (decide (frac from <= scale)) as [Le|Gt].
    + pose proof (round_longer mode l intg0 dest pre rest St Ll Fl V Le) as R.
      destruct (bool_decide (frac0_of scale > fw from)); [done|]. rewrite (bool_decide_true (scale >= frac from)) by lia. done.
    + rewrite !bool_decide_false by lia. destruct (decide (0 < iw from + frac0_of scale)).
      * by apply (round_shorter l intg0 dest pre rest); try lia.
      * destruct (decide (iw from = 0)); [apply (round_to_unit l intg0 dest pre rest); done || lia|].
        apply (round_whole l rest0 intg0 dest pre rest); done || lia || (intros (Eu & Lg); apply Edge; split_and!; done || lia).
Qed.
End Round.

(** ** Properties *)

(** C5 [decimal_round] in the modes [HALF_UP] and [TRUNCATE] rounds exactly: for a
    result with room for one more word, or for the operand itself, and every
    scale, also a negative one, it returns [E_DEC_OK] and the operand's value
    rounded to a multiple of [10 ^ -scale], halves away from zero or everything
    towards zero, with [scale] digits behind the point.  A separate result is
    copied from as many words of the operand as the result has, so the operand's
    buffer must have them too.  The one exception is a number of at least
    [5 * 10 ^ (n - 1)] with [n = 9 * iw] digits that is rounded up to [10 ^ n]. *)
Theorem decimal_round_value from to scale mode :
  wf from -> canonical from -> canonical_frac from -> 0 < intg from + frac from ->
  mode = HALF_UP \/ mode = TRUNCATE ->
  ~ (mode = HALF_UP /\ 0 < iw from /\ scale = - 9 * iw from /\ 500000000 <= at_ (buf from) 0) ->
  let J := Z.max (fw from) (ROUND_UP (Z.max scale 0)) in
  let dest := default from to in
  len dest = Z.of_nat (length (buf dest)) -> iw from + 1 + J <= len dest -> (is_Some to -> iw from + J <= len from) ->
  exists to', decimal_round from to scale mode = Some (E_DEC_OK, to') /\ wf to' /\ frac to' = Z.max scale 0 /\
    sval J to' = (if bool_decide (sign from = 0) then 1 else -1) *
                 round_to (bool_decide (mode = HALF_UP)) (10 ^ (9 * J - scale)) (absval J from).
Proof.
  intros W C Cf P Hm Edge J dest L Room Over. destruct (frac0_spec scale) as (_ & Rs). pose proof (fw_nonneg from W).
  assert (Ej : J = Z.max (fw from) (frac0_of scale)) by (unfold J; rewrite Rs; lia).
  destruct (decimal_round_spec from W C Cf P to scale L ltac:(fold dest; lia) ltac:(intros; rewrite <- Ej; auto) mode Hm Edge)
    as (to' & E & W' & F & Sg & A).
  exists to'. split_and!; [done|done|done|]. fold J in Sg, A. fold (up mode). rewrite <- A. unfold sval.
  destruct Sg as [-> | ->]; repeat case_match; lia.
Qed.

Definition w_round : decimal_t := mk_decimal 9 2 4 1 [999999999; 950000000; 7; 7].

Lemma decimal_round_value_witness :
  exists to', decimal_round w_round None 1 HALF_UP = Some (E_DEC_OK, to') /\ wf to' /\ frac to' = 1 /\
    sval 1 to' = - 1000000000000000000.
Proof.
  apply (decimal_round_value w_round None 1 HALF_UP);
    [by apply decimal_wfb_wf|intros _; reflexivity|by exists 99999999995|reflexivity|by left|by intros (_ & _ & E & _)|reflexivity
    |vm_compute; congruence|by intros []].
Defined.

(** What the modes do beyond that: a number of whole words is
    rounded to zero instead of the next power of ten; [HALF_EVEN] rounds 2.51 to 2,
    since it only looks at the first digit that is cut off; [CEILING] leaves 1.101
    rounded to two digits at 1.10; and a fraction that becomes zero in a buffer it
    fills is cleared beyond the end of the buffer.  5 rounded to two digits behind
    the point into a separate result of three words reads a word behind the
    operand, whose buffer has one. *)
Theorem decimal_round_gaps :
  (exists d, decimal_round (mk_decimal 9 0 2 0 [999999999; 0]) None (-9) HALF_UP = Some (E_DEC_OK, d) /\ dval d = 0) /\
  (exists d, decimal_round (mk_decimal 1 2 3 0 [2; 510000000; 0]) None 0 HALF_EVEN = Some (E_DEC_OK, d) /\ absval 0 d = 2) /\
  (exists d, decimal_round (mk_decimal 1 4 3 0 [1; 100100000; 0]) None 2 CEILING = Some (E_DEC_OK, d) /\ dval d = 1100000000) /\
  decimal_round (mk_decimal 0 9 1 0 [4]) None 8 HALF_UP = None /\
  decimal_round (mk_decimal 1 0 1 0 [5]) (Some (mk_decimal 0 0 3 0 [0; 0; 0])) 2 HALF_UP = None.
Proof. split_and!; [eexists; split; reflexivity..|reflexivity|reflexivity]. Qed.
End DecimalRoundMain.
