(* ===== verification/DecimalShift.v ===== *)
(** * DecimalShift: multiplication of decimals by powers of ten

    [digits_bounds], [do_mini_left_shift], [do_mini_right_shift] and
    [decimal_shift] of [strings/decimal.c].  Positions of digits count from the
    first digit of the first word; a pointer to a word is an index. *)
From stdpp Require Import base tactics option list numbers.
From Stdlib Require Import ZArith Lia.
From S2P Require Import Prelude Decimal DecimalRound.

Module DecimalShift.
Import Decimal DecimalRound.

(** ** Model *)

(** [while (buf_beg < end && *buf_beg == 0) buf_beg++;], [n] words are left. *)
Fixpoint skip_first (n : nat) (b : list Z) (buf_beg : Z) : option Z :=
  match n with
  | O => Some buf_beg
  | S n => x ← load b buf_beg; if bool_decide (x = 0) then skip_first n b (buf_beg + 1) else Some buf_beg
  end.

(** [while (buf_end > buf_beg && *buf_end == 0) buf_end--;], [n] words are left. *)
Fixpoint skip_last (n : nat) (b : list Z) (buf_end : Z) : option Z :=
  match n with
  | O => Some buf_end
  | S n => x ← load b buf_end; if bool_decide (x = 0) then skip_last n b (buf_end - 1) else Some buf_end
  end.

(** [for (; *buf_beg < powers10[i--]; start++) ;], at most [n] digits. *)
Fixpoint first_digit (n : nat) (x i start : Z) : option Z :=
  w ← load powers10 i;
  if bool_decide (x < w)
  then match n with O => None | S n => first_digit n x (i - 1) (start + 1) end
  else Some start.

(** [for (; *buf_end % powers10[i++] == 0; stop--);], at most [n] digits. *)
Fixpoint last_digit (n : nat) (x i stop : Z) : option Z :=
  w ← load powers10 i;
  if bool_decide (Z.rem x w = 0)
  then match n with O => None | S n => last_digit n x (i + 1) (stop - 1) end
  else Some stop.

Definition digits_bounds (from : decimal_t) : option (Z * Z) :=
  let end_ := ROUND_UP (intg from) + ROUND_UP (frac from) in
  buf_beg ← skip_first (Z.to_nat end_) (buf from) 0;
  if bool_decide (buf_beg >= end_) then Some (0, 0)
  else
    let '(start, i) :=
      if bool_decide (buf_beg = 0) && bool_decide (intg from <> 0)
      then let i := Z.rem (intg from - 1) DIG_PER_DEC1 + 1 in (DIG_PER_DEC1 - i, i - 1)
      else (buf_beg * DIG_PER_DEC1, DIG_PER_DEC1 - 1) in
    x ← load (buf from) buf_beg;
    start ← first_digit 9 x i start;
    buf_end ← skip_last (Z.to_nat (end_ - 1 - buf_beg)) (buf from) (end_ - 1);
    let '(stop, i) :=
      if bool_decide (buf_end = end_ - 1) && bool_decide (frac from <> 0)
      then let i := Z.rem (frac from - 1) DIG_PER_DEC1 + 1 in
           (buf_end * DIG_PER_DEC1 + i, DIG_PER_DEC1 - i + 1)
      else ((buf_end + 1) * DIG_PER_DEC1, 1) in
    x ← load (buf from) buf_end;
    stop ← last_digit 9 x i stop;
    Some (start, stop).

Definition do_mini_left_shift (m : list Z) (shift beg last : Z) : option (list Z) :=
  let from := ROUND_UP (beg + 1) - 1 in
  let end_ := ROUND_UP last - 1 in
  let c_shift := DIG_PER_DEC1 - shift in
  c ← load powers10 c_shift;
  p ← load powers10 shift;
  m ← (if bool_decide (Z.rem beg DIG_PER_DEC1 < shift)
       then x ← load m from; store m (from - 1) (Z.quot x c)
       else Some m);
  m ← for_up (Z.to_nat (end_ - from)) from
        (fun k m => x ← load m k; y ← load m (k + 1); store m k (s32 (Z.rem x c * p + Z.quot y c))) m;
  let from := Z.max from end_ in
  x ← load m from;
  store m from (s32 (Z.rem x c * p)).

Definition do_mini_right_shift (m : list Z) (shift beg last : Z) : option (list Z) :=
  let from := ROUND_UP last - 1 in
  let end_ := ROUND_UP (beg + 1) - 1 in
  let c_shift := DIG_PER_DEC1 - shift in
  c ← load powers10 c_shift;
  p ← load powers10 shift;
  m ← (if bool_decide (DIG_PER_DEC1 - (Z.rem (last - 1) DIG_PER_DEC1 + 1) < shift)
       then x ← load m from; store m (from + 1) (s32 (Z.rem x p * c))
       else Some m);
  m ← for_up (Z.to_nat (from - end_)) 0
        (fun k m => x ← load m (from - k); y ← load m (from - k - 1);
                    store m (from - k) (s32 (Z.quot x p + Z.rem y p * c))) m;
  let from := Z.min from end_ in
  x ← load m from;
  store m from (Z.quot x p).

(** The digits are moved inside the words: the words, [shift], [new_point], [beg]
    and [end] after it. *)
Definition mini_shift (len shift new_point beg end_ : Z) (m : list Z) : option (list Z * Z * Z * Z * Z) :=
  let '(l_mini_shift, r_mini_shift, do_left) :=
    if bool_decide (shift > 0)
    then let l := Z.rem shift DIG_PER_DEC1 in (l, DIG_PER_DEC1 - l, bool_decide (l <= beg))
    else let r := Z.rem (- shift) DIG_PER_DEC1 in
         (DIG_PER_DEC1 - r, r, negb (bool_decide (len * DIG_PER_DEC1 - end_ >= r))) in
  '(m, mini) ←
    (if (do_left : bool)
     then m ← do_mini_left_shift m l_mini_shift beg end_; Some (m, - l_mini_shift)
     else m ← do_mini_right_shift m r_mini_shift beg end_; Some (m, r_mini_shift));
  Some (m, shift + mini, new_point + mini, beg + mini, end_ + mini).

(** Whole words are moved to the front or to the back. *)
Definition move_words (new_front beg end_ : Z) (m : list Z) : option (list Z * Z) :=
  if bool_decide (new_front > 0)
  then
    let d_shift := Z.quot new_front DIG_PER_DEC1 in
    let to := ROUND_UP (beg + 1) - 1 - d_shift in
    let barier := ROUND_UP end_ - 1 - d_shift in
    m ← for_up (Z.to_nat (barier - to + 1)) to (fun k m => x ← load m (k + d_shift); store m k x) m;
    let to := Z.max to (barier + 1) in
    m ← zero_words (barier + d_shift - to + 1) to m;
    Some (m, - d_shift)
  else
    let d_shift := Z.quot (1 - new_front) DIG_PER_DEC1 in
    let to := ROUND_UP end_ - 1 + d_shift in
    let barier := ROUND_UP (beg + 1) - 1 + d_shift in
    m ← for_up (Z.to_nat (to - barier + 1)) 0 (fun k m => x ← load m (to - k - d_shift); store m (to - k) x) m;
    let to := Z.min to (barier - 1) in
    m ← for_up (Z.to_nat (to - (barier - d_shift) + 1)) 0 (fun k m => store m (to - k) 0) m;
    Some (m, d_shift).

(** The words between the point and the digits are cleared. *)
Definition fill_gaps (new_point beg end_ : Z) (m : list Z) : option (list Z) :=
  let beg := ROUND_UP (beg + 1) - 1 in
  let end_ := ROUND_UP end_ - 1 in
  let new_point := if bool_decide (new_point <> 0) then ROUND_UP new_point - 1 else new_point in
  if bool_decide (new_point > end_)
  then for_up (Z.to_nat (new_point - end_)) 0 (fun k m => store m (new_point - k) 0) m
  else zero_words (beg - new_point) new_point m.

(** From the mini shift on, for a result that fits. *)
Definition shift_digits (dec : decimal_t) (shift new_point beg end_ digits_int digits_frac err : Z)
  : option (Z * decimal_t) :=
  let done_ m := Some (err, mk_decimal digits_int digits_frac (len dec) (sign dec) m) in
  '(m, shift', new_point, beg, end_) ←
    (if bool_decide (Z.rem shift DIG_PER_DEC1 <> 0) then mini_shift (len dec) shift new_point beg end_ (buf dec)
     else Some (buf dec, shift, new_point, beg, end_));
  if bool_decide (Z.rem shift DIG_PER_DEC1 <> 0) && bool_decide (shift' = 0) &&
     bool_decide (new_point - digits_int < DIG_PER_DEC1)
  then done_ m
  else
    let new_front := new_point - digits_int in
    '(m, d_shift) ←
      (if bool_decide (new_front >= DIG_PER_DEC1) || bool_decide (new_front < 0)
       then move_words new_front beg end_ m else Some (m, 0));
    let d := d_shift * DIG_PER_DEC1 in
    m ← fill_gaps (new_point + d) (beg + d) (end_ + d) m;
    done_ m.

Definition decimal_shift (dec : decimal_t) (shift : Z) : option (Z * decimal_t) :=
  let point := ROUND_UP (intg dec) * DIG_PER_DEC1 in
  let new_point := point + shift in
  if bool_decide (shift = 0) then Some (E_DEC_OK, dec)
  else
    '(beg, end_) ← digits_bounds dec;
    if bool_decide (beg = end_) then dec ← decimal_make_zero dec; Some (E_DEC_OK, dec)
    else
      let digits_int := Z.max (new_point - beg) 0 in
      let digits_frac := Z.max (end_ - new_point) 0 in
      let new_frac_len := ROUND_UP digits_frac in
      let new_len := ROUND_UP digits_int + new_frac_len in
      if bool_decide (new_len > len dec)
      then
        let lack := new_len - len dec in
        if bool_decide (new_frac_len < lack) then Some (E_DEC_OVERFLOW, dec)
        else
          let new_frac_len := new_frac_len - lack in
          let diff := digits_frac - new_frac_len * DIG_PER_DEC1 in
          '(_, dec) ← decimal_round dec None (end_ - point - diff) HALF_UP;
          let end_ := end_ - diff in
          let digits_frac := new_frac_len * DIG_PER_DEC1 in
          if bool_decide (end_ <= beg)
          then dec ← decimal_make_zero dec; Some (E_DEC_TRUNCATED, dec)
          else shift_digits dec shift new_point beg end_ digits_int digits_frac E_DEC_TRUNCATED
      else shift_digits dec shift new_point beg end_ digits_int digits_frac E_DEC_OK.

End DecimalShift.
