(* ===== verification/DecimalShiftProps.v ===== *)
(** * DecimalShiftProps: the digits of a decimal and the loops of [decimal_shift] *)
From stdpp Require Import base tactics option list numbers.
From Stdlib Require Import ZArith Lia.
From S2P Require Import Prelude Decimal DecimalProps DecimalMul DecimalRound DecimalShift.

Module DecimalShiftProps.
Import Decimal DecimalProps DecimalMul DecimalRound DecimalShift.

Lemma load_powers10 k : 0 <= k <= 9 -> load powers10 k = Some (10 ^ k).
Proof.
  intros K. assert (k = 0 \/ k = 1 \/ k = 2 \/ k = 3 \/ k = 4 \/ k = 5 \/ k = 6 \/ k = 7 \/ k = 8 \/ k = 9) as D by lia.
  repeat destruct D as [-> | D]; try reflexivity. by rewrite D.
Qed.

Lemma pow10_pos k : 0 <= k -> 0 < 10 ^ k.
Proof. intros. apply Z.pow_pos_nonneg; lia. Qed.

(** ** The first and the last digit *)

Lemma skip_first_spec b n : forall p, 0 <= p -> p + Z.of_nat n <= Z.of_nat (length b) ->
  exists q, skip_first n b p = Some q /\ p <= q <= p + Z.of_nat n /\
    (forall k, p <= k < q -> at_ b k = 0) /\ (q < p + Z.of_nat n -> at_ b q <> 0).
Proof.
  induction n as [|n IH]; intros p P L; cbn [skip_first].
  - exists p. split_and!; [done|lia|lia|intros; lia|lia].
  - rewrite load_at by lia. cbn [mbind option_bind]. destruct (bool_decide_reflect (at_ b p = 0)) as [E|E].
    + destruct (IH (p + 1)) as (q & -> & Q & Z0 & Nz); [lia|lia|]. exists q. split_and!; [done|lia|lia| |].
      * intros k K. destruct (decide (k = p)) as [->|]; [done|apply Z0; lia].
      * intros. apply Nz. lia.
    + exists p. split_and!; [done|lia|lia|intros; lia|done].
Qed.

Lemma skip_last_spec b n : forall p, Z.of_nat n <= p < Z.of_nat (length b) ->
  exists q, skip_last n b p = Some q /\ p - Z.of_nat n <= q <= p /\
    (forall k, q < k <= p -> at_ b k = 0) /\ (p - Z.of_nat n < q -> at_ b q <> 0).
Proof.
  induction n as [|n IH]; intros p P; cbn [skip_last].
  - exists p. split_and!; [done|lia|lia|intros; lia|lia].
  - rewrite load_at by lia. cbn [mbind option_bind]. destruct (bool_decide_reflect (at_ b p = 0)) as [E|E].
    + destruct (IH (p - 1)) as (q & -> & Q & Z0 & Nz); [lia|]. exists q. split_and!; [done|lia|lia| |].
      * intros k K. destruct (decide (k = p)) as [->|]; [done|apply Z0; lia].
      * intros. apply Nz. lia.
    + exists p. split_and!; [done|lia|lia|intros; lia|done].
Qed.

Lemma first_digit_spec x n : forall i start, 0 < x < 10 ^ (i + 1) -> 0 <= i <= 8 -> i <= Z.of_nat n ->
  exists e, first_digit n x i start = Some (start + (i - e)) /\ 0 <= e <= i /\ 10 ^ e <= x < 10 ^ (e + 1).
Proof.
  induction n as [|n IH]; intros i start X I N; cbn [first_digit]; rewrite load_powers10 by lia; cbn [mbind option_bind].
  - assert (i = 0) as -> by lia. change (10 ^ 0) with 1. rewrite bool_decide_false by lia. exists 0.
    change (10 ^ 0) with 1. split_and!; [f_equal; lia|lia..].
  - destruct (bool_decide_reflect (x < 10 ^ i)) as [Lt|Ge].
    + assert (i <> 0) by (intros ->; change (10 ^ 0) with 1 in Lt; lia).
      destruct (IH (i - 1) (start + 1)) as (e & -> & E & V); [replace (i - 1 + 1) with i by lia; lia|lia|lia|].
      exists e. split_and!; [f_equal; lia|lia..].
    + exists i. split_and!; [f_equal; lia|lia..].
Qed.

Lemma last_digit_spec x n : forall i stop, 0 < x < 10 ^ 9 -> (10 ^ (i - 1) | x) -> 1 <= i <= 9 -> 9 - i <= Z.of_nat n ->
  exists e, last_digit n x i stop = Some (stop - (e - (i - 1))) /\ i - 1 <= e <= 8 /\ (10 ^ e | x).
Proof.
  induction n as [|n IH]; intros i stop X D I N; cbn [last_digit]; rewrite load_powers10 by lia; cbn [mbind option_bind].
  - assert (i = 9) as -> by lia. rewrite Z.rem_mod_nonneg, Z.mod_small, bool_decide_false by lia.
    exists 8. split_and!; [f_equal; lia|lia|lia|done].
  - pose proof (pow10_pos i ltac:(lia)). rewrite Z.rem_mod_nonneg by lia. destruct (bool_decide_reflect (x mod 10 ^ i = 0)) as [E|E].
    + apply Z.mod_divide in E; [|lia]. assert (i <> 9).
      { intros ->. destruct E as (q & ->). nia. }
      destruct (IH (i + 1) (stop - 1)) as (e & -> & R & V); [done|replace (i + 1 - 1) with i by lia; done|lia|lia|].
      exists e. split_and!; [f_equal; lia|lia|lia|done].
    + exists (i - 1). split_and!; [f_equal; lia|lia|lia|done].
Qed.

(** The number has its digits at the positions from [beg] to before [end_]. *)
Record bounds (d : decimal_t) (beg end_ : Z) : Prop := {
  bd_order : 0 <= beg < end_;
  bd_end : end_ <= 9 * (iw d + fw d);
  bd_intg : 9 * iw d - intg d <= beg;
  bd_frac : end_ <= 9 * iw d + frac d;
  bd_before : forall k, 0 <= k < beg / 9 -> at_ (buf d) k = 0;
  bd_after : forall k, (end_ - 1) / 9 < k < iw d + fw d -> at_ (buf d) k = 0;
  bd_first : at_ (buf d) (beg / 9) < 10 ^ (9 - beg mod 9);
  bd_last : (10 ^ (9 * ((end_ - 1) / 9 + 1) - end_) | at_ (buf d) ((end_ - 1) / 9)) }.

Lemma dval_split d : wf d -> 0 < iw d + fw d ->
  exists hi, dval d = hi * DIG_BASE + at_ (buf d) (iw d + fw d - 1).
Proof.
  intros W P. unfold dval. set (n := iw d + fw d) in *.
  exists (ws (fun k => at_ (buf d) (n - 1 - (k + 1))) (Z.to_nat (n - 1))).
  replace (Z.to_nat n) with (1 + Z.to_nat (n - 1))%nat by lia. rewrite ws_app. cbn [ws]. change (Z.of_nat 0) with 0.
  change (DIG_BASE ^ 0) with 1. change (DIG_BASE ^ Z.of_nat 1) with DIG_BASE. change (Z.of_nat 1) with 1.
  rewrite Z.sub_0_r. lia.
Qed.

Lemma digits_bounds_spec d : wf d -> canonical d -> canonical_frac d ->
  (dval d = 0 /\ digits_bounds d = Some (0, 0)) \/
  (exists beg end_, digits_bounds d = Some (beg, end_) /\ bounds d beg end_).
Proof.
  intros W C Cf. unfold digits_bounds. fold (iw d) (fw d). pose proof (iw_nonneg d W) as I0. pose proof (fw_nonneg d W) as F0.
  pose proof (wf_fit d W) as Fit. pose proof (wf_len d W) as Len. pose proof (wf_intg d W) as G0. pose proof (wf_frac d W) as Fr0.
  pose proof (fw_bounds d W) as Fb. assert (Ib : intg d <= 9 * iw d < intg d + 9) by (unfold iw; rewrite ROUND_UP_div by lia; Zlia).
  set (n := iw d + fw d) in *. set (b := buf d) in *.
  destruct (skip_first_spec b (Z.to_nat n) 0) as (p & -> & P & Z0 & Nz); [lia|lia|]. cbn [mbind option_bind].
  destruct (bool_decide_reflect (p >= n)) as [E|E].
  { left. split; [|done]. unfold dval. fold n b. apply ws_zero. intros k K. apply Z0. lia. }
  right. specialize (Nz ltac:(lia)). assert (Xp : 0 <= at_ b p < DIG_BASE) by (apply (wf_words d W); fold n; lia).
  rewrite (load_at b p) by lia. cbn [mbind option_bind].
  assert (Fd : exists e, (let '(start, i) := if bool_decide (p = 0) && bool_decide (intg d <> 0)
       then let i := Z.rem (intg d - 1) DIG_PER_DEC1 + 1 in (DIG_PER_DEC1 - i, i - 1)
       else (p * DIG_PER_DEC1, DIG_PER_DEC1 - 1) in first_digit 9 (at_ b p) i start) = Some (9 * p + 8 - e) /\
     0 <= e <= 8 /\ 10 ^ e <= at_ b p < 10 ^ (e + 1) /\ 9 * iw d - intg d <= 9 * p + 8 - e).
  { unfold DIG_PER_DEC1. destruct (bool_decide_reflect (p = 0)) as [->|Pn]; cbn [andb].
    - destruct (bool_decide_reflect (intg d <> 0)) as [Gn|Gz].
      + cbv zeta. rewrite Z.rem_mod_nonneg by lia. specialize (C ltac:(lia)). fold b in C. set (i := (intg d - 1) mod 9).
        assert (0 <= i < 9) by (unfold i; Zlia).
        assert (Ei : intg d - 9 * (iw d - 1) = i + 1) by (unfold iw, i; rewrite ROUND_UP_div by lia; Zlia).
        rewrite Ei in C. destruct (first_digit_spec (at_ b 0) 9 i (9 - (i + 1))) as (e & Ee & R & V); [lia|lia|lia|].
        replace (i + 1 - 1) with i by lia. rewrite Ee. exists e. split_and!; [f_equal; lia|lia..].
      + destruct (first_digit_spec (at_ b 0) 9 8 0) as (e & Ee & R & V); [split; [lia|apply Xp]|lia|lia|].
        change (0 * 9) with 0. change (9 - 1) with 8. rewrite Ee. exists e. split_and!; [f_equal; lia|lia..].
    - destruct (first_digit_spec (at_ b p) 9 8 (p * 9)) as (e & Ee & R & V); [split; [lia|apply Xp]|lia|lia|].
      change (9 - 1) with 8. rewrite Ee. exists e. split_and!; [f_equal; lia|lia..]. }
  destruct Fd as (e & Fd & Er & Ev & Eg).
  destruct (if bool_decide (p = 0) && bool_decide (intg d <> 0) then _ else _) as [start i]. rewrite Fd. cbn [mbind option_bind].
  destruct (skip_last_spec b (Z.to_nat (n - 1 - p)) (n - 1)) as (q & -> & Q & Z1 & Nz1); [lia|]. cbn [mbind option_bind].
  assert (Nq : at_ b q <> 0) by (destruct (decide (q = p)) as [->|]; [done|apply Nz1; lia]).
  assert (Xq : 0 <= at_ b q < DIG_BASE) by (apply (wf_words d W); fold n; lia).
  rewrite (load_at b q) by lia. cbn [mbind option_bind].
  assert (Ld : exists f, (let '(stop, i) := if bool_decide (q = n - 1) && bool_decide (frac d <> 0)
       then let i := Z.rem (frac d - 1) DIG_PER_DEC1 + 1 in (q * DIG_PER_DEC1 + i, DIG_PER_DEC1 - i + 1)
       else ((q + 1) * DIG_PER_DEC1, 1) in last_digit 9 (at_ b q) i stop) = Some (9 * (q + 1) - f) /\
     0 <= f <= 8 /\ (10 ^ f | at_ b q) /\ 9 * (q + 1) - f <= 9 * iw d + frac d).
  { unfold DIG_PER_DEC1. destruct (bool_decide (q = n - 1) && bool_decide (frac d <> 0)) eqn:B.
    - apply andb_prop in B as (B1 & B2). apply bool_decide_eq_true in B1, B2. cbv zeta. rewrite Z.rem_mod_nonneg by lia.
      set (i0 := (frac d - 1) mod 9 + 1). assert (1 <= i0 <= 9) by (unfold i0; Zlia).
      assert (Ei : 9 * fw d - frac d = 9 - i0) by (unfold fw, i0; rewrite ROUND_UP_div by lia; Zlia).
      assert (Dv : (10 ^ (9 - i0) | at_ b q)).
      { unfold canonical_frac in Cf. rewrite Ei in Cf. destruct (dval_split d W ltac:(fold n; lia)) as (hi & Dv). fold n b in Dv. rewrite <- B1 in Dv.
        rewrite Dv in Cf. apply Z.divide_add_cancel_r in Cf; [done|]. apply Z.divide_mul_r. exists (10 ^ i0).
        rewrite <- Z.pow_add_r by lia. replace (i0 + (9 - i0)) with 9 by lia. done. }
      destruct (last_digit_spec (at_ b q) 9 (9 - i0 + 1) (q * 9 + i0)) as (f & Ef & R & V);
        [split; [lia|apply Xq]|by replace (9 - i0 + 1 - 1) with (9 - i0) by lia|lia|lia|].
      rewrite Ef. exists f. split_and!; [f_equal; lia|lia|lia|done|lia].
    - destruct (last_digit_spec (at_ b q) 9 1 ((q + 1) * 9)) as (f & Ef & R & V);
        [split; [lia|apply Xq]|apply Z.divide_1_l|lia|lia|].
      rewrite Ef. exists f. split_and!; [f_equal; lia|lia|lia|done|].
      apply andb_false_iff in B as [B|B]; apply bool_decide_eq_false in B; [lia|].
      assert (Ef0 : fw d = 0) by (unfold fw; replace (frac d) with 0 by lia; done). lia. }
  destruct Ld as (f & Ld & Fr & Fv & Fg).
  destruct (if bool_decide (q = n - 1) && bool_decide (frac d <> 0) then _ else _) as [stop j]. rewrite Ld. cbn [mbind option_bind].
  assert (Bq : (9 * p + 8 - e) / 9 = p) by Zlia. assert (Eq : (9 * (q + 1) - f - 1) / 9 = q) by Zlia.
  eexists _, _. split; [done|]. split; fold n b; rewrite ?Bq, ?Eq; try lia.
  - split; [lia|]. destruct (decide (p = q)) as [<-|]; [|lia].
    assert (10 ^ f < 10 ^ (e + 1)) as L.
    { pose proof (pow10_pos f ltac:(lia)). destruct Fv as (c & Fc). assert (0 < c) by nia. nia. }
    apply Z.pow_lt_mono_r_iff in L; lia.
  - intros k K. apply Z0. lia.
  - intros k K. apply Z1. lia.
  - replace (9 - (9 * p + 8 - e) mod 9) with (e + 1) by Zlia. lia.
  - by replace (9 * (q + 1) - (9 * (q + 1) - f)) with f by lia.
Qed.

(** ** Digits moved inside the words *)

Section Moved.
Context (X : Z -> Z) (L : Z) (HL : 0 <= L < 9) (R : forall k, 0 <= X k < DIG_BASE).

(** The word at [k] when all the digits are [L] positions further to the left. *)
Definition moved (k : Z) : Z := X k mod 10 ^ (9 - L) * 10 ^ L + X (k + 1) / 10 ^ (9 - L).

Lemma base_split : 10 ^ (9 - L) * 10 ^ L = DIG_BASE.
Proof. rewrite <- Z.pow_add_r by lia. by replace (9 - L + L) with 9 by lia. Qed.

Lemma div_moved k : 0 <= X k / 10 ^ (9 - L) < 10 ^ L.
Proof.
  pose proof (pow10_pos (9 - L) ltac:(lia)). pose proof (R k). split; [apply Z.div_pos; lia|].
  apply Z.div_lt_upper_bound; [done|]. rewrite base_split. lia.
Qed.

Lemma moved_range k : 0 <= moved k < DIG_BASE.
Proof.
  unfold moved. pose proof (pow10_pos (9 - L) ltac:(lia)). pose proof (pow10_pos L ltac:(lia)).
  pose proof (Z.mod_pos_bound (X k) (10 ^ (9 - L)) ltac:(done)). pose proof (div_moved (k + 1)).
  pose proof base_split. nia.
Qed.

Lemma moved_parts k : X k = 0 -> moved k = X (k + 1) / 10 ^ (9 - L).
Proof. intros E. unfold moved. rewrite E, Z.mod_0_l by (apply Z.pow_nonzero; lia). lia. Qed.

Lemma moved_last k : X (k + 1) = 0 -> moved k = X k mod 10 ^ (9 - L) * 10 ^ L.
Proof. intros E. unfold moved. rewrite E, Z.div_0_l by (apply Z.pow_nonzero; lia). lia. Qed.
End Moved.

Lemma moved_0 X k : (forall k, 0 <= X k < DIG_BASE) -> moved X 0 k = X k.
Proof.
  intros R. unfold moved. change (10 ^ (9 - 0)) with DIG_BASE. change (10 ^ 0) with 1.
  rewrite Z.mod_small, (Z.div_small (X (k + 1))) by auto. lia.
Qed.

(** The words of the window from the digit [beg] to before [end_]. *)
Record window (X : Z -> Z) (beg end_ : Z) : Prop := {
  wn_range : forall k, 0 <= X k < DIG_BASE;
  wn_before : forall k, k < beg / 9 -> X k = 0;
  wn_after : forall k, (end_ - 1) / 9 < k -> X k = 0;
  wn_first : X (beg / 9) < 10 ^ (9 - beg mod 9);
  wn_last : (10 ^ (9 * ((end_ - 1) / 9 + 1) - end_) | X ((end_ - 1) / 9)) }.

Lemma ROUND_UP_first beg : 0 <= beg -> ROUND_UP (beg + 1) - 1 = beg / 9.
Proof. intros. rewrite ROUND_UP_div by lia. Zlia. Qed.

Lemma ROUND_UP_last end_ : 0 < end_ -> ROUND_UP end_ - 1 = (end_ - 1) / 9.
Proof. intros. rewrite ROUND_UP_div by lia. Zlia. Qed.

(** No digit outside the moved window. *)
Lemma moved_before X L beg end_ k : window X beg end_ -> 0 <= L < 9 -> k < (beg - L) / 9 -> moved X L k = 0.
Proof.
  intros [Rg Bf _ Fi _] HL K. rewrite moved_parts by (done || apply Bf; Zlia).
  destruct (decide (k + 1 = beg / 9)) as [E|E]; [|rewrite (Bf (k + 1)) by Zlia; apply Z.div_0_l, Z.pow_nonzero; lia].
  rewrite E. apply Z.div_small. split; [apply Rg|]. eapply Z.lt_le_trans; [exact Fi|]. apply Z.pow_le_mono_r; Zlia.
Qed.

Lemma moved_after X L beg end_ k : window X beg end_ -> 0 <= L < 9 -> (end_ - L - 1) / 9 < k -> moved X L k = 0.
Proof.
  intros [Rg _ Af _ La] HL K. rewrite moved_last by (done || apply Af; Zlia).
  destruct (decide (k = (end_ - 1) / 9)) as [->|E]; [|rewrite (Af k), Z.mod_0_l by (Zlia || (apply Z.pow_nonzero; lia)); done].
  enough (X ((end_ - 1) / 9) mod 10 ^ (9 - L) = 0) as -> by done. apply Z.mod_divide; [apply Z.pow_nonzero; lia|].
  eapply Z.divide_trans; [|exact La]. exists (10 ^ (9 * ((end_ - 1) / 9 + 1) - end_ - (9 - L))).
  rewrite <- Z.pow_add_r by Zlia. f_equal. lia.
Qed.

(** Two arrays of the same length, the second with some words changed. *)
Definition changed (m m' : list Z) (f : Z -> Z) : Prop :=
  length m' = length m /\ forall k, 0 <= k < Z.of_nat (length m) -> at_ m' k = f k.

Lemma changed_store m m0 f i v : changed m0 m f -> 0 <= i < Z.of_nat (length m0) ->
  exists m', store m i v = Some m' /\ changed m0 m' (fun k => if decide (k = i) then v else f k).
Proof.
  intros (Ln & A) I. rewrite store_in by lia. eexists. split; [done|]. split; [by rewrite length_insert|].
  intros k K. rewrite at_insert by lia. destruct (decide (k = i)); [done|by apply A].
Qed.

Lemma changed_load m m0 f i : changed m0 m f -> 0 <= i < Z.of_nat (length m0) -> load m i = Some (f i).
Proof. intros (Ln & A) I. rewrite load_at by lia. f_equal. by apply A. Qed.

Lemma changed_ext m m' f g : changed m m' f -> (forall k, 0 <= k < Z.of_nat (length m) -> f k = g k) -> changed m m' g.
Proof. intros (Ln & A) E. split; [done|]. intros k K. rewrite A by done. by apply E. Qed.

Lemma changed_refl m : changed m m (at_ m).
Proof. done. Qed.

(** A loop that sets one word in each pass. *)
Lemma changed_loop m0 m f n body (pos : Z -> Z) (val : Z -> Z) i0 :
  changed m0 m f -> (forall j, i0 <= j < i0 + Z.of_nat n -> 0 <= pos j < Z.of_nat (length m0)) ->
  (forall j j', i0 <= j < i0 + Z.of_nat n -> i0 <= j' < i0 + Z.of_nat n -> pos j = pos j' -> j = j') ->
  (forall j t g, i0 <= j < i0 + Z.of_nat n -> changed m0 t g ->
     (forall k, (forall j', i0 <= j' < j -> k <> pos j') -> g k = f k) -> body j t = store t (pos j) (val j)) ->
  exists m', for_up n i0 body m = Some m' /\
    (exists g, changed m0 m' g /\ (forall j, i0 <= j < i0 + Z.of_nat n -> g (pos j) = val j) /\
     (forall k, (forall j, i0 <= j < i0 + Z.of_nat n -> k <> pos j) -> g k = f k)).
Proof.
  intros C In Inj B.
  destruct (for_up_rule (fun j t => exists g, changed m0 t g /\ (forall j', i0 <= j' < j -> g (pos j') = val j') /\
    (forall k, (forall j', i0 <= j' < j -> k <> pos j') -> g k = f k)) n i0 body m) as (m' & E & G).
  - exists f. split_and!; [done|intros; lia|done].
  - intros j t J (g & Cg & Gv & Gf). rewrite (B j t g) by done.
    destruct (changed_store t m0 g (pos j) (val j) Cg (In j J)) as (t' & -> & Ct). exists t'. split; [done|].
    eexists. split_and!; [exact Ct| |].
    + intros j' J'. cbn beta. destruct (decide (pos j' = pos j)) as [Ej|Ej].
      * apply Inj in Ej; [by subst j'|lia|lia].
      * apply Gv. destruct (decide (j' = j)); [by subst|lia].
    + intros k K. cbn beta. rewrite decide_False by (apply K; lia). apply Gf. intros j' J'. apply K. lia.
  - exists m'. split; [done|]. destruct G as (g & Cg & Gv & Gf). exists g. done.
Qed.
End DecimalShiftProps.

(** * DecimalShiftMain: [decimal_shift] multiplies by a power of ten *)
Module DecimalShiftMain.
Import Decimal DecimalProps DecimalMul DecimalRound DecimalShift DecimalShiftProps.

(** The condition in the goal, not one of the context. *)
Ltac goal_decide H := match goal with |- context [if decide ?P then _ else _] => destruct (decide P) as [H|H] end.

Section Mini.
Context (X : Z -> Z) (beg end_ L : Z) (Wn : window X beg end_) (HL : 0 < L < 9) (Ord : 0 <= beg < end_).
Context (m : list Z) (Fit : (end_ - 1) / 9 < Z.of_nat (length m)).
Context (Same : forall k, beg / 9 <= k <= (end_ - 1) / 9 -> at_ m k = X k).

Let a := beg / 9.
Let b := (end_ - 1) / 9.

Lemma small_word x y : 0 <= x < DIG_BASE -> 0 <= y < DIG_BASE ->
  s32 (Z.rem x (10 ^ (9 - L)) * 10 ^ L + Z.quot y (10 ^ (9 - L))) = x mod 10 ^ (9 - L) * 10 ^ L + y / 10 ^ (9 - L).
Proof.
  intros Hx Hy. pose proof (pow10_pos (9 - L) ltac:(lia)) as C. pose proof (pow10_pos L ltac:(lia)) as P.
  rewrite Z.rem_mod_nonneg, Z.quot_div_nonneg by lia.
  pose proof (moved_range (fun k => if decide (k = 0) then x else y) L ltac:(lia)) as R.
  specialize (R ltac:(intros k; cbn beta; destruct (decide (k = 0)); lia) 0). unfold moved in R.
  change (0 <= x mod 10 ^ (9 - L) * 10 ^ L + y / 10 ^ (9 - L) < DIG_BASE) in R.
  unfold DIG_BASE in R. by rewrite swrap_small by (cbn; lia).
Qed.

Lemma mini_left : L <= beg -> exists m',
  do_mini_left_shift m L beg end_ = Some m' /\
  changed m m' (fun k => if decide (a - 1 <= k <= b /\ (a <= k \/ beg mod 9 < L)) then moved X L k else at_ m k).
Proof.
  intros Lb. unfold do_mini_left_shift. rewrite ROUND_UP_first, ROUND_UP_last by lia. change DIG_PER_DEC1 with 9.
  fold a b. rewrite !load_powers10 by lia. cbn [mbind option_bind]. rewrite Z.rem_mod_nonneg by lia.
  destruct Wn as [Rg Bf Af Fi La]. fold a b in Bf, Af, Same, Fit. pose proof (pow10_pos (9 - L) ltac:(lia)) as C.
  assert (Ab : 0 <= a <= b) by (unfold a, b; Zlia).
  set (f1 := fun k => if decide (k = a - 1 /\ beg mod 9 < L) then moved X L k else at_ m k).
  assert (E1 : exists m1, (if bool_decide (beg mod 9 < L) then x ← load m a; store m (a - 1) (Z.quot x (10 ^ (9 - L))) else Some m) = Some m1 /\
    changed m m1 f1).
  { destruct (bool_decide_reflect (beg mod 9 < L)) as [B|B].
    - rewrite (changed_load m m _ a (changed_refl m)), Same by lia. cbn [mbind option_bind]. pose proof (Rg a).
      destruct (changed_store m m (at_ m) (a - 1) (Z.quot (X a) (10 ^ (9 - L))) (changed_refl m)) as (m1 & -> & C1); [unfold a in *; Zlia|].
      exists m1. split; [done|]. eapply changed_ext; [exact C1|]. intros k K. unfold f1. cbn beta. repeat case_decide; try tauto.
      subst k. rewrite moved_parts by (lia || apply Bf; lia). rewrite Z.quot_div_nonneg by lia. do 2 f_equal. lia.
    - exists m. split; [done|]. eapply changed_ext; [apply changed_refl|]. intros k K. unfold f1. cbn beta. case_decide; [tauto|done]. }
  destruct E1 as (m1 & -> & C1). cbn [mbind option_bind].
  destruct (changed_loop m m1 f1 (Z.to_nat (b - a)) (fun k m => x ← load m k; y ← load m (k + 1);
      store m k (s32 (Z.rem x (10 ^ (9 - L)) * 10 ^ L + Z.quot y (10 ^ (9 - L))))) (fun k => k) (moved X L) a C1) as (m2 & -> & g & C2 & G2 & G2').
  - intros j J. lia.
  - done.
  - intros j t g J Cg Gf. rewrite (changed_load t m g j Cg), (changed_load t m g (j + 1) Cg) by lia. cbn [mbind option_bind].
    rewrite !Gf by (intros; lia). unfold f1. rewrite !decide_False by lia. rewrite !Same by lia. rewrite small_word by apply Rg. done.
  - cbn [mbind option_bind]. rewrite Z.max_r by lia. rewrite (changed_load m2 m g b C2) by lia. cbn [mbind option_bind].
    rewrite (G2' b) by (intros; lia). unfold f1 at 1. rewrite decide_False by lia. rewrite Same by lia.
    destruct (changed_store m2 m g b (s32 (Z.rem (X b) (10 ^ (9 - L)) * 10 ^ L)) C2) as (m3 & -> & C3); [lia|].
    exists m3. split; [done|]. eapply changed_ext; [exact C3|]. intros k K. cbn beta.
    destruct (decide (k = b)) as [->|Nb].
    + rewrite decide_True by lia. rewrite moved_last by (lia || apply Af; lia).
      pose proof (small_word (X b) 0 (Rg b) ltac:(unfold DIG_BASE; lia)) as Sw. rewrite Z.quot_0_l, Z.div_0_l, !Z.add_0_r in Sw by lia. done.
    + destruct (decide (a <= k < b)) as [In|Out].
      * rewrite decide_True by lia. apply G2. lia.
      * rewrite (G2' k) by (intros; lia). unfold f1. repeat case_decide; try done; lia.
Qed.

Lemma mini_right : end_ + (9 - L) <= 9 * Z.of_nat (length m) -> exists m',
  do_mini_right_shift m (9 - L) beg end_ = Some m' /\
  changed m m' (fun k => if decide (a <= k <= b + 1 /\ (k <= b \/ 9 - ((end_ - 1) mod 9 + 1) < 9 - L)) then moved X L (k - 1) else at_ m k).
Proof.
  intros Rm. unfold do_mini_right_shift. rewrite ROUND_UP_first, ROUND_UP_last by lia. change DIG_PER_DEC1 with 9.
  fold a b. replace (9 - (9 - L)) with L by lia. rewrite !load_powers10 by lia. cbn [mbind option_bind]. rewrite Z.rem_mod_nonneg by lia.
  destruct Wn as [Rg Bf Af Fi La]. fold a b in Bf, Af, Same, Fit. pose proof (pow10_pos (9 - L) ltac:(lia)) as C.
  assert (Ab : 0 <= a <= b) by (unfold a, b; Zlia).
  set (cond := 9 - ((end_ - 1) mod 9 + 1) < 9 - L).
  set (f1 := fun k => if decide (k = b + 1 /\ cond) then moved X L (k - 1) else at_ m k).
  assert (E1 : exists m1, (if bool_decide cond then x ← load m b; store m (b + 1) (s32 (Z.rem x (10 ^ (9 - L)) * 10 ^ L)) else Some m) = Some m1 /\
    changed m m1 f1).
  { destruct (bool_decide_reflect cond) as [B|B].
    - rewrite (changed_load m m _ b (changed_refl m)), Same by lia. cbn [mbind option_bind].
      destruct (changed_store m m (at_ m) (b + 1) (s32 (Z.rem (X b) (10 ^ (9 - L)) * 10 ^ L)) (changed_refl m)) as (m1 & -> & C1);
        [unfold b, cond in *; Zlia|].
      exists m1. split; [done|]. eapply changed_ext; [exact C1|]. intros k K. unfold f1. cbn beta. repeat case_decide; try tauto.
      subst k. replace (b + 1 - 1) with b by lia. rewrite moved_last by (lia || apply Af; lia).
      pose proof (small_word (X b) 0 (Rg b) ltac:(unfold DIG_BASE; lia)) as Sw. rewrite Z.quot_0_l, Z.div_0_l, !Z.add_0_r in Sw by lia. done.
    - exists m. split; [done|]. eapply changed_ext; [apply changed_refl|]. intros k K. unfold f1. cbn beta. case_decide; [tauto|done]. }
  destruct E1 as (m1 & -> & C1). cbn [mbind option_bind].
  destruct (changed_loop m m1 f1 (Z.to_nat (b - a)) (fun k m => x ← load m (b - k); y ← load m (b - k - 1);
      store m (b - k) (s32 (Z.quot x (10 ^ (9 - L)) + Z.rem y (10 ^ (9 - L)) * 10 ^ L))) (fun k => b - k) (fun k => moved X L (b - k - 1)) 0 C1)
    as (m2 & -> & g & C2 & G2 & G2').
  - intros j J. lia.
  - intros. lia.
  - intros j t g J Cg Gf. rewrite (changed_load t m g (b - j) Cg), (changed_load t m g (b - j - 1) Cg) by lia. cbn [mbind option_bind].
    rewrite !Gf by (intros; lia). unfold f1. rewrite !decide_False by lia. rewrite !Same by lia.
    rewrite Z.add_comm, small_word by apply Rg. unfold moved. by replace (b - j - 1 + 1) with (b - j) by lia.
  - cbn [mbind option_bind]. rewrite Z.min_r by lia. rewrite (changed_load m2 m g a C2) by lia. cbn [mbind option_bind].
    rewrite (G2' a) by (intros; lia). unfold f1 at 1. rewrite decide_False by lia. rewrite Same by lia.
    destruct (changed_store m2 m g a (Z.quot (X a) (10 ^ (9 - L))) C2) as (m3 & -> & C3); [lia|].
    exists m3. split; [done|]. eapply changed_ext; [exact C3|]. intros k K. cbn beta.
    destruct (decide (k = a)) as [->|Nb].
    + rewrite decide_True by lia. rewrite moved_parts by (lia || apply Bf; lia). pose proof (Rg a). rewrite Z.quot_div_nonneg by lia.
      do 2 f_equal. lia.
    + destruct (decide (a < k <= b)) as [In|Out].
      * rewrite decide_True by lia. replace k with (b - (b - k)) at 1 by lia. rewrite G2 by lia. f_equal. lia.
      * rewrite (G2' k) by (intros; lia). unfold f1. repeat case_decide; try done; unfold cond in *; lia.
Qed.
End Mini.

(** ** Words that are moved and words that are cleared *)

Lemma zero_words_changed m0 m f n p : changed m0 m f -> 0 <= p -> p + Z.max 0 n <= Z.of_nat (length m0) ->
  exists m', zero_words n p m = Some m' /\
    changed m0 m' (fun k => if decide (p <= k < p + n) then 0 else f k).
Proof.
  intros C P L. unfold zero_words.
  destruct (changed_loop m0 m f (Z.to_nat n) (fun k m => store m (p + k) 0) (fun k => p + k) (fun _ => 0) 0 C) as (m' & -> & g & Cg & G1 & G2).
  - intros. lia.
  - intros. lia.
  - done.
  - exists m'. split; [done|]. eapply changed_ext; [exact Cg|]. intros k K. cbn beta. goal_decide D.
    + replace k with (p + (k - p)) by lia. apply G1. lia.
    + apply G2. intros. lia.
Qed.

Lemma zero_down_changed m0 m f n p : changed m0 m f -> p < Z.of_nat (length m0) -> Z.max 0 n <= p + 1 ->
  exists m', for_up (Z.to_nat n) 0 (fun k m => store m (p - k) 0) m = Some m' /\
    changed m0 m' (fun k => if decide (p - n < k <= p) then 0 else f k).
Proof.
  intros C P L.
  destruct (changed_loop m0 m f (Z.to_nat n) (fun k m => store m (p - k) 0) (fun k => p - k) (fun _ => 0) 0 C) as (m' & -> & g & Cg & G1 & G2).
  - intros. lia.
  - intros. lia.
  - done.
  - exists m'. split; [done|]. eapply changed_ext; [exact Cg|]. intros k K. cbn beta. goal_decide D.
    + replace k with (p - (p - k)) by lia. apply G1. lia.
    + apply G2. intros. lia.
Qed.

Section Words.
Context (U : Z -> Z) (beg end_ : Z) (Ord : 0 <= beg < end_) (m : list Z) (Fit : end_ <= 9 * Z.of_nat (length m)).
Context (Same : forall k, beg / 9 <= k <= (end_ - 1) / 9 -> at_ m k = U k).

Lemma move_left nf : 9 <= nf <= beg -> exists m', move_words nf beg end_ m = Some (m', - (nf / 9)) /\ length m' = length m /\
  forall k, beg / 9 - nf / 9 <= k <= (end_ - 1) / 9 - nf / 9 -> at_ m' k = U (k + nf / 9).
Proof.
  intros N. unfold move_words. rewrite bool_decide_true by lia. rewrite ROUND_UP_first, ROUND_UP_last by lia.
  unfold DIG_PER_DEC1. rewrite Z.quot_div_nonneg by lia. set (q := nf / 9). set (a := beg / 9) in *. set (b := (end_ - 1) / 9) in *.
  assert (Q : 1 <= q <= a) by (unfold q, a; Zlia). assert (Ab : a <= b < Z.of_nat (length m)) by (unfold a, b; Zlia).
  destruct (changed_loop m m (at_ m) (Z.to_nat (b - q - (a - q) + 1)) (fun k m => x ← load m (k + q); store m k x) (fun k => k)
    (fun k => U (k + q)) (a - q) (changed_refl m)) as (m1 & -> & g & Cg & G1 & G2).
  - intros. lia.
  - intros. lia.
  - intros j t g J Cg Gf. rewrite (changed_load t m g (j + q) Cg) by lia. cbn [mbind option_bind]. rewrite Gf by (intros; lia).
    by rewrite Same by lia.
  - cbn [mbind option_bind]. rewrite Z.max_r by lia.
    destruct (zero_words_changed m m1 g (b - q + q - (b - q + 1) + 1) (b - q + 1) Cg) as (m2 & -> & C2); [lia|lia|].
    cbn [mbind option_bind]. exists m2. destruct C2 as (L2 & C2). split_and!; [done|done|]. intros k K. rewrite C2 by lia.
    rewrite decide_False by lia. apply G1. lia.
Qed.

Lemma move_right q : 0 < q -> (end_ - 1) / 9 + q < Z.of_nat (length m) ->
  exists m', move_words (- (9 * q)) beg end_ m = Some (m', q) /\ length m' = length m /\
  forall k, beg / 9 + q <= k <= (end_ - 1) / 9 + q -> at_ m' k = U (k - q).
Proof.
  intros Q F. unfold move_words. rewrite bool_decide_false by lia. rewrite ROUND_UP_first, ROUND_UP_last by lia.
  unfold DIG_PER_DEC1. rewrite Z.quot_div_nonneg by lia. replace ((1 - - (9 * q)) / 9) with q by Zlia.
  set (a := beg / 9) in *. set (b := (end_ - 1) / 9) in *. assert (Ab : 0 <= a <= b) by (unfold a, b; Zlia).
  destruct (changed_loop m m (at_ m) (Z.to_nat (b + q - (a + q) + 1)) (fun k m => x ← load m (b + q - k - q); store m (b + q - k) x)
    (fun k => b + q - k) (fun k => U (b - k)) 0 (changed_refl m)) as (m1 & -> & g & Cg & G1 & G2).
  - intros. lia.
  - intros. lia.
  - intros j t g J Cg Gf. rewrite (changed_load t m g (b + q - j - q) Cg) by lia. cbn [mbind option_bind]. rewrite Gf by (intros; lia).
    rewrite Same by lia. do 2 f_equal. lia.
  - cbn [mbind option_bind]. rewrite Z.min_r by lia.
    destruct (zero_down_changed m m1 g (a + q - 1 - (a + q - q) + 1) (a + q - 1) Cg) as (m2 & -> & C2); [lia|lia|].
    cbn [mbind option_bind]. exists m2. destruct C2 as (L2 & C2). split_and!; [done|done|]. intros k K. rewrite C2 by lia.
    rewrite decide_False by lia. replace k with (b + q - (b + q - k)) at 1 by lia. rewrite G1 by lia. f_equal. lia.
Qed.

(** All the words of the result. *)
Lemma fill_stage p : (forall k, k < beg / 9 \/ (end_ - 1) / 9 < k -> U k = 0) -> 0 <= p <= Z.of_nat (length m) ->
  p = 0 \/ beg / 9 = 0 ->
  exists m', fill_gaps (9 * p) beg end_ m = Some m' /\ length m' = length m /\
  forall k, 0 <= k < Z.max p ((end_ - 1) / 9 + 1) -> at_ m' k = U k.
Proof.
  intros Zo P E. unfold fill_gaps. rewrite (ROUND_UP_first beg), (ROUND_UP_last end_) by lia.
  set (a := beg / 9) in *. set (b := (end_ - 1) / 9) in *. assert (Ab : 0 <= a <= b) by (unfold a, b; Zlia).
  assert (Bl : b < Z.of_nat (length m)) by (unfold b; Zlia).
  destruct (decide (p = 0)) as [->|Np].
  - change (9 * 0) with 0. rewrite (bool_decide_false (0 <> 0)), bool_decide_false by lia.
    destruct (zero_words_changed m m (at_ m) (a - 0) 0 (changed_refl m)) as (m' & -> & L' & C'); [lia|lia|].
    exists m'. split_and!; [done|done|]. intros k K. rewrite C' by lia. goal_decide D; [symmetry; apply Zo; lia|apply Same; lia].
  - assert (a = 0) by lia. rewrite (bool_decide_true (9 * p <> 0)) by lia.
    replace (ROUND_UP (9 * p) - 1) with (p - 1) by (rewrite ROUND_UP_div by lia; Zlia).
    destruct (bool_decide_reflect (p - 1 > b)) as [G|G].
    + destruct (zero_down_changed m m (at_ m) (p - 1 - b) (p - 1) (changed_refl m)) as (m' & -> & L' & C'); [lia|lia|].
      exists m'. split_and!; [done|done|]. intros k K. rewrite C' by lia. goal_decide D; [symmetry; apply Zo; lia|apply Same; lia].
    + destruct (zero_words_changed m m (at_ m) (a - (p - 1)) (p - 1) (changed_refl m)) as (m' & -> & L' & C'); [lia|lia|].
      exists m'. split_and!; [done|done|]. intros k K. rewrite C' by lia. rewrite decide_False by lia. apply Same. lia.
Qed.
End Words.

(** The words of a decimal from its first to its last digit. *)
Definition digits_at (d : decimal_t) (beg end_ k : Z) : Z :=
  if decide (beg / 9 <= k <= (end_ - 1) / 9) then at_ (buf d) k else 0.

Lemma bounds_window d beg end_ : wf d -> bounds d beg end_ -> window (digits_at d beg end_) beg end_.
Proof.
  intros W [O E B A F La]. unfold digits_at. split.
  - intros k. case_decide; [|unfold DIG_BASE; lia]. apply (wf_words d W). Zlia.
  - intros k K. rewrite decide_False by lia. done.
  - intros k K. rewrite decide_False by lia. done.
  - rewrite decide_True by Zlia. done.
  - rewrite decide_True by Zlia. done.
Qed.

Lemma shift_parts shift : let t := shift / 9 in let L := shift mod 9 in
  (Z.rem shift DIG_PER_DEC1 <> 0 <-> L <> 0) /\ (shift > 0 -> Z.rem shift DIG_PER_DEC1 = L) /\
  (shift < 0 -> L <> 0 -> Z.rem (- shift) DIG_PER_DEC1 = 9 - L).
Proof.
  unfold DIG_PER_DEC1. cbv zeta. split_and!.
  - rewrite Z.rem_divide, <- Z.mod_divide by lia. done.
  - intros. apply Z.rem_mod_nonneg; lia.
  - intros. rewrite Z.rem_mod_nonneg by lia. Zlia.
Qed.

Section Shift.
Context (d : decimal_t) (W : wf d) (beg end_ : Z) (B : bounds d beg end_) (shift : Z).
Let t := shift / 9.
Let L := shift mod 9.
Let X := digits_at d beg end_.

Lemma mini_stage new_point : (L <> 0 -> L <= beg \/ end_ + (9 - L) <= 9 * len d) ->
  exists m1 o, (if bool_decide (Z.rem shift DIG_PER_DEC1 <> 0) then mini_shift (len d) shift new_point beg end_ (buf d)
    else Some (buf d, shift, new_point, beg, end_)) =
    Some (m1, shift - L + 9 * o, new_point - L + 9 * o, beg - L + 9 * o, end_ - L + 9 * o) /\
    0 <= 9 * o <= L + 8 /\ 0 <= beg - L + 9 * o /\ end_ - L + 9 * o <= 9 * len d /\ length m1 = length (buf d) /\
    forall k, 0 <= k < iw d + fw d \/ (beg - L + 9 * o) / 9 <= k <= (end_ - L + 9 * o - 1) / 9 -> at_ m1 k = moved X L (k - o).
Proof.
  intros Rm. destruct (shift_parts shift) as (Z9 & Sp & Sn). fold L in Z9, Sp, Sn. cbv zeta in *.
  pose proof (bounds_window d beg end_ W B) as Wn. fold X in Wn. destruct B as [Or Eb _ _ Be Af _ _].
  pose proof (wf_len d W) as Ln. pose proof (wf_fit d W) as Ft. assert (HL : 0 <= L < 9) by (unfold L; Zlia).
  assert (Same : forall k, beg / 9 <= k <= (end_ - 1) / 9 -> at_ (buf d) k = X k).
  { intros k K. unfold X, digits_at. by rewrite decide_True by lia. }
  assert (Out : forall k, 0 <= k < iw d + fw d -> ~ (beg / 9 <= k <= (end_ - 1) / 9) -> at_ (buf d) k = 0).
  { intros k K N. destruct (decide (k < beg / 9)); [apply Be; lia|apply Af; lia]. }
  destruct (bool_decide_reflect (Z.rem shift DIG_PER_DEC1 <> 0)) as [Nz|Nz].
  2:{ assert (E0 : L = 0) by (destruct (decide (L = 0)); tauto). exists (buf d), 0. rewrite !E0, !Z.sub_0_r. change (9 * 0) with 0. rewrite !Z.add_0_r.
      split_and!; [done|lia|lia|lia|lia|done|]. intros k K. rewrite moved_0, Z.sub_0_r by apply Wn.
      destruct (decide (beg / 9 <= k <= (end_ - 1) / 9)); [by apply Same|]. rewrite Out by lia.
      unfold X, digits_at. by rewrite decide_False. }
  assert (L0 : 0 < L < 9) by (enough (L <> 0) by lia; tauto). specialize (Rm ltac:(lia)).
  assert (Fit : (end_ - 1) / 9 < Z.of_nat (length (buf d))) by Zlia.
  assert (Go : forall (left : bool), (if left then L <= beg else end_ + (9 - L) <= 9 * len d) ->
    exists m1 o, ('(m, mini) ← (if left then m ← do_mini_left_shift (buf d) L beg end_; Some (m, - L)
        else m ← do_mini_right_shift (buf d) (9 - L) beg end_; Some (m, 9 - L));
      Some (m, shift + mini, new_point + mini, beg + mini, end_ + mini)) =
    Some (m1, shift - L + 9 * o, new_point - L + 9 * o, beg - L + 9 * o, end_ - L + 9 * o) /\
    0 <= 9 * o <= L + 8 /\ 0 <= beg - L + 9 * o /\ end_ - L + 9 * o <= 9 * len d /\ length m1 = length (buf d) /\
    forall k, 0 <= k < iw d + fw d \/ (beg - L + 9 * o) / 9 <= k <= (end_ - L + 9 * o - 1) / 9 -> at_ m1 k = moved X L (k - o)).
  { intros [|] Ok.
    - destruct (mini_left X beg end_ L Wn L0 Or (buf d) Fit Same Ok) as (m1 & E1 & Lm & C1). rewrite E1. cbn [mbind option_bind].
      exists m1, 0. change (9 * 0) with 0. split_and!; [by repeat (f_equal; try lia)|lia|lia|lia|lia|done|].
      intros k K. rewrite Z.sub_0_r, C1 by Zlia. goal_decide D; [done|]. rewrite Out by Zlia. symmetry.
      destruct (decide (k < (beg - L) / 9)); [by eapply moved_before|]. eapply moved_after; [done|lia|Zlia].
    - rewrite Ln in Ok.
      destruct (mini_right X beg end_ L Wn L0 Or (buf d) Fit Same Ok) as (m1 & E1 & Lm & C1). rewrite E1. cbn [mbind option_bind].
      exists m1, 1. change (9 * 1) with 9. split_and!; [by repeat (f_equal; try lia)|lia|lia|lia|lia|done|].
      intros k K. rewrite C1 by Zlia. goal_decide D; [done|]. rewrite Out by Zlia. symmetry.
      destruct (decide (k - 1 < (beg - L) / 9)); [by eapply moved_before|]. eapply moved_after; [done|lia|Zlia]. }
  unfold mini_shift. destruct (bool_decide_reflect (shift > 0)) as [S|S].
  - rewrite Sp by lia. change DIG_PER_DEC1 with 9. apply (Go (bool_decide (L <= beg))).
    destruct (bool_decide_reflect (L <= beg)); [done|]. destruct Rm; [lia|done].
  - assert (shift <> 0) by (intros E; unfold L in L0; rewrite E in L0; rewrite Z.mod_0_l in L0; lia).
    rewrite Sn by lia. change DIG_PER_DEC1 with 9. replace (9 - (9 - L)) with L by lia.
    apply (Go (negb (bool_decide (len d * 9 - end_ >= 9 - L)))).
    destruct (bool_decide_reflect (len d * 9 - end_ >= 9 - L)); cbn [negb]; lia.
Qed.

Let np := 9 * iw d + shift.
Let di := Z.max (np - beg) 0.
Let df := Z.max (end_ - np) 0.

(** The words in front of and behind the new point, wherever the point is put. *)
Lemma new_words p o : 9 * p = np - L + 9 * o ->
  ROUND_UP di = Z.max (p - (beg - L + 9 * o) / 9) 0 /\ ROUND_UP df = Z.max ((end_ - L + 9 * o - 1) / 9 + 1 - p) 0.
Proof.
  intros E. unfold di, df. split; rewrite ROUND_UP_div by lia; Zlia.
Qed.

Lemma mini_fits : ROUND_UP di + ROUND_UP df <= len d -> L <> 0 -> L <= beg \/ end_ + (9 - L) <= 9 * len d.
Proof.
  intros Room L0. assert (HL : 0 <= L < 9) by (unfold L; Zlia). destruct B as [Or _ _ _ _ _ _ _].
  destruct (new_words (iw d + t) 0) as (E1 & E2); [unfold np, t, L; Zlia|]. rewrite E1, E2 in Room. Zlia.
Qed.

(** After the digits inside the words: whole words are moved, gaps are filled. *)
Lemma words_stage m1 o p1 : 9 * p1 = np - L + 9 * o -> ROUND_UP di + ROUND_UP df <= len d ->
  0 <= beg - L + 9 * o -> end_ - L + 9 * o <= 9 * len d -> length m1 = length (buf d) ->
  (forall k, (beg - L + 9 * o) / 9 <= k <= (end_ - L + 9 * o - 1) / 9 -> at_ m1 k = moved X L (k - o)) ->
  exists m', (let new_front := 9 * p1 - di in
    '(m, d_shift) ← (if bool_decide (new_front >= DIG_PER_DEC1) || bool_decide (new_front < 0)
       then move_words new_front (beg - L + 9 * o) (end_ - L + 9 * o) m1 else Some (m1, 0));
    let e := d_shift * DIG_PER_DEC1 in fill_gaps (9 * p1 + e) (beg - L + 9 * o + e) (end_ - L + 9 * o + e) m) = Some m' /\
    length m' = length (buf d) /\
    forall k, 0 <= k < ROUND_UP di + ROUND_UP df -> at_ m' k = moved X L (k - ROUND_UP di + p1 - o).
Proof.
  intros Ep Room B0 E0 Lm Same. destruct (new_words p1 o Ep) as (Ei & Ef).
  assert (HL : 0 <= L < 9) by (unfold L; Zlia). pose proof (bounds_window d beg end_ W B) as Wn. fold X in Wn.
  destruct B as [Or _ _ _ _ _ _ _]. pose proof (wf_len d W) as Ln.
  set (b1 := beg - L + 9 * o) in *. set (e1 := end_ - L + 9 * o) in *. assert (O1 : 0 <= b1 < e1) by (unfold b1, e1; lia).
  assert (Nf : 9 * p1 - di = Z.min (9 * p1) b1) by (unfold di, b1; lia). cbv zeta. rewrite Nf. unfold DIG_PER_DEC1.
  assert (Zo : forall k, k < b1 / 9 \/ (e1 - 1) / 9 < k -> moved X L (k - o) = 0).
  { intros k [K|K]; [eapply moved_before; [done|lia|unfold b1 in K; Zlia]|eapply moved_after; [done|lia|unfold e1 in K; Zlia]]. }
  assert (Go : forall m2 q, length m2 = length (buf d) -> 0 <= b1 + 9 * q -> e1 + 9 * q <= 9 * len d ->
    0 <= Z.min (9 * (p1 + q)) (b1 + 9 * q) < 9 ->
    (forall k, b1 / 9 + q <= k <= (e1 - 1) / 9 + q -> at_ m2 k = moved X L (k - q - o)) ->
    exists m', fill_gaps (9 * p1 + q * 9) (b1 + q * 9) (e1 + q * 9) m2 = Some m' /\ length m' = length (buf d) /\
      forall k, 0 <= k < ROUND_UP di + ROUND_UP df -> at_ m' k = moved X L (k - ROUND_UP di + p1 - o)).
  { intros m2 q L2 B2 E2 Nf2 S2. rewrite !(Z.mul_comm q), <- Z.mul_add_distr_l.
    assert (Ip : ROUND_UP di = p1 + q /\ Z.max (p1 + q) ((e1 + 9 * q - 1) / 9 + 1) = ROUND_UP di + ROUND_UP df).
    { rewrite Ei, Ef. Zlia. }
    destruct (fill_stage (fun k => moved X L (k - q - o)) (b1 + 9 * q) (e1 + 9 * q) ltac:(lia) m2 ltac:(lia)
      ltac:(intros k K; apply S2; Zlia) (p1 + q)) as (m' & -> & L' & A').
    - intros k K. apply Zo. Zlia.
    - rewrite L2, <- Ln. Zlia.
    - Zlia.
    - exists m'. split_and!; [done|lia|]. intros k K. rewrite A' by lia. f_equal. lia. }
  assert (Fm : e1 <= 9 * Z.of_nat (length m1)) by (rewrite Lm; lia).
  destruct (bool_decide_reflect (Z.min (9 * p1) b1 >= 9)) as [G|G]; cbn [orb].
  - destruct (move_left (fun k => moved X L (k - o)) b1 e1 O1 m1 Fm Same (Z.min (9 * p1) b1) ltac:(lia)) as (m2 & -> & L2 & A2).
    cbn [mbind option_bind]. set (q := Z.min (9 * p1) b1 / 9) in *. apply Go; [lia|unfold q; Zlia..|].
    intros k K. rewrite A2 by lia. f_equal. lia.
  - destruct (bool_decide_reflect (Z.min (9 * p1) b1 < 0)) as [N|N].
    + assert (Eq : Z.min (9 * p1) b1 = - (9 * (- p1))) by lia. rewrite Eq.
      destruct (move_right (fun k => moved X L (k - o)) b1 e1 O1 m1 Same (- p1) ltac:(lia)) as (m2 & -> & L2 & A2).
      { rewrite Lm, <- Ln. Zlia. }
      cbn [mbind option_bind]. apply Go; [lia|lia|Zlia|lia|]. intros k K. rewrite A2 by lia. f_equal. 
    + cbn [mbind option_bind]. apply Go; [done|lia|lia|lia|]. intros k K. rewrite Same by lia. f_equal. lia.
Qed.

Lemma shift_digits_spec err : ROUND_UP di + ROUND_UP df <= len d ->
  exists m', shift_digits d shift np beg end_ di df err = Some (err, mk_decimal di df (len d) (sign d) m') /\
    length m' = length (buf d) /\
    forall k, 0 <= k < ROUND_UP di + ROUND_UP df -> at_ m' k = moved X L (k - ROUND_UP di + iw d + t).
Proof.
  intros Room. destruct (mini_stage np (mini_fits Room)) as (m1 & o & E & Ho & B0 & E0 & L1 & A1).
  assert (HL : 0 <= L < 9) by (unfold L; Zlia). set (p1 := iw d + t + o).
  assert (Ep : 9 * p1 = np - L + 9 * o) by (unfold p1, np, t, L; Zlia). unfold shift_digits. rewrite E. cbn [mbind option_bind].
  rewrite <- Ep. destruct (bool_decide (Z.rem shift DIG_PER_DEC1 <> 0) && bool_decide (shift - L + 9 * o = 0) &&
    bool_decide (9 * p1 - di < DIG_PER_DEC1)) eqn:Early.
  - apply andb_prop in Early as (Ea & Nf). apply andb_prop in Ea as (_ & Sh). apply bool_decide_eq_true in Sh, Nf. unfold DIG_PER_DEC1 in Nf.
    exists m1. split_and!; [done|done|]. destruct (new_words p1 o Ep) as (Ei & Ef). intros k K.
    assert (To : t + o = 0) by (unfold t, L in *; Zlia). pose proof (iw_nonneg d W). pose proof (fw_nonneg d W).
    destruct B as [Or Eb _ _ _ _ _ _].
    assert (Nn : 9 * p1 - di = Z.min (9 * p1) (beg - L + 9 * o)) by (unfold di; lia).
    assert (Ip : ROUND_UP di = p1) by (rewrite Ei; unfold p1 in *; Zlia).
    rewrite A1; [f_equal; rewrite Ip; unfold p1; lia|].
    rewrite Ei, Ef in K. assert (Pi : p1 = iw d) by (unfold p1; lia).
    assert (Hd : p1 <= 0 \/ (beg - L + 9 * o) / 9 = 0) by Zlia.
    assert (Hb : (end_ - L + 9 * o - 1) / 9 <= iw d + fw d) by (clear - Eb Ho HL; Zlia).
    assert (Ha : 0 <= (beg - L + 9 * o) / 9 <= (end_ - L + 9 * o - 1) / 9) by (clear - Or B0; Zlia).
    clear - K Pi Hd Hb Ha H H0. lia.
  - destruct (words_stage m1 o p1 Ep Room B0 E0 L1 ltac:(intros k K; apply A1; by right)) as (m' & Em & L' & A').
    cbv zeta in Em. unfold DIG_PER_DEC1 in *.
    destruct (if bool_decide (9 * p1 - di >= 9) || bool_decide (9 * p1 - di < 0) then _ else _) as [[m2 ds]|]; [|done].
    cbn [mbind option_bind] in *. rewrite Em. cbn [mbind option_bind]. exists m'. split_and!; [done|done|].
    intros k K. rewrite A' by done. f_equal. unfold p1. lia.
Qed.
End Shift.

(** ** The value *)

(** Digits moved to the left by [L] positions, word by word. *)
Lemma ws_moved (f g : Z -> Z) c p n : 0 < c -> c * p = DIG_BASE ->
  (forall k, 0 <= k -> g k = f k mod c * p + f (k - 1) / c) -> f (-1) / c = 0 ->
  ws g n = p * ws f n - f (Z.of_nat n - 1) / c * DIG_BASE ^ Z.of_nat n.
Proof.
  intros C B G Z0. induction n as [|n IH]; cbn [ws]; [change (Z.of_nat 0 - 1) with (-1); rewrite Z0; lia|].
  rewrite IH, G by lia. replace (Z.of_nat (S n) - 1) with (Z.of_nat n) by lia.
  rewrite Nat2Z.inj_succ, Z.pow_succ_r by lia. rewrite <- B at 4.
  pose proof (Z.div_mod (f (Z.of_nat n)) c ltac:(lia)) as E. set (x := f (Z.of_nat n)) in *. set (r := x mod c) in *.
  set (e := x / c) in *. rewrite E. ring.
Qed.

Lemma absval_shift d d' shift F : wf d -> wf d' -> let t := shift / 9 in let L := shift mod 9 in
  (forall e, word d' e = word d (e - t) mod 10 ^ (9 - L) * 10 ^ L + word d (e - t - 1) / 10 ^ (9 - L)) ->
  0 <= F -> fw d <= F + t -> absval F d' = 10 ^ L * absval (F + t) d.
Proof.
  intros W W' t L E F0 Ft. assert (HL : 0 <= L < 9) by (unfold L; Zlia). pose proof (fw_nonneg d W).
  set (I := Z.max 1 (Z.max (iw d') (iw d + Z.abs t + 1))). pose proof (iw_nonneg d W).
  rewrite <- (absval_ws d' F I), <- (absval_ws d (F + t) (I - t)) by (done || lia).
  replace (I - t + (F + t)) with (I + F) by lia.
  rewrite (ws_moved (fun k => word d (k - (F + t))) _ (10 ^ (9 - L)) (10 ^ L)).
  - rewrite (word_out d); [rewrite Z.div_0_l by (apply Z.pow_nonzero; lia); lia|]. lia.
  - apply pow10_pos. lia.
  - apply base_split. lia.
  - intros k K. rewrite E. do 3 f_equal; [f_equal|]; lia.
  - rewrite (word_out d) by lia. apply Z.div_0_l, Z.pow_nonzero; lia.
Qed.

Lemma absval_scaled d d' shift F : wf d -> wf d' ->
  (forall F, 0 <= F -> fw d <= F + shift / 9 -> absval F d' = 10 ^ (shift mod 9) * absval (F + shift / 9) d) ->
  fw d <= F -> fw d' <= F -> 10 ^ Z.max (- shift) 0 * absval F d' = 10 ^ Z.max shift 0 * absval F d.
Proof.
  intros W W' E F0 F1. pose proof (fw_nonneg d W). pose proof (fw_nonneg d' W').
  assert (HL : 0 <= shift mod 9 < 9) by Zlia. assert (S9 : shift = 9 * (shift / 9) + shift mod 9) by Zlia.
  destruct (decide (0 <= shift / 9)) as [T|T].
  - rewrite (E F) by lia. rewrite !absval_dval by lia. replace (Z.max (- shift) 0) with 0 by lia. replace (Z.max shift 0) with shift by lia.
    replace (F + shift / 9 - fw d) with (F - fw d + shift / 9) by lia. rewrite Z.pow_add_r by lia.
    rewrite (base_10 (shift / 9)) by lia. rewrite S9 at 3. rewrite Z.pow_add_r by lia. change (10 ^ 0) with 1. ring.
  - specialize (E (F - shift / 9) ltac:(lia) ltac:(lia)). replace (F - shift / 9 + shift / 9) with F in E by lia.
    rewrite (absval_dval (F - shift / 9) d') in E by lia. rewrite (absval_dval F d') by lia.
    replace (F - shift / 9 - fw d') with (F - fw d' + - (shift / 9)) in E by lia. rewrite Z.pow_add_r, (base_10 (- (shift / 9))) in E by lia.
    replace (Z.max (- shift) 0) with (- shift) by lia. replace (Z.max shift 0) with 0 by lia. change (10 ^ 0) with 1.
    pose proof (pow10_pos (shift mod 9) ltac:(lia)). apply (Z.mul_cancel_l _ _ (10 ^ (shift mod 9))); [lia|].
    rewrite Z.mul_1_l, <- E, !Z.mul_assoc, <- Z.pow_add_r by lia. replace (shift mod 9 + - shift) with (9 * - (shift / 9)) by lia. ring.
Qed.

Lemma word_digits d beg end_ e : bounds d beg end_ -> word d e = digits_at d beg end_ (iw d - 1 - e).
Proof.
  intros [Or Eb _ _ Be Af _ _]. unfold digits_at. destruct (decide (- fw d <= e < iw d)) as [I|O].
  - rewrite word_at by lia. goal_decide D; [done|]. destruct (decide (iw d - 1 - e < beg / 9)); [apply Be; lia|apply Af; lia].
  - rewrite word_out by lia. rewrite decide_False by Zlia. done.
Qed.

(** The digits of a decimal with room for the moved ones. *)
Lemma decimal_shift_digits d beg end_ shift : wf d -> bounds d beg end_ ->
  let np := 9 * iw d + shift in let di := Z.max (np - beg) 0 in let df := Z.max (end_ - np) 0 in
  ROUND_UP di + ROUND_UP df <= len d ->
  exists d', shift_digits d shift np beg end_ di df E_DEC_OK = Some (E_DEC_OK, d') /\ wf d' /\ sign d' = sign d /\
    intg d' = di /\ frac d' = df /\ len d' = len d /\
    forall F, fw d <= F -> fw d' <= F -> 10 ^ Z.max (- shift) 0 * absval F d' = 10 ^ Z.max shift 0 * absval F d.
Proof.
  intros W B np di df Room. destruct (shift_digits_spec d W beg end_ B shift E_DEC_OK Room) as (m' & E & Lm & A).
  pose proof (bounds_window d beg end_ W B) as Wn. set (X := digits_at d beg end_) in *.
  set (t := shift / 9) in *. set (L := shift mod 9) in *. assert (HL : 0 <= L < 9) by (unfold L; Zlia).
  fold np di df in E, A.
  set (d' := mk_decimal di df (len d) (sign d) m') in *. pose proof (wf_len d W). pose proof (wf_pos d W).
  assert (Or : 0 <= beg < end_) by apply B.
  assert (Ne : 0 < ROUND_UP di + ROUND_UP df) by (rewrite !ROUND_UP_div by lia; unfold di, df; Zlia).
  assert (W' : wf d').
  { split; unfold iw, fw; cbn [intg frac Decimal.len buf sign d']; try lia; try (apply W).
    intros k K. rewrite A by lia. apply moved_range; [lia|apply Wn]. }
  destruct (new_words d beg end_ shift (iw d + t) 0) as (Ei & Ef); [unfold np, t, L; Zlia|]. fold np di df L in Ei, Ef.
  exists d'. split_and!; try done. intros F F0 F1. apply absval_scaled; try done. clear F F0 F1. intros F F0 F1.
  apply absval_shift; try done. fold t L. intros e. rewrite !(word_digits d beg end_) by done. fold X.
  replace (iw d - 1 - (e - t - 1)) with (iw d - 1 - (e - t) + 1) by lia. fold (moved X L (iw d - 1 - (e - t))).
  assert (Iw : iw d' = ROUND_UP di) by done. assert (Fw : fw d' = ROUND_UP df) by done.
  destruct (decide (- fw d' <= e < iw d')) as [I|O].
  - rewrite word_at by lia. change (buf d') with m'. rewrite Iw, A by lia. f_equal. lia.
  - rewrite word_out by lia. symmetry. rewrite Z.mul_0_r, !Z.add_0_r in Ei, Ef.
    destruct (decide (ROUND_UP di <= e)); [eapply moved_before; [done|lia|lia]|eapply moved_after; [done|lia|lia]].
Qed.

Lemma make_zero_value d : wf d -> exists d', decimal_make_zero d = Some d' /\ wf d' /\ dval d' = 0.
Proof.
  intros W. pose proof (wf_len d W). pose proof (wf_pos d W). destruct d as [i f n sg [|x b]]; cbn in *; [lia|].
  exists (mk_decimal 1 0 n 0 (0 :: b)). split; [reflexivity|]. split; [|reflexivity].
  split; unfold iw, fw; cbn [intg frac len sign buf]; change (ROUND_UP 1) with 1; change (ROUND_UP 0) with 0; try (cbn [length] in *; lia).
  intros k K. assert (k = 0) as -> by lia. change (at_ (0 :: b) 0) with 0. unfold DIG_BASE. lia.
Qed.

Lemma sval_zero F d : wf d -> fw d <= F -> dval d = 0 -> sval F d = 0.
Proof.
  intros W Fw E. pose proof (fw_nonneg d W). unfold sval. rewrite absval_dval, E by lia. by destruct (bool_decide _).
Qed.

(** ** Properties *)

(** C6 [decimal_shift] multiplies by a power of ten: whenever the words of the number
    have room for its digits at their new places, on either side of the point, it
    returns [E_DEC_OK] and a decimal with the value times [10 ^ shift], for
    positive and negative shifts; the fractions are compared as integers. *)
Theorem decimal_shift_exact d shift : wf d -> canonical d -> canonical_frac d ->
  ROUND_UP (Z.max (intg d + shift) 0) + ROUND_UP (Z.max (frac d - shift) 0) <= len d ->
  exists d', decimal_shift d shift = Some (E_DEC_OK, d') /\ wf d' /\
    forall F, fw d <= F -> fw d' <= F -> 10 ^ Z.max (- shift) 0 * sval F d' = 10 ^ Z.max shift 0 * sval F d.
Proof.
  intros W C Cf Room. unfold decimal_shift. destruct (bool_decide_reflect (shift = 0)) as [->|N0].
  { exists d. done. }
  destruct (digits_bounds_spec d W C Cf) as [(V0 & ->)|(beg & end_ & -> & B)]; cbn [mbind option_bind].
  - destruct (make_zero_value d W) as (d' & -> & W' & V'). cbn [mbind option_bind]. exists d'. split_and!; [done|done|].
    intros F F0 F1. rewrite !sval_zero by done. lia.
  - assert (Or : 0 <= beg < end_) by apply B. rewrite (bool_decide_false (beg = end_)) by lia. fold (iw d).
    unfold DIG_PER_DEC1. rewrite (Z.mul_comm (iw d)). set (np := 9 * iw d + shift).
    pose proof (bd_intg _ _ _ B) as Bi. pose proof (bd_frac _ _ _ B) as Bf.
    assert (R2 : ROUND_UP (Z.max (np - beg) 0) + ROUND_UP (Z.max (end_ - np) 0) <= len d).
    { pose proof (ROUND_UP_mono (Z.max (np - beg) 0) (Z.max (intg d + shift) 0) ltac:(unfold np; lia)).
      pose proof (ROUND_UP_mono (Z.max (end_ - np) 0) (Z.max (frac d - shift) 0) ltac:(unfold np; lia)). lia. }
    rewrite (bool_decide_false (_ > len d)) by lia.
    destruct (decimal_shift_digits d beg end_ shift W B R2) as (d' & E & W' & Sg & _ & _ & _ & A). exists d'. split_and!; [exact E|done|].
    intros F F0 F1. specialize (A F F0 F1). unfold sval. rewrite Sg. destruct (bool_decide _); lia.
Qed.

Definition w_shift : decimal_t := mk_decimal 3 12 3 1 [123; 987654321; 500000000].

Lemma decimal_shift_exact_witness :
  exists d', decimal_shift w_shift (-2) = Some (E_DEC_OK, d') /\ wf d' /\
    forall F, 2 <= F -> fw d' <= F -> 100 * sval F d' = sval F w_shift.
Proof.
  destruct (decimal_shift_exact w_shift (-2)) as (d' & E & W & V).
  - by apply decimal_wfb_wf.
  - intros _. reflexivity.
  - by exists 123987654321500.
  - vm_compute. congruence.
  - exists d'. split_and!; [exact E|exact W|]. intros F F0 F1. specialize (V F F0 F1).
    change (10 ^ Z.max (- -2) 0) with 100 in V. change (10 ^ Z.max (-2) 0) with 1 in V. lia.
Defined.

(** A shift that has to cut digits off rounds the number first and goes on with
    the positions of the digits from before: when the rounding carries into a new
    word the result is too small by a word or more (999999999.999999999 * 10 ^ -19 in
    three words gives 10 ^ -19 instead of 10 ^ -10), or words beyond the buffer are
    written. *)
Theorem decimal_shift_gaps :
  decimal_shift (mk_decimal 9 9 3 0 [999999999; 999999999; 0]) (-19) =
    Some (E_DEC_TRUNCATED, mk_decimal 0 27 3 0 [0; 0; 100000000]) /\
  decimal_shift (mk_decimal 9 9 2 0 [999999999; 999999999]) (-1) = None.
Proof. split; vm_compute; reflexivity. Qed.
End DecimalShiftMain.
