(* ===== verification/DecimalText.v ===== *)
(** * DecimalText: decimals and strings

    [decimal2string] and [internal_str2dec] of [strings/decimal.c] with
    [decimal_string_size] of [include/decimal.h].  A string is a list of bytes,
    a pointer into it an index. *)
From stdpp Require Import base tactics option list numbers.
From Stdlib Require Import ZArith Lia.
From S2P Require Import Prelude Ctype IntStr Decimal DecimalBin DecimalRound DecimalShift.

Module DecimalText.
Import Ctype Decimal.

(** ** Model: printing *)

Definition decimal_string_size (dec : decimal_t) : Z :=
  (if bool_decide (intg dec <> 0) then intg dec else 1) + frac dec + Z.b2z (bool_decide (frac dec > 0)) + 2.

(** [for (i= ...; i; i--) { y= x/DIG_MASK; ... x*=10; }], [n] digits. *)
Fixpoint print_frac_word (n : nat) (x s1 : Z) (to : list Z) : option (Z * list Z) :=
  match n with
  | O => Some (s1, to)
  | S n =>
      let y := Z.quot x DecimalRound.DIG_MASK in
      to ← store to s1 (u8 (48 + u8 y));
      print_frac_word n (s32 (s32 (x - y * DecimalRound.DIG_MASK) * 10)) (s1 + 1) to
  end.

(** [for (; frac>0; frac-=DIG_PER_DEC1)], at most [n] words. *)
Fixpoint print_frac (n : nat) (b : list Z) (buf frac s1 : Z) (to : list Z) : option (Z * list Z) :=
  if bool_decide (frac > 0)
  then
    match n with
    | O => None
    | S n =>
        x ← load b buf;
        '(s1, to) ← print_frac_word (Z.to_nat (Z.min frac DIG_PER_DEC1)) x s1 to;
        print_frac n b (buf + 1) (frac - DIG_PER_DEC1) s1 to
    end
  else Some (s1, to).

(** [for (i= ...; i; i--) { y=x/10; *--s='0'+(uchar)(x-y*10); x=y; }], [n] digits. *)
Fixpoint print_intg_word (n : nat) (x s : Z) (to : list Z) : option (Z * list Z) :=
  match n with
  | O => Some (s, to)
  | S n =>
      let y := Z.quot x 10 in
      to ← store to (s - 1) (u8 (48 + u8 (x - y * 10)));
      print_intg_word n y (s - 1) to
  end.

(** [for (buf= ...; intg>0; intg-=DIG_PER_DEC1)], at most [n] words. *)
Fixpoint print_intg (n : nat) (b : list Z) (buf intg s : Z) (to : list Z) : option (Z * list Z) :=
  if bool_decide (intg > 0)
  then
    match n with
    | O => None
    | S n =>
        x ← load b (buf - 1);
        '(s, to) ← print_intg_word (Z.to_nat (Z.min intg DIG_PER_DEC1)) x s to;
        print_intg n b (buf - 1) (intg - DIG_PER_DEC1) s to
    end
  else Some (s, to).

(** [for(; fill; fill--) *s++=filler;]: a negative count runs over every buffer. *)
Definition fill_chars (fill s filler : Z) (to : list Z) : option (Z * list Z) :=
  if bool_decide (fill < 0) then None
  else to ← for_up (Z.to_nat fill) 0 (fun k to => store to (s + k) filler) to; Some (s + fill, to).

(** What is printed: [intg], [frac], [len] and the error. *)
Definition print_sizes (from : decimal_t) (intg intg_len frac_len to_len fixed_precision fixed_decimals : Z)
  : Z * Z * Z * Z :=
  let frac := Decimal.frac from in
  let test f := Z.b2z (bool_decide (f <> 0)) in
  let len := sign from + intg_len + test frac + frac_len in
  if bool_decide (fixed_precision <> 0)
  then
    let fixed_intg := fixed_precision - fixed_decimals in
    let '(frac, error) := if bool_decide (frac > fixed_decimals) then (fixed_decimals, E_DEC_TRUNCATED) else (frac, E_DEC_OK) in
    let '(intg, error) := if bool_decide (intg > fixed_intg) then (fixed_intg, E_DEC_OVERFLOW) else (intg, error) in
    (intg, frac, len, error)
  else if bool_decide (len > to_len - 1)
  then
    let j := len - (to_len - 1) in
    let error := if bool_decide (frac <> 0) && bool_decide (j <= frac + 1) then E_DEC_TRUNCATED else E_DEC_OVERFLOW in
    let j := if bool_decide (frac <> 0) && bool_decide (j >= frac + 1) then j - 1 else j in
    let '(intg, frac) := if bool_decide (j > frac) then (intg - (j - frac), 0) else (intg, frac - j) in
    (intg, frac, sign from + intg_len + test frac + frac_len, error)
  else (intg, frac, len, E_DEC_OK).

(** The error, the buffer and [*to_len]. *)
Definition decimal2string (from : decimal_t) (to : list Z) (to_len fixed_precision fixed_decimals filler : Z)
  : option (Z * list Z * Z) :=
  '(buf0, intg) ← DecimalBin.remove_leading_zeroes from;
  let '(b, buf0, intg) := if bool_decide (intg + frac from = 0) then ([0], 0, 1) else (buf from, buf0, intg) in
  let intg_len := if bool_decide (fixed_precision <> 0) then fixed_precision - fixed_decimals else intg in
  let intg_len := if bool_decide (intg_len = 0) then 1 else intg_len in
  let frac_len := if bool_decide (fixed_precision <> 0) then fixed_decimals else frac from in
  let '(intg, frac, len, error) := print_sizes from intg intg_len frac_len to_len fixed_precision fixed_decimals in
  to ← store to len 0;
  '(s, to) ← (if bool_decide (sign from <> 0) then to ← store to 0 45; Some (1, to) else Some (0, to));
  to ← (if bool_decide (frac <> 0)
        then
          let s1 := s + intg_len in
          to ← store to s1 46;
          '(s1, to) ← print_frac (length b) b (buf0 + ROUND_UP intg) frac (s1 + 1) to;
          '(_, to) ← fill_chars (frac_len - frac) s1 filler to;
          Some to
        else Some to);
  let fill := intg_len - intg in
  let fill := if bool_decide (intg = 0) then fill - 1 else fill in
  '(s, to) ← fill_chars fill s filler to;
  to ← (if bool_decide (intg <> 0)
        then '(_, to) ← print_intg (length b) b (buf0 + ROUND_UP intg) intg (s + intg) to; Some to
        else store to s 48);
  Some (error, to, len).

(** ** Model: reading *)

Definition E_DEC_OOM : Z := 16.
Definition INT_MAX : Z := 2 ^ 31 - 1.
Definition INT_MIN : Z := - 2 ^ 31.

(** [while (s < end_of_string && class( *s)) s++;], [n] characters are left. *)
Fixpoint skip_class (class : Z -> option bool) (n : nat) (from : list Z) (s : Z) : option Z :=
  match n with
  | O => Some s
  | S n => c ← load from s; k ← class c; if (k : bool) then skip_class class n from (s + 1) else Some s
  end.

(** The digits in front of the point, from the last to the first: [n] digits are left. *)
Fixpoint read_intg (n : nat) (from : list Z) (s x i buf : Z) (m : list Z) : option (list Z) :=
  match n with
  | O => if bool_decide (i <> 0) then store m (buf - 1) x else Some m
  | S n =>
      c ← load from (s - 1);
      w ← load powers10 i;
      let x := s32 (x + (c - 48) * w) in
      if bool_decide (i + 1 = DIG_PER_DEC1)
      then m ← store m (buf - 1) x; read_intg n from (s - 1) 0 0 (buf - 1) m
      else read_intg n from (s - 1) x (i + 1) buf m
  end.

(** The digits behind the point. *)
Fixpoint read_frac (n : nat) (from : list Z) (s1 x i buf : Z) (m : list Z) : option (list Z) :=
  match n with
  | O => if bool_decide (i <> 0)
         then w ← load powers10 (DIG_PER_DEC1 - i); store m buf (s32 (x * w)) else Some m
  | S n =>
      c ← load from (s1 + 1);
      let x := s32 (c - 48 + x * 10) in
      if bool_decide (i + 1 = DIG_PER_DEC1)
      then m ← store m buf x; read_frac n from (s1 + 1) 0 0 (buf + 1) m
      else read_frac n from (s1 + 1) x (i + 1) buf m
  end.

(** The sizes that fit: [intg], [frac], [intg1] and the error, or [E_DEC_OOM]. *)
Definition read_sizes (to : decimal_t) (fixed : bool) (intg frac : Z) : option (Z * Z * Z * Z) :=
  if fixed
  then
    let '(frac, error) := if bool_decide (frac > Decimal.frac to) then (Decimal.frac to, E_DEC_TRUNCATED) else (frac, 0) in
    let '(intg, error) := if bool_decide (intg > Decimal.intg to) then (Decimal.intg to, E_DEC_OVERFLOW) else (intg, error) in
    if bool_decide (ROUND_UP intg + ROUND_UP frac > len to) then None
    else Some (intg, frac, ROUND_UP intg, error)
  else
    let '(intg1, frac1, error) := FIX_INTG_FRAC_ERROR (len to) (ROUND_UP intg) (ROUND_UP frac) in
    if bool_decide (error <> 0)
    then Some (if bool_decide (error = E_DEC_OVERFLOW) then intg1 * DIG_PER_DEC1 else intg, frac1 * DIG_PER_DEC1, intg1, error)
    else Some (intg, frac, intg1, error).

(** [fatal_error]: the error, the zero that is returned and [*end]. *)
Definition fatal_error (error : Z) (to : decimal_t) (e : Z) : option (Z * decimal_t * Z) :=
  to ← decimal_make_zero to; Some (error, to, e).

(** The exponent behind the number at [endp]. *)
Definition read_exponent (from : list Z) (to : decimal_t) (endp end_of_string error : Z) : option (Z * decimal_t * Z) :=
  x ← (if bool_decide (endp + 1 < end_of_string)
       then c ← load from endp; Some (bool_decide (c = 101) || bool_decide (c = 69)) else Some false);
  if (x : bool)
  then
    '(exponent, e, str_error) ← IntStr.my_strtoll10 (drop (Z.to_nat (endp + 1)) from) (Some (end_of_string - (endp + 1)));
    if bool_decide (e <> 0)
    then
      let e := endp + 1 + e in
      if bool_decide (str_error > 0) then fatal_error E_DEC_BAD_NUM to e
      else if bool_decide (exponent > Z.quot INT_MAX 2) || (bool_decide (str_error = 0) && bool_decide (exponent < 0))
      then fatal_error E_DEC_OVERFLOW to e
      else if bool_decide (exponent < Z.quot INT_MIN 2) && bool_decide (error <> E_DEC_OVERFLOW)
      then fatal_error E_DEC_TRUNCATED to e
      else if bool_decide (error <> E_DEC_OVERFLOW)
      then '(error, to) ← DecimalShift.decimal_shift to (s32 exponent); Some (error, to, e)
      else Some (error, to, e)
    else Some (error, to, endp)
  else Some (error, to, endp).

(** The error, [to] and [*end]. *)
Definition internal_str2dec (from : list Z) (to : decimal_t) (end_of_string : Z) (fixed : bool) : option (Z * decimal_t * Z) :=
  s ← skip_class my_isspace (Z.to_nat end_of_string) from 0;
  if bool_decide (s = end_of_string) then fatal_error E_DEC_BAD_NUM to end_of_string
  else
    c ← load from s;
    let to := mk_decimal (intg to) (frac to) (len to) (Z.b2z (bool_decide (c = 45))) (buf to) in
    let s1 := if bool_decide (c = 45) || bool_decide (c = 43) then s + 1 else s in
    s ← skip_class my_isdigit (Z.to_nat (end_of_string - s1)) from s1;
    let intg := s - s1 in
    point ← (if bool_decide (s < end_of_string) then c ← load from s; Some (bool_decide (c = 46)) else Some false);
    endp ← (if (point : bool) then skip_class my_isdigit (Z.to_nat (end_of_string - (s + 1))) from (s + 1) else Some s);
    let frac := if (point : bool) then endp - s - 1 else 0 in
    if bool_decide (frac + intg = 0) then fatal_error E_DEC_BAD_NUM to endp
    else
      match read_sizes to fixed intg frac with
      | None => fatal_error E_DEC_OOM to endp
      | Some (intg, frac, intg1, error) =>
          m ← read_intg (Z.to_nat intg) from s 0 0 intg1 (buf to);
          m ← read_frac (Z.to_nat frac) from s 0 0 intg1 m;
          read_exponent from (mk_decimal intg frac (len to) (sign to) m) endp end_of_string error
      end.

End DecimalText.
