(* ===== verification/DecimalTextProps.v ===== *)
(** * DecimalTextProps: digits of decimals, printed and read *)
From stdpp Require Import base tactics option list numbers.
From Stdlib Require Import ZArith Lia.
From S2P Require Import Prelude Ctype Decimal DecimalProps DecimalMul DecimalRound DecimalRoundProps.
From S2P Require Import DecimalShiftProps DecimalText DecimalBin DecimalBinProps.

Module DecimalTextProps.
Import Ctype Decimal DecimalProps DecimalMul DecimalRound DecimalRoundProps DecimalShiftProps DecimalText.

(** ** Digits *)

(** The digit of weight [10 ^ p]. *)
Definition digit (d : decimal_t) (p : Z) : Z := word d (p / 9) / 10 ^ (p mod 9) mod 10.

(** The characters for the digits of the weights [n - 1], ..., [0]. *)
Fixpoint chars (g : Z -> Z) (n : nat) : list Z :=
  match n with O => [] | S n => 48 + g (Z.of_nat n) :: chars g n end.

Lemma length_chars g n : length (chars g n) = n.
Proof. induction n; cbn; auto. Qed.

Lemma chars_app g a b : chars g (a + b) = chars (fun k => g (k + Z.of_nat b)) a ++ chars g b.
Proof.
  induction a as [|a IH]; [done|]. cbn [chars Nat.add app]. rewrite IH. do 2 f_equal. f_equal. lia.
Qed.

Lemma chars_ext f g n : (forall k, 0 <= k < Z.of_nat n -> f k = g k) -> chars f n = chars g n.
Proof.
  induction n as [|n IH]; intros H; [done|]. cbn [chars]. rewrite H by lia. f_equal. apply IH. intros. apply H. lia.
Qed.

Lemma chars_lookup g n k : 0 <= k < Z.of_nat n -> load (chars g n) k = Some (48 + g (Z.of_nat n - 1 - k)).
Proof.
  revert k. induction n as [|n IH]; intros k K; [lia|]. cbn [chars]. destruct (decide (k = 0)) as [->|].
  - change (load (48 + g (Z.of_nat n) :: chars g n) 0) with (Some (48 + g (Z.of_nat n))). do 3 f_equal. lia.
  - specialize (IH (k - 1) ltac:(lia)). unfold load in *. rewrite decide_True in IH by lia. rewrite decide_True by lia.
    replace (Z.to_nat k) with (S (Z.to_nat (k - 1))) by lia. change ((48 + g (Z.of_nat n) :: chars g n) !! S (Z.to_nat (k - 1))) with (chars g n !! Z.to_nat (k - 1)). rewrite IH.
    do 3 f_equal. lia.
Qed.

(** The number of the digits [a], ..., [a + n - 1]. *)
Fixpoint num (g : Z -> Z) (a : Z) (n : nat) : Z :=
  match n with O => 0 | S n => g a + 10 * num g (a + 1) n end.

Lemma num_app g n m : forall a, num g a (n + m) = num g a n + 10 ^ Z.of_nat n * num g (a + Z.of_nat n) m.
Proof.
  induction n as [|n IH]; intros a; cbn [num Nat.add]; [rewrite Z.add_0_r; lia|].
  rewrite IH, Nat2Z.inj_succ, Z.pow_succ_r by lia. replace (a + 1 + Z.of_nat n) with (a + Z.succ (Z.of_nat n)) by lia. ring.
Qed.

Lemma num_ext f g n : forall a, (forall k, a <= k < a + Z.of_nat n -> f k = g k) -> num f a n = num g a n.
Proof.
  induction n as [|n IH]; intros a H; [done|]. cbn [num]. rewrite H by lia. f_equal. f_equal. apply IH. intros. apply H. lia.
Qed.

Lemma num_range g n : forall a, (forall k, 0 <= g k < 10) -> 0 <= num g a n < 10 ^ Z.of_nat n.
Proof.
  intros a H. revert a. induction n as [|n IH]; intros a; cbn [num]; [lia|]. specialize (IH (a + 1)). pose proof (H a).
  rewrite Nat2Z.inj_succ, Z.pow_succ_r by lia. lia.
Qed.

Lemma num_shift (g : Z -> Z) c n : forall a, num (fun k => g (k - c)) a n = num g (a - c) n.
Proof.
  induction n as [|n IH]; intros a; [done|]. cbn [num]. rewrite IH. by replace (a + 1 - c) with (a - c + 1) by lia.
Qed.

Lemma num_zero g n : forall a, (forall k, a <= k < a + Z.of_nat n -> g k = 0) -> num g a n = 0.
Proof.
  induction n as [|n IH]; intros a H; [done|]. cbn [num]. rewrite H, IH by (lia || (intros; apply H; lia)). lia.
Qed.

(** A number from its digits. *)
Lemma num_digits w n : forall a, 0 <= w ->
  num (fun p => w / 10 ^ (p - a) mod 10) a n = w mod 10 ^ Z.of_nat n.
Proof.
  intros a W. enough (G : forall i b, 0 <= i -> b = a + i -> num (fun p => w / 10 ^ (p - a) mod 10) b n = (w / 10 ^ i) mod 10 ^ Z.of_nat n).
  { rewrite (G 0 a) by lia. change (10 ^ 0) with 1. by rewrite Z.div_1_r. }
  induction n as [|n IH]; intros i b I ->; cbn [num]; [change (10 ^ Z.of_nat 0) with 1; by rewrite Z.mod_1_r|].
  rewrite (IH (i + 1)) by lia. replace (a + i - a) with i by lia. set (v := w / 10 ^ i).
  assert (w / 10 ^ (i + 1) = v / 10) as ->.
  { unfold v. rewrite Z.pow_add_r, Z.div_div by (try apply Z.pow_nonzero; lia). done. }
  rewrite Nat2Z.inj_succ, Z.pow_succ_r by lia. assert (0 < 10 ^ Z.of_nat n) by (apply Z.pow_pos_nonneg; lia).
  rewrite Z.rem_mul_r by lia. lia.
Qed.

Section Digits.
Context (d : decimal_t) (W : wf d).

Lemma decimal_digit_range p : 0 <= digit d p < 10.
Proof. apply Z.mod_pos_bound. lia. Qed.

Lemma digit_in e t : 0 <= t < 9 -> digit d (9 * e + t) = word d e / 10 ^ t mod 10.
Proof. intros T. unfold digit. do 3 f_equal; [f_equal; Zlia|f_equal; Zlia]. Qed.

Lemma num_word e n : (n <= 9)%nat -> num (digit d) (9 * e) n = word d e mod 10 ^ Z.of_nat n.
Proof.
  intros N. pose proof (word_range d e W). rewrite <- (num_digits (word d e) n (9 * e)) by lia. apply num_ext. intros k K.
  replace k with (9 * e + (k - 9 * e)) at 1 by lia. by rewrite digit_in by lia.
Qed.

Lemma num_full e : num (digit d) (9 * e) 9 = word d e.
Proof. rewrite num_word by lia. apply Z.mod_small, (word_range d e W). Qed.
End Digits.

(** ** Printing *)

Lemma char_small x : 0 <= x < 10 -> u8 (48 + u8 x) = 48 + x.
Proof. intros X. rewrite (uwrap_small 8 x) by (cbn; lia). rewrite uwrap_small by (cbn; lia). done. Qed.

Lemma store_char {A} (pre : list A) x post s v : s = Z.of_nat (length pre) -> store (pre ++ x :: post) s v = Some (pre ++ v :: post).
Proof. intros ->. apply store_next. Qed.

Lemma print_frac_word_spec n : forall x pre mid post s1, (n <= 9)%nat -> 0 <= x < 10 ^ 9 -> length mid = n -> s1 = Z.of_nat (length pre) ->
  print_frac_word n x s1 (pre ++ mid ++ post) =
  Some (s1 + Z.of_nat n, pre ++ chars (fun k => x / 10 ^ (9 - Z.of_nat n + k) mod 10) n ++ post).
Proof.
  induction n as [|n IH]; intros x pre mid post s1 N X L ->; cbn [print_frac_word chars].
  - destruct mid; [|done]. do 2 f_equal. lia.
  - destruct mid as [|c mid]; [done|]. injection L as L. unfold DIG_MASK. rewrite Z.quot_div_nonneg by lia.
    assert (Y : 0 <= x / 100000000 < 10) by Zlia. rewrite char_small by done. cbn [app]. rewrite store_char by done. cbn [mbind option_bind].
    assert (X' : s32 (s32 (x - x / 100000000 * 100000000) * 10) = x mod 100000000 * 10).
    { replace (x - x / 100000000 * 100000000) with (x mod 100000000) by Zlia.
      assert (0 <= x mod 100000000 < 100000000) by Zlia.
      rewrite (swrap_small 32 (x mod 100000000)) by (cbn; lia). rewrite swrap_small by (cbn; lia). done. }
    rewrite X'. rewrite (cons_middle _ pre), app_assoc.
    rewrite (IH _ (pre ++ [48 + x / 100000000]) mid) by (try lia; try done; try Zlia; rewrite length_app; cbn; lia).
    rewrite <- app_assoc. cbn [app]. do 2 f_equal; [lia|]. do 2 f_equal.
    + replace (9 - Z.of_nat (S n) + Z.of_nat n) with 8 by lia. change (10 ^ 8) with 100000000. by rewrite Z.mod_small by lia.
    + f_equal. apply chars_ext. intros k K. set (e := 9 - Z.of_nat (S n) + k).
      replace (9 - Z.of_nat n + k) with (Z.succ e) by lia. rewrite Z.pow_succ_r by lia.
      rewrite (Z.mul_comm (x mod 100000000)), Z.div_mul_cancel_l by (try (apply Z.pow_nonzero; lia); lia).
      assert (E8 : 100000000 = 10 ^ e * 10 ^ (8 - e)) by (rewrite <- Z.pow_add_r by lia; by replace (e + (8 - e)) with 8 by lia).
      pose proof (pow10_pos e ltac:(lia)). pose proof (pow10_pos (8 - e) ltac:(lia)). pose proof (pow10_pos (7 - e) ltac:(lia)).
      rewrite E8, Z.rem_mul_r by lia. rewrite (Z.mul_comm (10 ^ e)), Z.div_add, Z.div_small by (try apply Z.mod_pos_bound; lia).
      rewrite Z.add_0_l. replace (8 - e) with (Z.succ (7 - e)) by lia. rewrite Z.pow_succ_r by lia.
      rewrite Z.rem_mul_r, (Z.mul_comm 10), Z.mod_add, Z.mod_mod by lia. done.
Qed.

(** The words [w 0], [w 1], ... behind the point. *)
Lemma print_frac_spec (g w : Z -> Z) fuel : forall b buf f pre mid post s1, 0 <= f <= 9 * Z.of_nat fuel -> Z.of_nat (length mid) = f ->
  s1 = Z.of_nat (length pre) -> (forall k, 0 <= k < ROUND_UP f -> load b (buf + k) = Some (w k) /\ 0 <= w k < DIG_BASE) ->
  (forall k, 0 <= k < f -> g k = w ((f - 1 - k) / 9) / 10 ^ (8 - (f - 1 - k) mod 9) mod 10) ->
  print_frac fuel b buf f s1 (pre ++ mid ++ post) = Some (s1 + f, pre ++ chars g (Z.to_nat f) ++ post).
Proof.
  revert g w. induction fuel as [|fuel IH]; intros g w b buf f pre mid post s1 F Lm -> Lw G; cbn [print_frac].
  - assert (f = 0) as -> by lia. rewrite bool_decide_false by lia. destruct mid; [|done]. do 2 f_equal. lia.
  - destruct (bool_decide_reflect (f > 0)) as [P|P].
    2:{ assert (f = 0) as -> by lia. destruct mid; [|done]. do 2 f_equal. lia. }
    rewrite ROUND_UP_div in Lw by lia. destruct (Lw 0) as (L0 & R0); [Zlia|]. rewrite Z.add_0_r in L0. rewrite L0. cbn [mbind option_bind].
    change DIG_PER_DEC1 with 9. set (n := Z.to_nat (Z.min f 9)). 
    rewrite <- (take_drop n mid), <- app_assoc.
    rewrite (print_frac_word_spec n (w 0) pre (take n mid)) by (try done; try lia; rewrite length_take; lia). cbn [mbind option_bind].
    assert (Cf : chars g (Z.to_nat f) = chars (fun k => w 0 / 10 ^ (9 - Z.of_nat n + k) mod 10) n ++ chars g (Z.to_nat (f - 9))).
    { replace (Z.to_nat f) with (n + Z.to_nat (f - 9))%nat by lia. rewrite chars_app. f_equal. apply chars_ext. intros k K.
      rewrite G by lia. set (j := f - 1 - (k + Z.of_nat (Z.to_nat (f - 9)))). assert (J : 0 <= j < 9) by lia.
      rewrite (Z.div_small j), (Z.mod_small j) by lia. do 3 f_equal. lia. }
    destruct (decide (f <= 9)) as [S|S].
    + assert (drop n mid = []) as -> by (apply drop_ge; lia). cbn [app]. destruct fuel; cbn [print_frac];
        (rewrite bool_decide_false by lia; rewrite Cf; replace (Z.to_nat (f - 9)) with 0%nat by lia; cbn [chars]; rewrite app_nil_r;
         do 2 f_equal; lia).
    + assert (n = 9%nat) as En by lia. rewrite En in *.
      set (c9 := chars (fun k => w 0 / 10 ^ (9 - Z.of_nat 9 + k) mod 10) 9).
      pose proof (IH g (fun k => w (k + 1)) b (buf + 1) (f - 9) (pre ++ c9) (drop 9 mid) post (Z.of_nat (length pre) + Z.of_nat 9)) as E.
      rewrite <- !app_assoc in E. rewrite E.
      * rewrite Cf. fold c9. rewrite <- !app_assoc. do 2 f_equal. lia.
      * lia.
      * rewrite length_drop. lia.
      * unfold c9. rewrite length_app, length_chars. lia.
      * intros k K. rewrite ROUND_UP_div in K by lia. replace (buf + 1 + k) with (buf + (k + 1)) by lia. apply Lw. Zlia.
      * intros k K. rewrite G by lia. set (j := f - 1 - k). replace (f - 9 - 1 - k) with (j - 9) by lia.
        replace ((j - 9) / 9 + 1) with (j / 9) by Zlia. replace ((j - 9) mod 9) with (j mod 9) by Zlia. done.
Qed.

Lemma print_intg_word_spec n : forall x pre mid post s, 0 <= x -> length mid = n -> s = Z.of_nat (length pre) + Z.of_nat n ->
  print_intg_word n x s (pre ++ mid ++ post) =
  Some (Z.of_nat (length pre), pre ++ chars (fun k => x / 10 ^ k mod 10) n ++ post).
Proof.
  induction n as [|n IH]; intros x pre mid post s X L ->; cbn [print_intg_word].
  - destruct mid; [|done]. do 2 f_equal. lia.
  - destruct (last_word mid) as (mid' & c & ->); [by destruct mid|]. rewrite length_app in L. cbn [length] in L.
    rewrite Z.quot_div_nonneg by lia. replace (x - x / 10 * 10) with (x mod 10) by Zlia.
    rewrite char_small by Zlia. rewrite <- app_assoc, app_assoc. cbn [app].
    rewrite store_char by (rewrite length_app; lia). cbn [mbind option_bind]. rewrite <- app_assoc.
    rewrite IH by (lia || apply Z.div_pos; lia). do 3 f_equal. replace (S n) with (n + 1)%nat by lia. rewrite chars_app, <- app_assoc.
    f_equal.
    + apply chars_ext. intros k K. change (Z.of_nat 1) with 1. rewrite Z.add_comm, Z.pow_add_r, Z.div_div by (try apply pow10_pos; lia). done.
    + cbn [chars app Z.of_nat]. change (10 ^ 0) with 1. by rewrite Z.div_1_r.
Qed.

(** The words [w 0], [w 1], ... in front of the point, the last one first. *)
Lemma print_intg_spec fuel : forall (g w : Z -> Z) b buf n pre mid post s, 0 <= n <= 9 * Z.of_nat fuel -> Z.of_nat (length mid) = n ->
  s = Z.of_nat (length pre) + n -> (forall k, 0 <= k < ROUND_UP n -> load b (buf - 1 - k) = Some (w k) /\ 0 <= w k) ->
  (forall k, 0 <= k < n -> g k = w (k / 9) / 10 ^ (k mod 9) mod 10) ->
  print_intg fuel b buf n s (pre ++ mid ++ post) = Some (Z.of_nat (length pre), pre ++ chars g (Z.to_nat n) ++ post).
Proof.
  induction fuel as [|fuel IH]; intros g w b buf n pre mid post s N Lm -> Lw G; cbn [print_intg].
  - assert (n = 0) as -> by lia. rewrite bool_decide_false by lia. destruct mid; [|done]. do 2 f_equal. lia.
  - destruct (bool_decide_reflect (n > 0)) as [P|P].
    2:{ assert (n = 0) as -> by lia. destruct mid; [|done]. do 2 f_equal. lia. }
    rewrite ROUND_UP_div in Lw by lia. destruct (Lw 0) as (L0 & R0); [Zlia|]. rewrite Z.sub_0_r in L0. rewrite L0. cbn [mbind option_bind].
    change DIG_PER_DEC1 with 9. set (j := Z.to_nat (Z.min n 9)). set (r := Z.to_nat (n - 9)).
    assert (Ej : Z.to_nat n = (r + j)%nat) by lia.
    rewrite <- (take_drop r mid), <- app_assoc, app_assoc.
    rewrite (print_intg_word_spec j (w 0) (pre ++ take r mid) (drop r mid) post)
      by (try done; rewrite ?length_app, ?length_take, ?length_drop; lia). cbn [mbind option_bind].
    rewrite Ej, chars_app, <- !app_assoc.
    assert (Cj : chars (fun k => w 0 / 10 ^ k mod 10) j = chars g j).
    { apply chars_ext. intros k K. rewrite G by lia. by rewrite (Z.div_small k), (Z.mod_small k) by lia. }
    rewrite Cj, length_app, length_take, Nat.min_l by lia.
    destruct (decide (n <= 9)) as [S|S].
    + assert (r = 0%nat) as -> by lia. cbn [take app chars]. rewrite Nat.add_0_r.
      destruct fuel; cbn [print_intg]; (rewrite bool_decide_false by lia; done).
    + rewrite (IH (fun k => g (k + Z.of_nat j)) (fun k => w (k + 1)) b (buf - 1) (n - 9) pre (take r mid)).
      * do 3 f_equal.
      * lia.
      * rewrite length_take. lia.
      * lia.
      * intros k K. rewrite ROUND_UP_div in K by lia. replace (buf - 1 - 1 - k) with (buf - 1 - (k + 1)) by lia. apply Lw. Zlia.
      * intros k K. rewrite G by lia. replace (Z.of_nat j) with 9 by lia. replace ((k + 9) / 9) with (k / 9 + 1) by Zlia.
        by replace ((k + 9) mod 9) with (k mod 9) by Zlia.
Qed.

(** ** Reading *)

Lemma digit_class k : 0 <= k < 10 -> my_isdigit (48 + k) = Some true /\ my_isspace (48 + k) = Some false.
Proof.
  intros K. assert (k = 0 \/ k = 1 \/ k = 2 \/ k = 3 \/ k = 4 \/ k = 5 \/ k = 6 \/ k = 7 \/ k = 8 \/ k = 9) as D by lia.
  repeat destruct D as [-> | D]; try subst k; split; vm_compute; reflexivity.
Qed.

Lemma skip_class_spec cls ds : forall pre post n s, Forall (fun c => cls c = Some true) ds -> (length ds <= n)%nat ->
  n = length ds \/ (exists c r, post = c :: r /\ cls c = Some false) -> s = Z.of_nat (length pre) ->
  skip_class cls n (pre ++ ds ++ post) s = Some (s + Z.of_nat (length ds)).
Proof.
  induction ds as [|c ds IH]; intros pre post n s F L E ->; cbn [app length] in *.
  - destruct n as [|n]; cbn [skip_class]; [f_equal; lia|]. destruct E as [?|(c & r & -> & Ec)]; [done|].
    rewrite load_word_next. cbn [mbind option_bind]. rewrite Ec. cbn [mbind option_bind]. f_equal. lia.
  - apply Forall_cons_1 in F as (Fc & F). destruct n as [|n]; [lia|]. cbn [skip_class]. rewrite load_word_next. cbn [mbind option_bind].
    rewrite Fc. cbn [mbind option_bind]. rewrite (cons_middle c pre), app_assoc.
    rewrite (IH (pre ++ [c]) post n) by (done || lia || (destruct E; [left; lia|by right]) || (rewrite length_app; cbn; lia)). f_equal. lia.
Qed.

Lemma chars_digits g n : (forall k, 0 <= g k < 10) -> Forall (fun c => my_isdigit c = Some true) (chars g n).
Proof. intros G. induction n as [|n IH]; cbn [chars]; constructor; [apply digit_class, G|done]. Qed.

Lemma load_chars g n pre post k : 0 <= k < Z.of_nat n ->
  load (pre ++ chars g n ++ post) (Z.of_nat (length pre) + k) = Some (48 + g (Z.of_nat n - 1 - k)).
Proof.
  intros K. rewrite load_app by (rewrite length_chars; lia). by apply chars_lookup.
Qed.

(** Digit [j] of [n] is read next. *)
Lemma read_intg_spec (g : Z -> Z) (n : nat) pre post B0 r : (forall k, 0 <= g k < 10) -> (r <= n)%nat ->
  forall m, let j := Z.of_nat (n - r) in
  ROUND_UP (Z.of_nat n) <= B0 <= Z.of_nat (length m) ->
  exists m', read_intg r (pre ++ chars g n ++ post) (Z.of_nat (length pre) + Z.of_nat r) (num g (9 * (j / 9)) (Z.to_nat (j mod 9))) (j mod 9)
      (B0 - j / 9) m = Some m' /\
    changed m m' (fun k => if decide (B0 - ROUND_UP (Z.of_nat n) <= k < B0 - j / 9)
      then num g (9 * (B0 - 1 - k)) (Z.to_nat (Z.min 9 (Z.of_nat n - 9 * (B0 - 1 - k)))) else at_ m k).
Proof.
  intros G. rewrite ROUND_UP_div by lia. induction r as [|r IH]; intros Rn m j Bn; cbn [read_intg].
  - assert (Ej : j = Z.of_nat n) by lia. rewrite Ej in *. destruct (bool_decide_reflect (Z.of_nat n mod 9 <> 0)) as [I|I].
    + destruct (changed_store m m (at_ m) (B0 - Z.of_nat n / 9 - 1) (num g (9 * (Z.of_nat n / 9)) (Z.to_nat (Z.of_nat n mod 9))) (changed_refl m))
        as (m' & -> & C); [Zlia|]. exists m'. split; [done|]. eapply changed_ext; [exact C|]. intros k K. cbn beta.
      destruct (decide (k = B0 - Z.of_nat n / 9 - 1)) as [->|Nk].
      * rewrite decide_True by Zlia. f_equal; [lia|Zlia].
      * rewrite decide_False by Zlia. done.
    + exists m. split; [done|]. eapply changed_ext; [apply changed_refl|]. intros k K. cbn beta. rewrite decide_False by Zlia. done.
  - replace (Z.of_nat (length pre) + Z.of_nat (S r) - 1) with (Z.of_nat (length pre) + Z.of_nat r) by lia.
    rewrite load_chars by lia. cbn [mbind option_bind]. replace (Z.of_nat n - 1 - Z.of_nat r) with j by lia.
    rewrite load_powers10 by Zlia. cbn [mbind option_bind].
    set (q := j / 9). set (i := j mod 9). assert (Hi : 0 <= i < 9) by (unfold i; Zlia).
    assert (X1 : s32 (num g (9 * q) (Z.to_nat i) + (48 + g j - 48) * 10 ^ i) = num g (9 * q) (S (Z.to_nat i))).
    { replace (S (Z.to_nat i)) with (Z.to_nat i + 1)%nat by lia. rewrite num_app. cbn [num].
      replace (9 * q + Z.of_nat (Z.to_nat i)) with j by (unfold q, i; Zlia). rewrite Z2Nat.id by lia.
      pose proof (num_range g (Z.to_nat i) (9 * q) G) as R0. rewrite Z2Nat.id in R0 by lia. pose proof (G j).
      assert (10 ^ i <= 10 ^ 8) by (apply Z.pow_le_mono_r; lia). rewrite swrap_small by (cbn; nia). ring. }
    rewrite X1. specialize (IH ltac:(lia)). destruct (bool_decide_reflect (i + 1 = DIG_PER_DEC1)) as [E9|E9]; unfold DIG_PER_DEC1 in E9.
    + destruct (changed_store m m (at_ m) (B0 - q - 1) (num g (9 * q) (S (Z.to_nat i))) (changed_refl m)) as (m1 & -> & L1 & A1);
        [unfold q; Zlia|]. cbn [mbind option_bind]. destruct (IH m1) as (m' & E & L' & A'); [rewrite L1; Zlia|]. clear IH.
      replace (Z.of_nat (n - r)) with (j + 1) in E, A' by lia. replace ((j + 1) mod 9) with 0 in E by (unfold i in E9; Zlia).
      replace ((j + 1) / 9) with (q + 1) in E, A' by (unfold q, i in *; Zlia). change (num g (9 * (q + 1)) (Z.to_nat 0)) with 0 in E.
      replace (B0 - (q + 1)) with (B0 - q - 1) in E, A' by lia. rewrite E. exists m'. split; [done|]. split; [lia|]. intros k K.
      rewrite A' by lia. rewrite A1 by lia. destruct (decide (k = B0 - q - 1)) as [->|Nk].
      * rewrite decide_False by lia. rewrite decide_True by (unfold q, i in *; Zlia). f_equal; [lia|]. unfold q, i in *; Zlia.
      * repeat case_decide; try done; lia.
    + destruct (IH m) as (m' & E & L' & A'); [Zlia|]. clear IH.
      replace (Z.of_nat (n - r)) with (j + 1) in E, A' by lia. replace ((j + 1) mod 9) with (i + 1) in E by (unfold i in *; Zlia).
      replace ((j + 1) / 9) with q in E, A' by (unfold q, i in *; Zlia). replace (Z.to_nat (i + 1)) with (S (Z.to_nat i)) in E by lia.
      rewrite E. exists m'. done.
Qed.
(** The word [q] behind the point, from [f] digits; a short last word is filled up with zeros. *)
Definition frac_word (g : Z -> Z) (f q : Z) : Z :=
  let r := Z.min 9 (f - 9 * q) in num g (f - 9 * q - r) (Z.to_nat r) * 10 ^ (9 - r).

Lemma read_frac_spec (g : Z -> Z) (f : nat) pre post B0 r : (forall k, 0 <= g k < 10) -> (r <= f)%nat ->
  forall m, let j := Z.of_nat (f - r) in
  0 <= B0 -> B0 + ROUND_UP (Z.of_nat f) <= Z.of_nat (length m) ->
  exists m', read_frac r (pre ++ chars g f ++ post) (Z.of_nat (length pre) - 1 + j) (num g (Z.of_nat f - j) (Z.to_nat (j mod 9))) (j mod 9)
      (B0 + j / 9) m = Some m' /\
    changed m m' (fun k => if decide (B0 + j / 9 <= k < B0 + ROUND_UP (Z.of_nat f)) then frac_word g (Z.of_nat f) (k - B0) else at_ m k).
Proof.
  intros G. rewrite ROUND_UP_div by lia. induction r as [|r IH]; intros Rn m j B1 Bn; cbn [read_frac].
  - assert (Ej : j = Z.of_nat f) by lia. rewrite Ej in *. destruct (bool_decide_reflect (Z.of_nat f mod 9 <> 0)) as [I|I].
    + change DIG_PER_DEC1 with 9. rewrite load_powers10 by Zlia. cbn [mbind option_bind]. rewrite Z.sub_diag.
      set (i := Z.of_nat f mod 9) in *. assert (Hi : 0 < i < 9) by (unfold i in *; Zlia).
      pose proof (num_range g (Z.to_nat i) 0 G) as R0. rewrite Z2Nat.id in R0 by lia.
      assert (P9 : 10 ^ i * 10 ^ (9 - i) = 10 ^ 9) by (rewrite <- Z.pow_add_r by lia; f_equal; lia).
      pose proof (pow10_pos (9 - i) ltac:(lia)).
      rewrite swrap_small by (cbn; nia).
      destruct (changed_store m m (at_ m) (B0 + Z.of_nat f / 9) (num g 0 (Z.to_nat i) * 10 ^ (9 - i)) (changed_refl m))
        as (m' & -> & C); [unfold i in *; Zlia|]. exists m'. split; [done|]. eapply changed_ext; [exact C|]. intros k K. cbn beta.
      destruct (decide (k = B0 + Z.of_nat f / 9)) as [->|Nk].
      * rewrite decide_True by (unfold i in *; Zlia). unfold frac_word. replace (Z.min 9 _) with i by (unfold i in *; Zlia).
        by replace (Z.of_nat f - _ - i) with 0 by (unfold i in *; Zlia).
      * rewrite decide_False by (unfold i in *; Zlia). done.
    + exists m. split; [done|]. eapply changed_ext; [apply changed_refl|]. intros k K. cbn beta. rewrite decide_False by Zlia. done.
  - replace (Z.of_nat (length pre) - 1 + j + 1) with (Z.of_nat (length pre) + j) by lia.
    rewrite load_chars by lia. cbn [mbind option_bind].
    set (q := j / 9). set (i := j mod 9). assert (Hi : 0 <= i < 9) by (unfold i; Zlia).
    assert (X1 : s32 (48 + g (Z.of_nat f - 1 - j) - 48 + num g (Z.of_nat f - j) (Z.to_nat i) * 10) = num g (Z.of_nat f - (j + 1)) (S (Z.to_nat i))).
    { cbn [num]. replace (Z.of_nat f - (j + 1) + 1) with (Z.of_nat f - j) by lia. replace (Z.of_nat f - (j + 1)) with (Z.of_nat f - 1 - j) by lia.
      pose proof (num_range g (Z.to_nat i) (Z.of_nat f - j) G) as R0. rewrite Z2Nat.id in R0 by lia. pose proof (G (Z.of_nat f - 1 - j)).
      assert (10 ^ i <= 10 ^ 8) by (apply Z.pow_le_mono_r; lia). rewrite swrap_small by (cbn; lia). ring. }
    rewrite X1. specialize (IH ltac:(lia)). replace (Z.of_nat (length pre) + j) with (Z.of_nat (length pre) - 1 + (j + 1)) by lia.
    destruct (bool_decide_reflect (i + 1 = DIG_PER_DEC1)) as [E9|E9]; unfold DIG_PER_DEC1 in E9.
    + destruct (changed_store m m (at_ m) (B0 + q) (num g (Z.of_nat f - (j + 1)) (S (Z.to_nat i))) (changed_refl m)) as (m1 & -> & L1 & A1);
        [unfold q; Zlia|]. cbn [mbind option_bind]. destruct (IH m1) as (m' & E & L' & A'); [lia|rewrite L1; Zlia|]. clear IH.
      replace (Z.of_nat (f - r)) with (j + 1) in E, A' by lia. replace ((j + 1) mod 9) with 0 in E by (unfold i in E9; Zlia).
      replace ((j + 1) / 9) with (q + 1) in E, A' by (unfold q, i in *; Zlia). change (num g (Z.of_nat f - (j + 1)) (Z.to_nat 0)) with 0 in E.
      replace (B0 + (q + 1)) with (B0 + q + 1) in E, A' by lia. rewrite E. exists m'. split; [done|]. split; [lia|]. intros k K.
      rewrite A' by lia. rewrite A1 by lia. destruct (decide (k = B0 + q)) as [->|Nk].
      * rewrite decide_False by lia. rewrite decide_True by (unfold q, i in *; Zlia). unfold frac_word.
        replace (Z.min 9 _) with 9 by (unfold q, i in *; Zlia). change (10 ^ (9 - 9)) with 1. rewrite Z.mul_1_r.
        f_equal; unfold q, i in *; Zlia.
      * repeat case_decide; try done; lia.
    + destruct (IH m) as (m' & E & L' & A'); [lia|Zlia|]. clear IH.
      replace (Z.of_nat (f - r)) with (j + 1) in E, A' by lia. replace ((j + 1) mod 9) with (i + 1) in E by (unfold i in *; Zlia).
      replace ((j + 1) / 9) with q in E, A' by (unfold q, i in *; Zlia). replace (Z.to_nat (i + 1)) with (S (Z.to_nat i)) in E by lia.
      rewrite E. exists m'. done.
Qed.
End DecimalTextProps.

(** * DecimalTextMain: printed decimals are read back *)
Module DecimalTextMain.
Import Ctype Decimal DecimalProps DecimalMul DecimalBin DecimalBinProps DecimalRound DecimalRoundProps DecimalShiftProps
  DecimalText DecimalTextProps.

(** ** What is printed *)

Lemma fill_none s filler to : fill_chars 0 s filler to = Some (s, to).
Proof. unfold fill_chars. rewrite bool_decide_false by lia. cbn. by rewrite Z.add_0_r. Qed.

Section Print.
Context (d : decimal_t) (W : wf d) (n : Z) (N : 0 <= n <= intg d) (Am : at_most (word d) n).
Context (Rl : remove_leading_zeroes d = Some (iw d - ROUND_UP n, n)).

Definition sign_text : list Z := if decide (sign d = 0) then [] else [45].
Definition intg_text : list Z := if decide (n = 0) then [48] else chars (digit d) (Z.to_nat n).
Definition frac_text : list Z :=
  if decide (frac d = 0) then [] else 46 :: chars (fun k => digit d (k - frac d)) (Z.to_nat (frac d)).
Definition text : list Z := sign_text ++ intg_text ++ frac_text.

Lemma length_sign_text : Z.of_nat (length sign_text) = sign d.
Proof. pose proof (wf_sign d W). unfold sign_text. case_decide; cbn; lia. Qed.

Lemma length_intg_text : Z.of_nat (length intg_text) = Z.max 1 n.
Proof. unfold intg_text. case_decide; [cbn; lia|]. rewrite length_chars. lia. Qed.

Lemma length_frac_text : Z.of_nat (length frac_text) = frac d + Z.b2z (bool_decide (frac d <> 0)).
Proof.
  pose proof (wf_frac d W). unfold frac_text. case_decide as E; [rewrite E, bool_decide_false by lia; done|].
  rewrite bool_decide_true by done. cbn [length Z.b2z]. rewrite length_chars. lia.
Qed.

Lemma print_frac_stage pre mid post : frac d <> 0 -> length mid = length frac_text ->
  (to ← store (pre ++ mid ++ post) (Z.of_nat (length pre)) 46;
   '(s1, to) ← print_frac (length (buf d)) (buf d) (iw d - ROUND_UP n + ROUND_UP n) (frac d) (Z.of_nat (length pre) + 1) to;
   '(_, to) ← fill_chars (frac d - frac d) s1 0 to; Some to) = Some (pre ++ frac_text ++ post).
Proof.
  intros F Lm. pose proof (wf_frac d W) as F0. unfold frac_text in *. rewrite decide_False in * by done. cbn [length] in Lm. rewrite length_chars in Lm.
  destruct mid as [|c mid]; [done|]. injection Lm as Lm. cbn [app]. rewrite store_char by done. cbn [mbind option_bind].
  rewrite (cons_middle 46 pre), app_assoc. pose proof (fw_bounds d W). pose proof (wf_fit d W). pose proof (wf_len d W). pose proof (iw_nonneg d W).
  rewrite (print_frac_spec (fun k => digit d (k - frac d)) (fun k => word d (- k - 1))).
  - cbn [mbind option_bind]. rewrite Z.sub_diag, fill_none. cbn [mbind option_bind]. by rewrite <- app_assoc.
  - lia.
  - lia.
  - rewrite length_app. cbn [length]. lia.
  - intros k K. split; [|by apply word_range]. fold (fw d) in K.
    replace (iw d - ROUND_UP n + ROUND_UP n + k) with (iw d - 1 - (- k - 1)) by lia. apply load_word; [done|lia].
  - intros k K. unfold digit. set (j := frac d - 1 - k). replace (k - frac d) with (- j - 1) by lia.
    replace ((- j - 1) / 9) with (- (j / 9) - 1) by Zlia. by replace ((- j - 1) mod 9) with (8 - j mod 9) by Zlia.
Qed.

Lemma print_intg_stage pre mid post : n <> 0 -> length mid = length intg_text ->
  print_intg (length (buf d)) (buf d) (iw d - ROUND_UP n + ROUND_UP n) n (Z.of_nat (length pre) + n) (pre ++ mid ++ post) =
  Some (Z.of_nat (length pre), pre ++ intg_text ++ post).
Proof.
  intros Nz Lm. unfold intg_text in *. rewrite decide_False in * by done. rewrite length_chars in Lm.
  pose proof (ROUND_UP_mono n (intg d) ltac:(lia)) as Rm. fold (iw d) in Rm. pose proof (wf_fit d W). pose proof (wf_len d W).
  pose proof (fw_nonneg d W). assert (9 * ROUND_UP n >= n) by (rewrite ROUND_UP_div by lia; Zlia).
  apply (print_intg_spec _ _ (word d)); try lia.
  - intros k K. split; [|by apply word_range]. replace (iw d - ROUND_UP n + ROUND_UP n - 1 - k) with (iw d - 1 - k) by lia.
    apply load_word; [done|lia].
  - done.
Qed.

Lemma decimal2string_spec to to_len : Z.of_nat (length text) < to_len -> to_len <= Z.of_nat (length to) ->
  decimal2string d to to_len 0 0 0 = Some (E_DEC_OK, text ++ 0 :: drop (S (length text)) to, Z.of_nat (length text)).
Proof.
  intros L1 L2. pose proof (wf_frac d W) as F0. pose proof (wf_sign d W) as S0.
  assert (Lt : Z.of_nat (length text) = sign d + Z.max 1 n + Z.b2z (bool_decide (frac d <> 0)) + frac d).
  { unfold text. rewrite !length_app, !Nat2Z.inj_add, length_sign_text, length_intg_text, length_frac_text. lia. }
  assert (Sp : exists a b c x, length a = length sign_text /\ length b = length intg_text /\ length c = length frac_text /\
    to = a ++ b ++ c ++ x :: drop (S (length text)) to).
  { set (t := take (length text) to). assert (Ltk : length t = length text) by (unfold t; rewrite length_take; lia).
    destruct (drop (length text) to) as [|x r] eqn:Ed; [apply (f_equal length) in Ed; rewrite length_drop in Ed; cbn in Ed; lia|].
    assert (Er : r = drop (S (length text)) to) by (replace (S (length text)) with (length text + 1)%nat by lia; rewrite <- drop_drop, Ed; done).
    exists (take (length sign_text) t), (take (length intg_text) (drop (length sign_text) t)),
      (drop (length intg_text) (drop (length sign_text) t)), x.
    rewrite !length_take, !length_drop, Ltk. unfold text. rewrite !length_app. split_and!; [lia|lia|lia|].
    rewrite (app_assoc (take (length intg_text) _)), take_drop, app_assoc, take_drop. rewrite <- (take_drop (length text) to) at 1.
    rewrite Ed. fold t. by rewrite <- !length_app, Er. }
  destruct Sp as (a & b & c & x & La & Lb & Lc & Et). set (r := drop (S (length text)) to) in *. rewrite Et at 1.
  assert (Ela : Z.of_nat (length a) = sign d) by (by rewrite La, length_sign_text).
  assert (Elb : Z.of_nat (length b) = Z.max 1 n) by (by rewrite Lb, length_intg_text).
  unfold decimal2string. rewrite Rl. cbn [mbind option_bind]. rewrite !(bool_decide_false (0 <> 0)) by lia.
  assert (Sgn : forall q, (if bool_decide (sign d <> 0) then to ← store (a ++ q) 0 45; Some (1, to) else Some (0, a ++ q)) =
    Some (sign d, sign_text ++ q)).
  { intros q. unfold sign_text in *. destruct (decide (sign d = 0)) as [E|E].
    - rewrite E, bool_decide_false by lia. destruct a; [done|discriminate].
    - rewrite bool_decide_true by done. destruct a as [|y [|]]; try discriminate.
      assert (sign d = 1) as -> by lia. done. }
  destruct (bool_decide_reflect (n + frac d = 0)) as [Z0|Z0].
  - assert (Ef : frac d = 0) by lia. assert (En : n = 0) by lia. unfold print_sizes. rewrite Ef, En in *.
    rewrite (bool_decide_false (1 = 0)), (bool_decide_false (0 <> 0)) by lia. cbn [Z.b2z].
    rewrite (bool_decide_false (0 <> 0)) in Lt by lia. cbn [Z.b2z] in Lt.
    rewrite (bool_decide_false (sign d + 1 + 0 + 0 > to_len - 1)) by lia.
    assert (c = []) as -> by (unfold frac_text in Lc; rewrite decide_True in Lc by done; by destruct c). cbn [app].
    rewrite app_assoc, store_char by (rewrite length_app; lia). cbn [mbind option_bind]. rewrite <- app_assoc, Sgn. cbn [mbind option_bind].
    rewrite ?(bool_decide_false (0 <> 0)) by lia. cbn [mbind option_bind].
    rewrite (bool_decide_false (1 = 0)), Z.sub_diag, fill_none by lia. cbn [mbind option_bind].
    rewrite (bool_decide_true (1 <> 0)) by lia.
    change (ROUND_UP 1) with 1. change (length [0]) with 1%nat. rewrite <- length_sign_text.
    rewrite (print_intg_spec 1 (fun _ => 0) (fun _ => 0) [0] (0 + 1) 1 sign_text b (0 :: r)).
    + cbn [mbind option_bind]. unfold text, intg_text, frac_text. rewrite !decide_True by done. rewrite <- app_assoc. do 3 f_equal.
      rewrite !length_app. cbn [length]. lia.
    + lia.
    + lia.
    + lia.
    + intros k K. change (ROUND_UP 1) with 1 in K. assert (k = 0) as -> by lia. done.
    + intros k K. rewrite Z.div_0_l by (apply Z.pow_nonzero; Zlia). done.
  - set (il := if bool_decide (n = 0) then 1 else n).
    assert (Il : il = Z.max 1 n) by (unfold il; destruct (bool_decide_reflect (n = 0)); lia).
    unfold print_sizes. rewrite (bool_decide_false (0 <> 0)) by lia.
    rewrite (bool_decide_false (sign d + il + Z.b2z (bool_decide (frac d <> 0)) + frac d > to_len - 1)) by lia.
    replace (sign d + il + Z.b2z (bool_decide (frac d <> 0)) + frac d) with (Z.of_nat (length text)) by lia.
    assert (Tl : length text = (length a + length b + length c)%nat) by (unfold text; rewrite !length_app, La, Lb, Lc; lia).
    assert (St : store (a ++ b ++ c ++ x :: r) (Z.of_nat (length text)) 0 = Some (a ++ b ++ c ++ 0 :: r)).
    { rewrite !app_assoc. rewrite store_char by (rewrite !length_app; lia). done. }
    rewrite St. cbn [mbind option_bind]. rewrite Sgn. cbn [mbind option_bind].
    assert (Fs : (if bool_decide (frac d <> 0)
      then to ← store (sign_text ++ b ++ c ++ 0 :: r) (sign d + il) 46;
           '(s1, to) ← print_frac (length (buf d)) (buf d) (iw d - ROUND_UP n + ROUND_UP n) (frac d) (sign d + il + 1) to;
           '(_, to) ← fill_chars (frac d - frac d) s1 0 to; Some to
      else Some (sign_text ++ b ++ c ++ 0 :: r)) = Some (sign_text ++ b ++ frac_text ++ 0 :: r)).
    { destruct (bool_decide_reflect (frac d <> 0)) as [F|F].
      - replace (sign d + il) with (Z.of_nat (length (sign_text ++ b))) by (rewrite length_app, Nat2Z.inj_add, length_sign_text; lia).
        rewrite app_assoc, print_frac_stage by done. by rewrite <- app_assoc.
      - assert (E : frac d = 0) by lia. unfold frac_text in *. rewrite decide_True in * by done. destruct c; [done|discriminate]. }
    rewrite Fs. cbn [mbind option_bind].
    assert (Fill : (if bool_decide (n = 0) then il - n - 1 else il - n) = 0) by (destruct (bool_decide_reflect (n = 0)); lia).
    rewrite Fill, fill_none. cbn [mbind option_bind].
    rewrite <- length_sign_text.
    destruct (bool_decide_reflect (n <> 0)) as [Nz|Nz].
    + rewrite print_intg_stage by done. cbn [mbind option_bind]. unfold text. by rewrite <- !app_assoc.
    + assert (E : n = 0) by lia. destruct b as [|y [|]]; [cbn in Elb; lia| |cbn in Elb; lia]. cbn [app]. rewrite store_char by done. cbn [mbind option_bind].
      unfold text, intg_text. rewrite decide_True by done. by rewrite <- !app_assoc.
Qed.
(** ** What is read *)

Definition shown : Z := Z.max 1 n.

Lemma shown_at_most : at_most (word d) shown.
Proof using Am N. apply (at_most_mono _ n); [unfold shown; lia|done]. Qed.

Lemma intg_text_chars : intg_text = chars (digit d) (Z.to_nat shown).
Proof using Am N.
  clear Rl. unfold intg_text, shown. destruct (decide (n = 0)) as [E|E]; [|by rewrite Z.max_r by lia].
  rewrite E in *. change (Z.to_nat (Z.max 1 0)) with 1%nat. cbn [chars]. destruct Am as (A & _). change (0 / 9) with 0 in A.
  change (10 ^ (0 mod 9)) with 1 in A. unfold digit. change (Z.of_nat 0 / 9) with 0. replace (word d 0) with 0 by lia. reflexivity.
Qed.

Lemma word_above e : ROUND_UP shown <= e -> word d e = 0.
Proof using Am N.
  intros E. destruct shown_at_most as (A & B). rewrite ROUND_UP_div in E by (unfold shown; lia).
  destruct (decide (e = shown / 9)) as [->|]; [|apply B; Zlia]. replace (shown mod 9) with 0 in A by Zlia. change (10 ^ 0) with 1 in A. lia.
Qed.

Lemma intg_word_read e : 0 <= e < ROUND_UP shown -> num (digit d) (9 * e) (Z.to_nat (Z.min 9 (shown - 9 * e))) = word d e.
Proof using Am N W.
  intros E. rewrite ROUND_UP_div in E by (unfold shown; lia). rewrite num_word by (done || lia). rewrite Z2Nat.id by Zlia.
  pose proof (word_range d e W) as R. destruct shown_at_most as (A & _).
  destruct (decide (9 <= shown - 9 * e)) as [L|L]; [rewrite Z.min_l by lia; by apply Z.mod_small|].
  rewrite Z.min_r by lia. replace e with (shown / 9) at 1 by Zlia. replace (shown - 9 * e) with (shown mod 9) by Zlia.
  rewrite Z.mod_small by done. f_equal. Zlia.
Qed.

Lemma frac_word_read q : canonical_frac d -> 0 <= q < fw d -> frac_word (fun k => digit d (k - frac d)) (frac d) q = word d (- q - 1).
Proof using W.
  intros Cf Q. pose proof (fw_bounds d W) as Fb. unfold frac_word. set (r := Z.min 9 (frac d - 9 * q)). assert (R : 1 <= r <= 9) by lia.
  assert (E : num (fun k => digit d (k - frac d)) (frac d - 9 * q - r) (Z.to_nat r) = num (digit d) (9 * (- q - 1) + Z.of_nat (Z.to_nat (9 - r))) (Z.to_nat r)).
  { replace (9 * (- q - 1) + Z.of_nat (Z.to_nat (9 - r))) with (frac d - 9 * q - r - frac d) by lia. apply num_shift. }
  rewrite E. pose proof (num_full d W (- q - 1)) as Fl. replace 9%nat with (Z.to_nat (9 - r) + Z.to_nat r)%nat in Fl by lia.
  rewrite num_app, num_word in Fl by (done || lia). rewrite Z2Nat.id in Fl by lia. rewrite Z2Nat.id by lia.
  enough (word d (- q - 1) mod 10 ^ (9 - r) = 0) by lia. clear Fl.
  destruct (decide (r = 9)) as [->|Nr]; [apply Z.mod_1_r|]. assert (Eq : q = fw d - 1) by lia.
  pose proof (iw_nonneg d W). unfold canonical_frac in Cf. destruct (dval_split d W ltac:(lia)) as (hi & Dv). rewrite Dv in Cf.
  replace (9 * fw d - frac d) with (9 - r) in Cf by lia. pose proof (pow10_pos (9 - r) ltac:(lia)).
  apply Z.mod_divide; [lia|]. unfold word, dig. rewrite decide_True by lia. replace (iw d - 1 - (- q - 1)) with (iw d + fw d - 1) by lia.
  apply Z.divide_add_cancel_r in Cf; [done|]. apply Z.divide_mul_r. exists (10 ^ r). rewrite <- Z.pow_add_r by lia.
  by replace (r + (9 - r)) with 9 by lia.
Qed.
(** The digits read from the text: the words of [d] again. *)
Lemma text_words m from pre mid mid' post' : canonical_frac d -> ROUND_UP shown + fw d <= Z.of_nat (length m) ->
  from = pre ++ chars (digit d) (Z.to_nat shown) ++ mid ->
  frac d = 0 \/ from = mid' ++ chars (fun k => digit d (k - frac d)) (Z.to_nat (frac d)) ++ post' ->
  exists m1 m', read_intg (Z.to_nat shown) from (Z.of_nat (length pre) + shown) 0 0 (ROUND_UP shown) m = Some m1 /\
    read_frac (Z.to_nat (frac d)) from (Z.of_nat (length mid') - 1) 0 0 (ROUND_UP shown) m1 = Some m' /\
    length m' = length m /\ forall e, - fw d <= e < ROUND_UP shown -> at_ m' (ROUND_UP shown - 1 - e) = word d e.
Proof using Am N W.
  intros Cf Fit E1 E2. pose proof (wf_frac d W) as F0. assert (S1 : 1 <= shown) by (unfold shown; lia).
  pose proof (ROUND_UP_nonneg shown ltac:(lia)) as S2. pose proof (fw_nonneg d W).
  destruct (read_intg_spec (digit d) (Z.to_nat shown) pre mid (ROUND_UP shown) (Z.to_nat shown) (decimal_digit_range d) ltac:(lia) m) as (m1 & R1 & L1 & A1);
    [rewrite Z2Nat.id by lia; lia|]. rewrite Nat.sub_diag, <- E1 in R1. change (Z.of_nat 0 / 9) with 0 in R1. change (Z.of_nat 0 mod 9) with 0 in R1.
  cbn [num Z.to_nat] in R1. rewrite Z.sub_0_r, Z2Nat.id in R1 by lia. exists m1.
  rewrite Nat.sub_diag in A1. change (Z.of_nat 0 / 9) with 0 in A1. rewrite Z2Nat.id in A1 by lia.
  assert (B1 : forall e, 0 <= e < ROUND_UP shown -> at_ m1 (ROUND_UP shown - 1 - e) = word d e).
  { intros e E. rewrite A1 by lia. rewrite decide_True by lia.
    replace (ROUND_UP shown - 1 - (ROUND_UP shown - 1 - e)) with e by lia. by apply intg_word_read. }
  destruct E2 as [E2|E2].
  - assert (fw d = 0) as Fz by (unfold fw; by rewrite E2). rewrite E2. exists m1. split_and!; try done. intros e E. apply B1. lia.
  - destruct (read_frac_spec (fun k => digit d (k - frac d)) (Z.to_nat (frac d)) mid' post' (ROUND_UP shown) (Z.to_nat (frac d))
      (fun k => decimal_digit_range d _) ltac:(lia) m1) as (m' & R2 & L2 & A2); [lia|rewrite Z2Nat.id by lia; fold (fw d); lia|].
    rewrite Nat.sub_diag, <- E2 in R2. change (Z.of_nat 0 / 9) with 0 in R2. change (Z.of_nat 0 mod 9) with 0 in R2.
    cbn [num Z.to_nat] in R2. change (Z.of_nat 0) with 0 in R2. rewrite !Z.add_0_r in R2. exists m'. split_and!; [done..|lia|].
    intros e E. rewrite A2 by lia. rewrite Nat.sub_diag, Z2Nat.id by lia. fold (fw d). change (Z.of_nat 0 / 9) with 0.
    destruct (decide (0 <= e)) as [P|P]; [rewrite decide_False by lia; apply B1; lia|]. rewrite decide_True by lia.
    rewrite frac_word_read by (done || lia). f_equal. lia.
Qed.
Lemma same_words l m : l = Z.of_nat (length m) -> ROUND_UP shown + fw d <= l ->
  (forall e, - fw d <= e < ROUND_UP shown -> at_ m (ROUND_UP shown - 1 - e) = word d e) ->
  let d' := mk_decimal shown (frac d) l (sign d) m in wf d' /\ forall F, 0 <= F -> sval F d' = sval F d.
Proof using Am N W.
  intros L Fit A d'. assert (S1 : 1 <= shown) by (unfold shown; lia). pose proof (fw_nonneg d W).
  assert (S2 : 1 <= ROUND_UP shown) by (rewrite ROUND_UP_div by lia; Zlia).
  assert (Wd : wf d').
  { split; try exact (wf_frac d W); try exact (wf_sign d W); unfold iw, fw, d'; cbn [intg frac len buf]; fold (fw d); try lia.
    intros i I. replace i with (ROUND_UP shown - 1 - (ROUND_UP shown - 1 - i)) by lia. rewrite A by lia. by apply word_range. }
  split; [done|]. intros F F0. unfold sval. change (sign d') with (sign d).
  enough (absval F d' = absval F d) as -> by done. set (I := Z.max (iw d) (iw d')).
  rewrite <- (absval_ws d' F I), <- (absval_ws d F I) by (done || lia). apply ws_ext. intros k K. set (e := k - F).
  unfold word at 1, dig, iw, fw, d'. cbn [intg frac buf]. fold (fw d). case_decide as E; [by apply A|].
  destruct (decide (ROUND_UP shown <= e)); [by rewrite word_above|]. rewrite word_out by lia. done.
Qed.

(** ** The text as the reader sees it *)

Lemma text_head : exists c r, text = c :: r /\ my_isspace c = Some false /\ bool_decide (c = 45) = bool_decide (sign d <> 0) /\
  (c = 45 \/ bool_decide (c = 43) = false).
Proof using Am N.
  unfold text, sign_text. rewrite intg_text_chars. destruct (decide (sign d = 0)) as [E|E].
  - destruct (Z.to_nat shown) as [|k] eqn:Ek; [unfold shown in Ek; lia|]. cbn [chars app]. pose proof (decimal_digit_range d (Z.of_nat k)).
    eexists _, _. split; [done|]. split; [by apply digit_class|]. split; [|right; apply bool_decide_false; lia].
    rewrite !bool_decide_false by lia. done.
  - eexists _, _. split; [done|]. split; [by vm_compute|]. split; [|by left]. by rewrite !bool_decide_true.
Qed.

Lemma scan_intg rest : skip_class my_isdigit (Z.to_nat (Z.of_nat (length text) - sign d)) (text ++ 0 :: rest) (sign d) = Some (sign d + shown).
Proof using Am N W.
  pose proof length_sign_text as Ls. pose proof length_intg_text as Li. fold shown in Li. unfold text. rewrite !length_app.
  rewrite <- !app_assoc. rewrite intg_text_chars in *.
  rewrite (skip_class_spec _ (chars (digit d) (Z.to_nat shown)) sign_text (frac_text ++ 0 :: rest)).
  - do 2 f_equal. lia.
  - apply chars_digits, decimal_digit_range.
  - lia.
  - unfold frac_text. case_decide; [left; cbn; lia|]. right. eexists _, _. split; [done|by vm_compute].
  - done.
Qed.
Lemma length_text : Z.of_nat (length text) = sign d + shown + (frac d + Z.b2z (bool_decide (frac d <> 0))).
Proof using N W.
  pose proof length_sign_text. pose proof length_intg_text. pose proof length_frac_text. unfold text, shown. rewrite !length_app. lia.
Qed.

Lemma text_split rest : frac d <> 0 ->
  text ++ 0 :: rest = (sign_text ++ intg_text ++ [46]) ++ chars (fun k => digit d (k - frac d)) (Z.to_nat (frac d)) ++ 0 :: rest.
Proof. intros F. unfold text, frac_text. rewrite decide_False by done. by rewrite <- !app_assoc. Qed.

Lemma length_front : Z.of_nat (length (sign_text ++ intg_text ++ [46])) = sign d + shown + 1.
Proof using N W. pose proof length_sign_text. pose proof length_intg_text. unfold shown. rewrite !length_app. cbn [length]. lia. Qed.

Lemma scan_point rest : let s := sign d + shown in
  (if bool_decide (s < Z.of_nat (length text)) then c ← load (text ++ 0 :: rest) s; Some (bool_decide (c = 46)) else Some false) =
  Some (bool_decide (frac d <> 0)).
Proof using N W.
  intros s. pose proof (wf_frac d W) as F0. rewrite length_text. destruct (bool_decide_reflect (frac d <> 0)) as [F|F].
  - rewrite bool_decide_true by (cbn [Z.b2z]; lia). rewrite text_split by done. pose proof length_front as Lf.
    rewrite (app_assoc sign_text), <- (app_assoc (sign_text ++ intg_text)). cbn [app].
    replace s with (Z.of_nat (length (sign_text ++ intg_text))) by (rewrite !length_app in *; cbn [length] in Lf; lia).
    rewrite load_word_next. done.
  - rewrite bool_decide_false by (cbn [Z.b2z]; lia). done.
Qed.

Lemma scan_frac rest : frac d <> 0 -> let s := sign d + shown in
  skip_class my_isdigit (Z.to_nat (Z.of_nat (length text) - (s + 1))) (text ++ 0 :: rest) (s + 1) = Some (Z.of_nat (length text)).
Proof using N W.
  intros F s. pose proof (wf_frac d W) as F0. pose proof length_front as Lf. rewrite length_text, bool_decide_true by done. cbn [Z.b2z].
  rewrite text_split by done. rewrite skip_class_spec.
  - f_equal. rewrite length_chars. lia.
  - apply chars_digits. intros. apply decimal_digit_range.
  - rewrite length_chars. lia.
  - left. rewrite length_chars. lia.
  - lia.
Qed.

Lemma str2dec_text to rest : canonical_frac d -> len to = Z.of_nat (length (buf to)) -> ROUND_UP shown + fw d <= len to ->
  exists to', internal_str2dec (text ++ 0 :: rest) to (Z.of_nat (length text)) false = Some (E_DEC_OK, to', Z.of_nat (length text)) /\
    wf to' /\ sign to' = sign d /\ intg to' = shown /\ frac to' = frac d /\ forall F, 0 <= F -> sval F to' = sval F d.
Proof using Am N W.
  intros Cf Lt Fit. pose proof (wf_frac d W) as F0. pose proof (wf_sign d W) as S0. assert (S1 : 1 <= shown) by (unfold shown; lia).
  pose proof length_text as Tl. destruct text_head as (c & r & Et & Sp & Neg & Plus).
  unfold internal_str2dec. rewrite (skip_class_spec my_isspace [] [] (text ++ 0 :: rest)).
  2:{ constructor. } 2:{ cbn; lia. } 2:{ right. exists c, (r ++ 0 :: rest). by rewrite Et. } 2:{ done. }
  cbn [mbind option_bind length]. change (0 + Z.of_nat 0) with 0. 
  assert (0 < Z.of_nat (length text)) by (rewrite Et; cbn; lia). rewrite (bool_decide_false (0 = Z.of_nat (length text))) by lia.
  assert (Ld : load (text ++ 0 :: rest) 0 = Some c) by (rewrite Et; done). rewrite Ld. cbn [mbind option_bind sign intg frac len buf].
  assert (Es : (if bool_decide (c = 45) || bool_decide (c = 43) then 0 + 1 else 0) = sign d).
  { rewrite Neg. destruct (bool_decide_reflect (sign d <> 0)) as [P|P]; cbn [orb]; [lia|]. destruct Plus as [->| ->]; [|cbn; lia].
    by rewrite bool_decide_true in Neg by done. }
  rewrite Es, Neg. assert (Eb : Z.b2z (bool_decide (sign d <> 0)) = sign d) by (destruct (bool_decide_reflect (sign d <> 0)); cbn; lia).
  rewrite Eb, scan_intg. cbn [mbind option_bind]. rewrite scan_point. cbn [mbind option_bind].
  assert (Ef : (if bool_decide (frac d <> 0) then skip_class my_isdigit (Z.to_nat (Z.of_nat (length text) - (sign d + shown + 1)))
      (text ++ 0 :: rest) (sign d + shown + 1) else Some (sign d + shown)) = Some (Z.of_nat (length text))).
  { destruct (bool_decide_reflect (frac d <> 0)) as [P|P]; [by apply scan_frac|]. f_equal. cbn [Z.b2z] in Tl. lia. }
  rewrite Ef. cbn [mbind option_bind].
  assert (Eg : (if bool_decide (frac d <> 0) then Z.of_nat (length text) - (sign d + shown) - 1 else 0) = frac d).
  { destruct (bool_decide_reflect (frac d <> 0)) as [P|P]; cbn [Z.b2z] in Tl; lia. }
  rewrite Eg. replace (sign d + shown - sign d) with shown by lia. rewrite (bool_decide_false (frac d + shown = 0)) by lia.
  unfold read_sizes, FIX_INTG_FRAC_ERROR. cbn [len]. fold (fw d). rewrite (bool_decide_false (_ > len to)) by lia.
  rewrite (bool_decide_false (E_DEC_OK <> 0)) by (unfold E_DEC_OK; lia). cbn [mbind option_bind].
  destruct (text_words (buf to) (text ++ 0 :: rest) sign_text (frac_text ++ 0 :: rest) (sign_text ++ intg_text ++ [46]) (0 :: rest))
    as (m1 & m' & R1 & R2 & L' & A'); [done|lia| | |].
  - unfold text. by rewrite intg_text_chars, <- !app_assoc.
  - destruct (decide (frac d = 0)); [by left|right; by apply text_split].
  - rewrite length_sign_text in R1. rewrite length_front in R2. replace (sign d + shown + 1 - 1) with (sign d + shown) in R2 by lia.
    rewrite R1. cbn [mbind option_bind]. rewrite R2. cbn [mbind option_bind].
    unfold read_exponent. rewrite (bool_decide_false (_ + 1 < Z.of_nat (length text))) by lia. cbn [mbind option_bind]. eexists. split; [done|].
    destruct (same_words (len to) m') as (Wd & V); [congruence|lia|done|]. done.
Qed.
End Print.

(** ** Properties *)

(** C7 A decimal printed into a buffer of [decimal_string_size] bytes is read back: [decimal2string] succeeds, and [internal_str2dec] of
    its text, up to the length that was returned, succeeds at the end of the text with the same sign, the same number of digits behind
    the point and the same value, in every destination with enough words. *)
Theorem decimal_text_roundtrip d out to : wf d -> canonical d -> canonical_frac d ->
  decimal_string_size d <= Z.of_nat (length out) -> len to = Z.of_nat (length (buf to)) -> Z.max 1 (iw d) + fw d <= len to ->
  exists out' n to', decimal2string d out (decimal_string_size d) 0 0 0 = Some (E_DEC_OK, out', n) /\
    internal_str2dec out' to n false = Some (E_DEC_OK, to', n) /\ wf to' /\
    sign to' = sign d /\ frac to' = frac d /\ forall F, 0 <= F -> sval F to' = sval F d.
Proof.
  intros W C Cf Lo Lt Fit. destruct (remove_leading_zeroes_spec d W C) as (n & Rl & N & Am & _).
  pose proof (length_text d W n N) as Tl. pose proof (wf_sign d W). pose proof (wf_frac d W).
  assert (Sz : Z.of_nat (length (text d n)) < decimal_string_size d).
  { unfold decimal_string_size. rewrite Tl. unfold shown.
    destruct (bool_decide_reflect (intg d <> 0)); destruct (bool_decide_reflect (frac d <> 0)); destruct (bool_decide_reflect (frac d > 0));
      cbn [Z.b2z]; lia. }
  assert (Sh : ROUND_UP (shown n) + fw d <= len to).
  { unfold shown. rewrite ROUND_UP_max by lia. change (ROUND_UP 1) with 1. pose proof (ROUND_UP_mono n (intg d) ltac:(lia)) as M.
    fold (iw d) in M. lia. }
  destruct (str2dec_text d W n N Am to (drop (S (length (text d n))) out) Cf Lt Sh) as (to' & R & Wt & Es & _ & Ef & V).
  eexists _, _, to'. split; [by apply decimal2string_spec|]. done.
Qed.

(** -12.5 in two words, through a buffer of seven bytes. *)
Lemma decimal_text_roundtrip_witness :
  exists out' n to', decimal2string (mk_decimal 2 1 2 1 [12; 500000000]) (replicate 7 7) 6 0 0 0 = Some (E_DEC_OK, out', n) /\
    internal_str2dec out' (mk_decimal 0 0 3 0 [7; 7; 7]) n false = Some (E_DEC_OK, to', n) /\ wf to' /\
    sign to' = 1 /\ frac to' = 1 /\ forall F, 0 <= F -> sval F to' = sval F (mk_decimal 2 1 2 1 [12; 500000000]).
Proof.
  apply (decimal_text_roundtrip (mk_decimal 2 1 2 1 [12; 500000000]) (replicate 7 7) (mk_decimal 0 0 3 0 [7; 7; 7])).
  - by apply decimal_wfb_wf.
  - intros _. vm_compute. reflexivity.
  - exists 125. vm_compute. reflexivity.
  - vm_compute. discriminate.
  - reflexivity.
  - vm_compute. discriminate.
Defined.

(** Without room for all the digits, [decimal2string] still writes at the length of the whole number: 1234.5678 runs over a buffer of
    eight bytes. *)
Theorem decimal2string_overruns : decimal2string (mk_decimal 4 4 2 0 [1234; 567800000]) (replicate 8 7) 8 0 0 0 = None.
Proof. vm_compute. reflexivity. Qed.
End DecimalTextMain.
