(* ===== verification/Digest.v ===== *)
(** * Digest: what the password code relies on of a message digest

    The interface between [libmysql/password.c] and [mysys/sha1.c]: the three
    operations on a context, and their contract.  A context that has been reset
    absorbs the bytes it is given, in pieces of any size, and the result is the
    hash of all of them, written to the first 20 cells of the output. *)
From stdpp Require Import base tactics option list numbers.
From Stdlib Require Import ZArith Lia.
From S2P Require Import Prelude.

Definition byte (b : Z) : Prop := 0 <= b < 256.

(** Operations; [None] is an access outside an array. *)
Class Digest (ctx : Type) := {
  reset : ctx -> Z * ctx;
  (** context, array, number of bytes *)
  input : ctx -> list Z -> Z -> option (Z * ctx);
  (** context, output array *)
  result : ctx -> list Z -> option (Z * ctx * list Z);
}.

Class DigestLaws (ctx : Type) {D : Digest ctx} := {
  hash : list Z -> list Z;
  (** a context in memory, whatever its contents *)
  storage : ctx -> Prop;
  absorbed : ctx -> list Z -> Prop;
  hash_length m : length (hash m) = 20%nat;
  hash_bytes m : Forall byte (hash m);
  reset_law c : storage c -> absorbed (reset c).2 [];
  input_law c m arr n :
    absorbed c m -> 0 <= n <= Z.of_nat (length arr) -> Forall byte (take (Z.to_nat n) arr) ->
    exists c', input c arr n = Some (0, c') /\ absorbed c' (m ++ take (Z.to_nat n) arr);
  result_law c m out :
    absorbed c m -> (20 <= length out)%nat ->
    exists c', result c out = Some (0, c', hash m ++ drop 20 out) /\ storage c';
}.
