(* ===== verification/Sha1.v ===== *)
(** * Sha1: the message digest

    [mysys/sha1.c] and [include/sha1.h].  The context is a record with the
    fields of [SHA1_CONTEXT]; the message block, the intermediate hash and the
    word schedule [W] are arrays.  The reference is the digest as the standard
    defines it: the padded message is cut in blocks of 64 bytes and the
    compression function is folded over them.  The main result is a data
    refinement: a context represents the message it has been given, whatever
    the sizes of the pieces, and the digest is the reference digest of it.
    The contract other code relies on is the class [Digest] at the end. *)
From stdpp Require Import base tactics option list numbers.
From Stdlib Require Import ZArith Lia.
From S2P Require Import Prelude.
From S2P Require Import Digest.

Module Sha1.

(** ** Model *)

Definition SHA1_HASH_SIZE : Z := 20.
Definition SHA_SUCCESS : Z := 0.

Record SHA1_CONTEXT := mk_ctx {
  Length : Z;
  Intermediate_Hash : list Z;
  Computed : Z;
  Corrupted : Z;
  Message_Block_Index : Z;
  Message_Block : list Z;
}.

(** The macro on a [uint32]. *)
Definition SHA1CircularShift (bits word : Z) : Z :=
  u32 (word ≪ bits) ||| (word ≫ (32 - bits)).

Definition sha_const_key : list Z :=
  [0x67452301; 0xEFCDAB89; 0x98BADCFE; 0x10325476; 0xC3D2E1F0].

Definition K : list Z := [0x5A827999; 0x6ED9EBA1; 0x8F1BBCDC; 0xCA62C1D6].

(** Addition of [uint32]. *)
Definition add32 (x y : Z) : Z := u32 (x + y).

Definition mysql_sha1_reset (context : SHA1_CONTEXT) : Z * SHA1_CONTEXT :=
  (SHA_SUCCESS,
   {| Length := 0;
      Intermediate_Hash := sha_const_key;
      Computed := 0;
      Corrupted := 0;
      Message_Block_Index := 0;
      Message_Block := Message_Block context |}).

(** [W[t] = b[idx] << 24; W[t] |= b[idx+1] << 16; ...]: the shift is done in
    [int] and its value is kept modulo [2^32]. *)
Definition load_word (block : list Z) (t : Z) (W : list Z) : option (list Z) :=
  let idx := t * 4 in
  b0 ← load block idx;
  b1 ← load block (idx + 1);
  b2 ← load block (idx + 2);
  b3 ← load block (idx + 3);
  let w := u32 (b0 ≪ 24) in
  let w := w ||| u32 (b1 ≪ 16) in
  let w := w ||| u32 (b2 ≪ 8) in
  store W t (w ||| b3).

Definition extend_word (t : Z) (W : list Z) : option (list Z) :=
  w3 ← load W (t - 3);
  w8 ← load W (t - 8);
  w14 ← load W (t - 14);
  w16 ← load W (t - 16);
  store W t (SHA1CircularShift 1 (w3 ^^^ w8 ^^^ w14 ^^^ w16)).

(** The word buffers [A, B, C, D, E]. *)
Definition buffers : Type := Z * Z * Z * Z * Z.

(** The four expressions on [B, C, D]; [~] is the complement of 32 bits. *)
Definition f_choose (B C D : Z) : Z := (B &&& C) ||| (u32 (Z.lnot B) &&& D).
Definition f_parity (B C D : Z) : Z := B ^^^ C ^^^ D.
Definition f_majority (B C D : Z) : Z := (B &&& C) ||| (B &&& D) ||| (C &&& D).

(** The body the four loops share: [f] is the expression on [B, C, D], [k] the
    index of the constant. *)
Definition round_step (f : Z -> Z -> Z -> Z) (k : Z) (W : list Z) (t : Z) (s : buffers)
  : option buffers :=
  let '(A, B, C, D, E) := s in
  w ← load W t;
  kk ← load K k;
  let temp := add32 (add32 (add32 (add32 (SHA1CircularShift 5 A) (f B C D)) E) w) kk in
  let E := D in
  let D := C in
  let C := SHA1CircularShift 30 B in
  let B := A in
  let A := temp in
  Some (A, B, C, D, E).

(** The four loops of 20 rounds. *)
Definition rounds (W : list Z) (s : buffers) : option buffers :=
  s ← for_up 20 0 (round_step f_choose 0 W) s;
  s ← for_up 20 20 (round_step f_parity 1 W) s;
  s ← for_up 20 40 (round_step f_majority 2 W) s;
  for_up 20 60 (round_step f_parity 3 W) s.

(** The word sequence.  [W] is an uninitialised local array: every cell is
    written before it is read, so that the zeros chosen here do not matter. *)
Definition message_schedule (block : list Z) : option (list Z) :=
  W ← for_up 16 0 (load_word block) (replicate 80 0);
  for_up 64 16 extend_word W.

Definition init_buffers (H : list Z) : option buffers :=
  A ← load H 0; B ← load H 1; C ← load H 2; D ← load H 3; E ← load H 4;
  Some (A, B, C, D, E).

Definition add_buffers (H : list Z) (s : buffers) : option (list Z) :=
  let '(A, B, C, D, E) := s in
  h ← load H 0; H ← store H 0 (add32 h A);
  h ← load H 1; H ← store H 1 (add32 h B);
  h ← load H 2; H ← store H 2 (add32 h C);
  h ← load H 3; H ← store H 3 (add32 h D);
  h ← load H 4; store H 4 (add32 h E).

Definition SHA1ProcessMessageBlock (context : SHA1_CONTEXT) : option SHA1_CONTEXT :=
  W ← message_schedule (Message_Block context);
  s ← init_buffers (Intermediate_Hash context);
  s ← rounds W s;
  H ← add_buffers (Intermediate_Hash context) s;
  Some {| Length := Length context;
          Intermediate_Hash := H;
          Computed := Computed context;
          Corrupted := Corrupted context;
          Message_Block_Index := 0;
          Message_Block := Message_Block context |}.

Definition set_block (context : SHA1_CONTEXT) (block : list Z) (index : Z) : SHA1_CONTEXT :=
  {| Length := Length context;
     Intermediate_Hash := Intermediate_Hash context;
     Computed := Computed context;
     Corrupted := Corrupted context;
     Message_Block_Index := index;
     Message_Block := block |}.

Definition bzero (m : list Z) (off n : Z) : option (list Z) :=
  write m off (replicate (Z.to_nat n) 0).

(** [(int8) x] stored in a [uint8]. *)
Definition int8_byte (x : Z) : Z := u8 (s8 x).

(** The padding up to the length field. *)
Definition pad_to_length (context : SHA1_CONTEXT) : option SHA1_CONTEXT :=
  let i := Message_Block_Index context in
  if bool_decide (i > 55)
  then
    block ← store (Message_Block context) i 0x80;
    let i := i + 1 in
    block ← bzero block i (64 - i);
    context ← SHA1ProcessMessageBlock (set_block context block 64);
    block ← bzero (Message_Block context) 0 56;
    Some (set_block context block 56)
  else
    block ← store (Message_Block context) i 0x80;
    let i := i + 1 in
    block ← bzero block i (56 - i);
    Some (set_block context block 56).

(** The eight bytes of the length, the highest first. *)
Definition store_length (L : Z) (block : list Z) : option (list Z) :=
  block ← store block 56 (int8_byte (L ≫ 56));
  block ← store block 57 (int8_byte (L ≫ 48));
  block ← store block 58 (int8_byte (L ≫ 40));
  block ← store block 59 (int8_byte (L ≫ 32));
  block ← store block 60 (int8_byte (L ≫ 24));
  block ← store block 61 (int8_byte (L ≫ 16));
  block ← store block 62 (int8_byte (L ≫ 8));
  store block 63 (int8_byte L).

Definition SHA1PadMessage (context : SHA1_CONTEXT) : option SHA1_CONTEXT :=
  context ← pad_to_length context;
  block ← store_length (Length context) (Message_Block context);
  SHA1ProcessMessageBlock (set_block context block (Message_Block_Index context)).

(** One pass of the input loop. *)
Definition input_byte (byte : Z) (context : SHA1_CONTEXT) : option SHA1_CONTEXT :=
  block ← store (Message_Block context) (Message_Block_Index context) (byte &&& 0xFF);
  let context :=
    {| Length := u64 (Length context + 8);
       Intermediate_Hash := Intermediate_Hash context;
       Computed := Computed context;
       Corrupted := Corrupted context;
       Message_Block_Index := s16 (Message_Block_Index context + 1);
       Message_Block := block |} in
  if bool_decide (Message_Block_Index context = 64)
  then SHA1ProcessMessageBlock context
  else Some context.

Definition mysql_sha1_input (context : SHA1_CONTEXT) (message_array : list Z) (length : Z)
  : option (Z * SHA1_CONTEXT) :=
  if bool_decide (length = 0) then Some (SHA_SUCCESS, context)
  else
    context ← for_up (Z.to_nat length) 0
      (fun i c => b ← load message_array i; input_byte b c) context;
    Some (SHA_SUCCESS, context).

(** The digest bytes are written to the cells 0 .. 19 of the output. *)
Definition digest_byte (H : list Z) (i : Z) : option Z :=
  h ← load H (i ≫ 2); Some (int8_byte (h ≫ (8 * (3 - (i &&& 3))))).

Definition mysql_sha1_result (context : SHA1_CONTEXT) (Message_Digest : list Z)
  : option (Z * SHA1_CONTEXT * list Z) :=
  context ←
    (if bool_decide (Computed context = 0)
     then
       context ← SHA1PadMessage context;
       block ← bzero (Message_Block context) 0 64;
       Some {| Length := 0;
               Intermediate_Hash := Intermediate_Hash context;
               Computed := 1;
               Corrupted := Corrupted context;
               Message_Block_Index := Message_Block_Index context;
               Message_Block := block |}
     else Some context);
  digest ← for_up (Z.to_nat SHA1_HASH_SIZE) 0
    (fun i m => b ← digest_byte (Intermediate_Hash context) i; store m i b) Message_Digest;
  Some (SHA_SUCCESS, context, digest).

(** ** Reference: the digest of the standard, on lists of bytes *)
Module Fips.

Definition word_bytes (w : Z) : list Z :=
  [w / 2 ^ 24 mod 256; w / 2 ^ 16 mod 256; w / 2 ^ 8 mod 256; w mod 256].

Definition word_of (b : list Z) (t : Z) : Z :=
  at_ b (4 * t) * 2 ^ 24 + at_ b (4 * t + 1) * 2 ^ 16 + at_ b (4 * t + 2) * 2 ^ 8 + at_ b (4 * t + 3).

Definition ROTL (n x : Z) : Z := (x * 2 ^ n) mod 2 ^ 32 + x / 2 ^ (32 - n).

(** [n] words more of the schedule. *)
Fixpoint schedule (n : nat) (w : list Z) : list Z :=
  match n with
  | O => w
  | S n =>
      let w := schedule n w in
      let t := Z.of_nat (length w) in
      w ++ [ROTL 1 (at_ w (t - 3) ^^^ at_ w (t - 8) ^^^ at_ w (t - 14) ^^^ at_ w (t - 16))]
  end.

Definition words (b : list Z) : list Z := schedule 64 (word_of b <$> seqZ 0 16).

Definition Ch (x y z : Z) : Z := (x &&& y) ^^^ ((2 ^ 32 - 1 - x) &&& z).
Definition Parity (x y z : Z) : Z := x ^^^ y ^^^ z.
Definition Maj (x y z : Z) : Z := (x &&& y) ^^^ (x &&& z) ^^^ (y &&& z).

Definition f_t (t : Z) : Z -> Z -> Z -> Z :=
  if bool_decide (t < 20) then Ch
  else if bool_decide (t < 40) then Parity
  else if bool_decide (t < 60) then Maj else Parity.

Definition K_t (t : Z) : Z := at_ K (t / 20).

Definition round (w : list Z) (s : buffers) (t : Z) : buffers :=
  let '(a, b, c, d, e) := s in
  ((ROTL 5 a + f_t t b c d + e + K_t t + at_ w t) mod 2 ^ 32, a, ROTL 30 b, c, d).

Definition compress (h : list Z) (b : list Z) : list Z :=
  let '(a, b', c, d, e) :=
    foldl (round (words b)) (at_ h 0, at_ h 1, at_ h 2, at_ h 3, at_ h 4) (seqZ 0 80) in
  zip_with (fun x y => (x + y) mod 2 ^ 32) h [a; b'; c; d; e].

(** The compression folded over the first [k] blocks of a message. *)
Definition hash_blocks (k : nat) (m : list Z) : list Z :=
  foldl (fun h i => compress h (take 64 (drop (64 * i) m))) sha_const_key (seq 0 k).

Definition length_field (n : Z) : list Z :=
  word_bytes (n / 2 ^ 32) ++ word_bytes n.

(** [0x80], then as few zeros as make the length a multiple of 64. *)
Definition padded (m : list Z) : list Z :=
  m ++ [0x80] ++ replicate (Z.to_nat ((55 - Z.of_nat (length m)) mod 64)) 0 ++
  length_field (8 * Z.of_nat (length m)).

Definition sha1 (m : list Z) : list Z :=
  hash_blocks (length (padded m) / 64) (padded m) ≫= word_bytes.

End Fips.

(** ** Words *)

Definition word (w : Z) : Prop := 0 <= w < 2 ^ 32.

Lemma int8_byte_mod x : int8_byte x = x mod 256.
Proof.
  unfold int8_byte, swrap, uwrap. change (2 ^ (8 - 1)) with 128. change (2 ^ 8) with 256. Zlia.
Qed.

Lemma int8_byte_shift x k : 0 <= k -> int8_byte (x ≫ k) = x / 2 ^ k mod 256.
Proof. intros. by rewrite int8_byte_mod, Z.shiftr_div_pow2. Qed.

Lemma word_add32 x y : word (add32 x y).
Proof. by apply uwrap_range. Qed.

Lemma rotl_spec n x : 0 < n < 32 -> word x -> SHA1CircularShift n x = Fips.ROTL n x.
Proof.
  intros Hn Hx. unfold SHA1CircularShift, Fips.ROTL, word in *.
  assert (Hp : 2 ^ 32 = 2 ^ (32 - n) * 2 ^ n) by (rewrite <- Z.pow_add_r by lia; f_equal; lia).
  assert (0 < 2 ^ n) by lia. assert (0 < 2 ^ (32 - n)) by lia.
  assert (Hd : x / 2 ^ (32 - n) < 2 ^ n).
  { apply Z.div_lt_upper_bound; [lia | rewrite <- Hp; lia]. }
  assert (Hm : u32 (x ≪ n) = (x mod 2 ^ (32 - n)) ≪ n).
  { unfold uwrap. rewrite !Z.shiftl_mul_pow2, Hp by lia.
    by rewrite Zmult_mod_distr_r. }
  rewrite Hm, Z.shiftr_div_pow2 by lia. rewrite lor_shift_add; [| lia |].
  - f_equal. by rewrite Hp, Zmult_mod_distr_r.
  - split; [apply Z.div_pos; lia | done].
Qed.

Lemma word_bits x : (forall i, 32 <= i -> Z.testbit x i = false) -> word x.
Proof. intros H. by apply range_of_bits. Qed.

Lemma word_high x i : word x -> 32 <= i -> Z.testbit x i = false.
Proof. apply testbit_high. Qed.

Lemma word_shift n x : 0 < n < 32 -> word x -> word (SHA1CircularShift n x).
Proof.
  intros Hn Hx. apply word_bits. intros i Hi. unfold SHA1CircularShift.
  autorewrite with cbits. rewrite (word_high x (i + (32 - n))) by (done || lia).
  by rewrite (proj2 (Z.ltb_ge i 32)).
Qed.

Lemma word_lxor x y : word x -> word y -> word (x ^^^ y).
Proof.
  intros. apply word_bits. intros i Hi. autorewrite with cbits.
  by rewrite !word_high.
Qed.

Lemma lnot_word x : word x -> u32 (Z.lnot x) = 2 ^ 32 - 1 - x.
Proof. unfold word, uwrap, Z.lnot. Zlia. Qed.

Lemma f_choose_spec x y z : word x -> f_choose x y z = Fips.Ch x y z.
Proof.
  intros Hx. unfold f_choose, Fips.Ch. rewrite <- lnot_word by done.
  apply Z.bits_inj'. intros i Hi. autorewrite with cbits.
  by destruct (Z.testbit x i), (Z.testbit y i), (Z.testbit z i), (i <? 32).
Qed.

Lemma f_majority_spec x y z : f_majority x y z = Fips.Maj x y z.
Proof.
  apply Z.bits_inj'. intros i Hi. unfold f_majority, Fips.Maj. autorewrite with cbits.
  by destruct (Z.testbit x i), (Z.testbit y i), (Z.testbit z i).
Qed.

(** Bytes joined with shifts. *)
Lemma join_bytes b0 b1 b2 b3 :
  byte b0 -> byte b1 -> byte b2 -> byte b3 ->
  u32 (b0 ≪ 24) ||| u32 (b1 ≪ 16) ||| u32 (b2 ≪ 8) ||| b3 =
  b0 * 2 ^ 24 + b1 * 2 ^ 16 + b2 * 2 ^ 8 + b3.
Proof.
  unfold byte. intros H0 H1 H2 H3.
  assert (E : forall b k, 0 <= b < 256 -> 0 <= k <= 24 -> u32 (b ≪ k) = b ≪ k).
  { intros b k Hb Hk. rewrite Z.shiftl_mul_pow2 by lia. apply uwrap_small.
    pose proof (Z.pow_le_mono_r 2 k 24). nia. }
  rewrite !E by lia.
  assert (S1 : (b0 ≪ 24) ||| (b1 ≪ 16) = (b0 * 2 ^ 8 + b1) ≪ 16).
  { change 24 with (8 + 16). rewrite <- Z.shiftl_shiftl, <- Z.shiftl_lor by lia.
    by rewrite lor_shift_add by lia. }
  rewrite S1.
  assert (S2 : ((b0 * 2 ^ 8 + b1) ≪ 16) ||| (b2 ≪ 8) = ((b0 * 2 ^ 8 + b1) * 2 ^ 8 + b2) ≪ 8).
  { change 16 with (8 + 8). rewrite <- Z.shiftl_shiftl, <- Z.shiftl_lor by lia.
    by rewrite lor_shift_add by lia. }
  rewrite S2, lor_shift_add by lia. lia.
Qed.

Lemma byte_at m i : Forall byte m -> byte (at_ m i).
Proof.
  intros H. unfold at_. destruct (load m i) eqn:E; [| done]. by apply (Forall_load byte m i).
Qed.

Lemma word_in_block m i : Forall word m -> word (at_ m i).
Proof.
  intros H. unfold at_. destruct (load m i) eqn:E; [| done]. by apply (Forall_load word m i).
Qed.

(** ** The compression function *)

Lemma load_word_spec block t W :
  Forall byte block -> length block = 64%nat -> 0 <= t < 16 ->
  load_word block t W = store W t (Fips.word_of block t).
Proof.
  intros Hb Hl Ht. unfold load_word. rewrite !load_at by lia. cbn [mbind option_bind].
  rewrite join_bytes by by apply byte_at.
  unfold Fips.word_of. by rewrite (Z.mul_comm 4 t).
Qed.

Lemma word_word_of block t : Forall byte block -> word (Fips.word_of block t).
Proof.
  intros H. unfold Fips.word_of, word.
  pose proof (byte_at block (4 * t) H). pose proof (byte_at block (4 * t + 1) H).
  pose proof (byte_at block (4 * t + 2) H). pose proof (byte_at block (4 * t + 3) H).
  unfold byte in *. lia.
Qed.

Lemma length_schedule n w : length (Fips.schedule n w) = (n + length w)%nat.
Proof. induction n; [done |]. cbn [Fips.schedule]. rewrite length_app. simpl. lia. Qed.

Lemma word_schedule n w : Forall word w -> Forall word (Fips.schedule n w).
Proof.
  intros Hw. induction n; [done |]. cbn [Fips.schedule].
  apply Forall_app; split; [done |]. apply Forall_singleton.
  rewrite <- rotl_spec; [apply word_shift |..]; try lia; by repeat apply word_lxor; apply word_in_block.
Qed.

Lemma extend_loop w :
  Forall word w -> length w = 16%nat ->
  for_up 64 16 extend_word (w ++ replicate 64 0) = Some (Fips.schedule 64 w).
Proof.
  intros Hw Hl.
  destruct (for_up_rule (fun k s => 16 <= k <= 80 /\
      s = Fips.schedule (Z.to_nat (k - 16)) w ++ replicate (Z.to_nat (80 - k)) 0)
      64 16 extend_word (w ++ replicate 64 0)) as (s & -> & _ & ->); [done | |].
  - intros k t Hk [_ ->]. set (p := Fips.schedule (Z.to_nat (k - 16)) w).
    assert (Hp : Z.of_nat (length p) = k) by (unfold p; rewrite length_schedule; lia).
    unfold extend_word. rewrite !load_at by (rewrite length_app; lia).
    cbn [mbind option_bind]. rewrite !at_app_l by lia.
    replace (Z.to_nat (80 - k)) with (Datatypes.S (Z.to_nat (80 - (k + 1)))) by lia.
    assert (Hst : forall x r v, store (p ++ x :: r) k v = Some (p ++ v :: r)).
    { intros x r v. pose proof (store_next p x r v) as Hn. by rewrite Hp in Hn. }
    cbn [replicate]. rewrite Hst. eexists. split; [done |].
    split; [lia |]. replace (Z.to_nat (k + 1 - 16)) with (Datatypes.S (Z.to_nat (k - 16))) by lia.
    cbn [Fips.schedule]. fold p. rewrite Hp, <- app_assoc. simpl. do 2 f_equal.
    apply rotl_spec; [lia |].
    repeat apply word_lxor; apply word_in_block; by apply word_schedule.
  - by rewrite app_nil_r.
Qed.

Definition word_buffers (s : buffers) : Prop :=
  let '(a, b, c, d, e) := s in word a /\ word b /\ word c /\ word d /\ word e.

Lemma sum_add32 a b c d e :
  add32 (add32 (add32 (add32 a b) c) d) e = (a + b + c + e + d) mod 2 ^ 32.
Proof.
  assert (E : forall x y z, add32 (add32 x y) z = add32 x (y + z)).
  { intros. unfold add32, uwrap. rewrite Zplus_mod_idemp_l. f_equal. lia. }
  rewrite !E. unfold add32, uwrap. f_equal. lia.
Qed.

(** One pass of one of the four loops is a round of the standard. *)
Lemma round_step_spec f k w t s :
  length w = 80%nat -> 0 <= t < 80 -> k = t / 20 ->
  (forall x y z, word x -> f x y z = Fips.f_t t x y z) -> word_buffers s ->
  round_step f k w t s = Some (Fips.round w s t) /\ word_buffers (Fips.round w s t).
Proof.
  intros Hw Ht -> Hf. destruct s as [[[[a b] c] d] e]. intros (Ha & Hb & Hc & Hd & He).
  unfold round_step. rewrite !load_at by (simpl; Zlia). cbn [mbind option_bind].
  rewrite sum_add32, Hf, !rotl_spec by (done || lia). split; [done |].
  unfold Fips.round, word_buffers. split_and!; try done.
  - by apply Z.mod_pos_bound.
  - rewrite <- rotl_spec by (done || lia). apply word_shift; [lia | done].
Qed.

Lemma rounds_loop f k w i s :
  length w = 80%nat -> 0 <= i <= 60 -> i = 20 * k ->
  (forall t x y z, i <= t < i + 20 -> word x -> f x y z = Fips.f_t t x y z) -> word_buffers s ->
  for_up 20 i (round_step f k w) s = Some (foldl (Fips.round w) s (seqZ i 20)) /\
  word_buffers (foldl (Fips.round w) s (seqZ i 20)).
Proof.
  intros Hw Hi Hk Hf Hs. apply (for_up_fold word_buffers); [done |].
  intros j t Hj Ht. apply round_step_spec; [done | lia | Zlia | | done].
  intros x y z. apply Hf. lia.
Qed.

Lemma rounds_all w s :
  length w = 80%nat -> word_buffers s ->
  rounds w s = Some (foldl (Fips.round w) s (seqZ 0 80)) /\
  word_buffers (foldl (Fips.round w) s (seqZ 0 80)).
Proof.
  intros Hw Hs. unfold rounds.
  assert (F0 : forall t x y z, 0 <= t < 0 + 20 -> word x -> f_choose x y z = Fips.f_t t x y z).
  { intros t x y z Ht Hx. rewrite f_choose_spec by done. unfold Fips.f_t. by bdec. }
  assert (F1 : forall t x y z, 20 <= t < 20 + 20 -> word x -> f_parity x y z = Fips.f_t t x y z).
  { intros t x y z Ht Hx. unfold Fips.f_t. by bdec. }
  assert (F2 : forall t x y z, 40 <= t < 40 + 20 -> word x -> f_majority x y z = Fips.f_t t x y z).
  { intros t x y z Ht Hx. rewrite f_majority_spec. unfold Fips.f_t. by bdec. }
  assert (F3 : forall t x y z, 60 <= t < 60 + 20 -> word x -> f_parity x y z = Fips.f_t t x y z).
  { intros t x y z Ht Hx. unfold Fips.f_t. by bdec. }
  change (seqZ 0 80) with (seqZ 0 20 ++ seqZ 20 20 ++ seqZ 40 20 ++ seqZ 60 20).
  rewrite !foldl_app.
  destruct (rounds_loop f_choose 0 w 0 s Hw ltac:(lia) eq_refl F0 Hs) as [-> H1].
  revert H1. generalize (foldl (Fips.round w) s (seqZ 0 20)). intros s1 H1.
  change (mbind ?f (Some s1)) with (f s1). cbv beta.
  destruct (rounds_loop f_parity 1 w 20 s1 Hw ltac:(lia) eq_refl F1 H1) as [-> H2].
  revert H2. generalize (foldl (Fips.round w) s1 (seqZ 20 20)). intros s2 H2.
  change (mbind ?f (Some s2)) with (f s2). cbv beta.
  destruct (rounds_loop f_majority 2 w 40 s2 Hw ltac:(lia) eq_refl F2 H2) as [-> H3].
  revert H3. generalize (foldl (Fips.round w) s2 (seqZ 40 20)). intros s3 H3.
  change (mbind ?f (Some s3)) with (f s3). cbv beta.
  exact (rounds_loop f_parity 3 w 60 s3 Hw ltac:(lia) eq_refl F3 H3).
Qed.

(** ** Blocks *)

Definition set_hash (c : SHA1_CONTEXT) (h : list Z) : SHA1_CONTEXT :=
  {| Length := Length c; Intermediate_Hash := h; Computed := Computed c;
     Corrupted := Corrupted c; Message_Block_Index := 0; Message_Block := Message_Block c |}.

Lemma length_compress h b : length h = 5%nat -> length (Fips.compress h b) = 5%nat.
Proof.
  intros Hh. unfold Fips.compress. destruct (foldl _ _ _) as [[[[? ?] ?] ?] ?].
  rewrite length_zip_with. simpl. lia.
Qed.

Lemma word_compress h b : Forall word (Fips.compress h b).
Proof.
  unfold Fips.compress. destruct (foldl _ _ _) as [[[[? ?] ?] ?] ?].
  apply Forall_lookup_2. intros i x Hx. apply lookup_zip_with_Some in Hx as (? & ? & -> & _).
  by apply Z.mod_pos_bound.
Qed.

Lemma words_typed b :
  Forall byte b -> length (Fips.words b) = 80%nat /\ Forall word (Fips.words b).
Proof.
  intros Hb. unfold Fips.words. split; [by rewrite length_schedule |].
  apply word_schedule, Forall_fmap, Forall_true. intros. by apply word_word_of.
Qed.

Lemma schedule_loops b :
  Forall byte b -> length b = 64%nat ->
  message_schedule b = Some (Fips.words b).
Proof.
  intros Hb Hl. unfold message_schedule.
  rewrite (for_up_ext _ (fun i m => w ← Some (Fips.word_of b i); store m i w)).
  2:{ intros j t Hj. rewrite load_word_spec by (done || lia). done. }
  rewrite (for_up_write _ (Fips.word_of b)) by (done || (rewrite length_replicate; lia)).
  change (mbind ?f (Some ?x)) with (f x). cbv beta.
  change (drop 16 (replicate 80 0)) with (replicate 64 0).
  apply extend_loop; [| done].
  apply Forall_fmap, Forall_true. intros. by apply word_word_of.
Qed.

Lemma init_buffers_spec h :
  length h = 5%nat -> init_buffers h = Some (at_ h 0, at_ h 1, at_ h 2, at_ h 3, at_ h 4).
Proof. intros Hh. unfold init_buffers. by rewrite !load_at by lia. Qed.

Lemma add_buffers_spec h a b c d e :
  length h = 5%nat ->
  add_buffers h (a, b, c, d, e) =
  Some (zip_with (fun x y => (x + y) mod 2 ^ 32) h [a; b; c; d; e]).
Proof. by destruct h as [| h0 [| h1 [| h2 [| h3 [| h4 [| ]]]]]]. Qed.

(** A block is absorbed by the compression function of the standard. *)
Lemma process_spec c :
  length (Intermediate_Hash c) = 5%nat -> Forall word (Intermediate_Hash c) ->
  length (Message_Block c) = 64%nat -> Forall byte (Message_Block c) ->
  SHA1ProcessMessageBlock c =
  Some (set_hash c (Fips.compress (Intermediate_Hash c) (Message_Block c))).
Proof.
  intros Hh Hw Hl Hb. unfold SHA1ProcessMessageBlock.
  rewrite (bind_eq _ _ _ (schedule_loops _ Hb Hl)), (bind_eq _ _ _ (init_buffers_spec _ Hh)).
  destruct (words_typed _ Hb) as [Hwl _].
  destruct (rounds_all (Fips.words (Message_Block c)) (at_ (Intermediate_Hash c) 0,
    at_ (Intermediate_Hash c) 1, at_ (Intermediate_Hash c) 2, at_ (Intermediate_Hash c) 3,
    at_ (Intermediate_Hash c) 4) Hwl) as [Hr _].
  { unfold word_buffers. by split_and!; apply word_in_block. }
  rewrite (bind_eq _ _ _ Hr). unfold Fips.compress.
  destruct (foldl _ _ _) as [[[[a b] e] d] f].
  by rewrite (bind_eq _ _ _ (add_buffers_spec _ a b e d f Hh)).
Qed.

#[local] Opaque Fips.compress.

Lemma hash_blocks_typed k m :
  length (Fips.hash_blocks k m) = 5%nat /\ Forall word (Fips.hash_blocks k m).
Proof.
  induction k as [| k IH].
  - split; [done |]. repeat constructor; vm_compute; done.
  - unfold Fips.hash_blocks in *. rewrite seq_S, foldl_app.
    split; [apply length_compress, IH | apply word_compress].
Qed.

(** Only the blocks that are hashed matter. *)
Lemma hash_blocks_app k p x :
  (64 * k <= length p)%nat -> Fips.hash_blocks k (p ++ x) = Fips.hash_blocks k p.
Proof.
  unfold Fips.hash_blocks. induction k as [| k IH]; intros Hk; [cbn [seq foldl]; reflexivity |].
  rewrite seq_S, !foldl_app, IH by lia. cbn [foldl]. rewrite Nat.add_0_l.
  rewrite drop_app_le by lia. rewrite take_app_le; [reflexivity |]. rewrite length_drop. lia.
Qed.

Lemma hash_blocks_snoc k p b :
  length p = (64 * k)%nat -> length b = 64%nat ->
  Fips.hash_blocks (S k) (p ++ b) = Fips.compress (Fips.hash_blocks k p) b.
Proof.
  intros Hp Hb. unfold Fips.hash_blocks at 1. rewrite seq_S, foldl_app. cbn [foldl]. rewrite Nat.add_0_l.
  change (foldl _ sha_const_key (seq 0 k)) with (Fips.hash_blocks k (p ++ b)).
  rewrite hash_blocks_app by lia. rewrite drop_app_length' by done.
  by rewrite take_ge by lia.
Qed.

#[local] Opaque Fips.hash_blocks.

(** ** The message a context represents *)

Local Ltac fields := cbn [Length Intermediate_Hash Computed Corrupted Message_Block_Index
  Message_Block set_hash set_block].

(** [k] blocks of the message are hashed, the rest [r] is pending. *)
Record pending (c : SHA1_CONTEXT) (k : nat) (p r rest : list Z) : Prop := {
  pn_done : length p = (64 * k)%nat;
  pn_short : (length r < 64)%nat;
  pn_index : Message_Block_Index c = Z.of_nat (length r);
  pn_hash : Intermediate_Hash c = Fips.hash_blocks k p;
  pn_block : Message_Block c = r ++ rest;
  pn_block_length : length (Message_Block c) = 64%nat;
  pn_block_bytes : Forall byte (Message_Block c);
}.

Definition represents (c : SHA1_CONTEXT) (m : list Z) : Prop :=
  Computed c = 0 /\ Length c = u64 (8 * Z.of_nat (length m)) /\
  exists k p r rest, m = p ++ r /\ pending c k p r rest.

(** What the declaration of the array fields guarantees. *)
Definition allocated (c : SHA1_CONTEXT) : Prop :=
  length (Message_Block c) = 64%nat /\ Forall byte (Message_Block c).

Lemma process_hash c k p :
  Intermediate_Hash c = Fips.hash_blocks k p -> length p = (64 * k)%nat ->
  length (Message_Block c) = 64%nat -> Forall byte (Message_Block c) ->
  SHA1ProcessMessageBlock c =
  Some (set_hash c (Fips.hash_blocks (S k) (p ++ Message_Block c))).
Proof.
  intros Hh Hp Hl Hb. destruct (hash_blocks_typed k p) as [H5 Hw].
  rewrite process_spec by (done || by rewrite Hh). by rewrite hash_blocks_snoc, Hh.
Qed.

Lemma reset_represents c : allocated c -> represents (mysql_sha1_reset c).2 [].
Proof.
  intros [Hl Hb]. split; [done |]. split; [done |].
  exists 0%nat, [], [], (Message_Block c). split; [done |]. constructor; try done. simpl; lia.
Qed.

Lemma represents_allocated c m : represents c m -> allocated c.
Proof. intros (_ & _ & k & p & r & rest & _ & []). done. Qed.

Lemma input_byte_represents b c m :
  represents c m -> byte b ->
  exists c', input_byte b c = Some c' /\ represents c' (m ++ [b]).
Proof.
  intros (Hc & HL & k & p & r & rest & -> & [Hp Hr Hi Hh Hbl Hl Hb]) Hbyte.
  assert (HL' : u64 (Length c + 8) = u64 (8 * Z.of_nat (length ((p ++ r) ++ [b])))).
  { rewrite HL. unfold uwrap. rewrite Zplus_mod_idemp_l, (length_app (p ++ r)). f_equal. simpl. lia. }
  unfold input_byte. rewrite Hi, Hbl.
  destruct rest as [| x rest].
  { rewrite Hbl, app_nil_r in Hl. lia. }
  rewrite store_next. cbn [mbind option_bind Message_Block_Index].
  rewrite land_255, (Z.mod_small b 256) by done.
  rewrite (swrap_small 16) by lia.
  assert (Hl' : length (r ++ b :: rest) = 64%nat).
  { rewrite <- Hl, Hbl, !length_app. done. }
  assert (Hb' : Forall byte (r ++ b :: rest)).
  { rewrite Hbl in Hb. apply Forall_app in Hb as [H1 H2]. inversion_clear H2.
    apply Forall_app. split; [done |]. by constructor. }
  case_bool_decide as H64.
  - assert (rest = []) as ->.
    { destruct rest; [done |]. rewrite length_app in Hl'. simpl in Hl'. lia. }
    rewrite (process_hash _ k p) by (first [exact Hh | exact Hp | exact Hl' | exact Hb']).
    eexists. split; [done |].
    unfold represents. fields. split; [done |]. split; [done |].
    exists (S k), (p ++ r ++ [b]), [], (r ++ [b]). rewrite app_nil_r, app_assoc.
    split; [reflexivity |].
    constructor; fields; [| simpl; lia | done | reflexivity | done | exact Hl' | exact Hb'].
    rewrite !length_app. rewrite length_app in Hl'. simpl in Hl' |- *. lia.
  - eexists. split; [done |]. unfold represents. fields. split; [done |]. split; [done |].
    exists k, p, (r ++ [b]), rest. rewrite app_assoc. split; [done |].
    constructor; fields; rewrite <- ?app_assoc; try done; rewrite length_app; simpl; [| lia].
    rewrite length_app in Hl'. simpl in Hl'. lia.
Qed.

Lemma input_represents c m arr n :
  represents c m -> 0 <= n <= Z.of_nat (length arr) -> Forall byte (take (Z.to_nat n) arr) ->
  exists c', mysql_sha1_input c arr n = Some (SHA_SUCCESS, c') /\
             represents c' (m ++ take (Z.to_nat n) arr).
Proof.
  intros Hc Hn Hb. unfold mysql_sha1_input. case_bool_decide as H0.
  { subst n. exists c. split; [done |]. by rewrite app_nil_r. }
  destruct (for_up_rule (fun i c' => 0 <= i /\ represents c' (m ++ take (Z.to_nat i) arr))
    (Z.to_nat n) 0 (fun i c => b ← load arr i; input_byte b c) c) as (c' & -> & _ & Hc').
  - split; [done |]. by rewrite app_nil_r.
  - intros i t Hi [_ Ht]. destruct (load_in arr i) as [b Eb]; [lia |]. rewrite Eb.
    assert (Eb' : arr !! Z.to_nat i = Some b).
    { unfold load in Eb. by rewrite decide_True in Eb by lia. }
    destruct (input_byte_represents b t _ Ht) as (t' & E & Ht').
    { apply (Forall_lookup_1 _ _ (Z.to_nat i) b Hb). rewrite lookup_take_lt by lia. done. }
    exists t'. split; [exact E |]. split; [lia |].
    replace (Z.to_nat (i + 1)) with (S (Z.to_nat i)) by lia.
    by rewrite (take_S_r _ _ b), app_assoc.
  - exists c'. split; [done |]. by rewrite Z.add_0_l, Z2Nat.id in Hc' by lia.
Qed.

(** ** Padding *)

Lemma div_mod_field x k : 0 <= k <= 56 -> (x mod 2 ^ 64) / 2 ^ k mod 256 = x / 2 ^ k mod 256.
Proof.
  intros Hk. change 256 with (2 ^ 8). change (?a mod 2 ^ 8) with (u8 a).
  change (x mod 2 ^ 64) with (u64 x). rewrite <- !Z.shiftr_div_pow2 by lia.
  apply Z.bits_inj'. intros i Hi. autorewrite with cbits.
  destruct (Z.ltb_spec i 8); [| done]. by rewrite (proj2 (Z.ltb_lt (i + k) 64)) by lia.
Qed.

Lemma length_field_bytes n :
  Fips.length_field n =
  [n / 2 ^ 56 mod 256; n / 2 ^ 48 mod 256; n / 2 ^ 40 mod 256; n / 2 ^ 32 mod 256;
   n / 2 ^ 24 mod 256; n / 2 ^ 16 mod 256; n / 2 ^ 8 mod 256; n mod 256].
Proof.
  unfold Fips.length_field, Fips.word_bytes. rewrite !Z.div_div by lia.
  by rewrite <- !Z.pow_add_r by lia.
Qed.

Lemma length_field_u64 n : Fips.length_field (u64 n) = Fips.length_field n.
Proof.
  rewrite !length_field_bytes. unfold uwrap.
  assert (E0 : n mod 2 ^ 64 mod 256 = n mod 256).
  { pose proof (div_mod_field n 0). rewrite !Z.div_1_r in *. auto with lia. }
  by rewrite !div_mod_field, E0 by lia.
Qed.

Local Ltac put k j :=
  rewrite (store_app_r _ _ k j) by lia; rewrite (store_in _ j) by (rewrite ?length_insert; simpl; lia);
  cbn [mbind option_bind].

Lemma store_length_spec L l r :
  length l = 56%nat -> length r = 8%nat ->
  store_length L (l ++ r) = Some (l ++ Fips.length_field L).
Proof.
  intros Hl Hr. unfold store_length. rewrite length_field_bytes.
  rewrite !int8_byte_shift, int8_byte_mod by lia.
  destruct r as [| x0 [| x1 [| x2 [| x3 [| x4 [| x5 [| x6 [| x7 [|]]]]]]]]]; try done.
  put 56 0. put 57 1. put 58 2. put 59 3. put 60 4. put 61 5. put 62 6. put 63 7. done.
Qed.

Lemma byte_length_field L : Forall byte (Fips.length_field L).
Proof.
  rewrite length_field_bytes. repeat constructor; try (by apply Z.mod_pos_bound).
  all: pose proof (Z.mod_pos_bound) as H; apply H; lia.
Qed.

Lemma byte_zeros n : Forall byte (replicate n 0).
Proof. apply Forall_replicate. done. Qed.

Lemma bzero_spec l x r n :
  length x = Z.to_nat n -> 0 <= n ->
  bzero (l ++ x ++ r) (Z.of_nat (length l)) n = Some (l ++ replicate (Z.to_nat n) 0 ++ r).
Proof. intros Hx Hn. apply write_app. by rewrite length_replicate. Qed.

(** The block after the end mark: [r], [0x80] and zeros up to [n] bytes. *)
Lemma mark_and_zero r x rest z t :
  rest = x :: z ++ t ->
  (block ← store (r ++ rest) (Z.of_nat (length r)) 0x80;
   bzero block (Z.of_nat (length r) + 1) (Z.of_nat (length z))) =
  Some (r ++ 0x80 :: replicate (length z) 0 ++ t).
Proof.
  intros ->. rewrite store_next. cbn [mbind option_bind].
  pose proof (bzero_spec (r ++ [0x80]) z t (Z.of_nat (length z)) (eq_sym (Nat2Z.id _)) ltac:(lia)) as H.
  rewrite length_app in H. simpl in H. rewrite Nat2Z.id, <- !app_assoc in H. simpl in H.
  by replace (Z.of_nat (length r + 1)) with (Z.of_nat (length r) + 1) in H by lia.
Qed.

Lemma split_rest {A} (rest : list A) n :
  (0 < n <= length rest)%nat ->
  exists x z t, rest = x :: z ++ t /\ length z = (n - 1)%nat /\ length t = (length rest - n)%nat.
Proof.
  intros Hn. destruct rest as [| x rest]; simpl in *; [lia |].
  exists x, (take (n - 1) rest), (drop (n - 1) rest).
  rewrite take_drop, length_take, length_drop. split_and!; [done | lia | lia].
Qed.

(** The bytes of the last block before the length field. *)
Definition before_length (c' : SHA1_CONTEXT) (m : list Z) : Prop :=
  exists k p z t,
    Fips.padded m = p ++ z ++ Fips.length_field (8 * Z.of_nat (length m)) /\
    length p = (64 * k)%nat /\ length z = 56%nat /\ length t = 8%nat /\
    Intermediate_Hash c' = Fips.hash_blocks k p /\ Message_Block c' = z ++ t /\
    Forall byte (z ++ t).

Lemma padded_zeros (p r : list Z) k n :
  length p = (64 * k)%nat -> (length r < 64)%nat ->
  Z.of_nat n = (55 - Z.of_nat (length r)) mod 64 ->
  Z.to_nat ((55 - Z.of_nat (length (p ++ r))) mod 64) = n.
Proof.
  intros Hp Hr Hn. rewrite length_app, Hp.
  replace (55 - Z.of_nat (64 * k + length r)) with (55 - Z.of_nat (length r) + (- Z.of_nat k) * 64) by lia.
  rewrite Z_mod_plus_full, <- Hn. lia.
Qed.

Lemma pad_to_length_spec c m :
  represents c m ->
  exists c', pad_to_length c = Some c' /\ before_length c' m /\
    Length c' = Length c /\ Computed c' = Computed c.
Proof.
  intros (Hc & HL & k & p & r & rest & -> & [Hp Hr Hi Hh Hbl Hl Hb]).
  assert (Hrest : length rest = (64 - length r)%nat).
  { rewrite Hbl, length_app in Hl. lia. }
  rewrite Hbl in Hb. apply Forall_app in Hb as [Hbr Hbrest].
  unfold pad_to_length. rewrite Hi, Hbl. case_bool_decide as H55.
  - destruct (split_rest rest (64 - length r)) as (x & z & t & -> & Hz & Ht); [lia |].
    assert (t = []) as -> by (apply nil_length_inv; lia).
    replace (64 - (Z.of_nat (length r) + 1)) with (Z.of_nat (length z)) by lia.
    pose proof (mark_and_zero r x _ z [] eq_refl) as Hm. rewrite !app_nil_r in Hm. rewrite app_nil_r.
    destruct (store _ _ _) as [b1 |] eqn:E1; [| done]. cbn [mbind option_bind] in Hm |- *.
    rewrite Hm. cbn [mbind option_bind].
    set (b := r ++ 0x80 :: replicate (length z) 0).
    assert (Hlb : length b = 64%nat).
    { unfold b. rewrite length_app. simpl. rewrite length_replicate. lia. }
    assert (Hbb : Forall byte b).
    { apply Forall_app. split; [done |]. constructor; [done | apply byte_zeros]. }
    rewrite (process_hash _ k p) by (first [exact Hh | exact Hp | exact Hlb | exact Hbb]).
    change (mbind ?f (Some ?c)) with (f c). fields.
    assert (Hz8 : bzero b 0 56 = Some (replicate 56 0 ++ drop 56 b)).
    { rewrite <- (take_drop 56 b) at 1.
      apply (bzero_spec [] (take 56 b) (drop 56 b) 56); [rewrite length_take; lia | lia]. }
    rewrite Hz8. eexists. split; [reflexivity |]. fields. split; [| done].
    exists (S k), (p ++ b), (replicate 56 0), (drop 56 b).
    split_and!; [| rewrite length_app; lia | reflexivity | rewrite length_drop; lia | reflexivity | reflexivity |].
    + unfold Fips.padded. rewrite (padded_zeros p r k (length z + 56)) by (done || Zlia).
      unfold b. rewrite replicate_add, <- !app_assoc. done.
    + apply Forall_app. split; [apply byte_zeros | by apply Forall_drop].
  - destruct (split_rest rest (56 - length r)) as (x & z & t & -> & Hz & Ht); [lia |].
    replace (56 - (Z.of_nat (length r) + 1)) with (Z.of_nat (length z)) by lia.
    pose proof (mark_and_zero r x _ z t eq_refl) as Hm.
    destruct (store _ _ _) as [b1 |] eqn:E1; [| done]. cbn [mbind option_bind] in Hm |- *.
    rewrite Hm. eexists. split; [reflexivity |]. fields. split; [| done].
    exists k, p, (r ++ 0x80 :: replicate (length z) 0), t.
    split_and!; [| exact Hp | | lia | exact Hh | rewrite <- app_assoc; reflexivity |].
    + unfold Fips.padded. rewrite (padded_zeros p r k (length z)) by (done || Zlia).
      rewrite <- !app_assoc. done.
    + rewrite length_app. simpl. rewrite length_replicate. lia.
    + inversion_clear Hbrest as [| ? ? _ Hzt]. apply Forall_app in Hzt as [_ Hbt].
      rewrite <- app_assoc. apply Forall_app. split; [done |].
      constructor; [done |]. apply Forall_app. split; [apply byte_zeros | done].
Qed.

Lemma pad_spec c m :
  represents c m ->
  exists c', SHA1PadMessage c = Some c' /\ allocated c' /\
    Intermediate_Hash c' = Fips.hash_blocks (length (Fips.padded m) / 64) (Fips.padded m).
Proof.
  intros Hrep. destruct (pad_to_length_spec c m Hrep)
    as (c1 & E1 & (k & p & z & t & Hpad & Hp & Hz & Ht & Hh & Hbl & Hb) & HL & _).
  unfold SHA1PadMessage. rewrite E1. cbn [mbind option_bind].
  rewrite Hbl, store_length_spec by done. cbn [mbind option_bind].
  destruct Hrep as (_ & HLm & _). rewrite HL, HLm, length_field_u64.
  set (f := Fips.length_field _) in *.
  assert (Hf : length f = 8%nat) by (unfold f; by rewrite length_field_bytes).
  apply Forall_app in Hb as [Hbz _].
  assert (Hbf : Forall byte (z ++ f)) by (apply Forall_app; split; [done | apply byte_length_field]).
  rewrite (process_hash _ k p); [| exact Hh | exact Hp | by fields; rewrite length_app, Hz, Hf | exact Hbf].
  eexists. split; [reflexivity |]. split.
  - split; fields; [by rewrite length_app, Hz, Hf | done].
  - fields. rewrite Hpad. f_equal. rewrite !length_app, Hp, Hz, Hf.
    replace (64 * k + (56 + 8))%nat with (S k * 64)%nat by lia. by rewrite Nat.div_mul.
Qed.

(** ** The digest *)

(** The bytes of five words, as the last loop writes them. *)
Lemma digest_bytes h (out : list Z) :
  length h = 5%nat -> (20 <= length out)%nat ->
  for_up 20 0 (fun i m => b ← digest_byte h i; store m i b) out =
  Some ((h ≫= Fips.word_bytes) ++ drop 20 out).
Proof.
  intros Hh Ho.
  rewrite (for_up_write _ (fun i => at_ h (i / 4) / 2 ^ (8 * (3 - i mod 4)) mod 256)); [| done |].
  - do 2 f_equal. destruct h as [| h0 [| h1 [| h2 [| h3 [| h4 [|]]]]]]; try done.
    change (seqZ 0 (Z.of_nat 20)) with
      [0; 1; 2; 3; 4; 5; 6; 7; 8; 9; 10; 11; 12; 13; 14; 15; 16; 17; 18; 19].
    cbn. by rewrite !Z.div_1_r.
  - intros i Hi. unfold digest_byte. rewrite Z.shiftr_div_pow2 by lia.
    change (2 ^ 2) with 4. rewrite load_at by (rewrite Hh; Zlia). cbn [mbind option_bind].
    change 3 with (2 ^ 2 - 1) at 2. rewrite land_ones_uwrap by lia.
    unfold uwrap. change (2 ^ 2) with 4. by rewrite int8_byte_shift by Zlia.
Qed.

Lemma length_digest h : length h = 5%nat -> length (h ≫= Fips.word_bytes) = 20%nat.
Proof. by destruct h as [| h0 [| h1 [| h2 [| h3 [| h4 [|]]]]]]. Qed.

Lemma sha1_length m : length (Fips.sha1 m) = 20%nat.
Proof. apply length_digest, hash_blocks_typed. Qed.

Lemma sha1_bytes m : Forall byte (Fips.sha1 m).
Proof.
  unfold Fips.sha1. destruct (hash_blocks_typed (length (Fips.padded m) / 64) (Fips.padded m)) as [_ _].
  apply Forall_bind, Forall_true. intros w. unfold Fips.word_bytes.
  repeat constructor; by apply Z.mod_pos_bound.
Qed.

(** The context after [mysql_sha1_result], which can be read again. *)
Definition finished (c : SHA1_CONTEXT) (m : list Z) : Prop :=
  Computed c = 1 /\ allocated c /\
  Intermediate_Hash c = Fips.hash_blocks (length (Fips.padded m) / 64) (Fips.padded m).

Lemma result_finished c m out :
  finished c m -> (20 <= length out)%nat ->
  mysql_sha1_result c out = Some (SHA_SUCCESS, c, Fips.sha1 m ++ drop 20 out).
Proof.
  intros (Hc & Ha & Hh) Ho. unfold mysql_sha1_result. rewrite bool_decide_false by lia.
  cbn [mbind option_bind]. change (Z.to_nat SHA1_HASH_SIZE) with 20%nat.
  rewrite digest_bytes; [| rewrite Hh; apply hash_blocks_typed | done]. by rewrite Hh.
Qed.

Lemma result_represents c m out :
  represents c m -> (20 <= length out)%nat ->
  exists c', mysql_sha1_result c out = Some (SHA_SUCCESS, c', Fips.sha1 m ++ drop 20 out) /\
             finished c' m.
Proof.
  intros Hr Ho. destruct (pad_spec c m Hr) as (c1 & E1 & [Hl1 Hb1] & Hh).
  unfold mysql_sha1_result. rewrite bool_decide_true by apply Hr. rewrite E1.
  cbn [mbind option_bind].
  assert (Ez : bzero (Message_Block c1) 0 64 = Some (replicate 64 0)).
  { pose proof (bzero_spec [] (Message_Block c1) [] 64 Hl1 ltac:(lia)) as H.
    by rewrite !app_nil_r in H. }
  rewrite Ez. cbn [mbind option_bind]. fields. change (Z.to_nat SHA1_HASH_SIZE) with 20%nat.
  rewrite digest_bytes; [| rewrite Hh; apply hash_blocks_typed | done].
  eexists. split; [cbn [mbind option_bind]; by rewrite Hh |].
  unfold finished. fields. split_and!; [reflexivity | | reflexivity].
  split; fields; [reflexivity | apply byte_zeros].
Qed.

(** ** The contract *)

#[global] Instance sha1_digest : Digest SHA1_CONTEXT := {
  reset := mysql_sha1_reset;
  input := mysql_sha1_input;
  result := mysql_sha1_result;
}.

#[global, refine] Instance sha1_laws : DigestLaws SHA1_CONTEXT := {
  hash := Fips.sha1;
  storage := allocated;
  absorbed := represents;
}.
Proof.
  - apply sha1_length.
  - apply sha1_bytes.
  - apply reset_represents.
  - apply input_represents.
  - intros c m out Hc Ho. destruct (result_represents c m out Hc Ho) as (c' & E & _ & Ha & _).
    exists c'. done.
Defined.

(** ** Properties *)

(** A sequence of calls of [mysql_sha1_input], each with a whole array. *)
Fixpoint input_all (c : SHA1_CONTEXT) (pieces : list (list Z)) : option SHA1_CONTEXT :=
  match pieces with
  | [] => Some c
  | m :: pieces => '(_, c) ← mysql_sha1_input c m (Z.of_nat (length m)); input_all c pieces
  end.

Lemma input_all_represents pieces c m :
  represents c m -> Forall (Forall byte) pieces ->
  exists c', input_all c pieces = Some c' /\ represents c' (m ++ concat pieces).
Proof.
  revert c m; induction pieces as [| x pieces IH]; intros c m Hc Hb; cbn [input_all concat].
  - exists c. by rewrite app_nil_r.
  - apply Forall_cons_1 in Hb as [Hx Hb].
    destruct (input_represents c m x (Z.of_nat (length x))) as (c1 & E1 & H1); [done | lia | |].
    { by rewrite Nat2Z.id, firstn_all. }
    rewrite E1. cbn [mbind option_bind]. rewrite Nat2Z.id, firstn_all in H1.
    destruct (IH c1 _ H1 Hb) as (c' & -> & Hc'). exists c'. by rewrite app_assoc.
Qed.

(** C8 The digest is the one of the standard: for a context with any contents,
    and a message given in any number of pieces of any sizes (empty ones and
    ones over a block boundary included), reset, input and result succeed, the
    20 bytes written are the SHA-1 of the concatenated message and the rest of
    the output is not touched; a second call of result writes the same bytes. *)
Theorem sha1_refines_fips (c : SHA1_CONTEXT) (pieces : list (list Z)) (out out2 : list Z)
    (Hc : allocated c) (Hp : Forall (Forall byte) pieces)
    (Ho : (20 <= length out)%nat) (Ho2 : (20 <= length out2)%nat) :
  exists c1 c2,
    input_all (mysql_sha1_reset c).2 pieces = Some c1 /\
    mysql_sha1_result c1 out =
      Some (SHA_SUCCESS, c2, Fips.sha1 (concat pieces) ++ drop 20 out) /\
    mysql_sha1_result c2 out2 =
      Some (SHA_SUCCESS, c2, Fips.sha1 (concat pieces) ++ drop 20 out2).
Proof.
  destruct (input_all_represents pieces _ [] (reset_represents c Hc) Hp) as (c1 & E1 & H1).
  destruct (result_represents c1 _ out H1 Ho) as (c2 & E2 & H2).
  exists c1, c2. split_and!; [done | done |]. by apply result_finished.
Qed.

(** "abc", in pieces, and a message of 70 bytes. *)
Definition ex_ctx : SHA1_CONTEXT := mk_ctx 77 (replicate 5 1) 1 0 9 (replicate 64 7).

Lemma sha1_refines_fips_witness :
  Fips.sha1 [97; 98; 99] =
    [0xa9; 0x99; 0x3e; 0x36; 0x47; 0x06; 0x81; 0x6a; 0xba; 0x3e;
     0x25; 0x71; 0x78; 0x50; 0xc2; 0x6c; 0x9c; 0xd0; 0xd8; 0x9d] /\
  exists c1 c2,
    input_all (mysql_sha1_reset ex_ctx).2 [[97]; []; [98; 99]] = Some c1 /\
    mysql_sha1_result c1 (replicate 21 5) =
      Some (SHA_SUCCESS, c2, Fips.sha1 [97; 98; 99] ++ [5]) /\
    mysql_sha1_result c2 (replicate 20 5) =
      Some (SHA_SUCCESS, c2, Fips.sha1 [97; 98; 99] ++ []).
Proof.
  split; [vm_compute; reflexivity |].
  apply (sha1_refines_fips ex_ctx [[97]; []; [98; 99]] (replicate 21 5) (replicate 20 5)).
  - split; [reflexivity | apply Forall_replicate; done].
  - repeat constructor; done.
  - simpl; lia.
  - simpl; lia.
Defined.

End Sha1.
