(* ===== verification/Password.v ===== *)
(** * Password: hashing and authentication

    [libmysql/password.c].  Strings are arrays of bytes; a C string ends at its
    first zero.  The message digest is used through the interface of [Digest];
    [sha1_context] is a local variable of each function, so that its first
    contents are an argument here, as are the contents of an output buffer.
    [memcmp] is an argument too: the C standard only fixes the sign of what it
    returns.  The functions on [double] ([scramble_323], [check_scramble_323],
    [create_random_string]) are not modelled. *)
From stdpp Require Import base tactics option list numbers.
From Stdlib Require Import ZArith Lia.
From S2P Require Import Prelude.
From S2P Require Import IntStr.
From S2P Require Import Digest.
From S2P Require Import Sha1.

Module Password.
Import IntStr.

(** ** Model *)

Definition SCRAMBLE_LENGTH : Z := 20.
Definition SHA1_HASH_SIZE : Z := Sha1.SHA1_HASH_SIZE.
Definition PVERSION41_CHAR : Z := 42.

Fixpoint strlen (s : list Z) : option Z :=
  match s with
  | [] => None
  | c :: s => if bool_decide (c = 0) then Some 0 else n ← strlen s; Some (n + 1)
  end.

(** One pass of the loop of [hash_password] on [nr], [add], [nr2]. *)
Definition hash_char (c : Z) (s : Z * Z * Z) : Z * Z * Z :=
  let '(nr, add, nr2) := s in
  if bool_decide (c = 32) || bool_decide (c = 9) then s
  else
    let tmp := u8 c in
    let nr := nr ^^^ u32 (u32 (u32 ((nr &&& 63) + add) * tmp) + u32 (nr ≪ 8)) in
    let nr2 := u32 (nr2 + (u32 (nr2 ≪ 8) ^^^ nr)) in
    let add := u32 (add + tmp) in
    (nr, add, nr2).

Definition hash_password (password : list Z) (password_len : Z) : option (Z * Z) :=
  s ← for_up (Z.to_nat password_len) 0
    (fun i s => c ← load password i; Some (hash_char c s)) (1345345333, 7, 0x12345671);
  let '(nr, _, nr2) := s in
  Some (nr &&& (2 ^ 31 - 1), nr2 &&& (2 ^ 31 - 1)).

(** [sprintf] of ["%08lx"]: a [ulong] of 32 bits has at most 8 digits. *)
Definition sprintf_08lx (v : Z) : list Z :=
  (fun i => at_ _dig_vec_lower ((v ≫ (4 * (7 - i))) &&& 15)) <$> seqZ 0 8.

(** ["%08lx%08lx"], with the terminating zero, at the start of [to]. *)
Definition sprintf_pair (to : list Z) (a b : Z) : option (list Z) :=
  write to 0 (sprintf_08lx a ++ sprintf_08lx b ++ [0]).

Definition make_scrambled_password_323 (to password : list Z) : option (list Z) :=
  n ← strlen password;
  '(a, b) ← hash_password password n;
  sprintf_pair to a b.

Definition char_val (X : Z) : Z :=
  u8 (if bool_decide (X >= 48) && bool_decide (X <= 57) then X - 48
      else if bool_decide (X >= 65) && bool_decide (X <= 90) then X - 65 + 10
      else X - 97 + 10).

(** The inner loop: eight digits from [pos]. *)
Definition salt_word (password : list Z) (pos : Z) : option Z :=
  for_up 8 0 (fun i val => c ← load password (pos + i);
    Some (u32 (u32 (val ≪ 4) + char_val c))) 0.

(** [password] is [None] for a null pointer; [res] has the two words. *)
Definition get_salt_from_password_323 (res : list Z) (password : option (list Z))
  : option (list Z) :=
  res ← store res 1 0;
  res ← store res 0 0;
  match password with
  | None => Some res
  | Some password =>
      '(_, _, res) ← while_ (S (length password))
        (fun '(pos, r, res) =>
           c ← load password pos;
           if bool_decide (c <> 0) then
             val ← salt_word password pos;
             res ← store res r val;
             Some (Next (pos + 8, r + 1, res))
           else Some (Ret (pos, r, res))) (0, 0, res);
      Some res
  end.

Definition make_password_from_salt_323 (to salt : list Z) : option (list Z) :=
  s0 ← load salt 0;
  s1 ← load salt 1;
  sprintf_pair to s0 s1.

(** [octet2hex(to + off, str, len)]: the new contents of [to] and the offset
    of the pointer that is returned. *)
Definition octet2hex (to : list Z) (off : Z) (str : list Z) (len : Z) : option (list Z * Z) :=
  to ← for_up (Z.to_nat len) 0
    (fun i to =>
       c ← load str i;
       h ← load _dig_vec_upper (u8 c ≫ 4);
       to ← store to (off + 2 * i) h;
       l ← load _dig_vec_upper (u8 c &&& 15);
       store to (off + 2 * i + 1) l) to;
  to ← store to (off + 2 * len) 0;
  Some (to, off + 2 * len).

(** [hex2octet(to, str + off, len)]: each pass reads two characters, so that
    there are [(len + 1) / 2] of them. *)
Definition hex2octet (to str : list Z) (off len : Z) : option (list Z) :=
  for_up (Z.to_nat ((len + 1) / 2)) 0
    (fun i to =>
       c ← load str (off + 2 * i);
       let tmp := s8 (char_val c) in
       c ← load str (off + 2 * i + 1);
       store to i (u8 ((tmp ≪ 4) ||| char_val c))) to.

(** [my_crypt(to, to, s2, len)]: both callers pass the same array as [to] and
    [s1]. *)
Definition my_crypt (to s2 : list Z) (len : Z) : option (list Z) :=
  for_up (Z.to_nat len) 0
    (fun i to => a ← load to i; b ← load s2 i; store to i (a ^^^ b)) to.

Definition get_salt_from_password (hash_stage2 password : list Z) : option (list Z) :=
  hex2octet hash_stage2 password 1 (SHA1_HASH_SIZE * 2).

Definition make_password_from_salt (to hash_stage2 : list Z) : option (list Z) :=
  to ← store to 0 PVERSION41_CHAR;
  '(to, _) ← octet2hex to 1 hash_stage2 SHA1_HASH_SIZE;
  Some to.

Section Authentication.
Context {ctx : Type} {D : Digest ctx}.

(** An uninitialised local array of [SHA1_HASH_SIZE] bytes. *)
Definition hash_buffer : list Z := replicate (Z.to_nat SHA1_HASH_SIZE) 0.

Definition make_scrambled_password (sha1_context : ctx) (to password : list Z)
  : option (list Z) :=
  let '(_, c) := reset sha1_context in
  n ← strlen password;
  '(_, c) ← input c password n;
  '(_, c, to) ← result c to;
  let '(_, c) := reset c in
  '(_, c) ← input c to SHA1_HASH_SIZE;
  '(_, c, hash_stage2) ← result c hash_buffer;
  to ← store to 0 PVERSION41_CHAR;
  '(to, _) ← octet2hex to 1 hash_stage2 SHA1_HASH_SIZE;
  Some to.

Definition scramble (sha1_context : ctx) (to message password : list Z) : option (list Z) :=
  let '(_, c) := reset sha1_context in
  n ← strlen password;
  '(_, c) ← input c password n;
  '(_, c, hash_stage1) ← result c hash_buffer;
  let '(_, c) := reset c in
  '(_, c) ← input c hash_stage1 SHA1_HASH_SIZE;
  '(_, c, hash_stage2) ← result c hash_buffer;
  let '(_, c) := reset c in
  '(_, c) ← input c message SCRAMBLE_LENGTH;
  '(_, c) ← input c hash_stage2 SHA1_HASH_SIZE;
  '(_, c, to) ← result c to;
  my_crypt to hash_stage1 SCRAMBLE_LENGTH.

(** The result is a [my_bool], a [char]: the low eight bits of the [int] that
    [memcmp] returns. *)
Definition check_scramble (memcmp : list Z -> list Z -> Z) (sha1_context : ctx)
    (scramble_arg message hash_stage2 : list Z) : option Z :=
  let '(_, c) := reset sha1_context in
  '(_, c) ← input c message SCRAMBLE_LENGTH;
  '(_, c) ← input c hash_stage2 SHA1_HASH_SIZE;
  '(_, c, buf) ← result c hash_buffer;
  buf ← my_crypt buf scramble_arg SCRAMBLE_LENGTH;
  let '(_, c) := reset c in
  '(_, c) ← input c buf SHA1_HASH_SIZE;
  '(_, c, hash_stage2_reassured) ← result c hash_buffer;
  a ← read hash_stage2 0 SHA1_HASH_SIZE;
  b ← read hash_stage2_reassured 0 SHA1_HASH_SIZE;
  Some (s8 (memcmp a b)).

End Authentication.

(** ** Hexadecimal *)

Definition hex_digit (d : Z) : Z := at_ _dig_vec_upper d.
Definition hex (bs : list Z) : list Z := bs ≫= fun b => [hex_digit (b / 16); hex_digit (b mod 16)].

Lemma nibble_cases (P : Z -> Prop) d : (forall k, In k (seqZ 0 16) -> P k) -> 0 <= d < 16 -> P d.
Proof. intros H Hd. apply H, list_elem_of_In, elem_of_seqZ. lia. Qed.

Lemma char_val_hex d : 0 <= d < 16 -> char_val (hex_digit d) = d.
Proof.
  intros Hd. pattern d. apply (nibble_cases _ d); [| done]. cbn. intros k H.
  repeat (destruct H as [<- | H]; [reflexivity |]). done.
Qed.

Lemma char_val_lower d : 0 <= d < 16 -> char_val (at_ _dig_vec_lower d) = d.
Proof.
  intros Hd. pattern d. apply (nibble_cases _ d); [| done]. cbn. intros k H.
  repeat (destruct H as [<- | H]; [reflexivity |]). done.
Qed.

Lemma lower_nonzero d : 0 <= d < 16 -> at_ _dig_vec_lower d <> 0.
Proof.
  intros Hd. pattern d. apply (nibble_cases _ d); [| done]. cbn. intros k H.
  repeat (destruct H as [<- | H]; [done |]). done.
Qed.

Lemma length_hex bs : length (hex bs) = (2 * length bs)%nat.
Proof. induction bs as [| b bs IH]; [done |]. cbn. change (bs ≫= _) with (hex bs). lia. Qed.

Lemma hex_app bs bs' : hex (bs ++ bs') = hex bs ++ hex bs'.
Proof. apply bind_app. Qed.

Lemma hex_split bs (i : nat) b :
  bs !! i = Some b ->
  hex bs = hex (take i bs) ++ [hex_digit (b / 16); hex_digit (b mod 16)] ++ hex (drop (S i) bs).
Proof.
  intros Hb. rewrite <- (take_drop_middle bs i b Hb) at 1. by rewrite hex_app.
Qed.

(** The two characters of byte [i]. *)
Lemma load_hex pre bs post i b :
  load bs i = Some b ->
  load (pre ++ hex bs ++ post) (Z.of_nat (length pre) + 2 * i) = Some (hex_digit (b / 16)) /\
  load (pre ++ hex bs ++ post) (Z.of_nat (length pre) + 2 * i + 1) = Some (hex_digit (b mod 16)).
Proof.
  intros Hb. pose proof (load_bounds _ _ _ Hb) as Hi.
  unfold load in Hb. rewrite decide_True in Hb by lia.
  rewrite <- Z.add_assoc. rewrite !load_app by (rewrite length_hex; lia).
  rewrite (hex_split bs _ b Hb).
  assert (Hl : Z.of_nat (length (hex (take (Z.to_nat i) bs))) = 2 * i).
  { rewrite length_hex, length_take. lia. }
  split; rewrite <- Hl.
  - rewrite <- (Z.add_0_r (Z.of_nat _)). by rewrite load_app by (simpl; lia).
  - by rewrite load_app by (simpl; lia).
Qed.

Lemma hex_digit_loads b : byte b ->
  load _dig_vec_upper (u8 b ≫ 4) = Some (hex_digit (b / 16)) /\
  load _dig_vec_upper (u8 b &&& 15) = Some (hex_digit (b mod 16)).
Proof.
  unfold byte. intros Hb. rewrite uwrap_small by lia.
  change 15 with (2 ^ 4 - 1). rewrite land_ones_uwrap by lia.
  rewrite Z.shiftr_div_pow2 by lia. unfold uwrap. change (2 ^ 4) with 16.
  split; apply load_at; change (Z.of_nat (length _dig_vec_upper)) with 37; Zlia.
Qed.

Lemma join_nibbles b : byte b -> u8 ((s8 (b / 16) ≪ 4) ||| (b mod 16)) = b.
Proof.
  unfold byte. intros Hb. rewrite swrap_small by (simpl; Zlia).
  rewrite lor_shift_add by (simpl; Zlia). change (2 ^ 4) with 16.
  rewrite uwrap_small by (simpl; Zlia). Zlia.
Qed.

Lemma octet2hex_spec pre x y post bs :
  length x = (2 * length bs)%nat -> Forall byte bs ->
  octet2hex (pre ++ x ++ y :: post) (Z.of_nat (length pre)) bs (Z.of_nat (length bs)) =
  Some (pre ++ hex bs ++ 0 :: post, Z.of_nat (length pre) + 2 * Z.of_nat (length bs)).
Proof.
  intros Hx Hb. unfold octet2hex. rewrite Nat2Z.id.
  match goal with |- context [for_up ?n 0 ?f ?s0] =>
    destruct (for_up_rule (fun i s => 0 <= i /\ s = pre ++ hex (take (Z.to_nat i) bs) ++
      drop (2 * Z.to_nat i) x ++ y :: post) n 0 f s0) as (s' & -> & _ & ->) end.
  - done.
  - intros i t Hi [_ ->]. destruct (load_in bs i) as [b Eb]; [lia |]. rewrite Eb.
    destruct (hex_digit_loads b) as [Eh El]; [by apply (Forall_load byte bs i) |].
    cbn [mbind option_bind]. rewrite Eh. cbn [mbind option_bind].
    assert (Eb' : bs !! Z.to_nat i = Some b).
    { unfold load in Eb. by rewrite decide_True in Eb by lia. }
    assert (Hd : exists a1 a2, drop (2 * Z.to_nat i) x = a1 :: a2 :: drop (2 * Z.to_nat (i + 1)) x).
    { assert (Hl : length (drop (2 * Z.to_nat i) x) = (2 * length bs - 2 * Z.to_nat i)%nat)
        by (rewrite length_drop; lia).
      replace (2 * Z.to_nat (i + 1))%nat with (2 * Z.to_nat i + 2)%nat by lia. rewrite <- drop_drop.
      destruct (drop (2 * Z.to_nat i) x) as [| a1 [| a2 d]]; simpl in Hl; [lia | lia |]. by exists a1, a2. }
    destruct Hd as (a1 & a2 & ->).
    assert (Hl : length (hex (take (Z.to_nat i) bs)) = (2 * Z.to_nat i)%nat)
      by (rewrite length_hex, length_take; lia).
    set (h := hex (take (Z.to_nat i) bs)) in *. simpl app.
    rewrite (app_assoc pre h). replace (Z.of_nat (length pre) + 2 * i)
      with (Z.of_nat (length (pre ++ h))) by (rewrite length_app; lia).
    rewrite store_next. cbn [mbind option_bind]. rewrite El. cbn [mbind option_bind].
    rewrite (cons_middle _ (pre ++ h)), (app_assoc (pre ++ h)).
    replace (Z.of_nat (length (pre ++ h)) + 1)
      with (Z.of_nat (length ((pre ++ h) ++ [hex_digit (b / 16)]))) by (rewrite (length_app (pre ++ h)); simpl; lia).
    rewrite store_next. eexists. split; [done |]. split; [lia |].
    replace (Z.to_nat (i + 1)) with (S (Z.to_nat i)) by lia.
    rewrite (take_S_r bs _ b Eb'), hex_app, <- !app_assoc. done.
  - cbn [mbind option_bind]. rewrite Z.add_0_l, Nat2Z.id, firstn_all, drop_ge by lia. simpl app at 2.
    rewrite app_assoc. replace (Z.of_nat (length pre) + 2 * Z.of_nat (length bs))
      with (Z.of_nat (length (pre ++ hex bs))) by (rewrite length_app, length_hex; lia).
    rewrite store_next. cbn [mbind option_bind]. by rewrite <- app_assoc.
Qed.

Lemma hex2octet_spec pre bs post x r :
  length x = length bs -> Forall byte bs ->
  hex2octet (x ++ r) (pre ++ hex bs ++ post) (Z.of_nat (length pre)) (2 * Z.of_nat (length bs)) =
  Some (bs ++ r).
Proof.
  intros Hx Hb. unfold hex2octet.
  replace (Z.to_nat ((2 * Z.of_nat (length bs) + 1) / 2)) with (length bs) by Zlia.
  rewrite (for_up_ext _ (fun i m => b ← load bs i; store m i b)).
  - rewrite (for_up_write _ (fun i => at_ bs i)).
    + do 2 f_equal.
      * apply at_ext; [by rewrite length_fmap, length_seqZ, Nat2Z.id |].
        intros i Hi. rewrite length_fmap, length_seqZ in Hi.
        unfold at_ at 1, load. rewrite decide_True by lia. rewrite list_lookup_fmap.
        rewrite lookup_seqZ_lt by lia. simpl. f_equal. lia.
      * by rewrite drop_app_length'.
    + rewrite length_app. lia.
    + intros i Hi. apply load_at. lia.
  - intros i t Hi. destruct (load_in bs i) as [b Eb]; [lia |]. rewrite Eb.
    assert (Hbb : byte b) by by apply (Forall_load byte bs i).
    destruct (load_hex pre bs post i b Eb) as [-> ->]. cbn [mbind option_bind].
    unfold byte in Hbb. rewrite !char_val_hex by Zlia. by rewrite join_nibbles.
Qed.

(** ** Strings and the cipher *)

Lemma strlen_spec p rest :
  Forall (fun c => c <> 0) p -> strlen (p ++ 0 :: rest) = Some (Z.of_nat (length p)).
Proof.
  induction 1 as [| c p Hc Hp IH]; [done |]. cbn [strlen app]. rewrite bool_decide_false by done.
  rewrite IH. cbn [mbind option_bind length]. f_equal. lia.
Qed.

Definition xor (a b : list Z) : list Z := zip_with Z.lxor a b.

Lemma xor_cancel a b : length a = length b -> xor a (xor a b) = b.
Proof.
  revert b; induction a as [| x a IH]; intros [| y b] Hl; try done.
  cbn. change (zip_with Z.lxor a (zip_with Z.lxor a b)) with (xor a (xor a b)).
  rewrite IH by (simpl in Hl; lia). f_equal.
  by rewrite <- Z.lxor_assoc, Z.lxor_nilpotent, Z.lxor_0_l.
Qed.

Lemma byte_lxor x y : byte x -> byte y -> byte (x ^^^ y).
Proof.
  intros Hx Hy. apply (range_of_bits 8); [lia |]. intros i Hi.
  rewrite Z.lxor_spec. by rewrite !(testbit_high 8).
Qed.

Lemma byte_xor a b : Forall byte a -> Forall byte b -> Forall byte (xor a b).
Proof.
  intros Ha. revert b; induction Ha as [| x a Hx Ha IH]; intros b Hb; [by destruct b |].
  destruct Hb as [| y b Hy Hb]; [constructor |]. cbn. constructor; [by apply byte_lxor | by apply IH].
Qed.

Lemma my_crypt_spec a b r r' n :
  length a = length b -> n = Z.of_nat (length a) ->
  my_crypt (a ++ r) (b ++ r') n = Some (xor a b ++ r).
Proof.
  intros Hab ->. unfold my_crypt. rewrite Nat2Z.id.
  match goal with |- for_up ?n 0 ?f ?s0 = _ =>
    destruct (for_up_rule (fun i s => 0 <= i /\ s = xor (take (Z.to_nat i) a) (take (Z.to_nat i) b) ++
      drop (Z.to_nat i) a ++ r) n 0 f s0) as (s' & -> & _ & ->) end.
  - done.
  - intros i t Hi [_ ->].
    destruct (lookup_lt_is_Some_2 a (Z.to_nat i)) as [x Hx]; [lia |].
    destruct (lookup_lt_is_Some_2 b (Z.to_nat i)) as [y Hy]; [lia |].
    set (h := xor (take (Z.to_nat i) a) (take (Z.to_nat i) b)).
    assert (Hl : Z.of_nat (length h) = i).
    { unfold h, xor. rewrite length_zip_with, !length_take. lia. }
    rewrite (drop_S a x) by done. simpl app at 2.
    assert (Ex : load (h ++ x :: drop (S (Z.to_nat i)) a ++ r) i = Some x).
    { rewrite <- Hl, load_nat. rewrite lookup_app_r, Nat.sub_diag by lia. done. }
    assert (Ey : load (b ++ r') i = Some y).
    { unfold load. rewrite decide_True by lia. by apply lookup_app_l_Some. }
    assert (Es : forall v l, store (h ++ x :: l) i v = Some (h ++ v :: l)).
    { intros v l. pose proof (store_next h x l v) as H. by rewrite Hl in H. }
    cbn [app]. rewrite Ex, Ey. cbn [mbind option_bind]. rewrite Es.
    eexists. split; [done |]. split; [lia |].
    replace (Z.to_nat (i + 1)) with (S (Z.to_nat i)) by lia.
    rewrite (take_S_r a _ x Hx), (take_S_r b _ y Hy). unfold xor.
    rewrite zip_with_app by (rewrite !length_take; lia). by rewrite <- app_assoc.
  - by rewrite Z.add_0_l, Nat2Z.id, drop_all, !take_ge by lia.
Qed.

(** ** Authentication against the contract of the digest *)

Fixpoint lex (a b : list Z) : comparison :=
  match a, b with
  | x :: a, y :: b => match x ?= y with Eq => lex a b | o => o end
  | _, _ => Eq
  end.

(** What the C standard says of [memcmp]: the sign of the result is the order
    of the first bytes that differ. *)
Definition memcmp_ok (memcmp : list Z -> list Z -> Z) : Prop :=
  forall a b, length a = length b -> (memcmp a b ?= 0) = lex a b.

Lemma lex_eq a b : length a = length b -> lex a b = Eq <-> a = b.
Proof.
  revert b; induction a as [| x a IH]; intros [| y b] Hl; try done; cbn [lex].
  simpl in Hl. specialize (IH b). destruct (Z.compare_spec x y) as [-> | H | H].
  - rewrite IH by lia. split; [by intros -> | congruence].
  - split; [done |]. intros [= -> ->]. lia.
  - split; [done |]. intros [= -> ->]. lia.
Qed.

Lemma memcmp_zero memcmp a b :
  memcmp_ok memcmp -> length a = length b -> memcmp a b = 0 <-> a = b.
Proof. intros Hm Hl. by rewrite <- lex_eq, <- Hm, Z.compare_eq_iff by done. Qed.

(** The reply the protocol defines: [hash(message ++ h2) xor hash(password)]
    with [h2 = hash(hash(password))]. *)
Section Protocol.
Context {ctx : Type} {D : Digest ctx} {L : DigestLaws ctx}.
Implicit Types (c : ctx) (p message : list Z).

Definition stage2 p : list Z := hash (hash p).
Definition reply p message : list Z := xor (hash (take 20 message ++ stage2 p)) (hash p).

Lemma take_hash m : take 20 (hash m) = hash m.
Proof. rewrite take_ge; [done |]. by rewrite hash_length. Qed.

(** One message. *)
Lemma digest_one c arr n out :
  storage c -> 0 <= n <= Z.of_nat (length arr) -> Forall byte (take (Z.to_nat n) arr) ->
  (20 <= length out)%nat ->
  exists c1 c2, input (reset c).2 arr n = Some (0, c1) /\
    result c1 out = Some (0, c2, hash (take (Z.to_nat n) arr) ++ drop 20 out) /\ storage c2.
Proof.
  intros Hc Hn Hb Ho.
  destruct (input_law _ _ arr n (reset_law c Hc) Hn Hb) as (c1 & E1 & H1).
  destruct (result_law _ _ out H1 Ho) as (c2 & E2 & H2). by exists c1, c2.
Qed.

(** A hash value hashed again. *)
Lemma digest_hash c m rest :
  storage c ->
  exists c1 c2, input (reset c).2 (hash m ++ rest) SHA1_HASH_SIZE = Some (0, c1) /\
    result c1 hash_buffer = Some (0, c2, hash (hash m)) /\ storage c2.
Proof.
  intros Hc.
  assert (Ht : take (Z.to_nat SHA1_HASH_SIZE) (hash m ++ rest) = hash m).
  { apply take_app_length'. by rewrite hash_length. }
  destruct (digest_one c (hash m ++ rest) SHA1_HASH_SIZE hash_buffer Hc) as (c1 & c2 & E1 & E2 & H2).
  - rewrite length_app, hash_length. unfold SHA1_HASH_SIZE, Sha1.SHA1_HASH_SIZE. lia.
  - rewrite Ht. apply hash_bytes.
  - unfold hash_buffer. rewrite length_replicate. done.
  - exists c1, c2. rewrite Ht, app_nil_r in E2. done.
Qed.

(** The message of the server followed by [h]. *)
Lemma digest_challenge c message h rest out :
  storage c -> (20 <= length message)%nat -> Forall byte message ->
  length h = 20%nat -> Forall byte h -> (20 <= length out)%nat ->
  exists c1 c2 c3,
    input (reset c).2 message SCRAMBLE_LENGTH = Some (0, c1) /\
    input c1 (h ++ rest) SHA1_HASH_SIZE = Some (0, c2) /\
    result c2 out = Some (0, c3, hash (take 20 message ++ h) ++ drop 20 out) /\ storage c3.
Proof.
  intros Hc Hm Hmb Hh Hhb Ho.
  destruct (input_law _ _ message SCRAMBLE_LENGTH (reset_law c Hc)) as (c1 & E1 & H1).
  { unfold SCRAMBLE_LENGTH. lia. } { by apply Forall_take. }
  destruct (input_law _ _ (h ++ rest) SHA1_HASH_SIZE H1) as (c2 & E2 & H2).
  { rewrite length_app. unfold SHA1_HASH_SIZE, Sha1.SHA1_HASH_SIZE. lia. }
  { rewrite take_app_length' by done. done. }
  destruct (result_law _ _ out H2 Ho) as (c3 & E3 & H3). exists c1, c2, c3.
  rewrite (take_app_length' _ _ (Z.to_nat SHA1_HASH_SIZE)) in E3 by done. done.
Qed.

(** A digest over a C string. *)
Lemma digest_string c p rest out :
  storage c -> Forall byte p -> (20 <= length out)%nat ->
  exists c1 c2, input (reset c).2 (p ++ 0 :: rest) (Z.of_nat (length p)) = Some (0, c1) /\
    result c1 out = Some (0, c2, hash p ++ drop 20 out) /\ storage c2.
Proof.
  intros Hc Hb Ho.
  assert (Ht : take (Z.to_nat (Z.of_nat (length p))) (p ++ 0 :: rest) = p)
    by (rewrite Nat2Z.id; apply take_app_length).
  destruct (digest_one c (p ++ 0 :: rest) (Z.of_nat (length p)) out) as (c1 & c2 & H); try done.
  - rewrite length_app. lia.
  - by rewrite Ht.
  - exists c1, c2. by rewrite Ht in H.
Qed.

Local Ltac new_context c :=
  rewrite (surjective_pairing (reset c)); cbv beta iota.

Lemma make_scrambled_password_spec c to p rest :
  storage c -> Forall (fun b => 0 < b < 256) p -> (42 <= length to)%nat ->
  make_scrambled_password c to (p ++ 0 :: rest) =
  Some ([PVERSION41_CHAR] ++ hex (stage2 p) ++ 0 :: drop 42 to).
Proof.
  intros Hc Hp Ho. unfold make_scrambled_password.
  destruct (digest_string c p rest to Hc) as (c1 & c2 & E1 & E2 & H2); [| lia |].
  { eapply Forall_impl; [| exact Hp]. unfold byte. simpl. lia. }
  destruct (digest_hash c2 p (drop 20 to) H2) as (c3 & c4 & E3 & E4 & _).
  new_context c. rewrite strlen_spec by (eapply Forall_impl; [| exact Hp]; simpl; lia).
  cbn [mbind option_bind]. rewrite E1. cbn [mbind option_bind]. rewrite E2. cbn [mbind option_bind].
  new_context c2. rewrite E3. cbn [mbind option_bind]. rewrite E4. cbn [mbind option_bind].
  pose proof (hash_length p) as Hl. destruct (hash p) as [| x0 h] eqn:Eh; [done |].
  rewrite <- Eh at 1. change 20%nat with (S (Nat.pred 20)) in Hl. injection Hl as Hl.
  unfold stage2. rewrite Eh. pose proof (hash_length (x0 :: h)) as Hl2.
  rewrite store_in by (simpl; lia). cbn [mbind option_bind]. simpl (<[_ := _]> _).
  assert (Hsplit : exists x y, h ++ drop 20 to = x ++ y :: drop 42 to /\ length x = 40%nat).
  { assert (Hd : drop 20 to = take 21 (drop 20 to) ++ drop 41 to).
    { by rewrite <- (take_drop 21 (drop 20 to)) at 1; rewrite drop_drop. }
    destruct (drop 41 to) as [| y t] eqn:Ed.
    { apply (f_equal length) in Ed. rewrite length_drop in Ed. simpl in Ed. lia. }
    exists (h ++ take 21 (drop 20 to)), y. split.
    - rewrite <- app_assoc, Hd at 1. do 2 f_equal. f_equal.
      replace 42%nat with (41 + 1)%nat by lia. by rewrite <- drop_drop, Ed.
    - rewrite length_app, length_take, length_drop. simpl in Hl. lia. }
  destruct Hsplit as (x & y & -> & Hx).
  pose proof (octet2hex_spec [PVERSION41_CHAR] x y (drop 42 to) (hash (x0 :: h))) as H8.
  rewrite Hl2 in H8. change (Z.of_nat (length [PVERSION41_CHAR])) with 1 in H8.
  change (Z.of_nat 20) with SHA1_HASH_SIZE in H8. simpl app in H8 at 1. simpl app at 1.
  rewrite H8; [done | lia | apply hash_bytes].
Qed.

Lemma scramble_spec c to message p rest :
  storage c -> Forall (fun b => 0 < b < 256) p -> (20 <= length to)%nat ->
  (20 <= length message)%nat -> Forall byte message ->
  scramble c to message (p ++ 0 :: rest) = Some (reply p message ++ drop 20 to).
Proof.
  intros Hc Hp Ho Hm Hmb. unfold scramble.
  assert (Hbuf : (20 <= length hash_buffer)%nat) by (unfold hash_buffer; by rewrite length_replicate).
  destruct (digest_string c p rest hash_buffer Hc) as (c1 & c2 & E1 & E2 & H2); [| done |].
  { eapply Forall_impl; [| exact Hp]. unfold byte. simpl. lia. }
  rewrite app_nil_r in E2.
  destruct (digest_hash c2 p [] H2) as (c3 & c4 & E3 & E4 & H4). rewrite app_nil_r in E3.
  destruct (digest_challenge c4 message (hash (hash p)) [] to)
    as (c5 & c6 & c7 & E5 & E6 & E7 & _); try done; [apply hash_length | apply hash_bytes |].
  rewrite app_nil_r in E6.
  new_context c. rewrite strlen_spec by (eapply Forall_impl; [| exact Hp]; simpl; lia).
  cbn [mbind option_bind]. rewrite E1. cbn [mbind option_bind]. rewrite E2. cbn [mbind option_bind].
  new_context c2. rewrite E3. cbn [mbind option_bind]. rewrite E4. cbn [mbind option_bind].
  new_context c4. rewrite E5. cbn [mbind option_bind]. rewrite E6. cbn [mbind option_bind].
  rewrite E7. cbn [mbind option_bind]. rewrite <- (app_nil_r (hash p)) at 2.
  apply my_crypt_spec; by rewrite !hash_length.
Qed.

Lemma check_scramble_spec memcmp c arg message h :
  storage c -> (20 <= length message)%nat -> Forall byte message ->
  length arg = 20%nat -> Forall byte arg -> length h = 20%nat -> Forall byte h ->
  check_scramble memcmp c arg message h =
  Some (s8 (memcmp h (hash (xor (hash (take 20 message ++ h)) arg)))).
Proof.
  intros Hc Hm Hmb Ha Hab Hh Hhb. unfold check_scramble.
  assert (Hbuf : (20 <= length hash_buffer)%nat) by (unfold hash_buffer; by rewrite length_replicate).
  destruct (digest_challenge c message h [] hash_buffer)
    as (c1 & c2 & c3 & E1 & E2 & E3 & H3); try done. rewrite app_nil_r in E2, E3.
  set (key := hash (take 20 message ++ h)) in *.
  assert (Hk : length key = 20%nat) by apply hash_length.
  assert (Hx : length (xor key arg) = 20%nat) by (unfold xor; rewrite length_zip_with; lia).
  destruct (digest_one c3 (xor key arg) SHA1_HASH_SIZE hash_buffer) as (c4 & c5 & E4 & E5 & _); try done.
  { rewrite Hx. done. }
  { apply Forall_take, byte_xor; [apply hash_bytes | done]. }
  rewrite app_nil_r, take_ge in E5 by (by rewrite Hx).
  new_context c. rewrite E1. cbn [mbind option_bind]. rewrite E2. cbn [mbind option_bind].
  rewrite E3. cbn [mbind option_bind].
  pose proof (my_crypt_spec key arg [] [] SCRAMBLE_LENGTH) as Hmc. rewrite !app_nil_r in Hmc.
  rewrite Hmc by (rewrite ?Hk; done). cbn [mbind option_bind].
  new_context c3. rewrite E4. cbn [mbind option_bind]. rewrite E5. cbn [mbind option_bind].
  assert (Hrd : forall l : list Z, length l = 20%nat -> read l 0 SHA1_HASH_SIZE = Some l).
  { intros l Hl. pose proof (read_app_0 l []) as Hr. rewrite Hl, app_nil_r in Hr. done. }
  rewrite (Hrd h Hh), (Hrd _ (hash_length _)). done.
Qed.

Lemma reply_typed p message : length (reply p message) = 20%nat /\ Forall byte (reply p message).
Proof.
  split; [unfold reply, xor; by rewrite length_zip_with, !hash_length |].
  apply byte_xor; apply hash_bytes.
Qed.

(** The client, the stored password and the server agree. *)
Lemma protocol_accepts memcmp c1 c2 c3 p rest message to buf out :
  memcmp_ok memcmp -> storage c1 -> storage c2 -> storage c3 ->
  Forall (fun b => 0 < b < 256) p -> (20 <= length message)%nat -> Forall byte message ->
  (42 <= length to)%nat -> length buf = 20%nat -> length out = 20%nat ->
  exists stored r,
    make_scrambled_password c1 to (p ++ 0 :: rest) = Some stored /\
    get_salt_from_password buf stored = Some (stage2 p) /\
    scramble c2 out message (p ++ 0 :: rest) = Some r /\ r = reply p message /\
    check_scramble memcmp c3 r message (stage2 p) = Some 0.
Proof.
  intros Hcmp H1 H2 H3 Hp Hm Hmb Ht Hb Ho.
  destruct (reply_typed p message) as [Hrl Hrb].
  eexists _, _. split_and!; [by apply make_scrambled_password_spec | | | reflexivity |].
  - pose proof (hex2octet_spec [PVERSION41_CHAR] (stage2 p) (0 :: drop 42 to) buf []) as H.
    unfold stage2 in *. rewrite hash_length, !app_nil_r in H. apply H; [done | apply hash_bytes].
  - rewrite scramble_spec by (done || lia). by rewrite drop_ge, app_nil_r by lia.
  - rewrite check_scramble_spec; try done; [| apply hash_length | apply hash_bytes].
    unfold reply at 1. rewrite xor_cancel by by rewrite !hash_length.
    rewrite (proj2 (memcmp_zero memcmp _ _ Hcmp eq_refl)) by done. done.
Qed.
End Protocol.

(** ** Properties *)

(** C9 Authentication succeeds: what [make_scrambled_password] stores for a
    password, decoded by [get_salt_from_password], is the double hash of the
    password, and [check_scramble] accepts the reply that [scramble] computes
    from the same password for any challenge, for every [memcmp] the standard
    allows and whatever was in the local and output buffers. *)
Theorem authentication_accepts (memcmp : list Z -> list Z -> Z)
    (c1 c2 c3 : Sha1.SHA1_CONTEXT) (password rest message to buf out : list Z)
    (Hcmp : memcmp_ok memcmp)
    (H1 : Sha1.allocated c1) (H2 : Sha1.allocated c2) (H3 : Sha1.allocated c3)
    (Hp : Forall (fun b => 0 < b < 256) password)
    (Hm : (20 <= length message)%nat) (Hmb : Forall byte message)
    (Ht : (42 <= length to)%nat) (Hb : length buf = 20%nat) (Ho : length out = 20%nat) :
  let h2 := Sha1.Fips.sha1 (Sha1.Fips.sha1 password) in
  exists stored r,
    make_scrambled_password c1 to (password ++ 0 :: rest) = Some stored /\
    get_salt_from_password buf stored = Some h2 /\
    scramble c2 out message (password ++ 0 :: rest) = Some r /\
    r = xor (Sha1.Fips.sha1 (take 20 message ++ h2)) (Sha1.Fips.sha1 password) /\
    check_scramble memcmp c3 r message h2 = Some 0.
Proof. exact (protocol_accepts memcmp c1 c2 c3 password rest message to buf out Hcmp H1 H2 H3 Hp Hm Hmb Ht Hb Ho). Qed.

Definition memcmp_sign (a b : list Z) : Z :=
  match lex a b with Eq => 0 | Lt => -1 | Gt => 1 end.

(** A [memcmp] that returns multiples of 256. *)
Definition memcmp_256 (a b : list Z) : Z := 256 * memcmp_sign a b.

Lemma memcmp_sign_ok : memcmp_ok memcmp_sign.
Proof. intros a b _. unfold memcmp_sign. by destruct (lex a b). Qed.

Lemma memcmp_256_ok : memcmp_ok memcmp_256.
Proof. intros a b _. unfold memcmp_256, memcmp_sign. by destruct (lex a b). Qed.

Definition ex_password : list Z := [114; 111; 111; 116].
Definition ex_message : list Z := seqZ 65 20.
Definition ex_ctx : Sha1.SHA1_CONTEXT := Sha1.mk_ctx 77 (replicate 5 1) 1 0 9 (replicate 64 7).

Lemma ex_allocated : Sha1.allocated ex_ctx.
Proof. split; [reflexivity | apply Forall_replicate; done]. Qed.

Lemma ex_message_bytes : Forall byte ex_message.
Proof. apply Forall_lookup_2. intros i x Hx%lookup_seqZ. unfold byte. lia. Qed.

Lemma authentication_accepts_witness :
  exists stored r,
    make_scrambled_password ex_ctx (replicate 42 9) (ex_password ++ 0 :: []) = Some stored /\
    get_salt_from_password (replicate 20 0) stored =
      Some (Sha1.Fips.sha1 (Sha1.Fips.sha1 ex_password)) /\
    scramble ex_ctx (replicate 20 0) ex_message (ex_password ++ 0 :: []) = Some r /\
    r = xor (Sha1.Fips.sha1 (take 20 ex_message ++ Sha1.Fips.sha1 (Sha1.Fips.sha1 ex_password)))
          (Sha1.Fips.sha1 ex_password) /\
    check_scramble memcmp_sign ex_ctx r ex_message
      (Sha1.Fips.sha1 (Sha1.Fips.sha1 ex_password)) = Some 0.
Proof.
  apply (authentication_accepts memcmp_sign ex_ctx ex_ctx ex_ctx ex_password [] ex_message
    (replicate 42 9) (replicate 20 0) (replicate 20 0) memcmp_sign_ok
    ex_allocated ex_allocated ex_allocated).
  - repeat constructor; lia.
  - apply Nat.le_refl.
  - apply ex_message_bytes.
  - apply Nat.le_refl.
  - reflexivity.
  - reflexivity.
Defined.

(** [check_scramble] is exact when the values of [memcmp] fit in a [char]:
    it returns 0 precisely for a reply that, decoded with the hash of the
    challenge and the stored value, is a preimage of the stored value.  In
    general it returns the low eight bits of what [memcmp] returns. *)
Theorem check_scramble_exact (memcmp : list Z -> list Z -> Z) (c : Sha1.SHA1_CONTEXT)
    (reply message h2 : list Z)
    (Hcmp : memcmp_ok memcmp) (Hc : Sha1.allocated c)
    (Hm : (20 <= length message)%nat) (Hmb : Forall byte message)
    (Hr : length reply = 20%nat) (Hrb : Forall byte reply)
    (Hh : length h2 = 20%nat) (Hhb : Forall byte h2) :
  let h1 := xor (Sha1.Fips.sha1 (take 20 message ++ h2)) reply in
  exists v, check_scramble memcmp c reply message h2 = Some v /\
    v = s8 (memcmp h2 (Sha1.Fips.sha1 h1)) /\
    ((forall a b, -128 <= memcmp a b <= 127) -> v = 0 <-> Sha1.Fips.sha1 h1 = h2).
Proof.
  intros h1. exists (s8 (memcmp h2 (Sha1.Fips.sha1 h1))).
  split; [exact (check_scramble_spec memcmp c reply message h2 Hc Hm Hmb Hr Hrb Hh Hhb) |].
  split; [done |]. intros Hfit.
  rewrite swrap_small by (simpl; specialize (Hfit h2 (Sha1.Fips.sha1 h1)); lia).
  rewrite memcmp_zero by (done || by rewrite Sha1.sha1_length). split; congruence.
Qed.

Lemma check_scramble_exact_witness :
  exists v, check_scramble memcmp_sign ex_ctx (replicate 20 0) ex_message (replicate 20 1) = Some v /\
    v = s8 (memcmp_sign (replicate 20 1) (Sha1.Fips.sha1
          (xor (Sha1.Fips.sha1 (take 20 ex_message ++ replicate 20 1)) (replicate 20 0)))) /\
    ((forall a b, -128 <= memcmp_sign a b <= 127) ->
     v = 0 <-> Sha1.Fips.sha1 (xor (Sha1.Fips.sha1 (take 20 ex_message ++ replicate 20 1))
       (replicate 20 0)) = replicate 20 1).
Proof.
  apply (check_scramble_exact memcmp_sign ex_ctx (replicate 20 0) ex_message (replicate 20 1)
    memcmp_sign_ok ex_allocated).
  - apply Nat.le_refl.
  - apply ex_message_bytes.
  - reflexivity.
  - apply Forall_replicate. done.
  - reflexivity.
  - apply Forall_replicate. done.
Defined.

(** The result of [memcmp], an [int], is returned as a [char]: with a
    [memcmp] that the standard allows and whose values are multiples of 256,
    a reply of zeros is accepted for a password it does not belong to. *)
Theorem check_scramble_accepts_wrong_reply :
  let h2 := Sha1.Fips.sha1 (Sha1.Fips.sha1 ex_password) in
  memcmp_ok memcmp_256 /\
  check_scramble memcmp_256 ex_ctx (replicate 20 0) ex_message h2 = Some 0 /\
  Sha1.Fips.sha1 (xor (Sha1.Fips.sha1 (take 20 ex_message ++ h2)) (replicate 20 0)) <> h2.
Proof.
  split; [apply memcmp_256_ok |]. split; [vm_compute; reflexivity |].
  vm_compute. intros H. discriminate H.
Qed.

(** ** The old format *)

Lemma digit_08lx v i :
  0 <= i < 8 -> load (sprintf_08lx v) i = Some (at_ _dig_vec_lower ((v / 2 ^ (4 * (7 - i))) mod 16)).
Proof.
  intros Hi. unfold sprintf_08lx, load. rewrite decide_True by lia.
  rewrite list_lookup_fmap, lookup_seqZ_lt by lia. simpl. do 3 f_equal.
  rewrite Z.add_0_l, Z2Nat.id by lia. change 15 with (2 ^ 4 - 1).
  rewrite land_ones_uwrap by lia. by rewrite Z.shiftr_div_pow2 by lia.
Qed.

Lemma salt_word_spec pre v post :
  0 <= v < 2 ^ 32 ->
  salt_word (pre ++ sprintf_08lx v ++ post) (Z.of_nat (length pre)) = Some v.
Proof.
  intros Hv. unfold salt_word.
  match goal with |- for_up ?n 0 ?f ?s0 = _ =>
    destruct (for_up_rule (fun i val => 0 <= i /\ val = v / 2 ^ (4 * (8 - i))) n 0 f s0)
      as (s' & -> & _ & ->) end.
  - split; [done |]. by rewrite Z.div_small by (simpl; lia).
  - intros i t Hi [_ ->]. rewrite load_app, digit_08lx by (simpl; lia). cbn [mbind option_bind].
    rewrite char_val_lower by (apply Z.mod_pos_bound; lia).
    eexists. split; [reflexivity |]. split; [lia |].
    replace (4 * (8 - i)) with (4 * (7 - i) + 4) by lia.
    replace (8 - (i + 1)) with (7 - i) by lia.
    rewrite Z.pow_add_r, <- Z.div_div, Z.shiftl_mul_pow2 by lia. change (2 ^ 4) with 16.
    assert (0 <= v / 2 ^ (4 * (7 - i)) < 2 ^ 32).
    { split; [apply Z.div_pos; lia |]. apply Z.div_lt_upper_bound; [lia |]. nia. }
    set (x := v / 2 ^ (4 * (7 - i))) in *.
    rewrite (uwrap_small 32 (x / 16 * 16)) by (simpl; Zlia).
    rewrite uwrap_small by (simpl; Zlia). Zlia.
  - by rewrite Z.div_1_r.
Qed.

Lemma first_digit_nonzero pre v post :
  exists c, load (pre ++ sprintf_08lx v ++ post) (Z.of_nat (length pre)) = Some c /\ c <> 0.
Proof.
  eexists. rewrite <- (Z.add_0_r (Z.of_nat _)), load_app, digit_08lx by (simpl; lia).
  split; [reflexivity |]. apply lower_nonzero, Z.mod_pos_bound. lia.
Qed.

Lemma get_salt_323_spec s0 s1 post r0 r1 res :
  0 <= s0 < 2 ^ 32 -> 0 <= s1 < 2 ^ 32 ->
  get_salt_from_password_323 (r0 :: r1 :: res)
    (Some (sprintf_08lx s0 ++ sprintf_08lx s1 ++ 0 :: post)) = Some (s0 :: s1 :: res).
Proof.
  intros H0 H1. unfold get_salt_from_password_323.
  set (pw := sprintf_08lx s0 ++ sprintf_08lx s1 ++ 0 :: post).
  assert (S0 : forall a b v, store (a :: b :: res) 0 v = Some (v :: b :: res))
    by (intros; by rewrite store_in by (simpl; lia)).
  assert (S1 : forall a b v, store (a :: b :: res) 1 v = Some (a :: v :: res))
    by (intros; by rewrite store_in by (simpl; lia)).
  rewrite S1. cbn [mbind option_bind]. rewrite S0. cbn [mbind option_bind].
  assert (Hpw : (16 <= length pw)%nat) by (unfold pw; rewrite !length_app; simpl; lia).
  assert (Hn : exists n, length pw = S (S (S n))) by (exists (length pw - 3)%nat; lia).
  destruct Hn as [n ->].
  destruct (first_digit_nonzero [] s0 (sprintf_08lx s1 ++ 0 :: post)) as (c0 & E0 & Hc0).
  destruct (first_digit_nonzero (sprintf_08lx s0) s1 (0 :: post)) as (c1 & E1 & Hc1).
  pose proof (salt_word_spec [] s0 (sprintf_08lx s1 ++ 0 :: post) H0) as W0.
  pose proof (salt_word_spec (sprintf_08lx s0) s1 (0 :: post) H1) as W1.
  change (Z.of_nat (length (sprintf_08lx s0))) with 8 in *. fold pw in E1, W1.
  change (load pw 0 = Some c0) in E0. change (salt_word pw 0 = Some s0) in W0.
  assert (E2 : load pw 16 = Some 0) by reflexivity.
  cbn [while_]. rewrite E0. cbn [mbind option_bind]. rewrite bool_decide_true by done.
  rewrite W0. cbn [mbind option_bind]. rewrite S0. cbn [mbind option_bind].
  change (0 + 8) with 8. rewrite E1. cbn [mbind option_bind]. rewrite bool_decide_true by done.
  rewrite W1. cbn [mbind option_bind]. rewrite S1. cbn [mbind option_bind].
  change (8 + 8) with 16. rewrite E2. done.
Qed.

(** A stored password decodes to the salt it was made from, in both formats:
    [get_salt_from_password] of what [make_password_from_salt] writes is the
    salt (20 bytes), [get_salt_from_password_323] of what
    [make_password_from_salt_323] writes is the two 32-bit words, and the null
    password decodes to two zeros. *)
Theorem salt_roundtrip (salt to buf to3 res : list Z) (s0 s1 : Z)
    (Hs : length salt = 20%nat) (Hsb : Forall byte salt)
    (Ht : length to = 42%nat) (Hb : length buf = 20%nat)
    (H0 : 0 <= s0 < 2 ^ 32) (H1 : 0 <= s1 < 2 ^ 32)
    (Ht3 : length to3 = 17%nat) (Hr : length res = 2%nat) :
  (exists str, make_password_from_salt to salt = Some str /\ load str 41 = Some 0 /\
               get_salt_from_password buf str = Some salt) /\
  (exists str, make_password_from_salt_323 to3 [s0; s1] = Some str /\ load str 16 = Some 0 /\
               get_salt_from_password_323 res (Some str) = Some [s0; s1]) /\
  get_salt_from_password_323 res None = Some [0; 0].
Proof.
  destruct res as [| r0 [| r1 [|]]]; try done. split_and!; [| | done].
  - unfold make_password_from_salt. destruct to as [| x0 to]; [done |].
    destruct (exists_last (l := to)) as (t & y & ->); [by destruct to |].
    simpl in Ht. rewrite length_app in Ht. simpl in Ht.
    exists ([PVERSION41_CHAR] ++ hex salt ++ [0]).
    rewrite store_in by (simpl; lia). cbn [mbind option_bind].
    change (<[Z.to_nat 0 := PVERSION41_CHAR]> (x0 :: t ++ [y])) with ([PVERSION41_CHAR] ++ t ++ y :: []).
    pose proof (octet2hex_spec [PVERSION41_CHAR] t y [] salt) as H8. rewrite Hs in H8.
    change (Z.of_nat (length [PVERSION41_CHAR])) with 1 in H8.
    change (Z.of_nat 20) with SHA1_HASH_SIZE in H8. rewrite H8 by (done || lia).
    split; [done |]. split.
    { rewrite app_assoc. change 41 with (Z.of_nat 41). rewrite load_nat, lookup_app_r;
        rewrite length_app, length_hex, Hs; done. }
    pose proof (hex2octet_spec [PVERSION41_CHAR] salt [0] buf []) as H9.
    rewrite Hs, !app_nil_r in H9. by apply H9.
  - exists (sprintf_08lx s0 ++ sprintf_08lx s1 ++ [0]). split_and!.
    + unfold make_password_from_salt_323, sprintf_pair. cbn [load mbind option_bind].
      pose proof (write_app_0 to3 (sprintf_08lx s0 ++ sprintf_08lx s1 ++ [0]) []) as Hw.
      rewrite !app_nil_r in Hw. rewrite <- Hw by done. reflexivity.
    + done.
    + by apply get_salt_323_spec.
Qed.

Lemma salt_roundtrip_witness :
  (exists str, make_password_from_salt (replicate 42 7) (seqZ 100 20) = Some str /\ load str 41 = Some 0 /\
               get_salt_from_password (replicate 20 0) str = Some (seqZ 100 20)) /\
  (exists str, make_password_from_salt_323 (replicate 17 7) [5; 4294967295] = Some str /\
               load str 16 = Some 0 /\
               get_salt_from_password_323 [1; 1] (Some str) = Some [5; 4294967295]) /\
  get_salt_from_password_323 [1; 1] None = Some [0; 0].
Proof.
  apply (salt_roundtrip (seqZ 100 20) (replicate 42 7) (replicate 20 0) (replicate 17 7) [1; 1]);
    try reflexivity; try lia.
  apply Forall_lookup_2. intros i x Hx%lookup_seqZ. unfold byte. lia.
Defined.

(** The loop of [hash_password] as a fold, and the characters it skips. *)
Definition blank (c : Z) : bool := bool_decide (c = 32) || bool_decide (c = 9).

Lemma hash_password_fold p n s :
  0 <= n <= Z.of_nat (length p) ->
  for_up (Z.to_nat n) 0 (fun i s => c ← load p i; Some (hash_char c s)) s =
  Some (foldl (fun s c => hash_char c s) s (take (Z.to_nat n) p)).
Proof.
  intros Hn.
  destruct (for_up_rule (fun i t => 0 <= i /\
      t = foldl (fun s c => hash_char c s) s (take (Z.to_nat i) p)) (Z.to_nat n) 0
      (fun i s => c ← load p i; Some (hash_char c s)) s) as (t & -> & _ & ->); [done | |].
  - intros i t Hi [_ ->]. destruct (lookup_lt_is_Some_2 p (Z.to_nat i)) as [c Hc]; [lia |].
    unfold load. rewrite decide_True, Hc by lia. eexists. split; [done |]. split; [lia |].
    replace (Z.to_nat (i + 1)) with (S (Z.to_nat i)) by lia.
    by rewrite (take_S_r p _ c Hc), foldl_app.
  - by rewrite Z.add_0_l, Z2Nat.id by lia.
Qed.

Lemma hash_fold_filter p s :
  foldl (fun s c => hash_char c s) s p =
  foldl (fun s c => hash_char c s) s (List.filter (fun c => negb (blank c)) p).
Proof.
  revert s; induction p as [| c p IH]; intros s; [done |]. cbn [foldl List.filter].
  destruct (blank c) eqn:E; cbn [negb foldl]; [| apply IH].
  assert (hash_char c s = s) as ->; [| apply IH].
  unfold hash_char. destruct s as [[nr add] nr2]. unfold blank in E. by rewrite E.
Qed.

(** The old hash does not depend on spaces and tabs: a password and the same
    password without them have the same hash, and both words of a hash are
    below [2^31]. *)
Theorem hash_password_blanks (p : list Z) :
  exists a b,
    hash_password p (Z.of_nat (length p)) = Some (a, b) /\
    0 <= a < 2 ^ 31 /\ 0 <= b < 2 ^ 31 /\
    let q := List.filter (fun c => negb (blank c)) p in
    hash_password q (Z.of_nat (length q)) = Some (a, b).
Proof.
  unfold hash_password. rewrite !hash_password_fold by lia. rewrite !Nat2Z.id, !firstn_all.
  rewrite (hash_fold_filter p). cbn [mbind option_bind].
  destruct (foldl _ _ _) as [[nr add] nr2]. eexists _, _. split; [reflexivity |].
  rewrite !land_ones_uwrap by lia. split_and!; try apply uwrap_range; try lia. reflexivity.
Qed.
End Password.
