(* ===== verification/MyTime.v ===== *)
(** * MyTime: dates and times as numbers

    [libmysql/my_time.c], [include/my_time.h] and [include/mysql_time.h]: validity
    of dates, day numbers, packed decimal numbers and seconds since the epoch.
    [long], [time_t] and [int] have 32 bits.  A pointer argument that is written is
    an extra component of the result; [localtime_r] is an argument. *)
From stdpp Require Import base tactics option list numbers.
From Stdlib Require Import ZArith Lia.
From S2P Require Import Prelude.

Module MyTime.

(** ** Model *)

Inductive enum_mysql_timestamp_type :=
| MYSQL_TIMESTAMP_NONE
| MYSQL_TIMESTAMP_ERROR
| MYSQL_TIMESTAMP_DATE
| MYSQL_TIMESTAMP_DATETIME
| MYSQL_TIMESTAMP_TIME.

#[global] Instance timestamp_type_eq_dec : EqDecision enum_mysql_timestamp_type.
Proof. solve_decision. Defined.

Record MYSQL_TIME := mk_time {
  year : Z; month : Z; day : Z; hour : Z; minute : Z; second : Z;
  second_part : Z;
  neg : Z;
  time_type : enum_mysql_timestamp_type;
}.

Definition YY_PART_YEAR : Z := 70.
Definition TIMESTAMP_MAX_YEAR : Z := 2038.
Definition TIMESTAMP_MIN_YEAR : Z := 1900 + YY_PART_YEAR - 1.
Definition TIMESTAMP_MAX_VALUE : Z := 2 ^ 31 - 1.
Definition TIMESTAMP_MIN_VALUE : Z := 1.
Definition TIME_FUZZY_DATE : Z := 1.
Definition TIME_DATETIME_ONLY : Z := 2.
Definition TIME_NO_ZERO_IN_DATE : Z := 65536 * 2 * 2 * 2 * 2 * 2 * 2 * 2.
Definition TIME_NO_ZERO_DATE : Z := TIME_NO_ZERO_IN_DATE * 2.
Definition TIME_INVALID_DATES : Z := TIME_NO_ZERO_DATE * 2.
Definition MYSQL_TIME_WARN_TRUNCATED : Z := 1.
Definition MYSQL_TIME_WARN_OUT_OF_RANGE : Z := 2.
Definition TIME_MAX_HOUR : Z := 838.
Definition TIME_MAX_MINUTE : Z := 59.
Definition TIME_MAX_SECOND : Z := 59.

Definition log_10_int : list Z := (fun i => 10 ^ i) <$> seqZ 0 20.
Definition days_at_timestart : Z := 719528.
Definition days_in_month : list Z := [31; 28; 31; 30; 31; 30; 31; 31; 30; 31; 30; 31; 0].

Definition calc_days_in_year (year : Z) : Z :=
  if bool_decide (year &&& 3 = 0) &&
     (bool_decide (year mod 100 <> 0) || (bool_decide (year mod 400 = 0) && bool_decide (year <> 0)))
  then 366 else 365.

(** A bit of [flags]. *)
Definition flag (flags bit : Z) : bool := bool_decide (flags &&& bit <> 0).

(** The result is TRUE for an error; [was_cut] is a pointer argument. *)
Definition check_date (ltime : MYSQL_TIME) (not_zero_date : bool) (flags was_cut : Z)
  : option (bool * Z) :=
  if not_zero_date then
    if (flag flags TIME_NO_ZERO_IN_DATE || negb (flag flags TIME_FUZZY_DATE)) &&
       (bool_decide (month ltime = 0) || bool_decide (day ltime = 0))
    then Some (true, 2)
    else if negb (flag flags TIME_INVALID_DATES) && bool_decide (month ltime <> 0) then
      n ← load days_in_month (month ltime - 1);
      if bool_decide (day ltime > n) &&
         (bool_decide (month ltime <> 2) || bool_decide (calc_days_in_year (year ltime) <> 366) ||
          bool_decide (day ltime <> 29))
      then Some (true, 2) else Some (false, was_cut)
    else Some (false, was_cut)
  else if flag flags TIME_NO_ZERO_DATE then Some (true, was_cut)
  else Some (false, was_cut).

(** The error code, the time and the warnings; [24 * day] is [unsigned int]. *)
Definition check_time_range (my_time : MYSQL_TIME) (warning : Z) : Z * MYSQL_TIME * Z :=
  if bool_decide (minute my_time >= 60) || bool_decide (second my_time >= 60)
  then (1, my_time, warning)
  else
    let h := u32 (hour my_time + u32 (24 * day my_time)) in
    if bool_decide (h <= TIME_MAX_HOUR) &&
       (bool_decide (h <> TIME_MAX_HOUR) || bool_decide (minute my_time <> TIME_MAX_MINUTE) ||
        bool_decide (second my_time <> TIME_MAX_SECOND) || bool_decide (second_part my_time = 0))
    then (0, my_time, warning)
    else
      (0, {| year := year my_time; month := month my_time; day := 0; hour := TIME_MAX_HOUR;
             minute := TIME_MAX_MINUTE; second := TIME_MAX_SECOND; second_part := 0;
             neg := neg my_time; time_type := time_type my_time |},
       warning ||| MYSQL_TIME_WARN_OUT_OF_RANGE).

Definition year_2000_handling (year : Z) : Z :=
  let year := u32 (year + 1900) in
  if bool_decide (year < 1900 + YY_PART_YEAR) then u32 (year + 100) else year.

(** [/] of [int] truncates towards zero. *)
Definition calc_daynr (year month day : Z) : Z :=
  let y := s32 year in
  if bool_decide (y = 0) && bool_decide (month = 0) && bool_decide (day = 0) then 0
  else
    let delsum := s32 (365 * y + 31 * (month - 1) + day) in
    let '(y, delsum) :=
      if bool_decide (month <= 2) then (s32 (y - 1), delsum)
      else (y, s32 (delsum - Z.quot (s32 (month * 4 + 23)) 10)) in
    let temp := Z.quot (s32 ((Z.quot y 100 + 1) * 3)) 4 in
    s32 (delsum + Z.quot y 4 - temp).

(** TRUE when the value seems to be in range. *)
Definition validate_timestamp_range (t : MYSQL_TIME) : bool :=
  negb ((bool_decide (year t > TIMESTAMP_MAX_YEAR) || bool_decide (year t < TIMESTAMP_MIN_YEAR)) ||
        (bool_decide (year t = TIMESTAMP_MAX_YEAR) &&
         (bool_decide (month t > 1) || bool_decide (day t > 19))) ||
        (bool_decide (year t = TIMESTAMP_MIN_YEAR) &&
         (bool_decide (month t < 12) || bool_decide (day t < 31)))).

(** The fields of [struct tm] that are used. *)
Record tm := mk_tm { tm_mday : Z; tm_hour : Z; tm_min : Z; tm_sec : Z }.

(** The difference in seconds between [t] and the local time, days that are
    more than one apart being in neighbouring months. *)
Definition time_diff (t : MYSQL_TIME) (l : tm) : Z :=
  let days := s32 (day t - tm_mday l) in
  let days := if bool_decide (days < -1) then 1
              else if bool_decide (days > 1) then -1 else days in
  s32 (3600 * (days * 24 + (hour t - tm_hour l)) + 60 * (minute t - tm_min l) + (second t - tm_sec l)).

(** The correction loop: [n] passes are left; the last component is the value
    of [loop]. *)
Fixpoint adjust_loop (localtime_r : Z -> tm) (t : MYSQL_TIME) (n : nat) (loop tmp zone : Z) (l : tm)
  : Z * Z * tm * Z :=
  match n with
  | O => (tmp, zone, l, loop)
  | S n =>
      if bool_decide (hour t <> tm_hour l) || bool_decide (minute t <> tm_min l) ||
         bool_decide (second t <> tm_sec l)
      then
        let diff := time_diff t l in
        let zone := s32 (zone + (diff + 3600)) in
        let tmp := s32 (tmp + diff) in
        adjust_loop localtime_r t n (loop + 1) tmp zone (localtime_r tmp)
      else (tmp, zone, l, loop)
  end.

Definition with_day (t : MYSQL_TIME) (d : Z) : MYSQL_TIME :=
  {| year := year t; month := month t; day := d; hour := hour t; minute := minute t;
     second := second t; second_part := second_part t; neg := neg t; time_type := time_type t |}.

(** The seconds, and what [my_timezone] and [in_dst_time_gap] point to;
    [my_time_zone] is a global variable. *)
Definition my_system_gmt_sec (localtime_r : Z -> tm) (my_time_zone : Z) (t_src : MYSQL_TIME)
    (my_timezone in_dst_time_gap : Z) : Z * Z * Z :=
  let t := t_src in
  if negb (validate_timestamp_range t) then (0, my_timezone, in_dst_time_gap)
  else
    let '(t, shift) :=
      if bool_decide (year t = TIMESTAMP_MAX_YEAR) && bool_decide (month t = 1) && bool_decide (day t > 4)
      then (with_day t (day t - 2), 2) else (t, 0) in
    let tmp := s32 ((calc_daynr (year t) (month t) (day t) - days_at_timestart) * 86400 +
                    hour t * 3600 + (minute t * 60 + second t) + my_time_zone - 3600) in
    let '(tmp, zone, l, loop) := adjust_loop localtime_r t 2 0 tmp my_time_zone (localtime_r tmp) in
    let '(tmp, gap) :=
      if bool_decide (loop = 2) && bool_decide (hour t <> tm_hour l)
      then
        let diff := time_diff t l in
        let tmp := if bool_decide (diff = 3600) then s32 (tmp + (3600 - minute t * 60 - second t))
                   else if bool_decide (diff = -3600) then s32 (tmp - (minute t * 60 + second t))
                   else tmp in
        (tmp, 1)
      else (tmp, in_dst_time_gap) in
    let tmp := s32 (tmp + shift * 86400) in
    let tmp := if bool_decide (tmp < TIMESTAMP_MIN_VALUE) || bool_decide (tmp > TIMESTAMP_MAX_VALUE)
               then 0 else tmp in
    (tmp, zone, gap).

Definition set_zero_time (ty : enum_mysql_timestamp_type) : MYSQL_TIME :=
  mk_time 0 0 0 0 0 0 0 0 ty.

(** The label [ok]: [nr] split into its decimal parts, [part1] and [part2] being
    [long].  The result is the number, the time and [was_cut]. *)
Definition split_number (nr : Z) (ty : enum_mysql_timestamp_type) (flags : Z)
  : option (Z * MYSQL_TIME * Z) :=
  let part1 := s32 (Z.quot nr 1000000) in
  let part2 := s32 (nr - part1 * 1000000) in
  let part1' := Z.rem part1 10000 in
  let part2' := Z.rem part2 10000 in
  let t := {| year := u32 (Z.quot part1 10000);
              month := u32 (Z.quot part1' 100);
              day := u32 (Z.rem part1' 100);
              hour := u32 (Z.quot part2 10000);
              minute := u32 (Z.quot part2' 100);
              second := u32 (Z.rem part2' 100);
              second_part := 0; neg := 0; time_type := ty |} in
  '(bad, was_cut) ←
    (if bool_decide (year t <= 9999) && bool_decide (month t <= 12) && bool_decide (day t <= 31) &&
        bool_decide (hour t <= 23) && bool_decide (minute t <= 59) && bool_decide (second t <= 59)
     then check_date t (bool_decide (nr <> 0)) flags 0
     else Some (true, 0));
  if (bad : bool) then
    if bool_decide (nr = 0) && flag flags TIME_NO_ZERO_DATE then Some (-1, t, was_cut)
    else Some (-1, t, 1)
  else Some (nr, t, was_cut).

Definition number_to_datetime (nr flags : Z) : option (Z * MYSQL_TIME * Z) :=
  let err ty := Some (-1, set_zero_time ty, 1) in
  let DATE := MYSQL_TIMESTAMP_DATE in
  let DATETIME := MYSQL_TIMESTAMP_DATETIME in
  if bool_decide (nr = 0) || bool_decide (nr >= 10000101000000) then split_number nr DATETIME flags
  else if bool_decide (nr < 101) then err DATE
  else if bool_decide (nr <= (YY_PART_YEAR - 1) * 10000 + 1231)
       then split_number ((nr + 20000000) * 1000000) DATE flags
  else if bool_decide (nr < YY_PART_YEAR * 10000 + 101) then err DATE
  else if bool_decide (nr <= 991231) then split_number ((nr + 19000000) * 1000000) DATE flags
  else if bool_decide (nr < 10000101) then err DATE
  else if bool_decide (nr <= 99991231) then split_number (nr * 1000000) DATE flags
  else if bool_decide (nr < 101000000) then err DATE
  else if bool_decide (nr <= (YY_PART_YEAR - 1) * 10000000000 + 1231235959)
       then split_number (nr + 20000000000000) DATETIME flags
  else if bool_decide (nr < YY_PART_YEAR * 10000000000 + 101000000) then err DATETIME
  else if bool_decide (nr <= 991231235959) then split_number (nr + 19000000000000) DATETIME flags
  else split_number nr DATETIME flags.

(** The sums in parentheses are [unsigned long]. *)
Definition TIME_to_ulonglong_datetime (t : MYSQL_TIME) : Z :=
  u64 (u32 (year t * 10000 + month t * 100 + day t) * 1000000 +
       u32 (hour t * 10000 + minute t * 100 + second t)).

Definition TIME_to_ulonglong_date (t : MYSQL_TIME) : Z :=
  u32 (year t * 10000 + month t * 100 + day t).

Definition TIME_to_ulonglong_time (t : MYSQL_TIME) : Z :=
  u32 (hour t * 10000 + minute t * 100 + second t).

Definition TIME_to_ulonglong (t : MYSQL_TIME) : Z :=
  match time_type t with
  | MYSQL_TIMESTAMP_DATETIME => TIME_to_ulonglong_datetime t
  | MYSQL_TIMESTAMP_DATE => TIME_to_ulonglong_date t
  | MYSQL_TIMESTAMP_TIME => TIME_to_ulonglong_time t
  | MYSQL_TIMESTAMP_NONE | MYSQL_TIMESTAMP_ERROR => 0
  end.

(** ** The calendar *)

Definition leap (y : Z) : bool := bool_decide (calc_days_in_year y = 366).

(** The days of month [m] of year [y]. *)
Definition month_days (y m : Z) : Z :=
  at_ days_in_month (m - 1) + (if bool_decide (m = 2) && leap y then 1 else 0).

Definition valid_date (y m d : Z) : Prop := 1 <= m <= 12 /\ 1 <= d <= month_days y m.

Definition sum (f : Z -> Z) (n : nat) : Z := foldr (fun k s => f (Z.of_nat k) + s) 0 (seq 0 n).

(** The day number by counting: the years before, the months before, the day. *)
Definition count_days (y m d : Z) : Z :=
  sum calc_days_in_year (Z.to_nat y) + sum (fun k => month_days y (k + 1)) (Z.to_nat (m - 1)) + d.

Lemma sum_S f n : sum f (S n) = sum f n + f (Z.of_nat n).
Proof.
  unfold sum. rewrite seq_S, Nat.add_0_l, foldr_app. cbn [foldr]. generalize (seq 0 n). intros l.
  generalize (f (Z.of_nat n)). intros v. induction l as [| k l IH]; cbn [foldr]; lia.
Qed.

(** The Gregorian rule, except that the year 0 has 365 days. *)
Lemma calc_days_in_year_spec y :
  0 <= y ->
  calc_days_in_year y = 365 + (y / 4 - (y - 1) / 4) - (y / 100 - (y - 1) / 100) + (y / 400 - (y - 1) / 400)
                        - (if bool_decide (y = 0) then 1 else 0).
Proof.
  intros Hy. unfold calc_days_in_year. change 3 with (2 ^ 2 - 1). rewrite land_ones_uwrap by lia.
  unfold uwrap. change (2 ^ 2) with 4.
  destruct (decide (y = 0)) as [-> |]; [done |]. rewrite (bool_decide_false (y = 0)) by done.
  rewrite (bool_decide_true (y <> 0)) by done.
  repeat case_bool_decide; simpl; Zlia.
Qed.

Lemma years_before y :
  0 <= y ->
  sum calc_days_in_year (Z.to_nat y) =
  365 * y + (if bool_decide (y = 0) then 0 else (y - 1) / 4 - (y - 1) / 100 + (y - 1) / 400).
Proof.
  intros Hy. pattern y. apply natlike_ind; [done | | done]. clear y Hy. intros y Hy IH.
  rewrite Z2Nat.inj_succ, sum_S, IH, Z2Nat.id, calc_days_in_year_spec by done.
  rewrite (bool_decide_false (Z.succ y = 0)) by lia.
  replace (Z.succ y - 1) with y by lia.
  destruct (decide (y = 0)) as [-> |]; [done |].
  rewrite !(bool_decide_false (y = 0)) by lia. lia.
Qed.

Lemma calc_days_cases y : calc_days_in_year y = 365 \/ calc_days_in_year y = 366.
Proof. unfold calc_days_in_year. destruct (_ && _); auto. Qed.

Lemma month_cases (P : Z -> Prop) m :
  P 1 -> P 2 -> P 3 -> P 4 -> P 5 -> P 6 -> P 7 -> P 8 -> P 9 -> P 10 -> P 11 -> P 12 ->
  1 <= m <= 12 -> P m.
Proof.
  intros. assert (Hc : m = 1 \/ m = 2 \/ m = 3 \/ m = 4 \/ m = 5 \/ m = 6 \/ m = 7 \/ m = 8 \/
    m = 9 \/ m = 10 \/ m = 11 \/ m = 12) by lia.
  by repeat destruct Hc as [-> | Hc]; subst.
Qed.

Lemma months_before y m :
  1 <= m <= 12 ->
  sum (fun k => month_days y (k + 1)) (Z.to_nat (m - 1)) =
  at_ [0; 31; 59; 90; 120; 151; 181; 212; 243; 273; 304; 334] (m - 1) +
  (if bool_decide (m > 2) && leap y then 1 else 0).
Proof.
  intros Hm. unfold month_days. destruct (leap y); pattern m; apply month_cases;
    (exact Hm || reflexivity).
Qed.

Lemma s32_small x : -2147483648 <= x < 2147483648 -> s32 x = x.
Proof. intros. apply swrap_small; [lia | exact H]. Qed.

(** The polynomial of [calc_daynr], without wrap-around. *)
Lemma calc_daynr_unwrapped y m d :
  0 <= y <= 9999 -> 1 <= m <= 12 -> 1 <= d <= 31 ->
  calc_daynr y m d =
  (let y' := if bool_decide (m <= 2) then y - 1 else y in
   365 * y + 31 * (m - 1) + d - (if bool_decide (m <= 2) then 0 else (m * 4 + 23) / 10) +
   Z.quot y' 4 - Z.quot ((Z.quot y' 100 + 1) * 3) 4).
Proof.
  intros Hy Hm Hd. unfold calc_daynr. rewrite (s32_small y) by lia.
  rewrite (bool_decide_false (m = 0)) by lia. rewrite andb_false_r. cbn [andb].
  rewrite (s32_small (365 * y + _ + _)) by lia. case_bool_decide; cbv zeta.
  - rewrite (s32_small (y - 1)) by lia.
    assert (-1 <= Z.quot (y - 1) 100 <= 99) by (Z.quot_rem_to_equations; lia).
    assert (-1 <= Z.quot (y - 1) 4 <= 2499) by (Z.quot_rem_to_equations; lia).
    rewrite (s32_small ((_ + 1) * 3)) by lia.
    assert (0 <= Z.quot ((Z.quot (y - 1) 100 + 1) * 3) 4 <= 75) by (Z.quot_rem_to_equations; lia).
    rewrite s32_small by lia. lia.
  - assert (0 <= Z.quot y 100 <= 99) by (Z.quot_rem_to_equations; lia).
    assert (0 <= Z.quot y 4 <= 2499) by (Z.quot_rem_to_equations; lia).
    rewrite (s32_small (m * 4 + 23)) by lia.
    rewrite (Z.quot_div_nonneg (m * 4 + 23)) by lia.
    assert (0 <= (m * 4 + 23) / 10 <= 7) by Zlia.
    rewrite (s32_small (365 * y + 31 * (m - 1) + d - _)) by lia.
    rewrite (s32_small ((_ + 1) * 3)) by lia.
    assert (0 <= Z.quot ((Z.quot y 100 + 1) * 3) 4 <= 75) by (Z.quot_rem_to_equations; lia).
    rewrite s32_small by lia. lia.
Qed.

Lemma month_days_bound y m : 1 <= m <= 12 -> 28 <= month_days y m <= 31.
Proof.
  intros Hm. unfold month_days. destruct (leap y); pattern m; apply month_cases;
    (exact Hm || (vm_compute; split; congruence)).
Qed.

(** The correction for centuries. *)
Lemma century_term n : 0 <= n -> Z.quot ((Z.quot n 100 + 1) * 3) 4 = n / 100 - n / 400.
Proof.
  intros Hn. rewrite (Z.quot_div_nonneg n) by lia.
  assert (0 <= n / 100) by (apply Z.div_pos; lia).
  rewrite Z.quot_div_nonneg by lia. change 400 with (100 * 4). rewrite <- Z.div_div by lia. Zlia.
Qed.

Lemma leap_indicator y :
  0 <= y -> (if leap y then 1 else 0) = calc_days_in_year y - 365.
Proof.
  intros Hy. unfold leap. destruct (calc_days_cases y) as [-> | ->]; done.
Qed.

(** The month term of the polynomial. *)
Lemma month_term m :
  1 <= m <= 12 ->
  at_ [0; 31; 59; 90; 120; 151; 181; 212; 243; 273; 304; 334] (m - 1) =
  31 * (m - 1) - (if bool_decide (m <= 2) then 0 else (m * 4 + 23) / 10).
Proof. intros Hm. pattern m. apply month_cases; (exact Hm || reflexivity). Qed.

Lemma calc_daynr_count y m d :
  0 <= y <= 9999 -> valid_date y m d -> calc_daynr y m d = count_days y m d.
Proof.
  intros Hy [Hm Hd]. pose proof (month_days_bound y m Hm).
  rewrite calc_daynr_unwrapped by lia. unfold count_days.
  rewrite years_before, months_before, month_term by lia. cbv zeta.
  assert (Hl : (if bool_decide (m > 2) && leap y then 1 else 0) =
    (if bool_decide (m <= 2) then 0 else calc_days_in_year y - 365)).
  { rewrite <- leap_indicator by lia. repeat case_bool_decide; simpl; lia || done. }
  rewrite Hl, calc_days_in_year_spec by lia.
  destruct (decide (y = 0)) as [-> |].
  - change (365 * 0) with 0. assert (E1 : Z.quot (0 - 1) 4 = 0) by done.
    assert (E2 : Z.quot ((Z.quot (0 - 1) 100 + 1) * 3) 4 = 0) by done.
    assert (E3 : Z.quot 0 4 = 0) by done. assert (E4 : Z.quot ((Z.quot 0 100 + 1) * 3) 4 = 0) by done.
    rewrite (bool_decide_true (0 = 0)) by done.
    destruct (bool_decide (m <= 2)); rewrite ?E1, ?E2, ?E3, ?E4; Zlia.
  - rewrite !(bool_decide_false (y = 0)) by lia. destruct (bool_decide (m <= 2)).
    + rewrite century_term, Z.quot_div_nonneg by lia. lia.
    + rewrite century_term, Z.quot_div_nonneg by lia. lia.
Qed.

(** Day numbers order the valid dates. *)
Definition date_lt (y m d y' m' d' : Z) : Prop :=
  y < y' \/ (y = y' /\ (m < m' \/ (m = m' /\ d < d'))).

Lemma sum_months_year y : 0 <= y -> sum (fun k => month_days y (k + 1)) 12 = calc_days_in_year y.
Proof.
  intros Hy. pose proof (leap_indicator y Hy) as Hl. rewrite sum_S.
  change 11%nat with (Z.to_nat (12 - 1)) at 1. rewrite months_before by lia.
  change (bool_decide (12 > 2) && leap y) with (leap y). rewrite Hl.
  change (at_ _ _) with 334. change (month_days y (Z.of_nat 11 + 1)) with (31 + 0). lia.
Qed.

Lemma sum_mono f n n' : (forall k, 0 <= k -> 0 <= f k) -> (n <= n')%nat -> sum f n <= sum f n'.
Proof.
  intros Hf. induction 1 as [| n' _ IH]; [lia |]. rewrite sum_S. specialize (Hf (Z.of_nat n')). lia.
Qed.

Lemma count_days_lt y m d y' m' d' :
  0 <= y -> 0 <= y' -> valid_date y m d -> valid_date y' m' d' ->
  date_lt y m d y' m' d' -> count_days y m d < count_days y' m' d'.
Proof.
  intros Hy Hy' [Hm Hd] [Hm' Hd'] Hlt. unfold count_days.
  assert (Hpos : forall y k, 0 <= k < 12 -> 28 <= month_days y (k + 1)).
  { intros. apply month_days_bound. lia. }
  assert (Hms : forall y n, (n <= 12)%nat -> 0 <= sum (fun k => month_days y (k + 1)) n).
  { intros z n Hn. induction n as [| n IH]; [done |]. rewrite sum_S.
    specialize (Hpos z (Z.of_nat n)). lia. }
  assert (Hmm : forall y n n', (n <= n' <= 12)%nat ->
    sum (fun k => month_days y (k + 1)) n <= sum (fun k => month_days y (k + 1)) n').
  { intros z n n' [Hn Hn']. induction Hn as [| n' Hn IH]; [lia |]. rewrite sum_S.
    specialize (Hpos z (Z.of_nat n')). lia. }
  assert (Hs : forall y m, 1 <= m -> sum (fun k => month_days y (k + 1)) (S (Z.to_nat (m - 1))) =
    sum (fun k => month_days y (k + 1)) (Z.to_nat (m - 1)) + month_days y m).
  { intros z k Hk. rewrite sum_S. do 2 f_equal. lia. }
  destruct Hlt as [Hlt | [-> [Hlt | [-> Hlt]]]]; [| | lia].
  - pose proof (sum_mono calc_days_in_year (S (Z.to_nat y)) (Z.to_nat y')) as Hyy.
    rewrite sum_S, Z2Nat.id in Hyy by lia.
    assert (sum calc_days_in_year (Z.to_nat y) + calc_days_in_year y <=
            sum calc_days_in_year (Z.to_nat y')).
    { apply Hyy; [intros k _; destruct (calc_days_cases k); lia | lia]. }
    pose proof (Hmm y (S (Z.to_nat (m - 1))) 12%nat ltac:(lia)) as H1.
    rewrite sum_months_year, Hs in H1 by lia.
    pose proof (Hms y' (Z.to_nat (m' - 1)) ltac:(lia)). lia.
  - pose proof (Hmm y' (S (Z.to_nat (m - 1))) (Z.to_nat (m' - 1)) ltac:(lia)) as H1.
    rewrite Hs in H1 by lia. lia.
Qed.

Lemma daynr_lt y m d y' m' d' :
  0 <= y <= 9999 -> 0 <= y' <= 9999 -> valid_date y m d -> valid_date y' m' d' ->
  date_lt y m d y' m' d' <-> calc_daynr y m d < calc_daynr y' m' d'.
Proof.
  intros Hy Hy' Hv Hv'. rewrite !calc_daynr_count by done.
  split; [apply count_days_lt; (done || lia) |]. intros Hlt.
  assert (Hc : date_lt y m d y' m' d' \/ date_lt y' m' d' y m d \/ (y = y' /\ m = m' /\ d = d'))
    by (unfold date_lt; lia).
  destruct Hc as [| [Hgt | (-> & -> & ->)]]; [done | | lia].
  apply count_days_lt in Hgt; (done || lia).
Qed.

(** ** Validity and numbers *)

(** The date and the time of day, without the microseconds. *)
Definition set_in_range (t : MYSQL_TIME) : Prop :=
  0 <= year t <= 9999 /\ 0 <= month t <= 12 /\ 0 <= day t <= 31 /\
  0 <= hour t <= 23 /\ 0 <= minute t <= 59 /\ 0 <= second t <= 59.

(** What [check_date] refuses in a date that is not zero. *)
Definition bad_date (flags y m d : Z) : bool :=
  ((flag flags TIME_NO_ZERO_IN_DATE || negb (flag flags TIME_FUZZY_DATE)) &&
   (bool_decide (m = 0) || bool_decide (d = 0))) ||
  (negb (flag flags TIME_INVALID_DATES) && bool_decide (m <> 0) && bool_decide (d > month_days y m)).

Lemma too_long_spec y m d n :
  1 <= m <= 12 -> n = at_ days_in_month (m - 1) ->
  bool_decide (d > n) &&
    (bool_decide (m <> 2) || bool_decide (calc_days_in_year y <> 366) || bool_decide (d <> 29)) =
  bool_decide (d > month_days y m).
Proof.
  intros Hm ->. unfold month_days, leap.
  destruct (decide (m = 2)) as [-> |].
  - change (at_ days_in_month (2 - 1)) with 28.
    rewrite (bool_decide_true (2 = 2)), (bool_decide_false (2 <> 2)) by (done || tauto). cbn [andb orb].
    destruct (calc_days_cases y) as [-> | ->].
    + rewrite (bool_decide_true (365 <> 366)), (bool_decide_false (365 = 366)) by done.
      cbn [orb]. by rewrite andb_true_r.
    + rewrite (bool_decide_false (366 <> 366)), (bool_decide_true (366 = 366)) by (done || tauto).
      change (28 + 1) with 29. destruct (decide (d > 28)), (decide (d = 29)); by bdec || lia.
  - rewrite (bool_decide_true (m <> 2)), (bool_decide_false (m = 2)) by done. cbn.
    by rewrite andb_true_r, Z.add_0_r.
Qed.

Lemma check_date_spec t nz flags w :
  0 <= month t <= 12 ->
  check_date t nz flags w =
  Some (if nz then if bad_date flags (year t) (month t) (day t) then (true, 2) else (false, w)
        else (flag flags TIME_NO_ZERO_DATE, w)).
Proof.
  intros Hm. unfold check_date, bad_date. destruct nz; [| by destruct (flag _ _)].
  destruct (_ && (bool_decide (month t = 0) || _)); [done |]. cbn [orb].
  destruct (flag flags TIME_INVALID_DATES); [done |]. cbn [negb andb].
  destruct (decide (month t = 0)) as [E | E].
  - by rewrite bool_decide_false by (by intros []).
  - rewrite (bool_decide_true (month t <> 0)) by done. cbn [andb].
    rewrite load_at by (simpl; lia). cbn [mbind option_bind].
    rewrite too_long_spec by (done || lia). by destruct (bool_decide _).
Qed.

Lemma valid_not_bad flags y m d : valid_date y m d -> bad_date flags y m d = false.
Proof.
  intros [Hm Hd]. unfold bad_date. rewrite (bool_decide_false (m = 0)), (bool_decide_false (d = 0)) by lia.
  rewrite (bool_decide_false (d > _)) by lia. by rewrite !andb_false_r.
Qed.

Lemma u32_small x : 0 <= x < 4294967296 -> u32 x = x.
Proof. intros. by apply uwrap_small. Qed.

(** The decimal fields of a number. *)
Definition fields (nr : Z) (ty : enum_mysql_timestamp_type) : MYSQL_TIME :=
  {| year := nr / 10000000000; month := nr / 100000000 mod 100; day := nr / 1000000 mod 100;
     hour := nr mod 1000000 / 10000; minute := nr / 100 mod 100; second := nr mod 100;
     second_part := 0; neg := 0; time_type := ty |}.

Lemma fields_number nr ty :
  0 <= nr < 2147483648000000 -> TIME_to_ulonglong_datetime (fields nr ty) = nr.
Proof.
  intros Hn. unfold TIME_to_ulonglong_datetime, fields. cbn [year month day hour minute second].
  assert (E1 : nr / 10000000000 * 10000 + nr / 100000000 mod 100 * 100 + nr / 1000000 mod 100 = nr / 1000000)
    by Zlia.
  assert (E2 : nr mod 1000000 / 10000 * 10000 + nr / 100 mod 100 * 100 + nr mod 100 = nr mod 1000000) by Zlia.
  rewrite E1, E2. rewrite !u32_small by Zlia. rewrite uwrap_small by Zlia. Zlia.
Qed.

Definition fields_ok (t : MYSQL_TIME) : bool :=
  bool_decide (year t <= 9999) && bool_decide (month t <= 12) && bool_decide (day t <= 31) &&
  bool_decide (hour t <= 23) && bool_decide (minute t <= 59) && bool_decide (second t <= 59).

Lemma split_number_spec nr ty flags :
  0 <= nr < 2147483648000000 ->
  split_number nr ty flags =
  Some (let t := fields nr ty in
        if fields_ok t &&
           negb (if bool_decide (nr <> 0) then bad_date flags (year t) (month t) (day t)
                 else flag flags TIME_NO_ZERO_DATE)
        then (nr, t, 0)
        else if fields_ok t && bool_decide (nr = 0) && flag flags TIME_NO_ZERO_DATE then (-1, t, 0)
        else (-1, t, 1)).
Proof.
  intros Hn. unfold split_number.
  rewrite (Z.quot_div_nonneg nr) by lia. rewrite (s32_small (nr / 1000000)) by Zlia.
  rewrite (s32_small (nr - _)) by Zlia.
  replace (nr - nr / 1000000 * 1000000) with (nr mod 1000000) by Zlia.
  rewrite !Z.rem_mod_nonneg by (try apply Z.mod_pos_bound; Zlia).
  rewrite !Z.quot_div_nonneg by (try apply Z.mod_pos_bound; Zlia).
  rewrite !u32_small by Zlia. rewrite Z.div_div by lia.
  replace ((nr / 1000000) mod 10000 / 100) with (nr / 100000000 mod 100) by Zlia.
  replace ((nr / 1000000) mod 10000 mod 100) with (nr / 1000000 mod 100) by Zlia.
  replace (nr mod 1000000 mod 10000 / 100) with (nr / 100 mod 100) by Zlia.
  replace (nr mod 1000000 mod 10000 mod 100) with (nr mod 100) by Zlia.
  change (1000000 * 10000) with 10000000000. fold (fields nr ty). cbv zeta.
  change (bool_decide (year (fields nr ty) <= 9999) && _ && _ && _ && _ && _) with (fields_ok (fields nr ty)).
  destruct (fields_ok (fields nr ty)) eqn:Eok.
  - assert (Hm : 0 <= month (fields nr ty) <= 12).
    { unfold fields_ok in Eok. rewrite !andb_true_iff, !bool_decide_eq_true in Eok.
      cbn [month fields] in *. split; [| tauto]. apply Z.mod_pos_bound; lia. }
    rewrite check_date_spec by done. cbn [mbind option_bind andb].
    destruct (decide (nr = 0)) as [Hz | Hz].
    + rewrite (bool_decide_false (nr <> 0)), (bool_decide_true (nr = 0)) by (done || tauto).
      by destruct (flag flags TIME_NO_ZERO_DATE).
    + rewrite (bool_decide_true (nr <> 0)), (bool_decide_false (nr = 0)) by done.
      by destruct (bad_date _ _ _ _).
  - cbn [mbind option_bind andb]. destruct (decide (nr = 0)) as [-> | Hz]; [done |].
    by rewrite (bool_decide_false (nr = 0)) by done.
Qed.

Lemma fields_in_range nr ty : 0 <= nr -> fields_ok (fields nr ty) = true -> set_in_range (fields nr ty).
Proof.
  intros Hn. unfold fields_ok, set_in_range. rewrite !andb_true_iff, !bool_decide_eq_true.
  cbn [fields year month day hour minute second]. intros H. split_and!; try tauto; try Zlia.
Qed.

(** A result that is not an error. *)
Definition good_number (flags r : Z) (t : MYSQL_TIME) (w : Z) : Prop :=
  0 <= r /\ w = 0 /\ TIME_to_ulonglong_datetime t = r /\ set_in_range t /\
  (r <> 0 -> bad_date flags (year t) (month t) (day t) = false) /\
  (r = 0 -> flag flags TIME_NO_ZERO_DATE = false).

Lemma split_number_good nr ty flags :
  0 <= nr < 2147483648000000 ->
  exists r t w, split_number nr ty flags = Some (r, t, w) /\
    (r = -1 /\ (w = 1 \/ (w = 0 /\ nr = 0)) \/ good_number flags r t w).
Proof.
  intros Hn. rewrite split_number_spec by done. cbv zeta.
  destruct (fields_ok (fields nr ty)) eqn:Eok; cbn [andb];
    [| do 3 eexists; split; [reflexivity |]; left; lia].
  destruct (decide (nr = 0)) as [-> | Hz].
  - rewrite (bool_decide_false (0 <> 0)), (bool_decide_true (0 = 0)) by (done || tauto).
    destruct (flag flags TIME_NO_ZERO_DATE) eqn:Ef; cbn [negb];
      [do 3 eexists; split; [reflexivity |]; left; lia |].
    do 3 eexists. split; [reflexivity |]. right.
    split_and!; [lia | done | by apply fields_number | by apply fields_in_range | done | done].
  - rewrite (bool_decide_true (nr <> 0)), (bool_decide_false (nr = 0)) by done.
    destruct (bad_date _ _ _ _) eqn:Eb; cbn [negb];
      [do 3 eexists; split; [reflexivity |]; left; lia |].
    do 3 eexists. split; [done |]. right.
    split_and!; [lia | done | by apply fields_number | apply fields_in_range; [lia | done] | done | done].
Qed.

(** [number_to_datetime] for every [longlong] whose part before the last six
    digits fits in a [long] never reads outside its tables, and either returns
    -1, with [was_cut] 1 except for a refused zero date, or returns a number
    that is exactly the packed form of the broken-down time it stored, all of
    whose fields are in range and whose date the flags allow.  Beyond the bound
    [part1] wraps around: 4314967397000000 is accepted as 2000-01-01. *)
Theorem number_to_datetime_sound (nr flags : Z)
    (Hn : - 2 ^ 63 <= nr < 2147483648000000) :
  (exists r t w, number_to_datetime nr flags = Some (r, t, w) /\
     (r = -1 /\ (w = 1 \/ (w = 0 /\ nr = 0)) \/ good_number flags r t w)) /\
  number_to_datetime 4314967397000000 0 =
    Some (4314967397000000, fields 20000101000000 MYSQL_TIMESTAMP_DATETIME, 0).
Proof.
  split; [| reflexivity]. unfold number_to_datetime, YY_PART_YEAR.
  destruct (decide (nr = 0)) as [-> | Hz]; [by apply split_number_good |].
  rewrite (bool_decide_false (nr = 0)) by done. cbn [orb].
  repeat case_bool_decide;
    first [ do 3 eexists; split; [reflexivity |]; left; lia
          | match goal with |- context [split_number ?n ?ty flags] =>
              destruct (split_number_good n ty flags) as (r & t & w & E & H'); [lia |];
              exists r, t, w; split; [exact E |];
              destruct H' as [(? & [? | ?]) | ?]; [left; lia | left; lia | by right] end ].
Qed.

Lemma number_to_datetime_sound_witness :
  (exists r t w, number_to_datetime 20080229123456 0 = Some (r, t, w) /\
     (r = -1 /\ (w = 1 \/ (w = 0 /\ 20080229123456 = 0)) \/ good_number 0 r t w)) /\
  number_to_datetime 4314967397000000 0 =
    Some (4314967397000000, fields 20000101000000 MYSQL_TIMESTAMP_DATETIME, 0).
Proof. apply (number_to_datetime_sound 20080229123456 0). lia. Defined.

Lemma pack_datetime t :
  set_in_range t ->
  TIME_to_ulonglong_datetime t =
  (year t * 10000 + month t * 100 + day t) * 1000000 + (hour t * 10000 + minute t * 100 + second t).
Proof.
  unfold set_in_range, TIME_to_ulonglong_datetime. intros. rewrite !u32_small by lia.
  by rewrite uwrap_small by lia.
Qed.

Lemma fields_of_packed t :
  set_in_range t -> second_part t = 0 -> neg t = 0 ->
  fields (TIME_to_ulonglong_datetime t) (time_type t) = t /\ fields_ok t = true.
Proof.
  intros Hr Hs Hg. rewrite pack_datetime by done. unfold set_in_range in Hr.
  destruct t as [y m d h mi s sp ng ty]. cbn [year month day hour minute second second_part neg time_type] in *.
  split.
  - unfold fields. subst. f_equal; Zlia.
  - unfold fields_ok. cbn. by rewrite !bool_decide_true by lia.
Qed.

(** Packing and unpacking: [number_to_datetime] of the number that
    [TIME_to_ulonglong] makes of a valid DATETIME from the year 100 on, or of a
    valid DATE from the year 1000 on, gives every field and the type back,
    whatever the flags, and returns the DATETIME number. *)
Theorem datetime_number_roundtrip (t : MYSQL_TIME) (flags : Z)
    (Hr : set_in_range t) (Hv : valid_date (year t) (month t) (day t))
    (Hs : second_part t = 0) (Hg : neg t = 0)
    (Ht : (time_type t = MYSQL_TIMESTAMP_DATETIME /\ 100 <= year t) \/
          (time_type t = MYSQL_TIMESTAMP_DATE /\ 1000 <= year t /\
           hour t = 0 /\ minute t = 0 /\ second t = 0)) :
  number_to_datetime (TIME_to_ulonglong t) flags = Some (TIME_to_ulonglong_datetime t, t, 0).
Proof.
  pose proof (valid_not_bad flags _ _ _ Hv) as Hb.
  destruct (fields_of_packed t Hr Hs Hg) as [Hf Hok].
  pose proof (pack_datetime t Hr) as Hp. destruct Hv as [Hm Hd].
  unfold set_in_range in Hr.
  assert (Hsplit : split_number (TIME_to_ulonglong_datetime t) (time_type t) flags =
                   Some (TIME_to_ulonglong_datetime t, t, 0)).
  { rewrite split_number_spec by lia. cbv zeta.
    rewrite Hf, Hok, (bool_decide_true (_ <> 0)) by lia. by rewrite Hb. }
  unfold number_to_datetime, YY_PART_YEAR, TIME_to_ulonglong.
  destruct Ht as [[E Hy] | (E & Hy & H0 & H1 & H2)]; rewrite E in *.
  - rewrite (bool_decide_false (_ = 0)) by lia. cbn [orb].
    case_bool_decide; [done |].
    by rewrite !bool_decide_false by lia.
  - assert (Ed : TIME_to_ulonglong_date t * 1000000 = TIME_to_ulonglong_datetime t).
    { unfold TIME_to_ulonglong_date. rewrite u32_small by lia. lia. }
    rewrite !bool_decide_false by lia. cbn [orb]. rewrite bool_decide_true by lia.
    by rewrite Ed.
Qed.

Definition ex_datetime : MYSQL_TIME := mk_time 2008 2 29 23 59 58 0 0 MYSQL_TIMESTAMP_DATETIME.

Lemma datetime_number_roundtrip_witness :
  number_to_datetime (TIME_to_ulonglong ex_datetime) 0 = Some (20080229235958, ex_datetime, 0).
Proof.
  apply (datetime_number_roundtrip ex_datetime 0); try reflexivity.
  - repeat split; vm_compute; congruence.
  - repeat split; vm_compute; congruence.
  - left. split; [reflexivity | vm_compute; congruence].
Defined.

(** Day numbers count days: for every valid date of the years 0 to 9999
    [calc_daynr] is the number of days of the years before (by
    [calc_days_in_year]), of the months before and of the month, so that day
    numbers order dates; 1970-01-01 is [days_at_timestart] and the zero date 0. *)
Theorem calc_daynr_counts_days (y m d y' m' d' : Z)
    (Hy : 0 <= y <= 9999) (Hy' : 0 <= y' <= 9999)
    (Hv : valid_date y m d) (Hv' : valid_date y' m' d') :
  calc_daynr y m d = count_days y m d /\
  (calc_daynr y m d < calc_daynr y' m' d' <-> date_lt y m d y' m' d') /\
  calc_daynr 1970 1 1 = days_at_timestart /\ calc_daynr 0 0 0 = 0.
Proof.
  split_and!; [by apply calc_daynr_count | | done | done]. symmetry. by apply daynr_lt.
Qed.

Lemma calc_daynr_counts_days_witness :
  calc_daynr 2000 2 29 = count_days 2000 2 29 /\
  (calc_daynr 2000 2 29 < calc_daynr 2000 3 1 <-> date_lt 2000 2 29 2000 3 1) /\
  calc_daynr 1970 1 1 = days_at_timestart /\ calc_daynr 0 0 0 = 0.
Proof.
  apply (calc_daynr_counts_days 2000 2 29 2000 3 1); try lia; repeat split; vm_compute; congruence.
Defined.

(** [check_date] decides validity: a date that is not zero and has no month
    above 12 is refused, with [was_cut] 2, exactly when a zero part is not
    allowed by the flags or the day is behind the end of the month (29 February
    in leap years included); without flags exactly the dates of the calendar
    are accepted.  The zero date is refused, [was_cut] kept, by one flag. *)
Theorem check_date_decides (t : MYSQL_TIME) (flags w : Z)
    (Hm : 0 <= month t <= 12) (Hd : 0 <= day t) :
  check_date t true flags w =
    Some (if bad_date flags (year t) (month t) (day t) then (true, 2) else (false, w)) /\
  check_date t false flags w = Some (flag flags TIME_NO_ZERO_DATE, w) /\
  (check_date t true 0 w = Some (false, w) <-> valid_date (year t) (month t) (day t)).
Proof.
  split_and!; [by rewrite check_date_spec | by rewrite check_date_spec |].
  rewrite check_date_spec by done. split.
  - unfold bad_date, valid_date. change (flag 0 _) with false. cbn [orb andb negb].
    destruct (decide (month t = 0)); [by rewrite bool_decide_true |].
    destruct (decide (day t = 0)); [by rewrite (bool_decide_true (day t = 0)), orb_true_r by done |].
    rewrite (bool_decide_true (month t <> 0)), (bool_decide_false (month t = 0)),
      (bool_decide_false (day t = 0)) by done. cbn [orb andb].
    case_bool_decide; [done | lia].
  - intros Hv. by rewrite (valid_not_bad 0).
Qed.

Lemma check_date_decides_witness :
  check_date ex_datetime true 0 0 =
    Some (if bad_date 0 2008 2 29 then (true, 2) else (false, 0)) /\
  check_date ex_datetime false 0 0 = Some (flag 0 TIME_NO_ZERO_DATE, 0) /\
  (check_date ex_datetime true 0 0 = Some (false, 0) <-> valid_date 2008 2 29).
Proof. apply (check_date_decides ex_datetime 0 0); vm_compute; split || idtac; congruence. Defined.
End MyTime.
