(* ===== verification/MyTimeZone.v ===== *)
(** * MyTimeZone: durations in range and seconds since the epoch

    [check_time_range] and [my_system_gmt_sec] of [libmysql/my_time.c], on the
    definitions of [MyTime].  [localtime_r] is described for a time zone with a
    fixed offset; a concrete function shows that the description can hold. *)
From stdpp Require Import base tactics option list numbers.
From Stdlib Require Import ZArith Lia.
From S2P Require Import Prelude.
From S2P Require Import MyTime.

Module MyTimeZone.
Import MyTime.

(** ** Neighbouring days *)

Lemma daynr_eq y m d y' m' d' :
  0 <= y <= 9999 -> 0 <= y' <= 9999 -> valid_date y m d -> valid_date y' m' d' ->
  calc_daynr y m d = calc_daynr y' m' d' -> y = y' /\ m = m' /\ d = d'.
Proof.
  intros Hy Hy' Hv Hv' E.
  pose proof (daynr_lt y m d y' m' d' Hy Hy' Hv Hv') as H1.
  pose proof (daynr_lt y' m' d' y m d Hy' Hy Hv' Hv) as H2. unfold date_lt in *. lia.
Qed.

(** A day follows another of a different month only from its end to the first. *)
Lemma next_day_cases y m d y' m' d' :
  0 <= y <= 9999 -> 0 <= y' <= 9999 -> valid_date y m d -> valid_date y' m' d' ->
  calc_daynr y' m' d' = calc_daynr y m d + 1 ->
  (y = y' /\ m = m' /\ d' = d + 1) \/ (d' = 1 /\ 28 <= d).
Proof.
  intros Hy Hy' Hv Hv' E.
  assert (Hlt : date_lt y m d y' m' d') by (apply daynr_lt; (done || lia)).
  destruct (decide (y = y' /\ m = m')) as [[-> ->] | Hne].
  - left. rewrite !calc_daynr_count in E by done. unfold count_days in E. lia.
  - right. pose proof (month_days_bound y m (proj1 Hv)).
    assert (Hlt' : y < y' \/ (y = y' /\ m < m')) by (unfold date_lt in Hlt; lia).
    assert (Hvm : forall e, 1 <= e < d' -> valid_date y' m' e) by (destruct Hv'; split; lia).
    assert (Hvp : forall e, d < e <= month_days y m -> valid_date y m e) by (destruct Hv; split; lia).
    assert (Hd1 : 1 <= d /\ 1 <= d') by (destruct Hv, Hv'; lia).
    split.
    + destruct (decide (d' = 1)); [done |]. pose proof (Hvm (d' - 1) ltac:(lia)) as Hv1.
      pose proof (proj1 (daynr_lt y m d y' m' (d' - 1) Hy Hy' Hv Hv1) ltac:(unfold date_lt; lia)).
      pose proof (proj1 (daynr_lt y' m' (d' - 1) y' m' d' Hy' Hy' Hv1 Hv') ltac:(unfold date_lt; lia)).
      lia.
    + destruct (decide (28 <= d)); [done |]. pose proof (Hvp (d + 1) ltac:(lia)) as Hv1.
      pose proof (proj1 (daynr_lt y m d y m (d + 1) Hy Hy Hv Hv1) ltac:(unfold date_lt; lia)).
      pose proof (proj1 (daynr_lt y m (d + 1) y' m' d' Hy Hy' Hv1 Hv') ltac:(unfold date_lt; lia)).
      lia.
Qed.

(** The day difference that [my_system_gmt_sec] computes from the days of the
    month is right for dates at most one day apart. *)
Definition clamp_days (k : Z) : Z := if bool_decide (k < -1) then 1 else if bool_decide (k > 1) then -1 else k.

Lemma clamp_days_spec y m d y' m' d' :
  0 <= y <= 9999 -> 0 <= y' <= 9999 -> valid_date y m d -> valid_date y' m' d' ->
  -1 <= calc_daynr y m d - calc_daynr y' m' d' <= 1 ->
  clamp_days (d - d') = calc_daynr y m d - calc_daynr y' m' d'.
Proof.
  intros Hy Hy' Hv Hv' Hk. unfold clamp_days.
  assert (Hc : calc_daynr y m d - calc_daynr y' m' d' = 0 \/
    calc_daynr y m d = calc_daynr y' m' d' + 1 \/ calc_daynr y' m' d' = calc_daynr y m d + 1) by lia.
  destruct Hc as [E | [E | E]].
  - destruct (daynr_eq y m d y' m' d') as (-> & -> & ->); try done; [lia |].
    rewrite !bool_decide_false by lia. lia.
  - destruct (next_day_cases y' m' d' y m d) as [(-> & -> & ->) | [-> H28]]; try done.
    + rewrite !bool_decide_false by lia. lia.
    + rewrite bool_decide_true by lia. lia.
  - destruct (next_day_cases y m d y' m' d') as [(-> & -> & ->) | [-> H28]]; try done.
    + rewrite !bool_decide_false by lia. lia.
    + rewrite bool_decide_false, bool_decide_true by lia. lia.
Qed.

(** ** A zone with a fixed offset *)

(** [localtime_r] of a zone that is [off] seconds ahead of UTC. *)
Definition fixed_zone (localtime_r : Z -> tm) (off : Z) : Prop :=
  forall tmp, - 2 ^ 31 <= tmp < 2 ^ 31 ->
  let l := localtime_r tmp in
  exists y m, 0 <= y <= 9999 /\ valid_date y m (tm_mday l) /\
    calc_daynr y m (tm_mday l) = days_at_timestart + (tmp + off) / 86400 /\
    tm_hour l = (tmp + off) mod 86400 / 3600 /\
    tm_min l = (tmp + off) mod 3600 / 60 /\
    tm_sec l = (tmp + off) mod 60.

(** Seconds of a local time since 1970-01-01 00:00:00 of the same clock. *)
Definition clock (t : MYSQL_TIME) : Z :=
  (calc_daynr (year t) (month t) (day t) - days_at_timestart) * 86400 +
  hour t * 3600 + minute t * 60 + second t.

Section FixedZone.
Context (localtime_r : Z -> tm) (off : Z) (Hzone : fixed_zone localtime_r off).
Context (t : MYSQL_TIME) (Hr : set_in_range t) (Hv : valid_date (year t) (month t) (day t)).

(** The difference to a local time less than a day away is exact. *)
Lemma time_diff_exact tmp :
  - 2 ^ 31 <= tmp < 2 ^ 31 -> -86400 < clock t - (tmp + off) < 86400 ->
  time_diff t (localtime_r tmp) = clock t - (tmp + off).
Proof.
  intros Htmp Hnear. destruct (Hzone tmp Htmp) as (y & m & Hy & Hvl & En & Eh & Em & Es).
  cbv zeta in *. unfold set_in_range in Hr.
  pose proof (month_days_bound y m (proj1 Hvl)).
  assert (1 <= tm_mday (localtime_r tmp) <= 31) by (destruct Hvl; lia).
  unfold time_diff. rewrite (s32_small (day t - _)) by lia.
  assert (Hk : -1 <= calc_daynr (year t) (month t) (day t) -
                     calc_daynr y m (tm_mday (localtime_r tmp)) <= 1).
  { rewrite En. unfold clock in Hnear. Zlia. }
  pose proof (clamp_days_spec (year t) (month t) (day t) y m _ ltac:(lia) Hy Hv Hvl Hk) as Hcl.
  unfold clamp_days in Hcl. rewrite Hcl, En, Eh, Em, Es. unfold clock in *.
  rewrite s32_small by Zlia. Zlia.
Qed.

Lemma same_clock tmp :
  - 2 ^ 31 <= tmp < 2 ^ 31 -> tmp + off = clock t ->
  let l := localtime_r tmp in
  bool_decide (hour t <> tm_hour l) || bool_decide (minute t <> tm_min l) ||
  bool_decide (second t <> tm_sec l) = false.
Proof.
  intros Htmp E. cbv zeta. destruct (Hzone tmp Htmp) as (y & m & _ & _ & _ & -> & -> & ->).
  rewrite E. unfold clock, set_in_range in *.
  rewrite !bool_decide_false by (intros H; apply H; Zlia). done.
Qed.

Lemma other_clock tmp :
  - 2 ^ 31 <= tmp < 2 ^ 31 -> -86400 < clock t - (tmp + off) < 86400 -> tmp + off <> clock t ->
  let l := localtime_r tmp in
  bool_decide (hour t <> tm_hour l) || bool_decide (minute t <> tm_min l) ||
  bool_decide (second t <> tm_sec l) = true.
Proof.
  intros Htmp Hnear Hne. cbv zeta.
  destruct (Hzone tmp Htmp) as (y & m & _ & _ & _ & Eh & Em & Es). rewrite Eh, Em, Es.
  rewrite !orb_true_iff, !bool_decide_eq_true.
  destruct (decide (hour t = (tmp + off) mod 86400 / 3600)) as [E1 |]; [| auto].
  destruct (decide (minute t = (tmp + off) mod 3600 / 60)) as [E2 |]; [| auto].
  destruct (decide (second t = (tmp + off) mod 60)) as [E3 |]; [| auto].
  exfalso. unfold clock, set_in_range in *. clear Hv Eh Em Es Htmp Hzone.
  assert (hour t * 3600 + minute t * 60 + second t = (tmp + off) mod 86400) by Zlia. Zlia.
Qed.

(** The correction loop finds the time in at most one pass. *)
Lemma adjust_loop_finds tmp zone :
  - 2 ^ 31 <= tmp < 2 ^ 31 -> -86400 < clock t - (tmp + off) < 86400 ->
  - 2 ^ 31 <= clock t - off < 2 ^ 31 ->
  exists zone' loop, adjust_loop localtime_r t 2 0 tmp zone (localtime_r tmp) =
    (clock t - off, zone', localtime_r (clock t - off), loop) /\ loop < 2 /\
    zone' = if decide (tmp + off = clock t) then zone
            else s32 (zone + (clock t - (tmp + off) + 3600)).
Proof.
  intros Htmp Hnear Hin. cbn [adjust_loop].
  destruct (decide (tmp + off = clock t)) as [E | E].
  - rewrite same_clock by done. replace tmp with (clock t - off) by lia.
    do 2 eexists. split; [reflexivity |]. lia.
  - rewrite other_clock, time_diff_exact by done.
    replace (s32 (tmp + (clock t - (tmp + off)))) with (clock t - off)
      by (rewrite s32_small by lia; lia).
    rewrite same_clock by (done || lia). do 2 eexists. split; [reflexivity |]. lia.
Qed.
End FixedZone.

(** ** Timestamps in range *)

Lemma daynr_le y m d y' m' d' :
  0 <= y <= 9999 -> 0 <= y' <= 9999 -> valid_date y m d -> valid_date y' m' d' ->
  ~ date_lt y' m' d' y m d -> calc_daynr y m d <= calc_daynr y' m' d'.
Proof. intros Hy Hy' Hv Hv' Hn. rewrite daynr_lt in Hn by done. lia. Qed.

Lemma validate_range t :
  validate_timestamp_range t = true ->
  1969 <= year t <= 2038 /\ (year t = 2038 -> month t <= 1 /\ day t <= 19) /\
  (year t = 1969 -> 12 <= month t /\ 31 <= day t).
Proof.
  unfold validate_timestamp_range, TIMESTAMP_MAX_YEAR, TIMESTAMP_MIN_YEAR, YY_PART_YEAR.
  rewrite negb_true_iff, !orb_false_iff, !andb_false_iff, !orb_false_iff, !bool_decide_eq_false. lia.
Qed.

(** The local time after the shift of two days that avoids an overflow. *)
Definition shifted (t : MYSQL_TIME) : MYSQL_TIME * Z :=
  if bool_decide (year t = TIMESTAMP_MAX_YEAR) && bool_decide (month t = 1) && bool_decide (day t > 4)
  then (with_day t (day t - 2), 2) else (t, 0).

Lemma shifted_spec t t' shift :
  set_in_range t -> valid_date (year t) (month t) (day t) -> validate_timestamp_range t = true ->
  shifted t = (t', shift) ->
  set_in_range t' /\ valid_date (year t') (month t') (day t') /\
  clock t' + shift * 86400 = clock t /\ -86400 <= clock t' <= 2147385599 /\ 0 <= shift <= 2.
Proof.
  intros Hr Hv Hval. apply validate_range in Hval as (Hy & Hmax & Hmin).
  unfold shifted, TIMESTAMP_MAX_YEAR.
  assert (Hb : forall u, set_in_range u -> valid_date (year u) (month u) (day u) ->
    1969 <= year u <= 2038 -> (year u = 2038 -> month u = 1 /\ day u <= 17) ->
    (year u = 1969 -> 12 <= month u /\ 31 <= day u) -> -86400 <= clock u <= 2147385599).
  { intros u Hur Huv Huy Hu1 Hu2. unfold clock, set_in_range in *.
    assert (calc_daynr (year u) (month u) (day u) <= calc_daynr 2038 1 17) as H1.
    { apply daynr_le; [lia | lia | done | split; vm_compute; split; congruence |]. unfold date_lt. lia. }
    assert (calc_daynr 1969 12 31 <= calc_daynr (year u) (month u) (day u)) as H2.
    { apply daynr_le; [lia | lia | split; vm_compute; split; congruence | done |].
      destruct Huv. unfold date_lt. lia. }
    change (calc_daynr 2038 1 17) with 744381 in H1. change (calc_daynr 1969 12 31) with 719527 in H2.
    unfold days_at_timestart. lia. }
  pose proof Hv as [Hm Hd].
  destruct (decide (year t = 2038 /\ month t = 1 /\ day t > 4)) as [(E1 & E2 & E3) | Hno].
  - rewrite !bool_decide_true by done. cbn [andb]. intros [= <- <-].
    assert (Hr' : set_in_range (with_day t (day t - 2))) by (unfold set_in_range in *; cbn; lia).
    assert (Hv' : valid_date (year t) (month t) (day t - 2)) by (split; lia).
    split; [done |]. split; [done |]. split; [| split; [| lia]].
    + unfold clock, set_in_range in *. cbn [with_day year month day hour minute second].
      rewrite !calc_daynr_count by (done || lia). unfold count_days. lia.
    + apply Hb; try done; cbn; lia.
  - assert (E : bool_decide (year t = 2038) && bool_decide (month t = 1) && bool_decide (day t > 4) = false).
    { rewrite !andb_false_iff, !bool_decide_eq_false. lia. }
    rewrite E. intros [= <- <-]. split; [done |]. split; [done |]. split; [lia |]. split; [| lia].
    apply Hb; try done. intros H38. destruct (Hmax H38). lia.
Qed.

(** [my_system_gmt_sec] in a zone with a fixed offset from UTC, for a valid
    local time and a cached offset at most half a day off: the seconds since
    the epoch are exact, or 0 when they are outside 1 .. 2^31 - 1 or the date is
    outside the range of timestamps; no value overflows on the way and no
    daylight saving gap is reported. *)
Theorem gmt_sec_exact (localtime_r : Z -> tm) (off my_time_zone : Z) (t : MYSQL_TIME) (tz gap : Z)
    (Hzone : fixed_zone localtime_r off)
    (Hoff : -50400 <= off <= 50400) (Hcache : -43200 <= my_time_zone + off - 3600 <= 43200)
    (Hr : set_in_range t) (Hv : valid_date (year t) (month t) (day t)) :
  exists zone,
    my_system_gmt_sec localtime_r my_time_zone t tz gap =
    (if validate_timestamp_range t && bool_decide (1 <= clock t - off <= 2147483647)
     then clock t - off else 0, zone, gap).
Proof.
  unfold my_system_gmt_sec. destruct (validate_timestamp_range t) eqn:Hval; cbn [negb andb];
    [| by eexists].
  fold (shifted t). destruct (shifted t) as [t' shift] eqn:Es.
  destruct (shifted_spec t t' shift Hr Hv Hval Es) as (Hr' & Hv' & Ec & Hc & Hs).
  set (tmp := s32 _).
  assert (Htmp : tmp = clock t' + my_time_zone - 3600).
  { unfold tmp. rewrite s32_small; unfold clock in *; lia. }
  destruct (adjust_loop_finds localtime_r off Hzone t' Hr' Hv' tmp my_time_zone)
    as (zone & loop & -> & Hloop & _); [lia | lia | lia |].
  rewrite (bool_decide_false (loop = 2)) by lia. cbn [andb]. exists zone.
  destruct (decide (1 <= clock t - off <= 2147483647)) as [Hin | Hout].
  - rewrite (bool_decide_true (1 <= clock t - off <= _)) by done.
    rewrite s32_small by lia. unfold TIMESTAMP_MIN_VALUE, TIMESTAMP_MAX_VALUE.
    rewrite !bool_decide_false by lia. cbn [orb]. by replace (clock t' - off + shift * 86400) with (clock t - off) by lia.
  - rewrite (bool_decide_false (1 <= clock t - off <= _)) by done.
    assert (Hclip : bool_decide (s32 (clock t' - off + shift * 86400) < TIMESTAMP_MIN_VALUE) = true).
    { apply bool_decide_eq_true. unfold TIMESTAMP_MIN_VALUE.
      destruct (decide (clock t' - off + shift * 86400 < 2147483648)); [rewrite s32_small; lia |].
      unfold swrap. change (2 ^ 32) with 4294967296. change (2 ^ (32 - 1)) with 2147483648. Zlia. }
    by rewrite Hclip.
Qed.

(** ** A concrete [localtime_r] *)

Definition next_day (date : Z * Z * Z) : Z * Z * Z :=
  let '(y, m, d) := date in
  if bool_decide (d < month_days y m) then (y, m, d + 1)
  else if bool_decide (m < 12) then (y, m + 1, 1) else (y + 1, 1, 1).

(** The date [n] days after 0000-01-01. *)
Definition date_of (n : nat) : Z * Z * Z := Nat.iter n next_day (0, 1, 1).

Definition clock_localtime (off tmp : Z) : tm :=
  let s := tmp + off in
  let '(_, _, d) := date_of (Z.to_nat (days_at_timestart + s / 86400 - 1)) in
  mk_tm d (s mod 86400 / 3600) (s mod 3600 / 60) (s mod 60).

Lemma next_day_count y m d y' m' d' :
  0 <= y -> valid_date y m d -> next_day (y, m, d) = (y', m', d') ->
  0 <= y' /\ valid_date y' m' d' /\ count_days y' m' d' = count_days y m d + 1.
Proof.
  intros Hy [Hm Hd]. unfold next_day.
  assert (Hfirst : forall y m, 1 <= m <= 12 -> valid_date y m 1).
  { intros z k Hk. pose proof (month_days_bound z k Hk). split; lia. }
  destruct (decide (d < month_days y m)) as [Hlt | Hlast].
  { rewrite bool_decide_true by done. intros [= <- <- <-].
    split; [done |]. split; [split; lia |]. unfold count_days. lia. }
  rewrite (bool_decide_false (d < _)) by done. destruct (decide (m < 12)).
  - rewrite bool_decide_true by done. intros [= <- <- <-].
    split; [done |]. split; [apply Hfirst; lia |]. unfold count_days.
    replace (Z.to_nat (m + 1 - 1)) with (S (Z.to_nat (m - 1))) by lia. rewrite sum_S.
    replace (Z.of_nat (Z.to_nat (m - 1)) + 1) with m by lia. lia.
  - rewrite bool_decide_false by done. intros [= <- <- <-].
    split; [lia |]. split; [apply Hfirst; lia |]. unfold count_days.
    replace (Z.to_nat (y + 1)) with (S (Z.to_nat y)) by lia. rewrite sum_S, Z2Nat.id by done.
    rewrite <- (sum_months_year y) by done. assert (m = 12) as -> by lia.
    change 12%nat with (S 11). rewrite sum_S. change (Z.to_nat (12 - 1)) with 11%nat.
    change (Z.to_nat (1 - 1)) with 0%nat. change (Z.of_nat 11 + 1) with 12.
    unfold sum at 3. simpl. lia.
Qed.

Lemma date_of_count n :
  let '(y, m, d) := date_of n in
  0 <= y /\ valid_date y m d /\ count_days y m d = Z.of_nat n + 1.
Proof.
  induction n as [| n IH]; [by vm_compute; repeat split; congruence |].
  change (date_of (S n)) with (next_day (date_of n)).
  destruct (date_of n) as [[y m] d]. destruct IH as (Hy & Hv & Hc).
  destruct (next_day (y, m, d)) as [[y' m'] d'] eqn:E.
  destruct (next_day_count _ _ _ _ _ _ Hy Hv E) as (Hy' & Hv' & Hc'). split_and!; try done. lia.
Qed.

Lemma count_days_year y m d : 0 <= y -> valid_date y m d -> 365 * y < count_days y m d.
Proof.
  intros Hy [Hm Hd]. unfold count_days. rewrite years_before, months_before by done.
  assert (0 <= (if bool_decide (y = 0) then 0 else (y - 1) / 4 - (y - 1) / 100 + (y - 1) / 400))
    by (case_bool_decide; Zlia).
  assert (0 <= at_ [0; 31; 59; 90; 120; 151; 181; 212; 243; 273; 304; 334] (m - 1)).
  { pattern m. apply month_cases; (exact Hm || (vm_compute; congruence)). }
  destruct (_ && leap y); lia.
Qed.

Lemma clock_localtime_fixed off : -50400 <= off <= 50400 -> fixed_zone (clock_localtime off) off.
Proof.
  intros Hoff tmp Htmp. cbv zeta. unfold clock_localtime, days_at_timestart.
  set (n := Z.to_nat _). assert (Hn : Z.of_nat n = 719528 + (tmp + off) / 86400 - 1) by Zlia.
  pose proof (date_of_count n) as H. destruct (date_of n) as [[y m] d]. destruct H as (Hy & Hv & Hc).
  cbn [tm_mday tm_hour tm_min tm_sec]. exists y, m.
  pose proof (count_days_year y m d Hy Hv).
  assert (Hy' : 0 <= y <= 9999) by Zlia.
  split; [done |]. split; [done |]. split; [| done].
  rewrite calc_daynr_count by done. lia.
Qed.

Lemma gmt_sec_exact_witness :
  exists zone,
    my_system_gmt_sec (clock_localtime 3600) (-3600) ex_datetime 0 0 =
    (if validate_timestamp_range ex_datetime && bool_decide (1 <= clock ex_datetime - 3600 <= 2147483647)
     then clock ex_datetime - 3600 else 0, zone, 0).
Proof.
  apply (gmt_sec_exact (clock_localtime 3600) 3600 (-3600) ex_datetime 0 0).
  - apply clock_localtime_fixed. lia.
  - lia.
  - lia.
  - repeat split; vm_compute; congruence.
  - repeat split; vm_compute; congruence.
Defined.

(** ** Durations *)

(** Microseconds of a TIME value. *)
Definition duration (t : MYSQL_TIME) : Z :=
  ((24 * day t + hour t) * 3600 + minute t * 60 + second t) * 1000000 + second_part t.

Definition max_duration : Z := (TIME_MAX_HOUR * 3600 + TIME_MAX_MINUTE * 60 + TIME_MAX_SECOND) * 1000000.

(** [check_time_range] refuses minutes or seconds above 59, and otherwise
    clips the duration to 838:59:59, with the warning exactly when it was
    larger, as long as the number of hours fits in an [unsigned int].  For more
    days the product wraps around and the value is accepted as it is. *)
Theorem check_time_range_clips (t : MYSQL_TIME) (w : Z)
    (Hd : 0 <= day t) (Hh : 0 <= hour t) (Hm : 0 <= minute t) (Hs : 0 <= second t)
    (Hp : 0 <= second_part t < 1000000) (Hfit : 24 * day t + hour t < 2 ^ 32) :
  (60 <= minute t \/ 60 <= second t -> check_time_range t w = (1, t, w)) /\
  (minute t < 60 -> second t < 60 ->
   exists t', check_time_range t w =
     (0, t', if bool_decide (duration t <= max_duration) then w else w ||| MYSQL_TIME_WARN_OUT_OF_RANGE) /\
     duration t' = Z.min (duration t) max_duration /\ neg t' = neg t /\ time_type t' = time_type t) /\
  (let big := mk_time 0 0 178956971 0 0 0 0 0 MYSQL_TIMESTAMP_TIME in
   check_time_range big w = (0, big, w) /\ max_duration < duration big).
Proof.
  split_and!; [| | by vm_compute].
  - intros H. unfold check_time_range.
    assert (E : bool_decide (minute t >= 60) || bool_decide (second t >= 60) = true).
    { rewrite orb_true_iff, !bool_decide_eq_true. lia. }
    by rewrite E.
  - intros Hm60 Hs60. unfold check_time_range.
    rewrite (bool_decide_false (minute t >= 60)), (bool_decide_false (second t >= 60)) by lia. cbn [orb].
    rewrite (uwrap_small 32 (24 * _)), (uwrap_small 32 (hour t + _)) by lia.
    set (c := bool_decide (_ <= TIME_MAX_HOUR) && _).
    assert (Hc : c = bool_decide (duration t <= max_duration)).
    { apply eq_true_iff_eq. unfold c.
      rewrite andb_true_iff, !orb_true_iff, !bool_decide_eq_true.
      unfold duration, max_duration, TIME_MAX_HOUR, TIME_MAX_MINUTE, TIME_MAX_SECOND. lia. }
    rewrite Hc. case_bool_decide as Hle; eexists; (split; [reflexivity |]); (split; [| done]).
    + lia.
    + rewrite Z.min_r by lia. reflexivity.
Qed.

Lemma check_time_range_clips_witness :
  let t := mk_time 0 0 34 22 59 59 999999 1 MYSQL_TIMESTAMP_TIME in
  (60 <= minute t \/ 60 <= second t -> check_time_range t 0 = (1, t, 0)) /\
  (minute t < 60 -> second t < 60 ->
   exists t', check_time_range t 0 =
     (0, t', if bool_decide (duration t <= max_duration) then 0 else 0 ||| MYSQL_TIME_WARN_OUT_OF_RANGE) /\
     duration t' = Z.min (duration t) max_duration /\ neg t' = neg t /\ time_type t' = time_type t) /\
  (let big := mk_time 0 0 178956971 0 0 0 0 0 MYSQL_TIMESTAMP_TIME in
   check_time_range big 0 = (0, big, 0) /\ max_duration < duration big).
Proof.
  intros t. apply (check_time_range_clips t 0); cbn; lia.
Defined.
End MyTimeZone.
