(* ===== verification/TimeStr.v ===== *)
(** * TimeStr: dates and times as strings

    The parsers [str_to_datetime] and [str_to_time] and the printing functions of
    [libmysql/my_time.c].  A string is an array with a length, a pointer into it an
    offset.  The parser of datetimes is split at its loops: [scan_field] is one
    pass of the loop over the fields.  Fuel is the length of the string for
    loops over characters and [MAX_DATE_PARTS] for the loop over fields. *)
From stdpp Require Import base tactics option list numbers.
From Stdlib Require Import ZArith Lia.
From S2P Require Import Prelude.
From S2P Require Import Ctype.
From S2P Require Import MyTime.

Module TimeStr.
Import Ctype MyTime.

(** ** Model *)

Definition MAX_DATE_PARTS : Z := 8.
Definition internal_format_positions : list Z := [0; 1; 2; 3; 4; 5; 6; 255].
Definition time_separator : Z := 58.

(** The loop [for (; str != end && p; str++) ;] for a test [p] of the character. *)
Fixpoint skip_while (fuel : nat) (p : Z -> option bool) (s : list Z) (end_ str : Z) : option Z :=
  if bool_decide (str = end_) then Some str
  else
    match fuel with
    | O => None
    | S fuel =>
        c ← load s str;
        b ← p c;
        if (b : bool) then skip_while fuel p s end_ (str + 1) else Some str
    end.

Definition is_not (p : Z -> option bool) (c : Z) : option bool := b ← p c; Some (negb b).

(** A digit or the ['T'] of ISO 8601. *)
Definition digit_or_T (c : Z) : option bool :=
  b ← my_isdigit c; Some (b || bool_decide (c = 84)).

(** The inner loop of a field: [str], [field_length] and [tmp_value]. *)
Fixpoint field_digits (fuel : nat) (s : list Z) (end_ : Z) (scan_until_delim : bool)
    (str field_length tmp_value : Z) : option (Z * Z * Z) :=
  if bool_decide (str = end_) then Some (str, field_length, tmp_value)
  else
    match fuel with
    | O => None
    | S fuel =>
        c ← load s str;
        d ← my_isdigit c;
        if negb d then Some (str, field_length, tmp_value)
        else
          let field_length := if scan_until_delim then field_length else u32 (field_length - 1) in
          if scan_until_delim || bool_decide (field_length <> 0)
          then field_digits fuel s end_ scan_until_delim (str + 1) field_length
                 (u32 (u32 (tmp_value * 10) + u8 (c - 48)))
          else Some (str, field_length, tmp_value)
    end.

(** The loop over delimiters: [str], [found_space], [found_delimitier]; [Ret] is
    the return because of a space that is not allowed. *)
Fixpoint skip_delims (fuel : nat) (s : list Z) (end_ allow_space i : Z) (str : Z) (space delim : bool)
  : option (ctl (Z * bool * bool) unit) :=
  if bool_decide (str = end_) then Some (Next (str, space, delim))
  else
    match fuel with
    | O => None
    | S fuel =>
        c ← load s str;
        p ← my_ispunct c;
        sp ← my_isspace c;
        if (p || sp : bool)
        then if sp && bool_decide (allow_space &&& (1 ≪ i) = 0) then Some (Ret tt)
             else skip_delims fuel s end_ allow_space i (str + 1) (space || sp) true
        else Some (Next (str, space, delim))
    end.

(** The variables of the loop over the fields. *)
Record scan := mk_scan {
  sc_str : Z;
  sc_field_length : Z;
  sc_date : list Z;
  sc_date_len : list Z;
  sc_not_zero_date : Z;
  sc_found_delimitier : bool;
  sc_found_space : bool;
  sc_last_field_pos : Z;
  sc_add_hours : Z;
}.

(** What a pass does: go on with a new [i], leave the loop, or return
    [MYSQL_TIMESTAMP_NONE] with [was_cut] 1. *)
Inductive pass :=
| Go (i : Z) (st : scan)
| Leave (i : Z) (st : scan)
| NoTime.

(** AM/PM after the fraction: [None] in the second component is [continue]. *)
Definition am_pm (s : list Z) (end_ str add_hours : Z) : option (Z * option Z) :=
  if bool_decide (str + 2 <= end_) then
    c1 ← load s (str + 1);
    if bool_decide (c1 = 77) || bool_decide (c1 = 109) then
      c0 ← load s str;
      if bool_decide (c0 = 112) || bool_decide (c0 = 80) then
        str ← skip_while (length s) my_isspace s end_ (str + 2);
        Some (str, Some 12)
      else if bool_decide (c0 <> 97) || bool_decide (c0 <> 65) then Some (str, None)
      else
        str ← skip_while (length s) my_isspace s end_ (str + 2);
        Some (str, Some add_hours)
    else Some (str, Some add_hours)
  else Some (str, Some add_hours).

(** One pass for field [i]. *)
Definition scan_field (fp s : list Z) (end_ allow_space : Z) (internal : bool) (i : Z) (st : scan)
  : option pass :=
  let start := sc_str st in
  c ← load s start;
  fp6 ← load fp 6;
  let scan_until_delim := negb internal && bool_decide (i <> fp6) in
  '(str, _, tmp_value) ← field_digits (length s) s end_ scan_until_delim (start + 1)
    (sc_field_length st) (u8 (c - 48));
  date_len ← store (sc_date_len st) i (u32 (str - start));
  if bool_decide (tmp_value > 999999) then Some NoTime
  else
    date ← store (sc_date st) i tmp_value;
    let not_zero_date := sc_not_zero_date st ||| tmp_value in
    fpn ← load fp (i + 1);
    let field_length := if bool_decide (fpn = 0) then 4 else 2 in
    let mk str field_length space delim last add :=
      mk_scan str field_length date date_len not_zero_date delim space last add in
    let space := sc_found_space st in
    let delim := sc_found_delimitier st in
    let add := sc_add_hours st in
    if bool_decide (str = end_) then Some (Leave (i + 1) (mk str field_length space delim str add))
    else
      c ← load s str;
      fp2 ← load fp 2;
      fp5 ← load fp 5;
      if bool_decide (i = fp2) && bool_decide (c = 84)
      then Some (Go (i + 1) (mk (str + 1) field_length space delim str add))
      else if bool_decide (i = fp5)
      then
        if bool_decide (c = 46)
        then Some (Go (i + 1) (mk (str + 1) 6 space delim str add))
        else Some (Go (i + 1) (mk str field_length space delim str add))
      else
        let last := str in
        r ← skip_delims (length s) s end_ allow_space i str space delim;
        match r with
        | Ret _ => Some NoTime
        | Next (str, space, delim) =>
            if bool_decide (i = fp6)
            then
              let i := i + 1 in
              fp7 ← load fp 7;
              if bool_decide (fp7 <> 255)
              then
                '(str, o) ← am_pm s end_ str add;
                match o with
                | None => Some (Go (i + 1) (mk str field_length space delim last add))
                | Some add => Some (Go (i + 1) (mk str field_length space delim str add))
                end
              else Some (Go (i + 1) (mk str field_length space delim str add))
            else Some (Go (i + 1) (mk str field_length space delim str add))
        end.

(** The loop over the fields; [None] inside is [MYSQL_TIMESTAMP_NONE]. *)
Fixpoint scan_fields (fuel : nat) (fp s : list Z) (end_ allow_space : Z) (internal : bool) (i : Z)
    (st : scan) : option (option (Z * scan)) :=
  match fuel with
  | O => None
  | S fuel =>
      go ← (if bool_decide (i < MAX_DATE_PARTS - 1) && bool_decide (sc_str st <> end_)
            then c ← load s (sc_str st); my_isdigit c else Some false);
      if (go : bool) then
        r ← scan_field fp s end_ allow_space internal i st;
        match r with
        | Go i st => scan_fields fuel fp s end_ allow_space internal i st
        | Leave i st => Some (Some (i, st))
        | NoTime => Some None
        end
      else Some (Some (i, st))
  end.

Definition allowed_space (fp : list Z) : option Z :=
  fp0 ← load fp 0; fp1 ← load fp 1; fp2 ← load fp 2; fp6 ← load fp 6;
  let i := Z.max (Z.max fp0 fp1) fp2 in
  Some (((1 ≪ i) ||| (1 ≪ fp6)) &&& 15).

(** [str], [field_length], [is_internal_format], [year_length], [start_loop] at the
    start of the loop; [None] inside is [MYSQL_TIMESTAMP_NONE]. *)
Definition scan_start (fp s : list Z) (end_ str flags : Z)
  : option (option (Z * bool * Z * Z)) :=
  pos ← skip_while (length s) digit_or_T s end_ str;
  let digits := u32 (pos - str) in
  internal ← (if bool_decide (pos = end_) then Some true
              else c ← load s pos; Some (bool_decide (c = 46)));
  if (internal : bool) then
    let year_length :=
      if bool_decide (digits = 4) || bool_decide (digits = 8) || bool_decide (digits >= 14)
      then 4 else 2 in
    Some (Some (year_length, true, year_length, 0))
  else
    fp0 ← load fp 0;
    let field_length := if bool_decide (fp0 = 0) then 4 else 2 in
    if bool_decide (fp0 >= 3) then
      pos ← skip_while (length s) (is_not my_isspace) s end_ pos;
      pos ← skip_while (length s) (is_not my_isdigit) s end_ pos;
      if bool_decide (pos = end_) then
        if flag flags TIME_DATETIME_ONLY then Some None
        else Some (Some (field_length, false, 0, 5))
      else Some (Some (field_length, false, 0, 0))
    else Some (Some (field_length, false, 0, 0)).

(** [while (i < MAX_DATE_PARTS) { a[i++]= 0; }] *)
Definition clear_from (i : Z) (a : list Z) : option (list Z) :=
  for_up (Z.to_nat (MAX_DATE_PARTS - i)) i (fun j a => store a j 0) a.

(** The fields of the time from [date]; [None] inside is [goto err] with [was_cut]
    1, because of an hour above 12 with AM/PM. *)
Definition fill_time (fp date date_len : list Z) (internal : bool) (add_hours : Z)
  : option (option (Z * Z * Z * Z * Z * Z * Z)) :=
  let get k := (p ← (if internal then Some k else load fp k); load date p) in
  y ← get 0; m ← get 1; d ← get 2; h ← get 3; mi ← get 4; sec ← get 5;
  frac_pos ← (if internal then Some 6 else load fp 6);
  frac_len ← load date_len frac_pos;
  frac ← load date frac_pos;
  part ← (if bool_decide (frac_len < 6) then
            f ← load log_10_int (6 - frac_len); Some (u32 (frac * u32 f))
          else Some frac);
  fp7 ← load fp 7;
  if negb internal && bool_decide (fp7 <> 255) then
    if bool_decide (h > 12) then Some None
    else Some (Some (y, m, d, u32 (h mod 12 + add_hours), mi, sec, part))
  else Some (Some (y, m, d, h, mi, sec, part)).

Definition zero_time : MYSQL_TIME := set_zero_time MYSQL_TIMESTAMP_DATE.

(** Some character before [end] is not a space. *)
Definition garbage (s : list Z) (end_ str : Z) : option bool :=
  pos ← skip_while (length s) my_isspace s end_ str; Some (bool_decide (pos <> end_)).

(** The part after the loop: checks and the result.  [bzero] leaves the type 0,
    which is [MYSQL_TIMESTAMP_DATE]. *)
Definition finish_datetime (s : list Z) (end_ str flags year_length not_zero_date number_of_fields : Z)
    (f : Z * Z * Z * Z * Z * Z * Z) : option (enum_mysql_timestamp_type * MYSQL_TIME * Z) :=
  let '(y, m, d, h, mi, sec, part) := f in
  let y := if bool_decide (year_length = 2) && bool_decide (not_zero_date <> 0)
           then u32 (y + (if bool_decide (y < YY_PART_YEAR) then 2000 else 1900)) else y in
  if bool_decide (number_of_fields < 3) || bool_decide (y > 9999) || bool_decide (m > 12) ||
     bool_decide (d > 31) || bool_decide (h > 23) || bool_decide (mi > 59) || bool_decide (sec > 59)
  then
    warn ← (if bool_decide (not_zero_date = 0) then garbage s end_ str else Some true);
    Some (MYSQL_TIMESTAMP_ERROR, zero_time, if (warn : bool) then 1 else 0)
  else
    let ty := if bool_decide (number_of_fields <= 3) then MYSQL_TIMESTAMP_DATE
              else MYSQL_TIMESTAMP_DATETIME in
    let t := mk_time y m d h mi sec part 0 ty in
    '(bad, was_cut) ← check_date t (bool_decide (not_zero_date <> 0)) flags 0;
    if (bad : bool) then Some (MYSQL_TIMESTAMP_ERROR, zero_time, was_cut)
    else
      g ← garbage s end_ str;
      Some (ty, t, if (g : bool) then 1 else was_cut).

(** The type returned, [l_time] and [was_cut]. *)
Definition str_to_datetime (s : list Z) (length_ : Z) (l_time : MYSQL_TIME) (flags : Z)
  : option (enum_mysql_timestamp_type * MYSQL_TIME * Z) :=
  let end_ := length_ in
  let NONE := Some (MYSQL_TIMESTAMP_NONE, l_time, 1) in
  str ← skip_while (length s) my_isspace s end_ 0;
  digit ← (if bool_decide (str = end_) then Some false else c ← load s str; my_isdigit c);
  if negb digit then NONE
  else
    let fp := internal_format_positions in
    r ← scan_start fp s end_ str flags;
    match r with
    | None => NONE
    | Some (field_length, internal, year_length, start_loop) =>
        allow_space ← allowed_space fp;
        fp0 ← load fp 0;
        date_len ← store (replicate 8 0) fp0 0;
        let st := mk_scan str field_length (replicate 8 0) date_len 0 false false 0 0 in
        r ← scan_fields (Z.to_nat MAX_DATE_PARTS) fp s end_ allow_space internal start_loop st;
        match r with
        | None => NONE
        | Some (i, st) =>
            if sc_found_delimitier st && negb (sc_found_space st) && flag flags TIME_DATETIME_ONLY
            then NONE
            else
              let str := sc_last_field_pos st in
              let number_of_fields := u32 (i - start_loop) in
              date_len ← clear_from i (sc_date_len st);
              date ← clear_from i (sc_date st);
              year_length ← (if internal then Some year_length else load date_len fp0);
              if negb internal && bool_decide (year_length = 0) then NONE
              else
                f ← fill_time fp date date_len internal (sc_add_hours st);
                match f with
                | None => Some (MYSQL_TIMESTAMP_ERROR, zero_time, 1)
                | Some f =>
                    finish_datetime s end_ str flags year_length (sc_not_zero_date st)
                      number_of_fields f
                end
        end
    end.

(** [for (value=0; str != end && my_isdigit; str++) value=value*10L + ...]. *)
Fixpoint read_value (fuel : nat) (s : list Z) (end_ str value : Z) : option (Z * Z) :=
  if bool_decide (str = end_) then Some (str, value)
  else
    match fuel with
    | O => None
    | S fuel =>
        c ← load s str;
        d ← my_isdigit c;
        if (d : bool) then read_value fuel s end_ (str + 1) (u64 (value * 10 + (c - 48)))
        else Some (str, value)
    end.

(** The character at [k] is a digit; the test is made with [k] before the end. *)
Definition digit_at (s : list Z) (k : Z) : option bool := c ← load s k; my_isdigit c.

(** The loop over hours, minutes and seconds: [str], [date] and [state]. *)
Fixpoint read_parts (fuel : nat) (s : list Z) (end_ str : Z) (date : list Z) (state : Z)
  : option (Z * list Z * Z) :=
  match fuel with
  | O => None
  | S fuel =>
      '(str, value) ← read_value (length s) s end_ str 0;
      date ← store date state (u32 value);
      let state := state + 1 in
      more ← (if bool_decide (state = 4) || bool_decide (end_ - str < 2) then Some false
              else
                c ← load s str;
                if bool_decide (c <> time_separator) then Some false else digit_at s (str + 1));
      if (more : bool) then read_parts fuel s end_ (str + 1) date state
      else Some (str, date, state)
  end.

(** Fields that were not given. *)
Definition fix_parts (date : list Z) (state : Z) (found : bool) : option (list Z) :=
  if bool_decide (state = 4) then Some date
  else if found then write date state (replicate (Z.to_nat (4 - state)) 0)
  else
    l ← read date 1 (state - 1);
    date ← write date (4 - (state - 1)) l;
    write date 0 (replicate (Z.to_nat (4 - state)) 0).

(** The digits of the fraction after the first: [str], [field_length], [value]. *)
Fixpoint fraction_digits (fuel : nat) (s : list Z) (end_ str field_length value : Z)
  : option (Z * Z * Z) :=
  let str := str + 1 in
  if bool_decide (str = end_) then Some (str, field_length, value)
  else
    match fuel with
    | O => None
    | S fuel =>
        c ← load s str;
        d ← my_isdigit c;
        if (d : bool) then
          let value := if bool_decide (field_length > 0) then u64 (value * 10 + u8 (c - 48)) else value in
          fraction_digits fuel s end_ str (field_length - 1) value
        else Some (str, field_length, value)
    end.

(** [str], the fraction in microseconds and the warnings. *)
Definition read_fraction (s : list Z) (end_ str warning : Z) : option (Z * Z * Z) :=
  point ← (if bool_decide (end_ - str >= 2) then
             c ← load s str;
             if bool_decide (c = 46) then digit_at s (str + 1) else Some false
           else Some false);
  if (point : bool) then
    let str := str + 1 in
    c ← load s str;
    '(str, field_length, value) ← fraction_digits (length s) s end_ str 5 (u8 (c - 48));
    if bool_decide (field_length > 0) then
      f ← load log_10_int field_length; Some (str, u32 (u64 (value * s32 f)), warning)
    else if bool_decide (field_length < 0)
    then Some (str, u32 value, warning ||| MYSQL_TIME_WARN_TRUNCATED)
    else Some (str, u32 value, warning)
  else Some (str, 0, warning).

(** An exponent follows. *)
Definition exponent (s : list Z) (end_ str : Z) : option bool :=
  if bool_decide (end_ - str > 1) then
    c ← load s str;
    if bool_decide (c = 101) || bool_decide (c = 69) then
      c1 ← load s (str + 1);
      d1 ← my_isdigit c1;
      if (d1 : bool) then Some true
      else if (bool_decide (c1 = 45) || bool_decide (c1 = 43)) && bool_decide (end_ - str > 2)
      then digit_at s (str + 2) else Some false
    else Some false
  else Some false.

(** The optional AM/PM of a format with that part: [str] and the hour. *)
Definition time_am_pm (s : list Z) (end_ str h : Z) : option (Z * Z) :=
  str ← skip_while (length s) my_isspace s end_ str;
  if bool_decide (str + 2 <= end_) then
    c1 ← load s (str + 1);
    if bool_decide (c1 = 77) || bool_decide (c1 = 109) then
      c0 ← load s str;
      if bool_decide (c0 = 112) || bool_decide (c0 = 80) then Some (str + 2, u32 (h mod 12 + 12))
      else if bool_decide (c0 = 97) || bool_decide (c0 = 65) then Some (str + 2, h)
      else Some (str, h)
    else Some (str, h)
  else Some (str, h).

(** After the label [fractional]; the result is the return value, [l_time] and
    the warnings.  [neg_] is the sign already stored. *)
Definition finish_time (s : list Z) (end_ str : Z) (date : list Z) (l_time : MYSQL_TIME) (warning : Z)
  : option (Z * MYSQL_TIME * Z) :=
  '(str, part, warning) ← read_fraction s end_ str warning;
  e ← exponent s end_ str;
  if (e : bool) then Some (1, l_time, warning)
  else
    d0 ← load date 0; d1 ← load date 1; d2 ← load date 2; d3 ← load date 3;
    fp7 ← load internal_format_positions 7;
    '(str, d1) ← (if bool_decide (fp7 <> 255) then time_am_pm s end_ str d1 else Some (str, d1));
    let UINT_MAX := 2 ^ 32 - 1 in
    if bool_decide (d0 > UINT_MAX) || bool_decide (d1 > UINT_MAX) || bool_decide (d2 > UINT_MAX) ||
       bool_decide (d3 > UINT_MAX) || bool_decide (part > UINT_MAX)
    then Some (1, l_time, warning)
    else
      let t := mk_time 0 0 d0 d1 d2 d3 part (neg l_time) MYSQL_TIMESTAMP_TIME in
      let '(err, t, warning) := check_time_range t warning in
      if bool_decide (err <> 0) then Some (1, t, warning)
      else
        g ← garbage s end_ str;
        Some (0, t, if (g : bool) then warning ||| MYSQL_TIME_WARN_TRUNCATED else warning).

Definition with_neg (t : MYSQL_TIME) (n : Z) : MYSQL_TIME :=
  mk_time (year t) (month t) (day t) (hour t) (minute t) (second t) (second_part t) n (time_type t).

(** The part that reads days, hours, minutes and seconds. *)
Definition time_parts (s : list Z) (end_ str : Z) (l_time : MYSQL_TIME)
  : option (Z * MYSQL_TIME * Z) :=
  let date := replicate 5 0 in
  '(str, value) ← read_value (length s) s end_ str 0;
  let end_of_days := str in
  str ← skip_while (length s) my_isspace s end_ str;
  found_days ← (if bool_decide (end_ - str > 1) && bool_decide (str <> end_of_days)
                then digit_at s str else Some false);
  found_hours ← (if negb found_days && bool_decide (end_ - str > 1) then
                   c ← load s str;
                   if bool_decide (c = time_separator) then digit_at s (str + 1) else Some false
                 else Some false);
  if (found_days || found_hours : bool) then
    date ← (if found_days then store date 0 (u32 value)
            else date ← store date 0 0; store date 1 (u32 value));
    let '(state, str) := if found_days then (1, str) else (2, str + 1) in
    '(str, date, state) ← read_parts 4 s end_ str date state;
    date ← fix_parts date state (found_days || found_hours);
    finish_time s end_ str date l_time 0
  else
    date ← store date 0 0;
    date ← store date 1 (u32 (value / 10000));
    date ← store date 2 (u32 (value / 100 mod 100));
    date ← store date 3 (u32 (value mod 100));
    finish_time s end_ str date l_time 0.

Definition str_to_time (s : list Z) (length_ : Z) (l_time : MYSQL_TIME)
  : option (Z * MYSQL_TIME * Z) :=
  let end_ := length_ in
  let l_time := with_neg l_time 0 in
  str ← skip_while (length s) my_isspace s end_ 0;
  minus ← (if bool_decide (str <> end_) then c ← load s str; Some (bool_decide (c = 45)) else Some false);
  let '(l_time, str) := if (minus : bool) then (with_neg l_time 1, str + 1) else (l_time, str) in
  if bool_decide (str = end_) then Some (1, l_time, 0)
  else
    let length_ := end_ - str in
    full ← (if bool_decide (length_ >= 12) then
              '(res, t, was_cut) ← str_to_datetime (drop (Z.to_nat str) s) length_ l_time
                 (TIME_FUZZY_DATE ||| TIME_DATETIME_ONLY);
              if bool_decide (res <> MYSQL_TIMESTAMP_NONE)
              then Some (Some (if bool_decide (res = MYSQL_TIMESTAMP_ERROR) then 1 else 0, t,
                               if bool_decide (was_cut <> 0) then MYSQL_TIME_WARN_TRUNCATED else 0))
              else Some None
            else Some None);
    match full with
    | Some r => Some r
    | None => time_parts s end_ str l_time
    end.

(** ** Printing *)

(** [%u] of an [unsigned int], at most ten digits. *)
Fixpoint udec (n : nat) (v : Z) (acc : list Z) : list Z :=
  match n with
  | O => acc
  | S n =>
      let acc := (48 + v mod 10) :: acc in
      if bool_decide (v / 10 = 0) then acc else udec n (v / 10) acc
  end.

(** [%0wu]. *)
Definition print_u (w : nat) (v : Z) : list Z :=
  let d := udec 10 v [] in replicate (w - length d) 48 ++ d.

(** [my_sprintf]: the number of characters and the buffer. *)
Definition sprintf_to (to str : list Z) : option (Z * list Z) :=
  to ← write to 0 (str ++ [0]); Some (Z.of_nat (length str), to).

Definition time_string (t : MYSQL_TIME) : list Z :=
  (if bool_decide (neg t <> 0) then [45] else []) ++
  print_u 2 (u32 (0 + hour t)) ++ [58] ++ print_u 2 (minute t) ++ [58] ++ print_u 2 (second t).

Definition date_string (t : MYSQL_TIME) : list Z :=
  print_u 4 (year t) ++ [45] ++ print_u 2 (month t) ++ [45] ++ print_u 2 (day t).

Definition my_time_to_str (t : MYSQL_TIME) (to : list Z) : option (Z * list Z) :=
  sprintf_to to (time_string t).

Definition my_date_to_str (t : MYSQL_TIME) (to : list Z) : option (Z * list Z) :=
  sprintf_to to (date_string t).

Definition my_datetime_to_str (t : MYSQL_TIME) (to : list Z) : option (Z * list Z) :=
  sprintf_to to
    (date_string t ++ [32] ++ print_u 2 (hour t) ++ [58] ++ print_u 2 (minute t) ++ [58] ++
     print_u 2 (second t)).

Definition my_TIME_to_str (t : MYSQL_TIME) (to : list Z) : option (Z * list Z) :=
  match time_type t with
  | MYSQL_TIMESTAMP_DATETIME => my_datetime_to_str t to
  | MYSQL_TIMESTAMP_DATE => my_date_to_str t to
  | MYSQL_TIMESTAMP_TIME => my_time_to_str t to
  | MYSQL_TIMESTAMP_NONE | MYSQL_TIMESTAMP_ERROR => to ← store to 0 0; Some (0, to)
  end.

End TimeStr.
