(* ===== verification/TimeStrRound.v ===== *)
(** * TimeStrRound: printing a date or a time and parsing it again

    Round trips through [my_datetime_to_str], [my_date_to_str] and [my_time_to_str]
    and the parsers of [libmysql/my_time.c]. *)
From stdpp Require Import base tactics option list numbers.
From Stdlib Require Import ZArith Lia.
From S2P Require Import Prelude.
From S2P Require Import Ctype.
From S2P Require Import Digest.
From S2P Require Import MyTime.
From S2P Require Import TimeStr.
From S2P Require Import TimeStrProps.

Module TimeStrRound.
Import Ctype MyTime TimeStr TimeStrProps.

(** ** Digits *)

Definition digit (d : Z) : Prop := 0 <= d <= 9.

Lemma isdigit_digit d : digit d -> my_isdigit (48 + d) = Some true.
Proof.
  unfold digit. intros Hd. rewrite my_isdigit_spec by lia. by rewrite bool_decide_true by lia.
Qed.

Lemma isspace_digit d : digit d -> my_isspace (48 + d) = Some false.
Proof.
  unfold digit. intros Hd. rewrite my_isspace_spec by lia. by rewrite bool_decide_false by lia.
Qed.

Lemma digit_cases (P : Z -> Prop) d :
  P 0 -> P 1 -> P 2 -> P 3 -> P 4 -> P 5 -> P 6 -> P 7 -> P 8 -> P 9 -> digit d -> P d.
Proof.
  unfold digit. intros. assert (Hc : d = 0 \/ d = 1 \/ d = 2 \/ d = 3 \/ d = 4 \/ d = 5 \/
    d = 6 \/ d = 7 \/ d = 8 \/ d = 9) by lia. by repeat destruct Hc as [-> | Hc]; subst.
Qed.

Lemma ispunct_digit d : digit d -> my_ispunct (48 + d) = Some false.
Proof. intros Hd. pattern d. apply digit_cases; (exact Hd || reflexivity). Qed.

Lemma digit_value d : digit d -> u8 (48 + d - 48) = d.
Proof. unfold digit. intros. rewrite uwrap_small by lia. lia. Qed.

(** [%02u] and [%04u]. *)
Definition two (v : Z) : list Z := [48 + v / 10; 48 + v mod 10].
Definition four (v : Z) : list Z :=
  [48 + v / 1000; 48 + v / 100 mod 10; 48 + v / 10 mod 10; 48 + v mod 10].

Lemma print_two v : 0 <= v < 100 -> print_u 2 v = two v.
Proof.
  intros Hv. unfold print_u, two. cbn [udec].
  destruct (decide (v / 10 = 0)) as [E | E].
  - rewrite (bool_decide_true (v / 10 = 0)) by done. cbn. by rewrite E.
  - rewrite (bool_decide_false (v / 10 = 0)) by done.
    rewrite (bool_decide_true (v / 10 / 10 = 0)) by Zlia. cbn. rewrite Z.mod_small by Zlia. done.
Qed.

Lemma print_four v : 0 <= v < 10000 -> print_u 4 v = four v.
Proof.
  intros Hv. unfold print_u, four. cbn [udec].
  assert (E2 : v / 100 = v / 10 / 10) by (by rewrite Z.div_div).
  assert (E3 : v / 1000 = v / 10 / 10 / 10) by (by rewrite !Z.div_div).
  rewrite E2, E3.
  destruct (decide (v / 10 = 0)) as [E | E]; [rewrite (bool_decide_true (v / 10 = 0)) by done; by rewrite E |].
  rewrite (bool_decide_false (v / 10 = 0)) by done.
  destruct (decide (v / 10 / 10 = 0)) as [E' | E'].
  { rewrite (bool_decide_true (v / 10 / 10 = 0)) by done. by rewrite E'. }
  rewrite (bool_decide_false (v / 10 / 10 = 0)) by done.
  destruct (decide (v / 10 / 10 / 10 = 0)) as [E'' | E''].
  { rewrite (bool_decide_true (v / 10 / 10 / 10 = 0)) by done. by rewrite E''. }
  rewrite (bool_decide_false (v / 10 / 10 / 10 = 0)) by done.
  rewrite (bool_decide_true (v / 10 / 10 / 10 / 10 = 0)) by Zlia.
  cbn. by rewrite (Z.mod_small (v / 10 / 10 / 10)) by Zlia.
Qed.

Lemma two_digits v : 0 <= v < 100 -> digit (v / 10) /\ digit (v mod 10).
Proof. unfold digit. intros. Zlia. Qed.

Lemma four_digits v : 0 <= v < 10000 ->
  digit (v / 1000) /\ digit (v / 100 mod 10) /\ digit (v / 10 mod 10) /\ digit (v mod 10).
Proof. unfold digit. intros. Zlia. Qed.

(** ** One field of a delimited date *)

Section Scan.
Context (s : list Z) (end_ : Z).

Lemma field_step n p fl v d :
  p <> end_ -> load s p = Some (48 + d) -> digit d -> 0 <= v -> v * 10 + d < 2 ^ 32 ->
  field_digits (S n) s end_ true p fl v = field_digits n s end_ true (p + 1) fl (v * 10 + d).
Proof.
  intros Hp Hl Hd Hv Hw. cbn [field_digits]. rewrite bool_decide_false by done. rewrite Hl.
  cbn [mbind option_bind]. rewrite isdigit_digit by done. cbn [mbind option_bind negb orb].
  rewrite digit_value by done. unfold digit in Hd.
  by rewrite (uwrap_small 32 (v * 10)), uwrap_small by lia.
Qed.

(** The end of a field: the end of the string or a delimiter. *)
Definition field_end (p : Z) : Prop :=
  p = end_ \/ exists c, load s p = Some c /\ my_isdigit c = Some false.

Lemma field_stop n p fl v :
  field_end p -> field_digits (S n) s end_ true p fl v = Some (p, fl, v).
Proof.
  intros [-> | (c & Hl & Hc)]; cbn [field_digits]; [by rewrite bool_decide_true |].
  case_bool_decide; [done |]. rewrite Hl. cbn [mbind option_bind]. by rewrite Hc.
Qed.

(** The [n] digits [ds] of a field after the first. *)
Lemma field_run ds n p fl v :
  (forall k d, ds !! k = Some d -> p + Z.of_nat k <> end_ /\ load s (p + Z.of_nat k) = Some (48 + d) /\ digit d) ->
  field_end (p + Z.of_nat (length ds)) -> (length ds < n)%nat -> 0 <= v -> (v + 1) * 10 ^ Z.of_nat (length ds) <= 2 ^ 32 ->
  field_digits n s end_ true p fl v =
  Some (p + Z.of_nat (length ds), fl, foldl (fun v d => v * 10 + d) v ds).
Proof.
  revert n p v; induction ds as [| d ds IH]; intros n p v Hds Hend Hn Hv Hw.
  - destruct n as [| n]; [simpl in Hn; lia |]. simpl in *. rewrite Z.add_0_r in *. by apply field_stop.
  - destruct n as [| n]; [simpl in Hn; lia |]. destruct (Hds 0%nat d eq_refl) as (H1 & H2 & H3).
    rewrite Z.add_0_r in *. cbn [length] in *.
    assert (Hpow : 10 ^ Z.of_nat (S (length ds)) = 10 * 10 ^ Z.of_nat (length ds)).
    { rewrite Nat2Z.inj_succ, Z.pow_succ_r by lia. done. }
    assert (HX : 1 <= 10 ^ Z.of_nat (length ds)) by lia. rewrite Hpow in Hw. clear Hpow.
    set (X := 10 ^ Z.of_nat (length ds)) in *. pose proof H3 as H3'. unfold digit in H3'.
    assert (Hw1 : (v + 1) * 10 <= 2 ^ 32) by nia.
    assert (Hw2 : (v * 10 + d + 1) * X <= 2 ^ 32) by nia.
    rewrite (field_step _ _ _ _ d) by (done || lia).
    rewrite (IH n (p + 1)); [| | | lia | lia |].
    + by replace (p + Z.of_nat (S (length ds))) with (p + 1 + Z.of_nat (length ds)) by lia.
    + intros k e Hk. replace (p + 1 + Z.of_nat k) with (p + Z.of_nat (S k)) by lia. by apply Hds.
    + by replace (p + 1 + Z.of_nat (length ds)) with (p + Z.of_nat (S (length ds))) by lia.
    + exact Hw2.
Qed.

(** A pass over a field [d0 ds] of a delimited date that is followed by one
    delimiter [c] and another digit. *)
Lemma scan_field_delim i st d0 ds c e :
  let q := sc_str st + 1 + Z.of_nat (length ds) in
  let v := foldl (fun v d => v * 10 + d) d0 ds in
  0 <= i <= 4 -> length (sc_date st) = 8%nat -> length (sc_date_len st) = 8%nat ->
  load s (sc_str st) = Some (48 + d0) -> digit d0 ->
  (forall k d, ds !! k = Some d -> sc_str st + 1 + Z.of_nat k <> end_ /\
     load s (sc_str st + 1 + Z.of_nat k) = Some (48 + d) /\ digit d) ->
  (length ds <= 3)%nat -> (length ds < length s)%nat -> 0 <= v <= 999999 ->
  q <> end_ -> load s q = Some c -> my_isdigit c = Some false -> c <> 84 ->
  (c = 32 /\ i = 2) \/ (my_ispunct c = Some true /\ my_isspace c = Some false) ->
  q + 1 <> end_ -> load s (q + 1) = Some (48 + e) -> digit e -> (2 <= length s)%nat ->
  exists fl, scan_field internal_format_positions s end_ 4 false i st =
    Some (Go (i + 1) (mk_scan (q + 1) fl (<[Z.to_nat i := v]> (sc_date st))
      (<[Z.to_nat i := u32 (Z.of_nat (length ds) + 1)]> (sc_date_len st))
      (sc_not_zero_date st ||| v) true (sc_found_space st || bool_decide (c = 32)) (q + 1) (sc_add_hours st))).
Proof.
  intros q v Hi Hd Hl H0 Hd0 Hds Hlen Hfuel Hv Hq Hc Hcd H84 Hdel Hq1 He Hde Hs2. unfold scan_field.
  rewrite H0. cbn [mbind option_bind]. rewrite (fp_load 6) by lia. cbn [mbind option_bind].
  change (at_ internal_format_positions 6) with 6. rewrite (bool_decide_true (i <> 6)) by lia. cbn [negb andb].
  rewrite digit_value by done.
  rewrite (field_run ds); [| done | right; by exists c | done | unfold digit in Hd0; lia |].
  2:{ unfold digit in Hd0. assert (Hl3 : 10 ^ Z.of_nat (length ds) <= 10 ^ 3) by (apply Z.pow_le_mono_r; lia).
      assert (0 < 10 ^ Z.of_nat (length ds)) by lia. nia. }
  cbn [mbind option_bind]. fold q v. rewrite (store_in (sc_date_len st)) by lia. cbn [mbind option_bind].
  rewrite (bool_decide_false (v > 999999)) by lia. rewrite (store_in (sc_date st)) by lia.
  cbn [mbind option_bind]. rewrite (fp_load (i + 1)) by lia. cbn [mbind option_bind].
  rewrite (bool_decide_false (q = end_)) by done. rewrite Hc. cbn [mbind option_bind].
  rewrite (fp_load 2), (fp_load 5) by lia. cbn [mbind option_bind].
  change (at_ internal_format_positions 5) with 5.
  rewrite (bool_decide_false (c = 84)), andb_false_r by done. rewrite (bool_decide_false (i = 5)) by lia.
  assert (Hsk : skip_delims (length s) s end_ 4 i q (sc_found_space st) (sc_found_delimitier st) =
    Some (Next (q + 1, sc_found_space st || bool_decide (c = 32), true))).
  { destruct (length s) as [| [| n]] eqn:En; [lia | lia |]. cbn [skip_delims].
    rewrite (bool_decide_false (q = end_)) by done. rewrite Hc. cbn [mbind option_bind].
    rewrite (bool_decide_false (q + 1 = end_)) by done. rewrite He.
    change (mbind ?f (Some (48 + e))) with (f (48 + e)). cbv beta.
    rewrite ispunct_digit, isspace_digit by done. cbn [mbind option_bind orb andb].
    destruct Hdel as [[-> ->] | [-> Hsp]].
    - done.
    - rewrite Hsp. cbn [mbind option_bind orb andb].
      assert (c <> 32) by (intros ->; vm_compute in Hsp; congruence).
      by rewrite (bool_decide_false (c = 32)) by done. }
  rewrite Hsk. cbn [mbind option_bind]. rewrite (bool_decide_false (i = 6)) by lia.
  eexists. unfold q. repeat f_equal. lia.
Qed.

(** A pass over the last field. *)
Lemma scan_field_last i st d0 ds :
  let q := sc_str st + 1 + Z.of_nat (length ds) in
  let v := foldl (fun v d => v * 10 + d) d0 ds in
  0 <= i <= 5 -> length (sc_date st) = 8%nat -> length (sc_date_len st) = 8%nat ->
  load s (sc_str st) = Some (48 + d0) -> digit d0 ->
  (forall k d, ds !! k = Some d -> sc_str st + 1 + Z.of_nat k <> end_ /\
     load s (sc_str st + 1 + Z.of_nat k) = Some (48 + d) /\ digit d) ->
  (length ds <= 3)%nat -> (length ds < length s)%nat -> 0 <= v <= 999999 -> q = end_ ->
  exists fl, scan_field internal_format_positions s end_ 4 false i st =
    Some (Leave (i + 1) (mk_scan q fl (<[Z.to_nat i := v]> (sc_date st))
      (<[Z.to_nat i := u32 (Z.of_nat (length ds) + 1)]> (sc_date_len st))
      (sc_not_zero_date st ||| v) (sc_found_delimitier st) (sc_found_space st) q (sc_add_hours st))).
Proof.
  intros q v Hi Hd Hl H0 Hd0 Hds Hlen Hfuel Hv Hq. unfold scan_field.
  rewrite H0. cbn [mbind option_bind]. rewrite (fp_load 6) by lia. cbn [mbind option_bind].
  change (at_ internal_format_positions 6) with 6. rewrite (bool_decide_true (i <> 6)) by lia. cbn [negb andb].
  rewrite digit_value by done.
  rewrite (field_run ds); [| done | by left | done | unfold digit in Hd0; lia |].
  2:{ unfold digit in Hd0. assert (Hl3 : 10 ^ Z.of_nat (length ds) <= 10 ^ 3) by (apply Z.pow_le_mono_r; lia).
      assert (0 < 10 ^ Z.of_nat (length ds)) by lia. nia. }
  cbn [mbind option_bind]. fold q v. rewrite (store_in (sc_date_len st)) by lia. cbn [mbind option_bind].
  rewrite (bool_decide_false (v > 999999)) by lia. rewrite (store_in (sc_date st)) by lia.
  cbn [mbind option_bind]. rewrite (fp_load (i + 1)) by lia. cbn [mbind option_bind].
  rewrite (bool_decide_true (q = end_)) by done. eexists. unfold q. repeat f_equal. lia.
Qed.

(** One step of the loop over the fields. *)
Lemma scan_fields_step n i st d0 r :
  0 <= i < 7 -> sc_str st <> end_ -> load s (sc_str st) = Some (48 + d0) -> digit d0 ->
  scan_field internal_format_positions s end_ 4 false i st = Some r ->
  scan_fields (S n) internal_format_positions s end_ 4 false i st =
  match r with
  | Go i st => scan_fields n internal_format_positions s end_ 4 false i st
  | Leave i st => Some (Some (i, st))
  | NoTime => Some None
  end.
Proof.
  intros Hi Hne Hl Hd Hr. cbn [scan_fields]. unfold MAX_DATE_PARTS. change (8 - 1) with 7.
  rewrite !bool_decide_true by (done || lia). cbn [andb]. rewrite Hl. cbn [mbind option_bind].
  rewrite isdigit_digit by done. cbn [mbind option_bind]. by rewrite Hr.
Qed.
End Scan.

(** The text of a date, and of a date with a time. *)
Definition date_text (y m d : Z) : list Z := four y ++ [45] ++ two m ++ [45] ++ two d.
Definition datetime_text (y m d h mi sec : Z) : list Z :=
  date_text y m d ++ [32] ++ two h ++ [58] ++ two mi ++ [58] ++ two sec.

Lemma four_value y : 0 <= y ->
  foldl (fun v d => v * 10 + d) (y / 1000) [y / 100 mod 10; y / 10 mod 10; y mod 10] = y.
Proof. intros. cbn. Zlia. Qed.

Lemma two_value v : 0 <= v -> foldl (fun v d => v * 10 + d) (v / 10) [v mod 10] = v.
Proof. intros. cbn. Zlia. Qed.

Local Ltac digits_at :=
  let k := fresh "k" in let e := fresh "e" in
  intros k e; destruct k as [| [| [| k]]]; simpl; intros Hk; simplify_eq;
  (split; [lia | split; [reflexivity | assumption]]).

(** The loop over the fields of a date followed by [tail]. *)
Lemma scan_date y m d tail end_ fl n :
  0 <= y <= 9999 -> 0 <= m <= 99 -> 0 <= d <= 99 ->
  let s := date_text y m d ++ tail in
  let st0 := mk_scan 0 fl (replicate 8 0) (replicate 8 0) 0 false false 0 0 in
  10 <= end_ <= Z.of_nat (length s) ->
  exists fl', scan_fields (S (S n)) internal_format_positions s end_ 4 false 0 st0 =
    scan_fields n internal_format_positions s end_ 4 false 2
      (mk_scan 8 fl' [y; m; 0; 0; 0; 0; 0; 0] [4; 2; 0; 0; 0; 0; 0; 0] (y ||| m) true false 8 0).
Proof.
  intros Hy Hm Hd s st0 Hend.
  destruct (four_digits y) as (Y1 & Y2 & Y3 & Y4); [lia |].
  destruct (two_digits m) as (M1 & M2); [lia |]. destruct (two_digits d) as (D1 & D2); [lia |].
  destruct (scan_field_delim s end_ 0 st0 (y / 1000) [y / 100 mod 10; y / 10 mod 10; y mod 10] 45 (m / 10))
    as [fl1 E1]; rewrite ?four_value by lia; try (assumption || reflexivity || lia || (simpl; lia)).
  { digits_at. }
  { right. split; reflexivity. }
  rewrite four_value in E1 by lia.
  rewrite (scan_fields_step s end_ (S n) 0 st0 (y / 1000) _ ltac:(lia) ltac:(simpl; lia) eq_refl Y1 E1).
  match goal with |- context [scan_fields (S n) _ _ _ _ _ _ ?st] => set (st1 := st) end.
  destruct (scan_field_delim s end_ 1 st1 (m / 10) [m mod 10] 45 (d / 10))
    as [fl2 E2]; rewrite ?two_value by lia; try (assumption || reflexivity || lia || (simpl; lia)).
  { digits_at. }
  { right. split; reflexivity. }
  rewrite two_value in E2 by lia.
  change (0 + 1) with 1.
  rewrite (scan_fields_step s end_ n 1 st1 (m / 10) _ ltac:(lia) ltac:(simpl; lia) eq_refl M1 E2).
  exists fl2. reflexivity.
Qed.

Local Ltac side := try (assumption || reflexivity || lia || (simpl; lia)).

Lemma scan_day_end y m d tail fl n :
  0 <= y <= 9999 -> 0 <= m <= 99 -> 0 <= d <= 99 ->
  let s := date_text y m d ++ tail in
  let st := mk_scan 8 fl [y; m; 0; 0; 0; 0; 0; 0] [4; 2; 0; 0; 0; 0; 0; 0] (y ||| m) true false 8 0 in
  exists fl', scan_fields (S n) internal_format_positions s 10 4 false 2 st =
    Some (Some (3, mk_scan 10 fl' [y; m; d; 0; 0; 0; 0; 0] [4; 2; 2; 0; 0; 0; 0; 0] (y ||| m ||| d)
      true false 10 0)).
Proof.
  intros Hy Hm Hd s st. destruct (two_digits d) as (D1 & D2); [lia |].
  destruct (scan_field_last s 10 2 st (d / 10) [d mod 10]) as [fl1 E1]; rewrite ?two_value by lia; side.
  { digits_at. }
  rewrite two_value in E1 by lia.
  rewrite (scan_fields_step s 10 n 2 st (d / 10) _ ltac:(lia) ltac:(simpl; lia) eq_refl D1 E1).
  exists fl1. reflexivity.
Qed.

Lemma scan_day_time y m d h mi sec tail fl n :
  0 <= y <= 9999 -> 0 <= m <= 99 -> 0 <= d <= 99 -> 0 <= h <= 99 -> 0 <= mi <= 99 -> 0 <= sec <= 99 ->
  let s := datetime_text y m d h mi sec ++ tail in
  let st := mk_scan 8 fl [y; m; 0; 0; 0; 0; 0; 0] [4; 2; 0; 0; 0; 0; 0; 0] (y ||| m) true false 8 0 in
  exists fl', scan_fields (S (S (S (S n)))) internal_format_positions s 19 4 false 2 st =
    Some (Some (6, mk_scan 19 fl' [y; m; d; h; mi; sec; 0; 0] [4; 2; 2; 2; 2; 2; 0; 0]
      (y ||| m ||| d ||| h ||| mi ||| sec) true true 19 0)).
Proof.
  intros Hy Hm Hd Hh Hmi Hs s st.
  destruct (two_digits d) as (D1 & D2); [lia |]. destruct (two_digits h) as (H1 & H2); [lia |].
  destruct (two_digits mi) as (M1 & M2); [lia |]. destruct (two_digits sec) as (S1 & S2); [lia |].
  destruct (scan_field_delim s 19 2 st (d / 10) [d mod 10] 32 (h / 10)) as [fl1 E1];
    rewrite ?two_value by lia; side.
  { digits_at. }
  rewrite two_value in E1 by lia.
  rewrite (scan_fields_step s 19 _ 2 st (d / 10) _ ltac:(lia) ltac:(simpl; lia) eq_refl D1 E1).
  match goal with |- context [scan_fields _ _ _ _ _ _ _ ?x] => set (st1 := x) end. change (2 + 1) with 3.
  destruct (scan_field_delim s 19 3 st1 (h / 10) [h mod 10] 58 (mi / 10)) as [fl2 E2];
    rewrite ?two_value by lia; side.
  { digits_at. } { right. split; reflexivity. }
  rewrite two_value in E2 by lia.
  rewrite (scan_fields_step s 19 _ 3 st1 (h / 10) _ ltac:(lia) ltac:(simpl; lia) eq_refl H1 E2).
  match goal with |- context [scan_fields _ _ _ _ _ _ _ ?x] => set (st2 := x) end. change (3 + 1) with 4.
  destruct (scan_field_delim s 19 4 st2 (mi / 10) [mi mod 10] 58 (sec / 10)) as [fl3 E3];
    rewrite ?two_value by lia; side.
  { digits_at. } { right. split; reflexivity. }
  rewrite two_value in E3 by lia.
  rewrite (scan_fields_step s 19 _ 4 st2 (mi / 10) _ ltac:(lia) ltac:(simpl; lia) eq_refl M1 E3).
  match goal with |- context [scan_fields _ _ _ _ _ _ _ ?x] => set (st3 := x) end. change (4 + 1) with 5.
  destruct (scan_field_last s 19 5 st3 (sec / 10) [sec mod 10]) as [fl4 E4]; rewrite ?two_value by lia; side.
  { digits_at. }
  rewrite two_value in E4 by lia.
  rewrite (scan_fields_step s 19 _ 5 st3 (sec / 10) _ ltac:(lia) ltac:(simpl; lia) eq_refl S1 E4).
  exists fl4. reflexivity.
Qed.

(** ** The parser on a text that starts with a date *)

Lemma skip_while_stop n p s end_ str c :
  load s str = Some c -> p c = Some false -> skip_while (S n) p s end_ str = Some str.
Proof. intros Hl Hp. cbn [skip_while]. case_bool_decide; [done |]. rewrite Hl. cbn [mbind option_bind]. by rewrite Hp. Qed.

Lemma skip_while_next n p s end_ str c :
  str <> end_ -> load s str = Some c -> p c = Some true ->
  skip_while (S n) p s end_ str = skip_while n p s end_ (str + 1).
Proof.
  intros Hne Hl Hp. cbn [skip_while]. rewrite bool_decide_false by done. rewrite Hl. cbn [mbind option_bind].
  by rewrite Hp.
Qed.

Lemma digit_or_T_digit d : digit d -> digit_or_T (48 + d) = Some true.
Proof. intros Hd. unfold digit_or_T. by rewrite isdigit_digit. Qed.

Lemma scan_start_date y m d tail end_ flags :
  0 <= y <= 9999 -> 10 <= end_ ->
  scan_start internal_format_positions (date_text y m d ++ tail) end_ 0 flags = Some (Some (4, false, 0, 0)).
Proof.
  intros Hy Hend. destruct (four_digits y) as (Y1 & Y2 & Y3 & Y4); [lia |]. unfold scan_start.
  change (length (date_text y m d ++ tail)) with (S (S (S (S (S (5 + length tail)))))).
  erewrite skip_while_next by (lia || reflexivity || by apply digit_or_T_digit).
  erewrite skip_while_next by (lia || reflexivity || by apply digit_or_T_digit).
  erewrite skip_while_next by (lia || reflexivity || by apply digit_or_T_digit).
  erewrite skip_while_next by (lia || reflexivity || by apply digit_or_T_digit).
  erewrite skip_while_stop by reflexivity. cbn [mbind option_bind].
  rewrite (bool_decide_false (_ = end_)) by lia. reflexivity.
Qed.

(** The zero date of a scan is not reached when the month is not 0. *)
Lemma lor_nonzero a b : b <> 0 -> a ||| b <> 0.
Proof. intros Hb [_ E]%Z.lor_eq_0_iff. done. Qed.

Lemma lor_nonzero_l a b : a <> 0 -> a ||| b <> 0.
Proof. intros Ha [E _]%Z.lor_eq_0_iff. done. Qed.

Lemma finish_valid s end_ flags yl nz n y m d h mi sec :
  nz <> 0 -> yl <> 2 -> 3 <= n -> 0 <= y <= 9999 -> valid_date y m d -> 0 <= h <= 23 -> 0 <= mi <= 59 -> 0 <= sec <= 59 ->
  finish_datetime s end_ end_ flags yl nz n (y, m, d, h, mi, sec, 0) =
  Some (let ty := if bool_decide (n <= 3) then MYSQL_TIMESTAMP_DATE else MYSQL_TIMESTAMP_DATETIME in
        (ty, mk_time y m d h mi sec 0 0 ty, 0)).
Proof.
  intros Hnz Hyl Hn Hy Hv Hh Hmi Hs. unfold finish_datetime. rewrite (bool_decide_false (yl = 2)) by done.
  cbn [andb]. destruct Hv as [Hm Hd]. pose proof (month_days_bound y m Hm).
  rewrite !(bool_decide_false (_ > _)), (bool_decide_false (n < 3)) by lia. cbn [orb].
  rewrite check_date_spec by (cbn; lia). cbn [mbind option_bind year month day].
  rewrite (bool_decide_true (nz <> 0)) by done.
  rewrite valid_not_bad by by split. unfold garbage.
  assert (E : skip_while (length s) my_isspace s end_ end_ = Some end_).
  { destruct (length s); cbn [skip_while]; by rewrite bool_decide_true. }
  rewrite E. cbn [mbind option_bind]. by rewrite (bool_decide_false (end_ <> end_)) by tauto.
Qed.

Lemma fill_zero_fraction y m d h mi sec l0 l1 l2 l3 l4 l5 l7 :
  fill_time internal_format_positions [y; m; d; h; mi; sec; 0; 0] [l0; l1; l2; l3; l4; l5; 0; l7] false 0 =
  Some (Some (y, m, d, h, mi, sec, 0)).
Proof. reflexivity. Qed.

(** The parser up to the loop over the fields. *)
Lemma parse_start y m d tail end_ l flags :
  0 <= y <= 9999 -> 10 <= end_ ->
  let s := date_text y m d ++ tail in
  str_to_datetime s end_ l flags =
  (r ← scan_fields 8 internal_format_positions s end_ 4 false 0
         (mk_scan 0 4 (replicate 8 0) (replicate 8 0) 0 false false 0 0);
   match r with
   | None => Some (MYSQL_TIMESTAMP_NONE, l, 1)
   | Some (i, st) =>
       if sc_found_delimitier st && negb (sc_found_space st) && flag flags TIME_DATETIME_ONLY
       then Some (MYSQL_TIMESTAMP_NONE, l, 1)
       else
         date_len ← clear_from i (sc_date_len st);
         date ← clear_from i (sc_date st);
         year_length ← load date_len 0;
         if bool_decide (year_length = 0) then Some (MYSQL_TIMESTAMP_NONE, l, 1)
         else
           f ← fill_time internal_format_positions date date_len false (sc_add_hours st);
           match f with
           | None => Some (MYSQL_TIMESTAMP_ERROR, zero_time, 1)
           | Some f => finish_datetime s end_ (sc_last_field_pos st) flags year_length
                         (sc_not_zero_date st) (u32 (i - 0)) f
           end
   end).
Proof.
  intros Hy Hend s. destruct (four_digits y) as (Y1 & _); [lia |]. unfold str_to_datetime.
  assert (H0 : load s 0 = Some (48 + y / 1000)) by reflexivity.
  change (length s) with (S (9 + length tail)). rewrite (skip_while_stop _ _ _ _ _ _ H0 (isspace_digit _ Y1)).
  change (mbind ?f (Some 0)) with (f 0). cbv beta. rewrite (bool_decide_false (0 = end_)) by lia.
  rewrite H0. change (mbind ?f (Some (48 + y / 1000))) with (f (48 + y / 1000)). cbv beta.
  rewrite isdigit_digit by done.
  change (mbind ?f (Some true)) with (f true). cbv beta. cbn [negb].
  unfold s. rewrite scan_start_date by lia. reflexivity.
Qed.

Lemma parse_date y m d tail l flags :
  0 <= y <= 9999 -> valid_date y m d -> flag flags TIME_DATETIME_ONLY = false ->
  str_to_datetime (date_text y m d ++ tail) 10 l flags =
  Some (MYSQL_TIMESTAMP_DATE, mk_time y m d 0 0 0 0 0 MYSQL_TIMESTAMP_DATE, 0).
Proof.
  intros Hy Hv Hf. pose proof Hv as [Hm Hd]. pose proof (month_days_bound y m Hm).
  rewrite parse_start by lia.
  destruct (scan_date y m d tail 10 4 6) as [fl1 ->]; [lia | lia | lia | rewrite length_app; simpl; lia |].
  destruct (scan_day_end y m d tail fl1 5) as [fl2 ->]; [lia | lia | lia |].
  cbn [mbind option_bind sc_found_delimitier sc_found_space sc_date sc_date_len sc_add_hours
    sc_last_field_pos sc_not_zero_date]. rewrite Hf. cbn [negb andb].
  change (clear_from 3 [4; 2; 2; 0; 0; 0; 0; 0]) with (Some [4; 2; 2; 0; 0; 0; 0; 0]).
  change (clear_from 3 [y; m; d; 0; 0; 0; 0; 0]) with (Some [y; m; d; 0; 0; 0; 0; 0]).
  cbn [mbind option_bind]. change (load [4; 2; 2; 0; 0; 0; 0; 0] 0) with (Some 4).
  cbn [mbind option_bind]. change (bool_decide (4 = 0)) with false. cbv iota.
  rewrite fill_zero_fraction. cbn [mbind option_bind].
  rewrite finish_valid by (done || lia || (apply lor_nonzero_l, lor_nonzero; lia)). done.
Qed.

Lemma parse_datetime y m d h mi sec tail l flags :
  0 <= y <= 9999 -> valid_date y m d -> 0 <= h <= 23 -> 0 <= mi <= 59 -> 0 <= sec <= 59 ->
  str_to_datetime (datetime_text y m d h mi sec ++ tail) 19 l flags =
  Some (MYSQL_TIMESTAMP_DATETIME, mk_time y m d h mi sec 0 0 MYSQL_TIMESTAMP_DATETIME, 0).
Proof.
  intros Hy Hv Hh Hmi Hs. pose proof Hv as [Hm Hd]. pose proof (month_days_bound y m Hm).
  unfold datetime_text. rewrite <- app_assoc. rewrite parse_start by lia.
  destruct (scan_date y m d (([32] ++ two h ++ [58] ++ two mi ++ [58] ++ two sec) ++ tail) 19 4 6)
    as [fl1 ->]; [lia | lia | lia | rewrite !length_app; simpl; lia |].
  rewrite app_assoc. fold (datetime_text y m d h mi sec).
  destruct (scan_day_time y m d h mi sec tail fl1 2) as [fl2 ->]; try lia.
  cbn [mbind option_bind sc_found_delimitier sc_found_space sc_date sc_date_len sc_add_hours
    sc_last_field_pos sc_not_zero_date negb andb].
  change (clear_from 6 [4; 2; 2; 2; 2; 2; 0; 0]) with (Some [4; 2; 2; 2; 2; 2; 0; 0]).
  change (clear_from 6 [y; m; d; h; mi; sec; 0; 0]) with (Some [y; m; d; h; mi; sec; 0; 0]).
  cbn [mbind option_bind]. change (load [4; 2; 2; 2; 2; 2; 0; 0] 0) with (Some 4).
  cbn [mbind option_bind]. change (bool_decide (4 = 0)) with false. cbv iota.
  rewrite fill_zero_fraction. cbn [mbind option_bind].
  rewrite finish_valid by (done || lia || (do 4 apply lor_nonzero_l; apply lor_nonzero; lia)). done.
Qed.

(** ** Times *)

(** The hours of a TIME value have two or three digits. *)
Definition hours (h : Z) : list Z :=
  if bool_decide (h < 100) then two h else [48 + h / 100; 48 + h / 10 mod 10; 48 + h mod 10].

Lemma print_hours h : 0 <= h < 1000 -> print_u 2 h = hours h.
Proof.
  intros Hh. unfold hours. destruct (decide (h < 100)).
  - rewrite bool_decide_true by done. apply print_two. lia.
  - rewrite bool_decide_false by done. unfold print_u. cbn [udec].
    rewrite (bool_decide_false (h / 10 = 0)), (bool_decide_false (h / 10 / 10 = 0)),
      (bool_decide_true (h / 10 / 10 / 10 = 0)) by Zlia.
    cbn. rewrite (Z.div_div h 10 10) by lia. change (10 * 10) with 100.
    by rewrite (Z.mod_small (h / 100)) by Zlia.
Qed.

Section Read.
Context (s : list Z) (end_ : Z).

Lemma read_step n p v d :
  p <> end_ -> load s p = Some (48 + d) -> digit d -> 0 <= v < 100000 ->
  read_value (S n) s end_ p v = read_value n s end_ (p + 1) (v * 10 + d).
Proof.
  intros Hp Hl Hd Hv. cbn [read_value]. rewrite bool_decide_false by done. rewrite Hl.
  cbn [mbind option_bind]. rewrite isdigit_digit by done. cbn [mbind option_bind].
  unfold digit in Hd. rewrite uwrap_small by lia. do 2 f_equal. lia.
Qed.

Lemma read_stop n p v : field_end s end_ p -> read_value (S n) s end_ p v = Some (p, v).
Proof.
  intros [-> | (c & Hl & Hc)]; cbn [read_value]; [by rewrite bool_decide_true |].
  case_bool_decide; [done |]. rewrite Hl. cbn [mbind option_bind]. by rewrite Hc.
Qed.

Lemma read_two n p v :
  0 <= v < 100 -> p <> end_ -> p + 1 <> end_ ->
  load s p = Some (48 + v / 10) -> load s (p + 1) = Some (48 + v mod 10) -> field_end s end_ (p + 2) ->
  read_value (S (S (S n))) s end_ p 0 = Some (p + 2, v).
Proof.
  intros Hv H0 H1 L0 L1 He. destruct (two_digits v Hv).
  rewrite (read_step _ _ _ (v / 10)) by (done || lia).
  rewrite (read_step _ _ _ (v mod 10)) by (done || Zlia).
  replace (p + 1 + 1) with (p + 2) by lia. rewrite read_stop by done.
  by replace ((0 * 10 + v / 10) * 10 + v mod 10) with v by Zlia.
Qed.

(** Minutes and seconds from [p], at the end of the string. *)
Lemma read_min_sec p mi sec h :
  0 <= mi < 60 -> 0 <= sec < 60 -> end_ = p + 5 -> (3 <= length s)%nat ->
  load s p = Some (48 + mi / 10) -> load s (p + 1) = Some (48 + mi mod 10) -> load s (p + 2) = Some 58 ->
  load s (p + 3) = Some (48 + sec / 10) -> load s (p + 4) = Some (48 + sec mod 10) ->
  read_parts 4 s end_ p [0; h; 0; 0; 0] 2 = Some (end_, [0; h; mi; sec; 0], 4).
Proof.
  intros Hmi Hs He Hlen L0 L1 L2 L3 L4. destruct (two_digits sec) as [S1 S2]; [lia |].
  cbn [read_parts]. destruct (length s) as [| [| [| n]]]; [lia | lia | lia |].
  rewrite (read_two n p mi); [| lia | lia | lia | done | done | right; exists 58; done].
  change (mbind ?f (Some (p + 2, mi))) with (f (p + 2, mi)). cbv beta iota.
  rewrite (uwrap_small 32 mi) by lia. rewrite (store_in [0; h; 0; 0; 0]) by (simpl; lia).
  change (<[Z.to_nat 2 := mi]> [0; h; 0; 0; 0]) with [0; h; mi; 0; 0].
  change (mbind ?f (Some [0; h; mi; 0; 0])) with (f [0; h; mi; 0; 0]). cbv beta zeta.
  change (bool_decide (2 + 1 = 4)) with false. rewrite (bool_decide_false (end_ - (p + 2) < 2)) by lia. cbn [orb].
  rewrite L2. change (mbind ?f (Some 58)) with (f 58). cbv beta. change (bool_decide (58 <> time_separator)) with false.
  cbv iota. unfold digit_at. replace (p + 2 + 1) with (p + 3) by lia. rewrite L3.
  change (mbind ?f (Some (48 + sec / 10))) with (f (48 + sec / 10)). cbv beta.
  rewrite isdigit_digit by done. change (mbind ?f (Some true)) with (f true). cbv beta iota.
  rewrite (read_two n (p + 3) sec); [| lia | lia | lia | done | by replace (p + 3 + 1) with (p + 4) by lia | left; lia].
  change (mbind ?f (Some (?a, sec))) with (f (a, sec)). cbv beta iota.
  rewrite (uwrap_small 32 sec) by lia. rewrite (store_in [0; h; mi; 0; 0]) by (simpl; lia).
  change (mbind ?f (Some ?x)) with (f x) at 1. cbv beta zeta.
  replace (p + 3 + 2) with end_ by lia. reflexivity.
Qed.

Lemma check_range_same t w :
  0 <= hour t <= 838 -> day t = 0 -> minute t < 60 -> second t < 60 -> second_part t = 0 ->
  check_time_range t w = (0, t, w).
Proof.
  intros Hh Hd Hm Hs Hp. unfold check_time_range. rewrite !(bool_decide_false (_ >= 60)) by lia. cbn [orb].
  rewrite Hd, Hp. rewrite (uwrap_small 32 (24 * 0)), uwrap_small by lia.
  rewrite (bool_decide_true (0 = 0)), !orb_true_r by done.
  unfold TIME_MAX_HOUR. by rewrite bool_decide_true by lia.
Qed.

Lemma finish_time_end h mi sec l :
  0 <= h <= 838 -> 0 <= mi < 60 -> 0 <= sec < 60 -> (1 <= length s)%nat ->
  finish_time s end_ end_ [0; h; mi; sec; 0] l 0 =
  Some (0, mk_time 0 0 0 h mi sec 0 (neg l) MYSQL_TIMESTAMP_TIME, 0).
Proof.
  intros Hh Hmi Hs Hlen. unfold finish_time, read_fraction, exponent.
  rewrite !bool_decide_false by lia. cbn [mbind option_bind].
  rewrite !load_at by (simpl; lia). cbn [mbind option_bind].
  change (at_ internal_format_positions 7) with 255. change (bool_decide (255 <> 255)) with false.
  cbn [mbind option_bind].
  change (at_ [0; h; mi; sec; 0] 0) with 0. change (at_ [0; h; mi; sec; 0] 1) with h.
  change (at_ [0; h; mi; sec; 0] 2) with mi. change (at_ [0; h; mi; sec; 0] 3) with sec.
  rewrite !(bool_decide_false (_ > 2 ^ 32 - 1)) by lia. cbn [orb].
  rewrite check_range_same by (cbn; lia). change (bool_decide (0 <> 0)) with false. cbv iota. unfold garbage.
  assert (E : skip_while (length s) my_isspace s end_ end_ = Some end_).
  { destruct (length s); [lia |]. cbn [skip_while]. by rewrite bool_decide_true. }
  rewrite E. cbn [mbind option_bind]. rewrite (bool_decide_false (end_ <> end_)) by tauto.
  by rewrite (bool_decide_false (end_ - end_ > 1)) by lia.
Qed.

(** The text after the sign: hours up to [q], then minutes and seconds. *)
Lemma time_parts_text k q h mi sec l :
  read_value (length s) s end_ k 0 = Some (q, h) ->
  0 <= h <= 838 -> 0 <= mi < 60 -> 0 <= sec < 60 -> end_ = q + 6 -> (3 <= length s)%nat ->
  load s q = Some 58 ->
  load s (q + 1) = Some (48 + mi / 10) -> load s (q + 2) = Some (48 + mi mod 10) -> load s (q + 3) = Some 58 ->
  load s (q + 4) = Some (48 + sec / 10) -> load s (q + 5) = Some (48 + sec mod 10) ->
  time_parts s end_ k l = Some (0, mk_time 0 0 0 h mi sec 0 (neg l) MYSQL_TIMESTAMP_TIME, 0).
Proof.
  intros Hr Hh Hmi Hs He Hlen L0 L1 L2 L3 L4 L5. unfold time_parts. rewrite Hr.
  change (mbind ?f (Some (q, h))) with (f (q, h)). cbv beta iota zeta.
  assert (E : skip_while (length s) my_isspace s end_ q = Some q).
  { destruct (length s) as [| n]; [lia |]. apply (skip_while_stop _ _ _ _ _ 58); [exact L0 | reflexivity]. }
  rewrite E. change (mbind ?f (Some q)) with (f q). cbv beta.
  rewrite (bool_decide_false (q <> q)), andb_false_r by tauto.
  change (mbind ?f (Some false)) with (f false). cbv beta. cbn [negb andb].
  rewrite (bool_decide_true (end_ - q > 1)) by lia. rewrite L0.
  change (mbind ?f (Some 58)) with (f 58). cbv beta. change (bool_decide (58 = time_separator)) with true.
  cbv iota. unfold digit_at. rewrite L1.
  change (mbind ?f (Some (48 + mi / 10))) with (f (48 + mi / 10)). cbv beta.
  destruct (two_digits mi) as [M1 _]; [lia |]. rewrite isdigit_digit by done.
  change (mbind ?f (Some true)) with (f true). cbv beta iota. cbn [orb].
  rewrite (uwrap_small 32 h) by lia.
  change (mbind ?f (store (replicate 5 0) 0 0)) with (f [0; 0; 0; 0; 0]). cbv beta.
  rewrite (store_in [0; 0; 0; 0; 0] 1) by (simpl; lia). cbv iota.
  change (<[Z.to_nat 1 := h]> [0; 0; 0; 0; 0]) with [0; h; 0; 0; 0].
  change (mbind ?f (Some [0; h; 0; 0; 0])) with (f [0; h; 0; 0; 0]). cbv beta iota.
  rewrite (read_min_sec (q + 1) mi sec h); try lia; try done;
    rewrite <- ?Z.add_assoc; try done.
  change (mbind ?f (Some (end_, [0; h; mi; sec; 0], 4))) with (f (end_, [0; h; mi; sec; 0], 4)).
  cbv beta iota. change (fix_parts [0; h; mi; sec; 0] 4 true) with (Some [0; h; mi; sec; 0]).
  change (mbind ?f (Some [0; h; mi; sec; 0])) with (f [0; h; mi; sec; 0]). cbv beta.
  apply finish_time_end; lia.
Qed.
End Read.

(** The whole parser on a printed time. *)
Definition time_text (ng h mi sec : Z) : list Z :=
  (if bool_decide (ng <> 0) then [45] else []) ++ hours h ++ [58] ++ two mi ++ [58] ++ two sec.

(** The hours, which start at [k] = 0 or, after a sign, at 1. *)
Lemma read_hours pre h rest n :
  0 <= h <= 838 -> (length pre <= 1)%nat ->
  let s := pre ++ hours h ++ [58] ++ rest in
  let q := Z.of_nat (length pre) + Z.of_nat (length (hours h)) in
  q < n ->
  read_value (length s) s n (Z.of_nat (length pre)) 0 = Some (q, h).
Proof.
  intros Hh Hpre s q Hn. subst s q. unfold hours in *. destruct (decide (h < 100)) as [Hlt | Hge].
  - rewrite (bool_decide_true (h < 100)) in * by done. cbn [two length] in Hn.
    destruct pre as [| c [|]]; [| | simpl in Hpre; lia]; cbn [two length app] in *;
      (apply read_two; [lia | lia | lia | reflexivity | reflexivity | right; exists 58; split; reflexivity]).
  - rewrite (bool_decide_false (h < 100)) in * by done. cbn [length] in Hn.
    assert (A1 : digit (h / 100)) by (unfold digit; Zlia).
    assert (A2 : digit (h / 10 mod 10)) by (unfold digit; Zlia).
    assert (A3 : digit (h mod 10)) by (unfold digit; Zlia). unfold digit in *.
    destruct pre as [| c [|]]; [| | simpl in Hpre; lia]; cbn [length app] in *;
      (rewrite (read_step _ _ _ _ _ (h / 100)) by (reflexivity || done || lia);
       rewrite (read_step _ _ _ _ _ (h / 10 mod 10)) by (reflexivity || done || lia);
       rewrite (read_step _ _ _ _ _ (h mod 10)) by (reflexivity || done || lia);
       rewrite read_stop by (right; exists 58; split; reflexivity); do 2 f_equal; Zlia).
Qed.

Lemma time_parts_body pre h mi sec tail l :
  0 <= h <= 838 -> 0 <= mi < 60 -> 0 <= sec < 60 -> (length pre <= 1)%nat ->
  let body := hours h ++ [58] ++ two mi ++ [58] ++ two sec in
  time_parts (pre ++ body ++ tail) (Z.of_nat (length (pre ++ body))) (Z.of_nat (length pre)) l =
  Some (0, mk_time 0 0 0 h mi sec 0 (neg l) MYSQL_TIMESTAMP_TIME, 0).
Proof.
  intros Hh Hmi Hs Hpre body. subst body.
  pose proof (read_hours pre h (two mi ++ [58] ++ two sec ++ tail)
    (Z.of_nat (length (pre ++ hours h ++ [58] ++ two mi ++ [58] ++ two sec))) Hh Hpre) as Hr.
  rewrite <- !app_assoc. eapply time_parts_text; [apply Hr; rewrite !length_app; simpl; lia | lia | lia | lia | ..];
    rewrite ?length_app; clear Hr; unfold hours;
    (destruct (bool_decide (h < 100)); destruct pre as [| c [|]];
     [| | simpl in Hpre; lia | | | simpl in Hpre; lia]);
    cbn [length two app]; (lia || reflexivity).
Qed.

Lemma hours_head h : 0 <= h <= 838 -> exists d r, hours h = (48 + d) :: r /\ digit d.
Proof.
  intros Hh. unfold hours, digit. destruct (decide (h < 100)).
  - rewrite bool_decide_true by done. exists (h / 10), [48 + h mod 10]. split; [done | Zlia].
  - rewrite bool_decide_false by done. eexists _, _. split; [done | Zlia].
Qed.

Lemma length_time_text ng h mi sec :
  8 <= Z.of_nat (length (time_text ng h mi sec)) <= 10.
Proof. unfold time_text, hours. destruct (bool_decide _), (bool_decide _); simpl; lia. Qed.

Lemma parse_time ng h mi sec tail l :
  ng = 0 \/ ng = 1 -> 0 <= h <= 838 -> 0 <= mi < 60 -> 0 <= sec < 60 ->
  str_to_time (time_text ng h mi sec ++ tail) (Z.of_nat (length (time_text ng h mi sec))) l =
  Some (0, mk_time 0 0 0 h mi sec 0 ng MYSQL_TIMESTAMP_TIME, 0).
Proof.
  intros Hng Hh Hmi Hs. pose proof (length_time_text ng h mi sec) as Hlen.
  set (s := time_text ng h mi sec ++ tail). set (n := Z.of_nat (length (time_text ng h mi sec))) in *.
  destruct (hours_head h Hh) as (d & r & Eh & Hd).
  set (c := if bool_decide (ng <> 0) then 45 else 48 + d).
  assert (H0 : load s 0 = Some c).
  { subst s c. unfold time_text. rewrite Eh. by destruct (bool_decide (ng <> 0)). }
  assert (Hc : my_isspace c = Some false).
  { subst c. case_bool_decide; [reflexivity | by apply isspace_digit]. }
  assert (Hm : bool_decide (c = 45) = bool_decide (ng <> 0)).
  { subst c. unfold digit in Hd. destruct (bool_decide (ng <> 0)); [done | by apply bool_decide_false; lia]. }
  assert (Hl : length s = S (pred (length s))).
  { subst s. rewrite length_app. lia. }
  unfold str_to_time. rewrite Hl at 1. rewrite (skip_while_stop _ _ _ _ _ c H0 Hc).
  change (mbind ?f (Some 0)) with (f 0). cbv beta zeta. rewrite (bool_decide_true (0 <> n)) by lia.
  rewrite H0. change (mbind ?f (Some c)) with (f c). cbv beta. rewrite Hm.
  change (mbind ?f (Some (bool_decide (ng <> 0)))) with (f (bool_decide (ng <> 0))). cbv beta.
  pose proof (time_parts_body (if bool_decide (ng <> 0) then [45] else []) h mi sec tail
    (if bool_decide (ng <> 0) then with_neg (with_neg l 0) 1 else with_neg l 0) Hh Hmi Hs) as Hb.
  destruct Hng as [-> | ->];
    [change (bool_decide (0 <> 0)) with false in * | change (bool_decide (1 <> 0)) with true in *]; cbv iota in *;
    rewrite (bool_decide_false (_ = n)), (bool_decide_false (_ >= 12)) by lia;
    change (mbind ?f (Some None)) with (f None); cbv beta iota;
    (etrans; [| apply Hb; simpl; lia]); [by subst s n | by subst s n].
Qed.
(** ** Printing *)

Lemma sprintf_text to str :
  (length str < length to)%nat ->
  sprintf_to to str = Some (Z.of_nat (length str), str ++ [0] ++ drop (S (length str)) to).
Proof.
  intros Hl. unfold sprintf_to.
  pose proof (write_app_0 (take (S (length str)) to) (str ++ [0]) (drop (S (length str)) to)) as Hw.
  rewrite take_drop in Hw. rewrite Hw by (rewrite length_take, length_app; cbn [length]; lia).
  cbn [mbind option_bind]. by rewrite <- app_assoc.
Qed.

Lemma date_string_text t :
  year t <= 9999 -> 0 <= year t -> valid_date (year t) (month t) (day t) ->
  date_string t = date_text (year t) (month t) (day t).
Proof.
  intros H1 H0 [Hm Hd]. pose proof (month_days_bound (year t) (month t) Hm). unfold date_string, date_text.
  by rewrite print_four, !print_two by lia.
Qed.

Lemma time_string_text t :
  0 <= hour t <= 838 -> 0 <= minute t < 60 -> 0 <= second t < 60 ->
  time_string t = time_text (neg t) (hour t) (minute t) (second t).
Proof.
  intros Hh Hm Hs. unfold time_string, time_text. rewrite Z.add_0_l, uwrap_small by lia.
  by rewrite print_hours, !print_two by lia.
Qed.

(** What the text of [my_datetime_to_str] keeps. *)
Definition without_second_part (t : MYSQL_TIME) : MYSQL_TIME :=
  mk_time (year t) (month t) (day t) (hour t) (minute t) (second t) 0 (neg t) (time_type t).

(** C35 Every valid date from 0000-01-01 to 9999-12-31, with a time of day or
    without one, that [my_TIME_to_str] prints into a buffer of at least 20 bytes is
    parsed by [str_to_datetime] to the same date and time with its type, no
    microseconds and no truncation warning, whatever the buffer held and whatever
    the flags, unless a DATE is read with [TIME_DATETIME_ONLY].  So a value without
    microseconds comes back unchanged; the microseconds of the others are not
    printed.  No flag refuses a date of the year 0. *)
Theorem datetime_text_roundtrip t to l flags :
  0 <= year t <= 9999 -> valid_date (year t) (month t) (day t) ->
  0 <= hour t <= 23 -> 0 <= minute t <= 59 -> 0 <= second t <= 59 ->
  neg t = 0 -> (20 <= length to)%nat ->
  time_type t = MYSQL_TIMESTAMP_DATETIME \/
  (time_type t = MYSQL_TIMESTAMP_DATE /\ hour t = 0 /\ minute t = 0 /\ second t = 0 /\
   flag flags TIME_DATETIME_ONLY = false) ->
  exists n to', my_TIME_to_str t to = Some (n, to') /\
    str_to_datetime to' n l flags = Some (time_type t, without_second_part t, 0) /\
    (second_part t = 0 -> without_second_part t = t).
Proof.
  destruct t as [y m d h mi sec part ng ty]. cbn [year month day hour minute second second_part neg time_type].
  intros Hy Hv Hh Hm Hs -> Hlen Hty. pose proof (date_string_text (mk_time y m d h mi sec part 0 ty)) as Hd.
  specialize (Hd ltac:(cbn; lia) ltac:(cbn; lia) Hv). cbn [year month day] in Hd.
  unfold my_TIME_to_str, my_datetime_to_str, my_date_to_str. cbn [time_type hour minute second]. rewrite Hd.
  destruct Hty as [-> | (-> & -> & -> & -> & Hf)].
  - rewrite !print_two by lia. fold (datetime_text y m d h mi sec).
    rewrite sprintf_text by (simpl; lia). eexists _, _. split; [reflexivity |].
    change (Z.of_nat _) with 19. split; [by apply parse_datetime | by intros ->].
  - rewrite sprintf_text by (simpl; lia). eexists _, _. split; [reflexivity |].
    change (Z.of_nat _) with 10. split; [by apply parse_date | by intros ->].
Qed.

Lemma datetime_text_roundtrip_witness :
  let t := mk_time 2008 2 29 23 5 59 500000 0 MYSQL_TIMESTAMP_DATETIME in
  exists n to', my_TIME_to_str t (replicate 20 7) = Some (n, to') /\
    str_to_datetime to' n zero_time 0 = Some (time_type t, without_second_part t, 0) /\
    (second_part t = 0 -> without_second_part t = t).
Proof.
  apply (datetime_text_roundtrip (mk_time 2008 2 29 23 5 59 500000 0 MYSQL_TIMESTAMP_DATETIME)
           (replicate 20 7) zero_time 0);
    (reflexivity || (split; vm_compute; (congruence || (split; congruence))) || (simpl; lia) || (by left)).
Defined.

(** [my_time_to_str] and [str_to_time] are inverse on every TIME value the type
    can hold, -838:59:59 to 838:59:59, with two or three digits of hours and a sign;
    -00:00:00 keeps its sign too. *)
Theorem time_text_roundtrip h mi sec ng to l :
  0 <= h <= 838 -> 0 <= mi < 60 -> 0 <= sec < 60 -> ng = 0 \/ ng = 1 -> (11 <= length to)%nat ->
  let t := mk_time 0 0 0 h mi sec 0 ng MYSQL_TIMESTAMP_TIME in
  exists n to', my_TIME_to_str t to = Some (n, to') /\ str_to_time to' n l = Some (0, t, 0).
Proof.
  intros Hh Hm Hs Hn Hlen t. unfold my_TIME_to_str, my_time_to_str. subst t. cbn [time_type].
  rewrite time_string_text by (cbn; lia). cbn [neg hour minute second].
  pose proof (length_time_text ng h mi sec).
  rewrite sprintf_text by lia. eexists _, _. split; [reflexivity |]. by apply parse_time.
Qed.

Lemma time_text_roundtrip_witness :
  let t := mk_time 0 0 0 838 59 59 0 1 MYSQL_TIMESTAMP_TIME in
  exists n to', my_TIME_to_str t (replicate 11 7) = Some (n, to') /\ str_to_time to' n zero_time = Some (0, t, 0).
Proof. apply (time_text_roundtrip 838 59 59 1 (replicate 11 7) zero_time); simpl; lia. Defined.
End TimeStrRound.
