(* ===== verification/CtypeBin.v ===== *)
(** * CtypeBin: the binary collations

    [strings/ctype-bin.c]: comparison and hashing of byte strings.  A string is the
    list of its bytes, numbers 0 to 255. *)
From stdpp Require Import base tactics option list numbers.
From Stdlib Require Import ZArith Lia.
From S2P Require Import Prelude.

Module CtypeBin.

(** ** Model *)

(** [memcmp] of two blocks of the same size: C fixes the sign, here it is the
    difference of the first two bytes that differ. *)
Fixpoint memcmp (s t : list Z) : Z :=
  match s, t with
  | x :: s, y :: t => if bool_decide (x = y) then memcmp s t else x - y
  | _, _ => 0
  end.

Definition my_strnncoll_binary (s t : list Z) (t_is_prefix : bool) : Z :=
  let slen := Z.of_nat (length s) in
  let tlen := Z.of_nat (length t) in
  let len := Z.min slen tlen in
  let cmp := memcmp (take (Z.to_nat len) s) (take (Z.to_nat len) t) in
  if bool_decide (cmp <> 0) then cmp
  else s32 (u32 ((if t_is_prefix then len else slen) - tlen)).

(** One round of the hash: [nr1] and [nr2] after the byte at [pos]. *)
Definition hash_byte (nr : Z * Z) (pos : Z) : Z * Z :=
  let '(nr1, nr2) := nr in
  (nr1 ^^^ u32 (u32 (((nr1 &&& 63) + nr2) * pos) + (nr1 ≪ 8)), u32 (nr2 + 3)).

Definition my_hash_sort_bin (key : list Z) (nr1 nr2 : Z) : Z * Z :=
  foldl hash_byte (nr1, nr2) key.

(** ** Lemmas *)

Lemma memcmp_refl s : memcmp s s = 0.
Proof. induction s as [| x s IH]; [done |]. cbn [memcmp]. by rewrite bool_decide_true. Qed.

Lemma memcmp_eq s t : length s = length t -> memcmp s t = 0 -> s = t.
Proof.
  revert t. induction s as [| x s IH]; intros [| y t] Hl; try done. cbn [memcmp].
  case_bool_decide as E; [| lia]. intros H. subst y. f_equal. apply IH; [by injection Hl | done].
Qed.

Lemma lxor_range w x y : 0 <= w -> 0 <= x < 2 ^ w -> 0 <= y < 2 ^ w -> 0 <= x ^^^ y < 2 ^ w.
Proof.
  intros Hw Hx Hy. rewrite <- (uwrap_small w x), <- (uwrap_small w y) by done.
  assert (E : uwrap w (uwrap w x ^^^ uwrap w y) = uwrap w x ^^^ uwrap w y).
  { apply Z.bits_inj'. intros i Hi. rewrite uwrap_testbit, !Z.lxor_spec, !uwrap_testbit by done.
    destruct (i <? w), (Z.testbit x i), (Z.testbit y i); done. }
  rewrite <- E. by apply uwrap_range.
Qed.

Lemma hash_byte_range nr x : 0 <= nr.1 < 2 ^ 32 -> 0 <= (hash_byte nr x).1 < 2 ^ 32.
Proof. destruct nr as [a b]. intros H. cbn [fst hash_byte] in *. apply lxor_range; [done | done | by apply uwrap_range]. Qed.

Lemma hash_fold_range key nr : 0 <= nr.1 < 2 ^ 32 -> 0 <= (foldl hash_byte nr key).1 < 2 ^ 32.
Proof. revert nr. induction key as [| x key IH]; intros nr H; [done |]. by apply IH, hash_byte_range. Qed.

Lemma strnncoll_binary_refl s : my_strnncoll_binary s s false = 0.
Proof. unfold my_strnncoll_binary. rewrite memcmp_refl, bool_decide_false by tauto. by rewrite Z.sub_diag. Qed.

Lemma strnncoll_binary_eq s t : length s = length t -> my_strnncoll_binary s t false = 0 -> s = t.
Proof.
  intros Hl. unfold my_strnncoll_binary. case_bool_decide as E; [done |]. intros _.
  rewrite Hl, Z.min_id, Nat2Z.id in E.
  rewrite !take_ge in E by lia. by apply memcmp_eq.
Qed.

End CtypeBin.
