(* ===== verification/DecimalBinMain.v ===== *)
(** * DecimalBinMain: the binary format keeps values and order

    A packed decimal is the big endian form of one number, which orders as the
    decimal does. *)
From stdpp Require Import base tactics option list numbers.
From Stdlib Require Import ZArith Lia.
From S2P Require Import Prelude Decimal DecimalProps DecimalMul CtypeBin DecimalBin DecimalBinProps.

Module DecimalBinMain.
Import Decimal DecimalProps DecimalMul DecimalDigits DecimalBin DecimalBinProps DecimalBinStore.

(** ** Words in some base *)

(** Words [e], [e - 1], ... *)
Fixpoint down (f : Z -> Z) (e : Z) (n : nat) : list Z :=
  match n with O => [] | S n => f e :: down f (e - 1) n end.

Lemma length_down f n : forall e, length (down f e n) = n.
Proof. induction n as [|n IH]; intros e; cbn; auto. Qed.

Lemma down_app f n m : forall e, down f e (n + m) = down f e n ++ down f (e - Z.of_nat n) m.
Proof.
  induction n as [|n IH]; intros e; cbn [down Nat.add app]; [by rewrite Z.sub_0_r|].
  rewrite IH. do 3 f_equal. lia.
Qed.

Lemma Forall_down (P : Z -> Prop) f n : (forall e, P (f e)) -> forall e, Forall P (down f e n).
Proof. intros H. induction n as [|n IH]; intros e; cbn [down]; constructor; auto. Qed.

Lemma down_ws f n e : ws (fun k => f (k - Z.of_nat n + 1 + e)) n = hl DIG_BASE (down f e n).
Proof.
  revert e. induction n as [|n IH]; intros e; [done|]. cbn [ws down hl]. rewrite length_down, <- IH.
  rewrite Z.add_comm. f_equal; [do 2 f_equal; lia|]. apply ws_ext. intros k K. f_equal. lia.
Qed.

Definition word_base : Z := 2 ^ 32.

Lemma word_base_256 n : 256 ^ Z.of_nat (4 * n) = word_base ^ Z.of_nat n.
Proof. rewrite Nat2Z.inj_mul, Z.pow_mul_r by lia. done. Qed.

Lemma words_in_base f n e : (forall e, 0 <= f e < DIG_BASE) ->
  Forall (fun x => 0 <= x < word_base) (down f e n) /\ Forall (fun x => 0 <= x < DIG_BASE) (down f e n).
Proof.
  intros R. split; apply Forall_down; intros e'; specialize (R e'); unfold word_base, DIG_BASE in *; lia.
Qed.

Lemma word_bytes_be neg f n : (forall e, 0 <= f e < DIG_BASE) -> forall e,
  word_bytes neg f e (Z.of_nat n) = be (4 * n) (inv neg (hl word_base (down f e n))).
Proof.
  intros R. induction n as [|n IH]; intros e; [done|].
  rewrite Nat2Z.inj_succ. unfold Z.succ. rewrite Z.add_comm, word_bytes_app, word_bytes_one, IH by lia.
  replace (4 * S n)%nat with (4 + 4 * n)%nat by lia. cbn [down hl]. rewrite length_down, <- word_base_256.
  rewrite be_inv_app; [done|]. rewrite word_base_256.
  pose proof (hl_bound word_base (down f (e - 1) n)) as B. rewrite length_down in B. apply B; [done|].
  by apply words_in_base.
Qed.

(** ** The packed number *)

Lemma half_app a b m n : 0 <= b < m -> 0 <= a -> 2 * a + 1 < n -> 2 * (a * m + b) < n * m.
Proof. intros B A N. assert (2 * a + 2 <= n) by lia. nia. Qed.

Lemma half_words l : l <> [] -> Forall (fun x => 0 <= x < DIG_BASE) l ->
  2 * hl word_base l + 1 < word_base ^ Z.of_nat (length l).
Proof.
  intros N F. destruct l as [|x l]; [done|]. apply Forall_cons_1 in F as (X & F). cbn [hl length].
  assert (B : 0 <= hl word_base l < word_base ^ Z.of_nat (length l)).
  { apply hl_bound; [done|]. eapply List.Forall_impl; [|exact F]. intros y. unfold word_base, DIG_BASE. lia. }
  rewrite Nat2Z.inj_succ, Z.pow_succ_r by lia. unfold DIG_BASE in X. change word_base with 4294967296 at 3.
  generalize dependent (word_base ^ Z.of_nat (length l)). intros m B. nia.
Qed.

Lemma power_even k : 0 < k < 9 -> 10 ^ k * 2 <= 256 ^ d2b k.
Proof. intros K. small k; vm_compute; intuition discriminate. Qed.

Section Number.
Context (d : decimal_t) (Wd : wf d) (p s : Z) (Hs : 0 <= s <= p) (Hp : 0 < p) (Am : at_most (word d) (p - s)).

Definition count : nat := Z.to_nat ((p - s) / 9 + s / 9).
(** All the words but the last partial one, and the digits of that one. *)
Definition whole : list Z := word d ((p - s) / 9) :: down (word d) ((p - s) / 9 - 1) count.
Definition tail_digits : Z := word d (- (s / 9) - 1) / 10 ^ (9 - s mod 9).

Definition pack_number : Z := hl word_base whole * 256 ^ d2b (s mod 9) + tail_digits.
(** The absolute value times [10 ^ s]. *)
Definition digits_number : Z := hl DIG_BASE whole * 10 ^ (s mod 9) + tail_digits.

Definition pack_size : nat := Z.to_nat (size_of (p - s) + size_of s).

Lemma tail_bound : 0 <= tail_digits < 10 ^ (s mod 9).
Proof.
  pose proof (word_range d (- (s / 9) - 1) Wd) as W. unfold tail_digits.
  assert (0 < 10 ^ (9 - s mod 9)) by (apply Z.pow_pos_nonneg; Zlia).
  split; [apply Z.div_pos; lia|]. apply Z.div_lt_upper_bound; [done|].
  rewrite <- Z.pow_add_r by Zlia. replace (9 - s mod 9 + s mod 9) with 9 by lia. apply W.
Qed.

Lemma tail_fits : 0 <= tail_digits < 256 ^ d2b (s mod 9) /\ 10 ^ (s mod 9) <= 256 ^ d2b (s mod 9).
Proof.
  pose proof tail_bound. destruct (d2b_range (s mod 9) ltac:(Zlia)) as (D & _ & E).
  assert (0 < 10 ^ (s mod 9)) by (apply Z.pow_pos_nonneg; Zlia).
  assert (0 < 256 ^ d2b (s mod 9)) by (apply Z.pow_pos_nonneg; lia). lia.
Qed.

Lemma whole_ranges : Forall (fun x => 0 <= x < word_base) whole /\ Forall (fun x => 0 <= x < DIG_BASE) whole.
Proof. exact (words_in_base (word d) (S count) ((p - s) / 9) (fun e => word_range d e Wd)). Qed.

Lemma packed_be : packed d p s = be pack_size (inv (negative d) pack_number).
Proof.
  unfold packed, int_bytes, frac_bytes. set (q := (p - s) / 9). set (k := (p - s) mod 9). set (j := s / 9). set (k' := s mod 9).
  assert (Q : 0 <= q /\ 0 <= j /\ 0 <= k < 9 /\ 0 <= k' < 9) by (unfold q, j, k, k'; Zlia).
  pose proof (d2b_range k ltac:(lia)) as D. pose proof (d2b_range k' ltac:(lia)) as D'.
  rewrite Z.mod_small by apply Am. rewrite <- app_assoc.
  rewrite (app_assoc (word_bytes _ _ _ _)). replace (-1) with (q - 1 - q) at 1 by lia. rewrite <- word_bytes_app by lia.
  assert (Hw : word_bytes (negative d) (word d) (q - 1) (q + j) =
    be (4 * count) (inv (negative d) (hl word_base (down (word d) (q - 1) count)))).
  { rewrite <- (word_bytes_be (negative d) (word d) count (fun e => word_range d e Wd)). f_equal. unfold count. fold q j. lia. }
  rewrite Hw. change (word d (- j - 1) / 10 ^ (9 - k')) with tail_digits.
  destruct tail_fits as (T & _). fold k' in T.
  assert (E4 : d2b k' = Z.of_nat (Z.to_nat (d2b k'))) by lia. rewrite E4 in T.
  rewrite <- be_inv_app by done. 
  pose proof (hl_bound word_base (down (word d) (q - 1) count) ltac:(done)
    (proj1 (words_in_base (word d) count (q - 1) (fun e => word_range d e Wd)))) as B.
  rewrite length_down in B.
  replace pack_size with (Z.to_nat (d2b k) + (4 * count + Z.to_nat (d2b k')))%nat
    by (unfold pack_size, count, size_of; fold q j k k'; lia).
  unfold pack_number, whole. cbn [hl]. rewrite length_down. fold q k' .
  rewrite <- be_inv_app.
  - do 2 f_equal. rewrite Nat2Z.inj_add, Z.pow_add_r, word_base_256, <- E4 by lia. ring.
  - rewrite Nat2Z.inj_add, Z.pow_add_r, word_base_256 by lia. nia.
Qed.

(** The first bit of the packed number is free. *)
Lemma pack_half : 0 <= pack_number /\ 2 * pack_number < 256 ^ Z.of_nat pack_size.
Proof.
  destruct whole_ranges as (Rw & Rd). destruct tail_fits as (T & _). unfold pack_number.
  pose proof (hl_bound word_base whole ltac:(done) Rw) as B. split; [nia|].
  set (q := (p - s) / 9) in *. set (k := (p - s) mod 9) in *. set (k' := s mod 9) in *.
  assert (Q : 0 <= q /\ 0 <= s / 9 /\ 0 <= k < 9 /\ 0 <= k' < 9) by (unfold q, k, k'; Zlia).
  pose proof (d2b_range k ltac:(lia)) as D. pose proof (d2b_range k' ltac:(lia)) as D'.
  assert (Sz : 256 ^ Z.of_nat pack_size = 256 ^ (d2b k) * word_base ^ Z.of_nat count * 256 ^ d2b k').
  { rewrite <- word_base_256, <- !Z.pow_add_r by lia. f_equal. unfold pack_size, count, size_of. fold q k k'. lia. }
  rewrite Sz. destruct Am as (Wq & _). fold q k in Wq.
  pose proof (Forall_inv_tail Rd) as Rt.
  destruct (decide (k = 0)) as [K0|K0].
  - rewrite K0 in *. change (10 ^ 0) with 1 in Wq. change (256 ^ d2b 0) with 1. rewrite Z.mul_1_l.
    assert (Ew : hl word_base whole = hl word_base (down (word d) (q - 1) count)).
    { unfold whole. fold q. cbn [hl]. assert (word d q = 0) as -> by lia. lia. }
    rewrite Ew in *. destruct (decide (count = 0%nat)) as [C0|C0].
    + rewrite C0. cbn [down hl]. change (word_base ^ Z.of_nat 0) with 1.
      assert (k' <> 0) by (unfold count in C0; fold q in C0; unfold k', k, q in *; Zlia).
      pose proof tail_bound as Tb. fold k' in Tb. pose proof (d2b_range k' ltac:(lia)) as (_ & P1 & E).
      pose proof (power_even k' ltac:(lia)). lia.
    + apply half_app; [done|apply B|]. rewrite <- (length_down (word d) count (q - 1)) at 2. apply half_words; [|done].
      destruct count; [done|]. done.
  - apply half_app; [done|apply B|]. unfold whole. fold q. cbn [hl]. rewrite length_down.
    pose proof (hl_bound word_base (down (word d) (q - 1) count) ltac:(done)) as By. rewrite length_down in By.
    specialize (By (Forall_inv_tail Rw)). pose proof (power_even k ltac:(lia)). destruct D as (_ & _ & D).
    generalize dependent (word_base ^ Z.of_nat count). intros m _ By. nia.
Qed.

(** *** The value *)

Lemma absval_down J Q : 0 <= J -> 0 <= Q -> (forall e, Q < e -> word d e = 0) ->
  absval J d = hl DIG_BASE (down (word d) Q (Z.to_nat (Q + 1 + J))).
Proof.
  intros HJ HQ Z0. rewrite <- (absval_ws d J (Z.max (iw d) (Q + 1))) by (done || lia).
  replace (Z.to_nat (Z.max (iw d) (Q + 1) + J)) with (Z.to_nat (Q + 1 + J) + Z.to_nat (Z.max (iw d) (Q + 1) - Q - 1))%nat by lia.
  rewrite ws_app, (ws_zero (fun k => word d (k + _ - J))) by (intros k K; apply Z0; lia).
  rewrite Z.mul_0_r, Z.add_0_r, <- down_ws. apply ws_ext. intros k K. f_equal. lia.
Qed.

Lemma last_word_divides : canonical_frac d -> frac d <= s -> s mod 9 <> 0 ->
  (10 ^ (9 - s mod 9) | word d (- (s / 9) - 1)).
Proof.
  intros Cf F K. pose proof (wf_frac d Wd) as F0. pose proof (fw_bounds d Wd) as Fb.
  destruct (decide (fw d = s / 9 + 1)) as [E|E].
  2:{ rewrite word_out by Zlia. apply Z.divide_0_r. }
  unfold canonical_frac in Cf.
  assert (V : dval d = absval (fw d) d) by (rewrite absval_dval, Z.sub_diag by Zlia; lia).
  pose proof (iw_nonneg d Wd). pose proof (fw_nonneg d Wd).
  rewrite (absval_down (fw d) (iw d)) in V by (lia || (intros; apply word_out; lia)).
  replace (Z.to_nat (iw d + 1 + fw d)) with (Z.to_nat (iw d + fw d) + 1)%nat in V by (pose proof (iw_nonneg d Wd); Zlia).
  rewrite down_app, hl_app in V by done.
  rewrite Z2Nat.id in V by Zlia. replace (iw d - (iw d + fw d)) with (- (s / 9) - 1) in V by lia. cbn [down hl length] in V.
  change (DIG_BASE ^ Z.of_nat 1) with (10 ^ 9) in V. change (DIG_BASE ^ Z.of_nat 0) with 1 in V.
  assert (D1 : (10 ^ (9 - s mod 9) | dval d)).
  { eapply Z.divide_trans; [|exact Cf]. exists (10 ^ (9 * fw d - frac d - (9 - s mod 9))). rewrite <- Z.pow_add_r by Zlia. f_equal. lia. }
  assert (D2 : (10 ^ (9 - s mod 9) | 10 ^ 9)).
  { exists (10 ^ (s mod 9)). rewrite <- Z.pow_add_r by Zlia. f_equal. lia. }
  rewrite V in D1. apply Z.divide_add_cancel_r in D1; [|by apply Z.divide_mul_r]. 
  rewrite Z.add_0_r, Z.mul_1_r in D1. exact D1.
Qed.

Lemma packed_digits_value : canonical_frac d -> frac d <= s ->
  absval (ROUND_UP s) d = digits_number * 10 ^ (9 * ROUND_UP s - s).
Proof.
  intros Cf F. pose proof (wf_frac d Wd). destruct Am as (_ & Above).
  rewrite (absval_down (ROUND_UP s) ((p - s) / 9)); [|rewrite ROUND_UP_div by lia; Zlia|Zlia|done].
  pose proof tail_bound as T. unfold digits_number. rewrite ROUND_UP_div by lia.
  destruct (decide (s mod 9 = 0)) as [K|K].
  - rewrite K in *. change (10 ^ 0) with 1 in *. assert (tail_digits = 0) as -> by lia.
    replace (9 * ((s + 8) / 9) - s) with 0 by Zlia. rewrite Z.add_0_r, !Z.mul_1_r.
    replace (Z.to_nat ((p - s) / 9 + 1 + (s + 8) / 9)) with (S count) by (unfold count; Zlia). done.
  - replace (Z.to_nat ((p - s) / 9 + 1 + (s + 8) / 9)) with (S count + 1)%nat by (unfold count; Zlia).
    rewrite down_app, hl_app by done. change (down (word d) ((p - s) / 9) (S count)) with whole.
    replace ((p - s) / 9 - Z.of_nat (S count)) with (- (s / 9) - 1) by (unfold count; Zlia).
    cbn [down hl length]. change (DIG_BASE ^ Z.of_nat 0) with 1. change (DIG_BASE ^ Z.of_nat 1) with (10 ^ 9).
    replace (9 * ((s + 8) / 9) - s) with (9 - s mod 9) by Zlia.
    destruct (last_word_divides Cf F K) as (v & V). unfold tail_digits. rewrite V.
    rewrite Z.div_mul by (apply Z.pow_nonzero; Zlia).
    replace (10 ^ 9) with (10 ^ (s mod 9) * 10 ^ (9 - s mod 9)) by (rewrite <- Z.pow_add_r by Zlia; f_equal; lia). ring.
Qed.

End Number.

(** ** Order *)

Lemma flip_be n z : flip (be (S n) z) = be (S n) (z + 128 * 256 ^ Z.of_nat n).
Proof.
  cbn [be flip]. pose proof (pow256 n). f_equal.
  - rewrite Z.div_add by lia. set (y := z / 256 ^ Z.of_nat n). assert (Y : 0 <= y mod 256 < 256) by Zlia.
    assert (E : y mod 256 ^^^ 128 = (y mod 256 + 128) mod 256).
    { revert Y. generalize (y mod 256). intros x Y.
      assert (A : forallb (fun n => bool_decide (Z.of_nat n ^^^ 128 = (Z.of_nat n + 128) mod 256)) (seq 0 256) = true) by (vm_compute; done).
      rewrite forallb_forall in A. specialize (A (Z.to_nat x)). rewrite Z2Nat.id in A by lia.
      apply (bool_decide_eq_true (x ^^^ 128 = (x + 128) mod 256)), A, in_seq. lia. }
    rewrite E. rewrite Zplus_mod_idemp_l. done.
  - apply be_congr. rewrite (Z.mul_comm 128), Z.add_comm, Z.mul_comm, Z.add_comm, Z.mod_add by lia. done.
Qed.

Lemma memcmp_be n : forall x y, 0 <= x < 256 ^ Z.of_nat n -> 0 <= y < 256 ^ Z.of_nat n ->
  Z.sgn (CtypeBin.memcmp (be n x) (be n y)) = Z.sgn (x - y).
Proof.
  induction n as [|n IH]; intros x y X Y; [change (256 ^ Z.of_nat 0) with 1 in *; cbn; f_equal; lia|].
  cbn [be CtypeBin.memcmp]. pose proof (pow256 n) as P. rewrite Nat2Z.inj_succ, Z.pow_succ_r in X, Y by lia.
  set (m := 256 ^ Z.of_nat n) in *.
  assert (Dx : 0 <= x / m < 256) by (split; [apply Z.div_pos; lia|apply Z.div_lt_upper_bound; lia]).
  assert (Dy : 0 <= y / m < 256) by (split; [apply Z.div_pos; lia|apply Z.div_lt_upper_bound; lia]).
  rewrite !Z.mod_small by done.
  pose proof (Z.div_mod x m ltac:(lia)) as Ex. pose proof (Z.div_mod y m ltac:(lia)) as Ey.
  pose proof (Z.mod_pos_bound x m P) as Mx. pose proof (Z.mod_pos_bound y m P) as My.
  destruct (bool_decide_reflect (x / m = y / m)) as [E|E].
  - rewrite <- (be_mod n x), <- (be_mod n y). fold m. rewrite IH by done. f_equal. rewrite E in Ex. lia.
  - destruct (Z.lt_trichotomy (x / m) (y / m)) as [L|[L|L]]; [|done|].
    + rewrite !Z.sgn_neg; [done| |lia]. assert (x / m + 1 <= y / m) by lia. nia.
    + rewrite !Z.sgn_pos; [done| |lia]. assert (y / m + 1 <= x / m) by lia. nia.
Qed.

(** A decimal that fits into [p] digits with [s] of them behind the point. *)
Record storable (p s : Z) (d : decimal_t) : Prop := {
  st_wf : wf d;
  st_canonical : canonical d;
  st_canonical_frac : canonical_frac d;
  st_frac : frac d <= s;
  st_intg : absval 0 d < 10 ^ (p - s) }.

Lemma storable_at_most p s d : 0 <= s <= p -> storable p s d -> at_most (word d) (p - s).
Proof.
  intros S [W C _ _ A]. destruct (remove_leading_zeroes_spec d W C) as (n & _ & N & Am & Top).
  apply (at_most_mono _ n); [|done]. split; [lia|]. apply (digits_bound d W n); auto. lia.
Qed.

(** The binary format of a decimal as one number. *)
Definition sort_number (d : decimal_t) (p s : Z) : Z :=
  inv (negative d) (pack_number d p s) + 128 * 256 ^ Z.of_nat (pred (pack_size p s)).

Lemma pack_size_pos p s : 0 <= s <= p -> 0 < p -> exists n, pack_size p s = S n.
Proof.
  intros S P. assert (0 < size_of (p - s) + size_of s).
  { pose proof (size_nonneg s ltac:(lia)). pose proof (size_nonneg (p - s) ltac:(lia)).
    destruct (decide (s = 0)); [pose proof (size_positive (p - s)); lia|pose proof (size_positive s); lia]. }
  exists (pred (pack_size p s)). unfold pack_size. lia.
Qed.

Lemma flip_packed p s d : 0 <= s <= p -> 0 < p -> storable p s d ->
  flip (packed d p s) = be (pack_size p s) (sort_number d p s) /\
  0 <= sort_number d p s < 256 ^ Z.of_nat (pack_size p s).
Proof.
  intros S P St. pose proof (storable_at_most p s d S St) as Am. pose proof (st_wf _ _ _ St) as Wd.
  rewrite packed_be by done. unfold sort_number. destruct (pack_size_pos p s S P) as (n & En).
  destruct (pack_half d Wd p s S P Am) as (H0 & H1). rewrite En in *. cbn [pred]. split; [apply flip_be|].
  rewrite Nat2Z.inj_succ, Z.pow_succ_r in * by lia. unfold inv. destruct (negative d); lia.
Qed.

(** Packing keeps the order of the digits. *)
Lemma hl_same_order l l' : length l = length l' ->
  Forall (fun x => 0 <= x < word_base) l -> Forall (fun x => 0 <= x < DIG_BASE) l ->
  Forall (fun x => 0 <= x < word_base) l' -> Forall (fun x => 0 <= x < DIG_BASE) l' ->
  Z.sgn (hl word_base l - hl word_base l') = Z.sgn (hl DIG_BASE l - hl DIG_BASE l').
Proof.
  intros L A B A' B'. assert (0 < word_base /\ 0 < DIG_BASE) as (Pw & Pd) by (unfold word_base, DIG_BASE; lia).
  destruct (Z.lt_trichotomy (hl word_base l) (hl word_base l')) as [H|[H|H]].
  - pose proof (hl_order word_base l l' Pw L A A' DIG_BASE Pd B B' H). rewrite !Z.sgn_neg by lia. done.
  - destruct (Z.lt_trichotomy (hl DIG_BASE l) (hl DIG_BASE l')) as [G|[G|G]].
    + pose proof (hl_order DIG_BASE l l' Pd L B B' word_base Pw A A' G). lia.
    + rewrite H, G, !Z.sub_diag. done.
    + pose proof (hl_order DIG_BASE l' l Pd (eq_sym L) B' B word_base Pw A' A G). lia.
  - pose proof (hl_order word_base l' l Pw (eq_sym L) A' A DIG_BASE Pd B' B H). rewrite !Z.sgn_pos by lia. done.
Qed.

Lemma sgn_append x x' y y' t t' m n : Z.sgn (x - x') = Z.sgn (y - y') -> 0 <= t < m -> 0 <= t' < m -> m <= n ->
  Z.sgn (x * n + t - (x' * n + t')) = Z.sgn (y * m + t - (y' * m + t')).
Proof.
  intros E T T' M. destruct (Z.lt_trichotomy x x') as [H|[H|H]].
  - rewrite Z.sgn_neg in E by lia. assert (y < y') by lia.
    assert (x + 1 <= x' /\ y + 1 <= y') by lia. rewrite !Z.sgn_neg by nia. done.
  - subst x'. rewrite Z.sub_diag in E. assert (y = y') as <- by lia. f_equal. lia.
  - rewrite Z.sgn_pos in E by lia. assert (y' < y) by lia.
    assert (x' + 1 <= x /\ y' + 1 <= y) by lia. rewrite !Z.sgn_pos by nia. done.
Qed.

Lemma pack_order p s d1 d2 : 0 <= s <= p -> wf d1 -> wf d2 ->
  Z.sgn (pack_number d1 p s - pack_number d2 p s) = Z.sgn (digits_number d1 p s - digits_number d2 p s).
Proof.
  intros S W1 W2. unfold pack_number, digits_number.
  pose proof (tail_bound d1 W1 s) as T1. pose proof (tail_bound d2 W2 s) as T2.
  destruct (whole_ranges d1 W1 p s) as (A1 & B1), (whole_ranges d2 W2 p s) as (A2 & B2).
  apply sgn_append; [|apply T1; lia|apply T2; lia|apply (tail_fits d1 W1 s); lia].
  apply hl_same_order; auto. unfold whole. cbn [length]. by rewrite !length_down.
Qed.

Lemma sort_order p s d1 d2 : 0 <= s <= p -> 0 < p -> storable p s d1 -> storable p s d2 ->
  Z.sgn (sort_number d1 p s - sort_number d2 p s) = cmp_number (ROUND_UP s) d1 d2.
Proof.
  intros S P S1 S2. pose proof (storable_at_most p s d1 S S1) as A1. pose proof (storable_at_most p s d2 S S2) as A2.
  destruct S1 as [W1 C1 F1 Fr1 I1], S2 as [W2 C2 F2 Fr2 I2].
  pose proof (pack_order p s d1 d2 S W1 W2) as Po.
  pose proof (packed_digits_value d1 W1 p s S P A1 F1 Fr1) as V1. pose proof (packed_digits_value d2 W2 p s S P A2 F2 Fr2) as V2.
  pose proof (wf_sign d1 W1). pose proof (wf_sign d2 W2).
  pose proof (pack_half d1 W1 p s S P A1) as (M1 & _). pose proof (pack_half d2 W2 p s S P A2) as (M2 & _).
  assert (E10 : 0 < 10 ^ (9 * ROUND_UP s - s)) by (apply Z.pow_pos_nonneg; [lia|rewrite ROUND_UP_div by lia; Zlia]).
  assert (Eq : Z.sgn (pack_number d1 p s - pack_number d2 p s) = Z.sgn (absval (ROUND_UP s) d1 - absval (ROUND_UP s) d2)).
  { rewrite Po, V1, V2, <- Z.mul_sub_distr_r, Z.sgn_mul, (Z.sgn_pos (10 ^ _)) by done. lia. }
  unfold cmp_number. rewrite <- Eq. unfold sort_number, negative, inv. clear V1 V2 Po Eq.
  destruct (bool_decide_reflect (sign d1 <> 0)) as [G1|G1], (bool_decide_reflect (sign d2 <> 0)) as [G2|G2];
    rewrite ?(bool_decide_true (sign d1 = 0)), ?(bool_decide_false (sign d1 = 0)) by lia;
    [rewrite decide_True by lia|rewrite decide_False, decide_True by lia|rewrite !decide_False by lia|rewrite decide_True by lia]; lia.
Qed.

End DecimalBinMain.
