(* ===== verification/DecimalBinLoad.v ===== *)
(** * DecimalBinLoad: what [bin2decimal] reads *)
From stdpp Require Import base tactics option list numbers.
From Stdlib Require Import ZArith Lia.
From S2P Require Import Prelude Decimal DecimalProps DecimalMul CtypeBin DecimalBin DecimalBinProps.
From S2P Require Import DecimalBinMain.

Module DecimalBinLoad.
Import Decimal DecimalProps DecimalMul DecimalDigits DecimalBin DecimalBinProps DecimalBinStore DecimalBinMain.

(** A number without its leading zero words. *)
Fixpoint strip (l : list Z) : list Z :=
  match l with [] => [] | x :: l' => if bool_decide (x = 0) then strip l' else l end.

Lemma length_strip l : (length (strip l) <= length l)%nat.
Proof. induction l as [|x l IH]; cbn; [lia|]. destruct (bool_decide _); cbn; lia. Qed.

Lemma hl_strip c l : hl c (strip l) = hl c l.
Proof.
  induction l as [|x l IH]; [done|]. cbn [strip hl]. destruct (bool_decide_reflect (x = 0)) as [->|]; [|done]. lia.
Qed.

Lemma Forall_strip (P : Z -> Prop) l : Forall P l -> Forall P (strip l).
Proof. induction 1 as [|x l X F IH]; cbn; [constructor|]. destruct (bool_decide _); [done|]. by constructor. Qed.

Lemma inv_inv neg x : inv neg (inv neg x) = x.
Proof. destruct neg; cbn; lia. Qed.

Section Load.
Context (neg : bool) (f : Z -> Z) (R : forall e, 0 <= f e < DIG_BASE).

(** A word that fits, read back. *)
Lemma korr_word pre rest x : 0 <= x < DIG_BASE ->
  mi_sint4korr (pre ++ be 4 (inv neg x) ++ rest) (Z.of_nat (length pre)) = Some (inv neg x).
Proof.
  intros X. pose proof (mi_korr_bytes 4 pre rest (inv neg x) ltac:(lia)) as E.
  unfold mi_korr in E. rewrite !bool_decide_false, bool_decide_true in E by lia. apply E.
  change (2 ^ (8 * 4 - 1)) with 2147483648. unfold DIG_BASE in X. destruct neg; cbn; lia.
Qed.

Lemma word_ok x : 0 <= x < DIG_BASE ->
  s32 (Z.lxor (inv neg x) (mask_of neg)) = x /\ bool_decide (u32 x > DIG_MAX) = false.
Proof.
  intros X. rewrite lxor_inv, inv_inv. unfold DIG_BASE in X. split; [apply swrap_small; cbn; lia|].
  apply bool_decide_eq_false. rewrite uwrap_small by (cbn; lia). unfold DIG_MAX, DIG_BASE. lia.
Qed.

Lemma word_bytes_succ e n :
  word_bytes neg f e (Z.of_nat (S n)) = be 4 (inv neg (f e)) ++ word_bytes neg f (e - 1) (Z.of_nat n).
Proof.
  rewrite Nat2Z.inj_succ. unfold Z.succ. by rewrite Z.add_comm, word_bytes_app, word_bytes_one by lia.
Qed.

Lemma read_words_append leading n : forall e pre rest g (L rm : list Z),
  leading = false \/ L <> [] -> (n <= length rm)%nat ->
  read_words n (pre ++ word_bytes neg f e (Z.of_nat n) ++ rest) (Z.of_nat (length pre)) (mask_of neg) leading
    (Z.of_nat (length L), g, L ++ rm) =
  Some (inl (Z.of_nat (length (L ++ down f e n)), g, (L ++ down f e n) ++ drop n rm)).
Proof.
  induction n as [|n IH]; intros e pre rest g L rm H Ln; cbn [read_words down].
  - by rewrite !app_nil_r.
  - rewrite word_bytes_succ, <- app_assoc, korr_word by done. cbn [mbind option_bind].
    destruct (word_ok (f e) (R e)) as (-> & Ok). destruct rm as [|y rm]; [cbn in Ln; lia|].
    rewrite store_next. cbn [mbind option_bind]. rewrite Ok.
    assert (St : (if leading then keep_word DIG_PER_DEC1 (f e) (Z.of_nat (length L)) g (L ++ f e :: rm)
                  else (Z.of_nat (length L) + 1, g, L ++ f e :: rm)) =
                 (Z.of_nat (length (L ++ [f e])), g, (L ++ [f e]) ++ rm)).
    { rewrite length_app, <- app_assoc. cbn [length app]. destruct leading; [|do 2 f_equal; lia].
      destruct H as [H|H]; [done|]. unfold keep_word. rewrite bool_decide_true by (destruct L; [done|cbn; lia]).
      cbn [orb]. do 2 f_equal. lia. }
    rewrite St. rewrite app_assoc.
    replace (Z.of_nat (length pre) + 4) with (Z.of_nat (length (pre ++ be 4 (inv neg (f e))))) by (rewrite length_app, length_be; lia).
    rewrite IH; [|right; by destruct L|cbn in Ln; lia]. cbn [drop]. by rewrite <- !app_assoc.
Qed.

Lemma read_words_strip n : forall e pre rest g rm, (n <= length rm)%nat ->
  exists rm', read_words n (pre ++ word_bytes neg f e (Z.of_nat n) ++ rest) (Z.of_nat (length pre)) (mask_of neg) true (0, g, rm) =
    Some (inl (Z.of_nat (length (strip (down f e n))), g - 9 * Z.of_nat (n - length (strip (down f e n))), strip (down f e n) ++ rm')) /\
    (length (strip (down f e n)) + length rm' = length rm)%nat /\
    (n <> 0%nat \/ head rm = Some 0 -> strip (down f e n) = [] -> head rm' = Some 0).
Proof.
  induction n as [|n IH]; intros e pre rest g rm Ln.
  - exists rm. cbn. rewrite Z.sub_0_r. split_and!; [done|done|]. by intros [?|?].
  - cbn [read_words down strip]. rewrite word_bytes_succ, <- app_assoc, korr_word by done. cbn [mbind option_bind].
    destruct (word_ok (f e) (R e)) as (-> & Ok). destruct rm as [|y rm]; [cbn in Ln; lia|].
    pose proof (store_next [] y rm (f e)) as Sn. cbn [app length] in Sn. change (Z.of_nat 0) with 0 in Sn. rewrite Sn. clear Sn.
    cbn [mbind option_bind]. rewrite Ok. unfold keep_word. rewrite bool_decide_false by lia. cbn [orb].
    replace (Z.of_nat (length pre) + 4) with (Z.of_nat (length (pre ++ be 4 (inv neg (f e))))) by (rewrite length_app, length_be; lia).
    rewrite app_assoc. destruct (bool_decide_reflect (f e = 0)) as [Z0|Z0].
    + rewrite bool_decide_false by tauto. rewrite Z0.
      destruct (IH (e - 1) (pre ++ be 4 (inv neg 0)) rest (g - DIG_PER_DEC1) (0 :: rm)) as (rm' & E & Lr & Hd); [cbn in *; lia|].
      exists rm'. rewrite Z0 in *. rewrite E. pose proof (length_strip (down f (e - 1) n)) as Ls. rewrite length_down in Ls.
      split_and!; [|done|].
      * do 4 f_equal. unfold DIG_PER_DEC1. lia.
      * intros _ S. apply Hd; [by right|done].
    + rewrite bool_decide_true by done.
      pose proof (read_words_append true n (e - 1) (pre ++ be 4 (inv neg (f e))) rest g [f e] rm
        ltac:(by right) ltac:(cbn in Ln; lia)) as E. cbn [length app] in E. change (Z.of_nat 1) with (0 + 1) in E.
      rewrite E. exists (drop n rm). cbn [length app]. rewrite length_down, length_drop. cbn [length] in Ln.
      split_and!; [|lia|done]. do 4 f_equal. lia.
Qed.

(** The digits in front of the first whole word. *)
Lemma head_ok k x : 0 <= k < 9 -> 0 <= x < 10 ^ k ->
  s32 (Z.lxor (inv neg x) (mask_of neg)) = x /\ bool_decide (u64 x >= 10 ^ (k + 1)) = false.
Proof.
  intros K X. assert (10 ^ k <= 10 ^ 8) by (apply Z.pow_le_mono_r; lia).
  assert (10 ^ (k + 1) = 10 * 10 ^ k) by (rewrite Z.pow_add_r by lia; lia).
  split; [apply word_ok; unfold DIG_BASE; lia|]. apply bool_decide_eq_false.
  rewrite uwrap_small by (cbn; lia). lia.
Qed.

Lemma korr_digits k pre rest x : 0 < k < 9 -> 0 <= x < 10 ^ k ->
  mi_korr (d2b k) (pre ++ be (Z.to_nat (d2b k)) (inv neg x) ++ rest) (Z.of_nat (length pre)) = Some (inv neg x).
Proof.
  intros K X. destruct (d2b_range k ltac:(lia)) as (D & D1 & _). pose proof (power_even k K) as E.
  assert (P : 256 ^ d2b k = 2 * 2 ^ (8 * d2b k - 1)).
  { rewrite <- Z.pow_succ_r by lia. change 256 with (2 ^ 8). rewrite <- Z.pow_mul_r by lia. f_equal. lia. }
  apply mi_korr_bytes; [lia|]. destruct neg; cbn; lia.
Qed.

Lemma read_head_strip k x pre rest g rm : 0 <= k < 9 -> 0 <= x < 10 ^ k -> rm <> [] ->
  exists rm', read_head k (pre ++ be (Z.to_nat (d2b k)) (inv neg x) ++ rest) (Z.of_nat (length pre)) (mask_of neg) (0, g, rm) =
    Some (Z.of_nat (length pre) + d2b k,
          inl (Z.of_nat (length (strip [x])), if bool_decide (x = 0) then g - k else g, strip [x] ++ rm')) /\
    (length (strip [x]) + length rm' = length rm)%nat /\
    (k <> 0 \/ head rm = Some 0 -> x = 0 -> head rm' = Some 0).
Proof.
  intros K X N. unfold read_head. destruct (bool_decide_reflect (k <> 0)) as [K0|K0].
  - rewrite load_d2b by done. cbn [mbind option_bind]. rewrite korr_digits by lia. cbn [mbind option_bind].
    destruct (head_ok k x K X) as (-> & Ok). destruct rm as [|y rm]; [done|].
    pose proof (store_next [] y rm x) as Sn. cbn [app length] in Sn. change (Z.of_nat 0) with 0 in Sn. rewrite Sn. clear Sn.
    cbn [mbind option_bind]. rewrite load_power by lia. cbn [mbind option_bind]. rewrite Ok.
    unfold keep_word. rewrite (bool_decide_false (0 > 0)) by lia. cbn [orb strip].
    destruct (bool_decide_reflect (x = 0)) as [->|X0].
    + rewrite bool_decide_false by tauto. exists (0 :: rm). by cbn.
    + rewrite bool_decide_true by done. exists rm. by cbn.
  - assert (k = 0) as -> by lia. change (10 ^ 0) with 1 in X. assert (x = 0) as -> by lia.
    exists rm. cbn [strip]. rewrite bool_decide_true by done. change (d2b 0) with 0. rewrite Z.add_0_r, Z.sub_0_r.
    split_and!; [done|done|]. intros [?|?] _; [lia|done].
Qed.

(** The digits behind the last whole word. *)
Definition tail_word (k t : Z) : list Z := if bool_decide (k <> 0) then [t * 10 ^ (9 - k)] else [].

Lemma tail_word_range k t : 0 <= k < 9 -> 0 <= t < 10 ^ k -> Forall (fun x => 0 <= x < DIG_BASE) (tail_word k t).
Proof.
  intros K T. unfold tail_word. destruct (bool_decide _); repeat constructor.
  - apply Z.mul_nonneg_nonneg; [lia|apply Z.pow_nonneg; lia].
  - change DIG_BASE with (10 ^ 9). replace 9 with (k + (9 - k)) at 2 by lia. rewrite Z.pow_add_r by lia.
    apply Z.mul_lt_mono_pos_r; [apply Z.pow_pos_nonneg; lia|lia].
Qed.

Lemma read_tail_append k t pre rest g (L rm : list Z) : 0 <= k < 9 -> 0 <= t < 10 ^ k ->
  (length (tail_word k t) <= length rm)%nat ->
  read_tail k (pre ++ be (Z.to_nat (d2b k)) (inv neg t) ++ rest) (Z.of_nat (length pre)) (mask_of neg)
    (Z.of_nat (length L), g, L ++ rm) =
  Some (inl (Z.of_nat (length (L ++ tail_word k t)), g, (L ++ tail_word k t) ++ drop (length (tail_word k t)) rm)).
Proof.
  intros K T Ln. pose proof (tail_word_range k t K T) as R9. unfold read_tail, tail_word in *.
  destruct (bool_decide_reflect (k <> 0)) as [K0|K0].
  - rewrite load_d2b by done. cbn [mbind option_bind]. rewrite korr_digits by lia. cbn [mbind option_bind].
    change DIG_PER_DEC1 with 9. rewrite load_power by lia. cbn [mbind option_bind].
    destruct (head_ok k t K T) as (-> & _). apply Forall_cons_1 in R9 as (R9 & _).
    destruct rm as [|y rm]; [cbn in Ln; lia|]. set (w := t * 10 ^ (9 - k)) in *.
    rewrite (swrap_small 32 w) by (unfold DIG_BASE in R9; cbn; lia).
    rewrite store_next. cbn [mbind option_bind]. destruct (word_ok w R9) as (_ & ->).
    rewrite length_app. cbn [length drop]. rewrite <- app_assoc. cbn [app]. by rewrite Nat2Z.inj_add, drop_0.
  - cbn [length drop]. by rewrite !app_nil_r.
Qed.

(** The words in front of the point, without the zero ones it starts with. *)
Lemma read_int_words q k rest rm : 0 <= q -> 0 <= k < 9 -> 0 <= f q < 10 ^ k -> rm <> [] ->
  ROUND_UP (9 * q + k) <= Z.of_nat (length rm) ->
  let from := be (Z.to_nat (d2b k)) (inv neg (f q)) ++ word_bytes neg f (q - 1) q ++ rest in
  let kept := strip (down f q (S (Z.to_nat q))) in
  exists st g rm',
    read_head k from 0 (mask_of neg) (0, 9 * q + k, rm) = Some (d2b k, inl st) /\
    read_words (Z.to_nat q) from (d2b k) (mask_of neg) true st = Some (inl (Z.of_nat (length kept), g, kept ++ rm')) /\
    (length kept + length rm' = length rm)%nat /\ 0 <= g /\ ROUND_UP g = Z.of_nat (length kept) /\
    (q + k <> 0 -> kept = [] -> head rm' = Some 0).
Proof.
  intros Q K X N Ln from kept. rewrite ROUND_UP_div in Ln by lia. pose proof (d2b_range k K) as (D & _).
  destruct (read_head_strip k (f q) [] (word_bytes neg f (q - 1) q ++ rest) (9 * q + k) rm K X N) as (rm1 & E1 & L1 & H1).
  cbn [app length] in E1. change (Z.of_nat 0 + d2b k) with (d2b k) in E1. change (Z.of_nat 0) with 0 in E1.
  fold from in E1.
  set (pre := be (Z.to_nat (d2b k)) (inv neg (f q))) in *.
  assert (Lp : Z.of_nat (length pre) = d2b k) by (unfold pre; rewrite length_be; lia).
  assert (Eq : Z.of_nat (Z.to_nat q) = q) by lia.
  unfold kept. cbn [down strip] in *. destruct (bool_decide_reflect (f q = 0)) as [X0|X0].
  - cbn [app length] in *. assert (Lq : (Z.to_nat q <= length rm1)%nat) by Zlia.
    destruct (read_words_strip (Z.to_nat q) (q - 1) pre rest (9 * q) rm1 Lq) as (rm2 & E2 & L2 & H2).
    rewrite Lp, Eq in E2. fold from in E2. eexists _, _, rm2.
    replace (9 * q + k - k) with (9 * q) in E1 by lia. rewrite E1. change (Z.of_nat 0) with 0.
    pose proof (length_strip (down f (q - 1) (Z.to_nat q))) as Ls. rewrite length_down in Ls.
    split_and!; [done|exact E2|lia|lia| |].
    + rewrite ROUND_UP_div by lia. Zlia.
    + intros Nz S0. apply H2; [|done]. destruct (decide (q = 0)); [right; apply H1; [lia|done]|left; lia].
  - cbn [app length] in *. assert (k <> 0) by (intros ->; change (10 ^ 0) with 1 in X; lia).
    pose proof (read_words_append true (Z.to_nat q) (q - 1) pre rest (9 * q + k) [f q] rm1
      ltac:(by right) ltac:(Zlia)) as E2. rewrite Lp, Eq in E2. fold from in E2. cbn [length app] in E2.
    rewrite E1. eexists _, _, _. split_and!; [done|exact E2| | | |done].
    + rewrite length_down, length_drop. Zlia.
    + lia.
    + rewrite length_down, ROUND_UP_div by lia. Zlia.
Qed.

(** All the words of the number. *)
Lemma read_number_words q k j k' t rm : 0 <= q -> 0 <= k < 9 -> 0 <= j -> 0 <= k' < 9 ->
  0 <= f q < 10 ^ k -> 0 <= t < 10 ^ k' -> 0 < 9 * q + k + 9 * j + k' ->
  ROUND_UP (9 * q + k) + ROUND_UP (9 * j + k') <= Z.of_nat (length rm) ->
  let from := (be (Z.to_nat (d2b k)) (inv neg (f q)) ++ word_bytes neg f (q - 1) q) ++
              word_bytes neg f (-1) j ++ be (Z.to_nat (d2b k')) (inv neg t) in
  let kept := strip (down f q (S (Z.to_nat q))) in
  let words := kept ++ down f (-1) (Z.to_nat j) ++ tail_word k' t in
  exists g rm',
    read_number q k j k' from 0 (mask_of neg) (0, 9 * q + k, rm) =
      Some (inl (Z.of_nat (length words), g, words ++ rm')) /\
    (length words + length rm' = length rm)%nat /\ 0 <= g /\
    ROUND_UP g + ROUND_UP (9 * j + k') = Z.of_nat (length words) /\
    (words = [] -> head rm' = Some 0).
Proof.
  intros Q K J K' X T Nz Ln from kept words. rewrite !ROUND_UP_div in * by lia.
  assert (N : rm <> []) by (intros ->; cbn in Ln; Zlia).
  destruct (read_int_words q k (word_bytes neg f (-1) j ++ be (Z.to_nat (d2b k')) (inv neg t)) rm Q K X N) as
    (st & g & rm1 & E1 & E2 & L1 & G0 & G & H1); [rewrite ROUND_UP_div by lia; Zlia|].
  fold kept in E2, L1, G, H1. unfold from. rewrite <- !app_assoc in *.
  unfold read_number. rewrite E1. cbn [mbind option_bind]. rewrite E2. cbn [mbind option_bind].
  pose proof (length_strip (down f q (S (Z.to_nat q)))) as Lk. fold kept in Lk. rewrite length_down in Lk.
  pose proof (d2b_range k K) as (D & _).
  assert (Lk' : Z.of_nat (length kept) <= (9 * q + k + 8) / 9).
  { destruct (decide (k = 0)) as [->|]; [|Zlia]. change (10 ^ 0) with 1 in X.
    unfold kept in *. cbn [down strip]. rewrite bool_decide_true by lia.
    pose proof (length_strip (down f (q - 1) (Z.to_nat q))) as Lq. rewrite length_down in Lq. Zlia. }
  set (p1 := be (Z.to_nat (d2b k)) (inv neg (f q)) ++ word_bytes neg f (q - 1) q).
  assert (P1 : d2b k + 4 * Z.max 0 q = Z.of_nat (length p1)).
  { unfold p1. rewrite length_app, length_be, Nat2Z.inj_add, length_word_bytes by lia. lia. }
  pose proof (read_words_append false (Z.to_nat j) (-1) p1 (be (Z.to_nat (d2b k')) (inv neg t)) g kept rm1
    ltac:(by left) ltac:(Zlia)) as E3.
  rewrite Z2Nat.id in E3 by lia. unfold p1 in E3 at 1. rewrite <- app_assoc in E3.
  rewrite P1, E3. cbn [mbind option_bind].
  set (p2 := p1 ++ word_bytes neg f (-1) j).
  assert (P2 : Z.of_nat (length p1) + 4 * Z.max 0 j = Z.of_nat (length p2)).
  { unfold p2. rewrite length_app, Nat2Z.inj_add, length_word_bytes by lia. lia. }
  assert (Lt : length (tail_word k' t) = if bool_decide (k' <> 0) then 1%nat else 0%nat) by (unfold tail_word; by destruct (bool_decide _)).
  assert (Lt9 : j + Z.of_nat (length (tail_word k' t)) = (9 * j + k' + 8) / 9).
  { rewrite Lt. destruct (bool_decide_reflect (k' <> 0)); Zlia. }
  pose proof (read_tail_append k' t p2 [] g (kept ++ down f (-1) (Z.to_nat j)) (drop (Z.to_nat j) rm1) K' T
    ltac:(rewrite length_drop; lia)) as E4.
  rewrite app_nil_r in E4. unfold p2 in E4 at 1. unfold p1 in E4 at 1. rewrite <- !app_assoc in E4.
  rewrite P2, <- !app_assoc, E4. fold words.
  assert (Lw : length words = (length kept + Z.to_nat j + length (tail_word k' t))%nat).
  { unfold words. rewrite !length_app, length_down. lia. }
  exists g, (drop (length (tail_word k' t)) (drop (Z.to_nat j) rm1)).
  split_and!; [by unfold words; rewrite <- !app_assoc| |done| |].
  - rewrite !length_drop. lia.
  - rewrite Lw, G. lia.
  - intros W. unfold words in W. apply app_eq_nil in W as (W1 & W2). apply app_eq_nil in W2 as (W2 & W3).
    rewrite W3. apply (f_equal length) in W2. rewrite length_down in W2. cbn [length] in *. rewrite W2, !drop_0.
    rewrite W3 in Lt9. cbn in Lt9, W2. apply H1; [Zlia|done].
Qed.
End Load.

(** ** The whole number *)

Lemma flip_flip l : flip (flip l) = l.
Proof. destruct l as [|x l]; [done|]. cbn. by rewrite Z.lxor_assoc, Z.lxor_nilpotent, Z.lxor_0_r. Qed.

Lemma length_flip l : length (flip l) = length l.
Proof. by destruct l. Qed.

Lemma fit_words_all len p s : 0 <= s <= p -> ROUND_UP (p - s) + ROUND_UP s <= len ->
  fit_words len ((p - s) / 9) ((p - s) mod 9) (s / 9) (s mod 9) =
  Some ((p - s) / 9, (p - s) mod 9, s / 9, s mod 9, 0, E_DEC_OK).
Proof.
  intros S L. rewrite !ROUND_UP_div in L by lia. unfold fit_words, FIX_INTG_FRAC_ERROR.
  rewrite bool_decide_false; [done|].
  destruct (bool_decide_reflect ((p - s) mod 9 > 0)), (bool_decide_reflect (s mod 9 > 0)); cbn [Z.b2z]; Zlia.
Qed.

Lemma bin_size p s : 0 <= s <= p -> decimal_bin_size p s = Some (size_of (p - s) + size_of s).
Proof.
  intros S. unfold decimal_bin_size. rewrite !quot_9, !rest_9, !load_d2b by Zlia. cbn [mbind option_bind]. f_equal.
  unfold size_of. lia.
Qed.

Section Whole.
Context (p s : Z) (Hs : 0 <= s <= p) (Hp : 0 < p) (d : decimal_t) (St : storable p s d).

(** The first bit tells the sign. *)
Lemma first_bit : exists x l, flip (packed d p s) = x :: l /\
  (if bool_decide (x &&& 0x80 <> 0) then 0 else -1) = mask_of (negative d).
Proof.
  destruct (flip_packed p s d Hs Hp St) as (E & R). pose proof (storable_at_most p s d Hs St) as Am.
  destruct (pack_half d (st_wf _ _ _ St) p s Hs Hp Am) as (P0 & P1).
  rewrite E. unfold sort_number in *. destruct (pack_size_pos p s Hs Hp) as (n & En). rewrite En in *. cbn [pred be] in *.
  eexists _, _. split; [done|]. rewrite Nat2Z.inj_succ, Z.pow_succ_r in P1, R by lia. pose proof (pow256 n) as M.
  set (m := 256 ^ Z.of_nat n) in *. rewrite Z.div_add by lia.
  assert (Y : negative d = true /\ -128 <= inv (negative d) (pack_number d p s) / m < 0 \/
              negative d = false /\ 0 <= inv (negative d) (pack_number d p s) / m < 128).
  { destruct (negative d); cbn [inv] in *; [left|right]; (split; [done|]); split;
      [apply Z.div_le_lower_bound; lia|apply Z.div_lt_upper_bound; lia|apply Z.div_pos; lia|apply Z.div_lt_upper_bound; lia]. }
  generalize dependent (inv (negative d) (pack_number d p s) / m). intros y Y.
  rewrite Z.mod_small by lia. rewrite land_128 by lia.
  destruct Y as [(-> & Y)|(-> & Y)]; [rewrite decide_False by lia|rewrite decide_True by lia]; done.
Qed.

(** The words that are read have the value of the decimal. *)
Lemma words_value : let q := (p - s) / 9 in
  hl DIG_BASE (strip (down (word d) q (S (Z.to_nat q))) ++ down (word d) (-1) (Z.to_nat (s / 9)) ++
               tail_word (s mod 9) (tail_digits d s)) = absval (ROUND_UP s) d.
Proof.
  intros q. pose proof (storable_at_most p s d Hs St) as Am. destruct St as [W C Cf F A]. pose proof (wf_frac d W).
  assert (Q : 0 <= q) by (unfold q; Zlia).
  rewrite (packed_digits_value d W p s Hs Hp Am Cf F). unfold digits_number, whole. fold q.
  rewrite app_assoc, hl_app, (hl_app _ (strip _)), hl_strip, <- hl_app by done.
  replace (-1) with (q - Z.of_nat (S (Z.to_nat q))) by lia. rewrite <- down_app.
  replace (S (Z.to_nat q) + Z.to_nat (s / 9))%nat with (S (count p s)) by (unfold count; fold q; Zlia).
  cbn [down]. pose proof (tail_bound d W s) as T. rewrite ROUND_UP_div by lia. unfold tail_word.
  destruct (bool_decide_reflect (s mod 9 <> 0)) as [K|K].
  - cbn [hl length]. change (DIG_BASE ^ Z.of_nat 1) with (10 ^ 9). change (DIG_BASE ^ Z.of_nat 0) with 1.
    replace (9 * ((s + 8) / 9) - s) with (9 - s mod 9) by Zlia.
    replace (10 ^ 9) with (10 ^ (s mod 9) * 10 ^ (9 - s mod 9)) by (rewrite <- Z.pow_add_r by Zlia; f_equal; lia). ring.
  - assert (K0 : s mod 9 = 0) by lia. rewrite K0 in *. change (10 ^ 0) with 1 in *. cbn [hl length]. change (DIG_BASE ^ Z.of_nat 0) with 1.
    replace (9 * ((s + 8) / 9) - s) with 0 by Zlia. change (10 ^ 0) with 1. lia.
Qed.

Lemma bin2decimal_spec extra to : len to = Z.of_nat (length (buf to)) -> decimal_size p s <= len to ->
  exists d', bin2decimal (flip (packed d p s) ++ extra) to p s = Some (E_DEC_OK, d') /\ wf d' /\
    frac d' = s /\ sign d' = sign d /\ sval (ROUND_UP s) d' = sval (ROUND_UP s) d.
Proof.
  intros L Sz. unfold decimal_size in Sz. pose proof (storable_at_most p s d Hs St) as (Am & _).
  pose proof (st_wf _ _ _ St) as W. pose proof (length_packed d p s Hs) as Lp.
  unfold bin2decimal. rewrite bin_size, !quot_9, !rest_9, fit_words_all by lia.
  destruct first_bit as (x & l & Ex & Em). pose proof (flip_flip (packed d p s)) as Ff.
  rewrite <- length_flip in Lp. rewrite Ex in *. cbn [flip] in Ff. cbn [length] in Lp.
  change (load ((x :: l) ++ extra) 0) with (Some x). cbn [mbind option_bind]. rewrite Em.
  unfold read. rewrite decide_True by (cbn; rewrite length_app; lia). cbn [mbind option_bind].
  change (Z.to_nat 0) with 0%nat. rewrite drop_0, take_app_length' by (cbn [length]; lia).
  change (load (x :: l) 0) with (Some x). cbn [mbind option_bind].
  change (store (x :: l) 0 (x ^^^ 128)) with (Some ((x ^^^ 128) :: l)). cbn [mbind option_bind]. rewrite Ff.
  set (q := (p - s) / 9) in *. set (k := (p - s) mod 9) in *.
  pose proof (tail_bound d W s) as T.
  replace (q * DIG_PER_DEC1 + k) with (9 * q + k) by (unfold DIG_PER_DEC1; lia).
  replace (s / 9 * DIG_PER_DEC1 + s mod 9) with s by (unfold DIG_PER_DEC1; Zlia).
  assert (Ep : 9 * q + k = p - s) by (unfold q, k; Zlia). assert (Es : 9 * (s / 9) + s mod 9 = s) by Zlia.
  destruct (read_number_words (negative d) (word d) (fun e => word_range d e W) q k (s / 9) (s mod 9)
    (tail_digits d s) (buf to)) as (g & rm' & E & Ll & G & Lw & H0);
    [unfold q; Zlia|unfold k; Zlia|Zlia|Zlia|done|done|lia|rewrite Ep, Es; lia|].
  unfold packed, int_bytes, frac_bytes. fold q k. rewrite (Z.mod_small (word d q)) by done. fold (tail_digits d s).
  rewrite E. cbn [mbind option_bind]. rewrite Es in Lw. pose proof (wf_sign d W) as Sg. clear E.
  set (words := strip _ ++ _ ++ _) in *.
  assert (Fw : Forall (fun x => 0 <= x < DIG_BASE) words).
  { unfold words. rewrite !Forall_app. split_and!; [apply Forall_strip| |apply tail_word_range; [Zlia|done]];
      apply words_in_base; intros e; by apply word_range. }
  assert (En : Z.b2z (bool_decide (mask_of (negative d) <> 0)) = sign d).
  { unfold negative. destruct (bool_decide_reflect (sign d <> 0)); cbn [mask_of]; bdec; cbn [Z.b2z]; lia. }
  rewrite En. destruct (result_ok g s rm' words (len to) (sign d)) as (Wf & V); [done|done|lia|done|done| |done|].
  { rewrite length_app. lia. }
  eexists. split; [done|]. split_and!; [done|done|done|].
  unfold sval. cbn [sign]. rewrite V. pose proof words_value as Wv. cbv zeta in Wv. fold q in Wv. fold words in Wv. by rewrite Wv.
Qed.
End Whole.

(** ** Minus zero *)

(** A zero without digits behind the point is stored without its sign. *)
Definition stored (d : decimal_t) : decimal_t :=
  mk_decimal (intg d) (frac d) (len d) (if decide (dval d = 0 /\ frac d = 0) then 0 else sign d) (buf d).

Lemma storable_stored p s d : storable p s d -> storable p s (stored d).
Proof.
  intros [[] ? ? ? ?]. split; try done. split; try done. cbn [sign stored]. destruct (decide (dval d = 0 /\ frac d = 0)); lia.
Qed.

Lemma stored_sign d : sign (stored d) = 0 \/ dval (stored d) <> 0 \/ frac (stored d) <> 0.
Proof.
  change (dval (stored d)) with (dval d). cbn [sign frac stored]. destruct (decide (dval d = 0 /\ frac d = 0)); [by left|].
  destruct (decide (dval d = 0)); [destruct (decide (frac d = 0)); [tauto|auto]|auto].
Qed.

Lemma zero_no_digits d n : wf d -> dval d = 0 -> (0 < n -> 10 ^ ((n - 1) mod 9) <= word d ((n - 1) / 9)) -> 0 <= n <= intg d -> n = 0.
Proof.
  intros W V Top N. destruct (decide (n = 0)) as [|Nz]; [done|]. exfalso. specialize (Top ltac:(lia)).
  assert (0 < 10 ^ ((n - 1) mod 9)) by (apply Z.pow_pos_nonneg; Zlia). pose proof (fw_nonneg d W).
  assert (R : (n - 1) / 9 < iw d) by (unfold iw; rewrite ROUND_UP_div by (apply (wf_intg d W)); Zlia).
  enough (0 < dval d) by lia. unfold dval. apply (ws_pos _ _ ((n - 1) / 9 + fw d)).
  - intros k K. apply wf_words; [done | lia].
  - pose proof (iw_nonneg d W). Zlia.
  - unfold word, dig in Top. rewrite decide_True in Top by Zlia.
    replace (iw d + fw d - 1 - ((n - 1) / 9 + fw d)) with (iw d - 1 - (n - 1) / 9) by lia. lia.
Qed.

Lemma decimal2bin_stored d bytes p s : wf d -> canonical d -> decimal2bin d bytes p s = decimal2bin (stored d) bytes p s.
Proof.
  intros W C. unfold stored. destruct (decide (dval d = 0 /\ frac d = 0)) as [(V & F)|]; [|by destruct d].
  destruct (remove_leading_zeroes_spec d W C) as (n & Rl & N & Am & Top).
  rewrite (zero_no_digits d n W V Top N) in *. clear - Rl F. destruct d as [i f l sg b]. cbn [frac intg len buf sign] in *. subst f.
  unfold decimal2bin. cbn [frac buf sign]. change (remove_leading_zeroes (mk_decimal i 0 l 0 b)) with (remove_leading_zeroes (mk_decimal i 0 l sg b)).
  rewrite Rl. reflexivity.
Qed.

(** Two decimals that are not both zero compare as they are stored. *)
Lemma cmp_stored F d1 d2 : wf d1 -> wf d2 -> fw d1 <= F -> fw d2 <= F -> dval d1 <> 0 \/ dval d2 <> 0 ->
  cmp_number F (stored d1) (stored d2) = cmp_number F d1 d2.
Proof.
  intros W1 W2 F1 F2 Nz. pose proof (wf_sign d1 W1). pose proof (wf_sign d2 W2).
  destruct (absval_pos F d1 W1 F1) as (P1 & Q1), (absval_pos F d2 W2 F2) as (P2 & Q2).
  assert (Z1 : dval d1 = 0 -> absval F d1 = 0) by (intros E; unfold absval; by rewrite E).
  assert (Z2 : dval d2 = 0 -> absval F d2 = 0) by (intros E; unfold absval; by rewrite E).
  unfold cmp_number. change (absval F (stored d1)) with (absval F d1). change (absval F (stored d2)) with (absval F d2). cbn [sign stored].
  destruct (decide (dval d1 = 0 /\ frac d1 = 0)) as [(A1 & _)|_], (decide (dval d2 = 0 /\ frac d2 = 0)) as [(A2 & _)|_]; try lia.
  all: change (bool_decide (0 = 0)) with true.
  - rewrite Z1 by done. assert (0 < absval F d2) by (apply Q2; lia).
    destruct (bool_decide_reflect (sign d1 = 0)); repeat match goal with |- context [decide ?P] => destruct (decide P) end; lia.
  - rewrite Z2 by done. assert (0 < absval F d1) by (apply Q1; lia).
    destruct (bool_decide_reflect (sign d1 = 0)); repeat match goal with |- context [decide ?P] => destruct (decide P) end; lia.
Qed.

(** ** Properties *)

(** C3 A decimal that fits into a field of [p] digits, [s] of them behind the point,
    survives its binary form: [decimal2bin] returns [E_DEC_OK] and writes
    [decimal_bin_size] bytes, leaving the rest of the buffer alone, and
    [bin2decimal] of these bytes into any decimal of at least [decimal_size]
    words returns [E_DEC_OK] with the same value, [s] digits behind the point and
    the same sign, except that a minus zero without digits behind the point
    becomes a plus zero. *)
Theorem decimal_bin_roundtrip p s d bytes to :
  0 <= s <= p -> 0 < p -> storable p s d ->
  (exists n, decimal_bin_size p s = Some n /\ n <= Z.of_nat (length bytes)) ->
  len to = Z.of_nat (length (buf to)) -> decimal_size p s <= len to ->
  exists bytes' d', decimal2bin d bytes p s = Some (E_DEC_OK, bytes') /\ length bytes' = length bytes /\
    (forall n, decimal_bin_size p s = Some n -> drop (Z.to_nat n) bytes' = drop (Z.to_nat n) bytes) /\
    bin2decimal bytes' to p s = Some (E_DEC_OK, d') /\ wf d' /\ frac d' = s /\
    sign d' = (if decide (dval d = 0 /\ frac d = 0) then 0 else sign d) /\
    sval (ROUND_UP s) d' = sval (ROUND_UP s) d.
Proof.
  intros S P St (n & En & Ln) L Sz. rewrite bin_size in En by done. injection En as <-.
  pose proof (length_packed (stored d) p s S) as Lp. pose proof (storable_stored p s d St) as St'.
  destruct (bin2decimal_spec p s S P (stored d) St' (drop (length (packed (stored d) p s)) bytes) to L Sz) as (d' & E & Wf & F & Sg & V).
  exists (flip (packed (stored d) p s) ++ drop (length (packed (stored d) p s)) bytes), d'.
  rewrite decimal2bin_stored by apply St. destruct St' as [W C Cf Fr A]. split_and!; try done.
  - apply decimal2bin_spec; try done; [apply stored_sign|lia].
  - rewrite length_app, length_flip, length_drop. lia.
  - intros n En. rewrite bin_size in En by done. injection En as <-. rewrite <- Lp, Nat2Z.id.
    by rewrite drop_app_length' by (symmetry; apply length_flip).
  - rewrite V. unfold sval. change (absval (ROUND_UP s) (stored d)) with (absval (ROUND_UP s) d). cbn [sign stored].
    destruct (decide (dval d = 0 /\ frac d = 0)) as [(Z0 & _)|]; [|done]. unfold absval. rewrite Z0. by destruct (bool_decide (sign d = 0)).
Qed.

(** More words behind the point do not change the order. *)
Lemma absval_more F J d : wf d -> fw d <= F <= J -> absval J d = absval F d * DIG_BASE ^ (J - F).
Proof.
  intros W FJ. pose proof (fw_nonneg d W). rewrite !absval_dval by lia.
  replace (J - fw d) with (F - fw d + (J - F)) by lia. rewrite Z.pow_add_r by lia. ring.
Qed.

Lemma same_scale d1 d2 J : wf d1 -> wf d2 -> fw d1 <= J -> fw d2 <= J ->
  cmp_number (Z.max (fw d1) (fw d2)) d1 d2 = cmp_number J d1 d2.
Proof.
  intros W1 W2 J1 J2. unfold cmp_number. set (F := Z.max _ _). rewrite (absval_more F J d1), (absval_more F J d2) by (done || lia).
  by rewrite <- Z.mul_sub_distr_r, Z.sgn_mul, (Z.sgn_pos (DIG_BASE ^ _)), Z.mul_1_r by (apply Z.pow_pos_nonneg; unfold DIG_BASE; lia).
Qed.

(** C4 The binary form sorts as the numbers do: for two decimals that fit into the
    same field, comparing the [decimal_bin_size] bytes that [decimal2bin] writes
    with [memcmp] has the sign that [decimal_cmp] returns for the decimals as
    they are stored, which is what it returns for the decimals themselves unless
    both are zero ([stored] drops the sign of a minus zero without digits behind
    the point). *)
Theorem decimal_bin_order p s d1 d2 bytes n :
  0 <= s <= p -> 0 < p -> storable p s d1 -> storable p s d2 ->
  decimal_bin_size p s = Some n -> n = Z.of_nat (length bytes) ->
  exists b1 b2, decimal2bin d1 bytes p s = Some (E_DEC_OK, b1) /\ decimal2bin d2 bytes p s = Some (E_DEC_OK, b2) /\
    decimal_cmp (stored d1) (stored d2) = Some (Z.sgn (CtypeBin.memcmp b1 b2)) /\
    (dval d1 <> 0 \/ dval d2 <> 0 -> decimal_cmp d1 d2 = Some (Z.sgn (CtypeBin.memcmp b1 b2))).
Proof.
  intros S P T1 T2 En L. rewrite bin_size in En by done. injection En as <-.
  pose proof (storable_stored p s d1 T1) as S1. pose proof (storable_stored p s d2 T2) as S2.
  pose proof (sort_order p s _ _ S P S1 S2) as So. destruct (flip_packed p s _ S P S1) as (E1 & R1), (flip_packed p s _ S P S2) as (E2 & R2).
  pose proof (length_packed (stored d1) p s S) as L1. pose proof (length_packed (stored d2) p s S) as L2.
  rewrite (decimal2bin_stored d1) by apply T1. rewrite (decimal2bin_stored d2) by apply T2.
  destruct S1 as [W1 C1 Cf1 F1 A1], S2 as [W2 C2 Cf2 F2 A2].
  pose proof (wf_frac _ W1). pose proof (wf_frac _ W2).
  pose proof (decimal2bin_spec _ W1 C1 p s bytes (stored_sign d1) S P F1 A1 ltac:(lia)) as D1.
  pose proof (decimal2bin_spec _ W2 C2 p s bytes (stored_sign d2) S P F2 A2 ltac:(lia)) as D2.
  rewrite drop_ge, app_nil_r in D1, D2 by lia.
  assert (J1 : fw d1 <= ROUND_UP s) by (apply (ROUND_UP_mono (frac (stored d1)) s); lia).
  assert (J2 : fw d2 <= ROUND_UP s) by (apply (ROUND_UP_mono (frac (stored d2)) s); lia).
  assert (M : Z.sgn (CtypeBin.memcmp (flip (packed (stored d1) p s)) (flip (packed (stored d2) p s))) =
    cmp_number (ROUND_UP s) (stored d1) (stored d2)) by (rewrite E1, E2, memcmp_be by done; exact So).
  eexists _, _. split_and!; [exact D1|exact D2| |]; rewrite M.
  - rewrite decimal_cmp_number by done. by rewrite (same_scale (stored d1) (stored d2) (ROUND_UP s)).
  - intros Nz. rewrite decimal_cmp_number by (apply T1 || apply T2). rewrite (same_scale d1 d2 (ROUND_UP s)) by (apply T1 || apply T2 || done).
    by rewrite cmp_stored by (apply T1 || apply T2 || done).
Qed.

Lemma storable_w_12_5 : storable 5 3 w_12_5.
Proof.
  split; [by apply decimal_wfb_wf| |exists 125; reflexivity|..]; vm_compute; congruence.
Qed.

Lemma storable_w_minus_99_75 : storable 5 3 w_minus_99_75.
Proof.
  split; [by apply decimal_wfb_wf| |exists 9975; reflexivity|..]; vm_compute; congruence.
Qed.

Lemma decimal_bin_roundtrip_witness :
  exists bytes' d', decimal2bin w_minus_99_75 (replicate 3 0) 5 3 = Some (E_DEC_OK, bytes') /\ length bytes' = 3%nat /\
    (forall n, decimal_bin_size 5 3 = Some n -> drop (Z.to_nat n) bytes' = drop (Z.to_nat n) (replicate 3 0)) /\
    bin2decimal bytes' w_to 5 3 = Some (E_DEC_OK, d') /\ wf d' /\ frac d' = 3 /\ sign d' = 1 /\
    sval (ROUND_UP 3) d' = - 99750000000.
Proof.
  apply (decimal_bin_roundtrip 5 3 w_minus_99_75 (replicate 3 0) w_to);
    [lia|lia|exact storable_w_minus_99_75|exists 3; split; [reflexivity|cbn; lia]|reflexivity|vm_compute; congruence].
Defined.

Lemma decimal_bin_order_witness :
  exists b1 b2, decimal2bin w_12_5 [0; 0; 0] 5 3 = Some (E_DEC_OK, b1) /\
    decimal2bin w_minus_99_75 [0; 0; 0] 5 3 = Some (E_DEC_OK, b2) /\
    decimal_cmp (stored w_12_5) (stored w_minus_99_75) = Some (Z.sgn (CtypeBin.memcmp b1 b2)) /\
    (dval w_12_5 <> 0 \/ dval w_minus_99_75 <> 0 -> decimal_cmp w_12_5 w_minus_99_75 = Some (Z.sgn (CtypeBin.memcmp b1 b2))).
Proof.
  apply (decimal_bin_order 5 3 w_12_5 w_minus_99_75 [0; 0; 0] 3);
    [lia|lia|exact storable_w_12_5|exact storable_w_minus_99_75|reflexivity|reflexivity].
Defined.

(** A number with more digits than the field has behind the point is cut only when
    it also needs more bytes: 1.12 in a field of two digits, one behind the
    point, is stored as if the two digits were one, without a warning, and the
    bytes are not a number for [bin2decimal].  The digits in front of the first
    whole word are checked against a bound that is ten times too large: 50 is
    read from a field of one digit. *)
Theorem decimal_bin_uncut :
  let d := mk_decimal 1 2 2 0 [1; 120000000] in
  decimal2bin d [0; 0] 2 1 = Some (E_DEC_OK, [129; 12]) /\
  (exists d', bin2decimal [129; 12] w_to 2 1 = Some (E_DEC_BAD_NUM, d')) /\
  bin2decimal [178] w_to 1 0 = Some (E_DEC_OK, mk_decimal 1 0 3 0 [50; 7; 7]).
Proof. split_and!; [reflexivity|eexists; reflexivity|reflexivity]. Qed.

(** Minus zero is below plus zero for [decimal_cmp], has the same binary form and
    loses its sign in it; with digits behind the point it keeps the sign. *)
Theorem decimal_bin_minus_zero :
  decimal_cmp (mk_decimal 1 0 1 1 [0]) (mk_decimal 1 0 1 0 [0]) = Some (-1) /\
  decimal2bin (mk_decimal 1 0 1 1 [0]) [7] 2 0 = Some (E_DEC_OK, [128]) /\
  decimal2bin (mk_decimal 1 0 1 0 [0]) [7] 2 0 = Some (E_DEC_OK, [128]) /\
  decimal2bin (mk_decimal 1 1 2 1 [0; 0]) [7; 7] 2 1 = Some (E_DEC_OK, [127; 255]).
Proof. split_and!; reflexivity. Qed.
End DecimalBinLoad.
