(* ===== verification/Collate.v ===== *)
(** * Collate: simple collations of 8-bit character sets

    [strings/ctype-simple.c], the collation [8bit_bin] of [strings/ctype-bin.c] and
    [skip_trailing_space] of [include/m_string.h].  A string is the list of its bytes;
    the table [sort_order] of a character set is a function [map] that gives the
    weight of a byte.  The weights of two strings padded with spaces are the
    reference for comparison, sort keys and hashing. *)
From stdpp Require Import base tactics option list numbers sets.
From Stdlib Require Import ZArith Lia.
From S2P Require Import Prelude.
From S2P Require Import CtypeBin.

Module Collate.
Import CtypeBin.

(** ** Comparison *)

(** The loop over the common length: the difference of the first weights that differ. *)
Fixpoint first_diff (map : Z -> Z) (s t : list Z) : option Z :=
  match s, t with
  | x :: s, y :: t => if bool_decide (map x <> map y) then Some (map x - map y) else first_diff map s t
  | _, _ => None
  end.

Definition my_strnncoll_simple (map : Z -> Z) (s t : list Z) (t_is_prefix : bool) : Z :=
  let slen := length s in
  let tlen := length t in
  let slen' := if t_is_prefix && bool_decide (tlen < slen)%nat then tlen else slen in
  match first_diff map s t with
  | Some d => d
  | None => if bool_decide (tlen < slen')%nat then 1 else if bool_decide (slen' < tlen)%nat then -1 else 0
  end.

(** The loop over the end of the longer string. *)
Fixpoint end_space (map : Z -> Z) (swap : Z) (a : list Z) : Z :=
  match a with
  | [] => 0
  | x :: a =>
      if bool_decide (map x <> 32) then (if bool_decide (map x < 32) then - swap else swap)
      else end_space map swap a
  end.

(** [diff_if_only_endspace_difference] is set to 0 first. *)
Definition my_strnncollsp_simple (map : Z -> Z) (a b : list Z) : Z :=
  let len := Nat.min (length a) (length b) in
  match first_diff map a b with
  | Some d => d
  | None =>
      if bool_decide (length a <> length b) then
        if bool_decide (length a < length b)%nat then end_space map (-1) (drop len b)
        else end_space map 1 (drop len a)
      else 0
  end.

(** The same code without the table. *)
Definition my_strnncoll_8bit_bin : list Z -> list Z -> bool -> Z := my_strnncoll_binary.
Definition my_strnncollsp_8bit_bin (a b : list Z) : Z := my_strnncollsp_simple (fun c => c) a b.
Definition my_strnncollsp_binary (a b : list Z) : Z := my_strnncoll_binary a b false.

(** ** Sort keys *)

Definition MY_STRXFRM_PAD_WITH_SPACE : Z := 64.
Definition MY_STRXFRM_PAD_TO_MAXLEN : Z := 128.
Definition MY_STRXFRM_DESC_LEVEL1 : Z := 256.
Definition MY_STRXFRM_REVERSE_LEVEL1 : Z := 65536.

Definition flag (flags bit : Z) : bool := bool_decide (flags &&& bit <> 0).

(** The loop that swaps the ends, [f] applied to every byte; [eq] is the loop test
    [str <= strend] instead of [str < strend]. *)
Fixpoint swap_ends (fuel : nat) (eq : bool) (f : Z -> Z) (l : list Z) (str strend : Z) : option (list Z) :=
  match fuel with
  | O => None
  | S fuel =>
      if bool_decide (str < strend) || eq && bool_decide (str = strend) then
        tmp ← load l str;
        y ← load l strend;
        l ← store l str (f y);
        l ← store l strend (f tmp);
        swap_ends fuel eq f l (str + 1) (strend - 1)
      else Some l
  end.

Definition bnot8 (x : Z) : Z := u8 (Z.lnot x).

(** On the key [l] written so far. *)
Definition my_strxfrm_desc_and_reverse (l : list Z) (flags level : Z) : option (list Z) :=
  let strend := Z.of_nat (length l) in
  if flag flags (MY_STRXFRM_DESC_LEVEL1 ≪ level) then
    if flag flags (MY_STRXFRM_REVERSE_LEVEL1 ≪ level)
    then swap_ends (S (length l)) true bnot8 l 0 (strend - 1)
    else Some (bnot8 <$> l)
  else if flag flags (MY_STRXFRM_REVERSE_LEVEL1 ≪ level)
  then swap_ends (S (length l)) false (fun x => x) l 0 (strend - 1)
  else Some l.

(** [l] is the key from [str] to [frmend], [dstlen] the room from [str] to [strend]. *)
Definition my_strxfrm_pad_desc_and_reverse (pad_char mbminlen : Z) (l : list Z) (dstlen nweights flags level : Z)
  : option (list Z) :=
  let room := dstlen - Z.of_nat (length l) in
  let l := if bool_decide (nweights <> 0) && bool_decide (0 < room) && flag flags MY_STRXFRM_PAD_WITH_SPACE
           then l ++ replicate (Z.to_nat (Z.min (u32 room) (u32 (nweights * mbminlen)))) pad_char
           else l in
  l ← my_strxfrm_desc_and_reverse l flags level;
  let room := dstlen - Z.of_nat (length l) in
  Some (if flag flags MY_STRXFRM_PAD_TO_MAXLEN && bool_decide (0 < room)
        then l ++ replicate (Z.to_nat (u32 room)) pad_char else l).

(** The key, as long as the value returned; [pad_char] is a space and [mbminlen] 1 in
    every 8-bit character set. *)
Definition my_strnxfrm_simple (map : Z -> Z) (dstlen nweights : Z) (src : list Z) (flags : Z)
  : option (list Z) :=
  let frmlen := Z.min (Z.min dstlen nweights) (Z.of_nat (length src)) in
  my_strxfrm_pad_desc_and_reverse 32 1 (map <$> take (Z.to_nat frmlen) src) dstlen (u32 (nweights - frmlen)) flags 0.

Definition my_strnxfrm_8bit_bin (dstlen nweights : Z) (src : list Z) (flags : Z) : option (list Z) :=
  let srclen := Z.min (Z.min (Z.of_nat (length src)) dstlen) nweights in
  my_strxfrm_pad_desc_and_reverse 32 1 (take (Z.to_nat srclen) src) dstlen (u32 (nweights - srclen)) flags 0.

(** ** Trailing spaces *)

Definition SPACE_INT : Z := 538976288.
Definition SIZEOF_INT : Z := 4.

(** [while (end > lo && end[-1] == 0x20) end--;] *)
Fixpoint trim_bytes (fuel : nat) (s : list Z) (lo end_ : Z) : option Z :=
  match fuel with
  | O => None
  | S fuel =>
      if bool_decide (end_ > lo) then
        c ← load s (end_ - 1);
        if bool_decide (c = 32) then trim_bytes fuel s lo (end_ - 1) else Some end_
      else Some end_
  end.

(** The word in front of [end]. *)
Definition word_before (s : list Z) (end_ : Z) : option Z :=
  a ← load s (end_ - 4); b ← load s (end_ - 3); c ← load s (end_ - 2); d ← load s (end_ - 1);
  Some (a + (b ≪ 8) + (c ≪ 16) + (d ≪ 24)).

Fixpoint trim_words (fuel : nat) (s : list Z) (start_words end_ : Z) : option Z :=
  match fuel with
  | O => None
  | S fuel =>
      if bool_decide (end_ > start_words) then
        w ← word_before s end_;
        if bool_decide (w = SPACE_INT) then trim_words fuel s start_words (end_ - SIZEOF_INT) else Some end_
      else Some end_
  end.

(** The part for long strings, a word at a time.  [s] are the [len] bytes at the
    address [ptr]; positions are relative to [ptr]. *)
Definition skip_words (ptr : Z) (s : list Z) : option Z :=
  let len := Z.of_nat (length s) in
  if bool_decide (len > 20) then
    let end_words := (ptr + len) / SIZEOF_INT * SIZEOF_INT - ptr in
    let start_words := (ptr + SIZEOF_INT - 1) / SIZEOF_INT * SIZEOF_INT - ptr in
    if bool_decide (end_words > 0) then
      end_ ← trim_bytes (S (length s)) s end_words len;
      c ← load s (end_ - 1);
      if bool_decide (c = 32) && bool_decide (start_words < end_words)
      then trim_words (S (length s)) s start_words end_
      else Some end_
    else Some len
  else Some len.

(** The length without trailing spaces. *)
Definition skip_trailing_space (ptr : Z) (s : list Z) : option Z :=
  end_ ← skip_words ptr s; trim_bytes (S (length s)) s 0 end_.

Definition my_lengthsp_8bit (ptr : Z) (s : list Z) : option Z := skip_trailing_space ptr s.
Definition my_lengthsp_binary (s : list Z) : Z := Z.of_nat (length s).

(** ** Hashing *)

Definition my_hash_sort_simple (map : Z -> Z) (ptr : Z) (key : list Z) (nr1 nr2 : Z) : option (Z * Z) :=
  end_ ← skip_trailing_space ptr key;
  Some (foldl hash_byte (nr1, nr2) (map <$> take (Z.to_nat end_) key)).

Definition my_hash_sort_8bit_bin (ptr : Z) (key : list Z) (nr1 nr2 : Z) : option (Z * Z) :=
  my_hash_sort_simple (fun c => c) ptr key nr1 nr2.

(** ** The reference: weights padded with spaces *)

Definition padded (map : Z -> Z) (n : nat) (l : list Z) : list Z :=
  (map <$> l) ++ replicate (n - length l) 32.

Lemma memcmp_sgn_cons x y s t : x <> y -> Z.sgn (memcmp (x :: s) (y :: t)) = Z.sgn (x - y).
Proof. intros H. cbn [memcmp]. by rewrite bool_decide_false. Qed.

Lemma memcmp_same x s t : memcmp (x :: s) (x :: t) = memcmp s t.
Proof. cbn [memcmp]. by rewrite bool_decide_true. Qed.

(** The end of the longer string against spaces. *)
Lemma end_space_left map l : forall n, (length l <= n)%nat ->
  Z.sgn (memcmp (padded map n l) (replicate n 32)) = Z.sgn (end_space map 1 l).
Proof.
  induction l as [| x l IH]; intros n Hn; unfold padded; cbn [length fmap list_fmap app end_space].
  { by rewrite Nat.sub_0_r, memcmp_refl. }
  destruct n as [| n]; [simpl in Hn; lia |]. cbn [replicate Nat.sub]. simpl in Hn. case_bool_decide as Hx.
  - rewrite memcmp_sgn_cons by done. case_bool_decide; lia.
  - rewrite Hx, memcmp_same. apply IH. lia.
Qed.

Lemma memcmp_anti s : forall t, Z.sgn (memcmp t s) = - Z.sgn (memcmp s t).
Proof.
  induction s as [| x s IH]; intros [| y t]; try done. destruct (decide (x = y)) as [-> | Hn].
  - by rewrite !memcmp_same.
  - rewrite !memcmp_sgn_cons by done. lia.
Qed.

Lemma end_space_neg map l : end_space map (-1) l = - end_space map 1 l.
Proof. induction l as [| x l IH]; [done |]. cbn [end_space]. by repeat case_bool_decide. Qed.

Lemma collsp_cons map x a y b :
  my_strnncollsp_simple map (x :: a) (y :: b) =
  if bool_decide (map x <> map y) then map x - map y else my_strnncollsp_simple map a b.
Proof.
  unfold my_strnncollsp_simple. cbn [first_diff length Nat.min drop]. destruct (bool_decide (map x <> map y)); [done |].
  destruct (first_diff map a b); [done |].
  rewrite (bool_decide_ext (S (length a) <> S (length b)) (length a <> length b)) by lia.
  by rewrite (bool_decide_ext (S (length a) < S (length b))%nat (length a < length b)%nat) by lia.
Qed.

Lemma collsp_nil_r map a : my_strnncollsp_simple map a [] = end_space map 1 a.
Proof. destruct a as [| x a]; [done |]. unfold my_strnncollsp_simple. by cbn [first_diff length Nat.min drop]. Qed.

Lemma collsp_nil_l map b : my_strnncollsp_simple map [] b = end_space map (-1) b.
Proof. destruct b as [| x b]; [done |]. unfold my_strnncollsp_simple. by cbn [first_diff length Nat.min drop]. Qed.

Lemma padded_nil map n : padded map n [] = replicate n 32.
Proof. unfold padded. cbn. by rewrite Nat.sub_0_r. Qed.

(** The comparison is the one of the padded weights. *)
Lemma collsp_memcmp map a : forall b n, (length a <= n)%nat -> (length b <= n)%nat ->
  Z.sgn (my_strnncollsp_simple map a b) = Z.sgn (memcmp (padded map n a) (padded map n b)).
Proof.
  induction a as [| x a IH]; intros b n Ha Hb.
  { rewrite collsp_nil_l, end_space_neg, padded_nil, Z.sgn_opp, memcmp_anti, end_space_left by done. lia. }
  destruct b as [| y b]; [rewrite collsp_nil_r, padded_nil; by rewrite end_space_left |].
  destruct n as [| n]; [simpl in Ha; lia |]. simpl in Ha, Hb. rewrite collsp_cons.
  unfold padded. cbn [fmap list_fmap length Nat.sub app]. case_bool_decide as Hx.
  - by rewrite memcmp_sgn_cons.
  - rewrite Hx, memcmp_same. apply IH; lia.
Qed.

(** ** Lemmas on sort keys *)

Lemma load_next {A} (l r : list A) x i : i = Z.of_nat (length l) -> load (l ++ x :: r) i = Some x.
Proof. intros ->. rewrite load_nat. by apply list_lookup_middle. Qed.

Lemma store_at {A} (l r : list A) x v i :
  i = Z.of_nat (length l) -> store (l ++ x :: r) i v = Some (l ++ v :: r).
Proof. intros ->. apply store_next. Qed.

Lemma swap_ends_done fuel eq f l str strend : strend < str -> swap_ends (S fuel) eq f l str strend = Some l.
Proof.
  intros H. cbn [swap_ends]. rewrite (bool_decide_false (str < strend)), (bool_decide_false (str = strend)) by lia.
  by rewrite andb_false_r.
Qed.

Lemma swap_ends_spec eq f fuel : (eq = true \/ forall x, f x = x) ->
  forall pre mid post i j, (length mid + 1 < 2 * fuel)%nat ->
  i = Z.of_nat (length pre) -> j = i + Z.of_nat (length mid) - 1 ->
  swap_ends fuel eq f (pre ++ mid ++ post) i j = Some (pre ++ reverse (f <$> mid) ++ post).
Proof.
  intros He. induction fuel as [| fuel IH]; intros pre mid post i j Hf Hi Hj; [lia |].
  destruct mid as [| x mid]; [apply swap_ends_done; simpl in Hj; lia |].
  destruct mid as [| y mid _] using rev_ind.
  - cbn [swap_ends]. simpl in Hf, Hj. assert (j = i) as -> by lia.
    rewrite (bool_decide_false (i < i)), (bool_decide_true (i = i)) by lia. rewrite andb_true_r. cbn [orb].
    cbn [app fmap list_fmap reverse rev_append]. destruct eq; [| destruct He as [He | He]; [done | by rewrite He]].
    rewrite load_next by done. cbn [mbind option_bind]. do 2 (rewrite store_at by done; cbn [mbind option_bind]).
    destruct fuel; [lia |]. by rewrite swap_ends_done by lia.
  - simpl in Hf, Hj. rewrite length_app in Hf, Hj. simpl in Hf, Hj. cbn [swap_ends app].
    rewrite (bool_decide_true (i < j)) by lia. cbn [orb]. rewrite <- app_assoc. cbn [app].
    assert (Hmid : forall z : Z, j = Z.of_nat (length (pre ++ z :: mid))) by (intros; rewrite length_app; simpl; lia).
    assert (Easc : forall z t, pre ++ z :: mid ++ t = (pre ++ z :: mid) ++ t) by (intros; by rewrite <- app_assoc).
    rewrite (load_next pre _ x i Hi). cbn [mbind option_bind].
    rewrite Easc, (load_next _ _ y j (Hmid x)), <- Easc. cbn [mbind option_bind].
    rewrite (store_at pre _ x _ i Hi). cbn [mbind option_bind].
    rewrite Easc, (store_at _ _ y _ j (Hmid _)), <- Easc. cbn [mbind option_bind].
    replace (pre ++ f y :: mid ++ f x :: post) with ((pre ++ [f y]) ++ mid ++ f x :: post) by (by rewrite <- app_assoc).
    rewrite IH by (rewrite ?length_app; simpl; lia).
    rewrite fmap_cons, fmap_app, reverse_cons, reverse_app. cbn [fmap list_fmap]. by rewrite <- !app_assoc.
Qed.

Lemma desc_and_reverse l :
  my_strxfrm_desc_and_reverse l (MY_STRXFRM_PAD_WITH_SPACE ||| MY_STRXFRM_REVERSE_LEVEL1) 0 = Some (reverse l) /\
  my_strxfrm_desc_and_reverse l (MY_STRXFRM_PAD_WITH_SPACE ||| MY_STRXFRM_REVERSE_LEVEL1 ||| MY_STRXFRM_DESC_LEVEL1) 0
    = Some (reverse (bnot8 <$> l)).
Proof.
  assert (H : forall eq f, (eq = true \/ forall x, f x = x) ->
    swap_ends (S (length l)) eq f l 0 (Z.of_nat (length l) - 1) = Some (reverse (f <$> l))).
  { intros eq f He. pose proof (swap_ends_spec eq f (S (length l)) He [] l []) as Hs.
    cbn [app] in Hs. rewrite !app_nil_r in Hs. apply Hs; simpl; lia. }
  split; unfold my_strxfrm_desc_and_reverse; cbn -[swap_ends reverse].
  - etrans; [apply H; tauto |]. do 2 f_equal. apply list_fmap_id.
  - apply H. tauto.
Qed.

(** The key for the flags used by [my_strnxfrm], and with the weights complemented. *)
Lemma key_padded map n src :
  (length src <= n)%nat -> Z.of_nat n < 2 ^ 32 ->
  my_strnxfrm_simple map (Z.of_nat n) (Z.of_nat n) src MY_STRXFRM_PAD_WITH_SPACE = Some (padded map n src) /\
  my_strnxfrm_simple map (Z.of_nat n) (Z.of_nat n) src (MY_STRXFRM_PAD_WITH_SPACE ||| MY_STRXFRM_DESC_LEVEL1) =
    Some (bnot8 <$> padded map n src).
Proof.
  intros Hl Hn. unfold my_strnxfrm_simple, my_strxfrm_pad_desc_and_reverse.
  replace (Z.min (Z.min (Z.of_nat n) (Z.of_nat n)) (Z.of_nat (length src))) with (Z.of_nat (length src)) by lia.
  rewrite Nat2Z.id, take_ge, length_fmap by lia. rewrite !(uwrap_small 32 (Z.of_nat n - _)) by lia.
  rewrite Z.mul_1_r, uwrap_small, Z.min_id by lia.
  replace (Z.to_nat (Z.of_nat n - Z.of_nat (length src))) with (n - length src)%nat by lia.
  assert (E : (if bool_decide (Z.of_nat n - Z.of_nat (length src) <> 0) && bool_decide (0 < Z.of_nat n - Z.of_nat (length src)) && true
    then (map <$> src) ++ replicate (n - length src) 32 else map <$> src) = padded map n src).
  { unfold padded. destruct (decide (length src = n)) as [<- | Hne].
    - rewrite (bool_decide_false (_ <> 0)) by lia. by rewrite Nat.sub_diag, app_nil_r.
    - by rewrite (bool_decide_true (_ <> 0)), (bool_decide_true (0 < _)) by lia. }
  split.
  - change (flag MY_STRXFRM_PAD_WITH_SPACE MY_STRXFRM_PAD_WITH_SPACE) with true. by rewrite E.
  - change (flag (MY_STRXFRM_PAD_WITH_SPACE ||| MY_STRXFRM_DESC_LEVEL1) MY_STRXFRM_PAD_WITH_SPACE) with true.
    by rewrite E.
Qed.

(** ** Lemmas on trailing spaces *)

(** The reference: the string without its trailing spaces. *)
Fixpoint rtrim (l : list Z) : list Z :=
  match l with
  | [] => []
  | x :: l => match rtrim l with
              | [] => if bool_decide (x = 32) then [] else [x]
              | t => x :: t
              end
  end.

Lemma rtrim_spaces l n : rtrim (l ++ replicate n 32) = rtrim l.
Proof.
  induction l as [| x l IH]; cbn [app rtrim]; [| by rewrite IH].
  induction n as [| n IH]; [done |]. cbn [replicate rtrim]. by rewrite IH.
Qed.

Lemma rtrim_last l x : x <> 32 -> rtrim (l ++ [x]) = l ++ [x].
Proof.
  intros Hx. induction l as [| y l IH]; cbn [app rtrim]; [by rewrite bool_decide_false |].
  rewrite IH. by destruct (l ++ [x]) eqn:E; [apply app_nil in E as [_ E] |].
Qed.

Lemma rtrim_pad l : forall n, (length l <= n)%nat ->
  l ++ replicate (n - length l) 32 = rtrim l ++ replicate (n - length (rtrim l)) 32.
Proof.
  induction l as [| x l IH]; intros n Hn; [done |]. destruct n as [| n]; [simpl in Hn; lia |].
  simpl in Hn. cbn [rtrim length app Nat.sub]. rewrite (IH n) by lia.
  destruct (rtrim l) as [| y t]; [| done]. cbn [app length]. rewrite Nat.sub_0_r.
  case_bool_decide as Hx; [by subst x |]. cbn [length app]. by rewrite Nat.sub_succ, Nat.sub_0_r.
Qed.

(** Everything behind [e] is a space. *)
Definition spaces_from (s : list Z) (e : Z) : Prop :=
  0 <= e <= Z.of_nat (length s) /\ forall i, e <= i < Z.of_nat (length s) -> load s i = Some 32.

Lemma spaces_split s e : spaces_from s e ->
  s = take (Z.to_nat e) s ++ replicate (length s - Z.to_nat e) 32.
Proof.
  intros [He H]. rewrite <- (take_drop (Z.to_nat e) s) at 1. f_equal.
  apply list_eq. intros i. rewrite lookup_drop.
  destruct (decide (i < length s - Z.to_nat e)%nat) as [Hi | Hi].
  - rewrite lookup_replicate_2 by done. rewrite <- load_nat. apply H. lia.
  - rewrite lookup_ge_None_2 by lia. symmetry. apply lookup_ge_None_2. rewrite length_replicate. lia.
Qed.

Lemma trim_bytes_spec fuel s lo e :
  0 <= lo -> spaces_from s e -> Z.max 0 (e - lo) < Z.of_nat fuel ->
  exists e', trim_bytes fuel s lo e = Some e' /\ spaces_from s e' /\ e' <= e /\
    (e' <= lo \/ load s (e' - 1) <> Some 32) /\ (lo <= e -> lo <= e').
Proof.
  intros Hlo. revert e. induction fuel as [| fuel IH]; intros e [He H] Hf; cbn [trim_bytes].
  { exists e. lia. }
  case_bool_decide as Hgt; [| exists e; split_and!; try done; lia].
  destruct (load_in s (e - 1)) as [c Hc]; [lia |]. rewrite Hc. cbn [mbind option_bind].
  case_bool_decide as E; [| exists e; split_and!; try done; [right; congruence]].
  subst c. destruct (IH (e - 1)) as (e' & E & H1 & H2 & H3 & H4).
  - split; [lia |]. intros i Hi. destruct (decide (i = e - 1)) as [-> | Hne]; [done | apply H; lia].
  - lia.
  - exists e'. split_and!; try done; lia.
Qed.

Lemma space_word s e : Forall (fun c => 0 <= c < 256) s -> 4 <= e <= Z.of_nat (length s) ->
  exists w, word_before s e = Some w /\
    (w = SPACE_INT -> forall i, e - 4 <= i < e -> load s i = Some 32).
Proof.
  intros Hb He. unfold word_before.
  destruct (load_in s (e - 4)) as [a Ha]; [lia |]. destruct (load_in s (e - 3)) as [b Hb']; [lia |].
  destruct (load_in s (e - 2)) as [c Hc]; [lia |]. destruct (load_in s (e - 1)) as [d Hd]; [lia |].
  rewrite Ha, Hb', Hc, Hd. cbn [mbind option_bind]. eexists. split; [done |]. unfold SPACE_INT. intros E i Hi.
  pose proof (Forall_load _ _ _ _ Hb Ha). pose proof (Forall_load _ _ _ _ Hb Hb').
  pose proof (Forall_load _ _ _ _ Hb Hc). pose proof (Forall_load _ _ _ _ Hb Hd). cbv beta in *.
  rewrite !Z.shiftl_mul_pow2 in E by lia. change (2 ^ 8) with 256 in E. change (2 ^ 16) with 65536 in E.
  change (2 ^ 24) with 16777216 in E.
  assert (a = 32 /\ b = 32 /\ c = 32 /\ d = 32) as (-> & -> & -> & ->) by lia.
  assert (i = e - 4 \/ i = e - 3 \/ i = e - 2 \/ i = e - 1) as [-> | [-> | [-> | ->]]] by lia; done.
Qed.

Lemma trim_words_spec fuel s start e :
  Forall (fun c => 0 <= c < 256) s -> 0 <= start -> spaces_from s e -> (4 | e - start) -> Z.max 0 (e - start) < Z.of_nat fuel ->
  exists e', trim_words fuel s start e = Some e' /\ spaces_from s e'.
Proof.
  intros Hb Hst. revert e. induction fuel as [| fuel IH]; intros e [He H] [k Hk] Hf; cbn [trim_words].
  { exists e. lia. }
  case_bool_decide as Hgt; [| by exists e].
  destruct (space_word s e Hb) as (w & -> & Hw); [lia |]. cbn [mbind option_bind].
  case_bool_decide as E; [| by exists e]. unfold SIZEOF_INT. apply IH; [| exists (k - 1); lia | lia].
  split; [lia |]. intros i Hi. destruct (decide (i < e)); [apply Hw; [done | lia] | apply H; lia].
Qed.

Lemma skip_words_spec ptr s :
  0 <= ptr -> Forall (fun c => 0 <= c < 256) s -> exists e, skip_words ptr s = Some e /\ spaces_from s e.
Proof.
  intros Hp Hb. unfold skip_words, SIZEOF_INT. set (len := Z.of_nat (length s)).
  assert (Hlen : spaces_from s len) by (split; lia).
  case_bool_decide as Hl; [| by exists len]. cbv zeta. set (ew := (ptr + len) / 4 * 4 - ptr).
  set (sw := (ptr + 4 - 1) / 4 * 4 - ptr). assert (0 <= sw < 4) by (subst sw; Zlia).
  assert (len - 4 < ew <= len) by (subst ew; Zlia).
  assert (Hdiv : (4 | ew - sw)) by (exists ((ptr + len) / 4 - (ptr + 4 - 1) / 4); subst ew sw; lia).
  clearbody ew sw. rewrite bool_decide_true by lia.
  destruct (trim_bytes_spec (S (length s)) s ew len) as (e & -> & He & Hle & Hstop & Hlo); [lia | done | lia |].
  cbn [mbind option_bind]. pose proof He as [He1 _].
  destruct (load_in s (e - 1)) as [c Hc]; [lia |]. rewrite Hc. cbn [mbind option_bind].
  destruct (bool_decide (c = 32) && bool_decide (sw < ew)) eqn:E; [| by exists e].
  apply andb_true_iff in E as [->%bool_decide_eq_true _].
  assert (e = ew) as -> by (destruct Hstop as [Hs | Hs]; [lia | done]).
  apply trim_words_spec; try done; lia.
Qed.

Lemma skip_trailing_space_rtrim ptr s :
  0 <= ptr -> Forall (fun c => 0 <= c < 256) s ->
  skip_trailing_space ptr s = Some (Z.of_nat (length (rtrim s))) /\
  take (length (rtrim s)) s = rtrim s.
Proof.
  intros Hp Hb. unfold skip_trailing_space.
  destruct (skip_words_spec ptr s Hp Hb) as (e & -> & He). cbn [mbind option_bind].
  destruct (trim_bytes_spec (S (length s)) s 0 e) as (e' & -> & He' & _ & Hstop & _);
    [lia | done | destruct He; lia |].
  assert (Ht : rtrim s = take (Z.to_nat e') s).
  { rewrite (spaces_split s e' He') at 1. rewrite rtrim_spaces. destruct He' as [Hr _].
    destruct (decide (e' = 0)) as [-> | Hne]; [done |]. destruct Hstop as [Hs | Hs]; [lia |].
    destruct (load_in s (e' - 1)) as [x Hx]; [lia |].
    replace (Z.to_nat e') with (S (Z.to_nat (e' - 1))) by lia.
    erewrite take_S_r by (rewrite <- load_nat, Z2Nat.id by lia; exact Hx).
    apply rtrim_last. congruence. }
  destruct He' as [Hr _]. rewrite Ht, length_take. split; [f_equal; lia |]. f_equal. lia.
Qed.

(** ** Lemmas on hashing *)

(** Only a space has the weight of a space. *)
Definition space_weight (map : Z -> Z) (l : list Z) : Prop := forall c, c ∈ l -> (map c = 32 <-> c = 32).

Lemma rtrim_map map l : space_weight map l -> rtrim (map <$> l) = map <$> rtrim l.
Proof.
  induction l as [| x l IH]; intros H; [done |]. cbn [fmap list_fmap rtrim].
  rewrite IH by (intros c Hc; apply H; set_solver).
  assert (Hx : map x = 32 <-> x = 32) by (apply H; set_solver).
  destruct (rtrim l) as [| y t]; [| done]. cbn [fmap list_fmap].
  rewrite (bool_decide_ext _ _ Hx). by case_bool_decide.
Qed.

Lemma collsp_rtrim map a b :
  my_strnncollsp_simple map a b = 0 <-> rtrim (map <$> a) = rtrim (map <$> b).
Proof.
  set (n := Nat.max (length a) (length b)).
  assert (E : my_strnncollsp_simple map a b = 0 <-> padded map n a = padded map n b).
  { pose proof (collsp_memcmp map a b n ltac:(lia) ltac:(lia)) as Hs. split.
    - intros H. rewrite H in Hs. apply memcmp_eq; [unfold padded; rewrite !length_app, !length_fmap, !length_replicate; lia | lia].
    - intros H. rewrite H, memcmp_refl in Hs. lia. }
  rewrite E. unfold padded. split.
  - intros H. apply (f_equal rtrim) in H. by rewrite !rtrim_spaces in H.
  - intros H. assert (Ha : (length (map <$> a) <= n)%nat) by (rewrite length_fmap; lia).
    assert (Hb : (length (map <$> b) <= n)%nat) by (rewrite length_fmap; lia).
    apply rtrim_pad in Ha. apply rtrim_pad in Hb. rewrite length_fmap in Ha, Hb. by rewrite Ha, Hb, H.
Qed.

(** ** Tables of three collations *)

Definition sort_order_latin1 : list Z := [
  0; 1; 2; 3; 4; 5; 6; 7; 8; 9; 10; 11; 12; 13; 14; 15;
  16; 17; 18; 19; 20; 21; 22; 23; 24; 25; 26; 27; 28; 29; 30; 31;
  32; 33; 34; 35; 36; 37; 38; 39; 40; 41; 42; 43; 44; 45; 46; 47;
  48; 49; 50; 51; 52; 53; 54; 55; 56; 57; 58; 59; 60; 61; 62; 63;
  64; 65; 66; 67; 68; 69; 70; 71; 72; 73; 74; 75; 76; 77; 78; 79;
  80; 81; 82; 83; 84; 85; 86; 87; 88; 89; 90; 91; 92; 93; 94; 95;
  96; 65; 66; 67; 68; 69; 70; 71; 72; 73; 74; 75; 76; 77; 78; 79;
  80; 81; 82; 83; 84; 85; 86; 87; 88; 89; 90; 123; 124; 125; 126; 127;
  128; 129; 130; 131; 132; 133; 134; 135; 136; 137; 138; 139; 140; 141; 142; 143;
  144; 145; 146; 147; 148; 149; 150; 151; 152; 153; 154; 155; 156; 157; 158; 159;
  160; 161; 162; 163; 164; 165; 166; 167; 168; 169; 170; 171; 172; 173; 174; 175;
  176; 177; 178; 179; 180; 181; 182; 183; 184; 185; 186; 187; 188; 189; 190; 191;
  65; 65; 65; 65; 92; 91; 92; 67; 69; 69; 69; 69; 73; 73; 73; 73;
  68; 78; 79; 79; 79; 79; 93; 215; 216; 85; 85; 85; 89; 89; 222; 223;
  65; 65; 65; 65; 92; 91; 92; 67; 69; 69; 69; 69; 73; 73; 73; 73;
  68; 78; 79; 79; 79; 79; 93; 247; 216; 85; 85; 85; 89; 89; 222; 255].

Definition sort_order_koi8u_general_ci : list Z := [
  0; 1; 2; 3; 4; 5; 6; 7; 8; 9; 10; 11; 12; 13; 14; 15;
  16; 17; 18; 19; 20; 21; 22; 23; 24; 25; 26; 27; 28; 29; 30; 31;
  32; 33; 34; 35; 36; 37; 38; 39; 40; 41; 42; 43; 44; 45; 46; 47;
  48; 49; 50; 51; 52; 53; 54; 55; 56; 57; 58; 59; 60; 61; 62; 63;
  64; 65; 66; 67; 68; 69; 70; 71; 72; 73; 74; 75; 76; 77; 78; 79;
  80; 81; 82; 83; 84; 85; 86; 87; 88; 89; 90; 91; 92; 93; 94; 95;
  32; 65; 66; 67; 68; 69; 70; 71; 72; 73; 74; 75; 76; 77; 78; 79;
  80; 81; 82; 83; 84; 85; 86; 87; 88; 89; 90; 123; 124; 125; 126; 127;
  165; 166; 167; 168; 169; 170; 171; 172; 173; 174; 175; 176; 177; 178; 179; 180;
  181; 182; 183; 184; 185; 186; 187; 188; 189; 190; 191; 192; 193; 194; 195; 196;
  197; 198; 199; 136; 135; 200; 140; 141; 201; 202; 203; 204; 205; 132; 206; 207;
  208; 209; 210; 136; 135; 211; 140; 141; 212; 213; 214; 215; 216; 132; 217; 218;
  163; 128; 129; 155; 133; 134; 153; 131; 154; 139; 142; 143; 144; 145; 146; 147;
  148; 164; 149; 150; 151; 152; 137; 130; 161; 160; 138; 157; 162; 158; 156; 159;
  163; 128; 129; 155; 133; 134; 153; 131; 154; 139; 142; 143; 144; 145; 146; 147;
  148; 164; 149; 150; 151; 152; 137; 130; 161; 160; 138; 157; 162; 158; 156; 159].

Definition sort_order_latin7_general_ci : list Z := [
  0; 1; 2; 3; 4; 5; 6; 7; 8; 9; 10; 11; 12; 13; 14; 15;
  16; 17; 18; 19; 20; 21; 22; 23; 24; 25; 26; 27; 28; 29; 30; 31;
  48; 50; 51; 52; 53; 54; 55; 43; 56; 57; 58; 92; 59; 44; 60; 61;
  118; 122; 124; 126; 128; 129; 130; 131; 132; 133; 62; 63; 93; 94; 95; 64;
  65; 134; 146; 148; 154; 156; 166; 168; 172; 174; 180; 182; 186; 192; 194; 200;
  212; 214; 216; 220; 227; 230; 238; 240; 242; 244; 246; 66; 67; 68; 69; 70;
  71; 134; 146; 148; 154; 156; 166; 168; 172; 174; 180; 182; 186; 192; 194; 200;
  212; 214; 216; 220; 226; 230; 238; 240; 242; 244; 246; 72; 73; 74; 75; 32;
  117; 33; 86; 34; 89; 115; 112; 113; 35; 116; 36; 90; 37; 77; 81; 80;
  38; 84; 85; 87; 88; 114; 46; 47; 39; 229; 40; 91; 41; 78; 83; 42;
  49; 254; 101; 102; 103; 255; 76; 104; 45; 105; 218; 97; 106; 45; 107; 144;
  108; 96; 125; 127; 79; 109; 110; 111; 211; 123; 219; 98; 119; 120; 121; 144;
  142; 178; 138; 150; 136; 140; 164; 162; 152; 158; 248; 160; 170; 184; 176; 190;
  225; 196; 198; 202; 206; 208; 204; 99; 236; 188; 222; 234; 232; 250; 252; 224;
  142; 178; 138; 150; 136; 140; 164; 162; 152; 158; 248; 160; 170; 184; 176; 190;
  225; 196; 198; 202; 206; 208; 204; 100; 236; 188; 222; 234; 232; 250; 252; 82].

(** [sort_order[c]] *)
Definition weight (sort_order : list Z) (c : Z) : Z := default 0 (sort_order !! Z.to_nat c).

Lemma latin1_space_weight l : Forall (fun c => 0 <= c < 256) l -> space_weight (weight sort_order_latin1) l.
Proof.
  intros H c Hc. rewrite Forall_forall in H. specialize (H c Hc).
  assert (Hall : forallb (fun n => bool_decide (weight sort_order_latin1 (Z.of_nat n) = 32 <-> Z.of_nat n = 32)) (seq 0 256) = true)
    by (vm_compute; reflexivity).
  rewrite forallb_forall in Hall. specialize (Hall (Z.to_nat c)). rewrite Z2Nat.id in Hall by lia.
  apply bool_decide_eq_true in Hall; [done |]. apply in_seq. lia.
Qed.

(** ** Properties *)

Lemma bnot8_byte x : 0 <= x < 256 -> bnot8 x = 255 - x.
Proof. intros H. unfold bnot8, Z.lnot, uwrap. Zlia. Qed.

Lemma memcmp_complement s : forall t,
  Forall (fun c => 0 <= c < 256) s -> Forall (fun c => 0 <= c < 256) t ->
  Z.sgn (memcmp (bnot8 <$> s) (bnot8 <$> t)) = - Z.sgn (memcmp s t).
Proof.
  induction s as [| x s IH]; intros [| y t] Hs Ht; try done.
  apply Forall_cons_1 in Hs as [Hx Hs]. apply Forall_cons_1 in Ht as [Hy Ht]. cbn [fmap list_fmap].
  destruct (decide (x = y)) as [-> | Hn]; [rewrite !memcmp_same; by apply IH |].
  rewrite !memcmp_sgn_cons; rewrite ?bnot8_byte by done; lia.
Qed.

Lemma padded_bytes map n l :
  (forall c, 0 <= map c < 256) -> Forall (fun c => 0 <= c < 256) (padded map n l).
Proof.
  intros Hm. apply Forall_app. split; [apply Forall_fmap, Forall_true; intros; apply Hm |].
  apply Forall_replicate. lia.
Qed.

(** The sort keys of [my_strnxfrm_simple] order strings as [my_strnncollsp_simple]
    does: [memcmp] of the keys of two strings that fit has the sign of their
    comparison, and the opposite sign for a descending key; both are the order of
    the weights padded with spaces. *)
Theorem sort_keys_order map n a b :
  (forall c, 0 <= map c < 256) -> (length a <= n)%nat -> (length b <= n)%nat -> Z.of_nat n < 2 ^ 32 ->
  exists ka kb da db,
    my_strnxfrm_simple map (Z.of_nat n) (Z.of_nat n) a MY_STRXFRM_PAD_WITH_SPACE = Some ka /\
    my_strnxfrm_simple map (Z.of_nat n) (Z.of_nat n) b MY_STRXFRM_PAD_WITH_SPACE = Some kb /\
    my_strnxfrm_simple map (Z.of_nat n) (Z.of_nat n) a (MY_STRXFRM_PAD_WITH_SPACE ||| MY_STRXFRM_DESC_LEVEL1) = Some da /\
    my_strnxfrm_simple map (Z.of_nat n) (Z.of_nat n) b (MY_STRXFRM_PAD_WITH_SPACE ||| MY_STRXFRM_DESC_LEVEL1) = Some db /\
    Z.sgn (memcmp ka kb) = Z.sgn (my_strnncollsp_simple map a b) /\
    Z.sgn (memcmp da db) = - Z.sgn (my_strnncollsp_simple map a b).
Proof.
  intros Hm Ha Hb Hn. destruct (key_padded map n a Ha Hn) as [Ea Eda]. destruct (key_padded map n b Hb Hn) as [Eb Edb].
  exists (padded map n a), (padded map n b), (bnot8 <$> padded map n a), (bnot8 <$> padded map n b).
  split_and!; try done; [by rewrite (collsp_memcmp map a b n) |].
  rewrite memcmp_complement by by apply padded_bytes. by rewrite (collsp_memcmp map a b n).
Qed.

Lemma weight_byte c : 0 <= weight sort_order_latin1 c < 256.
Proof.
  unfold weight. destruct (sort_order_latin1 !! Z.to_nat c) as [x |] eqn:E; [| done]. cbn [default].
  assert (HF : Forall (fun x => 0 <= x < 256) sort_order_latin1)
    by (apply (bool_decide_eq_true_1 _); vm_compute; reflexivity).
  by apply (Forall_lookup_1 _ _ _ _ HF E).
Qed.

Lemma sort_keys_order_witness :
  exists ka kb,
    my_strnxfrm_simple (weight sort_order_latin1) 3 3 [97; 66] 64 = Some ka /\
    my_strnxfrm_simple (weight sort_order_latin1) 3 3 [65; 98; 32] 64 = Some kb /\
    Z.sgn (memcmp ka kb) = 0.
Proof.
  destruct (sort_keys_order (weight sort_order_latin1) 3 [97; 66] [65; 98; 32]) as (ka & kb & _ & _ & H1 & H2 & _ & _ & H3 & _).
  - exact weight_byte.
  - simpl; lia.
  - simpl; lia.
  - reflexivity.
  - exists ka, kb. split; [exact H1 | split; [exact H2 |]]. rewrite H3. vm_compute. reflexivity.
Defined.

(** [skip_trailing_space], which reads aligned words in the middle of a long string,
    returns the length of the string without its trailing spaces, at every address. *)
Theorem skip_trailing_space_exact ptr s :
  0 <= ptr -> Forall (fun c => 0 <= c < 256) s ->
  skip_trailing_space ptr s = Some (Z.of_nat (length (rtrim s))) /\
  s = rtrim s ++ replicate (length s - length (rtrim s)) 32 /\
  (forall l, rtrim s <> l ++ [32]).
Proof.
  intros Hp Hb. split; [by apply skip_trailing_space_rtrim |]. split.
  - rewrite <- (rtrim_pad s (length s)) by done. by rewrite Nat.sub_diag, app_nil_r.
  - clear. intros l. revert l. induction s as [| x s IH]; intros l E; [by destruct l |]. cbn [rtrim] in E.
    destruct (rtrim s) as [| y t].
    + case_bool_decide as Hx; destruct l as [| z l]; try done; injection E; [by intros -> | by destruct l].
    + destruct l as [| z l]; [done |]. injection E as _ E. by apply (IH l).
Qed.

Lemma skip_trailing_space_exact_witness :
  skip_trailing_space 1001 (65 :: replicate 26 32 ++ [66] ++ replicate 13 32) = Some 28.
Proof.
  refine (proj1 (skip_trailing_space_exact 1001 (65 :: replicate 26 32 ++ [66] ++ replicate 13 32) _ _)); [lia |].
  apply (bool_decide_eq_true_1 _). vm_compute. reflexivity.
Defined.

(** Strings that compare equal have the same hash number, at any addresses, when a
    space is the only byte with the weight of a space; so a hash table may use the
    collation.  Two collations of [ctype-extra.c] are not of this kind: [koi8u_general_ci]
    has a backquote with the weight 32, and in [latin7_general_ci] the space has another
    weight, so that ["a"] and ["a "] differ. *)
Theorem collation_hash_consistent map p q a b nr1 nr2 :
  0 <= p -> 0 <= q -> Forall (fun c => 0 <= c < 256) a -> Forall (fun c => 0 <= c < 256) b ->
  space_weight map (a ++ b) -> my_strnncollsp_simple map a b = 0 ->
  (exists r, my_hash_sort_simple map p a nr1 nr2 = Some r /\ my_hash_sort_simple map q b nr1 nr2 = Some r) /\
  my_strnncollsp_simple (weight sort_order_koi8u_general_ci) [97] [97; 96] = 0 /\
  my_hash_sort_simple (weight sort_order_koi8u_general_ci) p [97] 1 4 <>
    my_hash_sort_simple (weight sort_order_koi8u_general_ci) p [97; 96] 1 4 /\
  my_strnncollsp_simple (weight sort_order_latin7_general_ci) [97] [97; 32] = -1.
Proof.
  intros Hp Hq Ha Hb Hw Hc. split_and!.
  - destruct (skip_trailing_space_rtrim p a Hp Ha) as [Ea Ta]. destruct (skip_trailing_space_rtrim q b Hq Hb) as [Eb Tb].
    unfold my_hash_sort_simple. rewrite Ea, Eb. cbn [mbind option_bind]. rewrite !Nat2Z.id, Ta, Tb.
    apply collsp_rtrim in Hc. rewrite !rtrim_map in Hc by (intros c Hx; apply Hw; set_solver).
    rewrite Hc. by eexists.
  - vm_compute. reflexivity.
  - unfold my_hash_sort_simple.
    rewrite !(fun s H => proj1 (skip_trailing_space_rtrim p s Hp H)) by (repeat constructor; lia).
    vm_compute. discriminate.
  - vm_compute. reflexivity.
Qed.

Lemma collation_hash_consistent_witness :
  exists r, my_hash_sort_simple (weight sort_order_latin1) 4 [97; 66] 1 4 = Some r /\
    my_hash_sort_simple (weight sort_order_latin1) 7 [65; 98; 32] 1 4 = Some r.
Proof.
  refine (proj1 (collation_hash_consistent (weight sort_order_latin1) 4 7 [97; 66] [65; 98; 32] 1 4 _ _ _ _ _ _)).
  - lia.
  - lia.
  - repeat constructor; lia.
  - repeat constructor; lia.
  - apply latin1_space_weight. repeat constructor; lia.
  - vm_compute. reflexivity.
Defined.

End Collate.
