(* ===== verification/Like.v ===== *)
(** * Like: matching with wildcards

    [my_wildcmp_bin] of [strings/ctype-bin.c] and [my_wildcmp_8bit] of
    [strings/ctype-simple.c], the same code over two definitions of [likeconv].  A
    pointer into a string is the list of the bytes from it to the end of the
    string; [past] is the byte at [wildend], behind the pattern.  [like] is the
    meaning of a pattern. *)
From stdpp Require Import base tactics option list numbers.
From Stdlib Require Import ZArith Lia.
From S2P Require Import Prelude.

Module Like.

Section Wildcmp.
Context (likeconv : Z -> Z) (escape w_one w_many : Z) (past : Z).

(** ** Model *)

(** A [char] is signed. *)
Definition chr (c : Z) : Z := s8 c.

(** A literal character, [c] or the one behind the escape character: the
    character and the pattern behind it. *)
Definition unescape (is_escape : bool) (c : Z) (w : list Z) : Z * list Z :=
  match w with
  | c' :: w' => if is_escape then (c', w') else (c, w)
  | [] => (c, [])
  end.

(** The loop over the characters before the first wildcard. *)
Fixpoint anchor (fuel : nat) (wildstr str : list Z) (result : Z)
  : option (ctl (list Z * list Z * Z) Z) :=
  match fuel with
  | O => None
  | S fuel =>
      c ← head wildstr;
      if bool_decide (chr c <> w_many) && bool_decide (chr c <> w_one) then
        let '(c, wildstr) := unescape (bool_decide (chr c = escape)) c (tail wildstr) in
        match str with
        | [] => Some (Ret 1)
        | x :: str =>
            if bool_decide (likeconv c <> likeconv x) then Some (Ret 1)
            else if bool_decide (wildstr = []) then Some (Ret (if bool_decide (str <> []) then 1 else 0))
            else anchor fuel wildstr str 1
        end
      else Some (Next (wildstr, str, result))
  end.

(** The [do] loop over [w_one]; [None] is the end of the string. *)
Fixpoint skip_one (wildstr str : list Z) : option (list Z * list Z) :=
  match wildstr, str with
  | _ :: wildstr, _ :: str =>
      match wildstr with
      | c :: _ => if bool_decide (chr c = w_one) then skip_one wildstr str else Some (wildstr, str)
      | [] => Some ([], str)
      end
  | _, _ => None
  end.

(** The loop that removes [w_many] and [w_one] behind a [w_many]. *)
Fixpoint skip_wild (wildstr str : list Z) : option (list Z * list Z) :=
  match wildstr with
  | [] => Some ([], str)
  | c :: w =>
      if bool_decide (chr c = w_many) then skip_wild w str
      else if bool_decide (chr c = w_one) then
        match str with [] => None | _ :: str => skip_wild w str end
      else Some (wildstr, str)
  end.

Fixpoint find_char (cmp : Z) (str : list Z) : list Z :=
  match str with
  | [] => []
  | x :: s => if bool_decide (likeconv x <> cmp) then find_char cmp s else str
  end.

(** The loop that tries the rest of the pattern behind each occurrence of [cmp];
    [rec] is the recursive call. *)
Fixpoint retry (rec : list Z -> list Z -> option Z) (fuel : nat) (cmp : Z) (wildstr str : list Z) : option Z :=
  match fuel with
  | O => None
  | S fuel =>
      match find_char cmp str with
      | [] => Some (-1)
      | _ :: str =>
          tmp ← rec wildstr str;
          if bool_decide (tmp <= 0) then Some tmp
          else if bool_decide (str <> []) && bool_decide (chr (default past (head wildstr)) <> w_many)
          then retry rec fuel cmp wildstr str
          else Some (-1)
      end
  end.

(** The part behind [w_many]. *)
Definition after_many (rec : list Z -> list Z -> option Z) (wildstr str : list Z) : option Z :=
  match skip_wild wildstr str with
  | None => Some (-1)
  | Some ([], _) => Some 0
  | Some (_, []) => Some (-1)
  | Some (c :: w, str) =>
      let '(cmp, wildstr) := unescape (bool_decide (c = escape)) c w in
      retry rec (S (length str)) (likeconv cmp) wildstr str
  end.

(** The outer loop, from the state [wildstr], [str], [result]. *)
Fixpoint wild_loop (fuel : nat) (wildstr str : list Z) (result : Z) : option Z :=
  match fuel with
  | O => None
  | S fuel =>
      if bool_decide (wildstr = []) then Some (if bool_decide (str <> []) then 1 else 0)
      else
        r ← anchor (S (length wildstr)) wildstr str result;
        match r with
        | Ret v => Some v
        | Next (wildstr, str, result) =>
            c ← head wildstr;
            match (if bool_decide (chr c = w_one) then skip_one wildstr str else Some (wildstr, str)) with
            | None => Some result
            | Some (wildstr, str) =>
                match wildstr with
                | [] => Some (if bool_decide (str <> []) then 1 else 0)
                | c :: w =>
                    if bool_decide (chr c = w_many)
                    then after_many (fun wildstr str => wild_loop fuel wildstr str (-1)) w str
                    else wild_loop fuel wildstr str result
                end
            end
        end
  end.

(** Both functions, up to [likeconv]. *)
Definition wildcmp (str wildstr : list Z) : option Z := wild_loop (S (length wildstr)) wildstr str (-1).

(** ** The meaning of a pattern *)

Inductive tok := Any | One | Lit (c : Z).

Fixpoint tokens (w : list Z) : list tok :=
  match w with
  | [] => []
  | c :: w' =>
      if bool_decide (chr c = w_many) then Any :: tokens w'
      else if bool_decide (chr c = w_one) then One :: tokens w'
      else if bool_decide (chr c = escape) then
        match w' with [] => [Lit c] | c' :: w'' => Lit c' :: tokens w'' end
      else Lit c :: tokens w'
  end.

Inductive like : list tok -> list Z -> Prop :=
| like_nil : like [] []
| like_one p x s : like p s -> like (One :: p) (x :: s)
| like_lit p c x s : likeconv c = likeconv x -> like p s -> like (Lit c :: p) (x :: s)
| like_any p s1 s2 : like p s2 -> like (Any :: p) (s1 ++ s2).

(** No end of the string matches. *)
Definition nomatch (p : list tok) (s : list Z) : Prop := forall s1 s2, s = s1 ++ s2 -> ~ like p s2.

(** ** Matching *)

Lemma like_nil_iff s : like [] s <-> s = [].
Proof. split; [by inversion 1 | intros ->; constructor]. Qed.

Lemma like_one_iff p s : like (One :: p) s <-> exists x s', s = x :: s' /\ like p s'.
Proof. split; [inversion 1; subst; eauto | intros (x & s' & -> & H); by constructor]. Qed.

Lemma like_lit_iff c p s :
  like (Lit c :: p) s <-> exists x s', s = x :: s' /\ likeconv c = likeconv x /\ like p s'.
Proof. split; [inversion 1; subst; eauto | intros (x & s' & -> & H1 & H); by constructor]. Qed.

Lemma like_any_iff p s : like (Any :: p) s <-> exists s1 s2, s = s1 ++ s2 /\ like p s2.
Proof. split; [inversion 1; subst; eauto | intros (s1 & s2 & -> & H); by constructor]. Qed.

Lemma nomatch_not p s : nomatch p s -> ~ like p s.
Proof. intros H. by apply (H []). Qed.

Lemma nomatch_tail p x s : nomatch p (x :: s) -> nomatch p s.
Proof. intros H s1 s2 ->. by apply (H (x :: s1)). Qed.

(** A token that takes one character. *)
Lemma nomatch_step t p x s : t <> Any -> nomatch p s -> nomatch (t :: p) (x :: s).
Proof.
  intros Ht H s1 s2 E Hl. destruct s2 as [| y s2]; [inversion Hl; subst; done |].
  assert (Hp : like p s2) by (inversion Hl; subst; done).
  destruct s1 as [| z s1]; injection E as -> ->; [by apply (H [] s2) |].
  by apply (H (s1 ++ [y]) s2); [rewrite <- app_assoc |].
Qed.

Lemma nomatch_nil t p : t <> Any -> nomatch (t :: p) [].
Proof. intros Ht s1 s2 E Hl. symmetry in E. apply app_nil in E as [-> ->]. by inversion Hl; subst. Qed.

(** [Any] already tries every end of the string. *)
Lemma nomatch_any p s : nomatch (Any :: p) s <-> ~ like (Any :: p) s.
Proof.
  split; [apply nomatch_not |]. intros H s1 s2 -> Hl. apply H.
  apply like_any_iff in Hl as (t1 & t2 & -> & Hl). apply like_any_iff. exists (s1 ++ t1), t2.
  by rewrite <- app_assoc.
Qed.

Lemma not_any p s : ~ like (Any :: p) s <-> nomatch p s.
Proof.
  split; [intros H s1 s2 -> Hl; apply H; by constructor |].
  intros H (s1 & s2 & -> & Hl)%like_any_iff. by apply (H s1 s2).
Qed.

Lemma any_any p s : like (Any :: Any :: p) s <-> like (Any :: p) s.
Proof.
  split; [| intros H; by apply (like_any _ [])]. intros (s1 & s2 & -> & H)%like_any_iff.
  apply like_any_iff in H as (s3 & s4 & -> & H). rewrite app_assoc. by constructor.
Qed.

Lemma any_cons p x s : like (Any :: p) (x :: s) <-> like p (x :: s) \/ like (Any :: p) s.
Proof.
  split.
  - intros ([| y s1] & s2 & E & H)%like_any_iff; [left; by rewrite E | right]. injection E as -> ->. by constructor.
  - intros [H | H]; [by apply (like_any _ []) |]. apply like_any_iff in H as (s1 & s2 & -> & H).
    by apply (like_any _ (x :: s1)).
Qed.

Lemma any_one p x s : like (Any :: One :: p) (x :: s) <-> like (Any :: p) s.
Proof.
  split.
  - intros (s1 & s2 & E & H)%like_any_iff. apply like_one_iff in H as (y & s3 & -> & H).
    destruct s1 as [| z s1]; injection E as -> ->; [by apply (like_any _ []) |].
    replace (s1 ++ y :: s3) with ((s1 ++ [y]) ++ s3) by (by rewrite <- app_assoc). by constructor.
  - intros (s1 & s2 & -> & H)%like_any_iff. destruct s1 as [| y s1 _] using rev_ind.
    + apply (like_any _ []). by constructor.
    + rewrite <- app_assoc. apply (like_any _ (x :: s1)). simpl. by constructor.
Qed.

Lemma any_one_nil p : ~ like (Any :: One :: p) [].
Proof. apply not_any, nomatch_nil. done. Qed.

Lemma any_last s : like [Any] s.
Proof. rewrite <- (app_nil_r s). constructor. constructor. Qed.

(** ** The loops *)

Context (Hesc : 0 <= escape < 128) (Hone : 0 <= w_one < 128) (Hmany : 0 <= w_many < 128).
Context (Hdiff : w_one <> w_many).

(** [r] tells whether [p] matches [s]; -1 that no end of [s] matches. *)
Definition verdict (p : list tok) (s : list Z) (r : Z) : Prop :=
  (r = 0 /\ like p s) \/ (r = 1 /\ ~ like p s) \/ (r = -1 /\ nomatch p s).

(** What a verdict on [p'] and [s'] says of [p] and [s]. *)
Definition reduces (p : list tok) (s : list Z) (p' : list tok) (s' : list Z) : Prop :=
  (like p s <-> like p' s') /\ (nomatch p' s' -> nomatch p s).

Lemma verdict_reduces p s p' s' r : reduces p s p' s' -> verdict p' s' r -> verdict p s r.
Proof. intros [H1 H2] [[E H] | [[E H] | [E H]]]; unfold verdict; rewrite H1; auto. Qed.

Lemma reduces_refl p s : reduces p s p s.
Proof. done. Qed.

Lemma reduces_trans p s p' s' p'' s'' : reduces p s p' s' -> reduces p' s' p'' s'' -> reduces p s p'' s''.
Proof. intros [H1 H2] [H3 H4]. split; [by rewrite H1 | auto]. Qed.

Lemma reduces_one p x s : reduces (One :: p) (x :: s) p s.
Proof.
  split; [| by apply nomatch_step]. rewrite like_one_iff. split; [intros (y & s' & [= <- <-] & H); done | eauto].
Qed.

Lemma reduces_lit c p x s : likeconv c = likeconv x -> reduces (Lit c :: p) (x :: s) p s.
Proof.
  intros Hc. split; [| by apply nomatch_step]. rewrite like_lit_iff.
  split; [intros (y & s' & [= <- <-] & _ & H); done | eauto].
Qed.

Lemma verdict_end s : verdict [] s (if bool_decide (s <> []) then 1 else 0).
Proof.
  unfold verdict. rewrite like_nil_iff. case_bool_decide as H; [by right; left | left].
  split; [done |]. by destruct s; [| destruct H].
Qed.

(** The literal at the front of the pattern. *)
Lemma tokens_literal c w :
  chr c <> w_many -> chr c <> w_one ->
  let '(c', w') := unescape (bool_decide (chr c = escape)) c w in
  tokens (c :: w) = Lit c' :: tokens w' /\ w' `suffix_of` w.
Proof.
  intros H1 H2. unfold unescape. destruct w as [| c' w']; cbn [tokens];
    rewrite (bool_decide_false (chr c = w_many)), (bool_decide_false (chr c = w_one)) by done.
  - by case_bool_decide.
  - case_bool_decide; split; try done. by exists [c'].
Qed.

Definition wildcard (w : list Z) : Prop := exists c w', w = c :: w' /\ (chr c = w_many \/ chr c = w_one).

Lemma anchor_spec fuel w s result :
  w <> [] -> (length w < fuel)%nat ->
  exists r, anchor fuel w s result = Some r /\
    match r with
    | Ret v => verdict (tokens w) s v
    | Next (w', s', result') =>
        wildcard w' /\ w' `suffix_of` w /\ (result' = result \/ result' = 1) /\
        reduces (tokens w) s (tokens w') s'
    end.
Proof.
  revert w s result. induction fuel as [| fuel IH]; intros w s result Hne Hf; [lia |].
  destruct w as [| c w]; [done |]. cbn [anchor head mbind option_bind tail].
  destruct (bool_decide (chr c <> w_many) && bool_decide (chr c <> w_one)) eqn:Ew.
  - apply andb_true_iff in Ew as [H1%bool_decide_eq_true H2%bool_decide_eq_true].
    pose proof (tokens_literal c w H1 H2) as Ht. destruct (unescape _ c w) as [c' w']. destruct Ht as [-> Hl].
    destruct s as [| x s].
    { eexists. split; [done |]. right; left. split; [done |]. by inversion 1. }
    destruct (decide (likeconv c' = likeconv x)) as [Ec | Ec].
    2: { rewrite bool_decide_true by done. eexists. split; [done |]. right; left. split; [done |].
         intros (y & s' & [= <- <-] & Hy & _)%like_lit_iff. done. }
    rewrite bool_decide_false by tauto. destruct (decide (w' = [])) as [-> | Hw'].
    + rewrite bool_decide_true by done. eexists. split; [done |].
      eapply verdict_reduces; [by apply reduces_lit | apply verdict_end].
    + rewrite bool_decide_false by done. simpl in Hf. pose proof (suffix_length _ _ Hl).
      destruct (IH w' s 1 Hw' ltac:(lia)) as (r & -> & Hr). eexists. split; [done |].
      destruct r as [[[w2 s2] r2] | v].
      * destruct Hr as (Hw & Hlen & Hr2 & Hred). simpl. split_and!; [done | | tauto |]; [by apply suffix_cons_r; etrans |].
        eapply reduces_trans; [by apply reduces_lit | done].
      * eapply verdict_reduces; [by apply reduces_lit | done].
  - eexists. split; [done |]. simpl. split_and!; [| done | tauto | apply reduces_refl].
    exists c, w. split; [done |]. apply andb_false_iff in Ew as [Ew | Ew]; apply bool_decide_eq_false in Ew; lia.
Qed.

Lemma skip_one_spec w : forall s, (exists c w', w = c :: w' /\ chr c = w_one) ->
  match skip_one w s with
  | None => nomatch (tokens w) s
  | Some (w', s') => w' `suffix_of` tail w /\ reduces (tokens w) s (tokens w') s'
  end.
Proof.
  induction w as [| c w IH]; intros s (c0 & w0 & [= <- <-] & Hc).
  assert (Et : tokens (c :: w) = One :: tokens w).
  { cbn [tokens]. rewrite bool_decide_false by lia. by rewrite bool_decide_true. }
  rewrite Et. destruct s as [| x s]; [by apply nomatch_nil |]. cbn [skip_one].
  destruct w as [| c2 w]; [split; [done | apply reduces_one] |].
  case_bool_decide as H2; [| split; [done | apply reduces_one]].
  specialize (IH s ltac:(eauto)). destruct (skip_one (c2 :: w) s) as [[w' s'] |].
  - destruct IH as [Hl Hr]. split; [by apply suffix_cons_r |]. eapply reduces_trans; [apply reduces_one | done].
  - by apply nomatch_step.
Qed.

Lemma skip_wild_spec w : forall s,
  match skip_wild w s with
  | None => ~ like (Any :: tokens w) s
  | Some (w', s') =>
      (like (Any :: tokens w) s <-> like (Any :: tokens w') s') /\ w' `suffix_of` w /\
      (forall c w'', w' = c :: w'' -> chr c <> w_many /\ chr c <> w_one)
  end.
Proof.
  induction w as [| c w IH]; intros s; [done |]. cbn [skip_wild tokens].
  case_bool_decide as Hm.
  { specialize (IH s). destruct (skip_wild w s) as [[w' s'] |]; rewrite any_any; [| done].
    destruct IH as (H1 & H2 & H3). split_and!; [done | by apply suffix_cons_r | done]. }
  case_bool_decide as Ho.
  - destruct s as [| x s]; [apply any_one_nil |]. specialize (IH s).
    destruct (skip_wild w s) as [[w' s'] |]; rewrite any_one; [| done].
    destruct IH as (H1 & H2 & H3). split_and!; [done | by apply suffix_cons_r | done].
  - split_and!; [| done | by intros c' w' [= <- <-]]. cbn [tokens].
    by rewrite (bool_decide_false (chr c = w_many)), (bool_decide_false (chr c = w_one)) by done.
Qed.

Lemma find_char_spec c p s :
  match find_char (likeconv c) s with
  | [] => ~ like (Any :: Lit c :: p) s
  | x :: s' => (length s' < length s)%nat /\
      (like (Any :: Lit c :: p) s <-> like p s' \/ like (Any :: Lit c :: p) s')
  end.
Proof.
  induction s as [| x s IH]; cbn [find_char]; [by apply not_any, nomatch_nil |].
  case_bool_decide as Hx.
  - assert (E : like (Any :: Lit c :: p) (x :: s) <-> like (Any :: Lit c :: p) s).
    { rewrite any_cons, like_lit_iff. split; [| tauto].
      intros [(y & s' & [= <- <-] & Hy & _) | H]; [by rewrite Hy in Hx | done]. }
    destruct (find_char (likeconv c) s) as [| y s']; rewrite E; [done |].
    destruct IH as [H1 H2]. split; [simpl; lia | done].
  - split; [simpl; lia |]. rewrite any_cons, like_lit_iff.
    split; (intros [H | H]; [| by right]); left.
    + by destruct H as (y & s' & [= <- <-] & _ & H).
    + by exists x, s.
Qed.

Lemma retry_spec rec c w : chr past <> w_many ->
  (forall s, exists r, rec w s = Some r /\ verdict (tokens w) s r) ->
  forall fuel s, (length s < fuel)%nat ->
  exists r, retry rec fuel (likeconv c) w s = Some r /\ verdict (Any :: Lit c :: tokens w) s r.
Proof.
  intros Hpast Hrec. induction fuel as [| fuel IH]; intros s Hf; [lia |]. cbn [retry].
  pose proof (find_char_spec c (tokens w) s) as Hfc. destruct (find_char (likeconv c) s) as [| x s'].
  { eexists. split; [done |]. do 2 right. by rewrite nomatch_any. }
  destruct Hfc as [Hl Hlike]. destruct (Hrec s') as (tmp & -> & Hv). cbn [mbind option_bind].
  assert (Hno : nomatch (tokens w) s' -> verdict (Any :: Lit c :: tokens w) s (-1)).
  { intros Hn. do 2 right. split; [done |]. rewrite nomatch_any, Hlike.
    intros [H | H]; [by apply (nomatch_not _ _ Hn) |]. revert H. apply not_any. intros s1 s2 E H.
    apply like_lit_iff in H as (y & s3 & -> & _ & H). apply (Hn (s1 ++ [y]) s3); [by rewrite <- app_assoc | done]. }
  destruct Hv as [[-> Hv] | [[-> Hv] | [-> Hv]]].
  - eexists. split; [done |]. left. rewrite Hlike. tauto.
  - rewrite bool_decide_false by lia. destruct (bool_decide (s' <> []) && _) eqn:Eb.
    + destruct (IH s' ltac:(lia)) as (r & -> & Hr). eexists. split; [done |].
      eapply verdict_reduces; [| done]. split; [rewrite Hlike; tauto |].
      rewrite !nomatch_any, Hlike. tauto.
    + eexists. split; [done |]. apply andb_false_iff in Eb as [Eb | Eb]; apply bool_decide_eq_false in Eb.
      * assert (s' = []) as -> by (destruct s'; [done | by destruct Eb]). do 2 right. split; [done |].
        rewrite nomatch_any, Hlike. intros [H | H]; [done |]. revert H. by apply not_any, nomatch_nil.
      * apply Hno. destruct w as [| c' w]; cbn [head default] in Eb; [by destruct Eb |].
        assert (Et : tokens (c' :: w) = Any :: tokens w).
        { cbn [tokens]. rewrite bool_decide_true; [done |]. by apply dec_stable. }
        rewrite Et in *. by apply nomatch_any.
  - eexists. split; [done |]. by apply Hno.
Qed.

Abbreviation bytes := (Forall (fun c => 0 <= c < 256)).

Lemma bytes_suffix w w' : w' `suffix_of` w -> bytes w -> bytes w'.
Proof. intros [k ->] [_ H]%Forall_app. done. Qed.

(** The code compares the escape character as a [char] and as a [uchar]. *)
Lemma escape_unsigned c : 0 <= c < 256 -> bool_decide (c = escape) = bool_decide (chr c = escape).
Proof. intros H. apply bool_decide_ext. unfold chr, swrap. Zlia. Qed.

Lemma after_many_spec rec w s : chr past <> w_many -> bytes w ->
  (forall w' s, (length w' <= length w)%nat -> bytes w' ->
     exists r, rec w' s = Some r /\ verdict (tokens w') s r) ->
  exists r, after_many rec w s = Some r /\ verdict (Any :: tokens w) s r.
Proof.
  intros Hpast Hb Hrec. unfold after_many. pose proof (skip_wild_spec w s) as Hs.
  destruct (skip_wild w s) as [[w1 s1] |].
  2: { eexists. split; [done |]. do 2 right. by rewrite nomatch_any. }
  destruct Hs as (Hiff & Hsuf & Hlit). pose proof (bytes_suffix _ _ Hsuf Hb) as Hb1.
  assert (Hred : reduces (Any :: tokens w) s (Any :: tokens w1) s1).
  { split; [done |]. by rewrite !nomatch_any, Hiff. }
  destruct w1 as [| c w1].
  { eexists. split; [done |]. left. rewrite Hiff. split; [done | apply any_last]. }
  destruct (Hlit c w1 eq_refl) as [Hc1 Hc2]. apply Forall_cons_1 in Hb1 as [Hc Hb1].
  pose proof (tokens_literal c w1 Hc1 Hc2) as Ht. rewrite (escape_unsigned c Hc).
  destruct (unescape _ c w1) as [c' w2]. destruct Ht as [Et Hsuf2].
  apply suffix_length in Hsuf. simpl in Hsuf. pose proof (suffix_length _ _ Hsuf2).
  destruct s1 as [| x s1].
  { eexists. split; [done |]. eapply verdict_reduces; [exact Hred |]. do 2 right. split; [done |].
    rewrite nomatch_any, Et. by apply not_any, nomatch_nil. }
  destruct (retry_spec rec c' w2 Hpast) with (fuel := S (length (x :: s1))) (s := x :: s1) as (r & -> & Hr).
  - intros s'. apply Hrec; [lia | by eapply bytes_suffix].
  - lia.
  - eexists. split; [done |]. eapply verdict_reduces; [exact Hred |]. by rewrite Et.
Qed.

Lemma wild_loop_spec fuel : forall w s result,
  chr past <> w_many -> bytes w -> (length w < fuel)%nat -> result = -1 \/ result = 1 ->
  exists r, wild_loop fuel w s result = Some r /\ verdict (tokens w) s r.
Proof.
  induction fuel as [| fuel IH]; intros w s result Hpast Hb Hf Hres; [lia |]. cbn [wild_loop].
  destruct (decide (w = [])) as [-> | Hne].
  { rewrite bool_decide_true by done. eexists. split; [done | apply verdict_end]. }
  rewrite bool_decide_false by done.
  destruct (anchor_spec (S (length w)) w s result Hne ltac:(lia)) as (r & -> & Hr). cbn [mbind option_bind].
  destruct r as [[[w1 s1] res1] | v]; [| by eexists].
  destruct Hr as ((c & w1' & -> & Hc) & Hsuf & Hres1 & Hred). cbn [head mbind option_bind].
  pose proof (bytes_suffix _ _ Hsuf Hb) as Hb1. apply suffix_length in Hsuf. simpl in Hsuf.
  assert (Hmain : forall w2 s2, w2 = c :: w1' /\ chr c = w_many \/ w2 `suffix_of` w1' ->
    reduces (tokens w) s (tokens w2) s2 ->
    exists r, match w2 with
      | [] => Some (if bool_decide (s2 <> []) then 1 else 0)
      | c :: w => if bool_decide (chr c = w_many)
                  then after_many (fun wildstr str => wild_loop fuel wildstr str (-1)) w s2
                  else wild_loop fuel w2 s2 res1
      end = Some r /\ verdict (tokens w) s r).
  { intros w2 s2 Hs2 Hred2.
    assert (Hs2' : w2 `suffix_of` c :: w1') by (destruct Hs2 as [[-> _] | Hs2]; [done | by apply suffix_cons_r]).
    pose proof (bytes_suffix _ _ Hs2' Hb1) as Hb2.
    destruct w2 as [| c2 w2]; [eexists; split; [done |]; eapply verdict_reduces; [done | apply verdict_end] |].
    pose proof (suffix_length _ _ Hs2') as Hl2. simpl in Hl2.
    case_bool_decide as Hm.
    - apply Forall_cons_1 in Hb2 as [_ Hb2].
      destruct (after_many_spec (fun w s => wild_loop fuel w s (-1)) w2 s2 Hpast Hb2) as (r & -> & Hr).
      { intros w' s' Hl Hb'. apply IH; [done | done | lia | tauto]. }
      eexists. split; [done |]. eapply verdict_reduces; [exact Hred2 |]. cbn [tokens]. by rewrite bool_decide_true.
    - destruct Hs2 as [[[= -> ->] Hm'] | Hs2]; [done |]. pose proof (suffix_length _ _ Hs2) as Hl3. simpl in Hl3.
      destruct (IH (c2 :: w2) s2 res1 Hpast Hb2) as (r & -> & Hr); [simpl; lia | lia |].
      eexists. split; [done |]. by eapply verdict_reduces. }
  case_bool_decide as Ho; [| apply (Hmain (c :: w1') s1); [left; tauto | done]].
  pose proof (skip_one_spec (c :: w1') s1 ltac:(eauto)) as Hsk.
  destruct (skip_one (c :: w1') s1) as [[w2 s2] |].
  - destruct Hsk as [Hsk Hred2]. apply (Hmain w2 s2); [by right | by eapply reduces_trans].
  - eexists. split; [done |]. destruct Hred as [H1 H2]. destruct Hres1 as [-> | ->]; [destruct Hres as [-> | ->] |].
    + do 2 right. auto.
    + right; left. split; [done |]. rewrite H1. by apply nomatch_not.
    + right; left. split; [done |]. rewrite H1. by apply nomatch_not.
Qed.

End Wildcmp.

(** ** The two functions *)

Definition my_wildcmp_bin (past : Z) (str wildstr : list Z) (escape w_one w_many : Z) : option Z :=
  wildcmp (fun c => c) escape w_one w_many past str wildstr.

Definition my_wildcmp_8bit (sort_order : Z -> Z) (past : Z) (str wildstr : list Z) (escape w_one w_many : Z)
  : option Z :=
  wildcmp sort_order escape w_one w_many past str wildstr.

(** ** Properties *)

(** C33 [my_wildcmp_8bit] and [my_wildcmp_bin] decide whether a string matches a
    pattern: they return 0 exactly when it does.  Otherwise they return 1 or -1,
    and -1, at which the recursion stops, only when no end of the string matches
    either.  The wildcards and the escape character are ASCII: the escape
    character is compared with a [char] and, behind [w_many], with a [uchar], and
    [wildcmp_escape_sign] shows what goes wrong otherwise.  The byte behind the
    pattern, which the code reads, is not [w_many]: with [%] there, ["abca"] does
    not match ["%a"]. *)
Theorem wildcmp_is_like sort_order past str wildstr escape w_one w_many :
  0 <= escape < 128 -> 0 <= w_one < 128 -> 0 <= w_many < 128 -> w_one <> w_many ->
  Forall (fun c => 0 <= c < 256) wildstr -> s8 past <> w_many ->
  (exists r, my_wildcmp_8bit sort_order past str wildstr escape w_one w_many = Some r /\
     (r = 0 /\ like sort_order (tokens escape w_one w_many wildstr) str \/
      r = 1 /\ ~ like sort_order (tokens escape w_one w_many wildstr) str \/
      r = -1 /\ nomatch sort_order (tokens escape w_one w_many wildstr) str)) /\
  my_wildcmp_bin past str wildstr escape w_one w_many =
    my_wildcmp_8bit (fun c => c) past str wildstr escape w_one w_many /\
  my_wildcmp_bin 37 [97; 98; 99; 97] [37; 97] 92 95 37 = Some (-1) /\
  like (fun c => c) (tokens 92 95 37 [37; 97]) [97; 98; 99; 97].
Proof.
  intros He Ho Hm Hd Hb Hp. split_and!; [| done | done |].
  - apply wild_loop_spec; try done; [lia | by left].
  - apply (like_any _ _ [97; 98; 99] [97]). repeat constructor.
Qed.

Lemma wildcmp_is_like_witness :
  my_wildcmp_bin 0 [97; 98; 99; 97] [37; 98; 95; 92; 97] 92 95 37 = Some 0 /\
  like (fun c => c) (tokens 92 95 37 [37; 98; 95; 92; 97]) [97; 98; 99; 97].
Proof.
  destruct (wildcmp_is_like (fun c => c) 0 [97; 98; 99; 97] [37; 98; 95; 92; 97] 92 95 37)
    as [(r & E & Hr) [E2 _]]; try lia.
  - repeat constructor; lia.
  - done.
  - assert (E0 : my_wildcmp_bin 0 [97; 98; 99; 97] [37; 98; 95; 92; 97] 92 95 37 = Some 0) by reflexivity.
    split; [exact E0 |]. rewrite <- E2, E0 in E. injection E as <-.
    destruct Hr as [[_ Hr] | [[Hr _] | [Hr _]]]; [exact Hr | discriminate Hr | discriminate Hr].
Defined.

(** With the escape character 233, and no other byte of the pattern special but
    [%], the loop before the first wildcard compares it with a [char], -23, and the
    code behind [%] with a [uchar], 233.  The pattern of E9 and [%] matches
    E9 A, and [%] E9 [%] should match it too, but there E9 is taken for the escape
    character and the [%] behind it for a literal.  With -23, the value of the
    [char], the roles change. *)
Theorem wildcmp_escape_sign :
  my_wildcmp_bin 0 [233; 65] [233; 37] 233 95 37 = Some 0 /\
  my_wildcmp_bin 0 [233; 65] [37; 233; 37] 233 95 37 = Some (-1) /\
  like (fun c => c) (tokens 233 95 37 [37; 233; 37]) [233; 65] /\
  my_wildcmp_bin 0 [37] [233; 37] (-23) 95 37 = Some 0 /\
  my_wildcmp_bin 0 [37] [37; 233; 37] (-23) 95 37 = Some (-1) /\
  like (fun c => c) (tokens (-23) 95 37 [37; 233; 37]) [37].
Proof.
  split_and!; try reflexivity.
  - apply (like_any _ _ [] [233; 65]). constructor; [done |]. apply (like_any _ _ [65] []). constructor.
  - apply (like_any _ _ [] [37]). repeat constructor.
Qed.

End Like.
