(* ===== verification/LikeRange.v ===== *)
(** * LikeRange: the range of keys of a pattern

    [my_like_range_simple] and [set_max_sort_char] of [strings/ctype-simple.c]: the smallest
    and the largest key that a string matching a LIKE pattern can have.  [like_range_bounds]
    proves that every match ([Like.like]) lies between them, in the binary collation
    ([CtypeBin]) and in a simple one ([Collate]). *)
From stdpp Require Import base tactics option list numbers.
From Stdlib Require Import ZArith Lia.
From S2P Require Import Prelude.
From S2P Require Import CtypeBin.
From S2P Require Import Collate.
From S2P Require Import Like.

Module LikeRange.
Import CtypeBin Collate Like.

(** ** Model *)

(** The loop over the 256 weights; [cur] is [cs->max_sort_char] and [max_char] its weight. *)
Definition set_max_sort_char (sort_order : Z -> Z) (max_sort_char : Z) : Z :=
  (foldl (fun '(cur, max_char) i =>
            if bool_decide (sort_order i > max_char) then (i, sort_order i) else (cur, max_char))
     (max_sort_char, sort_order (u8 max_sort_char)) (seqZ 0 256)).1.

Section Range.
Context (escape w_one w_many : Z) (max_sort_char res_length : Z).

(** The loop over the pattern: the bytes written to [min_str] and [max_str], and
    whether it stopped at [w_many]. *)
Fixpoint range_loop (ptr min_str max_str : list Z) (charlen : Z) : list Z * list Z * bool :=
  match ptr with
  | [] => (min_str, max_str, false)
  | c :: p =>
      if bool_decide (Z.of_nat (length min_str) <> res_length) && bool_decide (charlen > 0) then
        match p, bool_decide (chr c = escape) with
        | c2 :: p2, true => range_loop p2 (min_str ++ [c2]) (max_str ++ [c2]) (charlen - 1)
        | _, _ =>
            if bool_decide (chr c = w_one)
            then range_loop p (min_str ++ [0]) (max_str ++ [u8 max_sort_char]) (charlen - 1)
            else if bool_decide (chr c = w_many) then (min_str, max_str, true)
            else range_loop p (min_str ++ [c]) (max_str ++ [c]) (charlen - 1)
        end
      else (min_str, max_str, false)
  end.

Record range := mk_range {
  min_str : list Z;
  max_str : list Z;
  min_length : Z;
  max_length : Z;
}.

(** [binsort] is [cs->state & MY_CS_BINSORT]. *)
Definition my_like_range_simple (mbmaxlen : Z) (binsort : bool) (ptr : list Z) : range :=
  let '(mn, mx, many) := range_loop ptr [] [] (res_length / mbmaxlen) in
  let n := Z.of_nat (length mn) in
  let rest := Z.to_nat (res_length - n) in
  if many : bool
  then mk_range (mn ++ replicate rest 0) (mx ++ replicate rest (u8 max_sort_char))
         (if binsort then n else res_length) res_length
  else mk_range (mn ++ replicate rest 32) (mx ++ replicate rest 32) n n.

Definition min_key (r : range) : list Z := take (Z.to_nat (min_length r)) (min_str r).
Definition max_key (r : range) : list Z := take (Z.to_nat (max_length r)) (max_str r).

End Range.

(** ** The largest weight *)

Lemma set_max_largest sort_order m :
  0 <= m < 256 -> 0 <= set_max_sort_char sort_order m < 256 /\
  forall c, 0 <= c < 256 -> sort_order c <= sort_order (set_max_sort_char sort_order m).
Proof.
  intros Hm. unfold set_max_sort_char. rewrite uwrap_small by lia.
  set (step := fun '(cur, max_char) i => if bool_decide (sort_order i > max_char) then (i, sort_order i) else (cur, max_char)).
  assert (H : forall l st, (forall i, i ∈ l -> 0 <= i < 256) -> 0 <= st.1 < 256 -> st.2 = sort_order st.1 ->
    let st' := foldl step st l in
    0 <= st'.1 < 256 /\ st'.2 = sort_order st'.1 /\ st.2 <= st'.2 /\ forall i, i ∈ l -> sort_order i <= st'.2).
  { induction l as [| i l IH]; intros [cur mc] Hl H1 H2; cbv zeta; cbn [foldl].
    - cbn [fst snd] in *. split_and!; [lia | lia | done | lia |]. by intros i Hi%elem_of_nil.
    - cbn [fst snd] in H1, H2. assert (Hi : 0 <= i < 256) by (apply Hl; by left).
      destruct (IH (step (cur, mc) i)) as (R1 & R2 & R3 & R4); try (unfold step; case_bool_decide; done).
      { intros j Hj. apply Hl. by right. }
      assert (Hs : mc <= (step (cur, mc) i).2 /\ sort_order i <= (step (cur, mc) i).2)
        by (unfold step; case_bool_decide; cbn [snd]; lia).
      split_and!; try done; cbn [snd]; try lia. intros j [-> | Hj]%elem_of_cons; [lia | by apply R4]. }
  destruct (H (seqZ 0 256) (m, sort_order m)) as (R1 & R2 & _ & R4); try done.
  { intros i Hi%elem_of_seqZ. lia. }
  split; [done |]. intros c Hc. rewrite <- R2. apply R4, elem_of_seqZ. lia.
Qed.

(** ** The bounds *)

Section Bounds.
Context (map : Z -> Z) (escape w_one w_many maxc res : Z).
Context (Hesc1 : escape <> w_one) (Hesc2 : escape <> w_many) (Hdiff : w_one <> w_many) (Hmaxc : 0 <= maxc < 256).
(** A comparison of weights, and the end of the smallest key. *)
Context (coll : list Z -> list Z -> Z) (low : nat -> list Z).
Context (coll_cons : forall x a y b,
  coll (x :: a) (y :: b) = if bool_decide (map x <> map y) then map x - map y else coll a b).
Context (coll_nil : coll [] [] = 0).
Abbreviation bytes := (Forall (fun c => 0 <= c < 256)).
Context (Hlow : forall k s, Z.of_nat k <= res -> bytes s -> (length s <= k)%nat -> coll (low k) s <= 0).
Context (Hhigh : forall k s, Z.of_nat k <= res -> bytes s -> (length s <= k)%nat -> 0 <= coll (replicate k maxc) s).
Context (Hmin : forall c, 0 <= c < 256 -> map 0 <= map c) (Hmax : forall c, 0 <= c < 256 -> map c <= map maxc).

(** The rest of the two keys bounds the rest of the string. *)
Definition between (pm px : list Z) (many : bool) (k : Z) (s : list Z) : Prop :=
  length pm = length px /\ Z.of_nat (length pm) <= k /\
  if many
  then coll (pm ++ low (Z.to_nat (k - Z.of_nat (length pm)))) s <= 0 /\
       0 <= coll (px ++ replicate (Z.to_nat (k - Z.of_nat (length pm))) maxc) s
  else coll pm s <= 0 /\ 0 <= coll px s.

Lemma between_cons a b pm px many k x s :
  map a <= map x <= map b -> between pm px many (k - 1) s -> between (a :: pm) (b :: px) many k (x :: s).
Proof.
  intros Hx (Hl & Hk & H). unfold between. cbn [length app]. split_and!; [lia | lia |].
  replace (k - Z.of_nat (S (length pm))) with (k - 1 - Z.of_nat (length pm)) by lia.
  destruct many; destruct H as [H1 H2]; rewrite !coll_cons; split; case_bool_decide; lia.
Qed.

Lemma range_loop_bounds ptr : forall mn mx cl s,
  cl = res - Z.of_nat (length mn) -> 0 <= cl -> bytes s -> Z.of_nat (length s) <= cl ->
  like map (tokens escape w_one w_many ptr) s ->
  exists pm px many, range_loop escape w_one w_many maxc res ptr mn mx cl = (mn ++ pm, mx ++ px, many) /\
    between pm px many cl s.
Proof.
  induction ptr as [ptr IH] using (induction_ltof1 _ (@length Z)); unfold ltof in IH.
  intros mn mx cl s Hcl H0 Hb Hs Hl.
  assert (Hstep : forall p a b x s', (length p < length ptr)%nat -> map a <= map x <= map b -> s = x :: s' ->
    like map (tokens escape w_one w_many p) s' ->
    exists pm px many, range_loop escape w_one w_many maxc res p (mn ++ [a]) (mx ++ [b]) (cl - 1) = (mn ++ pm, mx ++ px, many) /\
      between pm px many cl s).
  { intros p a b x s' Hp Hx -> Hl'. apply Forall_cons_1 in Hb as [_ Hb]. simpl in Hs.
    destruct (IH p Hp (mn ++ [a]) (mx ++ [b]) (cl - 1) s') as (pm & px & many & E & Hbt);
      [rewrite length_app; simpl; lia | lia | done | lia | done |].
    exists (a :: pm), (b :: px), many. rewrite E, <- !app_assoc. split; [done | by eapply between_cons]. }
  assert (Hstop : s = [] -> exists pm px many, (mn, mx, false) = (mn ++ pm, mx ++ px, many) /\ between pm px many cl s).
  { intros ->. exists [], [], false. rewrite !app_nil_r. split; [done |]. unfold between. rewrite coll_nil. simpl. lia. }
  destruct ptr as [| c p]; cbn [range_loop].
  { cbn [tokens] in Hl. apply Hstop. by inversion Hl. }
  destruct (decide (cl = 0)) as [E0 | E0].
  { rewrite bool_decide_false by lia. cbn [andb]. apply Hstop. destruct s; [done | simpl in Hs; lia]. }
  rewrite (bool_decide_true (_ <> res)), (bool_decide_true (cl > 0)) by lia. cbn [andb].
  assert (Hplain : chr c <> escape \/ p = [] ->
    exists pm px many,
      (if bool_decide (chr c = w_one)
       then range_loop escape w_one w_many maxc res p (mn ++ [0]) (mx ++ [u8 maxc]) (cl - 1)
       else if bool_decide (chr c = w_many) then (mn, mx, true)
       else range_loop escape w_one w_many maxc res p (mn ++ [c]) (mx ++ [c]) (cl - 1)) = (mn ++ pm, mx ++ px, many) /\
      between pm px many cl s).
  { intros Hc. cbn [tokens] in Hl. rewrite uwrap_small by lia.
    destruct (decide (chr c = w_one)) as [H1 | H1].
    { rewrite (bool_decide_false (chr c = w_many)), (bool_decide_true (chr c = w_one)) in Hl by congruence.
      rewrite (bool_decide_true (chr c = w_one)) by done.
      apply like_one_iff in Hl as (x & s' & -> & Hl). apply (Hstep p 0 maxc x s'); try done.
      + simpl. lia.
      + apply Forall_cons_1 in Hb as [Hx _]. split; [by apply Hmin | by apply Hmax]. }
    rewrite (bool_decide_false (chr c = w_one)) by done. destruct (decide (chr c = w_many)) as [H2 | H2].
    - rewrite (bool_decide_true (chr c = w_many)) by done. exists [], [], true. rewrite !app_nil_r. split; [done |]. unfold between. cbn [length app].
      split_and!; [done | lia | apply Hlow; [lia | done | lia] | apply Hhigh; [lia | done | lia]].
    - rewrite (bool_decide_false (chr c = w_many)) in Hl |- * by done.
      rewrite (bool_decide_false (chr c = w_one)) in Hl by done.
      assert (El : like map (Lit c :: tokens escape w_one w_many p) s).
      { destruct (decide (chr c = escape)) as [He | He]; [rewrite bool_decide_true in Hl by done | by rewrite bool_decide_false in Hl].
        by destruct Hc as [Hc | ->]. }
      apply like_lit_iff in El as (x & s' & -> & Hx & El). apply (Hstep p c c x s'); try done; [simpl; lia | lia]. }
  destruct p as [| c2 p2]; [apply Hplain; by right |].
  destruct (decide (chr c = escape)) as [He | He].
  - rewrite (bool_decide_true (chr c = escape)) by done. cbn [tokens] in Hl.
    rewrite (bool_decide_false (chr c = w_many)), (bool_decide_false (chr c = w_one)),
      (bool_decide_true (chr c = escape)) in Hl by congruence.
    apply like_lit_iff in Hl as (x & s' & -> & Hx & Hl). apply (Hstep p2 c2 c2 x s'); try done; [simpl; lia | lia].
  - rewrite (bool_decide_false (chr c = escape)) by done. apply Hplain. by left.
Qed.

Lemma range_keys (binsort : bool) ptr s :
  (forall k, low k = if binsort then [] else replicate k 0) -> 0 <= res ->
  bytes s -> Z.of_nat (length s) <= res -> like map (tokens escape w_one w_many ptr) s ->
  let r := my_like_range_simple escape w_one w_many maxc res 1 binsort ptr in
  coll (min_key r) s <= 0 <= coll (max_key r) s.
Proof.
  intros El H0 Hb Hs Hl. unfold my_like_range_simple. rewrite Z.div_1_r.
  destruct (range_loop_bounds ptr [] [] res s) as (pm & px & many & -> & Hlen & Hk & H); try done; [simpl; lia |].
  cbn [app]. cbv zeta. unfold min_key, max_key. rewrite El in H.
  destruct many; cbn [min_length max_length min_str max_str].
  - assert (E : forall (l : list Z) x, length l = length pm ->
      take (Z.to_nat res) (l ++ replicate (Z.to_nat (res - Z.of_nat (length pm))) x) =
      l ++ replicate (Z.to_nat (res - Z.of_nat (length pm))) x).
    { intros l x Hx. apply take_ge. rewrite length_app, length_replicate. lia. }
    rewrite uwrap_small by lia. rewrite (E px) by done. destruct binsort; [| by rewrite E].
    rewrite Nat2Z.id, take_app_length. by rewrite app_nil_r in H.
  - rewrite Nat2Z.id, take_app_length. rewrite Hlen. by rewrite take_app_length.
Qed.

End Bounds.
(** ** The two orders *)

Lemma strnncoll_binary_cons x a y b :
  my_strnncoll_binary (x :: a) (y :: b) false =
  if bool_decide (x <> y) then x - y else my_strnncoll_binary a b false.
Proof.
  unfold my_strnncoll_binary. cbn [length].
  replace (Z.to_nat (Z.min (Z.of_nat (S (length a))) (Z.of_nat (S (length b)))))
    with (S (Z.to_nat (Z.min (Z.of_nat (length a)) (Z.of_nat (length b))))) by lia.
  cbn [take memcmp]. replace (Z.of_nat (S (length a)) - Z.of_nat (S (length b))) with (Z.of_nat (length a) - Z.of_nat (length b)) by lia.
  destruct (decide (x = y)) as [-> | Hne].
  - rewrite (bool_decide_true (y = y)), (bool_decide_false (y <> y)) by tauto. done.
  - rewrite (bool_decide_false (x = y)), (bool_decide_true (x <> y)), (bool_decide_true (x - y <> 0)) by (done || lia). done.
Qed.

Lemma strnncoll_binary_empty s : Z.of_nat (length s) < 2 ^ 31 ->
  my_strnncoll_binary [] s false <= 0 <= my_strnncoll_binary s [] false.
Proof.
  intros Hs. unfold my_strnncoll_binary. cbn [length]. rewrite !take_nil.
  replace (memcmp (take (Z.to_nat (Z.min (Z.of_nat (length s)) (Z.of_nat 0))) s) []) with 0
    by (by destruct (take _ _)).
  cbn [memcmp]. rewrite (bool_decide_false (0 <> 0)) by tauto. unfold uwrap, swrap. Zlia.
Qed.

Lemma strnncoll_binary_high k : forall s, Z.of_nat k < 2 ^ 31 -> Forall (fun c => 0 <= c < 256) s ->
  0 <= my_strnncoll_binary (replicate k 255) s false \/ (k < length s)%nat.
Proof.
  induction k as [| k IH]; intros s Hk Hs.
  - destruct s; [left; done | right; simpl; lia].
  - destruct s as [| x s]; [left; apply strnncoll_binary_empty; rewrite length_replicate; lia |].
    apply Forall_cons_1 in Hs as [Hx Hs]. cbn [replicate]. rewrite strnncoll_binary_cons.
    case_bool_decide; [left; lia |]. destruct (IH s) as [H' | H']; [lia | done | by left | right; simpl; lia].
Qed.

Section Simple.
Context (map : Z -> Z) (maxc : Z).
Context (Hmin : forall c, 0 <= c < 256 -> map 0 <= map c) (Hmax : forall c, 0 <= c < 256 -> map c <= map maxc).
Context (H32 : map 0 <= 32 <= map maxc).

Lemma end_space_low k : end_space map 1 (replicate k 0) <= 0.
Proof. induction k as [| k IH]; [done |]. cbn [replicate end_space]. repeat case_bool_decide; lia. Qed.

Lemma end_space_high k : 0 <= end_space map 1 (replicate k maxc).
Proof. induction k as [| k IH]; [done |]. cbn [replicate end_space]. repeat case_bool_decide; lia. Qed.

Lemma collsp_bounds k : forall s, Forall (fun c => 0 <= c < 256) s -> (length s <= k)%nat ->
  my_strnncollsp_simple map (replicate k 0) s <= 0 <= my_strnncollsp_simple map (replicate k maxc) s.
Proof using Hmin Hmax H32.
  induction k as [| k IH]; intros s Hs Hl; [by destruct s; [| simpl in Hl; lia] |].
  destruct s as [| x s].
  - rewrite !collsp_nil_r. split; [apply end_space_low | apply end_space_high].
  - apply Forall_cons_1 in Hs as [Hx Hs]. cbn [replicate]. rewrite !collsp_cons. simpl in Hl.
    pose proof (Hmin x Hx). pose proof (Hmax x Hx). destruct (IH s Hs ltac:(lia)) as [H1 H2].
    split; case_bool_decide; lia.
Qed.
End Simple.

(** ** Properties *)

(** C34 Every string that matches the pattern and fits into the key lies between the
    smallest and the largest key of [my_like_range_simple]: in the binary collation,
    and in a collation of weights where 0 has the least weight and the largest
    character is the one found by [set_max_sort_char].  In the collation [8bit_bin] with
    its padding of spaces this fails: ["a\0"] matches ["a%"] but is less than the
    smallest key ["a"]. *)
Theorem like_range_bounds map m escape w_one w_many res ptr s :
  escape <> w_one -> escape <> w_many -> w_one <> w_many -> 0 <= res < 2 ^ 31 -> 0 <= m < 256 ->
  (forall c, 0 <= c < 256 -> map 0 <= map c) -> map 0 <= 32 -> (exists c, 0 <= c < 256 /\ 32 <= map c) ->
  Forall (fun c => 0 <= c < 256) s -> Z.of_nat (length s) <= res ->
  (like (fun c => c) (tokens escape w_one w_many ptr) s ->
     let r := my_like_range_simple escape w_one w_many 255 res 1 true ptr in
     my_strnncoll_binary (min_key r) s false <= 0 <= my_strnncoll_binary (max_key r) s false) /\
  (like map (tokens escape w_one w_many ptr) s ->
     let r := my_like_range_simple escape w_one w_many (set_max_sort_char map m) res 1 false ptr in
     my_strnncollsp_simple map (min_key r) s <= 0 <= my_strnncollsp_simple map (max_key r) s) /\
  (like (fun c => c) (tokens 92 95 37 [97; 37]) [97; 0] /\
   my_strnncollsp_8bit_bin (min_key (my_like_range_simple 92 95 37 255 5 1 true [97; 37])) [97; 0] = 1).
Proof.
  intros H1 H2 H3 Hres Hm Hmin H32 (c32 & Hc32 & Hc) Hs Hl.
  split; [intros Hlike | split; [intros Hlike |]].
  3: { split; [| done]. apply like_lit; [done |]. apply (like_any _ _ [0] []). constructor. }
  - apply (range_keys (fun c => c) escape w_one w_many 255 res) with (coll := fun a b => my_strnncoll_binary a b false) (low := fun _ => []); try done; try lia.
    + intros x a y b. apply strnncoll_binary_cons.
    + intros k s' Hk Hb Hk2. apply strnncoll_binary_empty. lia.
    + intros k s' Hk Hb Hk2. destruct (strnncoll_binary_high k s') as [H | H]; [lia | done | done | lia].
  - destruct (set_max_largest map m Hm) as [Hr Hmax]. specialize (Hmax c32 Hc32) as H32'.
    assert (Hb2 : map 0 <= 32 <= map (set_max_sort_char map m)) by lia.
    apply (range_keys map escape w_one w_many (set_max_sort_char map m) res) with (low := fun k => replicate k 0); try done; try lia.
    + apply collsp_cons.
    + intros k s' Hk Hb Hk2. by apply (collsp_bounds map _ Hmin Hmax Hb2).
    + intros k s' Hk Hb Hk2. by apply (collsp_bounds map _ Hmin Hmax Hb2).
Qed.

Lemma like_range_bounds_witness :
  let r := my_like_range_simple 92 95 37 255 5 1 true [97; 95; 37; 98] in
  my_strnncoll_binary (min_key r) [97; 98; 99; 98] false <= 0 <= my_strnncoll_binary (max_key r) [97; 98; 99; 98] false.
Proof.
  refine (proj1 (like_range_bounds (weight sort_order_latin1) 0 92 95 37 5 [97; 95; 37; 98] [97; 98; 99; 98] _ _ _ _ _ _ _ _ _ _) _);
    try lia.
  - intros c Hc. pose proof (weight_byte c). change (weight sort_order_latin1 0) with 0. lia.
  - vm_compute. discriminate.
  - exists 97. split; [lia |]. vm_compute. discriminate.
  - repeat constructor; lia.
  - simpl; lia.
  - apply like_lit; [done |]. apply like_one. apply (like_any _ _ [99] [98]). apply like_lit; [done |]. constructor.
Defined.

End LikeRange.
