(* ===== verification/Instr.v ===== *)
(** * Instr: search of a substring, and case

    [my_instr_simple], the case functions and [my_strcasecmp_8bit] of
    [strings/ctype-simple.c], [my_instr_bin] of [strings/ctype-bin.c].  A string with a
    length is the list of its bytes; a string that ends in 0 is the memory from its
    first byte on. *)
From stdpp Require Import base tactics option list numbers.
From Stdlib Require Import ZArith Lia.
From S2P Require Import Prelude.

Module Instr.

(** ** Model *)

Record my_match_t := mk_match {
  beg : Z;
  end_ : Z;
  mb_len : Z;
}.

Section Instr.
Context (map : Z -> Z).

(** The inner loop: the bytes at [i] have the weights of [j]. *)
Fixpoint same_weights (i j : list Z) {struct j} : option bool :=
  match j with
  | [] => Some true
  | y :: j =>
      match i with
      | [] => None
      | x :: i => if bool_decide (map x <> map y) then Some false else same_weights i j
      end
  end.

(** The outer loop; [n] is [end - str] and [pos] is [str - b]. *)
Fixpoint instr_loop (n : nat) (str : list Z) (pos : Z) (search : list Z) : option (option Z) :=
  match n with
  | O => Some None
  | S n =>
      x ← head str;
      c ← head search;
      if bool_decide (map x = map c) then
        b ← same_weights (tail str) (tail search);
        if (b : bool) then Some (Some pos) else instr_loop n (tail str) (pos + 1) search
      else instr_loop n (tail str) (pos + 1) search
  end.

(** The result and the entries of [match] that are written. *)
Definition my_instr_simple (b s : list Z) (nmatch : Z) : option (Z * list my_match_t) :=
  let b_length := Z.of_nat (length b) in
  let s_length := Z.of_nat (length s) in
  if bool_decide (s_length <= b_length) then
    if bool_decide (s_length = 0)
    then Some (1, if bool_decide (nmatch <> 0) then [mk_match 0 0 0] else [])
    else
      r ← instr_loop (Z.to_nat (b_length - s_length + 1)) b 0 s;
      match r with
      | None => Some (0, [])
      | Some i =>
          Some (2, (if bool_decide (nmatch > 0) then [mk_match 0 i i] else []) ++
                   (if bool_decide (nmatch > 1) then [mk_match i (i + s_length) s_length] else []))
      end
  else Some (0, []).

(** [my_caseup_str_8bit] and [my_casedn_str_8bit], with the table of the other case:
    the string and its length. *)
Fixpoint case_str (str : list Z) : option (list Z * Z) :=
  match str with
  | [] => None
  | c :: str =>
      if bool_decide (map c <> 0) then '(str, n) ← case_str str; Some (map c :: str, n + 1)
      else Some (map c :: str, 0)
  end.

(** [my_caseup_8bit] and [my_casedn_8bit]. *)
Definition case_8bit (src : list Z) : list Z * Z := (map <$> src, Z.of_nat (length src)).

Fixpoint my_strcasecmp_8bit (s t : list Z) : option Z :=
  x ← head s;
  y ← head t;
  if bool_decide (map x = map y) then
    match s, t with
    | x :: s, _ :: t => if bool_decide (x = 0) then Some 0 else my_strcasecmp_8bit s t
    | _, _ => None
    end
  else Some (map x - map y).

(** ** Lemmas *)

Definition occurs (b s : list Z) (i : nat) : Prop := map <$> take (length s) (drop i b) = map <$> s.

Lemma same_weights_spec i j : (length j <= length i)%nat ->
  same_weights i j = Some (bool_decide (map <$> take (length j) i = map <$> j)).
Proof.
  revert i. induction j as [| y j IH]; intros i Hl; cbn [same_weights].
  { done. }
  destruct i as [| x i]; [simpl in Hl; lia |]. cbn [length take fmap list_fmap]. simpl in Hl.
  destruct (decide (map x = map y)) as [E | E].
  - rewrite bool_decide_false by tauto. rewrite IH by lia. f_equal. apply bool_decide_ext. rewrite E.
    split; [by intros -> | by intros [= ->]].
  - rewrite bool_decide_true by done. f_equal. symmetry. apply bool_decide_eq_false_2. by intros [= ? _].
Qed.

Lemma instr_loop_spec s : s <> [] -> forall n str pos,
  (length str = length s + n - 1)%nat ->
  exists r, instr_loop n str pos s = Some r /\
    match r with
    | None => forall i, (i < n)%nat -> ~ occurs str s i
    | Some p => exists i, (i < n)%nat /\ p = pos + Z.of_nat i /\ occurs str s i /\
                  forall j, (j < i)%nat -> ~ occurs str s j
    end.
Proof.
  intros Hs. destruct s as [| c s]; [done |]. clear Hs. induction n as [| n IH]; intros str pos Hl.
  { exists None. split; [done |]. lia. }
  destruct str as [| x str]; [simpl in Hl; lia |]. simpl in Hl. cbn [instr_loop head tail mbind option_bind].
  assert (Hnext : ~ occurs (x :: str) (c :: s) 0 ->
    exists r, instr_loop n str (pos + 1) (c :: s) = Some r /\
      match r with
      | None => forall i, (i < S n)%nat -> ~ occurs (x :: str) (c :: s) i
      | Some p => exists i, (i < S n)%nat /\ p = pos + Z.of_nat i /\ occurs (x :: str) (c :: s) i /\
                    forall j, (j < i)%nat -> ~ occurs (x :: str) (c :: s) j
      end).
  { intros H0. destruct (IH str (pos + 1)) as (r & E & Hr); [simpl; lia |]. exists r. split; [done |].
    destruct r as [p |].
    - destruct Hr as (i & Hi & -> & Ho & Hj). exists (S i). split_and!; [lia | lia | done |].
      intros [| j] Hlt; [done |]. apply Hj. lia.
    - intros [| i] Hi; [done |]. apply Hr. lia. }
  assert (H0 : occurs (x :: str) (c :: s) 0 <-> map x = map c /\ map <$> take (length s) str = map <$> s).
  { unfold occurs. cbn [length drop take fmap list_fmap]. split; [by intros [= -> ->] | by intros [-> ->]]. }
  case_bool_decide as Ec; [| apply Hnext; tauto].
  rewrite same_weights_spec by lia. cbn [mbind option_bind]. case_bool_decide as Eq; [| apply Hnext; tauto].
  exists (Some pos). split; [done |]. exists 0%nat. split_and!; [lia | lia | tauto | lia].
Qed.

End Instr.

Definition my_instr_bin (b s : list Z) (nmatch : Z) : option (Z * list my_match_t) :=
  my_instr_simple (fun c => c) b s nmatch.

(** ** Properties *)

(** [my_instr_simple] (and [my_instr_bin], its instance for the binary collations) finds
    the first place where the weights of the searched string occur, and describes
    the text before the match and the match; it returns 0 exactly when there is no
    such place. *)
Theorem instr_first map b s nmatch :
  exists r m, my_instr_simple map b s nmatch = Some (r, m) /\
    ((s = [] /\ r = 1) \/
     (s <> [] /\ r = 0 /\ m = [] /\ forall i, (i + length s <= length b)%nat -> ~ occurs map b s i) \/
     (s <> [] /\ r = 2 /\ exists i, (i + length s <= length b)%nat /\ occurs map b s i /\
        (forall j, (j < i)%nat -> ~ occurs map b s j) /\
        (1 < nmatch -> m = [mk_match 0 (Z.of_nat i) (Z.of_nat i);
                            mk_match (Z.of_nat i) (Z.of_nat (i + length s)) (Z.of_nat (length s))]))).
Proof.
  unfold my_instr_simple. destruct (decide (s = [])) as [-> | Hs].
  { rewrite bool_decide_true by (simpl; lia). rewrite bool_decide_true by done. eexists _, _. split; [done |]. by left. }
  assert (length s <> 0)%nat by (by destruct s). case_bool_decide as Hle.
  - rewrite bool_decide_false by lia.
    destruct (instr_loop_spec map s Hs (Z.to_nat (Z.of_nat (length b) - Z.of_nat (length s) + 1)) b 0) as (r & -> & Hr); [lia |].
    cbn [mbind option_bind]. destruct r as [p |]; eexists _, _; (split; [done |]); right.
    + right. destruct Hr as (i & Hi & -> & Ho & Hj). split_and!; try done. exists i. split_and!; try done; [lia |].
      intros Hm. rewrite (bool_decide_true (nmatch > 0)), (bool_decide_true (nmatch > 1)) by lia. simpl.
      by rewrite Nat2Z.inj_add.
    + left. split_and!; try done. intros i Hi. apply Hr. lia.
  - eexists _, _. split; [done |]. right; left. split_and!; try done. lia.
Qed.

End Instr.
