(* ===== verification/StrNum.v ===== *)
(** * StrNum: numbers in strings of 8-bit character sets

    [my_strntol_8bit], [my_strntoul_8bit], [my_strntoll_8bit], [my_strntoull_8bit] and the
    two printing functions of [strings/ctype-simple.c].  A string is the list of its
    bytes; [isspace] is the test [my_isspace] of the character set.  The result of a
    conversion is the value, the offset stored in [*endptr] and the error. *)
From stdpp Require Import base tactics option list numbers.
From Stdlib Require Import ZArith Lia.
From S2P Require Import Prelude.
From S2P Require Import IntStr.

Module StrNum.
Import IntStr.

(** ** Model *)

Definition EDOM : Z := 33.
Definition ERANGE : Z := 34.
Definition INT_MIN32 : Z := - 2 ^ 31.
Definition INT_MAX32 : Z := 2 ^ 31 - 1.
Definition LONGLONG_MAX : Z := 2 ^ 63 - 1.

(** The digit of a character; [None] leaves the loop. *)
Definition digit_val (c : Z) : option Z :=
  if bool_decide (48 <= c <= 57) then Some (c - 48)
  else if bool_decide (65 <= c <= 90) then Some (c - 65 + 10)
  else if bool_decide (97 <= c <= 122) then Some (c - 97 + 10)
  else None.

(** The loop over the digits with a [w]-bit accumulator: [i], [overflow] and the rest. *)
Fixpoint digit_loop (w base : Z) (s : list Z) (i : Z) (overflow : bool) : Z * bool * list Z :=
  match s with
  | [] => (i, overflow, [])
  | c :: s' =>
      match digit_val c with
      | None => (i, overflow, s)
      | Some d =>
          if bool_decide (d >= base) then (i, overflow, s)
          else
            let cutoff := (2 ^ w - 1) / base in
            let cutlim := (2 ^ w - 1) mod base in
            if bool_decide (i > cutoff) || bool_decide (i = cutoff) && bool_decide (d > cutlim)
            then digit_loop w base s' i true
            else digit_loop w base s' (uwrap w (uwrap w (i * base) + d)) overflow
      end
  end.

Section Conv.
Context (isspace : Z -> bool).

Fixpoint skip_spaces (s : list Z) : list Z :=
  match s with
  | c :: s' => if isspace c then skip_spaces s' else s
  | [] => []
  end.

(** The part the four functions share: [negative], [i], [overflow] and the end;
    [None] is [goto noconv]. *)
Definition scan_number (w base : Z) (nptr : list Z) : option (bool * Z * bool * Z) :=
  let s := skip_spaces nptr in
  match s with
  | [] => None
  | c :: s' =>
      let '(negative, save) :=
        if bool_decide (c = 45) then (true, s') else if bool_decide (c = 43) then (false, s') else (false, s) in
      let '(i, overflow, rest) := digit_loop w base save 0 false in
      if bool_decide (length rest = length save) then None
      else Some (negative, i, overflow, Z.of_nat (length nptr) - Z.of_nat (length rest))
  end.

Definition noconv : Z * Z * Z := (0, 0, EDOM).

Definition my_strntol_8bit (nptr : list Z) (base : Z) : Z * Z * Z :=
  match scan_number 32 base nptr with
  | None => noconv
  | Some (negative, i, overflow, endptr) =>
      let overflow := overflow || (if negative then bool_decide (i > u32 INT_MIN32) else bool_decide (i > INT_MAX32)) in
      if overflow then (if negative then INT_MIN32 else INT_MAX32, endptr, ERANGE)
      else (if negative then s32 (- s32 i) else s32 i, endptr, 0)
  end.

Definition my_strntoul_8bit (nptr : list Z) (base : Z) : Z * Z * Z :=
  match scan_number 32 base nptr with
  | None => noconv
  | Some (negative, i, overflow, endptr) =>
      if overflow : bool then (2 ^ 32 - 1, endptr, ERANGE)
      else (u32 (if negative : bool then s32 (- s32 i) else s32 i), endptr, 0)
  end.

Definition my_strntoll_8bit (nptr : list Z) (base : Z) : Z * Z * Z :=
  match scan_number 64 base nptr with
  | None => noconv
  | Some (negative, i, overflow, endptr) =>
      let overflow := overflow || (if negative then bool_decide (i > u64 LONGLONG_MIN) else bool_decide (i > LONGLONG_MAX)) in
      if overflow then (if negative then LONGLONG_MIN else LONGLONG_MAX, endptr, ERANGE)
      else (if negative then s64 (- s64 i) else s64 i, endptr, 0)
  end.

Definition my_strntoull_8bit (nptr : list Z) (base : Z) : Z * Z * Z :=
  match scan_number 64 base nptr with
  | None => noconv
  | Some (negative, i, overflow, endptr) =>
      if overflow : bool then (2 ^ 64 - 1, endptr, ERANGE)
      else (u64 (if negative : bool then s64 (- s64 i) else s64 i), endptr, 0)
  end.

End Conv.

(** [while (uval > LONG_MAX)] of [my_longlong10_to_str_8bit]; as in [IntStr], [room] is left in
    the buffer and [acc] are the characters from [p] on. *)
Fixpoint ull_digits10 (room : nat) (uval : Z) (acc : list Z) : option (nat * Z * list Z) :=
  if bool_decide (uval > LONG_MAX)
  then
    match room with
    | O => None
    | S room =>
        let quo := uval / 10 in
        ull_digits10 room quo (48 + u32 (u64 (uval - u64 (quo * 10))) :: acc)
    end
  else Some (room, uval, acc).

(** What is written to [dst], as long as the value returned. *)
Definition my_longlong10_to_str_8bit (len radix val : Z) : option (list Z) :=
  let uval := u64 val in
  let '(sign, len, uval) :=
    if bool_decide (radix < 0) && bool_decide (val < 0) then ([45], u32 (len - 1), u64 (0 - uval)) else ([], len, uval) in
  if bool_decide (uval = 0) then Some (sign ++ [48])
  else
    '(room, uval, acc) ← ull_digits10 64 uval [0];
    '(_, out) ← long_digits10 room (s32 uval) acc;
    let len := Z.min len (Z.of_nat (length out - 1)) in
    Some (sign ++ take (Z.to_nat len) out).

Definition my_long10_to_str_8bit (len radix val : Z) : option (list Z) :=
  let uval := u32 val in
  let '(sign, len, uval) :=
    if bool_decide (radix < 0) && bool_decide (val < 0) then ([45], u32 (len - 1), u32 (0 - uval)) else ([], len, uval) in
  let new_val := s32 (uval / 10) in
  '(_, out) ← long_digits10 64 new_val [48 + s8 (u32 (uval - u32 (u32 new_val * 10))); 0];
  let len := Z.min len (Z.of_nat (length out - 1)) in
  Some (sign ++ take (Z.to_nat len) out).

(** ** Lemmas *)

(** [c] is a digit of the base. *)
Definition digit_in (base c : Z) : Prop := exists d, digit_val c = Some d /\ d < base.

(** The digits of a list of characters. *)
Definition digits_of (cs : list Z) : list Z := default 0 <$> (digit_val <$> cs).

Lemma digit_val_range c d : digit_val c = Some d -> 0 <= d < 36.
Proof. unfold digit_val. repeat case_bool_decide; intros [= <-]; lia. Qed.

Lemma value_snoc base ds d : value base (ds ++ [d]) = value base ds * base + d.
Proof. unfold value. by rewrite fold_left_app. Qed.

Lemma value_nonneg base ds : 0 <= base -> Forall (fun d => 0 <= d) ds -> 0 <= value base ds.
Proof.
  intros Hb. induction ds as [| d ds IH] using rev_ind; intros HF; [done |].
  apply Forall_app in HF as [H1 [H2 _]%Forall_cons_1]. rewrite value_snoc.
  pose proof (Z.mul_nonneg_nonneg _ _ (IH H1) Hb). lia.
Qed.

(** [i] and [overflow] after the digits [ds]. *)
Definition acc_ok (w base : Z) (ds : list Z) (i : Z) (overflow : bool) : Prop :=
  if overflow then 2 ^ w <= value base ds else i = value base ds /\ 0 <= i < 2 ^ w.

(** One digit more. *)
Lemma acc_step w base ds i ovf d :
  0 < w -> 2 <= base -> 0 <= d < base -> Forall (fun d => 0 <= d) ds -> acc_ok w base ds i ovf ->
  let cutoff := (2 ^ w - 1) / base in
  let cutlim := (2 ^ w - 1) mod base in
  if bool_decide (i > cutoff) || bool_decide (i = cutoff) && bool_decide (d > cutlim)
  then acc_ok w base (ds ++ [d]) i true
  else acc_ok w base (ds ++ [d]) (uwrap w (uwrap w (i * base) + d)) ovf.
Proof.
  intros Hw Hb Hd HF Hok cutoff cutlim. pose proof (value_nonneg base ds ltac:(lia) HF) as Hv.
  assert (Hp : 0 < 2 ^ w) by lia.
  assert (Hdiv : 2 ^ w - 1 = base * cutoff + cutlim) by (apply Z.div_mod; lia).
  assert (Hlim : 0 <= cutlim < base) by (apply Z.mod_pos_bound; lia). clearbody cutoff cutlim.
  unfold acc_ok in *. destruct ovf.
  { destruct (_ || _); rewrite value_snoc; nia. }
  destruct Hok as [-> Hi]. destruct (_ || _) eqn:E; rewrite value_snoc.
  - apply orb_true_iff in E as [E%bool_decide_eq_true | [E1%bool_decide_eq_true E2%bool_decide_eq_true]%andb_true_iff]; nia.
  - apply orb_false_iff in E as [E1%bool_decide_eq_false E2].
    assert (Hsmall : value base ds * base + d <= 2 ^ w - 1).
    { apply andb_false_iff in E2 as [E2 | E2]; apply bool_decide_eq_false in E2; nia. }
    rewrite (uwrap_small w (value base ds * base)) by nia. rewrite uwrap_small by nia. nia.
Qed.

Lemma digit_loop_spec w base cs rest :
  0 < w -> 2 <= base -> Forall (digit_in base) cs ->
  (forall c r, rest = c :: r -> ~ digit_in base c) ->
  forall ds i ovf, Forall (fun d => 0 <= d) ds -> acc_ok w base ds i ovf ->
  exists i' ovf', digit_loop w base (cs ++ rest) i ovf = (i', ovf', rest) /\
    acc_ok w base (ds ++ digits_of cs) i' ovf'.
Proof.
  intros Hw Hb Hcs Hrest. induction Hcs as [| c cs (d & Ed & Hd) Hcs IH]; intros ds i ovf Hds Hok.
  - exists i, ovf. cbn [app digits_of fmap list_fmap]. rewrite app_nil_r. split; [| done].
    destruct rest as [| c r]; [done |]. cbn [digit_loop]. destruct (digit_val c) as [d |] eqn:Ed; [| done].
    rewrite bool_decide_true; [done |]. destruct (Z_lt_ge_dec d base) as [Hd | Hd]; [| done].
    by destruct (Hrest c r eq_refl); exists d.
  - cbn [app digit_loop]. rewrite Ed. rewrite bool_decide_false by lia. cbv zeta.
    pose proof (digit_val_range c d Ed) as Hr.
    pose proof (acc_step w base ds i ovf d Hw Hb ltac:(lia) Hds Hok) as Hs. cbv zeta in Hs.
    assert (Hds' : Forall (fun d => 0 <= d) (ds ++ [d])) by (apply Forall_app; split; [done | apply Forall_singleton; lia]).
    assert (E : ds ++ digits_of (c :: cs) = (ds ++ [d]) ++ digits_of cs).
    { unfold digits_of. cbn [fmap list_fmap]. rewrite Ed. cbn [default]. by rewrite <- app_assoc. }
    rewrite E. destruct (_ || _); by apply IH.
Qed.

Lemma skip_spaces_app isspace sp s :
  Forall (fun c => isspace c = true) sp -> (forall c r, s = c :: r -> isspace c = false) ->
  skip_spaces isspace (sp ++ s) = s.
Proof.
  intros Hsp Hs. induction Hsp as [| c sp Hc _ IH]; cbn [app skip_spaces]; [| by rewrite Hc].
  destruct s as [| c r]; [done |]. cbn [skip_spaces]. by rewrite (Hs c r).
Qed.

(** Spaces, sign and digits are different characters. *)
Definition space_ok (isspace : Z -> bool) : Prop :=
  forall c, isspace c = true -> c <> 43 /\ c <> 45 /\ digit_val c = None.

(** A number in base [base]: blanks, a sign, digits, and what follows. *)
Record number (isspace : Z -> bool) (base : Z) (sp sg cs rest : list Z) : Prop := {
  nb_space : Forall (fun c => isspace c = true) sp;
  nb_sign : sg = [] \/ sg = [43] \/ sg = [45];
  nb_digits : Forall (digit_in base) cs;
  nb_rest : forall c r, rest = c :: r -> ~ digit_in base c;
  (** without digits the string behind the blanks does not start with more of them *)
  nb_end : cs = [] -> sg = [] -> forall c r, rest = c :: r -> isspace c = false /\ c <> 43 /\ c <> 45;
}.

Lemma digit_not_sign base c : digit_in base c -> c <> 43 /\ c <> 45.
Proof. intros (d & Ed & _). unfold digit_val in Ed. repeat case_bool_decide; try done; lia. Qed.

Lemma scan_number_spec isspace w base sp sg cs rest :
  space_ok isspace -> 0 < w -> 2 <= base -> number isspace base sp sg cs rest ->
  exists i ovf, acc_ok w base (digits_of cs) i ovf /\
    scan_number isspace w base (sp ++ sg ++ cs ++ rest) =
    if bool_decide (cs = []) then None
    else Some (bool_decide (sg = [45]), i, ovf, Z.of_nat (length sp + length sg + length cs)).
Proof.
  intros Hspace Hw Hb [Hsp Hsg Hcs Hrest Hend].
  destruct (digit_loop_spec w base cs rest Hw Hb Hcs Hrest [] 0 false) as (i & ovf & E & Hok);
    [constructor | split; [done | lia] |]. cbn [app] in Hok. exists i, ovf. split; [done |].
  assert (Hdig : forall c, digit_in base c -> isspace c = false).
  { intros c (d & Ed & _). destruct (isspace c) eqn:Ec; [| done]. destruct (Hspace c Ec) as (_ & _ & Hn). congruence. }
  unfold scan_number. rewrite skip_spaces_app; [| done |].
  2: { intros c r E0. destruct Hsg as [-> | [-> | ->]]; cbn [app] in E0.
       - destruct cs as [| c0 cs]; [by apply (Hend eq_refl eq_refl c r) |].
         injection E0 as -> _. apply Hdig. by apply Forall_cons_1 in Hcs as [H _].
       - injection E0 as <- _. destruct (isspace 43) eqn:Ec; [by destruct (Hspace 43 Ec) | done].
       - injection E0 as <- _. destruct (isspace 45) eqn:Ec; [by destruct (Hspace 45 Ec) as (_ & H & _) | done]. }
  assert (Hlen : bool_decide (length rest = length (cs ++ rest)) = bool_decide (cs = [])).
  { apply bool_decide_ext. rewrite length_app. destruct cs; simpl; [done |]. split; [lia | done]. }
  assert (Hgo : forall neg : bool, neg = bool_decide (sg = [45]) ->
    (let '(i, overflow, rest0) := digit_loop w base (cs ++ rest) 0 false in
     if bool_decide (length rest0 = length (cs ++ rest)) then None
     else Some (neg, i, overflow, Z.of_nat (length (sp ++ sg ++ cs ++ rest)) - Z.of_nat (length rest0))) =
    if bool_decide (cs = []) then None
    else Some (bool_decide (sg = [45]), i, ovf, Z.of_nat (length sp + length sg + length cs))).
  { intros neg ->. rewrite E, Hlen. destruct (bool_decide (cs = [])); [done |]. rewrite !length_app. do 3 f_equal. lia. }
  destruct Hsg as [-> | [-> | ->]]; cbn [app] in *; [| by apply (Hgo false) | by apply (Hgo true)].
  destruct (cs ++ rest) as [| c l] eqn:El.
  { apply app_nil in El as [-> ->]. done. }
  assert (Hc : c <> 43 /\ c <> 45).
  { destruct cs as [| c0 cs]; cbn [app] in El; [by apply (Hend eq_refl eq_refl c l) |].
    injection El as -> _. apply (digit_not_sign base). by apply Forall_cons_1 in Hcs as [H _]. }
  rewrite (bool_decide_false (c = 45)), (bool_decide_false (c = 43)) by tauto. by apply (Hgo false).
Qed.

(** ** Lemmas: printing *)

Lemma ull_digits10_is room v acc :
  0 <= v < 2 ^ 64 -> ull_digits10 room v acc = ll_digits room _dig_vec_upper 10 v acc.
Proof.
  revert v acc; induction room as [| room IH]; intros v acc Hv; cbn [ull_digits10 ll_digits]; [done |].
  case_bool_decide; [| done]. assert (Hm : v - v / 10 * 10 = v mod 10) by Zlia.
  assert (0 <= v mod 10 < 10) by Zlia. assert (0 <= v / 10 <= v) by Zlia.
  rewrite (uwrap_small 64 (v / 10 * 10)) by lia. rewrite Hm.
  rewrite (uwrap_small 64 (v mod 10)) by lia. rewrite (uwrap_small 32) by lia.
  rewrite (dig_vec_spec true) by lia. cbn [mbind option_bind]. rewrite IH by lia.
  unfold digit_char. by rewrite decide_True by lia.
Qed.

Lemma digits_length v : 0 <= v < 2 ^ 64 -> (length (digits 10 v) <= 20)%nat.
Proof.
  intros Hv. pose proof (digits_value 10 v ltac:(lia) Hv) as E. unfold digits in *. case_decide as Hz; [simpl; lia |].
  destruct (push_digits_head 64 10 v []) as (d & tl & Ed & Hd); [lia | change (Z.of_nat 64) with 64; lia |].
  pose proof (digits_range 10 v ltac:(lia) ltac:(lia)) as HF. unfold digits in HF. rewrite decide_False in HF by done.
  rewrite Ed in E, HF |- *. apply Forall_cons_1 in HF as [_ HF]. rewrite value_cons in E.
  pose proof (value_nonneg 10 tl ltac:(lia)) as Hn. cbn [length].
  assert (0 <= value 10 tl) by (apply Hn; eapply Forall_impl; [| exact HF]; intros x Hx; cbv beta in Hx; lia).
  destruct (decide (length tl <= 19)%nat) as [Hl | Hl]; [lia |].
  assert (10 ^ 20 <= 10 ^ Z.of_nat (length tl)) by (apply Z.pow_le_mono_r; lia).
  change (10 ^ 20) with 100000000000000000000 in *. nia.
Qed.

(** The characters of the digits of [v]. *)
Definition decimal (v : Z) : list Z := digit_char true <$> digits 10 v.

Lemma longlong_prints len radix val :
  - 2 ^ 63 <= val < 2 ^ 63 -> 21 <= len < 2 ^ 32 ->
  my_longlong10_to_str_8bit len radix val = Some (sign_of val radix ++ decimal (magnitude 64 val radix)).
Proof.
  intros Hv Hl. unfold my_longlong10_to_str_8bit.
  assert (Hs : exists l, 20 <= l /\ (if bool_decide (radix < 0) && bool_decide (val < 0)
      then ([45], u32 (len - 1), u64 (0 - u64 val)) else ([], len, u64 val)) =
    (sign_of val radix, l, magnitude 64 val radix)).
  { unfold sign_of, magnitude. destruct (decide (radix < 0)), (decide (val < 0)); bdec; cbn [andb].
    - exists (len - 1). rewrite decide_True by done. rewrite neg_wrap by (simpl; lia). rewrite uwrap_small by lia.
      split; [lia |]. do 2 f_equal. lia.
    - exists len. rewrite decide_False by tauto. rewrite uwrap_small by lia. split; [lia |]. f_equal. lia.
    - exists len. rewrite decide_False by tauto. split; [lia | done].
    - exists len. rewrite decide_False by tauto. split; [lia | done]. }
  destruct Hs as (l & Hl20 & ->). cbv iota beta.
  assert (Hm : 0 <= magnitude 64 val radix < 2 ^ 64).
  { unfold magnitude. case_decide; [lia | by apply (uwrap_range 64)]. }
  set (v := magnitude 64 val radix) in *. clearbody v.
  pose proof (ll_print_spec true 10 v ltac:(lia) Hm) as Hp. unfold ll_print in Hp.
  destruct (decide (v = 0)) as [-> | Hz]; [done |].
  rewrite (bool_decide_false (v = 0)) in Hp |- * by done.
  rewrite ull_digits10_is by done.
  destruct (ll_digits_spec 64 true 10 v [0]) as (room & w & ds & E & Hw & _); [lia | done | simpl; lia |].
  rewrite E in Hp |- *. cbn [mbind option_bind] in Hp |- *. unfold LONG_MAX in Hw.
  rewrite swrap_small in Hp |- * by (simpl; lia). rewrite long_digits10_is by lia.
  destruct (long_digits room _dig_vec_upper 10 w _) as [[r out] |]; [| done].
  cbn [mbind option_bind] in Hp |- *. injection Hp as ->. unfold print. fold (decimal v).
  assert (length (decimal v) <= 20)%nat by (unfold decimal; rewrite length_fmap; by apply digits_length).
  rewrite length_app. cbn [length]. do 2 f_equal.
  replace (Z.to_nat (Z.min l (Z.of_nat (length (decimal v) + 1 - 1)))) with (length (decimal v)) by lia.
  by rewrite take_app_length.
Qed.

Lemma decimal_number isspace v val radix :
  space_ok isspace -> 0 <= v < 2 ^ 64 -> number isspace 10 [] (sign_of val radix) (decimal v) [].
Proof.
  intros Hs Hv. pose proof (digits_range 10 v ltac:(lia) ltac:(lia)) as HF. split; [constructor | | | done |].
  - unfold sign_of. case_decide; [by right; right | by left].
  - unfold decimal. apply Forall_fmap. eapply Forall_impl; [| exact HF]. intros d Hd. cbv beta in Hd.
    exists d. unfold compose, digit_char, digit_val. rewrite decide_True by lia. rewrite bool_decide_true by lia. split; [f_equal; lia | lia].
  - done.
Qed.

Lemma decimal_value v : 0 <= v < 2 ^ 64 -> decimal v <> [] /\ value 10 (digits_of (decimal v)) = v.
Proof.
  intros Hv. pose proof (digits_range 10 v ltac:(lia) ltac:(lia)) as HF. split.
  - unfold decimal, digits. case_decide; [done |].
    destruct (push_digits_head 64 10 v []) as (d & tl & -> & _); [lia | change (Z.of_nat 64) with 64; lia | done].
  - rewrite <- (digits_value 10 v) at 2 by lia. f_equal. unfold digits_of, decimal.
    rewrite <- !list_fmap_compose. rewrite <- (list_fmap_id (digits 10 v)) at 2. apply list_fmap_ext.
    intros i d Hd. pose proof (proj1 (Forall_lookup _ _) HF _ _ Hd) as Hr. cbv beta in Hr.
    unfold compose, digit_char, digit_val. rewrite decide_True by lia. rewrite bool_decide_true by lia. cbn [default]. unfold id. lia.
Qed.

(** ** Properties *)

(** The value with its sign. *)
Definition signed (sg : list Z) (v : Z) : Z := if decide (sg = [45]) then - v else v.

(** The result of a signed conversion, and of an unsigned one. *)
Definition clamp (w v e : Z) : Z * Z * Z :=
  (Z.max (- 2 ^ (w - 1)) (Z.min (2 ^ (w - 1) - 1) v), e, if decide (- 2 ^ (w - 1) <= v < 2 ^ (w - 1)) then 0 else ERANGE).
Definition wrapped (w : Z) (sg : list Z) (v e : Z) : Z * Z * Z :=
  if decide (v < 2 ^ w) then (uwrap w (signed sg v), e, 0) else (2 ^ w - 1, e, ERANGE).

Lemma signed_result w base ds i ovf sg e :
  1 < w -> 2 <= base -> Forall (fun d => 0 <= d) ds -> acc_ok w base ds i ovf ->
  let negative := bool_decide (sg = [45]) in
  (if ovf || (if negative then bool_decide (i > uwrap w (- 2 ^ (w - 1))) else bool_decide (i > 2 ^ (w - 1) - 1))
   then (if negative then - 2 ^ (w - 1) else 2 ^ (w - 1) - 1, e, ERANGE)
   else (if negative then swrap w (- swrap w i) else swrap w i, e, 0)) = clamp w (signed sg (value base ds)) e.
Proof.
  intros Hw Hb HF Hok. cbv zeta. pose proof (value_nonneg base ds ltac:(lia) HF) as Hv.
  assert (Hp : 2 ^ w = 2 * 2 ^ (w - 1)) by (rewrite <- Z.pow_succ_r by lia; f_equal; lia).
  assert (Hq : 0 < 2 ^ (w - 1)) by lia.
  assert (Hmin : uwrap w (- 2 ^ (w - 1)) = 2 ^ (w - 1)) by (unfold uwrap; symmetry; apply Z.mod_unique with (-1); lia).
  rewrite Hmin. unfold clamp, signed, acc_ok in *. set (h := 2 ^ (w - 1)) in *.
  assert (Hneg : swrap w (- swrap w h) = - h).
  { unfold swrap. fold h. rewrite Hp. replace (h + h) with (2 * h) by lia. rewrite Z_mod_same_full.
    replace (- (0 - h) + h) with (2 * h) by lia. rewrite Z_mod_same_full. lia. }
  assert (Hid : forall x, - h <= x < h -> swrap w x = x) by (intros x Hx; apply swrap_small; [lia | fold h; lia]).
  clearbody h.
  destruct (decide (sg = [45])) as [E | E]; [rewrite (bool_decide_true (sg = [45])) by done | rewrite (bool_decide_false (sg = [45])) by done].
  - destruct ovf; cbn [orb]; [rewrite decide_False by lia; do 2 f_equal; lia |]. destruct Hok as [-> Hi].
    case_bool_decide; [rewrite decide_False by lia; do 2 f_equal; lia |]. rewrite decide_True by lia.
    destruct (decide (value base ds = h)) as [-> | Hn]; [rewrite Hneg; do 2 f_equal; lia |].
    rewrite (Hid (value base ds)), Hid by lia. do 2 f_equal. lia.
  - destruct ovf; cbn [orb]; [rewrite decide_False by lia; do 2 f_equal; lia |]. destruct Hok as [-> Hi].
    case_bool_decide; [rewrite decide_False by lia; do 2 f_equal; lia |]. rewrite decide_True by lia.
    rewrite Hid by lia. do 2 f_equal. lia.
Qed.

Lemma uwrap_swrap w x : 0 < w -> uwrap w (swrap w x) = uwrap w x.
Proof.
  intros Hw. unfold uwrap, swrap. rewrite <- (Z.sub_0_r x) at 2. rewrite Zminus_mod_idemp_l. f_equal. lia.
Qed.

Lemma uwrap_opp_swrap w x : uwrap w (- swrap w x) = uwrap w (- x).
Proof.
  unfold uwrap, swrap.
  replace (- ((x + 2 ^ (w - 1)) mod 2 ^ w - 2 ^ (w - 1))) with (2 ^ (w - 1) - (x + 2 ^ (w - 1)) mod 2 ^ w) by lia.
  rewrite Zminus_mod_idemp_r. f_equal. lia.
Qed.

Lemma wrapped_result w base ds i ovf sg e :
  1 < w -> 2 <= base -> Forall (fun d => 0 <= d) ds -> acc_ok w base ds i ovf ->
  (if ovf : bool then (2 ^ w - 1, e, ERANGE)
   else (uwrap w (if bool_decide (sg = [45]) then swrap w (- swrap w i) else swrap w i), e, 0)) =
  wrapped w sg (value base ds) e.
Proof.
  intros Hw Hb HF Hok. unfold wrapped, acc_ok in *. destruct ovf; [by rewrite decide_False by lia |].
  destruct Hok as [-> Hi]. rewrite decide_True by lia. do 2 f_equal. unfold signed.
  destruct (decide (sg = [45])) as [E | E]; [rewrite bool_decide_true by done | rewrite bool_decide_false by done];
    rewrite !uwrap_swrap by lia; [| done].
  apply uwrap_opp_swrap.
Qed.

Lemma digits_of_nonneg cs base : Forall (digit_in base) cs -> Forall (fun d => 0 <= d) (digits_of cs).
Proof.
  intros H. unfold digits_of. rewrite <- list_fmap_compose. apply Forall_fmap. eapply Forall_impl; [| exact H].
  intros c (d & Ed & _). unfold compose. rewrite Ed. pose proof (digit_val_range c d Ed). simpl. lia.
Qed.

Lemma conversions isspace base sp sg cs rest :
  space_ok isspace -> 2 <= base <= 36 -> number isspace base sp sg cs rest ->
  let s := sp ++ sg ++ cs ++ rest in
  let v := value base (digits_of cs) in
  let e := Z.of_nat (length sp + length sg + length cs) in
  if decide (cs = [])
  then my_strntol_8bit isspace s base = noconv /\ my_strntoul_8bit isspace s base = noconv /\
       my_strntoll_8bit isspace s base = noconv /\ my_strntoull_8bit isspace s base = noconv
  else my_strntol_8bit isspace s base = clamp 32 (signed sg v) e /\
       my_strntoul_8bit isspace s base = wrapped 32 sg v e /\
       my_strntoll_8bit isspace s base = clamp 64 (signed sg v) e /\
       my_strntoull_8bit isspace s base = wrapped 64 sg v e.
Proof.
  intros Hs Hb Hn. cbv zeta. pose proof (digits_of_nonneg _ _ (nb_digits _ _ _ _ _ _ Hn)) as HF.
  destruct (scan_number_spec isspace 32 base sp sg cs rest Hs ltac:(lia) ltac:(lia) Hn) as (i32 & o32 & H32 & E32).
  destruct (scan_number_spec isspace 64 base sp sg cs rest Hs ltac:(lia) ltac:(lia) Hn) as (i64 & o64 & H64 & E64).
  unfold my_strntol_8bit, my_strntoul_8bit, my_strntoll_8bit, my_strntoull_8bit. rewrite E32, E64.
  destruct (decide (cs = [])) as [E | E]; [by rewrite bool_decide_true |]. rewrite bool_decide_false by done.
  split_and!.
  - apply (signed_result 32); (done || lia).
  - apply (wrapped_result 32); (done || lia).
  - apply (signed_result 64); (done || lia).
  - apply (wrapped_result 64); (done || lia).
Qed.

(** C28 The four conversions of a number in a base from 2 to 36, with blanks, a sign and
    anything behind it: the signed ones return the value or, with [ERANGE], the nearest
    number of the type; the unsigned ones return the value modulo the type, a minus
    sign included, or the largest number with [ERANGE].  [*endptr] is behind the last
    digit.  Without a digit they return 0 and [EDOM]. *)
Theorem string_to_integer isspace base sp sg cs rest :
  space_ok isspace -> 2 <= base <= 36 -> number isspace base sp sg cs rest ->
  let s := sp ++ sg ++ cs ++ rest in
  let v := value base (digits_of cs) in
  let e := Z.of_nat (length sp + length sg + length cs) in
  if decide (cs = [])
  then my_strntol_8bit isspace s base = noconv /\ my_strntoul_8bit isspace s base = noconv /\
       my_strntoll_8bit isspace s base = noconv /\ my_strntoull_8bit isspace s base = noconv
  else my_strntol_8bit isspace s base = clamp 32 (signed sg v) e /\
       my_strntoul_8bit isspace s base = wrapped 32 sg v e /\
       my_strntoll_8bit isspace s base = clamp 64 (signed sg v) e /\
       my_strntoull_8bit isspace s base = wrapped 64 sg v e.
Proof. apply conversions. Qed.

Definition ex_space (c : Z) : bool := bool_decide (c = 32).

Lemma ex_space_ok : space_ok ex_space.
Proof. intros c H%bool_decide_eq_true. subst c. done. Qed.

Lemma string_to_integer_witness :
  my_strntol_8bit ex_space [32; 45; 102; 70; 122] 16 = (-255, 4, 0).
Proof.
  pose proof (string_to_integer ex_space 16 [32] [45] [102; 70] [122] ex_space_ok) as H.
  destruct H as (H & _).
  - lia.
  - split.
    + repeat constructor.
    + right. right. reflexivity.
    + constructor; [exists 15; split; [reflexivity | lia] |]. constructor; [exists 15; split; [reflexivity | lia] | constructor].
    + intros c r [= <- <-] (d & [= <-] & Hd). lia.
    + discriminate.
  - exact H.
Defined.

(** Reading a printed number. *)
Lemma printed_back isspace val radix :
  space_ok isspace -> - 2 ^ 63 <= val < 2 ^ 63 ->
  let v := magnitude 64 val radix in
  let s := sign_of val radix ++ decimal v in
  0 <= v < 2 ^ 64 /\
  my_strntoll_8bit isspace s 10 = clamp 64 (signed (sign_of val radix) v) (Z.of_nat (length s)) /\
  my_strntoull_8bit isspace s 10 = wrapped 64 (sign_of val radix) v (Z.of_nat (length s)).
Proof.
  intros Hs Hv. cbv zeta.
  assert (Hm : 0 <= magnitude 64 val radix < 2 ^ 64) by (unfold magnitude; case_decide; [lia | by apply (uwrap_range 64)]).
  split; [done |]. destruct (decimal_value _ Hm) as [Hne Hval].
  pose proof (conversions isspace 10 _ _ _ _ Hs ltac:(lia) (decimal_number isspace _ val radix Hs Hm)) as Hc.
  cbv zeta in Hc. rewrite decide_False in Hc by done. rewrite Hval in Hc. cbn [app length] in Hc. rewrite app_nil_r in Hc.
  rewrite length_app. tauto.
Qed.

(** A number printed by [my_longlong10_to_str_8bit] into a buffer of at least 21 bytes is read
    back by [my_strntoll_8bit], or by [my_strntoull_8bit] when it was printed as unsigned. *)
Theorem longlong_string_roundtrip isspace len val :
  space_ok isspace -> - 2 ^ 63 <= val < 2 ^ 63 -> 21 <= len < 2 ^ 32 ->
  exists s u, my_longlong10_to_str_8bit len (-10) val = Some s /\
    my_strntoll_8bit isspace s 10 = (val, Z.of_nat (length s), 0) /\
    my_longlong10_to_str_8bit len 10 val = Some u /\
    my_strntoull_8bit isspace u 10 = (u64 val, Z.of_nat (length u), 0).
Proof.
  intros Hs Hv Hl. eexists _, _. split; [by apply longlong_prints |]. split; [| split; [by apply longlong_prints |]].
  - destruct (printed_back isspace val (-10) Hs Hv) as [_ Hll].
    destruct Hll as [-> _]. unfold clamp, signed, sign_of, magnitude. rewrite !(decide_True (P := -10 < 0)) by lia.
    destruct (decide (-10 < 0 /\ val < 0)); [rewrite decide_True by done | rewrite decide_False by done];
      rewrite decide_True by lia; do 2 f_equal; lia.
  - destruct (printed_back isspace val 10 Hs Hv) as [_ [_ ->]]. unfold wrapped, signed, sign_of, magnitude.
    rewrite !(decide_False (P := 10 < 0)) by lia. rewrite (decide_False (P := 10 < 0 /\ val < 0)) by lia.
    rewrite decide_True by (by apply (uwrap_range 64)). rewrite (decide_False (P := [] = [45])) by done. by rewrite uwrap_idemp.
Qed.

Lemma longlong_string_roundtrip_witness :
  exists s u, my_longlong10_to_str_8bit 30 (-10) (- 2 ^ 63) = Some s /\
    my_strntoll_8bit ex_space s 10 = (- 2 ^ 63, Z.of_nat (length s), 0) /\
    my_longlong10_to_str_8bit 30 10 (- 2 ^ 63) = Some u /\
    my_strntoull_8bit ex_space u 10 = (u64 (- 2 ^ 63), Z.of_nat (length u), 0).
Proof. apply (longlong_string_roundtrip ex_space 30 (- 2 ^ 63)); [exact ex_space_ok | lia | lia]. Defined.

End StrNum.
