(* ===== verification/Tree.v ===== *)
(** * Tree: red-black trees

    [mysys/tree.c] and [include/my_tree.h].  The elements live in a heap, a finite map
    from addresses; [null_element] is the element at [NIL].  The array [tree->parents] of
    addresses of links is a stack of [link]s, the top first, so that [parent[-i]] is its
    [i]-th entry; it has room for [MAX_TREE_HEIGHT] of them.  The branches of
    [rb_insert] and [rb_delete_fixup] that differ only by exchanging left and right are
    one definition with a direction.  The key of an element, which [ELEMENT_KEY] finds in
    the element or through a pointer, is a field; memory allocation and the
    comparison function are parameters. *)
From stdpp Require Import base tactics option list numbers gmap.
From Stdlib Require Import ZArith Lia.
From S2P Require Import Prelude.

Module Tree.

(** ** Data *)

Definition BLACK : Z := 1.
Definition RED : Z := 0.
Definition DEFAULT_ALLOC_SIZE : Z := 8192.
Definition DEFAULT_ALIGN_SIZE : Z := 8192.
Definition MAX_TREE_HEIGHT : nat := 64.
Definition TREE_NO_DUPS : Z := 1.

Record TREE_ELEMENT := mk_el {
  left : Z;
  right : Z;
  count : Z;
  colour : Z;
  key : Z;
}.

(** [&tree->null_element] *)
Definition NIL : Z := 1.
Definition null_element : TREE_ELEMENT := mk_el 0 0 0 BLACK 0.

Inductive dir := L | R.
Definition opp (d : dir) : dir := match d with L => R | R => L end.
Definition child (d : dir) (e : TREE_ELEMENT) : Z := match d with L => left e | R => right e end.
Definition set_child (d : dir) (e : TREE_ELEMENT) (x : Z) : TREE_ELEMENT :=
  match d with
  | L => mk_el x (right e) (count e) (colour e) (key e)
  | R => mk_el (left e) x (count e) (colour e) (key e)
  end.
Definition with_colour (e : TREE_ELEMENT) (c : Z) : TREE_ELEMENT := mk_el (left e) (right e) (count e) c (key e).
Definition with_count (e : TREE_ELEMENT) (n : Z) : TREE_ELEMENT := mk_el (left e) (right e) n (colour e) (key e).

(** The root and the elements. *)
Record mem := mk_mem {
  root : Z;
  heap : gmap Z TREE_ELEMENT;
}.

(** An address of a pointer to an element: [&tree->root], [&element->left], [&element->right]. *)
Inductive link := Lroot | Lchild (d : dir) (a : Z).

Definition get_link (m : mem) (p : link) : option Z :=
  match p with
  | Lroot => Some (root m)
  | Lchild d a => e ← heap m !! a; Some (child d e)
  end.

Definition store_el (m : mem) (a : Z) (e : TREE_ELEMENT) : mem := mk_mem (root m) (<[a := e]> (heap m)).

Definition set_link (m : mem) (p : link) (x : Z) : option mem :=
  match p with
  | Lroot => Some (mk_mem x (heap m))
  | Lchild d a => e ← heap m !! a; Some (store_el m a (set_child d e x))
  end.

Definition set_colour (m : mem) (a c : Z) : option mem :=
  e ← heap m !! a; Some (store_el m a (with_colour e c)).

(** [*++parent= p], inside the array. *)
Definition push (parent : list link) (p : link) : option (list link) :=
  if bool_decide (length parent < MAX_TREE_HEIGHT)%nat then Some (p :: parent) else None.

(** ** Rebalancing *)

(** [left_rotate] is [rotate L], [right_rotate] is [rotate R]. *)
Definition rotate (d : dir) (m : mem) (parent : link) (leaf : Z) : option mem :=
  e ← heap m !! leaf;
  let y := child (opp d) e in
  ye ← heap m !! y;
  let m := store_el m leaf (set_child (opp d) e (child d ye)) in
  m ← set_link m parent y;
  ye ← heap m !! y;
  Some (store_el m y (set_child d ye leaf)).

Definition left_rotate : mem -> link -> Z -> option mem := rotate L.
Definition right_rotate : mem -> link -> Z -> option mem := rotate R.

(** The loop of [rb_insert]. *)
Fixpoint insert_loop (fuel : nat) (m : mem) (parent : list link) (leaf : Z) : option mem :=
  match fuel with
  | O => None
  | S fuel =>
      if bool_decide (leaf <> root m) then
        p1 ← parent !! 1%nat;
        par ← get_link m p1;
        pe ← heap m !! par;
        if bool_decide (colour pe = RED) then
          p2 ← parent !! 2%nat;
          par2 ← get_link m p2;
          p2e ← heap m !! par2;
          let d := if bool_decide (par = left p2e) then L else R in
          let y := child (opp d) p2e in
          ye ← heap m !! y;
          if bool_decide (colour ye = RED) then
            m ← set_colour m par BLACK;
            m ← set_colour m y BLACK;
            m ← set_colour m par2 RED;
            insert_loop fuel m (drop 2 parent) par2
          else
            '(m, par) ← (if bool_decide (leaf = child (opp d) pe)
                         then m ← rotate d m p1 par; Some (m, leaf)
                         else Some (m, par));
            m ← set_colour m par BLACK;
            m ← set_colour m par2 RED;
            rotate (opp d) m p2 par2
        else Some m
      else Some m
  end.

Definition rb_insert (m : mem) (parent : list link) (leaf : Z) : option mem :=
  m ← set_colour m leaf RED;
  m ← insert_loop (S (length parent)) m parent leaf;
  set_colour m (root m) BLACK.

(** The first [if] of the loop of [rb_delete_fixup]: a red sibling [w] of [x] is made black
    by a rotation; the memory, the stack and the new sibling. *)
Definition delete_red_sibling (d : dir) (m : mem) (parent : list link) (p1 : link) (par w : Z)
  : option (mem * list link * Z) :=
  we ← heap m !! w;
  if bool_decide (colour we = RED) then
    m ← set_colour m w BLACK;
    m ← set_colour m par RED;
    m ← rotate d m p1 par;
    parent ← push (<[0%nat := Lchild d w]> parent) (Lchild d par);
    pe ← heap m !! par;
    Some (m, parent, child (opp d) pe)
  else Some (m, parent, w).

(** The [else] of its second [if]: one of the children of [w] is red. *)
Definition delete_rotate (d : dir) (m : mem) (p1 : link) (par w : Z) : option mem :=
  we ← heap m !! w;
  far ← heap m !! child (opp d) we;
  '(m, w) ←
    (if bool_decide (colour far = BLACK) then
       m ← set_colour m (child d we) BLACK;
       m ← set_colour m w RED;
       m ← rotate (opp d) m (Lchild (opp d) par) w;
       pe ← heap m !! par;
       Some (m, child (opp d) pe)
     else Some (m, w));
  pe ← heap m !! par;
  m ← set_colour m w (colour pe);
  m ← set_colour m par BLACK;
  we ← heap m !! w;
  m ← set_colour m (child (opp d) we) BLACK;
  rotate d m p1 par.

(** The loop of [rb_delete_fixup]: the memory and [x] at its end. *)
Fixpoint delete_loop (fuel : nat) (m : mem) (parent : list link) (x : Z) : option (mem * Z) :=
  match fuel with
  | O => None
  | S fuel =>
      xe ← heap m !! x;
      if bool_decide (x <> root m) && bool_decide (colour xe = BLACK) then
        p1 ← parent !! 1%nat;
        par ← get_link m p1;
        pe ← heap m !! par;
        let d := if bool_decide (x = left pe) then L else R in
        '(m, parent, w) ← delete_red_sibling d m parent p1 par (child (opp d) pe);
        we ← heap m !! w;
        near ← heap m !! child d we;
        far ← heap m !! child (opp d) we;
        if bool_decide (colour near = BLACK) && bool_decide (colour far = BLACK) then
          m ← set_colour m w RED;
          delete_loop fuel m (tail parent) par
        else
          p1 ← parent !! 1%nat;
          m ← delete_rotate d m p1 par w;
          Some (m, root m)
      else Some (m, x)
  end.

Definition rb_delete_fixup (m : mem) (parent : list link) : option mem :=
  p ← parent !! 0%nat;
  x ← get_link m p;
  '(m, x) ← delete_loop (S (length parent)) m parent x;
  set_colour m x BLACK.

(** ** Operations *)

Record TREE := mk_tree {
  tmem : mem;
  offset_to_key : Z;
  elements_in_tree : Z;
  size_of_element : Z;
  memory_limit : Z;
  allocated : Z;
  with_delete : bool;
  (** [tree->free != 0] *)
  free : bool;
  flag : Z;
}.

Definition set_mem (t : TREE) (m : mem) : TREE :=
  mk_tree m (offset_to_key t) (elements_in_tree t) (size_of_element t) (memory_limit t) (allocated t)
    (with_delete t) (free t) (flag t).
Definition set_counts (t : TREE) (n alloc : Z) : TREE :=
  mk_tree (tmem t) (offset_to_key t) n (size_of_element t) (memory_limit t) alloc
    (with_delete t) (free t) (flag t).

Definition sizeof_TREE_ELEMENT : Z := 12.
Definition sizeof_ptr : Z := 4.

(** The tree, and the block size and [min_malloc] of its memory root when it has one. *)
Definition init_tree (default_alloc_size memory_limit size : Z) (with_delete free_element : bool)
  : TREE * option (Z * Z) :=
  let alloc := Z.max default_alloc_size DEFAULT_ALLOC_SIZE in
  let alloc := u32 (alloc + DEFAULT_ALIGN_SIZE - 1) / DEFAULT_ALIGN_SIZE * DEFAULT_ALIGN_SIZE in
  let size_of_element := if bool_decide (size > 0) then size else 0 in
  let '(offset, size_of_element, alloc) :=
    if negb free_element && bool_decide (size >= 0) &&
       (bool_decide (size <= sizeof_ptr) || bool_decide (size &&& (sizeof_ptr - 1) <> 0))
    then
      let alloc := alloc / (sizeof_TREE_ELEMENT + size) in
      let alloc := if bool_decide (alloc = 0) then 1 else alloc in
      (sizeof_TREE_ELEMENT, size_of_element, alloc * (sizeof_TREE_ELEMENT + size))
    else (0, size_of_element + sizeof_ptr, alloc) in
  (mk_tree (mk_mem NIL {[NIL := null_element]}) offset 0 size_of_element memory_limit 0 with_delete free_element 0,
   if with_delete then None else Some (alloc, sizeof_TREE_ELEMENT + size_of_element)).

(** The calls of [tree->free]. *)
Inductive free_call := free_init | free_free (k : Z) | free_end.

(** Returns the heap without the elements and the calls; with a memory root the
    elements are freed by [free_root]. *)
Fixpoint delete_tree_element (fuel : nat) (has_free : bool) (h : gmap Z TREE_ELEMENT) (element : Z)
  : option (gmap Z TREE_ELEMENT * list free_call) :=
  match fuel with
  | O => None
  | S fuel =>
      if bool_decide (element <> NIL) then
        e ← h !! element;
        '(h, c1) ← delete_tree_element fuel has_free h (left e);
        e ← h !! element;
        '(h, c2) ← delete_tree_element fuel has_free h (right e);
        Some (delete element h, c1 ++ (if has_free then [free_free (key e)] else []) ++ c2)
      else Some (h, [])
  end.

Definition free_tree (t : TREE) : option (TREE * list free_call) :=
  let m := tmem t in
  '(h, calls) ←
    (if bool_decide (root m <> 0)
     then delete_tree_element (S (size (heap m))) (free t) (heap m) (root m)
     else Some (heap m, []));
  let calls :=
    if with_delete t then calls
    else if free t && bool_decide (root m <> 0) then
      if bool_decide (memory_limit t <> 0) then [free_init] ++ calls ++ [free_end] else calls
    else [] in
  Some (set_counts (set_mem t (mk_mem NIL h)) 0 0, calls).

Definition delete_tree : TREE -> option (TREE * list free_call) := free_tree.
Definition reset_tree : TREE -> option (TREE * list free_call) := free_tree.

Section Ops.
(** [tree->compare (custom_arg, element key, key)], and the address of a new element
    of the given size, [None] when there is no memory. *)
Context (compare : Z -> Z -> Z) (malloc : Z -> gmap Z TREE_ELEMENT -> option Z).

(** The descent of [tree_insert] and [tree_delete]: [parent] and [element]. *)
Fixpoint descend (fuel : nat) (m : mem) (parent : list link) (element k : Z) : option (list link * Z) :=
  match fuel with
  | O => None
  | S fuel =>
      if bool_decide (element = NIL) then Some (parent, element)
      else
        e ← heap m !! element;
        let cmp := compare (key e) k in
        if bool_decide (cmp = 0) then Some (parent, element)
        else
          let d := if bool_decide (cmp < 0) then R else L in
          parent ← push parent (Lchild d element);
          descend fuel m parent (child d e) k
  end.

(** A new element at the end of the descent. *)
Definition insert_new (t : TREE) (parent : list link) (k key_size alloc_size : Z) : option (option Z * TREE) :=
  match malloc alloc_size (heap (tmem t)) with
  | None => Some (None, t)
  | Some element =>
      p ← head parent;
      m ← set_link (tmem t) p element;
      let m := store_el m element (mk_el NIL NIL 1 0 k) in
      let t := set_counts t (u32 (elements_in_tree t + 1)) (allocated t) in
      m ← rb_insert m parent element;
      Some (Some element, set_mem t m)
  end.

(** The element, [None] inside for a null pointer, and the calls of [tree->free]. *)
Fixpoint tree_insert (fuel : nat) (t : TREE) (k key_size : Z) : option (option Z * TREE * list free_call) :=
  match fuel with
  | O => None
  | S fuel =>
      let m := tmem t in
      '(parent, element) ← descend (S MAX_TREE_HEIGHT) m [Lroot] (root m) k;
      if bool_decide (element = NIL) then
        let alloc_size := u32 (sizeof_TREE_ELEMENT + key_size + size_of_element t) in
        let t := set_counts t (elements_in_tree t) (u32 (allocated t + alloc_size)) in
        if bool_decide (memory_limit t <> 0) && bool_decide (elements_in_tree t <> 0) &&
           bool_decide (allocated t > memory_limit t)
        then
          '(t, c1) ← reset_tree t;
          '(r, t, c2) ← tree_insert fuel t k key_size;
          Some (r, t, c1 ++ c2)
        else
          '(r, t) ← insert_new t parent k key_size alloc_size;
          Some (r, t, [])
      else if bool_decide (flag t &&& TREE_NO_DUPS <> 0) then Some (None, t, [])
      else
        e ← heap m !! element;
        let n := uwrap 31 (count e + 1) in
        let n := if bool_decide (n = 0) then uwrap 31 (n - 1) else n in
        Some (Some element, set_mem t (store_el m element (with_count e n)), [])
  end.

(** [while (nod->left != &tree->null_element)] *)
Fixpoint leftmost (fuel : nat) (m : mem) (parent : list link) (nod : Z) : option (list link * Z) :=
  match fuel with
  | O => None
  | S fuel =>
      e ← heap m !! nod;
      if bool_decide (left e <> NIL) then
        parent ← push parent (Lchild L nod);
        leftmost fuel m parent (left e)
      else Some (parent, nod)
  end.

(** Unlink [element]: the memory, the stack and the colour that was removed. *)
Definition unlink_element (m : mem) (parent : list link) (element : Z) : option (mem * list link * Z) :=
  e ← heap m !! element;
  p ← head parent;
  if bool_decide (left e = NIL) then
    m ← set_link m p (right e); Some (m, parent, colour e)
  else if bool_decide (right e = NIL) then
    m ← set_link m p (left e); Some (m, parent, colour e)
  else
    let org_parent := parent in
    parent ← push parent (Lchild R element);
    '(parent, nod) ← leftmost MAX_TREE_HEIGHT m parent (right e);
    p1 ← head parent;
    ne ← heap m !! nod;
    m ← set_link m p1 (right ne);
    let remove_colour := colour ne in
    m ← set_link m p nod;
    let parent := <[(length parent - length org_parent - 1)%nat := Lchild R nod]> parent in
    e ← heap m !! element;
    ne ← heap m !! nod;
    let m := store_el m nod (mk_el (left e) (right e) (count ne) (colour e) (key ne)) in
    Some (m, parent, remove_colour).

(** The result, 1 when not deleted, and the calls of [tree->free]. *)
Definition tree_delete (t : TREE) (k key_size : Z) : option (Z * TREE * list free_call) :=
  if negb (with_delete t) then Some (1, t, [])
  else
    let m := tmem t in
    '(parent, element) ← descend (S MAX_TREE_HEIGHT) m [Lroot] (root m) k;
    if bool_decide (element = NIL) then Some (1, t, [])
    else
      '(m, parent, remove_colour) ← unlink_element m parent element;
      m ← (if bool_decide (remove_colour = BLACK) then rb_delete_fixup m parent else Some m);
      e ← heap m !! element;
      let m := mk_mem (root m) (delete element (heap m)) in
      let t := set_counts (set_mem t m) (u32 (elements_in_tree t - 1))
                 (u32 (allocated t - (sizeof_TREE_ELEMENT + size_of_element t + key_size))) in
      Some (0, t, if free t then [free_free (key e)] else []).

(** The key found, [None] inside for a null pointer. *)
Fixpoint search_loop (fuel : nat) (m : mem) (element k : Z) : option (option Z) :=
  match fuel with
  | O => None
  | S fuel =>
      if bool_decide (element = NIL) then Some None
      else
        e ← heap m !! element;
        let cmp := compare (key e) k in
        if bool_decide (cmp = 0) then Some (Some (key e))
        else search_loop fuel m (if bool_decide (cmp < 0) then right e else left e) k
  end.

Definition tree_search (t : TREE) (k : Z) : option (option Z) :=
  search_loop (S (size (heap (tmem t)))) (tmem t) (root (tmem t)) k.

(** [tree_walk_left_root_right] for [L], [tree_walk_right_root_left] for [R]: the action on the
    state of the caller gives an error and a new state. *)
Fixpoint walk {S} (fuel : nat) (d : dir) (m : mem) (element : Z) (action : Z -> Z -> S -> Z * S) (s : S)
  : option (Z * S) :=
  match fuel with
  | O => None
  | Datatypes.S fuel =>
      e ← heap m !! element;
      if bool_decide (child d e <> 0) then
        '(error, s) ← walk fuel d m (child d e) action s;
        if bool_decide (error = 0) then
          let '(error, s) := action (key e) (count e) s in
          if bool_decide (error = 0) then walk fuel d m (child (opp d) e) action s else Some (error, s)
        else Some (error, s)
      else Some (0, s)
  end.

Definition tree_walk {S} (t : TREE) (action : Z -> Z -> S -> Z * S) (s : S) (visit : dir) : option (Z * S) :=
  walk (Datatypes.S (size (heap (tmem t)))) visit (tmem t) (root (tmem t)) action s.

End Ops.

End Tree.
