(* ===== verification/TreeRep.v ===== *)
(** * TreeRep: the elements of a tree as an inductive tree with a focus

    A tree in the heap of [Tree] is described by an inductive tree [T] and a path of
    frames from the focus up to the root ([rep m p t]); the stack [parents] of the code
    is the path seen as addresses of links ([plinks]).  The lemmas say what the
    assignments and rotations do to this view. *)
From stdpp Require Import base tactics option list numbers gmap.
From Stdlib Require Import ZArith Lia.
From S2P Require Import Prelude.
From S2P Require Import Tree.

Module TreeRep.
Import Tree.

(** An element: address, colour, count and key. *)
Record info := mk_info { i_addr : Z; i_col : Z; i_cnt : Z; i_key : Z }.
Definition recol (i : info) (c : Z) : info := mk_info (i_addr i) c (i_cnt i) (i_key i).

Inductive T := E | N (i : info) (l r : T).

(** The node whose child in direction [d] is [x]. *)
Definition nd (d : dir) (i : info) (x y : T) : T := match d with L => N i x y | R => N i y x end.

Definition addr (t : T) : Z := match t with E => NIL | N i _ _ => i_addr i end.
Definition element (i : info) (l r : Z) : TREE_ELEMENT := mk_el l r (i_cnt i) (i_col i) (i_key i).
Definition el (d : dir) (i : info) (x y : Z) : TREE_ELEMENT := match d with L => element i x y | R => element i y x end.

Fixpoint nodes (t : T) : list (Z * TREE_ELEMENT) :=
  match t with
  | E => []
  | N i l r => (i_addr i, element i (addr l) (addr r)) :: nodes l ++ nodes r
  end.

(** The focus is the child in direction [f_dir]; [f_sib] is the other subtree. *)
Record frame := mk_frame { f_dir : dir; f_info : info; f_sib : T }.
Definition path := list frame.

Definition plug1 (f : frame) (t : T) : T := nd (f_dir f) (f_info f) t (f_sib f).
Definition plug (p : path) (t : T) : T := foldl (fun t f => plug1 f t) t p.
Definition f_addr (f : frame) : Z := i_addr (f_info f).

Fixpoint pnodes (p : path) (x : Z) : list (Z * TREE_ELEMENT) :=
  match p with
  | [] => []
  | f :: p => (f_addr f, el (f_dir f) (f_info f) x (addr (f_sib f))) :: nodes (f_sib f) ++ pnodes p (f_addr f)
  end.
Definition paddr (p : path) (x : Z) : Z := match last p with None => x | Some f => f_addr f end.
Definition plinks (p : path) : list link := ((fun f => Lchild (f_dir f) (f_addr f)) <$> p) ++ [Lroot].

(** The heap has these elements, at different addresses. *)
Definition holds (h : gmap Z TREE_ELEMENT) (l : list (Z * TREE_ELEMENT)) : Prop :=
  NoDup l.*1 /\ forall a e, (a, e) ∈ l -> h !! a = Some e.

(** All elements of the memory but the null element. *)
Definition rep (m : mem) (p : path) (t : T) (rest : list (Z * TREE_ELEMENT)) : Prop :=
  holds (heap m) ((NIL, null_element) :: pnodes p (addr t) ++ nodes t ++ rest) /\ root m = paddr p (addr t).

(** ** Heaps *)

Lemma holds_perm h l l' : l ≡ₚ l' -> holds h l -> holds h l'.
Proof.
  intros HP [H1 H2]. split; [by rewrite <- HP |]. intros a e Ha. apply H2. by rewrite HP.
Qed.

Lemma holds_lookup h l a e : holds h l -> (a, e) ∈ l -> h !! a = Some e.
Proof. intros [_ H]. apply H. Qed.

Lemma holds_update h a e e' l : holds h ((a, e) :: l) -> holds (<[a := e']> h) ((a, e') :: l).
Proof.
  intros [H1 H2]. split; [done |]. cbn in H1. apply NoDup_cons in H1 as [Hn _].
  intros b x Hb. apply elem_of_cons in Hb as [[= -> ->] | Hb]; [apply lookup_insert_eq |].
  rewrite lookup_insert_ne; [apply H2; by right |].
  intros <-. apply Hn. apply list_elem_of_fmap. by exists (a, x).
Qed.

Lemma holds_new h a e l : holds h l -> h !! a = None -> holds (<[a := e]> h) ((a, e) :: l).
Proof.
  intros [H1 H2] Ha. split.
  - cbn. apply NoDup_cons. split; [| done]. intros ([b x] & -> & Hb)%list_elem_of_fmap.
    apply H2 in Hb. cbn in Ha. congruence.
  - intros b x Hb. apply elem_of_cons in Hb as [[= -> ->] | Hb]; [apply lookup_insert_eq |].
    rewrite lookup_insert_ne; [by apply H2 |]. intros <-. apply H2 in Hb. congruence.
Qed.

Lemma holds_delete h a e l : holds h ((a, e) :: l) -> holds (delete a h) l.
Proof.
  intros [H1 H2]. cbn in H1. apply NoDup_cons in H1 as [Hn H1]. split; [done |]. intros b x Hb.
  rewrite lookup_delete_ne; [apply H2; by right |]. intros <-. apply Hn, list_elem_of_fmap. by exists (a, x).
Qed.

Lemma holds_ne h a e b e' l : holds h l -> (a, e) ∈ l -> (b, e') ∈ l -> e <> e' -> a <> b.
Proof. intros Hh H1 H2 Hne ->. apply (holds_lookup _ _ _ _ Hh) in H1, H2. congruence. Qed.

(** ** The view *)

Lemma addr_nd d i x y : addr (nd d i x y) = i_addr i.
Proof. by destruct d. Qed.

Lemma nodes_nd d i x y : nodes (nd d i x y) ≡ₚ (i_addr i, el d i (addr x) (addr y)) :: nodes x ++ nodes y.
Proof. destruct d; cbn; [done |]. by rewrite (Permutation_app_comm (nodes y)). Qed.

Lemma child_el d i x y : child d (el d i x y) = x /\ child (opp d) (el d i x y) = y.
Proof. by destruct d. Qed.

Lemma set_child_el d i x y z :
  set_child d (el d i x y) z = el d i z y /\ set_child (opp d) (el d i x y) z = el d i x z.
Proof. by destruct d. Qed.

Lemma colour_el d i x y : colour (el d i x y) = i_col i.
Proof. by destruct d. Qed.

Lemma with_colour_el d i x y c : with_colour (el d i x y) c = el d (recol i c) x y.
Proof. by destruct d. Qed.

Lemma el_opp d i x y : el (opp d) i x y = el d i y x.
Proof. by destruct d. Qed.

Lemma nd_opp d i x y : nd (opp d) i x y = nd d i y x.
Proof. by destruct d. Qed.

Lemma opp_opp d : opp (opp d) = d.
Proof. by destruct d. Qed.

Lemma paddr_cons f p x : paddr (f :: p) x = paddr p (f_addr f).
Proof. unfold paddr. rewrite last_cons. by destruct (last p). Qed.

(** The focus moves up. *)
Lemma rep_up m f p t rest : rep m (f :: p) t rest <-> rep m p (plug1 f t) rest.
Proof.
  unfold rep, plug1. rewrite addr_nd, paddr_cons. cbn [pnodes]. fold (f_addr f).
  split; intros [H1 H2]; (split; [| done]); revert H1; apply holds_perm; rewrite nodes_nd; fold (f_addr f); solve_Permutation.
Qed.

Lemma rep_plug m p t rest : rep m p t rest <-> rep m [] (plug p t) rest.
Proof.
  revert t. induction p as [| f p IH]; intros t; [done |]. rewrite rep_up. apply IH.
Qed.

Lemma plinks_cons f p : plinks (f :: p) = Lchild (f_dir f) (f_addr f) :: plinks p.
Proof. done. Qed.

Lemma plinks_drop n p : (n <= length p)%nat -> drop n (plinks p) = plinks (drop n p).
Proof.
  intros Hn. unfold plinks. rewrite drop_app_le by (by rewrite length_fmap). by rewrite fmap_drop.
Qed.

Lemma plinks_head p : exists lk, plinks p !! 0%nat = Some lk /\ head (plinks p) = Some lk.
Proof. destruct p; by eexists. Qed.

(** ** What the code reads and writes *)

(** The element at the focus. *)
Lemma rep_focus m p d i x y rest :
  rep m p (nd d i x y) rest -> heap m !! i_addr i = Some (el d i (addr x) (addr y)).
Proof.
  intros [H _]. apply (holds_lookup _ _ _ _ H). right. rewrite nodes_nd. rewrite !elem_of_app.
  right. left. by left.
Qed.

Lemma rep_nil m p t rest : rep m p t rest -> heap m !! NIL = Some null_element.
Proof. intros [H _]. apply (holds_lookup _ _ _ _ H). by left. Qed.

(** The link to the focus, read and written. *)
Lemma get_link_rep m p t rest lk :
  rep m p t rest -> head (plinks p) = Some lk -> get_link m lk = Some (addr t).
Proof.
  intros Hr Hl. destruct p as [| f p]; injection Hl as <-; cbn [get_link].
  - destruct Hr as [_ ->]. done.
  - apply rep_up in Hr. unfold plug1 in Hr. apply rep_focus in Hr. fold (f_addr f) in Hr. rewrite Hr.
    cbn [mbind option_bind]. by rewrite (proj1 (child_el _ _ _ _)).
Qed.

(** [set_link] when only the path and some [l] are known. *)
Lemma set_link_holds m p x y l lk :
  holds (heap m) ((NIL, null_element) :: pnodes p x ++ l) -> root m = paddr p x ->
  head (plinks p) = Some lk ->
  exists m', set_link m lk y = Some m' /\ holds (heap m') ((NIL, null_element) :: pnodes p y ++ l) /\
    root m' = paddr p y.
Proof.
  intros H1 H2 Hl. destruct p as [| f p]; injection Hl as <-; cbn [set_link].
  - by eexists.
  - cbn [pnodes app] in H1.
    rewrite (holds_lookup _ _ (f_addr f) _ H1) by (right; left). cbn [mbind option_bind]. eexists. split; [done |].
    rewrite (proj1 (set_child_el _ _ _ _ _)). split; [| rewrite paddr_cons in *; done]. cbn [pnodes store_el heap app].
    apply (holds_perm _ _ _ (perm_swap _ _ _)). eapply holds_update. apply (holds_perm _ _ _ (perm_swap _ _ _) H1).
Qed.

(** The focus on a child. *)
Lemma rep_down m p d i x y rest : rep m p (nd d i x y) rest <-> rep m (mk_frame d i y :: p) x rest.
Proof. by rewrite rep_up. Qed.

Lemma rep_down' m p d i x y rest : rep m p (nd d i x y) rest <-> rep m (mk_frame (opp d) i x :: p) y rest.
Proof. rewrite rep_up. unfold plug1. cbn. by rewrite nd_opp. Qed.

(** Assigning the whole element at the focus, its children unchanged. *)
Lemma store_rep m p d i j x y rest :
  rep m p (nd d i x y) rest -> i_addr j = i_addr i ->
  rep (store_el m (i_addr i) (el d j (addr x) (addr y))) p (nd d j x y) rest.
Proof.
  intros [H1 H2] Hij. split; [| cbn; rewrite addr_nd in *; by rewrite Hij]. cbn [store_el heap]. rewrite addr_nd in *.
  assert (H1' : holds (heap m) ((i_addr i, el d i (addr x) (addr y)) :: (NIL, null_element) ::
    pnodes p (i_addr i) ++ nodes x ++ nodes y ++ rest)).
  { revert H1. apply holds_perm. rewrite nodes_nd. solve_Permutation. }
  eapply holds_perm; [| eapply holds_update; exact H1']. rewrite nodes_nd, Hij. solve_Permutation.
Qed.

Lemma set_colour_rep m p d i x y c rest :
  rep m p (nd d i x y) rest ->
  exists m', set_colour m (i_addr i) c = Some m' /\ rep m' p (nd d (recol i c) x y) rest.
Proof.
  intros H. unfold set_colour. rewrite (rep_focus _ _ _ _ _ _ _ H). cbn [mbind option_bind]. eexists. split; [done |].
  rewrite with_colour_el. by apply store_rep.
Qed.

(** The rotation at the focus. *)
Lemma rotate_rep m p d i j x b z rest lk :
  rep m p (nd d i x (nd d j b z)) rest -> head (plinks p) = Some lk ->
  exists m', rotate d m lk (i_addr i) = Some m' /\ rep m' p (nd d j (nd d i x b) z) rest.
Proof.
  intros H Hl. unfold rotate. pose proof (rep_focus _ _ _ _ _ _ _ H) as Ei. rewrite addr_nd in Ei. rewrite Ei.
  cbn [mbind option_bind]. rewrite (proj2 (child_el _ _ _ _)).
  pose proof (rep_focus _ _ _ _ _ _ _ (proj1 (rep_down' _ _ _ _ _ _ _) H)) as Ej. rewrite Ej. cbn [mbind option_bind].
  rewrite (proj1 (child_el _ _ _ _)), (proj2 (set_child_el _ _ _ _ _)). destruct H as [H1 H2]. rewrite addr_nd in H1, H2.
  set (jn := (i_addr j, el d j (addr b) (addr z))). set (l := nodes x ++ nodes b ++ nodes z ++ rest).
  assert (H1' : holds (heap m) ((i_addr i, el d i (addr x) (i_addr j)) :: (NIL, null_element) :: pnodes p (i_addr i) ++ jn :: l)).
  { revert H1. apply holds_perm. rewrite !nodes_nd, addr_nd. subst jn l. solve_Permutation. }
  eapply holds_update in H1'.
  destruct (set_link_holds (store_el m (i_addr i) (el d i (addr x) (addr b))) p (i_addr i) (i_addr j)
    (jn :: (i_addr i, el d i (addr x) (addr b)) :: l) lk) as (m1 & -> & Hh & Hroot); [| done | done |].
  { cbn [store_el heap]. revert H1'. apply holds_perm. solve_Permutation. }
  cbn [mbind option_bind].
  assert (Hh' : holds (heap m1) (jn :: (NIL, null_element) :: pnodes p (i_addr j) ++ (i_addr i, el d i (addr x) (addr b)) :: l)).
  { revert Hh. apply holds_perm. solve_Permutation. }
  rewrite (holds_lookup _ _ _ _ Hh' ltac:(by left)). cbn [mbind option_bind]. eexists. split; [done |].
  rewrite (proj1 (set_child_el _ _ _ _ _)). split; [| by rewrite addr_nd]. cbn [store_el heap]. rewrite addr_nd.
  eapply holds_perm; [| eapply holds_update; exact Hh']. rewrite !nodes_nd, addr_nd. subst l. solve_Permutation.
Qed.

End TreeRep.
