(* ===== verification/TreeInsert.v ===== *)
(** * TreeInsert: rebalancing after an insertion

    The invariant of red-black trees ([rbt t n]: black height [n], no red element with a red
    child), the same for the path above a focus ([pok]), and the proof that [rb_insert]
    restores it and keeps the elements in order. *)
From stdpp Require Import base tactics option list numbers gmap.
From Stdlib Require Import ZArith Lia.
From S2P Require Import Prelude.
From S2P Require Import Tree.
From S2P Require Import TreeRep.

Module TreeInsert.
Import Tree TreeRep.

(** ** The invariant *)

Definition is_black (t : T) : Prop := match t with E => True | N i _ _ => i_col i = BLACK end.

Inductive rbt : T -> nat -> Prop :=
| rbt_E : rbt E 0
| rbt_R i l r n : i_col i = RED -> is_black l -> is_black r -> rbt l n -> rbt r n -> rbt (N i l r) n
| rbt_B i l r n : i_col i = BLACK -> rbt l n -> rbt r n -> rbt (N i l r) (S n).

(** What is left of an element when colours and links are forgotten; the elements in order. *)
Definition item (i : info) : Z * Z * Z := (i_addr i, i_cnt i, i_key i).
Fixpoint items (t : T) : list (Z * Z * Z) :=
  match t with E => [] | N i l r => items l ++ [item i] ++ items r end.

Definition blacken (t : T) : T := match t with E => E | N i l r => N (recol i BLACK) l r end.

Definition top_black (p : path) : Prop := match p with f :: _ => i_col (f_info f) = BLACK | [] => False end.

(** A subtree of black height [n] fits below the path. *)
Fixpoint pok (p : path) (n : nat) : Prop :=
  match p with
  | [] => True
  | f :: p =>
      rbt (f_sib f) n /\
      (i_col (f_info f) = BLACK /\ pok p (S n) \/
       i_col (f_info f) = RED /\ is_black (f_sib f) /\ top_black p /\ pok p n)
  end.

Lemma rbt_nd_R d i x y n : i_col i = RED -> is_black x -> is_black y -> rbt x n -> rbt y n -> rbt (nd d i x y) n.
Proof. destruct d; by constructor. Qed.

Lemma rbt_nd_B d i x y n : i_col i = BLACK -> rbt x n -> rbt y n -> rbt (nd d i x y) (S n).
Proof. destruct d; by constructor. Qed.

Lemma rbt_nd_inv d i x y n : rbt (nd d i x y) n ->
  (i_col i = RED /\ is_black x /\ is_black y /\ rbt x n /\ rbt y n) \/
  (i_col i = BLACK /\ exists n', n = S n' /\ rbt x n' /\ rbt y n').
Proof. destruct d; inversion 1; subst; eauto 10. Qed.

Lemma is_black_nd d i x y : is_black (nd d i x y) <-> i_col i = BLACK.
Proof. by destruct d. Qed.

Lemma nd_view d i l r : exists x y, N i l r = nd d i x y.
Proof. destruct d; [by exists l, r | by exists r, l]. Qed.

Lemma blacken_nd d i x y : blacken (nd d i x y) = nd d (recol i BLACK) x y.
Proof. by destruct d. Qed.

Lemma rbt_blacken t n : rbt t n -> exists n', rbt (blacken t) n'.
Proof. inversion 1; subst; cbn; [exists 0%nat; constructor | eexists; by constructor | eexists; by constructor]. Qed.

Lemma rbt_plug p : forall t n, rbt t n -> pok p n -> is_black t \/ top_black p -> exists n', rbt (plug p t) n'.
Proof.
  induction p as [| f p IH]; intros t n Ht Hp Hb; [by exists n |]. cbn [plug foldl]. fold (plug p (plug1 f t)).
  destruct Hp as [Hs [[Hc Hp] | (Hc & Hsb & Htop & Hp)]].
  - apply (IH _ (S n)); [by apply rbt_nd_B | done |]. left. by apply is_black_nd.
  - apply (IH _ n); [| done | by right]. destruct Hb as [Hb | Hb]; [by apply rbt_nd_R |].
    cbn in Hb. rewrite Hc in Hb. done.
Qed.

(** ** The order of the elements *)

Ltac solve_items := cbn; repeat (rewrite <- app_assoc; cbn); reflexivity.

Lemma items_plug p : forall t t', items t = items t' -> items (plug p t) = items (plug p t').
Proof.
  induction p as [| f p IH]; intros t t' Ht; [done |]. cbn [plug foldl]. apply IH. unfold plug1.
  destruct (f_dir f); cbn; by rewrite Ht.
Qed.

Lemma items_rotate d i j x b z :
  items (nd d j (nd d i x b) z) = items (nd d i x (nd d j b z)).
Proof. destruct d; cbn; by rewrite <- ?app_assoc. Qed.

Lemma items_recol d i c x y : items (nd d (recol i c) x y) = items (nd d i x y).
Proof. by destruct d. Qed.

Lemma items_nd_eq d i j x x' y y' :
  item i = item j -> items x = items x' -> items y = items y' -> items (nd d i x y) = items (nd d j x' y').
Proof. intros H1 H2 H3. destruct d; cbn; by rewrite H1, H2, H3. Qed.

Lemma items_blacken t : items (blacken t) = items t.
Proof. by destruct t. Qed.

(** ** Different elements have different addresses *)

Lemma addr_in t : t <> E -> exists e, (addr t, e) ∈ nodes t.
Proof. destruct t as [| i l r]; [done |]. intros _. eexists. cbn. by left. Qed.

Lemma root_in p x : p <> [] -> exists e, (paddr p x, e) ∈ pnodes p x.
Proof.
  revert x. induction p as [| f p IH]; intros x Hp; [done |]. rewrite paddr_cons. cbn [pnodes].
  destruct p as [| g p]; [cbn; eexists; by left |]. destruct (IH (f_addr f)) as [e He]; [done |].
  exists e. right. apply elem_of_app. by right.
Qed.

Lemma nodup_apart (l1 l2 : list (Z * TREE_ELEMENT)) a e e' :
  NoDup (l1 ++ l2).*1 -> (a, e) ∈ l1 -> (a, e') ∈ l2 -> False.
Proof.
  rewrite fmap_app. intros (_ & H & _)%NoDup_app H1 H2. apply (H a); apply list_elem_of_fmap; by eexists (_, _).
Qed.

Lemma rep_not_root m f p t rest : rep m (f :: p) t rest -> addr t <> root m.
Proof.
  intros [[Hn _] ->] Ha. destruct (root_in (f :: p) (addr t)) as [e He]; [done |]. rewrite <- Ha in He.
  destruct t as [| i l r].
  - cbn [addr] in He. eapply (nodup_apart [(NIL, null_element)]); [exact Hn | by left | apply elem_of_app; by left].
  - cbn [fmap list_fmap] in Hn. apply NoDup_cons in Hn as [_ Hn].
    eapply nodup_apart; [exact Hn | exact He |]. apply elem_of_app. left. cbn. by left.
Qed.

(** The two subtrees of an element start at different addresses, unless both are empty. *)
Lemma rep_children m p d i x y rest : rep m p (nd d i x y) rest -> x <> E -> addr x <> addr y.
Proof.
  intros [Hh _] Hx Ha. destruct (addr_in x Hx) as [e He].
  apply (holds_perm _ _ ((NIL, null_element) :: nodes x ++ nodes y ++ (i_addr i, el d i (addr x) (addr y)) ::
    pnodes p (addr (nd d i x y)) ++ rest)) in Hh as [Hn _]; [| rewrite nodes_nd; solve_Permutation].
  destruct y as [| j l r].
  - cbn [addr] in Ha. rewrite Ha in He. eapply (nodup_apart [(NIL, null_element)]); [exact Hn | by left | apply elem_of_app; by left].
  - cbn [fmap list_fmap] in Hn. apply NoDup_cons in Hn as [_ Hn]. rewrite Ha in He.
    eapply nodup_apart; [exact Hn | exact He |]. apply elem_of_app. left. cbn. by left.
Qed.

(** ** The loop *)

(** The colour of the root of a subtree. *)
Definition rcol (t : T) : Z := match t with E => BLACK | N i _ _ => i_col i end.

(** The element at the focus, empty or not. *)
Lemma rep_root_el m p t rest : rep m p t rest -> exists e, heap m !! addr t = Some e /\ colour e = rcol t.
Proof.
  intros H. destruct t as [| i l r].
  - exists null_element. split; [by apply rep_nil in H | done].
  - apply (rep_focus _ _ L) in H. eexists. split; [exact H | done].
Qed.

Lemma rcol_black t : rcol t = BLACK <-> is_black t.
Proof. by destruct t. Qed.

Lemma rbt_colour t n : rbt t n -> rcol t = RED \/ rcol t = BLACK.
Proof. intros []; cbn; auto. Qed.

(** Which child the focus is. *)
Lemma focus_side m f p t rest : rep m (f :: p) t rest -> t <> E ->
  (if bool_decide (addr t = left (el (f_dir f) (f_info f) (addr t) (addr (f_sib f)))) then L else R) = f_dir f.
Proof.
  intros H Ht. destruct (f_dir f) eqn:Ed; cbn; [by rewrite bool_decide_true |].
  rewrite bool_decide_false; [done |]. apply rep_up in H. unfold plug1 in H. by eapply rep_children.
Qed.

Lemma nd_ne d i x y : nd d i x y <> E.
Proof. by destruct d. Qed.

Lemma addr_plug1 f t : addr (plug1 f t) = f_addr f.
Proof. apply addr_nd. Qed.

Lemma plug1_ne f t : plug1 f t <> E.
Proof. apply nd_ne. Qed.

(** A red uncle: the colours move up. *)
Lemma insert_recolour m p2 f g t j l r rest :
  rep m (f :: mk_frame (f_dir g) (f_info g) (N j l r) :: p2) t rest ->
  exists m1 m2 m3, set_colour m (f_addr f) BLACK = Some m1 /\ set_colour m1 (i_addr j) BLACK = Some m2 /\
    set_colour m2 (f_addr g) RED = Some m3 /\
    rep m3 p2 (nd (f_dir g) (recol (f_info g) RED)
      (nd (f_dir f) (recol (f_info f) BLACK) t (f_sib f)) (N (recol j BLACK) l r)) rest.
Proof.
  intros H. apply rep_up in H. unfold plug1 in H.
  apply set_colour_rep with (c := BLACK) in H as (m1 & E1 & H). exists m1. fold (f_addr f) in E1.
  apply rep_up in H. unfold plug1 in H. cbn [f_dir f_info f_sib] in H. apply rep_down' in H.
  apply (set_colour_rep _ _ L _ _ _ BLACK) in H as (m2 & E2 & H). exists m2. cbn [nd] in H.
  apply rep_up in H. unfold plug1 in H. cbn [f_dir f_info f_sib] in H. rewrite nd_opp in H.
  apply set_colour_rep with (c := RED) in H as (m3 & E3 & H). exists m3. done.
Qed.

(** A black uncle, the focus is the outer grandchild. *)
Lemma insert_rotate m p2 d i1 g A B S rest lk2 :
  rep m p2 (nd d g (nd d i1 A B) S) rest -> head (plinks p2) = Some lk2 ->
  exists m1 m2 m3, set_colour m (i_addr i1) BLACK = Some m1 /\ set_colour m1 (i_addr g) RED = Some m2 /\
    rotate (opp d) m2 lk2 (i_addr g) = Some m3 /\
    rep m3 p2 (nd d (recol i1 BLACK) A (nd d (recol g RED) B S)) rest.
Proof.
  intros H Hl. apply rep_down in H. apply set_colour_rep with (c := BLACK) in H as (m1 & E1 & H). exists m1.
  apply rep_down in H. apply set_colour_rep with (c := RED) in H as (m2 & E2 & H). exists m2.
  rewrite <- nd_opp in H. rewrite <- (nd_opp d (recol i1 BLACK)) in H.
  apply rotate_rep with (lk := lk2) in H as (m3 & E3 & H); [| done]. exists m3.
  rewrite !nd_opp in H. done.
Qed.

(** What the loop leaves: a tree with the same elements that is red-black once its
    root is black. *)
Definition rebalanced (m : mem) (rest : list (Z * TREE_ELEMENT)) (old : list (Z * Z * Z)) : Prop :=
  exists t n, rep m [] t rest /\ t <> E /\ items t = old /\ rbt (blacken t) n.

Lemma plug_ne p t : t <> E -> plug p t <> E.
Proof.
  revert t. induction p as [| f p IH]; intros t Ht; [done |]. cbn [plug foldl]. apply IH, plug1_ne.
Qed.

Lemma rebalanced_plug m p t n rest old :
  rep m p t rest -> t <> E -> items (plug p t) = old -> rbt t n -> pok p n -> is_black t \/ top_black p ->
  rebalanced m rest old.
Proof.
  intros H Ht Ho Hr Hp Hb. destruct (rbt_plug p t n Hr Hp Hb) as [n' Hn]. apply rbt_blacken in Hn as [n2 Hn].
  exists (plug p t), n2. split_and!; [by rewrite <- rep_plug | by apply plug_ne | done | done].
Qed.

(** The part of the loop for a red parent and a black uncle. *)
Lemma insert_black_uncle m p2 f g i l r n rest lk2 :
  rep m (f :: g :: p2) (N i l r) rest -> head (plinks p2) = Some lk2 ->
  i_col i = RED -> is_black l -> is_black r -> rbt l n -> rbt r n ->
  i_col (f_info f) = RED -> is_black (f_sib f) -> rbt (f_sib f) n ->
  is_black (f_sib g) -> rbt (f_sib g) n -> pok p2 (S n) ->
  exists m',
    ('(m, par) ← (if bool_decide (i_addr i = child (opp (f_dir g)) (el (f_dir f) (f_info f) (i_addr i) (addr (f_sib f))))
                  then m ← rotate (f_dir g) m (Lchild (f_dir g) (f_addr g)) (f_addr f); Some (m, i_addr i)
                  else Some (m, f_addr f));
     m ← set_colour m par BLACK;
     m ← set_colour m (f_addr g) RED;
     rotate (opp (f_dir g)) m lk2 (f_addr g)) = Some m' /\
    rebalanced m' rest (items (plug (f :: g :: p2) (N i l r))).
Proof.
  intros H Hl2 Hi Hbl Hbr Hl Hr Hf Hfb Hfs Hgb Hgs Hp.
  destruct f as [df fi fs], g as [dg gi gs]. cbn [f_dir f_info f_sib] in *. unfold f_addr. cbn [f_info].
  assert (Hdir : df = dg \/ df = opp dg) by (destruct df, dg; auto).
  destruct Hdir as [-> | ->].
  - (* outer *)
    assert (Hne : i_addr i <> addr fs).
    { apply rep_up in H. apply (rep_children _ _ _ _ _ _ _ H). done. }
    rewrite (proj2 (child_el _ _ _ _)). rewrite bool_decide_false by done. cbn [mbind option_bind].
    apply (proj1 (rep_up _ _ _ _ _)), (proj1 (rep_up _ _ _ _ _)) in H. unfold plug1 in H. cbn [f_dir f_info f_sib] in H.
    destruct (insert_rotate _ _ _ _ _ _ _ _ _ _ H Hl2) as (m1 & m2 & m3 & -> & E2 & E3 & H3).
    cbn [mbind option_bind]. rewrite E2. cbn [mbind option_bind]. exists m3. split; [done |].
    eapply rebalanced_plug; [exact H3 | apply nd_ne | | | exact Hp | left; by apply is_black_nd].
    + cbn [plug foldl]. apply items_plug. unfold plug1. cbn [f_dir f_info f_sib]. destruct dg; solve_items.
    + apply rbt_nd_B; [done | by constructor |]. by apply rbt_nd_R.
  - (* inner *)
    rewrite el_opp, (proj2 (child_el _ _ _ _)). rewrite bool_decide_true by done.
    destruct (nd_view dg i l r) as (x & y & Ev). rewrite Ev in H.
    assert (Hxy : is_black x /\ is_black y /\ rbt x n /\ rbt y n) by (destruct dg; injection Ev as -> ->; done).
    destruct Hxy as (Hbx & Hby & Hx & Hy).
    apply rep_up in H. unfold plug1 in H. cbn [f_dir f_info f_sib] in H. rewrite nd_opp in H.
    apply rotate_rep with (lk := Lchild dg (i_addr gi)) in H as (m0 & -> & H); [| done]. cbn [mbind option_bind].
    apply rep_up in H. unfold plug1 in H. cbn [f_dir f_info f_sib] in H.
    destruct (insert_rotate _ _ _ _ _ _ _ _ _ _ H Hl2) as (m1 & m2 & m3 & -> & E2 & E3 & H3).
    cbn [mbind option_bind]. rewrite E2. cbn [mbind option_bind]. exists m3. split; [done |].
    eapply rebalanced_plug; [exact H3 | apply nd_ne | | | exact Hp | left; by apply is_black_nd].
    + rewrite Ev. cbn [plug foldl]. apply items_plug. unfold plug1. cbn [f_dir f_info f_sib]. destruct dg; solve_items.
    + apply rbt_nd_B; [done | by apply rbt_nd_R |]. by apply rbt_nd_R.
Qed.

Lemma rb_insert_loop_spec fuel : forall m p i l r n rest,
  (length p < fuel)%nat -> rep m p (N i l r) rest -> i_col i = RED ->
  is_black l -> is_black r -> rbt l n -> rbt r n -> pok p n ->
  exists m', insert_loop fuel m (plinks p) (i_addr i) = Some m' /\ rebalanced m' rest (items (plug p (N i l r))).
Proof.
  induction fuel as [| fuel IH]; intros m p i l r n rest Hf H Hi Hbl Hbr Hl Hr Hp; [lia |]. cbn [insert_loop].
  destruct p as [| f p1].
  { assert (Hroot : i_addr i = root m) by (destruct H as [_ ->]; done). rewrite bool_decide_false by tauto.
    exists m. split; [done |]. exists (N i l r), (S n). split_and!; [done | done | done | by constructor]. }
  pose proof (rep_not_root _ _ _ _ _ H) as Hnr. cbn [addr] in Hnr. rewrite bool_decide_true by done.
  pose proof (proj1 (rep_up _ _ _ _ _) H) as H1. destruct (plinks_head p1) as (lk1 & Hlk1 & Hhd1).
  change (plinks (f :: p1) !! 1%nat) with (plinks p1 !! 0%nat). rewrite Hlk1. cbn [mbind option_bind].
  rewrite (get_link_rep _ _ _ _ _ H1 Hhd1). cbn [mbind option_bind].
  rewrite addr_plug1.
  pose proof (rep_focus _ _ _ _ _ _ _ H1) as Ef. fold (f_addr f) in Ef. rewrite Ef. cbn [mbind option_bind].
  rewrite colour_el. destruct Hp as [Hfs [[Hfc Hp1] | (Hfc & Hfsb & Htop & Hp1)]].
  { rewrite bool_decide_false by (by rewrite Hfc). exists m. split; [done |].
    eapply rebalanced_plug; [exact H | done | done | by apply rbt_R | by split; [| left] | by right]. }
  rewrite bool_decide_true by done. destruct p1 as [| g p2]; [done |]. cbn [top_black] in Htop.
  destruct Hp1 as [Hgs [[_ Hp2] | (Hgc & _)]]; [| by rewrite Htop in Hgc].
  pose proof (proj1 (rep_up _ _ _ _ _) H1) as H2. destruct (plinks_head p2) as (lk2 & Hlk2 & Hhd2).
  change (plinks (f :: g :: p2) !! 2%nat) with (plinks p2 !! 0%nat). rewrite Hlk2. cbn [mbind option_bind].
  rewrite (get_link_rep _ _ _ _ _ H2 Hhd2). cbn [mbind option_bind].
  rewrite addr_plug1.
  pose proof (rep_focus _ _ _ _ _ _ _ H2) as Eg. fold (f_addr g) in Eg. rewrite Eg. cbn [mbind option_bind].
  pose proof (focus_side _ _ _ _ _ H1 (plug1_ne f (N i l r))) as Hside.
  rewrite addr_plug1 in Hside |- *.
  cbv zeta. rewrite Hside. rewrite (proj2 (child_el _ _ _ _)).
  assert (Hs : rep m (mk_frame (opp (f_dir g)) (f_info g) (plug1 f (N i l r)) :: p2) (f_sib g) rest)
    by (by apply rep_down').
  destruct (rep_root_el _ _ _ _ Hs) as (ye & -> & Hye). cbn [mbind option_bind]. rewrite Hye.
  destruct (decide (rcol (f_sib g) = RED)) as [Hred | Hblack].
  - rewrite bool_decide_true by done. destruct (f_sib g) as [| j jl jr] eqn:Egs; [done |]. cbn [rcol] in Hred.
    destruct g as [dg gi gs]. cbn [f_sib f_dir f_info] in *. subst gs.
    destruct (insert_recolour m p2 f (mk_frame dg gi (N j jl jr)) (N i l r) j jl jr rest H) as (m1 & m2 & m3 & E1 & E2 & E3 & H3).
    cbn [addr f_addr f_info f_dir] in *. rewrite E1. cbn [mbind option_bind]. rewrite E2. cbn [mbind option_bind].
    unfold f_addr at 1. cbn [f_info]. fold (f_addr (mk_frame dg gi (N j jl jr))). rewrite E3. cbn [mbind option_bind].
    inversion Hgs as [| ? ? ? ? Hj Hjl Hjr Hjl' Hjr' | ? ? ? ? Hj]; subst; [| by rewrite Hred in Hj].
    assert (Hcol : exists l' r', nd dg (recol gi RED) (nd (f_dir f) (recol (f_info f) BLACK) (N i l r) (f_sib f))
        (N (recol j BLACK) jl jr) = N (recol gi RED) l' r' /\ is_black l' /\ is_black r' /\ rbt l' (S n) /\ rbt r' (S n)).
    { assert (Hx : rbt (nd (f_dir f) (recol (f_info f) BLACK) (N i l r) (f_sib f)) (S n)) by (apply rbt_nd_B; [done | by constructor | done]).
      assert (Hy : rbt (N (recol j BLACK) jl jr) (S n)) by (by constructor).
      destruct dg; do 2 eexists; (split; [reflexivity |]); rewrite is_black_nd; done. }
    destruct Hcol as (l' & r' & Ecol & Hbl' & Hbr' & Hl' & Hr'). rewrite Ecol in H3.
    cbn [length] in Hf.
    destruct (IH m3 p2 (recol gi RED) l' r' (S n) rest) as (m' & Em & Hreb); [lia | done.. |].
    exists m'. split; [exact Em |]. rewrite <- Ecol in Hreb. revert Hreb. cbn [plug foldl].
    erewrite items_plug; [exact id |]. unfold plug1. cbn [f_dir f_info f_sib]. destruct dg, (f_dir f); reflexivity.
  - rewrite bool_decide_false by done.
    destruct (rbt_colour _ _ Hgs) as [? | ?%rcol_black]; [done |].
    injection Hlk1 as <-. eapply insert_black_uncle; done.
Qed.

(** ** [rb_insert] *)

Lemma blacken_root m t rest : rep m [] t rest -> t <> E ->
  exists m', set_colour m (root m) BLACK = Some m' /\ rep m' [] (blacken t) rest.
Proof.
  intros H Ht. destruct t as [| i l r]; [done |]. pose proof H as [_ Hroot]. cbn in Hroot. rewrite Hroot.
  apply (set_colour_rep _ _ L _ _ _ BLACK) in H. exact H.
Qed.

(** A new leaf at the end of the path: the result is a red-black tree with a black root, with the
    elements in the same order. *)
Lemma rb_insert_spec m p i rest :
  rep m p (N i E E) rest -> pok p 0 ->
  exists m' t n, rb_insert m (plinks p) (i_addr i) = Some m' /\ rep m' [] t rest /\
    items t = items (plug p (N i E E)) /\ rbt t n /\ is_black t.
Proof.
  intros H Hp. unfold rb_insert.
  apply (set_colour_rep _ _ L _ _ _ RED) in H as (m1 & -> & H). cbn [mbind option_bind nd] in *.
  destruct (rb_insert_loop_spec (S (length (plinks p))) m1 p (recol i RED) E E 0 rest)
    as (m2 & Em & t & n & Hrep & Ht & Hitems & Hrbt); [| done | done | done | done | constructor.. | done |].
  { unfold plinks. rewrite length_app, length_fmap. cbn. lia. }
  cbn [recol i_addr] in Em. rewrite Em. cbn [mbind option_bind].
  apply blacken_root in Hrep as (m3 & -> & Hrep); [| done]. exists m3, (blacken t), n.
  split_and!; [done | done | | done | by destruct t]. rewrite items_blacken, Hitems. by apply items_plug.
Qed.

End TreeInsert.
