(* ===== verification/TreeDelete.v ===== *)
(** * TreeDelete: rebalancing after a removal

    The loop of [rb_delete_fixup]: the subtree at the focus is one black element short
    of what the path needs ([short]); the loop ends with a memory where blackening one element
    gives a red-black tree. *)
From stdpp Require Import base tactics option list numbers gmap.
From Stdlib Require Import ZArith Lia.
From S2P Require Import Prelude.
From S2P Require Import Tree.
From S2P Require Import TreeRep.
From S2P Require Import TreeInsert.

Module TreeDelete.
Import Tree TreeRep TreeInsert.

(** ** The steps in the memory *)

Lemma rep_lift m p d i x y rest : rep m (mk_frame (opp d) i x :: p) y rest -> rep m p (nd d i x y) rest.
Proof. apply rep_down'. Qed.

Lemma rep_lower m p d i x y rest : rep m p (nd d i x y) rest -> rep m (mk_frame (opp d) i x :: p) y rest.
Proof. apply rep_down'. Qed.

Lemma red_sibling_rep m p d par wi t a b rest lk :
  rep m p (nd d par t (nd d wi a b)) rest -> head (plinks p) = Some lk ->
  exists m1 m2 m3, set_colour m (i_addr wi) BLACK = Some m1 /\ set_colour m1 (i_addr par) RED = Some m2 /\
    rotate d m2 lk (i_addr par) = Some m3 /\
    rep m3 p (nd d (recol wi BLACK) (nd d (recol par RED) t a) b) rest.
Proof.
  intros H Hl. apply rep_lower in H. apply set_colour_rep with (c := BLACK) in H as (m1 & E1 & H). exists m1.
  apply rep_lift in H. apply set_colour_rep with (c := RED) in H as (m2 & E2 & H). exists m2.
  apply rotate_rep with (lk := lk) in H as (m3 & E3 & H); [| done]. by exists m3.
Qed.

Lemma near_red_rep m p d par wi ni t a b c rest :
  rep m p (nd d par t (nd d wi (nd d ni a b) c)) rest ->
  exists m1 m2 m3, set_colour m (i_addr ni) BLACK = Some m1 /\ set_colour m1 (i_addr wi) RED = Some m2 /\
    rotate (opp d) m2 (Lchild (opp d) (i_addr par)) (i_addr wi) = Some m3 /\
    rep m3 p (nd d par t (nd d (recol ni BLACK) a (nd d (recol wi RED) b c))) rest.
Proof.
  intros H. apply rep_lower in H. apply insert_rotate with (lk2 := Lchild (opp d) (i_addr par)) in H; [| done].
  destruct H as (m1 & m2 & m3 & E1 & E2 & E3 & H). exists m1, m2, m3. split_and!; [done.. |]. by apply rep_lift.
Qed.

Lemma far_red_rep m p d par wi fi t a b c rest lk k :
  rep m p (nd d par t (nd d wi a (nd d fi b c))) rest -> head (plinks p) = Some lk ->
  exists m1 m2 m3 m4, set_colour m (i_addr wi) k = Some m1 /\ set_colour m1 (i_addr par) BLACK = Some m2 /\
    heap m2 !! i_addr wi = Some (el d (recol wi k) (addr a) (i_addr fi)) /\
    set_colour m2 (i_addr fi) BLACK = Some m3 /\ rotate d m3 lk (i_addr par) = Some m4 /\
    rep m4 p (nd d (recol wi k) (nd d (recol par BLACK) t a) (nd d (recol fi BLACK) b c)) rest.
Proof.
  intros H Hl. apply rep_lower in H. apply set_colour_rep with (c := k) in H as (m1 & E1 & H). exists m1.
  apply rep_lift in H. apply set_colour_rep with (c := BLACK) in H as (m2 & E2 & H). exists m2.
  apply rep_lower in H. pose proof (rep_focus _ _ _ _ _ _ _ H) as Hw. rewrite addr_nd in Hw.
  apply rep_lower in H. apply set_colour_rep with (c := BLACK) in H as (m3 & E3 & H). exists m3.
  apply rep_lift, rep_lift in H.
  apply rotate_rep with (lk := lk) in H as (m4 & E4 & H); [| done]. by exists m4.
Qed.

(** ** The invariant of the loop *)

(** Once the element at [x] is black the memory has a red-black tree of the elements [old]. *)
Definition fixed (m : mem) (x : Z) (rest : list (Z * TREE_ELEMENT)) (old : list (Z * Z * Z)) : Prop :=
  exists m' t n, set_colour m x BLACK = Some m' /\ rep m' [] t rest /\ items t = old /\ rbt t n /\ is_black t.

Lemma rbt_plug_black p : forall t n, rbt t n -> pok p n -> is_black t \/ top_black p -> is_black (plug p t).
Proof.
  induction p as [| f p IH]; intros t n Ht Hp Hb; [by destruct Hb |]. cbn [plug foldl]. fold (plug p (plug1 f t)).
  destruct Hp as [Hs [[Hc Hp] | (Hc & Hsb & Htop & Hp)]].
  - apply (IH _ (S n)); [by apply rbt_nd_B | done |]. left. by apply is_black_nd.
  - apply (IH _ n); [| done | by right]. destruct Hb as [Hb | Hb]; [by apply rbt_nd_R |].
    cbn in Hb. rewrite Hc in Hb. done.
Qed.

Lemma fixed_focus m p t n rest :
  rep m p t rest -> t <> E -> rbt (blacken t) n -> pok p n -> fixed m (addr t) rest (items (plug p t)).
Proof.
  intros H Ht Hr Hp. destruct t as [| i l r]; [done |].
  apply (set_colour_rep _ _ L _ _ _ BLACK) in H as (m' & E1 & H). cbn [nd] in H.
  destruct (rbt_plug p _ _ Hr Hp) as [n' Hn]; [by left |].
  exists m', (plug p (N (recol i BLACK) l r)), n'. split_and!; [done | by apply (proj1 (rep_plug _ _ _ _)) | by apply items_plug | done |].
  eapply rbt_plug_black; [exact Hr | exact Hp | by left].
Qed.

Lemma fixed_empty m rest : rep m [] E rest -> fixed m NIL rest [].
Proof.
  intros H. exists m, E, 0%nat. split_and!; [| done | done | constructor | done].
  unfold set_colour. rewrite (rep_nil _ _ _ _ H). cbn [mbind option_bind]. f_equal.
  destruct m as [ro h]. unfold store_el. cbn [root heap] in *. f_equal. apply insert_id, (rep_nil _ _ _ _ H).
Qed.

Lemma fixed_root m rest old : rebalanced m rest old -> fixed m (root m) rest old.
Proof.
  intros (t & n & H & Ht & Ho & Hr). pose proof H as [_ Hroot]. cbn in Hroot. rewrite Hroot, <- Ho.
  by apply (fixed_focus m [] t n).
Qed.

(** The colour of the parent and what is above it. *)
Definition above (par : info) (p : path) (k : nat) : Prop :=
  i_col par = BLACK /\ pok p (S k) \/ i_col par = RED /\ top_black p /\ pok p k.

Lemma far_red_spec m p d par wi fi t a b c k rest lk :
  rep m p (nd d par t (nd d wi a (nd d fi b c))) rest -> head (plinks p) = Some lk ->
  rbt t k -> rbt a k -> rbt b k -> rbt c k -> above par p (S k) ->
  exists m1 m2 m3 m4, set_colour m (i_addr wi) (i_col par) = Some m1 /\ set_colour m1 (i_addr par) BLACK = Some m2 /\
    heap m2 !! i_addr wi = Some (el d (recol wi (i_col par)) (addr a) (i_addr fi)) /\
    set_colour m2 (i_addr fi) BLACK = Some m3 /\ rotate d m3 lk (i_addr par) = Some m4 /\
    rebalanced m4 rest (items (plug p (nd d par t (nd d wi a (nd d fi b c))))).
Proof.
  intros H Hl Ht Ha Hb Hc Hab.
  destruct (far_red_rep _ _ _ _ _ _ _ _ _ _ _ _ (i_col par) H Hl) as (m1 & m2 & m3 & m4 & E1 & E2 & E3 & E4 & E5 & H4).
  exists m1, m2, m3, m4. split_and!; [done.. |].
  assert (H1 : rbt (nd d (recol par BLACK) t a) (S k)) by (by apply rbt_nd_B).
  assert (H2 : rbt (nd d (recol fi BLACK) b c) (S k)) by (by apply rbt_nd_B).
  assert (Hi : items (plug p (nd d (recol wi (i_col par)) (nd d (recol par BLACK) t a) (nd d (recol fi BLACK) b c))) =
    items (plug p (nd d par t (nd d wi a (nd d fi b c))))) by (apply items_plug; destruct d; solve_items).
  destruct Hab as [[Hp Hpok] | (Hp & Htop & Hpok)].
  - apply (rebalanced_plug _ p _ (S (S k)) _ _ H4 (nd_ne _ _ _ _) Hi); [by apply rbt_nd_B | done | left; by apply is_black_nd].
  - apply (rebalanced_plug _ p _ (S k) _ _ H4 (nd_ne _ _ _ _) Hi); [| done | by right].
    apply rbt_nd_R; [done | by apply is_black_nd.. | done | done].
Qed.

Lemma delete_rotate_spec m p d par wi t near far k rest lk :
  rep m p (nd d par t (nd d wi near far)) rest -> head (plinks p) = Some lk ->
  rbt t k -> rbt near k -> rbt far k -> ~ (is_black near /\ is_black far) -> above par p (S k) ->
  exists m', delete_rotate d m lk (i_addr par) (i_addr wi) = Some m' /\
    rebalanced m' rest (items (plug p (nd d par t (nd d wi near far)))).
Proof.
  intros H Hl Ht Hn Hfar Hred Hab. unfold delete_rotate.
  pose proof (rep_lower _ _ _ _ _ _ _ H) as H1. rewrite (rep_focus _ _ _ _ _ _ _ H1). cbn [mbind option_bind].
  rewrite (proj1 (child_el _ _ _ _)), (proj2 (child_el _ _ _ _)).
  destruct (rep_root_el _ _ _ _ (rep_lower _ _ _ _ _ _ _ H1)) as (fe & -> & Hfe). cbn [mbind option_bind]. rewrite Hfe.
  destruct (decide (rcol far = BLACK)) as [Hfb | Hfr].
  - rewrite bool_decide_true by done. destruct near as [| ni nl nr]; [by destruct Hred; apply rcol_black in Hfb |].
    inversion Hn as [| ? ? ? ? Hc Hb1 Hb2 Hr1 Hr2 | ? ? ? ? Hc]; subst; [| by destruct Hred; apply rcol_black in Hfb].
    destruct (nd_view d ni nl nr) as (a & b & Ev).
    assert (Hab' : rbt a k /\ rbt b k) by (destruct d; cbn [nd] in Ev; injection Ev as <- <-; done). destruct Hab' as [Ha Hb].
    rewrite Ev in H |- *. destruct (near_red_rep _ _ _ _ _ _ _ _ _ _ _ H) as (m1 & m2 & m3 & E1 & E2 & E3 & H3).
    rewrite addr_nd, E1. cbn [mbind option_bind]. rewrite E2. cbn [mbind option_bind]. rewrite E3. cbn [mbind option_bind].
    pose proof (rep_focus _ _ _ _ _ _ _ H3) as Hpe. rewrite Hpe. cbn [mbind option_bind].
    rewrite (proj2 (child_el _ _ _ _)), addr_nd. cbn [mbind option_bind]. rewrite Hpe. cbn [mbind option_bind].
    rewrite colour_el.
    destruct (far_red_spec _ _ _ _ _ _ _ _ _ _ k _ _ H3 Hl) as (m4 & m5 & m6 & m7 & -> & E5 & E6 & E7 & E8 & Hreb);
      [done | done | done | done | done |].
    cbn [mbind option_bind]. rewrite E5. cbn [mbind option_bind]. rewrite E6. cbn [mbind option_bind].
    rewrite (proj2 (child_el _ _ _ _)). cbn [recol i_addr] in E7 |- *. rewrite E7. cbn [mbind option_bind].
    exists m7. split; [done |].
    erewrite items_plug; [exact Hreb |]. destruct d; solve_items.
  - rewrite bool_decide_false by done. cbn [mbind option_bind]. destruct far as [| fi fl fr]; [done |].
    destruct (nd_view d fi fl fr) as (b & c & Ev).
    assert (Hbc : rbt b k /\ rbt c k).
    { inversion Hfar as [| ? ? ? ? Hc Hb1 Hb2 Hr1 Hr2 | ? ? ? ? Hc]; subst; [| by cbn in Hfr]. destruct d; cbn [nd] in Ev; injection Ev as <- <-; done. }
    destruct Hbc as [Hb Hc]. rewrite Ev in H |- *.
    rewrite (rep_focus _ _ _ _ _ _ _ H). cbn [mbind option_bind]. rewrite colour_el.
    destruct (far_red_spec _ _ _ _ _ _ _ _ _ _ k _ _ H Hl) as (m4 & m5 & m6 & m7 & -> & E5 & E6 & E7 & E8 & Hreb);
      [done | done | done | done | done |].
    cbn [mbind option_bind]. rewrite E5. cbn [mbind option_bind]. rewrite E6. cbn [mbind option_bind].
    rewrite (proj2 (child_el _ _ _ _)). rewrite E7. cbn [mbind option_bind]. by exists m7.
Qed.

Lemma delete_red_sibling_spec m p d par w t k rest lk :
  rep m (mk_frame d par w :: p) t rest -> head (plinks p) = Some lk -> pok (mk_frame d par w :: p) (S k) ->
  (length (plinks (mk_frame d par w :: p)) < MAX_TREE_HEIGHT)%nat ->
  exists m' p' par' w',
    delete_red_sibling d m (plinks (mk_frame d par w :: p)) lk (i_addr par) (addr w) =
      Some (m', plinks (mk_frame d par' w' :: p'), addr w') /\
    i_addr par' = i_addr par /\ rep m' (mk_frame d par' w' :: p') t rest /\ pok (mk_frame d par' w' :: p') (S k) /\
    is_black w' /\ (i_col par' = RED \/ p' = p) /\
    items (plug (mk_frame d par' w' :: p') t) = items (plug (mk_frame d par w :: p) t).
Proof.
  intros H Hl Hp Hlen. unfold delete_red_sibling. pose proof (proj1 (rep_up _ _ _ _ _) H) as H1. unfold plug1 in H1. cbn in H1.
  destruct (rep_root_el _ _ _ _ (rep_lower _ _ _ _ _ _ _ H1)) as (we & -> & Hwe). cbn [mbind option_bind]. rewrite Hwe.
  destruct Hp as [Hs Hp]. cbn in Hs, Hp. destruct (decide (rcol w = RED)) as [Hred | Hblack].
  - rewrite bool_decide_true by done. destruct w as [| wi l r]; [done |].
    destruct Hp as [[Hpar Hp] | (_ & Hwb & _)]; [| cbn in Hwb, Hred; by rewrite Hwb in Hred].
    destruct (nd_view d wi l r) as (a & b & Ev). rewrite Ev in H1, Hs |- *.
    destruct (red_sibling_rep _ _ _ _ _ _ _ _ _ _ H1 Hl) as (m1 & m2 & m3 & E1 & E2 & E3 & H3).
    rewrite addr_nd, E1. cbn [mbind option_bind]. rewrite E2. cbn [mbind option_bind]. rewrite E3. cbn [mbind option_bind].
    unfold push. rewrite length_insert, bool_decide_true by done. cbn [mbind option_bind].
    apply rep_down in H3. pose proof (rep_focus _ _ _ _ _ _ _ H3) as Hpe. cbn [recol i_addr] in Hpe. rewrite Hpe. cbn [mbind option_bind].
    rewrite (proj2 (child_el _ _ _ _)). apply (proj1 (rep_down _ _ _ _ _ _ _)) in H3.
    exists m3, (mk_frame d (recol wi BLACK) b :: p), (recol par RED), a. cbn [rcol] in Hred.
    apply rbt_nd_inv in Hs as [(_ & Hba & Hbb & Ha & Hb) | (Hc & _)]; [| by rewrite Hred in Hc].
    split_and!; [done | done | done | | done | by left |].
    + split; [done |]. right. cbn. split_and!; [done.. |]. left. done.
    + cbn [plug foldl]. apply items_plug. unfold plug1. cbn. destruct d; solve_items.
  - rewrite bool_decide_false by done. destruct (rbt_colour _ _ Hs) as [? | ?%rcol_black]; [done |].
    exists m, p, par, w. split_and!; [done.. | by right | done].
Qed.

(** The focus at [x] and the steps left: a black focus one short, or a red element. *)
Definition short (fuel : nat) (p : path) (t : T) (k : nat) : Prop :=
  is_black t /\ rbt t k /\ (length p < fuel)%nat /\ (length (plinks p) < MAX_TREE_HEIGHT)%nat \/
  rcol t = RED /\ rbt (blacken t) (S k) /\ (0 < fuel)%nat.

Lemma delete_loop_end m p t k fuel rest :
  rep m p t rest -> pok p (S k) -> short fuel p t k -> p = [] \/ rcol t = RED ->
  fixed m (addr t) rest (items (plug p t)).
Proof.
  intros H Hp Hs Hend. assert (t = E \/ t <> E) as [-> | Ht] by (destruct t; [by left | by right]).
  - destruct Hend as [-> | Hc]; [| done]. cbn. by apply fixed_empty.
  - assert (Hr : exists n, rbt (blacken t) n /\ pok p n).
    { destruct Hs as [(Hb & Hr & _) | (_ & Hr & _)]; [| by exists (S k)].
      destruct Hend as [-> | Hc]; [| apply rcol_black in Hb; by rewrite Hb in Hc].
      apply rbt_blacken in Hr as [n Hr]. by exists n. }
    destruct Hr as (n & Hr & Hpn). by eapply fixed_focus.
Qed.

Lemma sibling_ne m f p t rest : rep m (f :: p) t rest -> f_sib f <> E ->
  (if bool_decide (addr t = left (el (f_dir f) (f_info f) (addr t) (addr (f_sib f)))) then L else R) = f_dir f.
Proof.
  intros H Hs. destruct (f_dir f) eqn:Ed; cbn; [by rewrite bool_decide_true |].
  rewrite bool_decide_false; [done |]. apply (proj1 (rep_up _ _ _ _ _)) in H. unfold plug1 in H.
  rewrite Ed in H. rewrite <- (nd_opp R) in H. intros Heq. by apply (rep_children _ _ _ _ _ _ _ H).
Qed.

Lemma black_children d i x y k : is_black (nd d i x y) -> rbt (nd d i x y) (S k) -> rbt x k /\ rbt y k.
Proof.
  rewrite is_black_nd. intros Hb [(Hc & _) | (_ & n & [= <-] & ? & ?)]%rbt_nd_inv; [by rewrite Hb in Hc | done].
Qed.

(** Both children of the sibling are black: it becomes red and the parent is the next focus. *)
Lemma delete_recolour m p p1 d par wi t near far k rest fuel :
  rep m p (nd d par t (nd d wi near far)) rest -> rbt t k -> is_black t -> is_black near -> is_black far ->
  rbt near k -> rbt far k -> above par p (S k) -> i_col par = RED \/ p = p1 ->
  (length p1 < fuel)%nat -> (length (plinks p1) < MAX_TREE_HEIGHT)%nat ->
  exists m' t' k', set_colour m (i_addr wi) RED = Some m' /\ rep m' p t' rest /\ addr t' = i_addr par /\
    pok p (S k') /\ short fuel p t' k' /\ items (plug p t') = items (plug p (nd d par t (nd d wi near far))).
Proof.
  intros H Ht Hb Hbn Hbf Hn Hfar Hab Hcase Hf Hlen. apply rep_lower in H.
  apply set_colour_rep with (c := RED) in H as (m' & E1 & H). apply rep_lift in H.
  assert (Hw : rbt (nd d (recol wi RED) near far) k) by (by apply rbt_nd_R).
  assert (Hi : items (plug p (nd d par t (nd d (recol wi RED) near far))) = items (plug p (nd d par t (nd d wi near far))))
    by (apply items_plug; destruct d; solve_items).
  exists m', (nd d par t (nd d (recol wi RED) near far)). destruct Hab as [[Hc Hp] | (Hc & Htop & Hp)].
  - exists (S k). split_and!; [done | done | apply addr_nd | done | left | done].
    destruct Hcase as [Hr | ->]; [by rewrite Hc in Hr |]. split_and!; [by apply is_black_nd | by apply rbt_nd_B | done | done].
  - exists k. split_and!; [done | done | apply addr_nd | done | right | done].
    split_and!; [by destruct d | rewrite blacken_nd; by apply rbt_nd_B | lia].
Qed.

Lemma delete_loop_spec fuel : forall m p t k rest,
  rep m p t rest -> pok p (S k) -> short fuel p t k ->
  exists m' x, delete_loop fuel m (plinks p) (addr t) = Some (m', x) /\ fixed m' x rest (items (plug p t)).
Proof.
  induction fuel as [| fuel IH]; intros m p t k rest H Hp Hs; [destruct Hs; lia |]. cbn [delete_loop].
  destruct (rep_root_el _ _ _ _ H) as (xe & -> & Hxe). cbn [mbind option_bind]. rewrite Hxe.
  destruct p as [| f p1].
  { assert (Hroot : addr t = root m) by (destruct H as [_ ->]; done). rewrite (bool_decide_false (_ <> _)) by tauto.
    exists m, (addr t). split; [done |]. eapply delete_loop_end; [done.. | by left]. }
  rewrite bool_decide_true by (by eapply rep_not_root). destruct (decide (rcol t = RED)) as [Hred | Hblack].
  { rewrite bool_decide_false by (by rewrite Hred). exists m, (addr t). split; [done |].
    eapply delete_loop_end; [done.. | by right]. }
  destruct Hs as [(Hb & Ht & Hf & Hlen) | (Hc & _)]; [| done]. rewrite bool_decide_true by (by apply rcol_black). cbn [andb].
  pose proof (proj1 (rep_up _ _ _ _ _) H) as H1. destruct (plinks_head p1) as (lk & Hlk & Hhd).
  change (plinks (f :: p1) !! 1%nat) with (plinks p1 !! 0%nat). rewrite Hlk. cbn [mbind option_bind].
  rewrite (get_link_rep _ _ _ _ _ H1 Hhd), addr_plug1. cbn [mbind option_bind].
  pose proof (rep_focus _ _ _ _ _ _ _ H1) as Ef. fold (f_addr f) in Ef. rewrite Ef. cbn [mbind option_bind]. cbv zeta.
  assert (Hsib : f_sib f <> E). { destruct Hp as [Hsib _]. intros HE. rewrite HE in Hsib. inversion Hsib. }
  rewrite (sibling_ne _ _ _ _ _ H Hsib), (proj2 (child_el _ _ _ _)). destruct f as [d par w]. cbn [f_dir f_info f_sib f_addr] in *.
  destruct (delete_red_sibling_spec _ _ _ _ _ _ _ _ _ H Hhd Hp Hlen) as (m1 & p2 & par2 & w2 & E2 & Ha & H2 & Hp2 & Hw2 & Hcase & Hitems).
  unfold f_addr. cbn [f_info]. rewrite E2. cbn [mbind option_bind]. clear E2. rewrite <- Hitems, <- Ha.
  destruct Hp2 as [Hw Hpar]. cbn [f_sib f_info] in Hw, Hpar. destruct w2 as [| wi l r]; [inversion Hw |].
  destruct (nd_view d wi l r) as (near & far & Ev). rewrite Ev in *. clear Ev l r.
  destruct (black_children _ _ _ _ _ Hw2 Hw) as [Hnear Hfar].
  pose proof (proj1 (rep_up _ _ _ _ _) H2) as H3. unfold plug1 in H3. cbn [f_dir f_info f_sib] in H3.
  pose proof (rep_lower _ _ _ _ _ _ _ H3) as H4. rewrite addr_nd, (rep_focus _ _ _ _ _ _ _ H4). cbn [mbind option_bind].
  rewrite (proj1 (child_el _ _ _ _)), (proj2 (child_el _ _ _ _)).
  destruct (rep_root_el _ _ _ _ (proj1 (rep_down _ _ _ _ _ _ _) H4)) as (ne & -> & Hne). cbn [mbind option_bind].
  destruct (rep_root_el _ _ _ _ (rep_lower _ _ _ _ _ _ _ H4)) as (fe & -> & Hfe). cbn [mbind option_bind]. rewrite Hne, Hfe.
  assert (Hab : above par2 p2 (S k)) by (destruct Hpar as [? | (? & _ & ?)]; [by left | by right]).
  cbn [length] in Hf. unfold plinks in Hlen. cbn in Hlen. fold (plinks p1) in Hlen.
  destruct (decide (rcol near = BLACK /\ rcol far = BLACK)) as [[Hbn Hbf] | Hred].
  - rewrite !bool_decide_true by done. cbn [andb].
    destruct (delete_recolour m1 p2 p1 d par2 wi t near far k rest fuel)
      as (m2 & t' & k' & -> & H5 & Ha' & Hp5 & Hs5 & Hi5); try done; [by apply rcol_black.. | lia | lia |].
    cbn [mbind option_bind]. rewrite <- Ha'. destruct (IH _ _ _ _ _ H5 Hp5 Hs5) as (m' & x & E5 & Hfix).
    exists m', x. split; [exact E5 |]. rewrite Hi5 in Hfix. exact Hfix.
  - destruct (plinks_head p2) as (lk2 & Hlk2 & Hhd2).
    replace (bool_decide (rcol near = BLACK) && bool_decide (rcol far = BLACK)) with false
      by (rewrite <- bool_decide_and; by rewrite bool_decide_false).
    change (plinks (_ :: p2) !! 1%nat) with (plinks p2 !! 0%nat). rewrite Hlk2. cbn [mbind option_bind].
    destruct (delete_rotate_spec _ _ _ _ _ _ _ _ k _ _ H3 Hhd2) as (m' & -> & Hreb); [done.. | by rewrite <- !rcol_black | done |].
    cbn [mbind option_bind]. exists m', (root m'). split; [done |]. by apply fixed_root.
Qed.

Lemma rb_delete_fixup_spec m p t k rest :
  rep m p t rest -> pok p (S k) -> rbt t k -> (length (plinks p) < MAX_TREE_HEIGHT)%nat ->
  exists m' t' n, rb_delete_fixup m (plinks p) = Some m' /\ rep m' [] t' rest /\ items t' = items (plug p t) /\
    rbt t' n /\ is_black t'.
Proof.
  intros H Hp Ht Hlen. unfold rb_delete_fixup. destruct (plinks_head p) as (lk & -> & Hhd). cbn [mbind option_bind].
  rewrite (get_link_rep _ _ _ _ _ H Hhd). cbn [mbind option_bind].
  destruct (delete_loop_spec (S (length (plinks p))) _ _ _ _ _ H Hp) as (m1 & x & -> & m' & t' & n & E1 & Hrest).
  { destruct (rbt_colour _ _ Ht) as [Hc | Hc]; [right | left].
    - split_and!; [done | | lia]. destruct t as [| i l r]; [done |]. cbn in Hc |- *.
      inversion Ht as [| | ? ? ? ? Hc']; subst; [by constructor | by rewrite Hc in Hc'].
    - split_and!; [by apply rcol_black | done | | done]. unfold plinks. rewrite length_app, length_fmap. lia. }
  cbn [mbind option_bind]. by exists m', t', n.
Qed.

End TreeDelete.
