(* ===== verification/TreeOps.v ===== *)
(** * TreeOps: paths into a tree, and unlinking an element

    The elements before and after the focus, the bounds on the height of a red-black tree, the
    walk to the leftmost element and the three ways in which [tree_delete] unlinks an
    element. *)
From stdpp Require Import base tactics option sets list numbers gmap.
From Stdlib Require Import ZArith Lia.
From S2P Require Import Prelude.
From S2P Require Import Tree.
From S2P Require Import TreeRep.
From S2P Require Import TreeInsert.
From S2P Require Import TreeDelete.

Module TreeOps.
Import Tree TreeRep TreeInsert TreeDelete.

(** ** Before and after the focus *)

Fixpoint pre (p : path) : list (Z * Z * Z) :=
  match p with
  | [] => []
  | f :: p => pre p ++ match f_dir f with L => [] | R => items (f_sib f) ++ [item (f_info f)] end
  end.

Fixpoint post (p : path) : list (Z * Z * Z) :=
  match p with
  | [] => []
  | f :: p => match f_dir f with L => item (f_info f) :: items (f_sib f) | R => [] end ++ post p
  end.

Lemma items_pre_post p : forall t, items (plug p t) = pre p ++ items t ++ post p.
Proof.
  induction p as [| f p IH]; intros t; cbn; [by rewrite app_nil_r |]. fold (plug p (plug1 f t)). rewrite IH. unfold plug1.
  destruct (f_dir f); cbn; rewrite <- ?app_assoc; cbn; rewrite <- ?app_assoc; done.
Qed.

Lemma pre_app p q : pre (p ++ q) = pre q ++ pre p.
Proof. induction p as [| f p IH]; cbn; [by rewrite app_nil_r |]. by rewrite IH, app_assoc. Qed.

Lemma post_app p q : post (p ++ q) = post p ++ post q.
Proof. induction p as [| f p IH]; cbn; [done |]. by rewrite IH, app_assoc. Qed.

Lemma plug_app p q t : plug (p ++ q) t = plug q (plug p t).
Proof. apply foldl_app. Qed.

(** ** Going down a red-black tree *)

Lemma pok_down1 f p t n :
  rbt (plug1 f t) n -> pok p n -> is_black (plug1 f t) \/ top_black p ->
  exists k, rbt t k /\ pok (f :: p) k /\ (is_black t \/ top_black (f :: p)).
Proof.
  intros Ht Hp Hb. unfold plug1 in *. rewrite is_black_nd in Hb.
  apply rbt_nd_inv in Ht as [(Hc & Hbt & Hbs & Ht & Hs) | (Hc & k & -> & Ht & Hs)].
  - exists n. destruct Hb as [Hb | Hb]; [by rewrite Hc in Hb |]. split_and!; [done | | by left]. split; [done |]. by right.
  - exists k. split_and!; [done | | by right]. split; [done |]. by left.
Qed.

Lemma pok_down q : forall p t n,
  rbt (plug q t) n -> pok p n -> is_black (plug q t) \/ top_black p ->
  exists k, rbt t k /\ pok (q ++ p) k /\ (is_black t \/ top_black (q ++ p)).
Proof.
  induction q as [| f q IH] using rev_ind; intros p t n Ht Hp Hb; [by exists n |].
  rewrite plug_app in Ht, Hb. destruct (pok_down1 f p (plug q t) n Ht Hp Hb) as (k & Hk & Hpk & Hbk).
  rewrite <- app_assoc. by apply (IH (f :: p) t k).
Qed.

Lemma pok_same_colour q : forall d i j x p k,
  pok (q ++ mk_frame d i x :: p) k -> i_col j = i_col i -> pok (q ++ mk_frame d j x :: p) k.
Proof.
  induction q as [| f q IH]; intros d i j x p k Hp Hij; cbn in *; [by rewrite Hij |].
  destruct Hp as [Hs [[Hc Hp] | (Hc & Hsb & Htop & Hp)]]; (split; [done |]); [left | right].
  - split; [done | by eapply IH].
  - split_and!; [done | done | | by eapply IH]. destruct q; cbn in *; [by rewrite Hij | done].
Qed.

(** ** Height *)

Fixpoint height (t : T) : nat := match t with E => 0 | N _ l r => S (Nat.max (height l) (height r)) end.

Lemma rbt_height t n : rbt t n ->
  (height t <= 2 * n + 1)%nat /\ (is_black t -> (height t <= 2 * n)%nat).
Proof.
  induction 1 as [| i l r n Hc Hbl Hbr _ [_ IHl] _ [_ IHr] | i l r n Hc _ [IHl _] _ [IHr _]]; cbn [height is_black].
  - lia.
  - specialize (IHl Hbl). specialize (IHr Hbr). split; [lia |]. intros Hb. by rewrite Hc in Hb.
  - lia.
Qed.

Lemma rbt_size t n : rbt t n -> (2 ^ n <= S (length (items t)))%nat.
Proof.
  induction 1 as [| i l r n Hc Hbl Hbr _ IHl _ IHr | i l r n Hc _ IHl _ IHr]; cbn [items]; [done | |];
    rewrite !length_app; cbn [length Nat.pow]; lia.
Qed.

(** No path of a tree of a number of elements that fits the counter overflows the stack. *)
Lemma rbt_height_bound t n : rbt t n -> is_black t -> Z.of_nat (length (items t)) < 2 ^ 32 - 1 -> (height t <= 62)%nat.
Proof.
  intros Ht Hb Hlen. destruct (rbt_height t n Ht) as [_ Hh]. specialize (Hh Hb).
  pose proof (rbt_size t n Ht) as Hs. assert (n < 32)%nat; [| lia].
  apply Nat.nle_gt. intros Hn. apply (Nat.pow_le_mono_r 2) in Hn; [| lia]. apply inj_le in Hs, Hn.
  rewrite Nat2Z.inj_pow in Hn. cbn in Hn. lia.
Qed.

Lemma height_nd d i x y : height (nd d i x y) = S (Nat.max (height x) (height y)).
Proof. destruct d; cbn; lia. Qed.

Lemma rep_not_nil m p t rest : rep m p t rest -> addr t = NIL <-> t = E.
Proof.
  intros [[Hn _] _]. split; [| by intros ->]. destruct t as [| i l r]; [done |]. cbn [addr]. intros Hi.
  exfalso. eapply (nodup_apart [(NIL, null_element)]); [exact Hn | by left |].
  apply elem_of_app. right. cbn. rewrite Hi. by left.
Qed.

(** ** Unlinking *)

Lemma pnodes_app p q x : pnodes (p ++ q) x = pnodes p x ++ pnodes q (paddr p x).
Proof.
  revert x. induction p as [| f p IH]; intros x; [done |]. cbn [app pnodes]. by rewrite IH, paddr_cons, <- !app_assoc.
Qed.

Lemma paddr_app p q x : paddr (p ++ q) x = paddr q (paddr p x).
Proof.
  revert x. induction p as [| f p IH]; intros x; [done |]. cbn [app]. by rewrite !paddr_cons, IH.
Qed.

Lemma plinks_app p q : plinks (p ++ q) = ((fun f => Lchild (f_dir f) (f_addr f)) <$> p) ++ plinks q.
Proof. unfold plinks. by rewrite fmap_app, app_assoc. Qed.

Lemma length_plinks p : length (plinks p) = S (length p).
Proof. unfold plinks. rewrite length_app, length_fmap. cbn. lia. Qed.

Lemma push_plinks p d i x : (length p < 63)%nat ->
  push (plinks p) (Lchild d (i_addr i)) = Some (plinks (mk_frame d i x :: p)).
Proof. intros Hp. unfold push. rewrite length_plinks, bool_decide_true; [done |]. unfold MAX_TREE_HEIGHT. lia. Qed.

Lemma leftmost_spec t : forall fuel m p j s rest l,
  t = N j l s -> rep m p t rest -> (height t <= fuel)%nat -> (length p + height t <= 63)%nat ->
  exists q j' s', leftmost fuel m (plinks p) (i_addr j) = Some (plinks (q ++ p), i_addr j') /\
    rep m (q ++ p) (N j' E s') rest /\ plug q (N j' E s') = t /\ pre q = [] /\
    (length q + height (N j' E s') <= height t)%nat.
Proof.
  induction t as [| i l0 IH r _]; intros fuel m p j s rest l Ht H Hf Hlen; [done |]. injection Ht as -> -> ->.
  destruct fuel as [| fuel]; [cbn in Hf; lia |]. cbn [leftmost].
  rewrite (rep_focus m p L j l s rest H). cbn [mbind option_bind el element left].
  pose proof (proj1 (rep_down _ _ L _ _ _ _) H) as Hd. pose proof (rep_not_nil _ _ _ _ Hd) as Hnil.
  destruct l as [| i2 l2 r2].
  - rewrite bool_decide_false by (intros Hc; by apply Hc). exists [], j, s. by split_and!.
  - rewrite bool_decide_true by (intros Hc; by apply Hnil in Hc).
    cbn [height] in Hf, Hlen. rewrite (push_plinks p L j s) by lia. cbn [mbind option_bind addr].
    destruct (IH fuel m _ i2 r2 rest l2 eq_refl Hd) as (q & j' & s' & E1 & H1 & Hplug & Hpre & Hh); [cbn; lia.. |].
    exists (q ++ [mk_frame L j s]), j', s'. rewrite <- app_assoc. split_and!; [done | done | | |].
    + rewrite plug_app, Hplug. done.
    + rewrite pre_app, Hpre. done.
    + rewrite length_app. cbn [height length] in Hh |- *. lia.
Qed.

(** What is left when an element with one child is unlinked. *)
Definition unlinked (p : path) (t : T) (c : Z) : Prop :=
  c = RED /\ (exists n, rbt t n /\ pok p n /\ is_black t) \/ c = BLACK /\ (exists k, rbt t k /\ pok p (S k)).

Lemma unlink_one d p i x n : rbt (nd d i x E) n -> pok p n -> unlinked p x (i_col i).
Proof.
  intros Ht Hp. apply rbt_nd_inv in Ht as [(Hc & Hb & _ & Hx & _) | (Hc & k & -> & Hx & _)].
  - left. split; [done |]. by exists n.
  - right. split; [done |]. by exists k.
Qed.

(** An element with at most one child is replaced by it. *)
Lemma unlink_replace m p d i x rest lk :
  rep m p (nd d i x E) rest -> head (plinks p) = Some lk ->
  exists m' e, set_link m lk (addr x) = Some m' /\ rep m' p x ((i_addr i, e) :: rest) /\ key e = i_key i.
Proof.
  intros [H1 H2] Hl. rewrite addr_nd in H1, H2.
  destruct (set_link_holds m p (i_addr i) (addr x) _ lk H1 H2 Hl) as (m' & E1 & Hh & Hroot).
  exists m', (el d i (addr x) NIL). split_and!; [done | | by destruct d]. split; [| done].
  revert Hh. apply holds_perm. rewrite nodes_nd. cbn [nodes addr]. solve_Permutation.
Qed.

(** An element with two children is replaced by the leftmost one on its right. *)
Lemma unlink_successor m p q i l j s rest lk lk1 :
  rep m (q ++ mk_frame R i l :: p) (N j E s) rest ->
  head (plinks (q ++ mk_frame R i l :: p)) = Some lk1 -> head (plinks p) = Some lk ->
  exists m1 m2 e, set_link m lk1 (addr s) = Some m1 /\ set_link m1 lk (i_addr j) = Some m2 /\
    heap m2 !! i_addr i = Some e /\ heap m2 !! i_addr j = Some (element j NIL (addr s)) /\
    rep (store_el m2 (i_addr j) (mk_el (left e) (right e) (i_cnt j) (colour e) (i_key j)))
      (q ++ mk_frame R (recol j (i_col i)) l :: p) s ((i_addr i, e) :: rest) /\ key e = i_key i.
Proof.
  intros [H1 H2] Hl1 Hl. cbn [addr] in H1, H2.
  destruct (set_link_holds m _ _ (addr s) _ lk1 H1 H2 Hl1) as (m1 & E1 & Hh & Hroot). exists m1.
  set (ie := el R i (paddr q (addr s)) (addr l)). set (je := element j NIL (addr s)).
  assert (Hh1 : holds (heap m1) ((NIL, null_element) :: pnodes p (i_addr i) ++ (i_addr i, ie) :: (i_addr j, je) ::
      pnodes q (addr s) ++ nodes l ++ nodes s ++ rest)).
  { revert Hh. apply holds_perm. rewrite pnodes_app. cbn [pnodes nodes f_addr f_info f_dir f_sib addr].
    subst ie je. unfold f_addr. cbn [f_info]. solve_Permutation. }
  rewrite paddr_app, paddr_cons in Hroot.
  destruct (set_link_holds m1 p (i_addr i) (i_addr j) _ lk Hh1 Hroot Hl) as (m2 & E2 & Hh2 & Hroot2). exists m2, ie.
  split_and!; [done | done | | | | done].
  - apply (holds_lookup _ _ _ _ Hh2). set_solver.
  - apply (holds_lookup _ _ _ _ Hh2). set_solver.
  - split; [| cbn [store_el root]; by rewrite paddr_app, paddr_cons].
    assert (Hh3 : holds (heap m2) ((i_addr j, je) :: (NIL, null_element) :: pnodes p (i_addr j) ++ (i_addr i, ie) ::
      pnodes q (addr s) ++ nodes l ++ nodes s ++ rest)) by (revert Hh2; apply holds_perm; solve_Permutation).
    cbn [store_el heap]. eapply holds_perm; [| eapply holds_update; exact Hh3].
    rewrite pnodes_app. cbn [pnodes f_dir f_sib f_info]. unfold f_addr. cbn [f_info recol i_addr]. subst ie. cbn.
    unfold element. cbn. solve_Permutation.
Qed.

(** The successor of an element with two children, and the stack. *)
Lemma unlink_two m p i l r n rest lk :
  rep m p (N i l r) rest -> head (plinks p) = Some lk -> r <> E ->
  rbt (N i l r) n -> pok p n -> is_black (N i l r) \/ top_black p ->
  (length p + height (N i l r) <= 62)%nat ->
  exists q j s lk1 m1 m2 e, leftmost MAX_TREE_HEIGHT m (plinks (mk_frame R i l :: p)) (addr r) =
      Some (plinks (q ++ mk_frame R i l :: p), i_addr j) /\ head (plinks (q ++ mk_frame R i l :: p)) = Some lk1 /\
    heap m !! i_addr j = Some (element j NIL (addr s)) /\
    set_link m lk1 (addr s) = Some m1 /\ set_link m1 lk (i_addr j) = Some m2 /\
    heap m2 !! i_addr i = Some e /\ heap m2 !! i_addr j = Some (element j NIL (addr s)) /\
    rep (store_el m2 (i_addr j) (mk_el (left e) (right e) (i_cnt j) (colour e) (i_key j)))
      (q ++ mk_frame R (recol j (i_col i)) l :: p) s ((i_addr i, e) :: rest) /\ key e = i_key i /\
    unlinked (q ++ mk_frame R (recol j (i_col i)) l :: p) s (i_col j) /\
    (length (q ++ mk_frame R (recol j (i_col i)) l :: p) <= 62)%nat /\
    items (plug (q ++ mk_frame R (recol j (i_col i)) l :: p) s) = pre p ++ items l ++ items r ++ post p.
Proof.
  intros H Hl Hr Ht Hp Hb Hlen. cbn [height] in Hlen. pose proof (rep_lower _ _ L _ _ _ _ H) as Hd. cbn [opp] in Hd.
  destruct r as [| ri rl rr]; [done |].
  destruct (leftmost_spec (N ri rl rr) MAX_TREE_HEIGHT m _ ri rr rest rl eq_refl Hd) as (q & j & s & E1 & H1 & Hplug & Hpre & Hh);
    [unfold MAX_TREE_HEIGHT; lia | cbn [length]; lia |].
  destruct (plinks_head (q ++ mk_frame R i l :: p)) as (lk1 & _ & Hl1).
  destruct (unlink_successor _ _ _ _ _ _ _ _ _ _ H1 Hl1 Hl) as (m1 & m2 & e & E2 & E3 & Hi & Hj & H2 & Hk).
  exists q, j, s, lk1, m1, m2, e. split_and!; [done | done | | done | done | done | done | done | done | | |].
  - apply (rep_focus _ _ L) in H1. exact H1.
  - destruct (pok_down (q ++ [mk_frame R i l]) p (N j E s) n) as (k & Hk1 & Hp1 & _).
    { by rewrite plug_app, Hplug. } { done. } { by rewrite plug_app, Hplug. }
    rewrite <- app_assoc in Hp1. apply (unlink_one R _ _ _ k); [done |]. by eapply pok_same_colour.
  - rewrite length_app. cbn [length height] in *. lia.
  - rewrite items_pre_post, pre_app, post_app, Hpre, <- Hplug, items_pre_post, Hpre. cbn [pre post f_dir f_sib f_info items app].
    rewrite app_nil_r, <- !app_assoc. done.
Qed.

Lemma unlink_element_spec m p i l r n rest :
  rep m p (N i l r) rest -> rbt (N i l r) n -> pok p n -> is_black (N i l r) \/ top_black p ->
  (length p + height (N i l r) <= 62)%nat ->
  exists m' p' t' c e, unlink_element m (plinks p) (i_addr i) = Some (m', plinks p', c) /\
    rep m' p' t' ((i_addr i, e) :: rest) /\ key e = i_key i /\ unlinked p' t' c /\ (length p' <= 62)%nat /\
    items (plug p' t') = pre p ++ items l ++ items r ++ post p.
Proof.
  intros H Ht Hp Hb Hlen. unfold unlink_element. destruct (plinks_head p) as (lk & _ & Hl).
  rewrite (rep_focus m p L i l r rest H). cbn [mbind option_bind el element left right colour]. rewrite Hl. cbn [mbind option_bind].
  pose proof (rep_not_nil _ _ _ _ (proj1 (rep_down _ _ L _ _ _ _) H)) as Hnl.
  pose proof (rep_not_nil _ _ _ _ (rep_lower _ _ L _ _ _ _ H)) as Hnr.
  destruct l as [| li ll lr]; [| rewrite bool_decide_false by (intros Hc; by apply Hnl in Hc); destruct r as [| ri rl rr]].
  - cbn [addr]. rewrite bool_decide_true by done.
    destruct (unlink_replace m p R i r rest lk H Hl) as (m' & e & -> & H' & Hk). cbn [mbind option_bind].
    exists m', p, r, (i_col i), e. split_and!; [done | done | done | by apply (unlink_one R _ _ _ n) | lia | by rewrite items_pre_post].
  - rewrite bool_decide_true by done.
    destruct (unlink_replace m p L i _ rest lk H Hl) as (m' & e & -> & H' & Hk). cbn [mbind option_bind].
    exists m', p, (N li ll lr), (i_col i), e.
    split_and!; [done | done | done | by apply (unlink_one L _ _ _ n) | lia | by rewrite items_pre_post].
  - rewrite bool_decide_false by (intros Hc; by apply Hnr in Hc). cbv zeta.
    rewrite (push_plinks p R i (N li ll lr)) by (cbn in Hlen; lia). cbn [mbind option_bind].
    destruct (unlink_two m p i _ _ n rest lk H Hl (fun Hc => ltac:(discriminate Hc)) Ht Hp Hb Hlen)
      as (q & j & s & lk1 & m1 & m2 & e & -> & E1 & Hj & E2 & E3 & Hi2 & Hj2 & H2 & Hk & Hu & Hlen2 & Hitems).
    cbn [mbind option_bind]. rewrite E1. cbn [mbind option_bind]. rewrite Hj. cbn [mbind option_bind element right colour].
    rewrite E2. cbn [mbind option_bind]. rewrite E3. cbn [mbind option_bind]. rewrite Hi2. cbn [mbind option_bind].
    rewrite Hj2. cbn [mbind option_bind element count key].
    eexists _, _, s, (i_col j), e. split_and!; [| exact H2 | done | done | done | done].
    do 2 f_equal. rewrite !plinks_app, length_app, length_fmap. rewrite plinks_cons. cbn [length]. rewrite !length_plinks.
    replace (length q + S (S (length p)) - S (length p) - 1)%nat with (length q) by lia. f_equal.
    rewrite insert_app_r_alt by (by rewrite length_fmap). rewrite length_fmap, Nat.sub_diag. done.
Qed.

End TreeOps.
