(* ===== verification/TreeProps.v ===== *)
(** * TreeProps: the tree as an ordered list

    The contract of [mysys/tree.c]: a tree stands for the list of its elements in the
    order of the comparison function; [tree_insert], [tree_delete], [tree_search],
    [tree_walk] and [free_tree] are operations on that list, the tree stays balanced
    and the stack of links is never too small. *)
From stdpp Require Import base tactics option sets list numbers gmap.
From Stdlib Require Import ZArith Lia Sorting.Sorted.
From S2P Require Import Prelude.
From S2P Require Import Tree.
From S2P Require Import TreeRep.
From S2P Require Import TreeInsert.
From S2P Require Import TreeDelete.
From S2P Require Import TreeOps.

Module TreeProps.
Import Tree TreeRep TreeInsert TreeDelete TreeOps.

(** An element of the list: address, count and key. *)
Definition it_addr (x : Z * Z * Z) : Z := x.1.1.
Definition it_count (x : Z * Z * Z) : Z := x.1.2.
Definition it_key (x : Z * Z * Z) : Z := x.2.

(** What a comparison function promises: a total preorder. *)
Class Comparison (compare : Z -> Z -> Z) := {
  cmp_refl a : compare a a = 0;
  cmp_swap a b : compare a b < 0 <-> 0 < compare b a;
  cmp_trans a b c : compare a b <= 0 -> compare b c < 0 -> compare a c < 0;
}.

Section Ops.
Context (compare : Z -> Z -> Z) `{!Comparison compare}.

Definition sorted (l : list (Z * Z * Z)) : Prop := StronglySorted (fun x y => compare (it_key x) (it_key y) < 0) l.

(** ** Lists in order *)

Definition bump (x : Z * Z * Z) : Z * Z * Z := (it_addr x, Z.min (it_count x + 1) (2 ^ 31 - 1), it_key x).

(** The specification of an insertion of [k] at address [a]. *)
Fixpoint ordered_insert (a k : Z) (l : list (Z * Z * Z)) : list (Z * Z * Z) :=
  match l with
  | [] => [(a, 1, k)]
  | x :: l =>
      let c := compare (it_key x) k in
      if bool_decide (c < 0) then x :: ordered_insert a k l
      else if bool_decide (c = 0) then bump x :: l
      else (a, 1, k) :: x :: l
  end.

Definition below (k : Z) (x : Z * Z * Z) : Prop := compare (it_key x) k < 0.
Definition beyond (k : Z) (x : Z * Z * Z) : Prop := 0 < compare (it_key x) k.

Lemma sorted_app l1 l2 : sorted (l1 ++ l2) <->
  sorted l1 /\ sorted l2 /\ forall x y, x ∈ l1 -> y ∈ l2 -> compare (it_key x) (it_key y) < 0.
Proof.
  unfold sorted. induction l1 as [| z l1 IH]; cbn.
  - split; [intros H; split_and!; [constructor | done | set_solver] | tauto].
  - split.
    + inversion 1 as [| ? ? H1 H2]; subst. apply IH in H1 as (H3 & H4 & H5). apply Forall_app in H2 as [H6 H7].
      split_and!; [by constructor | done |]. intros x y [-> | Hx]%elem_of_cons Hy; [| by apply H5].
      rewrite Forall_forall in H7. by apply H7.
    + intros (H1 & H2 & H3). inversion H1 as [| ? ? H4 H5]; subst. constructor.
      * apply IH. split_and!; [done | done |]. intros x y Hx Hy. apply H3; [by right | done].
      * apply Forall_app. split; [done |]. apply Forall_forall. intros y Hy. apply H3; [by left | done].
Qed.

Lemma ordered_insert_new a k l1 l2 :
  Forall (below k) l1 -> Forall (beyond k) l2 -> ordered_insert a k (l1 ++ l2) = l1 ++ (a, 1, k) :: l2.
Proof.
  induction 1 as [| x l1 Hx _ IH]; intros H2; cbn.
  - destruct H2 as [| y l2 Hy]; [done |]. cbn. unfold beyond in Hy.
    rewrite bool_decide_false by lia. by rewrite bool_decide_false by lia.
  - rewrite bool_decide_true by done. by rewrite IH.
Qed.

Lemma ordered_insert_old a k l1 x l2 :
  Forall (below k) l1 -> compare (it_key x) k = 0 -> ordered_insert a k (l1 ++ x :: l2) = l1 ++ bump x :: l2.
Proof.
  intros H1 Hx. induction H1 as [| y l1 Hy _ IH]; cbn.
  - rewrite bool_decide_false by lia. by rewrite bool_decide_true.
  - rewrite bool_decide_true by done. by rewrite IH.
Qed.

(** ** The descent *)

Lemma cmp_trans_r a b c : compare a b < 0 -> compare b c <= 0 -> compare a c < 0.
Proof.
  intros H1 H2. apply Z.nle_gt. intros H3. pose proof (cmp_swap a c). pose proof (cmp_swap c a). pose proof (cmp_swap b c). pose proof (cmp_swap c b).
  assert (compare c b < 0) by (apply (cmp_trans c a b); lia). lia.
Qed.

Lemma below_trans x y k : compare (it_key x) (it_key y) < 0 -> below k y -> below k x.
Proof. intros H1 H2. eapply cmp_trans; [| exact H2]. lia. Qed.

Lemma beyond_trans x y k : compare (it_key x) (it_key y) < 0 -> beyond k x -> beyond k y.
Proof.
  unfold beyond. rewrite <- !cmp_swap. intros H1 H2. eapply cmp_trans; [| exact H1]. lia.
Qed.

Lemma below_items k l x r : sorted (items l ++ [item x] ++ items r) -> below k (item x) -> Forall (below k) (items l ++ [item x]).
Proof.
  intros (H1 & H2 & H3)%sorted_app Hx. apply Forall_app. split; [| by repeat constructor].
  apply Forall_forall. intros y Hy. eapply below_trans; [| exact Hx]. apply H3; [done | by left].
Qed.

Lemma beyond_items k l x r : sorted (items l ++ [item x] ++ items r) -> beyond k (item x) -> Forall (beyond k) (item x :: items r).
Proof.
  intros (H1 & H2 & H3)%sorted_app Hx. constructor; [done |]. inversion H2 as [| ? ? _ H4]; subst.
  apply Forall_forall. intros y Hy. rewrite Forall_forall in H4. eapply beyond_trans; [| exact Hx]. by apply H4.
Qed.

(** Where the descent stops: at an equal element or at the empty place for [k]. *)
Definition stops (k : Z) (p : path) (t : T) : Prop :=
  Forall (below k) (pre p) /\ Forall (beyond k) (post p) /\
  match t with E => True | N i _ _ => compare (i_key i) k = 0 end.

Lemma descend_spec k t : forall fuel m p rest,
  rep m p t rest -> sorted (items t) -> (height t < fuel)%nat -> (length p + height t <= 63)%nat ->
  exists q t', descend compare fuel m (plinks p) (addr t) k = Some (plinks (q ++ p), addr t') /\
    rep m (q ++ p) t' rest /\ plug q t' = t /\ (length q + height t' <= height t)%nat /\ stops k q t'.
Proof.
  induction t as [| i l IHl r IHr]; intros fuel m p rest H Hs Hf Hlen; (destruct fuel as [| fuel]; [cbn in Hf; lia |]); cbn [descend].
  { rewrite bool_decide_true by done. exists [], E. split_and!; done || by repeat constructor. }
  rewrite bool_decide_false by (intros Hc; by apply (rep_not_nil _ _ _ _ H) in Hc).
  cbn [addr]. rewrite (rep_focus m p L i l r rest H). cbn [mbind option_bind el element key]. cbv zeta. cbn [items] in Hs. cbn [height] in Hf, Hlen.
  destruct (decide (compare (i_key i) k = 0)) as [Hz | Hnz].
  { rewrite bool_decide_true by done. exists [], (N i l r). split_and!; done || by repeat constructor. }
  rewrite bool_decide_false by done. destruct (decide (compare (i_key i) k < 0)) as [Hneg | Hpos].
  - rewrite bool_decide_true by done. rewrite (push_plinks p R i l) by lia. cbn [mbind option_bind child element right].
    destruct (IHr fuel m (mk_frame R i l :: p) rest) as (q & t' & E1 & H1 & Hplug & Hh & Hpre & Hpost & Heq);
      [by apply (rep_lower _ _ L) | apply sorted_app in Hs as (_ & Hs & _); by inversion Hs | lia | cbn; lia |].
    exists (q ++ [mk_frame R i l]), t'. rewrite <- app_assoc. split_and!; [done | done | by rewrite plug_app, Hplug | rewrite length_app; cbn; lia |].
    split; [| split]; [| by rewrite post_app; cbn; rewrite app_nil_r | done].
    rewrite pre_app. apply Forall_app. split; [| done]. cbn. by eapply below_items.
  - rewrite bool_decide_false by done. rewrite (push_plinks p L i r) by lia. cbn [mbind option_bind child element left].
    destruct (IHl fuel m (mk_frame L i r :: p) rest) as (q & t' & E1 & H1 & Hplug & Hh & Hpre & Hpost & Heq);
      [by apply (rep_down _ _ L) | apply sorted_app in Hs as (Hs & _); done | lia | cbn; lia |].
    exists (q ++ [mk_frame L i r]), t'. rewrite <- app_assoc. split_and!; [done | done | by rewrite plug_app, Hplug | rewrite length_app; cbn; lia |].
    split; [| split]; [by rewrite pre_app | | done].
    rewrite post_app. apply Forall_app. split; [done |]. cbn. rewrite app_nil_r.
    eapply beyond_items; [exact Hs |]. unfold beyond, it_key, item. cbn. lia.
Qed.

(** ** The tree and its list *)

Record tree_ok (t : TREE) (l : list (Z * Z * Z)) : Prop := mk_ok {
  ok_tree : exists T n, rep (tmem t) [] T [] /\ rbt T n /\ is_black T /\ items T = l;
  ok_sorted : sorted l;
  ok_items : Forall (fun x => it_addr x <> 0 /\ 1 <= it_count x < 2 ^ 31) l;
  ok_length : elements_in_tree t = Z.of_nat (length l);
}.

Lemma holds_size h l : holds h l -> (length l <= size h)%nat.
Proof.
  intros [H1 H2]. rewrite <- size_dom. rewrite <- (length_fmap fst l), <- (size_list_to_set (C := gset Z) l.*1) by done.
  apply subseteq_size. intros a ([b e] & -> & Hb)%elem_of_list_to_set%list_elem_of_fmap. apply elem_of_dom. eauto.
Qed.

Lemma height_size m p T rest : rep m p T rest -> (height T < size (heap m))%nat.
Proof.
  intros [H _]. apply holds_size in H. cbn in H. rewrite !length_app in H.
  assert (height T <= length (nodes T))%nat; [| lia]. clear. induction T as [| i l IHl r IHr]; [done |]. cbn. rewrite length_app. lia.
Qed.

Lemma root_addr m T rest : rep m [] T rest -> root m = addr T.
Proof. by intros [_ ->]. Qed.

Lemma addr_nonzero T : Forall (fun x => it_addr x <> 0 /\ 1 <= it_count x < 2 ^ 31) (items T) -> addr T <> 0.
Proof.
  destruct T as [| i l r]; [done |]. cbn [items]. intros (_ & H)%Forall_app. apply Forall_cons_1 in H as [H _]. apply H.
Qed.

(** ** Search *)

Lemma search_loop_spec k T : forall fuel m p rest,
  rep m p T rest -> sorted (items T) -> (height T < fuel)%nat ->
  exists r, search_loop compare fuel m (addr T) k = Some r /\
    match r with
    | Some k' => exists x, x ∈ items T /\ it_key x = k' /\ compare k' k = 0
    | None => forall x, x ∈ items T -> compare (it_key x) k <> 0
    end.
Proof.
  induction T as [| i l IHl r IHr]; intros fuel m p rest H Hs Hf; (destruct fuel as [| fuel]; [cbn in Hf; lia |]); cbn [search_loop].
  { rewrite bool_decide_true by done. exists None. split; [done |]. set_solver. }
  rewrite bool_decide_false by (intros Hc; by apply (rep_not_nil _ _ _ _ H) in Hc).
  cbn [addr]. rewrite (rep_focus m p L i l r rest H). cbn [mbind option_bind el element key left right]. cbv zeta. cbn [items height] in *.
  pose proof (proj1 (sorted_app _ _) Hs) as (Hsl & Hsr & _). apply StronglySorted_inv in Hsr as [Hsr _].
  destruct (decide (compare (i_key i) k = 0)) as [Hz | Hnz].
  { rewrite bool_decide_true by done. eexists. split; [done |]. exists (item i). split; [set_solver | done]. }
  rewrite bool_decide_false by done. destruct (decide (compare (i_key i) k < 0)) as [Hneg | Hpos].
  - rewrite bool_decide_true by done. destruct (IHr fuel m _ rest (rep_lower _ _ L _ _ _ _ H) Hsr) as (o & E1 & Ho); [lia |].
    exists o. split; [done |]. destruct o as [k' |]; [set_solver |]. pose proof (below_items k l i r Hs Hneg) as Hb.
    rewrite Forall_forall in Hb. intros x [Hx | [Hx | Hx]%elem_of_app]%elem_of_app; [..| by apply Ho];
      assert (below k x) as Hk by (apply Hb; set_solver); unfold below in Hk; lia.
  - rewrite bool_decide_false by done. destruct (IHl fuel m _ rest (proj1 (rep_down _ _ L _ _ _ _) H) Hsl) as (o & E1 & Ho); [lia |].
    exists o. split; [done |]. destruct o as [k' |]; [set_solver |].
    pose proof (beyond_items k l i r Hs ltac:(unfold beyond, it_key; cbn; lia)) as Hb.
    rewrite Forall_forall in Hb. intros x [Hx | Hx]%elem_of_app; [by apply Ho |].
    assert (beyond k x) as Hk by (apply Hb; set_solver). unfold beyond in Hk. lia.
Qed.

(** ** Insertion *)

Lemma set_link_none m lk x m' a : set_link m lk x = Some m' -> heap m !! a = None -> heap m' !! a = None.
Proof.
  destruct lk as [| d b]; cbn; [by intros [= <-] |]. destruct (heap m !! b) eqn:Eb; [| done]. cbn [mbind option_bind].
  intros [= <-] Ha. cbn. rewrite lookup_insert_ne; [done |]. intros ->. by rewrite Ha in Eb.
Qed.

Lemma new_leaf m q a k rest lk :
  rep m q E rest -> head (plinks q) = Some lk -> heap m !! a = None ->
  exists m1, set_link m lk a = Some m1 /\ rep (store_el m1 a (mk_el NIL NIL 1 0 k)) q (N (mk_info a 0 1 k) E E) rest.
Proof.
  intros [H1 H2] Hl Ha. destruct (set_link_holds m q NIL a _ lk H1 H2 Hl) as (m1 & E1 & Hh & Hroot). exists m1. split; [done |].
  split; [| done]. eapply holds_perm; [| eapply holds_new; [exact Hh | by eapply set_link_none]].
  cbn. solve_Permutation.
Qed.

Lemma sorted_insert a k l1 l2 :
  sorted (l1 ++ l2) -> Forall (below k) l1 -> Forall (beyond k) l2 -> sorted (l1 ++ (a, 1, k) :: l2).
Proof.
  intros (H1 & H2 & H3)%sorted_app Hb1 Hb2. rewrite Forall_forall in Hb1, Hb2. apply sorted_app. split_and!; [done | |].
  - constructor; [done |]. apply Forall_forall. intros y Hy. apply cmp_swap. by apply Hb2.
  - intros x y Hx [-> | Hy]%elem_of_cons; [by apply Hb1 | by apply H3].
Qed.

(** The address of a new element is not in use. *)
Definition allocator (malloc : Z -> gmap Z TREE_ELEMENT -> option Z) : Prop :=
  forall n h a, malloc n h = Some a -> h !! a = None /\ a <> 0.

Lemma insert_new_spec malloc t l T n q k ks alloc :
  allocator malloc -> tree_ok t l -> rep (tmem t) q E [] -> plug q E = T -> items T = l -> rbt T n -> is_black T -> stops k q E ->
  Z.of_nat (length l) < 2 ^ 32 - 1 ->
  exists r t', insert_new malloc t (plinks q) k ks alloc = Some (r, t') /\ malloc alloc (heap (tmem t)) = r /\
    match r with None => t' = t | Some a => tree_ok t' (ordered_insert a k l) end.
Proof.
  intros Hal Hok H Hplug Hitems Hr Hb (Hpre & Hpost & _) Hlen. unfold insert_new.
  destruct (malloc alloc (heap (tmem t))) as [a |] eqn:Em; [| by eexists _, _].
  apply Hal in Em as [Ha Ha0]. destruct (plinks_head q) as (lk & _ & Hl). rewrite Hl. cbn [mbind option_bind].
  destruct (new_leaf _ _ a k _ _ H Hl Ha) as (m1 & -> & H1). cbn [mbind option_bind].
  destruct (pok_down q [] E n) as (n0 & Hn0 & Hp & _); [by rewrite Hplug | done | left; by rewrite Hplug |].
  inversion Hn0; subst n0. rewrite app_nil_r in Hp.
  destruct (rb_insert_spec _ _ _ _ H1 Hp) as (m2 & T2 & n2 & E2 & H2 & Hi2 & Hr2 & Hb2). cbn [i_addr] in E2.
  rewrite E2. cbn [mbind option_bind]. eexists _, _. split_and!; [done | done |].
  assert (Hl2 : l = pre q ++ post q) by (rewrite <- Hitems, <- Hplug, items_pre_post; done).
  assert (Hins : ordered_insert a k l = pre q ++ (a, 1, k) :: post q) by (rewrite Hl2; by apply ordered_insert_new).
  destruct Hok as [_ Hs Hf Hcnt]. rewrite Hins. split.
  - exists T2, n2. split_and!; [done.. |]. rewrite Hi2, items_pre_post. done.
  - apply sorted_insert; [by rewrite <- Hl2 | done | done].
  - rewrite Hl2 in Hf. apply Forall_app in Hf as [Hf1 Hf2]. apply Forall_app. split; [done |]. constructor; [| done].
    cbn. lia.
  - cbn. rewrite Hcnt. rewrite Hl2 in Hlen |- *. rewrite !length_app in *. cbn [length]. rewrite uwrap_small; lia.
Qed.

(** ** Freeing all elements *)

Definition free_calls (t : TREE) (l : list (Z * Z * Z)) : list free_call :=
  let calls := (fun x => free_free (it_key x)) <$> l in
  if free t then
    if negb (with_delete t) && bool_decide (memory_limit t <> 0) then [free_init] ++ calls ++ [free_end] else calls
  else [].

Lemma delete_tree_element_spec b T : forall fuel h rest,
  holds h ((NIL, null_element) :: nodes T ++ rest) -> (height T < fuel)%nat ->
  exists h', delete_tree_element fuel b h (addr T) =
      Some (h', if b then (fun x => free_free (it_key x)) <$> items T else []) /\
    holds h' ((NIL, null_element) :: rest).
Proof.
  induction T as [| i l IHl r IHr]; intros fuel h rest H Hf; (destruct fuel as [| fuel]; [cbn in Hf; lia |]); cbn [delete_tree_element].
  { rewrite bool_decide_false by tauto. exists h. by destruct b. }
  cbn [addr nodes height] in *. rewrite bool_decide_true.
  2: { intros Hc. destruct H as [Hn _]. cbn in Hn. rewrite Hc in Hn. apply NoDup_cons in Hn as [Hn _]. apply Hn. by left. }
  rewrite (holds_lookup _ _ _ _ H) by (right; by left). cbn [mbind option_bind element left].
  destruct (IHl fuel h ((i_addr i, element i (addr l) (addr r)) :: nodes r ++ rest)) as (h1 & -> & H1);
    [revert H; apply holds_perm; solve_Permutation | lia |].
  cbn [mbind option_bind]. rewrite (holds_lookup _ _ _ _ H1) by (right; by left). cbn [mbind option_bind element right key].
  destruct (IHr fuel h1 ((i_addr i, element i (addr l) (addr r)) :: rest)) as (h2 & -> & H2);
    [revert H1; apply holds_perm; solve_Permutation | lia |].
  cbn [mbind option_bind]. eexists. split.
  - do 2 f_equal. destruct b; [| done]. cbn [items]. by rewrite !fmap_app.
  - apply (holds_perm _ _ _ (perm_swap _ _ _)) in H2. by eapply holds_delete.
Qed.

Lemma free_tree_spec t l : tree_ok t l ->
  exists m', free_tree t = Some (set_counts (set_mem t m') 0 0, free_calls t l) /\
    tree_ok (set_counts (set_mem t m') 0 0) [].
Proof.
  intros [(T & n & Hrep & Hr & Hb & Hi) Hs Hf Hc]. unfold free_tree, free_calls.
  rewrite (root_addr _ _ _ Hrep). rewrite <- Hi in Hf. rewrite bool_decide_true by (by apply addr_nonzero).
  pose proof (height_size _ _ _ _ Hrep) as Hh. destruct Hrep as [Hrep _]. cbn [pnodes app] in Hrep.
  destruct (delete_tree_element_spec (free t) T (S (size (heap (tmem t)))) (heap (tmem t)) [] Hrep) as (h' & -> & Hh'); [lia |].
  cbn [mbind option_bind]. eexists. rewrite Hi. split; [by destruct (with_delete t), (free t) |].
  split; [| constructor | constructor | done]. exists E, 0%nat. split_and!; [| constructor | done | done]. by split.
Qed.

(** ** [tree_insert] *)

Definition absent (k : Z) (l : list (Z * Z * Z)) : Prop := forall x, x ∈ l -> compare (it_key x) k <> 0.

Definition insert_size (t : TREE) (key_size : Z) : Z := u32 (sizeof_TREE_ELEMENT + key_size + size_of_element t).

(** The new element would take the tree over its memory limit. *)
Definition over_limit (t : TREE) (l : list (Z * Z * Z)) (key_size : Z) : bool :=
  bool_decide (memory_limit t <> 0) && bool_decide (l <> []) &&
  bool_decide (u32 (allocated t + insert_size t key_size) > memory_limit t).

(** The possible results: the element returned, the new list and the calls of [free]. *)
Inductive inserts (malloc : Z -> gmap Z TREE_ELEMENT -> option Z) (t : TREE) (l : list (Z * Z * Z)) (k key_size : Z)
  : option Z -> list (Z * Z * Z) -> list free_call -> Prop :=
| ins_refused x : x ∈ l -> compare (it_key x) k = 0 -> flag t &&& TREE_NO_DUPS <> 0 ->
    inserts malloc t l k key_size None l []
| ins_counted x : x ∈ l -> compare (it_key x) k = 0 -> flag t &&& TREE_NO_DUPS = 0 ->
    inserts malloc t l k key_size (Some (it_addr x)) (ordered_insert 0 k l) []
| ins_no_memory h base calls : absent k l -> malloc (insert_size t key_size) h = None ->
    (base, calls) = (if over_limit t l key_size then ([], free_calls t l) else (l, [])) ->
    inserts malloc t l k key_size None base calls
| ins_new h a base calls : absent k l -> malloc (insert_size t key_size) h = Some a ->
    (base, calls) = (if over_limit t l key_size then ([], free_calls t l) else (l, [])) ->
    inserts malloc t l k key_size (Some a) (ordered_insert a k base) calls.

Lemma tree_ok_alloc t l a : tree_ok t l -> tree_ok (set_counts t (elements_in_tree t) a) l.
Proof. intros [H1 H2 H3 H4]. by split. Qed.

(** The descent from the root. *)
Lemma descend_root t l k :
  tree_ok t l -> Z.of_nat (length l) < 2 ^ 32 - 1 ->
  exists T n q t', descend compare (S MAX_TREE_HEIGHT) (tmem t) [Lroot] (root (tmem t)) k = Some (plinks q, addr t') /\
    rep (tmem t) q t' [] /\ plug q t' = T /\ items T = l /\ rbt T n /\ is_black T /\ stops k q t' /\
    (length q + height t' <= 62)%nat.
Proof.
  intros [(T & n & Hrep & Hr & Hb & Hi) Hs _ _] Hlen. rewrite <- Hi in Hs, Hlen.
  pose proof (rbt_height_bound T n Hr Hb Hlen) as Hh.
  destruct (descend_spec k T (S MAX_TREE_HEIGHT) _ _ _ Hrep Hs) as (q & t' & E1 & H1 & Hplug & Hh' & Hst); [unfold MAX_TREE_HEIGHT; lia | cbn; lia |].
  exists T, n, q, t'. rewrite app_nil_r in *. rewrite (root_addr _ _ _ Hrep). split_and!; [done.. | lia].
Qed.

Lemma stops_absent k q l : l = pre q ++ post q -> stops k q E -> absent k l.
Proof.
  intros -> (H1 & H2 & _). rewrite Forall_forall in H1, H2. unfold below, beyond in *.
  intros x [Hx | Hx]%elem_of_app; [apply H1 in Hx | apply H2 in Hx]; lia.
Qed.

Lemma count_bump c : 1 <= c < 2 ^ 31 ->
  (if bool_decide (uwrap 31 (c + 1) = 0) then uwrap 31 (uwrap 31 (c + 1) - 1) else uwrap 31 (c + 1)) = Z.min (c + 1) (2 ^ 31 - 1).
Proof.
  intros Hc. destruct (decide (c = 2 ^ 31 - 1)) as [-> | Hne]; [done |].
  rewrite uwrap_small by lia. rewrite bool_decide_false by lia. lia.
Qed.

(** The key is there: its count grows. *)
Lemma bump_spec t l n q i lt rt k :
  tree_ok t l -> rep (tmem t) q (N i lt rt) [] -> items (plug q (N i lt rt)) = l -> rbt (plug q (N i lt rt)) n ->
  is_black (plug q (N i lt rt)) -> stops k q (N i lt rt) ->
  let c := Z.min (i_cnt i + 1) (2 ^ 31 - 1) in
  tree_ok (set_mem t (store_el (tmem t) (i_addr i) (with_count (element i (addr lt) (addr rt)) c))) (ordered_insert 0 k l) /\
  item i ∈ l /\ 1 <= i_cnt i < 2 ^ 31.
Proof.
  intros [_ Hs Hf Hc] Hrep Hi Hr Hb (Hpre & Hpost & Heq) c. set (j := mk_info (i_addr i) (i_col i) c (i_key i)).
  destruct (pok_down q [] _ n Hr) as (k0 & Hk & Hp & Hbk); [done | by left |]. rewrite app_nil_r in Hp, Hbk.
  rewrite items_pre_post in Hi. cbn [items] in Hi.
  assert (Hl : l = (pre q ++ items lt) ++ item i :: items rt ++ post q) by (rewrite <- Hi, <- !app_assoc; done). clear Hi.
  assert (Hin : item i ∈ l) by (rewrite Hl; set_solver).
  assert (Hcnt : 1 <= i_cnt i < 2 ^ 31) by (rewrite Forall_forall in Hf; by apply (Hf (item i))).
  split_and!; [| done | lia | lia].
  assert (Hins : ordered_insert 0 k l = (pre q ++ items lt) ++ item j :: items rt ++ post q).
  { rewrite Hl. rewrite ordered_insert_old; [done | | done]. rewrite Hl in Hs. apply sorted_app in Hs as (_ & _ & Hs).
    apply Forall_forall. intros y Hy. eapply cmp_trans_r; [apply (Hs y (item i)); [done | by left] |].
    unfold it_key, item. cbn. lia. }
  rewrite Hins. split.
  - assert (Hj : rbt (N j lt rt) k0) by (inversion Hk; by constructor).
    destruct (rbt_plug q _ _ Hj Hp Hbk) as [n' Hn']. exists (plug q (N j lt rt)), n'. split_and!; [| done | |].
    + apply (proj1 (rep_plug _ _ _ _)). exact (store_rep _ _ L i j _ _ _ Hrep eq_refl).
    + by eapply rbt_plug_black.
    + rewrite items_pre_post. cbn [items]. by rewrite <- !app_assoc.
  - rewrite Hl in Hs. apply sorted_app in Hs as (H1 & H2 & H3). apply sorted_app. split_and!; [done | |].
    + apply StronglySorted_inv in H2 as [H2 H4]. by constructor.
    + intros x y Hx [-> | Hy]%elem_of_cons; [exact (H3 x (item i) Hx ltac:(by left)) | exact (H3 x y Hx ltac:(by right))].
  - rewrite Hl in Hf. apply Forall_app in Hf as [Hf1 Hf2]. apply Forall_cons_1 in Hf2 as [[Hf2 _] Hf3].
    apply Forall_app. split; [done |]. constructor; [| done]. subst c. unfold it_addr, it_count, item in *. cbn in *. lia.
  - cbn. rewrite Hc, Hl, !length_app. done.
Qed.

Lemma over_limit_code t l ks :
  tree_ok t l ->
  bool_decide (memory_limit t <> 0) && bool_decide (elements_in_tree t <> 0) &&
  bool_decide (u32 (allocated t + insert_size t ks) > memory_limit t) = over_limit t l ks.
Proof.
  intros [_ _ _ Hc]. unfold over_limit. do 2 f_equal. apply bool_decide_ext. rewrite Hc.
  destruct l; cbn; [done | split; [done | lia]].
Qed.

Lemma over_limit_nil t ks : over_limit t [] ks = false.
Proof. unfold over_limit. rewrite (bool_decide_false ([] <> [])) by tauto. by rewrite andb_false_r. Qed.

(** The key is in the list or not, as the descent finds out. *)
Lemma tree_insert_present malloc fuel t l k ks x :
  tree_ok t l -> Z.of_nat (length l) < 2 ^ 32 - 1 -> x ∈ l -> compare (it_key x) k = 0 ->
  exists r t' l', tree_insert compare malloc (S fuel) t k ks = Some (r, t', []) /\ tree_ok t' l' /\
    inserts malloc t l k ks r l' [].
Proof.
  intros Hok Hlen Hx Hxk. destruct (descend_root t l k Hok Hlen) as (T & n & q & t' & E1 & H1 & Hplug & Hi & Hr & Hb & Hst & _).
  cbn [tree_insert]. rewrite E1. cbn [mbind option_bind]. destruct t' as [| i lt rt].
  { exfalso. apply (stops_absent k q l) in Hst; [by apply (Hst x) |]. rewrite <- Hi, <- Hplug, items_pre_post. done. }
  rewrite bool_decide_false by (intros Hc; by apply (rep_not_nil _ _ _ _ H1) in Hc). subst T.
  destruct (bump_spec t l n q i lt rt k Hok H1 Hi Hr Hb Hst) as (Hok2 & Hin & Hcnt). destruct Hst as (_ & _ & Heq).
  destruct (decide (flag t &&& TREE_NO_DUPS = 0)) as [Hfl | Hfl].
  - rewrite bool_decide_false by tauto. cbn [addr]. rewrite (rep_focus _ _ L _ _ _ _ H1). cbn [mbind option_bind].
    cbv zeta. cbn [el element count]. rewrite count_bump by done. eexists _, _, _. split_and!; [done | exact Hok2 |].
    by apply (ins_counted malloc t l k ks (item i)).
  - rewrite bool_decide_true by done. exists None, t, l. split_and!; [done | done |]. by apply (ins_refused malloc t l k ks (item i)).
Qed.

Lemma descend_absent t l k :
  tree_ok t l -> Z.of_nat (length l) < 2 ^ 32 - 1 -> absent k l ->
  exists T n q, descend compare (S MAX_TREE_HEIGHT) (tmem t) [Lroot] (root (tmem t)) k = Some (plinks q, NIL) /\
    rep (tmem t) q E [] /\ plug q E = T /\ items T = l /\ rbt T n /\ is_black T /\ stops k q E.
Proof.
  intros Hok Hlen Hab. destruct (descend_root t l k Hok Hlen) as (T & n & q & t' & E1 & H1 & Hplug & Hi & Hr & Hb & Hst & _).
  destruct t' as [| i lt rt]; [by exists T, n, q |]. exfalso. destruct Hst as (_ & _ & Heq). apply (Hab (item i)); [| done].
  rewrite <- Hi, <- Hplug, items_pre_post. cbn [items]. apply elem_of_app. right. apply elem_of_app. left. apply elem_of_app. right. by left.
Qed.

Lemma tree_insert_room malloc fuel t l k ks :
  allocator malloc -> tree_ok t l -> Z.of_nat (length l) < 2 ^ 32 - 1 -> absent k l -> over_limit t l ks = false ->
  exists r t' h, tree_insert compare malloc (S fuel) t k ks = Some (r, t', []) /\ malloc (insert_size t ks) h = r /\
    tree_ok t' (match r with None => l | Some a => ordered_insert a k l end).
Proof.
  intros Hal Hok Hlen Hab Hover. destruct (descend_absent t l k Hok Hlen Hab) as (T & n & q & E1 & H1 & Hplug & Hi & Hr & Hb & Hst).
  cbn [tree_insert]. rewrite E1. cbn [mbind option_bind].
  rewrite bool_decide_true by done. cbv zeta. cbn [set_counts memory_limit elements_in_tree allocated].
  fold (insert_size t ks). rewrite (over_limit_code t l ks Hok), Hover.
  destruct (insert_new_spec malloc _ l T n q k ks (insert_size t ks) Hal (tree_ok_alloc t l (u32 (allocated t + insert_size t ks)) Hok) H1)
    as (r & t2 & E2 & Em & Hok2); [done.. |].
  rewrite E2. cbn [mbind option_bind]. exists r, t2. eexists. split_and!; [done | exact Em |].
  destruct r as [a |]; [done |]. subst t2. by apply tree_ok_alloc.
Qed.

Lemma tree_insert_absent malloc t l k ks :
  allocator malloc -> tree_ok t l -> Z.of_nat (length l) < 2 ^ 32 - 1 -> absent k l ->
  exists r t' l' calls, tree_insert compare malloc 2 t k ks = Some (r, t', calls) /\ tree_ok t' l' /\
    inserts malloc t l k ks r l' calls.
Proof.
  intros Hal Hok Hlen Hab. destruct (over_limit t l ks) eqn:Hover.
  - destruct (descend_absent t l k Hok Hlen Hab) as (T & n & q & E1 & _). remember 1%nat as f1 eqn:Hf1. cbn [tree_insert].
    rewrite E1. cbn [mbind option_bind]. rewrite bool_decide_true by done. cbv zeta. cbn [set_counts memory_limit elements_in_tree allocated].
    fold (insert_size t ks). rewrite (over_limit_code t l ks Hok), Hover.
    destruct (free_tree_spec _ l (tree_ok_alloc t l (u32 (allocated t + insert_size t ks)) Hok)) as (m' & E2 & Hok2).
    unfold reset_tree. cbn [set_counts elements_in_tree] in E2. rewrite E2. cbn [mbind option_bind]. subst f1.
    destruct (tree_insert_room malloc 0 _ [] k ks Hal Hok2) as (r & t2 & h & E3 & Hm & Hok3); [done | by intros x Hx%elem_of_nil | apply over_limit_nil |].
    rewrite E3. cbn [mbind option_bind]. eexists r, t2, _, (free_calls t l). rewrite app_nil_r. split_and!; [done | exact Hok3 |].
    destruct r as [a |]; [eapply ins_new | eapply ins_no_memory]; [done | exact Hm | by rewrite Hover | done | exact Hm | by rewrite Hover].
  - destruct (tree_insert_room malloc 1 t l k ks Hal Hok Hlen Hab Hover) as (r & t' & h & E3 & Hm & Hok').
    eexists r, t', _, []. split_and!; [done | exact Hok' |].
    destruct r as [a |]; [eapply ins_new | eapply ins_no_memory]; [done | exact Hm | by rewrite Hover | done | exact Hm | by rewrite Hover].
Qed.

Lemma tree_insert_spec malloc t l k ks :
  allocator malloc -> tree_ok t l -> Z.of_nat (length l) < 2 ^ 32 - 1 ->
  exists r t' l' calls, tree_insert compare malloc 2 t k ks = Some (r, t', calls) /\ tree_ok t' l' /\
    inserts malloc t l k ks r l' calls.
Proof.
  intros Hal Hok Hlen. destruct (decide (Exists (fun x => compare (it_key x) k = 0) l)) as [(x & Hx & Hxk)%Exists_exists | Hn].
  - destruct (tree_insert_present malloc 1 t l k ks x Hok Hlen Hx Hxk) as (r & t' & l' & ?). by exists r, t', l', [].
  - apply tree_insert_absent; [done.. |]. intros x Hx Hxk. apply Hn, Exists_exists. eauto.
Qed.

(** ** [tree_delete] *)

Lemma filter_absent k l : absent k l -> filter (fun y => compare (it_key y) k <> 0) l = l.
Proof.
  induction l as [| x l IH]; intros Hab; [done |]. rewrite filter_cons_True; [| apply Hab; by left].
  rewrite IH; [done |]. intros y Hy. apply Hab. by right.
Qed.

Lemma filter_found k l1 x l2 :
  sorted (l1 ++ x :: l2) -> compare (it_key x) k = 0 ->
  filter (fun y => compare (it_key y) k <> 0) (l1 ++ x :: l2) = l1 ++ l2.
Proof.
  intros (H1 & H2 & H3)%sorted_app Hx. apply StronglySorted_inv in H2 as [_ H2]. rewrite Forall_forall in H2.
  pose proof (cmp_swap (it_key x) k). pose proof (cmp_swap k (it_key x)).
  rewrite filter_app, filter_cons_False by tauto. f_equal; apply filter_absent; intros y Hy.
  - assert (compare (it_key y) k < 0); [| lia]. eapply cmp_trans_r; [apply (H3 y x Hy); by left | lia].
  - pose proof (cmp_swap k (it_key y)). assert (compare k (it_key y) < 0); [| lia].
    eapply cmp_trans; [| by apply (H2 y)]. lia.
Qed.

Lemma sorted_remove l1 x l2 : sorted (l1 ++ x :: l2) -> sorted (l1 ++ l2).
Proof.
  intros (H1 & H2 & H3)%sorted_app. apply StronglySorted_inv in H2 as [H2 _]. apply sorted_app. split_and!; [done | done |].
  intros y z Hy Hz. apply H3; [done | by right].
Qed.

(** Rebalancing when a black element was unlinked. *)
Lemma rebalance_unlinked m p t c rest :
  rep m p t rest -> unlinked p t c -> (length p <= 62)%nat ->
  exists m' T n, (if bool_decide (c = BLACK) then rb_delete_fixup m (plinks p) else Some m) = Some m' /\
    rep m' [] T rest /\ items T = items (plug p t) /\ rbt T n /\ is_black T.
Proof.
  intros H [(-> & n & Ht & Hp & Hb) | (-> & k & Ht & Hp)] Hlen.
  - rewrite bool_decide_false by done. destruct (rbt_plug p t n Ht Hp (or_introl Hb)) as [n' Hn].
    exists m, (plug p t), n'. split_and!; [done | by apply (proj1 (rep_plug _ _ _ _)) | done | done |].
    eapply rbt_plug_black; [exact Ht | done | by left].
  - rewrite bool_decide_true by done. destruct (rb_delete_fixup_spec m p t k rest H Hp Ht) as (m' & T & n & ?);
      [rewrite length_plinks; unfold MAX_TREE_HEIGHT; lia |]. by exists m', T, n.
Qed.

Definition deletes (t : TREE) (l : list (Z * Z * Z)) (k : Z) (res : Z) (t' : TREE) (calls : list free_call) : Prop :=
  (with_delete t = false \/ absent k l) /\ res = 1 /\ t' = t /\ calls = [] \/
  (exists x, with_delete t = true /\ x ∈ l /\ compare (it_key x) k = 0 /\ res = 0 /\
     tree_ok t' (filter (fun y => compare (it_key y) k <> 0) l) /\
     calls = if free t then [free_free (it_key x)] else []).

Lemma tree_delete_spec t l k ks :
  tree_ok t l -> Z.of_nat (length l) < 2 ^ 32 - 1 ->
  exists res t' calls, tree_delete compare t k ks = Some (res, t', calls) /\ deletes t l k res t' calls.
Proof.
  intros Hok Hlen. unfold tree_delete. destruct (with_delete t) eqn:Hwd; cbn [negb].
  2: { exists 1, t, []. split; [done |]. by left; split_and!; [left | | |]. }
  destruct (descend_root t l k Hok Hlen) as (T & n & q & t' & E1 & H1 & Hplug & Hi & Hr & Hb & Hst & Hh).
  rewrite E1. cbn [mbind option_bind]. rewrite <- Hplug, items_pre_post in Hi. destruct t' as [| i lt rt].
  { rewrite bool_decide_true by done. exists 1, t, []. split; [done |]. left. split_and!; [right | done..].
    by apply (stops_absent k q). }
  rewrite bool_decide_false by (intros Hc; by apply (rep_not_nil _ _ _ _ H1) in Hc). cbn [addr].
  destruct (pok_down q [] (N i lt rt) n) as (k0 & Hk & Hp & Hbk); [by rewrite Hplug | done | left; by rewrite Hplug |].
  rewrite app_nil_r in Hp, Hbk.
  destruct (unlink_element_spec _ q i lt rt k0 [] H1 Hk Hp Hbk Hh) as (m1 & p1 & t1 & c & e & E2 & H2 & Hke & Hu & Hlen1 & Hi1).
  rewrite E2. cbn [mbind option_bind].
  destruct (rebalance_unlinked _ _ _ _ _ H2 Hu Hlen1) as (m2 & T2 & n2 & E3 & H3 & Hi3 & Hr3 & Hb3). rewrite E3. cbn [mbind option_bind].
  assert (H4 : holds (heap m2) ((i_addr i, e) :: (NIL, null_element) :: nodes T2)).
  { destruct H3 as [H3 _]. revert H3. apply holds_perm. cbn [pnodes app]. solve_Permutation. }
  rewrite (holds_lookup _ _ _ _ H4) by (by left). cbn [mbind option_bind]. eexists _, _, _. split; [done |]. right.
  destruct Hst as (_ & _ & Heq). destruct Hok as [_ Hs Hf Hc].
  assert (Hl : l = (pre q ++ items lt) ++ item i :: items rt ++ post q) by (rewrite <- Hi; cbn [items]; by rewrite <- !app_assoc).
  exists (item i). split_and!; [done | rewrite Hl; apply elem_of_app; right; by left | done | done | | by rewrite Hke].
  rewrite Hl in Hs, Hf, Hc |- *. rewrite (filter_found k _ _ _ Hs Heq). split.
  - exists T2, n2. split_and!; [| done | done | rewrite Hi3, Hi1; by rewrite <- !app_assoc].
    destruct H3 as [_ Hroot]. split; [| done]. cbn. rewrite app_nil_r. by eapply holds_delete.
  - by eapply sorted_remove.
  - apply Forall_app in Hf as [Hf1 Hf2]. apply Forall_cons_1 in Hf2 as [_ Hf2]. by apply Forall_app.
  - cbn. rewrite Hc. rewrite Hl in Hlen. rewrite !length_app in *. cbn [length] in *. rewrite !length_app in *.
    rewrite uwrap_small; lia.
Qed.

End Ops.

End TreeProps.
