(* ===== verification/TreeMain.v ===== *)
(** * TreeMain: the contract of the red-black trees

    The operations of [mysys/tree.c] from the root of the tree: insertion, deletion,
    search and walks as operations on the ordered list of elements, and every state
    that calls can reach. *)
From stdpp Require Import base tactics option sets list numbers gmap infinite.
From Stdlib Require Import ZArith Lia Sorting.Sorted.
From S2P Require Import Prelude.
From S2P Require Import Tree.
From S2P Require Import TreeRep.
From S2P Require Import TreeInsert.
From S2P Require Import TreeDelete.
From S2P Require Import TreeOps.
From S2P Require Import TreeProps.

Module TreeMain.
Import Tree TreeRep TreeInsert TreeDelete TreeOps TreeProps.

(** ** Walks *)

(** The action on the elements in turn, until it returns an error. *)
Fixpoint walk_list {S} (action : Z -> Z -> S -> Z * S) (l : list (Z * Z * Z)) (s : S) : Z * S :=
  match l with
  | [] => (0, s)
  | x :: l => let '(error, s) := action (it_key x) (it_count x) s in
      if bool_decide (error = 0) then walk_list action l s else (error, s)
  end.

Definition in_direction (d : dir) (l : list (Z * Z * Z)) : list (Z * Z * Z) := match d with L => l | R => reverse l end.

Lemma walk_list_app {S} (action : Z -> Z -> S -> Z * S) l1 l2 s :
  walk_list action (l1 ++ l2) s =
  let '(error, s) := walk_list action l1 s in
  if bool_decide (error = 0) then walk_list action l2 s else (error, s).
Proof.
  revert s. induction l1 as [| x l1 IH]; intros s; cbn; [done |].
  destruct (action (it_key x) (it_count x) s) as [e s1]. destruct (bool_decide (e = 0)) eqn:He; [apply IH |]. by rewrite He.
Qed.

Lemma in_direction_nd d i x y :
  in_direction d (items (nd d i x y)) = in_direction d (items x) ++ [item i] ++ in_direction d (items y).
Proof. destruct d; [done |]. cbn [nd items in_direction]. by rewrite !reverse_app, <- app_assoc. Qed.

Lemma walk_spec {S} (action : Z -> Z -> S -> Z * S) d n : forall T fuel m p s rest,
  (height T <= n)%nat -> (n < fuel)%nat -> rep m p T rest -> (forall x, x ∈ items T -> it_addr x <> 0) ->
  walk fuel d m (addr T) action s = Some (walk_list action (in_direction d (items T)) s).
Proof.
  induction n as [| n IH]; intros T fuel m p s rest Hh Hf H Hz; (destruct fuel as [| fuel]; [lia |]); cbn [walk];
    destruct T as [| i l r]; try (cbn in Hh; lia).
  1, 2: cbn [addr]; rewrite (rep_nil _ _ _ _ H); cbn [mbind option_bind]; destruct d; done.
  destruct (nd_view d i l r) as (x & y & Ev). rewrite Ev in *. clear Ev l r. rewrite addr_nd, (rep_focus _ _ _ _ _ _ _ H).
  rewrite height_nd in Hh.
  assert (Hx : forall z, z ∈ items x \/ z ∈ items y -> it_addr z <> 0).
  { intros z Hin. apply Hz. destruct d; cbn; rewrite !elem_of_app, ?elem_of_cons; tauto. }
  assert (Hx0 : addr x <> 0).
  { destruct x as [| j jl jr]; [done |]. apply (Hx (item j)). left. cbn. rewrite elem_of_app, elem_of_cons. tauto. }
  cbn [mbind option_bind]. rewrite (proj1 (child_el _ _ _ _)), (proj2 (child_el _ _ _ _)), bool_decide_true by done.
  rewrite (IH x fuel m (mk_frame d i y :: p) s rest) by (lia || by apply rep_down || auto). cbn [mbind option_bind].
  rewrite in_direction_nd, walk_list_app. destruct (walk_list action (in_direction d (items x)) s) as [e s1].
  destruct (bool_decide (e = 0)) eqn:He; [| done]. cbn [walk_list app].
  replace (key (el d i (addr x) (addr y))) with (it_key (item i)) by (by destruct d).
  replace (count (el d i (addr x) (addr y))) with (it_count (item i)) by (by destruct d).
  destruct (action (it_key (item i)) (it_count (item i)) s1) as [e2 s2]. destruct (bool_decide (e2 = 0)); [| done].
  apply (IH y fuel m (mk_frame (opp d) i x :: p) s2 rest); [lia | lia | by apply rep_lower | auto].
Qed.

(** ** Instances for the examples *)

Definition example_compare (a b : Z) : Z := a - b.
#[export] Instance example_comparison : Comparison example_compare.
Proof. split; unfold example_compare; lia. Qed.

Definition example_malloc (n : Z) (h : gmap Z TREE_ELEMENT) : option Z := Some (fresh (dom h ∪ {[0]})).
Lemma example_allocator : allocator example_malloc.
Proof.
  intros n h a [= <-]. pose proof (is_fresh (dom h ∪ {[0]})) as H. rewrite not_elem_of_union, not_elem_of_dom, not_elem_of_singleton in H.
  exact H.
Qed.

Definition mem_of (T : T) : mem := mk_mem (addr T) (list_to_map ((NIL, null_element) :: nodes T)).

Lemma rep_mem_of T : NoDup ((NIL, null_element) :: nodes T).*1 -> rep (mem_of T) [] T [].
Proof.
  intros H. split; [| done]. cbn [pnodes app]. rewrite app_nil_r. split; [done |]. intros a e Ha. by apply elem_of_list_to_map.
Qed.

(** Two elements, 3 and 5. *)
Definition example_T : TreeRep.T := N (mk_info 16 BLACK 1 5) (N (mk_info 32 RED 2 3) E E) E.
Definition example_tree : TREE := mk_tree (mem_of example_T) 12 2 4 0 40 true true 0.

Lemma example_tree_ok : tree_ok example_compare example_tree [(32, 2, 3); (16, 1, 5)].
Proof.
  split.
  - exists example_T, 1%nat. split_and!; [apply rep_mem_of; by apply (bool_decide_unpack _) | | done | done].
    by repeat constructor.
  - by repeat constructor.
  - by repeat constructor.
  - done.
Qed.

(** ** The contract *)

(** C24 [tree_insert] on a tree that stands for the ordered list [l] (a red-black tree with a black root,
    the keys strictly increasing) always returns, without running off the stack of links, and the result
    stands for a list: with an equal key in [l] the list with that count raised, saturating at
    2^31-1, and the address of its element (or the same list and a null pointer under
    [TREE_NO_DUPS]); without one the list with the new element of count 1 in its place, after
    freeing every element first when the memory limit would be passed, or no change when there is
    no memory. *)
Theorem tree_insert_refines compare malloc t l k key_size :
  Comparison compare -> allocator malloc -> tree_ok compare t l -> Z.of_nat (length l) < 2 ^ 32 - 1 ->
  exists r t' l' calls, tree_insert compare malloc 2 t k key_size = Some (r, t', calls) /\ tree_ok compare t' l' /\
    inserts compare malloc t l k key_size r l' calls.
Proof. intros HC. by apply tree_insert_spec. Qed.

Lemma tree_insert_refines_witness :
  exists r t' l' calls, tree_insert example_compare example_malloc 2 example_tree 4 0 = Some (r, t', calls) /\
    tree_ok example_compare t' l' /\
    inserts example_compare example_malloc example_tree [(32, 2, 3); (16, 1, 5)] 4 0 r l' calls.
Proof.
  apply (tree_insert_refines example_compare example_malloc example_tree _ 4 0 example_comparison example_allocator example_tree_ok).
  done.
Defined.

(** C25 [tree_delete] on a tree that stands for [l] always returns: 1 and no change when deletion is
    not allowed or no key of [l] is equal; otherwise 0, and the result is again a
    red-black tree, of the list without that key, its element freed and [tree->free] called with its key. *)
Theorem tree_delete_refines compare t l k key_size :
  Comparison compare -> tree_ok compare t l -> Z.of_nat (length l) < 2 ^ 32 - 1 ->
  exists res t' calls, tree_delete compare t k key_size = Some (res, t', calls) /\ deletes compare t l k res t' calls.
Proof. intros HC. by apply tree_delete_spec. Qed.

Lemma tree_delete_refines_witness :
  exists res t' calls, tree_delete example_compare example_tree 5 0 = Some (res, t', calls) /\
    deletes example_compare example_tree [(32, 2, 3); (16, 1, 5)] 5 res t' calls.
Proof.
  apply (tree_delete_refines example_compare example_tree _ 5 0 example_comparison example_tree_ok). done.
Defined.

(** C27 [tree_search] returns the key of the element that compares equal, and a null pointer when there is
    none; [tree_walk] applies the action to the elements in increasing order ([left_root_right]) or
    decreasing order ([right_root_left]) and stops at the first error. *)
Theorem tree_search_and_walk compare t l k {S} (action : Z -> Z -> S -> Z * S) (s : S) d :
  Comparison compare -> tree_ok compare t l ->
  (exists r, tree_search compare t k = Some r /\
     match r with
     | Some k' => exists x, x ∈ l /\ it_key x = k' /\ compare k' k = 0
     | None => absent compare k l
     end) /\
  tree_walk t action s d = Some (walk_list action (in_direction d l) s).
Proof.
  intros HC [(T & n & Hrep & Hr & Hb & <-) Hs Hf Hc]. pose proof (height_size _ _ _ _ Hrep) as Hh. split.
  - unfold tree_search. rewrite (root_addr _ _ _ Hrep). apply (search_loop_spec compare k T _ _ _ _ Hrep Hs). lia.
  - unfold tree_walk. rewrite (root_addr _ _ _ Hrep). eapply walk_spec; [reflexivity | lia | exact Hrep |].
    intros x Hx. rewrite Forall_forall in Hf. by apply Hf.
Qed.

Lemma tree_search_and_walk_witness :
  (exists r, tree_search example_compare example_tree 3 = Some r /\
     match r with
     | Some k' => exists x, x ∈ [(32, 2, 3); (16, 1, 5)] /\ it_key x = k' /\ example_compare k' 3 = 0
     | None => absent example_compare 3 [(32, 2, 3); (16, 1, 5)]
     end) /\
  tree_walk example_tree (fun k n s => (0, s ++ [(k, n)])) [] R = Some (0, [(5, 1); (3, 2)]).
Proof.
  exact (tree_search_and_walk example_compare example_tree _ 3 (fun k n s => (0, s ++ [(k, n)])) [] R
    example_comparison example_tree_ok).
Defined.

(** ** Reachable states *)

(** Any sequence of the operations that change a tree. *)
Inductive reach (compare : Z -> Z -> Z) (malloc : Z -> gmap Z TREE_ELEMENT -> option Z) : TREE -> Prop :=
| reach_init alloc limit size wd fr : reach compare malloc (init_tree alloc limit size wd fr).1
| reach_insert t k key_size r t' calls : reach compare malloc t -> elements_in_tree t < 2 ^ 32 - 1 ->
    tree_insert compare malloc 2 t k key_size = Some (r, t', calls) -> reach compare malloc t'
| reach_delete t k key_size res t' calls : reach compare malloc t -> elements_in_tree t < 2 ^ 32 - 1 ->
    tree_delete compare t k key_size = Some (res, t', calls) -> reach compare malloc t'
| reach_reset t t' calls : reach compare malloc t -> free_tree t = Some (t', calls) -> reach compare malloc t'.

Lemma init_tree_ok compare alloc limit size wd fr : tree_ok compare (init_tree alloc limit size wd fr).1 [].
Proof.
  assert (Hm : tmem (init_tree alloc limit size wd fr).1 = mk_mem NIL {[NIL := null_element]}).
  { unfold init_tree. by destruct (_ && _ && _). }
  assert (He : elements_in_tree (init_tree alloc limit size wd fr).1 = 0) by (unfold init_tree; by destruct (_ && _ && _)).
  split; [| constructor | constructor | done]. exists E, 0%nat. rewrite Hm. split_and!; [| constructor | done | done].
  split; [| done]. split; [apply NoDup_singleton |]. intros a e [[= -> ->] | Hx%elem_of_nil]%elem_of_cons; [| done].
  apply lookup_singleton_eq.
Qed.

Lemma reach_ok compare `{!Comparison compare} malloc t :
  allocator malloc -> reach compare malloc t -> exists l, tree_ok compare t l.
Proof.
  intros Hal. induction 1 as [| t k ks r t' calls _ [l Hok] Hn Hstep | t k ks res t' calls _ [l Hok] Hn Hstep | t t' calls _ [l Hok] Hstep].
  - exists []. apply init_tree_ok.
  - destruct (tree_insert_spec compare malloc t l k ks) as (r2 & t2 & l2 & c2 & E2 & Hok2 & _); [done | done | |].
    { rewrite <- (ok_length _ _ _ Hok). done. }
    rewrite Hstep in E2. injection E2 as <- <- <-. by exists l2.
  - destruct (tree_delete_spec compare t l k ks) as (r2 & t2 & c2 & E2 & Hd); [done | |].
    { rewrite <- (ok_length _ _ _ Hok). done. }
    rewrite Hstep in E2. injection E2 as <- <- <-. destruct Hd as [(_ & _ & -> & _) | (x & _ & _ & _ & _ & Hok2 & _)]; eauto.
  - destruct (free_tree_spec compare t l Hok) as (m' & E2 & Hok2). rewrite Hstep in E2. injection E2 as -> ->. eauto.
Qed.

Lemma rbt_log_height T n : rbt T n -> is_black T -> (2 ^ (height T / 2) <= S (length (items T)))%nat.
Proof.
  intros Hr Hb. destruct (rbt_height T n Hr) as [_ Hh]. specialize (Hh Hb). pose proof (rbt_size T n Hr) as Hs.
  etrans; [| exact Hs]. apply Nat.pow_le_mono_r; [lia |]. apply Nat.Div0.div_le_upper_bound. lia.
Qed.

(** C26 Whatever calls lead to a tree, as long as the number of its elements fits its counter:
    it is a red-black tree of a strictly increasing list, its height is at
    most twice the logarithm of the number of elements, at most 62, and no operation fails: the stack of
    [MAX_TREE_HEIGHT] links never overflows and no null pointer is followed. *)
Theorem tree_reachable_safe compare malloc t :
  Comparison compare -> allocator malloc -> reach compare malloc t -> elements_in_tree t < 2 ^ 32 - 1 ->
  (exists T l, rep (tmem t) [] T [] /\ items T = l /\ sorted compare l /\ elements_in_tree t = Z.of_nat (length l) /\
     (2 ^ (height T / 2) <= S (length l))%nat /\ (height T <= 62)%nat) /\
  (forall k key_size, is_Some (tree_insert compare malloc 2 t k key_size) /\ is_Some (tree_delete compare t k key_size) /\
     is_Some (tree_search compare t k)) /\
  is_Some (free_tree t).
Proof.
  intros HC Hal Hreach Hn. destruct (reach_ok compare malloc t Hal Hreach) as [l Hok]. rewrite (ok_length _ _ _ Hok) in Hn.
  split_and!.
  - pose proof Hok as [(T & n & Hrep & Hr & Hb & Hi) Hs Hf Hc]. exists T, l. rewrite <- Hi in Hn |- *. split_and!; [done | done | | | |].
    + by rewrite Hi.
    + by rewrite Hi.
    + by eapply rbt_log_height.
    + by eapply rbt_height_bound.
  - intros k ks. split_and!.
    + destruct (tree_insert_spec compare malloc t l k ks Hal Hok Hn) as (? & ? & ? & ? & -> & _). done.
    + destruct (tree_delete_spec compare t l k ks Hok Hn) as (? & ? & ? & -> & _). done.
    + destruct Hok as [(T & n & Hrep & _ & _ & <-) Hs _ _]. unfold tree_search. rewrite (root_addr _ _ _ Hrep).
      destruct (search_loop_spec compare k T (S (size (heap (tmem t)))) _ _ _ Hrep Hs) as (? & -> & _); [| done].
      pose proof (height_size _ _ _ _ Hrep). lia.
  - destruct (free_tree_spec compare t l Hok) as (m' & -> & _). done.
Qed.

Lemma tree_reachable_safe_witness :
  let t := (init_tree 0 0 4 true false).1 in
  (exists T l, rep (tmem t) [] T [] /\ items T = l /\ sorted example_compare l /\ elements_in_tree t = Z.of_nat (length l) /\
     (2 ^ (height T / 2) <= S (length l))%nat /\ (height T <= 62)%nat) /\
  (forall k key_size, is_Some (tree_insert example_compare example_malloc 2 t k key_size) /\
     is_Some (tree_delete example_compare t k key_size) /\ is_Some (tree_search example_compare t k)) /\
  is_Some (free_tree t).
Proof.
  apply (tree_reachable_safe example_compare example_malloc _ example_comparison example_allocator); [apply reach_init | done].
Defined.

End TreeMain.
