(* ===== verification/Utf8.v ===== *)
(** * Utf8: the character sets utf8mb3 and utf8mb4

    [strings/ctype-utf8.c]: decoding and encoding of characters, changes of case, comparison,
    hashing and sort keys.  A string is the list of its bytes; where the code has a pointer and
    the end, the argument is the list of the bytes between.  The table [cs->caseinfo] is an
    argument: [uni_plane page] is [None] where the code has a null pointer. *)
From stdpp Require Import base tactics option list numbers.
From Stdlib Require Import ZArith Lia.
From S2P Require Import Prelude.
From S2P Require Import CtypeBin.
From S2P Require Import Collate.

Module Utf8.
Import CtypeBin Collate.

(** ** Decoding *)

Definition MY_CS_ILSEQ : Z := 0.
Definition MY_CS_ILUNI : Z := 0.
Definition MY_CS_TOOSMALL : Z := -101.
Definition MY_CS_TOOSMALL2 : Z := -102.
Definition MY_CS_TOOSMALL3 : Z := -103.
Definition MY_CS_TOOSMALL4 : Z := -104.
Definition MY_CS_TOOSMALLN (n : Z) : Z := -100 - n.

(** [(b ^ 0x80) < 0x40] *)
Definition is_cont (b : Z) : bool := bool_decide (b ^^^ 0x80 < 0x40).

(** The values of [*pwc]; the result and the value, 0 where it is not set. *)
Definition wc2 (c s1 : Z) : Z := ((c &&& 0x1f) ≪ 6) ||| (s1 ^^^ 0x80).
Definition wc3 (c s1 s2 : Z) : Z := (((c &&& 0x0f) ≪ 12) ||| ((s1 ^^^ 0x80) ≪ 6)) ||| (s2 ^^^ 0x80).
Definition wc4 (c s1 s2 s3 : Z) : Z :=
  ((((c &&& 0x07) ≪ 18) ||| ((s1 ^^^ 0x80) ≪ 12)) ||| ((s2 ^^^ 0x80) ≪ 6)) ||| (s3 ^^^ 0x80).

Definition my_mb_wc_utf8mb4 (s : list Z) : Z * Z :=
  match s with
  | [] => (MY_CS_TOOSMALL, 0)
  | c :: r =>
      if bool_decide (c < 0x80) then (1, c)
      else if bool_decide (c < 0xc2) then (MY_CS_ILSEQ, 0)
      else if bool_decide (c < 0xe0) then
        match r with
        | s1 :: _ => if negb (is_cont s1) then (MY_CS_ILSEQ, 0) else (2, wc2 c s1)
        | _ => (MY_CS_TOOSMALL2, 0)
        end
      else if bool_decide (c < 0xf0) then
        match r with
        | s1 :: s2 :: _ =>
            if negb (is_cont s1 && is_cont s2 && (bool_decide (c >= 0xe1) || bool_decide (s1 >= 0xa0)))
            then (MY_CS_ILSEQ, 0) else (3, wc3 c s1 s2)
        | _ => (MY_CS_TOOSMALL3, 0)
        end
      else if bool_decide (c < 0xf5) then
        match r with
        | s1 :: s2 :: s3 :: _ =>
            if negb (is_cont s1 && is_cont s2 && is_cont s3 && (bool_decide (c >= 0xf1) || bool_decide (s1 >= 0x90)) &&
                     (bool_decide (c <= 0xf3) || bool_decide (s1 <= 0x8f)))
            then (MY_CS_ILSEQ, 0) else (4, wc4 c s1 s2 s3)
        | _ => (MY_CS_TOOSMALL4, 0)
        end
      else (MY_CS_ILSEQ, 0)
  end.

Definition my_mb_wc_utf8mb3 (s : list Z) : Z * Z :=
  match s with
  | [] => (MY_CS_TOOSMALL, 0)
  | c :: r =>
      if bool_decide (c < 0x80) then (1, c)
      else if bool_decide (c < 0xc2) then (MY_CS_ILSEQ, 0)
      else if bool_decide (c < 0xe0) then
        match r with
        | s1 :: _ => if negb (is_cont s1) then (MY_CS_ILSEQ, 0) else (2, wc2 c s1)
        | _ => (MY_CS_TOOSMALL2, 0)
        end
      else if bool_decide (c < 0xf0) then
        match r with
        | s1 :: s2 :: _ =>
            if negb (is_cont s1 && is_cont s2 && (bool_decide (c >= 0xe1) || bool_decide (s1 >= 0xa0)))
            then (MY_CS_ILSEQ, 0) else (3, wc3 c s1 s2)
        | _ => (MY_CS_TOOSMALL3, 0)
        end
      else (MY_CS_ILSEQ, 0)
  end.

(** The byte at [i] if the condition on the bytes in front of it holds, as [&&] reads them. *)
Fixpoint all_cont (s : list Z) (i : Z) (n : nat) : option bool :=
  match n with
  | O => Some true
  | S n => b ← load s i; if is_cont b then all_cont s (i + 1) n else Some false
  end.

(** Without a range check, [None] for a read outside of the block; [mb4] chooses the version. *)
Definition mb_wc_no_range (mb4 : bool) (s : list Z) : option (Z * Z) :=
  c ← load s 0;
  if bool_decide (c < 0x80) then Some (1, c)
  else if bool_decide (c < 0xc2) then Some (MY_CS_ILSEQ, 0)
  else if bool_decide (c < 0xe0) then
    ok ← all_cont s 1 1;
    if negb ok then Some (MY_CS_ILSEQ, 0) else s1 ← load s 1; Some (2, wc2 c s1)
  else if bool_decide (c < 0xf0) then
    ok ← all_cont s 1 2;
    if negb ok then Some (MY_CS_ILSEQ, 0)
    else
      s1 ← load s 1; s2 ← load s 2;
      if bool_decide (c >= 0xe1) || bool_decide (s1 >= 0xa0) then Some (3, wc3 c s1 s2) else Some (MY_CS_ILSEQ, 0)
  else if mb4 && bool_decide (c < 0xf5) then
    ok ← all_cont s 1 3;
    if negb ok then Some (MY_CS_ILSEQ, 0)
    else
      s1 ← load s 1; s2 ← load s 2; s3 ← load s 3;
      if (bool_decide (c >= 0xf1) || bool_decide (s1 >= 0x90)) && (bool_decide (c <= 0xf3) || bool_decide (s1 <= 0x8f))
      then Some (4, wc4 c s1 s2 s3) else Some (MY_CS_ILSEQ, 0)
  else Some (MY_CS_ILSEQ, 0).

Definition my_mb_wc_utf8mb4_no_range : list Z -> option (Z * Z) := mb_wc_no_range true.
Definition my_mb_wc_utf8mb3_no_range : list Z -> option (Z * Z) := mb_wc_no_range false.

Definition my_ismbchar_utf8mb4 (s : list Z) : Z := let res := (my_mb_wc_utf8mb4 s).1 in if bool_decide (res > 1) then res else 0.
Definition my_ismbchar_utf8mb3 (s : list Z) : Z := let res := (my_mb_wc_utf8mb3 s).1 in if bool_decide (res > 1) then res else 0.

Definition my_mbcharlen_utf8mb4 (c : Z) : Z :=
  if bool_decide (c < 0x80) then 1
  else if bool_decide (c < 0xc2) then 0
  else if bool_decide (c < 0xe0) then 2
  else if bool_decide (c < 0xf0) then 3
  else if bool_decide (c < 0xf8) then 4
  else 0.

Definition my_mbcharlen_utf8mb3 (c : Z) : Z :=
  if bool_decide (c < 0x80) then 1
  else if bool_decide (c < 0xc2) then 0
  else if bool_decide (c < 0xe0) then 2
  else if bool_decide (c < 0xf0) then 3
  else 0.

(** ** Encoding *)

(** The cases of the [switch], which fall through. *)
Definition case1 (wc : Z) : list Z := [u8 wc].
Definition case2 (wc : Z) : list Z := case1 ((wc ≫ 6) ||| 0xc0) ++ [u8 (0x80 ||| (wc &&& 0x3f))].
Definition case3 (wc : Z) : list Z := case2 ((wc ≫ 6) ||| 0x800) ++ [u8 (0x80 ||| (wc &&& 0x3f))].
Definition case4 (wc : Z) : list Z := case3 ((wc ≫ 6) ||| 0x10000) ++ [u8 (0x80 ||| (wc &&& 0x3f))].

Definition wc_count (mb4 : bool) (wc : Z) : option Z :=
  if bool_decide (wc < 0x80) then Some 1
  else if bool_decide (wc < 0x800) then Some 2
  else if bool_decide (wc < 0x10000) then Some 3
  else if mb4 && bool_decide (wc < 0x200000) then Some 4
  else None.

Definition wc_bytes (count wc : Z) : list Z :=
  if bool_decide (count = 4) then case4 wc
  else if bool_decide (count = 3) then case3 wc
  else if bool_decide (count = 2) then case2 wc
  else case1 wc.

(** The result and the bytes written; [room] is [e - r]. *)
Definition wc_mb (mb4 : bool) (wc room : Z) : Z * list Z :=
  if bool_decide (room <= 0) then (MY_CS_TOOSMALL, [])
  else
    match wc_count mb4 wc with
    | None => (MY_CS_ILUNI, [])
    | Some count => if bool_decide (count > room) then (MY_CS_TOOSMALLN count, []) else (count, wc_bytes count wc)
    end.

Definition my_wc_mb_utf8mb4 : Z -> Z -> Z * list Z := wc_mb true.
Definition my_wc_mb_utf8mb3 : Z -> Z -> Z * list Z := wc_mb false.

Definition wc_mb_no_range (mb4 : bool) (wc : Z) : Z * list Z :=
  match wc_count mb4 wc with
  | None => (MY_CS_ILUNI, [])
  | Some count => (count, wc_bytes count wc)
  end.

Definition my_wc_mb_utf8mb4_no_range : Z -> Z * list Z := wc_mb_no_range true.
Definition my_wc_mb_utf8mb3_no_range : Z -> Z * list Z := wc_mb_no_range false.

(** ** Case and weights *)

Record MY_UNICASE_INFO := mk_unicase { toupper : Z; tolower : Z; sort : Z }.
Definition planes : Type := Z -> option (Z -> MY_UNICASE_INFO).

Definition REPLACEMENT_CHAR : Z := 0xFFFD.

Section Case.
Context (uni_plane : planes).

Definition my_tolower_utf8mb4 (wc : Z) : Z :=
  let page := wc ≫ 8 in
  if bool_decide (page < 256) then match uni_plane page with Some p => tolower (p (wc &&& 0xFF)) | None => wc end else wc.

Definition my_toupper_utf8mb4 (wc : Z) : Z :=
  let page := wc ≫ 8 in
  if bool_decide (page < 256) then match uni_plane page with Some p => toupper (p (wc &&& 0xFF)) | None => wc end else wc.

Definition my_tosort_unicode (wc : Z) : Z :=
  let page := wc ≫ 8 in
  if bool_decide (page < 256) then match uni_plane page with Some p => sort (p (wc &&& 0xFF)) | None => wc end
  else REPLACEMENT_CHAR.

(** [uni_plane[plane] ? uni_plane[plane][wc & 0xFF].field : wc] *)
Definition plane_case (field : MY_UNICASE_INFO -> Z) (wc : Z) : Z :=
  match uni_plane ((wc ≫ 8) &&& 0xFF) with Some p => field (p (wc &&& 0xFF)) | None => wc end.

(** The loop of the changes of case: the bytes written. *)
Fixpoint case_loop (mb_wc : list Z -> Z * Z) (conv : Z -> Z) (wc_mb : Z -> Z -> Z * list Z) (fuel : nat) (src : list Z) (room : Z) : list Z :=
  match fuel with
  | O => []
  | S fuel =>
      let '(srcres, wc) := mb_wc src in
      if bool_decide (src = []) || bool_decide (srcres <= 0) then []
      else
        let '(dstres, bs) := wc_mb (conv wc) room in
        if bool_decide (dstres <= 0) then []
        else bs ++ case_loop mb_wc conv wc_mb fuel (drop (Z.to_nat srcres) src) (room - dstres)
  end.

Definition my_caseup_utf8mb4 (src : list Z) (dstlen : Z) : list Z :=
  case_loop my_mb_wc_utf8mb4 my_toupper_utf8mb4 my_wc_mb_utf8mb4 (S (length src)) src dstlen.
Definition my_casedn_utf8mb4 (src : list Z) (dstlen : Z) : list Z :=
  case_loop my_mb_wc_utf8mb4 my_tolower_utf8mb4 my_wc_mb_utf8mb4 (S (length src)) src dstlen.
Definition my_caseup_utf8mb3 (src : list Z) (dstlen : Z) : list Z :=
  case_loop my_mb_wc_utf8mb3 (plane_case toupper) my_wc_mb_utf8mb3 (S (length src)) src dstlen.
Definition my_casedn_utf8mb3 (src : list Z) (dstlen : Z) : list Z :=
  case_loop my_mb_wc_utf8mb3 (plane_case tolower) my_wc_mb_utf8mb3 (S (length src)) src dstlen.

(** In place, on a block with a 0-terminated string at [src], written from [dst] on: the length and the block. *)
Fixpoint case_str_loop (no_range : list Z -> option (Z * Z)) (conv : Z -> Z) (wc_mb : Z -> Z * list Z) (fuel : nat) (b : list Z) (src dst : Z)
  : option (Z * list Z) :=
  match fuel with
  | O => None
  | S fuel =>
      let finish := b ← store b dst 0; Some (dst, b) in
      c ← load b src;
      if bool_decide (c = 0) then finish
      else
        '(srcres, wc) ← no_range (drop (Z.to_nat src) b);
        if bool_decide (srcres <= 0) then finish
        else
          let '(dstres, bs) := wc_mb (conv wc) in
          if bool_decide (dstres <= 0) then finish
          else b ← write b dst bs; case_str_loop no_range conv wc_mb fuel b (src + srcres) (dst + dstres)
  end.

Definition my_caseup_str_utf8mb4 (b : list Z) : option (Z * list Z) :=
  case_str_loop my_mb_wc_utf8mb4_no_range my_toupper_utf8mb4 my_wc_mb_utf8mb4_no_range (S (length b)) b 0 0.
Definition my_casedn_str_utf8mb4 (b : list Z) : option (Z * list Z) :=
  case_str_loop my_mb_wc_utf8mb4_no_range my_tolower_utf8mb4 my_wc_mb_utf8mb4_no_range (S (length b)) b 0 0.
Definition my_caseup_str_utf8mb3 (b : list Z) : option (Z * list Z) :=
  case_str_loop my_mb_wc_utf8mb3_no_range (plane_case toupper) my_wc_mb_utf8mb3_no_range (S (length b)) b 0 0.
Definition my_casedn_str_utf8mb3 (b : list Z) : option (Z * list Z) :=
  case_str_loop my_mb_wc_utf8mb3_no_range (plane_case tolower) my_wc_mb_utf8mb3_no_range (S (length b)) b 0 0.

(** ** Comparison *)

Definition bincmp (s t : list Z) : Z :=
  let slen := Z.of_nat (length s) in
  let tlen := Z.of_nat (length t) in
  let len := Z.min slen tlen in
  let cmp := memcmp (take (Z.to_nat len) s) (take (Z.to_nat len) t) in
  if bool_decide (cmp <> 0) then cmp else slen - tlen.

Definition bincmp_utf8mb4 : list Z -> list Z -> Z := bincmp.

(** The loop over both strings: the result, or what is left of them. *)
Fixpoint coll_loop (mb_wc : list Z -> Z * Z) (tosort : Z -> Z) (fuel : nat) (s t : list Z) : Z + list Z * list Z :=
  match fuel with
  | O => inr (s, t)
  | S fuel =>
      if bool_decide (s = []) || bool_decide (t = []) then inr (s, t)
      else
        let '(s_res, s_wc) := mb_wc s in
        let '(t_res, t_wc) := mb_wc t in
        if bool_decide (s_res <= 0) || bool_decide (t_res <= 0) then inl (bincmp s t)
        else if bool_decide (tosort s_wc <> tosort t_wc) then inl (if bool_decide (tosort s_wc > tosort t_wc) then 1 else -1)
        else coll_loop mb_wc tosort fuel (drop (Z.to_nat s_res) s) (drop (Z.to_nat t_res) t)
  end.

Definition strnncoll (mb_wc : list Z -> Z * Z) (tosort : Z -> Z) (s t : list Z) (t_is_prefix : bool) : Z :=
  match coll_loop mb_wc tosort (S (length s)) s t with
  | inl r => r
  | inr (s, t) => if t_is_prefix then - Z.of_nat (length t) else Z.of_nat (length s) - Z.of_nat (length t)
  end.

(** [diff_if_only_endspace_difference] is set to FALSE first. *)
Definition strnncollsp (mb_wc : list Z -> Z * Z) (tosort : Z -> Z) (s t : list Z) : Z :=
  match coll_loop mb_wc tosort (S (length s)) s t with
  | inl r => r
  | inr (s, t) =>
      if bool_decide (length s <> length t) then
        if bool_decide (length s < length t)%nat then end_space (fun c => c) (-1) t else end_space (fun c => c) 1 s
      else 0
  end.

Definition my_strnncoll_utf8mb4 : list Z -> list Z -> bool -> Z := strnncoll my_mb_wc_utf8mb4 my_tosort_unicode.
Definition my_strnncoll_utf8mb3 : list Z -> list Z -> bool -> Z := strnncoll my_mb_wc_utf8mb3 (plane_case sort).
Definition my_strnncollsp_utf8mb4 : list Z -> list Z -> Z := strnncollsp my_mb_wc_utf8mb4 my_tosort_unicode.
Definition my_strnncollsp_utf8mb3 : list Z -> list Z -> Z := strnncollsp my_mb_wc_utf8mb3 (plane_case sort).

(** [strcmp] of the strings at the start of two blocks. *)
Fixpoint strcmp (s t : list Z) : option Z :=
  match s, t with
  | x :: s, y :: t => if bool_decide (x <> y) then Some (x - y) else if bool_decide (x = 0) then Some 0 else strcmp s t
  | _, _ => None
  end.

(** The weight of the first character and the rest of the string; [None] inside for a wrong sequence. *)
Definition next_weight (no_range : list Z -> option (Z * Z)) (plane00 : Z -> MY_UNICASE_INFO) (conv : Z -> Z) (s : list Z)
  : option (option (Z * list Z)) :=
  c ← load s 0;
  if bool_decide (c < 128) then Some (Some (tolower (plane00 c), drop 1 s))
  else
    '(res, wc) ← no_range s;
    if bool_decide (res <= 0) then Some None else Some (Some (conv wc, drop (Z.to_nat res) s)).

Fixpoint strcasecmp_loop (no_range : list Z -> option (Z * Z)) (plane00 : Z -> MY_UNICASE_INFO) (conv : Z -> Z) (fuel : nat) (s t : list Z)
  : option Z :=
  match fuel with
  | O => None
  | S fuel =>
      c ← load s 0; d ← load t 0;
      if bool_decide (c = 0) || bool_decide (d = 0) then Some (c - d)
      else
        a ← next_weight no_range plane00 conv s;
        match a with
        | None => strcmp s t
        | Some (s_wc, s) =>
            b ← next_weight no_range plane00 conv t;
            match b with
            | None => strcmp s t
            | Some (t_wc, t) => if bool_decide (s_wc <> t_wc) then Some (s_wc - t_wc) else strcasecmp_loop no_range plane00 conv fuel s t
            end
        end
  end.

Definition my_strcasecmp_utf8mb4 (plane00 : Z -> MY_UNICASE_INFO) (s t : list Z) : option Z :=
  strcasecmp_loop my_mb_wc_utf8mb4_no_range plane00 my_tolower_utf8mb4 (S (length s)) s t.

(** The bytes up to [s + 3] are read as without a range: a wrong byte, the final 0 too, ends the sequence. *)
Definition my_strcasecmp_utf8mb3 (plane00 : Z -> MY_UNICASE_INFO) (s t : list Z) : option Z :=
  strcasecmp_loop my_mb_wc_utf8mb3_no_range plane00 (plane_case tolower) (S (length s)) s t.

(** ** Hashing *)

(** [while (e > s && e[-1] == ' ') e--;] on the reversed string. *)
Fixpoint drop_spaces (r : list Z) : list Z :=
  match r with
  | c :: r' => if bool_decide (c = 32) then drop_spaces r' else r
  | [] => []
  end.
Definition remove_end_space (s : list Z) : list Z := rev (drop_spaces (rev s)).

Fixpoint hash_loop (mb_wc : list Z -> Z * Z) (add : Z * Z -> Z -> Z * Z) (fuel : nat) (s : list Z) (n : Z * Z) : Z * Z :=
  match fuel with
  | O => n
  | S fuel =>
      let '(res, wc) := mb_wc s in
      if bool_decide (res <= 0) then n else hash_loop mb_wc add fuel (drop (Z.to_nat res) s) (add n wc)
  end.

Definition my_hash_add (n : Z * Z) (ch : Z) : Z * Z := hash_byte n ch.

Definition hash_mb4 (n : Z * Z) (wc : Z) : Z * Z :=
  let wc := my_tosort_unicode wc in
  let n := my_hash_add n (wc &&& 0xFF) in
  let n := my_hash_add n ((wc ≫ 8) &&& 0xFF) in
  if bool_decide (wc > 0xFFFF) then my_hash_add n ((wc ≫ 16) &&& 0xFF) else n.

Definition hash_mb3 (n : Z * Z) (wc : Z) : Z * Z :=
  let wc := plane_case sort wc in
  let n := hash_byte n (wc &&& 0xFF) in
  hash_byte n (wc ≫ 8).

Definition my_hash_sort_utf8mb4 (s : list Z) (n1 n2 : Z) : Z * Z :=
  hash_loop my_mb_wc_utf8mb4 hash_mb4 (S (length s)) (remove_end_space s) (n1, n2).
Definition my_hash_sort_utf8mb3 (s : list Z) (n1 n2 : Z) : Z * Z :=
  hash_loop my_mb_wc_utf8mb3 hash_mb3 (S (length s)) (remove_end_space s) (n1, n2).

(** ** Sort keys *)

Section Xfrm.
Context (mb_wc : list Z -> Z * Z) (tosort : Z -> Z).

(** The loop over the characters: the bytes written and the weights left; [room] is [de - dst]. *)
Fixpoint xfrm_loop (nweights : nat) (room : Z) (src : list Z) : list Z * nat :=
  match nweights with
  | O => ([], O)
  | S nw =>
      if bool_decide (0 < room) then
        let '(res, wc) := mb_wc src in
        if bool_decide (res <= 0) then ([], nweights)
        else
          let wc := tosort wc in
          let bs := if bool_decide (1 < room) then [u8 (wc ≫ 8); u8 (wc &&& 0xFF)] else [u8 (wc ≫ 8)] in
          let '(l, nw) := xfrm_loop nw (room - Z.of_nat (length bs)) (drop (Z.to_nat res) src) in
          (bs ++ l, nw)
      else ([], nweights)
  end.

Fixpoint my_strxfrm_pad_nweights_unicode (nweights : nat) (room : Z) : list Z :=
  match nweights with
  | O => []
  | S nw =>
      if bool_decide (0 < room) then
        let bs := if bool_decide (1 < room) then [0x00; 0x20] else [0x00] in
        bs ++ my_strxfrm_pad_nweights_unicode nw (room - Z.of_nat (length bs))
      else []
  end.

(** As long as there is room. *)
Definition my_strxfrm_pad_unicode (room : Z) : list Z := my_strxfrm_pad_nweights_unicode (Z.to_nat room) room.

Definition my_strnxfrm_unicode (dstlen nweights : Z) (src : list Z) (flags : Z) : option (list Z) :=
  let '(l, nw) := xfrm_loop (Z.to_nat nweights) dstlen src in
  let room := dstlen - Z.of_nat (length l) in
  let l := if bool_decide (0 < room) && bool_decide (nw <> O) && flag flags MY_STRXFRM_PAD_WITH_SPACE
           then l ++ my_strxfrm_pad_nweights_unicode nw room else l in
  l ← my_strxfrm_desc_and_reverse l flags 0;
  let room := dstlen - Z.of_nat (length l) in
  Some (if flag flags MY_STRXFRM_PAD_TO_MAXLEN && bool_decide (0 < room) then l ++ my_strxfrm_pad_unicode room else l).

End Xfrm.

End Case.

End Utf8.
