(* ===== verification/Utf8Tables.v ===== *)
(** * Utf8Tables: the case tables of Unicode

    The arrays [plane00] to [planeFF] and [turk00] of [strings/ctype-utf8.c], an entry with the upper
    case, the lower case and the weight of a character, and the two arrays of planes. *)
From stdpp Require Import base tactics option list numbers.
From Stdlib Require Import ZArith Lia.
From S2P Require Import Prelude.
From S2P Require Import CtypeBin.
From S2P Require Import Collate.
From S2P Require Import Utf8.

Module Utf8Tables.
Import Utf8.

Definition table (l : list (Z * Z * Z)) : list MY_UNICASE_INFO := (fun '(u, d, w) => mk_unicase u d w) <$> l.

Definition plane00 : list MY_UNICASE_INFO := table [
  (0x0, 0x0, 0x0); (0x1, 0x1, 0x1); (0x2, 0x2, 0x2); (0x3, 0x3, 0x3); (0x4, 0x4, 0x4); (0x5, 0x5, 0x5); (0x6, 0x6, 0x6); (0x7, 0x7, 0x7);
  (0x8, 0x8, 0x8); (0x9, 0x9, 0x9); (0xA, 0xA, 0xA); (0xB, 0xB, 0xB); (0xC, 0xC, 0xC); (0xD, 0xD, 0xD); (0xE, 0xE, 0xE); (0xF, 0xF, 0xF);
  (0x10, 0x10, 0x10); (0x11, 0x11, 0x11); (0x12, 0x12, 0x12); (0x13, 0x13, 0x13); (0x14, 0x14, 0x14); (0x15, 0x15, 0x15); (0x16, 0x16, 0x16); (0x17, 0x17, 0x17);
  (0x18, 0x18, 0x18); (0x19, 0x19, 0x19); (0x1A, 0x1A, 0x1A); (0x1B, 0x1B, 0x1B); (0x1C, 0x1C, 0x1C); (0x1D, 0x1D, 0x1D); (0x1E, 0x1E, 0x1E); (0x1F, 0x1F, 0x1F);
  (0x20, 0x20, 0x20); (0x21, 0x21, 0x21); (0x22, 0x22, 0x22); (0x23, 0x23, 0x23); (0x24, 0x24, 0x24); (0x25, 0x25, 0x25); (0x26, 0x26, 0x26); (0x27, 0x27, 0x27);
  (0x28, 0x28, 0x28); (0x29, 0x29, 0x29); (0x2A, 0x2A, 0x2A); (0x2B, 0x2B, 0x2B); (0x2C, 0x2C, 0x2C); (0x2D, 0x2D, 0x2D); (0x2E, 0x2E, 0x2E); (0x2F, 0x2F, 0x2F);
  (0x30, 0x30, 0x30); (0x31, 0x31, 0x31); (0x32, 0x32, 0x32); (0x33, 0x33, 0x33); (0x34, 0x34, 0x34); (0x35, 0x35, 0x35); (0x36, 0x36, 0x36); (0x37, 0x37, 0x37);
  (0x38, 0x38, 0x38); (0x39, 0x39, 0x39); (0x3A, 0x3A, 0x3A); (0x3B, 0x3B, 0x3B); (0x3C, 0x3C, 0x3C); (0x3D, 0x3D, 0x3D); (0x3E, 0x3E, 0x3E); (0x3F, 0x3F, 0x3F);
  (0x40, 0x40, 0x40); (0x41, 0x61, 0x41); (0x42, 0x62, 0x42); (0x43, 0x63, 0x43); (0x44, 0x64, 0x44); (0x45, 0x65, 0x45); (0x46, 0x66, 0x46); (0x47, 0x67, 0x47);
  (0x48, 0x68, 0x48); (0x49, 0x69, 0x49); (0x4A, 0x6A, 0x4A); (0x4B, 0x6B, 0x4B); (0x4C, 0x6C, 0x4C); (0x4D, 0x6D, 0x4D); (0x4E, 0x6E, 0x4E); (0x4F, 0x6F, 0x4F);
  (0x50, 0x70, 0x50); (0x51, 0x71, 0x51); (0x52, 0x72, 0x52); (0x53, 0x73, 0x53); (0x54, 0x74, 0x54); (0x55, 0x75, 0x55); (0x56, 0x76, 0x56); (0x57, 0x77, 0x57);
  (0x58, 0x78, 0x58); (0x59, 0x79, 0x59); (0x5A, 0x7A, 0x5A); (0x5B, 0x5B, 0x5B); (0x5C, 0x5C, 0x5C); (0x5D, 0x5D, 0x5D); (0x5E, 0x5E, 0x5E); (0x5F, 0x5F, 0x5F);
  (0x60, 0x60, 0x60); (0x41, 0x61, 0x41); (0x42, 0x62, 0x42); (0x43, 0x63, 0x43); (0x44, 0x64, 0x44); (0x45, 0x65, 0x45); (0x46, 0x66, 0x46); (0x47, 0x67, 0x47);
  (0x48, 0x68, 0x48); (0x49, 0x69, 0x49); (0x4A, 0x6A, 0x4A); (0x4B, 0x6B, 0x4B); (0x4C, 0x6C, 0x4C); (0x4D, 0x6D, 0x4D); (0x4E, 0x6E, 0x4E); (0x4F, 0x6F, 0x4F);
  (0x50, 0x70, 0x50); (0x51, 0x71, 0x51); (0x52, 0x72, 0x52); (0x53, 0x73, 0x53); (0x54, 0x74, 0x54); (0x55, 0x75, 0x55); (0x56, 0x76, 0x56); (0x57, 0x77, 0x57);
  (0x58, 0x78, 0x58); (0x59, 0x79, 0x59); (0x5A, 0x7A, 0x5A); (0x7B, 0x7B, 0x7B); (0x7C, 0x7C, 0x7C); (0x7D, 0x7D, 0x7D); (0x7E, 0x7E, 0x7E); (0x7F, 0x7F, 0x7F);
  (0x80, 0x80, 0x80); (0x81, 0x81, 0x81); (0x82, 0x82, 0x82); (0x83, 0x83, 0x83); (0x84, 0x84, 0x84); (0x85, 0x85, 0x85); (0x86, 0x86, 0x86); (0x87, 0x87, 0x87);
  (0x88, 0x88, 0x88); (0x89, 0x89, 0x89); (0x8A, 0x8A, 0x8A); (0x8B, 0x8B, 0x8B); (0x8C, 0x8C, 0x8C); (0x8D, 0x8D, 0x8D); (0x8E, 0x8E, 0x8E); (0x8F, 0x8F, 0x8F);
  (0x90, 0x90, 0x90); (0x91, 0x91, 0x91); (0x92, 0x92, 0x92); (0x93, 0x93, 0x93); (0x94, 0x94, 0x94); (0x95, 0x95, 0x95); (0x96, 0x96, 0x96); (0x97, 0x97, 0x97);
  (0x98, 0x98, 0x98); (0x99, 0x99, 0x99); (0x9A, 0x9A, 0x9A); (0x9B, 0x9B, 0x9B); (0x9C, 0x9C, 0x9C); (0x9D, 0x9D, 0x9D); (0x9E, 0x9E, 0x9E); (0x9F, 0x9F, 0x9F);
  (0xA0, 0xA0, 0xA0); (0xA1, 0xA1, 0xA1); (0xA2, 0xA2, 0xA2); (0xA3, 0xA3, 0xA3); (0xA4, 0xA4, 0xA4); (0xA5, 0xA5, 0xA5); (0xA6, 0xA6, 0xA6); (0xA7, 0xA7, 0xA7);
  (0xA8, 0xA8, 0xA8); (0xA9, 0xA9, 0xA9); (0xAA, 0xAA, 0xAA); (0xAB, 0xAB, 0xAB); (0xAC, 0xAC, 0xAC); (0xAD, 0xAD, 0xAD); (0xAE, 0xAE, 0xAE); (0xAF, 0xAF, 0xAF);
  (0xB0, 0xB0, 0xB0); (0xB1, 0xB1, 0xB1); (0xB2, 0xB2, 0xB2); (0xB3, 0xB3, 0xB3); (0xB4, 0xB4, 0xB4); (0x39C, 0xB5, 0x39C); (0xB6, 0xB6, 0xB6); (0xB7, 0xB7, 0xB7);
  (0xB8, 0xB8, 0xB8); (0xB9, 0xB9, 0xB9); (0xBA, 0xBA, 0xBA); (0xBB, 0xBB, 0xBB); (0xBC, 0xBC, 0xBC); (0xBD, 0xBD, 0xBD); (0xBE, 0xBE, 0xBE); (0xBF, 0xBF, 0xBF);
  (0xC0, 0xE0, 0x41); (0xC1, 0xE1, 0x41); (0xC2, 0xE2, 0x41); (0xC3, 0xE3, 0x41); (0xC4, 0xE4, 0x41); (0xC5, 0xE5, 0x41); (0xC6, 0xE6, 0xC6); (0xC7, 0xE7, 0x43);
  (0xC8, 0xE8, 0x45); (0xC9, 0xE9, 0x45); (0xCA, 0xEA, 0x45); (0xCB, 0xEB, 0x45); (0xCC, 0xEC, 0x49); (0xCD, 0xED, 0x49); (0xCE, 0xEE, 0x49); (0xCF, 0xEF, 0x49);
  (0xD0, 0xF0, 0xD0); (0xD1, 0xF1, 0x4E); (0xD2, 0xF2, 0x4F); (0xD3, 0xF3, 0x4F); (0xD4, 0xF4, 0x4F); (0xD5, 0xF5, 0x4F); (0xD6, 0xF6, 0x4F); (0xD7, 0xD7, 0xD7);
  (0xD8, 0xF8, 0xD8); (0xD9, 0xF9, 0x55); (0xDA, 0xFA, 0x55); (0xDB, 0xFB, 0x55); (0xDC, 0xFC, 0x55); (0xDD, 0xFD, 0x59); (0xDE, 0xFE, 0xDE); (0xDF, 0xDF, 0x53);
  (0xC0, 0xE0, 0x41); (0xC1, 0xE1, 0x41); (0xC2, 0xE2, 0x41); (0xC3, 0xE3, 0x41); (0xC4, 0xE4, 0x41); (0xC5, 0xE5, 0x41); (0xC6, 0xE6, 0xC6); (0xC7, 0xE7, 0x43);
  (0xC8, 0xE8, 0x45); (0xC9, 0xE9, 0x45); (0xCA, 0xEA, 0x45); (0xCB, 0xEB, 0x45); (0xCC, 0xEC, 0x49); (0xCD, 0xED, 0x49); (0xCE, 0xEE, 0x49); (0xCF, 0xEF, 0x49);
  (0xD0, 0xF0, 0xD0); (0xD1, 0xF1, 0x4E); (0xD2, 0xF2, 0x4F); (0xD3, 0xF3, 0x4F); (0xD4, 0xF4, 0x4F); (0xD5, 0xF5, 0x4F); (0xD6, 0xF6, 0x4F); (0xF7, 0xF7, 0xF7);
  (0xD8, 0xF8, 0xD8); (0xD9, 0xF9, 0x55); (0xDA, 0xFA, 0x55); (0xDB, 0xFB, 0x55); (0xDC, 0xFC, 0x55); (0xDD, 0xFD, 0x59); (0xDE, 0xFE, 0xDE); (0x178, 0xFF, 0x59)].

Definition plane01 : list MY_UNICASE_INFO := table [
  (0x100, 0x101, 0x41); (0x100, 0x101, 0x41); (0x102, 0x103, 0x41); (0x102, 0x103, 0x41); (0x104, 0x105, 0x41); (0x104, 0x105, 0x41); (0x106, 0x107, 0x43); (0x106, 0x107, 0x43);
  (0x108, 0x109, 0x43); (0x108, 0x109, 0x43); (0x10A, 0x10B, 0x43); (0x10A, 0x10B, 0x43); (0x10C, 0x10D, 0x43); (0x10C, 0x10D, 0x43); (0x10E, 0x10F, 0x44); (0x10E, 0x10F, 0x44);
  (0x110, 0x111, 0x110); (0x110, 0x111, 0x110); (0x112, 0x113, 0x45); (0x112, 0x113, 0x45); (0x114, 0x115, 0x45); (0x114, 0x115, 0x45); (0x116, 0x117, 0x45); (0x116, 0x117, 0x45);
  (0x118, 0x119, 0x45); (0x118, 0x119, 0x45); (0x11A, 0x11B, 0x45); (0x11A, 0x11B, 0x45); (0x11C, 0x11D, 0x47); (0x11C, 0x11D, 0x47); (0x11E, 0x11F, 0x47); (0x11E, 0x11F, 0x47);
  (0x120, 0x121, 0x47); (0x120, 0x121, 0x47); (0x122, 0x123, 0x47); (0x122, 0x123, 0x47); (0x124, 0x125, 0x48); (0x124, 0x125, 0x48); (0x126, 0x127, 0x126); (0x126, 0x127, 0x126);
  (0x128, 0x129, 0x49); (0x128, 0x129, 0x49); (0x12A, 0x12B, 0x49); (0x12A, 0x12B, 0x49); (0x12C, 0x12D, 0x49); (0x12C, 0x12D, 0x49); (0x12E, 0x12F, 0x49); (0x12E, 0x12F, 0x49);
  (0x130, 0x69, 0x49); (0x49, 0x131, 0x49); (0x132, 0x133, 0x132); (0x132, 0x133, 0x132); (0x134, 0x135, 0x4A); (0x134, 0x135, 0x4A); (0x136, 0x137, 0x4B); (0x136, 0x137, 0x4B);
  (0x138, 0x138, 0x138); (0x139, 0x13A, 0x4C); (0x139, 0x13A, 0x4C); (0x13B, 0x13C, 0x4C); (0x13B, 0x13C, 0x4C); (0x13D, 0x13E, 0x4C); (0x13D, 0x13E, 0x4C); (0x13F, 0x140, 0x13F);
  (0x13F, 0x140, 0x13F); (0x141, 0x142, 0x141); (0x141, 0x142, 0x141); (0x143, 0x144, 0x4E); (0x143, 0x144, 0x4E); (0x145, 0x146, 0x4E); (0x145, 0x146, 0x4E); (0x147, 0x148, 0x4E);
  (0x147, 0x148, 0x4E); (0x149, 0x149, 0x149); (0x14A, 0x14B, 0x14A); (0x14A, 0x14B, 0x14A); (0x14C, 0x14D, 0x4F); (0x14C, 0x14D, 0x4F); (0x14E, 0x14F, 0x4F); (0x14E, 0x14F, 0x4F);
  (0x150, 0x151, 0x4F); (0x150, 0x151, 0x4F); (0x152, 0x153, 0x152); (0x152, 0x153, 0x152); (0x154, 0x155, 0x52); (0x154, 0x155, 0x52); (0x156, 0x157, 0x52); (0x156, 0x157, 0x52);
  (0x158, 0x159, 0x52); (0x158, 0x159, 0x52); (0x15A, 0x15B, 0x53); (0x15A, 0x15B, 0x53); (0x15C, 0x15D, 0x53); (0x15C, 0x15D, 0x53); (0x15E, 0x15F, 0x53); (0x15E, 0x15F, 0x53);
  (0x160, 0x161, 0x53); (0x160, 0x161, 0x53); (0x162, 0x163, 0x54); (0x162, 0x163, 0x54); (0x164, 0x165, 0x54); (0x164, 0x165, 0x54); (0x166, 0x167, 0x166); (0x166, 0x167, 0x166);
  (0x168, 0x169, 0x55); (0x168, 0x169, 0x55); (0x16A, 0x16B, 0x55); (0x16A, 0x16B, 0x55); (0x16C, 0x16D, 0x55); (0x16C, 0x16D, 0x55); (0x16E, 0x16F, 0x55); (0x16E, 0x16F, 0x55);
  (0x170, 0x171, 0x55); (0x170, 0x171, 0x55); (0x172, 0x173, 0x55); (0x172, 0x173, 0x55); (0x174, 0x175, 0x57); (0x174, 0x175, 0x57); (0x176, 0x177, 0x59); (0x176, 0x177, 0x59);
  (0x178, 0xFF, 0x59); (0x179, 0x17A, 0x5A); (0x179, 0x17A, 0x5A); (0x17B, 0x17C, 0x5A); (0x17B, 0x17C, 0x5A); (0x17D, 0x17E, 0x5A); (0x17D, 0x17E, 0x5A); (0x53, 0x17F, 0x53);
  (0x180, 0x180, 0x180); (0x181, 0x253, 0x181); (0x182, 0x183, 0x182); (0x182, 0x183, 0x182); (0x184, 0x185, 0x184); (0x184, 0x185, 0x184); (0x186, 0x254, 0x186); (0x187, 0x188, 0x187);
  (0x187, 0x188, 0x187); (0x189, 0x256, 0x189); (0x18A, 0x257, 0x18A); (0x18B, 0x18C, 0x18B); (0x18B, 0x18C, 0x18B); (0x18D, 0x18D, 0x18D); (0x18E, 0x1DD, 0x18E); (0x18F, 0x259, 0x18F);
  (0x190, 0x25B, 0x190); (0x191, 0x192, 0x191); (0x191, 0x192, 0x191); (0x193, 0x260, 0x193); (0x194, 0x263, 0x194); (0x1F6, 0x195, 0x1F6); (0x196, 0x269, 0x196); (0x197, 0x268, 0x197);
  (0x198, 0x199, 0x198); (0x198, 0x199, 0x198); (0x19A, 0x19A, 0x19A); (0x19B, 0x19B, 0x19B); (0x19C, 0x26F, 0x19C); (0x19D, 0x272, 0x19D); (0x19E, 0x19E, 0x19E); (0x19F, 0x275, 0x19F);
  (0x1A0, 0x1A1, 0x4F); (0x1A0, 0x1A1, 0x4F); (0x1A2, 0x1A3, 0x1A2); (0x1A2, 0x1A3, 0x1A2); (0x1A4, 0x1A5, 0x1A4); (0x1A4, 0x1A5, 0x1A4); (0x1A6, 0x280, 0x1A6); (0x1A7, 0x1A8, 0x1A7);
  (0x1A7, 0x1A8, 0x1A7); (0x1A9, 0x283, 0x1A9); (0x1AA, 0x1AA, 0x1AA); (0x1AB, 0x1AB, 0x1AB); (0x1AC, 0x1AD, 0x1AC); (0x1AC, 0x1AD, 0x1AC); (0x1AE, 0x288, 0x1AE); (0x1AF, 0x1B0, 0x55);
  (0x1AF, 0x1B0, 0x55); (0x1B1, 0x28A, 0x1B1); (0x1B2, 0x28B, 0x1B2); (0x1B3, 0x1B4, 0x1B3); (0x1B3, 0x1B4, 0x1B3); (0x1B5, 0x1B6, 0x1B5); (0x1B5, 0x1B6, 0x1B5); (0x1B7, 0x292, 0x1B7);
  (0x1B8, 0x1B9, 0x1B8); (0x1B8, 0x1B9, 0x1B8); (0x1BA, 0x1BA, 0x1BA); (0x1BB, 0x1BB, 0x1BB); (0x1BC, 0x1BD, 0x1BC); (0x1BC, 0x1BD, 0x1BC); (0x1BE, 0x1BE, 0x1BE); (0x1F7, 0x1BF, 0x1F7);
  (0x1C0, 0x1C0, 0x1C0); (0x1C1, 0x1C1, 0x1C1); (0x1C2, 0x1C2, 0x1C2); (0x1C3, 0x1C3, 0x1C3); (0x1C4, 0x1C6, 0x1C4); (0x1C4, 0x1C6, 0x1C4); (0x1C4, 0x1C6, 0x1C4); (0x1C7, 0x1C9, 0x1C7);
  (0x1C7, 0x1C9, 0x1C7); (0x1C7, 0x1C9, 0x1C7); (0x1CA, 0x1CC, 0x1CA); (0x1CA, 0x1CC, 0x1CA); (0x1CA, 0x1CC, 0x1CA); (0x1CD, 0x1CE, 0x41); (0x1CD, 0x1CE, 0x41); (0x1CF, 0x1D0, 0x49);
  (0x1CF, 0x1D0, 0x49); (0x1D1, 0x1D2, 0x4F); (0x1D1, 0x1D2, 0x4F); (0x1D3, 0x1D4, 0x55); (0x1D3, 0x1D4, 0x55); (0x1D5, 0x1D6, 0x55); (0x1D5, 0x1D6, 0x55); (0x1D7, 0x1D8, 0x55);
  (0x1D7, 0x1D8, 0x55); (0x1D9, 0x1DA, 0x55); (0x1D9, 0x1DA, 0x55); (0x1DB, 0x1DC, 0x55); (0x1DB, 0x1DC, 0x55); (0x18E, 0x1DD, 0x18E); (0x1DE, 0x1DF, 0x41); (0x1DE, 0x1DF, 0x41);
  (0x1E0, 0x1E1, 0x41); (0x1E0, 0x1E1, 0x41); (0x1E2, 0x1E3, 0xC6); (0x1E2, 0x1E3, 0xC6); (0x1E4, 0x1E5, 0x1E4); (0x1E4, 0x1E5, 0x1E4); (0x1E6, 0x1E7, 0x47); (0x1E6, 0x1E7, 0x47);
  (0x1E8, 0x1E9, 0x4B); (0x1E8, 0x1E9, 0x4B); (0x1EA, 0x1EB, 0x4F); (0x1EA, 0x1EB, 0x4F); (0x1EC, 0x1ED, 0x4F); (0x1EC, 0x1ED, 0x4F); (0x1EE, 0x1EF, 0x1B7); (0x1EE, 0x1EF, 0x1B7);
  (0x1F0, 0x1F0, 0x4A); (0x1F1, 0x1F3, 0x1F1); (0x1F1, 0x1F3, 0x1F1); (0x1F1, 0x1F3, 0x1F1); (0x1F4, 0x1F5, 0x47); (0x1F4, 0x1F5, 0x47); (0x1F6, 0x195, 0x1F6); (0x1F7, 0x1BF, 0x1F7);
  (0x1F8, 0x1F9, 0x4E); (0x1F8, 0x1F9, 0x4E); (0x1FA, 0x1FB, 0x41); (0x1FA, 0x1FB, 0x41); (0x1FC, 0x1FD, 0xC6); (0x1FC, 0x1FD, 0xC6); (0x1FE, 0x1FF, 0xD8); (0x1FE, 0x1FF, 0xD8)].

Definition plane02 : list MY_UNICASE_INFO := table [
  (0x200, 0x201, 0x41); (0x200, 0x201, 0x41); (0x202, 0x203, 0x41); (0x202, 0x203, 0x41); (0x204, 0x205, 0x45); (0x204, 0x205, 0x45); (0x206, 0x207, 0x45); (0x206, 0x207, 0x45);
  (0x208, 0x209, 0x49); (0x208, 0x209, 0x49); (0x20A, 0x20B, 0x49); (0x20A, 0x20B, 0x49); (0x20C, 0x20D, 0x4F); (0x20C, 0x20D, 0x4F); (0x20E, 0x20F, 0x4F); (0x20E, 0x20F, 0x4F);
  (0x210, 0x211, 0x52); (0x210, 0x211, 0x52); (0x212, 0x213, 0x52); (0x212, 0x213, 0x52); (0x214, 0x215, 0x55); (0x214, 0x215, 0x55); (0x216, 0x217, 0x55); (0x216, 0x217, 0x55);
  (0x218, 0x219, 0x53); (0x218, 0x219, 0x53); (0x21A, 0x21B, 0x54); (0x21A, 0x21B, 0x54); (0x21C, 0x21D, 0x21C); (0x21C, 0x21D, 0x21C); (0x21E, 0x21F, 0x48); (0x21E, 0x21F, 0x48);
  (0x220, 0x220, 0x220); (0x221, 0x221, 0x221); (0x222, 0x223, 0x222); (0x222, 0x223, 0x222); (0x224, 0x225, 0x224); (0x224, 0x225, 0x224); (0x226, 0x227, 0x41); (0x226, 0x227, 0x41);
  (0x228, 0x229, 0x45); (0x228, 0x229, 0x45); (0x22A, 0x22B, 0x4F); (0x22A, 0x22B, 0x4F); (0x22C, 0x22D, 0x4F); (0x22C, 0x22D, 0x4F); (0x22E, 0x22F, 0x4F); (0x22E, 0x22F, 0x4F);
  (0x230, 0x231, 0x4F); (0x230, 0x231, 0x4F); (0x232, 0x233, 0x59); (0x232, 0x233, 0x59); (0x234, 0x234, 0x234); (0x235, 0x235, 0x235); (0x236, 0x236, 0x236); (0x237, 0x237, 0x237);
  (0x238, 0x238, 0x238); (0x239, 0x239, 0x239); (0x23A, 0x23A, 0x23A); (0x23B, 0x23B, 0x23B); (0x23C, 0x23C, 0x23C); (0x23D, 0x23D, 0x23D); (0x23E, 0x23E, 0x23E); (0x23F, 0x23F, 0x23F);
  (0x240, 0x240, 0x240); (0x241, 0x241, 0x241); (0x242, 0x242, 0x242); (0x243, 0x243, 0x243); (0x244, 0x244, 0x244); (0x245, 0x245, 0x245); (0x246, 0x246, 0x246); (0x247, 0x247, 0x247);
  (0x248, 0x248, 0x248); (0x249, 0x249, 0x249); (0x24A, 0x24A, 0x24A); (0x24B, 0x24B, 0x24B); (0x24C, 0x24C, 0x24C); (0x24D, 0x24D, 0x24D); (0x24E, 0x24E, 0x24E); (0x24F, 0x24F, 0x24F);
  (0x250, 0x250, 0x250); (0x251, 0x251, 0x251); (0x252, 0x252, 0x252); (0x181, 0x253, 0x181); (0x186, 0x254, 0x186); (0x255, 0x255, 0x255); (0x189, 0x256, 0x189); (0x18A, 0x257, 0x18A);
  (0x258, 0x258, 0x258); (0x18F, 0x259, 0x18F); (0x25A, 0x25A, 0x25A); (0x190, 0x25B, 0x190); (0x25C, 0x25C, 0x25C); (0x25D, 0x25D, 0x25D); (0x25E, 0x25E, 0x25E); (0x25F, 0x25F, 0x25F);
  (0x193, 0x260, 0x193); (0x261, 0x261, 0x261); (0x262, 0x262, 0x262); (0x194, 0x263, 0x194); (0x264, 0x264, 0x264); (0x265, 0x265, 0x265); (0x266, 0x266, 0x266); (0x267, 0x267, 0x267);
  (0x197, 0x268, 0x197); (0x196, 0x269, 0x196); (0x26A, 0x26A, 0x26A); (0x26B, 0x26B, 0x26B); (0x26C, 0x26C, 0x26C); (0x26D, 0x26D, 0x26D); (0x26E, 0x26E, 0x26E); (0x19C, 0x26F, 0x19C);
  (0x270, 0x270, 0x270); (0x271, 0x271, 0x271); (0x19D, 0x272, 0x19D); (0x273, 0x273, 0x273); (0x274, 0x274, 0x274); (0x19F, 0x275, 0x19F); (0x276, 0x276, 0x276); (0x277, 0x277, 0x277);
  (0x278, 0x278, 0x278); (0x279, 0x279, 0x279); (0x27A, 0x27A, 0x27A); (0x27B, 0x27B, 0x27B); (0x27C, 0x27C, 0x27C); (0x27D, 0x27D, 0x27D); (0x27E, 0x27E, 0x27E); (0x27F, 0x27F, 0x27F);
  (0x1A6, 0x280, 0x1A6); (0x281, 0x281, 0x281); (0x282, 0x282, 0x282); (0x1A9, 0x283, 0x1A9); (0x284, 0x284, 0x284); (0x285, 0x285, 0x285); (0x286, 0x286, 0x286); (0x287, 0x287, 0x287);
  (0x1AE, 0x288, 0x1AE); (0x289, 0x289, 0x289); (0x1B1, 0x28A, 0x1B1); (0x1B2, 0x28B, 0x1B2); (0x28C, 0x28C, 0x28C); (0x28D, 0x28D, 0x28D); (0x28E, 0x28E, 0x28E); (0x28F, 0x28F, 0x28F);
  (0x290, 0x290, 0x290); (0x291, 0x291, 0x291); (0x1B7, 0x292, 0x1B7); (0x293, 0x293, 0x293); (0x294, 0x294, 0x294); (0x295, 0x295, 0x295); (0x296, 0x296, 0x296); (0x297, 0x297, 0x297);
  (0x298, 0x298, 0x298); (0x299, 0x299, 0x299); (0x29A, 0x29A, 0x29A); (0x29B, 0x29B, 0x29B); (0x29C, 0x29C, 0x29C); (0x29D, 0x29D, 0x29D); (0x29E, 0x29E, 0x29E); (0x29F, 0x29F, 0x29F);
  (0x2A0, 0x2A0, 0x2A0); (0x2A1, 0x2A1, 0x2A1); (0x2A2, 0x2A2, 0x2A2); (0x2A3, 0x2A3, 0x2A3); (0x2A4, 0x2A4, 0x2A4); (0x2A5, 0x2A5, 0x2A5); (0x2A6, 0x2A6, 0x2A6); (0x2A7, 0x2A7, 0x2A7);
  (0x2A8, 0x2A8, 0x2A8); (0x2A9, 0x2A9, 0x2A9); (0x2AA, 0x2AA, 0x2AA); (0x2AB, 0x2AB, 0x2AB); (0x2AC, 0x2AC, 0x2AC); (0x2AD, 0x2AD, 0x2AD); (0x2AE, 0x2AE, 0x2AE); (0x2AF, 0x2AF, 0x2AF);
  (0x2B0, 0x2B0, 0x2B0); (0x2B1, 0x2B1, 0x2B1); (0x2B2, 0x2B2, 0x2B2); (0x2B3, 0x2B3, 0x2B3); (0x2B4, 0x2B4, 0x2B4); (0x2B5, 0x2B5, 0x2B5); (0x2B6, 0x2B6, 0x2B6); (0x2B7, 0x2B7, 0x2B7);
  (0x2B8, 0x2B8, 0x2B8); (0x2B9, 0x2B9, 0x2B9); (0x2BA, 0x2BA, 0x2BA); (0x2BB, 0x2BB, 0x2BB); (0x2BC, 0x2BC, 0x2BC); (0x2BD, 0x2BD, 0x2BD); (0x2BE, 0x2BE, 0x2BE); (0x2BF, 0x2BF, 0x2BF);
  (0x2C0, 0x2C0, 0x2C0); (0x2C1, 0x2C1, 0x2C1); (0x2C2, 0x2C2, 0x2C2); (0x2C3, 0x2C3, 0x2C3); (0x2C4, 0x2C4, 0x2C4); (0x2C5, 0x2C5, 0x2C5); (0x2C6, 0x2C6, 0x2C6); (0x2C7, 0x2C7, 0x2C7);
  (0x2C8, 0x2C8, 0x2C8); (0x2C9, 0x2C9, 0x2C9); (0x2CA, 0x2CA, 0x2CA); (0x2CB, 0x2CB, 0x2CB); (0x2CC, 0x2CC, 0x2CC); (0x2CD, 0x2CD, 0x2CD); (0x2CE, 0x2CE, 0x2CE); (0x2CF, 0x2CF, 0x2CF);
  (0x2D0, 0x2D0, 0x2D0); (0x2D1, 0x2D1, 0x2D1); (0x2D2, 0x2D2, 0x2D2); (0x2D3, 0x2D3, 0x2D3); (0x2D4, 0x2D4, 0x2D4); (0x2D5, 0x2D5, 0x2D5); (0x2D6, 0x2D6, 0x2D6); (0x2D7, 0x2D7, 0x2D7);
  (0x2D8, 0x2D8, 0x2D8); (0x2D9, 0x2D9, 0x2D9); (0x2DA, 0x2DA, 0x2DA); (0x2DB, 0x2DB, 0x2DB); (0x2DC, 0x2DC, 0x2DC); (0x2DD, 0x2DD, 0x2DD); (0x2DE, 0x2DE, 0x2DE); (0x2DF, 0x2DF, 0x2DF);
  (0x2E0, 0x2E0, 0x2E0); (0x2E1, 0x2E1, 0x2E1); (0x2E2, 0x2E2, 0x2E2); (0x2E3, 0x2E3, 0x2E3); (0x2E4, 0x2E4, 0x2E4); (0x2E5, 0x2E5, 0x2E5); (0x2E6, 0x2E6, 0x2E6); (0x2E7, 0x2E7, 0x2E7);
  (0x2E8, 0x2E8, 0x2E8); (0x2E9, 0x2E9, 0x2E9); (0x2EA, 0x2EA, 0x2EA); (0x2EB, 0x2EB, 0x2EB); (0x2EC, 0x2EC, 0x2EC); (0x2ED, 0x2ED, 0x2ED); (0x2EE, 0x2EE, 0x2EE); (0x2EF, 0x2EF, 0x2EF);
  (0x2F0, 0x2F0, 0x2F0); (0x2F1, 0x2F1, 0x2F1); (0x2F2, 0x2F2, 0x2F2); (0x2F3, 0x2F3, 0x2F3); (0x2F4, 0x2F4, 0x2F4); (0x2F5, 0x2F5, 0x2F5); (0x2F6, 0x2F6, 0x2F6); (0x2F7, 0x2F7, 0x2F7);
  (0x2F8, 0x2F8, 0x2F8); (0x2F9, 0x2F9, 0x2F9); (0x2FA, 0x2FA, 0x2FA); (0x2FB, 0x2FB, 0x2FB); (0x2FC, 0x2FC, 0x2FC); (0x2FD, 0x2FD, 0x2FD); (0x2FE, 0x2FE, 0x2FE); (0x2FF, 0x2FF, 0x2FF)].

Definition plane03 : list MY_UNICASE_INFO := table [
  (0x300, 0x300, 0x300); (0x301, 0x301, 0x301); (0x302, 0x302, 0x302); (0x303, 0x303, 0x303); (0x304, 0x304, 0x304); (0x305, 0x305, 0x305); (0x306, 0x306, 0x306); (0x307, 0x307, 0x307);
  (0x308, 0x308, 0x308); (0x309, 0x309, 0x309); (0x30A, 0x30A, 0x30A); (0x30B, 0x30B, 0x30B); (0x30C, 0x30C, 0x30C); (0x30D, 0x30D, 0x30D); (0x30E, 0x30E, 0x30E); (0x30F, 0x30F, 0x30F);
  (0x310, 0x310, 0x310); (0x311, 0x311, 0x311); (0x312, 0x312, 0x312); (0x313, 0x313, 0x313); (0x314, 0x314, 0x314); (0x315, 0x315, 0x315); (0x316, 0x316, 0x316); (0x317, 0x317, 0x317);
  (0x318, 0x318, 0x318); (0x319, 0x319, 0x319); (0x31A, 0x31A, 0x31A); (0x31B, 0x31B, 0x31B); (0x31C, 0x31C, 0x31C); (0x31D, 0x31D, 0x31D); (0x31E, 0x31E, 0x31E); (0x31F, 0x31F, 0x31F);
  (0x320, 0x320, 0x320); (0x321, 0x321, 0x321); (0x322, 0x322, 0x322); (0x323, 0x323, 0x323); (0x324, 0x324, 0x324); (0x325, 0x325, 0x325); (0x326, 0x326, 0x326); (0x327, 0x327, 0x327);
  (0x328, 0x328, 0x328); (0x329, 0x329, 0x329); (0x32A, 0x32A, 0x32A); (0x32B, 0x32B, 0x32B); (0x32C, 0x32C, 0x32C); (0x32D, 0x32D, 0x32D); (0x32E, 0x32E, 0x32E); (0x32F, 0x32F, 0x32F);
  (0x330, 0x330, 0x330); (0x331, 0x331, 0x331); (0x332, 0x332, 0x332); (0x333, 0x333, 0x333); (0x334, 0x334, 0x334); (0x335, 0x335, 0x335); (0x336, 0x336, 0x336); (0x337, 0x337, 0x337);
  (0x338, 0x338, 0x338); (0x339, 0x339, 0x339); (0x33A, 0x33A, 0x33A); (0x33B, 0x33B, 0x33B); (0x33C, 0x33C, 0x33C); (0x33D, 0x33D, 0x33D); (0x33E, 0x33E, 0x33E); (0x33F, 0x33F, 0x33F);
  (0x340, 0x340, 0x340); (0x341, 0x341, 0x341); (0x342, 0x342, 0x342); (0x343, 0x343, 0x343); (0x344, 0x344, 0x344); (0x399, 0x345, 0x399); (0x346, 0x346, 0x346); (0x347, 0x347, 0x347);
  (0x348, 0x348, 0x348); (0x349, 0x349, 0x349); (0x34A, 0x34A, 0x34A); (0x34B, 0x34B, 0x34B); (0x34C, 0x34C, 0x34C); (0x34D, 0x34D, 0x34D); (0x34E, 0x34E, 0x34E); (0x34F, 0x34F, 0x34F);
  (0x350, 0x350, 0x350); (0x351, 0x351, 0x351); (0x352, 0x352, 0x352); (0x353, 0x353, 0x353); (0x354, 0x354, 0x354); (0x355, 0x355, 0x355); (0x356, 0x356, 0x356); (0x357, 0x357, 0x357);
  (0x358, 0x358, 0x358); (0x359, 0x359, 0x359); (0x35A, 0x35A, 0x35A); (0x35B, 0x35B, 0x35B); (0x35C, 0x35C, 0x35C); (0x35D, 0x35D, 0x35D); (0x35E, 0x35E, 0x35E); (0x35F, 0x35F, 0x35F);
  (0x360, 0x360, 0x360); (0x361, 0x361, 0x361); (0x362, 0x362, 0x362); (0x363, 0x363, 0x363); (0x364, 0x364, 0x364); (0x365, 0x365, 0x365); (0x366, 0x366, 0x366); (0x367, 0x367, 0x367);
  (0x368, 0x368, 0x368); (0x369, 0x369, 0x369); (0x36A, 0x36A, 0x36A); (0x36B, 0x36B, 0x36B); (0x36C, 0x36C, 0x36C); (0x36D, 0x36D, 0x36D); (0x36E, 0x36E, 0x36E); (0x36F, 0x36F, 0x36F);
  (0x370, 0x370, 0x370); (0x371, 0x371, 0x371); (0x372, 0x372, 0x372); (0x373, 0x373, 0x373); (0x374, 0x374, 0x374); (0x375, 0x375, 0x375); (0x376, 0x376, 0x376); (0x377, 0x377, 0x377);
  (0x378, 0x378, 0x378); (0x379, 0x379, 0x379); (0x37A, 0x37A, 0x37A); (0x37B, 0x37B, 0x37B); (0x37C, 0x37C, 0x37C); (0x37D, 0x37D, 0x37D); (0x37E, 0x37E, 0x37E); (0x37F, 0x37F, 0x37F);
  (0x380, 0x380, 0x380); (0x381, 0x381, 0x381); (0x382, 0x382, 0x382); (0x383, 0x383, 0x383); (0x384, 0x384, 0x384); (0x385, 0x385, 0x385); (0x386, 0x3AC, 0x391); (0x387, 0x387, 0x387);
  (0x388, 0x3AD, 0x395); (0x389, 0x3AE, 0x397); (0x38A, 0x3AF, 0x399); (0x38B, 0x38B, 0x38B); (0x38C, 0x3CC, 0x39F); (0x38D, 0x38D, 0x38D); (0x38E, 0x3CD, 0x3A5); (0x38F, 0x3CE, 0x3A9);
  (0x390, 0x390, 0x399); (0x391, 0x3B1, 0x391); (0x392, 0x3B2, 0x392); (0x393, 0x3B3, 0x393); (0x394, 0x3B4, 0x394); (0x395, 0x3B5, 0x395); (0x396, 0x3B6, 0x396); (0x397, 0x3B7, 0x397);
  (0x398, 0x3B8, 0x398); (0x399, 0x3B9, 0x399); (0x39A, 0x3BA, 0x39A); (0x39B, 0x3BB, 0x39B); (0x39C, 0x3BC, 0x39C); (0x39D, 0x3BD, 0x39D); (0x39E, 0x3BE, 0x39E); (0x39F, 0x3BF, 0x39F);
  (0x3A0, 0x3C0, 0x3A0); (0x3A1, 0x3C1, 0x3A1); (0x3A2, 0x3A2, 0x3A2); (0x3A3, 0x3C3, 0x3A3); (0x3A4, 0x3C4, 0x3A4); (0x3A5, 0x3C5, 0x3A5); (0x3A6, 0x3C6, 0x3A6); (0x3A7, 0x3C7, 0x3A7);
  (0x3A8, 0x3C8, 0x3A8); (0x3A9, 0x3C9, 0x3A9); (0x3AA, 0x3CA, 0x399); (0x3AB, 0x3CB, 0x3A5); (0x386, 0x3AC, 0x391); (0x388, 0x3AD, 0x395); (0x389, 0x3AE, 0x397); (0x38A, 0x3AF, 0x399);
  (0x3B0, 0x3B0, 0x3A5); (0x391, 0x3B1, 0x391); (0x392, 0x3B2, 0x392); (0x393, 0x3B3, 0x393); (0x394, 0x3B4, 0x394); (0x395, 0x3B5, 0x395); (0x396, 0x3B6, 0x396); (0x397, 0x3B7, 0x397);
  (0x398, 0x3B8, 0x398); (0x399, 0x3B9, 0x399); (0x39A, 0x3BA, 0x39A); (0x39B, 0x3BB, 0x39B); (0x39C, 0x3BC, 0x39C); (0x39D, 0x3BD, 0x39D); (0x39E, 0x3BE, 0x39E); (0x39F, 0x3BF, 0x39F);
  (0x3A0, 0x3C0, 0x3A0); (0x3A1, 0x3C1, 0x3A1); (0x3A3, 0x3C2, 0x3A3); (0x3A3, 0x3C3, 0x3A3); (0x3A4, 0x3C4, 0x3A4); (0x3A5, 0x3C5, 0x3A5); (0x3A6, 0x3C6, 0x3A6); (0x3A7, 0x3C7, 0x3A7);
  (0x3A8, 0x3C8, 0x3A8); (0x3A9, 0x3C9, 0x3A9); (0x3AA, 0x3CA, 0x399); (0x3AB, 0x3CB, 0x3A5); (0x38C, 0x3CC, 0x39F); (0x38E, 0x3CD, 0x3A5); (0x38F, 0x3CE, 0x3A9); (0x3CF, 0x3CF, 0x3CF);
  (0x392, 0x3D0, 0x392); (0x398, 0x3D1, 0x398); (0x3D2, 0x3D2, 0x3D2); (0x3D3, 0x3D3, 0x3D2); (0x3D4, 0x3D4, 0x3D2); (0x3A6, 0x3D5, 0x3A6); (0x3A0, 0x3D6, 0x3A0); (0x3D7, 0x3D7, 0x3D7);
  (0x3D8, 0x3D8, 0x3D8); (0x3D9, 0x3D9, 0x3D9); (0x3DA, 0x3DB, 0x3DA); (0x3DA, 0x3DB, 0x3DA); (0x3DC, 0x3DD, 0x3DC); (0x3DC, 0x3DD, 0x3DC); (0x3DE, 0x3DF, 0x3DE); (0x3DE, 0x3DF, 0x3DE);
  (0x3E0, 0x3E1, 0x3E0); (0x3E0, 0x3E1, 0x3E0); (0x3E2, 0x3E3, 0x3E2); (0x3E2, 0x3E3, 0x3E2); (0x3E4, 0x3E5, 0x3E4); (0x3E4, 0x3E5, 0x3E4); (0x3E6, 0x3E7, 0x3E6); (0x3E6, 0x3E7, 0x3E6);
  (0x3E8, 0x3E9, 0x3E8); (0x3E8, 0x3E9, 0x3E8); (0x3EA, 0x3EB, 0x3EA); (0x3EA, 0x3EB, 0x3EA); (0x3EC, 0x3ED, 0x3EC); (0x3EC, 0x3ED, 0x3EC); (0x3EE, 0x3EF, 0x3EE); (0x3EE, 0x3EF, 0x3EE);
  (0x39A, 0x3F0, 0x39A); (0x3A1, 0x3F1, 0x3A1); (0x3A3, 0x3F2, 0x3A3); (0x3F3, 0x3F3, 0x3F3); (0x3F4, 0x3F4, 0x3F4); (0x3F5, 0x3F5, 0x3F5); (0x3F6, 0x3F6, 0x3F6); (0x3F7, 0x3F7, 0x3F7);
  (0x3F8, 0x3F8, 0x3F8); (0x3F9, 0x3F9, 0x3F9); (0x3FA, 0x3FA, 0x3FA); (0x3FB, 0x3FB, 0x3FB); (0x3FC, 0x3FC, 0x3FC); (0x3FD, 0x3FD, 0x3FD); (0x3FE, 0x3FE, 0x3FE); (0x3FF, 0x3FF, 0x3FF)].

Definition plane04 : list MY_UNICASE_INFO := table [
  (0x400, 0x450, 0x415); (0x401, 0x451, 0x415); (0x402, 0x452, 0x402); (0x403, 0x453, 0x413); (0x404, 0x454, 0x404); (0x405, 0x455, 0x405); (0x406, 0x456, 0x406); (0x407, 0x457, 0x406);
  (0x408, 0x458, 0x408); (0x409, 0x459, 0x409); (0x40A, 0x45A, 0x40A); (0x40B, 0x45B, 0x40B); (0x40C, 0x45C, 0x41A); (0x40D, 0x45D, 0x418); (0x40E, 0x45E, 0x423); (0x40F, 0x45F, 0x40F);
  (0x410, 0x430, 0x410); (0x411, 0x431, 0x411); (0x412, 0x432, 0x412); (0x413, 0x433, 0x413); (0x414, 0x434, 0x414); (0x415, 0x435, 0x415); (0x416, 0x436, 0x416); (0x417, 0x437, 0x417);
  (0x418, 0x438, 0x418); (0x419, 0x439, 0x419); (0x41A, 0x43A, 0x41A); (0x41B, 0x43B, 0x41B); (0x41C, 0x43C, 0x41C); (0x41D, 0x43D, 0x41D); (0x41E, 0x43E, 0x41E); (0x41F, 0x43F, 0x41F);
  (0x420, 0x440, 0x420); (0x421, 0x441, 0x421); (0x422, 0x442, 0x422); (0x423, 0x443, 0x423); (0x424, 0x444, 0x424); (0x425, 0x445, 0x425); (0x426, 0x446, 0x426); (0x427, 0x447, 0x427);
  (0x428, 0x448, 0x428); (0x429, 0x449, 0x429); (0x42A, 0x44A, 0x42A); (0x42B, 0x44B, 0x42B); (0x42C, 0x44C, 0x42C); (0x42D, 0x44D, 0x42D); (0x42E, 0x44E, 0x42E); (0x42F, 0x44F, 0x42F);
  (0x410, 0x430, 0x410); (0x411, 0x431, 0x411); (0x412, 0x432, 0x412); (0x413, 0x433, 0x413); (0x414, 0x434, 0x414); (0x415, 0x435, 0x415); (0x416, 0x436, 0x416); (0x417, 0x437, 0x417);
  (0x418, 0x438, 0x418); (0x419, 0x439, 0x419); (0x41A, 0x43A, 0x41A); (0x41B, 0x43B, 0x41B); (0x41C, 0x43C, 0x41C); (0x41D, 0x43D, 0x41D); (0x41E, 0x43E, 0x41E); (0x41F, 0x43F, 0x41F);
  (0x420, 0x440, 0x420); (0x421, 0x441, 0x421); (0x422, 0x442, 0x422); (0x423, 0x443, 0x423); (0x424, 0x444, 0x424); (0x425, 0x445, 0x425); (0x426, 0x446, 0x426); (0x427, 0x447, 0x427);
  (0x428, 0x448, 0x428); (0x429, 0x449, 0x429); (0x42A, 0x44A, 0x42A); (0x42B, 0x44B, 0x42B); (0x42C, 0x44C, 0x42C); (0x42D, 0x44D, 0x42D); (0x42E, 0x44E, 0x42E); (0x42F, 0x44F, 0x42F);
  (0x400, 0x450, 0x415); (0x401, 0x451, 0x415); (0x402, 0x452, 0x402); (0x403, 0x453, 0x413); (0x404, 0x454, 0x404); (0x405, 0x455, 0x405); (0x406, 0x456, 0x406); (0x407, 0x457, 0x406);
  (0x408, 0x458, 0x408); (0x409, 0x459, 0x409); (0x40A, 0x45A, 0x40A); (0x40B, 0x45B, 0x40B); (0x40C, 0x45C, 0x41A); (0x40D, 0x45D, 0x418); (0x40E, 0x45E, 0x423); (0x40F, 0x45F, 0x40F);
  (0x460, 0x461, 0x460); (0x460, 0x461, 0x460); (0x462, 0x463, 0x462); (0x462, 0x463, 0x462); (0x464, 0x465, 0x464); (0x464, 0x465, 0x464); (0x466, 0x467, 0x466); (0x466, 0x467, 0x466);
  (0x468, 0x469, 0x468); (0x468, 0x469, 0x468); (0x46A, 0x46B, 0x46A); (0x46A, 0x46B, 0x46A); (0x46C, 0x46D, 0x46C); (0x46C, 0x46D, 0x46C); (0x46E, 0x46F, 0x46E); (0x46E, 0x46F, 0x46E);
  (0x470, 0x471, 0x470); (0x470, 0x471, 0x470); (0x472, 0x473, 0x472); (0x472, 0x473, 0x472); (0x474, 0x475, 0x474); (0x474, 0x475, 0x474); (0x476, 0x477, 0x474); (0x476, 0x477, 0x474);
  (0x478, 0x479, 0x478); (0x478, 0x479, 0x478); (0x47A, 0x47B, 0x47A); (0x47A, 0x47B, 0x47A); (0x47C, 0x47D, 0x47C); (0x47C, 0x47D, 0x47C); (0x47E, 0x47F, 0x47E); (0x47E, 0x47F, 0x47E);
  (0x480, 0x481, 0x480); (0x480, 0x481, 0x480); (0x482, 0x482, 0x482); (0x483, 0x483, 0x483); (0x484, 0x484, 0x484); (0x485, 0x485, 0x485); (0x486, 0x486, 0x486); (0x487, 0x487, 0x487);
  (0x488, 0x488, 0x488); (0x489, 0x489, 0x489); (0x48A, 0x48A, 0x48A); (0x48B, 0x48B, 0x48B); (0x48C, 0x48D, 0x48C); (0x48C, 0x48D, 0x48C); (0x48E, 0x48F, 0x48E); (0x48E, 0x48F, 0x48E);
  (0x490, 0x491, 0x490); (0x490, 0x491, 0x490); (0x492, 0x493, 0x492); (0x492, 0x493, 0x492); (0x494, 0x495, 0x494); (0x494, 0x495, 0x494); (0x496, 0x497, 0x496); (0x496, 0x497, 0x496);
  (0x498, 0x499, 0x498); (0x498, 0x499, 0x498); (0x49A, 0x49B, 0x49A); (0x49A, 0x49B, 0x49A); (0x49C, 0x49D, 0x49C); (0x49C, 0x49D, 0x49C); (0x49E, 0x49F, 0x49E); (0x49E, 0x49F, 0x49E);
  (0x4A0, 0x4A1, 0x4A0); (0x4A0, 0x4A1, 0x4A0); (0x4A2, 0x4A3, 0x4A2); (0x4A2, 0x4A3, 0x4A2); (0x4A4, 0x4A5, 0x4A4); (0x4A4, 0x4A5, 0x4A4); (0x4A6, 0x4A7, 0x4A6); (0x4A6, 0x4A7, 0x4A6);
  (0x4A8, 0x4A9, 0x4A8); (0x4A8, 0x4A9, 0x4A8); (0x4AA, 0x4AB, 0x4AA); (0x4AA, 0x4AB, 0x4AA); (0x4AC, 0x4AD, 0x4AC); (0x4AC, 0x4AD, 0x4AC); (0x4AE, 0x4AF, 0x4AE); (0x4AE, 0x4AF, 0x4AE);
  (0x4B0, 0x4B1, 0x4B0); (0x4B0, 0x4B1, 0x4B0); (0x4B2, 0x4B3, 0x4B2); (0x4B2, 0x4B3, 0x4B2); (0x4B4, 0x4B5, 0x4B4); (0x4B4, 0x4B5, 0x4B4); (0x4B6, 0x4B7, 0x4B6); (0x4B6, 0x4B7, 0x4B6);
  (0x4B8, 0x4B9, 0x4B8); (0x4B8, 0x4B9, 0x4B8); (0x4BA, 0x4BB, 0x4BA); (0x4BA, 0x4BB, 0x4BA); (0x4BC, 0x4BD, 0x4BC); (0x4BC, 0x4BD, 0x4BC); (0x4BE, 0x4BF, 0x4BE); (0x4BE, 0x4BF, 0x4BE);
  (0x4C0, 0x4C0, 0x4C0); (0x4C1, 0x4C2, 0x416); (0x4C1, 0x4C2, 0x416); (0x4C3, 0x4C4, 0x4C3); (0x4C3, 0x4C4, 0x4C3); (0x4C5, 0x4C5, 0x4C5); (0x4C6, 0x4C6, 0x4C6); (0x4C7, 0x4C8, 0x4C7);
  (0x4C7, 0x4C8, 0x4C7); (0x4C9, 0x4C9, 0x4C9); (0x4CA, 0x4CA, 0x4CA); (0x4CB, 0x4CC, 0x4CB); (0x4CB, 0x4CC, 0x4CB); (0x4CD, 0x4CD, 0x4CD); (0x4CE, 0x4CE, 0x4CE); (0x4CF, 0x4CF, 0x4CF);
  (0x4D0, 0x4D1, 0x410); (0x4D0, 0x4D1, 0x410); (0x4D2, 0x4D3, 0x410); (0x4D2, 0x4D3, 0x410); (0x4D4, 0x4D5, 0x4D4); (0x4D4, 0x4D5, 0x4D4); (0x4D6, 0x4D7, 0x415); (0x4D6, 0x4D7, 0x415);
  (0x4D8, 0x4D9, 0x4D8); (0x4D8, 0x4D9, 0x4D8); (0x4DA, 0x4DB, 0x4D8); (0x4DA, 0x4DB, 0x4D8); (0x4DC, 0x4DD, 0x416); (0x4DC, 0x4DD, 0x416); (0x4DE, 0x4DF, 0x417); (0x4DE, 0x4DF, 0x417);
  (0x4E0, 0x4E1, 0x4E0); (0x4E0, 0x4E1, 0x4E0); (0x4E2, 0x4E3, 0x418); (0x4E2, 0x4E3, 0x418); (0x4E4, 0x4E5, 0x418); (0x4E4, 0x4E5, 0x418); (0x4E6, 0x4E7, 0x41E); (0x4E6, 0x4E7, 0x41E);
  (0x4E8, 0x4E9, 0x4E8); (0x4E8, 0x4E9, 0x4E8); (0x4EA, 0x4EB, 0x4E8); (0x4EA, 0x4EB, 0x4E8); (0x4EC, 0x4ED, 0x42D); (0x4EC, 0x4ED, 0x42D); (0x4EE, 0x4EF, 0x423); (0x4EE, 0x4EF, 0x423);
  (0x4F0, 0x4F1, 0x423); (0x4F0, 0x4F1, 0x423); (0x4F2, 0x4F3, 0x423); (0x4F2, 0x4F3, 0x423); (0x4F4, 0x4F5, 0x427); (0x4F4, 0x4F5, 0x427); (0x4F6, 0x4F6, 0x4F6); (0x4F7, 0x4F7, 0x4F7);
  (0x4F8, 0x4F9, 0x42B); (0x4F8, 0x4F9, 0x42B); (0x4FA, 0x4FA, 0x4FA); (0x4FB, 0x4FB, 0x4FB); (0x4FC, 0x4FC, 0x4FC); (0x4FD, 0x4FD, 0x4FD); (0x4FE, 0x4FE, 0x4FE); (0x4FF, 0x4FF, 0x4FF)].

Definition plane05 : list MY_UNICASE_INFO := table [
  (0x500, 0x500, 0x500); (0x501, 0x501, 0x501); (0x502, 0x502, 0x502); (0x503, 0x503, 0x503); (0x504, 0x504, 0x504); (0x505, 0x505, 0x505); (0x506, 0x506, 0x506); (0x507, 0x507, 0x507);
  (0x508, 0x508, 0x508); (0x509, 0x509, 0x509); (0x50A, 0x50A, 0x50A); (0x50B, 0x50B, 0x50B); (0x50C, 0x50C, 0x50C); (0x50D, 0x50D, 0x50D); (0x50E, 0x50E, 0x50E); (0x50F, 0x50F, 0x50F);
  (0x510, 0x510, 0x510); (0x511, 0x511, 0x511); (0x512, 0x512, 0x512); (0x513, 0x513, 0x513); (0x514, 0x514, 0x514); (0x515, 0x515, 0x515); (0x516, 0x516, 0x516); (0x517, 0x517, 0x517);
  (0x518, 0x518, 0x518); (0x519, 0x519, 0x519); (0x51A, 0x51A, 0x51A); (0x51B, 0x51B, 0x51B); (0x51C, 0x51C, 0x51C); (0x51D, 0x51D, 0x51D); (0x51E, 0x51E, 0x51E); (0x51F, 0x51F, 0x51F);
  (0x520, 0x520, 0x520); (0x521, 0x521, 0x521); (0x522, 0x522, 0x522); (0x523, 0x523, 0x523); (0x524, 0x524, 0x524); (0x525, 0x525, 0x525); (0x526, 0x526, 0x526); (0x527, 0x527, 0x527);
  (0x528, 0x528, 0x528); (0x529, 0x529, 0x529); (0x52A, 0x52A, 0x52A); (0x52B, 0x52B, 0x52B); (0x52C, 0x52C, 0x52C); (0x52D, 0x52D, 0x52D); (0x52E, 0x52E, 0x52E); (0x52F, 0x52F, 0x52F);
  (0x530, 0x530, 0x530); (0x531, 0x561, 0x531); (0x532, 0x562, 0x532); (0x533, 0x563, 0x533); (0x534, 0x564, 0x534); (0x535, 0x565, 0x535); (0x536, 0x566, 0x536); (0x537, 0x567, 0x537);
  (0x538, 0x568, 0x538); (0x539, 0x569, 0x539); (0x53A, 0x56A, 0x53A); (0x53B, 0x56B, 0x53B); (0x53C, 0x56C, 0x53C); (0x53D, 0x56D, 0x53D); (0x53E, 0x56E, 0x53E); (0x53F, 0x56F, 0x53F);
  (0x540, 0x570, 0x540); (0x541, 0x571, 0x541); (0x542, 0x572, 0x542); (0x543, 0x573, 0x543); (0x544, 0x574, 0x544); (0x545, 0x575, 0x545); (0x546, 0x576, 0x546); (0x547, 0x577, 0x547);
  (0x548, 0x578, 0x548); (0x549, 0x579, 0x549); (0x54A, 0x57A, 0x54A); (0x54B, 0x57B, 0x54B); (0x54C, 0x57C, 0x54C); (0x54D, 0x57D, 0x54D); (0x54E, 0x57E, 0x54E); (0x54F, 0x57F, 0x54F);
  (0x550, 0x580, 0x550); (0x551, 0x581, 0x551); (0x552, 0x582, 0x552); (0x553, 0x583, 0x553); (0x554, 0x584, 0x554); (0x555, 0x585, 0x555); (0x556, 0x586, 0x556); (0x557, 0x557, 0x557);
  (0x558, 0x558, 0x558); (0x559, 0x559, 0x559); (0x55A, 0x55A, 0x55A); (0x55B, 0x55B, 0x55B); (0x55C, 0x55C, 0x55C); (0x55D, 0x55D, 0x55D); (0x55E, 0x55E, 0x55E); (0x55F, 0x55F, 0x55F);
  (0x560, 0x560, 0x560); (0x531, 0x561, 0x531); (0x532, 0x562, 0x532); (0x533, 0x563, 0x533); (0x534, 0x564, 0x534); (0x535, 0x565, 0x535); (0x536, 0x566, 0x536); (0x537, 0x567, 0x537);
  (0x538, 0x568, 0x538); (0x539, 0x569, 0x539); (0x53A, 0x56A, 0x53A); (0x53B, 0x56B, 0x53B); (0x53C, 0x56C, 0x53C); (0x53D, 0x56D, 0x53D); (0x53E, 0x56E, 0x53E); (0x53F, 0x56F, 0x53F);
  (0x540, 0x570, 0x540); (0x541, 0x571, 0x541); (0x542, 0x572, 0x542); (0x543, 0x573, 0x543); (0x544, 0x574, 0x544); (0x545, 0x575, 0x545); (0x546, 0x576, 0x546); (0x547, 0x577, 0x547);
  (0x548, 0x578, 0x548); (0x549, 0x579, 0x549); (0x54A, 0x57A, 0x54A); (0x54B, 0x57B, 0x54B); (0x54C, 0x57C, 0x54C); (0x54D, 0x57D, 0x54D); (0x54E, 0x57E, 0x54E); (0x54F, 0x57F, 0x54F);
  (0x550, 0x580, 0x550); (0x551, 0x581, 0x551); (0x552, 0x582, 0x552); (0x553, 0x583, 0x553); (0x554, 0x584, 0x554); (0x555, 0x585, 0x555); (0x556, 0x586, 0x556); (0x587, 0x587, 0x587);
  (0x588, 0x588, 0x588); (0x589, 0x589, 0x589); (0x58A, 0x58A, 0x58A); (0x58B, 0x58B, 0x58B); (0x58C, 0x58C, 0x58C); (0x58D, 0x58D, 0x58D); (0x58E, 0x58E, 0x58E); (0x58F, 0x58F, 0x58F);
  (0x590, 0x590, 0x590); (0x591, 0x591, 0x591); (0x592, 0x592, 0x592); (0x593, 0x593, 0x593); (0x594, 0x594, 0x594); (0x595, 0x595, 0x595); (0x596, 0x596, 0x596); (0x597, 0x597, 0x597);
  (0x598, 0x598, 0x598); (0x599, 0x599, 0x599); (0x59A, 0x59A, 0x59A); (0x59B, 0x59B, 0x59B); (0x59C, 0x59C, 0x59C); (0x59D, 0x59D, 0x59D); (0x59E, 0x59E, 0x59E); (0x59F, 0x59F, 0x59F);
  (0x5A0, 0x5A0, 0x5A0); (0x5A1, 0x5A1, 0x5A1); (0x5A2, 0x5A2, 0x5A2); (0x5A3, 0x5A3, 0x5A3); (0x5A4, 0x5A4, 0x5A4); (0x5A5, 0x5A5, 0x5A5); (0x5A6, 0x5A6, 0x5A6); (0x5A7, 0x5A7, 0x5A7);
  (0x5A8, 0x5A8, 0x5A8); (0x5A9, 0x5A9, 0x5A9); (0x5AA, 0x5AA, 0x5AA); (0x5AB, 0x5AB, 0x5AB); (0x5AC, 0x5AC, 0x5AC); (0x5AD, 0x5AD, 0x5AD); (0x5AE, 0x5AE, 0x5AE); (0x5AF, 0x5AF, 0x5AF);
  (0x5B0, 0x5B0, 0x5B0); (0x5B1, 0x5B1, 0x5B1); (0x5B2, 0x5B2, 0x5B2); (0x5B3, 0x5B3, 0x5B3); (0x5B4, 0x5B4, 0x5B4); (0x5B5, 0x5B5, 0x5B5); (0x5B6, 0x5B6, 0x5B6); (0x5B7, 0x5B7, 0x5B7);
  (0x5B8, 0x5B8, 0x5B8); (0x5B9, 0x5B9, 0x5B9); (0x5BA, 0x5BA, 0x5BA); (0x5BB, 0x5BB, 0x5BB); (0x5BC, 0x5BC, 0x5BC); (0x5BD, 0x5BD, 0x5BD); (0x5BE, 0x5BE, 0x5BE); (0x5BF, 0x5BF, 0x5BF);
  (0x5C0, 0x5C0, 0x5C0); (0x5C1, 0x5C1, 0x5C1); (0x5C2, 0x5C2, 0x5C2); (0x5C3, 0x5C3, 0x5C3); (0x5C4, 0x5C4, 0x5C4); (0x5C5, 0x5C5, 0x5C5); (0x5C6, 0x5C6, 0x5C6); (0x5C7, 0x5C7, 0x5C7);
  (0x5C8, 0x5C8, 0x5C8); (0x5C9, 0x5C9, 0x5C9); (0x5CA, 0x5CA, 0x5CA); (0x5CB, 0x5CB, 0x5CB); (0x5CC, 0x5CC, 0x5CC); (0x5CD, 0x5CD, 0x5CD); (0x5CE, 0x5CE, 0x5CE); (0x5CF, 0x5CF, 0x5CF);
  (0x5D0, 0x5D0, 0x5D0); (0x5D1, 0x5D1, 0x5D1); (0x5D2, 0x5D2, 0x5D2); (0x5D3, 0x5D3, 0x5D3); (0x5D4, 0x5D4, 0x5D4); (0x5D5, 0x5D5, 0x5D5); (0x5D6, 0x5D6, 0x5D6); (0x5D7, 0x5D7, 0x5D7);
  (0x5D8, 0x5D8, 0x5D8); (0x5D9, 0x5D9, 0x5D9); (0x5DA, 0x5DA, 0x5DA); (0x5DB, 0x5DB, 0x5DB); (0x5DC, 0x5DC, 0x5DC); (0x5DD, 0x5DD, 0x5DD); (0x5DE, 0x5DE, 0x5DE); (0x5DF, 0x5DF, 0x5DF);
  (0x5E0, 0x5E0, 0x5E0); (0x5E1, 0x5E1, 0x5E1); (0x5E2, 0x5E2, 0x5E2); (0x5E3, 0x5E3, 0x5E3); (0x5E4, 0x5E4, 0x5E4); (0x5E5, 0x5E5, 0x5E5); (0x5E6, 0x5E6, 0x5E6); (0x5E7, 0x5E7, 0x5E7);
  (0x5E8, 0x5E8, 0x5E8); (0x5E9, 0x5E9, 0x5E9); (0x5EA, 0x5EA, 0x5EA); (0x5EB, 0x5EB, 0x5EB); (0x5EC, 0x5EC, 0x5EC); (0x5ED, 0x5ED, 0x5ED); (0x5EE, 0x5EE, 0x5EE); (0x5EF, 0x5EF, 0x5EF);
  (0x5F0, 0x5F0, 0x5F0); (0x5F1, 0x5F1, 0x5F1); (0x5F2, 0x5F2, 0x5F2); (0x5F3, 0x5F3, 0x5F3); (0x5F4, 0x5F4, 0x5F4); (0x5F5, 0x5F5, 0x5F5); (0x5F6, 0x5F6, 0x5F6); (0x5F7, 0x5F7, 0x5F7);
  (0x5F8, 0x5F8, 0x5F8); (0x5F9, 0x5F9, 0x5F9); (0x5FA, 0x5FA, 0x5FA); (0x5FB, 0x5FB, 0x5FB); (0x5FC, 0x5FC, 0x5FC); (0x5FD, 0x5FD, 0x5FD); (0x5FE, 0x5FE, 0x5FE); (0x5FF, 0x5FF, 0x5FF)].

Definition plane1E : list MY_UNICASE_INFO := table [
  (0x1E00, 0x1E01, 0x41); (0x1E00, 0x1E01, 0x41); (0x1E02, 0x1E03, 0x42); (0x1E02, 0x1E03, 0x42); (0x1E04, 0x1E05, 0x42); (0x1E04, 0x1E05, 0x42); (0x1E06, 0x1E07, 0x42); (0x1E06, 0x1E07, 0x42);
  (0x1E08, 0x1E09, 0x43); (0x1E08, 0x1E09, 0x43); (0x1E0A, 0x1E0B, 0x44); (0x1E0A, 0x1E0B, 0x44); (0x1E0C, 0x1E0D, 0x44); (0x1E0C, 0x1E0D, 0x44); (0x1E0E, 0x1E0F, 0x44); (0x1E0E, 0x1E0F, 0x44);
  (0x1E10, 0x1E11, 0x44); (0x1E10, 0x1E11, 0x44); (0x1E12, 0x1E13, 0x44); (0x1E12, 0x1E13, 0x44); (0x1E14, 0x1E15, 0x45); (0x1E14, 0x1E15, 0x45); (0x1E16, 0x1E17, 0x45); (0x1E16, 0x1E17, 0x45);
  (0x1E18, 0x1E19, 0x45); (0x1E18, 0x1E19, 0x45); (0x1E1A, 0x1E1B, 0x45); (0x1E1A, 0x1E1B, 0x45); (0x1E1C, 0x1E1D, 0x45); (0x1E1C, 0x1E1D, 0x45); (0x1E1E, 0x1E1F, 0x46); (0x1E1E, 0x1E1F, 0x46);
  (0x1E20, 0x1E21, 0x47); (0x1E20, 0x1E21, 0x47); (0x1E22, 0x1E23, 0x48); (0x1E22, 0x1E23, 0x48); (0x1E24, 0x1E25, 0x48); (0x1E24, 0x1E25, 0x48); (0x1E26, 0x1E27, 0x48); (0x1E26, 0x1E27, 0x48);
  (0x1E28, 0x1E29, 0x48); (0x1E28, 0x1E29, 0x48); (0x1E2A, 0x1E2B, 0x48); (0x1E2A, 0x1E2B, 0x48); (0x1E2C, 0x1E2D, 0x49); (0x1E2C, 0x1E2D, 0x49); (0x1E2E, 0x1E2F, 0x49); (0x1E2E, 0x1E2F, 0x49);
  (0x1E30, 0x1E31, 0x4B); (0x1E30, 0x1E31, 0x4B); (0x1E32, 0x1E33, 0x4B); (0x1E32, 0x1E33, 0x4B); (0x1E34, 0x1E35, 0x4B); (0x1E34, 0x1E35, 0x4B); (0x1E36, 0x1E37, 0x4C); (0x1E36, 0x1E37, 0x4C);
  (0x1E38, 0x1E39, 0x4C); (0x1E38, 0x1E39, 0x4C); (0x1E3A, 0x1E3B, 0x4C); (0x1E3A, 0x1E3B, 0x4C); (0x1E3C, 0x1E3D, 0x4C); (0x1E3C, 0x1E3D, 0x4C); (0x1E3E, 0x1E3F, 0x4D); (0x1E3E, 0x1E3F, 0x4D);
  (0x1E40, 0x1E41, 0x4D); (0x1E40, 0x1E41, 0x4D); (0x1E42, 0x1E43, 0x4D); (0x1E42, 0x1E43, 0x4D); (0x1E44, 0x1E45, 0x4E); (0x1E44, 0x1E45, 0x4E); (0x1E46, 0x1E47, 0x4E); (0x1E46, 0x1E47, 0x4E);
  (0x1E48, 0x1E49, 0x4E); (0x1E48, 0x1E49, 0x4E); (0x1E4A, 0x1E4B, 0x4E); (0x1E4A, 0x1E4B, 0x4E); (0x1E4C, 0x1E4D, 0x4F); (0x1E4C, 0x1E4D, 0x4F); (0x1E4E, 0x1E4F, 0x4F); (0x1E4E, 0x1E4F, 0x4F);
  (0x1E50, 0x1E51, 0x4F); (0x1E50, 0x1E51, 0x4F); (0x1E52, 0x1E53, 0x4F); (0x1E52, 0x1E53, 0x4F); (0x1E54, 0x1E55, 0x50); (0x1E54, 0x1E55, 0x50); (0x1E56, 0x1E57, 0x50); (0x1E56, 0x1E57, 0x50);
  (0x1E58, 0x1E59, 0x52); (0x1E58, 0x1E59, 0x52); (0x1E5A, 0x1E5B, 0x52); (0x1E5A, 0x1E5B, 0x52); (0x1E5C, 0x1E5D, 0x52); (0x1E5C, 0x1E5D, 0x52); (0x1E5E, 0x1E5F, 0x52); (0x1E5E, 0x1E5F, 0x52);
  (0x1E60, 0x1E61, 0x53); (0x1E60, 0x1E61, 0x53); (0x1E62, 0x1E63, 0x53); (0x1E62, 0x1E63, 0x53); (0x1E64, 0x1E65, 0x53); (0x1E64, 0x1E65, 0x53); (0x1E66, 0x1E67, 0x53); (0x1E66, 0x1E67, 0x53);
  (0x1E68, 0x1E69, 0x53); (0x1E68, 0x1E69, 0x53); (0x1E6A, 0x1E6B, 0x54); (0x1E6A, 0x1E6B, 0x54); (0x1E6C, 0x1E6D, 0x54); (0x1E6C, 0x1E6D, 0x54); (0x1E6E, 0x1E6F, 0x54); (0x1E6E, 0x1E6F, 0x54);
  (0x1E70, 0x1E71, 0x54); (0x1E70, 0x1E71, 0x54); (0x1E72, 0x1E73, 0x55); (0x1E72, 0x1E73, 0x55); (0x1E74, 0x1E75, 0x55); (0x1E74, 0x1E75, 0x55); (0x1E76, 0x1E77, 0x55); (0x1E76, 0x1E77, 0x55);
  (0x1E78, 0x1E79, 0x55); (0x1E78, 0x1E79, 0x55); (0x1E7A, 0x1E7B, 0x55); (0x1E7A, 0x1E7B, 0x55); (0x1E7C, 0x1E7D, 0x56); (0x1E7C, 0x1E7D, 0x56); (0x1E7E, 0x1E7F, 0x56); (0x1E7E, 0x1E7F, 0x56);
  (0x1E80, 0x1E81, 0x57); (0x1E80, 0x1E81, 0x57); (0x1E82, 0x1E83, 0x57); (0x1E82, 0x1E83, 0x57); (0x1E84, 0x1E85, 0x57); (0x1E84, 0x1E85, 0x57); (0x1E86, 0x1E87, 0x57); (0x1E86, 0x1E87, 0x57);
  (0x1E88, 0x1E89, 0x57); (0x1E88, 0x1E89, 0x57); (0x1E8A, 0x1E8B, 0x58); (0x1E8A, 0x1E8B, 0x58); (0x1E8C, 0x1E8D, 0x58); (0x1E8C, 0x1E8D, 0x58); (0x1E8E, 0x1E8F, 0x59); (0x1E8E, 0x1E8F, 0x59);
  (0x1E90, 0x1E91, 0x5A); (0x1E90, 0x1E91, 0x5A); (0x1E92, 0x1E93, 0x5A); (0x1E92, 0x1E93, 0x5A); (0x1E94, 0x1E95, 0x5A); (0x1E94, 0x1E95, 0x5A); (0x1E96, 0x1E96, 0x48); (0x1E97, 0x1E97, 0x54);
  (0x1E98, 0x1E98, 0x57); (0x1E99, 0x1E99, 0x59); (0x1E9A, 0x1E9A, 0x1E9A); (0x1E60, 0x1E9B, 0x53); (0x1E9C, 0x1E9C, 0x1E9C); (0x1E9D, 0x1E9D, 0x1E9D); (0x1E9E, 0x1E9E, 0x1E9E); (0x1E9F, 0x1E9F, 0x1E9F);
  (0x1EA0, 0x1EA1, 0x41); (0x1EA0, 0x1EA1, 0x41); (0x1EA2, 0x1EA3, 0x41); (0x1EA2, 0x1EA3, 0x41); (0x1EA4, 0x1EA5, 0x41); (0x1EA4, 0x1EA5, 0x41); (0x1EA6, 0x1EA7, 0x41); (0x1EA6, 0x1EA7, 0x41);
  (0x1EA8, 0x1EA9, 0x41); (0x1EA8, 0x1EA9, 0x41); (0x1EAA, 0x1EAB, 0x41); (0x1EAA, 0x1EAB, 0x41); (0x1EAC, 0x1EAD, 0x41); (0x1EAC, 0x1EAD, 0x41); (0x1EAE, 0x1EAF, 0x41); (0x1EAE, 0x1EAF, 0x41);
  (0x1EB0, 0x1EB1, 0x41); (0x1EB0, 0x1EB1, 0x41); (0x1EB2, 0x1EB3, 0x41); (0x1EB2, 0x1EB3, 0x41); (0x1EB4, 0x1EB5, 0x41); (0x1EB4, 0x1EB5, 0x41); (0x1EB6, 0x1EB7, 0x41); (0x1EB6, 0x1EB7, 0x41);
  (0x1EB8, 0x1EB9, 0x45); (0x1EB8, 0x1EB9, 0x45); (0x1EBA, 0x1EBB, 0x45); (0x1EBA, 0x1EBB, 0x45); (0x1EBC, 0x1EBD, 0x45); (0x1EBC, 0x1EBD, 0x45); (0x1EBE, 0x1EBF, 0x45); (0x1EBE, 0x1EBF, 0x45);
  (0x1EC0, 0x1EC1, 0x45); (0x1EC0, 0x1EC1, 0x45); (0x1EC2, 0x1EC3, 0x45); (0x1EC2, 0x1EC3, 0x45); (0x1EC4, 0x1EC5, 0x45); (0x1EC4, 0x1EC5, 0x45); (0x1EC6, 0x1EC7, 0x45); (0x1EC6, 0x1EC7, 0x45);
  (0x1EC8, 0x1EC9, 0x49); (0x1EC8, 0x1EC9, 0x49); (0x1ECA, 0x1ECB, 0x49); (0x1ECA, 0x1ECB, 0x49); (0x1ECC, 0x1ECD, 0x4F); (0x1ECC, 0x1ECD, 0x4F); (0x1ECE, 0x1ECF, 0x4F); (0x1ECE, 0x1ECF, 0x4F);
  (0x1ED0, 0x1ED1, 0x4F); (0x1ED0, 0x1ED1, 0x4F); (0x1ED2, 0x1ED3, 0x4F); (0x1ED2, 0x1ED3, 0x4F); (0x1ED4, 0x1ED5, 0x4F); (0x1ED4, 0x1ED5, 0x4F); (0x1ED6, 0x1ED7, 0x4F); (0x1ED6, 0x1ED7, 0x4F);
  (0x1ED8, 0x1ED9, 0x4F); (0x1ED8, 0x1ED9, 0x4F); (0x1EDA, 0x1EDB, 0x4F); (0x1EDA, 0x1EDB, 0x4F); (0x1EDC, 0x1EDD, 0x4F); (0x1EDC, 0x1EDD, 0x4F); (0x1EDE, 0x1EDF, 0x4F); (0x1EDE, 0x1EDF, 0x4F);
  (0x1EE0, 0x1EE1, 0x4F); (0x1EE0, 0x1EE1, 0x4F); (0x1EE2, 0x1EE3, 0x4F); (0x1EE2, 0x1EE3, 0x4F); (0x1EE4, 0x1EE5, 0x55); (0x1EE4, 0x1EE5, 0x55); (0x1EE6, 0x1EE7, 0x55); (0x1EE6, 0x1EE7, 0x55);
  (0x1EE8, 0x1EE9, 0x55); (0x1EE8, 0x1EE9, 0x55); (0x1EEA, 0x1EEB, 0x55); (0x1EEA, 0x1EEB, 0x55); (0x1EEC, 0x1EED, 0x55); (0x1EEC, 0x1EED, 0x55); (0x1EEE, 0x1EEF, 0x55); (0x1EEE, 0x1EEF, 0x55);
  (0x1EF0, 0x1EF1, 0x55); (0x1EF0, 0x1EF1, 0x55); (0x1EF2, 0x1EF3, 0x59); (0x1EF2, 0x1EF3, 0x59); (0x1EF4, 0x1EF5, 0x59); (0x1EF4, 0x1EF5, 0x59); (0x1EF6, 0x1EF7, 0x59); (0x1EF6, 0x1EF7, 0x59);
  (0x1EF8, 0x1EF9, 0x59); (0x1EF8, 0x1EF9, 0x59); (0x1EFA, 0x1EFA, 0x1EFA); (0x1EFB, 0x1EFB, 0x1EFB); (0x1EFC, 0x1EFC, 0x1EFC); (0x1EFD, 0x1EFD, 0x1EFD); (0x1EFE, 0x1EFE, 0x1EFE); (0x1EFF, 0x1EFF, 0x1EFF)].

Definition plane1F : list MY_UNICASE_INFO := table [
  (0x1F08, 0x1F00, 0x391); (0x1F09, 0x1F01, 0x391); (0x1F0A, 0x1F02, 0x391); (0x1F0B, 0x1F03, 0x391); (0x1F0C, 0x1F04, 0x391); (0x1F0D, 0x1F05, 0x391); (0x1F0E, 0x1F06, 0x391); (0x1F0F, 0x1F07, 0x391);
  (0x1F08, 0x1F00, 0x391); (0x1F09, 0x1F01, 0x391); (0x1F0A, 0x1F02, 0x391); (0x1F0B, 0x1F03, 0x391); (0x1F0C, 0x1F04, 0x391); (0x1F0D, 0x1F05, 0x391); (0x1F0E, 0x1F06, 0x391); (0x1F0F, 0x1F07, 0x391);
  (0x1F18, 0x1F10, 0x395); (0x1F19, 0x1F11, 0x395); (0x1F1A, 0x1F12, 0x395); (0x1F1B, 0x1F13, 0x395); (0x1F1C, 0x1F14, 0x395); (0x1F1D, 0x1F15, 0x395); (0x1F16, 0x1F16, 0x1F16); (0x1F17, 0x1F17, 0x1F17);
  (0x1F18, 0x1F10, 0x395); (0x1F19, 0x1F11, 0x395); (0x1F1A, 0x1F12, 0x395); (0x1F1B, 0x1F13, 0x395); (0x1F1C, 0x1F14, 0x395); (0x1F1D, 0x1F15, 0x395); (0x1F1E, 0x1F1E, 0x1F1E); (0x1F1F, 0x1F1F, 0x1F1F);
  (0x1F28, 0x1F20, 0x397); (0x1F29, 0x1F21, 0x397); (0x1F2A, 0x1F22, 0x397); (0x1F2B, 0x1F23, 0x397); (0x1F2C, 0x1F24, 0x397); (0x1F2D, 0x1F25, 0x397); (0x1F2E, 0x1F26, 0x397); (0x1F2F, 0x1F27, 0x397);
  (0x1F28, 0x1F20, 0x397); (0x1F29, 0x1F21, 0x397); (0x1F2A, 0x1F22, 0x397); (0x1F2B, 0x1F23, 0x397); (0x1F2C, 0x1F24, 0x397); (0x1F2D, 0x1F25, 0x397); (0x1F2E, 0x1F26, 0x397); (0x1F2F, 0x1F27, 0x397);
  (0x1F38, 0x1F30, 0x399); (0x1F39, 0x1F31, 0x399); (0x1F3A, 0x1F32, 0x399); (0x1F3B, 0x1F33, 0x399); (0x1F3C, 0x1F34, 0x399); (0x1F3D, 0x1F35, 0x399); (0x1F3E, 0x1F36, 0x399); (0x1F3F, 0x1F37, 0x399);
  (0x1F38, 0x1F30, 0x399); (0x1F39, 0x1F31, 0x399); (0x1F3A, 0x1F32, 0x399); (0x1F3B, 0x1F33, 0x399); (0x1F3C, 0x1F34, 0x399); (0x1F3D, 0x1F35, 0x399); (0x1F3E, 0x1F36, 0x399); (0x1F3F, 0x1F37, 0x399);
  (0x1F48, 0x1F40, 0x39F); (0x1F49, 0x1F41, 0x39F); (0x1F4A, 0x1F42, 0x39F); (0x1F4B, 0x1F43, 0x39F); (0x1F4C, 0x1F44, 0x39F); (0x1F4D, 0x1F45, 0x39F); (0x1F46, 0x1F46, 0x1F46); (0x1F47, 0x1F47, 0x1F47);
  (0x1F48, 0x1F40, 0x39F); (0x1F49, 0x1F41, 0x39F); (0x1F4A, 0x1F42, 0x39F); (0x1F4B, 0x1F43, 0x39F); (0x1F4C, 0x1F44, 0x39F); (0x1F4D, 0x1F45, 0x39F); (0x1F4E, 0x1F4E, 0x1F4E); (0x1F4F, 0x1F4F, 0x1F4F);
  (0x1F50, 0x1F50, 0x3A5); (0x1F59, 0x1F51, 0x3A5); (0x1F52, 0x1F52, 0x3A5); (0x1F5B, 0x1F53, 0x3A5); (0x1F54, 0x1F54, 0x3A5); (0x1F5D, 0x1F55, 0x3A5); (0x1F56, 0x1F56, 0x3A5); (0x1F5F, 0x1F57, 0x3A5);
  (0x1F58, 0x1F58, 0x1F58); (0x1F59, 0x1F51, 0x3A5); (0x1F5A, 0x1F5A, 0x1F5A); (0x1F5B, 0x1F53, 0x3A5); (0x1F5C, 0x1F5C, 0x1F5C); (0x1F5D, 0x1F55, 0x3A5); (0x1F5E, 0x1F5E, 0x1F5E); (0x1F5F, 0x1F57, 0x3A5);
  (0x1F68, 0x1F60, 0x3A9); (0x1F69, 0x1F61, 0x3A9); (0x1F6A, 0x1F62, 0x3A9); (0x1F6B, 0x1F63, 0x3A9); (0x1F6C, 0x1F64, 0x3A9); (0x1F6D, 0x1F65, 0x3A9); (0x1F6E, 0x1F66, 0x3A9); (0x1F6F, 0x1F67, 0x3A9);
  (0x1F68, 0x1F60, 0x3A9); (0x1F69, 0x1F61, 0x3A9); (0x1F6A, 0x1F62, 0x3A9); (0x1F6B, 0x1F63, 0x3A9); (0x1F6C, 0x1F64, 0x3A9); (0x1F6D, 0x1F65, 0x3A9); (0x1F6E, 0x1F66, 0x3A9); (0x1F6F, 0x1F67, 0x3A9);
  (0x1FBA, 0x1F70, 0x391); (0x1FBB, 0x1F71, 0x1FBB); (0x1FC8, 0x1F72, 0x395); (0x1FC9, 0x1F73, 0x1FC9); (0x1FCA, 0x1F74, 0x397); (0x1FCB, 0x1F75, 0x1FCB); (0x1FDA, 0x1F76, 0x399); (0x1FDB, 0x1F77, 0x1FDB);
  (0x1FF8, 0x1F78, 0x39F); (0x1FF9, 0x1F79, 0x1FF9); (0x1FEA, 0x1F7A, 0x3A5); (0x1FEB, 0x1F7B, 0x1FEB); (0x1FFA, 0x1F7C, 0x3A9); (0x1FFB, 0x1F7D, 0x1FFB); (0x1F7E, 0x1F7E, 0x1F7E); (0x1F7F, 0x1F7F, 0x1F7F);
  (0x1F88, 0x1F80, 0x391); (0x1F89, 0x1F81, 0x391); (0x1F8A, 0x1F82, 0x391); (0x1F8B, 0x1F83, 0x391); (0x1F8C, 0x1F84, 0x391); (0x1F8D, 0x1F85, 0x391); (0x1F8E, 0x1F86, 0x391); (0x1F8F, 0x1F87, 0x391);
  (0x1F88, 0x1F80, 0x391); (0x1F89, 0x1F81, 0x391); (0x1F8A, 0x1F82, 0x391); (0x1F8B, 0x1F83, 0x391); (0x1F8C, 0x1F84, 0x391); (0x1F8D, 0x1F85, 0x391); (0x1F8E, 0x1F86, 0x391); (0x1F8F, 0x1F87, 0x391);
  (0x1F98, 0x1F90, 0x397); (0x1F99, 0x1F91, 0x397); (0x1F9A, 0x1F92, 0x397); (0x1F9B, 0x1F93, 0x397); (0x1F9C, 0x1F94, 0x397); (0x1F9D, 0x1F95, 0x397); (0x1F9E, 0x1F96, 0x397); (0x1F9F, 0x1F97, 0x397);
  (0x1F98, 0x1F90, 0x397); (0x1F99, 0x1F91, 0x397); (0x1F9A, 0x1F92, 0x397); (0x1F9B, 0x1F93, 0x397); (0x1F9C, 0x1F94, 0x397); (0x1F9D, 0x1F95, 0x397); (0x1F9E, 0x1F96, 0x397); (0x1F9F, 0x1F97, 0x397);
  (0x1FA8, 0x1FA0, 0x3A9); (0x1FA9, 0x1FA1, 0x3A9); (0x1FAA, 0x1FA2, 0x3A9); (0x1FAB, 0x1FA3, 0x3A9); (0x1FAC, 0x1FA4, 0x3A9); (0x1FAD, 0x1FA5, 0x3A9); (0x1FAE, 0x1FA6, 0x3A9); (0x1FAF, 0x1FA7, 0x3A9);
  (0x1FA8, 0x1FA0, 0x3A9); (0x1FA9, 0x1FA1, 0x3A9); (0x1FAA, 0x1FA2, 0x3A9); (0x1FAB, 0x1FA3, 0x3A9); (0x1FAC, 0x1FA4, 0x3A9); (0x1FAD, 0x1FA5, 0x3A9); (0x1FAE, 0x1FA6, 0x3A9); (0x1FAF, 0x1FA7, 0x3A9);
  (0x1FB8, 0x1FB0, 0x391); (0x1FB9, 0x1FB1, 0x391); (0x1FB2, 0x1FB2, 0x391); (0x1FBC, 0x1FB3, 0x391); (0x1FB4, 0x1FB4, 0x391); (0x1FB5, 0x1FB5, 0x1FB5); (0x1FB6, 0x1FB6, 0x391); (0x1FB7, 0x1FB7, 0x391);
  (0x1FB8, 0x1FB0, 0x391); (0x1FB9, 0x1FB1, 0x391); (0x1FBA, 0x1F70, 0x391); (0x1FBB, 0x1F71, 0x1FBB); (0x1FBC, 0x1FB3, 0x391); (0x1FBD, 0x1FBD, 0x1FBD); (0x399, 0x1FBE, 0x399); (0x1FBF, 0x1FBF, 0x1FBF);
  (0x1FC0, 0x1FC0, 0x1FC0); (0x1FC1, 0x1FC1, 0x1FC1); (0x1FC2, 0x1FC2, 0x397); (0x1FCC, 0x1FC3, 0x397); (0x1FC4, 0x1FC4, 0x397); (0x1FC5, 0x1FC5, 0x1FC5); (0x1FC6, 0x1FC6, 0x397); (0x1FC7, 0x1FC7, 0x397);
  (0x1FC8, 0x1F72, 0x395); (0x1FC9, 0x1F73, 0x1FC9); (0x1FCA, 0x1F74, 0x397); (0x1FCB, 0x1F75, 0x1FCB); (0x1FCC, 0x1FC3, 0x397); (0x1FCD, 0x1FCD, 0x1FCD); (0x1FCE, 0x1FCE, 0x1FCE); (0x1FCF, 0x1FCF, 0x1FCF);
  (0x1FD8, 0x1FD0, 0x399); (0x1FD9, 0x1FD1, 0x399); (0x1FD2, 0x1FD2, 0x399); (0x1FD3, 0x1FD3, 0x1FD3); (0x1FD4, 0x1FD4, 0x1FD4); (0x1FD5, 0x1FD5, 0x1FD5); (0x1FD6, 0x1FD6, 0x399); (0x1FD7, 0x1FD7, 0x399);
  (0x1FD8, 0x1FD0, 0x399); (0x1FD9, 0x1FD1, 0x399); (0x1FDA, 0x1F76, 0x399); (0x1FDB, 0x1F77, 0x1FDB); (0x1FDC, 0x1FDC, 0x1FDC); (0x1FDD, 0x1FDD, 0x1FDD); (0x1FDE, 0x1FDE, 0x1FDE); (0x1FDF, 0x1FDF, 0x1FDF);
  (0x1FE8, 0x1FE0, 0x3A5); (0x1FE9, 0x1FE1, 0x3A5); (0x1FE2, 0x1FE2, 0x3A5); (0x1FE3, 0x1FE3, 0x1FE3); (0x1FE4, 0x1FE4, 0x3A1); (0x1FEC, 0x1FE5, 0x3A1); (0x1FE6, 0x1FE6, 0x3A5); (0x1FE7, 0x1FE7, 0x3A5);
  (0x1FE8, 0x1FE0, 0x3A5); (0x1FE9, 0x1FE1, 0x3A5); (0x1FEA, 0x1F7A, 0x3A5); (0x1FEB, 0x1F7B, 0x1FEB); (0x1FEC, 0x1FE5, 0x3A1); (0x1FED, 0x1FED, 0x1FED); (0x1FEE, 0x1FEE, 0x1FEE); (0x1FEF, 0x1FEF, 0x1FEF);
  (0x1FF0, 0x1FF0, 0x1FF0); (0x1FF1, 0x1FF1, 0x1FF1); (0x1FF2, 0x1FF2, 0x3A9); (0x1FFC, 0x1FF3, 0x3A9); (0x1FF4, 0x1FF4, 0x3A9); (0x1FF5, 0x1FF5, 0x1FF5); (0x1FF6, 0x1FF6, 0x3A9); (0x1FF7, 0x1FF7, 0x3A9);
  (0x1FF8, 0x1F78, 0x39F); (0x1FF9, 0x1F79, 0x1FF9); (0x1FFA, 0x1F7C, 0x3A9); (0x1FFB, 0x1F7D, 0x1FFB); (0x1FFC, 0x1FF3, 0x3A9); (0x1FFD, 0x1FFD, 0x1FFD); (0x1FFE, 0x1FFE, 0x1FFE); (0x1FFF, 0x1FFF, 0x1FFF)].

Definition plane21 : list MY_UNICASE_INFO := table [
  (0x2100, 0x2100, 0x2100); (0x2101, 0x2101, 0x2101); (0x2102, 0x2102, 0x2102); (0x2103, 0x2103, 0x2103); (0x2104, 0x2104, 0x2104); (0x2105, 0x2105, 0x2105); (0x2106, 0x2106, 0x2106); (0x2107, 0x2107, 0x2107);
  (0x2108, 0x2108, 0x2108); (0x2109, 0x2109, 0x2109); (0x210A, 0x210A, 0x210A); (0x210B, 0x210B, 0x210B); (0x210C, 0x210C, 0x210C); (0x210D, 0x210D, 0x210D); (0x210E, 0x210E, 0x210E); (0x210F, 0x210F, 0x210F);
  (0x2110, 0x2110, 0x2110); (0x2111, 0x2111, 0x2111); (0x2112, 0x2112, 0x2112); (0x2113, 0x2113, 0x2113); (0x2114, 0x2114, 0x2114); (0x2115, 0x2115, 0x2115); (0x2116, 0x2116, 0x2116); (0x2117, 0x2117, 0x2117);
  (0x2118, 0x2118, 0x2118); (0x2119, 0x2119, 0x2119); (0x211A, 0x211A, 0x211A); (0x211B, 0x211B, 0x211B); (0x211C, 0x211C, 0x211C); (0x211D, 0x211D, 0x211D); (0x211E, 0x211E, 0x211E); (0x211F, 0x211F, 0x211F);
  (0x2120, 0x2120, 0x2120); (0x2121, 0x2121, 0x2121); (0x2122, 0x2122, 0x2122); (0x2123, 0x2123, 0x2123); (0x2124, 0x2124, 0x2124); (0x2125, 0x2125, 0x2125); (0x2126, 0x3C9, 0x2126); (0x2127, 0x2127, 0x2127);
  (0x2128, 0x2128, 0x2128); (0x2129, 0x2129, 0x2129); (0x212A, 0x6B, 0x212A); (0x212B, 0xE5, 0x212B); (0x212C, 0x212C, 0x212C); (0x212D, 0x212D, 0x212D); (0x212E, 0x212E, 0x212E); (0x212F, 0x212F, 0x212F);
  (0x2130, 0x2130, 0x2130); (0x2131, 0x2131, 0x2131); (0x2132, 0x2132, 0x2132); (0x2133, 0x2133, 0x2133); (0x2134, 0x2134, 0x2134); (0x2135, 0x2135, 0x2135); (0x2136, 0x2136, 0x2136); (0x2137, 0x2137, 0x2137);
  (0x2138, 0x2138, 0x2138); (0x2139, 0x2139, 0x2139); (0x213A, 0x213A, 0x213A); (0x213B, 0x213B, 0x213B); (0x213C, 0x213C, 0x213C); (0x213D, 0x213D, 0x213D); (0x213E, 0x213E, 0x213E); (0x213F, 0x213F, 0x213F);
  (0x2140, 0x2140, 0x2140); (0x2141, 0x2141, 0x2141); (0x2142, 0x2142, 0x2142); (0x2143, 0x2143, 0x2143); (0x2144, 0x2144, 0x2144); (0x2145, 0x2145, 0x2145); (0x2146, 0x2146, 0x2146); (0x2147, 0x2147, 0x2147);
  (0x2148, 0x2148, 0x2148); (0x2149, 0x2149, 0x2149); (0x214A, 0x214A, 0x214A); (0x214B, 0x214B, 0x214B); (0x214C, 0x214C, 0x214C); (0x214D, 0x214D, 0x214D); (0x214E, 0x214E, 0x214E); (0x214F, 0x214F, 0x214F);
  (0x2150, 0x2150, 0x2150); (0x2151, 0x2151, 0x2151); (0x2152, 0x2152, 0x2152); (0x2153, 0x2153, 0x2153); (0x2154, 0x2154, 0x2154); (0x2155, 0x2155, 0x2155); (0x2156, 0x2156, 0x2156); (0x2157, 0x2157, 0x2157);
  (0x2158, 0x2158, 0x2158); (0x2159, 0x2159, 0x2159); (0x215A, 0x215A, 0x215A); (0x215B, 0x215B, 0x215B); (0x215C, 0x215C, 0x215C); (0x215D, 0x215D, 0x215D); (0x215E, 0x215E, 0x215E); (0x215F, 0x215F, 0x215F);
  (0x2160, 0x2170, 0x2160); (0x2161, 0x2171, 0x2161); (0x2162, 0x2172, 0x2162); (0x2163, 0x2173, 0x2163); (0x2164, 0x2174, 0x2164); (0x2165, 0x2175, 0x2165); (0x2166, 0x2176, 0x2166); (0x2167, 0x2177, 0x2167);
  (0x2168, 0x2178, 0x2168); (0x2169, 0x2179, 0x2169); (0x216A, 0x217A, 0x216A); (0x216B, 0x217B, 0x216B); (0x216C, 0x217C, 0x216C); (0x216D, 0x217D, 0x216D); (0x216E, 0x217E, 0x216E); (0x216F, 0x217F, 0x216F);
  (0x2160, 0x2170, 0x2160); (0x2161, 0x2171, 0x2161); (0x2162, 0x2172, 0x2162); (0x2163, 0x2173, 0x2163); (0x2164, 0x2174, 0x2164); (0x2165, 0x2175, 0x2165); (0x2166, 0x2176, 0x2166); (0x2167, 0x2177, 0x2167);
  (0x2168, 0x2178, 0x2168); (0x2169, 0x2179, 0x2169); (0x216A, 0x217A, 0x216A); (0x216B, 0x217B, 0x216B); (0x216C, 0x217C, 0x216C); (0x216D, 0x217D, 0x216D); (0x216E, 0x217E, 0x216E); (0x216F, 0x217F, 0x216F);
  (0x2180, 0x2180, 0x2180); (0x2181, 0x2181, 0x2181); (0x2182, 0x2182, 0x2182); (0x2183, 0x2183, 0x2183); (0x2184, 0x2184, 0x2184); (0x2185, 0x2185, 0x2185); (0x2186, 0x2186, 0x2186); (0x2187, 0x2187, 0x2187);
  (0x2188, 0x2188, 0x2188); (0x2189, 0x2189, 0x2189); (0x218A, 0x218A, 0x218A); (0x218B, 0x218B, 0x218B); (0x218C, 0x218C, 0x218C); (0x218D, 0x218D, 0x218D); (0x218E, 0x218E, 0x218E); (0x218F, 0x218F, 0x218F);
  (0x2190, 0x2190, 0x2190); (0x2191, 0x2191, 0x2191); (0x2192, 0x2192, 0x2192); (0x2193, 0x2193, 0x2193); (0x2194, 0x2194, 0x2194); (0x2195, 0x2195, 0x2195); (0x2196, 0x2196, 0x2196); (0x2197, 0x2197, 0x2197);
  (0x2198, 0x2198, 0x2198); (0x2199, 0x2199, 0x2199); (0x219A, 0x219A, 0x219A); (0x219B, 0x219B, 0x219B); (0x219C, 0x219C, 0x219C); (0x219D, 0x219D, 0x219D); (0x219E, 0x219E, 0x219E); (0x219F, 0x219F, 0x219F);
  (0x21A0, 0x21A0, 0x21A0); (0x21A1, 0x21A1, 0x21A1); (0x21A2, 0x21A2, 0x21A2); (0x21A3, 0x21A3, 0x21A3); (0x21A4, 0x21A4, 0x21A4); (0x21A5, 0x21A5, 0x21A5); (0x21A6, 0x21A6, 0x21A6); (0x21A7, 0x21A7, 0x21A7);
  (0x21A8, 0x21A8, 0x21A8); (0x21A9, 0x21A9, 0x21A9); (0x21AA, 0x21AA, 0x21AA); (0x21AB, 0x21AB, 0x21AB); (0x21AC, 0x21AC, 0x21AC); (0x21AD, 0x21AD, 0x21AD); (0x21AE, 0x21AE, 0x21AE); (0x21AF, 0x21AF, 0x21AF);
  (0x21B0, 0x21B0, 0x21B0); (0x21B1, 0x21B1, 0x21B1); (0x21B2, 0x21B2, 0x21B2); (0x21B3, 0x21B3, 0x21B3); (0x21B4, 0x21B4, 0x21B4); (0x21B5, 0x21B5, 0x21B5); (0x21B6, 0x21B6, 0x21B6); (0x21B7, 0x21B7, 0x21B7);
  (0x21B8, 0x21B8, 0x21B8); (0x21B9, 0x21B9, 0x21B9); (0x21BA, 0x21BA, 0x21BA); (0x21BB, 0x21BB, 0x21BB); (0x21BC, 0x21BC, 0x21BC); (0x21BD, 0x21BD, 0x21BD); (0x21BE, 0x21BE, 0x21BE); (0x21BF, 0x21BF, 0x21BF);
  (0x21C0, 0x21C0, 0x21C0); (0x21C1, 0x21C1, 0x21C1); (0x21C2, 0x21C2, 0x21C2); (0x21C3, 0x21C3, 0x21C3); (0x21C4, 0x21C4, 0x21C4); (0x21C5, 0x21C5, 0x21C5); (0x21C6, 0x21C6, 0x21C6); (0x21C7, 0x21C7, 0x21C7);
  (0x21C8, 0x21C8, 0x21C8); (0x21C9, 0x21C9, 0x21C9); (0x21CA, 0x21CA, 0x21CA); (0x21CB, 0x21CB, 0x21CB); (0x21CC, 0x21CC, 0x21CC); (0x21CD, 0x21CD, 0x21CD); (0x21CE, 0x21CE, 0x21CE); (0x21CF, 0x21CF, 0x21CF);
  (0x21D0, 0x21D0, 0x21D0); (0x21D1, 0x21D1, 0x21D1); (0x21D2, 0x21D2, 0x21D2); (0x21D3, 0x21D3, 0x21D3); (0x21D4, 0x21D4, 0x21D4); (0x21D5, 0x21D5, 0x21D5); (0x21D6, 0x21D6, 0x21D6); (0x21D7, 0x21D7, 0x21D7);
  (0x21D8, 0x21D8, 0x21D8); (0x21D9, 0x21D9, 0x21D9); (0x21DA, 0x21DA, 0x21DA); (0x21DB, 0x21DB, 0x21DB); (0x21DC, 0x21DC, 0x21DC); (0x21DD, 0x21DD, 0x21DD); (0x21DE, 0x21DE, 0x21DE); (0x21DF, 0x21DF, 0x21DF);
  (0x21E0, 0x21E0, 0x21E0); (0x21E1, 0x21E1, 0x21E1); (0x21E2, 0x21E2, 0x21E2); (0x21E3, 0x21E3, 0x21E3); (0x21E4, 0x21E4, 0x21E4); (0x21E5, 0x21E5, 0x21E5); (0x21E6, 0x21E6, 0x21E6); (0x21E7, 0x21E7, 0x21E7);
  (0x21E8, 0x21E8, 0x21E8); (0x21E9, 0x21E9, 0x21E9); (0x21EA, 0x21EA, 0x21EA); (0x21EB, 0x21EB, 0x21EB); (0x21EC, 0x21EC, 0x21EC); (0x21ED, 0x21ED, 0x21ED); (0x21EE, 0x21EE, 0x21EE); (0x21EF, 0x21EF, 0x21EF);
  (0x21F0, 0x21F0, 0x21F0); (0x21F1, 0x21F1, 0x21F1); (0x21F2, 0x21F2, 0x21F2); (0x21F3, 0x21F3, 0x21F3); (0x21F4, 0x21F4, 0x21F4); (0x21F5, 0x21F5, 0x21F5); (0x21F6, 0x21F6, 0x21F6); (0x21F7, 0x21F7, 0x21F7);
  (0x21F8, 0x21F8, 0x21F8); (0x21F9, 0x21F9, 0x21F9); (0x21FA, 0x21FA, 0x21FA); (0x21FB, 0x21FB, 0x21FB); (0x21FC, 0x21FC, 0x21FC); (0x21FD, 0x21FD, 0x21FD); (0x21FE, 0x21FE, 0x21FE); (0x21FF, 0x21FF, 0x21FF)].

Definition plane24 : list MY_UNICASE_INFO := table [
  (0x2400, 0x2400, 0x2400); (0x2401, 0x2401, 0x2401); (0x2402, 0x2402, 0x2402); (0x2403, 0x2403, 0x2403); (0x2404, 0x2404, 0x2404); (0x2405, 0x2405, 0x2405); (0x2406, 0x2406, 0x2406); (0x2407, 0x2407, 0x2407);
  (0x2408, 0x2408, 0x2408); (0x2409, 0x2409, 0x2409); (0x240A, 0x240A, 0x240A); (0x240B, 0x240B, 0x240B); (0x240C, 0x240C, 0x240C); (0x240D, 0x240D, 0x240D); (0x240E, 0x240E, 0x240E); (0x240F, 0x240F, 0x240F);
  (0x2410, 0x2410, 0x2410); (0x2411, 0x2411, 0x2411); (0x2412, 0x2412, 0x2412); (0x2413, 0x2413, 0x2413); (0x2414, 0x2414, 0x2414); (0x2415, 0x2415, 0x2415); (0x2416, 0x2416, 0x2416); (0x2417, 0x2417, 0x2417);
  (0x2418, 0x2418, 0x2418); (0x2419, 0x2419, 0x2419); (0x241A, 0x241A, 0x241A); (0x241B, 0x241B, 0x241B); (0x241C, 0x241C, 0x241C); (0x241D, 0x241D, 0x241D); (0x241E, 0x241E, 0x241E); (0x241F, 0x241F, 0x241F);
  (0x2420, 0x2420, 0x2420); (0x2421, 0x2421, 0x2421); (0x2422, 0x2422, 0x2422); (0x2423, 0x2423, 0x2423); (0x2424, 0x2424, 0x2424); (0x2425, 0x2425, 0x2425); (0x2426, 0x2426, 0x2426); (0x2427, 0x2427, 0x2427);
  (0x2428, 0x2428, 0x2428); (0x2429, 0x2429, 0x2429); (0x242A, 0x242A, 0x242A); (0x242B, 0x242B, 0x242B); (0x242C, 0x242C, 0x242C); (0x242D, 0x242D, 0x242D); (0x242E, 0x242E, 0x242E); (0x242F, 0x242F, 0x242F);
  (0x2430, 0x2430, 0x2430); (0x2431, 0x2431, 0x2431); (0x2432, 0x2432, 0x2432); (0x2433, 0x2433, 0x2433); (0x2434, 0x2434, 0x2434); (0x2435, 0x2435, 0x2435); (0x2436, 0x2436, 0x2436); (0x2437, 0x2437, 0x2437);
  (0x2438, 0x2438, 0x2438); (0x2439, 0x2439, 0x2439); (0x243A, 0x243A, 0x243A); (0x243B, 0x243B, 0x243B); (0x243C, 0x243C, 0x243C); (0x243D, 0x243D, 0x243D); (0x243E, 0x243E, 0x243E); (0x243F, 0x243F, 0x243F);
  (0x2440, 0x2440, 0x2440); (0x2441, 0x2441, 0x2441); (0x2442, 0x2442, 0x2442); (0x2443, 0x2443, 0x2443); (0x2444, 0x2444, 0x2444); (0x2445, 0x2445, 0x2445); (0x2446, 0x2446, 0x2446); (0x2447, 0x2447, 0x2447);
  (0x2448, 0x2448, 0x2448); (0x2449, 0x2449, 0x2449); (0x244A, 0x244A, 0x244A); (0x244B, 0x244B, 0x244B); (0x244C, 0x244C, 0x244C); (0x244D, 0x244D, 0x244D); (0x244E, 0x244E, 0x244E); (0x244F, 0x244F, 0x244F);
  (0x2450, 0x2450, 0x2450); (0x2451, 0x2451, 0x2451); (0x2452, 0x2452, 0x2452); (0x2453, 0x2453, 0x2453); (0x2454, 0x2454, 0x2454); (0x2455, 0x2455, 0x2455); (0x2456, 0x2456, 0x2456); (0x2457, 0x2457, 0x2457);
  (0x2458, 0x2458, 0x2458); (0x2459, 0x2459, 0x2459); (0x245A, 0x245A, 0x245A); (0x245B, 0x245B, 0x245B); (0x245C, 0x245C, 0x245C); (0x245D, 0x245D, 0x245D); (0x245E, 0x245E, 0x245E); (0x245F, 0x245F, 0x245F);
  (0x2460, 0x2460, 0x2460); (0x2461, 0x2461, 0x2461); (0x2462, 0x2462, 0x2462); (0x2463, 0x2463, 0x2463); (0x2464, 0x2464, 0x2464); (0x2465, 0x2465, 0x2465); (0x2466, 0x2466, 0x2466); (0x2467, 0x2467, 0x2467);
  (0x2468, 0x2468, 0x2468); (0x2469, 0x2469, 0x2469); (0x246A, 0x246A, 0x246A); (0x246B, 0x246B, 0x246B); (0x246C, 0x246C, 0x246C); (0x246D, 0x246D, 0x246D); (0x246E, 0x246E, 0x246E); (0x246F, 0x246F, 0x246F);
  (0x2470, 0x2470, 0x2470); (0x2471, 0x2471, 0x2471); (0x2472, 0x2472, 0x2472); (0x2473, 0x2473, 0x2473); (0x2474, 0x2474, 0x2474); (0x2475, 0x2475, 0x2475); (0x2476, 0x2476, 0x2476); (0x2477, 0x2477, 0x2477);
  (0x2478, 0x2478, 0x2478); (0x2479, 0x2479, 0x2479); (0x247A, 0x247A, 0x247A); (0x247B, 0x247B, 0x247B); (0x247C, 0x247C, 0x247C); (0x247D, 0x247D, 0x247D); (0x247E, 0x247E, 0x247E); (0x247F, 0x247F, 0x247F);
  (0x2480, 0x2480, 0x2480); (0x2481, 0x2481, 0x2481); (0x2482, 0x2482, 0x2482); (0x2483, 0x2483, 0x2483); (0x2484, 0x2484, 0x2484); (0x2485, 0x2485, 0x2485); (0x2486, 0x2486, 0x2486); (0x2487, 0x2487, 0x2487);
  (0x2488, 0x2488, 0x2488); (0x2489, 0x2489, 0x2489); (0x248A, 0x248A, 0x248A); (0x248B, 0x248B, 0x248B); (0x248C, 0x248C, 0x248C); (0x248D, 0x248D, 0x248D); (0x248E, 0x248E, 0x248E); (0x248F, 0x248F, 0x248F);
  (0x2490, 0x2490, 0x2490); (0x2491, 0x2491, 0x2491); (0x2492, 0x2492, 0x2492); (0x2493, 0x2493, 0x2493); (0x2494, 0x2494, 0x2494); (0x2495, 0x2495, 0x2495); (0x2496, 0x2496, 0x2496); (0x2497, 0x2497, 0x2497);
  (0x2498, 0x2498, 0x2498); (0x2499, 0x2499, 0x2499); (0x249A, 0x249A, 0x249A); (0x249B, 0x249B, 0x249B); (0x249C, 0x249C, 0x249C); (0x249D, 0x249D, 0x249D); (0x249E, 0x249E, 0x249E); (0x249F, 0x249F, 0x249F);
  (0x24A0, 0x24A0, 0x24A0); (0x24A1, 0x24A1, 0x24A1); (0x24A2, 0x24A2, 0x24A2); (0x24A3, 0x24A3, 0x24A3); (0x24A4, 0x24A4, 0x24A4); (0x24A5, 0x24A5, 0x24A5); (0x24A6, 0x24A6, 0x24A6); (0x24A7, 0x24A7, 0x24A7);
  (0x24A8, 0x24A8, 0x24A8); (0x24A9, 0x24A9, 0x24A9); (0x24AA, 0x24AA, 0x24AA); (0x24AB, 0x24AB, 0x24AB); (0x24AC, 0x24AC, 0x24AC); (0x24AD, 0x24AD, 0x24AD); (0x24AE, 0x24AE, 0x24AE); (0x24AF, 0x24AF, 0x24AF);
  (0x24B0, 0x24B0, 0x24B0); (0x24B1, 0x24B1, 0x24B1); (0x24B2, 0x24B2, 0x24B2); (0x24B3, 0x24B3, 0x24B3); (0x24B4, 0x24B4, 0x24B4); (0x24B5, 0x24B5, 0x24B5); (0x24B6, 0x24D0, 0x24B6); (0x24B7, 0x24D1, 0x24B7);
  (0x24B8, 0x24D2, 0x24B8); (0x24B9, 0x24D3, 0x24B9); (0x24BA, 0x24D4, 0x24BA); (0x24BB, 0x24D5, 0x24BB); (0x24BC, 0x24D6, 0x24BC); (0x24BD, 0x24D7, 0x24BD); (0x24BE, 0x24D8, 0x24BE); (0x24BF, 0x24D9, 0x24BF);
  (0x24C0, 0x24DA, 0x24C0); (0x24C1, 0x24DB, 0x24C1); (0x24C2, 0x24DC, 0x24C2); (0x24C3, 0x24DD, 0x24C3); (0x24C4, 0x24DE, 0x24C4); (0x24C5, 0x24DF, 0x24C5); (0x24C6, 0x24E0, 0x24C6); (0x24C7, 0x24E1, 0x24C7);
  (0x24C8, 0x24E2, 0x24C8); (0x24C9, 0x24E3, 0x24C9); (0x24CA, 0x24E4, 0x24CA); (0x24CB, 0x24E5, 0x24CB); (0x24CC, 0x24E6, 0x24CC); (0x24CD, 0x24E7, 0x24CD); (0x24CE, 0x24E8, 0x24CE); (0x24CF, 0x24E9, 0x24CF);
  (0x24B6, 0x24D0, 0x24B6); (0x24B7, 0x24D1, 0x24B7); (0x24B8, 0x24D2, 0x24B8); (0x24B9, 0x24D3, 0x24B9); (0x24BA, 0x24D4, 0x24BA); (0x24BB, 0x24D5, 0x24BB); (0x24BC, 0x24D6, 0x24BC); (0x24BD, 0x24D7, 0x24BD);
  (0x24BE, 0x24D8, 0x24BE); (0x24BF, 0x24D9, 0x24BF); (0x24C0, 0x24DA, 0x24C0); (0x24C1, 0x24DB, 0x24C1); (0x24C2, 0x24DC, 0x24C2); (0x24C3, 0x24DD, 0x24C3); (0x24C4, 0x24DE, 0x24C4); (0x24C5, 0x24DF, 0x24C5);
  (0x24C6, 0x24E0, 0x24C6); (0x24C7, 0x24E1, 0x24C7); (0x24C8, 0x24E2, 0x24C8); (0x24C9, 0x24E3, 0x24C9); (0x24CA, 0x24E4, 0x24CA); (0x24CB, 0x24E5, 0x24CB); (0x24CC, 0x24E6, 0x24CC); (0x24CD, 0x24E7, 0x24CD);
  (0x24CE, 0x24E8, 0x24CE); (0x24CF, 0x24E9, 0x24CF); (0x24EA, 0x24EA, 0x24EA); (0x24EB, 0x24EB, 0x24EB); (0x24EC, 0x24EC, 0x24EC); (0x24ED, 0x24ED, 0x24ED); (0x24EE, 0x24EE, 0x24EE); (0x24EF, 0x24EF, 0x24EF);
  (0x24F0, 0x24F0, 0x24F0); (0x24F1, 0x24F1, 0x24F1); (0x24F2, 0x24F2, 0x24F2); (0x24F3, 0x24F3, 0x24F3); (0x24F4, 0x24F4, 0x24F4); (0x24F5, 0x24F5, 0x24F5); (0x24F6, 0x24F6, 0x24F6); (0x24F7, 0x24F7, 0x24F7);
  (0x24F8, 0x24F8, 0x24F8); (0x24F9, 0x24F9, 0x24F9); (0x24FA, 0x24FA, 0x24FA); (0x24FB, 0x24FB, 0x24FB); (0x24FC, 0x24FC, 0x24FC); (0x24FD, 0x24FD, 0x24FD); (0x24FE, 0x24FE, 0x24FE); (0x24FF, 0x24FF, 0x24FF)].

Definition planeFF : list MY_UNICASE_INFO := table [
  (0xFF00, 0xFF00, 0xFF00); (0xFF01, 0xFF01, 0xFF01); (0xFF02, 0xFF02, 0xFF02); (0xFF03, 0xFF03, 0xFF03); (0xFF04, 0xFF04, 0xFF04); (0xFF05, 0xFF05, 0xFF05); (0xFF06, 0xFF06, 0xFF06); (0xFF07, 0xFF07, 0xFF07);
  (0xFF08, 0xFF08, 0xFF08); (0xFF09, 0xFF09, 0xFF09); (0xFF0A, 0xFF0A, 0xFF0A); (0xFF0B, 0xFF0B, 0xFF0B); (0xFF0C, 0xFF0C, 0xFF0C); (0xFF0D, 0xFF0D, 0xFF0D); (0xFF0E, 0xFF0E, 0xFF0E); (0xFF0F, 0xFF0F, 0xFF0F);
  (0xFF10, 0xFF10, 0xFF10); (0xFF11, 0xFF11, 0xFF11); (0xFF12, 0xFF12, 0xFF12); (0xFF13, 0xFF13, 0xFF13); (0xFF14, 0xFF14, 0xFF14); (0xFF15, 0xFF15, 0xFF15); (0xFF16, 0xFF16, 0xFF16); (0xFF17, 0xFF17, 0xFF17);
  (0xFF18, 0xFF18, 0xFF18); (0xFF19, 0xFF19, 0xFF19); (0xFF1A, 0xFF1A, 0xFF1A); (0xFF1B, 0xFF1B, 0xFF1B); (0xFF1C, 0xFF1C, 0xFF1C); (0xFF1D, 0xFF1D, 0xFF1D); (0xFF1E, 0xFF1E, 0xFF1E); (0xFF1F, 0xFF1F, 0xFF1F);
  (0xFF20, 0xFF20, 0xFF20); (0xFF21, 0xFF41, 0xFF21); (0xFF22, 0xFF42, 0xFF22); (0xFF23, 0xFF43, 0xFF23); (0xFF24, 0xFF44, 0xFF24); (0xFF25, 0xFF45, 0xFF25); (0xFF26, 0xFF46, 0xFF26); (0xFF27, 0xFF47, 0xFF27);
  (0xFF28, 0xFF48, 0xFF28); (0xFF29, 0xFF49, 0xFF29); (0xFF2A, 0xFF4A, 0xFF2A); (0xFF2B, 0xFF4B, 0xFF2B); (0xFF2C, 0xFF4C, 0xFF2C); (0xFF2D, 0xFF4D, 0xFF2D); (0xFF2E, 0xFF4E, 0xFF2E); (0xFF2F, 0xFF4F, 0xFF2F);
  (0xFF30, 0xFF50, 0xFF30); (0xFF31, 0xFF51, 0xFF31); (0xFF32, 0xFF52, 0xFF32); (0xFF33, 0xFF53, 0xFF33); (0xFF34, 0xFF54, 0xFF34); (0xFF35, 0xFF55, 0xFF35); (0xFF36, 0xFF56, 0xFF36); (0xFF37, 0xFF57, 0xFF37);
  (0xFF38, 0xFF58, 0xFF38); (0xFF39, 0xFF59, 0xFF39); (0xFF3A, 0xFF5A, 0xFF3A); (0xFF3B, 0xFF3B, 0xFF3B); (0xFF3C, 0xFF3C, 0xFF3C); (0xFF3D, 0xFF3D, 0xFF3D); (0xFF3E, 0xFF3E, 0xFF3E); (0xFF3F, 0xFF3F, 0xFF3F);
  (0xFF40, 0xFF40, 0xFF40); (0xFF21, 0xFF41, 0xFF21); (0xFF22, 0xFF42, 0xFF22); (0xFF23, 0xFF43, 0xFF23); (0xFF24, 0xFF44, 0xFF24); (0xFF25, 0xFF45, 0xFF25); (0xFF26, 0xFF46, 0xFF26); (0xFF27, 0xFF47, 0xFF27);
  (0xFF28, 0xFF48, 0xFF28); (0xFF29, 0xFF49, 0xFF29); (0xFF2A, 0xFF4A, 0xFF2A); (0xFF2B, 0xFF4B, 0xFF2B); (0xFF2C, 0xFF4C, 0xFF2C); (0xFF2D, 0xFF4D, 0xFF2D); (0xFF2E, 0xFF4E, 0xFF2E); (0xFF2F, 0xFF4F, 0xFF2F);
  (0xFF30, 0xFF50, 0xFF30); (0xFF31, 0xFF51, 0xFF31); (0xFF32, 0xFF52, 0xFF32); (0xFF33, 0xFF53, 0xFF33); (0xFF34, 0xFF54, 0xFF34); (0xFF35, 0xFF55, 0xFF35); (0xFF36, 0xFF56, 0xFF36); (0xFF37, 0xFF57, 0xFF37);
  (0xFF38, 0xFF58, 0xFF38); (0xFF39, 0xFF59, 0xFF39); (0xFF3A, 0xFF5A, 0xFF3A); (0xFF5B, 0xFF5B, 0xFF5B); (0xFF5C, 0xFF5C, 0xFF5C); (0xFF5D, 0xFF5D, 0xFF5D); (0xFF5E, 0xFF5E, 0xFF5E); (0xFF5F, 0xFF5F, 0xFF5F);
  (0xFF60, 0xFF60, 0xFF60); (0xFF61, 0xFF61, 0xFF61); (0xFF62, 0xFF62, 0xFF62); (0xFF63, 0xFF63, 0xFF63); (0xFF64, 0xFF64, 0xFF64); (0xFF65, 0xFF65, 0xFF65); (0xFF66, 0xFF66, 0xFF66); (0xFF67, 0xFF67, 0xFF67);
  (0xFF68, 0xFF68, 0xFF68); (0xFF69, 0xFF69, 0xFF69); (0xFF6A, 0xFF6A, 0xFF6A); (0xFF6B, 0xFF6B, 0xFF6B); (0xFF6C, 0xFF6C, 0xFF6C); (0xFF6D, 0xFF6D, 0xFF6D); (0xFF6E, 0xFF6E, 0xFF6E); (0xFF6F, 0xFF6F, 0xFF6F);
  (0xFF70, 0xFF70, 0xFF70); (0xFF71, 0xFF71, 0xFF71); (0xFF72, 0xFF72, 0xFF72); (0xFF73, 0xFF73, 0xFF73); (0xFF74, 0xFF74, 0xFF74); (0xFF75, 0xFF75, 0xFF75); (0xFF76, 0xFF76, 0xFF76); (0xFF77, 0xFF77, 0xFF77);
  (0xFF78, 0xFF78, 0xFF78); (0xFF79, 0xFF79, 0xFF79); (0xFF7A, 0xFF7A, 0xFF7A); (0xFF7B, 0xFF7B, 0xFF7B); (0xFF7C, 0xFF7C, 0xFF7C); (0xFF7D, 0xFF7D, 0xFF7D); (0xFF7E, 0xFF7E, 0xFF7E); (0xFF7F, 0xFF7F, 0xFF7F);
  (0xFF80, 0xFF80, 0xFF80); (0xFF81, 0xFF81, 0xFF81); (0xFF82, 0xFF82, 0xFF82); (0xFF83, 0xFF83, 0xFF83); (0xFF84, 0xFF84, 0xFF84); (0xFF85, 0xFF85, 0xFF85); (0xFF86, 0xFF86, 0xFF86); (0xFF87, 0xFF87, 0xFF87);
  (0xFF88, 0xFF88, 0xFF88); (0xFF89, 0xFF89, 0xFF89); (0xFF8A, 0xFF8A, 0xFF8A); (0xFF8B, 0xFF8B, 0xFF8B); (0xFF8C, 0xFF8C, 0xFF8C); (0xFF8D, 0xFF8D, 0xFF8D); (0xFF8E, 0xFF8E, 0xFF8E); (0xFF8F, 0xFF8F, 0xFF8F);
  (0xFF90, 0xFF90, 0xFF90); (0xFF91, 0xFF91, 0xFF91); (0xFF92, 0xFF92, 0xFF92); (0xFF93, 0xFF93, 0xFF93); (0xFF94, 0xFF94, 0xFF94); (0xFF95, 0xFF95, 0xFF95); (0xFF96, 0xFF96, 0xFF96); (0xFF97, 0xFF97, 0xFF97);
  (0xFF98, 0xFF98, 0xFF98); (0xFF99, 0xFF99, 0xFF99); (0xFF9A, 0xFF9A, 0xFF9A); (0xFF9B, 0xFF9B, 0xFF9B); (0xFF9C, 0xFF9C, 0xFF9C); (0xFF9D, 0xFF9D, 0xFF9D); (0xFF9E, 0xFF9E, 0xFF9E); (0xFF9F, 0xFF9F, 0xFF9F);
  (0xFFA0, 0xFFA0, 0xFFA0); (0xFFA1, 0xFFA1, 0xFFA1); (0xFFA2, 0xFFA2, 0xFFA2); (0xFFA3, 0xFFA3, 0xFFA3); (0xFFA4, 0xFFA4, 0xFFA4); (0xFFA5, 0xFFA5, 0xFFA5); (0xFFA6, 0xFFA6, 0xFFA6); (0xFFA7, 0xFFA7, 0xFFA7);
  (0xFFA8, 0xFFA8, 0xFFA8); (0xFFA9, 0xFFA9, 0xFFA9); (0xFFAA, 0xFFAA, 0xFFAA); (0xFFAB, 0xFFAB, 0xFFAB); (0xFFAC, 0xFFAC, 0xFFAC); (0xFFAD, 0xFFAD, 0xFFAD); (0xFFAE, 0xFFAE, 0xFFAE); (0xFFAF, 0xFFAF, 0xFFAF);
  (0xFFB0, 0xFFB0, 0xFFB0); (0xFFB1, 0xFFB1, 0xFFB1); (0xFFB2, 0xFFB2, 0xFFB2); (0xFFB3, 0xFFB3, 0xFFB3); (0xFFB4, 0xFFB4, 0xFFB4); (0xFFB5, 0xFFB5, 0xFFB5); (0xFFB6, 0xFFB6, 0xFFB6); (0xFFB7, 0xFFB7, 0xFFB7);
  (0xFFB8, 0xFFB8, 0xFFB8); (0xFFB9, 0xFFB9, 0xFFB9); (0xFFBA, 0xFFBA, 0xFFBA); (0xFFBB, 0xFFBB, 0xFFBB); (0xFFBC, 0xFFBC, 0xFFBC); (0xFFBD, 0xFFBD, 0xFFBD); (0xFFBE, 0xFFBE, 0xFFBE); (0xFFBF, 0xFFBF, 0xFFBF);
  (0xFFC0, 0xFFC0, 0xFFC0); (0xFFC1, 0xFFC1, 0xFFC1); (0xFFC2, 0xFFC2, 0xFFC2); (0xFFC3, 0xFFC3, 0xFFC3); (0xFFC4, 0xFFC4, 0xFFC4); (0xFFC5, 0xFFC5, 0xFFC5); (0xFFC6, 0xFFC6, 0xFFC6); (0xFFC7, 0xFFC7, 0xFFC7);
  (0xFFC8, 0xFFC8, 0xFFC8); (0xFFC9, 0xFFC9, 0xFFC9); (0xFFCA, 0xFFCA, 0xFFCA); (0xFFCB, 0xFFCB, 0xFFCB); (0xFFCC, 0xFFCC, 0xFFCC); (0xFFCD, 0xFFCD, 0xFFCD); (0xFFCE, 0xFFCE, 0xFFCE); (0xFFCF, 0xFFCF, 0xFFCF);
  (0xFFD0, 0xFFD0, 0xFFD0); (0xFFD1, 0xFFD1, 0xFFD1); (0xFFD2, 0xFFD2, 0xFFD2); (0xFFD3, 0xFFD3, 0xFFD3); (0xFFD4, 0xFFD4, 0xFFD4); (0xFFD5, 0xFFD5, 0xFFD5); (0xFFD6, 0xFFD6, 0xFFD6); (0xFFD7, 0xFFD7, 0xFFD7);
  (0xFFD8, 0xFFD8, 0xFFD8); (0xFFD9, 0xFFD9, 0xFFD9); (0xFFDA, 0xFFDA, 0xFFDA); (0xFFDB, 0xFFDB, 0xFFDB); (0xFFDC, 0xFFDC, 0xFFDC); (0xFFDD, 0xFFDD, 0xFFDD); (0xFFDE, 0xFFDE, 0xFFDE); (0xFFDF, 0xFFDF, 0xFFDF);
  (0xFFE0, 0xFFE0, 0xFFE0); (0xFFE1, 0xFFE1, 0xFFE1); (0xFFE2, 0xFFE2, 0xFFE2); (0xFFE3, 0xFFE3, 0xFFE3); (0xFFE4, 0xFFE4, 0xFFE4); (0xFFE5, 0xFFE5, 0xFFE5); (0xFFE6, 0xFFE6, 0xFFE6); (0xFFE7, 0xFFE7, 0xFFE7);
  (0xFFE8, 0xFFE8, 0xFFE8); (0xFFE9, 0xFFE9, 0xFFE9); (0xFFEA, 0xFFEA, 0xFFEA); (0xFFEB, 0xFFEB, 0xFFEB); (0xFFEC, 0xFFEC, 0xFFEC); (0xFFED, 0xFFED, 0xFFED); (0xFFEE, 0xFFEE, 0xFFEE); (0xFFEF, 0xFFEF, 0xFFEF);
  (0xFFF0, 0xFFF0, 0xFFF0); (0xFFF1, 0xFFF1, 0xFFF1); (0xFFF2, 0xFFF2, 0xFFF2); (0xFFF3, 0xFFF3, 0xFFF3); (0xFFF4, 0xFFF4, 0xFFF4); (0xFFF5, 0xFFF5, 0xFFF5); (0xFFF6, 0xFFF6, 0xFFF6); (0xFFF7, 0xFFF7, 0xFFF7);
  (0xFFF8, 0xFFF8, 0xFFF8); (0xFFF9, 0xFFF9, 0xFFF9); (0xFFFA, 0xFFFA, 0xFFFA); (0xFFFB, 0xFFFB, 0xFFFB); (0xFFFC, 0xFFFC, 0xFFFC); (0xFFFD, 0xFFFD, 0xFFFD); (0xFFFE, 0xFFFE, 0xFFFE); (0xFFFF, 0xFFFF, 0xFFFF)].

Definition turk00 : list MY_UNICASE_INFO := table [
  (0x0, 0x0, 0x0); (0x1, 0x1, 0x1); (0x2, 0x2, 0x2); (0x3, 0x3, 0x3); (0x4, 0x4, 0x4); (0x5, 0x5, 0x5); (0x6, 0x6, 0x6); (0x7, 0x7, 0x7);
  (0x8, 0x8, 0x8); (0x9, 0x9, 0x9); (0xA, 0xA, 0xA); (0xB, 0xB, 0xB); (0xC, 0xC, 0xC); (0xD, 0xD, 0xD); (0xE, 0xE, 0xE); (0xF, 0xF, 0xF);
  (0x10, 0x10, 0x10); (0x11, 0x11, 0x11); (0x12, 0x12, 0x12); (0x13, 0x13, 0x13); (0x14, 0x14, 0x14); (0x15, 0x15, 0x15); (0x16, 0x16, 0x16); (0x17, 0x17, 0x17);
  (0x18, 0x18, 0x18); (0x19, 0x19, 0x19); (0x1A, 0x1A, 0x1A); (0x1B, 0x1B, 0x1B); (0x1C, 0x1C, 0x1C); (0x1D, 0x1D, 0x1D); (0x1E, 0x1E, 0x1E); (0x1F, 0x1F, 0x1F);
  (0x20, 0x20, 0x20); (0x21, 0x21, 0x21); (0x22, 0x22, 0x22); (0x23, 0x23, 0x23); (0x24, 0x24, 0x24); (0x25, 0x25, 0x25); (0x26, 0x26, 0x26); (0x27, 0x27, 0x27);
  (0x28, 0x28, 0x28); (0x29, 0x29, 0x29); (0x2A, 0x2A, 0x2A); (0x2B, 0x2B, 0x2B); (0x2C, 0x2C, 0x2C); (0x2D, 0x2D, 0x2D); (0x2E, 0x2E, 0x2E); (0x2F, 0x2F, 0x2F);
  (0x30, 0x30, 0x30); (0x31, 0x31, 0x31); (0x32, 0x32, 0x32); (0x33, 0x33, 0x33); (0x34, 0x34, 0x34); (0x35, 0x35, 0x35); (0x36, 0x36, 0x36); (0x37, 0x37, 0x37);
  (0x38, 0x38, 0x38); (0x39, 0x39, 0x39); (0x3A, 0x3A, 0x3A); (0x3B, 0x3B, 0x3B); (0x3C, 0x3C, 0x3C); (0x3D, 0x3D, 0x3D); (0x3E, 0x3E, 0x3E); (0x3F, 0x3F, 0x3F);
  (0x40, 0x40, 0x40); (0x41, 0x61, 0x41); (0x42, 0x62, 0x42); (0x43, 0x63, 0x43); (0x44, 0x64, 0x44); (0x45, 0x65, 0x45); (0x46, 0x66, 0x46); (0x47, 0x67, 0x47);
  (0x48, 0x68, 0x48); (0x49, 0x131, 0x49); (0x4A, 0x6A, 0x4A); (0x4B, 0x6B, 0x4B); (0x4C, 0x6C, 0x4C); (0x4D, 0x6D, 0x4D); (0x4E, 0x6E, 0x4E); (0x4F, 0x6F, 0x4F);
  (0x50, 0x70, 0x50); (0x51, 0x71, 0x51); (0x52, 0x72, 0x52); (0x53, 0x73, 0x53); (0x54, 0x74, 0x54); (0x55, 0x75, 0x55); (0x56, 0x76, 0x56); (0x57, 0x77, 0x57);
  (0x58, 0x78, 0x58); (0x59, 0x79, 0x59); (0x5A, 0x7A, 0x5A); (0x5B, 0x5B, 0x5B); (0x5C, 0x5C, 0x5C); (0x5D, 0x5D, 0x5D); (0x5E, 0x5E, 0x5E); (0x5F, 0x5F, 0x5F);
  (0x60, 0x60, 0x60); (0x41, 0x61, 0x41); (0x42, 0x62, 0x42); (0x43, 0x63, 0x43); (0x44, 0x64, 0x44); (0x45, 0x65, 0x45); (0x46, 0x66, 0x46); (0x47, 0x67, 0x47);
  (0x48, 0x68, 0x48); (0x130, 0x69, 0x49); (0x4A, 0x6A, 0x4A); (0x4B, 0x6B, 0x4B); (0x4C, 0x6C, 0x4C); (0x4D, 0x6D, 0x4D); (0x4E, 0x6E, 0x4E); (0x4F, 0x6F, 0x4F);
  (0x50, 0x70, 0x50); (0x51, 0x71, 0x51); (0x52, 0x72, 0x52); (0x53, 0x73, 0x53); (0x54, 0x74, 0x54); (0x55, 0x75, 0x55); (0x56, 0x76, 0x56); (0x57, 0x77, 0x57);
  (0x58, 0x78, 0x58); (0x59, 0x79, 0x59); (0x5A, 0x7A, 0x5A); (0x7B, 0x7B, 0x7B); (0x7C, 0x7C, 0x7C); (0x7D, 0x7D, 0x7D); (0x7E, 0x7E, 0x7E); (0x7F, 0x7F, 0x7F);
  (0x80, 0x80, 0x80); (0x81, 0x81, 0x81); (0x82, 0x82, 0x82); (0x83, 0x83, 0x83); (0x84, 0x84, 0x84); (0x85, 0x85, 0x85); (0x86, 0x86, 0x86); (0x87, 0x87, 0x87);
  (0x88, 0x88, 0x88); (0x89, 0x89, 0x89); (0x8A, 0x8A, 0x8A); (0x8B, 0x8B, 0x8B); (0x8C, 0x8C, 0x8C); (0x8D, 0x8D, 0x8D); (0x8E, 0x8E, 0x8E); (0x8F, 0x8F, 0x8F);
  (0x90, 0x90, 0x90); (0x91, 0x91, 0x91); (0x92, 0x92, 0x92); (0x93, 0x93, 0x93); (0x94, 0x94, 0x94); (0x95, 0x95, 0x95); (0x96, 0x96, 0x96); (0x97, 0x97, 0x97);
  (0x98, 0x98, 0x98); (0x99, 0x99, 0x99); (0x9A, 0x9A, 0x9A); (0x9B, 0x9B, 0x9B); (0x9C, 0x9C, 0x9C); (0x9D, 0x9D, 0x9D); (0x9E, 0x9E, 0x9E); (0x9F, 0x9F, 0x9F);
  (0xA0, 0xA0, 0xA0); (0xA1, 0xA1, 0xA1); (0xA2, 0xA2, 0xA2); (0xA3, 0xA3, 0xA3); (0xA4, 0xA4, 0xA4); (0xA5, 0xA5, 0xA5); (0xA6, 0xA6, 0xA6); (0xA7, 0xA7, 0xA7);
  (0xA8, 0xA8, 0xA8); (0xA9, 0xA9, 0xA9); (0xAA, 0xAA, 0xAA); (0xAB, 0xAB, 0xAB); (0xAC, 0xAC, 0xAC); (0xAD, 0xAD, 0xAD); (0xAE, 0xAE, 0xAE); (0xAF, 0xAF, 0xAF);
  (0xB0, 0xB0, 0xB0); (0xB1, 0xB1, 0xB1); (0xB2, 0xB2, 0xB2); (0xB3, 0xB3, 0xB3); (0xB4, 0xB4, 0xB4); (0x39C, 0xB5, 0x39C); (0xB6, 0xB6, 0xB6); (0xB7, 0xB7, 0xB7);
  (0xB8, 0xB8, 0xB8); (0xB9, 0xB9, 0xB9); (0xBA, 0xBA, 0xBA); (0xBB, 0xBB, 0xBB); (0xBC, 0xBC, 0xBC); (0xBD, 0xBD, 0xBD); (0xBE, 0xBE, 0xBE); (0xBF, 0xBF, 0xBF);
  (0xC0, 0xE0, 0x41); (0xC1, 0xE1, 0x41); (0xC2, 0xE2, 0x41); (0xC3, 0xE3, 0x41); (0xC4, 0xE4, 0x41); (0xC5, 0xE5, 0x41); (0xC6, 0xE6, 0xC6); (0xC7, 0xE7, 0x43);
  (0xC8, 0xE8, 0x45); (0xC9, 0xE9, 0x45); (0xCA, 0xEA, 0x45); (0xCB, 0xEB, 0x45); (0xCC, 0xEC, 0x49); (0xCD, 0xED, 0x49); (0xCE, 0xEE, 0x49); (0xCF, 0xEF, 0x49);
  (0xD0, 0xF0, 0xD0); (0xD1, 0xF1, 0x4E); (0xD2, 0xF2, 0x4F); (0xD3, 0xF3, 0x4F); (0xD4, 0xF4, 0x4F); (0xD5, 0xF5, 0x4F); (0xD6, 0xF6, 0x4F); (0xD7, 0xD7, 0xD7);
  (0xD8, 0xF8, 0xD8); (0xD9, 0xF9, 0x55); (0xDA, 0xFA, 0x55); (0xDB, 0xFB, 0x55); (0xDC, 0xFC, 0x55); (0xDD, 0xFD, 0x59); (0xDE, 0xFE, 0xDE); (0xDF, 0xDF, 0xDF);
  (0xC0, 0xE0, 0x41); (0xC1, 0xE1, 0x41); (0xC2, 0xE2, 0x41); (0xC3, 0xE3, 0x41); (0xC4, 0xE4, 0x41); (0xC5, 0xE5, 0x41); (0xC6, 0xE6, 0xC6); (0xC7, 0xE7, 0x43);
  (0xC8, 0xE8, 0x45); (0xC9, 0xE9, 0x45); (0xCA, 0xEA, 0x45); (0xCB, 0xEB, 0x45); (0xCC, 0xEC, 0x49); (0xCD, 0xED, 0x49); (0xCE, 0xEE, 0x49); (0xCF, 0xEF, 0x49);
  (0xD0, 0xF0, 0xD0); (0xD1, 0xF1, 0x4E); (0xD2, 0xF2, 0x4F); (0xD3, 0xF3, 0x4F); (0xD4, 0xF4, 0x4F); (0xD5, 0xF5, 0x4F); (0xD6, 0xF6, 0x4F); (0xF7, 0xF7, 0xF7);
  (0xD8, 0xF8, 0xD8); (0xD9, 0xF9, 0x55); (0xDA, 0xFA, 0x55); (0xDB, 0xFB, 0x55); (0xDC, 0xFC, 0x55); (0xDD, 0xFD, 0x59); (0xDE, 0xFE, 0xDE); (0x178, 0xFF, 0x59)].

Definition my_unicase_default : list (option (list MY_UNICASE_INFO)) :=
  [Some plane00; Some plane01; Some plane02; Some plane03; Some plane04; Some plane05] ++ replicate 24 None ++ [Some plane1E; Some plane1F; None; Some plane21; None; None; Some plane24] ++ replicate 218 None ++ [Some planeFF].

Definition my_unicase_turkish : list (option (list MY_UNICASE_INFO)) :=
  [Some turk00; Some plane01; Some plane02; Some plane03; Some plane04; Some plane05] ++ replicate 24 None ++ [Some plane1E; Some plane1F; None; Some plane21; None; None; Some plane24] ++ replicate 218 None ++ [Some planeFF].

(** [uni_plane[page][i]] *)
Definition planes_of (info : list (option (list MY_UNICASE_INFO))) : planes :=
  fun page => match info !! Z.to_nat page with
              | Some (Some p) => Some (fun i => default (mk_unicase 0 0 0) (p !! Z.to_nat i))
              | _ => None
              end.

End Utf8Tables.
