(* ===== verification/Utf8Props.v ===== *)
(** * Utf8Props: the encoding and what the collations do with it

    [utf8] is the encoding form of the standard; the decoders invert it ([Decoder]), and
    everything that reads a string is proved from that interface, so that it holds for
    utf8mb3 and utf8mb4. *)
From stdpp Require Import base tactics option list numbers.
From Stdlib Require Import ZArith Lia.
From S2P Require Import Prelude.
From S2P Require Import CtypeBin.
From S2P Require Import Collate.
From S2P Require Import Utf8.

Module Utf8Props.
Import CtypeBin Collate Utf8.

(** ** The encoding form *)

Definition utf8 (wc : Z) : list Z :=
  if bool_decide (wc < 0x80) then [wc]
  else if bool_decide (wc < 0x800) then [0xC0 + wc / 64; 0x80 + wc mod 64]
  else if bool_decide (wc < 0x10000) then [0xE0 + wc / 4096; 0x80 + (wc / 64) mod 64; 0x80 + wc mod 64]
  else [0xF0 + wc / 262144; 0x80 + (wc / 4096) mod 64; 0x80 + (wc / 64) mod 64; 0x80 + wc mod 64].

Definition byte (b : Z) : Prop := 0 <= b < 256.

(** A fact about all bytes, by trying them. *)
Lemma byte_all (P : Z -> bool) : forallb (fun n => P (Z.of_nat n)) (seq 0 256) = true -> forall b, byte b -> P b = true.
Proof.
  intros H b [H0 H1]. rewrite forallb_forall in H. rewrite <- (Z2Nat.id b H0). apply H. apply in_seq. lia.
Qed.

Lemma lxor_128 b : byte b -> b ^^^ 0x80 = if bool_decide (b < 0x80) then b + 128 else b - 128.
Proof.
  intros Hb. apply Z.eqb_eq. revert b Hb. apply (byte_all (fun b => b ^^^ 0x80 =? if bool_decide (b < 0x80) then b + 128 else b - 128)). vm_compute. reflexivity.
Qed.

Lemma is_cont_spec b : byte b -> is_cont b = bool_decide (0x80 <= b < 0xC0).
Proof.
  intros Hb. unfold is_cont. rewrite lxor_128 by done. unfold byte in Hb. repeat case_bool_decide; done || lia.
Qed.

Lemma land_mask x k m n : 0 <= k -> m = 2 ^ k - 1 -> n = 2 ^ k -> x &&& m = x mod n.
Proof. intros Hk -> ->. by rewrite land_ones_uwrap. Qed.

Lemma cont_val b : 0x80 <= b < 0xC0 -> b ^^^ 0x80 = b - 128.
Proof. intros H. rewrite lxor_128 by (unfold byte; lia). by rewrite bool_decide_false by lia. Qed.

Lemma wc2_val c s1 : 0 <= c -> 0x80 <= s1 < 0xC0 -> wc2 c s1 = (c mod 32) * 64 + (s1 - 128).
Proof.
  intros Hc Hs. unfold wc2. rewrite cont_val by done. rewrite (land_mask c 5 31 32) by done. rewrite lor_shift_add; lia.
Qed.

Lemma wc3_val c s1 s2 : 0 <= c -> 0x80 <= s1 < 0xC0 -> 0x80 <= s2 < 0xC0 -> wc3 c s1 s2 = (c mod 16) * 4096 + (s1 - 128) * 64 + (s2 - 128).
Proof.
  intros Hc H1 H2. unfold wc3. rewrite !cont_val by done. rewrite (land_mask c 4 15 16) by done. rewrite <- Z.lor_assoc.
  rewrite (lor_shift_add (s1 - 128)) by lia. rewrite lor_shift_add; lia.
Qed.

Lemma wc4_val c s1 s2 s3 : 0 <= c -> 0x80 <= s1 < 0xC0 -> 0x80 <= s2 < 0xC0 -> 0x80 <= s3 < 0xC0 ->
  wc4 c s1 s2 s3 = (c mod 8) * 262144 + (s1 - 128) * 4096 + (s2 - 128) * 64 + (s3 - 128).
Proof.
  intros Hc H1 H2 H3. unfold wc4. rewrite !cont_val by done. rewrite (land_mask c 3 7 8) by done. rewrite <- !Z.lor_assoc.
  rewrite (lor_shift_add (s2 - 128)) by lia. rewrite (lor_shift_add (s1 - 128)) by lia. rewrite lor_shift_add; lia.
Qed.

Lemma mark wc k n m : 0 <= k -> 0 <= wc < 2 ^ k -> m = n * 2 ^ k -> wc ||| m = m + wc.
Proof. intros Hk H ->. by rewrite <- Z.shiftl_mul_pow2, Z.lor_comm, lor_shift_add, Z.shiftl_mul_pow2 by done. Qed.

Lemma low6 wc : u8 (0x80 ||| (wc &&& 0x3f)) = 0x80 + wc mod 64.
Proof. rewrite (land_mask wc 6 63 64), Z.lor_comm, (mark _ 6 2) by (done || Zlia). apply uwrap_small. Zlia. Qed.

Lemma shiftr6 wc : wc ≫ 6 = wc / 64.
Proof. by rewrite Z.shiftr_div_pow2. Qed.

Ltac utf8_unfold :=
  unfold utf8; bdec; unfold case4, case3, case2, case1; rewrite ?shiftr6, ?low6; cbn [app].

Lemma utf8_1 wc : 0 <= wc < 0x80 -> case1 wc = utf8 wc.
Proof. intros H. utf8_unfold. by rewrite uwrap_small by lia. Qed.

Lemma utf8_2 wc : 0x80 <= wc < 0x800 -> case2 wc = utf8 wc.
Proof. intros H. utf8_unfold. rewrite (mark (wc / 64) 6 3) by (done || Zlia). by rewrite uwrap_small by Zlia. Qed.

Lemma utf8_3 wc : 0x800 <= wc < 0x10000 -> case3 wc = utf8 wc.
Proof.
  intros H. utf8_unfold. rewrite (mark (wc / 64) 11 1) by (done || Zlia). rewrite (mark _ 6 3) by (done || Zlia). rewrite uwrap_small by Zlia.
  f_equal; [Zlia | f_equal; Zlia].
Qed.

Lemma utf8_4 wc : 0x10000 <= wc < 0x200000 -> case4 wc = utf8 wc.
Proof.
  intros H. utf8_unfold. rewrite (mark (wc / 64) 16 1) by (done || Zlia).
  assert (E1 : (0x10000 + wc / 64) / 64 = 1024 + wc / 4096) by Zlia. assert (E2 : (0x10000 + wc / 64) mod 64 = (wc / 64) mod 64) by Zlia.
  rewrite E1, E2, (mark (1024 + wc / 4096) 11 1) by (done || Zlia).
  assert (E3 : (0x800 + (1024 + wc / 4096)) / 64 = 48 + wc / 262144) by Zlia.
  assert (E4 : (0x800 + (1024 + wc / 4096)) mod 64 = (wc / 4096) mod 64) by Zlia.
  rewrite E3, E4, (mark (48 + _) 6 3), uwrap_small by (done || Zlia). f_equal. lia.
Qed.

Lemma wc_bytes_utf8 mb4 wc count : 0 <= wc -> wc_count mb4 wc = Some count -> wc_bytes count wc = utf8 wc /\ Z.of_nat (length (utf8 wc)) = count.
Proof.
  intros H0 H. assert (Hc : wc_bytes count wc = utf8 wc).
  { revert H. unfold wc_count. destruct mb4; cbn [andb]; repeat case_bool_decide; intros [= <-];
      first [exact (utf8_1 wc ltac:(lia)) | exact (utf8_2 wc ltac:(lia)) | exact (utf8_3 wc ltac:(lia)) | exact (utf8_4 wc ltac:(lia))]. }
  split; [done |]. revert H. unfold wc_count, utf8. destruct mb4; cbn [andb]; repeat case_bool_decide; intros [= <-]; done || lia.
Qed.

(** ** Decoders *)

(** What the functions that read strings rely on. *)
Class Decoder (mb_wc : list Z -> Z * Z) (limit : Z) := {
  dec_limit : 0x7F <= limit;
  dec_enc wc rest : 0 <= wc <= limit -> mb_wc (utf8 wc ++ rest) = (Z.of_nat (length (utf8 wc)), wc);
  dec_sound s n wc : Forall byte s -> mb_wc s = (n, wc) -> n > 0 -> 0 <= wc <= limit /\ exists rest, s = utf8 wc ++ rest /\ n = Z.of_nat (length (utf8 wc));
}.

Lemma is_cont_true b : byte b -> is_cont b = true -> 0x80 <= b < 0xC0.
Proof. intros Hb. rewrite is_cont_spec by done. apply bool_decide_eq_true_1. Qed.

Lemma is_cont_cont b : 0x80 <= b < 0xC0 -> is_cont b = true.
Proof. intros H. rewrite is_cont_spec by (unfold byte; lia). by apply bool_decide_eq_true_2. Qed.

Lemma utf8_back2 c s1 : 0xc2 <= c < 0xe0 -> 0x80 <= s1 < 0xC0 -> utf8 (wc2 c s1) = [c; s1] /\ 0 <= wc2 c s1 < 0x800.
Proof.
  intros Hc Hs. rewrite wc2_val by lia. assert (E : c mod 32 = c - 0xC0) by Zlia. rewrite E. split; [| lia].
  unfold utf8. bdec. f_equal; [Zlia | f_equal; Zlia].
Qed.

Lemma utf8_back3 c s1 s2 : 0xe0 <= c < 0xf0 -> 0x80 <= s1 < 0xC0 -> 0x80 <= s2 < 0xC0 -> (c >= 0xe1 \/ s1 >= 0xa0) ->
  utf8 (wc3 c s1 s2) = [c; s1; s2] /\ 0 <= wc3 c s1 s2 < 0x10000.
Proof.
  intros Hc H1 H2 Hs. rewrite wc3_val by lia. assert (E : c mod 16 = c - 0xE0) by Zlia. rewrite E. split; [| lia].
  unfold utf8. bdec. f_equal; [Zlia | f_equal; [Zlia | f_equal; Zlia]].
Qed.

Lemma utf8_back4 c s1 s2 s3 : 0xf0 <= c < 0xf5 -> 0x80 <= s1 < 0xC0 -> 0x80 <= s2 < 0xC0 -> 0x80 <= s3 < 0xC0 ->
  (c >= 0xf1 \/ s1 >= 0x90) -> (c <= 0xf3 \/ s1 <= 0x8f) ->
  utf8 (wc4 c s1 s2 s3) = [c; s1; s2; s3] /\ 0 <= wc4 c s1 s2 s3 <= 0x10FFFF.
Proof.
  intros Hc H1 H2 H3 Hs Hs'. rewrite wc4_val by lia. assert (E : c mod 8 = c - 0xF0) by Zlia. rewrite E. split; [| lia].
  unfold utf8. bdec. f_equal; [Zlia | f_equal; [Zlia | f_equal; [Zlia | f_equal; Zlia]]].
Qed.

Lemma orb_decide (P Q : Prop) `{Decision P, Decision Q} : P \/ Q -> bool_decide P || bool_decide Q = true.
Proof. intros HPQ. repeat case_bool_decide; tauto. Qed.

Lemma orb_decide_1 (P Q : Prop) `{Decision P, Decision Q} : bool_decide P || bool_decide Q = true -> P \/ Q.
Proof. repeat case_bool_decide; auto. done. Qed.

Ltac dec_cont := rewrite !is_cont_cont by Zlia; cbn [negb andb orb].

#[export] Instance utf8mb4_decoder : Decoder my_mb_wc_utf8mb4 0x10FFFF.
Proof.
  split; [done | |].
  - intros wc rest H. unfold utf8. repeat case_bool_decide; unfold my_mb_wc_utf8mb4; cbn [app length].
    + bdec. done.
    + rewrite (bool_decide_false (_ < 0x80)), (bool_decide_false (_ < 0xc2)), (bool_decide_true (_ < 0xe0)) by Zlia. dec_cont.
      rewrite wc2_val by Zlia. f_equal. Zlia.
    + rewrite (bool_decide_false (_ < 0x80)), (bool_decide_false (_ < 0xc2)), (bool_decide_false (_ < 0xe0)), (bool_decide_true (_ < 0xf0)) by Zlia. dec_cont.
      rewrite orb_decide by Zlia. cbn [negb]. rewrite wc3_val by Zlia. f_equal. Zlia.
    + rewrite (bool_decide_false (_ < 0x80)), (bool_decide_false (_ < 0xc2)), (bool_decide_false (_ < 0xe0)), (bool_decide_false (_ < 0xf0)),
        (bool_decide_true (_ < 0xf5)) by Zlia. dec_cont.
      rewrite !orb_decide by Zlia. cbn [negb andb]. rewrite wc4_val by Zlia. f_equal. Zlia.
  - intros s n wc Hs E Hn. destruct s as [| c r]; [injection E as <- _; done |]. cbn [my_mb_wc_utf8mb4] in E.
    apply Forall_cons_1 in Hs as [Hc Hr]. unfold byte in Hc. unfold MY_CS_ILSEQ, MY_CS_TOOSMALL2, MY_CS_TOOSMALL3, MY_CS_TOOSMALL4 in E.
    case_bool_decide as D1; [injection E as <- <-; split; [lia |]; exists r; unfold utf8; by bdec |].
    case_bool_decide as D2; [injection E as <- _; lia |]. case_bool_decide as D3; [| case_bool_decide as D4; [| case_bool_decide as D5; [| injection E as <- _; lia]]].
    + destruct r as [| s1 r]; [injection E as <- _; lia |]. apply Forall_cons_1 in Hr as [H1 Hr].
      destruct (is_cont s1) eqn:C1; [| injection E as <- _; lia]. apply is_cont_true in C1; [| done]. injection E as <- <-.
      destruct (utf8_back2 c s1) as [-> Hw]; [lia | done |]. split; [lia |]. by exists r.
    + destruct r as [| s1 [| s2 r]]; [injection E as <- _; lia | injection E as <- _; lia |]. apply Forall_cons_1 in Hr as [H1 [H2 Hr]%Forall_cons_1].
      case_match eqn:C; [injection E as <- _; lia |]. apply negb_false_iff in C. apply andb_prop in C as [[C1 C2]%andb_prop C3].
      apply is_cont_true in C1, C2; try done. apply orb_decide_1 in C3. injection E as <- <-.
      destruct (utf8_back3 c s1 s2) as [-> Hw]; [lia | done | done | done |]. split; [lia |]. by exists r.
    + destruct r as [| s1 [| s2 [| s3 r]]]; [injection E as <- _; lia.. |]. apply Forall_cons_1 in Hr as [H1 [H2 [H3 Hr]%Forall_cons_1]%Forall_cons_1].
      case_match eqn:C; [injection E as <- _; lia |]. apply negb_false_iff in C.
      apply andb_prop in C as [[[[C1 C2]%andb_prop C3]%andb_prop C4]%andb_prop C5].
      apply is_cont_true in C1, C2, C3; try done. apply orb_decide_1 in C4, C5. injection E as <- <-.
      destruct (utf8_back4 c s1 s2 s3) as [-> Hw]; [lia | done.. |]. split; [lia |]. by exists r.
Qed.

(** utf8mb3 is utf8mb4 without the heads of four bytes. *)
Lemma mb3_mb4 c r : my_mb_wc_utf8mb3 (c :: r) = if bool_decide (c < 0xf0) then my_mb_wc_utf8mb4 (c :: r) else (MY_CS_ILSEQ, 0).
Proof. unfold my_mb_wc_utf8mb3, my_mb_wc_utf8mb4. repeat case_bool_decide; done || lia. Qed.

Lemma utf8_head wc : 0 <= wc -> exists c r, utf8 wc = c :: r /\ (c < 0x80 <-> wc < 0x80) /\ (c < 0xf0 <-> wc < 0x10000) /\ (wc < 0x80 -> c = wc /\ r = []).
Proof. intros H. unfold utf8. repeat case_bool_decide; eexists _, _; (split; [done |]); split_and!; done || Zlia. Qed.

#[export] Instance utf8mb3_decoder : Decoder my_mb_wc_utf8mb3 0xFFFF.
Proof.
  split; [done | |].
  - intros wc rest H. rewrite <- (dec_enc (Decoder := utf8mb4_decoder) wc rest) by lia. destruct (utf8_head wc) as (c & r & -> & _ & Hc & _); [lia |].
    cbn [app]. rewrite mb3_mb4. by rewrite bool_decide_true by lia.
  - intros s n wc Hs E Hn. destruct s as [| c r]; [injection E as <- _; done |]. rewrite mb3_mb4 in E.
    case_bool_decide as Hc; [| injection E as <- _; done].
    destruct (dec_sound (Decoder := utf8mb4_decoder) (c :: r) n wc Hs E Hn) as (Hw & rest & Hr & ->). split; [| by exists rest].
    destruct (utf8_head wc) as (c' & r' & Eu & _ & Hc' & _); [lia |]. rewrite Eu in Hr. injection Hr as <- _. lia.
Qed.

(** ** Without a range *)

Definition mb_wc_of (mb4 : bool) : list Z -> Z * Z := if mb4 then my_mb_wc_utf8mb4 else my_mb_wc_utf8mb3.
Definition limit_of (mb4 : bool) : Z := if mb4 then 0x10FFFF else 0xFFFF.

#[export] Instance mb_wc_of_decoder mb4 : Decoder (mb_wc_of mb4) (limit_of mb4).
Proof. destruct mb4; [exact utf8mb4_decoder | exact utf8mb3_decoder]. Qed.

Lemma load_0 {A} (a : A) l : load (a :: l) 0 = Some a.
Proof. done. Qed.
Lemma load_1 {A} (a b : A) l : load (a :: b :: l) 1 = Some b.
Proof. done. Qed.
Lemma load_2 {A} (a b c : A) l : load (a :: b :: c :: l) 2 = Some c.
Proof. done. Qed.
Lemma load_3 {A} (a b c d : A) l : load (a :: b :: c :: d :: l) 3 = Some d.
Proof. done. Qed.

Ltac loads :=
  repeat (first [rewrite load_0 | rewrite load_1 | rewrite load_2 | rewrite load_3 | progress cbn [all_cont mbind option_bind negb andb orb]
                | progress change (1 + 1) with 2 | progress change (2 + 1) with 3]).

(** With enough bytes both functions agree. *)
Lemma no_range_mb4 s : 0 <= (my_mb_wc_utf8mb4 s).1 -> mb_wc_no_range true s = Some (my_mb_wc_utf8mb4 s).
Proof.
  destruct s as [| c r]; [done |]. unfold my_mb_wc_utf8mb4, mb_wc_no_range. loads.
  case_bool_decide; [done |]. case_bool_decide; [done |]. case_bool_decide.
  { destruct r as [| s1 r]; [done |]. loads. by destruct (is_cont s1). }
  case_bool_decide.
  { destruct r as [| s1 [| s2 r]]; [done.. |]. loads. destruct (is_cont s1), (is_cont s2); loads; try done. by destruct (_ || _). }
  case_bool_decide; [| done]. destruct r as [| s1 [| s2 [| s3 r]]]; [done.. |]. loads.
  destruct (is_cont s1), (is_cont s2), (is_cont s3); loads; try done. by destruct (_ || _), (_ || _).
Qed.

Lemma no_range_mb3 c r : mb_wc_no_range false (c :: r) = if bool_decide (c < 0xf0) then mb_wc_no_range true (c :: r) else Some (MY_CS_ILSEQ, 0).
Proof. unfold mb_wc_no_range. loads. repeat case_bool_decide; done || lia. Qed.

Lemma no_range_decode mb4 s : 0 <= (mb_wc_of mb4 s).1 -> mb_wc_no_range mb4 s = Some (mb_wc_of mb4 s).
Proof.
  destruct mb4; [apply no_range_mb4 |]. destruct s as [| c r]; [done |]. cbn [mb_wc_of]. rewrite mb3_mb4, no_range_mb3.
  case_bool_decide; [apply no_range_mb4 | done].
Qed.

Lemma no_range_utf8 mb4 wc rest : 0 <= wc <= limit_of mb4 -> mb_wc_no_range mb4 (utf8 wc ++ rest) = Some (Z.of_nat (length (utf8 wc)), wc).
Proof. intros H. rewrite no_range_decode; rewrite dec_enc by done; [done | cbn; lia]. Qed.

Lemma is_cont_0 : is_cont 0 = false.
Proof. done. Qed.

Ltac err_lia := cbn; unfold MY_CS_ILSEQ, MY_CS_TOOSMALL2, MY_CS_TOOSMALL3, MY_CS_TOOSMALL4; lia.

(** The five ranges of a first byte. *)
Ltac split_head :=
  case_bool_decide; [try err_lia; done |]; case_bool_decide; [try err_lia; done |];
  case_bool_decide; [| case_bool_decide; [| case_bool_decide; [| try err_lia; done]]].

(** A 0 ends a sequence: nothing is read behind it. *)
Lemma no_range_stop4 s tl : s <> [] -> (my_mb_wc_utf8mb4 s).1 <= 0 -> exists r wc, mb_wc_no_range true (s ++ 0 :: tl) = Some (r, wc) /\ r <= 0.
Proof.
  intros Hne Hbad. destruct s as [| c r]; [done |]. destruct (decide (0 <= (my_mb_wc_utf8mb4 ((c :: r) ++ 0 :: tl)).1)) as [Hlong | Hshort].
  - rewrite no_range_mb4 by done. eexists _, _. split; [apply f_equal, surjective_pairing |]. revert Hbad Hlong.
    cbn [app]. unfold my_mb_wc_utf8mb4. split_head.
    + destruct r; cbn [app]; [| done]. rewrite is_cont_0. err_lia.
    + destruct r as [| s1 [| s2 r]]; cbn [app]; [| | done]; destruct tl; rewrite ?is_cont_0, ?andb_false_r; err_lia.
    + destruct r as [| s1 [| s2 [| s3 r]]]; cbn [app]; [| | | done]; destruct tl as [| t1 [| t2 tl]]; rewrite ?is_cont_0, ?andb_false_r; err_lia.
  - exists MY_CS_ILSEQ, 0. split; [| done]. revert Hshort. cbn [app]. unfold my_mb_wc_utf8mb4, mb_wc_no_range. loads. split_head.
    + destruct r as [| s1 r]; cbn [app]; case_match; err_lia.
    + destruct r as [| s1 [| s2 r]]; cbn [app]; loads; rewrite ?is_cont_0; loads; try done.
      * by destruct (is_cont s1); loads; rewrite ?is_cont_0.
      * case_match; err_lia.
    + destruct r as [| s1 [| s2 [| s3 r]]]; cbn [app]; loads; rewrite ?is_cont_0; loads; try done.
      * by destruct (is_cont s1); loads; rewrite ?is_cont_0.
      * destruct (is_cont s1), (is_cont s2); loads; rewrite ?is_cont_0; done.
      * case_match; err_lia.
Qed.

Lemma no_range_stop mb4 s tl : s <> [] -> (mb_wc_of mb4 s).1 <= 0 -> exists r wc, mb_wc_no_range mb4 (s ++ 0 :: tl) = Some (r, wc) /\ r <= 0.
Proof.
  destruct mb4; [apply no_range_stop4 |]. destruct s as [| c s]; [done |]. cbn [mb_wc_of app]. rewrite mb3_mb4, no_range_mb3. intros _.
  case_bool_decide; [by apply (no_range_stop4 (c :: s)) | by eexists _, _].
Qed.

(** ** Trailing spaces *)

Lemma rtrim_app l s : rtrim (l ++ s) = match rtrim s with [] => rtrim l | t => l ++ t end.
Proof.
  induction l as [| x l IH]; cbn [app rtrim]; [by destruct (rtrim s) |]. rewrite IH. destruct (rtrim s) as [| y t]; [done |].
  destruct (l ++ y :: t) eqn:E; [by apply app_eq_nil in E as [_ E] | done].
Qed.

Lemma remove_end_space_rtrim s : remove_end_space s = rtrim s.
Proof.
  unfold remove_end_space. induction s as [| x s IH] using rev_ind; [done |]. rewrite rev_app_distr, rtrim_app. cbn [rev app drop_spaces rtrim].
  case_bool_decide as Hx; [done |]. cbn [rev]. by rewrite rev_involutive.
Qed.

Lemma utf8_last wc : 0 <= wc -> exists pre b, utf8 wc = pre ++ [b] /\ (b = 32 -> wc = 32).
Proof.
  intros H. unfold utf8. repeat case_bool_decide.
  - by exists [], wc.
  - eexists [_], _. split; [done |]. Zlia.
  - eexists [_; _], _. split; [done |]. Zlia.
  - eexists [_; _; _], _. split; [done |]. Zlia.
Qed.

Lemma rtrim_utf8 wc : 0 <= wc -> wc <> 32 -> rtrim (utf8 wc) = utf8 wc.
Proof. intros H Hn. destruct (utf8_last wc H) as (pre & b & -> & Hb). apply rtrim_last. auto. Qed.

Lemma utf8_nonempty wc : utf8 wc <> [].
Proof. unfold utf8. by repeat case_bool_decide. Qed.

Lemma utf8_bytes wc : 0 <= wc <= 0x10FFFF -> Forall byte (utf8 wc).
Proof. intros H. unfold utf8. repeat case_bool_decide; repeat constructor; Zlia. Qed.

(** ** Sort keys of two bytes *)

Definition be16 (w : Z) : list Z := [u8 (w ≫ 8); u8 (w &&& 0xFF)].

Lemma be16_order x y : 0 <= x < 0x10000 -> 0 <= y < 0x10000 -> forall s t, Z.sgn (memcmp (be16 x ++ s) (be16 y ++ t)) = if bool_decide (x = y) then Z.sgn (memcmp s t) else Z.sgn (x - y).
Proof.
  intros Hx Hy s t. unfold be16. rewrite !land_255, !Z.shiftr_div_pow2 by done. change (2 ^ 8) with 256.
  rewrite !(uwrap_small 8) by Zlia. cbn [app memcmp]. destruct (decide (x = y)) as [-> | Hne].
  - by rewrite !bool_decide_true by done.
  - rewrite (bool_decide_false (x = y)) by done. repeat case_bool_decide; Zlia.
Qed.

Lemma keys_order a : forall b, Forall (fun w => 0 <= w < 0x10000) a -> Forall (fun w => 0 <= w < 0x10000) b -> length a = length b ->
  Z.sgn (memcmp (concat (be16 <$> a)) (concat (be16 <$> b))) = Z.sgn (memcmp a b).
Proof.
  induction a as [| x a IH]; intros [| y b] Ha Hb Hl; try done. apply Forall_cons_1 in Ha as [Hx Ha]. apply Forall_cons_1 in Hb as [Hy Hb].
  cbn [fmap list_fmap concat memcmp]. rewrite be16_order by done. case_bool_decide; [| done]. apply IH; [done | done | by injection Hl].
Qed.

(** ** Strings of characters *)

Section Strings.
Context {mb_wc : list Z -> Z * Z} {limit : Z} `{HD : !Decoder mb_wc limit}.

Definition valid (wc : Z) : Prop := 0 <= wc <= limit.

(** A string begins with a character or cannot be decoded. *)
Lemma dec_cases s : Forall byte s ->
  (exists wc rest, valid wc /\ s = utf8 wc ++ rest /\ Forall byte rest /\ mb_wc s = (Z.of_nat (length (utf8 wc)), wc)) \/ (mb_wc s).1 <= 0.
Proof.
  intros Hs. destruct (mb_wc s) as [n wc] eqn:E. destruct (decide (n <= 0)) as [Hn | Hn]; [by right |]. left.
  destruct (dec_sound s n wc Hs E) as (Hw & rest & -> & ->); [lia |]. exists wc, rest. apply Forall_app in Hs as [_ Hs]. by split_and!.
Qed.

Lemma dec_utf8 wc rest : valid wc -> mb_wc (utf8 wc ++ rest) = (Z.of_nat (length (utf8 wc)), wc).
Proof. apply dec_enc. Qed.

Lemma utf8_pos wc : 0 < Z.of_nat (length (utf8 wc)).
Proof. pose proof (utf8_nonempty wc). destruct (utf8 wc); [done | cbn; lia]. Qed.

(** The characters up to the first byte that cannot be decoded. *)
Fixpoint decode_all (fuel : nat) (s : list Z) : list Z :=
  match fuel with
  | O => []
  | S fuel => let '(n, wc) := mb_wc s in if bool_decide (n <= 0) then [] else wc :: decode_all fuel (drop (Z.to_nat n) s)
  end.

Definition chars (s : list Z) : list Z := decode_all (S (length s)) s.

Lemma decode_all_enough fuel : forall s, Forall byte s -> (length s < fuel)%nat -> decode_all fuel s = chars s.
Proof.
  assert (Hgen : forall f1 f2 s, Forall byte s -> (length s < f1)%nat -> (length s < f2)%nat -> decode_all f1 s = decode_all f2 s).
  { induction f1 as [| f1 IH]; intros f2 s Hs H1 H2; [lia |]. destruct f2 as [| f2]; [lia |]. cbn [decode_all].
    destruct (dec_cases s Hs) as [(wc & rest & _ & -> & Hr & ->) | Hn].
    - rewrite bool_decide_false by (pose proof (utf8_pos wc); lia). f_equal. rewrite Nat2Z.id, drop_app_length. rewrite length_app in H1, H2.
      pose proof (utf8_pos wc). apply IH; [done | lia | lia].
    - destruct (mb_wc s) as [n wc]. cbn [fst] in Hn. by rewrite bool_decide_true by done. }
  intros s Hs Hf. apply Hgen; [done | done | lia].
Qed.

Lemma chars_cons wc s : valid wc -> Forall byte s -> chars (utf8 wc ++ s) = wc :: chars s.
Proof.
  intros Hw Hs. unfold chars at 1. cbn [decode_all]. rewrite dec_utf8 by done. pose proof (utf8_pos wc). rewrite bool_decide_false by lia. f_equal.
  rewrite Nat2Z.id, drop_app_length. apply decode_all_enough; [done |]. rewrite length_app. lia.
Qed.

Lemma chars_bad s : (mb_wc s).1 <= 0 -> chars s = [].
Proof. intros H. unfold chars. cbn [decode_all]. destruct (mb_wc s) as [n wc]. cbn [fst] in H. by rewrite bool_decide_true by done. Qed.

Lemma dec_nil : (mb_wc []).1 <= 0.
Proof.
  destruct (dec_cases []) as [(wc & rest & _ & E & _) | H]; [constructor | | done].
  symmetry in E. apply app_eq_nil in E as [E _]. by apply utf8_nonempty in E.
Qed.

Lemma hash_loop_chars add fuel s n : hash_loop mb_wc add fuel s n = foldl add n (decode_all fuel s).
Proof.
  revert s n. induction fuel as [| fuel IH]; intros s n; [done |]. cbn [hash_loop decode_all]. destruct (mb_wc s) as [res wc]. case_bool_decide; [done |]. cbn. apply IH.
Qed.

Lemma rtrim_cons wc s : valid wc -> Forall byte s ->
  rtrim (utf8 wc ++ s) = [] /\ wc = 32 /\ rtrim s = [] \/ rtrim (utf8 wc ++ s) = utf8 wc ++ rtrim s /\ (wc <> 32 \/ rtrim s <> []).
Proof.
  intros [Hw _] Hs. rewrite rtrim_app. destruct (rtrim s) as [| y t] eqn:E; [| right; split; [done | by right]].
  destruct (decide (wc = 32)) as [-> | Hne]; [by left |]. right. rewrite app_nil_r. split; [by apply rtrim_utf8 | by left].
Qed.

Lemma rtrim_byte s : Forall byte s -> Forall byte (rtrim s).
Proof.
  induction 1 as [| x s Hx _ IH]; [done |]. cbn [rtrim]. destruct (rtrim s); [| by constructor]. case_bool_decide; [done | by constructor].
Qed.

(** ** Comparison *)

Context (tosort : Z -> Z).

Lemma bincmp_eq s t : bincmp s t = 0 -> s = t.
Proof.
  unfold bincmp. case_bool_decide as E; [lia |]. intros H. assert (Hl : length s = length t) by lia. rewrite Hl, Z.min_id, Nat2Z.id in E.
  rewrite !take_ge in E by lia. by apply memcmp_eq; [| lia].
Qed.

(** The result of the comparison from what is left. *)
Definition collsp_end (r : Z + list Z * list Z) : Z :=
  match r with
  | inl r => r
  | inr (s, t) =>
      if bool_decide (length s <> length t) then
        if bool_decide (length s < length t)%nat then end_space (fun c => c) (-1) t else end_space (fun c => c) 1 s
      else 0
  end.

Lemma strnncollsp_end s t : strnncollsp mb_wc tosort s t = collsp_end (coll_loop mb_wc tosort (S (length s)) s t).
Proof. done. Qed.

Lemma collsp_end_l t : collsp_end (inr ([], t)) = end_space (fun c => c) (-1) t.
Proof. destruct t; done. Qed.

Lemma collsp_end_r s : collsp_end (inr (s, [])) = end_space (fun c => c) 1 s.
Proof. destruct s; done. Qed.

Lemma end_space_rtrim sw s : sw <> 0 -> end_space (fun c => c) sw s = 0 -> rtrim s = [].
Proof.
  intros Hsw. induction s as [| x s IH]; [done |]. cbn [end_space rtrim]. case_bool_decide as Hx; [case_bool_decide; lia |].
  intros H. rewrite IH by done. by rewrite bool_decide_true by (destruct (decide (x = 32)); tauto).
Qed.

Lemma coll_loop_cons fuel a s b t : valid a -> valid b ->
  coll_loop mb_wc tosort (S fuel) (utf8 a ++ s) (utf8 b ++ t) =
  if bool_decide (tosort a <> tosort b) then inl (if bool_decide (tosort a > tosort b) then 1 else -1) else coll_loop mb_wc tosort fuel s t.
Proof.
  intros Ha Hb. cbn [coll_loop]. pose proof (utf8_pos a). pose proof (utf8_pos b).
  rewrite (bool_decide_false (utf8 a ++ s = [])) by (intros [E _]%app_eq_nil; by apply utf8_nonempty in E).
  rewrite (bool_decide_false (utf8 b ++ t = [])) by (intros [E _]%app_eq_nil; by apply utf8_nonempty in E). cbn [orb].
  rewrite !dec_utf8 by done. rewrite !(bool_decide_false (_ <= 0)) by lia. cbn [orb]. by rewrite !Nat2Z.id, !drop_app_length.
Qed.

(** A string that cannot be decoded is compared bytewise. *)
Lemma coll_loop_bad fuel s t : s <> [] -> t <> [] -> (mb_wc s).1 <= 0 \/ (mb_wc t).1 <= 0 -> coll_loop mb_wc tosort (S fuel) s t = inl (bincmp s t).
Proof.
  intros Hs Ht H. cbn [coll_loop]. rewrite !(bool_decide_false (_ = [])) by done. cbn [orb].
  destruct (mb_wc s) as [n a], (mb_wc t) as [m b]. cbn [fst] in H. rewrite orb_decide by done. done.
Qed.

(** Strings that compare equal have the same weights in front of the trailing spaces. *)
Lemma collsp_weights fuel : forall s t,
  Forall byte s -> Forall byte t -> (forall c, valid c -> tosort c = tosort 32 -> c = 32) -> (length s < fuel)%nat ->
  collsp_end (coll_loop mb_wc tosort fuel s t) = 0 ->
  (rtrim s = [] <-> rtrim t = []) /\ tosort <$> chars (rtrim s) = tosort <$> chars (rtrim t).
Proof.
  induction fuel as [| fuel IH]; intros s t Hs Ht Hw Hf H; [lia |].
  destruct (decide (s = [])) as [-> | Hns].
  { cbn [coll_loop] in H. rewrite bool_decide_true in H by done. cbn [orb] in H. rewrite collsp_end_l in H. apply end_space_rtrim in H; [| done]. by rewrite H. }
  destruct (decide (t = [])) as [-> | Hnt].
  { cbn [coll_loop] in H. rewrite (bool_decide_true ([] = [])), orb_true_r, collsp_end_r in H by done. apply end_space_rtrim in H; [| done]. by rewrite H. }
  destruct (dec_cases s Hs) as [(a & s' & Ha & -> & Hs' & _) | Hbad].
  2: { rewrite coll_loop_bad in H by auto. apply bincmp_eq in H. by subst. }
  destruct (dec_cases t Ht) as [(b & t' & Hb & -> & Ht' & _) | Hbad].
  2: { rewrite coll_loop_bad in H by auto. apply bincmp_eq in H. by rewrite H. }
  rewrite coll_loop_cons in H by done. case_bool_decide as Hab; [cbn in H; case_bool_decide; lia |].
  assert (Heq : tosort a = tosort b) by (destruct (decide (tosort a = tosort b)); tauto).
  pose proof (utf8_pos a). rewrite length_app in Hf. destruct (IH s' t' Hs' Ht' Hw ltac:(lia) H) as [IH1 IH2].
  assert (H32 : a = 32 <-> b = 32) by (split; intros ->; apply Hw; done || congruence).
  destruct (rtrim_cons a s' Ha Hs') as [(Ea & Ha' & Hr) | (Ea & Ha')], (rtrim_cons b t' Hb Ht') as [(Eb & Hb' & Hr') | (Eb & Hb')]; rewrite Ea, Eb.
  - done.
  - exfalso. tauto.
  - exfalso. tauto.
  - rewrite !chars_cons by (done || by apply rtrim_byte). cbn [fmap list_fmap]. split; [| by f_equal].
    split; intros [E _]%app_eq_nil; by apply utf8_nonempty in E.
Qed.

Lemma length_rtrim s : (length (rtrim s) <= length s)%nat.
Proof. induction s as [| x s IH]; [done |]. cbn [rtrim length]. destruct (rtrim s); [case_bool_decide; cbn; lia | cbn in *; lia]. Qed.

(** A hash of the weights is the same for equal strings. *)
Lemma hash_equal add g s t n :
  (forall m c, add m c = g m (tosort c)) -> (forall c, valid c -> tosort c = tosort 32 -> c = 32) -> Forall byte s -> Forall byte t ->
  strnncollsp mb_wc tosort s t = 0 ->
  hash_loop mb_wc add (S (length s)) (remove_end_space s) n = hash_loop mb_wc add (S (length t)) (remove_end_space t) n.
Proof.
  intros Hadd Hw Hs Ht H. rewrite !hash_loop_chars, !remove_end_space_rtrim. pose proof (length_rtrim s). pose proof (length_rtrim t).
  rewrite !decode_all_enough by (by apply rtrim_byte || lia).
  destruct (collsp_weights (S (length s)) s t Hs Ht Hw ltac:(lia)) as [_ E]; [by rewrite <- strnncollsp_end |].
  assert (Hfold : forall l m, foldl add m l = foldl g m (tosort <$> l)).
  { intros l. induction l as [| x l IH]; intros m; [done |]. cbn. by rewrite Hadd, IH. }
  by rewrite !Hfold, E.
Qed.

(** The string of a list of characters. *)
Definition enc (ws : list Z) : list Z := concat (utf8 <$> ws).

(** The weights are on the side of the space on which the characters are. *)
Definition space_order : Prop := forall c, valid c -> Z.sgn (tosort c - 32) = Z.sgn (c - 32).

Lemma end_space_enc sw ws : space_order -> Forall valid ws -> end_space (fun c => c) sw (enc ws) = end_space tosort sw ws.
Proof.
  intros Hso. induction 1 as [| a ws Ha _ IH]; [done |]. unfold enc. cbn [fmap list_fmap concat].
  destruct (utf8_head a) as (c & r & -> & H80 & _ & Hasc); [apply Ha |]. specialize (Hso a Ha). cbn [app end_space].
  destruct (decide (a < 0x80)) as [Hlt | Hge].
  - destruct (Hasc Hlt) as [-> ->]. cbn [app]. fold (enc ws). rewrite IH.
    rewrite (bool_decide_ext (a <> 32) (tosort a <> 32)) by lia. by rewrite (bool_decide_ext (a < 32) (tosort a < 32)) by lia.
  - by bdec.
Qed.

Lemma enc_cons a ws : enc (a :: ws) = utf8 a ++ enc ws.
Proof. done. Qed.

(** On strings of characters: the comparison of the weights padded with spaces. *)
Lemma collsp_enc fuel : forall ws wt, space_order -> Forall valid ws -> Forall valid wt -> (length (enc ws) < fuel)%nat ->
  Z.sgn (collsp_end (coll_loop mb_wc tosort fuel (enc ws) (enc wt))) = Z.sgn (my_strnncollsp_simple tosort ws wt).
Proof.
  induction fuel as [| fuel IH]; intros ws wt Hso Hs Ht Hf; [lia |].
  destruct Hs as [| a ws Ha Hs].
  { cbn [enc fmap list_fmap concat coll_loop]. rewrite bool_decide_true by done. cbn [orb]. rewrite collsp_end_l, collsp_nil_l. by rewrite end_space_enc. }
  destruct Ht as [| b wt Hb Ht].
  { change (enc []) with (@nil Z). cbn [coll_loop]. rewrite (bool_decide_true ([] = [])) by done. rewrite orb_true_r, collsp_end_r, collsp_nil_r.
    rewrite end_space_enc; [done | done | by constructor]. }
  rewrite !enc_cons in *. rewrite coll_loop_cons, collsp_cons by done. case_bool_decide as Hab.
  - cbn [collsp_end]. case_bool_decide; lia.
  - apply IH; try done. rewrite length_app in Hf. pose proof (utf8_pos a). lia.
Qed.

(** ** Sort keys *)

Lemma xfrm_loop_enc ws : forall n, Forall valid ws -> (length ws <= n)%nat ->
  xfrm_loop mb_wc tosort n (2 * Z.of_nat n) (enc ws) = (concat (be16 <$> (tosort <$> ws)), (n - length ws)%nat).
Proof.
  induction ws as [| a ws IH]; intros n Hws Hn.
  - destruct n as [| n]; [done |]. cbn [xfrm_loop enc fmap list_fmap concat]. rewrite bool_decide_true by lia. pose proof dec_nil as Hd.
    destruct (mb_wc []) as [r wc]. cbn [fst] in Hd. by rewrite bool_decide_true by done.
  - apply Forall_cons_1 in Hws as [Ha Hws]. destruct n as [| n]; [cbn in Hn; lia |]. cbn [length] in Hn. cbn [xfrm_loop]. rewrite bool_decide_true by lia.
    rewrite enc_cons, dec_utf8 by done. pose proof (utf8_pos a). rewrite bool_decide_false by lia. rewrite bool_decide_true by lia.
    rewrite Nat2Z.id, drop_app_length. cbn [length]. replace (2 * Z.of_nat (S n) - Z.of_nat 2) with (2 * Z.of_nat n) by lia.
    rewrite IH by (done || lia). done.
Qed.

Lemma pad_enough n : forall m, (n <= m)%nat -> my_strxfrm_pad_nweights_unicode n (2 * Z.of_nat m) = concat (be16 <$> replicate n 32).
Proof.
  induction n as [| n IH]; intros m Hm; [done |]. cbn [my_strxfrm_pad_nweights_unicode]. rewrite !bool_decide_true by lia. cbn [length].
  destruct m as [| m]; [lia |]. replace (2 * Z.of_nat (S m) - Z.of_nat 2) with (2 * Z.of_nat m) by lia. by rewrite IH by lia.
Qed.

(** The key of a string of at most [n] characters. *)
Lemma strnxfrm_enc ws n : Forall valid ws -> (length ws <= n)%nat ->
  my_strnxfrm_unicode mb_wc tosort (2 * Z.of_nat n) (Z.of_nat n) (enc ws) MY_STRXFRM_PAD_WITH_SPACE = Some (concat (be16 <$> padded tosort n ws)).
Proof.
  intros Hws Hn. unfold my_strnxfrm_unicode. rewrite Nat2Z.id, xfrm_loop_enc by done.
  assert (Hl : forall l, length (concat (be16 <$> l)) = (2 * length l)%nat) by (induction l as [| x l IH]; [done |]; cbn [fmap list_fmap concat]; rewrite length_app, IH; cbn; lia).
  rewrite Hl, length_fmap. change (flag MY_STRXFRM_PAD_WITH_SPACE MY_STRXFRM_PAD_WITH_SPACE) with true. rewrite andb_true_r.
  replace (2 * Z.of_nat n - Z.of_nat (2 * length ws)) with (2 * Z.of_nat (n - length ws)) by lia. unfold padded. rewrite fmap_app, concat_app.
  destruct (decide (n - length ws = 0)%nat) as [Hz | Hz].
  - rewrite (bool_decide_false (_ <> _)) by tauto. rewrite andb_false_r, Hz. cbn [replicate fmap list_fmap concat]. rewrite app_nil_r. done.
  - rewrite !bool_decide_true by lia. cbn [andb]. rewrite pad_enough by done. done.
Qed.

(** ** Changes of case *)

(** As many characters as there is room for. *)
Fixpoint fit (room : Z) (ws : list Z) : list Z :=
  match ws with
  | [] => []
  | w :: ws => if bool_decide (Z.of_nat (length (utf8 w)) <= room) then utf8 w ++ fit (room - Z.of_nat (length (utf8 w))) ws else []
  end.

Lemma fit_room room ws : 0 <= room -> Z.of_nat (length (fit room ws)) <= room.
Proof.
  revert room. induction ws as [| w ws IH]; intros room H; [done |]. cbn [fit]. case_bool_decide; [| done]. rewrite length_app.
  specialize (IH (room - Z.of_nat (length (utf8 w))) ltac:(lia)). lia.
Qed.

Lemma fit_all room ws : Z.of_nat (length (enc ws)) <= room -> fit room ws = enc ws.
Proof.
  revert room. induction ws as [| w ws IH]; intros room H; [done |]. rewrite enc_cons in *. rewrite length_app in H. cbn [fit].
  rewrite bool_decide_true by lia. f_equal. apply IH. lia.
Qed.

(** The changed characters can be encoded. *)
Definition encodes (mb4 : bool) (conv : Z -> Z) : Prop := forall c, valid c -> 0 <= conv c /\ is_Some (wc_count mb4 (conv c)).

Lemma wc_mb_spec mb4 wc room : 0 <= wc -> is_Some (wc_count mb4 wc) ->
  if bool_decide (Z.of_nat (length (utf8 wc)) <= room) then wc_mb mb4 wc room = (Z.of_nat (length (utf8 wc)), utf8 wc) else (wc_mb mb4 wc room).1 <= 0.
Proof.
  intros H0 [count Hc]. destruct (wc_bytes_utf8 mb4 wc count H0 Hc) as [Hb Hl]. pose proof (utf8_pos wc). unfold wc_mb. rewrite Hc, Hl, Hb.
  case_bool_decide.
  - rewrite (bool_decide_false (room <= 0)), (bool_decide_false (count > room)) by lia. done.
  - case_bool_decide; [done |]. rewrite (bool_decide_true (count > room)) by lia. cbn. unfold MY_CS_TOOSMALLN. lia.
Qed.

Lemma case_loop_spec mb4 conv fuel : forall src room,
  encodes mb4 conv -> Forall byte src -> (length src < fuel)%nat -> case_loop mb_wc conv (wc_mb mb4) fuel src room = fit room (conv <$> chars src).
Proof.
  induction fuel as [| fuel IH]; intros src room He Hs Hf; [lia |]. cbn [case_loop].
  destruct (dec_cases src Hs) as [(wc & rest & Hw & -> & Hr & ->) | Hbad].
  - pose proof (utf8_pos wc). rewrite (bool_decide_false (_ = [])) by (intros [E _]%app_eq_nil; by apply utf8_nonempty in E).
    rewrite (bool_decide_false (_ <= 0)) by lia. cbn [orb]. rewrite chars_cons by done. cbn [fmap list_fmap fit].
    destruct (He wc Hw) as [Hc0 Hc]. pose proof (wc_mb_spec mb4 (conv wc) room Hc0 Hc) as Hm. case_bool_decide as Hroom.
    + rewrite Hm. pose proof (utf8_pos (conv wc)). rewrite bool_decide_false by lia. f_equal. rewrite Nat2Z.id, drop_app_length.
      apply IH; [done | done |]. rewrite length_app in Hf. lia.
    + destruct (wc_mb mb4 (conv wc) room) as [r bs]. cbn [fst] in Hm. by rewrite bool_decide_true by done.
  - rewrite chars_bad by done. destruct (mb_wc src) as [n wc]. cbn [fst] in Hbad. rewrite (bool_decide_true (n <= 0)) by done. by rewrite orb_true_r.
Qed.

End Strings.

(** ** Changes of case in place *)

Lemma write_append {A} (out bs M : list A) : (length bs <= length M)%nat -> write (out ++ M) (Z.of_nat (length out)) bs = Some (out ++ bs ++ drop (length bs) M).
Proof.
  intros H. unfold write. rewrite length_app. rewrite decide_True by lia. rewrite Nat2Z.id, take_app_length, drop_app_add. done.
Qed.

Section InPlace.
Context (mb4 : bool) (conv : Z -> Z).
Abbreviation chars4 := (chars (mb_wc := mb_wc_of mb4)).

(** Characters that can be changed in place. *)
Definition shrinks : Prop :=
  forall c, 0 <= c <= limit_of mb4 -> 0 <= conv c /\ is_Some (wc_count mb4 (conv c)) /\ (length (utf8 (conv c)) <= length (utf8 c))%nat.

Lemma wc_mb_no_range_spec wc : 0 <= wc -> is_Some (wc_count mb4 wc) -> wc_mb_no_range mb4 wc = (Z.of_nat (length (utf8 wc)), utf8 wc).
Proof. intros H0 [count Hc]. unfold wc_mb_no_range. rewrite Hc. by destruct (wc_bytes_utf8 mb4 wc count H0 Hc) as [-> ->]. Qed.

Lemma case_str_finish out X : X <> [] ->
  exists b', (b ← store (out ++ X) (Z.of_nat (length out)) 0; Some (Z.of_nat (length out), b)) = Some (Z.of_nat (length out), b') /\
    length b' = length (out ++ X) /\ take (length out + 1) b' = out ++ [0].
Proof.
  intros H. destruct X as [| x X]; [done |]. rewrite store_next. cbn [mbind option_bind]. eexists. split; [done |]. rewrite !length_app. split; [done |].
  by rewrite take_app_add.
Qed.

Lemma case_str_loop_spec fuel : forall out mid s tl,
  shrinks -> Forall byte s -> 0 ∉ s -> (length s < fuel)%nat ->
  exists b', let out' := out ++ enc (conv <$> chars4 s) in
    case_str_loop (mb_wc_no_range mb4) conv (wc_mb_no_range mb4) fuel (out ++ mid ++ s ++ 0 :: tl) (Z.of_nat (length (out ++ mid))) (Z.of_nat (length out)) =
      Some (Z.of_nat (length out'), b') /\ length b' = length (out ++ mid ++ s ++ 0 :: tl) /\ take (length out' + 1) b' = out' ++ [0].
Proof.
  induction fuel as [| fuel IH]; intros out mid s tl Hsh Hs H0 Hf; [lia |]. cbn [case_str_loop].
  assert (HY : mid ++ s ++ 0 :: tl <> []) by (by destruct mid, s).
  assert (Hload : load (out ++ mid ++ s ++ 0 :: tl) (Z.of_nat (length (out ++ mid))) = (s ++ 0 :: tl) !! 0%nat).
  { rewrite load_nat, app_assoc. rewrite <- (Nat.add_0_r (length _)). by rewrite lookup_app_r, Nat.add_comm, Nat.add_sub by lia. }
  assert (Hdrop : drop (Z.to_nat (Z.of_nat (length (out ++ mid)))) (out ++ mid ++ s ++ 0 :: tl) = s ++ 0 :: tl) by (by rewrite Nat2Z.id, app_assoc, drop_app_length).
  rewrite Hload. destruct (dec_cases (mb_wc := mb_wc_of mb4) s Hs) as [(wc & s' & Hw & -> & Hs' & _) | Hbad].
  - rewrite Hdrop, <- app_assoc.
    assert (Hhd : exists c, (utf8 wc ++ s' ++ 0 :: tl) !! 0%nat = Some c /\ c <> 0).
    { destruct (utf8 wc) as [| c r] eqn:Eu; [by apply utf8_nonempty in Eu |]. exists c. split; [done |]. intros ->. apply H0. by left. }
    destruct Hhd as (c & -> & Hc). cbn [mbind option_bind]. rewrite bool_decide_false by done.
    rewrite no_range_utf8 by done. cbn [mbind option_bind]. pose proof (utf8_pos wc). rewrite (bool_decide_false (_ <= 0)) by lia.
    destruct (Hsh wc Hw) as (Hc0 & Hcnt & Hlen). rewrite wc_mb_no_range_spec by done.
    pose proof (utf8_pos (conv wc)). rewrite (bool_decide_false (_ <= 0)) by lia.
    set (bs := utf8 (conv wc)) in *. rewrite write_append by (rewrite !length_app; lia). cbn [mbind option_bind].
    rewrite (app_assoc mid), (drop_app_le (mid ++ utf8 wc)) by (rewrite length_app; lia).
    destruct (IH (out ++ bs) (drop (length bs) (mid ++ utf8 wc)) s' tl Hsh Hs') as (b' & E & Hb' & Ht); [intros Hin; apply H0, elem_of_app; by right | rewrite length_app in Hf; lia |].
    exists b'. rewrite chars_cons by done. cbn [fmap list_fmap]. rewrite enc_cons. fold bs. cbv zeta in *. rewrite <- !app_assoc in E. rewrite <- !app_assoc in Hb'. rewrite <- !app_assoc in Ht. rewrite <- !app_assoc.
    split_and!; [rewrite <- E; f_equal; rewrite !length_app, ?length_drop, ?length_app; lia | | done].
    rewrite Hb', !length_app, length_drop, length_app. lia.
  - rewrite chars_bad by done. cbn [fmap list_fmap]. change (enc []) with (@nil Z). rewrite app_nil_r.
    destruct (case_str_finish out _ HY) as (b' & Efin & Hfin). exists b'. split; [| exact Hfin]. rewrite <- Efin.
    rewrite Hdrop. destruct s as [| c s]; [done |]. cbn [app lookup list_lookup mbind option_bind]. case_bool_decide; [done |].
    destruct (no_range_stop mb4 (c :: s) tl) as (r & wc & E & Hr); [done | done |]. cbn [app] in E. rewrite E. cbn [mbind option_bind]. by rewrite bool_decide_true by done.
Qed.

End InPlace.

End Utf8Props.
