(* ===== verification/Utf8Main.v ===== *)
(** * Utf8Main: the contract of utf8mb3 and utf8mb4

    Encoding and decoding are inverse, and with the case tables of the general collations the
    comparison, the hash numbers and the changes of case are what they should be. *)
From stdpp Require Import base tactics option list numbers.
From Stdlib Require Import ZArith Lia.
From S2P Require Import Prelude.
From S2P Require Import CtypeBin.
From S2P Require Import Collate.
From S2P Require Import Utf8.
From S2P Require Import Utf8Tables.
From S2P Require Import Utf8Props.

Module Utf8Main.
Import CtypeBin Collate Utf8 Utf8Tables Utf8Props.

(** ** Facts about the tables *)

Definition uni : planes := planes_of my_unicase_default.

(** A check of all entries of the tables. *)
Definition check_plane (f : Z -> MY_UNICASE_INFO -> bool) (page : nat) (o : option (list MY_UNICASE_INFO)) : bool :=
  match o with
  | None => true
  | Some l => (length l =? 256)%nat && forallb (fun '(i, e) => f (256 * Z.of_nat page + Z.of_nat i) e) (zip (seq 0 256) l)
  end.
Definition check_planes (f : Z -> MY_UNICASE_INFO -> bool) (info : list (option (list MY_UNICASE_INFO))) : bool :=
  forallb (fun '(page, o) => check_plane f page o) (zip (seq 0 256) info).

Lemma zip_seq_lookup {A} (l : list A) i x : l !! i = Some x -> (length l <= 256)%nat -> In (i, x) (zip (seq 0 256) l).
Proof.
  intros H Hl. pose proof (lookup_lt_Some _ _ _ H). apply list_elem_of_In, list_elem_of_lookup. exists i. apply lookup_zip_with_Some.
  exists i, x. split_and!; [done | | done]. apply lookup_seq. lia.
Qed.

Lemma check_planes_spec f info c : check_planes f info = true -> (length info <= 256)%nat -> 0 <= c < 0x10000 ->
  match planes_of info (c ≫ 8) with Some p => f c (p (c &&& 0xFF)) = true | None => True end.
Proof.
  intros H Hl Hc. unfold planes_of. rewrite Z.shiftr_div_pow2 by done. change (2 ^ 8) with 256. rewrite land_255.
  destruct (info !! Z.to_nat (c / 256)) as [[p |] |] eqn:Ep; [| done | done]. unfold check_planes in H. rewrite forallb_forall in H.
  specialize (H _ (zip_seq_lookup _ _ _ Ep Hl)). cbn [check_plane] in H. apply andb_prop in H as [Hlen H]. apply Nat.eqb_eq in Hlen.
  destruct (lookup_lt_is_Some_2 p (Z.to_nat (c mod 256))) as [e He]; [rewrite Hlen; Zlia |]. rewrite He. cbn [default]. rewrite forallb_forall in H.
  specialize (H _ (zip_seq_lookup _ _ _ He ltac:(lia))). cbn in H.
  replace (256 * Z.of_nat (Z.to_nat (c / 256)) + Z.of_nat (Z.to_nat (c mod 256))) with c in H by Zlia. done.
Qed.

(** What the theorems need of an entry. *)
Definition entry_ok (c : Z) (e : MY_UNICASE_INFO) : bool :=
  bool_decide (Z.sgn (sort e - 32) = Z.sgn (c - 32)) && bool_decide (0 <= sort e < 0x10000) &&
  (bool_decide (0 <= toupper e < 0x10000) && (length (utf8 (toupper e)) <=? length (utf8 c))%nat) &&
  (bool_decide (0 <= tolower e < 0x10000) && (length (utf8 (tolower e)) <=? length (utf8 c))%nat).

Lemma default_ok : check_planes entry_ok my_unicase_default = true /\ length my_unicase_default = 256%nat.
Proof. split; vm_compute; reflexivity. Qed.

Definition field_ok (c w : Z) : Prop := 0 <= w < 0x10000 /\ (length (utf8 w) <= length (utf8 c))%nat.

Lemma uni_entry c : 0 <= c < 0x10000 ->
  match uni (c ≫ 8) with
  | Some p => let e := p (c &&& 0xFF) in Z.sgn (sort e - 32) = Z.sgn (c - 32) /\ 0 <= sort e < 0x10000 /\ field_ok c (toupper e) /\ field_ok c (tolower e)
  | None => True
  end.
Proof.
  intros Hc. destruct default_ok as [H1 H2]. pose proof (check_planes_spec entry_ok my_unicase_default c H1 ltac:(lia) Hc) as H. unfold uni.
  destruct (planes_of _ _) as [p |]; [| done]. unfold entry_ok in H. rewrite !andb_true_iff, !bool_decide_eq_true, !Nat.leb_le in H. unfold field_ok. tauto.
Qed.

Lemma page_small c : 0 <= c < 0x10000 -> (c ≫ 8) < 256 /\ (c ≫ 8) &&& 0xFF = c ≫ 8.
Proof.
  intros Hc. rewrite Z.shiftr_div_pow2 by done. change (2 ^ 8) with 256. rewrite land_255. split; Zlia.
Qed.

Lemma page_big c : 0x10000 <= c -> ~ (c ≫ 8) < 256.
Proof. intros Hc. rewrite Z.shiftr_div_pow2 by done. change (2 ^ 8) with 256. Zlia. Qed.

Lemma space_order_mb4 : space_order (limit := 0x10FFFF) (my_tosort_unicode uni).
Proof.
  intros c [H0 H1]. unfold my_tosort_unicode. destruct (decide (c < 0x10000)) as [Hlt | Hge].
  - destruct (page_small c) as [Hp _]; [lia |]. rewrite bool_decide_true by done. pose proof (uni_entry c ltac:(lia)) as He. destruct (uni _); [apply He | done].
  - rewrite bool_decide_false by (apply page_big; lia). unfold REPLACEMENT_CHAR. lia.
Qed.

Lemma space_order_mb3 : space_order (limit := 0xFFFF) (plane_case uni sort).
Proof.
  intros c [H0 H1]. unfold plane_case. destruct (page_small c) as [_ ->]; [lia |]. pose proof (uni_entry c ltac:(lia)) as He. destruct (uni _); [apply He | done].
Qed.

(** Only a space weighs as much as a space. *)
Lemma space_order_unique limit tosort : 32 <= limit -> space_order (limit := limit) tosort -> forall c, valid (limit := limit) c -> tosort c = tosort 32 -> c = 32.
Proof.
  intros Hl Hso c Hc E. pose proof (Hso c Hc) as H1. pose proof (Hso 32 ltac:(split; lia)) as H2. rewrite E in H1. lia.
Qed.

Lemma tosort_mb3 c : 0 <= c <= 0xFFFF -> my_tosort_unicode uni c = plane_case uni sort c.
Proof.
  intros Hc. unfold my_tosort_unicode, plane_case. destruct (page_small c) as [Hp ->]; [lia |]. by rewrite bool_decide_true by done.
Qed.

Lemma padded_same f g n l : Forall (fun c => f c = g c) l -> padded f n l = padded g n l.
Proof.
  intros H. unfold padded. f_equal. induction H as [| c l Hc _ IH]; [done |]. cbn [fmap list_fmap]. by rewrite Hc, IH.
Qed.

Lemma padded_range mb4 n l : Forall (fun c => 0 <= c <= limit_of mb4) l -> Forall (fun w => 0 <= w < 0x10000) (padded (my_tosort_unicode uni) n l).
Proof.
  intros H. apply Forall_app. split; [| by apply Forall_replicate]. apply Forall_fmap. eapply Forall_impl; [| exact H].
  intros c [H0 H1]. unfold compose, my_tosort_unicode. destruct (decide (c < 0x10000)) as [Hlt | Hge].
  - destruct (page_small c) as [Hp _]; [lia |]. rewrite bool_decide_true by done. pose proof (uni_entry c ltac:(lia)) as He. destruct (uni _); [apply He | lia].
  - rewrite bool_decide_false by (apply page_big; lia). done.
Qed.

Lemma count_small mb4 w : 0 <= w < 0x10000 -> is_Some (wc_count mb4 w).
Proof. intros H. unfold wc_count. repeat case_bool_decide; eauto; lia. Qed.

Lemma field_shrinks (field : MY_UNICASE_INFO -> Z) c mb4 p : field_ok c (field (p (c &&& 0xFF))) ->
  0 <= field (p (c &&& 0xFF)) /\ is_Some (wc_count mb4 (field (p (c &&& 0xFF)))) /\ (length (utf8 (field (p (c &&& 0xFF)))) <= length (utf8 c))%nat.
Proof. intros [H1 H2]. split_and!; [lia | by apply count_small | done]. Qed.

Lemma keep_shrinks mb4 c : 0 <= c <= limit_of mb4 -> 0 <= c /\ is_Some (wc_count mb4 c) /\ (length (utf8 c) <= length (utf8 c))%nat.
Proof.
  intros H. split_and!; [lia | | done]. unfold wc_count. destruct mb4; cbn [limit_of andb] in *; repeat case_bool_decide; eauto; lia.
Qed.

Lemma shrinks_mb4 : shrinks true (my_toupper_utf8mb4 uni) /\ shrinks true (my_tolower_utf8mb4 uni).
Proof.
  split; intros c Hc; unfold my_toupper_utf8mb4, my_tolower_utf8mb4; (destruct (decide (c < 0x10000)) as [Hlt | Hge];
    [| rewrite bool_decide_false by (apply page_big; lia); by apply (keep_shrinks true)]);
    (destruct (page_small c) as [Hp _]; [lia |]); rewrite bool_decide_true by done; pose proof (uni_entry c ltac:(lia)) as He;
    (destruct (uni _) as [p |]; [| by apply (keep_shrinks true)]); apply field_shrinks; apply He.
Qed.

Lemma shrinks_mb3 : shrinks false (plane_case uni toupper) /\ shrinks false (plane_case uni tolower).
Proof.
  split; intros c Hc; unfold plane_case; cbn [limit_of] in Hc; (destruct (page_small c) as [_ ->]; [lia |]); pose proof (uni_entry c ltac:(lia)) as He;
    (destruct (uni _) as [p |]; [| by apply (keep_shrinks false)]); apply field_shrinks; apply He.
Qed.

Lemma shrinks_encodes mb4 conv : shrinks mb4 conv -> encodes (limit := limit_of mb4) mb4 conv.
Proof. intros H c Hc. destruct (H c Hc) as (H1 & H2 & _). done. Qed.

(** ** Comparison of terminated strings *)

Lemma strcmp_same t : forall tl1 tl2, strcmp (t ++ 0 :: tl1) (t ++ 0 :: tl2) = Some 0.
Proof.
  induction t as [| x t IH]; intros tl1 tl2; [done |]. cbn [app strcmp]. rewrite (bool_decide_false (x <> x)) by tauto. case_bool_decide; [done | apply IH].
Qed.

Section Casecmp.
Context (mb4 : bool) (p00 : Z -> MY_UNICASE_INFO) (conv : Z -> Z).
Abbreviation casecmp := (strcasecmp_loop (mb_wc_no_range mb4) p00 conv).

(** The weight of a character. *)
Definition low (c : Z) : Z := if bool_decide (c < 128) then tolower (p00 c) else conv c.

Lemma head_char c rest : 0 < c <= limit_of mb4 -> exists x, load (utf8 c ++ rest) 0 = Some x /\ x <> 0 /\ (x < 128 <-> c < 128) /\ (c < 128 -> x = c /\ utf8 c = [c]).
Proof.
  intros Hc. destruct (utf8_head c) as (x & r & E & H80 & _ & Hasc); [lia |]. exists x. rewrite E. split_and!; [done | | done |].
  - intros ->. destruct (decide (c < 0x80)) as [H | H]; [destruct (Hasc H); lia | lia].
  - intros H. destruct (Hasc H) as [-> ->]. done.
Qed.

Lemma next_weight_utf8 c rest : 0 < c <= limit_of mb4 -> next_weight (mb_wc_no_range mb4) p00 conv (utf8 c ++ rest) = Some (Some (low c, rest)).
Proof.
  intros Hc. destruct (head_char c rest Hc) as (x & Hx & _ & H128 & Hasc). unfold next_weight, low. rewrite Hx. cbn [mbind option_bind].
  destruct (decide (c < 128)) as [H | H].
  - destruct (Hasc H) as [-> ->]. by rewrite bool_decide_true by done.
  - rewrite !bool_decide_false by lia. rewrite no_range_utf8 by lia. cbn [mbind option_bind]. pose proof (utf8_pos c). rewrite bool_decide_false by lia.
    by rewrite Nat2Z.id, drop_app_length.
Qed.

Lemma casecmp_enc fuel : forall ws wt tl1 tl2,
  Forall (fun c => 0 < c <= limit_of mb4) ws -> Forall (fun c => 0 < c <= limit_of mb4) wt -> (length ws < fuel)%nat ->
  exists r, casecmp fuel (enc ws ++ 0 :: tl1) (enc wt ++ 0 :: tl2) = Some r /\ (r = 0 <-> low <$> ws = low <$> wt).
Proof.
  induction fuel as [| fuel IH]; intros ws wt tl1 tl2 Hs Ht Hf; [lia |]. cbn [strcasecmp_loop].
  destruct Hs as [| a ws Ha Hs].
  { cbn [enc fmap list_fmap concat app]. rewrite load_0. cbn [mbind option_bind]. destruct Ht as [| b wt Hb Ht].
    - exists 0. by split.
    - rewrite enc_cons, <- app_assoc. destruct (head_char b (enc wt ++ 0 :: tl2) Hb) as (y & -> & Hy & _). cbn [mbind option_bind].
      rewrite bool_decide_true by done. cbn [orb]. eexists. split; [done |]. split; [lia | done]. }
  rewrite enc_cons, <- app_assoc. destruct (head_char a (enc ws ++ 0 :: tl1) Ha) as (x & Ex & Hx & _). rewrite Ex. cbn [mbind option_bind].
  destruct Ht as [| b wt Hb Ht].
  { cbn [enc fmap list_fmap concat app]. rewrite load_0. cbn [mbind option_bind]. rewrite orb_true_r. eexists. split; [done |]. split; [lia | done]. }
  rewrite enc_cons, <- app_assoc. destruct (head_char b (enc wt ++ 0 :: tl2) Hb) as (y & Ey & Hy & _). rewrite Ey. cbn [mbind option_bind].
  rewrite !(bool_decide_false (_ = 0)) by done. cbn [orb]. rewrite !next_weight_utf8 by done. cbn [mbind option_bind fmap list_fmap].
  case_bool_decide as Hab; [eexists; split; [done |]; split; [lia | by intros [= ? _]] |].
  cbn [length] in Hf. destruct (IH ws wt tl1 tl2 Hs Ht ltac:(lia)) as (r & E & Hr). exists r. split; [exact E |]. rewrite Hr.
  assert (Heq : low a = low b) by (destruct (decide (low a = low b)); tauto). rewrite Heq. split; [by intros -> | by intros [= ->]].
Qed.

(** A wrong sequence in the second string is compared with the first string behind its character. *)
Lemma casecmp_misaligned fuel c b t tl1 tl2 :
  0x80 <= c <= limit_of mb4 -> 128 <= b -> (mb_wc_of mb4 (b :: t)).1 <= 0 ->
  casecmp (S fuel) (utf8 c ++ (b :: t) ++ 0 :: tl1) ((b :: t) ++ 0 :: tl2) = Some 0.
Proof.
  intros Hc Hb Hbad. cbn [strcasecmp_loop]. destruct (head_char c ((b :: t) ++ 0 :: tl1)) as (x & Ex & Hx & _); [lia |]. rewrite Ex. cbn [app mbind option_bind]. rewrite load_0.
  cbn [mbind option_bind]. rewrite !(bool_decide_false (_ = 0)) by (done || lia). cbn [orb].
  change (b :: t ++ 0 :: tl1) with ((b :: t) ++ 0 :: tl1). rewrite next_weight_utf8 by lia. cbn [mbind option_bind].
  destruct (no_range_stop mb4 (b :: t) tl2) as (r & wc & E & Hr); [done | done |].
  assert (Hn : next_weight (mb_wc_no_range mb4) p00 conv (b :: t ++ 0 :: tl2) = Some None).
  { unfold next_weight. rewrite load_0. cbn [mbind option_bind]. rewrite (bool_decide_false (b < 128)) by lia. cbn [app] in E. rewrite E. cbn [mbind option_bind]. by rewrite bool_decide_true by done. }
  rewrite Hn. cbn [mbind option_bind]. apply (strcmp_same (b :: t)).
Qed.

End Casecmp.

(** ** The contract *)

(** C29 For every character of utf8mb4 (up to U+10FFFF) and of utf8mb3 (up to U+FFFF), decoding reads back what encoding
    wrote, whatever follows; and a sequence that decodes is the only one of its character: encoding the
    character gives it back, so overlong forms are refused.  The encoder of utf8mb4 also takes the numbers from
    U+110000 to U+1FFFFF, which the decoder refuses. *)
Theorem utf8_roundtrip mb4 wc room rest s :
  0 <= wc <= limit_of mb4 -> 4 <= room -> Forall byte s ->
  (exists n bs, wc_mb mb4 wc room = (n, bs) /\ 0 < n <= 4 /\ n = Z.of_nat (length bs) /\ mb_wc_of mb4 (bs ++ rest) = (n, wc)) /\
  (forall n c, mb_wc_of mb4 s = (n, c) -> 0 < n -> 0 <= c <= limit_of mb4 /\ wc_mb mb4 c room = (n, take (Z.to_nat n) s)) /\
  (forall c, 0x110000 <= c < 0x200000 -> exists bs, my_wc_mb_utf8mb4 c room = (4, bs) /\ (my_mb_wc_utf8mb4 bs).1 <= 0).
Proof.
  intros Hw Hroom Hs.
  assert (Henc : forall c, 0 <= c <= limit_of mb4 -> wc_mb mb4 c room = (Z.of_nat (length (utf8 c)), utf8 c) /\ Z.of_nat (length (utf8 c)) <= 4).
  { intros c Hc. assert (Hl : Z.of_nat (length (utf8 c)) <= 4) by (unfold utf8; repeat case_bool_decide; cbn; lia). split; [| done].
    destruct (keep_shrinks mb4 c Hc) as (H0 & Hcnt & _). pose proof (wc_mb_spec mb4 c room H0 Hcnt) as Hm. rewrite bool_decide_true in Hm by lia. done. }
  split_and!.
  - destruct (Henc wc Hw) as [E Hl]. exists (Z.of_nat (length (utf8 wc))), (utf8 wc). pose proof (utf8_pos wc). split_and!; [done | lia | lia | done |]. by apply dec_enc.
  - intros n c E Hn. destruct (dec_sound s n c Hs E) as (Hc & r & -> & ->); [lia |]. destruct (Henc c Hc) as [-> _]. rewrite Nat2Z.id, take_app_length. done.
  - intros c Hc. exists (utf8 c). pose proof (wc_mb_spec true c room ltac:(lia)) as Hm.
    assert (Hl : Z.of_nat (length (utf8 c)) = 4) by (unfold utf8; by bdec). rewrite Hl in Hm. rewrite bool_decide_true in Hm by lia.
    split; [apply Hm; unfold wc_count; bdec; cbn; eauto |].
    destruct (decide ((my_mb_wc_utf8mb4 (utf8 c)).1 <= 0)) as [Hd | Hd]; [done | exfalso].
    destruct (my_mb_wc_utf8mb4 (utf8 c)) as [n x] eqn:E. cbn [fst] in Hd.
    assert (Hb : Forall byte (utf8 c)) by (unfold utf8; bdec; repeat constructor; Zlia).
    destruct (dec_sound (Decoder := utf8mb4_decoder) _ _ _ Hb E) as (Hx & r & Er & ->); [lia |].
    unfold utf8 in Er. rewrite !(bool_decide_false (c < _)) in Er by lia. repeat case_bool_decide; injection Er as E1; Zlia.
Qed.

Lemma utf8_roundtrip_witness :
  (exists n bs, wc_mb true 0x20AC 6 = (n, bs) /\ 0 < n <= 4 /\ n = Z.of_nat (length bs) /\ mb_wc_of true (bs ++ [7]) = (n, 0x20AC)) /\
  (forall n c, mb_wc_of true [0xF0; 0x9F; 0x98; 0x80; 65] = (n, c) -> 0 < n -> 0 <= c <= 0x10FFFF /\ wc_mb true c 6 = (n, take (Z.to_nat n) [0xF0; 0x9F; 0x98; 0x80; 65])).
Proof.
  destruct (utf8_roundtrip true 0x20AC 6 [7] [0xF0; 0x9F; 0x98; 0x80; 65]) as (H1 & H2 & _).
  - cbn. lia.
  - lia.
  - repeat constructor; lia.
  - split; [exact H1 | exact H2].
Defined.

(** C30 With the tables of the general collations, [my_strnncollsp_utf8mb4] and [my_strnncollsp_utf8mb3] compare two strings of
    characters by their weights, the shorter one padded with spaces, although the end of the longer string is compared
    byte by byte; and [memcmp] of the sort keys of [my_strnxfrm_unicode] gives the same order. *)
Theorem utf8_collation_order mb4 n ws wt :
  (length ws <= n)%nat -> (length wt <= n)%nat -> Forall (fun c => 0 <= c <= limit_of mb4) ws -> Forall (fun c => 0 <= c <= limit_of mb4) wt ->
  let collsp := if mb4 then my_strnncollsp_utf8mb4 uni else my_strnncollsp_utf8mb3 uni in
  let key s := my_strnxfrm_unicode (mb_wc_of mb4) (my_tosort_unicode uni) (2 * Z.of_nat n) (Z.of_nat n) s MY_STRXFRM_PAD_WITH_SPACE in
  let w := my_tosort_unicode uni in
  Z.sgn (collsp (enc ws) (enc wt)) = Z.sgn (memcmp (padded w n ws) (padded w n wt)) /\
  exists ka kb, key (enc ws) = Some ka /\ key (enc wt) = Some kb /\ Z.sgn (memcmp ka kb) = Z.sgn (collsp (enc ws) (enc wt)).
Proof.
  intros Hs Ht Hws Hwt collsp key w.
  assert (Hc : Z.sgn (collsp (enc ws) (enc wt)) = Z.sgn (memcmp (padded w n ws) (padded w n wt))).
  { rewrite <- collsp_memcmp by done. subst collsp. destruct mb4.
    - unfold my_strnncollsp_utf8mb4. by rewrite strnncollsp_end, (collsp_enc (HD := utf8mb4_decoder)) by (done || lia || exact space_order_mb4).
    - unfold my_strnncollsp_utf8mb3. rewrite strnncollsp_end, (collsp_enc (HD := utf8mb3_decoder)) by (done || lia || exact space_order_mb3).
      rewrite !(collsp_memcmp _ _ _ n) by done. by rewrite !(padded_same w (plane_case uni sort)) by (eapply Forall_impl; [apply tosort_mb3 | done]). }
  split; [done |]. exists (concat (be16 <$> padded w n ws)), (concat (be16 <$> padded w n wt)).
  split_and!; [by apply (strnxfrm_enc (HD := mb_wc_of_decoder mb4)) | by apply (strnxfrm_enc (HD := mb_wc_of_decoder mb4)) |].
  rewrite Hc. apply keys_order; [exact (padded_range mb4 n ws Hws) | exact (padded_range mb4 n wt Hwt) |]. unfold padded. rewrite !length_app, !length_fmap, !length_replicate. lia.
Qed.

Lemma utf8_collation_order_witness :
  let key s := my_strnxfrm_unicode my_mb_wc_utf8mb4 (my_tosort_unicode uni) 6 3 s MY_STRXFRM_PAD_WITH_SPACE in
  exists ka kb, key (enc [0xE9; 98]) = Some ka /\ key (enc [69; 66; 32]) = Some kb /\
    Z.sgn (memcmp ka kb) = Z.sgn (my_strnncollsp_utf8mb4 uni (enc [0xE9; 98]) (enc [69; 66; 32])).
Proof.
  refine (proj2 (utf8_collation_order true 3 [0xE9; 98] [69; 66; 32] _ _ _ _)).
  - cbn; lia.
  - cbn; lia.
  - repeat constructor; cbn; lia.
  - repeat constructor; cbn; lia.
Defined.

(** C31 Any two byte strings, well formed or not, that [my_strnncollsp_utf8mb4] or [my_strnncollsp_utf8mb3] finds equal have the same hash
    numbers, so that a hash table may use the collation. *)
Theorem utf8_hash_consistent s t n1 n2 :
  Forall byte s -> Forall byte t ->
  (my_strnncollsp_utf8mb4 uni s t = 0 -> my_hash_sort_utf8mb4 uni s n1 n2 = my_hash_sort_utf8mb4 uni t n1 n2) /\
  (my_strnncollsp_utf8mb3 uni s t = 0 -> my_hash_sort_utf8mb3 uni s n1 n2 = my_hash_sort_utf8mb3 uni t n1 n2).
Proof.
  intros Hs Ht. split; intros H.
  - refine (hash_equal (HD := utf8mb4_decoder) (my_tosort_unicode uni) _ (fun n w => let n := my_hash_add n (w &&& 0xFF) in
      let n := my_hash_add n ((w ≫ 8) &&& 0xFF) in if bool_decide (w > 0xFFFF) then my_hash_add n ((w ≫ 16) &&& 0xFF) else n) s t (n1, n2) _ _ Hs Ht H); [done |].
    by apply space_order_unique; [| apply space_order_mb4].
  - refine (hash_equal (HD := utf8mb3_decoder) (plane_case uni sort) _ (fun n w => hash_byte (hash_byte n (w &&& 0xFF)) (w ≫ 8)) s t (n1, n2) _ _ Hs Ht H); [done |].
    by apply space_order_unique; [| apply space_order_mb3].
Qed.

Lemma utf8_hash_consistent_witness :
  my_hash_sort_utf8mb4 uni (enc [0xE9; 98]) 1 4 = my_hash_sort_utf8mb4 uni (enc [69; 66; 32]) 1 4.
Proof.
  refine (proj1 (utf8_hash_consistent (enc [0xE9; 98]) (enc [69; 66; 32]) 1 4 _ _) _).
  - change (enc [0xE9; 98]) with [0xC3; 0xA9; 98]. repeat constructor; lia.
  - change (enc [69; 66; 32]) with [69; 66; 32]. repeat constructor; lia.
  - vm_compute. reflexivity.
Defined.



(** C32 The changes of case write the changed characters up to the first one that does not decode or does not fit; on a
    0-terminated string they work in place, since with these tables no character gets longer, and end with a 0. *)
Theorem utf8_case_changes src room s tl :
  Forall byte src -> Forall byte s -> 0 ∉ s ->
  let change conv chars f str :=
    f src room = fit room (conv <$> chars src) /\
    exists b, let out := enc (conv <$> chars s) in
      str (s ++ 0 :: tl) = Some (Z.of_nat (length out), b) /\ length b = length (s ++ 0 :: tl) /\ take (length out + 1) b = out ++ [0] in
  let chars4 := chars (mb_wc := my_mb_wc_utf8mb4) in
  let chars3 := chars (mb_wc := my_mb_wc_utf8mb3) in
  change (my_toupper_utf8mb4 uni) chars4 (my_caseup_utf8mb4 uni) (my_caseup_str_utf8mb4 uni) /\
  change (my_tolower_utf8mb4 uni) chars4 (my_casedn_utf8mb4 uni) (my_casedn_str_utf8mb4 uni) /\
  change (plane_case uni toupper) chars3 (my_caseup_utf8mb3 uni) (my_caseup_str_utf8mb3 uni) /\
  change (plane_case uni tolower) chars3 (my_casedn_utf8mb3 uni) (my_casedn_str_utf8mb3 uni).
Proof.
  intros Hsrc Hs H0 change chars4 chars3.
  assert (Hstr : forall mb4 conv, shrinks mb4 conv -> exists b, let out := enc (conv <$> chars (mb_wc := mb_wc_of mb4) s) in
    case_str_loop (mb_wc_no_range mb4) conv (wc_mb_no_range mb4) (S (length (s ++ 0 :: tl))) (s ++ 0 :: tl) 0 0 = Some (Z.of_nat (length out), b) /\
    length b = length (s ++ 0 :: tl) /\ take (length out + 1) b = out ++ [0]).
  { intros mb4 conv Hsh. apply (case_str_loop_spec mb4 conv _ [] [] s tl Hsh Hs H0). rewrite length_app. lia. }
  destruct shrinks_mb4 as [U4 L4], shrinks_mb3 as [U3 L3].
  split_and!; (split; [eapply case_loop_spec; [first [eapply (shrinks_encodes true); eassumption | eapply (shrinks_encodes false); eassumption] | done | lia] |]).
  - exact (Hstr true _ U4).
  - exact (Hstr true _ L4).
  - exact (Hstr false _ U3).
  - exact (Hstr false _ L3).
Qed.

Lemma utf8_case_changes_witness :
  my_caseup_utf8mb4 uni [97; 0xC3; 0xA9; 98] 3 = fit 3 (my_toupper_utf8mb4 uni <$> chars (mb_wc := my_mb_wc_utf8mb4) [97; 0xC3; 0xA9; 98]) /\
  fit 3 (my_toupper_utf8mb4 uni <$> chars (mb_wc := my_mb_wc_utf8mb4) [97; 0xC3; 0xA9; 98]) = [65; 0xC3; 0x89].
Proof.
  split; [| vm_compute; reflexivity].
  refine (proj1 (proj1 (utf8_case_changes [97; 0xC3; 0xA9; 98] 3 [97] [] _ _ _))).
  - repeat constructor; lia.
  - repeat constructor; lia.
  - intros H. apply list_elem_of_singleton in H. lia.
Defined.

(** On strings of characters, [my_strcasecmp_utf8mb4] and [my_strcasecmp_utf8mb3] return 0 exactly when the lower case characters are
    the same.  On others they may return 0 for strings that differ: when the second string has a wrong
    sequence it is compared with the first string behind the character already read, so a string
    equals the same string with a character in front of it. *)
Theorem utf8_strcasecmp mb4 ws wt tl1 tl2 c b t :
  Forall (fun c => 0 < c <= limit_of mb4) ws -> Forall (fun c => 0 < c <= limit_of mb4) wt ->
  0x80 <= c <= limit_of mb4 -> 128 <= b -> (mb_wc_of mb4 (b :: t)).1 <= 0 ->
  let p00 i := default (mk_unicase 0 0 0) (plane00 !! Z.to_nat i) in
  let conv := if mb4 then my_tolower_utf8mb4 uni else plane_case uni tolower in
  let strcasecmp := if mb4 then my_strcasecmp_utf8mb4 uni p00 else my_strcasecmp_utf8mb3 uni p00 in
  (exists r, strcasecmp (enc ws ++ 0 :: tl1) (enc wt ++ 0 :: tl2) = Some r /\ (r = 0 <-> low p00 conv <$> ws = low p00 conv <$> wt)) /\
  strcasecmp (utf8 c ++ (b :: t) ++ 0 :: tl1) ((b :: t) ++ 0 :: tl2) = Some 0.
Proof.
  intros Hs Ht Hc Hb Hbad p00 conv strcasecmp.
  assert (E : forall s1 s2, strcasecmp s1 s2 = strcasecmp_loop (mb_wc_no_range mb4) p00 conv (S (length s1)) s1 s2) by (subst strcasecmp conv; by destruct mb4).
  rewrite !E. split; [| by apply casecmp_misaligned]. apply casecmp_enc; [done | done |].
  assert (Hl : forall l, (length l <= length (enc l))%nat).
  { induction l as [| x l IH]; [done |]. rewrite enc_cons, length_app. pose proof (utf8_pos x). cbn [length]. lia. }
  rewrite length_app. specialize (Hl ws). lia.
Qed.

Lemma utf8_strcasecmp_witness :
  let p00 i := default (mk_unicase 0 0 0) (plane00 !! Z.to_nat i) in
  (exists r, my_strcasecmp_utf8mb4 uni p00 (enc [0xC9; 98] ++ [0]) (enc [0xE9; 66] ++ [0]) = Some r /\
    (r = 0 <-> low p00 (my_tolower_utf8mb4 uni) <$> [0xC9; 98] = low p00 (my_tolower_utf8mb4 uni) <$> [0xE9; 66])) /\
  my_strcasecmp_utf8mb4 uni p00 (utf8 0xE9 ++ [0xFF] ++ [0]) ([0xFF] ++ [0]) = Some 0.
Proof.
  refine (utf8_strcasecmp true [0xC9; 98] [0xE9; 66] [] [] 0xE9 0xFF [] _ _ _ _ _).
  - repeat constructor; cbn; lia.
  - repeat constructor; cbn; lia.
  - cbn; lia.
  - lia.
  - vm_compute. discriminate.
Defined.

End Utf8Main.
