(* ===== verification/ThrLock.v ===== *)
(** * ThrLock: table locks

    [mysys/thr_lock.c] and [include/thr_lock.h].  A lock has four queues of lock
    instances (waiting and running readers and writers), linked through
    [next] and through [prev], which points at the link that points at the
    instance.  Every operation runs under the mutex of the lock, except where it
    sleeps on a condition variable; a step of the model is what runs between two
    such points.

    An operation is a program ([prog]) over the primitives [op] on the lock.
    [run_op] gives the primitives their meaning on the linked structure of the C
    code, where following a null pointer is [None]; file [ThrSpec] gives them a
    second one on plain lists.

    Arguments of the operations that stand for code and data outside of this
    file: [chk], what the storage engine's [check_status] answers; [env], the
    server's settings and the [THR_LOCK_INFO] structures; [me], the condition
    variable of the calling thread. *)
From stdpp Require Import base tactics option list numbers gmap functions.
From Stdlib Require Import ZArith Lia.
From S2P Require Import Prelude.

Module ThrLock.

(** ** Data *)

Inductive thr_lock_type :=
  | TL_IGNORE | TL_UNLOCK | TL_READ_DEFAULT | TL_READ | TL_READ_WITH_SHARED_LOCKS
  | TL_READ_HIGH_PRIORITY | TL_READ_NO_INSERT | TL_WRITE_ALLOW_WRITE
  | TL_WRITE_ALLOW_READ | TL_WRITE_CONCURRENT_INSERT | TL_WRITE_DELAYED
  | TL_WRITE_DEFAULT | TL_WRITE_LOW_PRIORITY | TL_WRITE | TL_WRITE_ONLY.

(** The numbers of the enumeration, which the code compares. *)
Definition tl_int (t : thr_lock_type) : Z :=
  match t with
  | TL_IGNORE => -1 | TL_UNLOCK => 0 | TL_READ_DEFAULT => 1 | TL_READ => 2
  | TL_READ_WITH_SHARED_LOCKS => 3 | TL_READ_HIGH_PRIORITY => 4
  | TL_READ_NO_INSERT => 5 | TL_WRITE_ALLOW_WRITE => 6 | TL_WRITE_ALLOW_READ => 7
  | TL_WRITE_CONCURRENT_INSERT => 8 | TL_WRITE_DELAYED => 9 | TL_WRITE_DEFAULT => 10
  | TL_WRITE_LOW_PRIORITY => 11 | TL_WRITE => 12 | TL_WRITE_ONLY => 13
  end.

Inductive enum_thr_lock_result :=
  THR_LOCK_SUCCESS | THR_LOCK_ABORTED | THR_LOCK_WAIT_TIMEOUT | THR_LOCK_DEADLOCK.

#[export] Instance thr_lock_type_eq : EqDecision thr_lock_type.
Proof. solve_decision. Defined.
#[export] Instance enum_thr_lock_result_eq : EqDecision enum_thr_lock_result.
Proof. solve_decision. Defined.

(** The four queues of a lock. *)
Inductive queue := read_wait | read | write_wait | write.

#[export] Instance queue_eq : EqDecision queue.
Proof. solve_decision. Defined.

(** A place that holds a pointer to a lock instance: the [data] of a queue or
    the [next] of an instance. *)
Inductive link := Head_of (q : queue) | Next_of (d : Z).

#[export] Instance link_eq : EqDecision link.
Proof. solve_decision. Defined.

(** [THR_LOCK_DATA] without its links: the owner's address, the condition
    variable the instance waits on and the parameter of the status functions. *)
Record lock_info := mk_info { owner : Z; cond : option Z; type : thr_lock_type; status_param : Z }.

Record THR_LOCK_DATA := mk_data { next : option Z; prev : option link; info : lock_info }.

Record st_lock_list := mk_list { data : option Z; last : link }.

(** What the calls of the lock do outside of it: [pthread_cond_signal] and the
    status functions of the storage engine. *)
Inductive event :=
  | Signalled (c : Z)
  | Got_status (param : Z) (concurrent_insert : bool)
  | Updated_status (param : Z).

(** The fields of [THR_LOCK] that are not queues, with the statistics.  The
    pointers to status functions are represented by whether they are set. *)
Record lock_rest := mk_rest {
  write_lock_count : Z;
  read_no_write_count : Z;
  get_status : bool;
  update_status : bool;
  check_status : bool;
  allow_multiple_concurrent_insert : bool;
  locks_immediate : Z;
  locks_waited : Z;
  trace : list event }.

Record THR_LOCK := mk_lock {
  lists : queue -> st_lock_list;
  datas : gmap Z THR_LOCK_DATA;
  rest : lock_rest }.

(** [thr_lock_owner] and [thr_lock_info]: an owner's address gives the address
    of its [THR_LOCK_INFO]; that gives its thread and number of cursors. *)
Record env := mk_env {
  owner_info : Z -> Z;
  thread_id : Z -> Z;
  n_cursors : Z -> Z;
  max_write_lock_count : Z;
  thr_upgraded_concurrent_insert_lock : thr_lock_type }.

(** ** Primitives *)

Inductive op : Type -> Type :=
  | Head (q : queue) : op (option Z)
  | Get (d : Z) : op lock_info
  | Init (d : Z) (o : Z) (t : thr_lock_type) : op unit
  | Set_type (d : Z) (t : thr_lock_type) : op unit
  | Set_cond (d : Z) (c : option Z) : op unit
  | Enqueue (q : queue) (d : Z) : op unit
  | Unlink (q : queue) (d : Z) : op unit
  | Push (q : queue) (d : Z) : op unit
  | Start_write (d : Z) : op unit
  | Have (q : queue) (f : lock_info -> bool) : op bool
  | Free_reads (using_concurrent_insert : bool) : op unit
  | Abort_all : op unit
  | Abort_some (q : queue) (f : lock_info -> bool) : op bool
  | Get_rest : op lock_rest
  | Set_rest (r : lock_rest) : op unit
  | Signal (c : option Z) : op unit
  | Check_status (param : Z) : op bool.

Inductive prog (A : Type) : Type :=
  | Ret (a : A)
  | Do (X : Type) (o : op X) (k : X -> prog A).
Arguments Ret {A} a.
Arguments Do {A X} o k.

#[export] Instance prog_ret : MRet prog := fun A => Ret.
#[export] Instance prog_bind : MBind prog :=
  fun A B k => fix bind p :=
    match p with Ret a => k a | Do o k' => Do o (fun x => bind (k' x)) end.

Definition do {X} (o : op X) : prog X := Do o Ret.

(** *** On the linked structure *)

Definition M (A : Type) : Type := THR_LOCK -> option (A * THR_LOCK).
#[export] Instance M_bind : MBind M := fun A B k m s => '(a, s) ← m s; k a s.

(** Following a null pointer, or not getting to the end of a queue. *)
Definition fail {A} : M A := fun _ => None.
Definition ret {A} (a : A) : M A := fun s => Some (a, s).

Implicit Types (s : THR_LOCK) (d o : Z) (q : queue) (l : link).

(** [data->field], which is [None] for a pointer that is not an instance. *)
Definition get_data d : M THR_LOCK_DATA := fun s => x ← datas s !! d; Some (x, s).
Definition put_data d (x : THR_LOCK_DATA) : M unit :=
  fun s => Some (tt, mk_lock (lists s) (<[d := x]> (datas s)) (rest s)).
Definition put_list q (x : st_lock_list) : M unit :=
  fun s => Some (tt, mk_lock (<[q := x]> (lists s)) (datas s) (rest s)).

Definition set_next d (v : option Z) : M unit :=
  x ← get_data d; put_data d (mk_data v (prev x) (info x)).
Definition set_prev d l : M unit :=
  x ← get_data d; put_data d (mk_data (next x) (Some l) (info x)).
Definition set_info d (i : lock_info) : M unit :=
  x ← get_data d; put_data d (mk_data (next x) (prev x) i).
Definition set_type d (t : thr_lock_type) : M unit :=
  x ← get_data d; set_info d (mk_info (owner (info x)) (cond (info x)) t (status_param (info x))).
Definition set_cond d (c : option Z) : M unit :=
  x ← get_data d; set_info d (mk_info (owner (info x)) c (type (info x)) (status_param (info x))).

Definition get_list q : M st_lock_list := fun s => Some (lists s q, s).
Definition set_head q (v : option Z) : M unit :=
  x ← get_list q; put_list q (mk_list v (last x)).
Definition set_last q l : M unit :=
  x ← get_list q; put_list q (mk_list (data x) l).

(** [*l = v] *)
Definition set_link l (v : option Z) : M unit :=
  match l with Head_of q => set_head q v | Next_of d => set_next d v end.

Definition get_prev d : M link :=
  x ← get_data d;
  match prev x with Some l => ret l | None => fail end.

Definition get_rest : M lock_rest := fun s => Some (rest s, s).
Definition set_rest (r : lock_rest) : M unit :=
  fun s => Some (tt, mk_lock (lists s) (datas s) r).

Definition emit (e : event) (r : lock_rest) : lock_rest :=
  mk_rest (write_lock_count r) (read_no_write_count r) (get_status r) (update_status r)
    (check_status r) (allow_multiple_concurrent_insert r) (locks_immediate r)
    (locks_waited r) (trace r ++ [e]).
Definition set_write_lock_count (v : Z) (r : lock_rest) : lock_rest :=
  mk_rest v (read_no_write_count r) (get_status r) (update_status r)
    (check_status r) (allow_multiple_concurrent_insert r) (locks_immediate r)
    (locks_waited r) (trace r).
Definition set_read_no_write_count (v : Z) (r : lock_rest) : lock_rest :=
  mk_rest (write_lock_count r) v (get_status r) (update_status r)
    (check_status r) (allow_multiple_concurrent_insert r) (locks_immediate r)
    (locks_waited r) (trace r).
Definition count_immediate (r : lock_rest) : lock_rest :=
  mk_rest (write_lock_count r) (read_no_write_count r) (get_status r) (update_status r)
    (check_status r) (allow_multiple_concurrent_insert r) (u32 (locks_immediate r + 1))
    (locks_waited r) (trace r).
Definition count_waited (r : lock_rest) : lock_rest :=
  mk_rest (write_lock_count r) (read_no_write_count r) (get_status r) (update_status r)
    (check_status r) (allow_multiple_concurrent_insert r) (locks_immediate r)
    (u32 (locks_waited r + 1)) (trace r).

Definition signal (c : option Z) : M unit :=
  match c with
  | Some c => r ← get_rest; set_rest (emit (Signalled c) r)
  | None => fail
  end.

(** [( *list->last)=data; data->prev= list->last; list->last= &data->next] *)
Definition enqueue q d : M unit :=
  x ← get_list q; set_link (last x) (Some d);;
  x ← get_list q; set_prev d (last x);;
  set_last q (Next_of d).

(** [if ((( *data->prev)=data->next)) data->next->prev= data->prev; else list->last=data->prev] *)
Definition unlink q d : M unit :=
  x ← get_data d; p ← get_prev d; set_link p (next x);;
  x ← get_data d; p ← get_prev d;
  match next x with
  | Some n => set_prev n p
  | None => set_last q p
  end.

(** Put in front of a queue. *)
Definition push q d : M unit :=
  h ← get_list q; set_next d (data h);;
  match data h with
  | Some n => set_prev n (Next_of d)
  | None => set_last q (Next_of d)
  end;;
  set_prev d (Head_of q);;
  set_head q (Some d).

(** From the queue of waiting writers to the running ones. *)
Definition start_write d : M unit :=
  unlink write_wait d;;
  x ← get_list write; set_link (last x) (Some d);;
  x ← get_list write; set_prev d (last x);;
  set_next d None;;
  set_last write (Next_of d).

(** [have_old_read_lock] and [have_specific_lock] *)
Fixpoint have_loop (fuel : nat) (f : lock_info -> bool) (d : option Z) : M bool :=
  match d, fuel with
  | None, _ => ret false
  | Some _, O => fail
  | Some d, S fuel =>
      x ← get_data d;
      if f (info x) then ret true else have_loop fuel f (next x)
  end.

(** The loop of [free_all_read_locks]. *)
Fixpoint free_loop (fuel : nat) (using_concurrent_insert : bool) d : M unit :=
  match fuel with
  | O => fail
  | S fuel =>
      x ← get_data d;
      (if bool_decide (type (info x) = TL_READ_NO_INSERT) && using_concurrent_insert
       then
         unlink read d;;
         enqueue read_wait d
       else
         (if bool_decide (type (info x) = TL_READ_NO_INSERT)
          then r ← get_rest;
               set_rest (set_read_no_write_count (u32 (read_no_write_count r + 1)) r)
          else ret tt);;
         set_cond d None;;
         signal (cond (info x)));;
      x ← get_data d;
      match next x with
      | Some d => free_loop fuel using_concurrent_insert d
      | None => ret tt
      end
  end.

Definition free_all_read_locks (fuel : nat) (using_concurrent_insert : bool) : M unit :=
  w ← get_list read_wait;
  match data w with
  | None => fail
  | Some d =>
      x ← get_list read; set_link (last x) (Some d);;
      x ← get_list read; set_prev d (last x);;
      w ← get_list read_wait; set_last read (last w);;
      set_last read_wait (Head_of read_wait);;
      free_loop fuel using_concurrent_insert d;;
      w ← get_list read_wait; set_link (last w) None;;
      w ← get_list read_wait;
      match data w with
      | None => r ← get_rest; set_rest (set_write_lock_count 0 r)
      | Some _ => ret tt
      end
  end.

(** One of the loops of [thr_abort_locks]. *)
Fixpoint abort_loop (fuel : nat) (d : option Z) : M unit :=
  match d, fuel with
  | None, _ => ret tt
  | Some _, O => fail
  | Some d, S fuel =>
      set_type d TL_UNLOCK;;
      x ← get_data d; signal (cond (info x));;
      set_cond d None;;
      x ← get_data d; abort_loop fuel (next x)
  end.

Definition abort_all (fuel : nat) : M unit :=
  x ← get_list read_wait; abort_loop fuel (data x);;
  x ← get_list write_wait; abort_loop fuel (data x);;
  set_last read_wait (Head_of read_wait);;
  set_last write_wait (Head_of write_wait);;
  set_head write_wait None;;
  set_head read_wait None.

(** One of the loops of [thr_abort_locks_for_thread]. *)
Fixpoint abort_some_loop (fuel : nat) q (f : lock_info -> bool) (d : option Z) (found : bool)
  : M bool :=
  match d, fuel with
  | None, _ => ret found
  | Some _, O => fail
  | Some d, S fuel =>
      x ← get_data d;
      if f (info x)
      then
        set_type d TL_UNLOCK;;
        signal (cond (info x));;
        set_cond d None;;
        unlink q d;;
        x ← get_data d; abort_some_loop fuel q f (next x) true
      else abort_some_loop fuel q f (next x) found
  end.

(** The loops follow at most as many links as there are instances. *)
Definition links s : nat := S (size (datas s)).

Definition run_op (chk : Z -> bool) {X} (o : op X) : M X :=
  match o in op X return M X with
  | Head q => x ← get_list q; ret (data x)
  | Get d => x ← get_data d; ret (info x)
  | Init d o t =>
      set_next d None;;
      x ← get_data d; set_info d (mk_info o None t (status_param (info x)))
  | Set_type d t => set_type d t
  | Set_cond d c => set_cond d c
  | Enqueue q d => enqueue q d
  | Unlink q d => unlink q d
  | Push q d => push q d
  | Start_write d => start_write d
  | Have q f => fun s => (x ← get_list q; have_loop (links s) f (data x)) s
  | Free_reads b => fun s => free_all_read_locks (links s) b s
  | Abort_all => fun s => abort_all (links s) s
  | Abort_some q f => fun s => (x ← get_list q; abort_some_loop (links s) q f (data x) false) s
  | Get_rest => get_rest
  | Set_rest r => set_rest r
  | Signal c => signal c
  | Check_status p => r ← get_rest; if check_status r then ret (chk p) else fail
  end.

Fixpoint run (chk : Z -> bool) {A} (p : prog A) : M A :=
  match p with
  | Ret a => ret a
  | Do o k => x ← run_op chk o; run chk (k x)
  end.

(** ** Operations *)

(** The statistics and events before the call stay; no instance is in a queue. *)
Definition thr_lock_init (ds : gmap Z THR_LOCK_DATA) (r : lock_rest) : THR_LOCK :=
  mk_lock (fun q => mk_list None (Head_of q)) ds
    (mk_rest 0 0 false false false false (locks_immediate r) (locks_waited r) (trace r)).

(** What a storage engine stores into a new lock: its status functions and
    whether several concurrent inserts may run. *)
Definition set_functions (get update check multiple : bool) s : THR_LOCK :=
  let r := rest s in
  mk_lock (lists s) (datas s)
    (mk_rest (write_lock_count r) (read_no_write_count r) get update check multiple
       (locks_immediate r) (locks_waited r) (trace r)).

Definition thr_lock_data_init (param : Z) : THR_LOCK_DATA :=
  mk_data None None (mk_info 0 None TL_UNLOCK param).

(** How a step ends: the call returns, or it sleeps on the condition variable
    until a later step of [wait_for_lock]. *)
Inductive outcome :=
  | Returns (r : enum_thr_lock_result)
  | Sleeps (q : queue) (in_wait_list : bool).

Definition thr_lock_owner_equal (rhs lhs : Z) : bool := bool_decide (rhs = lhs).

Definition have_old_read_lock (o : Z) (i : lock_info) : bool := thr_lock_owner_equal (owner i) o.
Definition have_specific_lock (t : thr_lock_type) (i : lock_info) : bool := bool_decide (type i = t).

(** [data && data->type] for the first instance of a queue. *)
Definition head_info q : prog (option (Z * lock_info)) :=
  h ← do (Head q);
  match h with
  | None => mret None
  | Some d => i ← do (Get d); mret (Some (d, i))
  end.

Definition is_empty q : prog bool := h ← do (Head q); mret (bool_decide (h = None)).

Definition modify (f : lock_rest -> lock_rest) : prog unit :=
  r ← do Get_rest; do (Set_rest (f r)).

(** [if (lock->get_status) ( *lock->get_status)(data->status_param, b)] *)
Definition call_get_status d (b : bool) : prog unit :=
  r ← do Get_rest;
  if get_status r
  then i ← do (Get d); do (Set_rest (emit (Got_status (status_param i) b) r))
  else mret tt.

Definition is_ci (t : thr_lock_type) : bool := bool_decide (t = TL_WRITE_CONCURRENT_INSERT).
Definition is_aw (t : thr_lock_type) : bool := bool_decide (t = TL_WRITE_ALLOW_WRITE).
Definition le (t u : thr_lock_type) : bool := bool_decide (tl_int t <= tl_int u).

(** *** Waking up *)

(** The loop that starts waiting writers when nothing is running; the result is
    the last one that was started. *)
Fixpoint write_loop (fuel : nat) d : prog (option (Z * lock_info)) :=
  match fuel with
  | O => mret None
  | S fuel =>
      do (Start_write d);;
      i ← do (Get d);
      (if is_ci (type i)
       then b ← do (Check_status (status_param i));
            if (b : bool) then do (Set_type d TL_WRITE) else mret tt
       else mret tt);;
      do (Set_cond d None);;
      do (Signal (cond i));;
      i ← do (Get d);
      if negb (is_aw (type i)) then mret (Some (d, i))
      else
        h ← head_info write_wait;
        match h with
        | Some (d', i') => if is_aw (type i') then write_loop fuel d' else mret (Some (d, i))
        | None => mret (Some (d, i))
        end
  end.

(** The loop that starts waiting writers beside running readers. *)
Fixpoint write_with_reads_loop (fuel : nat) (lock_type : thr_lock_type) d : prog unit :=
  match fuel with
  | O => mret tt
  | S fuel =>
      i ← do (Get d);
      do (Start_write d);;
      do (Set_cond d None);;
      do (Signal (cond i));;
      if is_aw lock_type
      then
        h ← head_info write_wait;
        match h with
        | Some (d', i') =>
            if is_aw (type i') then write_with_reads_loop fuel lock_type d' else mret tt
        | None => mret tt
        end
      else mret tt
  end.

Section Operations.
Context (e : env) (fuel : nat).

Definition free_waiting_reads (b : bool) : prog unit :=
  no_reads ← is_empty read_wait;
  if (no_reads : bool) then mret tt else do (Free_reads b).

(** [data && (data->type == TL_WRITE_CONCURRENT_INSERT || data->type == TL_WRITE_ALLOW_WRITE)] *)
Definition using_concurrent_insert (h : option (Z * lock_info)) : bool :=
  match h with Some (_, i) => is_ci (type i) || is_aw (type i) | None => false end.

(** [wake_up_waiters] when nothing is running. *)
Definition wake_idle (h : option (Z * lock_info)) : prog unit :=
  rw ← head_info read_wait;
  match h with
  | Some (d, i) =>
      if negb (bool_decide (type i = TL_WRITE_LOW_PRIORITY)) ||
         match rw with
         | Some (_, ri) => bool_decide (tl_int (type ri) < tl_int TL_READ_HIGH_PRIORITY)
         | None => true
         end
      then
        r ← do Get_rest;
        modify (set_write_lock_count (u32 (write_lock_count r + 1)));;
        (if bool_decide (write_lock_count r > max_write_lock_count e)
         then modify (set_write_lock_count 0) else mret tt);;
        if bool_decide (write_lock_count r > max_write_lock_count e) && bool_decide (is_Some rw)
        then do (Free_reads false)
        else
          h ← write_loop fuel d;
          if match h with
             | Some (_, i) => bool_decide (tl_int (type i) >= tl_int TL_WRITE_LOW_PRIORITY)
             | None => false
             end
          then mret tt
          else free_waiting_reads (using_concurrent_insert h)
      else free_waiting_reads (using_concurrent_insert h)
  | None => free_waiting_reads (using_concurrent_insert h)
  end.

(** The types of write locks that start beside the running readers. *)
Definition beside_reads (t : thr_lock_type) (r : lock_rest) : bool :=
  le t TL_WRITE_DELAYED &&
  ((negb (is_ci t) && negb (is_aw t)) || bool_decide (read_no_write_count r = 0)).

Definition wake_up_waiters : prog unit :=
  no_write ← is_empty write;
  if (no_write : bool) then
    h ← head_info write_wait;
    no_read ← is_empty read;
    if (no_read : bool) then wake_idle h
    else
      match h with
      | Some (d, i) =>
          r ← do Get_rest;
          if beside_reads (type i) r
          then
            b ← (if is_ci (type i) then do (Check_status (status_param i)) else mret false);
            if (b : bool)
            then do (Set_type d TL_WRITE);; free_waiting_reads false
            else
              write_with_reads_loop fuel (type i) d;;
              free_waiting_reads (is_ci (type i) || is_aw (type i))
          else mret tt
      | None => free_waiting_reads false
      end
  else mret tt.

(** *** Waiting *)

(** [wait_for_lock] until it sleeps. *)
Definition wait_enter (q : queue) d (me : Z) (in_wait_list : bool) : prog outcome :=
  (if in_wait_list then mret tt else do (Enqueue q d));;
  modify count_waited;;
  do (Set_cond d (Some me));;
  mret (Sleeps q in_wait_list).

(** [wait_for_lock] after the wait: the instance has been granted or aborted
    ([cond] is reset), the wait has timed out, or the thread has been killed. *)
Definition wait_for_lock (q : queue) d (timed_out : bool) : prog outcome :=
  i ← do (Get d);
  let result := if bool_decide (cond i = None) then THR_LOCK_ABORTED
                else if timed_out then THR_LOCK_WAIT_TIMEOUT else THR_LOCK_ABORTED in
  if negb (bool_decide (cond i = None)) || bool_decide (type i = TL_UNLOCK)
  then
    (if negb (bool_decide (cond i = None))
     then do (Unlink q d);; do (Set_type d TL_UNLOCK);; wake_up_waiters
     else mret tt);;
    mret (Returns result)
  else
    call_get_status d (is_ci (type i));;
    mret (Returns THR_LOCK_SUCCESS).

(** *** Locking *)

(** Detect a deadlock with a cursor of the same connection, or wait. *)
Definition wait_or_deadlock (wait_queue : queue) d o (me : Z) : prog outcome :=
  r ← head_info read;
  w ← head_info write;
  let lock_owner := match r with Some x => Some x | None => w end in
  if match lock_owner with
     | Some (_, i) => bool_decide (owner_info e (owner i) = owner_info e o)
     | None => false
     end
  then mret (Returns THR_LOCK_DEADLOCK)
  else wait_enter wait_queue d me false.

Definition aborted d : prog outcome :=
  do (Set_type d TL_UNLOCK);; mret (Returns THR_LOCK_ABORTED).

(** Add to the running readers. *)
Definition grant_read d (lock_type : thr_lock_type) : prog outcome :=
  do (Enqueue read d);;
  (if bool_decide (lock_type = TL_READ_NO_INSERT)
   then r ← do Get_rest; modify (set_read_no_write_count (u32 (read_no_write_count r + 1)))
   else mret tt);;
  call_get_status d false;;
  modify count_immediate;;
  mret (Returns THR_LOCK_SUCCESS).

Definition lock_read d o (lock_type : thr_lock_type) (me : Z) : prog outcome :=
  w ← head_info write;
  match w with
  | Some (_, wi) =>
      if thr_lock_owner_equal o (owner wi) ||
         (le (type wi) TL_WRITE_DELAYED &&
          (le lock_type TL_READ_HIGH_PRIORITY ||
           (negb (is_ci (type wi)) && negb (bool_decide (type wi = TL_WRITE_ALLOW_READ)))))
      then grant_read d lock_type
      else if bool_decide (type wi = TL_WRITE_ONLY) then aborted d
      else wait_or_deadlock read_wait d o me
  | None =>
      ww ← head_info write_wait;
      ok ← match ww with
           | None => mret true
           | Some (_, i) =>
               if le (type i) TL_WRITE_LOW_PRIORITY || bool_decide (lock_type = TL_READ_HIGH_PRIORITY)
               then mret true
               else do (Have read (have_old_read_lock o))
           end;
      if (ok : bool) then grant_read d lock_type else wait_or_deadlock read_wait d o me
  end.

(** Add to the running writers. *)
Definition grant_write d (concurrent_insert : bool) : prog outcome :=
  do (Enqueue write d);;
  call_get_status d concurrent_insert;;
  modify count_immediate;;
  mret (Returns THR_LOCK_SUCCESS).

(** Request for a write lock, after the special cases of delayed and
    concurrent inserts. *)
Definition lock_write d o (lock_type : thr_lock_type) (me : Z) : prog outcome :=
  w ← head_info write;
  no_wait ← is_empty write_wait;
  match w with
  | Some (_, wi) =>
      r ← do Get_rest;
      if bool_decide (type wi = TL_WRITE_ONLY) && negb (thr_lock_owner_equal o (owner wi))
      then aborted d
      else if thr_lock_owner_equal o (owner wi) ||
              ((no_wait : bool) && bool_decide (lock_type = type wi) &&
               (is_aw lock_type ||
                (is_ci lock_type && allow_multiple_concurrent_insert r)))
      then grant_write d (is_ci lock_type)
      else wait_or_deadlock write_wait d o me
  | None =>
      if (no_wait : bool) then
        '(lock_type, concurrent_insert) ←
          (if is_ci lock_type
           then
             i ← do (Get d);
             b ← do (Check_status (status_param i));
             if (b : bool)
             then do (Set_type d (thr_upgraded_concurrent_insert_lock e));;
                  mret (thr_upgraded_concurrent_insert_lock e, false)
             else mret (lock_type, true)
           else mret (lock_type, false));
        no_read ← is_empty read;
        r ← do Get_rest;
        if (no_read : bool) || beside_reads lock_type r
        then grant_write d concurrent_insert
        else wait_or_deadlock write_wait d o me
      else wait_or_deadlock write_wait d o me
  end.

Definition thr_lock d o (lock_type : thr_lock_type) (me : Z) : prog outcome :=
  do (Init d o lock_type);;
  if le lock_type TL_READ_NO_INSERT then lock_read d o lock_type me
  else if bool_decide (lock_type = TL_WRITE_DELAYED)
  then
    w ← head_info write;
    if match w with Some (_, wi) => bool_decide (type wi = TL_WRITE_ONLY) | None => false end
    then aborted d
    else
      specific ←
        (if match w with Some (_, wi) => bool_decide (type wi = TL_WRITE_ALLOW_READ) | None => false end
         then mret true
         else do (Have write_wait (have_specific_lock TL_WRITE_ALLOW_READ)));
      no_read ← is_empty read;
      if negb specific && (bool_decide (is_Some w) || negb no_read)
      then
        do (Enqueue write_wait d);;
        do (Set_cond d (Some me));;
        modify count_immediate;;
        mret (Returns THR_LOCK_SUCCESS)
      else lock_write d o lock_type me
  else
    r ← do Get_rest;
    if is_ci lock_type && negb (check_status r)
    then
      do (Set_type d (thr_upgraded_concurrent_insert_lock e));;
      lock_write d o (thr_upgraded_concurrent_insert_lock e) me
    else lock_write d o lock_type me.

(** *** Unlocking, aborting and changing the type *)

Definition thr_unlock d : prog outcome :=
  i ← do (Get d);
  do (Unlink (if le (type i) TL_READ_NO_INSERT then read
              else if bool_decide (type i = TL_WRITE_DELAYED) && bool_decide (is_Some (cond i))
              then write_wait else write) d);;
  (if bool_decide (type i = TL_READ_NO_INSERT)
   then r ← do Get_rest; modify (set_read_no_write_count (u32 (read_no_write_count r - 1)))
   else mret tt);;
  do (Set_type d TL_UNLOCK);;
  wake_up_waiters;;
  mret (Returns THR_LOCK_SUCCESS).

Definition thr_abort_locks (upgrade_lock : bool) : prog outcome :=
  do Abort_all;;
  h ← do (Head write);
  match h with
  | Some d => (if upgrade_lock then do (Set_type d TL_WRITE_ONLY) else mret tt);;
              mret (Returns THR_LOCK_SUCCESS)
  | None => mret (Returns THR_LOCK_SUCCESS)
  end.

(** The return value is whether an instance of the thread was found. *)
Definition thr_abort_locks_for_thread (id : Z) : prog bool :=
  let mine i := bool_decide (thread_id e (owner_info e (owner i)) = id) in
  found ← do (Abort_some read_wait mine);
  found' ← do (Abort_some write_wait mine);
  wake_up_waiters;;
  mret (found || found').

Definition thr_downgrade_write_lock d (new_lock_type : thr_lock_type) : prog outcome :=
  do (Set_type d new_lock_type);;
  mret (Returns THR_LOCK_SUCCESS).

(** The function returns a [my_bool]: [THR_LOCK_ABORTED] is 1. *)
Definition thr_upgrade_write_delay_lock d (new_lock_type : thr_lock_type) (me : Z) : prog outcome :=
  i ← do (Get d);
  if bool_decide (type i = TL_UNLOCK) || le TL_WRITE_LOW_PRIORITY (type i)
  then mret (Returns (if bool_decide (type i = TL_UNLOCK) then THR_LOCK_ABORTED else THR_LOCK_SUCCESS))
  else
    do (Set_type d new_lock_type);;
    if bool_decide (cond i = None)
    then
      no_read ← is_empty read;
      if (no_read : bool)
      then call_get_status d false;; mret (Returns THR_LOCK_SUCCESS)
      else
        do (Unlink write d);;
        do (Push write_wait d);;
        wait_enter write_wait d me true
    else wait_enter write_wait d me true.

(** [thr_reschedule_write_lock] until it lets go of the mutex; the result is the
    type it then calls [thr_upgrade_write_delay_lock] with. *)
Definition thr_reschedule_write_lock d (me : Z) : prog (option thr_lock_type) :=
  no_reads ← is_empty read_wait;
  if (no_reads : bool) then mret None
  else
    i ← do (Get d);
    do (Set_type d TL_WRITE_DELAYED);;
    r ← do Get_rest;
    (if update_status r then do (Set_rest (emit (Updated_status (status_param i)) r)) else mret tt);;
    do (Unlink write d);;
    do (Push write_wait d);;
    do (Set_cond d (Some me));;
    do (Free_reads false);;
    mret (Some (type i)).

End Operations.

End ThrLock.
