(* ===== verification/ThrSpec.v ===== *)
(** * ThrSpec: table locks on lists

    The second meaning of the primitives of [ThrLock]: the four queues are lists
    of instances.  A primitive is [None] where the linked structure would be
    corrupted or a null condition variable signalled. *)
From stdpp Require Import base tactics option list numbers gmap functions.
From Stdlib Require Import ZArith Lia.
From S2P Require Import Prelude ThrLock.

Module ThrSpec.
Import ThrLock.

(** [fresh] is the instance that [thr_lock] has just initialised. *)
Record alock := mk_a {
  qs : queue -> list Z;
  inf : Z -> lock_info;
  fresh : option Z;
  arest : lock_rest }.

Implicit Types (a : alock) (d : Z) (q : queue).

Definition in_queue a d : bool :=
  bool_decide (d ∈ qs a read_wait) || bool_decide (d ∈ qs a read) ||
  bool_decide (d ∈ qs a write_wait) || bool_decide (d ∈ qs a write).

Definition remove d (l : list Z) : list Z := filter (fun x => x <> d) l.

Definition with_type (t : thr_lock_type) (i : lock_info) : lock_info :=
  mk_info (owner i) (cond i) t (status_param i).
Definition with_cond (c : option Z) (i : lock_info) : lock_info :=
  mk_info (owner i) c (type i) (status_param i).

(** Change the information of the instances of a list. *)
Definition change (l : list Z) (f : lock_info -> lock_info) (h : Z -> lock_info) : Z -> lock_info :=
  fun d => if bool_decide (d ∈ l) then f (h d) else h d.

Definition set_qs a (x : queue -> list Z) : alock := mk_a x (inf a) None (arest a).
Definition set_inf a (x : Z -> lock_info) : alock := mk_a (qs a) x (fresh a) (arest a).
Definition set_arest a (x : lock_rest) : alock := mk_a (qs a) (inf a) (fresh a) x.

(** [pthread_cond_signal] for a list of waiting instances. *)
Fixpoint signal_rest (h : Z -> lock_info) (l : list Z) (r : lock_rest) : option lock_rest :=
  match l with
  | [] => Some r
  | d :: l => c ← cond (h d); signal_rest h l (emit (Signalled c) r)
  end.

(** The waiting readers that stay when a concurrent insert is running. *)
Definition stays (h : Z -> lock_info) (b : bool) d : Prop :=
  type (h d) = TL_READ_NO_INSERT /\ b = true.

#[export] Instance stays_dec h b d : Decision (stays h b d).
Proof. unfold stays. apply _. Defined.

(** The effect on the rest of the lock of letting readers run. *)
Fixpoint free_rest (h : Z -> lock_info) (l : list Z) (r : lock_rest) : option lock_rest :=
  match l with
  | [] => Some r
  | d :: l =>
      c ← cond (h d);
      free_rest h l
        (emit (Signalled c)
           (if bool_decide (type (h d) = TL_READ_NO_INSERT)
            then set_read_no_write_count (u32 (read_no_write_count r + 1)) r else r))
  end.

Definition afree_reads (b : bool) a : option alock :=
  let l := qs a read_wait in
  let go := filter (fun d => ¬ stays (inf a) b d) l in
  let keep := filter (fun d => stays (inf a) b d) l in
  r ← free_rest (inf a) go (arest a);
  if bool_decide (l = []) then None
  else Some (mk_a (<[read := qs a read ++ go]> (<[read_wait := keep]> (qs a)))
               (change go (with_cond None) (inf a)) None
               (if bool_decide (keep = []) then set_write_lock_count 0 r else r)).

Definition aabort (l : list Z) a : option alock :=
  r ← signal_rest (inf a) l (arest a);
  Some (mk_a (fun q => filter (fun d => d ∉ l) (qs a q))
          (change l (fun i => with_cond None (with_type TL_UNLOCK i)) (inf a)) None r).

Section Interpretation.
Context (ids : gset Z) (chk : Z -> bool).

(** Only the instances [ids] exist. *)
Definition known d : bool := bool_decide (d ∈ ids).

Definition arun_op {X} (o : op X) (a : alock) : option (X * alock) :=
  match o in op X return option (X * alock) with
  | Head q => Some (head (qs a q), a)
  | Get d => if known d then Some (inf a d, a) else None
  | Init d o t =>
      if known d && negb (in_queue a d)
      then Some (tt, mk_a (qs a) (<[d := mk_info o None t (status_param (inf a d))]> (inf a))
                       (Some d) (arest a))
      else None
  | Set_type d t =>
      if known d then Some (tt, set_inf a (<[d := with_type t (inf a d)]> (inf a))) else None
  | Set_cond d c =>
      if known d then Some (tt, set_inf a (<[d := with_cond c (inf a d)]> (inf a))) else None
  | Enqueue q d =>
      if bool_decide (fresh a = Some d)
      then Some (tt, set_qs a (<[q := qs a q ++ [d]]> (qs a))) else None
  | Unlink q d =>
      if bool_decide (d ∈ qs a q)
      then Some (tt, set_qs a (<[q := remove d (qs a q)]> (qs a))) else None
  | Push q d =>
      if known d && negb (in_queue a d)
      then Some (tt, set_qs a (<[q := d :: qs a q]> (qs a))) else None
  | Start_write d =>
      if bool_decide (d ∈ qs a write_wait)
      then Some (tt, set_qs a (<[write := qs a write ++ [d]]>
                                 (<[write_wait := remove d (qs a write_wait)]> (qs a))))
      else None
  | Have q f => Some (existsb (fun d => f (inf a d)) (qs a q), a)
  | Free_reads b => a ← afree_reads b a; Some (tt, a)
  | Abort_all => a ← aabort (qs a read_wait ++ qs a write_wait) a; Some (tt, a)
  | Abort_some q f =>
      let l := filter (fun d => f (inf a d) = true) (qs a q) in
      a ← aabort l a; Some (bool_decide (l ≠ []), a)
  | Get_rest => Some (arest a, a)
  | Set_rest r => Some (tt, set_arest a r)
  | Signal c =>
      match c with
      | Some c => Some (tt, set_arest a (emit (Signalled c) (arest a)))
      | None => None
      end
  | Check_status p => if check_status (arest a) then Some (chk p, a) else None
  end.

Fixpoint arun {A} (p : prog A) (a : alock) : option (A * alock) :=
  match p with
  | Ret x => Some (x, a)
  | Do o k => '(x, a) ← arun_op o a; arun (k x) a
  end.

End Interpretation.

End ThrSpec.
