(* ===== verification/ThrLinks.v ===== *)
(** * ThrLinks: the linked queues implement the lists

    [Rep s a] says that the linked structure [s] holds the queues of [a]: each
    instance's [prev] is the link that points at it, [last] is the final link
    and it is null.  [sim_op] shows this for each primitive, [sim_run] for every
    program. *)
From stdpp Require Import base tactics option list numbers gmap functions.
From Stdlib Require Import ZArith Lia.
From S2P Require Import Prelude ThrLock ThrSpec.

Module ThrLinks.
Import ThrLock ThrSpec.

Implicit Types (s : THR_LOCK) (d : Z) (q : queue) (p : link) (l : list Z).

(** ** The structure as links *)

(** What a link holds, and the link that an instance's [prev] points at. *)
Definition rdl s p : option (option Z) :=
  match p with Head_of q => Some (data (lists s q)) | Next_of d => next <$> datas s !! d end.
Definition prv s d : option link := datas s !! d ≫= prev.
Definition lst s q : link := last (lists s q).

(** The final link of a queue that starts at [p]. *)
Fixpoint endl p l : link := match l with [] => p | d :: l => endl (Next_of d) l end.

Fixpoint seg s p l : Prop :=
  match l with
  | [] => True
  | d :: l => rdl s p = Some (Some d) /\ prv s d = Some p /\ seg s (Next_of d) l
  end.

Definition opened s q l : Prop := seg s (Head_of q) l /\ lst s q = endl (Head_of q) l.
Definition linked s q l : Prop := opened s q l /\ rdl s (endl (Head_of q) l) = Some None.

(** Everything else is the same. *)
Definition same s s' : Prop :=
  dom (datas s') = dom (datas s) /\
  (forall d, info <$> datas s' !! d = info <$> datas s !! d) /\ rest s' = rest s.

Definition valid s p : Prop := match p with Head_of _ => True | Next_of d => d ∈ dom (datas s) end.

Lemma same_trans s s1 s2 : same s s1 -> same s1 s2 -> same s s2.
Proof. intros (A & B & C) (A' & B' & C'). split_and!; intros; congruence. Qed.

Lemma same_valid s s' p : same s s' -> valid s p -> valid s' p.
Proof. intros (A & _). destruct p; simpl; [done|by rewrite A]. Qed.

Lemma endl_app p l d : endl p (l ++ [d]) = Next_of d.
Proof. revert p. induction l; intros; simpl; auto. Qed.

Lemma endl_in p l : l = [] /\ endl p l = p \/ exists d, d ∈ l /\ endl p l = Next_of d.
Proof.
  destruct l as [|d l _] using rev_ind; [by left|right].
  exists d. rewrite endl_app. split; [apply elem_of_app; right; by left|done].
Qed.

Lemma queue_seg_app s p l l' : seg s p (l ++ l') <-> seg s p l /\ seg s (endl p l) l'.
Proof. revert p. induction l; intros p; simpl; [tauto|]. rewrite IHl. tauto. Qed.

Lemma endl_app2 p l l' : endl p (l ++ l') = endl (endl p l) l'.
Proof. revert p. induction l; intros; simpl; auto. Qed.

(** The links and back links of a queue are untouched. *)
Definition untouched s s' q l : Prop :=
  rdl s' (Head_of q) = rdl s (Head_of q) /\
  (forall d, d ∈ l -> rdl s' (Next_of d) = rdl s (Next_of d) /\ prv s' d = prv s d) /\
  lst s' q = lst s q.

Lemma queue_seg_ext s s' p l :
  rdl s' p = rdl s p ->
  (forall d, d ∈ l -> rdl s' (Next_of d) = rdl s (Next_of d) /\ prv s' d = prv s d) ->
  seg s p l -> seg s' p l.
Proof.
  revert p. induction l as [|d l IH]; intros p E H; simpl; [done|].
  destruct (H d) as (A & B); [by left|]. rewrite E, B.
  intros (C & D & F). split_and!; auto. apply IH; auto. intros d' I. apply H. by right.
Qed.

Lemma opened_ext s s' q l : untouched s s' q l -> opened s q l -> opened s' q l.
Proof.
  intros (A & B & C) (D & E). split; [by apply (queue_seg_ext s)|congruence].
Qed.

Lemma queue_linked_ext s s' q l : untouched s s' q l -> linked s q l -> linked s' q l.
Proof.
  intros U (O & T). split; [by apply (opened_ext s)|].
  destruct U as (A & B & _). destruct (endl_in (Head_of q) l) as [[-> _]|(d & I & E)].
  - cbn [endl] in *. by rewrite A.
  - rewrite E in *. by rewrite (proj1 (B d I)).
Qed.

(** ** Stores *)

(** Where a store changed the links. *)
Definition set_at {K V} `{EqDecision K} (k : K) (v : V) (f : K -> V) : K -> V :=
  fun k' => if decide (k' = k) then v else f k'.

Lemma set_at_eq {K V} `{EqDecision K} (k : K) (v : V) f : set_at k v f k = v.
Proof. unfold set_at. by rewrite decide_True. Qed.
Lemma set_at_ne {K V} `{EqDecision K} (k k' : K) (v : V) f : k' <> k -> set_at k v f k' = f k'.
Proof. intros. unfold set_at. by rewrite decide_False. Qed.

(** The links after a step, in terms of the links before. *)
Definition effect s s' (r : link -> option (option Z)) (b : Z -> option link) (e : queue -> link)
  : Prop :=
  same s s' /\ (forall p, rdl s' p = r p) /\ (forall d, prv s' d = b d) /\ (forall q, lst s' q = e q).

Lemma lookup_dom s d : d ∈ dom (datas s) -> exists x, datas s !! d = Some x.
Proof. intros H. by apply elem_of_dom in H. Qed.

(** Replace an instance by one with the same information. *)
Lemma put_data_same s d x y :
  datas s !! d = Some x -> info y = info x ->
  same s (mk_lock (lists s) (<[d := y]> (datas s)) (rest s)).
Proof.
  intros E I. split_and!; simpl; [| |done].
  - apply dom_insert_lookup_L. by eexists.
  - intros d'. destruct (decide (d' = d)) as [->|N].
    + rewrite lookup_insert_eq, E. simpl. by rewrite I.
    + by rewrite lookup_insert_ne.
Qed.

Lemma set_next_ok s d v :
  d ∈ dom (datas s) ->
  exists s', set_next d v s = Some (tt, s') /\
    effect s s' (set_at (Next_of d) (Some v) (rdl s)) (prv s) (lst s).
Proof.
  intros (x & E)%lookup_dom. unfold set_next, get_data, put_data, mbind, M_bind. rewrite E. cbn.
  eexists. split; [done|]. split_and!; [by eapply put_data_same| | |done].
  - intros [q|d']; cbn; [by rewrite set_at_ne|].
    destruct (decide (d' = d)) as [->|N].
    + by rewrite lookup_insert_eq, set_at_eq.
    + rewrite lookup_insert_ne, set_at_ne; [done|congruence|done].
  - intros d'. unfold prv. cbn. destruct (decide (d' = d)) as [->|N].
    + by rewrite lookup_insert_eq, E.
    + by rewrite lookup_insert_ne.
Qed.

Lemma set_prev_ok s d v :
  d ∈ dom (datas s) ->
  exists s', set_prev d v s = Some (tt, s') /\
    effect s s' (rdl s) (set_at d (Some v) (prv s)) (lst s).
Proof.
  intros (x & E)%lookup_dom. unfold set_prev, get_data, put_data, mbind, M_bind. rewrite E. cbn.
  eexists. split; [done|]. split_and!; [by eapply put_data_same| | |done].
  - intros [q|d']; cbn; [done|]. destruct (decide (d' = d)) as [->|N].
    + by rewrite lookup_insert_eq, E.
    + by rewrite lookup_insert_ne.
  - intros d'. unfold prv. cbn. destruct (decide (d' = d)) as [->|N].
    + by rewrite lookup_insert_eq, set_at_eq.
    + by rewrite lookup_insert_ne, set_at_ne.
Qed.

Lemma set_head_ok s q v :
  exists s', set_head q v s = Some (tt, s') /\
    effect s s' (set_at (Head_of q) (Some v) (rdl s)) (prv s) (lst s).
Proof.
  eexists. split; [done|]. split_and!; [done| |done|].
  - intros [q'|d']; cbn; [|by rewrite set_at_ne].
    destruct (decide (q' = q)) as [->|N].
    + by rewrite fn_lookup_insert, set_at_eq.
    + rewrite fn_lookup_insert_ne, set_at_ne; [done|congruence|done].
  - intros q'. unfold lst. cbn. destruct (decide (q' = q)) as [->|N].
    + by rewrite fn_lookup_insert.
    + by rewrite fn_lookup_insert_ne.
Qed.

Lemma set_last_ok s q v :
  exists s', set_last q v s = Some (tt, s') /\
    effect s s' (rdl s) (prv s) (set_at q v (lst s)).
Proof.
  eexists. split; [done|]. split_and!; [done| |done|].
  - intros [q'|d']; cbn; [|done].
    destruct (decide (q' = q)) as [->|N].
    + by rewrite fn_lookup_insert.
    + by rewrite fn_lookup_insert_ne.
  - intros q'. unfold lst. cbn. destruct (decide (q' = q)) as [->|N].
    + by rewrite fn_lookup_insert, set_at_eq.
    + by rewrite fn_lookup_insert_ne, set_at_ne.
Qed.

Lemma set_link_ok s p v :
  valid s p ->
  exists s', set_link p v s = Some (tt, s') /\ effect s s' (set_at p (Some v) (rdl s)) (prv s) (lst s).
Proof. destruct p; simpl; intros; [apply set_head_ok|by apply set_next_ok]. Qed.

Lemma get_data_ok s d : d ∈ dom (datas s) ->
  exists x, get_data d s = Some (x, s) /\ rdl s (Next_of d) = Some (next x) /\ prv s d = prev x /\
            info <$> datas s !! d = Some (info x).
Proof.
  intros (x & E)%lookup_dom. exists x. unfold get_data, prv. simpl. by rewrite E.
Qed.

Lemma get_prev_ok s d p : prv s d = Some p -> get_prev d s = Some (p, s).
Proof.
  unfold prv, get_prev, mbind, M_bind, get_data. destruct (datas s !! d) as [x|]; simpl; [|done].
  by intros ->.
Qed.

Lemma bind_ok {A B} (m : M A) (k : A -> M B) s x s1 :
  m s = Some (x, s1) -> (mbind k m) s = k x s1.
Proof. intros E. unfold mbind, M_bind. by rewrite E. Qed.

Lemma get_list_ok s q : get_list q s = Some (lists s q, s).
Proof. done. Qed.

(** Compose two effects. *)
Ltac chain H1 H2 :=
  let S1 := fresh in let R1 := fresh in let B1 := fresh in let E1 := fresh in
  let S2 := fresh in let R2 := fresh in let B2 := fresh in let E2 := fresh in
  destruct H1 as (S1 & R1 & B1 & E1), H2 as (S2 & R2 & B2 & E2);
  split_and!; [by eapply same_trans; eauto| | |]; intros;
  rewrite ?R2, ?B2, ?E2; unfold set_at; rewrite ?R1, ?B1, ?E1; try done;
  repeat case_decide; rewrite ?R1, ?B1, ?E1; done.

Lemma effect_link s s1 s2 r b e p v :
  effect s s1 r b e -> effect s1 s2 (set_at p v (rdl s1)) (prv s1) (lst s1) ->
  effect s s2 (set_at p v r) b e.
Proof. intros H1 H2. chain H1 H2. Qed.

Lemma effect_prev s s1 s2 r b e d v :
  effect s s1 r b e -> effect s1 s2 (rdl s1) (set_at d v (prv s1)) (lst s1) ->
  effect s s2 r (set_at d v b) e.
Proof. intros H1 H2. chain H1 H2. Qed.

Lemma effect_last s s1 s2 r b e q v :
  effect s s1 r b e -> effect s1 s2 (rdl s1) (prv s1) (set_at q v (lst s1)) ->
  effect s s2 r b (set_at q v e).
Proof. intros H1 H2. chain H1 H2. Qed.

Lemma effect_refl s : effect s s (rdl s) (prv s) (lst s).
Proof. by split_and!. Qed.

Lemma effect_dom s s' r b e : effect s s' r b e -> dom (datas s') = dom (datas s).
Proof. by intros ((A & _) & _). Qed.

Lemma enqueue_ok s q d :
  valid s (lst s q) -> d ∈ dom (datas s) ->
  exists s', enqueue q d s = Some (tt, s') /\
    effect s s' (set_at (lst s q) (Some (Some d)) (rdl s)) (set_at d (Some (lst s q)) (prv s))
      (set_at q (Next_of d) (lst s)).
Proof.
  intros V D. unfold enqueue.
  rewrite (bind_ok _ _ _ _ _ (get_list_ok s q)).
  destruct (set_link_ok s (lst s q) (Some d) V) as (s1 & E1 & H1). rewrite (bind_ok _ _ _ _ _ E1).
  rewrite (bind_ok _ _ _ _ _ (get_list_ok s1 q)).
  change (last (lists s1 q)) with (lst s1 q).
  assert (L1 : lst s1 q = lst s q) by apply H1. rewrite L1.
  destruct (set_prev_ok s1 d (lst s q)) as (s2 & E2 & H2); [by rewrite (effect_dom _ _ _ _ _ H1)|].
  rewrite (bind_ok _ _ _ _ _ E2).
  destruct (set_last_ok s2 q (Next_of d)) as (s3 & E3 & H3).
  exists s3. split; [done|].
  eapply effect_last; [|exact H3]. eapply effect_prev; [|exact H2]. exact H1.
Qed.

(** The instance behind [d] in [d :: l]. *)
Lemma unlink_ok s q d p nx :
  prv s d = Some p -> rdl s (Next_of d) = Some nx -> valid s p -> p <> Next_of d ->
  (forall n, nx = Some n -> n ∈ dom (datas s)) ->
  exists s', unlink q d s = Some (tt, s') /\
    effect s s' (set_at p (Some nx) (rdl s))
      (match nx with Some n => set_at n (Some p) (prv s) | None => prv s end)
      (match nx with Some _ => lst s | None => set_at q p (lst s) end).
Proof.
  intros P R V N D. unfold unlink.
  assert (K : d ∈ dom (datas s)).
  { unfold prv in P. apply elem_of_dom. destruct (datas s !! d); [by eexists|done]. }
  destruct (get_data_ok s d K) as (x & E0 & R0 & _). rewrite (bind_ok _ _ _ _ _ E0).
  rewrite (bind_ok _ _ _ _ _ (get_prev_ok s d p P)).
  replace (next x) with nx by congruence.
  destruct (set_link_ok s p nx V) as (s1 & E1 & H1). rewrite (bind_ok _ _ _ _ _ E1).
  assert (K1 : d ∈ dom (datas s1)) by (by rewrite (effect_dom _ _ _ _ _ H1)).
  destruct (get_data_ok s1 d K1) as (x1 & E2 & R1 & _). rewrite (bind_ok _ _ _ _ _ E2).
  assert (P1 : prv s1 d = Some p) by (destruct H1 as (_ & _ & B & _); by rewrite B).
  rewrite (bind_ok _ _ _ _ _ (get_prev_ok s1 d p P1)).
  assert (X : next x1 = nx).
  { destruct H1 as (_ & B & _). rewrite B, set_at_ne in R1 by congruence. congruence. }
  rewrite X. destruct nx as [n|].
  - destruct (set_prev_ok s1 n p) as (s2 & E3 & H3);
      [rewrite (effect_dom _ _ _ _ _ H1); auto|].
    exists s2. split; [done|]. eapply effect_prev; [|exact H3]. done.
  - destruct (set_last_ok s1 q p) as (s2 & E3 & H3).
    exists s2. split; [done|]. eapply effect_last; [|exact H3]. done.
Qed.

Lemma push_ok s q d :
  d ∈ dom (datas s) -> (forall n, data (lists s q) = Some n -> n ∈ dom (datas s)) ->
  exists s', push q d s = Some (tt, s') /\
    effect s s'
      (set_at (Head_of q) (Some (Some d)) (set_at (Next_of d) (Some (data (lists s q))) (rdl s)))
      (set_at d (Some (Head_of q))
         (match data (lists s q) with Some n => set_at n (Some (Next_of d)) (prv s) | None => prv s end))
      (match data (lists s q) with Some _ => lst s | None => set_at q (Next_of d) (lst s) end).
Proof.
  intros K N. unfold push. rewrite (bind_ok _ _ _ _ _ (get_list_ok s q)).
  destruct (set_next_ok s d (data (lists s q)) K) as (s1 & E1 & H1). rewrite (bind_ok _ _ _ _ _ E1).
  pose proof (effect_dom _ _ _ _ _ H1) as D1.
  assert (exists s2,
    match data (lists s q) with Some n => set_prev n (Next_of d) | None => set_last q (Next_of d) end s1
      = Some (tt, s2) /\
    effect s s2 (set_at (Next_of d) (Some (data (lists s q))) (rdl s))
      (match data (lists s q) with Some n => set_at n (Some (Next_of d)) (prv s) | None => prv s end)
      (match data (lists s q) with Some _ => lst s | None => set_at q (Next_of d) (lst s) end))
    as (s2 & E2 & H2).
  { destruct (data (lists s q)) as [n|] eqn:Q.
    - destruct (set_prev_ok s1 n (Next_of d)) as (s2 & E2 & H2); [rewrite D1; auto|].
      exists s2. split; [done|]. eapply effect_prev; [exact H1|exact H2].
    - destruct (set_last_ok s1 q (Next_of d)) as (s2 & E2 & H2).
      exists s2. split; [done|]. eapply effect_last; [exact H1|exact H2]. }
  rewrite (bind_ok _ _ _ _ _ E2).
  destruct (set_prev_ok s2 d (Head_of q)) as (s3 & E3 & H3); [by rewrite (effect_dom _ _ _ _ _ H2)|].
  rewrite (bind_ok _ _ _ _ _ E3).
  destruct (set_head_ok s3 q (Some d)) as (s4 & E4 & H4).
  exists s4. split; [done|].
  eapply effect_link; [|exact H4]. eapply effect_prev; [exact H2|exact H3].
Qed.

(** ** Queues *)

(** [p] is not a link behind an instance of [l]. *)
Definition outside p l : Prop := forall d, d ∈ l -> p <> Next_of d.

Lemma endl_outside p l l' : outside p l' -> (forall d, d ∈ l -> d ∉ l') -> outside (endl p l) l'.
Proof.
  intros O D. destruct (endl_in p l) as [[_ ->]|(d & I & ->)]; [done|].
  intros d' I' [= ->]. by apply (D d').
Qed.

(** A change of the final link does not change the queue. *)
Lemma seg_upd_end s s' p l :
  seg s p l -> NoDup l -> outside p l ->
  (forall p', p' <> endl p l -> rdl s' p' = rdl s p') ->
  (forall d, d ∈ l -> prv s' d = prv s d) -> seg s' p l.
Proof.
  revert p. induction l as [|d l IH]; intros p H N O R B; simpl in *; [done|].
  destruct H as (H1 & H2 & H3). apply list.NoDup_cons in N as (N1 & N2).
  split_and!; [rewrite R; [done|]|rewrite B; [done|by left]|].
  - intros E. destruct (endl_in (Next_of d) l) as [[_ E']|(d' & I & E')]; rewrite E' in E.
    + by apply (O d); [left|].
    + by apply (O d'); [right|].
  - apply IH; auto.
    + by intros d' I [= ->].
    + intros. apply B. by right.
Qed.

Lemma head_outside q l : outside (Head_of q) l.
Proof. by intros d _. Qed.

Lemma seg_lookup s p l1 d l2 :
  seg s p (l1 ++ d :: l2) -> rdl s (endl p l1) = Some (Some d) /\ prv s d = Some (endl p l1) /\
  seg s (Next_of d) l2.
Proof. by intros (_ & H)%queue_seg_app. Qed.

Lemma seg_head s p l : seg s p l -> rdl s (endl p l) = Some None -> rdl s p = Some (head l).
Proof. destruct l; simpl; [done|]. by intros (A & _). Qed.

Lemma opened_valid s q l : opened s q l -> (forall d, d ∈ l -> d ∈ dom (datas s)) -> valid s (lst s q).
Proof.
  intros (_ & ->) D. destruct (endl_in (Head_of q) l) as [[_ ->]|(d & I & ->)]; simpl; auto.
Qed.

(** What a change of queue [q] leaves alone. *)
Definition others s s' q (l : list Z) : Prop :=
  forall q' l', q' <> q -> (forall d, d ∈ l -> d ∉ l') -> untouched s s' q' l'.

Lemma enqueue_linked s q l d :
  opened s q l -> NoDup l -> d ∉ l -> (forall x, x ∈ l -> x ∈ dom (datas s)) -> d ∈ dom (datas s) ->
  exists s', enqueue q d s = Some (tt, s') /\ same s s' /\ opened s' q (l ++ [d]) /\
    rdl s' (Next_of d) = rdl s (Next_of d) /\ others s s' q (l ++ [d]).
Proof.
  intros O N I D K.
  destruct (enqueue_ok s q d) as (s' & E & S & R & B & L); [by eapply opened_valid|done|].
  exists s'. split; [done|]. destruct O as (Sg & La). rewrite La in R, B.
  assert (Q : forall d', d' ∉ l -> Next_of d' <> endl (Head_of q) l).
  { intros d' I' F. destruct (endl_in (Head_of q) l) as [[_ X]|(y & Iy & X)]; congruence. }
  split_and!; [done| |rewrite R, set_at_ne; auto|].
  - split; [|by rewrite L, set_at_eq, endl_app]. apply queue_seg_app. split.
    + apply (seg_upd_end s); auto using head_outside.
      * intros p' F. by rewrite R, set_at_ne.
      * intros d' I'. rewrite B, set_at_ne; [done|]. by intros ->.
    + simpl. by rewrite R, B, !set_at_eq.
  - intros q' l' F G. unfold untouched. rewrite R, L, !set_at_ne; [split_and!; try done|done|].
    + intros d' I'. assert (d' ∉ l ++ [d]) as X by (intros X; by apply (G d')).
      rewrite elem_of_app, list_elem_of_singleton in X.
      rewrite R, B, !set_at_ne; [done|naive_solver|apply Q; naive_solver].
    + intros X. destruct (endl_in (Head_of q) l) as [[_ Y]|(y & Iy & Y)]; congruence.
Qed.

Lemma unlink_linked s q l1 d l2 :
  linked s q (l1 ++ d :: l2) -> NoDup (l1 ++ d :: l2) ->
  (forall x, x ∈ l1 ++ d :: l2 -> x ∈ dom (datas s)) ->
  exists s', unlink q d s = Some (tt, s') /\ same s s' /\ linked s' q (l1 ++ l2) /\
    rdl s' (Next_of d) = Some (head l2) /\ others s s' q (l1 ++ d :: l2).
Proof.
  intros ((Sg & La) & T) N D.
  destruct (seg_lookup _ _ _ _ _ Sg) as (R1 & P1 & S2). rewrite endl_app2 in T. simpl in T.
  pose proof (seg_head _ _ _ S2 T) as R2. set (p := endl (Head_of q) l1) in *.
  apply list.NoDup_app in N as (N1 & N2 & N3). apply list.NoDup_cons in N3 as (N3 & N4).
  assert (O1 : outside p (d :: l2)) by (apply endl_outside; [apply head_outside|apply N2]).
  destruct (unlink_ok s q d p (head l2)) as (s' & E & S & R & B & L); auto.
  { subst p. destruct (endl_in (Head_of q) l1) as [[_ ->]|(y & I & ->)]; simpl; [done|].
    apply D, elem_of_app; by left. }
  { apply O1. by left. }
  { destruct l2; [done|]. intros n [= ->]. apply D, elem_of_app; right; right; by left. }
  exists s'. split; [done|].
  assert (Sl1 : seg s' (Head_of q) l1).
  { apply queue_seg_app in Sg as (Sg & _). apply (seg_upd_end s); auto using head_outside.
    - intros p' F. by rewrite R, set_at_ne.
    - intros x I. rewrite B. destruct l2 as [|n l2]; simpl; [done|].
      rewrite set_at_ne; [done|]. intros ->. apply (N2 n I). right. by left. }
  split_and!; [done| |rewrite R, set_at_ne; [done|]|].
  - destruct l2 as [|n l2]; simpl in *.
    + rewrite app_nil_r. split; [split; [done|by rewrite L, set_at_eq]|]. by rewrite R, set_at_eq.
    + apply list.NoDup_cons in N4 as (N4 & N5). split; [split|].
      * apply queue_seg_app. split; [done|]. fold p. simpl. rewrite R, B, !set_at_eq. split_and!; auto.
        apply (queue_seg_ext s); [rewrite R, set_at_ne; [done|]|..|apply S2].
        -- intros F. apply (O1 n); [right; by left|done].
        -- intros x I. rewrite R, B, !set_at_ne; [done|by intros ->|].
           intros F. apply (O1 x); [right; by right|done].
      * rewrite L, La, !endl_app2. by simpl.
      * rewrite endl_app2. fold p. simpl. rewrite R, set_at_ne; [done|].
        intros F. destruct (endl_in (Next_of n) l2) as [[_ Y]|(y & Iy & Y)]; rewrite Y in F.
        -- apply (O1 n); [right; by left|done].
        -- apply (O1 y); [right; by right|done].
  - intros F. apply (O1 d); [by left|done].
  - intros q' l' F G. unfold untouched. rewrite R, set_at_ne; [split_and!; [done| |]|].
    + intros x I. assert (x ∉ l1 ++ d :: l2) as X by (intros X; by apply (G x)).
      rewrite R, B, set_at_ne; [split; [done|]|].
      * destruct l2 as [|n l2]; simpl; [done|]. rewrite set_at_ne; [done|]. intros ->. apply X.
        apply elem_of_app; right; right; by left.
      * intros Y. subst p. destruct (endl_in (Head_of q) l1) as [[_ Z]|(y & Iy & Z)]; [congruence|].
        apply X, elem_of_app. left. congruence.
    + rewrite L. destruct l2; simpl; [by rewrite set_at_ne|done].
    + intros Y. subst p. destruct (endl_in (Head_of q) l1) as [[_ Z]|(y & Iy & Z)]; congruence.
Qed.

Lemma push_linked s q l d :
  linked s q l -> d ∉ l -> (forall x, x ∈ l -> x ∈ dom (datas s)) -> d ∈ dom (datas s) -> NoDup l ->
  exists s', push q d s = Some (tt, s') /\ same s s' /\ linked s' q (d :: l) /\ others s s' q (d :: l).
Proof.
  intros ((Sg & La) & T) I D K N.
  assert (H : data (lists s q) = head l).
  { pose proof (seg_head _ _ _ Sg T) as F. simpl in F. congruence. }
  destruct (push_ok s q d) as (s' & E & S & R & B & L); [done| |].
  { rewrite H. destruct l; [done|]. intros n [= <-]. apply D. by left. }
  rewrite H in R, B, L. exists s'. split; [done|]. split; [done|]. split.
  - assert (R1 : rdl s' (Next_of d) = Some (head l)) by (rewrite R, set_at_ne, set_at_eq; done).
    destruct l as [|n l]; cbn [seg head endl hd_error] in *.
    + split; [split|done]; [|by rewrite L, set_at_eq]. cbn [seg]. by rewrite R, B, !set_at_eq.
    + destruct Sg as (Sg1 & Sg2 & Sg3). apply list.NoDup_cons in N as (N1 & N2).
      assert (n <> d) by (intros ->; apply I; by left).
      split; [split|].
      * cbn [seg]. rewrite R, !B, !set_at_eq, set_at_ne, set_at_eq by done. rewrite R1. split_and!; auto.
        apply (queue_seg_ext s); [rewrite R, !set_at_ne; [done|congruence|done]| |done].
        intros x Ix. assert (x <> d) by (intros ->; apply I; by right).
        rewrite R, B, !set_at_ne; [done|by intros ->|done|congruence|done].
      * by rewrite L, La.
      * cbn [endl] in *. rewrite R, !set_at_ne; [done| |];
          (destruct (endl_in (Next_of n) l) as [[_ Z]|(y & Iy & Z)]; rewrite Z; [congruence|]);
          [intros [= ->]; apply I; by right|done].
  - intros q' l' F G. unfold untouched. rewrite R, !set_at_ne; [split_and!; [done| |]|done|congruence].
    + intros x Ix. assert (x <> d) by (intros ->; apply (G d); [by left|done]).
      rewrite R, B, !set_at_ne; [|done|congruence|done]. split; [done|].
      destruct l as [|n l]; simpl; [done|]. rewrite set_at_ne; [done|].
      intros ->. apply (G n); [right; by left|done].
    + rewrite L. destruct l; simpl; [by rewrite set_at_ne|done].
Qed.

(** ** Representation *)

Definition Inf s (h : Z -> lock_info) : Prop := forall d x, datas s !! d = Some x -> info x = h d.

Definition Base (ids : gset Z) s (h : Z -> lock_info) (r : lock_rest) : Prop :=
  dom (datas s) = ids /\ Inf s h /\ rest s = r.

(** The links are the same. *)
Definition shape s s' : Prop :=
  (forall p, rdl s' p = rdl s p) /\ (forall d, prv s' d = prv s d) /\ (forall q, lst s' q = lst s q).

Lemma same_base ids s s' h r : same s s' -> Base ids s h r -> Base ids s' h r.
Proof.
  intros (A & B & C) (D & E & F). split_and!; [congruence| |congruence].
  intros d x X. specialize (B d). rewrite X in B. simpl in B.
  destruct (datas s !! d) as [y|] eqn:Y; [|done]. simpl in B. injection B as ->. eauto.
Qed.

Lemma shape_untouched s s' q l : shape s s' -> untouched s s' q l.
Proof. intros (A & B & C). unfold untouched. split_and!; auto. Qed.

Lemma links_trans s s1 s2 : shape s s1 -> shape s1 s2 -> shape s s2.
Proof. intros (A & B & C) (A' & B' & C'). split_and!; intros; congruence. Qed.

Lemma untouched_trans s s1 s2 q l : untouched s s1 q l -> untouched s1 s2 q l -> untouched s s2 q l.
Proof.
  intros (A & B & C) (A' & B' & C'). split_and!; [congruence| |congruence].
  intros d I. destruct (B d I), (B' d I). split; congruence.
Qed.

Lemma set_info_ok ids s h r d i :
  Base ids s h r -> d ∈ ids ->
  exists s', set_info d i s = Some (tt, s') /\ shape s s' /\ Base ids s' (<[d := i]> h) r.
Proof.
  intros (D & I & R) K. subst ids. destruct (lookup_dom s d K) as (x & E).
  unfold set_info, get_data, put_data, mbind, M_bind. rewrite E. cbn.
  eexists. split; [done|]. split; [split_and!; [| |done]|split_and!; [| |done]].
  - intros [q|d']; cbn; [done|]. destruct (decide (d' = d)) as [->|N].
    + by rewrite lookup_insert_eq, E.
    + by rewrite lookup_insert_ne.
  - intros d'. unfold prv. cbn. destruct (decide (d' = d)) as [->|N].
    + by rewrite lookup_insert_eq, E.
    + by rewrite lookup_insert_ne.
  - apply dom_insert_lookup_L. by eexists.
  - intros d' y. cbn. destruct (decide (d' = d)) as [->|N].
    + rewrite lookup_insert_eq, fn_lookup_insert. by intros [= <-].
    + rewrite lookup_insert_ne, fn_lookup_insert_ne by done. apply I.
Qed.

Lemma get_base ids s h r d :
  Base ids s h r -> d ∈ ids ->
  exists x, get_data d s = Some (x, s) /\ info x = h d /\ rdl s (Next_of d) = Some (next x).
Proof.
  intros (D & I & R) K. subst ids. destruct (lookup_dom s d K) as (x & E).
  exists x. unfold get_data. cbn. rewrite E. auto.
Qed.

Lemma set_type_ok ids s h r d t :
  Base ids s h r -> d ∈ ids ->
  exists s', set_type d t s = Some (tt, s') /\ shape s s' /\ Base ids s' (<[d := with_type t (h d)]> h) r.
Proof.
  intros B K. destruct (get_base _ _ _ _ _ B K) as (x & E & I & _).
  unfold set_type. rewrite (bind_ok _ _ _ _ _ E), I. by apply set_info_ok.
Qed.

Lemma set_cond_ok ids s h r d c :
  Base ids s h r -> d ∈ ids ->
  exists s', set_cond d c s = Some (tt, s') /\ shape s s' /\ Base ids s' (<[d := with_cond c (h d)]> h) r.
Proof.
  intros B K. destruct (get_base _ _ _ _ _ B K) as (x & E & I & _).
  unfold set_cond. rewrite (bind_ok _ _ _ _ _ E), I. by apply set_info_ok.
Qed.

Lemma set_rest_ok ids s h r r' :
  Base ids s h r -> exists s', set_rest r' s = Some (tt, s') /\ shape s s' /\ Base ids s' h r'.
Proof. intros (D & I & R). eexists. split; [done|]. by split. Qed.

Lemma signal_ok ids s h r c :
  Base ids s h r ->
  exists s', signal (Some c) s = Some (tt, s') /\ shape s s' /\ Base ids s' h (emit (Signalled c) r).
Proof.
  intros B. unfold signal, get_rest, mbind, M_bind. cbn. destruct B as (D & I & ->). 
  eexists. split; [done|]. by split.
Qed.

(** *** Walks along a queue *)

Lemma queue_length (ids : gset Z) l :
  NoDup l -> (forall d, d ∈ l -> d ∈ ids) -> (length l <= size ids)%nat.
Proof.
  intros N S. rewrite <- (size_list_to_set (C := gset Z) l) by done.
  apply subseteq_size. intros d. rewrite elem_of_list_to_set. auto.
Qed.

Lemma have_loop_ok ids s h r f l p fuel :
  Base ids s h r -> seg s p l -> rdl s (endl p l) = Some None ->
  (forall d, d ∈ l -> d ∈ ids) -> (length l <= fuel)%nat ->
  have_loop fuel f (head l) s = Some (existsb (fun d => f (h d)) l, s).
Proof.
  intros B. revert p fuel. induction l as [|d l IH]; intros p fuel S T D F.
  - by destruct fuel.
  - destruct fuel as [|fuel]; simpl in F; [lia|]. cbn [have_loop list.head].
    destruct (get_base _ _ _ _ _ B (D d ltac:(by left))) as (x & E & I & N).
    rewrite (bind_ok _ _ _ _ _ E), I. destruct S as (_ & _ & S). simpl in T.
    pose proof (seg_head _ _ _ S T) as H. rewrite N in H. injection H as ->.
    simpl. destruct (f (h d)); [done|]. simpl. apply (IH (Next_of d)); [done|done|..|lia].
    intros. apply D. by right.
Qed.

Lemma base_ext ids s h h' r : (forall d, h d = h' d) -> Base ids s h r -> Base ids s h' r.
Proof. intros E (A & B & C). split_and!; auto. intros d x X. rewrite <- E. eauto. Qed.

Lemma change_cons d l f h x :
  d ∉ l -> change l f (<[d := f (h d)]> h) x = change (d :: l) f h x.
Proof.
  intros N. unfold change. destruct (decide (x = d)) as [->|F].
  - rewrite fn_lookup_insert, (bool_decide_false (d ∈ l)), (bool_decide_true (d ∈ d :: l)); [done|by left|done].
  - rewrite fn_lookup_insert_ne by done.
    rewrite (bool_decide_ext (x ∈ d :: l) (x ∈ l)); [done|]. rewrite elem_of_cons. naive_solver.
Qed.

(** One waiting reader is let go. *)
Lemma free_one ids s h r d c :
  Base ids s h r -> d ∈ ids -> cond (h d) = Some c ->
  exists s',
    ((if bool_decide (type (h d) = TL_READ_NO_INSERT)
      then r ← get_rest; set_rest (set_read_no_write_count (u32 (read_no_write_count r + 1)) r)
      else ret tt);;
     set_cond d None;; signal (cond (h d))) s = Some (tt, s') /\ shape s s' /\
    Base ids s' (<[d := with_cond None (h d)]> h)
      (emit (Signalled c)
         (if bool_decide (type (h d) = TL_READ_NO_INSERT)
          then set_read_no_write_count (u32 (read_no_write_count r + 1)) r else r)).
Proof.
  intros B K C. rewrite C.
  set (r1 := if bool_decide (type (h d) = TL_READ_NO_INSERT) then _ else r).
  assert (exists s1,
    (if bool_decide (type (h d) = TL_READ_NO_INSERT)
     then r ← get_rest; set_rest (set_read_no_write_count (u32 (read_no_write_count r + 1)) r)
     else ret tt) s = Some (tt, s1) /\ shape s s1 /\ Base ids s1 h r1) as (s1 & E1 & S1 & B1).
  { subst r1. destruct (bool_decide _).
    - destruct B as (D & I & R). unfold mbind, M_bind, get_rest. cbn. rewrite R.
      eexists. split; [done|]. by split.
    - by exists s. }
  rewrite (bind_ok _ _ _ _ _ E1).
  destruct (set_cond_ok _ _ _ _ d None B1 K) as (s2 & E2 & S2 & B2). rewrite (bind_ok _ _ _ _ _ E2).
  destruct (signal_ok _ _ _ _ c B2) as (s3 & E3 & S3 & B3).
  exists s3. split; [done|]. split; [|done].
  eapply links_trans; [exact S1|]. by eapply links_trans.
Qed.

Lemma linked_shape s s' q l : shape s s' -> linked s q l -> linked s' q l.
Proof. intros. by eapply queue_linked_ext; [apply shape_untouched|]. Qed.
Lemma opened_shape s s' q l : shape s s' -> opened s q l -> opened s' q l.
Proof. intros. by eapply opened_ext; [apply shape_untouched|]. Qed.

(** A queue's first instance is the next one of [d] after it has been taken
    out, or not. *)
Lemma next_in_queue s q l1 d l2 :
  linked s q (l1 ++ d :: l2) -> rdl s (Next_of d) = Some (head l2).
Proof.
  intros ((S & _) & T). apply seg_lookup in S as (_ & _ & S). rewrite endl_app2 in T.
  by apply (seg_head _ _ _ S).
Qed.

Section Free_loop.
Context (ids : gset Z) (b : bool) (h0 : Z -> lock_info).

(** The state in the loop of [free_all_read_locks]: [done] has been let go,
    [keep] has been put back and [todo] is to be looked at. *)
Definition freeing s (done keep todo : list Z) h r : Prop :=
  Base ids s h r /\ linked s read (done ++ todo) /\ opened s read_wait keep /\
  NoDup (keep ++ done ++ todo) /\ (forall d, d ∈ keep ++ done ++ todo -> d ∈ ids) /\
  (forall d, d ∈ todo -> h d = h0 d).

Definition undisturbed s s' (l : list Z) : Prop :=
  forall q l', q <> read -> q <> read_wait -> (forall d, d ∈ l -> d ∉ l') -> untouched s s' q l'.

Lemma freeing_go s done keep d todo h r c :
  freeing s done keep (d :: todo) h r -> cond (h0 d) = Some c ->
  exists s',
    ((if bool_decide (type (h0 d) = TL_READ_NO_INSERT)
      then r ← get_rest; set_rest (set_read_no_write_count (u32 (read_no_write_count r + 1)) r)
      else ret tt);;
     set_cond d None;; signal (cond (h0 d))) s = Some (tt, s') /\ 
    undisturbed s s' (keep ++ done ++ d :: todo) /\ rdl s' (Next_of d) = Some (head todo) /\
    freeing s' (done ++ [d]) keep todo (<[d := with_cond None (h d)]> h)
      (emit (Signalled c)
         (if bool_decide (type (h0 d) = TL_READ_NO_INSERT)
          then set_read_no_write_count (u32 (read_no_write_count r + 1)) r else r)).
Proof.
  intros (B & L & O & N & D & H) C. rewrite <- (H d) in * by (by left).
  destruct (free_one ids s h r d c) as (s' & E & S & B'); auto.
  { apply D. rewrite !elem_of_app. right; right; by left. }
  exists s'. split; [done|]. unfold freeing. split_and!.
  - intros q l' _ _ _. by apply shape_untouched.
  - apply (next_in_queue _ read done). by eapply linked_shape.
  - done.
  - rewrite <- app_assoc. by eapply linked_shape.
  - by eapply opened_shape.
  - by rewrite <- app_assoc.
  - by rewrite <- app_assoc.
  - intros x I. rewrite fn_lookup_insert_ne; [apply H; by right|]. intros <-.
    rewrite !list.NoDup_app, list.NoDup_cons in N. tauto.
Qed.

Lemma freeing_keep s done keep d todo h r :
  freeing s done keep (d :: todo) h r ->
  exists s', (unlink read d;; enqueue read_wait d) s = Some (tt, s') /\ 
    undisturbed s s' (keep ++ done ++ d :: todo) /\ rdl s' (Next_of d) = Some (head todo) /\
    freeing s' done (keep ++ [d]) todo h r.
Proof.
  intros (B & L & O & N & D & H). pose proof N as N0.
  assert (Dd : dom (datas s) = ids) by apply B.
  apply list.NoDup_app in N as (N1 & N2 & N3).
  destruct (unlink_linked s read done d todo) as (s1 & E1 & S1 & L1 & R1 & U1); auto.
  { intros x I. rewrite Dd. apply D, elem_of_app. by right. }
  rewrite (bind_ok _ _ _ _ _ E1).
  assert (U1' : untouched s s1 read_wait keep).
  { apply U1; [done|]. intros x I K. by apply (N2 x). }
  assert (Dd1 : dom (datas s1) = ids) by (destruct S1 as (-> & _); done).
  destruct (enqueue_linked s1 read_wait keep d) as (s2 & E2 & S2 & O2 & R2 & U2).
  { by eapply opened_ext. }
  { done. }
  { intros I. apply (N2 d I). apply elem_of_app. right. by left. }
  { intros x I. rewrite Dd1. apply D, elem_of_app. by left. }
  { rewrite Dd1. apply D. rewrite !elem_of_app. right; right; by left. }
  exists s2. split; [done|]. unfold freeing. split_and!.
  - intros q l' Q1 Q2 X. eapply untouched_trans; [apply U1|apply U2]; auto.
    + intros x I. apply X, elem_of_app. by right.
    + intros x I. apply X. rewrite !elem_of_app in *. rewrite list_elem_of_singleton in I.
      destruct I as [I| ->]; [by left|right; right; by left].
  - by rewrite R2.
  - eapply same_base; [exact S2|]. by eapply same_base.
  - eapply queue_linked_ext; [|exact L1]. apply U2; [done|]. intros x I K.
    rewrite list.NoDup_app, list.NoDup_cons in N3.
    apply elem_of_app in I as [I|I%list_elem_of_singleton].
    + apply (N2 x I). rewrite elem_of_app in *. destruct K; [by left|right; by right].
    + subst x. apply elem_of_app in K as [K|K]; [|tauto]. apply (proj1 (proj2 N3) d K). by left.
  - done.
  - eapply NoDup_Permutation_proper; [|exact N0]. rewrite <- !app_assoc. f_equiv. simpl. by rewrite Permutation_middle.
  - intros x I. apply D. rewrite !elem_of_app in *. rewrite elem_of_cons.
    rewrite list_elem_of_singleton in I. naive_solver.
  - intros x I. apply H. by right.
Qed.

Definition body d : M unit :=
  x ← get_data d;
  (if bool_decide (type (info x) = TL_READ_NO_INSERT) && b
   then unlink read d;; enqueue read_wait d
   else
     (if bool_decide (type (info x) = TL_READ_NO_INSERT)
      then r ← get_rest; set_rest (set_read_no_write_count (u32 (read_no_write_count r + 1)) r)
      else ret tt);;
     set_cond d None;;
     signal (cond (info x))).

Definition going (l : list Z) : list Z := filter (fun x => ¬ stays h0 b x) l.
Definition staying (l : list Z) : list Z := filter (fun x => stays h0 b x) l.

Lemma change_nil f h d : change [] f h d = h d.
Proof. done. Qed.

(** One round: what is left to do gives the same end as before the round. *)
Lemma free_round s d done keep todo h r r' :
  freeing s done keep (d :: todo) h r -> free_rest h0 (going (d :: todo)) r = Some r' ->
  exists s1 h1 r1 done1 keep1, body d s = Some (tt, s1) /\
    undisturbed s s1 (keep ++ done ++ d :: todo) /\ rdl s1 (Next_of d) = Some (head todo) /\
    freeing s1 done1 keep1 todo h1 r1 /\ free_rest h0 (going todo) r1 = Some r' /\
    (forall x, x ∈ keep1 ++ done1 ++ todo -> x ∈ keep ++ done ++ d :: todo) /\
    done1 ++ going todo = done ++ going (d :: todo) /\
    keep1 ++ staying todo = keep ++ staying (d :: todo) /\
    (forall x, change (going todo) (with_cond None) h1 x =
               change (going (d :: todo)) (with_cond None) h x).
Proof.
  intros F R. pose proof F as (B & _ & _ & N & D & H). unfold body.
  destruct (get_base ids s h r d) as (x & E & I & _); [done|apply D; rewrite !elem_of_app; right; right; by left|].
  rewrite (bind_ok _ _ _ _ _ E), I, (H d) by (by left).
  assert (Nd : d ∉ going todo).
  { intros X%list_elem_of_filter. rewrite !list.NoDup_app, list.NoDup_cons in N. tauto. }
  unfold going, staying in *. destruct (decide (stays h0 b d)) as [St|St].
  - destruct (freeing_keep _ _ _ _ _ _ _ F) as (s1 & E1 & U1 & R1 & F1).
    assert ((bool_decide (type (h0 d) = TL_READ_NO_INSERT) && b) = true) as ->.
    { destruct St as (St & ->). by rewrite bool_decide_true. }
    rewrite !filter_cons_False in * by tauto. rewrite filter_cons_True by done.
    exists s1, h, r, done, (keep ++ [d]). rewrite <- !app_assoc. split_and!; try done.
    intros y. rewrite !elem_of_app, list_elem_of_singleton, elem_of_cons. tauto.
  - assert ((bool_decide (type (h0 d) = TL_READ_NO_INSERT) && b) = false) as ->.
    { destruct b; [|by rewrite andb_false_r]. rewrite bool_decide_false; [done|].
      intros X. by apply St. }
    rewrite !filter_cons_True in * by done. rewrite filter_cons_False by done.
    cbn [free_rest] in R. destruct (cond (h0 d)) as [c|] eqn:C; [|done]. cbn [mbind option_bind] in R.
    destruct (freeing_go _ _ _ _ _ _ _ _ F C) as (s1 & E1 & U1 & R1 & F1).
    eexists s1, _, _, (done ++ [d]), keep. split_and!; eauto.
    + by rewrite <- C.
    + by rewrite <- !app_assoc.
    + by rewrite <- app_assoc.
    + intros y. by apply change_cons.
Qed.

Lemma free_loop_body fuel d s s1 t : body d s = Some (tt, s1) -> rdl s1 (Next_of d) = Some t ->
  free_loop (S fuel) b d s =
  match t with Some d => free_loop fuel b d s1 | None => Some (tt, s1) end.
Proof.
  intros E R. cbn [free_loop]. unfold body in E. unfold mbind, M_bind in *.
  destruct (get_data d s) as [[x s']|]; [|done]. cbn in *. rewrite E. cbn.
  unfold get_data. cbn in R. destruct (datas s1 !! d) as [y|]; [|done]. cbn in *.
  injection R as ->. by destruct t.
Qed.

Lemma free_loop_ok todo : forall fuel s d done keep h r r',
  freeing s done keep (d :: todo) h r -> free_rest h0 (going (d :: todo)) r = Some r' ->
  (length todo < fuel)%nat ->
  exists s' h', free_loop fuel b d s = Some (tt, s') /\
    undisturbed s s' (keep ++ done ++ d :: todo) /\
    freeing s' (done ++ going (d :: todo)) (keep ++ staying (d :: todo)) [] h' r' /\
    (forall x, h' x = change (going (d :: todo)) (with_cond None) h x).
Proof.
  induction todo as [|d' todo IH]; intros fuel s d done keep h r r' F R L;
    (destruct fuel as [|fuel]; simpl in L; [lia|]);
    destruct (free_round _ _ _ _ _ _ _ _ F R)
      as (s1 & h1 & r1 & done1 & keep1 & E & U & N & F1 & R1 & X1 & D1 & K1 & C1);
    rewrite (free_loop_body _ _ _ _ _ E N); simpl.
  - exists s1, h1. split; [done|]. split; [done|].
    change (going []) with (@nil Z) in *. change (staying []) with (@nil Z) in *.
    cbn [free_rest] in R1. injection R1 as <-. rewrite !app_nil_r in *.
    split; [by rewrite <- D1, <- K1|]. intros x. by rewrite <- C1.
  - destruct (IH fuel s1 d' done1 keep1 h1 r1 r' F1 R1) as (s' & h' & E' & U' & F' & C'); [lia|].
    exists s', h'. split; [done|]. split_and!.
    + intros q l' Q1 Q2 X. eapply untouched_trans; [by apply U|]. apply U'; auto.
    + by rewrite <- D1, <- K1.
    + intros x. by rewrite C', C1.
Qed.
End Free_loop.

End ThrLinks.
