(* ===== verification/ThrSim.v ===== *)
(** * ThrSim: programs on the linked queues follow the programs on lists

    [Rep] relates the linked structure to the lists.  [sim_op] shows for each
    primitive that when it is defined on the lists the linked structure does the
    same; [sim_run] lifts this to programs. *)
From stdpp Require Import base tactics option list numbers gmap functions.
From Stdlib Require Import ZArith Lia.
From S2P Require Import Prelude ThrLock ThrSpec ThrLinks.

Module ThrSim.
Import ThrLock ThrSpec ThrLinks.

Implicit Types (s : THR_LOCK) (a : alock) (d : Z) (q : queue).

Lemma filter_all {A} (P : A -> Prop) `{!forall x, Decision (P x)} (l : list A) :
  (forall x, x ∈ l -> P x) -> filter P l = l.
Proof.
  induction l as [|x l IH]; intros Hl; [done|]. rewrite filter_cons_True by (apply Hl; by left).
  f_equal. apply IH. intros y I. apply Hl. by right.
Qed.

Lemma filter_none {A} (P : A -> Prop) `{!forall x, Decision (P x)} (l : list A) :
  (forall x, x ∈ l -> ¬ P x) -> filter P l = [].
Proof.
  induction l as [|x l IH]; intros Hl; [done|]. rewrite filter_cons_False by (apply Hl; by left).
  apply IH. intros y I. apply Hl. by right.
Qed.

Lemma list_filter_iff' {A} (P Q : A -> Prop) `{!forall x, Decision (P x)} `{!forall x, Decision (Q x)}
  (l : list A) : (forall x, x ∈ l -> P x <-> Q x) -> filter P l = filter Q l.
Proof.
  induction l as [|x l IH]; intros Hl; [done|]. rewrite !filter_cons.
  assert (P x <-> Q x) by (apply Hl; by left).
  rewrite IH by (intros; apply Hl; by right). destruct (decide (P x)), (decide (Q x)); tauto.
Qed.

(** The queues have no common instances. *)
Definition Apart (ids : gset Z) (L : queue -> list Z) : Prop :=
  (forall q, NoDup (L q)) /\ (forall q q' d, d ∈ L q -> d ∈ L q' -> q = q') /\
  (forall q d, d ∈ L q -> d ∈ ids).

Definition Rep (ids : gset Z) s a : Prop :=
  Base ids s (inf a) (arest a) /\ (forall q, linked s q (qs a q)) /\ Apart ids (qs a) /\
  (forall d, fresh a = Some d ->
     rdl s (Next_of d) = Some None /\ d ∈ ids /\ forall q, d ∉ qs a q).

Lemma in_queue_spec a d : in_queue a d = false <-> forall q, d ∉ qs a q.
Proof.
  unfold in_queue. rewrite !orb_false_iff, !bool_decide_eq_false. split.
  - intros (((A & B) & C) & D) []; done.
  - intros H. split_and!; apply H.
Qed.

Lemma apart_insert ids L q l :
  Apart ids L -> NoDup l -> (forall d, d ∈ l -> d ∈ ids /\ forall q', q' <> q -> d ∉ L q') ->
  Apart ids (<[q := l]> L).
Proof.
  intros (N & D & I) Nl H. split_and!.
  - intros q'. destruct (decide (q' = q)) as [->|F];
      [by rewrite fn_lookup_insert|by rewrite fn_lookup_insert_ne].
  - intros q1 q2 d. destruct (decide (q1 = q)) as [->|F1], (decide (q2 = q)) as [->|F2];
      rewrite ?fn_lookup_insert, ?fn_lookup_insert_ne by done; [done|..].
    + intros A B. by destruct (proj2 (H d A) q2 F2).
    + intros A B. by destruct (proj2 (H d B) q1 F1).
    + apply D.
  - intros q' d. destruct (decide (q' = q)) as [->|F];
      rewrite ?fn_lookup_insert, ?fn_lookup_insert_ne by done; [|apply I].
    intros A. by apply H.
Qed.

(** A step that changes one queue. *)
Lemma rep_queue ids s s' a q l l0 :
  Rep ids s a -> same s s' -> linked s' q l -> others s s' q l0 ->
  (forall d q', q' <> q -> d ∈ l0 -> d ∉ qs a q') -> Apart ids (<[q := l]> (qs a)) ->
  Rep ids s' (set_qs a (<[q := l]> (qs a))).
Proof.
  intros (B & L & _ & _) S Lq O D A. split_and!; [by eapply same_base| |done|done].
  intros q'. simpl. destruct (decide (q' = q)) as [->|F]; [by rewrite fn_lookup_insert|].
  rewrite fn_lookup_insert_ne by done. eapply queue_linked_ext; [|apply L]. apply O; auto.
Qed.

Lemma remove_split d l : NoDup l -> d ∈ l ->
  exists l1 l2, l = l1 ++ d :: l2 /\ remove d l = l1 ++ l2.
Proof.
  intros N (l1 & l2 & ->)%list_elem_of_split. exists l1, l2. split; [done|].
  apply list.NoDup_app in N as (N1 & N2 & N3). apply list.NoDup_cons in N3 as (N3 & N4).
  assert (X : forall l, d ∉ l -> remove d l = l).
  { intros l I. apply filter_all. by intros x Hx ->. }
  unfold remove in *. rewrite list.filter_app, filter_cons_False by (by intros []).
  rewrite !X; [done|done|]. intros I. apply (N2 d I). by left.
Qed.

Lemma apart_remove ids L q l1 d l2 :
  Apart ids L -> L q = l1 ++ d :: l2 -> Apart ids (<[q := l1 ++ l2]> L).
Proof.
  intros A E. pose proof A as (N & D & I). apply apart_insert; [done| |].
  - specialize (N q). rewrite E in N. eapply sublist_NoDup; [exact N|].
    apply sublist_app; [done|by apply sublist_cons].
  - intros x Ix. assert (Hx : x ∈ L q).
    { rewrite E. rewrite elem_of_app, elem_of_cons in *. tauto. }
    split; [by apply (I q)|]. intros q' F Hx'. by apply F, (D q' q x).
Qed.

Lemma unlink_sim ids s a q d :
  Rep ids s a -> d ∈ qs a q ->
  exists s', unlink q d s = Some (tt, s') /\ Rep ids s' (set_qs a (<[q := remove d (qs a q)]> (qs a))) /\
    (forall q', d ∉ qs a q' \/ q' = q).
Proof.
  intros H Iq. pose proof H as (B & L & A & _). pose proof A as (N & D & I).
  destruct (remove_split d (qs a q)) as (l1 & l2 & E & R); [done|done|].
  specialize (L q). rewrite E in L.
  destruct (unlink_linked s q l1 d l2) as (s' & U & S & L' & _ & O).
  { done. } { rewrite <- E. apply N. }
  { intros x Hx. rewrite <- E in Hx. destruct B as (-> & _). by apply (I q). }
  exists s'. split; [done|]. rewrite R. split.
  - eapply rep_queue; eauto; [|by eapply apart_remove].
    intros x q' F Hx. rewrite <- E in Hx. intros Hx'. by apply F, (D q' q x).
  - intros q'. destruct (decide (q' = q)) as [->|F]; [by right|left]. intros X. by apply F, (D q' q d).
Qed.

(** The final link of a queue is made null. *)
Lemma terminate s s' q l d e :
  opened s q (l ++ [d]) -> NoDup (l ++ [d]) ->
  effect s s' (set_at (Next_of d) (Some None) (rdl s)) (prv s) e -> lst s' q = lst s q ->
  linked s' q (l ++ [d]).
Proof.
  intros (Sg & La) N (S & R & B & _) E. split; [split; [|congruence]|].
  - apply (seg_upd_end s); auto using head_outside. intros p F. rewrite R, set_at_ne; [done|].
    by rewrite endl_app in F.
  - by rewrite endl_app, R, set_at_eq.
Qed.

Lemma enqueue_sim ids s a q d :
  Rep ids s a -> fresh a = Some d ->
  exists s', enqueue q d s = Some (tt, s') /\ Rep ids s' (set_qs a (<[q := qs a q ++ [d]]> (qs a))).
Proof.
  intros H F. pose proof H as (B & L & A & Fr). destruct (Fr d F) as (R & K & Q).
  pose proof A as (N & D & I). assert (Dm : dom (datas s) = ids) by apply B.
  destruct (enqueue_linked s q (qs a q) d) as (s' & E & S & O & R' & U); auto.
  { apply L. } { intros x Hx. rewrite Dm. by apply (I q). } { by rewrite Dm. }
  exists s'. split; [done|]. eapply rep_queue; [done|done| |done|..].
  - split; [done|]. rewrite endl_app. by rewrite R'.
  - intros x q' F' Hx Hx'. apply elem_of_app in Hx as [Hx| ->%list_elem_of_singleton].
    + by apply F', (D q' q x).
    + by apply (Q q').
  - apply apart_insert; [done| |].
    + apply list.NoDup_app. split_and!; [done| |apply NoDup_singleton].
      intros x Hx ->%list_elem_of_singleton. by apply (Q q).
    + intros x [Hx| ->%list_elem_of_singleton]%elem_of_app; [|auto].
      split; [by apply (I q)|]. intros q' F' X. by apply F', (D q' q x).
Qed.

Lemma push_sim ids s a q d :
  Rep ids s a -> d ∈ ids -> (forall q, d ∉ qs a q) ->
  exists s', push q d s = Some (tt, s') /\ Rep ids s' (set_qs a (<[q := d :: qs a q]> (qs a))).
Proof.
  intros H K Q. pose proof H as (B & L & A & _).
  pose proof A as (N & D & I). assert (Dm : dom (datas s) = ids) by apply B.
  destruct (push_linked s q (qs a q) d) as (s' & E & S & O & U); auto.
  { intros x Hx. rewrite Dm. by apply (I q). } { by rewrite Dm. }
  exists s'. split; [done|]. eapply rep_queue; eauto.
  - intros x q' F' Hx Hx'. apply elem_of_cons in Hx as [->|Hx]; [by apply (Q q')|].
    by apply F', (D q' q x).
  - apply apart_insert; [done| |].
    + apply list.NoDup_cons. auto.
    + intros x [->|Hx]%elem_of_cons; [auto|].
      split; [by apply (I q)|]. intros q' F' X. by apply F', (D q' q x).
Qed.

Lemma start_tail s d :
  (x ← get_list write; set_link (last x) (Some d);;
   x ← get_list write; set_prev d (last x);;
   set_next d None;; set_last write (Next_of d)) s = (enqueue write d;; set_next d None) s.
Proof.
  unfold enqueue, mbind, M_bind. unfold get_list at 1 2 3 4. cbn [mbind option_bind].
  destruct (set_link (last (lists s write)) (Some d) s) as [[[] s1]|]; [|done]. cbn [mbind option_bind].
  destruct (set_prev d (last (lists s1 write)) s1) as [[[] s2]|]; [|done]. cbn [mbind option_bind].
  unfold set_next, set_last, get_list, get_data, put_data, put_list, mbind, M_bind. cbn.
  by destruct (datas s2 !! d).
Qed.

Lemma start_write_sim ids s a d :
  Rep ids s a -> d ∈ qs a write_wait ->
  exists s', start_write d s = Some (tt, s') /\
    Rep ids s' (set_qs a (<[write := qs a write ++ [d]]>
                            (<[write_wait := remove d (qs a write_wait)]> (qs a)))).
Proof.
  intros H I. destruct (unlink_sim ids s a write_wait d H I) as (s1 & E1 & H1 & O).
  unfold start_write. rewrite (bind_ok _ _ _ _ _ E1), start_tail.
  set (a1 := set_qs a _) in *. pose proof H1 as (B & L & A & _). pose proof A as (N & D & K).
  assert (Nd : forall q, d ∉ qs a1 q).
  { intros q. subst a1. simpl. destruct (decide (q = write_wait)) as [->|F].
    - rewrite fn_lookup_insert. unfold remove. rewrite list_elem_of_filter. naive_solver.
    - rewrite fn_lookup_insert_ne by done. destruct (O q); [done|congruence]. }
  assert (Di : d ∈ ids) by (destruct H as (_ & _ & (_ & _ & X) & _); by apply (X write_wait)).
  assert (Dm : dom (datas s1) = ids) by apply B.
  destruct (enqueue_linked s1 write (qs a1 write) d) as (s2 & E2 & S2 & O2 & _ & U2); auto.
  { apply L. } { intros x Hx. rewrite Dm. by apply (K write). } { by rewrite Dm. }
  rewrite (bind_ok _ _ _ _ _ E2).
  destruct (set_next_ok s2 d None) as (s3 & E3 & F3); [destruct S2 as (-> & _); by rewrite Dm|].
  exists s3. split; [done|].
  change (qs a write) with (qs a1 write). change (set_qs a ?x) with (set_qs a1 x).
  change (<[write_wait := _]> (qs a)) with (qs a1).
  assert (Nw : NoDup (qs a1 write ++ [d])).
  { apply list.NoDup_app. split_and!; [done| |apply NoDup_singleton].
    intros x Hx ->%list_elem_of_singleton. by apply (Nd write). }
  eapply rep_queue with (l0 := qs a1 write ++ [d]); [done| | |..].
  - eapply same_trans; [done|]. apply F3.
  - eapply terminate; eauto. by destruct F3 as (_ & _ & _ & ->).
  - intros q' l' F G. eapply untouched_trans; [by apply U2|].
    destruct F3 as (_ & R3 & B3 & L3). split_and!; [by rewrite R3, set_at_ne| |by rewrite L3].
    intros x Hx. rewrite R3, B3, set_at_ne; [done|]. intros [= ->].
    apply (G d); [apply elem_of_app; right; by left|done].
  - intros x q' F Hx Hx'. apply elem_of_app in Hx as [Hx| ->%list_elem_of_singleton].
    + by apply F, (D q' write x).
    + by apply (Nd q').
  - apply apart_insert; [done|done|].
    intros x [Hx| ->%list_elem_of_singleton]%elem_of_app; [|auto].
    split; [by apply (K write)|]. intros q' F' X. by apply F', (D q' write x).
Qed.

(** The first part of [free_all_read_locks] puts the waiting readers behind the
    running ones. *)
Lemma splice_sim ids s a d todo :
  Rep ids s a -> qs a read_wait = d :: todo ->
  exists s',
    (x ← get_list read; set_link (last x) (Some d);;
     x ← get_list read; set_prev d (last x);;
     w ← get_list read_wait; set_last read (last w);;
     set_last read_wait (Head_of read_wait)) s = Some (tt, s') /\
    freeing ids (inf a) s' (qs a read) [] (d :: todo) (inf a) (arest a) /\
    undisturbed s s' (qs a read ++ d :: todo).
Proof.
  intros H E. pose proof H as (B & L & A & _). pose proof A as (N & D & K).
  assert (Dm : dom (datas s) = ids) by apply B.
  pose proof (L read) as ((Sr & Lr) & Tr). pose proof (L read_wait) as ((Sw & Lw) & Tw).
  rewrite E in Sw, Lw, Tw. destruct Sw as (_ & _ & Sw). simpl in Lw, Tw.
  assert (Nr : NoDup (qs a read ++ d :: todo)).
  { apply list.NoDup_app. rewrite <- E. split_and!; auto. intros x Hx Hx'.
    discriminate (D read read_wait x Hx Hx'). }
  assert (Dr : forall x, x ∈ qs a read ++ d :: todo -> x ∈ ids).
  { intros x [Hx|Hx]%elem_of_app; [by apply (K read)|]. rewrite <- E in Hx. by apply (K read_wait). }
  assert (Dd : d ∈ dom (datas s)) by (rewrite Dm; apply Dr, elem_of_app; right; by left).
  rewrite (bind_ok _ _ _ _ _ (get_list_ok s read)). fold (lst s read).
  destruct (set_link_ok s (lst s read) (Some d)) as (s1 & E1 & F1).
  { apply (opened_valid _ _ (qs a read)); [by split|]. intros x Hx. rewrite Dm. by apply (K read). }
  rewrite (bind_ok _ _ _ _ _ E1), (bind_ok _ _ _ _ _ (get_list_ok s1 read)). fold (lst s1 read).
  assert (lst s1 read = lst s read) as -> by apply F1.
  destruct (set_prev_ok s1 d (lst s read)) as (s2 & E2 & F2); [by rewrite (effect_dom _ _ _ _ _ F1)|].
  rewrite (bind_ok _ _ _ _ _ E2), (bind_ok _ _ _ _ _ (get_list_ok s2 read_wait)). fold (lst s2 read_wait).
  pose proof (effect_prev _ _ _ _ _ _ _ _ F1 F2) as F12.
  assert (lst s2 read_wait = lst s read_wait) as -> by apply F12.
  destruct (set_last_ok s2 read (lst s read_wait)) as (s3 & E3 & F3). rewrite (bind_ok _ _ _ _ _ E3).
  destruct (set_last_ok s3 read_wait (Head_of read_wait)) as (s4 & E4 & F4).
  pose proof (effect_last _ _ _ _ _ _ _ _ (effect_last _ _ _ _ _ _ _ _ F12 F3) F4) as (S & R & P & La).
  exists s4. split; [done|]. rewrite Lr in R, P.
  apply list.NoDup_app in Nr as (N1 & N2 & N3). pose proof N3 as (N4 & N5)%list.NoDup_cons.
  assert (O : outside (endl (Head_of read) (qs a read)) (d :: todo)) by (apply endl_outside; [apply head_outside|done]).
  assert (R' : forall x, x ∈ d :: todo -> rdl s4 (Next_of x) = rdl s (Next_of x)).
  { intros x Hx. rewrite R, set_at_ne; [done|]. intros X. by apply (O x). }
  split; [split_and!|].
  - by eapply same_base.
  - split; [split|].
    + apply queue_seg_app. split.
      * apply (seg_upd_end s); auto using head_outside.
        -- intros p' F. by rewrite R, set_at_ne.
        -- intros x Hx. rewrite P, set_at_ne; [done|]. intros ->. apply (N2 d Hx). by left.
      * cbn [seg]. rewrite R, P, !set_at_eq. split_and!; auto.
        apply (queue_seg_ext s); [apply R'; by left| |done]. intros x Hx. split; [apply R'; by right|].
        rewrite P, set_at_ne; [done|by intros ->].
    + rewrite La, set_at_ne, set_at_eq, Lw, endl_app2 by done. done.
    + rewrite endl_app2. simpl. rewrite <- Tw.
      destruct (endl_in (Next_of d) todo) as [[_ ->]|(y & Iy & ->)]; apply R'; [by left|by right].
  - split; [done|]. by rewrite La, set_at_eq.
  - simpl. by apply list.NoDup_app.
  - done.
  - done.
  - intros q l' Q1 Q2 X. split_and!.
    + rewrite R, set_at_ne; [done|].
      destruct (endl_in (Head_of read) (qs a read)) as [[_ ->]|(y & Iy & ->)]; congruence.
    + intros x Hx. rewrite R, P, !set_at_ne; [done| |].
      * intros ->. apply (X d); [apply elem_of_app; right; by left|done].
      * intros F. destruct (endl_in (Head_of read) (qs a read)) as [[_ Y]|(y & Iy & Y)]; [congruence|].
        apply (X x); [|done]. apply elem_of_app. left. congruence.
    + by rewrite La, !set_at_ne.
Qed.

Definition splice d : M unit :=
  x ← get_list read; set_link (last x) (Some d);;
  x ← get_list read; set_prev d (last x);;
  w ← get_list read_wait; set_last read (last w);;
  set_last read_wait (Head_of read_wait).

Lemma splice_seq {A} d (k : M A) s :
  (x ← get_list read; set_link (last x) (Some d);;
   x ← get_list read; set_prev d (last x);;
   w ← get_list read_wait; set_last read (last w);;
   set_last read_wait (Head_of read_wait);; k) s = (splice d;; k) s.
Proof.
  unfold splice, mbind, M_bind. unfold get_list. cbn [mbind option_bind].
  destruct (set_link (last (lists s read)) (Some d) s) as [[[] s1]|]; [|done]. cbn [mbind option_bind].
  by destruct (set_prev d (last (lists s1 read)) s1) as [[[] s2]|].
Qed.

Lemma links_enough ids s h r l :
  Base ids s h r -> NoDup l -> (forall d, d ∈ l -> d ∈ ids) -> (length l < links s)%nat.
Proof.
  intros (D & _) N S. unfold links. rewrite <- size_dom, D.
  pose proof (queue_length ids l N S). lia.
Qed.

Lemma undisturbed_linked ids s s' a l q :
  Rep ids s a -> undisturbed s s' l -> (forall x, x ∈ l -> x ∉ qs a q) -> q <> read -> q <> read_wait ->
  linked s' q (qs a q).
Proof. intros (_ & L & _) U D Q1 Q2. eapply queue_linked_ext; [|apply L]. by apply U. Qed.

(** The end of [free_all_read_locks], when the loop is through. *)
Lemma free_end ids s h0 done keep h r :
  freeing ids h0 s done keep [] h r ->
  exists s',
    (w ← get_list read_wait; set_link (last w) None;;
     w ← get_list read_wait;
     match data w with
     | None => r ← get_rest; set_rest (set_write_lock_count 0 r)
     | Some _ => ret tt
     end) s = Some (tt, s') /\
    Base ids s' h (if bool_decide (keep = []) then set_write_lock_count 0 r else r) /\
    linked s' read done /\ linked s' read_wait keep /\ undisturbed s s' (keep ++ done).
Proof.
  intros (B & L & O & N & D & _). rewrite app_nil_r in L, N, D.
  assert (Dm : dom (datas s) = ids) by apply B. pose proof O as (Sg & La).
  apply list.NoDup_app in N as (N1 & N2 & N3).
  rewrite (bind_ok _ _ _ _ _ (get_list_ok s read_wait)). fold (lst s read_wait).
  destruct (set_link_ok s (lst s read_wait) None) as (s1 & E1 & S1 & R1 & P1 & L1).
  { apply (opened_valid _ _ keep); [done|]. intros x Hx. rewrite Dm. apply D, elem_of_app. by left. }
  rewrite (bind_ok _ _ _ _ _ E1), (bind_ok _ _ _ _ _ (get_list_ok s1 read_wait)). rewrite La in R1.
  assert (K1 : linked s1 read_wait keep).
  { split; [split|].
    - apply (seg_upd_end s); auto using head_outside. intros p F. by rewrite R1, set_at_ne.
    - by rewrite L1.
    - by rewrite R1, set_at_eq. }
  assert (U : forall q l, q <> read_wait -> (forall x, x ∈ keep -> x ∉ l) -> untouched s s1 q l).
  { intros q l Q X. assert (Y : endl (Head_of read_wait) keep <> Head_of q /\
      forall x, x ∈ l -> Next_of x <> endl (Head_of read_wait) keep).
    { destruct (endl_in (Head_of read_wait) keep) as [[_ ->]|(y & Iy & ->)]; split; try congruence.
      intros x Hx [= ->]. by apply (X y). }
    destruct Y as (Y1 & Y2).
    split_and!; [by rewrite R1, set_at_ne| |by rewrite L1].
    intros x Hx. rewrite R1, P1, set_at_ne; auto. }
  assert (H : data (lists s1 read_wait) = head keep).
  { destruct K1 as ((A1 & _) & A2). pose proof (seg_head _ _ _ A1 A2) as X. simpl in X. congruence. }
  rewrite H. assert (B1 : Base ids s1 h r) by (by eapply same_base).
  assert (Lr : linked s1 read done) by (eapply queue_linked_ext; [|exact L]; by apply U).
  destruct keep as [|k keep]; cbn [list.head].
  - assert (G : get_rest s1 = Some (r, s1)) by (destruct B1 as (_ & _ & X); unfold get_rest; by rewrite X).
    rewrite (bind_ok _ _ _ _ _ G).
    destruct (set_rest_ok _ _ _ _ (set_write_lock_count 0 r) B1) as (s2 & E2 & S2 & B2).
    exists s2. split_and!; auto.
    + by eapply linked_shape.
    + by eapply linked_shape.
    + intros q l Q1 Q2 X. eapply untouched_trans; [apply U; auto|by apply shape_untouched].
      by intros x []%elem_of_nil.
  - exists s1. split_and!; auto. intros q l Q1 Q2 X. apply U; [done|]. intros x Hx. apply X, elem_of_app. by left.
Qed.

Lemma free_sim ids s a b a' :
  Rep ids s a -> afree_reads b a = Some a' ->
  exists s', free_all_read_locks (links s) b s = Some (tt, s') /\ Rep ids s' a'.
Proof.
  intros H F. pose proof H as (B & L & A & _). pose proof A as (N & D & K).
  unfold afree_reads in F. destruct (free_rest _ _ _) as [r'|] eqn:Fr; [|done]. cbn [mbind option_bind] in F.
  destruct (qs a read_wait) as [|d todo] eqn:E; [done|].
  rewrite bool_decide_false in F by done. injection F as <-.
  unfold free_all_read_locks. rewrite (bind_ok _ _ _ _ _ (get_list_ok s read_wait)).
  assert (data (lists s read_wait) = Some d) as ->.
  { pose proof (L read_wait) as ((X & _) & _). rewrite E in X. destruct X as (X & _). by injection X. }
  rewrite splice_seq. destruct (splice_sim ids s a d todo H E) as (s1 & E1 & F1 & U1).
  rewrite (bind_ok _ _ _ _ _ E1).
  destruct (free_loop_ok ids b (inf a) todo (links s) s1 d (qs a read) [] (inf a) (arest a) r' F1 Fr)
    as (s2 & h2 & E2 & U2 & F2 & C2).
  { pose proof (links_enough ids s (inf a) (arest a) (d :: todo)) as X. simpl in X.
    enough (S (length todo) < links s)%nat by lia. apply X; [done|rewrite <- E; apply N|].
    intros x Hx. apply (K read_wait). by rewrite E. }
  rewrite (bind_ok _ _ _ _ _ E2).
  destruct (free_end ids s2 (inf a) _ _ _ _ F2) as (s3 & E3 & B3 & Lr & Lw & U3).
  exists s3. split; [done|]. cbn [app] in *.
  assert (Al : forall q, q <> read -> q <> read_wait -> linked s3 q (qs a q)).
  { intros q Q1 Q2. eapply undisturbed_linked with (l := qs a read ++ d :: todo); [done| | |done|done].
    - intros q' l' Q1' Q2' X. eapply untouched_trans; [by apply U1|].
      eapply untouched_trans; [by apply U2|]. apply U3; auto. intros x Hx. apply X.
      rewrite !elem_of_app in *. unfold going, staying in Hx. rewrite !list_elem_of_filter in Hx. tauto.
    - intros x [Hx|Hx]%elem_of_app Hx'; [by apply Q1, (D q read x)|]. rewrite <- E in Hx.
      by apply Q2, (D q read_wait x). }
  destruct F2 as (_ & _ & _ & N2 & K2 & _). rewrite app_nil_r in *.
  apply list.NoDup_app in N2 as (N3 & N4 & N5).
  split_and!; [by eapply base_ext| | |done].
  - intros q. cbn [qs]. destruct (decide (q = read)) as [->|Q1]; [by rewrite fn_lookup_insert|].
    rewrite fn_lookup_insert_ne by done.
    destruct (decide (q = read_wait)) as [->|Q2]; [by rewrite fn_lookup_insert|].
    rewrite fn_lookup_insert_ne by done. auto.
  - cbn [qs]. unfold going, staying in *. apply apart_insert; [apply apart_insert; [done|done|]|done|].
    + intros x (_ & Hx)%list_elem_of_filter. rewrite <- E in Hx. split; [by apply (K read_wait)|].
      intros q' Q Hx'. by apply Q, (D q' read_wait x).
    + intros x Hx. split; [apply K2, elem_of_app; by right|]. intros q' Q.
      destruct (decide (q' = read_wait)) as [->|Q2].
      * rewrite fn_lookup_insert. intros Hx'. by apply (N4 x).
      * rewrite fn_lookup_insert_ne by done. intros Hx'. apply elem_of_app in Hx as [Hx|Hx].
        -- by apply Q, (D q' read x).
        -- apply list_elem_of_filter in Hx as (_ & Hx). rewrite <- E in Hx. by apply Q2, (D q' read_wait x).
Qed.

(** *** Aborting *)

Definition abort_info (i : lock_info) : lock_info := with_cond None (with_type TL_UNLOCK i).

(** One waiting instance is aborted. *)
Lemma abort_one {A} ids s h r d c (k : M A) :
  Base ids s h r -> d ∈ ids -> cond (h d) = Some c ->
  exists s' h',
    (set_type d TL_UNLOCK;; signal (Some c);; set_cond d None;; k) s = k s' /\
    (set_type d TL_UNLOCK;; x ← get_data d; signal (cond (info x));; set_cond d None;; k) s = k s' /\
    shape s s' /\ Base ids s' h' (emit (Signalled c) r) /\
    forall x, h' x = (<[d := abort_info (h d)]> h : Z -> lock_info) x.
Proof.
  intros B K C. destruct (set_type_ok _ _ _ _ d TL_UNLOCK B K) as (s1 & E1 & S1 & B1).
  rewrite !(bind_ok _ _ _ _ _ E1).
  destruct (get_base _ _ _ _ _ B1 K) as (x & Ex & Ix & _). rewrite (bind_ok _ _ _ _ _ Ex).
  rewrite Ix, fn_lookup_insert. cbn [cond with_type]. rewrite C.
  destruct (signal_ok _ _ _ _ c B1) as (s2 & E2 & S2 & B2). rewrite !(bind_ok _ _ _ _ _ E2).
  destruct (set_cond_ok _ _ _ _ d None B2 K) as (s3 & E3 & S3 & B3). rewrite !(bind_ok _ _ _ _ _ E3).
  eexists s3, _. split_and!; [done|done| |exact B3|].
  - eapply links_trans; [exact S1|]. by eapply links_trans.
  - intros y. destruct (decide (y = d)) as [->|F].
    + by rewrite !fn_lookup_insert.
    + by rewrite !fn_lookup_insert_ne.
Qed.

Lemma change_ext l f h h' x : (forall y, h y = h' y) -> change l f h x = change l f h' x.
Proof. intros E. unfold change. by rewrite E. Qed.

Lemma abort_loop_ok ids h0 l : forall fuel s p h r r',
  Base ids s h r -> seg s p l -> rdl s (endl p l) = Some None -> NoDup l ->
  (forall d, d ∈ l -> d ∈ ids /\ h d = h0 d) -> signal_rest h0 l r = Some r' -> (length l <= fuel)%nat ->
  exists s' h', abort_loop fuel (head l) s = Some (tt, s') /\ shape s s' /\ Base ids s' h' r' /\
    forall x, h' x = change l abort_info h x.
Proof.
  induction l as [|d l IH]; intros fuel s p h r r' B Sg T N H R F.
  - injection R as <-. exists s, h. by destruct fuel.
  - destruct fuel as [|fuel]; simpl in F; [lia|]. cbn [abort_loop list.head].
    apply list.NoDup_cons in N as (N1 & N2). destruct (H d ltac:(by left)) as (K & Hd).
    cbn [signal_rest] in R. rewrite <- Hd in R. destruct (cond (h d)) as [c|] eqn:C; [|done].
    cbn [mbind option_bind] in R.
    destruct (abort_one ids s h r d c (x ← get_data d; abort_loop fuel (next x)) B K C)
      as (s1 & h1 & _ & E & S1 & B1 & H1).
    rewrite E. destruct (get_base _ _ _ _ _ B1 K) as (x & Ex & Ix & Nx). rewrite (bind_ok _ _ _ _ _ Ex).
    destruct Sg as (_ & _ & Sg). cbn [endl] in T.
    assert (Sg1 : seg s1 (Next_of d) l).
    { destruct S1 as (A1 & A2 & A3). apply (queue_seg_ext s); auto. }
    assert (T1 : rdl s1 (endl (Next_of d) l) = Some None) by (destruct S1 as (-> & _); done).
    assert (next x = head l) as ->.
    { pose proof (seg_head _ _ _ Sg1 T1) as X. congruence. }
    destruct (IH fuel s1 (Next_of d) h1 _ r' B1 Sg1 T1 N2) as (s' & h' & E' & S' & B' & H'); [|done|lia|].
    { intros y Hy. rewrite H1, fn_lookup_insert_ne; [apply H; by right|]. by intros <-. }
    exists s', h'. split_and!; auto; [by eapply links_trans|].
    intros y. rewrite H', (change_ext _ _ _ _ _ H1). by apply change_cons.
Qed.

Lemma signal_rest_app h l l' r :
  signal_rest h (l ++ l') r = signal_rest h l r ≫= signal_rest h l'.
Proof.
  revert r. induction l as [|d l IH]; intros r; [done|]. cbn. destruct (cond (h d)); [|done]. apply IH.
Qed.

Lemma change_app l l' f h x :
  (forall d, d ∈ l -> d ∉ l') -> change l' f (change l f h) x = change (l ++ l') f h x.
Proof.
  intros D. unfold change. destruct (decide (x ∈ l)) as [I|I].
  - rewrite (bool_decide_true (x ∈ l)), (bool_decide_false (x ∈ l')), (bool_decide_true (x ∈ l ++ l'));
      [done|apply elem_of_app; by left|by apply D|done].
  - rewrite (bool_decide_false (x ∈ l)) by done.
    rewrite (bool_decide_ext (x ∈ l ++ l') (x ∈ l')); [done|]. rewrite elem_of_app. tauto.
Qed.

Lemma abort_all_sim ids s a a' :
  Rep ids s a -> aabort (qs a read_wait ++ qs a write_wait) a = Some a' ->
  exists s', abort_all (links s) s = Some (tt, s') /\ Rep ids s' a'.
Proof.
  intros H F. pose proof H as (B & L & A & _). pose proof A as (N & D & K).
  unfold aabort in F. rewrite signal_rest_app in F.
  destruct (signal_rest _ (qs a read_wait) _) as [r1|] eqn:R1; [|done]. cbn [mbind option_bind] in F.
  destruct (signal_rest _ (qs a write_wait) _) as [r2|] eqn:R2; [|done]. cbn [mbind option_bind] in F.
  injection F as <-. unfold abort_all.
  assert (Hd : forall s q, linked s q (qs a q) -> data (lists s q) = head (qs a q)).
  { intros s0 q ((X & _) & Y). pose proof (seg_head _ _ _ X Y) as Z. simpl in Z. congruence. }
  assert (Len : forall q, (length (qs a q) <= links s)%nat).
  { intros q. pose proof (links_enough ids s (inf a) (arest a) (qs a q) B (N q) (K q)). lia. }
  rewrite (bind_ok _ _ _ _ _ (get_list_ok s read_wait)), (Hd s read_wait) by done.
  pose proof (L read_wait) as ((S1 & _) & T1).
  destruct (abort_loop_ok ids (inf a) (qs a read_wait) (links s) s _ (inf a) (arest a) r1 B S1 T1 (N _))
    as (s1 & h1 & E1 & Sh1 & B1 & H1); [naive_solver|done|done|].
  rewrite (bind_ok _ _ _ _ _ E1), (bind_ok _ _ _ _ _ (get_list_ok s1 write_wait)).
  assert (L1 : forall q, linked s1 q (qs a q)) by (intros q; by eapply linked_shape).
  rewrite (Hd s1 write_wait) by done.
  pose proof (L1 write_wait) as ((S2 & _) & T2).
  destruct (abort_loop_ok ids (inf a) (qs a write_wait) (links s) s1 _ h1 r1 r2 B1 S2 T2 (N _))
    as (s2 & h2 & E2 & Sh2 & B2 & H2); [|done|done|].
  { intros d Hd'. split; [by apply (K write_wait)|]. rewrite H1. unfold change.
    rewrite bool_decide_false; [done|]. intros X. discriminate (D read_wait write_wait d X Hd'). }
  rewrite (bind_ok _ _ _ _ _ E2).
  assert (L2 : forall q, linked s2 q (qs a q)) by (intros q; by eapply linked_shape).
  destruct (set_last_ok s2 read_wait (Head_of read_wait)) as (s3 & E3 & F3). rewrite (bind_ok _ _ _ _ _ E3).
  destruct (set_last_ok s3 write_wait (Head_of write_wait)) as (s4 & E4 & F4). rewrite (bind_ok _ _ _ _ _ E4).
  destruct (set_head_ok s4 write_wait None) as (s5 & E5 & F5). rewrite (bind_ok _ _ _ _ _ E5).
  destruct (set_head_ok s5 read_wait None) as (s6 & E6 & F6).
  pose proof (effect_link _ _ _ _ _ _ _ _ (effect_link _ _ _ _ _ _ _ _
    (effect_last _ _ _ _ _ _ _ _ F3 F4) F5) F6) as (S & R & P & La).
  exists s6. split; [done|].
  assert (Q : forall q, filter (fun d => d ∉ qs a read_wait ++ qs a write_wait) (qs a q) =
                        match q with read_wait | write_wait => [] | _ => qs a q end).
  { intros q. destruct q; [apply filter_none| apply filter_all|apply filter_none|apply filter_all];
      intros x Hx; rewrite elem_of_app.
    - naive_solver.
    - intros [X|X]; discriminate (D _ _ x Hx X).
    - naive_solver.
    - intros [X|X]; discriminate (D _ _ x Hx X). }
  split_and!; [| |split_and!|done].
  - eapply same_base; [exact S|]. eapply base_ext; [|exact B2]. intros x.
    rewrite H2, (change_ext _ _ _ _ _ H1). apply change_app. intros y Y1 Y2. discriminate (D _ _ y Y1 Y2).
  - intros q. cbn [qs]. rewrite Q. destruct q.
    2, 4: (eapply queue_linked_ext; [|apply L2]; split_and!;
           [by rewrite R, !set_at_ne|intros x Hx; by rewrite R, P, !set_at_ne|by rewrite La, !set_at_ne]).
    + split; [split; [done|by rewrite La, set_at_ne, set_at_eq]|]. cbn [endl]. by rewrite R, set_at_eq.
    + split; [split; [done|by rewrite La, set_at_eq]|]. cbn [endl]. by rewrite R, set_at_ne, set_at_eq.
  - intros q. cbn [qs]. apply list.NoDup_filter, N.
  - intros q q' x. cbn [qs]. rewrite !list_elem_of_filter. intros (_ & X) (_ & Y). by apply (D q q' x).
  - intros q x. cbn [qs]. rewrite list_elem_of_filter. intros (_ & X). by apply (K q).
Qed.

Section Abort_some.
Context (ids : gset Z) (q : queue) (f : lock_info -> bool) (h0 : Z -> lock_info).

Definition hit (l : list Z) : list Z := filter (fun d => f (h0 d) = true) l.
Definition miss (l : list Z) : list Z := filter (fun d => f (h0 d) <> true) l.

Lemma abort_some_ok todo : forall fuel s done h r r' found,
  Base ids s h r -> linked s q (done ++ todo) -> NoDup (done ++ todo) ->
  (forall d, d ∈ done ++ todo -> d ∈ ids) -> (forall d, d ∈ todo -> h d = h0 d) ->
  signal_rest h0 (hit todo) r = Some r' -> (length todo <= fuel)%nat ->
  exists s' h', abort_some_loop fuel q f (head todo) found s =
      Some (found || bool_decide (hit todo ≠ []), s') /\
    Base ids s' h' r' /\ linked s' q (done ++ miss todo) /\ others s s' q (done ++ todo) /\
    forall x, h' x = change (hit todo) abort_info h x.
Proof.
  induction todo as [|d todo IH]; intros fuel s done h r r' found B L N D H R F.
  - injection R as <-. exists s, h. rewrite app_nil_r in *. split_and!; auto.
    + destruct fuel; by rewrite bool_decide_false, orb_false_r by (by intros []).
    + intros q' l' _ _. by split_and!.
  - destruct fuel as [|fuel]; simpl in F; [lia|]. cbn [abort_some_loop list.head].
    assert (K : d ∈ ids) by (apply D, elem_of_app; right; by left).
    destruct (get_base _ _ _ _ _ B K) as (x & Ex & Ix & Nx).
    rewrite (bind_ok _ _ _ _ _ Ex), Ix, (H d) by (by left).
    assert (Nd : d ∉ hit todo).
    { intros X%list_elem_of_filter. rewrite list.NoDup_app, list.NoDup_cons in N. tauto. }
    unfold hit, miss in *. destruct (f (h0 d)) eqn:Fd.
    + rewrite !filter_cons_True in * by done. rewrite filter_cons_False by congruence.
      cbn [signal_rest] in R. destruct (cond (h0 d)) as [c|] eqn:C; [|done]. cbn [mbind option_bind] in R.
      rewrite <- (H d) in C by (by left).
      destruct (abort_one ids s h r d c (unlink q d;; x ← get_data d; abort_some_loop fuel q f (next x) true) B K C)
        as (s1 & h1 & E & _ & S1 & B1 & H1).
      rewrite E. assert (L1 : linked s1 q (done ++ d :: todo)) by (by eapply linked_shape).
      destruct (unlink_linked s1 q done d todo) as (s2 & E2 & S2 & L2 & R2 & O2); [done|done|..].
      { intros y Hy. destruct B1 as (-> & _). by apply D. }
      rewrite (bind_ok _ _ _ _ _ E2).
      assert (B2 : Base ids s2 h1 (emit (Signalled c) r)) by (by eapply same_base).
      destruct (get_base _ _ _ _ _ B2 K) as (y & Ey & Iy & Ny). rewrite (bind_ok _ _ _ _ _ Ey).
      assert (next y = head todo) as -> by congruence.
      destruct (IH fuel s2 done h1 _ r' true B2 L2) as (s' & h' & E' & B' & L' & O' & H'); auto.
      { rewrite list.NoDup_app, list.NoDup_cons in *. destruct N as (N1 & N2 & N3 & N4).
        split_and!; auto. intros z Z1 Z2. apply (N2 z Z1). by right. }
      { intros z Hz. apply D. rewrite elem_of_app, elem_of_cons in *. tauto. }
      { intros z Hz. rewrite H1, fn_lookup_insert_ne; [apply H; by right|]. intros <-.
        rewrite list.NoDup_app, list.NoDup_cons in N. tauto. }
      { lia. }
      exists s', h'. rewrite E'. split_and!; auto.
      * rewrite (bool_decide_true (_ :: _ ≠ [])) by done. by rewrite orb_true_r.
      * intros q' l' Q X. eapply untouched_trans; [by apply shape_untouched|].
        eapply untouched_trans; [by apply O2|]. apply O'; [done|]. intros z Hz. apply X.
        rewrite elem_of_app, elem_of_cons in *. tauto.
      * intros z. rewrite H', (change_ext _ _ _ _ _ H1). by apply change_cons.
    + rewrite !filter_cons_False in * by congruence. rewrite filter_cons_True by congruence.
      assert (next x = head todo) as ->.
      { pose proof (next_in_queue _ _ _ _ _ L). congruence. }
      destruct (IH fuel s (done ++ [d]) h r r' found B) as (s' & h' & E' & B' & L' & O' & H');
        rewrite <- ?app_assoc; auto.
      { intros z Hz. apply H. by right. } { lia. }
      rewrite <- app_assoc in L', O'. exists s', h'. auto.
Qed.
End Abort_some.

Lemma abort_some_sim ids s a a' q f :
  Rep ids s a -> aabort (hit f (inf a) (qs a q)) a = Some a' ->
  exists s', (x ← get_list q; abort_some_loop (links s) q f (data x) false) s =
      Some (bool_decide (hit f (inf a) (qs a q) ≠ []), s') /\ Rep ids s' a'.
Proof.
  intros H F. pose proof H as (B & L & A & _). pose proof A as (N & D & K).
  unfold aabort in F. destruct (signal_rest _ _ _) as [r'|] eqn:R; [|done]. cbn [mbind option_bind] in F.
  injection F as <-. rewrite (bind_ok _ _ _ _ _ (get_list_ok s q)).
  assert (data (lists s q) = head (qs a q)) as ->.
  { destruct (L q) as ((X & _) & Y). pose proof (seg_head _ _ _ X Y) as Z. simpl in Z. congruence. }
  destruct (abort_some_ok ids q f (inf a) (qs a q) (links s) s [] (inf a) (arest a) r' false)
    as (s' & h' & E & B' & L' & O & H'); auto.
  { apply N. } { apply K. }
  { pose proof (links_enough ids s (inf a) (arest a) (qs a q) B (N q) (K q)). lia. }
  exists s'. rewrite E. split; [done|]. cbn [app] in *.
  assert (Q : forall q', filter (fun d => d ∉ hit f (inf a) (qs a q)) (qs a q') =
                         if decide (q' = q) then miss f (inf a) (qs a q) else qs a q').
  { intros q'. destruct (decide (q' = q)) as [->|X].
    - unfold miss, hit. apply list_filter_iff'. intros x Hx. rewrite list_elem_of_filter. tauto.
    - apply filter_all. intros x Hx (_ & Hx')%list_elem_of_filter. by apply X, (D q' q x). }
  split_and!; [by eapply base_ext| |split_and!|done].
  - intros q'. cbn [qs]. rewrite Q. destruct (decide (q' = q)) as [->|X]; [done|].
    eapply queue_linked_ext; [|apply L]. apply O; [done|]. intros x Hx Hx'. by apply X, (D q' q x).
  - intros q'. cbn [qs]. apply list.NoDup_filter, N.
  - intros q1 q2 x. cbn [qs]. rewrite !list_elem_of_filter. intros (_ & X) (_ & Y). by apply (D q1 q2 x).
  - intros q' x. cbn [qs]. rewrite list_elem_of_filter. intros (_ & X). by apply (K q').
Qed.

(** ** Simulation *)

Lemma rep_shape ids s s' a h r :
  Rep ids s a -> shape s s' -> Base ids s' h r -> Rep ids s' (mk_a (qs a) h (fresh a) r).
Proof.
  intros (B & L & A & F) S B'. split_and!; [done| |done|].
  - intros q. by eapply linked_shape.
  - intros d X. destruct (F d X) as (R & Y). destruct S as (-> & _). auto.
Qed.

Lemma init_sim ids s a d o t :
  Rep ids s a -> d ∈ ids -> (forall q, d ∉ qs a q) ->
  exists s',
    (set_next d None;; x ← get_data d; set_info d (mk_info o None t (status_param (info x)))) s
      = Some (tt, s') /\
    Rep ids s' (mk_a (qs a) (<[d := mk_info o None t (status_param (inf a d))]> (inf a)) (Some d) (arest a)).
Proof.
  intros (B & L & A & _) K Q. assert (Dm : dom (datas s) = ids) by apply B.
  destruct (set_next_ok s d None) as (s1 & E1 & S1 & R1 & P1 & L1); [by rewrite Dm|].
  rewrite (bind_ok _ _ _ _ _ E1). assert (B1 : Base ids s1 (inf a) (arest a)) by (by eapply same_base).
  destruct (get_base _ _ _ _ _ B1 K) as (x & Ex & Ix & _). rewrite (bind_ok _ _ _ _ _ Ex), Ix.
  destruct (set_info_ok _ _ _ _ d (mk_info o None t (status_param (inf a d))) B1 K) as (s2 & E2 & S2 & B2).
  exists s2. split; [done|]. split_and!; [done| |done|].
  - intros q. eapply linked_shape; [done|]. eapply queue_linked_ext; [|apply L].
    split_and!; [by rewrite R1, set_at_ne| |by rewrite L1].
    intros y Hy. rewrite R1, P1, set_at_ne; [done|]. intros [= ->]. by apply (Q q).
  - intros d' [= <-]. split_and!; auto. destruct S2 as (-> & _). by rewrite R1, set_at_eq.
Qed.

Theorem sim_op ids chk {X} (o : op X) s a x a' :
  Rep ids s a -> arun_op ids chk o a = Some (x, a') ->
  exists s', run_op chk o s = Some (x, s') /\ Rep ids s' a'.
Proof.
  intros H E. pose proof H as (B & L & A & Fr).
  assert (Hd : forall q, data (lists s q) = head (qs a q)).
  { intros q. destruct (L q) as ((Y & _) & Z). pose proof (seg_head _ _ _ Y Z) as W. simpl in W. congruence. }
  destruct o; cbn [arun_op run_op] in *; unfold known in E;
    repeat match type of E with
    | (if bool_decide ?P then _ else _) = _ => destruct (bool_decide_reflect P); [|done]
    | (if bool_decide ?P && negb ?b then _ else _) = _ =>
        destruct (bool_decide_reflect P); [|done]; destruct b eqn:?; [done|]; cbn [andb negb] in E
    end; try (injection E as <- <-).
  - exists s. rewrite (bind_ok _ _ _ _ _ (get_list_ok s q)). unfold ret. by rewrite Hd.
  - destruct (get_base _ _ _ _ d B) as (x' & Ex & Ix & _); [done|].
    exists s. rewrite (bind_ok _ _ _ _ _ Ex). unfold ret. by rewrite Ix.
  - apply init_sim; auto. by apply in_queue_spec.
  - destruct (set_type_ok _ _ _ _ d t B) as (s' & Es & S & B'); [done|].
    exists s'. split; [done|]. by apply (rep_shape ids s).
  - destruct (set_cond_ok _ _ _ _ d c B) as (s' & Es & S & B'); [done|].
    exists s'. split; [done|]. by apply (rep_shape ids s).
  - by apply enqueue_sim.
  - destruct (unlink_sim ids s a q d) as (s' & Es & S & _); eauto.
  - apply push_sim; auto. by apply in_queue_spec.
  - by apply start_write_sim.
  - exists s. split; [|done]. rewrite (bind_ok _ _ _ _ _ (get_list_ok s q)), Hd.
    destruct (L q) as ((Y & _) & Z). destruct A as (N & D & K).
    eapply have_loop_ok; eauto.
    pose proof (links_enough ids s (inf a) (arest a) (qs a q) B (N q) (K q)). lia.
  - destruct (afree_reads _ a) as [a1|] eqn:F; [|done]. cbn [mbind option_bind] in E.
    injection E as <- <-. by apply (free_sim _ _ a).
  - destruct (aabort _ a) as [a1|] eqn:F; [|done]. cbn [mbind option_bind] in E.
    injection E as <- <-. by apply (abort_all_sim _ _ a).
  - destruct (aabort _ a) as [a1|] eqn:F; [|done]. cbn [mbind option_bind] in E.
    injection E as <- <-. by apply (abort_some_sim _ _ a).
  - exists s. split; [|done]. unfold get_rest. destruct B as (_ & _ & ->). done.
  - destruct (set_rest_ok _ _ _ _ r B) as (s' & Es & S & B').
    exists s'. split; [done|]. by apply (rep_shape ids s).
  - destruct c as [c|]; [|done]. injection E as <- <-.
    destruct (signal_ok _ _ _ _ c B) as (s' & Es & S & B').
    exists s'. split; [done|]. by apply (rep_shape ids s).
  - exists s. destruct B as (_ & _ & R). unfold mbind, M_bind, get_rest. cbn. rewrite R.
    destruct (check_status (arest a)); [|done]. injection E as <- <-. split; [done|]. apply H.
Qed.

Theorem sim_run ids chk {X} (p : prog X) : forall s a x a',
  Rep ids s a -> arun ids chk p a = Some (x, a') ->
  exists s', run chk p s = Some (x, s') /\ Rep ids s' a'.
Proof.
  induction p as [x0|Y o k IH]; intros s a x a' H E; cbn [arun run] in *.
  - injection E as <- <-. by exists s.
  - destruct (arun_op ids chk o a) as [[y a1]|] eqn:E1; [|done]. cbn [mbind option_bind] in E.
    destruct (sim_op _ _ _ _ _ _ _ H E1) as (s1 & F1 & H1).
    rewrite (bind_ok _ _ _ _ _ F1). eauto.
Qed.

End ThrSim.
