(* ===== verification/ThrInv.v ===== *)
(** * ThrInv: the invariant of a table lock

    [Core] says what the queues hold: waiting instances have a condition
    variable and running ones have none, [read_no_write_count] counts the
    running [TL_READ_NO_INSERT] locks, and running locks of different owners
    are compatible ([excl]).  [progress] says that nobody waits for a lock that
    nobody holds.  The lemmas show what the primitives do to them. *)
From stdpp Require Import base tactics option list numbers gmap functions.
From Stdlib Require Import ZArith Lia.
From S2P Require Import Prelude ThrLock ThrSpec ThrSim.

Module ThrInv.
Import ThrLock ThrSpec ThrSim.

Implicit Types (a : alock) (d : Z) (q : queue) (i w v : lock_info) (t : thr_lock_type) (r : lock_rest)
  (L : queue -> list Z) (h : Z -> lock_info).

(** ** Weakest preconditions of programs on lists *)

Section Wp.
Context (ids : gset Z) (chk : Z -> bool).

Fixpoint wp {A} (p : prog A) (Q : A -> alock -> Prop) a : Prop :=
  match p with
  | Ret x => Q x a
  | Do o k => match arun_op ids chk o a with Some (x, a1) => wp (k x) Q a1 | None => False end
  end.

Lemma wp_run {A} (p : prog A) Q a :
  wp p Q a -> exists x a', arun ids chk p a = Some (x, a') /\ Q x a'.
Proof.
  revert a. induction p as [x|X o k IH]; intros a; cbn [wp arun].
  - intros H. by exists x, a.
  - destruct (arun_op ids chk o a) as [[x a1]|]; [|done]. apply IH.
Qed.

Lemma wp_bind {A B} (p : prog A) (k : A -> prog B) Q a :
  wp p (fun x a1 => wp (k x) Q a1) a -> wp (p ≫= k) Q a.
Proof.
  revert a. induction p as [x|X o k' IH]; intros a; [done|].
  change (Do o k' ≫= k) with (Do o (fun x => k' x ≫= k)). cbn [wp].
  destruct (arun_op ids chk o a) as [[x a1]|]; [|done]. apply IH.
Qed.

Lemma wp_mono {A} (p : prog A) (Q Q' : A -> alock -> Prop) a :
  (forall x a1, Q x a1 -> Q' x a1) -> wp p Q a -> wp p Q' a.
Proof.
  intros H. revert a. induction p as [x|X o k IH]; intros a; cbn [wp]; [apply H|].
  destruct (arun_op ids chk o a) as [[x a1]|]; [|done]. apply IH.
Qed.
End Wp.

(** ** Compatibility *)

Definition is_read t : Prop := 1 <= tl_int t <= 5.
Definition is_write t : Prop := 6 <= tl_int t /\ t <> TL_WRITE_DEFAULT.

(** What a queue holds. *)
Definition kind q i : Prop :=
  match q with
  | read_wait => is_read (type i) /\ is_Some (cond i)
  | read => is_read (type i) /\ cond i = None
  | write_wait => is_write (type i) /\ is_Some (cond i)
  | write => is_write (type i) /\ cond i = None
  end.

(** The types of write locks that different owners may have at the same time. *)
Definition shared (multi : bool) t : Prop :=
  t = TL_WRITE_ALLOW_WRITE \/ t = TL_WRITE_CONCURRENT_INSERT /\ multi = true.

(** A running write lock and one that runs behind it in the queue. *)
Definition ww_ok (multi : bool) w w' : Prop :=
  (tl_int (type w) <= 9 -> type w' = type w) /\
  (owner w <> owner w' ->
   shared multi (type w') /\ (type w = type w' \/ type w = TL_WRITE_ONLY)).

(** A running write lock and a running read lock.  A lock that
    [thr_abort_locks] has made [TL_WRITE_ONLY] still has the other owners'
    locks beside it. *)
Definition wr_ok (multi : bool) w v : Prop :=
  (owner w <> owner v -> tl_int (type w) <= 9 \/ type w = TL_WRITE_ONLY) /\
  (type w = TL_WRITE_CONCURRENT_INSERT -> type v = TL_READ_NO_INSERT ->
   owner w = owner v /\ multi = false).

Fixpoint pairs {A} (P : A -> A -> Prop) (l : list A) : Prop :=
  match l with [] => True | x :: l => Forall (P x) l /\ pairs P l end.

Definition excl (multi : bool) (ws vs : list lock_info) : Prop :=
  pairs (ww_ok multi) ws /\ forall w v, w ∈ ws -> v ∈ vs -> wr_ok multi w v.

Lemma pairs_snoc {A} (P : A -> A -> Prop) l x :
  pairs P l -> Forall (fun y => P y x) l -> pairs P (l ++ [x]).
Proof.
  induction l as [|y l IH]; simpl; [done|]. intros (H1 & H2) (H3 & H4)%Forall_cons_1. split.
  - apply Forall_app. auto.
  - auto.
Qed.

Lemma pairs_sublist {A} (P : A -> A -> Prop) l l' : l `sublist_of` l' -> pairs P l' -> pairs P l.
Proof.
  induction 1 as [|x l l' S IH|x l l' S IH]; simpl; [done| |tauto].
  intros (H1 & H2). split; [|auto]. rewrite Forall_forall in *. intros y I. apply H1.
  rewrite <- list_elem_of_In in *. eapply elem_of_submseteq; [exact I|by apply sublist_submseteq].
Qed.

Lemma pairs_in {A} (P : A -> A -> Prop) l x y : pairs P l -> x ∈ l -> y ∈ l -> x = y \/ P x y \/ P y x.
Proof.
  induction l as [|z l IH]; simpl; [by intros _ ?%elem_of_nil|].
  intros (F & Ps) X Y. rewrite Forall_forall in F.
  apply elem_of_cons in X as [->|X], Y as [->|Y]; auto.
  - right; left. by apply F, list_elem_of_In.
  - right; right. by apply F, list_elem_of_In.
Qed.

(** ** The invariant *)

Definition no_inserts (h : Z -> lock_info) (l : list Z) : Z :=
  Z.of_nat (length (filter (fun d => type (h d) = TL_READ_NO_INSERT) l)).

Lemma no_inserts_zero h l d : no_inserts h l = 0 -> d ∈ l -> type (h d) <> TL_READ_NO_INSERT.
Proof.
  unfold no_inserts. intros N I T.
  assert (X : d ∈ filter (fun d => type (h d) = TL_READ_NO_INSERT) l) by (by apply list_elem_of_filter).
  destruct (filter _ l); [by apply elem_of_nil in X|simpl in N; lia].
Qed.

Section Core.
Context (ids : gset Z).

Record Core (L : queue -> list Z) (h : Z -> lock_info) (r : lock_rest) : Prop := {
  core_apart : Apart ids L;
  core_kind : forall q d, d ∈ L q -> kind q (h d);
  core_count : read_no_write_count r = no_inserts h (L read);
  core_check : forall q d, q = write \/ q = write_wait -> d ∈ L q ->
    type (h d) = TL_WRITE_CONCURRENT_INSERT -> check_status r = true;
  core_excl : excl (allow_multiple_concurrent_insert r) (h <$> L write) (h <$> L read) }.

(** Nobody waits for a lock that nobody holds. *)
Definition progress (L : queue -> list Z) : Prop :=
  (L write = [] -> L read = [] -> L write_wait = [] /\ L read_wait = []) /\
  (L write = [] -> L write_wait = [] -> L read_wait = []).

(** What the operations do not change in the rest of the lock. *)
Definition same_lock (r r' : lock_rest) : Prop :=
  check_status r' = check_status r /\
  allow_multiple_concurrent_insert r' = allow_multiple_concurrent_insert r /\
  get_status r' = get_status r /\ update_status r' = update_status r.

Lemma known_in d : d ∈ ids -> known ids d = true.
Proof. intros. by apply bool_decide_eq_true. Qed.

Lemma no_inserts_bound L h q : Z.of_nat (size ids) < 2 ^ 32 -> Apart ids L -> 0 <= no_inserts h (L q) < 2 ^ 32.
Proof.
  intros few (N & _ & I). unfold no_inserts.
  pose proof (ThrLinks.ThrLinks.queue_length ids (filter (fun d => type (h d) = TL_READ_NO_INSERT) (L q))) as H.
  enough (length (filter (fun d => type (h d) = TL_READ_NO_INSERT) (L q)) <= size ids)%nat by lia.
  apply H; [by apply list.NoDup_filter|]. intros d (_ & X)%list_elem_of_filter. by apply (I q).
Qed.

(** The invariant for other functions that agree on the queues. *)
Lemma core_ext L h r h' r' :
  (forall q d, d ∈ L q -> h' d = h d) -> read_no_write_count r' = read_no_write_count r ->
  same_lock r r' -> Core L h r -> Core L h' r'.
Proof.
  intros E N (S1 & S2 & _) [A K C Ch X]. constructor; auto.
  - intros q d I. rewrite (E q d I). auto.
  - rewrite N, C. unfold no_inserts. do 2 f_equal. apply list_filter_iff'. intros d I. by rewrite (E read d I).
  - intros q d Q I. rewrite (E q d I), S1. eauto.
  - rewrite S2. 
    assert (F : forall q, h' <$> L q = h <$> L q).
    { intros q. apply list_fmap_ext. intros j d J. apply (E q). by eapply list_elem_of_lookup_2. }
    by rewrite !F.
Qed.

(** *** Transitions *)

Lemma fmap_insert_other d i h (l : list Z) : d ∉ l -> (<[d := i]> h : Z -> lock_info) <$> l = h <$> l.
Proof.
  intros N. apply list_fmap_ext. intros j x J. rewrite fn_lookup_insert_ne; [done|].
  intros ->. by apply N, (list_elem_of_lookup_2 _ j).
Qed.

Lemma no_inserts_ext h h' (l : list Z) : (forall d, d ∈ l -> h' d = h d) -> no_inserts h' l = no_inserts h l.
Proof.
  intros E. unfold no_inserts. do 2 f_equal. apply list_filter_iff'. intros d I. by rewrite E.
Qed.

Definition one t : Z := if bool_decide (t = TL_READ_NO_INSERT) then 1 else 0.

Lemma no_inserts_app h l l' : no_inserts h (l ++ l') = no_inserts h l + no_inserts h l'.
Proof. unfold no_inserts. rewrite list.filter_app, length_app. lia. Qed.

Lemma no_inserts_one h d : no_inserts h [d] = one (type (h d)).
Proof. unfold no_inserts, one. rewrite filter_cons, filter_nil. case_decide; bdec; [done|done]. Qed.

Lemma no_inserts_cons h d l : no_inserts h (d :: l) = one (type (h d)) + no_inserts h l.
Proof. by rewrite <- no_inserts_one, <- (no_inserts_app h [d] l). Qed.

Lemma no_inserts_remove h d l : NoDup l -> d ∈ l ->
  no_inserts h (remove d l) = no_inserts h l - one (type (h d)).
Proof.
  intros N I. destruct (remove_split d l N I) as (l1 & l2 & -> & ->).
  rewrite !no_inserts_app, no_inserts_cons. lia.
Qed.

Lemma one_other t : t <> TL_READ_NO_INSERT -> one t = 0.
Proof. intros. unfold one. by rewrite bool_decide_false. Qed.

Lemma read_kind_disjoint t : is_read t -> is_write t -> False.
Proof. unfold is_read, is_write. lia. Qed.

Lemma write_one t : is_write t -> one t = 0.
Proof. intros H. apply one_other. intros ->. unfold is_write in H. simpl in H. lia. Qed.

(** An instance is taken out of a queue. *)
Lemma core_remove L h r r' q d :
  Core L h r -> d ∈ L q -> same_lock r r' ->
  read_no_write_count r' = read_no_write_count r - (if decide (q = read) then one (type (h d)) else 0) ->
  Core (<[q := remove d (L q)]> L) h r' /\ forall q', d ∉ (<[q := remove d (L q)]> L : queue -> list Z) q'.
Proof.
  intros [A K C Ch X] I (S1 & S2 & _) N. pose proof A as (A1 & A2 & A3).
  assert (Sub : forall q', (<[q := remove d (L q)]> L : queue -> list Z) q' `sublist_of` L q').
  { intros q'. destruct (decide (q' = q)) as [->|F].
    - rewrite fn_lookup_insert. apply sublist_filter.
    - by rewrite fn_lookup_insert_ne. }
  assert (In' : forall q' x, x ∈ (<[q := remove d (L q)]> L : queue -> list Z) q' -> x ∈ L q').
  { intros q' x Hx. eapply elem_of_submseteq; [exact Hx|apply sublist_submseteq, Sub]. }
  split; [constructor|].
  - split_and!; [intros q'; eapply sublist_NoDup; [apply A1|apply Sub]| |]; eauto.
  - eauto.
  - rewrite N, C. destruct (decide (q = read)) as [->|F].
    + rewrite fn_lookup_insert. by rewrite no_inserts_remove.
    + rewrite fn_lookup_insert_ne by done. lia.
  - intros q' x Q Ix. rewrite S1. eauto.
  - rewrite S2. destruct X as (X1 & X2). split.
    + eapply pairs_sublist; [|exact X1]. apply fmap_sublist, Sub.
    + intros w v. rewrite !list_elem_of_fmap. intros (y & -> & Y) (z & -> & Z).
      apply X2; apply list_elem_of_fmap; eauto.
  - intros q'. destruct (decide (q' = q)) as [->|F].
    + rewrite fn_lookup_insert. unfold remove. rewrite list_elem_of_filter. naive_solver.
    + rewrite fn_lookup_insert_ne by done. intros J. by apply F, (A2 q' q d).
Qed.

(** What a new running lock must be compatible with. *)
Definition fits (multi : bool) L h q i : Prop :=
  match q with
  | write => Forall (fun w => ww_ok multi w i) (h <$> L write) /\
             forall v, v ∈ h <$> L read -> wr_ok multi i v
  | read => forall w, w ∈ h <$> L write -> wr_ok multi w i
  | _ => True
  end.

(** An instance is put into a queue, at its end or, if it waits to write, at its
    beginning. *)
Lemma core_put L h r r' q d i l :
  Core L h r -> d ∈ ids -> (forall q, d ∉ L q) -> kind q i -> same_lock r r' ->
  (type i = TL_WRITE_CONCURRENT_INSERT -> check_status r = true) ->
  l = L q ++ [d] \/ q = write_wait /\ l = d :: L q ->
  read_no_write_count r' = read_no_write_count r + (if decide (q = read) then one (type i) else 0) ->
  fits (allow_multiple_concurrent_insert r) L h q i ->
  Core (<[q := l]> L) (<[d := i]> h) r'.
Proof.
  intros [A K C Ch X] D O Ki (S1 & S2 & _) Ci P N F. pose proof A as (A1 & A2 & A3).
  assert (E : forall x, x ∈ l <-> x = d \/ x ∈ L q).
  { intros x. destruct P as [->|(-> & ->)]; [|by rewrite elem_of_cons].
    rewrite elem_of_app, list_elem_of_singleton. tauto. }
  assert (Nl : NoDup l).
  { destruct P as [->|(-> & ->)]; [|by apply list.NoDup_cons].
    apply list.NoDup_app. split_and!; [done| |apply NoDup_singleton].
    intros x Hx ->%list_elem_of_singleton. by apply (O q). }
  assert (Ho : forall q', d ∉ L q') by done.
  assert (Fm : forall q', (<[d := i]> h : Z -> lock_info) <$> L q' = h <$> L q')
    by (intros; by apply fmap_insert_other).
  assert (Lq : forall q', q' <> q -> (<[q := l]> L : queue -> list Z) q' = L q')
    by (intros; by rewrite fn_lookup_insert_ne).
  assert (Ln : forall q', q' = q -> q' <> write_wait ->
    (<[d := i]> h : Z -> lock_info) <$> (<[q := l]> L : queue -> list Z) q' = (h <$> L q') ++ [i]).
  { intros q' -> Q. rewrite fn_lookup_insert. destruct P as [->|(-> & _)]; [|done].
    rewrite fmap_app, Fm. simpl. by rewrite fn_lookup_insert. }
  constructor.
  - apply apart_insert; [done|done|]. intros x [->|Hx]%E; [auto|]. split; [by apply (A3 q)|].
    intros q' Q Hx'. by apply Q, (A2 q' q x).
  - intros q' x. destruct (decide (q' = q)) as [->|Q].
    + rewrite fn_lookup_insert. intros [->|Hx]%E; [by rewrite fn_lookup_insert|].
      rewrite fn_lookup_insert_ne; [auto|]. intros ->. by apply (O q).
    + rewrite Lq by done. intros Hx. rewrite fn_lookup_insert_ne; [auto|]. intros ->. by apply (O q').
  - rewrite N, C. destruct (decide (q = read)) as [->|Q].
    + rewrite fn_lookup_insert. destruct P as [->|(X' & _)]; [|done].
      rewrite no_inserts_app, no_inserts_one, fn_lookup_insert.
      f_equal. symmetry. apply no_inserts_ext. intros x Hx. rewrite fn_lookup_insert_ne; [done|].
      intros ->. by apply (O read).
    + rewrite Lq by done. rewrite Z.add_0_r. symmetry. apply no_inserts_ext. intros x Hx.
      rewrite fn_lookup_insert_ne; [done|]. intros ->. by apply (O read).
  - intros q' x Q. rewrite S1. destruct (decide (x = d)) as [->|Xd].
    + rewrite fn_lookup_insert. auto.
    + rewrite (fn_lookup_insert_ne h) by done. destruct (decide (q' = q)) as [->|Q'].
      * rewrite fn_lookup_insert. intros [->|Hx]%E; eauto.
      * rewrite Lq by done. eauto.
  - rewrite S2. destruct X as (X1 & X2). destruct q; cbn [fits] in F.
    + rewrite !Lq, !Fm by done. done.
    + rewrite (Lq write), (Ln read), Fm by done. split; [done|].
      intros w v W [V| ->%list_elem_of_singleton]%elem_of_app; [auto|]. by apply F.
    + rewrite !Lq, !Fm by done. done.
    + rewrite (Lq read), (Ln write), Fm by done. destruct F as (F1 & F2). split; [by apply pairs_snoc|].
      intros w v [W| ->%list_elem_of_singleton]%elem_of_app V; [auto|]. by apply F2.
Qed.

(** The information of an instance that waits or writes is changed in place. *)
Lemma core_retype L h r q d i :
  Core L h r -> d ∈ L q -> q <> read -> kind q i ->
  (type i = TL_WRITE_CONCURRENT_INSERT -> check_status r = true) ->
  (q = write -> excl (allow_multiple_concurrent_insert r) ((<[d := i]> h : Z -> lock_info) <$> L write)
                  (h <$> L read)) ->
  Core L (<[d := i]> h) r.
Proof.
  intros [A K C Ch X] I Q Ki Ci E. pose proof A as (A1 & A2 & A3).
  assert (Nq : forall q', q' <> q -> d ∉ L q') by (intros q' Q' J; by apply Q', (A2 q' q d)).
  constructor.
  - done.
  - intros q' x J. destruct (decide (x = d)) as [->|F].
    + rewrite fn_lookup_insert. by rewrite (A2 q' q d J I).
    + rewrite fn_lookup_insert_ne by done. auto.
  - rewrite C. symmetry. apply no_inserts_ext. intros x J. rewrite fn_lookup_insert_ne; [done|].
    intros ->. by apply (Nq read).
  - intros q' x Q' J. destruct (decide (x = d)) as [->|F].
    + rewrite fn_lookup_insert. auto.
    + rewrite fn_lookup_insert_ne by done. eauto.
  - rewrite (fmap_insert_other d i h (L read)) by auto.
    destruct (decide (q = write)) as [->|F]; [auto|]. rewrite fmap_insert_other by auto. done.
Qed.

(** *** Readers are let go *)

Lemma free_rest_ok h l : forall r,
  (forall d, d ∈ l -> is_Some (cond (h d))) -> 0 <= read_no_write_count r ->
  read_no_write_count r + no_inserts h l < 2 ^ 32 ->
  exists r', free_rest h l r = Some r' /\ same_lock r r' /\
    read_no_write_count r' = read_no_write_count r + no_inserts h l.
Proof.
  induction l as [|d l IH]; intros r C N B.
  - exists r. split; [done|]. split; [done|]. change (no_inserts h []) with 0. lia.
  - destruct (C d ltac:(by left)) as (c & Ec). cbn [free_rest]. rewrite Ec. cbn [mbind option_bind].
    rewrite no_inserts_cons in *. unfold one in *.
    set (r1 := emit _ _). assert (0 <= no_inserts h l) by (unfold no_inserts; lia).
    assert (R1 : same_lock r r1 /\ read_no_write_count r1 = read_no_write_count r + one (type (h d))).
    { subst r1. unfold one. destruct (bool_decide _); cbn; [|split; [done|lia]].
      split; [done|]. apply uwrap_small. lia. }
    unfold one in R1. destruct R1 as (S1 & N1).
    destruct (IH r1) as (r' & F & S & N').
    { intros x Hx. apply C. by right. }
    { rewrite N1. destruct (bool_decide _); lia. }
    { rewrite N1. lia. }
    exists r'. split; [done|]. split; [|lia].
    destruct S1 as (Q1 & Q2 & Q3 & Q4).
    destruct S as (P1 & P2 & P3 & P4). unfold same_lock. split_and!; congruence.
Qed.

Definition frees b L h : list Z := filter (fun d => ¬ stays h b d) (L read_wait).
Definition keeps b L h : list Z := filter (fun d => stays h b d) (L read_wait).
Definition freed_qs b L h : queue -> list Z :=
  <[read := L read ++ frees b L h]> (<[read_wait := keeps b L h]> L).

Lemma change_in l f h d : d ∈ l -> change l f h d = f (h d).
Proof. intros. unfold change. by rewrite bool_decide_true. Qed.
Lemma change_out l f h d : d ∉ l -> change l f h d = h d.
Proof. intros. unfold change. by rewrite bool_decide_false. Qed.

Lemma frees_keeps b L h d : d ∈ L read_wait <-> d ∈ frees b L h \/ d ∈ keeps b L h.
Proof.
  unfold frees, keeps. rewrite !list_elem_of_filter. destruct (decide (stays h b d)); tauto.
Qed.

Lemma freed_apart b L h : Apart ids L -> Apart ids (freed_qs b L h).
Proof.
  intros A. pose proof A as (A1 & A2 & A3). unfold freed_qs.
  apply apart_insert; [apply apart_insert; [done| |]| |].
  - by apply list.NoDup_filter.
  - intros x (_ & Hx)%list_elem_of_filter. split; [by apply (A3 read_wait)|].
    intros q' Q Hx'. by apply Q, (A2 q' read_wait x).
  - apply list.NoDup_app. split_and!; [done| |by apply list.NoDup_filter].
    intros x Hx (_ & Hx')%list_elem_of_filter. discriminate (A2 _ _ x Hx Hx').
  - intros x Hx. split; [apply elem_of_app in Hx as [Hx|(_ & Hx)%list_elem_of_filter]; eauto|].
    intros q' Q. destruct (decide (q' = read_wait)) as [->|Q'].
    + rewrite fn_lookup_insert. intros (S & Hx')%list_elem_of_filter.
      apply elem_of_app in Hx as [Hx|(S' & _)%list_elem_of_filter]; [|done].
      discriminate (A2 _ _ x Hx Hx').
    + rewrite fn_lookup_insert_ne by done. intros Hx'.
      apply elem_of_app in Hx as [Hx|(_ & Hx)%list_elem_of_filter].
      * by apply Q, (A2 q' read x).
      * by apply Q', (A2 q' read_wait x).
Qed.

Lemma freed_other b L h q : q <> read -> q <> read_wait -> freed_qs b L h q = L q.
Proof. intros. unfold freed_qs. by rewrite !fn_lookup_insert_ne. Qed.
Lemma freed_read b L h : freed_qs b L h read = L read ++ frees b L h.
Proof. unfold freed_qs. by rewrite fn_lookup_insert. Qed.
Lemma freed_wait b L h : freed_qs b L h read_wait = keeps b L h.
Proof. unfold freed_qs. by rewrite fn_lookup_insert_ne, fn_lookup_insert. Qed.

Lemma core_freed b L h r r' :
  Core L h r -> same_lock r r' ->
  read_no_write_count r' = read_no_write_count r + no_inserts h (frees b L h) ->
  (forall w, w ∈ h <$> L write -> (tl_int (type w) <= 9 \/ type w = TL_WRITE_ONLY) /\
     (type w = TL_WRITE_CONCURRENT_INSERT -> b = true)) ->
  Core (freed_qs b L h) (change (frees b L h) (with_cond None) h) r'.
Proof.
  intros [A K C Ch X] (S1 & S2 & _) N W. pose proof A as (A1 & A2 & A3).
  assert (Nf : forall q d, q <> read_wait -> d ∈ L q -> d ∉ frees b L h).
  { intros q d Q I (_ & J)%list_elem_of_filter. by apply Q, (A2 q read_wait d). }
  assert (Nk : forall d, d ∈ keeps b L h -> d ∉ frees b L h).
  { intros d (I & _)%list_elem_of_filter (J & _)%list_elem_of_filter. done. }
  assert (Cf : forall q d, q <> read_wait -> d ∈ L q -> change (frees b L h) (with_cond None) h d = h d)
    by (intros; apply change_out; eauto).
  constructor.
  - by apply freed_apart.
  - intros q d. destruct q; rewrite ?freed_read, ?freed_wait, ?freed_other by done.
    + intros I. rewrite change_out by auto. apply K. apply list_elem_of_filter in I. tauto.
    + intros [I|I]%elem_of_app; [rewrite (Cf read) by done; by apply K|].
      rewrite change_in by done. apply list_elem_of_filter in I as (_ & I%K). split; [apply I|done].
    + intros I. rewrite (Cf write_wait) by done. by apply K.
    + intros I. rewrite (Cf write) by done. by apply K.
  - rewrite N, C, freed_read, no_inserts_app. f_equal.
    + symmetry. apply no_inserts_ext. intros d I. by apply (Cf read).
    + unfold no_inserts. do 2 f_equal. apply list_filter_iff'. intros d I. by rewrite change_in.
  - intros q d Q. rewrite S1. destruct Q as [->| ->]; rewrite freed_other by done; intros I;
      [rewrite (Cf write) by done|rewrite (Cf write_wait) by done]; eauto.
  - rewrite S2, freed_read, freed_other by done. rewrite fmap_app.
    assert (F : forall q, q <> read_wait -> change (frees b L h) (with_cond None) h <$> L q = h <$> L q).
    { intros q Q. apply list_fmap_ext. intros j d J. apply (Cf q); [done|]. by eapply list_elem_of_lookup_2. }
    rewrite !F by done. destruct X as (X1 & X2). split; [done|].
    intros w v Iw [V|V]%elem_of_app; [auto|]. apply list_elem_of_fmap in V as (d & -> & I).
    rewrite change_in by done. destruct (W w Iw) as (W1 & W2). split; [auto|].
    cbn. intros Tw Tv. specialize (W2 Tw). apply list_elem_of_filter in I as (I & _). by destruct I.
Qed.

End Core.

End ThrInv.
