(* ===== verification/ThrWake.v ===== *)
(** * ThrWake: waking up waiting locks

    [wake_up_waiters] keeps the invariant [Core] and establishes [progress]. *)
From stdpp Require Import base tactics option list numbers gmap functions.
From Stdlib Require Import ZArith Lia.
From S2P Require Import Prelude ThrLock ThrSpec ThrSim ThrInv.

Module ThrWake.
Import ThrLock ThrSpec ThrSim ThrInv.

Implicit Types (a : alock) (d : Z) (q : queue) (i w v : lock_info) (t : thr_lock_type) (r : lock_rest)
  (L : queue -> list Z) (h : Z -> lock_info).

(** Where instances may go when others are woken up. *)
Definition moved L h L' h' : Prop :=
  (forall d, d ∈ L read -> d ∈ L' read) /\ (forall d, d ∈ L write -> d ∈ L' write) /\
  (forall d, d ∈ L read_wait -> d ∈ L' read_wait \/ d ∈ L' read) /\
  (forall d, d ∈ L write_wait -> d ∈ L' write_wait \/ d ∈ L' write) /\
  (forall d, (forall q, d ∉ L q) -> (forall q, d ∉ L' q) /\ h' d = h d) /\
  (forall d, owner (h' d) = owner (h d)).

Lemma moved_refl L h : moved L h L h.
Proof. unfold moved. naive_solver. Qed.

Lemma moved_trans L h L1 h1 L2 h2 : moved L h L1 h1 -> moved L1 h1 L2 h2 -> moved L h L2 h2.
Proof.
  intros (A1 & B1 & C1 & D1 & E1 & F1) (A2 & B2 & C2 & D2 & E2 & F2). split_and!.
  - auto.
  - auto.
  - intros d [X|X]%C1; auto.
  - intros d [X|X]%D1; auto.
  - intros d (X & Y)%E1. destruct (E2 d X) as (Z & W). split; [done|congruence].
  - intros d. congruence.
Qed.

Definition keep_rest r r' : Prop :=
  same_lock r r' /\ read_no_write_count r' = read_no_write_count r.

Lemma keep_refl r : keep_rest r r.
Proof. done. Qed.
Lemma keep_trans r r1 r2 : keep_rest r r1 -> keep_rest r1 r2 -> keep_rest r r2.
Proof. intros ((?&?&?&?)&?) ((?&?&?&?)&?). repeat split; congruence. Qed.
Lemma same_lock_trans r r1 r2 : same_lock r r1 -> same_lock r1 r2 -> same_lock r r2.
Proof. intros (?&?&?&?) (?&?&?&?). repeat split; congruence. Qed.

(** The first instance of a queue. *)
Definition first L h q : option (Z * lock_info) :=
  match L q with [] => None | d :: _ => Some (d, h d) end.

Section Wake.
Context (ids : gset Z) (chk : Z -> bool) (e : env).
Context (few : Z.of_nat (size ids) < 2 ^ 32).

Abbreviation wp := (wp ids chk).
Abbreviation Core := (Core ids).

Lemma core_known L h r q d : Core L h r -> d ∈ L q -> d ∈ ids.
Proof. intros [(_ & _ & A) _ _ _ _]. apply A. Qed.

(** *** Rules for the small programs *)

Lemma wp_head_info q L h f r Q :
  (forall d, d ∈ L q -> d ∈ ids) -> Q (first L h q) (mk_a L h f r) -> wp (head_info q) Q (mk_a L h f r).
Proof.
  intros K H. unfold head_info, first in *. cbn. destruct (L q) as [|d l]; [done|]. cbn.
  by rewrite known_in by (apply K; by left).
Qed.

Lemma wp_is_empty q L h f r Q :
  Q (bool_decide (L q = [])) (mk_a L h f r) -> wp (is_empty q) Q (mk_a L h f r).
Proof.
  intros H. unfold is_empty. cbn. destruct (L q) as [|d l]; cbn; [done|].
  rewrite bool_decide_false in * by done. done.
Qed.

Lemma wp_modify g L h f r Q : Q tt (mk_a L h f (g r)) -> wp (modify g) Q (mk_a L h f r).
Proof. done. Qed.

Lemma wp_get_rest L h f r Q : Q r (mk_a L h f r) -> wp (do Get_rest) Q (mk_a L h f r).
Proof. done. Qed.

Lemma wp_get d L h f r Q : d ∈ ids -> Q (h d) (mk_a L h f r) -> wp (do (Get d)) Q (mk_a L h f r).
Proof. intros K H. cbn. by rewrite known_in. Qed.

Lemma wp_set_type d t L h f r Q :
  d ∈ ids -> Q tt (mk_a L (<[d := with_type t (h d)]> h) f r) -> wp (do (Set_type d t)) Q (mk_a L h f r).
Proof. intros K H. cbn. by rewrite known_in. Qed.

Lemma wp_set_cond d c L h f r Q :
  d ∈ ids -> Q tt (mk_a L (<[d := with_cond c (h d)]> h) f r) -> wp (do (Set_cond d c)) Q (mk_a L h f r).
Proof. intros K H. cbn. by rewrite known_in. Qed.

Lemma wp_check p L h f r Q :
  check_status r = true -> Q (chk p) (mk_a L h f r) -> wp (do (Check_status p)) Q (mk_a L h f r).
Proof. intros K H. cbn. by rewrite K. Qed.

Lemma wp_call_get_status d b L h f r Q :
  d ∈ ids -> (forall r', keep_rest r r' -> Q tt (mk_a L h f r')) ->
  wp (call_get_status d b) Q (mk_a L h f r).
Proof.
  intros K H. unfold call_get_status. cbn. destruct (get_status r) eqn:G; cbn.
  - rewrite known_in by done. cbn. apply H. done.
  - apply H. done.
Qed.

(** A waiting writer starts: it moves to the running writers, [Check_status]
    may change its type, and its thread is signalled. *)
Definition start_qs L d : queue -> list Z :=
  <[write := L write ++ [d]]> (<[write_wait := remove d (L write_wait)]> L).

Lemma start_other L d q : q <> write -> q <> write_wait -> start_qs L d q = L q.
Proof. intros. unfold start_qs. by rewrite !fn_lookup_insert_ne. Qed.
Lemma start_write_q L d : start_qs L d write = L write ++ [d].
Proof. unfold start_qs. by rewrite fn_lookup_insert. Qed.
Lemma start_wait_q L d : start_qs L d write_wait = remove d (L write_wait).
Proof. unfold start_qs. by rewrite fn_lookup_insert_ne, fn_lookup_insert. Qed.

Definition started t i : lock_info := with_cond None (with_type t i).

Lemma core_start L h r r' d t :
  Core L h r -> d ∈ L write_wait -> is_write t -> keep_rest r r' ->
  (t = TL_WRITE_CONCURRENT_INSERT -> check_status r = true) ->
  fits (allow_multiple_concurrent_insert r) L h write (started t (h d)) ->
  Core (start_qs L d) (<[d := started t (h d)]> h) r' /\
  moved L h (start_qs L d) (<[d := started t (h d)]> h).
Proof.
  intros C I T (S & N) Ci F.
  destruct (core_remove ids L h r r write_wait d C I) as (C1 & O1); [done|simpl; lia|]. split.
  - unfold start_qs. rewrite <- (fn_lookup_insert_ne L write_wait write (remove d (L write_wait))) by done.
    apply (core_put ids _ h r); auto.
    + by apply (core_known L h r write_wait).
    + done.
    + rewrite decide_False by done. lia.
  - pose proof (core_apart _ _ _ _ C) as (A1 & A2 & A3). split_and!.
    + intros x Hx. by rewrite start_other.
    + intros x Hx. rewrite start_write_q. apply elem_of_app. by left.
    + intros x Hx. left. by rewrite start_other.
    + intros x Hx. rewrite start_write_q, start_wait_q. unfold remove.
      rewrite list_elem_of_filter, elem_of_app, list_elem_of_singleton.
      destruct (decide (x = d)); tauto.
    + intros x Hx. assert (x <> d) by (intros ->; by apply (Hx write_wait)).
      split; [|by rewrite fn_lookup_insert_ne]. intros [].
      * by rewrite start_other.
      * by rewrite start_other.
      * rewrite start_wait_q. unfold remove. rewrite list_elem_of_filter. intros (_ & X). by apply (Hx write_wait).
      * rewrite start_write_q, elem_of_app, list_elem_of_singleton. intros [X|X]; [by apply (Hx write)|done].
    + intros x. destruct (decide (x = d)) as [->|X].
      * by rewrite fn_lookup_insert.
      * by rewrite fn_lookup_insert_ne.
Qed.

Lemma core_start_at L h h2 r r' d t :
  (forall x, h2 x = (<[d := started t (h d)]> h : Z -> lock_info) x) ->
  Core L h r -> d ∈ L write_wait -> is_write t -> keep_rest r r' ->
  (t = TL_WRITE_CONCURRENT_INSERT -> check_status r = true) ->
  fits (allow_multiple_concurrent_insert r) L h write (started t (h d)) ->
  Core (start_qs L d) h2 r' /\ moved L h (start_qs L d) h2.
Proof.
  intros E C I T K Ci F. destruct (core_start L h r r' d t) as (C1 & M1); auto. split.
  - eapply core_ext; [intros q x _; apply E|done|done|exact C1].
  - destruct M1 as (M1 & M2 & M3 & M4 & M5 & M6). split_and!; auto.
    + intros x X. rewrite E. by apply M5.
    + intros x. rewrite E. apply M6.
Qed.

(** The thread of a started writer is signalled and its condition reset. *)
Lemma wp_started {A} d t (k : prog A) L h f r c Q h1 :
  d ∈ ids -> cond (h d) = Some c -> (forall x, h1 x = (<[d := with_type t (h d)]> h : Z -> lock_info) x) ->
  (forall h2 r', (forall x, h2 x = (<[d := started t (h d)]> h : Z -> lock_info) x) ->
     keep_rest r r' -> wp k Q (mk_a L h2 f r')) ->
  wp (do (Set_cond d None);; do (Signal (cond (h d)));; k) Q (mk_a L h1 f r).
Proof.
  intros K C E H. apply wp_bind, wp_set_cond; [done|]. rewrite C. cbn. apply H; [|by repeat split].
  intros x. cbn [inf]. destruct (decide (x = d)) as [->|X].
  - rewrite !fn_lookup_insert, E, fn_lookup_insert. done.
  - rewrite !fn_lookup_insert_ne, E, fn_lookup_insert_ne by done. done.
Qed.

Lemma wp_start_write d L h f r Q :
  d ∈ L write_wait -> Q tt (mk_a (start_qs L d) h None r) -> wp (do (Start_write d)) Q (mk_a L h f r).
Proof. intros I H. cbn. rewrite bool_decide_true by done. exact H. Qed.

Lemma wait_cond L h r q d : Core L h r -> q = read_wait \/ q = write_wait -> d ∈ L q ->
  exists c, cond (h d) = Some c.
Proof. intros C [-> | ->] I; destruct (core_kind _ _ _ _ C _ _ I) as (_ & X); apply X. Qed.

Lemma shared_aw m : shared m TL_WRITE_ALLOW_WRITE.
Proof. by left. Qed.

Lemma remove_first d l : NoDup (d :: l) -> remove d (d :: l) = l.
Proof.
  intros (N & _)%list.NoDup_cons. unfold remove. rewrite filter_cons_False by (by intros []).
  apply filter_all. by intros x I ->.
Qed.

Lemma fits_same m L h i :
  (forall w, w ∈ h <$> L write -> type w = TL_WRITE_ALLOW_WRITE /\ type i = TL_WRITE_ALLOW_WRITE) ->
  (forall v, v ∈ h <$> L read -> wr_ok m i v) -> fits m L h write i.
Proof.
  intros W R. split; [|done]. apply Forall_forall. intros w I%list_elem_of_In.
  destruct (W w I) as (E1 & E2). split; [by rewrite E1, E2|].
  intros _. rewrite E1, E2. split; [apply shared_aw|by left].
Qed.

Lemma started_queue L h h2 d t :
  (forall x, h2 x = (<[d := started t (h d)]> h : Z -> lock_info) x) -> d ∉ L write ->
  h2 <$> start_qs L d write = (h <$> L write) ++ [started t (h d)].
Proof.
  intros E N. rewrite start_write_q, fmap_app. simpl. f_equal.
  - rewrite <- (fmap_insert_other d (started t (h d)) h (L write)) by done.
    apply list_fmap_ext. intros. apply E.
  - by rewrite E, fn_lookup_insert.
Qed.

(** What starting writers leads to: the running writers all have the type of
    the last one. *)
Definition starts L h r L' h' r' d' : Prop :=
  Core L' h' r' /\ L' read = L read /\ L' read_wait = L read_wait /\ d' ∈ L' write /\
  moved L h L' h' /\ keep_rest r r' /\ forall w, w ∈ h' <$> L' write -> type w = type (h' d').

(** One writer more. *)
Lemma starts_one L h h2 r r' d t :
  (forall x, h2 x = (<[d := started t (h d)]> h : Z -> lock_info) x) ->
  Core L h r -> d ∈ L write_wait -> is_write t -> keep_rest r r' ->
  (t = TL_WRITE_CONCURRENT_INSERT -> check_status r = true) ->
  (forall w, w ∈ h <$> L write -> type w = TL_WRITE_ALLOW_WRITE /\ t = TL_WRITE_ALLOW_WRITE) ->
  (forall v, v ∈ h <$> L read -> wr_ok (allow_multiple_concurrent_insert r) (started t (h d)) v) ->
  starts L h r (start_qs L d) h2 r' d /\ type (h2 d) = t.
Proof.
  intros E C I T K Ci W R. destruct (core_start_at L h h2 r r' d t) as (C2 & M2); auto.
  { by apply fits_same. }
  assert (Td : type (h2 d) = t) by (by rewrite E, fn_lookup_insert).
  assert (Nw : d ∉ L write).
  { intros J. destruct (core_apart _ _ _ _ C) as (_ & X & _). discriminate (X _ _ d I J). }
  split; [|done]. split_and!; auto; try by apply start_other.
  - rewrite start_write_q. apply elem_of_app. right. by left.
  - rewrite (started_queue _ h _ _ t) by done. intros w [J| ->%list_elem_of_singleton]%elem_of_app.
    + destruct (W w J) as (-> & X). by rewrite Td, X.
    + done.
Qed.

Lemma starts_trans L h r L1 h1 r1 d1 L2 h2 r2 d2 :
  starts L h r L1 h1 r1 d1 -> starts L1 h1 r1 L2 h2 r2 d2 -> starts L h r L2 h2 r2 d2.
Proof.
  intros (A1 & B1 & C1 & D1 & E1 & F1 & G1) (A2 & B2 & C2 & D2 & E2 & F2 & G2).
  split_and!; auto; try congruence; [by eapply moved_trans|by eapply keep_trans].
Qed.

Lemma write_loop_ok fuel : forall L h r f d l Q,
  Core L h r -> L read = [] -> L write_wait = d :: l -> (length l < fuel)%nat ->
  (forall w, w ∈ h <$> L write -> type w = TL_WRITE_ALLOW_WRITE /\ type (h d) = TL_WRITE_ALLOW_WRITE) ->
  (forall L' h' r' d', starts L h r L' h' r' d' -> Q (Some (d', h' d')) (mk_a L' h' None r')) ->
  wp (write_loop fuel d) Q (mk_a L h f r).
Proof.
  induction fuel as [|fuel IH]; intros L h r f d l Q C R E F W H; [lia|]. cbn [write_loop].
  assert (I : d ∈ L write_wait) by (rewrite E; by left).
  assert (K : d ∈ ids) by (by apply (core_known L h r write_wait)).
  destruct (wait_cond L h r write_wait d) as (c & Ec); auto.
  destruct (core_kind _ _ _ _ C _ _ I) as (Tw & _).
  apply wp_bind, wp_start_write; [done|]. apply wp_bind, wp_get; [done|].
  assert (Go : forall t h1, is_write t -> (t = TL_WRITE_CONCURRENT_INSERT -> check_status r = true) ->
    (type (h d) = TL_WRITE_ALLOW_WRITE -> t = TL_WRITE_ALLOW_WRITE) ->
    (forall x, h1 x = (<[d := with_type t (h d)]> h : Z -> lock_info) x) ->
    wp (do (Set_cond d None);; do (Signal (cond (h d)));; i ← do (Get d);
        if negb (is_aw (type i)) then mret (Some (d, i))
        else h ← head_info write_wait;
             match h with
             | Some (d', i') => if is_aw (type i') then write_loop fuel d' else mret (Some (d, i))
             | None => mret (Some (d, i))
             end) Q (mk_a (start_qs L d) h1 None r)).
  { intros t h1 T1 T2 T3 E1. eapply (wp_started d t); [done|done|done|]. intros h2 r' E2 K2.
    destruct (starts_one L h h2 r r' d t) as (S2 & Td); auto.
    { intros w J. destruct (W w J) as (X & Y). auto. }
    { rewrite R. by intros v X%elem_of_nil. }
    pose proof S2 as (C2 & R2 & _ & D2 & M2 & _ & G2).
    apply wp_bind, wp_get; [done|]. unfold is_aw.
    destruct (bool_decide_reflect (type (h2 d) = TL_WRITE_ALLOW_WRITE)) as [Aw|Aw]; [|by apply H].
    cbn [negb]. apply wp_bind, wp_head_info; [intros x; by apply (core_known _ h2 r')|].
    assert (N : NoDup (d :: l)) by (rewrite <- E; apply (core_apart _ _ _ _ C)).
    unfold first. rewrite start_wait_q, E, remove_first by done.
    destruct l as [|d1 l]; [by apply H|].
    destruct (bool_decide_reflect (type (h2 d1) = TL_WRITE_ALLOW_WRITE)) as [Aw1|Aw1]; [|by apply H].
    apply (IH _ _ _ _ _ l); [done|congruence|by rewrite start_wait_q, E, remove_first|simpl in F; lia| |].
    - intros w J. split; [|done]. by rewrite (G2 w J).
    - intros L' h' r3 d' S3. apply H. by eapply starts_trans. }
  unfold is_ci. destruct (bool_decide_reflect (type (h d) = TL_WRITE_CONCURRENT_INSERT)) as [Ci|Ci].
  - assert (Ck : check_status r = true) by (eapply (core_check _ _ _ _ C); eauto).
    apply wp_bind, wp_bind, wp_check; [done|]. destruct (chk _).
    + apply wp_set_type; [done|]. apply (Go TL_WRITE); [by split|done|congruence|done].
    + apply (Go TL_WRITE_CONCURRENT_INSERT); [by split|done|congruence|].
      intros x. destruct (decide (x = d)) as [->|X];
        rewrite ?fn_lookup_insert, ?fn_lookup_insert_ne by done; [|done].
      unfold with_type. rewrite <- Ci. by destruct (h d).
  - apply wp_bind. cbn. apply (Go (type (h d))); [done|done|done|].
    intros x. destruct (decide (x = d)) as [->|X];
      rewrite ?fn_lookup_insert, ?fn_lookup_insert_ne by done; [|done]. by destruct (h d).
Qed.

Lemma started_id t i : type i = t -> with_type t i = i.
Proof. intros <-. by destruct i. Qed.

(** A write lock of type [t] may run beside the running readers. *)
Definition beside L h r t : Prop :=
  tl_int t <= 9 /\
  (t = TL_WRITE_CONCURRENT_INSERT -> forall d, d ∈ L read -> type (h d) <> TL_READ_NO_INSERT).

Lemma beside_wr L h r t i v m : beside L h r t -> type i = t -> v ∈ h <$> L read -> wr_ok m i v.
Proof.
  intros (B1 & B2) <- (d & -> & I)%list_elem_of_fmap. split; [auto|].
  intros T1 T2. by destruct (B2 T1 d I).
Qed.

Lemma beside_reads_spec L h r t : Core L h r -> beside_reads t r = true -> beside L h r t.
Proof.
  intros C (H1 & H2)%andb_true_iff. unfold le, is_ci, is_aw in *. apply bool_decide_eq_true in H1.
  split; [done|]. intros -> d I. cbn in H2. apply bool_decide_eq_true in H2.
  eapply no_inserts_zero; [|exact I]. by rewrite <- (core_count _ _ _ _ C).
Qed.

Lemma with_reads_loop_ok fuel : forall L h r f d l t Q,
  Core L h r -> L write_wait = d :: l -> (length l < fuel)%nat -> type (h d) = t -> beside L h r t ->
  (forall w, w ∈ h <$> L write -> type w = TL_WRITE_ALLOW_WRITE /\ t = TL_WRITE_ALLOW_WRITE) ->
  (forall L' h' r' d', starts L h r L' h' r' d' -> type (h' d') = t -> Q tt (mk_a L' h' None r')) ->
  wp (write_with_reads_loop fuel t d) Q (mk_a L h f r).
Proof.
  induction fuel as [|fuel IH]; intros L h r f d l t Q C E F T B W H; [lia|]. cbn [write_with_reads_loop].
  assert (I : d ∈ L write_wait) by (rewrite E; by left).
  assert (K : d ∈ ids) by (by apply (core_known L h r write_wait)).
  destruct (wait_cond L h r write_wait d) as (c & Ec); auto.
  destruct (core_kind _ _ _ _ C _ _ I) as (Tw & _). rewrite T in Tw.
  apply wp_bind, wp_get; [done|]. apply wp_bind, wp_start_write; [done|].
  eapply (wp_started d t); [done|done| |].
  { intros x. destruct (decide (x = d)) as [->|X];
      rewrite ?fn_lookup_insert, ?fn_lookup_insert_ne by done; [|done]. by rewrite started_id. }
  intros h2 r' E2 K2. destruct (starts_one L h h2 r r' d t) as (S2 & Td); auto.
  { intros ->. eapply (core_check _ _ _ _ C); eauto. }
  { intros v V. by apply (beside_wr L h r t). }
  pose proof S2 as (C2 & R2 & _ & D2 & M2 & _ & G2).
  unfold is_aw. destruct (bool_decide_reflect (t = TL_WRITE_ALLOW_WRITE)) as [Aw|Aw]; [|by eapply H].
  apply wp_bind, wp_head_info; [intros x; by apply (core_known _ h2 r')|].
  assert (N : NoDup (d :: l)) by (rewrite <- E; apply (core_apart _ _ _ _ C)).
  unfold first. rewrite start_wait_q, E, remove_first by done.
  destruct l as [|d1 l]; [by eapply H|].
  destruct (bool_decide_reflect (type (h2 d1) = TL_WRITE_ALLOW_WRITE)) as [Aw1|Aw1]; [|by eapply H].
  apply (IH _ _ _ _ _ l); [done|by rewrite start_wait_q, E, remove_first|simpl in F; lia|congruence| | |].
  - rewrite Aw. split; [done|]. done.
  - intros w J. split; [|done]. rewrite (G2 w J). congruence.
  - intros L' h' r3 d' S3 T3. eapply H; [by eapply starts_trans|done].
Qed.

(** *** Letting readers go *)

Lemma moved_freed b L h : moved L h (freed_qs b L h) (change (frees b L h) (with_cond None) h).
Proof.
  split_and!.
  - intros d I. rewrite freed_read. apply elem_of_app. by left.
  - intros d I. by rewrite freed_other.
  - intros d I. rewrite freed_wait, freed_read, elem_of_app. apply (frees_keeps b L h) in I. tauto.
  - intros d I. left. by rewrite freed_other.
  - intros d I. assert (N : d ∉ frees b L h).
    { intros (_ & X)%list_elem_of_filter. by apply (I read_wait). }
    split; [|by rewrite change_out]. intros []; rewrite ?freed_read, ?freed_wait, ?freed_other by done; auto.
    + intros (_ & X)%list_elem_of_filter. by apply (I read_wait).
    + intros [X|X]%elem_of_app; [by apply (I read)|done].
  - intros d. unfold change. by destruct (bool_decide _).
Qed.

Lemma wp_free_reads b L h f r Q :
  Core L h r -> L read_wait <> [] ->
  (forall w, w ∈ h <$> L write -> (tl_int (type w) <= 9 \/ type w = TL_WRITE_ONLY) /\
     (type w = TL_WRITE_CONCURRENT_INSERT -> b = true)) ->
  (forall h' r', Core (freed_qs b L h) h' r' -> moved L h (freed_qs b L h) h' -> same_lock r r' ->
     (forall d, d ∉ L read_wait -> h' d = h d) -> Q tt (mk_a (freed_qs b L h) h' None r')) ->
  wp (do (Free_reads b)) Q (mk_a L h f r).
Proof.
  intros C Ne W H.
  destruct (free_rest_ok h (frees b L h) r) as (r1 & E & S & N).
  - intros d (_ & I)%list_elem_of_filter. destruct (core_kind _ _ _ _ C _ _ I). done.
  - rewrite (core_count _ _ _ _ C). unfold no_inserts. lia.
  - rewrite (core_count _ _ _ _ C), <- no_inserts_app, <- (freed_read b L h).
    apply (no_inserts_bound ids); [done|]. apply freed_apart. apply (core_apart _ _ _ _ C).
  - set (r2 := if bool_decide (keeps b L h = []) then set_write_lock_count 0 r1 else r1).
    assert (X : afree_reads b (mk_a L h f r) =
      Some (mk_a (freed_qs b L h) (change (frees b L h) (with_cond None) h) None r2)).
    { unfold afree_reads. cbn [qs inf arest]. fold (frees b L h). rewrite E. cbn [mbind option_bind].
      by rewrite bool_decide_false. }
    change (wp (do (Free_reads b)) Q (mk_a L h f r)) with
      (match afree_reads b (mk_a L h f r) ≫= (fun a => Some (tt, a)) with
       | Some (x, a1) => Q x a1 | None => False end).
    rewrite X. cbn [mbind option_bind].
    assert (S2 : same_lock r r2 /\ read_no_write_count r2 = read_no_write_count r1)
      by (subst r2; by destruct (bool_decide _)).
    destruct S2 as (S2 & N2). apply H; [|apply moved_freed|done|].
    + apply (core_freed ids b L h r); auto. congruence.
    + intros d N'. apply change_out. by intros (_ & ?)%list_elem_of_filter.
Qed.

Lemma wp_free_waiting b L h f r Q :
  Core L h r ->
  (forall w, w ∈ h <$> L write -> (tl_int (type w) <= 9 \/ type w = TL_WRITE_ONLY) /\
     (type w = TL_WRITE_CONCURRENT_INSERT -> b = true)) ->
  (forall L' h' r' f', Core L' h' r' -> moved L h L' h' -> same_lock r r' -> L' write = L write ->
     (L read_wait = [] -> L' read = L read /\ L' read_wait = []) ->
     (L read_wait <> [] -> L' = freed_qs b L h) -> L' write_wait = L write_wait ->
     Q tt (mk_a L' h' f' r')) ->
  wp (free_waiting_reads b) Q (mk_a L h f r).
Proof.
  intros C W H. unfold free_waiting_reads. apply wp_bind, wp_is_empty.
  destruct (bool_decide_reflect (L read_wait = [])) as [E|E].
  - cbn. apply H; auto using moved_refl; done.
  - apply wp_free_reads; auto. intros h' r' C' M' S' _. apply H; auto; try done; by apply freed_other.
Qed.

(** *** [wake_up_waiters] *)

Definition woken L h r L' h' r' : Prop :=
  Core L' h' r' /\ progress L' /\ moved L h L' h' /\ same_lock r r'.

Lemma keeps_false L h : keeps false L h = [].
Proof. apply filter_none. by intros d _ (_ & X). Qed.

Lemma frees_false L h : frees false L h = L read_wait.
Proof. apply filter_all. by intros d _ (_ & X). Qed.

Lemma no_writers L h P : L write = [] -> forall w, w ∈ h <$> L write -> P w.
Proof. intros E w I. rewrite E in I. by apply elem_of_nil in I. Qed.

Lemma running_progress L d : d ∈ L write -> progress L.
Proof. intros I. split; intros E; rewrite E in I; by apply elem_of_nil in I. Qed.

(** After all readers have been let go. *)
Lemma freed_progress L h : L read_wait <> [] -> progress (freed_qs false L h).
Proof.
  intros N. split; rewrite ?freed_read, ?freed_wait, ?keeps_false, ?frees_false; [|done].
  intros _ (_ & E)%app_nil. done.
Qed.

Lemma wp_free_all L h f r Q :
  Core L h r -> L write = [] -> L write_wait = [] \/ L read_wait <> [] \/ L read <> [] ->
  (forall L' h' r' f', woken L h r L' h' r' -> Q tt (mk_a L' h' f' r')) ->
  wp (free_waiting_reads false) Q (mk_a L h f r).
Proof.
  intros C W P H. apply wp_free_waiting; [done|by apply no_writers|].
  intros L' h' r' f' C' M' S' W' E1 E2 E3. apply H. split_and!; auto.
  destruct (decide (L read_wait = [])) as [E|E].
  - destruct (E1 E) as (R1 & R2). rewrite <- R1 in P. split; rewrite W', R2, E3; [|done].
    intros _ R. split; [|done]. destruct P as [P|[P|P]]; done.
  - rewrite (E2 E). by apply freed_progress.
Qed.

Lemma starts_free L h r L' h' r' f' d Q :
  starts L h r L' h' r' d -> tl_int (type (h' d)) < 11 ->
  (forall L' h' r' f', woken L h r L' h' r' -> Q tt (mk_a L' h' f' r')) ->
  wp (free_waiting_reads (is_ci (type (h' d)) || is_aw (type (h' d)))) Q (mk_a L' h' f' r').
Proof.
  intros (C & _ & _ & D & M & (S & _) & G) T H.
  destruct (core_kind _ _ _ _ C _ _ D) as (K & _).
  apply wp_free_waiting; [done| |].
  - intros w I. rewrite (G w I). split.
    + left. destruct K as (_ & K). destruct (type (h' d)); simpl in *; (lia || done).
    + intros ->. done.
  - intros L2 h2 r2 f2 C2 M2 S2 W2 _ _ _. apply H. split_and!; [done| |by eapply moved_trans|by eapply same_lock_trans].
    apply (running_progress _ d). by rewrite W2.
Qed.

Lemma wp_wake_idle fuel L h f r Q :
  Core L h r -> L write = [] -> L read = [] -> (length (L write_wait) <= fuel)%nat ->
  (forall L' h' r' f', woken L h r L' h' r' -> Q tt (mk_a L' h' f' r')) ->
  wp (wake_idle e fuel (first L h write_wait)) Q (mk_a L h f r).
Proof.
  intros C W R F H. unfold wake_idle.
  apply wp_bind, wp_head_info; [intros x; by apply (core_known L h r)|].
  assert (first L h write_wait = match L write_wait with [] => None | d :: _ => Some (d, h d) end) as -> by done.
  destruct (L write_wait) as [|d l] eqn:E; [apply wp_free_all; auto|].
  assert (I : d ∈ L write_wait) by (rewrite E; by left).
  destruct (core_kind _ _ _ _ C _ _ I) as (Kd & _).
  destruct (negb _ || _) eqn:B.
  - apply wp_bind, wp_get_rest, wp_bind, wp_modify.
    set (r1 := set_write_lock_count _ r). apply wp_bind.
    assert (X : forall r2, keep_rest r r2 -> wp
      (if bool_decide (write_lock_count r > max_write_lock_count e) && bool_decide (is_Some (first L h read_wait))
       then do (Free_reads false)
       else
         h ← write_loop fuel d;
         if match h with
            | Some (_, i) => bool_decide (tl_int (type i) >= tl_int TL_WRITE_LOW_PRIORITY)
            | None => false
            end
         then mret tt
         else free_waiting_reads (using_concurrent_insert h)) Q (mk_a L h f r2)).
    { intros r2 K2. assert (C2 : Core L h r2).
      { eapply core_ext; [|apply K2|apply K2|exact C]. done. }
      destruct (_ && _) eqn:B2.
      - apply andb_true_iff in B2 as (_ & B2). apply bool_decide_eq_true in B2.
        assert (Nr : L read_wait <> []) by (unfold first in B2; destruct (L read_wait); [by destruct B2|done]).
        apply wp_free_reads; [done|done|by apply no_writers|]. intros h' r' C' M' S' _. apply H.
        split_and!; [done|by apply freed_progress|done|]. eapply same_lock_trans; [apply K2|done].
      - apply wp_bind. apply (write_loop_ok fuel _ _ _ _ _ l); auto; [by apply no_writers|].
        intros L' h' r' d' S'. pose proof S' as (C' & _ & _ & D' & M' & (S1 & _) & G').
        cbn [tl_int].
        destruct (bool_decide_reflect (tl_int (type (h' d')) >= 11)) as [G|G].
        + apply H. split_and!; [done|by eapply running_progress|done|].
          eapply same_lock_trans; [apply K2|done].
        + apply (starts_free L h r2 L' h' r' None d'); [done|lia|]. intros L3 h3 r3 f3 (? & ? & ? & ?).
          apply H. split_and!; auto. eapply same_lock_trans; [apply K2|done]. }
    destruct (bool_decide (write_lock_count r > max_write_lock_count e)).
    + apply wp_modify. by apply X.
    + by apply X.
  - apply orb_false_iff in B as (B1 & B2). apply negb_false_iff, bool_decide_eq_true in B1.
    unfold using_concurrent_insert, is_ci, is_aw. rewrite B1. apply wp_free_all; auto. right. left.
    unfold first in B2. by destruct (L read_wait).
Qed.

Theorem wp_wake fuel L h f r Q :
  Core L h r -> (length (L write_wait) <= fuel)%nat ->
  (forall L' h' r' f', woken L h r L' h' r' -> Q tt (mk_a L' h' f' r')) ->
  wp (wake_up_waiters e fuel) Q (mk_a L h f r).
Proof.
  intros C F H. unfold wake_up_waiters. apply wp_bind, wp_is_empty.
  destruct (bool_decide_reflect (L write = [])) as [W|W].
  2: { apply H. split_and!; [done| |apply moved_refl|done]. by split. }
  apply wp_bind, wp_head_info; [intros x; by apply (core_known L h r)|].
  apply wp_bind, wp_is_empty. destruct (bool_decide_reflect (L read = [])) as [R|R]; [by apply wp_wake_idle|].
  unfold first. destruct (L write_wait) as [|d l] eqn:E; [apply wp_free_all; auto|].
  assert (I : d ∈ L write_wait) by (rewrite E; by left).
  apply wp_bind, wp_get_rest. destruct (beside_reads _ r) eqn:B.
  2: { apply H. split_and!; [done| |apply moved_refl|done]. split; [done|]. by rewrite E. }
  assert (D : d ∈ ids) by (by apply (core_known L h r write_wait)).
  assert (X : wp (write_with_reads_loop fuel (type (h d)) d;;
                  free_waiting_reads (is_ci (type (h d)) || is_aw (type (h d)))) Q (mk_a L h f r)).
  { pose proof (beside_reads_spec L h r _ C B) as Bs. apply wp_bind.
    apply (with_reads_loop_ok fuel _ _ _ _ _ l); auto; [by apply no_writers|].
    intros L' h' r' d' S' T'. rewrite <- T'. apply (starts_free L h r); auto.
    rewrite T'. destruct Bs as (Bs & _). lia. }
  apply wp_bind. unfold is_ci at 1. destruct (bool_decide_reflect (type (h d) = TL_WRITE_CONCURRENT_INSERT)) as [Ci|Ci]; [|done].
  apply wp_check; [eapply (core_check _ _ _ _ C); eauto|]. destruct (chk _); [|done].
  destruct (wait_cond L h r write_wait d) as (c & Ec); auto.
  apply wp_bind, wp_set_type; [done|].
  assert (C2 : Core L (<[d := with_type TL_WRITE (h d)]> h) r).
  { apply (core_retype ids L h r write_wait); auto; try done. }
  apply wp_free_all; auto. intros L' h' r' f' (? & ? & M & ?). apply H. split_and!; auto.
  eapply moved_trans; [|exact M]. split_and!; auto.
  - intros x N. split; [done|]. rewrite fn_lookup_insert_ne; [done|]. intros ->. by apply (N write_wait).
  - intros x. destruct (decide (x = d)) as [->|Xd].
    + by rewrite fn_lookup_insert.
    + by rewrite fn_lookup_insert_ne.
Qed.

End Wake.

End ThrWake.

(** * ThrSys: threads that use a table lock

    The calls of the interface of [thr_lock.c] as steps of a system: the lock
    and the instances whose threads sleep in [wait_for_lock].  [permitted] says
    how the server uses the interface; [Inv] is the invariant of the system on
    lists and the lemmas [step_*] show that every permitted call keeps it. *)
Module ThrSys.
Import ThrLock ThrSpec ThrSim ThrInv ThrWake.

Implicit Types (a : alock) (d o : Z) (q : queue) (i w v : lock_info) (t : thr_lock_type) (r : lock_rest)
  (L : queue -> list Z) (h : Z -> lock_info).

(** ** The system *)

(** An instance that sleeps, the queue it waits in and [in_wait_list]. *)
Abbreviation sleepers := (gmap Z (queue * bool)).
Implicit Types sl : sleepers.

Inductive call :=
  | Lock d o t (me : Z)
  | Wake d (timed_out : bool)
  | Unlock d
  | Abort_locks (upgrade_lock : bool)
  | Abort_locks_for_thread (id : Z)
  | Downgrade d t
  | Upgrade d t (me : Z)
  | Reschedule d (me : Z).

Inductive reply :=
  | Out (x : outcome)
  | Found (b : bool)
  | Rescheduled (t : option thr_lock_type).

Definition perform (e : env) (fuel : nat) sl (c : call) : prog reply :=
  match c with
  | Lock d o t me => x ← thr_lock e d o t me; mret (Out x)
  | Wake d timed_out =>
      match sl !! d with
      | Some (q, _) => x ← wait_for_lock e fuel q d timed_out; mret (Out x)
      | None => mret (Found false)
      end
  | Unlock d => x ← thr_unlock e fuel d; mret (Out x)
  | Abort_locks b => x ← thr_abort_locks b; mret (Out x)
  | Abort_locks_for_thread id => x ← thr_abort_locks_for_thread e fuel id; mret (Found x)
  | Downgrade d t => x ← thr_downgrade_write_lock d t; mret (Out x)
  | Upgrade d t me => x ← thr_upgrade_write_delay_lock d t me; mret (Out x)
  | Reschedule d me => x ← thr_reschedule_write_lock d me; mret (Rescheduled x)
  end.

Definition sleepers_after sl (c : call) (x : reply) : sleepers :=
  let sl := match c with Wake d _ => delete d sl | _ => sl end in
  match c, x with
  | (Lock d _ _ _ | Upgrade d _ _), Out (Sleeps q b) => <[d := (q, b)]> sl
  | _, _ => sl
  end.

(** *** How the server uses the interface *)

Definition lockable t : bool :=
  bool_decide (2 <= tl_int t) && negb (bool_decide (t = TL_WRITE_DEFAULT)).

(** An owner that has a write lock [w] and asks for a lock of type [t] again: a
    read lock, or the same type unless [w] keeps everybody else out. *)
Definition again o t w : bool :=
  negb (bool_decide (owner w = o)) || le t TL_READ_NO_INSERT ||
  (negb (bool_decide (type w = TL_WRITE_ONLY)) &&
   (bool_decide (tl_int TL_WRITE_DELAYED < tl_int (type w)) || bool_decide (t = type w))).

(** When concurrent inserts of several owners may run, an owner does not ask for
    [TL_READ_NO_INSERT] beside its own inserts. *)
Definition no_mix L h r o t : bool :=
  negb (allow_multiple_concurrent_insert r) ||
  (negb (bool_decide (t = TL_READ_NO_INSERT) &&
         existsb (fun x => bool_decide (owner (h x) = o) &&
                           (is_ci (type (h x)) || bool_decide (type (h x) = TL_WRITE_ONLY))) (L write)) &&
   negb (is_ci t &&
         existsb (fun x => bool_decide (owner (h x) = o) &&
                           bool_decide (type (h x) = TL_READ_NO_INSERT)) (L read))).

Definition permitted (ids : gset Z) (e : env) a sl (c : call) : bool :=
  let L := qs a in let h := inf a in let r := arest a in
  match c with
  | Lock d o t _ =>
      bool_decide (d ∈ ids) && negb (in_queue a d) && bool_decide (sl !! d = None) && lockable t &&
      forallb (fun x => again o t (h x)) (L write) && no_mix L h r o t
  | Wake d timed_out =>
      match sl !! d with
      | None => false
      | Some (_, in_wait_list) =>
          bool_decide (cond (h d) = None) ||
          (if timed_out then bool_decide (n_cursors e (owner_info e (owner (h d))) <> 0)
           else negb in_wait_list)
      end
  | Unlock d =>
      bool_decide (sl !! d = None) &&
      (bool_decide (d ∈ L read) || bool_decide (d ∈ L write) ||
       (bool_decide (d ∈ L write_wait) && bool_decide (type (h d) = TL_WRITE_DELAYED)))
  | Abort_locks _ | Abort_locks_for_thread _ => true
  | Downgrade d t =>
      bool_decide (sl !! d = None) && bool_decide (d ∈ L write) &&
      bool_decide (type (h d) = TL_WRITE_ONLY) &&
      lockable t && negb (le t TL_READ_NO_INSERT) && negb (is_ci t) &&
      forallb (fun x => bool_decide (owner (h x) = owner (h d))) (L write) &&
      (if le t TL_WRITE_DELAYED then bool_decide (L write = [d])
       else forallb (fun x => bool_decide (owner (h x) = owner (h d))) (L read))
  | Upgrade d t _ =>
      bool_decide (d ∈ ids) && bool_decide (sl !! d = None) && lockable t &&
      le TL_WRITE_LOW_PRIORITY t &&
      (bool_decide (type (h d) = TL_UNLOCK) || le TL_WRITE_LOW_PRIORITY (type (h d)) ||
       (bool_decide (type (h d) = TL_WRITE_DELAYED) &&
        (bool_decide (L write = [d]) || bool_decide (d ∈ L write_wait))))
  | Reschedule d _ => bool_decide (sl !! d = None) && bool_decide (L write = [d])
  end.

(** ** The invariant *)

(** A sleeping instance waits in its queue, or it has been granted, or it has
    been aborted. *)
Definition Sleeping (ids : gset Z) L h sl : Prop :=
  forall d q b, sl !! d = Some (q, b) ->
    d ∈ ids /\
    (q = read_wait /\ (d ∈ L read_wait \/ d ∈ L read) \/
     q = write_wait /\ (d ∈ L write_wait \/ d ∈ L write) \/
     (forall q, d ∉ L q) /\ cond (h d) = None /\ type (h d) = TL_UNLOCK).

Definition Inv (ids : gset Z) L h r sl : Prop :=
  Core ids L h r /\ progress L /\ Sleeping ids L h sl.

End ThrSys.
