(* ===== verification/ThrRequest.v ===== *)
(** * ThrRequest: requests for a table lock

    [thr_lock] keeps the invariant: the instance runs if it is compatible with
    what runs, and otherwise it waits behind somebody who holds the lock. *)
From stdpp Require Import base tactics option list numbers gmap functions.
From Stdlib Require Import ZArith Lia.
From S2P Require Import Prelude ThrLock ThrSpec ThrSim ThrInv ThrWake.

Module ThrRequest.
Import ThrLock ThrSpec ThrSim ThrInv ThrWake ThrSys.

Implicit Types (a : alock) (d o : Z) (q : queue) (i w v : lock_info) (t : thr_lock_type) (r : lock_rest)
  (L : queue -> list Z) (h : Z -> lock_info).

Definition put L q d : queue -> list Z := <[q := L q ++ [d]]> L.

Lemma put_eq L q d : put L q d q = L q ++ [d].
Proof. unfold put. by rewrite fn_lookup_insert. Qed.
Lemma put_ne L q d q' : q' <> q -> put L q d q' = L q'.
Proof. intros. unfold put. by rewrite fn_lookup_insert_ne. Qed.
Lemma put_nonempty L q d : put L q d q <> [].
Proof. rewrite put_eq. by destruct (L q). Qed.

(** Somebody else must hold the lock for a newcomer to wait. *)
Definition may_wait L q : Prop :=
  match q with
  | read_wait => L write <> [] \/ L read <> [] /\ L write_wait <> []
  | write_wait => L write <> [] \/ L read <> []
  | _ => True
  end.

Lemma progress_put L q d : progress L -> may_wait L q -> progress (put L q d).
Proof.
  intros (P1 & P2) M. split.
  - destruct q; rewrite ?put_eq, ?put_ne by done; try (by intros _ []%app_nil); try (by intros []%app_nil);
      intros W R; destruct M as [M|M]; naive_solver.
  - destruct q; rewrite ?put_eq, ?put_ne by done; try (by intros _ []%app_nil); try (by intros []%app_nil); auto.
    intros W WW. destruct M as [M|M]; naive_solver.
Qed.

(** The end of [thr_lock]. *)
Definition entered (ids : gset Z) L h r d (out : outcome) L' h' r' : Prop :=
  Core ids L' h' r' /\ progress L' /\ same_lock r r' /\ (forall x, x <> d -> h' x = h x) /\
  match out with
  | Returns THR_LOCK_SUCCESS =>
      exists q, q <> read_wait /\ (q = write_wait -> type (h' d) = TL_WRITE_DELAYED) /\ L' = put L q d
  | Sleeps q b => b = false /\ (q = read_wait \/ q = write_wait) /\ L' = put L q d
  | _ => L' = L
  end.

Section Request.
Context (ids : gset Z) (chk : Z -> bool) (e : env).

Abbreviation wp := (wp ids chk).
Abbreviation Core := (Core ids).

(** *** The newcomer *)

(** [thr_lock] has initialised [d], which is not in a queue. *)
Record newcomer L h r d o t : Prop := {
  new_core : Core L h r;
  new_progress : progress L;
  new_ids : d ∈ ids;
  new_idle : forall q, d ∉ L q;
  new_owner : owner (h d) = o;
  new_cond : cond (h d) = None;
  new_type : type (h d) = t }.

Lemma core_put_at L h h2 r r' q d i :
  (forall x, h2 x = (<[d := i]> h : Z -> lock_info) x) ->
  Core L h r -> d ∈ ids -> (forall q, d ∉ L q) -> kind q i -> same_lock r r' ->
  (type i = TL_WRITE_CONCURRENT_INSERT -> check_status r = true) ->
  read_no_write_count r' = read_no_write_count r + (if decide (q = read) then one (type i) else 0) ->
  fits (allow_multiple_concurrent_insert r) L h q i ->
  Core (put L q d) h2 r'.
Proof.
  intros E C D O K S Ci N F. apply (core_ext ids _ (<[d := i]> h) r'); [by intros q' x _|done|done|].
  apply (core_put ids L h r); auto.
Qed.

Lemma apart_put L q d : Apart ids L -> d ∈ ids -> (forall q, d ∉ L q) -> Apart ids (put L q d).
Proof.
  intros A D O. pose proof A as (A1 & A2 & A3). apply apart_insert; [done| |].
  - apply list.NoDup_app. split_and!; [done| |apply NoDup_singleton].
    intros x Hx ->%list_elem_of_singleton. by apply (O q).
  - intros x [Hx| ->%list_elem_of_singleton]%elem_of_app; [|auto].
    split; [by apply (A3 q)|]. intros q' F' X. by apply F', (A2 q' q x).
Qed.

Lemma insert_same h d x : h x = (<[d := h d]> h : Z -> lock_info) x.
Proof.
  destruct (decide (x = d)) as [->|N]; [by rewrite fn_lookup_insert|by rewrite fn_lookup_insert_ne].
Qed.

Lemma wp_enqueue q d L h r Q :
  Q tt (mk_a (put L q d) h None r) -> wp (do (Enqueue q d)) Q (mk_a L h (Some d) r).
Proof. intros H. cbn. rewrite bool_decide_true by done. exact H. Qed.

Lemma read_not_ci t : is_read t -> t <> TL_WRITE_CONCURRENT_INSERT.
Proof. intros H ->. unfold is_read in H. simpl in H. lia. Qed.

Lemma wp_grant_read L h r d o t Q :
  newcomer L h r d o t -> is_read t -> Z.of_nat (size ids) < 2 ^ 32 ->
  fits (allow_multiple_concurrent_insert r) L h read (h d) ->
  (forall out L' h' r', entered ids L h r d out L' h' r' -> Q out (mk_a L' h' None r')) ->
  wp (grant_read d t) Q (mk_a L h (Some d) r).
Proof.
  intros [C P D O Ow Co T] R few F H. unfold grant_read.
  apply wp_bind, wp_enqueue, wp_bind.
  assert (X : forall r1, same_lock r r1 -> read_no_write_count r1 = read_no_write_count r + one t ->
    wp (call_get_status d false;; modify count_immediate;; mret (Returns THR_LOCK_SUCCESS)) Q
      (mk_a (put L read d) h None r1)).
  { intros r1 S1 N1. apply wp_bind, wp_call_get_status; [done|]. intros r2 (S2 & N2).
    apply wp_bind, wp_modify. apply (H (Returns THR_LOCK_SUCCESS)). split_and!.
    - apply (core_put_at L h _ r _ read d (h d)); auto; [apply insert_same|by rewrite <- T in R| | |].
      + by apply (same_lock_trans _ r1 _ S1).
      + intros X. rewrite T in X. by apply read_not_ci in R.
      + simpl. rewrite T. lia.
    - by apply progress_put.
    - by apply (same_lock_trans _ r1 _ S1).
    - done.
    - by exists read. }
  assert (B : 0 <= read_no_write_count r + one t < 2 ^ 32).
  { rewrite (core_count _ _ _ _ C), <- T, <- no_inserts_one, <- no_inserts_app, <- put_eq.
    apply (no_inserts_bound ids); [done|]. apply apart_put; auto. apply (core_apart _ _ _ _ C). }
  unfold one in *. destruct (bool_decide_reflect (t = TL_READ_NO_INSERT)) as [Ti|Ti].
  - apply wp_bind, wp_get_rest, wp_modify. apply X; [done|]. cbn. by apply uwrap_small.
  - apply X; [done|lia].
Qed.

Lemma wp_grant_write L h r d o t b Q :
  newcomer L h r d o t -> is_write t -> (t = TL_WRITE_CONCURRENT_INSERT -> check_status r = true) ->
  fits (allow_multiple_concurrent_insert r) L h write (h d) ->
  (forall out L' h' r', entered ids L h r d out L' h' r' -> Q out (mk_a L' h' None r')) ->
  wp (grant_write d b) Q (mk_a L h (Some d) r).
Proof.
  intros [C P D O Ow Co T] W Ci F H. unfold grant_write.
  apply wp_bind, wp_enqueue, wp_bind, wp_call_get_status; [done|]. intros r1 (S1 & N1).
  apply wp_bind, wp_modify. apply (H (Returns THR_LOCK_SUCCESS)). split_and!.
  - apply (core_put_at L h _ r _ write d (h d)); auto; [apply insert_same|by rewrite <- T in W|by rewrite T|].
    simpl. lia.
  - by apply progress_put.
  - done.
  - done.
  - by exists write.
Qed.

(** The instance goes to a queue of waiting ones and gets a condition variable. *)
Lemma core_wait L h r r' q d o t c h2 :
  newcomer L h r d o t -> q = read_wait /\ is_read t \/ q = write_wait /\ is_write t ->
  (t = TL_WRITE_CONCURRENT_INSERT -> check_status r = true) -> keep_rest r r' ->
  (forall x, h2 x = (<[d := with_cond (Some c) (h d)]> h : Z -> lock_info) x) ->
  Core (put L q d) h2 r'.
Proof.
  intros [C P D O Ow Co T] K Ci (S & N) E.
  apply (core_put_at L h _ r _ q d (with_cond (Some c) (h d))); auto.
  - destruct K as [(-> & K)|(-> & K)]; rewrite <- T in K; by split.
  - cbn. by rewrite T.
  - rewrite N. destruct K as [(-> & _)|(-> & _)]; simpl; lia.
  - by destruct K as [(-> & _)|(-> & _)].
Qed.

Lemma wp_wait_enter L h r q d o t me Q :
  newcomer L h r d o t -> q = read_wait /\ is_read t \/ q = write_wait /\ is_write t ->
  (t = TL_WRITE_CONCURRENT_INSERT -> check_status r = true) -> may_wait L q ->
  (forall out L' h' r', entered ids L h r d out L' h' r' -> Q out (mk_a L' h' None r')) ->
  wp (wait_enter q d me false) Q (mk_a L h (Some d) r).
Proof.
  intros Nw K Ci M H. unfold wait_enter. apply wp_bind, wp_enqueue, wp_bind, wp_modify.
  apply wp_bind, wp_set_cond; [apply Nw|]. apply (H (Sleeps q false)). split_and!.
  - by eapply (core_wait _ h r).
  - apply progress_put; [apply Nw|done].
  - done.
  - intros x X. by rewrite fn_lookup_insert_ne.
  - done.
  - naive_solver.
  - done.
Qed.

Lemma wp_wait_or_deadlock L h r q d o t me Q :
  newcomer L h r d o t -> q = read_wait /\ is_read t \/ q = write_wait /\ is_write t ->
  (t = TL_WRITE_CONCURRENT_INSERT -> check_status r = true) -> may_wait L q ->
  (forall out L' h' r' f', entered ids L h r d out L' h' r' -> Q out (mk_a L' h' f' r')) ->
  wp (wait_or_deadlock e q d o me) Q (mk_a L h (Some d) r).
Proof.
  intros Nw K Ci M H. unfold wait_or_deadlock.
  apply wp_bind, wp_head_info; [intros x; apply (core_known ids L h r), Nw|].
  apply wp_bind, wp_head_info; [intros x; apply (core_known ids L h r), Nw|].
  destruct (match match first L h read with Some x => Some x | None => first L h write end with
            | Some (_, i) => bool_decide (owner_info e (owner i) = owner_info e o) | None => false end).
  - apply (H (Returns THR_LOCK_DEADLOCK)). split_and!; [apply Nw|apply Nw|done|done|done].
  - apply (wp_wait_enter L h r q d o t); auto.
Qed.

Lemma wp_aborted L h r d o t Q :
  newcomer L h r d o t ->
  (forall out L' h' r' f', entered ids L h r d out L' h' r' -> Q out (mk_a L' h' f' r')) ->
  wp (aborted d) Q (mk_a L h (Some d) r).
Proof.
  intros [C P D O Ow Co T] H. unfold aborted. apply wp_bind, wp_set_type; [done|].
  apply (H (Returns THR_LOCK_ABORTED)). split_and!; [|done|done| |done].
  - apply (core_ext ids L h r); [|done|done|done]. intros q x I. rewrite fn_lookup_insert_ne; [done|].
    intros ->. by apply (O q).
  - intros x X. by rewrite fn_lookup_insert_ne.
Qed.

(** *** Requests *)

(** What [permitted] says about a request. *)
Record disciplined L h r o t : Prop := {
  disc_again : forall x, x ∈ L write -> owner (h x) = o ->
    is_read t \/ type (h x) <> TL_WRITE_ONLY /\ (9 < tl_int (type (h x)) \/ t = type (h x));
  disc_no_insert : allow_multiple_concurrent_insert r = true -> t = TL_READ_NO_INSERT ->
    forall x, x ∈ L write -> owner (h x) = o ->
    type (h x) <> TL_WRITE_CONCURRENT_INSERT /\ type (h x) <> TL_WRITE_ONLY;
  disc_insert : allow_multiple_concurrent_insert r = true -> t = TL_WRITE_CONCURRENT_INSERT ->
    forall x, x ∈ L read -> owner (h x) = o -> type (h x) <> TL_READ_NO_INSERT }.

(** The first running writer and the others. *)
Lemma first_writer L h r x l y :
  Core L h r -> L write = x :: l -> y ∈ L write ->
  y = x \/ ww_ok (allow_multiple_concurrent_insert r) (h x) (h y).
Proof.
  intros C E I. destruct (core_excl _ _ _ _ C) as (X & _). rewrite E in *. destruct X as (X & _).
  apply elem_of_cons in I as [->|I]; [by left|right].
  rewrite Forall_forall in X. apply X, list_elem_of_In, list_elem_of_fmap. eauto.
Qed.

Lemma shared_le m t : shared m t -> tl_int t <= 9.
Proof. intros [->|(-> & _)]; simpl; lia. Qed.

Lemma fits_read_own L h r d o t x l :
  newcomer L h r d o t -> disciplined L h r o t -> L write = x :: l -> owner (h x) = o ->
  fits (allow_multiple_concurrent_insert r) L h read (h d).
Proof.
  intros [C P D O Ow Co T] G E Ex w (y & -> & I)%list_elem_of_fmap.
  assert (Ix : x ∈ L write) by (rewrite E; by left).
  destruct (first_writer L h r x l y C E I) as [->|(W1 & W2)]; split; rewrite ?Ow, ?T, ?Ex.
  - done.
  - intros Ci Ni. split; [done|]. destruct (allow_multiple_concurrent_insert r) eqn:M; [|done].
    by destruct (disc_no_insert _ _ _ _ _ G M Ni x Ix Ex).
  - intros N. rewrite Ex in W2. destruct W2 as (Sh & _); [congruence|]. left. by eapply shared_le.
  - intros Ci Ni. destruct (decide (owner (h y) = o)) as [Ey|Ey].
    + split; [done|]. destruct (allow_multiple_concurrent_insert r) eqn:M; [|done].
      by destruct (disc_no_insert _ _ _ _ _ G M Ni y I Ey).
    + rewrite Ex in W2. destruct W2 as (Sh & Ty); [congruence|]. rewrite Ci in Sh.
      destruct Sh as [?|(_ & M)]; [done|].
      destruct (disc_no_insert _ _ _ _ _ G M Ni x Ix Ex) as (N1 & N2). destruct Ty; congruence.
Qed.

Lemma fits_read_other L h r d o t x l :
  newcomer L h r d o t -> L write = x :: l -> tl_int (type (h x)) <= 9 ->
  (t = TL_READ_NO_INSERT -> type (h x) <> TL_WRITE_CONCURRENT_INSERT) ->
  fits (allow_multiple_concurrent_insert r) L h read (h d).
Proof.
  intros [C P D O Ow Co T] E Tx N w (y & -> & I)%list_elem_of_fmap.
  assert (Ty : type (h y) = type (h x)).
  { destruct (first_writer L h r x l y C E I) as [->|(W1 & _)]; auto. }
  split; rewrite Ty, ?T; [auto|]. intros Ci Ni. by destruct (N Ni).
Qed.

Lemma wp_lock_read L h r d o t me Q :
  newcomer L h r d o t -> is_read t -> disciplined L h r o t -> Z.of_nat (size ids) < 2 ^ 32 ->
  (forall out L' h' r' f', entered ids L h r d out L' h' r' -> Q out (mk_a L' h' f' r')) ->
  wp (lock_read e d o t me) Q (mk_a L h (Some d) r).
Proof.
  intros Nw R G few H. pose proof (new_core _ _ _ _ _ _ Nw) as C. unfold lock_read.
  assert (Ci : t = TL_WRITE_CONCURRENT_INSERT -> check_status r = true) by (intros ->; by apply read_not_ci in R).
  apply wp_bind, wp_head_info; [intros x; by apply (core_known ids L h r)|].
  unfold first. destruct (L write) as [|x l] eqn:E.
  - apply wp_bind, wp_head_info; [intros x; by apply (core_known ids L h r)|].
    assert (F : fits (allow_multiple_concurrent_insert r) L h read (h d)).
    { intros w I. rewrite E in I. by apply elem_of_nil in I. }
    unfold first. destruct (L write_wait) as [|y l] eqn:E2.
    { cbn. apply (wp_grant_read L h r d o); auto. }
    assert (X : forall b : bool, wp (if b then grant_read d t else wait_or_deadlock e read_wait d o me) Q
      (mk_a L h (Some d) r)).
    { intros []; [apply (wp_grant_read L h r d o); auto|].
      apply (wp_wait_or_deadlock L h r _ d o t); auto. right. rewrite E2. split; [|done].
      intros E3. by destruct (proj1 (new_progress _ _ _ _ _ _ Nw) E E3) as (? & _); congruence. }
    apply wp_bind. destruct (_ || _); [apply (X true)|]. apply X.
  - unfold thr_lock_owner_equal.
    destruct (bool_decide_reflect (o = owner (h x))) as [Ex|Ex]; cbn [orb].
    + apply (wp_grant_read L h r d o); auto. by eapply fits_read_own.
    + destruct (_ && _) eqn:B.
      * apply andb_true_iff in B as (B1 & B2). unfold le in *. apply bool_decide_eq_true in B1.
        apply (wp_grant_read L h r d o); auto. eapply fits_read_other; [done|done|done|].
        intros -> Ci'. unfold is_ci in B2. by rewrite Ci' in B2.
      * destruct (bool_decide (type (h x) = TL_WRITE_ONLY)); [by apply (wp_aborted L h r d o t)|].
        apply (wp_wait_or_deadlock L h r _ d o t); auto. left. by rewrite E.
Qed.

Lemma write_not_read t : is_write t -> is_read t -> False.
Proof. unfold is_read, is_write. lia. Qed.

(** The first running writer has the same owner. *)
Lemma fits_write_own L h r d o t x l :
  newcomer L h r d o t -> is_write t -> disciplined L h r o t -> L write = x :: l -> owner (h x) = o ->
  fits (allow_multiple_concurrent_insert r) L h write (h d).
Proof.
  intros [C P D O Ow Co T] Wt G E Ex. assert (Ix : x ∈ L write) by (rewrite E; by left).
  assert (Ag : forall y, y ∈ L write -> owner (h y) = o ->
    type (h y) <> TL_WRITE_ONLY /\ (9 < tl_int (type (h y)) \/ t = type (h y))).
  { intros y Iy Ey. destruct (disc_again _ _ _ _ _ G y Iy Ey) as [F|F]; [|done]. by destruct (write_not_read t). }
  destruct (Ag x Ix Ex) as (Ax1 & Ax2). destruct (core_excl _ _ _ _ C) as (_ & WR). split.
  - apply Forall_forall. intros w (y & -> & I)%list_elem_of_In%list_elem_of_fmap.
    destruct (decide (owner (h y) = o)) as [Ey|Ey].
    + destruct (Ag y I Ey) as (_ & [A|A]); split; rewrite ?Ow, ?T; try done; lia.
    + destruct (first_writer L h r x l y C E I) as [->|(_ & W2)]; [done|].
      destruct W2 as (Sh & [Ty|Ty]); [congruence| |done]. pose proof (shared_le _ _ Sh).
      assert (t = type (h y)) as Et by (destruct Ax2; [rewrite Ty in *; lia|congruence]).
      split; rewrite ?Ow, ?T; [done|]. intros _. rewrite Et. auto.
  - intros v V. destruct (WR (h x) v) as (R1 & R2); [apply list_elem_of_fmap; eauto|done|].
    rewrite Ex in R1, R2. split; rewrite ?Ow, ?T.
    + intros N. destruct (R1 N) as [Le|]; [|done]. left. destruct Ax2 as [|Et]; [lia|by rewrite Et].
    + intros Ci Ni. destruct Ax2 as [Ax2|Et]; [|apply R2; congruence].
      destruct (decide (o = owner v)) as [Ev|Ev].
      * split; [done|]. destruct (allow_multiple_concurrent_insert r) eqn:M; [|done].
        apply list_elem_of_fmap in V as (y & -> & Iy).
        by destruct (disc_insert _ _ _ _ _ G M Ci y Iy).
      * destruct (R1 Ev); [lia|done].
Qed.

(** The newcomer has the same shared type as all running writers. *)
Lemma fits_write_shared L h r d o t x l :
  newcomer L h r d o t -> L write = x :: l -> t = type (h x) ->
  shared (allow_multiple_concurrent_insert r) t ->
  fits (allow_multiple_concurrent_insert r) L h write (h d).
Proof.
  intros [C P D O Ow Co T] E Tx Sh. pose proof (shared_le _ _ Sh) as Le.
  assert (Ix : x ∈ L write) by (rewrite E; by left).
  destruct (core_excl _ _ _ _ C) as (_ & WR). split.
  - apply Forall_forall. intros w (y & -> & I)%list_elem_of_In%list_elem_of_fmap.
    assert (Ty : type (h y) = t).
    { destruct (first_writer L h r x l y C E I) as [->|(W1 & _)]; [done|]. rewrite Tx in *. auto. }
    split; rewrite ?T, ?Ty; auto.
  - intros v V. destruct (WR (h x) v) as (R1 & R2); [apply list_elem_of_fmap; eauto|done|].
    split; rewrite ?T; [auto|]. intros Ci Ni. rewrite <- Tx in R2. destruct (R2 Ci Ni) as (_ & M).
    rewrite Ci in Sh. destruct Sh as [?|(_ & M')]; congruence.
Qed.

(** Nobody writes. *)
Lemma fits_write_alone L h r d o t :
  newcomer L h r d o t -> L write = [] -> L read = [] \/ beside L h r t ->
  fits (allow_multiple_concurrent_insert r) L h write (h d).
Proof.
  intros [C P D O Ow Co T] E B. split; [by rewrite E|]. intros v V. destruct B as [B|B].
  - rewrite B in V. by apply elem_of_nil in V.
  - by apply (beside_wr L h r t).
Qed.

Lemma newcomer_type L h r d o t t' :
  newcomer L h r d o t -> newcomer L (<[d := with_type t' (h d)]> h) r d o t'.
Proof.
  intros [C P D O Ow Co T]. constructor; auto; rewrite ?fn_lookup_insert; auto.
  apply (core_ext ids L h r); [|done|done|done]. intros q x I. rewrite fn_lookup_insert_ne; [done|].
  intros ->. by apply (O q).
Qed.

Lemma entered_type L h r d i out L' h' r' :
  entered ids L (<[d := i]> h) r d out L' h' r' -> entered ids L h r d out L' h' r'.
Proof.
  intros (A & B & C & D & E). split_and!; auto. intros x X. rewrite D by done. by rewrite fn_lookup_insert_ne.
Qed.

Context (up : thr_upgraded_concurrent_insert_lock e = TL_WRITE \/
              thr_upgraded_concurrent_insert_lock e = TL_WRITE_LOW_PRIORITY).

Lemma upgraded_write : is_write (thr_upgraded_concurrent_insert_lock e) /\
  thr_upgraded_concurrent_insert_lock e <> TL_WRITE_CONCURRENT_INSERT.
Proof. destruct up as [-> | ->]; split_and!; (done || (simpl; lia)). Qed.

Lemma wp_lock_write L h r d o t me Q :
  newcomer L h r d o t -> is_write t -> disciplined L h r o t ->
  (t = TL_WRITE_CONCURRENT_INSERT -> check_status r = true) ->
  (forall out L' h' r' f', entered ids L h r d out L' h' r' -> Q out (mk_a L' h' f' r')) ->
  wp (lock_write e d o t me) Q (mk_a L h (Some d) r).
Proof.
  intros Nw W G Ci H. pose proof (new_core _ _ _ _ _ _ Nw) as C. unfold lock_write.
  apply wp_bind, wp_head_info; [intros x; by apply (core_known ids L h r)|].
  apply wp_bind, wp_is_empty. unfold first. destruct (L write) as [|x l] eqn:E.
  - destruct (bool_decide_reflect (L write_wait = [])) as [E2|E2].
    2: { apply (wp_wait_or_deadlock L h r _ d o t); auto. right. intros E3.
         by destruct (proj1 (new_progress _ _ _ _ _ _ Nw) E E3). }
    assert (X : forall t' b h', newcomer L h' r d o t' -> is_write t' ->
      (t' = TL_WRITE_CONCURRENT_INSERT -> check_status r = true) ->
      (forall out L1 h1 r1, entered ids L h' r d out L1 h1 r1 -> entered ids L h r d out L1 h1 r1) ->
      wp (no_read ← is_empty read; r ← do Get_rest;
          if (no_read : bool) || beside_reads t' r then grant_write d b
          else wait_or_deadlock e write_wait d o me) Q (mk_a L h' (Some d) r)).
    { intros t' b h' N' W' Ci' H'. apply wp_bind, wp_is_empty, wp_bind, wp_get_rest.
      pose proof (new_core _ _ _ _ _ _ N') as C'.
      destruct (_ || _) eqn:B.
      - apply (wp_grant_write L h' r d o t'); auto. apply (fits_write_alone L h' r d o t'); auto.
        apply orb_true_iff in B as [B|B]; [left; by apply bool_decide_eq_true in B|right].
        by apply (beside_reads_spec ids L).
      - apply orb_false_iff in B as (B & _). apply bool_decide_eq_false in B.
        apply (wp_wait_or_deadlock L h' r _ d o t'); auto. by right. }
    apply wp_bind. unfold is_ci.
    destruct (bool_decide_reflect (t = TL_WRITE_CONCURRENT_INSERT)) as [Tc|Tc].
    + apply wp_bind, wp_get; [apply Nw|]. apply wp_bind, wp_check; [auto|]. destruct (chk _).
      * apply wp_bind, wp_set_type; [apply Nw|]. destruct upgraded_write as (U1 & U2).
        apply X; [by eapply newcomer_type|done|done|]. intros. by eapply entered_type.
      * by apply X.
    + by apply X.
  - apply wp_bind, wp_get_rest. unfold thr_lock_owner_equal.
    destruct (bool_decide_reflect (o = owner (h x))) as [Ex|Ex]; cbn [negb orb].
    + rewrite andb_false_r. apply (wp_grant_write L h r d o t); auto. by eapply fits_write_own.
    + rewrite andb_true_r. destruct (bool_decide (type (h x) = TL_WRITE_ONLY)); [by apply (wp_aborted L h r d o t)|].
      destruct (_ && _) eqn:B.
      * apply andb_true_iff in B as (B1 & B2). apply andb_true_iff in B1 as (_ & B1).
        apply bool_decide_eq_true in B1. unfold is_aw, is_ci in B2.
        apply (wp_grant_write L h r d o t); auto. eapply fits_write_shared; [done|done|done|].
        apply orb_true_iff in B2 as [B2|B2].
        -- left. by apply bool_decide_eq_true in B2.
        -- apply andb_true_iff in B2 as (B2 & B3). apply bool_decide_eq_true in B2. by right.
      * apply (wp_wait_or_deadlock L h r _ d o t); auto. left. by rewrite E.
Qed.

Lemma lockable_kind t : lockable t = true ->
  if le t TL_READ_NO_INSERT then is_read t else is_write t.
Proof.
  intros (A & B)%andb_true_iff. apply bool_decide_eq_true in A.
  apply negb_true_iff, bool_decide_eq_false in B. unfold le.
  destruct (bool_decide_reflect (tl_int t <= tl_int TL_READ_NO_INSERT)) as [X|X]; simpl in X.
  - unfold is_read. lia.
  - split; [lia|done].
Qed.

Lemma disciplined_ext L h h' r o t :
  (forall q x, x ∈ L q -> h' x = h x) -> disciplined L h r o t -> disciplined L h' r o t.
Proof.
  intros E [A B C]. constructor.
  - intros x I. rewrite (E write x I). auto.
  - intros M T x I. rewrite (E write x I). auto.
  - intros M T x I. rewrite (E read x I). auto.
Qed.

Lemma disciplined_upgrade L h r o :
  Core L h r -> check_status r = false -> disciplined L h r o TL_WRITE_CONCURRENT_INSERT ->
  disciplined L h r o (thr_upgraded_concurrent_insert_lock e).
Proof.
  intros C Ck [A B D]. destruct upgraded_write as (U1 & U2). constructor.
  - intros x I Ex. right. destruct (A x I Ex) as [R|(W & [T|T])]; [by apply read_not_ci in R|auto|].
    rewrite (core_check _ _ _ _ C write x) in Ck; [done|by left|done|done].
  - intros _ T. rewrite T in U1. unfold is_write in U1. simpl in U1. lia.
  - done.
Qed.

Lemma wp_init L h f r d o t Q :
  d ∈ ids -> (forall q, d ∉ L q) ->
  Q tt (mk_a L (<[d := mk_info o None t (status_param (h d))]> h) (Some d) r) ->
  wp (do (Init d o t)) Q (mk_a L h f r).
Proof.
  intros D O H. cbn. rewrite (known_in ids d) by done.
  assert (in_queue (mk_a L h f r) d = false) as -> by (by apply in_queue_spec). exact H.
Qed.

Lemma wp_have q g L h f r Q :
  Q (existsb (fun d => g (h d)) (L q)) (mk_a L h f r) -> wp (do (Have q g)) Q (mk_a L h f r).
Proof. done. Qed.

(** [TL_WRITE_DELAYED] waits in the queue while the call returns. *)
Lemma wp_delayed L h r d o me Q :
  newcomer L h r d o TL_WRITE_DELAYED -> may_wait L write_wait ->
  (forall out L' h' r' f', entered ids L h r d out L' h' r' -> Q out (mk_a L' h' f' r')) ->
  wp (do (Enqueue write_wait d);; do (Set_cond d (Some me));; modify count_immediate;;
      mret (Returns THR_LOCK_SUCCESS)) Q (mk_a L h (Some d) r).
Proof.
  intros Nw M H. apply wp_bind, wp_enqueue, wp_bind, wp_set_cond; [apply Nw|]. apply wp_bind, wp_modify.
  apply (H (Returns THR_LOCK_SUCCESS)). split_and!.
  - eapply (core_wait _ h r); [done| |done|done|done]. right. by repeat split.
  - apply progress_put; [apply Nw|done].
  - done.
  - intros x X. by rewrite fn_lookup_insert_ne.
  - exists write_wait. split_and!; [done| |done]. intros _. rewrite fn_lookup_insert. apply Nw.
Qed.

Theorem wp_thr_lock L h f r d o t me Q :
  Core L h r -> progress L -> d ∈ ids -> (forall q, d ∉ L q) -> lockable t = true ->
  disciplined L h r o t -> Z.of_nat (size ids) < 2 ^ 32 ->
  (forall out L' h' r' f', entered ids L h r d out L' h' r' -> Q out (mk_a L' h' f' r')) ->
  wp (thr_lock e d o t me) Q (mk_a L h f r).
Proof.
  intros C P D O Lk G few H. unfold thr_lock. apply wp_bind, wp_init; [done|done|].
  set (h1 := <[d := _]> h : Z -> lock_info).
  assert (E : forall q x, x ∈ L q -> h1 x = h x).
  { intros q x I. subst h1. rewrite fn_lookup_insert_ne; [done|]. intros ->. by apply (O q). }
  assert (Nw : newcomer L h1 r d o t).
  { constructor; auto; subst h1; rewrite ?fn_lookup_insert; auto. by apply (core_ext ids L h r). }
  apply (disciplined_ext L h h1) in G; [|done].
  assert (H1 : forall out L' h' r' f', entered ids L h1 r d out L' h' r' -> Q out (mk_a L' h' f' r')).
  { intros. apply H. by eapply entered_type. }
  clearbody h1. clear H E. pose proof (lockable_kind t Lk) as K. pose proof (new_core _ _ _ _ _ _ Nw) as C1.
  destruct (le t TL_READ_NO_INSERT); [by apply wp_lock_read|].
  destruct (bool_decide_reflect (t = TL_WRITE_DELAYED)) as [Td|Td].
  - apply wp_bind, wp_head_info; [intros x; by apply (core_known ids L h1 r)|].
    destruct (match first L h1 write with Some (_, wi) => _ | None => false end); [by apply (wp_aborted L h1 r d o t)|].
    assert (X : forall b : bool, wp (no_read ← is_empty read;
      if negb b && (bool_decide (is_Some (first L h1 write)) || negb no_read)
      then do (Enqueue write_wait d);; do (Set_cond d (Some me));; modify count_immediate;;
           mret (Returns THR_LOCK_SUCCESS)
      else lock_write e d o t me) Q (mk_a L h1 (Some d) r)).
    { intros b. apply wp_bind, wp_is_empty. destruct (_ && _) eqn:B.
      - apply andb_true_iff in B as (_ & B). subst t. apply (wp_delayed L h1 r d o); auto.
        apply orb_true_iff in B as [B|B].
        + left. unfold first in B. apply bool_decide_eq_true in B. destruct (L write); [by destruct B|done].
        + right. by apply negb_true_iff, bool_decide_eq_false in B.
      - apply wp_lock_write; auto. by subst t. }
    apply wp_bind. destruct (match first L h1 write with Some (_, wi) => _ | None => false end).
    + apply (X true).
    + apply wp_have, X.
  - apply wp_bind, wp_get_rest. unfold is_ci.
    destruct (bool_decide_reflect (t = TL_WRITE_CONCURRENT_INSERT)) as [Ci|Ci]; cbn [andb].
    + destruct (check_status r) eqn:Ck; cbn [negb]; [apply wp_lock_write; auto|].
      destruct upgraded_write as (U1 & U2). subst t.
      apply wp_bind, wp_set_type; [done|]. apply wp_lock_write; auto.
      * by eapply newcomer_type.
      * eapply disciplined_ext; [|by apply disciplined_upgrade].
        intros q x I. rewrite fn_lookup_insert_ne; [done|]. intros ->. by apply (O q).
      * intros. apply H1. by eapply entered_type.
    + apply wp_lock_write; auto.
Qed.

End Request.
End ThrRequest.
