(* ===== verification/ThrSteps.v ===== *)
(** * ThrSteps: every permitted call keeps the invariant of the system *)
From stdpp Require Import base tactics option list numbers gmap functions.
From Stdlib Require Import ZArith Lia.
From S2P Require Import Prelude ThrLock ThrSpec ThrSim ThrInv ThrWake ThrRequest.

Module ThrSteps.
Import ThrLock ThrSpec ThrSim ThrInv ThrWake ThrSys ThrRequest.

Implicit Types (a : alock) (d o : Z) (q : queue) (i w v : lock_info) (t : thr_lock_type) (r : lock_rest)
  (L : queue -> list Z) (h : Z -> lock_info) (sl : sleepers).

(** An instance that waits for the thread [id]. *)
Definition waits_for e (id : Z) L0 h0 x : Prop :=
  (x ∈ L0 read_wait \/ x ∈ L0 write_wait) /\ thread_id e (owner_info e (owner (h0 x))) = id.

(** The reply tells the caller what has happened; [L0] and [h0] are the queues and
    instances before the call.

    [thr_lock] and the end of a wait: success means that the instance runs (or, at
    once only, that it is a delayed insert in the queue), sleep that it waits, and
    every other result that it is in no queue.  [thr_abort_locks] leaves nobody
    waiting, and [thr_abort_locks_for_thread] tells whether it found somebody.
    [thr_upgrade_write_delay_lock], for an instance that has a lock or is a delayed
    insert, succeeds only when the instance runs with at least
    [TL_WRITE_LOW_PRIORITY], and fails only when it has been aborted.
    [thr_reschedule_write_lock] changes nothing when no reader waits, and otherwise
    lets every waiting reader run, makes the writer wait as a delayed one and
    returns the type it had. *)
Definition honest e (c : call) (x : reply) L0 h0 L h : Prop :=
  match c, x with
  | Lock d _ _ _, Out (Returns THR_LOCK_SUCCESS) =>
      d ∈ L read \/ d ∈ L write \/ d ∈ L write_wait /\ type (h d) = TL_WRITE_DELAYED
  | Wake d _, Out (Returns THR_LOCK_SUCCESS) => d ∈ L read \/ d ∈ L write
  | (Lock d _ _ _ | Wake d _ | Upgrade d _ _), Out (Returns (THR_LOCK_ABORTED | THR_LOCK_WAIT_TIMEOUT | THR_LOCK_DEADLOCK)) =>
      forall q, d ∉ L q
  | (Lock d _ _ _ | Upgrade d _ _), Out (Sleeps q _) => d ∈ L q
  | Unlock d, Out (Returns THR_LOCK_SUCCESS) => forall q, d ∉ L q
  | Abort_locks upgrade_lock, Out (Returns THR_LOCK_SUCCESS) =>
      L read_wait = [] /\ L write_wait = [] /\ L read = L0 read /\ L write = L0 write /\
      (upgrade_lock = true -> forall d l, L write = d :: l -> type (h d) = TL_WRITE_ONLY)
  | Abort_locks_for_thread id, Found b =>
      (b = true <-> exists y, waits_for e id L0 h0 y) /\ forall y, waits_for e id L0 h0 y -> forall q, y ∉ L q
  | Downgrade d t, Out (Returns THR_LOCK_SUCCESS) => d ∈ L write /\ type (h d) = t
  | Upgrade d _ _, Out (Returns THR_LOCK_SUCCESS) =>
      d ∈ L0 write \/ type (h0 d) = TL_WRITE_DELAYED ->
      d ∈ L write /\ tl_int TL_WRITE_LOW_PRIORITY <= tl_int (type (h d))
  | Reschedule d _, Rescheduled None => L0 read_wait = [] /\ L write = [d] /\ type (h d) = type (h0 d)
  | Reschedule d _, Rescheduled (Some t) =>
      t = type (h0 d) /\ d ∈ L write_wait /\ type (h d) = TL_WRITE_DELAYED /\ forall y, y ∈ L0 read_wait -> y ∈ L read
  | _, _ => False
  end.

Lemma honest_ext e c x L0 h0 L h L' h' :
  (forall q, L' q = L q) -> (forall q d, d ∈ L q -> h' d = h d) -> honest e c x L0 h0 L h -> honest e c x L0 h0 L' h'.
Proof.
  intros Q I. destruct c, x as [[[]|]|[]|[]]; cbn [honest]; try done; setoid_rewrite Q; try done.
  - intros [?|[?|(Hw & T)]]; [by left|by right; left|]. right; right. by rewrite (I write_wait).
  - intros (H1 & H2 & H3 & H4 & H5). split_and!; try done. intros U d l E. rewrite (I write); [by eapply H5|rewrite E; by left].
  - intros (Hw & T). by rewrite (I write).
  - intros H P. destruct (H P) as (Hw & T). by rewrite (I write).
  - intros (-> & Hw & T & H). by rewrite (I write_wait).
  - intros (H & E & T). split_and!; [done|done|]. rewrite (I write); [done|]. rewrite E. by left.
Qed.

Section Steps.
Context (ids : gset Z) (chk : Z -> bool) (e : env).
Context (few : Z.of_nat (size ids) < 2 ^ 32).
Context (up : thr_upgraded_concurrent_insert_lock e = TL_WRITE \/
              thr_upgraded_concurrent_insert_lock e = TL_WRITE_LOW_PRIORITY).

Abbreviation wp := (wp ids chk).
Abbreviation Core := (Core ids).
Abbreviation Inv := (Inv ids).

(** What a step must establish. *)
Definition good L0 h0 sl (c : call) r (x : reply) a : Prop :=
  Inv (qs a) (inf a) (arest a) (sleepers_after sl c x) /\ same_lock r (arest a) /\
  honest e c x L0 h0 (qs a) (inf a).

(** *** Sleeping instances *)

Lemma sleeping_moved L h L' h' sl : Sleeping ids L h sl -> moved L h L' h' -> Sleeping ids L' h' sl.
Proof.
  intros S (M1 & M2 & M3 & M4 & M5 & _) d q b E. destruct (S d q b E) as (D & H). split; [done|].
  destruct H as [(-> & [I|I])|[(-> & [I|I])|(N & C & T)]].
  - left. auto.
  - left. auto.
  - right; left. auto.
  - right; left. auto.
  - right; right. destruct (M5 d N) as (N' & ->). auto.
Qed.

(** One instance that does not sleep has changed. *)
Lemma sleeping_other L h L' h' sl d :
  Sleeping ids L h sl -> sl !! d = None -> (forall q x, x <> d -> x ∈ L' q <-> x ∈ L q) ->
  (forall x, x <> d -> h' x = h x) -> Sleeping ids L' h' sl.
Proof.
  intros S Z E F x q b X. assert (x <> d) as N by congruence. destruct (S x q b X) as (D & H).
  rewrite F, !E by done. split; [done|]. destruct H as [H|[H|(H & C)]]; [by left|right; by left|].
  right; right. split; [|done]. intros q'. rewrite E; auto.
Qed.

Lemma put_other L q d q' x : x <> d -> x ∈ put L q d q' <-> x ∈ L q'.
Proof.
  intros N. destruct (decide (q' = q)) as [->|F]; [|by rewrite put_ne].
  rewrite put_eq, elem_of_app, list_elem_of_singleton. tauto.
Qed.

Lemma disciplined_permitted L h f r sl d o t me :
  permitted ids e (mk_a L h f r) sl (Lock d o t me) = true ->
  d ∈ ids /\ (forall q, d ∉ L q) /\ sl !! d = None /\ lockable t = true /\ disciplined L h r o t.
Proof.
  cbn [permitted qs inf arest].
  intros (((((D & O)%andb_true_iff & S)%andb_true_iff & Lk)%andb_true_iff & A)%andb_true_iff & M)%andb_true_iff.
  apply bool_decide_eq_true in D, S. apply negb_true_iff in O.
  pose proof (proj1 (in_queue_spec (mk_a L h f r) d) O) as O'. cbn in O'.
  split_and!; auto. rewrite forallb_forall in A. unfold no_mix in M.
  assert (M' : allow_multiple_concurrent_insert r = true ->
    (t = TL_READ_NO_INSERT -> forall x, x ∈ L write -> owner (h x) = o ->
       type (h x) <> TL_WRITE_CONCURRENT_INSERT /\ type (h x) <> TL_WRITE_ONLY) /\
    (t = TL_WRITE_CONCURRENT_INSERT -> forall x, x ∈ L read -> owner (h x) = o ->
       type (h x) <> TL_READ_NO_INSERT)).
  { intros Mu. rewrite Mu in M. cbn [negb orb] in M. apply andb_true_iff in M as (M1 & M2).
    rewrite negb_true_iff in M1, M2. unfold is_ci in *. split.
    - intros -> x I Ex. rewrite bool_decide_true in M1 by done. cbn [andb] in M1.
      split; intros T; apply not_true_iff_false in M1; apply M1; apply existsb_exists; exists x;
        (split; [by apply list_elem_of_In|]); rewrite Ex, T, bool_decide_true by done; done.
    - intros -> x I Ex T. rewrite bool_decide_true in M2 by done. cbn [andb] in M2.
      apply not_true_iff_false in M2; apply M2; apply existsb_exists; exists x.
      split; [by apply list_elem_of_In|]. by rewrite Ex, T, !bool_decide_true. }
  constructor; [|apply M'|apply M'].
  intros x I Ex. specialize (A x). rewrite <- list_elem_of_In in A. specialize (A I).
  unfold again in A. rewrite Ex, bool_decide_true in A by done. cbn [negb orb] in A.
  pose proof (lockable_kind t Lk) as K.
  destruct (le t TL_READ_NO_INSERT); [by left|right]. cbn [orb] in A.
  apply andb_true_iff in A as (A1 & A2). apply negb_true_iff, bool_decide_eq_false in A1.
  split; [done|]. apply orb_true_iff in A2 as [A2|A2]; apply bool_decide_eq_true in A2; auto.
Qed.

Lemma step_lock fuel L h f r sl d o t me :
  Inv L h r sl -> permitted ids e (mk_a L h f r) sl (Lock d o t me) = true ->
  wp (perform e fuel sl (Lock d o t me)) (good L h sl (Lock d o t me) r) (mk_a L h f r).
Proof.
  intros (C & P & S) (D & O & Z & Lk & G)%disciplined_permitted. cbn [perform].
  apply wp_bind, wp_thr_lock; auto. intros out L' h' r' f' (C' & P' & S' & H' & X). cbn [wp mret prog_ret].
  assert (Sl : forall q, L' = put L q d -> Sleeping ids L' h' sl).
  { intros q ->. eapply (sleeping_other L h _ h' sl d); auto. intros q' x N. by apply put_other. }
  destruct out as [[]|q b]; split_and!; cbn [sleepers_after honest qs inf]; auto.
  - destruct X as (q & _ & _ & X). split_and!; eauto.
  - destruct X as (q & N & T & ->). pose proof (put_eq L q d) as E.
    assert (I : d ∈ put L q d q) by (rewrite E; apply elem_of_app; right; by left).
    destruct q; [done|by left|right; right; auto|right; by left].
  - subst L'. split_and!; auto. by eapply (sleeping_other L h _ h' sl d).
  - subst L'. done.
  - subst L'. split_and!; auto. by eapply (sleeping_other L h _ h' sl d).
  - subst L'. done.
  - subst L'. split_and!; auto. by eapply (sleeping_other L h _ h' sl d).
  - subst L'. done.
  - destruct X as (-> & Q & X). split_and!; auto. intros x q' b. destruct (decide (x = d)) as [->|N].
    + rewrite lookup_insert_eq. intros [= <- <-]. split; [done|]. subst L'.
      assert (I : d ∈ put L q d q) by (rewrite put_eq; apply elem_of_app; right; by left).
      destruct Q as [-> | ->]; auto.
    + rewrite lookup_insert_ne by done. by apply (Sl q X).
  - destruct X as (_ & _ & ->). rewrite put_eq. apply elem_of_app. right. by left.
Qed.

(** *** An instance leaves its queue *)

Definition drop L q d : queue -> list Z := <[q := remove d (L q)]> L.

Lemma drop_other L q d q' x : x <> d -> x ∈ drop L q d q' <-> x ∈ L q'.
Proof.
  intros N. unfold drop. destruct (decide (q' = q)) as [->|F]; [|by rewrite fn_lookup_insert_ne].
  rewrite fn_lookup_insert. unfold remove. rewrite list_elem_of_filter. tauto.
Qed.

Lemma drop_length L q d q' : (length (drop L q d q') <= length (L q'))%nat.
Proof.
  unfold drop. destruct (decide (q' = q)) as [->|F]; [|by rewrite fn_lookup_insert_ne].
  rewrite fn_lookup_insert. apply sublist_length, sublist_filter.
Qed.

Lemma wp_unlink q d L h f r Q :
  d ∈ L q -> Q tt (mk_a (drop L q d) h None r) -> wp (do (Unlink q d)) Q (mk_a L h f r).
Proof. intros I H. cbn. rewrite bool_decide_true by done. exact H. Qed.

Lemma sleeping_delete L h sl d : Sleeping ids L h sl -> Sleeping ids L h (delete d sl).
Proof. intros S x q b (_ & E)%lookup_delete_Some. eauto. Qed.

(** [wake_up_waiters] after the instance has left. *)
Lemma wp_wake_dropped fuel L h h1 f r r1 sl q d (Q : unit -> alock -> Prop) :
  Core (drop L q d) h r1 -> (forall q', d ∉ drop L q d q') -> same_lock r r1 -> Sleeping ids L h sl ->
  (forall x, x <> d -> h1 x = h x) -> (length (L write_wait) <= fuel)%nat ->
  (forall L' h' r' f', Inv L' h' r' (delete d sl) -> same_lock r r' -> (forall q, d ∉ L' q) ->
     Q tt (mk_a L' h' f' r')) ->
  wp (wake_up_waiters e fuel) Q (mk_a (drop L q d) h1 f r1).
Proof.
  intros C O S Sl E F H. apply wp_wake; auto.
  - apply (core_ext ids _ h r1); [|done|done|done]. intros q' x I. apply E. intros ->. by apply (O q').
  - pose proof (drop_length L q d write_wait). lia.
  - intros L' h' r' f' (C' & P' & M' & S'). apply H.
    + split_and!; auto. eapply sleeping_moved; [|exact M'].
      apply (sleeping_other L h _ _ _ d); [by apply sleeping_delete|by rewrite lookup_delete_eq| |done].
      intros q' x. apply drop_other.
    + by eapply same_lock_trans.
    + destruct M' as (_ & _ & _ & _ & M' & _). by destruct (M' d O).
Qed.

Lemma waiting_queue L h r sl d q b c :
  Core L h r -> Sleeping ids L h sl -> sl !! d = Some (q, b) -> cond (h d) = Some c ->
  d ∈ L q /\ q <> read.
Proof.
  intros C S E Ec. destruct (S d q b E) as (D & [(-> & [I|I])|[(-> & [I|I])|(N & X & _)]]); try done; try congruence;
    destruct (core_kind _ _ _ _ C _ _ I) as (_ & X); congruence.
Qed.

Lemma unlock_not_running L h r q d : Core L h r -> type (h d) = TL_UNLOCK -> d ∉ L q.
Proof.
  intros C T I. pose proof (core_kind _ _ _ _ C _ _ I) as K. unfold kind, is_read, is_write in K.
  rewrite T in K. destruct q; simpl in K; lia.
Qed.

Lemma step_wake fuel L h f r sl d b :
  Inv L h r sl -> permitted ids e (mk_a L h f r) sl (Wake d b) = true ->
  (length (L write_wait) <= fuel)%nat ->
  wp (perform e fuel sl (Wake d b)) (good L h sl (Wake d b) r) (mk_a L h f r).
Proof.
  intros (C & P & S) Pm F. cbn [permitted perform] in *.
  destruct (sl !! d) as [[q b']|] eqn:E; [|done]. destruct (S d q b' E) as (D & Ss).
  apply wp_bind. unfold wait_for_lock. apply wp_bind, wp_get; [done|].
  destruct (cond (h d)) as [c|] eqn:Ec.
  - destruct (waiting_queue L h r sl d q b' c C S E Ec) as (I & Nr).
    destruct (core_remove ids L h r r q d C I) as (C1 & O1); [done|rewrite decide_False by done; lia|].
    rewrite (bool_decide_false (Some c = None)) by done. cbn [negb orb].
    apply wp_bind, wp_bind, wp_unlink; [done|]. apply wp_bind, wp_set_type; [done|].
    apply (wp_wake_dropped fuel L h _ _ r r sl q d); auto; [done| |].
    + intros x N. by rewrite fn_lookup_insert_ne.
    + intros L' h' r' f' I' S' O'. cbn [wp mret prog_ret]. split_and!; [apply I'|done|].
      cbn [honest qs inf]. by destruct b.
  - rewrite bool_decide_true by done. cbn [negb orb].
    destruct (bool_decide_reflect (type (h d) = TL_UNLOCK)) as [T|T].
    + cbn. split_and!; [|done|]; cbn [sleepers_after honest qs inf arest].
      * split_and!; auto. by apply sleeping_delete.
      * intros q'. by apply (unlock_not_running L h r).
    + apply wp_bind, wp_call_get_status; [done|]. intros r' (S' & N'). cbn.
      split_and!; [|done|]; cbn [sleepers_after honest qs inf arest].
      * split_and!; [by apply (core_ext ids L h r)|done|by apply sleeping_delete].
      * destruct Ss as [(-> & [I|I])|[(-> & [I|I])|(_ & _ & X)]]; auto; [..|done];
          destruct (core_kind _ _ _ _ C _ _ I) as (_ & Y); rewrite Ec in Y; by destruct Y.
Qed.

Lemma step_unlock fuel L h f r sl d :
  Inv L h r sl -> permitted ids e (mk_a L h f r) sl (Unlock d) = true ->
  (length (L write_wait) <= fuel)%nat ->
  wp (perform e fuel sl (Unlock d)) (good L h sl (Unlock d) r) (mk_a L h f r).
Proof.
  intros (C & P & S) Pm F. cbn [permitted perform qs inf] in *. apply andb_true_iff in Pm as (Z & Pm).
  apply bool_decide_eq_true in Z.
  assert (X : exists q, d ∈ L q /\ q = (if le (type (h d)) TL_READ_NO_INSERT then read
    else if bool_decide (type (h d) = TL_WRITE_DELAYED) && bool_decide (is_Some (cond (h d)))
    then write_wait else write)).
  { rewrite !orb_true_iff, andb_true_iff, !bool_decide_eq_true in Pm. unfold le.
    destruct Pm as [[I|I]|(I & T)]; pose proof (core_kind _ _ _ _ C _ _ I) as (K1 & K2).
    - exists read. split; [done|]. rewrite bool_decide_true; [done|]. unfold is_read in K1. simpl. lia.
    - exists write. split; [done|]. rewrite bool_decide_false; [|unfold is_write in K1; simpl; lia].
      rewrite K2. by rewrite andb_false_r.
    - exists write_wait. split; [done|]. rewrite T. by rewrite (bool_decide_true _ K2). }
  destruct X as (q & I & Q). assert (D : d ∈ ids) by (by apply (core_known ids L h r q)).
  apply wp_bind. unfold thr_unlock. apply wp_bind, wp_get; [done|]. rewrite <- Q.
  apply wp_bind, wp_unlink; [done|]. apply wp_bind.
  assert (Y : forall r1, same_lock r r1 ->
    read_no_write_count r1 = read_no_write_count r - (if decide (q = read) then one (type (h d)) else 0) ->
    wp (do (Set_type d TL_UNLOCK);; wake_up_waiters e fuel;; mret (Returns THR_LOCK_SUCCESS))
      (fun x a1 => wp (mret (Out x)) (good L h sl (Unlock d) r) a1) (mk_a (drop L q d) h None r1)).
  { intros r1 S1 N1. destruct (core_remove ids L h r r1 q d C I) as (C1 & O1); auto.
    apply wp_bind, wp_set_type; [done|]. apply wp_bind.
    apply (wp_wake_dropped fuel L h _ _ r r1 sl q d); auto.
    - intros x N. by rewrite fn_lookup_insert_ne.
    - intros L' h' r' f' I' S' O'. cbn [wp mret prog_ret]. split_and!; auto.
      cbn [sleepers_after]. by rewrite delete_id in I'. }
  destruct (bool_decide_reflect (type (h d) = TL_READ_NO_INSERT)) as [T|T].
  - assert (q = read) as -> by (rewrite Q, T; done).
    apply wp_bind, wp_get_rest, wp_modify. apply Y; [done|]. cbn.
    rewrite (core_count _ _ _ _ C). unfold one. rewrite T, bool_decide_true, decide_True by done.
    apply uwrap_small. pose proof (no_inserts_bound ids L h read few (core_apart _ _ _ _ C)) as B.
    enough (no_inserts h (L read) <> 0) by lia. intros N0. by apply (no_inserts_zero h (L read) d N0).
  - apply Y; [done|]. destruct (decide (q = read)); rewrite ?one_other by done; lia.
Qed.

(** *** Aborting *)

Definition without (l : list Z) L : queue -> list Z := fun q => filter (fun d => d ∉ l) (L q).

Lemma without_in l L q d : d ∈ without l L q <-> d ∈ L q /\ d ∉ l.
Proof. unfold without. rewrite list_elem_of_filter. tauto. Qed.

Lemma signal_rest_ok h l : forall r, (forall d, d ∈ l -> is_Some (cond (h d))) ->
  exists r', signal_rest h l r = Some r' /\ keep_rest r r'.
Proof.
  induction l as [|d l IH]; intros r H; [by exists r|].
  destruct (H d ltac:(by left)) as (c & E). cbn [signal_rest]. rewrite E. cbn [mbind option_bind].
  destruct (IH (emit (Signalled c) r)) as (r' & F & K); [intros x I; apply H; by right|].
  exists r'. split; [done|]. by eapply keep_trans.
Qed.

Lemma abort_ok L h f r sl l :
  Core L h r -> Sleeping ids L h sl -> (forall d, d ∈ l -> d ∈ L read_wait \/ d ∈ L write_wait) ->
  exists r', aabort l (mk_a L h f r) = Some (mk_a (without l L) (change l abort_info h) None r') /\
    keep_rest r r' /\ Core (without l L) (change l abort_info h) r' /\
    Sleeping ids (without l L) (change l abort_info h) sl.
Proof.
  intros C S Hl. pose proof C as [A K N Ch X]. pose proof A as (A1 & A2 & A3).
  destruct (signal_rest_ok h l r) as (r' & E & Kp).
  { intros d I. destruct (Hl d I) as [J|J]; destruct (K _ _ J) as (_ & Y); exact Y. }
  exists r'. unfold aabort. cbn [inf arest qs]. rewrite E. cbn [mbind option_bind].
  pose proof Kp as ((S1 & S2 & _) & Nr).
  assert (Ru : forall q d, d ∈ L q -> q = read \/ q = write -> d ∉ l).
  { intros q d I Q J. destruct (Hl d J) as [Y|Y]; pose proof (A2 _ _ d I Y); naive_solver. }
  assert (Eq : forall q, q = read \/ q = write -> without l L q = L q).
  { intros q Q. apply filter_all. intros d I. by apply (Ru q). }
  assert (Out' : forall q d, d ∈ without l L q -> change l abort_info h d = h d).
  { intros q d (_ & I)%without_in. by apply change_out. }
  split_and!; [done|done| |].
  - constructor.
    + split_and!.
      * intros q. by apply list.NoDup_filter.
      * intros q q' d (I & _)%without_in (J & _)%without_in. eauto.
      * intros q d (I & _)%without_in. eauto.
    + intros q d I. rewrite (Out' q d I). apply without_in in I as (I & _). auto.
    + rewrite Nr, N, Eq by auto. symmetry. apply no_inserts_ext. intros d I. apply (Out' read). rewrite Eq; auto.
    + intros q d Q I. rewrite (Out' q d I), S1. apply without_in in I as (I & _). eauto.
    + rewrite S2, !Eq by auto.
      assert (Fm : forall q, q = read \/ q = write -> change l abort_info h <$> L q = h <$> L q).
      { intros q Q. apply list_fmap_ext. intros j d J. apply (Out' q). rewrite Eq by done.
        by eapply list_elem_of_lookup_2. }
      by rewrite !Fm by auto.
  - intros d q b Sd. destruct (S d q b Sd) as (D & Ss). split; [done|].
    destruct (decide (d ∈ l)) as [I|I].
    + right; right. rewrite change_in by done. split_and!; [|done|done].
      intros q'. rewrite without_in. tauto.
    + rewrite change_out by done. setoid_rewrite without_in. naive_solver.
Qed.

Definition chosen q (g : lock_info -> bool) L h : list Z := filter (fun d => g (h d) = true) (L q).

Lemma wp_abort_some q g L h f r sl Q :
  Core L h r -> Sleeping ids L h sl -> q = read_wait \/ q = write_wait ->
  (forall r', let l := chosen q g L h in Core (without l L) (change l abort_info h) r' ->
     Sleeping ids (without l L) (change l abort_info h) sl -> same_lock r r' ->
     Q (bool_decide (l ≠ [])) (mk_a (without l L) (change l abort_info h) None r')) ->
  wp (do (Abort_some q g)) Q (mk_a L h f r).
Proof.
  intros C S Hq H.
  destruct (abort_ok L h f r sl (chosen q g L h) C S) as (r' & E & (K & _) & C' & S').
  { intros d (_ & I)%list_elem_of_filter. destruct Hq as [-> | ->]; auto. }
  change (wp (do (Abort_some q g)) Q (mk_a L h f r)) with
    (match aabort (chosen q g L h) (mk_a L h f r) ≫= (fun a =>
       Some (bool_decide (chosen q g L h ≠ []), a)) with
     | Some (x, a1) => Q x a1 | None => False end).
  rewrite E. cbn [mbind option_bind]. by apply H.
Qed.

Lemma some_chosen q g L h : chosen q g L h <> [] <-> exists x, x ∈ L q /\ g (h x) = true.
Proof.
  unfold chosen. split.
  - intros N. destruct (filter _ (L q)) as [|x l] eqn:E; [done|]. exists x.
    assert (I : x ∈ filter (fun d => g (h d) = true) (L q)) by (rewrite E; by left). apply list_elem_of_filter in I. tauto.
  - intros (x & I & G) E. assert (J : x ∈ filter (fun d => g (h d) = true) (L q)) by (by apply list_elem_of_filter).
    rewrite E in J. by apply elem_of_nil in J.
Qed.

Lemma step_abort_thread fuel L h f r sl id :
  Inv L h r sl -> (length (L write_wait) <= fuel)%nat ->
  wp (perform e fuel sl (Abort_locks_for_thread id)) (good L h sl (Abort_locks_for_thread id) r) (mk_a L h f r).
Proof.
  intros (C & P & S) F. cbn [perform]. apply wp_bind. unfold thr_abort_locks_for_thread.
  set (mine := fun i => bool_decide (thread_id e (owner_info e (owner i)) = id)).
  apply wp_bind, (wp_abort_some _ _ _ _ _ _ sl); auto. intros r1 l1 C1 S1 K1.
  apply wp_bind, (wp_abort_some _ _ _ _ _ _ sl); auto. intros r2 l2 C2 S2 K2.
  set (L1 := without l1 L) in *. set (h1 := change l1 abort_info h) in *.
  assert (M1 : forall x, mine (h1 x) = mine (h x)).
  { intros x. unfold h1, change. by destruct (bool_decide (x ∈ l1)). }
  assert (W1 : forall x, x ∈ L1 write_wait <-> x ∈ L write_wait).
  { intros x. unfold L1. rewrite without_in. split; [tauto|]. intros I. split; [done|]. intros (_ & J)%list_elem_of_filter.
    destruct (core_apart _ _ _ _ C) as (_ & A2 & _). discriminate (A2 _ _ x I J). }
  assert (Fl : forall q l M, (length (without l M q) <= length (M q))%nat) by (intros; apply sublist_length, sublist_filter).
  apply wp_bind, wp_wake; auto.
  { pose proof (Fl write_wait l1 L). pose proof (Fl write_wait l2 L1). unfold L1 in *. lia. }
  intros L' h' r' f' (C' & P' & M' & S'). cbn [wp mret prog_ret].
  split; [|split]; cbn [sleepers_after honest qs inf arest]; [split_and!; auto| |split].
  - by eapply sleeping_moved.
  - eapply same_lock_trans; [exact K1|]. by eapply same_lock_trans.
  - rewrite orb_true_iff, !bool_decide_eq_true. unfold l1, l2. rewrite !some_chosen. unfold waits_for.
    setoid_rewrite M1. setoid_rewrite W1. unfold mine. setoid_rewrite bool_decide_eq_true. naive_solver.
  - intros y (W & T). destruct M' as (_ & _ & _ & _ & M5 & _). apply M5. intros q.
    assert (Mn : mine (h y) = true) by (by apply bool_decide_eq_true).
    destruct W as [W|W].
    + unfold L1. rewrite !without_in. intros ((_ & N) & _). apply N. by apply list_elem_of_filter.
    + rewrite without_in. intros (_ & N). apply N. apply list_elem_of_filter. rewrite M1. split; [done|]. by apply W1.
Qed.

(** The first running writer keeps everybody else out from now on. *)
Lemma core_write_only L h r d l :
  Core L h r -> L write = d :: l -> Core L (<[d := with_type TL_WRITE_ONLY (h d)]> h) r.
Proof.
  intros C E. assert (I : d ∈ L write) by (rewrite E; by left).
  destruct (core_kind _ _ _ _ C _ _ I) as (K1 & K2).
  apply (core_retype ids L h r write); auto; [by split|done|]. intros _.
  destruct (core_excl _ _ _ _ C) as (X1 & X2). rewrite E in X1, X2 |- *.
  assert (Nd : d ∉ l).
  { destruct (core_apart _ _ _ _ C) as (A & _). specialize (A write). rewrite E in A.
    by apply list.NoDup_cons in A as (A & _). }
  rewrite fmap_cons, fn_lookup_insert, fmap_insert_other by done. destruct X1 as (X1 & X1'). split.
  - split; [|done]. rewrite Forall_forall in *. intros w J. destruct (X1 w J) as (_ & Y).
    split; cbn; [lia|]. intros N. destruct (Y N) as (Sh & _). auto.
  - intros w v [->|W]%elem_of_cons V; [|apply X2; [by right|done]]. split; cbn; [auto|done].
Qed.

Lemma wp_head q L h f r Q : Q (head (L q)) (mk_a L h f r) -> wp (do (Head q)) Q (mk_a L h f r).
Proof. done. Qed.

Lemma step_abort fuel L h f r sl b :
  Inv L h r sl -> wp (perform e fuel sl (Abort_locks b)) (good L h sl (Abort_locks b) r) (mk_a L h f r).
Proof.
  intros (C & P & S). cbn [perform]. apply wp_bind. unfold thr_abort_locks.
  destruct (abort_ok L h f r sl (L read_wait ++ L write_wait) C S) as (r' & E & (K & _) & C' & S').
  { intros d I. by apply elem_of_app. }
  set (L' := without _ L) in *. set (h' := change _ _ h) in *.
  assert (Wq : L' read_wait = [] /\ L' write_wait = []).
  { split; apply filter_none; intros d I J; apply J, elem_of_app; auto. }
  assert (P' : progress L') by (split; naive_solver).
  assert (Kq : L' read = L read /\ L' write = L write).
  { destruct (core_apart _ _ _ _ C) as (_ & A2 & _).
    split; apply filter_all; intros d I [J|J]%elem_of_app; discriminate (A2 _ _ d I J). }
  destruct Wq as (Wq1 & Wq2), Kq as (Kq1 & Kq2).
  apply wp_bind.
  change (match aabort (L read_wait ++ L write_wait) (mk_a L h f r) ≫= (fun a => Some (tt, a)) with
    | Some (x, a1) => wp (h ← do (Head write); match h with
        | Some d => (if b then do (Set_type d TL_WRITE_ONLY) else mret tt);; mret (Returns THR_LOCK_SUCCESS)
        | None => mret (Returns THR_LOCK_SUCCESS) end)
        (fun x a1 => wp (mret (Out x)) (good L h sl (Abort_locks b) r) a1) a1
    | None => False end).
  rewrite E. cbn [mbind option_bind]. apply wp_bind, wp_head.
  destruct (L' write) as [|d l] eqn:Ew.
  { split; [by split_and!|split; [done|]]. cbn [honest qs inf]. split_and!; try done; [by rewrite Ew|]. by rewrite Ew. }
  assert (I : d ∈ L' write) by (rewrite Ew; by left). destruct b.
  2:{ split; [by split_and!|split; [done|]]. cbn [honest qs inf]. split_and!; try done. by rewrite Ew. }
  cbn [list.head]. apply wp_bind, wp_set_type; [by apply (core_known ids L' h' r' write)|].
  split; [|split; [done|]]; cbn [qs inf arest sleepers_after honest].
  2:{ split_and!; try done; [by rewrite Ew|]. rewrite Ew. intros _ d' l' [= <- <-]. by rewrite fn_lookup_insert. }
  split_and!; [by eapply core_write_only|done|].
  intros x q b X. destruct (S' x q b X) as (D & Y). split; [done|].
  destruct Y as [Y|[Y|(N & Y)]]; [by left|right; by left|right; right]. split; [done|].
  rewrite fn_lookup_insert_ne; [done|]. intros ->. by apply (N write).
Qed.

(** *** Changing the type of a lock *)

Lemma pairs_map {A B} (P P' : B -> B -> Prop) (f g : A -> B) (l : list A) :
  (forall x y, x ∈ l -> y ∈ l -> P (f x) (f y) -> P' (g x) (g y)) ->
  pairs P (f <$> l) -> pairs P' (g <$> l).
Proof.
  induction l as [|x l IH]; intros H; [done|]. rewrite !fmap_cons. intros (H1 & H2). split.
  - rewrite Forall_forall in *. intros b (y & -> & I)%list_elem_of_In%list_elem_of_fmap.
    apply H; [by left|by right|]. apply H1, list_elem_of_In, list_elem_of_fmap. eauto.
  - apply IH; [|done]. intros y z Y Z. apply H; by right.
Qed.

(** An instance that does not sleep gets another type. *)
Lemma sleeping_info L h sl d i : Sleeping ids L h sl -> sl !! d = None -> Sleeping ids L (<[d := i]> h) sl.
Proof.
  intros S Z. apply (sleeping_other L h _ _ _ d); auto. intros x N. by rewrite fn_lookup_insert_ne.
Qed.

Lemma step_downgrade fuel L h f r sl d t :
  Inv L h r sl -> permitted ids e (mk_a L h f r) sl (Downgrade d t) = true ->
  wp (perform e fuel sl (Downgrade d t)) (good L h sl (Downgrade d t) r) (mk_a L h f r).
Proof.
  intros (C & P & S) Pm. cbn [permitted perform qs inf] in *. rewrite !andb_true_iff in Pm.
  destruct Pm as (((((((Zn & I) & T) & Lk) & W) & Ci) & Ow) & Cs). apply bool_decide_eq_true in Zn, I, T.
  apply negb_true_iff in W, Ci. unfold is_ci in Ci. apply bool_decide_eq_false in Ci.
  pose proof (lockable_kind t Lk) as K. rewrite W in K. rewrite forallb_forall in Ow.
  destruct (core_kind _ _ _ _ C _ _ I) as (_ & Kc). destruct (core_excl _ _ _ _ C) as (X1 & X2).
  apply wp_bind. unfold thr_downgrade_write_lock. apply wp_bind, wp_set_type; [by apply (core_known ids L h r write)|].
  split; [|split; [done|cbn [honest qs inf]; by rewrite fn_lookup_insert]].
  cbn [qs inf arest sleepers_after]. split_and!; [|done|by apply sleeping_info].
  assert (Oe : forall x, x ∈ L write -> owner (h x) = owner (h d)).
  { intros x J. specialize (Ow x). rewrite <- list_elem_of_In in Ow. by apply Ow, bool_decide_eq_true in J. }
  set (h2 := <[d := with_type t (h d)]> h : Z -> lock_info).
  assert (H2 : forall x, h2 x = if decide (x = d) then with_type t (h d) else h x).
  { intros x. subst h2. destruct (decide (x = d)) as [->|N];
      [by rewrite fn_lookup_insert|by rewrite fn_lookup_insert_ne]. }
  apply (core_retype ids L h r write); [done|done|done|by split|by intros X; destruct (Ci X)|].
  intros _. fold h2. unfold le in Cs.
  destruct (bool_decide_reflect (tl_int t <= tl_int TL_WRITE_DELAYED)) as [Le|Le].
  - apply bool_decide_eq_true in Cs. rewrite Cs. cbn. rewrite H2, decide_True by done. split; [done|].
    intros w v ->%list_elem_of_singleton V. split; [by left|done].
  - rewrite forallb_forall in Cs. cbn in Le. split.
    + eapply pairs_map; [|exact X1]. intros x y Ix Iy (Y1 & _). split.
      * rewrite !H2. destruct (decide (x = d)) as [->|Nx]; cbn; [lia|].
        destruct (decide (y = d)) as [->|Ny]; [|done]. intros Lx. specialize (Y1 Lx).
        rewrite T in Y1. rewrite <- Y1 in Lx. cbn in Lx. lia.
      * rewrite !H2. intros N. destruct N. destruct (decide (x = d)), (decide (y = d)); subst; cbn;
          [done|symmetry; auto|auto|by rewrite (Oe x), (Oe y)].
    + intros w v (x & -> & J)%list_elem_of_fmap V. rewrite H2. destruct (decide (x = d)) as [->|N].
      * split; cbn; [|done]. intros F. destruct F. apply list_elem_of_fmap in V as (y & -> & Iy).
        specialize (Cs y). rewrite <- list_elem_of_In in Cs. by apply Cs, bool_decide_eq_true in Iy.
      * apply X2; [apply list_elem_of_fmap; eauto|done].
Qed.

(** A running writer goes to the front of the waiting ones. *)
Definition requeue L d : queue -> list Z := <[write_wait := d :: L write_wait]> (<[write := []]> L).

Lemma requeue_other L d q x : L write = [d] -> x <> d -> x ∈ requeue L d q <-> x ∈ L q.
Proof.
  intros E N. unfold requeue. destruct (decide (q = write_wait)) as [->|Q1].
  - rewrite fn_lookup_insert, elem_of_cons. tauto.
  - rewrite fn_lookup_insert_ne by done. destruct (decide (q = write)) as [->|Q2].
    + rewrite fn_lookup_insert, E, elem_of_nil, list_elem_of_singleton. tauto.
    + by rewrite fn_lookup_insert_ne.
Qed.

Lemma wp_requeue {A} (k : prog A) L h f r d Q :
  d ∈ ids -> L write = [d] -> d ∉ L write_wait -> d ∉ L read -> d ∉ L read_wait ->
  (forall L', (forall q, L' q = requeue L d q) -> wp k Q (mk_a L' h None r)) ->
  wp (do (Unlink write d);; do (Push write_wait d);; k) Q (mk_a L h f r).
Proof.
  intros D E N1 N2 N3 H. apply wp_bind, wp_unlink; [rewrite E; by left|]. apply wp_bind.
  assert (Ed : forall q, drop L write d q = (<[write := []]> L : queue -> list Z) q).
  { intros q. unfold drop. destruct (decide (q = write)) as [->|F].
    - rewrite !fn_lookup_insert, E. apply remove_first. apply NoDup_singleton.
    - by rewrite !fn_lookup_insert_ne. }
  change (match (if known ids d && negb (in_queue (mk_a (drop L write d) h None r) d)
      then Some (tt, mk_a (<[write_wait := d :: drop L write d write_wait]> (drop L write d)) h None r)
      else None) with Some (x, a1) => wp k Q a1 | None => False end).
  rewrite (known_in ids d) by done.
  assert (in_queue (mk_a (drop L write d) h None r) d = false) as ->.
  { apply in_queue_spec. intros q. cbn [qs]. rewrite Ed. destruct q; rewrite ?fn_lookup_insert, ?fn_lookup_insert_ne by done; auto.
    apply not_elem_of_nil. }
  cbn [andb negb]. apply H. intros q. unfold requeue. destruct (decide (q = write_wait)) as [->|F].
  - rewrite !fn_lookup_insert, Ed. by rewrite fn_lookup_insert_ne.
  - rewrite !(fn_lookup_insert_ne _ write_wait) by done. apply Ed.
Qed.

Lemma core_qs L L' h r : (forall q, L' q = L q) -> Core L h r -> Core L' h r.
Proof.
  intros E [A K C Ch X]. constructor.
  - destruct A as (A1 & A2 & A3). split_and!; intros *; rewrite ?E; eauto.
  - intros q d. rewrite E. auto.
  - by rewrite E.
  - intros q d. rewrite E. eauto.
  - by rewrite !E.
Qed.

Lemma core_requeue L L' h h2 r r' d i :
  Core L h r -> L write = [d] -> (forall q, L' q = requeue L d q) -> kind write_wait i -> keep_rest r r' ->
  type i <> TL_WRITE_CONCURRENT_INSERT -> (forall x, h2 x = (<[d := i]> h : Z -> lock_info) x) ->
  Core L' h2 r'.
Proof.
  intros C E El K (S & N) Ci Eh. assert (I : d ∈ L write) by (rewrite E; by left).
  destruct (core_remove ids L h r r' write d C I) as (C1 & O1); [done|rewrite decide_False by done; lia|].
  apply (core_qs (requeue L d)); [done|]. apply (core_ext ids _ (<[d := i]> h) r'); [by intros q x _|done|done|].
  assert (Er : forall q, requeue L d q = (<[write_wait := d :: L write_wait]> (drop L write d) : queue -> list Z) q).
  { intros q. unfold requeue, drop. destruct (decide (q = write_wait)) as [->|F]; [by rewrite !fn_lookup_insert|].
    rewrite !(fn_lookup_insert_ne _ write_wait) by done. destruct (decide (q = write)) as [->|G].
    - rewrite !fn_lookup_insert, E. symmetry. apply remove_first, NoDup_singleton.
    - by rewrite !fn_lookup_insert_ne. }
  apply (core_qs (<[write_wait := d :: L write_wait]> (drop L write d))); [done|].
  apply (core_put ids (drop L write d) h r'); [done| |done|done|done|done| | |done].
  - by apply (core_known ids L h r write).
  - right. split; [done|]. unfold drop. by rewrite fn_lookup_insert_ne.
  - rewrite decide_False by done. lia.
Qed.

Lemma requeue_progress L L' d : (forall q, L' q = requeue L d q) -> L read <> [] -> progress L'.
Proof.
  intros E R. split.
  - intros _. rewrite E. unfold requeue. by rewrite !fn_lookup_insert_ne.
  - intros _. rewrite E. unfold requeue. by rewrite fn_lookup_insert.
Qed.

Lemma only_writer L h r d : Core L h r -> L write = [d] ->
  d ∈ ids /\ (d ∉ L write_wait) /\ (d ∉ L read) /\ (d ∉ L read_wait) /\ cond (h d) = None.
Proof.
  intros C E. assert (I : d ∈ L write) by (rewrite E; by left).
  destruct (core_apart _ _ _ _ C) as (_ & A2 & A3). destruct (core_kind _ _ _ _ C _ _ I) as (_ & K).
  split_and!; eauto; intros J; discriminate (A2 _ _ d I J).
Qed.

(** [wait_for_lock] goes to sleep with an instance that is in its queue. *)
Lemma good_sleeps L0 h0 L h r r' f sl d t me :
  Core L h r' -> progress L -> same_lock r r' -> Sleeping ids L h sl -> d ∈ L write_wait ->
  good L0 h0 sl (Upgrade d t me) r (Out (Sleeps write_wait true)) (mk_a L h f r').
Proof.
  intros C P S Sl I. split_and!; [|done|done]. cbn [qs inf arest sleepers_after]. split_and!; auto.
  intros x q b. destruct (decide (x = d)) as [->|N].
  - rewrite lookup_insert_eq. intros [= <- <-]. split; [by apply (core_known ids L h r' write_wait)|auto].
  - rewrite lookup_insert_ne by done. apply Sl.
Qed.

Lemma with_both h d t c x :
  (<[d := with_cond (Some c) ((<[d := with_type t (h d)]> h : Z -> lock_info) d)]>
     (<[d := with_type t (h d)]> h) : Z -> lock_info) x =
  (<[d := with_cond (Some c) (with_type t (h d))]> h : Z -> lock_info) x.
Proof.
  destruct (decide (x = d)) as [->|N].
  - by rewrite !fn_lookup_insert.
  - by rewrite !fn_lookup_insert_ne.
Qed.

Lemma step_upgrade fuel L h f r sl d t me :
  Inv L h r sl -> permitted ids e (mk_a L h f r) sl (Upgrade d t me) = true ->
  wp (perform e fuel sl (Upgrade d t me)) (good L h sl (Upgrade d t me) r) (mk_a L h f r).
Proof.
  intros (C & P & S) Pm. cbn [permitted perform qs inf] in *. rewrite !andb_true_iff in Pm.
  destruct Pm as ((((D & Zn) & Lk) & Lo) & Ty). apply bool_decide_eq_true in D, Zn.
  unfold le in Lo. apply bool_decide_eq_true in Lo. cbn in Lo.
  assert (Wt : is_write t).
  { pose proof (lockable_kind t Lk) as K. unfold le in K. rewrite bool_decide_false in K; [done|]. cbn. lia. }
  assert (Nc : t <> TL_WRITE_CONCURRENT_INSERT) by (intros ->; cbn in Lo; lia).
  apply wp_bind. unfold thr_upgrade_write_delay_lock. apply wp_bind, wp_get; [done|].
  destruct (bool_decide (type (h d) = TL_UNLOCK) || le TL_WRITE_LOW_PRIORITY (type (h d))) eqn:B.
  { split; [by split_and!|split; [done|]]. cbn [honest qs inf].
    destruct (bool_decide_reflect (type (h d) = TL_UNLOCK)) as [T|T]; [intros q; by apply (unlock_not_running L h r)|].
    cbn [orb] in B. unfold le in B. apply bool_decide_eq_true in B. intros [W|W]; [done|]. rewrite W in B. cbn in B. lia. }
  cbn [orb] in Ty. apply andb_true_iff in Ty as (Td & W). apply bool_decide_eq_true in Td.
  apply wp_bind, wp_set_type; [done|]. apply orb_true_iff in W.
  destruct (bool_decide_reflect (cond (h d) = None)) as [Cn|Cn].
  - assert (E : L write = [d]).
    { destruct W as [W|W]; apply bool_decide_eq_true in W; [done|].
      destruct (core_kind _ _ _ _ C _ _ W) as (_ & X). rewrite Cn in X. by destruct X. }
    assert (I : d ∈ L write) by (rewrite E; by left).
    destruct (only_writer L h r d C E) as (_ & N1 & N2 & N3 & _).
    apply wp_bind, wp_is_empty. destruct (bool_decide_reflect (L read = [])) as [R|R].
    + apply wp_bind, wp_call_get_status; [done|]. intros r' (K & N). split; [|split; [done|]].
      2:{ cbn [honest qs inf]. intros _. rewrite fn_lookup_insert. done. }
      cbn [qs inf arest sleepers_after]. split_and!; [|done|by apply sleeping_info].
      apply (core_ext ids _ (<[d := with_type t (h d)]> h) r); [done|done|done|].
      apply (core_retype ids L h r write); [done|done|done|by split|by intros X; destruct (Nc X)|].
      intros _. rewrite E, R. split; [done|]. by intros w v _ X%elem_of_nil.
    + apply wp_requeue; auto. intros L' EL. unfold wait_enter. apply wp_bind, wp_bind, wp_modify, wp_bind, wp_set_cond; [done|].
      apply good_sleeps.
      * apply (core_requeue L _ h _ r _ d (with_cond (Some me) (with_type t (h d))));
          [done|done|done| |done|done|apply with_both]. split; [done|by eexists].
      * by eapply requeue_progress.
      * done.
      * apply (sleeping_other L h _ _ _ d); auto.
        -- intros q x N. rewrite EL. by apply requeue_other.
        -- intros x N. by rewrite !fn_lookup_insert_ne.
      * rewrite EL. unfold requeue. rewrite fn_lookup_insert. by left.
  - assert (I : d ∈ L write_wait).
    { destruct W as [W|W]; apply bool_decide_eq_true in W; [|done].
      destruct (only_writer L h r d C W) as (_ & _ & _ & _ & X). congruence. }
    unfold wait_enter. apply wp_bind, wp_bind, wp_modify, wp_bind, wp_set_cond; [done|].
    apply good_sleeps; [|done|done| |done].
    + apply (core_ext ids _ (<[d := with_cond (Some me) (with_type t (h d))]> h) r);
        [intros q x _; apply with_both|done|done|].
      apply (core_retype ids L h r write_wait); [done|done|done| |cbn; by intros X; destruct (Nc X)|done].
      split; [done|by eexists].
    + apply (sleeping_other L h _ _ _ d); auto. intros x N. by rewrite !fn_lookup_insert_ne.
Qed.

Lemma step_reschedule fuel L h f r sl d me :
  Inv L h r sl -> permitted ids e (mk_a L h f r) sl (Reschedule d me) = true ->
  wp (perform e fuel sl (Reschedule d me)) (good L h sl (Reschedule d me) r) (mk_a L h f r).
Proof.
  intros (C & P & S) Pm. cbn [permitted perform qs inf] in *. apply andb_true_iff in Pm as (Zn & E).
  apply bool_decide_eq_true in Zn, E. destruct (only_writer L h r d C E) as (D & N1 & N2 & N3 & _).
  apply wp_bind. unfold thr_reschedule_write_lock. apply wp_bind, wp_is_empty.
  destruct (bool_decide_reflect (L read_wait = [])) as [R|R]; [split; [by split_and!|by split_and!]|].
  apply wp_bind, wp_get; [done|]. apply wp_bind, wp_set_type; [done|]. apply wp_bind, wp_get_rest, wp_bind.
  assert (X : forall r1, keep_rest r r1 -> wp
    (do (Unlink write d);; do (Push write_wait d);; do (Set_cond d (Some me));; do (Free_reads false);;
     mret (Some (type (h d))))
    (fun x a1 => wp (mret (Rescheduled x)) (good L h sl (Reschedule d me) r) a1)
    (mk_a L (<[d := with_type TL_WRITE_DELAYED (h d)]> h) f r1)).
  { intros r1 K1. apply wp_requeue; auto. intros L' EL. apply wp_bind, wp_set_cond; [done|]. apply wp_bind.
    set (h2 := <[d := _]> _ : Z -> lock_info).
    assert (E2 : forall x, h2 x = (<[d := with_cond (Some me) (with_type TL_WRITE_DELAYED (h d))]> h : Z -> lock_info) x)
      by apply with_both.
    assert (C2 : Core L' h2 r1).
    { apply (core_requeue L _ h _ r _ d (with_cond (Some me) (with_type TL_WRITE_DELAYED (h d))));
        [done|done|done| |done|done|exact E2]. split; [by split|by eexists]. }
    assert (W2 : L' write = []).
    { rewrite EL. unfold requeue. rewrite fn_lookup_insert_ne by done. by rewrite fn_lookup_insert. }
    assert (R2 : L' read_wait <> []).
    { rewrite EL. unfold requeue. by rewrite !fn_lookup_insert_ne. }
    apply wp_free_reads; auto; [by apply no_writers|]. intros h' r' C' M' S' Hk.
    assert (Dw : d ∈ L' write_wait) by (rewrite EL; unfold requeue; rewrite fn_lookup_insert; by left).
    split; [|split; [cbn; eapply same_lock_trans; [apply K1|done]|]]; cbn [qs inf arest sleepers_after honest].
    2:{ split_and!; [done|by rewrite freed_other| |].
        - rewrite Hk, E2, fn_lookup_insert; [done|]. rewrite EL. unfold requeue. by rewrite !fn_lookup_insert_ne.
        - intros y Y. rewrite freed_read. apply elem_of_app. right. apply list_elem_of_filter. split; [by intros (_ & ?)|].
          rewrite EL. unfold requeue. by rewrite !fn_lookup_insert_ne. }
    split_and!; [done|by apply freed_progress|].
    eapply sleeping_moved; [|exact M']. apply (sleeping_other L h _ _ _ d); auto.
    - intros q x N. rewrite EL. by apply requeue_other.
    - intros x N. rewrite E2. by rewrite fn_lookup_insert_ne. }
  destruct (update_status r); by apply X.
Qed.

Theorem step_ok fuel L h f r sl c :
  Inv L h r sl -> permitted ids e (mk_a L h f r) sl c = true -> (length (L write_wait) <= fuel)%nat ->
  wp (perform e fuel sl c) (good L h sl c r) (mk_a L h f r).
Proof.
  intros I Pm F. destruct c.
  - by apply step_lock.
  - by apply step_wake.
  - by apply step_unlock.
  - by apply step_abort.
  - by apply step_abort_thread.
  - by apply step_downgrade.
  - by apply step_upgrade.
  - by apply step_reschedule.
Qed.

End Steps.
End ThrSteps.
