(* ===== verification/ThrFrame.v ===== *)
(** * ThrFrame: what the calls of one instance do to the others

    A call changes only its own instance, starts or aborts waiting ones, and
    never takes a running lock away.  [tame] is a condition on the primitives of
    a program under which that holds ([tame_kept]); the lemmas [tame_*] check it
    for the operations of [ThrLock]. *)
From stdpp Require Import base tactics option list numbers gmap functions.
From Stdlib Require Import ZArith Lia.
From S2P Require Import Prelude ThrLock ThrSpec ThrSim ThrInv ThrWake.

Module ThrFrame.
Import ThrLock ThrSpec ThrSim ThrInv ThrSys.

Implicit Types (a : alock) (d x : Z) (q : queue) (i : lock_info) (t : thr_lock_type) (r : lock_rest).

Definition running a x : Prop := x ∈ qs a read \/ x ∈ qs a write.
Definition outside a x : Prop := forall q, x ∉ qs a q.

(** It has the lock: a running instance has no condition variable. *)
Definition ready a x : Prop := running a x /\ cond (inf a x) = None.

(** A delayed insert that has been told success: it runs, waits or has been
    aborted. *)
Definition delayed a x : Prop :=
  running a x \/ (x ∈ qs a write_wait /\ type (inf a x) = TL_WRITE_DELAYED) \/
  (outside a x /\ type (inf a x) = TL_UNLOCK).

(** An instance whose request for a lock of type [want] has been answered with
    success. *)
Definition settled want a x : Prop := ready a x \/ want = TL_WRITE_DELAYED /\ delayed a x.

(** The type of an instance for which [want] was asked: that type, [TL_UNLOCK] when
    it has been aborted, [TL_WRITE_ONLY] when it keeps everybody out since, and a
    stronger lock for a concurrent insert. *)
Definition typed want t : Prop :=
  t = TL_UNLOCK \/ t = want \/ is_write want /\ t = TL_WRITE_ONLY \/
  want = TL_WRITE_CONCURRENT_INSERT /\ (t = TL_WRITE \/ t = TL_WRITE_LOW_PRIORITY).

(** What does not change for an instance. *)
Definition kept x a a' : Prop :=
  (ready a x -> ready a' x) /\ (delayed a x -> delayed a' x) /\ (outside a x -> outside a' x).

Lemma kept_settled x a a' want : kept x a a' -> settled want a x -> settled want a' x.
Proof. unfold kept, settled. intuition. Qed.

Definition same_types a a' : Prop := forall x want, typed want (type (inf a x)) -> typed want (type (inf a' x)).

Lemma same_types_eq a a' : (forall x, type (inf a' x) = type (inf a x)) -> same_types a a'.
Proof. intros E x want. by rewrite E. Qed.

Definition same_owners a a' : Prop := forall x, owner (inf a' x) = owner (inf a x).

Lemma frame_trans x a a1 a2 : kept x a a1 -> kept x a1 a2 -> kept x a a2.
Proof. unfold kept. intuition. Qed.

(** Queues that change only for another instance. *)
Lemma kept_other x a a' :
  (forall q, x ∈ qs a' q <-> x ∈ qs a q) -> type (inf a' x) = type (inf a x) ->
  cond (inf a' x) = cond (inf a x) -> kept x a a'.
Proof.
  intros Q T Cd. unfold kept, ready, delayed, running, outside. rewrite T, Cd. setoid_rewrite Q. auto.
Qed.

Lemma queue_other x d q q' a l :
  x <> d -> (forall y, y <> d -> (y ∈ l <-> y ∈ qs a q)) ->
  x ∈ (<[q := l]> (qs a) : queue -> list Z) q' <-> x ∈ qs a q'.
Proof.
  intros N H. destruct (decide (q' = q)) as [->|F]; [rewrite fn_lookup_insert; auto|by rewrite fn_lookup_insert_ne].
Qed.

Lemma owners_insert a d i : owner i = owner (inf a d) ->
  forall x, owner ((<[d := i]> (inf a) : Z -> lock_info) x) = owner (inf a x).
Proof.
  intros E x. destruct (decide (x = d)) as [->|F]; [by rewrite fn_lookup_insert|by rewrite fn_lookup_insert_ne].
Qed.

Lemma owners_change l f h x : (forall i, owner (f i) = owner i) -> owner (change l f h x) = owner (h x).
Proof. intros F. unfold change. destruct (bool_decide_reflect (x ∈ l)); auto. Qed.

Lemma free_reads_kept b a a' x : afree_reads b a = Some a' -> kept x a a' /\ same_owners a a' /\ same_types a a'.
Proof.
  unfold afree_reads. destruct (free_rest _ _ _) as [r|]; [|done]. cbn [mbind option_bind].
  destruct (bool_decide_reflect (qs a read_wait = [])) as [?|_]; [done|]. intros [= <-]. split_and!.
  - set (go := filter _ _). set (keep := filter _ _).
    assert (T : type (change go (with_cond None) (inf a) x) = type (inf a x)).
    { unfold change. by destruct (bool_decide_reflect (x ∈ go)). }
    assert (Cd : cond (inf a x) = None -> cond (change go (with_cond None) (inf a) x) = None).
    { unfold change. by destruct (bool_decide_reflect (x ∈ go)). }
    unfold kept, ready, delayed, running, outside. cbn [qs inf]. rewrite T. rewrite fn_lookup_insert.
    rewrite !(fn_lookup_insert_ne _ read write), !(fn_lookup_insert_ne _ read write_wait),
      !(fn_lookup_insert_ne _ read_wait write), !(fn_lookup_insert_ne _ read_wait write_wait) by done.
    assert (O : outside a x -> forall q,
      x ∉ (<[read := qs a read ++ go]> (<[read_wait := keep]> (qs a)) : queue -> list Z) q).
    { intros O q. assert (N : (x ∉ go) /\ (x ∉ keep)).
      { split; intros (_ & H)%list_elem_of_filter; by apply (O read_wait). }
      destruct (decide (q = read)) as [->|F]; [rewrite fn_lookup_insert, elem_of_app; intros [H|H]; [by apply (O read)|tauto]|].
      rewrite fn_lookup_insert_ne by done.
      destruct (decide (q = read_wait)) as [->|F']; [rewrite fn_lookup_insert; tauto|].
      rewrite fn_lookup_insert_ne by done. apply O. }
    split_and!; [|intros [[H|H]|[H|(H & E)]]; [left; left; apply elem_of_app; by left|left; by right|by right; left|]|done].
    { intros (H & Hc). split; [|auto]. rewrite elem_of_app. tauto. }
    right; right. split; [by apply O|done].
  - intros y. cbn [inf]. by apply owners_change.
  - apply same_types_eq. intros y. cbn [inf]. unfold change. by destruct (bool_decide _).
Qed.

(** Only instances with a condition variable are signalled. *)
Lemma signal_cond h l : forall r r' x, signal_rest h l r = Some r' -> x ∈ l -> is_Some (cond (h x)).
Proof.
  induction l as [|d l IH]; intros r r' x E I; [by apply elem_of_nil in I|]. cbn [signal_rest] in E.
  destruct (cond (h d)) as [c|] eqn:Ed; [|done]. apply elem_of_cons in I as [->|I]; [by rewrite Ed|eauto].
Qed.

Lemma abort_kept l a a' x : aabort l a = Some a' -> kept x a a' /\ same_owners a a' /\ same_types a a'.
Proof.
  unfold aabort. destruct (signal_rest _ _ _) as [r|] eqn:Sg; [|done]. cbn [mbind option_bind]. intros [= <-]. split_and!.
  - assert (In : forall q, x ∈ filter (fun d => d ∉ l) (qs a q) <-> (x ∉ l) /\ x ∈ qs a q)
      by (intros; apply (list_elem_of_filter (fun d => d ∉ l))).
    unfold kept, ready, delayed, running, outside, change. cbn [qs inf]. setoid_rewrite In.
    destruct (bool_decide_reflect (x ∈ l)) as [H|H].
    + destruct (signal_cond _ _ _ _ x Sg H) as (c & Ec).
      split_and!; [intros (_ & Cn); congruence| |intros O q (_ & K); by apply (O q)]. intros _. right; right. split; [tauto|done].
    + split_and!; [tauto| |intros O q (_ & K); by apply (O q)]. intros [[K|K]|[(K & T)|(K & T)]]; auto.
      right; right. split; [|done]. intros q (_ & K'). by apply (K q).
  - intros y. cbn [inf]. by apply owners_change.
  - intros y want. cbn [inf]. unfold change. destruct (bool_decide _); [by left|done].
Qed.

(** A change of the type that keeps it [typed]. *)
Definition retypes a d t : Prop :=
  type (inf a d) = TL_WRITE_CONCURRENT_INSERT /\ (t = TL_WRITE \/ t = TL_WRITE_LOW_PRIORITY) \/
  t = TL_WRITE_ONLY /\ d ∈ qs a write /\ is_write (type (inf a d)).

Lemma retypes_typed a d t want : retypes a d t \/ t = TL_UNLOCK -> typed want (type (inf a d)) -> typed want t.
Proof.
  unfold typed. intros [[(E & T)|(-> & _ & Wr)]|T]; [| |by left].
  - rewrite E. intros [?|[<-|[(_ & ?)|(-> & _)]]]; try done; right; right; right; done.
  - intros [E|[<-|[(?&_)|(-> & _)]]]; [|by right; right; left..|]; [rewrite E in Wr; destruct Wr as (L & _); simpl in L; lia|].
    right; right; left. split; [by split|done].
Qed.

Lemma set_type_types d t a : retypes a d t \/ t = TL_UNLOCK ->
  same_types a (set_inf a (<[d := with_type t (inf a d)]> (inf a))).
Proof.
  intros R x want H. cbn [inf set_inf]. destruct (decide (x = d)) as [->|N]; [|by rewrite fn_lookup_insert_ne].
  rewrite fn_lookup_insert. cbn [type with_type]. by apply (retypes_typed a d t).
Qed.

Lemma set_type_kept d t a x : (d = x -> retypes a d t) ->
  kept x a (set_inf a (<[d := with_type t (inf a d)]> (inf a))).
Proof.
  intros H. destruct (decide (d = x)) as [<-|N].
  - specialize (H eq_refl). unfold kept, ready, delayed, running, outside. cbn [qs inf set_inf]. rewrite fn_lookup_insert.
    cbn [type cond with_type]. split_and!; [done| |done].
    destruct H as [(Ci & _)|(_ & Wr & _)]; [|by left; right]. rewrite Ci. intros [?|[(_ & ?)|(_ & ?)]]; [by left|done|done].
  - apply kept_other; [done|..]; cbn [inf set_inf]; by rewrite fn_lookup_insert_ne.
Qed.

Lemma start_write_kept d a x : d ∈ qs a write_wait ->
  kept x a (set_qs a (<[write := qs a write ++ [d]]> (<[write_wait := remove d (qs a write_wait)]> (qs a)))).
Proof.
  intros D. destruct (decide (d = x)) as [<-|N].
  - split_and!; [| |by intros O; destruct (O write_wait)].
    + intros (_ & Cd). split; [right|done]. cbn [qs set_qs]. rewrite fn_lookup_insert. apply elem_of_app. right. by left.
    + intros _. left. right. cbn [qs set_qs]. rewrite fn_lookup_insert. apply elem_of_app. right. by left.
  - apply kept_other; [|done|done]. intros q. cbn [qs set_qs].
    destruct (decide (q = write)) as [->|F].
    + rewrite fn_lookup_insert, elem_of_app, list_elem_of_singleton. intuition congruence.
    + rewrite fn_lookup_insert_ne by done. destruct (decide (q = write_wait)) as [->|F'].
      * rewrite fn_lookup_insert. unfold remove. rewrite list_elem_of_filter. intuition congruence.
      * by rewrite fn_lookup_insert_ne.
Qed.

Section Tame.
Context (ids : gset Z) (chk : Z -> bool) (actor : option Z).

(** A primitive that links only the actor's instance, makes only that one wait
    or [TL_UNLOCK], and otherwise changes types as [retypes] says. *)
Definition op_ok a {X} (o : op X) : Prop :=
  match o with
  | Init _ _ _ => False
  | Enqueue _ d | Unlink _ d | Push _ d => actor = Some d
  | Set_type d t => actor = Some d /\ t = TL_UNLOCK \/ retypes a d t
  | Set_cond d c => actor = Some d \/ c = None
  | _ => True
  end.

Lemma op_kept {X} (o : op X) a y a' :
  op_ok a o -> arun_op ids chk o a = Some (y, a') ->
  (forall x, actor <> Some x -> kept x a a') /\ same_owners a a' /\ same_types a a'.
Proof.
  intros O E.
  assert (Refl : forall b, qs b = qs a -> inf b = inf a ->
    (forall x, actor <> Some x -> kept x a b) /\ same_owners a b /\ same_types a b).
  { intros b Q I. split_and!; [intros x _; apply kept_other|intros x|apply same_types_eq; intros x]; by rewrite ?Q, ?I. }
  assert (Queue : forall q d l, actor = Some d -> (forall y, y <> d -> (y ∈ l <-> y ∈ qs a q)) ->
    let b := set_qs a (<[q := l]> (qs a)) in
    (forall x, actor <> Some x -> kept x a b) /\ same_owners a b /\ same_types a b).
  { intros q d l A L b. split_and!; [|done|by apply same_types_eq]. intros x N. apply kept_other; [|done|done]. intros q'. cbn [qs set_qs b].
    apply (queue_other x d); [congruence|done]. }
  destruct o; cbn [op_ok arun_op] in *.
  - injection E as <- <-. by apply Refl.
  - destruct (known ids d); [|done]. injection E as <- <-. by apply Refl.
  - done.
  - destruct (known ids d); [|done]. injection E as <- <-. split_and!.
    + intros x N. apply set_type_kept. intros <-. tauto.
    + intros x. cbn [inf set_inf]. by apply owners_insert.
    + apply set_type_types. tauto.
  - destruct (known ids d); [|done]. injection E as <- <-. split_and!.
    + intros x N. destruct (decide (x = d)) as [->|F].
      * assert (c = None) as -> by tauto. unfold kept, ready, delayed, running, outside. cbn [qs inf set_inf]. rewrite fn_lookup_insert.
        cbn [type cond with_cond]. tauto.
      * apply kept_other; [done|..]; cbn [inf set_inf]; by rewrite fn_lookup_insert_ne.
    + intros x. cbn [inf set_inf]. by apply owners_insert.
    + apply same_types_eq. intros x. cbn [inf set_inf].
      destruct (decide (x = d)) as [->|F]; [by rewrite fn_lookup_insert|by rewrite fn_lookup_insert_ne].
  - destruct (bool_decide_reflect (fresh a = Some d)); [|done]. injection E as <- <-.
    apply (Queue q d); [done|]. intros z N. rewrite elem_of_app, list_elem_of_singleton. tauto.
  - destruct (bool_decide_reflect (d ∈ qs a q)); [|done]. injection E as <- <-.
    apply (Queue q d); [done|]. intros z N. unfold remove. rewrite list_elem_of_filter. tauto.
  - destruct (known ids d && _); [|done]. injection E as <- <-.
    apply (Queue q d); [done|]. intros z N. rewrite elem_of_cons. tauto.
  - destruct (bool_decide_reflect (d ∈ qs a write_wait)); [|done]. injection E as <- <-.
    split_and!; [|done|by apply same_types_eq]. intros x _. by apply start_write_kept.
  - injection E as <- <-. by apply Refl.
  - destruct (afree_reads _ a) as [a1|] eqn:F; [|done]. injection E as <- <-.
    split; [intros x _; apply (free_reads_kept _ _ _ x F)|apply (free_reads_kept _ _ _ 0 F)].
  - destruct (aabort _ a) as [a1|] eqn:F; [|done]. injection E as <- <-.
    split; [intros x _; apply (abort_kept _ _ _ x F)|apply (abort_kept _ _ _ 0 F)].
  - destruct (aabort _ a) as [a1|] eqn:F; [|done]. injection E as <- <-.
    split; [intros x _; apply (abort_kept _ _ _ x F)|apply (abort_kept _ _ _ 0 F)].
  - injection E as <- <-. by apply Refl.
  - injection E as <- <-. by apply Refl.
  - destruct c; [|done]. injection E as <- <-. by apply Refl.
  - destruct (check_status _); [|done]. injection E as <- <-. by apply Refl.
Qed.

(** *** Programs *)

Fixpoint tame {A} (p : prog A) a : Prop :=
  match p with
  | Ret _ => True
  | Do o k => op_ok a o /\ forall y a', arun_op ids chk o a = Some (y, a') -> tame (k y) a'
  end.

Lemma tame_kept {A} (p : prog A) : forall a y a', tame p a -> arun ids chk p a = Some (y, a') ->
  (forall x, actor <> Some x -> kept x a a') /\ same_owners a a' /\ same_types a a'.
Proof.
  induction p as [v|X o k IH]; intros a y a' T E; cbn [arun tame] in *.
  - injection E as <- <-. split_and!; [done|done|by apply same_types_eq].
  - destruct T as (O & T). destruct (arun_op ids chk o a) as [[z a1]|] eqn:E1; [|done].
    destruct (op_kept o a z a1 O E1) as (K1 & S1 & T1). destruct (IH z a1 y a' (T z a1 eq_refl) E) as (K2 & S2 & T2).
    split_and!; [intros x N; eapply frame_trans; eauto| |intros x want H; auto]. intros x. by rewrite S2, S1.
Qed.

Lemma tame_bind {A B} (p : prog A) (k : A -> prog B) a :
  tame p a -> (forall y a', tame (k y) a') -> tame (p ≫= k) a.
Proof.
  intros T K. revert a T. induction p as [v|X o k' IH]; intros a T; [apply K|].
  change (Do o k' ≫= k) with (Do o (fun y => k' y ≫= k)). cbn [tame] in *. destruct T as (O & T).
  split; [done|]. intros y a' E. apply IH. by apply T.
Qed.

Lemma tame_do {X} (o : op X) a : op_ok a o -> tame (do o) a.
Proof. by split. Qed.

Lemma tame_ret {A} (v : A) a : tame (mret v) a.
Proof. done. Qed.

Lemma tame_ret_bind {A B} (v : A) (k : A -> prog B) a : tame (k v) a -> tame (mret v ≫= k) a.
Proof. done. Qed.

(** The primitives that only look. *)
Lemma tame_get {B} d (k : lock_info -> prog B) a : tame (k (inf a d)) a -> tame (do (Get d) ≫= k) a.
Proof. intros T. split; [done|]. intros y a'. cbn. destruct (known ids d); [|done]. by intros [= <- <-]. Qed.

Lemma tame_check {B} p (k : bool -> prog B) a :
  (forall b, tame (k b) a) -> tame (do (Check_status p) ≫= k) a.
Proof. intros T. split; [done|]. intros y a'. cbn. destruct (check_status _); [|done]. by intros [= <- <-]. Qed.

Lemma tame_rest {B} (k : lock_rest -> prog B) a : tame (k (arest a)) a -> tame (do Get_rest ≫= k) a.
Proof. intros T. split; [done|]. intros y a'. cbn. by intros [= <- <-]. Qed.

Lemma tame_head {B} q (k : option Z -> prog B) a : tame (k (head (qs a q))) a -> tame (do (Head q) ≫= k) a.
Proof. intros T. split; [done|]. intros y a'. cbn. by intros [= <- <-]. Qed.

Lemma tame_have {B} q g (k : bool -> prog B) a :
  tame (k (existsb (fun d => g (inf a d)) (qs a q))) a -> tame (do (Have q g) ≫= k) a.
Proof. intros T. split; [done|]. intros y a'. cbn. by intros [= <- <-]. Qed.

Lemma tame_head_info {B} q (k : option (Z * lock_info) -> prog B) a :
  tame (k None) a -> (forall d, tame (k (Some (d, inf a d))) a) -> tame (head_info q ≫= k) a.
Proof.
  intros N S. split; [done|]. intros y a'. cbn. intros [= <- <-].
  destruct (head (qs a q)) as [d|]; [|done]. split; [done|]. intros y' a'. cbn.
  destruct (known ids d); [|done]. by intros [= <- <-].
Qed.

Lemma tame_empty {B} q (k : bool -> prog B) a : (forall b, tame (k b) a) -> tame (is_empty q ≫= k) a.
Proof. intros T. split; [done|]. intros y a'. cbn. by intros [= <- <-]. Qed.

End Tame.

Lemma is_ci_true t : is_ci t = true -> t = TL_WRITE_CONCURRENT_INSERT.
Proof. apply bool_decide_eq_true. Qed.

Lemma retypes_ci a d : is_ci (type (inf a d)) = true -> retypes a d TL_WRITE.
Proof. intros E%is_ci_true. left. auto. Qed.

(** Go through a program; what is left are the changes of the type. *)
Ltac tame_step :=
  match goal with
  | |- tame _ _ _ (mret _) _ => apply tame_ret
  | |- tame _ _ _ (Ret _) _ => exact I
  | |- tame _ _ _ (Do Get_rest _) _ => apply tame_rest
  | |- tame _ _ _ (Do (Head _) _) _ => apply tame_head
  | |- tame _ _ _ (Do (Have _ _) _) _ => apply tame_have
  | |- tame _ _ _ (Do _ _) _ => split; [cbn [op_ok]; auto|intros ? ? _]
  | |- tame _ _ _ (do (Have _ _) ≫= _) _ => apply tame_have
  | |- tame _ _ _ (do (Get _) ≫= _) _ => apply tame_get
  | |- tame _ _ _ (do (Check_status _) ≫= _) _ => apply tame_check; intros
  | |- tame _ _ _ (do Get_rest ≫= _) _ => apply tame_rest
  | |- tame _ _ _ (do (Head _) ≫= _) _ => apply tame_head
  | |- tame _ _ _ (head_info _ ≫= _) _ => apply tame_head_info; [|intros ?]
  | |- tame _ _ _ (is_empty _ ≫= _) _ => apply tame_empty; intros
  | |- tame _ _ _ (modify _) _ => unfold modify
  | |- tame _ _ _ (call_get_status _ _) _ => unfold call_get_status
  | |- tame _ _ _ (mret _ ≫= _) _ => apply tame_ret_bind
  | |- tame _ _ _ ((match ?x with _ => _ end) ≫= _) _ => destruct x eqn:?
  | |- tame _ _ _ (_ ≫= _) _ => apply tame_bind; [|intros ? ?]
  | |- tame _ _ _ (match ?x with _ => _ end) _ => destruct x eqn:?
  | |- tame _ _ _ (do _) _ => apply tame_do; cbn [op_ok]; auto using retypes_ci
  end.


Section Operations.
Context (ids : gset Z) (chk : Z -> bool) (e : env).
Context (up : thr_upgraded_concurrent_insert_lock e = TL_WRITE \/
              thr_upgraded_concurrent_insert_lock e = TL_WRITE_LOW_PRIORITY).

Lemma tame_free_waiting_reads actor b a : tame ids chk actor (free_waiting_reads b) a.
Proof. unfold free_waiting_reads. repeat tame_step. Qed.

Lemma tame_write_loop actor fuel : forall d a, tame ids chk actor (write_loop fuel d) a.
Proof.
  induction fuel as [|fuel IH]; intros d a; cbn [write_loop]; repeat tame_step; apply IH.
Qed.

Lemma tame_write_with_reads_loop actor fuel t : forall d a,
  tame ids chk actor (write_with_reads_loop fuel t d) a.
Proof.
  induction fuel as [|fuel IH]; intros d a; cbn [write_with_reads_loop]; repeat tame_step; apply IH.
Qed.

Lemma tame_wake actor fuel a : tame ids chk actor (wake_up_waiters e fuel) a.
Proof.
  unfold wake_up_waiters, wake_idle. repeat (tame_step || match goal with
  | |- tame _ _ _ (free_waiting_reads _) _ => apply tame_free_waiting_reads
  | |- tame _ _ _ (write_loop _ _) _ => apply tame_write_loop
  | |- tame _ _ _ (write_with_reads_loop _ _ _) _ => apply tame_write_with_reads_loop
  end).
Qed.

Lemma tame_wait_enter q d me b a : tame ids chk (Some d) (wait_enter q d me b) a.
Proof. unfold wait_enter. repeat tame_step. Qed.

Lemma tame_wait_or_deadlock q d o me a : tame ids chk (Some d) (wait_or_deadlock e q d o me) a.
Proof. unfold wait_or_deadlock. repeat tame_step; apply tame_wait_enter. Qed.

Lemma tame_wait q d b fuel a : tame ids chk (Some d) (wait_for_lock e fuel q d b) a.
Proof. unfold wait_for_lock. repeat tame_step; apply tame_wake. Qed.

Lemma tame_unlock d fuel a : tame ids chk (Some d) (thr_unlock e fuel d) a.
Proof. unfold thr_unlock. repeat tame_step; apply tame_wake. Qed.

Lemma tame_lock_read d o t me a : tame ids chk (Some d) (lock_read e d o t me) a.
Proof. unfold lock_read, grant_read, aborted. repeat tame_step; apply tame_wait_or_deadlock. Qed.

Lemma tame_lock_write d o t me a : (is_ci t = true -> type (inf a d) = TL_WRITE_CONCURRENT_INSERT) ->
  tame ids chk (Some d) (lock_write e d o t me) a.
Proof.
  intros T. unfold lock_write, grant_write, aborted. repeat tame_step; try apply tame_wait_or_deadlock. right. left. split; [by apply T|done].
Qed.

Lemma tame_abort_locks b a : (forall d, d ∈ qs a write -> is_write (type (inf a d))) ->
  tame ids chk None (thr_abort_locks b) a.
Proof.
  intros K. unfold thr_abort_locks. split; [done|]. intros y a1 E. cbn [arun_op] in E. unfold aabort in E.
  destruct (signal_rest _ _ _) as [r|]; [|done]. cbn [mbind option_bind] in E. injection E as <- <-.
  set (l := qs a read_wait ++ qs a write_wait). apply tame_head. cbn [qs].
  destruct (filter (fun d => d ∉ l) (qs a write)) as [|d l'] eqn:F; cbn [list.head]; [done|].
  destruct b; [|done]. split; [|done]. right. right. cbn [qs inf]. split_and!; [done|rewrite F; by left|].
  assert (D : d ∈ filter (fun d => d ∉ l) (qs a write)) by (rewrite F; by left).
  apply list_elem_of_filter in D as (D1 & D2). unfold change. rewrite bool_decide_false by done. by apply K.
Qed.

Lemma tame_abort_for_thread fuel id a : tame ids chk None (thr_abort_locks_for_thread e fuel id) a.
Proof. unfold thr_abort_locks_for_thread. repeat tame_step; apply tame_wake. Qed.

Lemma lock_frame d o t me a y a' : arun ids chk (thr_lock e d o t me) a = Some (y, a') ->
  (forall x, x <> d -> kept x a a' /\ owner (inf a' x) = owner (inf a x) /\
     forall want, typed want (type (inf a x)) -> typed want (type (inf a' x))) /\
  owner (inf a' d) = o /\ typed t (type (inf a' d)).
Proof.
  unfold thr_lock. intros E. cbn [mbind prog_bind do arun arun_op] in E.
  destruct (known ids d && _) eqn:K; [|done]. cbn [mbind option_bind] in E.
  set (a1 := mk_a _ _ (Some d) _) in E.
  apply (tame_kept ids chk (Some d)) in E as (F & S & T).
  - split; [intros x N; split_and!|split].
    + apply (frame_trans x a a1); [apply kept_other; [done|..]|apply F; congruence];
        cbn [inf a1]; by rewrite fn_lookup_insert_ne.
    + rewrite S. cbn [inf a1]. by rewrite fn_lookup_insert_ne.
    + intros want H. apply T. cbn [inf a1]. by rewrite fn_lookup_insert_ne.
    + rewrite S. cbn [inf a1]. by rewrite fn_lookup_insert.
    + apply T. cbn [inf a1]. rewrite fn_lookup_insert. right; by left.
  - assert (Ty : type (inf a1 d) = t) by (cbn [inf a1]; by rewrite fn_lookup_insert). clearbody a1. clear - Ty up.
    assert (Wr : tame ids chk (Some d) (lock_write e d o t me) a1) by (apply tame_lock_write; rewrite Ty; apply is_ci_true).
    unfold aborted. repeat (tame_step || match goal with
    | |- tame _ _ _ (lock_read _ _ _ _ _) _ => apply tame_lock_read
    | |- tame _ _ _ (lock_write _ _ _ t _) a1 => exact Wr
    | |- tame _ _ _ (lock_write _ _ _ _ _) _ => apply tame_lock_write
    end).
    + right. left. apply andb_true_iff in Heqb1 as (Ci & _). split; [rewrite Ty; by apply is_ci_true|done].
    + destruct up as [-> | ->]; done.
Qed.

(** The instance a call is about. *)
Definition actor (c : call) : option Z :=
  match c with
  | Lock d _ _ _ | Wake d _ | Unlock d | Downgrade d _ | Upgrade d _ _ | Reschedule d _ => Some d
  | Abort_locks _ | Abort_locks_for_thread _ => None
  end.

(** The calls of threads that lock and unlock, and those that abort. *)
Definition plain (c : call) : Prop :=
  match c with
  | Lock _ _ _ _ | Wake _ _ | Unlock _ | Abort_locks _ | Abort_locks_for_thread _ => True
  | _ => False
  end.

Definition owners_after (c : call) a a' : Prop :=
  forall x, owner (inf a' x) =
    match c with Lock d o _ _ => if decide (x = d) then o else owner (inf a x) | _ => owner (inf a x) end.

(** A lock that is asked for has the type that was asked for, and keeps it. *)
Definition types_after (c : call) a a' : Prop :=
  match c with
  | Lock d _ t _ => typed t (type (inf a' d)) /\
      forall x want, x <> d -> typed want (type (inf a x)) -> typed want (type (inf a' x))
  | _ => same_types a a'
  end.

Lemma arun_fmap {A B} (f : A -> B) (p : prog A) : forall a y a',
  arun ids chk (p ≫= fun v => mret (f v)) a = Some (y, a') ->
  exists v, arun ids chk p a = Some (v, a') /\ y = f v.
Proof.
  induction p as [v|X o k IH]; intros a y a' E.
  - injection E as <- <-. by exists v.
  - change (Do o k ≫= fun v => mret (f v)) with (Do o (fun z => k z ≫= fun v => mret (f v))) in E.
    cbn [arun] in *. destruct (arun_op ids chk o a) as [[z a1]|]; [|done]. by apply IH.
Qed.

(** A call keeps what the others have. *)
Lemma perform_frame fuel sl c a y a' :
  plain c -> (forall d, d ∈ qs a write -> is_write (type (inf a d))) ->
  arun ids chk (perform e fuel sl c) a = Some (y, a') ->
  (forall x, actor c <> Some x -> kept x a a') /\ owners_after c a a' /\ types_after c a a'.
Proof.
  intros P Kw E. destruct c; cbn [perform plain actor owners_after types_after] in *; try done.
  - apply (arun_fmap Out) in E as (x & E & ->). destruct (lock_frame _ _ _ _ _ _ _ E) as (F & O & T).
    split_and!; [intros z N; apply F; congruence| |done|intros z want N; by apply F].
    intros z. destruct (decide (z = d)) as [->|N]; [done|by apply F].
  - destruct (sl !! d) as [[q b]|]; [|injection E as <- <-; split_and!; [done|done|by apply same_types_eq]].
    apply (arun_fmap Out) in E as (x & E & ->). eapply tame_kept; [apply tame_wait|exact E].
  - apply (arun_fmap Out) in E as (x & E & ->). eapply tame_kept; [apply tame_unlock|exact E].
  - apply (arun_fmap Out) in E as (x & E & ->). eapply tame_kept; [by apply tame_abort_locks|exact E].
  - apply (arun_fmap Found) in E as (x & E & ->). eapply tame_kept; [apply tame_abort_for_thread|exact E].
Qed.

End Operations.

#[global] Arguments plain !c /.

End ThrFrame.
