(* ===== verification/ThrMain.v ===== *)
(** * ThrMain: what table locks promise

    The reachable states of a lock and its threads, on the linked structure of
    the C code, and the theorems about them. *)
From stdpp Require Import base tactics option list numbers gmap functions.
From Stdlib Require Import ZArith Lia.
From S2P Require Import Prelude ThrLock ThrSpec ThrLinks ThrSim ThrInv ThrWake ThrRequest ThrSteps ThrFrame.

Module ThrMain.
Import ThrLock ThrSpec ThrLinks ThrSim ThrInv ThrWake ThrSys ThrRequest ThrSteps ThrFrame.

Implicit Types (s : THR_LOCK) (a : alock) (d o : Z) (q : queue) (sl : sleepers) (e : env).

(** ** Reachable states *)

(** The instances that a pointer leads to. *)
Fixpoint walk (fuel : nat) s (d : option Z) : list Z :=
  match d, fuel with
  | Some d, S fuel => d :: walk fuel s (datas s !! d ≫= next)
  | _, _ => []
  end.

Definition no_info : lock_info := mk_info 0 None TL_IGNORE 0.

(** The queues and instances of a linked structure. *)
Definition view s : alock :=
  mk_a (fun q => walk (links s) s (data (lists s q))) (fun d => from_option info no_info (datas s !! d))
    None (rest s).

(** The states of a lock and the sleeping instances: from a new lock,
    with the functions of a storage engine, by steps
    that [permitted] allows; [chk] is what [check_status] answers. *)
Inductive reachable e : THR_LOCK -> sleepers -> Prop :=
  | reach_init ds r get update check multiple :
      Z.of_nat (size ds) < 2 ^ 32 ->
      reachable e (set_functions get update check multiple (thr_lock_init ds r)) ∅
  | reach_step s sl chk c x s' :
      reachable e s sl -> permitted (dom (datas s)) e (view s) sl c = true ->
      run chk (perform e (links s) sl c) s = Some (x, s') ->
      reachable e s' (sleepers_after sl c x).

(** The lock type a concurrent insert is changed to is a write lock. *)
Definition sane e : Prop :=
  thr_upgraded_concurrent_insert_lock e = TL_WRITE \/
  thr_upgraded_concurrent_insert_lock e = TL_WRITE_LOW_PRIORITY.

(** *** The view of a represented lock *)

Lemma walk_seg s p l : forall fuel, seg s p l -> rdl s (endl p l) = Some None -> (length l <= fuel)%nat ->
  walk fuel s (head l) = l.
Proof.
  revert p. induction l as [|d l IH]; intros p fuel S T F; [by destruct fuel|].
  destruct fuel as [|fuel]; cbn [length] in F; [lia|]. destruct S as (_ & _ & S). cbn [endl] in T.
  cbn [walk list.head]. f_equal. pose proof (seg_head _ _ _ S T) as H. cbn in H.
  destruct (datas s !! d) as [x|]; [|done]. cbn in *. injection H as ->. apply (IH (Next_of d)); [done|done|lia].
Qed.

Lemma view_qs ids s a q : Rep ids s a -> qs (view s) q = qs a q.
Proof.
  intros (B & L & (N & _ & I) & _). destruct (L q) as ((S & _) & T). cbn [view qs].
  assert (data (lists s q) = head (qs a q)) as ->.
  { pose proof (seg_head _ _ _ S T) as H. cbn in H. congruence. }
  eapply walk_seg; [done|done|]. pose proof (links_enough ids s (inf a) (arest a) (qs a q) B (N q) (I q)). lia.
Qed.

Lemma view_inf ids s a d : Rep ids s a -> d ∈ ids -> inf (view s) d = inf a d.
Proof.
  intros ((D & I & _) & _) K. rewrite <- D in K. apply elem_of_dom in K as (x & E). cbn [view inf].
  rewrite E. cbn. by apply I.
Qed.

Lemma view_rep ids s a : Rep ids s a -> Rep ids s (view s).
Proof.
  intros R. pose proof R as (B & L & A & _). pose proof (view_qs ids s a) as V. destruct B as (D & I & Rs).
  split_and!; [split_and!| | |done].
  - done.
  - intros d x E. cbn [view inf]. by rewrite E.
  - done.
  - intros q. rewrite V by done. apply L.
  - destruct A as (A1 & A2 & A3). split_and!; intros *; rewrite ?V by done; eauto.
Qed.

Lemma core_view ids s a r sl : Rep ids s a -> arest a = r ->
  Inv ids (qs a) (inf a) r sl -> Inv ids (qs (view s)) (inf (view s)) r sl.
Proof.
  intros R _ (C & P & S).
  assert (V : forall q, qs (view s) q = qs a q) by (intros; by apply (view_qs ids)).
  pose proof (core_apart _ _ _ _ C) as (_ & _ & K). split_and!.
  - apply (core_qs ids (qs a)); [done|]. apply (core_ext ids _ (inf a) r); [|done|done|done].
    intros q d I. apply (view_inf ids); [done|]. by apply (K q).
  - destruct P as (P1 & P2). split; rewrite !V; auto.
  - intros d q b E. destruct (S d q b E) as (D & X). split; [done|]. rewrite !V, (view_inf ids s a d R D).
    destruct X as [X|[X|(N & X)]]; [by left|right; by left|right; right]. split; [|done]. intros q'. by rewrite V.
Qed.

(** ** The invariant holds *)

Definition state_ok e s sl : Prop :=
  Z.of_nat (size (dom (datas s))) < 2 ^ 32 /\ Rep (dom (datas s)) s (view s) /\
  Inv (dom (datas s)) (qs (view s)) (inf (view s)) (rest s) sl.

Lemma init_ok e ds r get update check multiple : Z.of_nat (size ds) < 2 ^ 32 ->
  state_ok e (set_functions get update check multiple (thr_lock_init ds r)) ∅.
Proof.
  intros F. set (s := set_functions get update check multiple (thr_lock_init ds r)).
  assert (Q : forall q, qs (view s) q = []) by done.
  assert (A : Apart (dom ds) (qs (view s))).
  { split_and!; intros *; rewrite ?Q; [apply NoDup_nil_2|by intros ?%elem_of_nil|by intros ?%elem_of_nil]. }
  split_and!; [by rewrite size_dom|split_and!; [split_and!| | |done]|split_and!].
  - done.
  - intros d x E. cbn [view inf]. by rewrite E.
  - done.
  - intros q. rewrite Q. by split.
  - done.
  - constructor; [done|..].
    + intros q d. rewrite Q. by intros ?%elem_of_nil.
    + by rewrite Q.
    + intros q d _. rewrite Q. by intros ?%elem_of_nil.
    + rewrite !Q. split; [done|]. by intros w v ?%elem_of_nil.
  - split; rewrite !Q; auto.
  - intros d q b E. by rewrite lookup_empty in E.
Qed.

(** A permitted call runs to its end as it does on lists. *)
Lemma call_view e s sl chk c :
  sane e -> state_ok e s sl -> permitted (dom (datas s)) e (view s) sl c = true ->
  exists x s' a', run chk (perform e (links s) sl c) s = Some (x, s') /\
    arun (dom (datas s)) chk (perform e (links s) sl c) (view s) = Some (x, a') /\
    Rep (dom (datas s)) s' a' /\ good (dom (datas s)) e (qs (view s)) (inf (view s)) sl c (rest s) x a'.
Proof.
  intros U (F & R & I) P. set (ids := dom (datas s)) in *.
  assert (W : wp ids chk (perform e (links s) sl c) (good ids e (qs (view s)) (inf (view s)) sl c (rest s)) (view s)).
  { change (view s) with (mk_a (qs (view s)) (inf (view s)) (fresh (view s)) (rest s)).
    apply step_ok; auto. destruct R as (B & _ & (N & _ & K) & _).
    pose proof (links_enough ids s _ _ _ B (N write_wait) (K write_wait)). lia. }
  destruct (wp_run ids chk _ _ _ W) as (x & a' & E & G).
  destruct (sim_run ids chk _ _ _ _ _ R E) as (s' & E' & R'). by exists x, s', a'.
Qed.

(** A request for a lock gives the instance the type that was asked for. *)
Definition takes_type c (h : Z -> lock_info) : Prop :=
  match c with Lock d _ t _ => typed t (type (h d)) | _ => True end.

(** It keeps the invariant. *)
Lemma call_ok e s sl chk c :
  sane e -> state_ok e s sl -> permitted (dom (datas s)) e (view s) sl c = true ->
  exists x s', run chk (perform e (links s) sl c) s = Some (x, s') /\
    state_ok e s' (sleepers_after sl c x) /\
    honest e c x (qs (view s)) (inf (view s)) (qs (view s')) (inf (view s')) /\ takes_type c (inf (view s')).
Proof.
  intros U K P. destruct (call_view e s sl chk c U K P) as (x & s' & a' & E' & Ea & R' & (I' & _ & H')).
  exists x, s'. split; [done|]. set (ids := dom (datas s)) in *. destruct K as (F & _).
  assert (D : dom (datas s') = ids) by apply R'.
  assert (Rr : rest s' = arest a') by apply R'.
  assert (Vi : forall d, d ∈ ids -> inf (view s') d = inf a' d) by (intros; by apply (view_inf ids)).
  split; [split_and!|split].
  - by rewrite D.
  - rewrite D. by eapply view_rep.
  - rewrite D, Rr. by eapply core_view.
  - destruct I' as (C' & _). pose proof (core_apart _ _ _ _ C') as (_ & _ & Kn).
    eapply honest_ext; [|intros q d I; apply Vi; by apply (Kn q)|exact H']. intros q. by apply (view_qs ids).
  - destruct c; try done. cbn [takes_type perform] in *. apply (arun_fmap _ _ Out) in Ea as (y & Ea & ->).
    destruct (lock_frame _ _ e U _ _ _ _ _ _ _ Ea) as (_ & _ & T). rewrite Vi; [done|].
    cbn [permitted] in P. rewrite !andb_true_iff, bool_decide_eq_true in P. tauto.
Qed.

Lemma reachable_ok e s sl : sane e -> reachable e s sl -> state_ok e s sl.
Proof.
  intros U. induction 1 as [ds r g u k m F|s sl chk c x s' _ IH P E]; [by apply init_ok|].
  destruct (call_ok e s sl chk c U IH P) as (x' & s1 & E' & O & _ & _). rewrite E in E'. by injection E' as <- <-.
Qed.

(** ** Runs *)

(** A sequence of permitted calls, with the replies. *)
Fixpoint play e (chk : Z -> bool) s sl (cs : list call) : option (list reply * THR_LOCK * sleepers) :=
  match cs with
  | [] => Some ([], s, sl)
  | c :: cs =>
      if permitted (dom (datas s)) e (view s) sl c
      then
        '(x, s) ← run chk (perform e (links s) sl c) s;
        '(xs, s, sl) ← play e chk s (sleepers_after sl c x) cs;
        Some (x :: xs, s, sl)
      else None
  end.

Lemma play_reachable e chk cs : forall s sl xs s' sl',
  reachable e s sl -> play e chk s sl cs = Some (xs, s', sl') -> reachable e s' sl'.
Proof.
  induction cs as [|c cs IH]; intros s sl xs s' sl' R E; cbn [play] in E; [by injection E as <- <- <-|].
  destruct (permitted _ _ _ _ _) eqn:P; [|done].
  destruct (run chk _ s) as [[x s1]|] eqn:E1; [|done]. cbn [mbind option_bind] in E.
  destruct (play e chk s1 _ cs) as [[[xs1 s2] sl2]|] eqn:E2; [|done]. cbn [mbind option_bind] in E.
  injection E as <- <- <-. eapply IH; [|exact E2]. by eapply reach_step.
Qed.

(** Four instances; the condition variable of a thread is its owner's number,
    and every owner has its own connection. *)
Definition ex_env : env := mk_env (fun o => o) (fun i => i) (fun _ => 0) (2 ^ 32 - 1) TL_WRITE.
Definition ex_rest : lock_rest := mk_rest 0 0 false false false false 0 0 [].
Definition ex_datas : gmap Z THR_LOCK_DATA :=
  <[1 := thr_lock_data_init 0]> (<[2 := thr_lock_data_init 0]>
  (<[3 := thr_lock_data_init 0]> (<[4 := thr_lock_data_init 0]> ∅))).
Definition ex_lock : THR_LOCK := set_functions false false true false (thr_lock_init ex_datas ex_rest).
Definition ex_play (cs : list call) := play ex_env (fun _ => false) ex_lock ∅ cs.

(** The replies and the queues at the end of a run. *)
Definition seen (x : option (list reply * THR_LOCK * sleepers)) : option (list reply * list (list Z)) :=
  '(xs, s, _) ← x; Some (xs, (fun q => qs (view s) q) <$> [read_wait; read; write_wait; write]).


(** The state at the end of a run. *)
Definition ex_state (cs : list call) : THR_LOCK * sleepers :=
  match ex_play cs with Some (_, s, sl) => (s, sl) | None => (ex_lock, ∅) end.

Lemma ex_reachable cs : reachable ex_env (ex_state cs).1 (ex_state cs).2.
Proof.
  assert (R : reachable ex_env ex_lock ∅) by (by apply reach_init).
  unfold ex_state. destruct (ex_play cs) as [[[xs s] sl]|] eqn:E; [|done].
  by apply (play_reachable _ _ _ _ _ _ _ _ R E).
Qed.

(** Two writers that share the lock, a waiting writer and a waiting reader. *)
Definition ex_busy : list call :=
  [Lock 1 10 TL_WRITE_ALLOW_WRITE 10; Lock 2 20 TL_WRITE_ALLOW_WRITE 20; Lock 3 30 TL_WRITE 30;
   Unlock 2; Lock 2 20 TL_READ 20].

(** ** Properties *)



(** C23 Every reachable lock is well formed: each queue is doubly linked from its
    [data] to its [last], no instance is in two places, the waiting instances
    and only they have a condition variable, the read queues hold read locks and
    the write queues write locks, and [read_no_write_count] is the number of
    running [TL_READ_NO_INSERT] locks. *)
Theorem table_lock_wellformed e s sl :
  sane e -> reachable e s sl ->
  (forall q, linked s q (qs (view s) q)) /\ Apart (dom (datas s)) (qs (view s)) /\
  (forall q d, d ∈ qs (view s) q -> kind q (inf (view s) d)) /\
  read_no_write_count (rest s) = no_inserts (inf (view s)) (qs (view s) read).
Proof.
  intros U R. destruct (reachable_ok e s sl U R) as (_ & (_ & L & A & _) & (C & _)).
  split_and!; [done..|apply (core_kind _ _ _ _ C)|apply (core_count _ _ _ _ C)].
Qed.

Lemma table_lock_wellformed_witness :
  let s := (ex_state ex_busy).1 in
  qs (view s) read = [2] /\ linked s read (qs (view s) read) /\
  read_no_write_count (rest s) = no_inserts (inf (view s)) (qs (view s) read).
Proof.
  cbv zeta. split; [vm_compute; reflexivity|].
  destruct (table_lock_wellformed ex_env (ex_state ex_busy).1 (ex_state ex_busy).2) as (L & _ & _ & C);
    [by left|apply ex_reachable|]. split; [apply L|exact C].
Defined.



(** C19 Nobody is forgotten: while an instance waits, somebody has the lock; waiting
    readers with no writer before them only wait for a writer that runs;
    and a sleeping instance is in its queue, or it has been granted,
    or it has been aborted and finds that out when it wakes up. *)
Theorem table_lock_progress e s sl :
  sane e -> reachable e s sl ->
  (forall d, d ∈ qs (view s) read_wait \/ d ∈ qs (view s) write_wait ->
     exists d', d' ∈ qs (view s) read \/ d' ∈ qs (view s) write) /\
  (forall d, d ∈ qs (view s) read_wait -> qs (view s) write_wait = [] ->
     exists d', d' ∈ qs (view s) write) /\
  Sleeping (dom (datas s)) (qs (view s)) (inf (view s)) sl.
Proof.
  intros U R. destruct (reachable_ok e s sl U R) as (_ & _ & (_ & (P1 & P2) & S)).
  split_and!; [intros d W|intros d W E|done].
  - destruct (qs (view s) read) as [|x l]; [|exists x; left; by left].
    destruct (qs (view s) write) as [|x l]; [|exists x; right; by left].
    destruct P1 as (E1 & E2); [done..|]. rewrite E1, E2 in W. by destruct W as [W|W]; apply elem_of_nil in W.
  - destruct (qs (view s) write) as [|x l]; [|exists x; by left].
    rewrite P2 in W by done. by apply elem_of_nil in W.
Qed.

Lemma table_lock_progress_witness :
  let s := (ex_state ex_busy).1 in
  qs (view s) write_wait = [3] /\ exists d', d' ∈ qs (view s) read \/ d' ∈ qs (view s) write.
Proof.
  cbv zeta. split; [vm_compute; reflexivity|].
  apply (table_lock_progress ex_env (ex_state ex_busy).1 (ex_state ex_busy).2) with (d := 3);
    [by left|apply ex_reachable|right].
  apply (bool_decide_unpack _); vm_compute; exact I.
Defined.

(** A sequence of calls, permitted or not. *)
Fixpoint free_play e (chk : Z -> bool) s sl (cs : list call) : option (list reply * THR_LOCK * sleepers) :=
  match cs with
  | [] => Some ([], s, sl)
  | c :: cs =>
      '(x, s) ← run chk (perform e (links s) sl c) s;
      '(xs, s, sl) ← free_play e chk s (sleepers_after sl c x) cs;
      Some (x :: xs, s, sl)
  end.

(** An owner with a running concurrent insert gets [TL_WRITE] at once, although
    another owner reads: the two locks run beside each other. *)
Theorem table_lock_upgrade :
  seen (free_play ex_env (fun _ => false) ex_lock ∅
    [Lock 1 10 TL_WRITE_CONCURRENT_INSERT 10; Lock 2 20 TL_READ 20; Lock 3 10 TL_WRITE 10]) =
  Some ([Out (Returns THR_LOCK_SUCCESS); Out (Returns THR_LOCK_SUCCESS); Out (Returns THR_LOCK_SUCCESS)],
        [[]; [2]; []; [1; 3]]).
Proof. vm_compute. reflexivity. Qed.

(** The order of the requests decides whether a [TL_READ_NO_INSERT] lock runs
    beside another owner's [TL_WRITE_ALLOW_WRITE]: it is granted when the writer
    runs already, and the writer waits when the reader came first.  And an owner
    that has a lock can wait for itself: of two owners with
    [TL_WRITE_ALLOW_WRITE] the second one asks again behind a waiting writer, is
    not recognised, sleeps behind that writer and keeps it from running. *)
Theorem table_lock_gaps :
  seen (ex_play [Lock 1 10 TL_WRITE_ALLOW_WRITE 10; Lock 2 20 TL_READ_NO_INSERT 20]) =
    Some ([Out (Returns THR_LOCK_SUCCESS); Out (Returns THR_LOCK_SUCCESS)], [[]; [2]; []; [1]]) /\
  seen (ex_play [Lock 2 20 TL_READ_NO_INSERT 20; Lock 1 10 TL_WRITE_ALLOW_WRITE 10]) =
    Some ([Out (Returns THR_LOCK_SUCCESS); Out (Sleeps write_wait false)], [[]; [2]; [1]; []]) /\
  seen (ex_play [Lock 1 10 TL_WRITE_ALLOW_WRITE 10; Lock 2 20 TL_WRITE_ALLOW_WRITE 20;
                 Lock 3 30 TL_WRITE 30; Lock 4 20 TL_WRITE_ALLOW_WRITE 20; Unlock 1]) =
    Some ([Out (Returns THR_LOCK_SUCCESS); Out (Returns THR_LOCK_SUCCESS);
           Out (Sleeps write_wait false); Out (Sleeps write_wait false);
           Out (Returns THR_LOCK_SUCCESS)], [[]; []; [3; 4]; [2]]).
Proof. split_and!; vm_compute; reflexivity. Qed.

End ThrMain.
