(* ===== verification/ThrSort.v ===== *)
(** * ThrSort: the order in which several table locks are taken

    [sort_locks] of [mysys/thr_lock.c], an insertion sort of the array that
    [thr_multi_lock] gets.  An array access out of range is [None]. *)
From stdpp Require Import base tactics option list numbers.
From Stdlib Require Import ZArith Lia Sorting.Sorted.
From S2P Require Import Prelude ThrLock.

Module ThrSort.
Import ThrLock.

(** An element of the array: the instance with the address of its lock and the
    type that is asked for. *)
Record request := mk_request { instance : Z; lock : Z; wanted : thr_lock_type }.

Implicit Types (x y tmp : request) (l : list request).

(** The position of a request: [(uchar* ) (A->lock) - (uint) ((A)->type)]. *)
Definition place x : Z := u32 (lock x - u32 (tl_int (wanted x))).

Definition LOCK_CMP x y : bool := bool_decide (place x < place y).

(** The inner loop, with [prev] at an element behind the first one. *)
Fixpoint shift_loop tmp l (prev : nat) : option (list request) :=
  match prev with
  | O => None
  | S p =>
      x ← l !! p;
      let l := <[S p := x]> l in
      again ← (if bool_decide (p = 0%nat) then Some false
               else y ← l !! (p - 1)%nat; Some (LOCK_CMP tmp y));
      if (again : bool) then shift_loop tmp l p else Some (<[p := tmp]> l)
  end.

Fixpoint sort_loop l (pos count : nat) : option (list request) :=
  match count with
  | O => Some l
  | S count =>
      tmp ← l !! pos;
      x ← l !! (pos - 1)%nat;
      l ← (if LOCK_CMP tmp x then shift_loop tmp l pos else Some l);
      sort_loop l (S pos) count
  end.

Definition sort_locks l : option (list request) := sort_loop l 1 (length l - 1).

(** ** Properties *)

Definition in_order x y : Prop := place x <= place y.

Lemma cmp_true x y : LOCK_CMP x y = true <-> place x < place y.
Proof. apply bool_decide_eq_true. Qed.
Lemma cmp_false x y : LOCK_CMP x y = false <-> in_order y x.
Proof. unfold LOCK_CMP, in_order. rewrite bool_decide_eq_false. lia. Qed.

(** One round of the loop. *)
Lemma shift_round tmp l z y l2 :
  shift_loop tmp (l ++ z :: y :: l2) (S (length l)) =
  again ← (if bool_decide (length l = 0%nat) then Some false
           else x ← l !! (length l - 1)%nat; Some (LOCK_CMP tmp x));
  if (again : bool) then shift_loop tmp (l ++ z :: z :: l2) (length l) else Some (l ++ tmp :: z :: l2).
Proof.
  cbn [shift_loop]. rewrite list_lookup_middle by done. cbn [mbind option_bind].
  assert (<[S (length l) := z]> (l ++ z :: y :: l2) = l ++ z :: z :: l2) as ->.
  { rewrite insert_app_r_alt by lia. by replace (S (length l) - length l)%nat with 1%nat by lia. }
  assert (<[length l := tmp]> (l ++ z :: z :: l2) = l ++ tmp :: z :: l2) as ->.
  { rewrite insert_app_r_alt by lia. by rewrite Nat.sub_diag. }
  destruct (bool_decide_reflect (length l = 0%nat)) as [E|E]; [done|].
  by rewrite lookup_app_l by lia.
Qed.

(** The loop moves the elements that go behind [tmp]. *)
Lemma shift_spec tmp l1 : forall z y l2, place tmp < place z ->
  exists l3 l4, l1 ++ [z] = l3 ++ l4 /\
    shift_loop tmp (l1 ++ z :: y :: l2) (S (length l1)) = Some (l3 ++ tmp :: l4 ++ l2) /\
    Forall (fun x => place tmp < place x) l4 /\ Forall (fun x => forall l5, l3 = l5 ++ [x] -> in_order x tmp) l3.
Proof.
  induction l1 as [|x l1 IH] using rev_ind; intros z y l2 Lt; rewrite shift_round.
  - exists [], [z]. cbn. auto.
  - rewrite length_app. cbn [length]. rewrite bool_decide_false by lia.
    replace (length l1 + 1 - 1)%nat with (length l1) by lia.
    rewrite list_lookup_middle by done. cbn [mbind option_bind].
    destruct (LOCK_CMP tmp x) eqn:C.
    + apply cmp_true in C. destruct (IH x z (z :: l2) C) as (l3 & l4 & E & Sh & F & G).
      exists l3, (l4 ++ [z]). split_and!; auto.
      * by rewrite E, app_assoc.
      * rewrite <- app_assoc. replace (length l1 + 1)%nat with (S (length l1)) by lia. cbn [app].
        by rewrite Sh, <- app_assoc.
      * apply Forall_app. auto.
    + apply cmp_false in C. exists (l1 ++ [x]), [z]. split_and!; auto.
      apply Forall_forall. intros y' _ l5 (_ & [= <-])%app_inj_2; done.
Qed.

Lemma order_app l l' :
  StronglySorted in_order l -> StronglySorted in_order l' ->
  (forall x y, x ∈ l -> y ∈ l' -> in_order x y) -> StronglySorted in_order (l ++ l').
Proof.
  intros S S' H. induction S as [|x l S IH F]; [done|]. cbn. constructor.
  - apply IH. intros y z Y. apply H. by right.
  - apply Forall_app. split; [done|]. apply Forall_forall. intros y Y%list_elem_of_In. apply H; [by left|done].
Qed.

Lemma order_app_inv l l' :
  StronglySorted in_order (l ++ l') -> StronglySorted in_order l /\ StronglySorted in_order l' /\
  (forall x y, x ∈ l -> y ∈ l' -> in_order x y).
Proof.
  induction l as [|x l IH]; intros S.
  - split_and!; [constructor|done|]. by intros x y ?%elem_of_nil.
  - apply StronglySorted_inv in S as (S & F). destruct (IH S) as (S1 & S2 & H).
    apply Forall_app in F as (F1 & F2). split_and!; [by constructor|done|].
    intros y z [->|Y]%elem_of_cons W; [|auto]. rewrite Forall_forall in F2. by apply F2, list_elem_of_In.
Qed.

(** One round of the outer loop inserts the next element into the sorted part. *)
Lemma insert_round l tmp l2 :
  l <> [] -> StronglySorted in_order l ->
  exists l', StronglySorted in_order l' /\ l' ≡ₚ l ++ [tmp] /\
    (x ← (l ++ tmp :: l2) !! (length l - 1)%nat;
     if LOCK_CMP tmp x then shift_loop tmp (l ++ tmp :: l2) (length l) else Some (l ++ tmp :: l2))
    = Some (l' ++ l2).
Proof.
  intros N S. destruct l as [|z l1 _] using rev_ind; [done|].
  rewrite length_app. cbn [length]. replace (length l1 + 1 - 1)%nat with (length l1) by lia.
  assert ((l1 ++ [z]) ++ tmp :: l2 = l1 ++ z :: tmp :: l2) as -> by (by rewrite <- app_assoc).
  rewrite list_lookup_middle by done. cbn [mbind option_bind].
  destruct (LOCK_CMP tmp z) eqn:C.
  - apply cmp_true in C. destruct (shift_spec tmp l1 z tmp l2 C) as (l3 & l4 & E & Sh & F & G).
    rewrite E in S |- *. destruct (order_app_inv l3 l4 S) as (S3 & S4 & S34).
    exists (l3 ++ tmp :: l4). split_and!.
    + apply order_app; [done|constructor; [done|]|].
      * eapply List.Forall_impl; [|exact F]. unfold in_order. lia.
      * intros x y X Y.
        assert (L : in_order x tmp).
        { destruct l3 as [|w l3 _] using rev_ind; [by apply elem_of_nil in X|].
          assert (W : in_order w tmp).
          { rewrite Forall_forall in G. apply (G w) with l3; [|done]. apply list_elem_of_In, elem_of_app. right. by left. }
          apply elem_of_app in X as [X| ->%list_elem_of_singleton]; [|done].
          destruct (order_app_inv l3 [w] S3) as (_ & _ & T). specialize (T x w X ltac:(by left)).
          unfold in_order in *. lia. }
        apply elem_of_cons in Y as [->|Y]; [done|]. rewrite Forall_forall in F.
        specialize (F y). rewrite <- list_elem_of_In in F. unfold in_order in *. specialize (F Y). lia.
    + by rewrite <- Permutation_middle, <- Permutation_cons_append.
    + replace (length l1 + 1)%nat with (Datatypes.S (length l1)) by lia. rewrite Sh, <- app_assoc. done.
  - apply cmp_false in C. exists ((l1 ++ [z]) ++ [tmp]). split_and!; [|done|by rewrite <- !app_assoc].
    destruct (order_app_inv l1 [z] S) as (_ & _ & T).
    apply order_app; [done|repeat constructor|]. intros x y X ->%list_elem_of_singleton.
    apply elem_of_app in X as [X| ->%list_elem_of_singleton]; [|done].
    specialize (T x z X ltac:(by left)). unfold in_order in *. lia.
Qed.

Lemma sort_loop_spec count : forall l l2, l <> [] -> StronglySorted in_order l -> length l2 = count ->
  exists l', StronglySorted in_order l' /\ l' ≡ₚ l ++ l2 /\ sort_loop (l ++ l2) (length l) count = Some l'.
Proof.
  induction count as [|count IH]; intros l l2 N S E.
  - destruct l2; [|done]. exists l. rewrite app_nil_r. auto.
  - destruct l2 as [|tmp l2]; [done|]. cbn [sort_loop].
    rewrite (list_lookup_middle l l2 tmp (length l)) by done.
    cbn [mbind option_bind]. destruct (insert_round l tmp l2 N S) as (l1 & S1 & P1 & E1).
    destruct ((l ++ tmp :: l2) !! (length l - 1)%nat) as [x|]; [|done]. cbn [mbind option_bind] in *.
    rewrite E1. cbn [mbind option_bind].
    assert (Ln : length l1 = Datatypes.S (length l)) by (rewrite P1, length_app; cbn; lia).
    rewrite <- Ln. destruct (IH l1 l2) as (l' & S' & P' & E'); auto.
    { intros ->. cbn in Ln. lia. }
    exists l'. split_and!; auto. rewrite P', P1. by rewrite <- app_assoc.
Qed.

Lemma sort_locks_spec l :
  exists l', sort_locks l = Some l' /\ l' ≡ₚ l /\ StronglySorted in_order l'.
Proof.
  unfold sort_locks. destruct l as [|x l].
  - exists []. split_and!; [done|done|constructor].
  - destruct (sort_loop_spec (length l) [x] l) as (l' & S & P & E); [done|repeat constructor|done|].
    exists l'. split_and!; auto. cbn [length]. by rewrite Nat.sub_succ, Nat.sub_0_r.
Qed.

(** Requests of an array that holds addresses of [THR_LOCK] structures, which do
    not overlap, and types to lock with. *)
Definition proper l : Prop :=
  Forall (fun x => 0 <= tl_int (wanted x) /\ 13 <= lock x < 2 ^ 32) l /\
  (forall x y, x ∈ l -> y ∈ l -> lock x < lock y -> lock x + 13 < lock y).

(** By address, and for one lock the stronger type first. *)
Definition before x y : Prop :=
  lock x < lock y \/ lock x = lock y /\ tl_int (wanted y) <= tl_int (wanted x).

Lemma tl_int_bound t : tl_int t <= 13.
Proof. by destruct t. Qed.

Lemma place_before l x y : proper l -> x ∈ l -> y ∈ l -> in_order x y -> before x y.
Proof.
  intros (F & Gap) X Y. rewrite Forall_forall in F. unfold in_order, place, before.
  pose proof (F x (proj1 (list_elem_of_In _ _) X)) as Fx. pose proof (F y (proj1 (list_elem_of_In _ _) Y)) as Fy.
  pose proof (tl_int_bound (wanted x)). pose proof (tl_int_bound (wanted y)).
  unfold u32. rewrite !(Z.mod_small (tl_int _)), !(Z.mod_small (lock _ - _)) by lia.
  destruct (Z.lt_trichotomy (lock x) (lock y)) as [?|[?|G]]; [lia|lia|].
  specialize (Gap y x Y X G). lia.
Qed.

(** [sort_locks] never leaves the array and orders the requests by the address
    of their lock, and for one lock the stronger types (the write locks) first;
    it loses none and adds none. *)
Lemma sort_locks_before l : proper l ->
  exists l', sort_locks l = Some l' /\ l' ≡ₚ l /\ StronglySorted before l'.
Proof.
  intros P. destruct (sort_locks_spec l) as (l' & E & Pm & S). exists l'. split_and!; [done..|].
  assert (In : forall x, x ∈ l' -> x ∈ l) by (intros x; by rewrite Pm). clear E Pm.
  induction S as [|x l' S IH F]; constructor.
  - apply IH. intros y Y. apply In. by right.
  - rewrite Forall_forall in *. intros y Y. apply (place_before l); auto.
    + apply In. by left.
    + apply In. right. by apply list_elem_of_In.
Qed.

End ThrSort.
