(* ===== verification/ThrMulti.v ===== *)
(** * ThrMulti: several table locks at once

    [thr_multi_lock] and [thr_multi_unlock] of [mysys/thr_lock.c] as threads that
    run beside each other on a set of tables.  A step of a thread is a call of
    [thr_lock], the end of a wait or a call of [thr_unlock]; a step of the world
    is one of some thread, or somebody aborts the waiters of a table. *)
From stdpp Require Import base tactics option list numbers gmap functions.
From Stdlib Require Import ZArith Lia Sorting.Sorted.
From S2P Require Import Prelude ThrLock ThrSpec ThrLinks ThrSim ThrInv ThrWake ThrRequest ThrSteps ThrMain.
From S2P Require Import ThrSort ThrFrame.

Module ThrMulti.
Import ThrLock ThrSpec ThrSim ThrInv ThrSys ThrSteps ThrMain ThrFrame.
Import ThrSort (request, mk_request, instance, lock, wanted, sort_locks).

(** ** Threads and tables *)

(** A table lock with the instances that sleep. *)
Record table := mk_table { locked : THR_LOCK; asleep : sleepers }.

(** Where a thread is: before the call of [thr_lock] for the next element,
    inside it, between [thr_multi_lock] and [thr_multi_unlock], or in the loop of
    [thr_multi_unlock] at [k] of [n] elements. *)
Inductive phase :=
  | Locking
  | Waiting
  | Locked
  | Unlocking (k n : nat) (result : enum_thr_lock_result).

Record thread := mk_thread { array : list request; pos : nat; doing : phase }.

(** The tables by the address of their lock and the threads by their owner. *)
Record world := mk_world { tables : gmap Z table; threads : gmap Z thread }.

Implicit Types (w : world) (t : table) (th : thread) (r : request) (o d : Z) (e : env) (c : call).

Definition set_thread o th w : world := mk_world (tables w) (<[o := th]> (threads w)).

(** ** Steps *)

Section Steps.
Context (e : env) (chk : Z -> bool).

(** A call of the interface on one table. *)
Definition on_table (a : Z) c w : option (reply * world) :=
  t ← tables w !! a;
  '(x, s) ← run chk (perform e (links (locked t)) (asleep t) c) (locked t);
  Some (x, mk_world (<[a := mk_table s (sleepers_after (asleep t) c x)]> (tables w)) (threads w)).

(** The loop of [thr_multi_lock] after a call of [thr_lock]. *)
Definition after_lock th (x : reply) : option thread :=
  match x with
  | Out (Returns THR_LOCK_SUCCESS) => Some (mk_thread (array th) (S (pos th)) Locking)
  | Out (Returns result) => Some (mk_thread (array th) (pos th) (Unlocking 0 (pos th) result))
  | Out (Sleeps _ _) => Some (mk_thread (array th) (pos th) Waiting)
  | _ => None
  end.

Definition data_of w r : option THR_LOCK_DATA := t ← tables w !! lock r; datas (locked t) !! instance r.

(** A round of the loop of [thr_multi_lock]; [me] is the condition variable of
    the thread.  The call of [thr_lock_merge_status] behind the loop is left out: it
    copies status information between instances of one table. *)
Definition lock_step o (me : Z) th w : option world :=
  match array th !! pos th with
  | Some r =>
      '(x, w) ← on_table (lock r) (Lock (instance r) o (wanted r) me) w;
      th ← after_lock th x;
      Some (set_thread o th w)
  | None => Some (set_thread o (mk_thread (array th) (pos th) Locked) w)
  end.

(** A round of the loop of [thr_multi_unlock]. *)
Definition unlock_step o th (k n : nat) (result : enum_thr_lock_result) w : option world :=
  if bool_decide (k < n)%nat
  then
    r ← array th !! k;
    x ← data_of w r;
    w ← (if bool_decide (type (info x) = TL_UNLOCK) then Some w
         else '(_, w) ← on_table (lock r) (Unlock (instance r)) w; Some w);
    Some (set_thread o (mk_thread (array th) (pos th) (Unlocking (S k) n result)) w)
  else Some (mk_world (tables w) (delete o (threads w))).

(** A thread goes on. *)
Definition thr_multi_step o (me : Z) w : option world :=
  th ← threads w !! o;
  match doing th with
  | Locking => lock_step o me th w
  | Unlocking k n result => unlock_step o th k n result w
  | Waiting | Locked => None
  end.

(** The wait of a thread ends: its instance has been granted or aborted, the
    wait has timed out, or the thread has been killed. *)
Definition thr_multi_wake o (timed_out : bool) w : option world :=
  th ← threads w !! o;
  match doing th with
  | Waiting =>
      r ← array th !! pos th;
      t ← tables w !! lock r;
      x ← datas (locked t) !! instance r;
      '(_, in_wait_list) ← asleep t !! instance r;
      if bool_decide (cond (info x) = None) ||
         (if timed_out then bool_decide (n_cursors e (owner_info e (owner (info x))) <> 0)
          else negb in_wait_list)
      then
        '(x, w) ← on_table (lock r) (Wake (instance r) timed_out) w;
        th ← after_lock th x;
        Some (set_thread o th w)
      else None
  | _ => None
  end.

(** The start of [thr_multi_lock]. *)
Definition thr_multi_lock o (data : list request) w : option world :=
  l ← (if bool_decide (1 < length data)%nat then sort_locks data else Some data);
  Some (set_thread o (mk_thread l 0 Locking) w).

(** The start of [thr_multi_unlock]. *)
Definition thr_multi_unlock o w : option world :=
  th ← threads w !! o;
  match doing th with
  | Locked => Some (set_thread o (mk_thread (array th) (pos th) (Unlocking 0 (length (array th)) THR_LOCK_SUCCESS)) w)
  | _ => None
  end.

(** A request that no thread has. *)
Definition unused w r : bool :=
  forallb (fun x => forallb (fun r' => negb (bool_decide (lock r' = lock r) && bool_decide (instance r' = instance r)))
                      (array x.2)) (map_to_list (threads w)).

(** A thread that has no locks asks for one instance of each of some tables.  The C
    code also accepts several instances of one table, where [thr_multi_lock] can
    wait for itself ([multi_lock_twice] in [ThrMultiMain]). *)
Definition may_start o (data : list request) w : bool :=
  bool_decide (threads w !! o = None) && bool_decide (NoDup (lock <$> data)) &&
  forallb (fun r => lockable (wanted r) && bool_decide (is_Some (data_of w r)) && unused w r) data.

Inductive action :=
  | Multi_lock o (data : list request)
  | Step o (me : Z)
  | Wake_up o (timed_out : bool)
  | Multi_unlock o
  | Abort (a : Z) (upgrade_lock : bool)
  | Abort_for_thread (a : Z) (id : Z).

Definition multi_step (act : action) w : option world :=
  match act with
  | Multi_lock o data => if may_start o data w then thr_multi_lock o data w else None
  | Step o me => thr_multi_step o me w
  | Wake_up o timed_out => thr_multi_wake o timed_out w
  | Multi_unlock o => thr_multi_unlock o w
  | Abort a upgrade_lock => '(_, w) ← on_table a (Abort_locks upgrade_lock) w; Some w
  | Abort_for_thread a id => '(_, w) ← on_table a (Abort_locks_for_thread id) w; Some w
  end.

End Steps.

(** The locks are structures that do not overlap. *)
Definition spaced w : Prop :=
  forall a b, a ∈ dom (tables w) -> b ∈ dom (tables w) ->
    13 <= a < 2 ^ 32 /\ (a < b -> a + 13 < b).

(** New locks and no threads. *)
Definition initial w : Prop :=
  spaced w /\ threads w = ∅ /\
  forall a t, tables w !! a = Some t ->
    exists ds stats get update check multiple, Z.of_nat (size ds) < 2 ^ 32 /\
      t = mk_table (set_functions get update check multiple (thr_lock_init ds stats)) ∅.

Inductive runs e : world -> Prop :=
  | runs_init w : initial w -> runs e w
  | runs_step w chk act w' : runs e w -> multi_step e chk act w = Some w' -> runs e w'.

End ThrMulti.
