(* ===== verification/ThrMultiInv.v ===== *)
(** * ThrMultiInv: the invariant of threads that lock several tables

    Every element of a thread's array is idle, taken or asleep ([stage_of]), and
    its instance is so on its table ([slot_ok]); nothing else is in a queue.
    From this every call that [thr_multi_lock] and [thr_multi_unlock] make is
    one that [ThrSys.permitted] allows. *)
From stdpp Require Import base tactics option list numbers gmap functions.
From Stdlib Require Import ZArith Lia Sorting.Sorted.
From S2P Require Import Prelude ThrLock ThrSpec ThrLinks ThrSim ThrInv ThrWake ThrRequest ThrSteps ThrMain.
From S2P Require Import ThrSort ThrFrame ThrMulti.

Module ThrMultiInv.
Import ThrLock ThrSpec ThrSim ThrInv ThrSys ThrSteps ThrMain ThrFrame ThrMulti.
Import ThrSort (request, mk_request, instance, lock, wanted, sort_locks).

Implicit Types (w : world) (t : table) (th : thread) (r : request) (o d : Z) (e : env) (c : call).

(** ** The invariant *)

Inductive stage := Taken | Asleep | Idle.

Definition stage_of th (i : nat) : stage :=
  match doing th with
  | Locking | Locked => if bool_decide (i < pos th)%nat then Taken else Idle
  | Waiting =>
      if bool_decide (i < pos th)%nat then Taken
      else if bool_decide (i = pos th) then Asleep else Idle
  | Unlocking k n _ => if bool_decide (k <= i < n)%nat then Taken else Idle
  end.

Definition slot_ok o t r (st : stage) : Prop :=
  let d := instance r in
  d ∈ dom (datas (locked t)) /\
  match st with
  | Taken => settled (wanted r) (view (locked t)) d /\ asleep t !! d = None /\ owner (inf (view (locked t)) d) = o /\
      typed (wanted r) (type (inf (view (locked t)) d))
  | Asleep => is_Some (asleep t !! d) /\ owner (inf (view (locked t)) d) = o /\
      typed (wanted r) (type (inf (view (locked t)) d))
  | Idle => outside (view (locked t)) d /\ asleep t !! d = None
  end.

Definition bounds th : Prop :=
  match doing th with
  | Locking => (pos th <= length (array th))%nat
  | Waiting => (pos th < length (array th))%nat
  | Locked => pos th = length (array th)
  | Unlocking k n _ => (k <= n <= length (array th))%nat
  end.

Record thread_ok w o th : Prop := {
  thread_sorted : StronglySorted (fun r r' => lock r < lock r') (array th);
  thread_bounds : bounds th;
  thread_types : forall r, r ∈ array th -> lockable (wanted r) = true;
  thread_slots : forall i r, array th !! i = Some r ->
    exists t, tables w !! lock r = Some t /\ slot_ok o t r (stage_of th i) }.

(** An instance that is in use. *)
Definition busy t d : Prop := (exists q, d ∈ qs (view (locked t)) q) \/ is_Some (asleep t !! d).

Record world_ok e w : Prop := {
  world_spaced : spaced w;
  world_tables : forall a t, tables w !! a = Some t -> state_ok e (locked t) (asleep t);
  world_threads : forall o th, threads w !! o = Some th -> thread_ok w o th;
  world_distinct : forall o o' th th' r r', threads w !! o = Some th -> threads w !! o' = Some th' ->
    r ∈ array th -> r' ∈ array th' -> lock r = lock r' -> instance r = instance r' -> o = o';
  world_complete : forall a t d, tables w !! a = Some t -> busy t d ->
    exists o th r, threads w !! o = Some th /\ r ∈ array th /\ lock r = a /\ instance r = d }.

(** ** A call on a table *)

(** What a call leaves to the other instances. *)
Record later e c t t' : Prop := {
  later_ok : state_ok e (locked t') (asleep t');
  later_dom : dom (datas (locked t')) = dom (datas (locked t));
  later_kept : forall d, d ∈ dom (datas (locked t)) -> actor c <> Some d ->
    kept d (view (locked t)) (view (locked t')) /\ asleep t' !! d = asleep t !! d;
  later_owner : forall d, d ∈ dom (datas (locked t)) -> owner (inf (view (locked t')) d) =
    match c with
    | Lock d' o _ _ => if decide (d = d') then o else owner (inf (view (locked t)) d)
    | _ => owner (inf (view (locked t)) d)
    end;
  later_types : forall d want, d ∈ dom (datas (locked t)) ->
    match c with
    | Lock d' _ want' _ => if decide (d = d') then typed want' (type (inf (view (locked t')) d))
                        else typed want (type (inf (view (locked t)) d)) -> typed want (type (inf (view (locked t')) d))
    | _ => typed want (type (inf (view (locked t)) d)) -> typed want (type (inf (view (locked t')) d))
    end }.

Lemma sleepers_other sl c x d : actor c <> Some d -> sleepers_after sl c x !! d = sl !! d.
Proof.
  intros N. destruct c; cbn in *; try done; [|by rewrite lookup_delete_ne by congruence|];
    destruct x as [[]| |]; auto; by rewrite lookup_insert_ne by congruence.
Qed.

(** The rules of the interface are kept, so a call runs to its end. *)
Lemma call_runs e chk c t :
  sane e -> state_ok e (locked t) (asleep t) -> plain c ->
  permitted (dom (datas (locked t))) e (view (locked t)) (asleep t) c = true ->
  exists x s', run chk (perform e (links (locked t)) (asleep t) c) (locked t) = Some (x, s') /\
    later e c t (mk_table s' (sleepers_after (asleep t) c x)) /\
    honest e c x (qs (view (locked t))) (inf (view (locked t))) (qs (view s')) (inf (view s')) /\
    exists a', arun (dom (datas (locked t))) chk (perform e (links (locked t)) (asleep t) c)
                 (view (locked t)) = Some (x, a').
Proof.
  intros U K P Pm. destruct (call_ok e _ _ chk c U K Pm) as (x & s' & E & O & H & _).
  destruct (call_view e _ _ chk c U K Pm) as (x1 & s1 & a' & E1 & Ea & R & _).
  rewrite E in E1. injection E1 as <- <-. exists x, s'. split_and!; [done| |done|by eexists].
  set (ids := dom (datas (locked t))) in *.
  assert (Kw : forall d, d ∈ qs (view (locked t)) write -> is_write (type (inf (view (locked t)) d))).
  { intros d I. destruct K as (_ & _ & C & _). by destruct (core_kind _ _ _ _ C _ _ I). }
  destruct (perform_frame _ _ e U _ _ _ _ _ _ P Kw Ea) as (F & Ow & Ty).
  assert (Q : forall q, qs (view s') q = qs a' q) by (intros; by apply (view_qs ids)).
  assert (I : forall d, d ∈ ids -> inf (view s') d = inf a' d) by (intros; by apply (view_inf ids)).
  constructor; cbn [locked asleep]; [done|apply R| | |].
  - intros d D N. split; [|by apply sleepers_other]. apply (frame_trans _ _ a'); [by apply F|].
    apply kept_other; [intros q; by rewrite Q|by rewrite I..].
  - intros d D. rewrite I by done. apply Ow.
  - intros d want D. rewrite I by done. destruct c; try by apply Ty.
    destruct Ty as (T1 & T2). destruct (decide (d = d0)) as [->|]; [done|by apply T2].
Qed.

Lemma slot_later e c t t' o r st :
  later e c t t' -> actor c <> Some (instance r) -> slot_ok o t r st -> slot_ok o t' r st.
Proof.
  unfold slot_ok. set (d := instance r). intros [_ D K O Ty] N (I & S). specialize (K d I N) as (K & E). specialize (O d I).
  pose proof (fun H => kept_settled d _ _ (wanted r) K H) as K1. destruct K as (_ & _ & K2). specialize (Ty d (wanted r) I).
  assert (Tk : typed (wanted r) (type (inf (view (locked t)) d)) -> typed (wanted r) (type (inf (view (locked t')) d))).
  { destruct c; try done. destruct (decide (d = d0)) as [->|]; [by destruct N|done]. }
  assert (W : owner (inf (view (locked t')) d) = owner (inf (view (locked t)) d)).
  { rewrite O. destruct c; try done. destruct (decide (d = d0)) as [->|]; [by destruct N|done]. }
  clear O Ty. split; [by rewrite D|]. rewrite E, W. destruct st; intuition.
Qed.

Lemma busy_later e c t t' d : later e c t t' -> actor c <> Some d -> busy t' d -> busy t d.
Proof.
  intros [(_ & _ & C & _ & Sl) D K _ _] N B.
  assert (Dm : d ∈ dom (datas (locked t))).
  { rewrite <- D. destruct B as [(q & I)|((q & b) & I)]; [|by apply (Sl d q b)].
    by apply (core_apart _ _ _ _ C) with q. }
  destruct (K d Dm N) as ((_ & _ & O) & E). destruct B as [(q & I)|B]; [left|right; by rewrite <- E].
  destruct (in_queue (view (locked t)) d) eqn:X.
  - unfold in_queue in X. rewrite !orb_true_iff, !bool_decide_eq_true in X.
    destruct X as [[[?|?]|?]|?]; eauto.
  - pose proof (proj1 (in_queue_spec _ _) X) as X'. by destruct (O X' q).
Qed.

(** ** Changes of the world *)

Lemma sorted_lookup (l : list request) : StronglySorted (fun r r' => lock r < lock r') l ->
  forall i j r r', l !! i = Some r -> l !! j = Some r' -> (i < j)%nat -> lock r < lock r'.
Proof.
  induction 1 as [|x l S IH F]; intros i j r r' I J L; [done|].
  destruct i as [|i], j as [|j]; cbn in *; try lia.
  - injection I as ->. rewrite Forall_forall in F. by apply F, list_elem_of_In, (list_elem_of_lookup_2 _ j).
  - apply (IH i j); auto. lia.
Qed.

Lemma index_unique w o th i j r r' : thread_ok w o th ->
  array th !! i = Some r -> array th !! j = Some r' -> lock r = lock r' -> i = j.
Proof.
  intros [S _ _ _] I J E. destruct (Nat.lt_trichotomy i j) as [L|[L|L]]; [|done|].
  - pose proof (sorted_lookup _ S _ _ _ _ I J L). lia.
  - pose proof (sorted_lookup _ S _ _ _ _ J I L). lia.
Qed.

(** A call on table [a]: the threads keep their arrays, and only the stage of the
    instance that called changes. *)
Lemma world_change e w a t t' c ths :
  world_ok e w -> tables w !! a = Some t -> later e c t t' ->
  (forall o, array <$> ths !! o = array <$> threads w !! o) ->
  (forall o th, ths !! o = Some th -> bounds th) ->
  (forall o th th' i r, threads w !! o = Some th -> ths !! o = Some th' -> array th' !! i = Some r ->
     if decide (lock r = a /\ actor c = Some (instance r)) then slot_ok o t' r (stage_of th' i)
     else stage_of th' i = stage_of th i) ->
  (forall d, actor c = Some d ->
     exists o th r, threads w !! o = Some th /\ r ∈ array th /\ lock r = a /\ instance r = d) ->
  world_ok e (mk_world (<[a := t']> (tables w)) ths).
Proof.
  intros [Sp T Th Di Co] A L Ar B St Ac.
  assert (Old : forall o th', ths !! o = Some th' -> exists th, threads w !! o = Some th /\ array th = array th').
  { intros o th' E. specialize (Ar o). rewrite E in Ar.
    destruct (threads w !! o) as [th|]; [|done]. injection Ar as Ar. by exists th. }
  constructor; cbn [tables threads].
  - unfold spaced. cbn [tables]. by rewrite dom_insert_lookup_L by done.
  - intros b tb. destruct (decide (b = a)) as [->|N].
    + rewrite lookup_insert_eq. intros [= <-]. apply L.
    + rewrite lookup_insert_ne by done. apply T.
  - intros o th' E. destruct (Old o th' E) as (th & E0 & Ea). specialize (Th o th E0) as [S0 B0 Ty0 Sl0].
    rewrite Ea in *. constructor; [done|by eapply B|done|]. intros i r I. cbn [tables].
    specialize (St o th th' i r E0 E I). destruct (Sl0 i r I) as (tb & Tb & Sb).
    destruct (decide (lock r = a)) as [La|Na].
    + exists t'. rewrite La, lookup_insert_eq. split; [done|]. rewrite La, A in Tb. injection Tb as <-.
      destruct (decide (lock r = a /\ actor c = Some (instance r))) as [[_ X]|X]; [done|].
      rewrite St. eapply slot_later; [done| |done]. tauto.
    + exists tb. rewrite lookup_insert_ne by done. split; [done|].
      rewrite decide_False in St by tauto. by rewrite St.
  - intros o o' th th' r r' E E' I I'. destruct (Old o th E) as (th0 & E0 & Ea), (Old o' th' E') as (th0' & E0' & Ea').
    rewrite <- Ea in I. rewrite <- Ea' in I'. eauto.
  - assert (New : forall b d, (exists o th r, threads w !! o = Some th /\ r ∈ array th /\ lock r = b /\ instance r = d) ->
      exists o th r, ths !! o = Some th /\ r ∈ array th /\ lock r = b /\ instance r = d).
    { intros b d (o & th & r & E & X). specialize (Ar o). rewrite E in Ar.
      destruct (ths !! o) as [th'|] eqn:E'; [|done]. injection Ar as Ar. exists o, th', r. by rewrite Ar. }
    intros b tb d Tb I. apply New. destruct (decide (b = a)) as [->|N].
    + rewrite lookup_insert_eq in Tb. injection Tb as <-.
      destruct (decide (actor c = Some d)) as [X|X]; [by apply Ac|].
      apply (Co a t); [done|]. by apply (busy_later e c t t').
    + rewrite lookup_insert_ne in Tb by done. by apply (Co b tb).
Qed.

Lemma thread_ok_tables w w' o th : tables w' = tables w -> thread_ok w o th -> thread_ok w' o th.
Proof. intros E [S B Ty Sl]. constructor; auto. by rewrite E. Qed.

(** A thread goes on without a call. *)
Lemma world_thread e w o th th' :
  world_ok e w -> threads w !! o = Some th -> array th' = array th -> bounds th' ->
  (forall i r t, array th !! i = Some r -> tables w !! lock r = Some t ->
     slot_ok o t r (stage_of th i) -> slot_ok o t r (stage_of th' i)) ->
  world_ok e (set_thread o th' w).
Proof.
  intros [Sp T Th Di Co] E A B S. constructor; cbn [tables threads set_thread]; auto.
  - intros o' x. destruct (decide (o' = o)) as [->|N].
    + rewrite lookup_insert_eq. intros [= <-]. destruct (Th o th E) as [S0 B0 Ty0 Sl0].
      constructor; rewrite ?A; auto. intros i r I. destruct (Sl0 i r I) as (t & Tb & X). exists t. eauto.
    + rewrite lookup_insert_ne by done. intros X. by apply (thread_ok_tables w), Th.
  - intros o1 o2 th1 th2 r1 r2 E1 E2 I1 I2.
    assert (H : forall o' x r, <[o := th']> (threads w) !! o' = Some x -> r ∈ array x ->
      exists y, threads w !! o' = Some y /\ r ∈ array y).
    { intros o' x r. destruct (decide (o' = o)) as [->|N].
      - rewrite lookup_insert_eq. intros [= <-]. rewrite A. eauto.
      - rewrite lookup_insert_ne by done. eauto. }
    destruct (H _ _ _ E1 I1) as (y1 & F1 & J1), (H _ _ _ E2 I2) as (y2 & F2 & J2). eauto.
  - intros a t d Ta I. destruct (Co a t d Ta I) as (o' & x & r & E' & X).
    destruct (decide (o' = o)) as [->|N].
    + rewrite E in E'. injection E' as <-. exists o, th', r. by rewrite lookup_insert_eq, A.
    + exists o', x, r. by rewrite lookup_insert_ne.
Qed.

(** A thread calls the interface for element [i] of its array. *)
Lemma world_call e w o th th' i r t t' c :
  world_ok e w -> threads w !! o = Some th -> array th !! i = Some r -> tables w !! lock r = Some t ->
  later e c t t' -> actor c = Some (instance r) -> array th' = array th -> bounds th' ->
  (forall j, j <> i -> stage_of th' j = stage_of th j) ->
  slot_ok o t' r (stage_of th' i) ->
  world_ok e (set_thread o th' (mk_world (<[lock r := t']> (tables w)) (threads w))).
Proof.
  intros K E I A L Ac Ar B St Sl. pose proof K as [Sp T Th Di Co].
  unfold set_thread. cbn [tables threads]. apply (world_change e w (lock r) t t' c); auto.
  - intros o'. destruct (decide (o' = o)) as [->|N]; [|by rewrite lookup_insert_ne].
    rewrite lookup_insert_eq, E. cbn. by rewrite Ar.
  - intros o' x. destruct (decide (o' = o)) as [->|N].
    + rewrite lookup_insert_eq. by intros [= <-].
    + rewrite lookup_insert_ne by done. intros X. by apply (thread_bounds _ _ _ (Th o' x X)).
  - intros o' x x' j r' X. destruct (decide (o' = o)) as [->|N].
    + rewrite lookup_insert_eq. intros [= <-] J. rewrite E in X. injection X as <-. rewrite Ar in J.
      destruct (decide _) as [(Lk & In)|N].
      * assert (i = j) as <- by (apply (index_unique w o th i j r r'); auto).
        rewrite I in J. by injection J as <-.
      * apply St. intros ->. rewrite I in J. injection J as <-. by destruct N.
    + rewrite lookup_insert_ne by done. rewrite X. intros [= <-] J. destruct (decide _) as [(Lk & In)|]; [|done].
      destruct N. rewrite Ac in In. injection In as In.
      apply (Di o' o x th r' r); eauto using list_elem_of_lookup_2.
  - intros d X. rewrite Ac in X. injection X as <-. exists o, th, r. eauto using list_elem_of_lookup_2.
Qed.

(** ** The calls are permitted *)

(** Nothing of an owner is in the queues of a table while its element is idle. *)
Lemma idle_owner e w o th i r t q x :
  world_ok e w -> threads w !! o = Some th -> array th !! i = Some r -> tables w !! lock r = Some t ->
  stage_of th i = Idle -> x ∈ qs (view (locked t)) q -> owner (inf (view (locked t)) x) <> o.
Proof.
  intros [Sp T Th Di Co] E I A St X O.
  destruct (Co _ _ _ A (or_introl (ex_intro _ q X))) as (o' & th' & r' & E' & R' & Lk & In).
  apply list_elem_of_lookup_1 in R' as (j & J).
  destruct (thread_slots _ _ _ (Th o' th' E') j r' J) as (t1 & A1 & (D & Sl)).
  rewrite Lk, A in A1. injection A1 as <-. rewrite In in Sl.
  destruct (stage_of th' j) eqn:Sj.
  - destruct Sl as (_ & _ & W & _). rewrite W in O. subst o'. rewrite E in E'. injection E' as <-.
    assert (i = j) as <- by (apply (index_unique w o th i j r r'); auto). congruence.
  - destruct Sl as (_ & W & _). rewrite W in O. subst o'. rewrite E in E'. injection E' as <-.
    assert (i = j) as <- by (apply (index_unique w o th i j r r'); auto). congruence.
  - destruct Sl as (Out & _). by apply (Out q).
Qed.

Lemma forallb_elem {A} (f : A -> bool) l : (forall x, x ∈ l -> f x = true) -> forallb f l = true.
Proof. intros H. apply forallb_forall. intros x X. by apply H, list_elem_of_In. Qed.
Lemma existsb_elem {A} (f : A -> bool) l : (forall x, x ∈ l -> f x = false) -> existsb f l = false.
Proof.
  intros H. destruct (existsb f l) eqn:E; [|done]. apply existsb_exists in E as (x & X & Fx).
  rewrite H in Fx; [done|]. by apply list_elem_of_In.
Qed.

Lemma lock_permitted e w o th i r t me :
  world_ok e w -> threads w !! o = Some th -> array th !! i = Some r -> tables w !! lock r = Some t ->
  stage_of th i = Idle ->
  permitted (dom (datas (locked t))) e (view (locked t)) (asleep t) (Lock (instance r) o (wanted r) me) = true.
Proof.
  intros K E I A St. pose proof K as [Sp T Th Di Co].
  destruct (thread_slots _ _ _ (Th o th E) i r I) as (t1 & A1 & (D & Sl)). rewrite A in A1. injection A1 as <-.
  rewrite St in Sl. destruct Sl as (Out & Sl).
  assert (N : forall q x, x ∈ qs (view (locked t)) q ->
    bool_decide (owner (inf (view (locked t)) x) = o) = false).
  { intros q x X. apply bool_decide_eq_false. by apply (idle_owner e w o th i r t q). }
  cbn [permitted]. rewrite !andb_true_iff. split_and!.
  - by apply bool_decide_eq_true.
  - apply negb_true_iff. by apply in_queue_spec.
  - by apply bool_decide_eq_true.
  - apply (thread_types _ _ _ (Th o th E)). by apply (list_elem_of_lookup_2 _ i).
  - apply forallb_elem. intros x X. unfold again. by rewrite (N write x X).
  - unfold no_mix. rewrite !existsb_elem; [by rewrite !andb_false_r, orb_true_r|..];
      intros x X; by rewrite (N _ x X).
Qed.

Lemma unlock_permitted e w o th i r t x :
  world_ok e w -> threads w !! o = Some th -> array th !! i = Some r -> tables w !! lock r = Some t ->
  stage_of th i = Taken -> datas (locked t) !! instance r = Some x -> type (info x) <> TL_UNLOCK ->
  permitted (dom (datas (locked t))) e (view (locked t)) (asleep t) (Unlock (instance r)) = true.
Proof.
  intros K E I A St X Ty. pose proof K as [Sp T Th Di Co].
  destruct (thread_slots _ _ _ (Th o th E) i r I) as (t1 & A1 & (D & Sl)). rewrite A in A1. injection A1 as <-.
  rewrite St in Sl. destruct Sl as (Se & Sl & _). cbn [permitted]. rewrite Sl, bool_decide_true by done.
  rewrite andb_true_l, !orb_true_iff, andb_true_iff, !bool_decide_eq_true.
  destruct Se as [([?|?] & _)|(_ & [[?|?]|[?|(_ & Y)]])]; auto. cbn [view inf] in Y. by rewrite X in Y.
Qed.

(** ** Replies *)

Fixpoint rets {A} (P : A -> Prop) (p : prog A) : Prop :=
  match p with Ret x => P x | Do o k => forall y, rets P (k y) end.

Lemma rets_run {A} (P : A -> Prop) ids chk (p : prog A) : forall a x a',
  rets P p -> arun ids chk p a = Some (x, a') -> P x.
Proof.
  induction p as [v|X o k IH]; intros a x a' R E; cbn in *; [by injection E as <- <-|].
  destruct (arun_op ids chk o a) as [[y a1]|]; [|done]. cbn in E. by eapply IH.
Qed.

Lemma rets_bind {A B} (Q : B -> Prop) (p : prog A) k : (forall x, rets Q (k x)) -> rets Q (p ≫= k).
Proof. intros H. induction p as [v|X o k' IH]; [apply H|]. intros y. apply IH. Qed.

Lemma wait_returns e fuel q d b : rets (fun x => exists v, x = Returns v) (wait_for_lock e fuel q d b).
Proof.
  unfold wait_for_lock. apply rets_bind. intros i. destruct (_ || _); apply rets_bind; intros _; by eexists.
Qed.

(** ** Steps of threads *)

(** The steps a thread makes at most until its call of [thr_multi_unlock] returns. *)
Definition steps th : nat :=
  let n := length (array th) in
  match doing th with
  | Locking => 2 * (n - pos th) + n + 3
  | Waiting => 2 * (n - pos th) + n + 2
  | Locked => n + 2
  | Unlocking k m _ => m - k + 1
  end.

(** The thread [o] has made a step. *)
Definition advanced o th w w' : Prop :=
  threads w' = delete o (threads w) \/
  exists th', threads w' = <[o := th']> (threads w) /\ (steps th' < steps th)%nat.

Definition good_step e o th w (x : option world) : Prop :=
  exists w', x = Some w' /\ world_ok e w' /\ advanced o th w w'.

Ltac stages :=
  unfold stage_of, bounds, steps in *; cbn in *; repeat case_bool_decide; try lia; try done.

Lemma on_table_eq e chk a c w t x s :
  tables w !! a = Some t -> run chk (perform e (links (locked t)) (asleep t) c) (locked t) = Some (x, s) ->
  on_table e chk a c w =
    Some (x, mk_world (<[a := mk_table s (sleepers_after (asleep t) c x)]> (tables w)) (threads w)).
Proof. intros A E. unfold on_table. rewrite A. cbn [mbind option_bind]. by rewrite E. Qed.

Lemma running_ready e s sl d : state_ok e s sl -> running (view s) d -> ready (view s) d.
Proof. intros (_ & _ & C & _) R. split; [done|]. by destruct R as [R|R]; destruct (core_kind _ _ _ _ C _ _ R). Qed.

Lemma typed_delayed want : typed want TL_WRITE_DELAYED -> want = TL_WRITE_DELAYED.
Proof. intros [?|[?|[(_ & ?)|(_ & [?|?])]]]; done. Qed.

Section Steps.
Context (e : env) (chk : Z -> bool) (U : sane e).

(** The instance of the element at [pos] after its call. *)
Definition answered t' r (y : outcome) th : Prop :=
  let d := instance r in
  typed (wanted r) (type (inf (view (locked t')) d)) /\
  match y with
  | Returns THR_LOCK_SUCCESS => settled (wanted r) (view (locked t')) d /\ asleep t' !! d = None
  | Returns _ => outside (view (locked t')) d /\ asleep t' !! d = None
  | Sleeps _ _ => is_Some (asleep t' !! d) /\ doing th = Locking
  end.

Lemma after_call w o th r t t' c y :
  world_ok e w -> threads w !! o = Some th -> array th !! pos th = Some r -> tables w !! lock r = Some t ->
  doing th = Locking \/ doing th = Waiting ->
  later e c t t' -> actor c = Some (instance r) -> instance r ∈ dom (datas (locked t)) ->
  owner (inf (view (locked t')) (instance r)) = o -> answered t' r y th ->
  exists th', after_lock th (Out y) = Some th' /\ (steps th' < steps th)%nat /\
    world_ok e (set_thread o th' (mk_world (<[lock r := t']> (tables w)) (threads w))).
Proof.
  intros K E I A Ph L Ac D Ow An.
  assert (Len : (pos th < length (array th))%nat) by (by eapply lookup_lt_Some).
  rewrite <- (later_dom _ _ _ _ L) in D.
  assert (Go : forall th', array th' = array th -> bounds th' -> (steps th' < steps th)%nat ->
    (forall j, j <> pos th -> stage_of th' j = stage_of th j) ->
    slot_ok o t' r (stage_of th' (pos th)) ->
    after_lock th (Out y) = Some th' ->
    exists th', after_lock th (Out y) = Some th' /\ (steps th' < steps th)%nat /\
      world_ok e (set_thread o th' (mk_world (<[lock r := t']> (tables w)) (threads w)))).
  { intros th' Ar B Ln Sg Sk Al. exists th'. split_and!; [done|done|].
    by apply (world_call e w o th th' (pos th) r t t' c). }
  clear K E I A L Ac. destruct th as [arr p ph]. cbn [array pos doing] in *. unfold answered in An. destruct An as (Ty & An).
  destruct y as [[]|q b]; cbn [after_lock array pos] in *; (eapply Go; [..|reflexivity]); try done;
    try (intros j J; destruct Ph as [-> | ->]; stages); try (destruct Ph as [-> | ->]; stages);
    try (destruct An as (An & [= ->])); unfold stage_of, slot_ok; cbn [doing pos].
  all: repeat first [rewrite bool_decide_true by lia|rewrite bool_decide_false by lia]; tauto.
Qed.

Lemma move_lock w o th r me :
  world_ok e w -> threads w !! o = Some th -> doing th = Locking -> array th !! pos th = Some r ->
  good_step e o th w (thr_multi_step e chk o me w).
Proof.
  intros K E Ph I. pose proof K as [Sp T Th Di Co].
  assert (St : stage_of th (pos th) = Idle) by (unfold stage_of; rewrite Ph, bool_decide_false; [done|lia]).
  destruct (thread_slots _ _ _ (Th o th E) _ r I) as (t & A & (D & Sl)). rewrite St in Sl. destruct Sl as (Ou & Sl).
  pose proof (lock_permitted e w o th _ r t me K E I A St) as Pm.
  set (c := Lock (instance r) o (wanted r) me) in *.
  assert (P : plain c) by done.
  destruct (call_runs e chk c t U (T _ _ A) P Pm) as (x & s' & R & L & H & (a' & Ra)).
  apply (arun_fmap _ _ Out) in Ra as (y & _ & ->).
  destruct (after_call w o th r t _ c y K E I A (or_introl Ph) L eq_refl D) as (th' & Al & Ln & Ok).
  - pose proof (later_owner _ _ _ _ L _ D) as X. cbn in X. by rewrite decide_True in X.
  - pose proof (later_types _ _ _ _ L _ TL_UNLOCK D) as Ty. cbn in Ty. rewrite decide_True in Ty by done.
    pose proof (later_ok _ _ _ _ L) as Ok. split; [done|]. destruct y as [[]|q b]; cbn in *; auto.
    + split; [|done]. destruct H as [?|[?|(W & Td)]]; [left; eapply running_ready; [exact Ok|by left]| |].
      * left; eapply running_ready; [exact Ok|by right].
      * right. split; [apply typed_delayed; by rewrite <- Td|right; by left].
    + split; [|done]. rewrite lookup_insert_eq. by eexists.
  - unfold good_step, thr_multi_step, lock_step, unlock_step. rewrite E. cbn [mbind option_bind]. rewrite Ph, I. fold c.
    rewrite (on_table_eq e chk _ _ w t _ _ A R). cbn [mbind option_bind]. rewrite Al. cbn [mbind option_bind].
    eexists. split_and!; [done|done|]. right. by exists th'.
Qed.

Lemma move_wake w o th r t x q b (timed_out : bool) :
  world_ok e w -> threads w !! o = Some th -> doing th = Waiting -> array th !! pos th = Some r ->
  tables w !! lock r = Some t -> datas (locked t) !! instance r = Some x -> asleep t !! instance r = Some (q, b) ->
  bool_decide (cond (info x) = None) ||
    (if timed_out then bool_decide (n_cursors e (owner_info e (owner (info x))) <> 0) else negb b) = true ->
  good_step e o th w (thr_multi_wake e chk o timed_out w).
Proof.
  intros K E Ph I A X Sl G. pose proof K as [Sp T Th Di Co].
  destruct (thread_slots _ _ _ (Th o th E) _ r I) as (t1 & A1 & (D & S1)). rewrite A in A1. injection A1 as <-.
  unfold stage_of in S1. rewrite Ph, bool_decide_false, bool_decide_true in S1 by lia. destruct S1 as (_ & Ow & Ty0).
  set (c := Wake (instance r) timed_out) in *. assert (P : plain c) by done.
  assert (Pm : permitted (dom (datas (locked t))) e (view (locked t)) (asleep t) c = true).
  { cbn [permitted c]. rewrite Sl. cbn [view inf]. by rewrite X. }
  destruct (call_runs e chk c t U (T _ _ A) P Pm) as (v & s' & R & L & H & (a' & Ra)).
  cbn [perform c] in Ra. rewrite Sl in Ra. apply (arun_fmap _ _ Out) in Ra as (y & Ra & ->).
  destruct (rets_run _ _ _ _ _ _ _ (wait_returns e (links (locked t)) q (instance r) timed_out) Ra) as (res & ->).
  destruct (after_call w o th r t _ c (Returns res) K E I A (or_intror Ph) L eq_refl D) as (th' & Al & Ln & Ok).
  - by rewrite (later_owner _ _ _ _ L _ D).
  - split; [by apply (later_types _ _ _ _ L)|]. pose proof (later_ok _ _ _ _ L) as Ok.
    destruct res; cbn in *; rewrite lookup_delete_eq; split; auto. left. by eapply running_ready; [exact Ok|].
  - unfold good_step, thr_multi_wake. rewrite E. cbn [mbind option_bind]. rewrite Ph, I. cbn [mbind option_bind].
    rewrite A. cbn [mbind option_bind]. rewrite X. cbn [mbind option_bind]. rewrite Sl. cbn [mbind option_bind].
    rewrite G. fold c. rewrite (on_table_eq e chk _ _ w t _ _ A R). cbn [mbind option_bind]. rewrite Al.
    eexists. split_and!; [done|done|]. right. by exists th'.
Qed.

(** The loop of [thr_multi_unlock] for one element. *)
Lemma move_unlock w o th k n res me :
  world_ok e w -> threads w !! o = Some th -> doing th = Unlocking k n res -> (k < n)%nat ->
  good_step e o th w (thr_multi_step e chk o me w).
Proof.
  intros K E Ph Lt. pose proof K as [Sp T Th Di Co].
  pose proof (thread_bounds _ _ _ (Th o th E)) as B. unfold bounds in B. rewrite Ph in B.
  destruct (lookup_lt_is_Some_2 (array th) k) as (r & I); [lia|].
  assert (St : stage_of th k = Taken) by (unfold stage_of; rewrite Ph, bool_decide_true; [done|lia]).
  destruct (thread_slots _ _ _ (Th o th E) _ r I) as (t & A & Sl). rewrite St in Sl. destruct Sl as (D & Se & Sl & Ow).
  pose proof D as (x & X)%elem_of_dom.
  set (th' := mk_thread (array th) (pos th) (Unlocking (S k) n res)).
  assert (Sg : forall j, j <> k -> stage_of th' j = stage_of th j) by (intros j J; unfold th'; destruct th; cbn in *; subst; stages).
  assert (Sk : stage_of th' k = Idle) by (unfold th'; stages).
  assert (Ln : (steps th' < steps th)%nat) by (unfold th', steps; rewrite Ph; cbn; lia).
  assert (B' : bounds th') by (unfold th'; stages).
  unfold good_step, thr_multi_step, lock_step, unlock_step. rewrite E. cbn [mbind option_bind]. rewrite Ph, bool_decide_true by done.
  rewrite I. cbn [mbind option_bind]. unfold data_of. rewrite A. cbn [mbind option_bind]. rewrite X. cbn [mbind option_bind].
  destruct (bool_decide_reflect (type (info x) = TL_UNLOCK)) as [Ty|Ty].
  - cbn [mbind option_bind]. eexists. split; [done|]. split; [|right; by exists th'].
    apply (world_thread e w o th th'); auto. intros j r' t1 J A1. destruct (decide (j = k)) as [->|N].
    + rewrite I in J. injection J as <-. rewrite A in A1. injection A1 as <-. rewrite Sk. intros _.
      split; [done|]. split; [|done]. intros q Q. destruct (T _ _ A) as (_ & _ & C & _).
      pose proof (core_kind _ _ _ _ C q _ Q) as Kd. cbn [view inf] in Kd. rewrite X in Kd. cbn [from_option] in Kd.
      unfold kind, is_read, is_write in Kd. rewrite Ty in Kd. destruct q; cbn in Kd; lia.
    + by rewrite Sg.
  - pose proof (unlock_permitted e w o th k r t x K E I A St X Ty) as Pm.
    set (c := Unlock (instance r)) in *. assert (P : plain c) by done.
    destruct (call_runs e chk c t U (T _ _ A) P Pm) as (v & s' & R & L & H & _).
    rewrite (on_table_eq e chk _ _ w t _ _ A R). cbn [mbind option_bind].
    eexists. split; [done|]. split; [|right; by exists th'].
    apply (world_call e w o th th' k r t _ c); auto. rewrite Sk. split; [by rewrite (later_dom _ _ _ _ L)|].
    split; [|done]. by destruct v as [[[]|]|[]|[]].
Qed.

(** The end of the loop of [thr_multi_lock]. *)
Lemma move_locked w o th me :
  world_ok e w -> threads w !! o = Some th -> doing th = Locking -> array th !! pos th = None ->
  good_step e o th w (thr_multi_step e chk o me w).
Proof.
  intros K E Ph I. pose proof K as [_ _ Th _ _]. pose proof (thread_bounds _ _ _ (Th o th E)) as B.
  apply lookup_ge_None_1 in I as Le. unfold bounds in B. rewrite Ph in B.
  unfold good_step, thr_multi_step, lock_step, unlock_step. rewrite E. cbn [mbind option_bind]. rewrite Ph, I.
  eexists. split; [done|]. split.
  - apply (world_thread e w o th); [done|done|done|unfold bounds; cbn; lia|].
    intros i r t _ _. unfold stage_of. by rewrite Ph.
  - right. eexists. split; [done|]. unfold steps. rewrite Ph. cbn. lia.
Qed.

Lemma move_multi_unlock w o th :
  world_ok e w -> threads w !! o = Some th -> doing th = Locked ->
  good_step e o th w (thr_multi_unlock o w).
Proof.
  intros K E Ph. pose proof K as [_ _ Th _ _]. pose proof (thread_bounds _ _ _ (Th o th E)) as B.
  unfold bounds in B. rewrite Ph in B.
  unfold good_step, thr_multi_unlock. rewrite E. cbn [mbind option_bind]. rewrite Ph.
  eexists. split; [done|]. split.
  - apply (world_thread e w o th); [done|done|done|unfold bounds; cbn; lia|].
    intros i r t I _. apply lookup_lt_Some in I. unfold stage_of. rewrite Ph. cbn.
    by rewrite !bool_decide_true by lia.
  - right. eexists. split; [done|]. unfold steps. rewrite Ph. cbn. lia.
Qed.

(** [thr_multi_unlock] returns. *)
Lemma move_finished w o th k n res me :
  world_ok e w -> threads w !! o = Some th -> doing th = Unlocking k n res -> ~ (k < n)%nat ->
  good_step e o th w (thr_multi_step e chk o me w).
Proof.
  intros K E Ph N. pose proof K as [Sp T Th Di Co].
  unfold good_step, thr_multi_step, lock_step, unlock_step. rewrite E. cbn [mbind option_bind]. rewrite Ph, bool_decide_false by done.
  eexists. split; [done|]. split; [|by left]. constructor; cbn [tables threads]; auto.
  - intros o' x. rewrite lookup_delete_Some. intros (_ & X). by apply (thread_ok_tables w), Th.
  - intros o1 o2 th1 th2 r1 r2. rewrite !lookup_delete_Some. intros (_ & X1) (_ & X2). eauto.
  - intros a t d A I. destruct (Co a t d A I) as (o' & x & r & E' & R & Lk & In).
    exists o', x, r. split_and!; try done. rewrite lookup_delete_ne; [done|]. intros <-.
    rewrite E in E'. injection E' as <-. apply list_elem_of_lookup_1 in R as (i & R).
    destruct (thread_slots _ _ _ (Th o th E) i r R) as (t1 & A1 & (_ & Sl)). rewrite Lk, A in A1. injection A1 as <-.
    unfold stage_of in Sl. rewrite Ph, bool_decide_false, In in Sl by lia. destruct Sl as (Ou & Na). destruct I as [(q & I)|(v & I)]; [by apply (Ou q)|congruence].
Qed.

(** Somebody aborts waiters. *)
Lemma move_abort w a c x w' :
  world_ok e w -> plain c -> actor c = None -> (forall ids b sl, permitted ids e b sl c = true) ->
  on_table e chk a c w = Some (x, w') -> world_ok e w'.
Proof.
  intros K P Ac Pm E. pose proof K as [Sp T Th Di Co]. unfold on_table in E.
  destruct (tables w !! a) as [t|] eqn:A; [|done]. cbn [mbind option_bind] in E.
  destruct (call_runs e chk c t U (T _ _ A) P (Pm _ _ _)) as (v & s' & R & L & _). rewrite R in E.
  injection E as <- <-. apply (world_change e w a t _ c); auto.
  - intros o th X. by apply (thread_bounds _ _ _ (Th o th X)).
  - intros o th th' i r X X' I. rewrite X in X'. injection X' as <-.
    destruct (decide _) as [(_ & Y)|]; [congruence|done].
  - intros d Y. congruence.
Qed.

(** *** The start of [thr_multi_lock] *)

Lemma unused_spec w r : unused w r = true <->
  forall o th r', threads w !! o = Some th -> r' ∈ array th -> lock r' = lock r -> instance r' <> instance r.
Proof.
  unfold unused. rewrite forallb_forall. split.
  - intros H o th r' E I L N. specialize (H (o, th)). rewrite <- list_elem_of_In, elem_of_map_to_list in H.
    specialize (H E). rewrite forallb_forall in H. specialize (H r' (proj1 (list_elem_of_In _ _) I)).
    by rewrite !bool_decide_true in H by done.
  - intros H (o & th) I. apply list_elem_of_In, elem_of_map_to_list in I. apply forallb_elem. intros r' R. cbn in *.
    destruct (bool_decide_reflect (lock r' = lock r)) as [L|]; [|done].
    rewrite bool_decide_false; [done|]. by apply (H o th).
Qed.

Lemma data_proper w (data : list request) :
  spaced w -> (forall r, r ∈ data -> lock r ∈ dom (tables w) /\ lockable (wanted r) = true) ->
  ThrSort.proper data.
Proof.
  intros Sp D. split.
  - apply Forall_forall. intros r I%list_elem_of_In. destruct (D r I) as (L & Ty).
    destruct (Sp _ _ L L). unfold lockable in Ty. apply andb_true_iff in Ty as (Ty & _).
    apply bool_decide_eq_true in Ty. lia.
  - intros r r' I I' Lt. destruct (D r I) as (L & _), (D r' I') as (L' & _). by apply (Sp _ _ L L').
Qed.

Lemma strictly_sorted (l : list request) :
  NoDup (lock <$> l) -> StronglySorted ThrSort.before l -> StronglySorted (fun r r' => lock r < lock r') l.
Proof.
  intros N S. induction S as [|r l S IH F]; constructor; cbn in N; apply list.NoDup_cons in N as (N & N').
  - by apply IH.
  - rewrite Forall_forall in *. intros r' I. destruct (F r' I) as [|(E & _)]; [done|]. destruct N.
    rewrite E. apply list_elem_of_fmap_2. by apply list_elem_of_In.
Qed.

Lemma sorted_array w (data : list request) :
  spaced w -> (forall r, r ∈ data -> lock r ∈ dom (tables w) /\ lockable (wanted r) = true) ->
  NoDup (lock <$> data) ->
  exists l, (if bool_decide (1 < length data)%nat then sort_locks data else Some data) = Some l /\
    l ≡ₚ data /\ StronglySorted (fun r r' => lock r < lock r') l.
Proof.
  intros Sp D N. destruct (bool_decide_reflect (1 < length data)%nat) as [Lt|Le].
  - destruct (ThrSort.sort_locks_before data (data_proper w data Sp D)) as (l & E & P & S).
    exists l. split_and!; [done..|]. apply strictly_sorted; [by rewrite P|done].
  - exists data. split_and!; [done..|]. destruct data as [|r [|]]; cbn in Le; [constructor| |lia]. repeat constructor.
Qed.

Lemma move_start w o data :
  world_ok e w -> may_start o data w = true ->
  exists l, l ≡ₚ data /\ thr_multi_lock o data w = Some (set_thread o (mk_thread l 0 Locking) w) /\
    world_ok e (set_thread o (mk_thread l 0 Locking) w).
Proof.
  intros K M. pose proof K as [Sp T Th Di Co]. unfold may_start in M.
  rewrite !andb_true_iff, !bool_decide_eq_true, forallb_forall in M. destruct M as ((Fr & N) & D).
  assert (Dt : forall r, r ∈ data -> exists t, tables w !! lock r = Some t /\ lockable (wanted r) = true /\
    instance r ∈ dom (datas (locked t)) /\ unused w r = true).
  { intros r I%list_elem_of_In. specialize (D r I). rewrite !andb_true_iff, bool_decide_eq_true in D.
    destruct D as ((Ty & (x & X)) & Un). unfold data_of in X. destruct (tables w !! lock r) as [t|]; [|done].
    exists t. split_and!; try done. apply elem_of_dom. by exists x. }
  destruct (sorted_array w data Sp) as (l & E & P & S); [|done|].
  { intros r I. destruct (Dt r I) as (t & A & Ty & _). split; [|done]. apply elem_of_dom. by exists t. }
  exists l. split; [done|]. split; [unfold thr_multi_lock; by rewrite E|].
  assert (Dl : forall r, r ∈ l -> r ∈ data) by (intros r; by rewrite P).
  constructor; cbn [tables threads set_thread]; auto.
  - intros o' x. destruct (decide (o' = o)) as [->|No].
    + rewrite lookup_insert_eq. intros [= <-]. constructor; cbn [array]; [done|unfold bounds; cbn; lia| |].
      * intros r I. by destruct (Dt r (Dl r I)) as (t & _ & Ty & _).
      * intros i r I. apply list_elem_of_lookup_2 in I. destruct (Dt r (Dl r I)) as (t & A & _ & Dm & Un).
        exists t. split; [done|]. split; [done|]. unfold stage_of. cbn [doing pos].
        rewrite bool_decide_false by lia.
        assert (Nb : ~ busy t (instance r)).
        { intros Bu. destruct (Co _ _ _ A Bu) as (o' & th' & r' & E' & R' & Lk & In).
          by apply (proj1 (unused_spec w r) Un o' th' r'). }
        split; [intros q Q; apply Nb; left; eauto|]. destruct (asleep t !! instance r) eqn:Sl; [|done].
        destruct Nb. right. by eexists.
    + rewrite lookup_insert_ne by done. intros X. by apply (thread_ok_tables w), Th.
  - assert (New : forall r o' x r', r ∈ l -> threads w !! o' = Some x -> r' ∈ array x -> lock r' = lock r ->
      instance r' <> instance r).
    { intros r o' x r' I. destruct (Dt r (Dl r I)) as (_ & _ & _ & _ & Un). by apply unused_spec. }
    intros o1 o2 th1 th2 r1 r2. destruct (decide (o1 = o)) as [->|N1], (decide (o2 = o)) as [->|N2];
      rewrite ?lookup_insert_eq, ?lookup_insert_ne by done; [done|..].
    + intros [= <-] E2 I1 I2 Lk In. by destruct (New r1 o2 th2 r2 I1 E2 I2).
    + intros E1 [= <-] I1 I2 Lk In. by destruct (New r2 o1 th1 r1 I2 E1 I1).
    + intros E1 E2. eauto.
  - intros a t d A Bu. destruct (Co a t d A Bu) as (o' & x & r & E' & X). exists o', x, r.
    rewrite lookup_insert_ne; [done|]. intros <-. congruence.
Qed.

End Steps.

End ThrMultiInv.
