(* ===== verification/ThrMultiMain.v ===== *)
(** * ThrMultiMain: what [thr_multi_lock] promises

    Threads that take their locks with [thr_multi_lock] never all wait: the order
    of [sort_locks] rules out a circle.  The theorems are about every world that
    steps of threads can reach, in any order. *)
From stdpp Require Import base tactics option list numbers gmap functions.
From Stdlib Require Import ZArith Lia Sorting.Sorted.
From S2P Require Import Prelude ThrLock ThrSpec ThrLinks ThrSim ThrInv ThrWake ThrRequest ThrSteps ThrMain.
From S2P Require Import ThrSort ThrFrame ThrMulti ThrMultiInv.

Module ThrMultiMain.
Import ThrLock ThrSpec ThrSim ThrInv ThrSys ThrSteps ThrMain ThrFrame ThrMulti ThrMultiInv.
Import ThrSort (request, mk_request, instance, lock, wanted, sort_locks).

Implicit Types (w : world) (t : table) (th : thread) (r : request) (o d : Z) (e : env) (c : call).

(** ** Reachable worlds *)

Lemma initial_ok e w : initial w -> world_ok e w.
Proof.
  intros (Sp & No & Ts).
  assert (Q : forall a t, tables w !! a = Some t -> state_ok e (locked t) (asleep t) /\ forall d, ~ busy t d).
  { intros a t A. destruct (Ts a t A) as (ds & stats & g & u & k & m & F & ->). cbn [locked asleep].
    split; [by apply init_ok|]. intros d [(q & I)|(x & I)]; [by apply elem_of_nil in I|done]. }
  constructor; auto.
  - intros a t A. by apply (Q a t).
  - intros o th. by rewrite No.
  - intros o o' th th' r r' E. by rewrite No in E.
  - intros a t d A B. by destruct (proj2 (Q a t A) d).
Qed.

(** The actions of thread [o] itself. *)
Definition own o (act : action) : Prop :=
  match act with
  | Step o' _ | Wake_up o' _ | Multi_unlock o' => o' = o
  | _ => False
  end.

Section Actions.
Context (e : env) (chk : Z -> bool) (U : sane e).

Lemma good_step_eq o th w x w' : good_step e o th w x -> x = Some w' -> world_ok e w' /\ advanced o th w w'.
Proof. intros (w1 & -> & H) [= <-]. done. Qed.

Lemma own_ok o act w w' : world_ok e w -> own o act -> multi_step e chk act w = Some w' ->
  exists th, threads w !! o = Some th /\ world_ok e w' /\ advanced o th w w'.
Proof.
  intros K O E. destruct act; cbn [own multi_step] in *; try done; subst.
  - pose proof E as E0. unfold thr_multi_step in E. destruct (threads w !! o) as [th|] eqn:X; [|done].
    exists th. split; [done|]. cbn [mbind option_bind] in E. destruct (doing th) eqn:Ph; try done.
    + destruct (array th !! pos th) as [r|] eqn:I.
      * by eapply good_step_eq; [eapply move_lock|].
      * by eapply good_step_eq; [eapply move_locked|].
    + destruct (decide (k < n)%nat).
      * by eapply good_step_eq; [eapply move_unlock|].
      * by eapply good_step_eq; [eapply move_finished|].
  - pose proof E as E0. unfold thr_multi_wake in E. destruct (threads w !! o) as [th|] eqn:X; [|done].
    exists th. split; [done|]. cbn [mbind option_bind] in E. destruct (doing th) eqn:Ph; try done.
    destruct (array th !! pos th) as [r|] eqn:I; [|done]. cbn [mbind option_bind] in E.
    destruct (tables w !! lock r) as [t|] eqn:A; [|done]. cbn [mbind option_bind] in E.
    destruct (datas (locked t) !! instance r) as [x|] eqn:D; [|done]. cbn [mbind option_bind] in E.
    destruct (asleep t !! instance r) as [[q b]|] eqn:Sl; [|done]. cbn [mbind option_bind] in E.
    destruct (_ || _) eqn:G; [|done]. by eapply good_step_eq; [eapply move_wake|].
  - pose proof E as E0. unfold thr_multi_unlock in E. destruct (threads w !! o) as [th|] eqn:X; [|done].
    exists th. split; [done|]. cbn [mbind option_bind] in E. destruct (doing th) eqn:Ph; try done.
    by eapply good_step_eq; [eapply move_multi_unlock|].
Qed.

Lemma action_ok act w w' : world_ok e w -> multi_step e chk act w = Some w' -> world_ok e w'.
Proof.
  intros K E.
  assert (Own : forall o, own o act -> world_ok e w') by (intros o O; by destruct (own_ok o act w w' K O E) as (th & _ & ? & _)).
  destruct act as [o data|o|o|o|a b|a id]; try by apply (Own o).
  - cbn [multi_step] in E. destruct (may_start o data w) eqn:M; [|done].
    destruct (move_start e w o data K M) as (l & _ & El & Ok). rewrite El in E. by injection E as <-.
  - cbn [multi_step] in E. destruct (on_table _ _ _ _ _) as [[x w1]|] eqn:T; [|done]. injection E as <-.
    by apply (move_abort e chk U w a (Abort_locks b) x).
  - cbn [multi_step] in E. destruct (on_table _ _ _ _ _) as [[x w1]|] eqn:T; [|done]. injection E as <-.
    by apply (move_abort e chk U w a (Abort_locks_for_thread id) x).
Qed.
End Actions.

Lemma runs_ok e w : sane e -> runs e w -> world_ok e w.
Proof.
  intros U. induction 1 as [w I|w chk act w' _ IH E]; [by apply initial_ok|].
  by apply (action_ok e chk U act w).
Qed.

(** ** No circle of waiting threads *)

(** A thread whose instance still waits. *)
Definition blocked w o : bool :=
  match threads w !! o with
  | Some th =>
      match doing th with
      | Waiting =>
          match array th !! pos th ≫= data_of w with
          | Some x => bool_decide (is_Some (cond (info x)))
          | None => false
          end
      | _ => false
      end
  | None => false
  end.

Lemma blocked_spec w o : blocked w o = true ->
  exists th r t x, threads w !! o = Some th /\ doing th = Waiting /\ array th !! pos th = Some r /\
    tables w !! lock r = Some t /\ datas (locked t) !! instance r = Some x /\ is_Some (cond (info x)).
Proof.
  unfold blocked. destruct (threads w !! o) as [th|]; [|done]. destruct (doing th) eqn:Ph; try done.
  destruct (array th !! pos th) as [r|] eqn:I; [|done]. cbn [mbind option_bind]. unfold data_of.
  destruct (tables w !! lock r) as [t|] eqn:A; [|done]. cbn [mbind option_bind].
  destruct (datas (locked t) !! instance r) as [x|] eqn:X; [|done]. intros B%bool_decide_eq_true.
  by exists th, r, t, x.
Qed.

(** A thread that is not blocked has a next step. *)
Lemma unblocked_moves e chk w o th :
  sane e -> world_ok e w -> threads w !! o = Some th -> blocked w o = false ->
  exists act w', own o act /\ multi_step e chk act w = Some w'.
Proof.
  intros U K E B. pose proof K as [Sp T Th Di Co].
  assert (Go : forall act, own o act -> good_step e o th w (multi_step e chk act w) ->
    exists act w', own o act /\ multi_step e chk act w = Some w').
  { intros act O (w' & X & _). by exists act, w'. }
  destruct (doing th) as [| | |k n res] eqn:Ph.
  - apply (Go (Step o 0)); [done|]. cbn [multi_step].
    destruct (array th !! pos th) as [r|] eqn:I; [by eapply move_lock|by eapply move_locked].
  - apply (Go (Wake_up o false)); [done|]. cbn [multi_step].
    pose proof (thread_bounds _ _ _ (Th o th E)) as Bd. unfold bounds in Bd. rewrite Ph in Bd.
    destruct (lookup_lt_is_Some_2 (array th) (pos th) Bd) as (r & I).
    destruct (thread_slots _ _ _ (Th o th E) _ r I) as (t & A & (D & Sl)).
    unfold stage_of in Sl. rewrite Ph, bool_decide_false, bool_decide_true in Sl by lia.
    destruct Sl as (((q & b) & Sl) & _). apply elem_of_dom in D as (x & X).
    eapply move_wake; eauto. unfold blocked in B. rewrite E, Ph, I in B. cbn [mbind option_bind] in B.
    unfold data_of in B. rewrite A in B. cbn [mbind option_bind] in B. rewrite X in B.
    apply bool_decide_eq_false in B. rewrite bool_decide_true; [done|]. by apply eq_None_not_Some.
  - apply (Go (Multi_unlock o)); [done|]. cbn [multi_step]. by eapply move_multi_unlock.
  - apply (Go (Step o 0)); [done|]. cbn [multi_step].
    destruct (decide (k < n)%nat); [by eapply move_unlock|by eapply move_finished].
Qed.

Lemma greatest {A} (f : A -> Z) (l : list A) : l <> [] -> exists x, x ∈ l /\ forall y, y ∈ l -> f y <= f x.
Proof.
  induction l as [|x l IH]; [done|]. intros _. destruct l as [|y l].
  - exists x. split; [by left|]. intros y ->%list_elem_of_singleton. lia.
  - destruct IH as (z & Z & M); [done|]. destruct (Z_le_gt_dec (f x) (f z)).
    + exists z. split; [by right|]. intros v [->|V]%elem_of_cons; [done|by apply M].
    + exists x. split; [by left|]. intros v [->|V]%elem_of_cons; [lia|]. specialize (M v V). lia.
Qed.

(** The address of the lock that a thread is at. *)
Definition at_lock th : Z := from_option lock 0 (array th !! pos th).

Lemma holder e w o : world_ok e w -> blocked w o = true ->
  exists th o' th' j r', threads w !! o = Some th /\ threads w !! o' = Some th' /\
    array th' !! j = Some r' /\ lock r' = at_lock th /\
    (blocked w o' = true -> (j < pos th')%nat).
Proof.
  intros K B. pose proof K as [Sp T Th Di Co].
  destruct (blocked_spec w o B) as (th & r & t & x & E & Ph & I & A & X & Cd).
  destruct (T _ _ A) as (_ & _ & (C & (P1 & _) & Sl)).
  assert (W : instance r ∈ qs (view (locked t)) read_wait \/ instance r ∈ qs (view (locked t)) write_wait).
  { destruct (thread_slots _ _ _ (Th o th E) _ r I) as (t1 & A1 & (_ & S1)). rewrite A in A1. injection A1 as <-.
    unfold stage_of in S1. rewrite Ph, bool_decide_false, bool_decide_true in S1 by lia.
    destruct S1 as (((q & b) & S1) & _). destruct (Sl _ _ _ S1) as (_ & H).
    assert (Cv : cond (inf (view (locked t)) (instance r)) = cond (info x)) by (cbn [view inf]; by rewrite X).
    assert (Nr : forall q, (q = read \/ q = write) -> instance r ∉ qs (view (locked t)) q).
    { intros q' Hq Q. pose proof (core_kind _ _ _ _ C q' _ Q) as Kd. destruct Cd as (v & Cd).
      destruct Hq as [-> | ->]; destruct Kd as (_ & Kd); congruence. }
    destruct H as [(_ & [H|H])|[(_ & [H|H])|(_ & H & _)]]; auto.
    - by destruct (Nr read (or_introl eq_refl)).
    - by destruct (Nr write (or_intror eq_refl)).
    - destruct Cd as (v & Cd). congruence. }
  assert (R : exists d' q, (q = read \/ q = write) /\ d' ∈ qs (view (locked t)) q).
  { destruct (qs (view (locked t)) read) as [|y l] eqn:Qr; [|exists y, read; rewrite Qr; split; [auto|by left]].
    destruct (qs (view (locked t)) write) as [|y l] eqn:Qw; [|exists y, write; rewrite Qw; split; [auto|by left]].
    destruct P1 as (E1 & E2); [done..|]. rewrite E1, E2 in W. destruct W as [W|W]; by apply elem_of_nil in W. }
  destruct R as (d' & q & Hq & Q). destruct (Co _ _ _ A (or_introl (ex_intro _ q Q))) as (o' & th' & r' & E' & R' & Lk & In).
  apply list_elem_of_lookup_1 in R' as (j & J). exists th, o', th', j, r'. split_and!; try done.
  { unfold at_lock. by rewrite I. }
  intros B'. destruct (blocked_spec w o' B') as (th1 & r1 & t1 & x1 & E1 & Ph1 & I1 & A1 & X1 & Cd1).
  rewrite E' in E1. injection E1 as <-.
  destruct (thread_slots _ _ _ (Th o' th' E') j r' J) as (t2 & A2 & (_ & S2)). rewrite Lk, A in A2. injection A2 as <-.
  unfold stage_of in S2. rewrite Ph1 in S2.
  destruct (bool_decide_reflect (j < pos th')%nat) as [|Ge]; [done|].
  destruct (bool_decide_reflect (j = pos th')) as [->|Ne].
  - rewrite I1 in J. injection J as ->. rewrite Lk, A in A1. injection A1 as <-.
    pose proof (core_kind _ _ _ _ C q _ Q) as Kd. rewrite <- In in Kd. cbn [view inf] in Kd. rewrite X1 in Kd.
    destruct Cd1 as (v & Cd1). destruct Hq as [-> | ->]; destruct Kd as (_ & Kd); cbn in Kd; congruence.
  - rewrite In in S2. destruct S2 as (Ou & _). by destruct (Ou q).
Qed.

Lemma some_unblocked e w : world_ok e w -> threads w <> ∅ ->
  exists o th, threads w !! o = Some th /\ blocked w o = false.
Proof.
  intros K N. set (l := map_to_list (threads w)).
  destruct (existsb (fun x => negb (blocked w x.1)) l) eqn:Ex.
  - apply existsb_exists in Ex as ((o & th) & I & B). apply list_elem_of_In, elem_of_map_to_list in I.
    exists o, th. split; [done|]. by apply negb_true_iff.
  - assert (All : forall o th, threads w !! o = Some th -> blocked w o = true).
    { intros o th E. destruct (blocked w o) eqn:B; [done|].
      assert (X : existsb (fun x => negb (blocked w x.1)) l = true); [|congruence].
      apply existsb_exists. exists (o, th). split; [|cbn; by rewrite B].
      by apply list_elem_of_In, elem_of_map_to_list. }
    destruct (greatest (fun x : Z * thread => at_lock x.2) l) as ((o & th) & I & M).
    { unfold l. by rewrite map_to_list_empty_iff. }
    apply elem_of_map_to_list in I.
    destruct (holder e w o K (All o th I)) as (th0 & o' & th' & j & r' & E & E' & J & Lk & Lt).
    rewrite I in E. injection E as <-. specialize (Lt (All o' th' E')).
    destruct (blocked_spec w o' (All o' th' E')) as (th1 & r1 & _ & _ & E1 & _ & I1 & _).
    rewrite E' in E1. injection E1 as <-.
    pose proof (thread_sorted _ _ _ (world_threads _ _ K o' th' E')) as S.
    pose proof (sorted_lookup _ S _ _ _ _ J I1 Lt) as Order.
    specialize (M (o', th')). cbn in M. unfold l in M. rewrite elem_of_map_to_list in M. specialize (M E').
    unfold at_lock in M at 1. rewrite I1 in M. cbn in M. lia.
Qed.

(** The steps of all threads together. *)
Definition total w : nat := map_fold (fun _ th n => steps th + n)%nat 0%nat (threads w).

Lemma steps_positive th : (0 < steps th)%nat.
Proof. unfold steps. destruct (doing th); lia. Qed.

Lemma advanced_total o th w w' : threads w !! o = Some th -> advanced o th w w' -> (total w' < total w)%nat.
Proof.
  intros E A. unfold total at 2. rewrite (map_fold_delete_L _ _ o th) by (done || (intros; lia)).
  destruct A as [D|(th' & D & Lt)]; unfold total; rewrite D.
  - pose proof (steps_positive th). lia.
  - rewrite <- insert_delete_eq, map_fold_insert_L by ((intros; lia) || apply lookup_delete_eq). lia.
Qed.

(** ** Runs *)

Fixpoint plays e (chk : Z -> bool) (acts : list action) w : option world :=
  match acts with
  | [] => Some w
  | act :: acts => w ← multi_step e chk act w; plays e chk acts w
  end.

Lemma plays_runs e chk acts : forall w w', runs e w -> plays e chk acts w = Some w' -> runs e w'.
Proof.
  induction acts as [|act acts IH]; intros w w' R E; cbn [plays] in E; [by injection E as <-|].
  destruct (multi_step e chk act w) as [w1|] eqn:X; [|done]. apply (IH w1); [by eapply runs_step|done].
Qed.

(** Two tables, and two threads that name them in opposite orders. *)
Definition ex_table : table := mk_table ex_lock ∅.
Definition ex_start : world := mk_world (<[100 := ex_table]> (<[200 := ex_table]> ∅)) ∅.
Definition ex_crossed : list action :=
  [Multi_lock 10 [mk_request 1 200 TL_WRITE; mk_request 1 100 TL_WRITE];
   Multi_lock 20 [mk_request 2 100 TL_WRITE; mk_request 2 200 TL_WRITE];
   Step 10 10; Step 20 20; Step 10 10].
Definition ex_world (acts : list action) : world :=
  default ex_start (plays ex_env (fun _ => false) acts ex_start).

Lemma ex_start_initial : initial ex_start.
Proof.
  split_and!; [|done|].
  - intros a b A B. cbn [tables ex_start] in *. rewrite !dom_insert_L, dom_empty_L in A, B. set_unfold.
    destruct A as [->|[->|[]]], B as [->|[->|[]]]; lia.
  - intros a t A. exists ex_datas, ex_rest, false, false, true, false. split; [done|].
    cbn [tables ex_start] in A. apply lookup_insert_Some in A as [(_ & <-)|(_ & A)]; [done|].
    apply lookup_insert_Some in A as [(_ & <-)|(_ & A)]; [done|]. by rewrite lookup_empty in A.
Qed.

Lemma ex_runs acts : runs ex_env (ex_world acts).
Proof.
  pose proof (runs_init ex_env _ ex_start_initial) as R. unfold ex_world.
  destruct (plays ex_env (fun _ => false) acts ex_start) as [w|] eqn:E; [|done].
  by apply (plays_runs ex_env (fun _ => false) acts ex_start).
Qed.

(** ** Properties *)

(** C20 Threads that take their locks with [thr_multi_lock] and give them back with
    [thr_multi_unlock], each call naming a table at most once ([may_start]), never
    deadlock, whatever order they name the tables in and however they interleave:
    as long as there is a thread, one of them can go on without a timeout; every
    step of a thread is one of the [total] steps that are left, so under any
    scheduler all of them finish.  A call that names a table twice can deadlock
    ([multi_lock_twice]). *)
Theorem multi_lock_no_deadlock e w :
  sane e -> runs e w ->
  (threads w <> ∅ -> forall chk, exists o act w',
     own o act /\ (forall b, act = Wake_up o b -> blocked w o = false) /\
     multi_step e chk act w = Some w') /\
  (forall chk o act w', own o act -> multi_step e chk act w = Some w' -> (total w' < total w)%nat).
Proof.
  intros U R. pose proof (runs_ok e w U R) as K. split.
  - intros N chk. destruct (some_unblocked e w K N) as (o & th & E & B).
    destruct (unblocked_moves e chk w o th U K E B) as (act & w' & O & X). by exists o, act, w'.
  - intros chk o act w' O X. destruct (own_ok e chk U o act w w' K O X) as (th & E & _ & A).
    by apply (advanced_total o th).
Qed.

Lemma multi_lock_no_deadlock_witness :
  blocked (ex_world ex_crossed) 20 = true /\
  exists o act w', own o act /\ (forall b, act = Wake_up o b -> blocked (ex_world ex_crossed) o = false) /\
    multi_step ex_env (fun _ => false) act (ex_world ex_crossed) = Some w'.
Proof.
  split; [vm_compute; reflexivity|].
  destruct (multi_lock_no_deadlock ex_env (ex_world ex_crossed)) as (M & _); [by left|apply ex_runs|].
  apply M. intros E. assert (N : is_Some (threads (ex_world ex_crossed) !! 20)).
  { apply (bool_decide_unpack _). vm_compute. exact I. }
  rewrite E, lookup_empty in N. by destruct N.
Defined.

(** The instance has the lock that was asked for: a read lock runs with its type,
    and a write lock with its type, as [TL_WRITE_ONLY] when it keeps everybody else
    out since, or with a stronger type for a concurrent insert. *)
Definition granted want (a : alock) d : Prop :=
  is_read want /\ d ∈ qs a read /\ type (inf a d) = want \/
  is_write want /\ d ∈ qs a write /\
    (type (inf a d) = want \/ type (inf a d) = TL_WRITE_ONLY \/
     want = TL_WRITE_CONCURRENT_INSERT /\ (type (inf a d) = TL_WRITE \/ type (inf a d) = TL_WRITE_LOW_PRIORITY)).

Lemma running_granted e s sl want d :
  state_ok e s sl -> typed want (type (inf (view s) d)) -> running (view s) d -> granted want (view s) d.
Proof.
  intros (_ & _ & C & _) T [R|R]; destruct (core_kind _ _ _ _ C _ _ R) as (K & _); [left|right].
  - unfold is_read in K. destruct T as [T|[T|[(_ & T)|(_ & [T|T])]]]; rewrite T in *; try (cbn in K; lia). by split_and!.
  - destruct T as [T|[T|[(W & T)|(E & T)]]].
    + rewrite T in K. destruct K as (K & _). cbn in K. lia.
    + rewrite <- T. split_and!; auto.
    + split_and!; auto.
    + subst want. split_and!; auto. by split.
Qed.

(** C21 After [thr_multi_lock] has returned success the thread has every lock of its
    array, with the type it asked for ([granted]); only a delayed insert may instead
    still be in the queue, or have been aborted there.  And every instance
    that is in a queue or asleep belongs to a thread inside its calls, so a call
    that fails leaves nothing behind. *)
Theorem multi_lock_all_or_nothing e w :
  sane e -> runs e w ->
  (forall o th r, threads w !! o = Some th -> doing th = Locked -> r ∈ array th ->
     exists t, tables w !! lock r = Some t /\ owner (inf (view (locked t)) (instance r)) = o /\
       (granted (wanted r) (view (locked t)) (instance r) \/
        wanted r = TL_WRITE_DELAYED /\
          (instance r ∈ qs (view (locked t)) write_wait \/ outside (view (locked t)) (instance r)))) /\
  (forall a t d, tables w !! a = Some t ->
     (exists q, d ∈ qs (view (locked t)) q) \/ is_Some (asleep t !! d) ->
     exists o th i r, threads w !! o = Some th /\ array th !! i = Some r /\ lock r = a /\ instance r = d /\
       stage_of th i <> Idle).
Proof.
  intros U R. pose proof (runs_ok e w U R) as [Sp T Th Di Co]. split.
  - intros o th r E Ph I. apply list_elem_of_lookup_1 in I as (i & I).
    destruct (thread_slots _ _ _ (Th o th E) i r I) as (t & A & (_ & S)). exists t. split; [done|].
    pose proof (thread_bounds _ _ _ (Th o th E)) as B. apply lookup_lt_Some in I.
    unfold bounds, stage_of in *. rewrite Ph in *. rewrite bool_decide_true in S by lia. destruct S as (Se & _ & Ow & Ty).
    split; [done|]. pose proof (fun H => running_granted e _ _ (wanted r) (instance r) (T _ _ A) Ty H) as G.
    destruct Se as [(Ru & _)|(W & [Ru|[(Ww & _)|(Ou & _)]])]; auto.
  - intros a t d A B. destruct (Co a t d A B) as (o & th & r & E & I & Lk & In).
    apply list_elem_of_lookup_1 in I as (i & I). exists o, th, i, r. split_and!; try done.
    destruct (thread_slots _ _ _ (Th o th E) i r I) as (t1 & A1 & (_ & S)).
    rewrite Lk, A in A1. injection A1 as <-. intros St. rewrite St, In in S. destruct S as (Ou & Na).
    destruct B as [(q & B)|(v & B)]; [by apply (Ou q)|congruence].
Qed.

Lemma multi_lock_all_or_nothing_witness :
  let w := ex_world (ex_crossed ++ [Step 10 10]) in
  option_map doing (threads w !! 10) = Some Locked /\
  exists t, tables w !! 200 = Some t /\ owner (inf (view (locked t)) 1) = 10 /\
    (granted TL_WRITE (view (locked t)) 1 \/
     TL_WRITE = TL_WRITE_DELAYED /\ (1 ∈ qs (view (locked t)) write_wait \/ outside (view (locked t)) 1)).
Proof.
  cbv zeta. split; [vm_compute; reflexivity|].
  destruct (threads (ex_world (ex_crossed ++ [Step 10 10])) !! 10) as [th|] eqn:E; [|vm_compute in E; discriminate E].
  assert (D : doing th = Locked /\ mk_request 1 200 TL_WRITE ∈ array th).
  { vm_compute in E. injection E as <-. split; [reflexivity|]. right. left. }
  destruct D as (D & I).
  apply (multi_lock_all_or_nothing ex_env _) with (r := mk_request 1 200 TL_WRITE) (th := th);
    [by left|apply ex_runs|exact E|exact D|exact I].
Defined.

(** Actions of threads without the conditions of [may_start]. *)
Fixpoint free_plays e (chk : Z -> bool) (acts : list action) w : option world :=
  match acts with
  | [] => Some w
  | act :: acts =>
      w ← match act with Multi_lock o data => thr_multi_lock o data w | _ => multi_step e chk act w end;
      free_plays e chk acts w
  end.

(** A call of [thr_multi_lock] may name a table twice in the C code.  Then it can
    wait for itself: while [10] and [20] have [TL_WRITE_ALLOW_WRITE] locks, [30] asks for
    [TL_WRITE] and waits; the second instance of [20] is put behind it, and when [10]
    is gone [20] and [30], the only threads left, wait for each other. *)
Theorem multi_lock_twice :
  option_map (fun w => (elements (dom (threads w)), blocked w 20, blocked w 30))
    (free_plays ex_env (fun _ => false)
       [Multi_lock 10 [mk_request 1 100 TL_WRITE_ALLOW_WRITE]; Step 10 10; Step 10 10;
        Multi_lock 20 [mk_request 2 100 TL_WRITE_ALLOW_WRITE; mk_request 4 100 TL_WRITE_ALLOW_WRITE]; Step 20 20;
        Multi_lock 30 [mk_request 3 100 TL_WRITE]; Step 30 30; Step 20 20;
        Multi_unlock 10; Step 10 10; Step 10 10] ex_start) =
  Some ([30; 20], true, true).
Proof. vm_compute. reflexivity. Qed.

End ThrMultiMain.
