(* ===== verification/Vio.v ===== *)
(** * Vio: the socket layer

    [vio/viosocket.c] on a Unix system.  What the kernel does is the argument: a [Vio] carries
    the results of the [read], [write] and [fcntl] calls to come, so that every way in which a
    connection can deliver its bytes in pieces, be interrupted or fail is a value of
    [rscript], [wscript] and [fscript].  [sent] are the bytes the kernel has taken. *)
From stdpp Require Import base tactics option list numbers.
From Stdlib Require Import ZArith Lia.
From S2P Require Import Prelude.

Module Vio.

(** ** Model *)

Definition EINTR : Z := 4.
Definition EAGAIN : Z := 11.
Definition EWOULDBLOCK : Z := 11.
Definition SOCKET_EINTR : Z := EINTR.
Definition SOCKET_EAGAIN : Z := EAGAIN.
Definition SOCKET_EWOULDBLOCK : Z := EWOULDBLOCK.
Definition SOCKET_ETIMEDOUT : Z := SOCKET_EINTR.
Definition VIO_READ_BUFFER_SIZE : Z := 16384.
Definition VIO_UNBUFFERED_READ_MIN_SIZE : Z := 2048.

(** The result of a [read] call: bytes that arrived, or an error number. *)
Inductive rd := Bytes (bs : list Z) | Rfail (e : Z).
(** The result of a [write] call: how many bytes the kernel is ready to take, or an error number. *)
Inductive wr := Takes (n : Z) | Wfail (e : Z).

Record Vio := mk_vio {
  sd : Z;
  (** [vio->fcntl_mode & O_NONBLOCK] *)
  nonblock : bool;
  (** the bytes from [read_pos] to [read_end] *)
  read_buffer : list Z;
  (** [vio->read] is [vio_read_buff] *)
  buffered : bool;
  rscript : list rd;
  wscript : list wr;
  fscript : list Z;
  sent : list Z;
  errno : Z;
}.

Definition set_reads (v : Vio) (b : list Z) (s : list rd) (e : Z) : Vio :=
  mk_vio (sd v) (nonblock v) b (buffered v) s (wscript v) (fscript v) (sent v) e.
Definition set_writes (v : Vio) (s : list wr) (out : list Z) (e : Z) : Vio :=
  mk_vio (sd v) (nonblock v) (read_buffer v) (buffered v) (rscript v) s (fscript v) out e.
Definition set_fcntl (v : Vio) (m : bool) (s : list Z) (e : Z) : Vio :=
  mk_vio (sd v) m (read_buffer v) (buffered v) (rscript v) (wscript v) s (sent v) e.

(** [read (sd, buf, size)]: the result, the bytes stored at [buf], the error number and the calls
    that follow.  Bytes that do not fit stay for the next call; at the end of the script the peer
    has closed the connection. *)
Definition sys_read (s : list rd) (size : Z) : Z * list Z * Z * list rd :=
  match s with
  | [] => (0, [], 0, [])
  | Rfail e :: s => (-1, [], e, s)
  | Bytes bs :: s =>
      if bool_decide (Z.of_nat (length bs) <= size) then (Z.of_nat (length bs), bs, 0, s)
      else (size, take (Z.to_nat size) bs, 0, Bytes (drop (Z.to_nat size) bs) :: s)
  end.

Definition vio_read (v : Vio) (size : Z) : Z * list Z * Vio :=
  let '(r, bs, e, s) := sys_read (rscript v) size in
  (r, bs, set_reads v (read_buffer v) s e).

Definition vio_read_buff (v : Vio) (size : Z) : Z * list Z * Vio :=
  if bool_decide (read_buffer v <> []) then
    let rc := Z.min (Z.of_nat (length (read_buffer v))) size in
    (rc, take (Z.to_nat rc) (read_buffer v), set_reads v (drop (Z.to_nat rc) (read_buffer v)) (rscript v) (errno v))
  else if bool_decide (size < VIO_UNBUFFERED_READ_MIN_SIZE) then
    let '(rc, bs, v) := vio_read v VIO_READ_BUFFER_SIZE in
    if bool_decide (rc <> 0) && bool_decide (rc <> -1) then
      if bool_decide (rc > size)
      then (size, take (Z.to_nat size) bs, set_reads v (drop (Z.to_nat size) bs) (rscript v) (errno v))
      else (rc, bs, v)
    else (rc, [], v)
  else vio_read v size.

(** The macro [vio_read]: the function pointer [vio->read]. *)
Definition vio_do_read (v : Vio) (size : Z) : Z * list Z * Vio :=
  if buffered v then vio_read_buff v size else vio_read v size.

(** [write (sd, buf, size)] *)
Definition vio_write (v : Vio) (bs : list Z) : Z * Vio :=
  match wscript v with
  | [] => (Z.of_nat (length bs), set_writes v [] (sent v ++ bs) (errno v))
  | Wfail e :: s => (-1, set_writes v s (sent v) e)
  | Takes n :: s =>
      let r := Z.min (Z.max n 0) (Z.of_nat (length bs)) in
      (r, set_writes v s (sent v ++ take (Z.to_nat r) bs) (errno v))
  end.

Definition vio_is_blocking (v : Vio) : bool := negb (nonblock v).

(** The result and the old mode. *)
Definition vio_blocking (v : Vio) (set_blocking_mode : bool) : Z * bool * Vio :=
  let old_mode := negb (nonblock v) in
  if bool_decide (sd v >= 0) then
    let mode := negb set_blocking_mode in
    if bool_decide (mode <> nonblock v) then
      match fscript v with
      | [] => (0, old_mode, set_fcntl v mode [] (errno v))
      | e :: s => if bool_decide (e = 0) then (0, old_mode, set_fcntl v mode s (errno v))
                  else (-1, old_mode, set_fcntl v (nonblock v) s e)
      end
    else (0, old_mode, v)
  else (0, old_mode, v).

Definition vio_should_retry (v : Vio) : bool :=
  bool_decide (errno v = SOCKET_EAGAIN) || bool_decide (errno v = SOCKET_EINTR) || bool_decide (errno v = SOCKET_EWOULDBLOCK).

Definition vio_was_interrupted (v : Vio) : bool :=
  vio_should_retry v || bool_decide (errno v = SOCKET_ETIMEDOUT).

(** ** The stream of bytes *)

(** What the peer sent and was not yet returned. *)
Definition arriving (s : list rd) : list Z := concat ((fun r => match r with Bytes bs => bs | Rfail _ => [] end) <$> s).
Definition pending (v : Vio) : list Z := read_buffer v ++ arriving (rscript v).

(** The kernel delivers bytes or is interrupted by a signal. *)
Definition healthy (s : list rd) : Prop :=
  Forall (fun r => match r with Bytes bs => bs <> [] | Rfail e => e = EINTR end) s.

Lemma sys_read_spec s size r bs e s' :
  0 < size -> sys_read s size = (r, bs, e, s') -> healthy s ->
  healthy s' /\ (length s' <= length s)%nat /\ arriving s = bs ++ arriving s' /\
  (0 < r /\ r = Z.of_nat (length bs) /\ r <= size \/
   r = -1 /\ bs = [] /\ e = EINTR /\ (length s' < length s)%nat \/ r = 0 /\ s = [] /\ bs = []).
Proof.
  intros Hsz E Hh. destruct s as [| [d | e'] s]; cbn in E.
  - injection E as <- <- <- <-. split_and!; [done.. | right; right; done].
  - inversion Hh as [| ? ? Hd Hs]; subst. case_bool_decide as Hl; injection E as <- <- <- <-.
    + split_and!; [done | cbn; lia | done |]. left. destruct d; [done |]. cbn [length] in *. lia.
    + split_and!; [| cbn; lia | |].
      * constructor; [| done]. intros Hn. apply (f_equal length) in Hn. rewrite length_drop in Hn. cbn in Hn. lia.
      * cbn. rewrite app_assoc, take_drop. done.
      * left. rewrite length_take. lia.
  - inversion Hh as [| ? ? Hd Hs]; subst. injection E as <- <- <- <-. split_and!; [done | cbn; lia | done |]. right. left. cbn. split_and!; (done || lia).
Qed.

(** Everything but the reading side is the same. *)
Definition same_output (v v' : Vio) : Prop :=
  sd v' = sd v /\ nonblock v' = nonblock v /\ buffered v' = buffered v /\ wscript v' = wscript v /\
  fscript v' = fscript v /\ sent v' = sent v.

Ltac vio_triv := solve [lia | done | cbn in *; lia | cbn in *; auto].

Lemma same_output_trans a b c : same_output a b -> same_output b c -> same_output a c.
Proof. unfold same_output. intros H1 H2. intuition congruence. Qed.

(** Whatever the kernel does: a call stores as many bytes as it says, at most [size]. *)
Lemma sys_read_bounds s size r bs e s' :
  0 < size -> sys_read s size = (r, bs, e, s') ->
  -1 <= r <= size /\ Z.of_nat (length bs) = Z.max r 0 /\ (length s' <= length s)%nat /\
  (r <= 0 -> (length s' < length s)%nat \/ s = [] /\ r = 0 /\ e = 0).
Proof.
  intros Hsz E. destruct s as [| [d | e'] s]; cbn in E.
  - injection E as <- <- <- <-. cbn. split_and!; try lia. auto.
  - case_bool_decide as Hl; injection E as <- <- <- <-; cbn [length].
    + split_and!; lia.
    + rewrite length_take. split_and!; lia.
  - injection E as <- <- <- <-. cbn. split_and!; lia.
Qed.

Lemma vio_read_bounds v size r bs v' :
  0 < size -> vio_do_read v size = (r, bs, v') ->
  -1 <= r <= size /\ Z.of_nat (length bs) = Z.max r 0 /\ same_output v v' /\ (length (rscript v') <= length (rscript v))%nat /\
  (r <= 0 -> (length (rscript v') < length (rscript v))%nat \/ rscript v = [] /\ r = 0 /\ errno v' = 0).
Proof.
  intros Hsz. unfold vio_do_read, vio_read_buff, vio_read.
  assert (Hplain : forall z, 0 < z -> (let '(r, bs, e, s) := sys_read (rscript v) z in (r, bs, set_reads v (read_buffer v) s e)) = (r, bs, v') ->
    -1 <= r <= z /\ Z.of_nat (length bs) = Z.max r 0 /\ same_output v v' /\ (length (rscript v') <= length (rscript v))%nat /\
    (r <= 0 -> (length (rscript v') < length (rscript v))%nat \/ rscript v = [] /\ r = 0 /\ errno v' = 0)).
  { intros z Hz. destruct (sys_read (rscript v) z) as [[[r0 bs0] e0] s0] eqn:E. intros [= <- <- <-].
    apply sys_read_bounds in E as (? & ? & ? & ?); [| done]. split_and!; vio_triv. }
  destruct (buffered v); [| by apply Hplain]. case_bool_decide as Hb.
  - intros [= <- <- <-]. assert (0 < Z.of_nat (length (read_buffer v))) by (destruct (read_buffer v); [done | cbn; lia]).
    rewrite length_take. split_and!; vio_triv.
  - case_bool_decide as Hs; [| by apply Hplain].
    destruct (sys_read (rscript v) VIO_READ_BUFFER_SIZE) as [[[r0 bs0] e0] s0] eqn:E.
    apply sys_read_bounds in E as (Hr & Hl & Hle & Hz); [| done].
    destruct (bool_decide (r0 <> 0) && bool_decide (r0 <> -1)) eqn:Ht.
    + apply andb_true_iff in Ht as [H1%bool_decide_eq_true H2%bool_decide_eq_true].
      case_bool_decide; intros [= <- <- <-]; rewrite ?length_take; (split_and!; vio_triv).
    + apply andb_false_iff in Ht. assert (r0 <= 0) by (destruct Ht as [H1%bool_decide_eq_false | H1%bool_decide_eq_false]; lia).
      intros [= <- <- <-]. split_and!; vio_triv.
Qed.

(** A reader that has only read through [vio_do_read]. *)
Definition vio_ok (v : Vio) : Prop := healthy (rscript v) /\ (buffered v = false -> read_buffer v = []).

Lemma vio_read_plain v size r bs v' :
  0 < size -> vio_read v size = (r, bs, v') -> healthy (rscript v) -> read_buffer v = [] ->
  healthy (rscript v') /\ read_buffer v' = [] /\ arriving (rscript v) = bs ++ arriving (rscript v') /\
  (0 < r /\ r = Z.of_nat (length bs) /\ r <= size \/
   r = -1 /\ bs = [] /\ errno v' = EINTR /\ (length (rscript v') < length (rscript v))%nat \/ r = 0 /\ arriving (rscript v) = [] /\ bs = []).
Proof.
  intros Hsz E Hh Hb. unfold vio_read in E. destruct (sys_read (rscript v) size) as [[[r0 bs0] e0] s0] eqn:E1.
  injection E as <- <- <-. apply sys_read_spec in E1 as (Hh' & _ & Har & Hcase); [| done | done].
  split_and!; [done | done | done |]. destruct Hcase as [? | [? | (-> & Hnil & ->)]]; [by left | by right; left | right; right].
  by rewrite Hnil.
Qed.

Lemma vio_read_stream v size r bs v' :
  0 < size -> vio_do_read v size = (r, bs, v') -> vio_ok v ->
  vio_ok v' /\ pending v = bs ++ pending v' /\
  (0 < r \/ r = -1 /\ bs = [] /\ errno v' = EINTR /\ (length (rscript v') < length (rscript v))%nat \/ r = 0 /\ pending v = [] /\ bs = []).
Proof.
  intros Hsz E [Hh Hbuf]. unfold vio_do_read, vio_ok, pending in *.
  assert (Hplain : read_buffer v = [] -> vio_read v size = (r, bs, v') ->
    (healthy (rscript v') /\ (buffered v' = false -> read_buffer v' = [])) /\
    read_buffer v ++ arriving (rscript v) = bs ++ read_buffer v' ++ arriving (rscript v') /\
    (0 < r \/ r = -1 /\ bs = [] /\ errno v' = EINTR /\ (length (rscript v') < length (rscript v))%nat \/
     r = 0 /\ read_buffer v ++ arriving (rscript v) = [] /\ bs = [])).
  { intros Hne E1. apply vio_read_plain in E1 as (H1 & H2 & H3 & H4); [| done..]. rewrite Hne, H2. cbn [app]. tauto. }
  destruct (buffered v) eqn:Hb; [| by auto]. unfold vio_read_buff in E. case_bool_decide as Hne.
  - injection E as <- <- <-. cbn. rewrite Hb. split_and!; [done | done | by rewrite app_assoc, take_drop |].
    left. assert (0 < Z.of_nat (length (read_buffer v))) by (destruct (read_buffer v); [done | cbn; lia]). lia.
  - case_bool_decide as Hs; [clear Hplain | by auto].
    destruct (vio_read v VIO_READ_BUFFER_SIZE) as [[r0 bs0] v0] eqn:E1.
    pose proof E1 as E2. unfold vio_read in E2. destruct (sys_read (rscript v) VIO_READ_BUFFER_SIZE) as [[[? ?] ?] ?]. injection E2 as _ _ E2.
    assert (Hb0 : buffered v0 = true) by (by rewrite <- E2). clear E2.
    apply vio_read_plain in E1 as (Hh' & Hnb & Har & Hcase); [| done..]. rewrite Har, Hne. cbn [app].
    destruct Hcase as [(Hr & Hl & Hle2) | [(-> & -> & He & Hlt) | (-> & Hnil & ->)]].
    + rewrite !bool_decide_true in E by lia. cbn [andb] in E. case_bool_decide; injection E as <- <- <-; cbn.
      * split_and!; [done | by rewrite Hb0 | by rewrite app_assoc, take_drop | left; lia].
      * rewrite Hb0, Hnb. split_and!; [done | done | done | left; lia].
    + injection E as <- <- <-. rewrite Hb0, Hnb. split_and!; [done | done | done | right; left; done].
    + injection E as <- <- <-. rewrite Hb0, Hnb. split_and!; [done | done | done |]. right. right. by rewrite <- Har.
Qed.

(** ** Writes *)

(** The kernel takes at least one byte or is interrupted. *)
Definition accepting (s : list wr) : Prop := Forall (fun w => match w with Takes n => 0 < n | Wfail e => e = EINTR end) s.

Lemma vio_write_stream v bs r v' :
  vio_write v bs = (r, v') -> bs <> [] -> accepting (wscript v) ->
  accepting (wscript v') /\
  (exists n, r = Z.of_nat n /\ (0 < n <= length bs)%nat /\ sent v' = sent v ++ take n bs \/
     r = -1 /\ errno v' = EINTR /\ sent v' = sent v /\ (length (wscript v') < length (wscript v))%nat) /\
  (length (wscript v') <= length (wscript v))%nat.
Proof.
  intros E Hne Ha. assert (0 < length bs)%nat by (destruct bs; [done | cbn; lia]). unfold vio_write in E.
  destruct (wscript v) as [| [n | e] s] eqn:Ew; inversion Ha as [| ? ? H1 H2]; subst; injection E as <- <-; cbn.
  - split_and!; [done | | lia]. exists (length bs). left. rewrite firstn_all. split_and!; (done || lia).
  - split_and!; [done | | lia]. exists (Z.to_nat (Z.min (Z.max n 0) (Z.of_nat (length bs)))). left. split_and!; (done || lia).
  - split_and!; [done | | lia]. exists 0%nat. right. split_and!; (done || lia).
Qed.

Lemma vio_write_bounds v bs r v' :
  vio_write v bs = (r, v') -> -1 <= r <= Z.of_nat (length bs) /\ (length (wscript v') <= length (wscript v))%nat /\
  (r <= 0 -> bs <> [] -> (length (wscript v') < length (wscript v))%nat).
Proof.
  intros E. unfold vio_write in E. destruct (wscript v) as [| [n | e] s] eqn:Ew; injection E as <- <-; cbn; split_and!; try lia.
  intros Hr Hne. destruct bs; [done | cbn in Hr; lia].
Qed.

(** Setting the blocking mode changes nothing of the stream. *)
Lemma vio_blocking_same v b r o v' : vio_blocking v b = (r, o, v') ->
  rscript v' = rscript v /\ read_buffer v' = read_buffer v /\ buffered v' = buffered v /\ wscript v' = wscript v /\ sent v' = sent v /\
  (r = 0 \/ r = -1) /\ (length (fscript v') <= length (fscript v))%nat /\ (r = -1 -> (length (fscript v') < length (fscript v))%nat).
Proof.
  unfold vio_blocking. intros E. repeat case_bool_decide; [| injection E as <- <- <-; split_and!; (done || auto; lia) ..].
  destruct (fscript v) as [| e s] eqn:Ef; [| case_bool_decide]; injection E as <- <- <-; cbn; rewrite ?Ef; cbn; split_and!; (done || auto; lia).
Qed.

End Vio.
