(* ===== verification/Compress.v ===== *)
(** * Compress: compression of packets

    [my_compress], [my_compress_alloc] and [my_uncompress] of [mysys/my_compress.c].  The
    functions [compress] and [uncompress] of zlib and [my_malloc] are parameters: [inl]
    is [Z_OK] and what was written to the destination, [inr] an error and what
    was left in [*destLen]. *)
From stdpp Require Import base tactics option list numbers.
From Stdlib Require Import ZArith Lia.
From S2P Require Import Prelude.

Module Compress.

Definition MIN_COMPRESS_LENGTH : Z := 50.

Section Zlib.
Context (my_malloc : Z -> option (list Z)).
Context (zcompress zuncompress : Z -> list Z -> list Z + Z).

(** The new block when there is one, [*len] and [*complen]. *)
Definition my_compress_alloc (packet : list Z) : option (list Z) * Z * Z :=
  let len := Z.of_nat (length packet) in
  let complen := u32 (u32 (len * 120) / 100 + 12) in
  match my_malloc complen with
  | None => (None, len, complen)
  | Some _ =>
      match zcompress complen packet with
      | inr destLen => (None, len, destLen)
      | inl out =>
          let complen := Z.of_nat (length out) in
          if bool_decide (complen >= len) then (None, len, 0) else (Some out, complen, len)
      end
  end.

(** The result, the packet, whose length is [*len], and [*complen]. *)
Definition my_compress (packet : list Z) : bool * list Z * Z :=
  if bool_decide (Z.of_nat (length packet) < MIN_COMPRESS_LENGTH) then (false, packet, 0)
  else
    match my_compress_alloc packet with
    | (None, _, complen) => (bool_decide (complen = 0), packet, complen)
    | (Some compbuf, len, complen) => (false, take (Z.to_nat len) compbuf, complen)
    end.

(** The result, the data at [packet], and [*complen]. *)
Definition my_uncompress (packet : list Z) (complen : Z) : bool * list Z * Z :=
  if bool_decide (complen <> 0) then
    match my_malloc complen with
    | None => (true, packet, complen)
    | Some _ =>
        match zuncompress complen packet with
        | inr destLen => (true, packet, destLen)
        | inl out => (false, out, Z.of_nat (length out))
        end
    end
  else (false, packet, Z.of_nat (length packet)).

(** ** Round trip *)

(** What zlib documents: data that was compressed without an error uncompresses into the
    same data when there is room for it; the output fits the space given and is never
    empty, since a zlib stream has a header. *)
Definition zlib_ok : Prop :=
  (forall n bs out, zcompress n bs = inl out -> 0 < Z.of_nat (length out) <= n) /\
  (forall n bs out, zuncompress n bs = inl out -> Z.of_nat (length out) <= n) /\
  (forall n m bs out, zcompress n bs = inl out -> Z.of_nat (length bs) <= m -> zuncompress m out = inl bs).

(** Compression has the memory and the space it needs. *)
Definition compress_works (bs : list Z) : Prop :=
  let len := Z.of_nat (length bs) in
  exists out, zcompress (u32 (u32 (len * 120) / 100 + 12)) bs = inl out.

Definition malloc_works : Prop := forall n, exists b, my_malloc n = Some b.

Lemma my_compress_roundtrip packet err body complen :
  zlib_ok -> malloc_works -> compress_works packet -> my_compress packet = (err, body, complen) ->
  let complen := if err then 0 else complen in
  (length body <= length packet)%nat /\ (packet <> [] -> body <> []) /\
  (complen = 0 /\ body = packet \/ complen = Z.of_nat (length packet)) /\
  my_uncompress body complen = (false, packet, Z.of_nat (length packet)).
Proof.
  intros (Hz1 & Hz2 & Hz3) Hm (out & Hout) E. unfold my_compress, my_compress_alloc in E.
  assert (Hraw : my_uncompress packet 0 = (false, packet, Z.of_nat (length packet))) by (unfold my_uncompress; by rewrite bool_decide_false by lia).
  case_bool_decide as Hl; [injection E as <- <- <-; split_and!; auto |].
  destruct (Hm (u32 (u32 (Z.of_nat (length packet) * 120) / 100 + 12))) as [b Hb]. rewrite Hb, Hout in E.
  case_bool_decide as Hlen; injection E as <- <- <-; [split_and!; auto |]. rewrite Nat2Z.id, firstn_all. cbv zeta.
  apply Hz1 in Hout as Hne. split_and!; [lia | intros _ ->; cbn in Hne; lia | by right |].
  unfold my_uncompress, MIN_COMPRESS_LENGTH in *. rewrite bool_decide_true by lia.
  destruct (Hm (Z.of_nat (length packet))) as [b' ->]. by rewrite (Hz3 _ _ _ _ Hout).
Qed.

End Zlib.

End Compress.
