(* ===== verification/Net.v ===== *)
(** * Net: packets of the client protocol

    [libmysql/net_serv.c] of the client library ([NO_ALARM], [THREAD_SAFE_CLIENT], Unix,
    [HAVE_COMPRESS]) without the compressed branch of [my_net_read].  Pointers into
    [net->buff] are offsets; [buff] is the whole block, [max_packet + 7] bytes,
    and [None] is an access outside of it.  With [DONT_USE_THR_ALARM] an alarm is a flag. *)
From stdpp Require Import base tactics option list numbers.
From Stdlib Require Import ZArith Lia.
From S2P Require Import Prelude.
From S2P Require Import Pack.
From S2P Require Import Vio.
From S2P Require Import Compress.

Module Net.
Import Pack Vio Compress.

(** ** Data *)

Definition MAX_PACKET_LENGTH : Z := 256 * 256 * 256 - 1.
Definition NET_HEADER_SIZE : Z := 4.
Definition COMP_HEADER_SIZE : Z := 3.
Definition IO_SIZE : Z := 4096.
Definition packet_error : Z := 2 ^ 32 - 1.
Definition ER_OUT_OF_RESOURCES : Z := 1041.
Definition ER_NET_PACKET_TOO_LARGE : Z := 1153.
Definition ER_NET_FCNTL_ERROR : Z := 1155.
Definition ER_NET_READ_ERROR : Z := 1158.
Definition ER_NET_READ_INTERRUPTED : Z := 1159.
Definition ER_NET_ERROR_ON_WRITE : Z := 1160.
Definition ER_NET_WRITE_INTERRUPTED : Z := 1161.

Record NET := mk_net {
  vio : option Vio;
  buff : list Z;
  write_pos : Z;
  read_pos : Z;
  remain_in_buf : Z;
  buf_length : Z;
  where_b : Z;
  max_packet : Z;
  max_packet_size : Z;
  pkt_nr : Z;
  compress_pkt_nr : Z;
  retry_count : Z;
  reading_or_writing : Z;
  save_char : Z;
  compress : bool;
  last_errno : Z;
  error : Z;
}.

Definition set_vio (n : NET) (v : Vio) : NET :=
  mk_net (Some v) (buff n) (write_pos n) (read_pos n) (remain_in_buf n) (buf_length n) (where_b n) (max_packet n)
    (max_packet_size n) (pkt_nr n) (compress_pkt_nr n) (retry_count n) (reading_or_writing n) (save_char n) (compress n) (last_errno n) (error n).
Definition set_buff (n : NET) (b : list Z) : NET :=
  mk_net (vio n) b (write_pos n) (read_pos n) (remain_in_buf n) (buf_length n) (where_b n) (max_packet n)
    (max_packet_size n) (pkt_nr n) (compress_pkt_nr n) (retry_count n) (reading_or_writing n) (save_char n) (compress n) (last_errno n) (error n).
Definition set_write_pos (n : NET) (p : Z) : NET :=
  mk_net (vio n) (buff n) p (read_pos n) (remain_in_buf n) (buf_length n) (where_b n) (max_packet n)
    (max_packet_size n) (pkt_nr n) (compress_pkt_nr n) (retry_count n) (reading_or_writing n) (save_char n) (compress n) (last_errno n) (error n).
Definition set_read_pos (n : NET) (p : Z) : NET :=
  mk_net (vio n) (buff n) (write_pos n) p (remain_in_buf n) (buf_length n) (where_b n) (max_packet n)
    (max_packet_size n) (pkt_nr n) (compress_pkt_nr n) (retry_count n) (reading_or_writing n) (save_char n) (compress n) (last_errno n) (error n).
Definition set_where_b (n : NET) (p : Z) : NET :=
  mk_net (vio n) (buff n) (write_pos n) (read_pos n) (remain_in_buf n) (buf_length n) p (max_packet n)
    (max_packet_size n) (pkt_nr n) (compress_pkt_nr n) (retry_count n) (reading_or_writing n) (save_char n) (compress n) (last_errno n) (error n).
Definition set_alloc (n : NET) (b : list Z) (size : Z) : NET :=
  mk_net (vio n) b 0 (read_pos n) (remain_in_buf n) (buf_length n) (where_b n) size
    (max_packet_size n) (pkt_nr n) (compress_pkt_nr n) (retry_count n) (reading_or_writing n) (save_char n) (compress n) (last_errno n) (error n).
Definition set_pkt_nr (n : NET) (p c : Z) : NET :=
  mk_net (vio n) (buff n) (write_pos n) (read_pos n) (remain_in_buf n) (buf_length n) (where_b n) (max_packet n)
    (max_packet_size n) p c (retry_count n) (reading_or_writing n) (save_char n) (compress n) (last_errno n) (error n).
Definition set_rw (n : NET) (r : Z) : NET :=
  mk_net (vio n) (buff n) (write_pos n) (read_pos n) (remain_in_buf n) (buf_length n) (where_b n) (max_packet n)
    (max_packet_size n) (pkt_nr n) (compress_pkt_nr n) (retry_count n) r (save_char n) (compress n) (last_errno n) (error n).
Definition set_error (n : NET) (e code : Z) : NET :=
  mk_net (vio n) (buff n) (write_pos n) (read_pos n) (remain_in_buf n) (buf_length n) (where_b n) (max_packet n)
    (max_packet_size n) (pkt_nr n) (compress_pkt_nr n) (retry_count n) (reading_or_writing n) (save_char n) (compress n) code e.
Definition set_stream (n : NET) (remain len c : Z) : NET :=
  mk_net (vio n) (buff n) (write_pos n) (read_pos n) remain len (where_b n) (max_packet n)
    (max_packet_size n) (pkt_nr n) (compress_pkt_nr n) (retry_count n) (reading_or_writing n) c (compress n) (last_errno n) (error n).

(** ** The alarm *)

(** [while (vio_blocking(net->vio, TRUE, &old_mode) < 0)]: whether it ended by itself, and [retry_count]. *)
Fixpoint blocking_loop (fuel : nat) (n : NET) (retry : Z) : option (bool * NET * Z) :=
  match fuel with
  | O => None
  | S fuel =>
      v ← vio n;
      let '(r, _, v) := vio_blocking v true in
      let n := set_vio n v in
      if bool_decide (r < 0) then
        if vio_should_retry v then
          if bool_decide (retry < retry_count n) then blocking_loop fuel n (retry + 1) else Some (false, n, retry + 1)
        else Some (false, n, retry)
      else Some (true, n, retry)
  end.

Definition set_blocking (n : NET) (retry : Z) : option (bool * NET * Z) :=
  v ← vio n; blocking_loop (S (length (fscript v))) n retry.

(** The end of [net_real_write] and [my_real_read]. *)
Definition end_alarm (n : NET) (alarmed net_blocking : bool) : option NET :=
  if alarmed then
    v ← vio n; let '(_, _, v) := vio_blocking v net_blocking in Some (set_vio n v)
  else Some n.

(** ** Writing *)

(** The loop of [net_real_write]: the bytes left, the packet when [pos == end], and the alarm. *)
Fixpoint write_loop (fuel : nat) (n : NET) (data : list Z) (retry : Z) (alarmed : bool)
  : option (list Z * NET * bool) :=
  match fuel with
  | O => None
  | S fuel =>
      if bool_decide (data = []) then Some ([], n, alarmed)
      else
        v ← vio n;
        let '(r, v) := vio_write v data in
        let n := set_vio n v in
        if bool_decide (r <= 0) then
          let interrupted := vio_should_retry v in
          if (interrupted || bool_decide (r = 0)) && negb alarmed then
            '(ok, n, retry) ← set_blocking n retry;
            if ok : bool then write_loop fuel n data 0 true
            else Some (data, set_error n 2 ER_NET_PACKET_TOO_LARGE, true)
          else if alarmed && interrupted && bool_decide (retry < retry_count n)
          then write_loop fuel n data (retry + 1) alarmed
          else
            let retry := if alarmed && interrupted then retry + 1 else retry in
            if bool_decide (errno v = SOCKET_EINTR) then write_loop fuel n data retry alarmed
            else Some (data, set_error n 2 (if interrupted then ER_NET_WRITE_INTERRUPTED else ER_NET_ERROR_ON_WRITE), alarmed)
        else write_loop fuel n (drop (Z.to_nat r) data) retry alarmed
  end.

Section Packets.
(** [my_malloc (size)], the new block, [my_realloc (block, size)], and the two functions of zlib. *)
Context (my_malloc : Z -> option (list Z)) (my_realloc : list Z -> Z -> option (list Z)).
Context (zcompress zuncompress : Z -> list Z -> list Z + Z).

(** The packet with a header, as it goes to the socket. *)
Definition compressed_packet (n : NET) (packet : list Z) : option (list Z * NET) :=
  let len := Z.of_nat (length packet) in
  match my_malloc (len + NET_HEADER_SIZE + COMP_HEADER_SIZE) with
  | None => None
  | Some b =>
      let '(err, body, complen) := my_compress my_malloc zcompress packet in
      let complen := if err : bool then 0 else complen in
      let body := if err : bool then packet else body in
      Some (int3store (Z.of_nat (length body)) ++ [u8 (compress_pkt_nr n)] ++ int3store complen ++ body,
            set_pkt_nr n (pkt_nr n) (u32 (compress_pkt_nr n + 1)))
  end.

Definition net_real_write (n : NET) (packet : list Z) : option (Z * NET) :=
  v ← vio n;
  let net_blocking := vio_is_blocking v in
  if bool_decide (error n = 2) then Some (-1, n)
  else
    let n := set_rw n 2 in
    match (if compress n then compressed_packet n packet else Some (packet, n)) with
    | None => Some (1, set_rw (set_error n 2 ER_OUT_OF_RESOURCES) 0)
    | Some (data, n) =>
        '(rest, n, alarmed) ← write_loop (S (length data + length (wscript v))) n data 0 false;
        n ← end_alarm n alarmed net_blocking;
        Some (if bool_decide (rest = []) then 0 else 1, set_rw n 0)
    end.

(** [while (len > left_length)] with compression: an error flag and the data left. *)
Fixpoint write_big (fuel : nat) (n : NET) (packet : list Z) : option (bool * list Z * NET) :=
  match fuel with
  | O => None
  | S fuel =>
      if bool_decide (Z.of_nat (length packet) > MAX_PACKET_LENGTH) then
        '(r, n) ← net_real_write n (take (Z.to_nat MAX_PACKET_LENGTH) packet);
        if bool_decide (r <> 0) then Some (true, packet, n)
        else write_big fuel n (drop (Z.to_nat MAX_PACKET_LENGTH) packet)
      else Some (false, packet, n)
  end.

(** The first part of [net_write_buff] for a packet that does not fit: fill and send the buffer. *)
Definition fill_buff (n : NET) (packet : list Z) (left_length : Z) : option (bool * list Z * NET) :=
  if bool_decide (write_pos n <> 0) then
    b ← write (buff n) (write_pos n) (take (Z.to_nat left_length) packet);
    let n := set_buff n b in
    full ← read (buff n) 0 (write_pos n + left_length);
    '(r, n) ← net_real_write n full;
    if bool_decide (r <> 0) then Some (true, packet, n)
    else Some (false, drop (Z.to_nat left_length) packet, set_write_pos n 0)
  else Some (false, packet, n).

Definition buffer_packet (n : NET) (packet : list Z) : option (bool * NET) :=
  b ← write (buff n) (write_pos n) packet;
  Some (false, set_write_pos (set_buff n b) (write_pos n + Z.of_nat (length packet))).

Definition net_write_buff (n : NET) (packet : list Z) : option (bool * NET) :=
  let left_length :=
    if compress n && bool_decide (max_packet n > MAX_PACKET_LENGTH)
    then u32 (MAX_PACKET_LENGTH - write_pos n) else u32 (max_packet n - write_pos n) in
  if bool_decide (Z.of_nat (length packet) > left_length) then
    '(err, packet, n) ← fill_buff n packet left_length;
    if err : bool then Some (true, n)
    else
      '(err, packet, n) ←
        (if compress n then write_big (S (length packet)) n packet else Some (false, packet, n));
      if err : bool then Some (true, n)
      else if bool_decide (Z.of_nat (length packet) > max_packet n) then
        '(r, n) ← net_real_write n packet; Some (bool_decide (r <> 0), n)
      else buffer_packet n packet
  else buffer_packet n packet.

Definition net_flush (n : NET) : option (bool * NET) :=
  '(err, n) ←
    (if bool_decide (write_pos n <> 0) then
       data ← read (buff n) 0 (write_pos n);
       '(r, n) ← net_real_write n data;
       Some (bool_decide (r <> 0), set_write_pos n 0)
     else Some (false, n));
  Some (err, if compress n then set_pkt_nr n (compress_pkt_nr n) (compress_pkt_nr n) else n).

(** The header of a packet, and [net->pkt_nr++]. *)
Definition packet_header (n : NET) (len : Z) : list Z * NET :=
  (int3store len ++ [u8 (pkt_nr n)], set_pkt_nr n (u32 (pkt_nr n + 1)) (compress_pkt_nr n)).

(** One packet: the header, then the data. *)
Definition write_packet (n : NET) (head data : list Z) : option (bool * NET) :=
  '(err, n) ← net_write_buff n head;
  if err : bool then Some (true, n) else net_write_buff n data.

Fixpoint write_packets (fuel : nat) (n : NET) (packet : list Z) : option (bool * NET) :=
  match fuel with
  | O => None
  | S fuel =>
      if bool_decide (Z.of_nat (length packet) >= MAX_PACKET_LENGTH) then
        let '(head, n) := packet_header n MAX_PACKET_LENGTH in
        '(err, n) ← write_packet n head (take (Z.to_nat MAX_PACKET_LENGTH) packet);
        if err : bool then Some (true, n) else write_packets fuel n (drop (Z.to_nat MAX_PACKET_LENGTH) packet)
      else
        let '(head, n) := packet_header n (Z.of_nat (length packet)) in
        write_packet n head packet
  end.

Definition my_net_write (n : NET) (packet : list Z) : option (bool * NET) :=
  match vio n with
  | None => Some (false, n)
  | Some _ => write_packets (S (length packet)) n packet
  end.

(** The [do] loop of [net_write_command]; [cmd] is the command byte and [header] the header
    as long as they are to be written. *)
Fixpoint command_loop (fuel : nat) (n : NET) (cmd header packet : list Z) (len : Z)
  : option (bool * list Z * list Z * list Z * Z * NET) :=
  match fuel with
  | O => None
  | S fuel =>
      let '(head, n) := packet_header n MAX_PACKET_LENGTH in
      data ← read packet 0 (u32 (MAX_PACKET_LENGTH - Z.of_nat (length cmd) - Z.of_nat (length header)));
      '(err, n) ← net_write_buff n (head ++ cmd);
      '(err, n) ← (if err : bool then Some (true, n) else net_write_buff n header);
      '(err, n) ← (if err : bool then Some (true, n) else net_write_buff n data);
      if err : bool then Some (true, cmd, header, packet, len, n)
      else
        let packet := drop (length data) packet in
        let len := u32 (len - MAX_PACKET_LENGTH) in
        if bool_decide (len >= MAX_PACKET_LENGTH) then command_loop fuel n [] [] packet len
        else Some (false, [], [], packet, len, n)
  end.

Definition net_write_command (n : NET) (command : Z) (header packet : list Z) : option (bool * NET) :=
  let len := u32 (Z.of_nat (length packet) + 1 + Z.of_nat (length header)) in
  '(err, cmd, header, packet, len, n) ←
    (if bool_decide (len >= MAX_PACKET_LENGTH)
     then command_loop (S (length packet)) n [u8 command] header packet len
     else Some (false, [u8 command], header, packet, len, n));
  if err : bool then Some (true, n)
  else
    let '(head, n) := packet_header n len in
    '(err, n) ← net_write_buff n (head ++ cmd);
    '(err, n) ← (if err : bool then Some (true, n)
                 else if bool_decide (header <> []) then net_write_buff n header else Some (false, n));
    '(err, n) ← (if err : bool then Some (true, n) else net_write_buff n packet);
    if err : bool then Some (true, n) else net_flush n.

(** ** Reading *)

Definition net_realloc (n : NET) (len : Z) : option (bool * NET) :=
  if bool_decide (len >= max_packet_size n) then Some (true, set_error n 1 ER_NET_PACKET_TOO_LARGE)
  else
    let pkt_length := u32 (len + IO_SIZE - 1) / IO_SIZE * IO_SIZE in
    match my_realloc (buff n) (u32 (pkt_length + NET_HEADER_SIZE + COMP_HEADER_SIZE)) with
    | None => Some (true, set_error n 1 ER_OUT_OF_RESOURCES)
    | Some b => Some (false, set_alloc n b pkt_length)
    end.

(** [while (remain > 0)] of [my_real_read]: [false] is [goto end] after an error. *)
Fixpoint read_loop (fuel : nat) (n : NET) (pos remain retry : Z) (alarmed : bool) : option (bool * NET * Z * bool) :=
  match fuel with
  | O => None
  | S fuel =>
      if bool_decide (remain > 0) then
        v ← vio n;
        let '(r, bs, v) := vio_do_read v remain in
        let n := set_vio n v in
        if bool_decide (r <= 0) then
          let interrupted := vio_should_retry v in
          if (interrupted || bool_decide (r = 0)) && negb alarmed then
            '(ok, n, retry) ← set_blocking n retry;
            if ok : bool then read_loop fuel n pos remain 0 true
            else Some (false, set_error n 2 ER_NET_FCNTL_ERROR, retry, true)
          else if alarmed && interrupted && bool_decide (retry < retry_count n)
          then read_loop fuel n pos remain (retry + 1) alarmed
          else
            let retry := if alarmed && interrupted then retry + 1 else retry in
            if bool_decide (errno v = SOCKET_EINTR) then read_loop fuel n pos remain retry alarmed
            else Some (false, set_error n 2 (if vio_was_interrupted v then ER_NET_READ_INTERRUPTED else ER_NET_READ_ERROR), retry, alarmed)
        else
          b ← write (buff n) pos bs;
          read_loop fuel (set_buff n b) (pos + r) (remain - r) retry alarmed
      else Some (true, n, retry, alarmed)
  end.

Definition read_bytes (n : NET) (remain retry : Z) (alarmed : bool) : option (bool * NET * Z * bool) :=
  v ← vio n;
  read_loop (S (Z.to_nat remain + length (rscript v) + 1)) n (where_b n) remain retry alarmed.

Definition read_end (n : NET) (alarmed net_blocking : bool) (len complen : Z) : option (Z * Z * NET) :=
  n ← end_alarm n alarmed net_blocking; Some (len, complen, set_rw n 0).

(** The body of the packet whose header is read. *)
Definition real_read_body (n : NET) (retry : Z) (alarmed net_blocking : bool) : option (Z * Z * NET) :=
  let n := set_pkt_nr n (u32 (pkt_nr n + 1)) (u32 (pkt_nr n + 1)) in
  complen ← (if compress n then uint3korr (buff n) (where_b n + NET_HEADER_SIZE) else Some 0);
  len ← uint3korr (buff n) (where_b n);
  if bool_decide (len = 0) then read_end n alarmed net_blocking 0 complen
  else
    let helping := u32 (Z.max len complen + where_b n) in
    '(err, n) ← (if bool_decide (helping >= max_packet n) then net_realloc n helping else Some (false, n));
    if err : bool then read_end n alarmed net_blocking packet_error complen
    else
      '(ok, n, _, alarmed) ← read_bytes n len retry alarmed;
      read_end n alarmed net_blocking (if ok : bool then len else packet_error) complen.

(** The length, [*complen] and the packet at [where_b]. *)
Definition my_real_read (n : NET) : option (Z * Z * NET) :=
  v ← vio n;
  let net_blocking := vio_is_blocking v in
  let remain := if compress n then NET_HEADER_SIZE + COMP_HEADER_SIZE else NET_HEADER_SIZE in
  let n := set_rw n 1 in
  '(ok, n, retry, alarmed) ← read_bytes n remain 0 false;
  if negb ok then read_end n alarmed net_blocking packet_error 0
  else
    nr ← load (buff n) (where_b n + 3);
    if bool_decide (nr <> u8 (pkt_nr n)) then read_end n alarmed net_blocking packet_error 0
    else real_read_body n retry alarmed net_blocking.

(** The [do] loop over the packets of a big packet: the length of the last one, the total and the
    connection. *)
Fixpoint multi_loop (fuel : nat) (n : NET) (len total : Z) : option (Z * Z * NET) :=
  match fuel with
  | O => None
  | S fuel =>
      let n := set_where_b n (u32 (where_b n + len)) in
      let total := u32 (total + len) in
      '(len, _, n) ← my_real_read n;
      if bool_decide (len = MAX_PACKET_LENGTH) then multi_loop fuel n len total else Some (len, total, n)
  end.

(** [my_net_read] without compression. *)
Definition net_read_plain (n : NET) : option (Z * NET) :=
  '(len, _, n) ← my_real_read n;
  '(len, n) ←
    (if bool_decide (len = MAX_PACKET_LENGTH) then
       let save_pos := where_b n in
       '(len, total, n) ← multi_loop (Z.to_nat ((max_packet_size n + IO_SIZE) / MAX_PACKET_LENGTH) + 3) n len 0;
       Some (if bool_decide (len <> packet_error) then u32 (len + total) else len, set_where_b n save_pos)
     else Some (len, n));
  let n := set_read_pos n (where_b n) in
  if bool_decide (len <> packet_error) then
    b ← store (buff n) (read_pos n + len) 0; Some (len, set_buff n b)
  else Some (len, n).

(** ** Setting up *)

(** [my_net_local_init] without the timeouts. *)
Definition my_net_local_init (n : NET) (net_buffer_length max_allowed_packet : Z) : NET :=
  mk_net (vio n) (buff n) (write_pos n) (read_pos n) (remain_in_buf n) (buf_length n) (where_b n) (u32 net_buffer_length)
    (Z.max net_buffer_length max_allowed_packet) (pkt_nr n) (compress_pkt_nr n) 1 (reading_or_writing n) (save_char n) (compress n)
    (last_errno n) (error n).

(** The result, 1 when there is no memory, and the connection; the socket options of a new
    connection are not modelled. *)
Definition my_net_init (n : NET) (v : option Vio) (net_buffer_length max_allowed_packet : Z) : bool * NET :=
  let n := my_net_local_init (mk_net v (buff n) (write_pos n) (read_pos n) (remain_in_buf n) (buf_length n) (where_b n) (max_packet n)
    (max_packet_size n) (pkt_nr n) (compress_pkt_nr n) (retry_count n) (reading_or_writing n) (save_char n) (compress n) (last_errno n) (error n))
    net_buffer_length max_allowed_packet in
  match my_malloc (u32 (max_packet n + NET_HEADER_SIZE + COMP_HEADER_SIZE)) with
  | None => (true, n)
  | Some b => (false, mk_net v b 0 0 0 (buf_length n) 0 (max_packet n) (max_packet_size n) 0 0 (retry_count n) 0 (save_char n) false 0 0)
  end.

(** [net_clear] with a clear of the buffer: [polls] are the answers of [net_data_is_ready]. *)
Fixpoint clear_loop (polls : list bool) (n : NET) : option NET :=
  match polls with
  | true :: polls =>
      v ← vio n;
      let '(count, bs, v) := vio_do_read v (max_packet n) in
      let n := set_vio n v in
      if bool_decide (count > 0) then b ← write (buff n) 0 bs; clear_loop polls (set_buff n b)
      else Some (set_error n 2 (last_errno n))
  | _ => Some n
  end.

Definition net_clear (n : NET) (clear_buffer : bool) (polls : list bool) : option NET :=
  n ← (if clear_buffer then clear_loop polls n else Some n);
  Some (set_write_pos (set_pkt_nr n 0 0) 0).

End Packets.

End Net.
