(* ===== verification/NetProps.v ===== *)
(** * NetProps: what the packet layer sends and receives

    [framed nr p w nr'] is the protocol: the payload [p] goes over the wire as [w], in packets
    numbered from [nr] to [nr' - 1].  The lemmas show that the writing functions append
    framed payloads to what was sent or is buffered, and that the reading functions
    take one framed payload off the bytes that arrive. *)
From stdpp Require Import base tactics option list numbers.
From Stdlib Require Import ZArith Lia.
From S2P Require Import Prelude.
From S2P Require Import Pack.
From S2P Require Import Vio.
From S2P Require Import Net.

Module NetProps.
Import Pack Vio Net.

(** ** The protocol *)

Definition header (len nr : Z) : list Z := int3store len ++ [u8 nr].

(** A payload is cut into packets of [MAX_PACKET_LENGTH] bytes; the last one is shorter. *)
Inductive framed : Z -> list Z -> list Z -> Z -> Prop :=
| framed_last nr p : Z.of_nat (length p) < MAX_PACKET_LENGTH ->
    framed nr p (header (Z.of_nat (length p)) nr ++ p) (u32 (nr + 1))
| framed_more nr p q w nr' : Z.of_nat (length p) = MAX_PACKET_LENGTH -> framed (u32 (nr + 1)) q w nr' ->
    framed nr (p ++ q) (header MAX_PACKET_LENGTH nr ++ p ++ w) nr'.

(** ** Blocks *)

Lemma write_spec {A} (m : list A) off bs :
  0 <= off -> off + Z.of_nat (length bs) <= Z.of_nat (length m) ->
  exists m', write m off bs = Some m' /\ length m' = length m /\
    take (Z.to_nat off) m' = take (Z.to_nat off) m /\
    take (Z.to_nat off + length bs) m' = take (Z.to_nat off) m ++ bs.
Proof.
  intros H0 Hle. unfold write. rewrite decide_True by lia. eexists. split; [done |].
  assert (Hl : length (take (Z.to_nat off) m) = Z.to_nat off) by (rewrite length_take; lia). split_and!.
  - rewrite !length_app, Hl, length_drop. lia.
  - rewrite take_app_length' by lia. done.
  - rewrite app_assoc, take_app_length'; [done |]. rewrite length_app. lia.
Qed.

Lemma read_spec {A} (m : list A) n : 0 <= n <= Z.of_nat (length m) -> read m 0 n = Some (take (Z.to_nat n) m).
Proof. intros H. unfold read. rewrite decide_True by lia. done. Qed.

(** ** Writing to the socket *)

(** The kernel takes what it is given and changes of the mode succeed. *)
Definition vio_writable (v : Vio) : Prop := accepting (wscript v) /\ fscript v = [].

(** The side of the connection that is read. *)
Definition same_input (v v' : Vio) : Prop :=
  rscript v' = rscript v /\ read_buffer v' = read_buffer v /\ buffered v' = buffered v.

Lemma same_input_trans a b c : same_input a b -> same_input b c -> same_input a c.
Proof. unfold same_input. intuition congruence. Qed.

Lemma set_blocking_spec n v retry :
  vio n = Some v -> fscript v = [] ->
  exists v', set_blocking n retry = Some (true, set_vio n v', retry) /\
    same_input v v' /\ wscript v' = wscript v /\ sent v' = sent v /\ fscript v' = [].
Proof.
  intros Hv Hf. unfold set_blocking. rewrite Hv. cbn [mbind option_bind]. rewrite Hf. cbn [length blocking_loop].
  rewrite Hv. cbn [mbind option_bind]. destruct (vio_blocking v true) as [[r o] v'] eqn:E. apply vio_blocking_same in E.
  destruct E as (H1 & H2 & H3 & H4 & H5 & Hr & H6 & H7). rewrite Hf in H6, H7. cbn in H6, H7.
  assert (Hr0 : r = 0) by (destruct Hr as [-> | ->]; [done | lia]). subst r. rewrite bool_decide_false by lia.
  exists v'. split_and!; try done. destruct (fscript v'); [done | cbn in H6; lia].
Qed.

Lemma end_alarm_spec n v alarmed b :
  vio n = Some v -> fscript v = [] ->
  exists v', end_alarm n alarmed b = Some (set_vio n v') /\ same_input v v' /\ wscript v' = wscript v /\ sent v' = sent v /\ fscript v' = [].
Proof.
  intros Hv Hf. unfold end_alarm. destruct alarmed.
  - rewrite Hv. cbn [mbind option_bind]. destruct (vio_blocking v b) as [[r o] v'] eqn:E. apply vio_blocking_same in E.
    destruct E as (H1 & H2 & H3 & H4 & H5 & Hr & H6 & _). rewrite Hf in H6. exists v'. split_and!; try done.
    destruct (fscript v'); [done | cbn in H6; lia].
  - exists v. split_and!; try done. by destruct n; cbn in *; subst.
Qed.

Lemma eintr_retry v : errno v = EINTR -> vio_should_retry v = true.
Proof. intros H. unfold vio_should_retry. rewrite H. done. Qed.

Lemma write_loop_spec fuel : forall n v data retry alarmed,
  vio n = Some v -> vio_writable v -> (length data + length (wscript v) < fuel)%nat ->
  exists v' alarmed', write_loop fuel n data retry alarmed = Some ([], set_vio n v', alarmed') /\
    vio_writable v' /\ same_input v v' /\ sent v' = sent v ++ data.
Proof.
  induction fuel as [| fuel IH]; intros n v data retry alarmed Hv Hw Hf; [lia |]. cbn [write_loop].
  destruct (decide (data = [])) as [-> | Hne].
  { rewrite bool_decide_true by done. exists v, alarmed. rewrite app_nil_r. split_and!; try done. by destruct n; cbn in *; subst. }
  rewrite bool_decide_false by done. rewrite Hv. cbn [mbind option_bind]. destruct Hw as [Ha Hfs].
  destruct (vio_write v data) as [r v1] eqn:E. pose proof (vio_write_stream _ _ _ _ E Hne Ha) as (Ha1 & (k & Hk) & Hle).
  assert (Hsame : same_input v v1 /\ fscript v1 = []).
  { unfold vio_write in E. destruct (wscript v) as [| [] ]; injection E as <- <-; done. }
  destruct Hsame as [Hsi Hf1]. destruct Hk as [(-> & Hk & Hs) | (-> & He & Hs & Hlt)].
  - rewrite bool_decide_false by lia. rewrite Nat2Z.id.
    destruct (IH (set_vio n v1) v1 (drop k data) retry alarmed eq_refl) as (v' & al & E2 & Hw' & Hsi' & Hs'); [done | rewrite length_drop; lia |].
    exists v', al. split_and!; [exact E2 | done | by eapply same_input_trans |]. rewrite Hs', Hs, <- app_assoc, take_drop. done.
  - rewrite bool_decide_true by lia. cbv zeta. rewrite (eintr_retry _ He). cbn [orb]. destruct alarmed; cbn [negb andb].
    + assert (Hagain : forall r2, exists v' al, write_loop fuel (set_vio n v1) data r2 true = Some ([], set_vio n v', al) /\
        vio_writable v' /\ same_input v v' /\ sent v' = sent v ++ data).
      { intros r2. destruct (IH (set_vio n v1) v1 data r2 true eq_refl) as (v' & al & E2 & Hw' & Hsi' & Hs'); [done | lia |].
        exists v', al. rewrite <- Hs. split_and!; [exact E2 | done | by eapply same_input_trans | done]. }
      destruct (bool_decide (retry < retry_count (set_vio n v1))); [apply Hagain |]. rewrite bool_decide_true by done. apply Hagain.
    + destruct (set_blocking_spec (set_vio n v1) v1 retry eq_refl Hf1) as (v2 & -> & Hsi2 & Hw2 & Hs2 & Hf2). cbn [mbind option_bind].
      destruct (IH (set_vio n v2) v2 data 0 true eq_refl) as (v' & al & E2 & Hw' & Hsi' & Hs'); [by rewrite <- Hw2 in Ha1 | rewrite Hw2; lia |].
      exists v', al. split_and!; [exact E2 | done | | by rewrite Hs', Hs2, Hs]. eapply same_input_trans; [| exact Hsi']. by eapply same_input_trans.
Qed.

(** A connection that can be written to: what is sent and then buffered is [out]. *)
Record wnet (n : NET) (v : Vio) (out : list Z) : Prop := mk_wnet {
  w_vio : vio n = Some v;
  w_ok : vio_writable v;
  w_error : error n <> 2;
  w_plain : compress n = false;
  w_buff : Z.of_nat (length (buff n)) = max_packet n + 7;
  w_size : 0 < max_packet n < 2 ^ 31;
  w_pos : 0 <= write_pos n <= max_packet n;
  w_out : out = sent v ++ take (Z.to_nat (write_pos n)) (buff n);
}.

(** What writing leaves alone. *)
Record kept (n n' : NET) : Prop := mk_kept {
  k_max : max_packet n' = max_packet n;
  k_limit : max_packet_size n' = max_packet_size n;
  k_where : where_b n' = where_b n;
  k_retry : retry_count n' = retry_count n;
  k_plain : compress n' = compress n;
  k_error : error n' = error n /\ last_errno n' = last_errno n;
  k_input : forall v, vio n = Some v -> exists v', vio n' = Some v' /\ same_input v v';
}.

Lemma kept_trans a b c : kept a b -> kept b c -> kept a c.
Proof.
  intros [A1 A2 A3 A4 A5 A6 A7] [B1 B2 B3 B4 B5 B6 B7]. split; try congruence.
  - destruct A6, B6. split; congruence.
  - intros v Hv. destruct (A7 v Hv) as (v1 & H1 & S1). destruct (B7 v1 H1) as (v2 & H2 & S2). exists v2. split; [done |]. by eapply same_input_trans.
Qed.

Lemma kept_refl n : kept n n.
Proof. split; try done. intros v Hv. by exists v. Qed.

Section Write.
Context (my_malloc : Z -> option (list Z)) (zcompress : Z -> list Z -> list Z + Z).
Abbreviation real_write := (net_real_write my_malloc zcompress).

Lemma net_real_write_spec n v packet :
  vio n = Some v -> vio_writable v -> error n <> 2 -> compress n = false ->
  exists v' r, real_write n packet = Some (0, set_rw (set_vio n v') r) /\ vio_writable v' /\ same_input v v' /\
    sent v' = sent v ++ packet.
Proof.
  intros Hv Hw He Hc. unfold net_real_write. rewrite Hv. cbn [mbind option_bind]. rewrite bool_decide_false by done.
  change (compress (set_rw n 2)) with (compress n). rewrite Hc.
  destruct (write_loop_spec (S (length packet + length (wscript v))) (set_rw n 2) v packet 0 false Hv Hw) as (v1 & al & E1 & Hw1 & Hs1 & Ho1); [lia |].
  rewrite E1. cbn [mbind option_bind]. destruct Hw1 as [Hw1 Hf1].
  destruct (end_alarm_spec (set_vio (set_rw n 2) v1) v1 al (vio_is_blocking v) eq_refl Hf1) as (v2 & -> & Hs2 & Hw2 & Ho2 & Hf2).
  cbn [mbind option_bind]. rewrite bool_decide_true by done. exists v2, 0.
  split_and!; [done | by rewrite <- Hw2 in Hw1 | by eapply same_input_trans | by rewrite Ho2, Ho1].
Qed.

Lemma buffer_packet_spec n v out packet :
  wnet n v out -> write_pos n + Z.of_nat (length packet) <= max_packet n ->
  exists n', buffer_packet n packet = Some (false, n') /\ wnet n' v (out ++ packet) /\ kept n n' /\ pkt_nr n' = pkt_nr n.
Proof.
  intros [H1 H2 H3 H4 H5 H6 H7 ->] Hle. unfold buffer_packet.
  destruct (write_spec (buff n) (write_pos n) packet) as (b & -> & Hb & _ & Ht); [lia | lia |]. cbn [mbind option_bind].
  eexists. split; [done |]. split_and!; [| split; try done; by eexists | done].
  split; cbn; try done; [lia | lia |]. rewrite Z2Nat.inj_add, Nat2Z.id by lia. by rewrite Ht, app_assoc.
Qed.

Lemma fill_buff_spec n v out packet left_length :
  wnet n v out -> left_length = max_packet n - write_pos n -> left_length < Z.of_nat (length packet) ->
  exists n' v' rest, fill_buff my_malloc zcompress n packet left_length = Some (false, rest, n') /\
    wnet n' v' (sent v') /\ write_pos n' = 0 /\ sent v' ++ rest = out ++ packet /\ kept n n' /\ pkt_nr n' = pkt_nr n.
Proof.
  intros Hn -> Hlen. pose proof Hn as [H1 H2 H3 H4 H5 H6 H7 ->]. unfold fill_buff. destruct (decide (write_pos n = 0)) as [Hz | Hz].
  - rewrite bool_decide_false by tauto. exists n, v, packet. rewrite Hz. cbn. rewrite app_nil_r. split_and!; try done; [| apply kept_refl].
    split; try done. rewrite Hz. cbn. by rewrite app_nil_r.
  - rewrite bool_decide_true by done. set (k := Z.to_nat (max_packet n - write_pos n)).
    assert (Hk : length (take k packet) = k) by (rewrite length_take; lia).
    destruct (write_spec (buff n) (write_pos n) (take k packet)) as (b & -> & Hb & _ & Ht); [lia | lia |]. cbn [mbind option_bind].
    cbn [set_buff buff write_pos]. rewrite read_spec by lia. cbn [mbind option_bind].
    destruct (net_real_write_spec (set_buff n b) v (take (Z.to_nat (write_pos n + (max_packet n - write_pos n))) b)) as (v' & r & -> & Hw' & Hs' & Ho'); [done..|].
    cbn [mbind option_bind]. rewrite bool_decide_false by tauto. eexists _, v', _. split; [done |].
    rewrite Hk in Ht. replace (Z.to_nat (write_pos n + (max_packet n - write_pos n))) with (Z.to_nat (write_pos n) + k)%nat in Ho' by lia.
    split_and!; [| done | | split; try done; cbn; intros v0 Hv0; rewrite H1 in Hv0; injection Hv0 as <-; by eexists | done].
    + split; cbn; try done; [by rewrite Hb | lia |]. by rewrite app_nil_r.
    + rewrite Ho', Ht, <- !app_assoc, take_drop. done.
Qed.

Lemma net_write_buff_spec n v out packet :
  wnet n v out ->
  exists n' v', net_write_buff my_malloc zcompress n packet = Some (false, n') /\ wnet n' v' (out ++ packet) /\ kept n n' /\ pkt_nr n' = pkt_nr n.
Proof.
  intros Hn. pose proof Hn as [H1 H2 H3 H4 H5 H6 H7 Hout]. unfold net_write_buff. rewrite H4. cbn [andb]. rewrite uwrap_small by lia.
  destruct (decide (Z.of_nat (length packet) > max_packet n - write_pos n)) as [Hbig | Hfits].
  2: { rewrite bool_decide_false by done. destruct (buffer_packet_spec n v out packet Hn) as (n' & ? & ? & ? & ?); [lia |]. by exists n', v. }
  rewrite bool_decide_true by done.
  destruct (fill_buff_spec n v out packet (max_packet n - write_pos n) Hn eq_refl) as (n1 & v1 & rest & -> & Hn1 & Hp1 & Hr1 & Hk1 & Hnr1); [lia |].
  cbn [mbind option_bind]. pose proof (k_plain _ _ Hk1) as Hc. rewrite H4 in Hc. rewrite Hc. cbn [mbind option_bind].
  destruct (decide (Z.of_nat (length rest) > max_packet n1)) as [Hb | Hs].
  - rewrite bool_decide_true by done. pose proof Hn1 as [A1 A2 A3 A4 A5 A6 A7 A8].
    destruct (net_real_write_spec n1 v1 rest A1 A2 A3 A4) as (v2 & r & -> & Hw2 & Hs2 & Ho2). cbn [mbind option_bind].
    rewrite bool_decide_false by tauto. eexists _, v2. split; [done |]. split_and!; [| | done].
    + split; cbn; try done. rewrite Hp1. cbn. by rewrite app_nil_r, Ho2, Hr1.
    + eapply kept_trans; [exact Hk1 |]. split; try done. cbn. intros v0 Hv0. rewrite A1 in Hv0. injection Hv0 as <-. by eexists.
  - rewrite bool_decide_false by done. destruct (buffer_packet_spec n1 v1 _ rest Hn1) as (n' & E' & Hn' & Hk' & Hnr'); [lia |].
    exists n', v1. rewrite <- Hr1. split_and!; [done | done | by eapply kept_trans | congruence].
Qed.

Lemma net_flush_spec n v out :
  wnet n v out ->
  exists n' v', net_flush my_malloc zcompress n = Some (false, n') /\ wnet n' v' out /\ sent v' = out /\ write_pos n' = 0 /\
    kept n n' /\ pkt_nr n' = pkt_nr n.
Proof.
  intros Hn. pose proof Hn as [H1 H2 H3 H4 H5 H6 H7 Hout]. unfold net_flush. destruct (decide (write_pos n = 0)) as [Hz | Hz].
  - rewrite bool_decide_false by tauto. cbn [mbind option_bind]. rewrite H4. exists n, v. rewrite Hz in Hout. cbn in Hout. rewrite app_nil_r in Hout.
    split_and!; try done. apply kept_refl.
  - rewrite bool_decide_true by done. rewrite read_spec by lia. cbn [mbind option_bind].
    destruct (net_real_write_spec n v (take (Z.to_nat (write_pos n)) (buff n)) H1 H2 H3 H4) as (v2 & r & -> & Hw2 & Hs2 & Ho2). cbn [mbind option_bind].
    cbn [set_write_pos set_rw set_vio compress]. rewrite H4. eexists _, v2. rewrite bool_decide_false by tauto. split; [done |].
    rewrite <- Hout in Ho2. split_and!; try done.
    + split; cbn; try done; [lia |]. by rewrite app_nil_r.
    + split; try done. cbn. intros v0 Hv0. rewrite H1 in Hv0. injection Hv0 as <-. by eexists.
Qed.

Lemma wnet_pkt_nr n v out p c : wnet n v out -> wnet (set_pkt_nr n p c) v out.
Proof. intros [H1 H2 H3 H4 H5 H6 H7 H8]. by split. Qed.

Lemma kept_pkt_nr n p c : kept n (set_pkt_nr n p c).
Proof. split; try done. intros v Hv. by exists v. Qed.

Lemma write_packet_spec n v out head data :
  wnet n v out ->
  exists n' v', write_packet my_malloc zcompress n head data = Some (false, n') /\ wnet n' v' (out ++ head ++ data) /\ kept n n' /\ pkt_nr n' = pkt_nr n.
Proof.
  intros Hn. unfold write_packet. destruct (net_write_buff_spec n v out head Hn) as (n1 & v1 & -> & Hn1 & Hk1 & Hp1). cbn [mbind option_bind].
  destruct (net_write_buff_spec n1 v1 _ data Hn1) as (n2 & v2 & -> & Hn2 & Hk2 & Hp2). exists n2, v2. rewrite <- app_assoc in Hn2.
  split_and!; [done | done | by eapply kept_trans | congruence].
Qed.

Lemma max_packet_length : MAX_PACKET_LENGTH = 16777215.
Proof. done. Qed.

Lemma write_packets_spec fuel : forall n v out packet,
  wnet n v out -> (length packet < fuel)%nat ->
  exists n' v' w, write_packets my_malloc zcompress fuel n packet = Some (false, n') /\ wnet n' v' (out ++ w) /\ kept n n' /\
    framed (pkt_nr n) packet w (pkt_nr n').
Proof.
  induction fuel as [| fuel IH]; intros n v out packet Hn Hf; [lia |]. cbn [write_packets packet_header].
  pose proof max_packet_length as Hmax. destruct (decide (Z.of_nat (length packet) >= MAX_PACKET_LENGTH)) as [Hbig | Hsmall].
  - rewrite bool_decide_true by done. set (k := Z.to_nat MAX_PACKET_LENGTH).
    assert (Hk : Z.of_nat k = MAX_PACKET_LENGTH) by (apply Z2Nat.id; lia). assert (Hlk : length (take k packet) = k) by (rewrite length_take; lia). clearbody k.
    destruct (write_packet_spec _ v out (int3store MAX_PACKET_LENGTH ++ [u8 (pkt_nr n)]) (take k packet)
      (wnet_pkt_nr n v out (u32 (pkt_nr n + 1)) (compress_pkt_nr n) Hn)) as (n1 & v1 & -> & Hn1 & Hk1 & Hp1).
    cbn [mbind option_bind]. destruct (IH n1 v1 _ (drop k packet) Hn1) as (n2 & v2 & w & E2 & Hn2 & Hk2 & Hfr); [rewrite length_drop; lia |].
    exists n2, v2, (header MAX_PACKET_LENGTH (pkt_nr n) ++ take k packet ++ w). split_and!; [done | | |].
    + unfold header. rewrite <- !app_assoc in Hn2 |- *. exact Hn2.
    + eapply kept_trans; [apply kept_pkt_nr |]. by eapply kept_trans.
    + rewrite <- (take_drop k packet) at 1. apply framed_more; [lia |]. rewrite Hp1 in Hfr. exact Hfr.
  - rewrite bool_decide_false by done.
    destruct (write_packet_spec _ v out (int3store (Z.of_nat (length packet)) ++ [u8 (pkt_nr n)]) packet
      (wnet_pkt_nr n v out (u32 (pkt_nr n + 1)) (compress_pkt_nr n) Hn)) as (n1 & v1 & -> & Hn1 & Hk1 & Hp1).
    exists n1, v1, (header (Z.of_nat (length packet)) (pkt_nr n) ++ packet). split_and!; [done | | |].
    + unfold header. rewrite <- !app_assoc in Hn1 |- *. exact Hn1.
    + eapply kept_trans; [apply kept_pkt_nr | done].
    + rewrite Hp1. apply framed_last. lia.
Qed.

Lemma command_loop_spec fuel : forall n v out cmd hd packet len,
  wnet n v out -> (length packet < fuel)%nat -> len = Z.of_nat (length (cmd ++ hd ++ packet)) ->
  MAX_PACKET_LENGTH <= len < 2 ^ 32 -> Z.of_nat (length (cmd ++ hd)) < MAX_PACKET_LENGTH ->
  exists n' v' w rest, command_loop my_malloc zcompress fuel n cmd hd packet len = Some (false, [], [], rest, Z.of_nat (length rest), n') /\
    wnet n' v' (out ++ w) /\ kept n n' /\ Z.of_nat (length rest) < MAX_PACKET_LENGTH /\
    (forall w' nr', framed (pkt_nr n') rest w' nr' -> framed (pkt_nr n) (cmd ++ hd ++ packet) (w ++ w') nr').
Proof.
  induction fuel as [| fuel IH]; intros n v out cmd hd packet len Hn Hf -> Hlen Hch; [lia |]. cbn [command_loop packet_header].
  pose proof max_packet_length as Hmax. rewrite !length_app in Hlen. rewrite length_app in Hch.
  rewrite (uwrap_small 32 (MAX_PACKET_LENGTH - _ - _)) by lia. set (k := Z.to_nat (MAX_PACKET_LENGTH - Z.of_nat (length cmd) - Z.of_nat (length hd))).
  assert (Hk : Z.of_nat k = MAX_PACKET_LENGTH - Z.of_nat (length cmd) - Z.of_nat (length hd)) by (apply Z2Nat.id; lia).
  rewrite read_spec by lia. fold k. clearbody k. cbn [mbind option_bind].
  assert (Hlk : length (take k packet) = k) by (rewrite length_take; lia).
  destruct (net_write_buff_spec _ v out ((int3store MAX_PACKET_LENGTH ++ [u8 (pkt_nr n)]) ++ cmd)
    (wnet_pkt_nr n v out (u32 (pkt_nr n + 1)) (compress_pkt_nr n) Hn)) as (n1 & v1 & -> & Hn1 & Hk1 & Hp1). cbn [mbind option_bind].
  destruct (net_write_buff_spec n1 v1 _ hd Hn1) as (n2 & v2 & -> & Hn2 & Hk2 & Hp2). cbn [mbind option_bind].
  destruct (net_write_buff_spec n2 v2 _ (take k packet) Hn2) as (n3 & v3 & -> & Hn3 & Hk3 & Hp3). cbn [mbind option_bind].
  rewrite Hlk. set (w1 := header MAX_PACKET_LENGTH (pkt_nr n) ++ cmd ++ hd ++ take k packet).
  assert (Hn3' : wnet n3 v3 (out ++ w1)) by (subst w1; unfold header; revert Hn3; rewrite <- !app_assoc; exact id).
  assert (Hk13 : kept n n3).
  { eapply kept_trans; [apply kept_pkt_nr |]. eapply kept_trans; [exact Hk1 |]. by eapply kept_trans. }
  assert (Hnr : pkt_nr n3 = u32 (pkt_nr n + 1)) by (rewrite Hp3, Hp2, Hp1; done).
  assert (Hmore : forall w' nr', framed (pkt_nr n3) (drop k packet) w' nr' -> framed (pkt_nr n) (cmd ++ hd ++ packet) (w1 ++ w') nr').
  { intros w' nr' Hfr. replace (cmd ++ hd ++ packet) with ((cmd ++ hd ++ take k packet) ++ drop k packet) by (by rewrite <- !app_assoc, take_drop).
    replace (w1 ++ w') with (header MAX_PACKET_LENGTH (pkt_nr n) ++ (cmd ++ hd ++ take k packet) ++ w') by (subst w1; by rewrite <- !app_assoc).
    apply framed_more; [rewrite !length_app; lia |]. by rewrite <- Hnr. }
  rewrite !length_app, (uwrap_small 32) by lia.
  destruct (decide (Z.of_nat (length cmd + (length hd + length packet)) - MAX_PACKET_LENGTH >= MAX_PACKET_LENGTH)) as [Hmany | Hone].
  - rewrite bool_decide_true by done.
    destruct (IH n3 v3 (out ++ w1) [] [] (drop k packet) (Z.of_nat (length cmd + (length hd + length packet)) - MAX_PACKET_LENGTH) Hn3')
      as (n4 & v4 & w2 & rest & E4 & Hn4 & Hk4 & Hr4 & Hfr4); [rewrite length_drop; lia | cbn [app]; rewrite length_drop; lia | lia | cbn; lia |].
    exists n4, v4, (w1 ++ w2), rest. rewrite app_assoc. split_and!; [done | done | by eapply kept_trans | done |].
    intros w' nr' Hfr. rewrite <- app_assoc. apply Hmore, Hfr4, Hfr.
  - rewrite bool_decide_false by done. exists n3, v3, w1, (drop k packet).
    split_and!; [do 3 f_equal; rewrite length_drop; lia | done | done | rewrite length_drop; lia | done].
Qed.

Lemma net_write_command_spec n v out command hd packet :
  wnet n v out -> Z.of_nat (length hd) < MAX_PACKET_LENGTH - 1 -> Z.of_nat (length packet) + 1 + Z.of_nat (length hd) < 2 ^ 32 ->
  exists n' v' w, net_write_command my_malloc zcompress n command hd packet = Some (false, n') /\ wnet n' v' (out ++ w) /\
    sent v' = out ++ w /\ kept n n' /\ framed (pkt_nr n) ([u8 command] ++ hd ++ packet) w (pkt_nr n').
Proof.
  intros Hn Hh Hlen. pose proof max_packet_length as Hmax. unfold net_write_command. rewrite uwrap_small by lia.
  assert (Hpre : exists n1 v1 w cmd h1 rest,
    (if bool_decide (Z.of_nat (length packet) + 1 + Z.of_nat (length hd) >= MAX_PACKET_LENGTH)
     then command_loop my_malloc zcompress (S (length packet)) n [u8 command] hd packet (Z.of_nat (length packet) + 1 + Z.of_nat (length hd))
     else Some (false, [u8 command], hd, packet, Z.of_nat (length packet) + 1 + Z.of_nat (length hd), n)) =
     Some (false, cmd, h1, rest, Z.of_nat (length (cmd ++ h1 ++ rest)), n1) /\
    wnet n1 v1 (out ++ w) /\ kept n n1 /\ Z.of_nat (length (cmd ++ h1 ++ rest)) < MAX_PACKET_LENGTH /\
    (forall w' nr', framed (pkt_nr n1) (cmd ++ h1 ++ rest) w' nr' -> framed (pkt_nr n) ([u8 command] ++ hd ++ packet) (w ++ w') nr')).
  { destruct (decide (Z.of_nat (length packet) + 1 + Z.of_nat (length hd) >= MAX_PACKET_LENGTH)) as [Hbig | Hsmall].
    - rewrite bool_decide_true by done.
      destruct (command_loop_spec (S (length packet)) n v out [u8 command] hd packet (Z.of_nat (length packet) + 1 + Z.of_nat (length hd)) Hn)
        as (n1 & v1 & w & rest & E1 & Hn1 & Hk1 & Hr1 & Hfr1); [lia | rewrite !length_app; cbn; lia | lia | rewrite length_app; cbn; lia |].
      exists n1, v1, w, [], [], rest. by split_and!.
    - rewrite bool_decide_false by done. exists n, v, [], [u8 command], hd, packet. rewrite app_nil_r, !length_app. cbn [length app].
      split_and!; [do 3 f_equal; lia | done | apply kept_refl | lia | done]. }
  destruct Hpre as (n1 & v1 & w & cmd & h1 & rest & -> & Hn1 & Hk1 & Hr1 & Hfr1). cbn [mbind option_bind packet_header].
  set (len := Z.of_nat (length (cmd ++ h1 ++ rest))) in *.
  destruct (net_write_buff_spec _ v1 (out ++ w) ((int3store len ++ [u8 (pkt_nr n1)]) ++ cmd)
    (wnet_pkt_nr n1 v1 _ (u32 (pkt_nr n1 + 1)) (compress_pkt_nr n1) Hn1)) as (n2 & v2 & -> & Hn2 & Hk2 & Hp2). cbn [mbind option_bind].
  assert (Hhead : exists n3 v3, (if bool_decide (h1 <> []) then net_write_buff my_malloc zcompress n2 h1 else Some (false, n2)) = Some (false, n3) /\
    wnet n3 v3 (((out ++ w) ++ (int3store len ++ [u8 (pkt_nr n1)]) ++ cmd) ++ h1) /\ kept n2 n3 /\ pkt_nr n3 = pkt_nr n2).
  { case_bool_decide as Hne; [by apply (net_write_buff_spec n2 v2) |]. subst h1. exists n2, v2. rewrite app_nil_r. split_and!; try done. apply kept_refl. }
  destruct Hhead as (n3 & v3 & -> & Hn3 & Hk3 & Hp3). cbn [mbind option_bind].
  destruct (net_write_buff_spec n3 v3 _ rest Hn3) as (n4 & v4 & -> & Hn4 & Hk4 & Hp4). cbn [mbind option_bind].
  destruct (net_flush_spec n4 v4 _ Hn4) as (n5 & v5 & -> & Hn5 & Hs5 & _ & Hk5 & Hp5).
  exists n5, v5, (w ++ header len (pkt_nr n1) ++ cmd ++ h1 ++ rest). split_and!; [done | | | |].
  - revert Hn5. unfold header. rewrite <- !app_assoc. exact id.
  - rewrite Hs5. unfold header. rewrite <- !app_assoc. done.
  - eapply kept_trans; [exact Hk1 |]. eapply kept_trans; [apply kept_pkt_nr |]. eapply kept_trans; [exact Hk2 |].
    eapply kept_trans; [exact Hk3 |]. by eapply kept_trans.
  - apply Hfr1. rewrite Hp5, Hp4, Hp3, Hp2. by apply framed_last.
Qed.

End Write.

End NetProps.
