(* ===== verification/NetRead.v ===== *)
(** * NetRead: reading packets

    [my_real_read] and [my_net_read] without compression: from any connection that
    delivers a framed payload, in pieces of any size and with interruptions, exactly that
    payload is read; and whatever the peer or the kernel does, no access is outside of
    the buffer. *)
From stdpp Require Import base tactics option list numbers.
From Stdlib Require Import ZArith Lia.
From S2P Require Import Prelude.
From S2P Require Import Pack.
From S2P Require Import Vio.
From S2P Require Import Net.
From S2P Require Import NetProps.

Module NetRead.
Import Pack Vio Net NetProps.

(** A connection that can be read. *)
Definition vio_readable (v : Vio) : Prop := vio_ok v /\ fscript v = [].

(** The side that is written. *)
Definition same_sent (v v' : Vio) : Prop := wscript v' = wscript v /\ sent v' = sent v.

Lemma same_sent_trans a b c : same_sent a b -> same_sent b c -> same_sent a c.
Proof. unfold same_sent. intuition congruence. Qed.

Lemma same_input_readable v v' : same_input v v' -> vio_ok v -> vio_ok v' /\ pending v' = pending v.
Proof. intros (H1 & H2 & H3) [Ha Hb]. unfold vio_ok, pending. rewrite H1, H2, H3. done. Qed.

Lemma read_loop_spec fuel : forall n v pos d rest retry alarmed,
  vio n = Some v -> vio_readable v -> pending v = d ++ rest ->
  0 <= pos -> pos + Z.of_nat (length d) <= Z.of_nat (length (buff n)) ->
  (length d + length (rscript v) < fuel)%nat ->
  exists v' b retry' alarmed', read_loop fuel n pos (Z.of_nat (length d)) retry alarmed = Some (true, set_buff (set_vio n v') b, retry', alarmed') /\
    vio_readable v' /\ pending v' = rest /\ same_sent v v' /\ length b = length (buff n) /\
    take (Z.to_nat pos + length d) b = take (Z.to_nat pos) (buff n) ++ d.
Proof.
  induction fuel as [| fuel IH]; intros n v pos d rest retry alarmed Hv [Hok Hf] Hp H0 Hle Hfuel; [lia |]. cbn [read_loop].
  destruct d as [| c d0].
  { rewrite bool_decide_false by (cbn; lia). exists v, (buff n), retry, alarmed. rewrite Nat.add_0_r, app_nil_r.
    split_and!; try done. by destruct n; cbn in *; subst. }
  remember (c :: d0) as d eqn:Ed. assert (Hd : (0 < length d)%nat) by (subst d; cbn; lia). assert (Hd' : d <> []) by (by subst d). clear Ed c d0.
  rewrite bool_decide_true by lia. rewrite Hv. cbn [mbind option_bind].
  destruct (vio_do_read v (Z.of_nat (length d))) as [[r bs] v1] eqn:E.
  assert (Hsz : 0 < Z.of_nat (length d)) by lia.
  pose proof (vio_read_bounds _ _ _ _ _ Hsz E) as (Hr & Hbs & (_ & _ & _ & Hs1 & Hs2 & Hs3) & Hlen & _).
  destruct (vio_read_stream _ _ _ _ _ Hsz E Hok) as (Hok1 & Hp1 & Hcase). rewrite Hf in Hs2.
  destruct Hcase as [Hpos | [(-> & -> & He & Hlt) | (-> & Hnil & _)]].
  - rewrite bool_decide_false by lia. cbn [set_vio buff].
    assert (Hsplit : exists d1, d = bs ++ d1 /\ pending v1 = d1 ++ rest).
    { rewrite Hp in Hp1. exists (drop (length bs) d). split.
      - apply (f_equal (take (length bs))) in Hp1. rewrite take_app_length, take_app_le in Hp1 by lia. rewrite <- Hp1 at 1. by rewrite take_drop.
      - apply (f_equal (drop (length bs))) in Hp1. rewrite drop_app_length, drop_app_le in Hp1 by lia. done. }
    destruct Hsplit as (d1 & -> & Hp2). rewrite length_app in *.
    destruct (write_spec (buff n) pos bs) as (b & -> & Hb & _ & Ht); [lia | lia |]. cbn [mbind option_bind].
    replace (Z.of_nat (length bs + length d1) - r) with (Z.of_nat (length d1)) by lia.
    destruct (IH (set_buff (set_vio n v1) b) v1 (pos + r) d1 rest retry alarmed eq_refl) as (v' & b' & r' & al & E2 & Hr2 & Hp3 & Hs4 & Hb2 & Ht2);
      [done | done | lia | cbn; lia | lia |].
    exists v', b', r', al. split_and!; [exact E2 | done | done | by eapply same_sent_trans | cbn in Hb2; lia |].
    cbn [set_buff buff] in Ht2. replace (Z.to_nat (pos + r)) with (Z.to_nat pos + length bs)%nat in Ht2 by lia.
    rewrite Nat.add_assoc, Ht2, Ht, app_assoc. done.
  - rewrite bool_decide_true by lia. cbv zeta. rewrite (eintr_retry _ He). cbn [orb]. cbn [app] in Hp1. rewrite Hp in Hp1. symmetry in Hp1.
    assert (Hagain : forall n2 v2 r2 a2, n2 = set_vio n v2 -> vio_readable v2 -> pending v2 = d ++ rest -> same_sent v v2 ->
      (length (rscript v2) <= length (rscript v1))%nat ->
      exists v' b retry' alarmed', read_loop fuel n2 pos (Z.of_nat (length d)) r2 a2 = Some (true, set_buff (set_vio n v') b, retry', alarmed') /\
        vio_readable v' /\ pending v' = rest /\ same_sent v v' /\ length b = length (buff n) /\
        take (Z.to_nat pos + length d) b = take (Z.to_nat pos) (buff n) ++ d).
    { intros n2 v2 r2 a2 -> Hr2 Hp2 Hss Hl2. destruct (IH (set_vio n v2) v2 pos d rest r2 a2 eq_refl) as (v' & b' & r' & al & E2 & Hr3 & Hp3 & Hs4 & Hb2 & Ht2);
        [done | done | lia | done | lia |].
      exists v', b', r', al. split_and!; [exact E2 | done | done | by eapply same_sent_trans | done | done]. }
    destruct alarmed; cbn [negb andb].
    + destruct (bool_decide (retry < retry_count (set_vio n v1))); [by apply (Hagain _ v1) |]. rewrite bool_decide_true by done. by apply (Hagain _ v1).
    + destruct (set_blocking_spec (set_vio n v1) v1 retry eq_refl Hs2) as (v2 & -> & Hsi & Hw2 & Hs & Hf2). cbn [mbind option_bind].
      destruct (same_input_readable _ _ Hsi Hok1) as [Hok2 Hp2]. destruct Hsi as (Hrs & _).
      apply (Hagain _ v2); [done | done | congruence | split; congruence | by rewrite Hrs].
  - exfalso. rewrite Hp in Hnil. by apply app_eq_nil in Hnil as [? _].
Qed.

Lemma read_bytes_spec n v d rest retry alarmed :
  vio n = Some v -> vio_readable v -> pending v = d ++ rest ->
  0 <= where_b n -> where_b n + Z.of_nat (length d) <= Z.of_nat (length (buff n)) ->
  exists v' b retry' alarmed', read_bytes n (Z.of_nat (length d)) retry alarmed = Some (true, set_buff (set_vio n v') b, retry', alarmed') /\
    vio_readable v' /\ pending v' = rest /\ same_sent v v' /\ length b = length (buff n) /\
    take (Z.to_nat (where_b n) + length d) b = take (Z.to_nat (where_b n)) (buff n) ++ d.
Proof.
  intros Hv Hr Hp H0 Hle. unfold read_bytes. rewrite Hv. cbn [mbind option_bind]. apply read_loop_spec; [done.. |]. rewrite Nat2Z.id. lia.
Qed.

(** ** One packet *)

(** A connection to read from; [c] says whether it is compressed. *)
Record rnet (c : bool) (n : NET) (v : Vio) : Prop := mk_rnet {
  r_vio : vio n = Some v;
  r_ok : vio_readable v;
  r_comp : compress n = c;
  r_buff : Z.of_nat (length (buff n)) = max_packet n + 7;
  r_where : 0 <= where_b n <= max_packet n;
  r_limit : 0 < max_packet n <= max_packet_size n + IO_SIZE /\ max_packet_size n <= 2 ^ 31;
}.

(** [my_realloc] finds the memory to grow a block and keeps its contents. *)
Definition realloc_works (my_realloc : list Z -> Z -> option (list Z)) : Prop :=
  forall b size, Z.of_nat (length b) <= size -> exists b', my_realloc b size = Some b' /\ Z.of_nat (length b') = size /\ take (length b) b' = b.

Lemma load_behind {A} (b x d : list A) k i c :
  take (k + length d) b = x ++ d -> length x = k -> d !! i = Some c -> load b (Z.of_nat k + Z.of_nat i) = Some c.
Proof.
  intros Ht Hx Hc. unfold load. rewrite decide_True by lia. replace (Z.to_nat (Z.of_nat k + Z.of_nat i)) with (k + i)%nat by lia.
  pose proof (lookup_lt_Some _ _ _ Hc). rewrite <- (lookup_take_lt b (k + length d)) by lia. rewrite Ht, lookup_app_r by lia.
  by replace (k + i - length x)%nat with i by lia.
Qed.

Lemma header_loads b x len nr ext k :
  take (k + (4 + length ext)) b = x ++ header len nr ++ ext -> length x = k -> 0 <= len < 2 ^ 24 ->
  load b (Z.of_nat k + 3) = Some (u8 nr) /\ uint3korr b (Z.of_nat k) = Some len.
Proof.
  intros Ht Hx Hlen. change (4 + length ext)%nat with (length (header len nr ++ ext)) in Ht.
  split; [apply (load_behind b x _ k 3 _ Ht Hx); done |].
  apply uint3_back; [done | | |].
  - rewrite <- (Z.add_0_r (Z.of_nat k)). by apply (load_behind b x _ k 0 _ Ht Hx).
  - by apply (load_behind b x _ k 1 _ Ht Hx).
  - by apply (load_behind b x _ k 2 _ Ht Hx).
Qed.

(** The length behind the header of a compressed packet. *)
Lemma complen_loads b x len nr complen k :
  take (k + 7) b = x ++ header len nr ++ int3store complen -> length x = k -> 0 <= complen < 2 ^ 24 ->
  uint3korr b (Z.of_nat k + 4) = Some complen.
Proof.
  intros Ht Hx Hlen. change 7%nat with (length (header len nr ++ int3store complen)) in Ht.
  apply uint3_back; [done | by apply (load_behind b x _ k 4 _ Ht Hx) | |].
  - rewrite <- Z.add_assoc. by apply (load_behind b x _ k 5 _ Ht Hx).
  - rewrite <- Z.add_assoc. by apply (load_behind b x _ k 6 _ Ht Hx).
Qed.

Lemma length_header len nr : length (header len nr) = 4%nat.
Proof. done. Qed.

Lemma read_end_spec n v alarmed b len complen :
  vio n = Some v -> vio_readable v ->
  exists v' r, read_end n alarmed b len complen = Some (len, complen, set_rw (set_vio n v') r) /\ vio_readable v' /\
    pending v' = pending v /\ same_sent v v'.
Proof.
  intros Hv [Hok Hf]. unfold read_end. destruct (end_alarm_spec n v alarmed b Hv Hf) as (v' & -> & Hsi & Hw & Hs & Hf'). cbn [mbind option_bind].
  exists v', 0. destruct (same_input_readable _ _ Hsi Hok) as [Hok' Hp]. split_and!; try done.
Qed.

(** What follows the header of a packet on a compressed connection. *)
Definition ext (c : bool) (complen : Z) : list Z := if c then int3store complen else [].

Section Read.
Context (my_realloc : list Z -> Z -> option (list Z)).

(** Room for the body. *)
Lemma net_realloc_spec c n v helping :
  rnet c n v -> realloc_works my_realloc -> where_b n <= helping < max_packet_size n -> helping >= max_packet n ->
  exists b size, net_realloc my_realloc n helping = Some (false, set_alloc n b size) /\ helping <= size <= max_packet_size n + IO_SIZE /\
    Z.of_nat (length b) = size + 7 /\ take (Z.to_nat (where_b n)) b = take (Z.to_nat (where_b n)) (buff n).
Proof.
  intros [H1 H2 H3 H4 H5 [H6 H7]] Hre Hh Hge. unfold net_realloc. rewrite bool_decide_false by lia. unfold IO_SIZE, NET_HEADER_SIZE, COMP_HEADER_SIZE in *.
  rewrite (uwrap_small 32 (helping + 4096 - 1)) by lia. set (size := (helping + 4096 - 1) / 4096 * 4096).
  assert (Hs : helping <= size <= helping + 4095) by (subst size; Zlia). clearbody size. rewrite uwrap_small by lia.
  destruct (Hre (buff n) (size + 4 + 3)) as (b & -> & Hb & Ht); [lia |]. exists b, size. split_and!; [done | lia | lia | lia |].
  rewrite <- Ht at 1. rewrite take_take. f_equal. lia.
Qed.

(** After a packet [p]: it is in the buffer at [where_b], and [rest] is still to come. *)
Record got (c : bool) (n n' : NET) (v v' : Vio) (p rest : list Z) : Prop := mk_got {
  g_rnet : rnet c n' v';
  g_pending : pending v' = rest;
  g_sent : same_sent v v';
  g_nr : pkt_nr n' = u32 (pkt_nr n + 1);
  g_where : where_b n' = where_b n;
  g_limit : max_packet_size n' = max_packet_size n;
  g_room : where_b n + Z.of_nat (length p) <= max_packet n';
  g_data : take (Z.to_nat (where_b n) + length p) (buff n') = take (Z.to_nat (where_b n)) (buff n) ++ p;
}.

Lemma real_read_body_spec c n v p rest nr complen retry alarmed nb :
  rnet c n v -> realloc_works my_realloc ->
  take (Z.to_nat (where_b n) + (4 + length (ext c complen))) (buff n) =
    take (Z.to_nat (where_b n)) (buff n) ++ header (Z.of_nat (length p)) nr ++ ext c complen ->
  (if c then 0 <= complen < 2 ^ 24 else complen = 0) ->
  pending v = p ++ rest -> Z.of_nat (length p) <= MAX_PACKET_LENGTH -> where_b n + Z.max (Z.of_nat (length p)) complen < max_packet_size n ->
  exists n' v', real_read_body my_realloc n retry alarmed nb = Some (Z.of_nat (length p), complen, n') /\ got c n n' v v' p rest /\
    (p <> [] -> where_b n + complen <= max_packet n').
Proof.
  intros Hn Hre Hh Hcl Hp Hmax Hlim. pose proof Hn as [H1 H2 H3 H4 H5 [H6 H7]]. pose proof max_packet_length as HM. unfold IO_SIZE in H6.
  unfold real_read_body. cbv zeta. set (n0 := set_pkt_nr n (u32 (pkt_nr n + 1)) (u32 (pkt_nr n + 1))).
  change (compress n0) with (compress n). change (buff n0) with (buff n). change (where_b n0) with (where_b n).
  assert (Hx : length (take (Z.to_nat (where_b n)) (buff n)) = Z.to_nat (where_b n)) by (rewrite length_take; lia).
  assert (Hcomp : (if compress n then uint3korr (buff n) (where_b n + NET_HEADER_SIZE) else Some 0) = Some complen /\ 0 <= complen < 2 ^ 24).
  { rewrite H3. destruct c; cbn [ext] in Hh.
    - pose proof (complen_loads _ _ _ _ _ _ Hh Hx Hcl) as HE. rewrite Z2Nat.id in HE by lia. by split.
    - subst complen. by split. }
  destruct Hcomp as [Hcomp Hcl2]. rewrite Hcomp. cbn [mbind option_bind].
  destruct (header_loads _ _ _ _ _ _ Hh Hx) as [_ Hlen]; [lia |]. rewrite Z2Nat.id in Hlen by lia. rewrite Hlen. cbn [mbind option_bind].
  assert (Hn0 : rnet c n0 v) by (by split).
  destruct (decide (Z.of_nat (length p) = 0)) as [Hz | Hz].
  { rewrite bool_decide_true by done. destruct (read_end_spec n0 v alarmed nb 0 complen H1 H2) as (v' & r & -> & Hr' & Hp' & Hs').
    rewrite Hz. destruct p; [| done]. eexists _, v'. split; [done |]. split; [| done]. split; try done; [by rewrite Hp' | cbn; lia |].
    cbn. by rewrite Nat.add_0_r, app_nil_r. }
  rewrite bool_decide_false by done. rewrite (uwrap_small 32 (_ + where_b n)) by lia.
  assert (Hroom : exists n1, (if bool_decide (Z.max (Z.of_nat (length p)) complen + where_b n >= max_packet n0) then net_realloc my_realloc n0 (Z.max (Z.of_nat (length p)) complen + where_b n)
      else Some (false, n0)) = Some (false, n1) /\ rnet c n1 v /\ where_b n1 = where_b n /\ pkt_nr n1 = u32 (pkt_nr n + 1) /\
      max_packet_size n1 = max_packet_size n /\ Z.max (Z.of_nat (length p)) complen + where_b n <= max_packet n1 /\
      take (Z.to_nat (where_b n)) (buff n1) = take (Z.to_nat (where_b n)) (buff n)).
  { case_bool_decide as Hg.
    - assert (Hh0 : where_b n0 <= Z.max (Z.of_nat (length p)) complen + where_b n < max_packet_size n0)
        by (change (where_b n0) with (where_b n); change (max_packet_size n0) with (max_packet_size n); lia).
      destruct (net_realloc_spec c n0 v _ Hn0 Hre Hh0 Hg) as (b & size & -> & Hs & Hb & Ht).
      eexists. split; [done |]. unfold IO_SIZE in Hs. cbn [n0 set_pkt_nr where_b max_packet_size buff] in *.
      split_and!; try done; [| cbn; lia]. split; cbn; try done; unfold IO_SIZE; lia.
    - exists n0. split_and!; try done. change (max_packet n0) with (max_packet n) in *. lia. }
  destruct Hroom as (n1 & -> & Hn1 & Hw1 & Hnr1 & Hm1 & Hr1 & Ht1). cbn [mbind option_bind]. pose proof Hn1 as [A1 A2 A3 A4 A5 [A6 A7]].
  destruct (read_bytes_spec n1 v p rest retry alarmed A1 A2 Hp) as (v2 & b & rt & al & -> & Hr2 & Hp2 & Hs2 & Hb2 & Ht2); [lia | lia |]. cbn [mbind option_bind].
  destruct (read_end_spec (set_buff (set_vio n1 v2) b) v2 al nb (Z.of_nat (length p)) complen eq_refl Hr2) as (v3 & r & -> & Hr3 & Hp3 & Hs3).
  eexists _, v3. split; [done |]. split; [| cbn; lia]. split; try done.
  - split; cbn; try done. by rewrite Hb2.
  - by rewrite Hp3.
  - by eapply same_sent_trans.
  - cbn. lia.
  - cbn. rewrite <- Hw1, Ht2. by rewrite Hw1, Ht1.
Qed.

Lemma take_prefix {A} (b x d : list A) k : take (k + length d) b = x ++ d -> length x = k -> take k b = x.
Proof.
  intros H Hx. apply (f_equal (take k)) in H. rewrite take_take, Nat.min_l in H by lia. rewrite H. by apply take_app_length'.
Qed.

Lemma my_real_read_spec c n v p rest complen :
  rnet c n v -> realloc_works my_realloc -> pending v = (header (Z.of_nat (length p)) (pkt_nr n) ++ ext c complen) ++ p ++ rest ->
  (if c then 0 <= complen < 2 ^ 24 else complen = 0) ->
  Z.of_nat (length p) <= MAX_PACKET_LENGTH -> where_b n + Z.max (Z.of_nat (length p)) complen < max_packet_size n ->
  exists n' v', my_real_read my_realloc n = Some (Z.of_nat (length p), complen, n') /\ got c n n' v v' p rest /\
    (p <> [] -> where_b n + complen <= max_packet n').
Proof.
  intros Hn Hre Hp Hcl Hmax Hlim. pose proof Hn as [H1 H2 H3 H4 H5 [H6 H7]]. pose proof max_packet_length as HM.
  unfold my_real_read. rewrite H1. cbn [mbind option_bind]. rewrite H3. cbv zeta.
  assert (He : (if c then NET_HEADER_SIZE + COMP_HEADER_SIZE else NET_HEADER_SIZE) = Z.of_nat (4 + length (ext c complen)) /\ (length (ext c complen) <= 3)%nat)
    by (destruct c; split; done || (cbn; lia)). destruct He as [He Hel].
  destruct (read_bytes_spec (set_rw n 1) v _ _ 0 false H1 H2 Hp) as (v1 & b & rt & al & E1 & Hr1 & Hp1 & Hs1 & Hb1 & Ht1);
    [cbn; lia | rewrite length_app, length_header; cbn [set_rw where_b buff]; lia |].
  rewrite length_app, length_header in E1, Ht1. rewrite He, E1. cbn [mbind option_bind negb].
  cbn [set_rw set_vio set_buff buff where_b pkt_nr] in *.
  assert (Hx : length (take (Z.to_nat (where_b n)) (buff n)) = Z.to_nat (where_b n)) by (rewrite length_take; lia).
  destruct (header_loads _ _ _ _ _ _ Ht1 Hx) as [Hld _]; [lia |]. rewrite Z2Nat.id in Hld by lia. rewrite Hld. cbn [mbind option_bind].
  rewrite bool_decide_false by tauto.
  assert (Hpre : take (Z.to_nat (where_b n)) b = take (Z.to_nat (where_b n)) (buff n)) by exact (take_prefix b _ (header (Z.of_nat (length p)) (pkt_nr n) ++ ext c complen) _ Ht1 Hx).
  set (n1 := set_buff (set_vio (set_rw n 1) v1) b).
  destruct (real_read_body_spec c n1 v1 p rest (pkt_nr n) complen rt al (vio_is_blocking v)) as (n2 & v2 & E2 & [G1 G2 G3 G4 G5 G6 G7 G8] & Hroom); try done.
  - split; cbn; try done. by rewrite Hb1.
  - change (where_b n1) with (where_b n). change (buff n1) with b. by rewrite Ht1, Hpre.
  - exists n2, v2. split; [exact E2 |]. split; [| exact Hroom]. split; try done; [by eapply same_sent_trans |].
    change (where_b n1) with (where_b n) in G8. change (buff n1) with b in G8. by rewrite G8, Hpre.
Qed.

Lemma my_real_read_plain n v p rest :
  rnet false n v -> realloc_works my_realloc -> pending v = header (Z.of_nat (length p)) (pkt_nr n) ++ p ++ rest ->
  Z.of_nat (length p) <= MAX_PACKET_LENGTH -> where_b n + Z.of_nat (length p) < max_packet_size n ->
  exists n' v', my_real_read my_realloc n = Some (Z.of_nat (length p), 0, n') /\ got false n n' v v' p rest.
Proof.
  intros Hn Hre Hp Hmax Hlim. destruct (my_real_read_spec false n v p rest 0 Hn Hre) as (n' & v' & E & Hg & _); [cbn [ext]; by rewrite app_nil_r | done | done | lia |].
  eauto.
Qed.

(** ** A payload *)

Lemma rnet_where n v w : rnet false n v -> 0 <= w <= max_packet n -> rnet false (set_where_b n w) v.
Proof. intros [H1 H2 H3 H4 H5 H6] Hw. by split. Qed.

(** After the payload [q] that starts at [w] in the buffer. *)
Record got_all (n n' : NET) (v v' : Vio) (w : Z) (q rest : list Z) (nr' : Z) : Prop := mk_got_all {
  a_rnet : rnet false n' v';
  a_pending : pending v' = rest;
  a_sent : same_sent v v';
  a_nr : pkt_nr n' = nr';
  a_limit : max_packet_size n' = max_packet_size n;
  a_room : w + Z.of_nat (length q) <= max_packet n';
  a_data : take (Z.to_nat w + length q) (buff n') = take (Z.to_nat w) (buff n) ++ q;
}.

Lemma multi_loop_spec nr q w nr' : framed nr q w nr' -> forall fuel n v rest total,
  rnet false n v -> realloc_works my_realloc -> pkt_nr n = nr -> pending v = w ++ rest -> where_b n + MAX_PACKET_LENGTH <= max_packet n ->
  where_b n + MAX_PACKET_LENGTH + Z.of_nat (length q) < max_packet_size n -> 0 <= total <= where_b n ->
  Z.of_nat (length q) < Z.of_nat fuel * MAX_PACKET_LENGTH ->
  exists len total' n' v', multi_loop my_realloc fuel n MAX_PACKET_LENGTH total = Some (len, total', n') /\
    len + total' = total + MAX_PACKET_LENGTH + Z.of_nat (length q) /\ 0 <= len < MAX_PACKET_LENGTH /\
    got_all n n' v v' (where_b n + MAX_PACKET_LENGTH) q rest nr'.
Proof.
  pose proof max_packet_length as HM.
  induction 1 as [nr q Hq | nr p q w nr' Hp Hfr IH]; intros fuel n v rest total Hn Hre Hnr Hpend Hroom Hlim Htot Hfuel;
    (destruct fuel as [| fuel]; [lia |]); cbn [multi_loop]; pose proof Hn as [H1 H2 H3 H4 H5 [H6 H7]];
    rewrite (uwrap_small 32 (where_b n + _)) by lia; rewrite (uwrap_small 32 (total + _)) by lia;
    (assert (Hn1 : rnet false (set_where_b n (where_b n + MAX_PACKET_LENGTH)) v) by (apply rnet_where; [done | lia])).
  - rewrite <- app_assoc in Hpend.
    destruct (my_real_read_plain _ v q rest Hn1 Hre) as (n2 & v2 & -> & [G1 G2 G3 G4 G5 G6 G7 G8]); [cbn; by rewrite Hnr | lia | cbn; lia |].
    cbn [mbind option_bind]. rewrite bool_decide_false by lia. eexists _, _, n2, v2. split; [done |]. split_and!; [lia | lia | lia |].
    split; try done. rewrite G4. cbn. by rewrite Hnr.
  - rewrite <- !app_assoc in Hpend. rewrite length_app in Hlim, Hfuel.
    destruct (my_real_read_plain _ v p (w ++ rest) Hn1 Hre) as (n2 & v2 & -> & [G1 G2 G3 G4 G5 G6 G7 G8]);
      [cbn; by rewrite Hnr, Hp | lia | cbn; lia |].
    cbn [mbind option_bind]. rewrite Hp, bool_decide_true by done. cbn [set_where_b where_b max_packet_size buff] in *.
    destruct (IH fuel n2 v2 rest (total + MAX_PACKET_LENGTH)) as (len & total' & n3 & v3 & E3 & Hsum & Hl3 & [A1 A2 A3 A4 A5 A6 A7]);
      [done | done | by rewrite G4; cbn; rewrite Hnr | done | lia | lia | lia | lia |].
    exists len, total', n3, v3. rewrite length_app. split_and!; [done | lia | lia | lia |]. rewrite G5 in A6, A7.
    split; try done; [by eapply same_sent_trans | congruence | rewrite length_app; lia |].
    rewrite length_app. replace (Z.to_nat (where_b n + MAX_PACKET_LENGTH + MAX_PACKET_LENGTH)) with (Z.to_nat (where_b n + MAX_PACKET_LENGTH) + length p)%nat in A7 by lia.
    rewrite Nat.add_assoc, A7, G8, app_assoc. done.
Qed.

Lemma net_read_plain_spec n v p w nr' rest :
  rnet false n v -> realloc_works my_realloc -> framed (pkt_nr n) p w nr' -> pending v = w ++ rest ->
  where_b n + Z.of_nat (length p) < max_packet_size n ->
  exists n' v', net_read_plain my_realloc n = Some (Z.of_nat (length p), n') /\
    rnet false n' v' /\ pending v' = rest /\ same_sent v v' /\ pkt_nr n' = nr' /\ where_b n' = where_b n /\ max_packet_size n' = max_packet_size n /\
    read_pos n' = where_b n /\ read (buff n') (read_pos n') (Z.of_nat (length p) + 1) = Some (p ++ [0]).
Proof.
  intros Hn Hre Hfr Hpend Hlim. pose proof max_packet_length as HM. pose proof Hn as [H1 H2 H3 H4 H5 [H6 H7]].
  assert (Hread : exists n1 v1, got_all n n1 v v1 (where_b n) p rest nr' /\ where_b n1 = where_b n /\
    net_read_plain my_realloc n =
      (let n1 := set_read_pos n1 (where_b n1) in b ← store (buff n1) (read_pos n1 + Z.of_nat (length p)) 0; Some (Z.of_nat (length p), set_buff n1 b))).
  { unfold net_read_plain. inversion Hfr as [nr q Hq | nr q q' w' nr2 Hq Hfr']; subst.
    - rewrite <- app_assoc in Hpend. destruct (my_real_read_plain n v p rest Hn Hre) as (n2 & v2 & -> & [G1 G2 G3 G4 G5 G6 G7 G8]); [done | lia | lia |].
      cbn [mbind option_bind]. rewrite bool_decide_false by lia. cbn [mbind option_bind]. exists n2, v2.
      split_and!; [by split | done |]. unfold packet_error. rewrite bool_decide_true by lia. done.
    - rewrite <- !app_assoc in Hpend. rewrite length_app in Hlim |- *.
      destruct (my_real_read_plain n v q (w' ++ rest) Hn Hre) as (n2 & v2 & -> & [G1 G2 G3 G4 G5 G6 G7 G8]); [by rewrite Hq | lia | lia |].
      cbn [mbind option_bind]. rewrite Hq, bool_decide_true by done.
      destruct (multi_loop_spec _ _ _ _ Hfr' (Z.to_nat ((max_packet_size n2 + IO_SIZE) / MAX_PACKET_LENGTH) + 3) n2 v2 rest 0)
        as (len & total & n3 & v3 & -> & Hsum & Hl3 & [A1 A2 A3 A4 A5 A6 A7]); [done | done | done | done | lia | lia | lia | unfold IO_SIZE; Zlia |].
      cbn [mbind option_bind]. unfold packet_error. rewrite (bool_decide_true (len <> _)) by lia. rewrite (uwrap_small 32 (len + total)) by lia.
      exists (set_where_b n3 (where_b n2)), v3. rewrite G5 in *. split_and!; [| done |].
      + split; try done; [apply rnet_where; [done | lia] | by eapply same_sent_trans | cbn; congruence | cbn; rewrite length_app; lia |].
        cbn. rewrite length_app. replace (Z.to_nat (where_b n + MAX_PACKET_LENGTH)) with (Z.to_nat (where_b n) + length q)%nat in A7 by lia.
        rewrite Nat.add_assoc, A7, G8, app_assoc. done.
      + rewrite bool_decide_true by lia. rewrite Z.add_0_l in Hsum. replace (Z.of_nat (length q + length q')) with (len + total) by lia. done. }
  destruct Hread as (n1 & v1 & [A1 A2 A3 A4 A5 A6 A7] & Hw1 & ->). cbv zeta. cbn [set_read_pos buff read_pos]. rewrite Hw1.
  pose proof A1 as [B1 B2 B3 B4 B5 [B6 B7]]. unfold store. rewrite decide_True by lia. cbn [mbind option_bind].
  eexists _, v1. split; [done |]. split_and!; try done.
  - split; cbn; try done. by rewrite length_insert.
  - cbn. unfold read. rewrite length_insert. rewrite decide_True by lia. f_equal.
    replace (Z.to_nat (Z.of_nat (length p) + 1)) with (length p + 1)%nat by lia.
    replace (Z.to_nat (where_b n + Z.of_nat (length p))) with (Z.to_nat (where_b n) + length p)%nat by lia.
    rewrite insert_take_drop by lia. rewrite A7, <- app_assoc, drop_app_length' by (rewrite length_take; lia).
    rewrite take_app_add'; done.
Qed.

End Read.

End NetRead.
