(* ===== verification/NetSafe.v ===== *)
(** * NetSafe: reading from any peer

    Whatever bytes arrive, in whatever pieces, and whatever the kernel and the allocator
    answer, [my_net_read] without compression returns, and every access is inside of
    the buffer. *)
From stdpp Require Import base tactics option list numbers.
From Stdlib Require Import ZArith Lia.
From S2P Require Import Prelude.
From S2P Require Import Pack.
From S2P Require Import Vio.
From S2P Require Import Net.
From S2P Require Import NetProps.
From S2P Require Import NetRead.

Module NetSafe.
Import Pack Vio Net NetProps NetRead.

(** The buffer and the limits. *)
Record snet (n : NET) : Prop := mk_snet {
  s_vio : is_Some (vio n);
  s_plain : compress n = false;
  s_buff : Z.of_nat (length (buff n)) = max_packet n + 7;
  s_where : 0 <= where_b n <= max_packet n;
  s_limit : 0 < max_packet n <= max_packet_size n + IO_SIZE /\ max_packet_size n <= 2 ^ 31;
}.

(** What reading leaves alone. *)
Definition shape (n n' : NET) : Prop :=
  max_packet n' = max_packet n /\ max_packet_size n' = max_packet_size n /\ where_b n' = where_b n /\ compress n' = compress n /\
  length (buff n') = length (buff n) /\ is_Some (vio n').

Lemma shape_trans a b c : shape a b -> shape b c -> shape a c.
Proof. unfold shape. intuition congruence. Qed.

Lemma shape_snet n n' : shape n n' -> snet n -> snet n'.
Proof. intros (H1 & H2 & H3 & H4 & H5 & H6) [A1 A2 A3 A4 A5]. split; rewrite ?H1, ?H2, ?H3, ?H5; congruence || done. Qed.

Lemma blocking_loop_safe fuel : forall n v retry,
  vio n = Some v -> (length (fscript v) < fuel)%nat ->
  exists ok v' retry', blocking_loop fuel n retry = Some (ok, set_vio n v', retry') /\ rscript v' = rscript v.
Proof.
  induction fuel as [| fuel IH]; intros n v retry Hv Hf; [lia |]. cbn [blocking_loop]. rewrite Hv. cbn [mbind option_bind].
  destruct (vio_blocking v true) as [[r o] v'] eqn:E. apply vio_blocking_same in E as (H1 & _ & _ & _ & _ & Hr & H6 & H7).
  destruct Hr as [-> | ->].
  - rewrite bool_decide_false by lia. by exists true, v', retry.
  - rewrite bool_decide_true by lia. specialize (H7 eq_refl). destruct (vio_should_retry v'); [| by eexists _, _, _].
    case_bool_decide; [| by eexists _, _, _].
    destruct (IH (set_vio n v') v' (retry + 1) eq_refl) as (ok & v2 & r2 & E2 & H2); [lia |]. exists ok, v2, r2. split; [exact E2 | congruence].
Qed.

Lemma set_blocking_safe n v retry : vio n = Some v ->
  exists ok v' retry', set_blocking n retry = Some (ok, set_vio n v', retry') /\ rscript v' = rscript v.
Proof. intros Hv. unfold set_blocking. rewrite Hv. cbn [mbind option_bind]. apply blocking_loop_safe; [done | lia]. Qed.

Lemma shape_vio n v : shape n (set_vio n v).
Proof. by repeat split. Qed.

Lemma shape_error n e c : is_Some (vio n) -> shape n (set_error n e c).
Proof. intros H. by repeat split. Qed.

Lemma read_loop_safe fuel : forall n v pos remain retry (alarmed : bool),
  vio n = Some v -> 0 <= pos -> 0 <= remain -> pos + remain <= Z.of_nat (length (buff n)) ->
  (Z.to_nat remain + length (rscript v) + (if alarmed then 0 else 1) < fuel)%nat ->
  exists ok n' retry' alarmed', read_loop fuel n pos remain retry alarmed = Some (ok, n', retry', alarmed') /\ shape n n' /\ pkt_nr n' = pkt_nr n.
Proof.
  induction fuel as [| fuel IH]; intros n v pos remain retry alarmed Hv H0 Hrem Hle Hf; [lia |]. cbn [read_loop].
  destruct (decide (remain > 0)) as [Hpos | Hz].
  2: { rewrite bool_decide_false by done. eexists _, n, _, _. split; [done |]. split; [| done]. repeat split. by rewrite Hv. }
  rewrite bool_decide_true by done. rewrite Hv. cbn [mbind option_bind].
  destruct (vio_do_read v remain) as [[r bs] v1] eqn:E. apply vio_read_bounds in E as (Hr & Hbs & _ & Hlen & Hfail); [| lia].
  destruct (decide (r <= 0)) as [Hneg | Hgot].
  - rewrite bool_decide_true by done. cbv zeta. specialize (Hfail Hneg).
    assert (Hagain : forall v2 r2 (a2 : bool), (length (rscript v2) + (if a2 then 0 else 1) < length (rscript v) + (if alarmed then 0 else 1))%nat ->
      exists ok n' retry' alarmed', read_loop fuel (set_vio n v2) pos remain r2 a2 = Some (ok, n', retry', alarmed') /\ shape n n' /\ pkt_nr n' = pkt_nr n).
    { intros v2 r2 a2 Hl. destruct (IH (set_vio n v2) v2 pos remain r2 a2 eq_refl) as (ok & n' & r' & a' & E2 & Hs2 & Hp2); [done | done | done | lia |].
      exists ok, n', r', a'. split; [done |]. split; [| done]. by eapply shape_trans; [apply shape_vio |]. }
    destruct ((vio_should_retry v1 || bool_decide (r = 0)) && negb alarmed) eqn:Hfirst.
    + apply andb_true_iff in Hfirst as [_ Hal]. destruct alarmed; [done |].
      destruct (set_blocking_safe (set_vio n v1) v1 retry eq_refl) as (ok & v2 & r2 & -> & Hr2). cbn [mbind option_bind]. destruct ok.
      * apply (Hagain v2). rewrite Hr2. lia.
      * eexists _, _, _, _. split; [done |]. split; [| done]. by repeat split.
    + assert (Hstop : (length (rscript v1) < length (rscript v))%nat \/ bool_decide (errno v1 = SOCKET_EINTR) = false /\ vio_should_retry v1 = false).
      { destruct Hfail as [? | (_ & _ & He)]; [by left |]. right. unfold vio_should_retry. rewrite He. done. }
      destruct (alarmed && vio_should_retry v1 && bool_decide (retry < retry_count (set_vio n v1))) eqn:Hret.
      * destruct Hstop as [Hlt | [_ Hno]]; [| by rewrite Hno, andb_false_r in Hret]. apply (Hagain v1). lia.
      * destruct (bool_decide (errno v1 = SOCKET_EINTR)) eqn:Hei.
        -- destruct Hstop as [Hlt | [? _]]; [| done]. apply (Hagain v1). lia.
        -- eexists _, _, _, _. split; [done |]. split; [| done]. by repeat split.
  - rewrite bool_decide_false by done. cbn [set_vio buff].
    destruct (write_spec (buff n) pos bs) as (b & -> & Hb & _); [lia | lia |]. cbn [mbind option_bind].
    destruct (IH (set_buff (set_vio n v1) b) v1 (pos + r) (remain - r) retry alarmed eq_refl) as (ok & n' & r' & a' & E2 & Hs2 & Hp2);
      [lia | lia | cbn; lia | lia |].
    exists ok, n', r', a'. split; [done |]. split; [| done]. eapply shape_trans; [| exact Hs2]. by repeat split.
Qed.

Lemma load_safe {A} (m : list A) i : 0 <= i < Z.of_nat (length m) -> exists x, load m i = Some x.
Proof. intros H. unfold load. rewrite decide_True by lia. apply lookup_lt_is_Some. lia. Qed.

Lemma uint3korr_safe m p : 0 <= p -> p + 3 <= Z.of_nat (length m) -> exists x, uint3korr m p = Some x /\ 0 <= x <= MAX_PACKET_LENGTH.
Proof.
  intros H0 Hle. unfold uint3korr. destruct (load_safe m p) as [a ->]; [lia |]. destruct (load_safe m (p + 1)) as [b ->]; [lia |].
  destruct (load_safe m (p + 2)) as [c ->]; [lia |]. cbn [mbind option_bind]. eexists. split; [done |].
  pose proof (uwrap_range 8 a). pose proof (uwrap_range 8 b). pose proof (uwrap_range 8 c). rewrite max_packet_length.
  rewrite !shl_arith by lia. rewrite uwrap_small by lia. lia.
Qed.

Lemma end_alarm_safe n alarmed b : is_Some (vio n) -> exists n', end_alarm n alarmed b = Some n' /\ shape n n' /\ pkt_nr n' = pkt_nr n.
Proof.
  intros [v Hv]. unfold end_alarm. destruct alarmed.
  - rewrite Hv. cbn [mbind option_bind]. destruct (vio_blocking v b) as [[r o] v']. eexists. split; [done |]. by repeat split.
  - exists n. split; [done |]. repeat split. by rewrite Hv.
Qed.

(** An allocator that may fail. *)
Definition realloc_sound (my_realloc : list Z -> Z -> option (list Z)) : Prop :=
  forall b size b', Z.of_nat (length b) <= size -> my_realloc b size = Some b' -> Z.of_nat (length b') = size.

(** The result of [my_real_read]: an error, or a packet that is inside of the buffer. *)
Definition read_result (n n' : NET) (len : Z) : Prop :=
  snet n' /\ where_b n' = where_b n /\ max_packet_size n' = max_packet_size n /\
  (len = packet_error \/ 0 <= len <= MAX_PACKET_LENGTH /\ where_b n + len <= max_packet n').

Section Read.
Context (my_realloc : list Z -> Z -> option (list Z)).

Lemma read_end_safe n n1 alarmed b len complen :
  snet n1 -> where_b n1 = where_b n -> max_packet_size n1 = max_packet_size n ->
  len = packet_error \/ 0 <= len <= MAX_PACKET_LENGTH /\ where_b n + len <= max_packet n1 ->
  exists n', read_end n1 alarmed b len complen = Some (len, complen, n') /\ read_result n n' len.
Proof.
  intros Hn Hw Hm Hlen. unfold read_end. destruct (end_alarm_safe n1 alarmed b (s_vio _ Hn)) as (n2 & -> & Hs & _). cbn [mbind option_bind].
  eexists. split; [done |]. assert (Hs' : shape n1 (set_rw n2 0)) by exact Hs. pose proof (shape_snet _ _ Hs' Hn) as Hn'.
  destruct Hs' as (A1 & A2 & A3 & _). split_and!; [done | congruence | congruence |]. by rewrite A1.
Qed.

Lemma net_realloc_safe n helping :
  snet n -> realloc_sound my_realloc -> where_b n <= helping -> helping >= max_packet n ->
  exists err n', net_realloc my_realloc n helping = Some (err, n') /\ snet n' /\ where_b n' = where_b n /\ max_packet_size n' = max_packet_size n /\
    (err = false -> helping <= max_packet n').
Proof.
  intros Hn Hre Hh Hge. pose proof Hn as [H1 H2 H3 H4 [H5 H6]]. unfold net_realloc, IO_SIZE, NET_HEADER_SIZE, COMP_HEADER_SIZE in *.
  case_bool_decide as Hbig; [eexists true, _; split; [done |]; by split_and!; try (by split) |].
  rewrite (uwrap_small 32 (helping + 4096 - 1)) by lia. set (size := (helping + 4096 - 1) / 4096 * 4096).
  assert (Hs : helping <= size <= helping + 4095) by (subst size; Zlia). clearbody size. rewrite uwrap_small by lia.
  destruct (my_realloc (buff n) (size + 4 + 3)) as [b |] eqn:Eb; [| eexists true, _; split; [done |]; by split_and!; try (by split)].
  apply Hre in Eb; [| lia]. eexists false, _. split; [done |]. split_and!; try done; [| cbn; lia]. split; cbn; try done; unfold IO_SIZE; lia.
Qed.

Lemma read_bytes_safe n remain retry alarmed :
  snet n -> 0 <= remain -> where_b n + remain <= max_packet n + 7 ->
  exists ok n' retry' alarmed', read_bytes n remain retry alarmed = Some (ok, n', retry', alarmed') /\ shape n n' /\ pkt_nr n' = pkt_nr n.
Proof.
  intros [[v Hv] H2 H3 H4 H5] H0 Hle. unfold read_bytes. rewrite Hv. cbn [mbind option_bind].
  apply (read_loop_safe _ n v); [done | lia | lia | lia | destruct alarmed; lia].
Qed.

Lemma my_real_read_safe n :
  snet n -> realloc_sound my_realloc -> exists len complen n', my_real_read my_realloc n = Some (len, complen, n') /\ read_result n n' len.
Proof.
  intros Hn Hre. pose proof Hn as [[v Hv] H2 H3 H4 [H5 H6]]. pose proof max_packet_length as HM. unfold my_real_read. rewrite Hv. cbn [mbind option_bind]. rewrite H2. cbv zeta.
  assert (Hn0 : snet (set_rw n 1)) by (split; try done; by rewrite Hv).
  destruct (read_bytes_safe (set_rw n 1) NET_HEADER_SIZE 0 false Hn0) as (ok & n1 & rt & al & -> & Hs1 & Hp1); [done | unfold NET_HEADER_SIZE; cbn; lia |].
  cbn [mbind option_bind]. pose proof (shape_snet _ _ Hs1 Hn0) as Hn1. destruct Hs1 as (A1 & A2 & A3 & _). cbn in A1, A2, A3.
  destruct ok; cbn [negb]; [| destruct (read_end_safe n n1 al (vio_is_blocking v) packet_error 0) as (n' & -> & ?); [done | done | done | by left | by eexists _, _, n']].
  pose proof Hn1 as [[v1 Hv1] B2 B3 B4 [B5 B6]]. destruct (load_safe (buff n1) (where_b n1 + 3)) as [c ->]; [lia |]. cbn [mbind option_bind].
  case_bool_decide; [destruct (read_end_safe n n1 al (vio_is_blocking v) packet_error 0) as (n' & -> & ?); [done | done | done | by left | by eexists _, _, n'] |].
  unfold real_read_body. cbv zeta. set (n2 := set_pkt_nr n1 _ _). assert (Hn2 : snet n2) by (split; try done; by exists v1).
  change (compress n2) with (compress n1). change (buff n2) with (buff n1). change (where_b n2) with (where_b n1). rewrite B2. cbn [mbind option_bind].
  destruct (uint3korr_safe (buff n1) (where_b n1)) as (len & -> & Hlen); [lia | lia |]. cbn [mbind option_bind].
  case_bool_decide as Hz; [destruct (read_end_safe n n2 al (vio_is_blocking v) 0 0) as (n' & -> & ?); [done | done | done | right; cbn; lia | by eexists _, _, n'] |].
  unfold IO_SIZE in B5. rewrite Z.max_l by lia. rewrite (uwrap_small 32 (len + where_b n1)) by lia.
  assert (Hroom : exists err n3, (if bool_decide (len + where_b n1 >= max_packet n2) then net_realloc my_realloc n2 (len + where_b n1) else Some (false, n2)) = Some (err, n3) /\
    snet n3 /\ where_b n3 = where_b n2 /\ max_packet_size n3 = max_packet_size n2 /\ (err = false -> len + where_b n1 <= max_packet n3)).
  { case_bool_decide as Hg; [| exists false, n2; split_and!; try done; lia].
    assert (where_b n2 <= len + where_b n1) by (change (where_b n2) with (where_b n1); lia). by apply net_realloc_safe. }
  destruct Hroom as (err & n3 & -> & Hn3 & Hw3 & Hm3 & Hr3). cbn [mbind option_bind].
  change (where_b n2) with (where_b n1) in Hw3. change (max_packet_size n2) with (max_packet_size n1) in Hm3.
  destruct err; [destruct (read_end_safe n n3 al (vio_is_blocking v) packet_error 0) as (n' & -> & ?); [done | congruence | congruence | by left | by eexists _, _, n'] |].
  specialize (Hr3 eq_refl). destruct (read_bytes_safe n3 len rt al Hn3) as (ok & n4 & rt' & al' & -> & Hs4 & _); [lia | lia |]. cbn [mbind option_bind].
  pose proof (shape_snet _ _ Hs4 Hn3) as Hn4. destruct Hs4 as (C1 & C2 & C3 & _).
  destruct (read_end_safe n n4 al' (vio_is_blocking v) (if ok then len else packet_error) 0) as (n' & -> & ?); [done | congruence | congruence | | by eexists _, _, n'].
  destruct ok; [right | by left]. lia.
Qed.

Lemma snet_where n w : snet n -> 0 <= w <= max_packet n -> snet (set_where_b n w).
Proof. intros [H1 H2 H3 H4 H5] Hw. by split. Qed.

Lemma multi_loop_safe fuel : forall n total,
  snet n -> realloc_sound my_realloc -> where_b n + MAX_PACKET_LENGTH <= max_packet n -> 0 <= total <= where_b n ->
  max_packet_size n + IO_SIZE - where_b n < Z.of_nat fuel * MAX_PACKET_LENGTH ->
  exists len total' n', multi_loop my_realloc fuel n MAX_PACKET_LENGTH total = Some (len, total', n') /\ snet n' /\
    max_packet_size n' = max_packet_size n /\ where_b n <= where_b n' /\ 0 <= total' /\ total' - total = where_b n' - where_b n /\
    (len = packet_error \/ 0 <= len <= MAX_PACKET_LENGTH /\ where_b n' + len <= max_packet n').
Proof.
  pose proof max_packet_length as HM.
  induction fuel as [| fuel IH]; intros n total Hn Hre Hroom Htot Hf; pose proof Hn as [H1 H2 H3 H4 [H5 H6]]; [lia |]. cbn [multi_loop].
  unfold IO_SIZE in *. rewrite (uwrap_small 32 (where_b n + _)) by lia. rewrite (uwrap_small 32 (total + _)) by lia.
  assert (Hn1 : snet (set_where_b n (where_b n + MAX_PACKET_LENGTH))) by (apply snet_where; [done | lia]).
  destruct (my_real_read_safe _ Hn1 Hre) as (len & complen & n2 & -> & Hn2 & Hw2 & Hm2 & Hcase). cbn [mbind option_bind]. cbn in Hw2, Hm2, Hcase.
  case_bool_decide as Hmore.
  - subst len. destruct Hcase as [Hc | [_ Hc]]; [by rewrite HM in Hc |].
    destruct (IH n2 (total + MAX_PACKET_LENGTH) Hn2 Hre) as (len & total' & n3 & E3 & Hn3 & Hm3 & Hw3 & Ht3 & Hd3 & Hc3); [lia | lia | lia |].
    exists len, total', n3. split_and!; [done | done | congruence | lia | lia | lia | done].
  - exists len, (total + MAX_PACKET_LENGTH), n2. split_and!; [done | done | done | lia | lia | lia |]. by rewrite Hw2.
Qed.

Lemma net_read_plain_safe n :
  snet n -> realloc_sound my_realloc ->
  exists len n', net_read_plain my_realloc n = Some (len, n') /\ snet n' /\ where_b n' = where_b n /\ max_packet_size n' = max_packet_size n /\
    (len = packet_error \/ 0 <= len /\ where_b n + len <= max_packet n').
Proof.
  intros Hn Hre. pose proof max_packet_length as HM. pose proof Hn as [H1 H2 H3 H4 [H5 H6]]. unfold net_read_plain, IO_SIZE in *.
  destruct (my_real_read_safe _ Hn Hre) as (len & complen & n1 & -> & Hn1 & Hw1 & Hm1 & Hcase). cbn [mbind option_bind].
  assert (Hall : exists len2 n2,
    (if bool_decide (len = MAX_PACKET_LENGTH) then
       '(len, total, n) ← multi_loop my_realloc (Z.to_nat ((max_packet_size n1 + 4096) / MAX_PACKET_LENGTH) + 3) n1 len 0;
       Some (if bool_decide (len <> packet_error) then u32 (len + total) else len, set_where_b n (where_b n1))
     else Some (len, n1)) = Some (len2, n2) /\ snet n2 /\ where_b n2 = where_b n /\ max_packet_size n2 = max_packet_size n /\
    (len2 = packet_error \/ 0 <= len2 /\ where_b n + len2 <= max_packet n2)).
  { case_bool_decide as Hm; [| exists len, n1; split_and!; try done; destruct Hcase as [? | ?]; [by left | right; lia]].
    subst len. destruct Hcase as [Hc | [_ Hc]]; [by rewrite HM in Hc |].
    destruct (multi_loop_safe (Z.to_nat ((max_packet_size n1 + 4096) / MAX_PACKET_LENGTH) + 3) n1 0 Hn1 Hre)
      as (len & total & n2 & -> & Hn2 & Hm2 & Hw2 & Ht2 & Hd2 & Hc2); [lia | lia | unfold IO_SIZE; rewrite HM; Zlia |].
    cbn [mbind option_bind]. pose proof Hn2 as [B1 B2 B3 B4 [B5 B6]]. unfold IO_SIZE in B5.
    eexists _, _. split; [done |]. split_and!; [apply snet_where; [done | lia] | done | cbn; congruence |]. cbn.
    destruct Hc2 as [-> | [Hl2 Hr2]]; [left; by rewrite bool_decide_false by tauto |]. right. unfold packet_error.
    rewrite bool_decide_true by lia. rewrite uwrap_small by lia. lia. }
  destruct Hall as (len2 & n2 & -> & Hn2 & Hw2 & Hm2 & Hc2). cbn [mbind option_bind]. cbv zeta. cbn [set_read_pos read_pos buff].
  assert (Hn3 : snet (set_read_pos n2 (where_b n2))) by (destruct Hn2; by split). pose proof Hn2 as [B1 B2 B3 B4 [B5 B6]].
  case_bool_decide as He; [| eexists _, _; split; [done |]; by split_and!].
  destruct Hc2 as [-> | Hc2]; [done |]. unfold store. rewrite decide_True by lia. cbn [mbind option_bind]. eexists _, _. split; [done |].
  split_and!; try done; [| right; cbn; lia]. destruct Hn3 as [C1 C2 C3 C4 C5]. split; try done. cbn. by rewrite length_insert.
Qed.

End Read.

End NetSafe.
