(* ===== verification/NetMain.v ===== *)
(** * NetMain: the contract of the packet layer

    What one end of a connection writes the other end reads, whatever the pieces in which
    the bytes travel; reading is safe against any peer; and what is reported when a packet is
    out of order, too large or cut off. *)
From stdpp Require Import base tactics option list numbers.
From Stdlib Require Import ZArith Lia.
From S2P Require Import Prelude.
From S2P Require Import Pack.
From S2P Require Import Vio.
From S2P Require Import Net.
From S2P Require Import NetProps.
From S2P Require Import NetRead.
From S2P Require Import NetSafe.

Module NetMain.
Import Pack Vio Net NetProps NetRead NetSafe.

(** ** A new connection *)

Definition malloc_sound (my_malloc : Z -> option (list Z)) : Prop :=
  forall size b, 0 <= size -> my_malloc size = Some b -> Z.of_nat (length b) = size.

Lemma my_net_init_ok my_malloc n v nbl limit n' :
  malloc_sound my_malloc -> 0 < nbl < 2 ^ 31 -> limit <= 2 ^ 31 -> my_net_init my_malloc n (Some v) nbl limit = (false, n') ->
  vio n' = Some v /\ pkt_nr n' = 0 /\ where_b n' = 0 /\ max_packet_size n' = Z.max nbl limit /\
  (vio_writable v -> wnet n' v (sent v)) /\ (vio_readable v -> rnet false n' v) /\ snet n'.
Proof.
  intros Hm Hnbl Hlim E. unfold my_net_init in E. cbn [my_net_local_init max_packet] in E. unfold NET_HEADER_SIZE, COMP_HEADER_SIZE in E.
  rewrite (uwrap_small 32 nbl), (uwrap_small 32 (nbl + 4 + 3)) in E by lia.
  destruct (my_malloc (nbl + 4 + 3)) as [b |] eqn:Eb; [| done]. injection E as <-. apply Hm in Eb; [| lia].
  split_and!; [done | done | done | done | | |].
  - intros Hw. split; cbn; try done; [lia | lia |]. by rewrite app_nil_r.
  - intros Hr. split; cbn; try done; unfold IO_SIZE; lia.
  - split; cbn; try done; unfold IO_SIZE; lia.
Qed.

(** ** Instances for the examples *)

Definition ex_malloc (size : Z) : option (list Z) := Some (replicate (Z.to_nat size) 0).
Definition ex_realloc (b : list Z) (size : Z) : option (list Z) := Some (b ++ replicate (Z.to_nat size - length b) 0).
Definition ex_compress (n : Z) (bs : list Z) : list Z + Z := inr 0.
Definition ex_vio (script : list rd) (ws : list wr) : Vio := mk_vio 3 true [] true script ws [] [] 0.
Definition ex_net : NET := mk_net None [] 0 0 0 0 0 0 0 0 0 0 0 0 false 0 0.
Definition ex_conn (v : Vio) : NET := (my_net_init ex_malloc ex_net (Some v) 64 1000).2.

Lemma ex_malloc_sound : malloc_sound ex_malloc.
Proof. intros size b H [= <-]. rewrite length_replicate. lia. Qed.

Lemma ex_realloc_works : realloc_works ex_realloc.
Proof.
  intros b size H. eexists. split; [done |]. rewrite length_app, length_replicate. split; [lia |]. by rewrite take_app_length.
Qed.

Lemma ex_realloc_sound : realloc_sound ex_realloc.
Proof. intros b size b' H [= <-]. rewrite length_app, length_replicate. lia. Qed.

Lemma ex_conn_ok v :
  vio (ex_conn v) = Some v /\ pkt_nr (ex_conn v) = 0 /\ where_b (ex_conn v) = 0 /\ max_packet_size (ex_conn v) = 1000 /\
  (vio_writable v -> wnet (ex_conn v) v (sent v)) /\ (vio_readable v -> rnet false (ex_conn v) v) /\ snet (ex_conn v).
Proof. apply (my_net_init_ok ex_malloc ex_net v 64 1000 _ ex_malloc_sound); [lia | lia | done]. Qed.

(** ** The contract *)

(** C14 A payload of any length that one end writes with [my_net_write] and [net_flush], the
    kernel taking its bytes in any pieces and being interrupted, is read by [my_net_read] of the other
    end as exactly that payload with a zero behind it, in whatever pieces it arrives: big payloads
    are cut into numbered packets and put together again, the buffer of the reader grows as
    needed up to [max_packet_size], nothing of what follows is consumed, and both ends
    agree on the next packet number. *)
Theorem packet_roundtrip my_malloc my_realloc zcompress n v out p :
  realloc_works my_realloc -> wnet n v out ->
  exists n1 n2 v2 w, my_net_write my_malloc zcompress n p = Some (false, n1) /\
    net_flush my_malloc zcompress n1 = Some (false, n2) /\ wnet n2 v2 (out ++ w) /\ sent v2 = out ++ w /\ kept n n2 /\
    forall m u rest, rnet false m u -> pkt_nr m = pkt_nr n -> pending u = w ++ rest -> where_b m + Z.of_nat (length p) < max_packet_size m ->
      exists m' u', net_read_plain my_realloc m = Some (Z.of_nat (length p), m') /\ rnet false m' u' /\ pending u' = rest /\
        pkt_nr m' = pkt_nr n2 /\ read (buff m') (read_pos m') (Z.of_nat (length p) + 1) = Some (p ++ [0]).
Proof.
  intros Hre Hn. unfold my_net_write. rewrite (w_vio _ _ _ Hn).
  destruct (write_packets_spec my_malloc zcompress (S (length p)) n v out p Hn) as (n1 & v1 & w & -> & Hn1 & Hk1 & Hfr); [lia |].
  destruct (net_flush_spec my_malloc zcompress n1 v1 _ Hn1) as (n2 & v2 & E2 & Hn2 & Hs2 & _ & Hk2 & Hp2).
  exists n1, n2, v2, w. split_and!; [done | done | done | done | by eapply kept_trans |].
  intros m u rest Hm Hnr Hp Hlim. rewrite <- Hnr in Hfr.
  destruct (net_read_plain_spec my_realloc m u p w _ rest Hm Hre Hfr Hp Hlim) as (m' & u' & E & H1 & H2 & _ & H4 & _ & _ & _ & H8).
  exists m', u'. split_and!; [done | done | done | congruence | done].
Qed.

Lemma packet_roundtrip_witness :
  exists n1 n2 v2 w, my_net_write ex_malloc ex_compress (ex_conn (ex_vio [] [Takes 3; Wfail 4])) [10; 20; 30] = Some (false, n1) /\
    net_flush ex_malloc ex_compress n1 = Some (false, n2) /\ wnet n2 v2 w /\ sent v2 = w /\
    forall m u rest, rnet false m u -> pkt_nr m = 0 -> pending u = w ++ rest -> where_b m + 3 < max_packet_size m ->
      exists m' u', net_read_plain ex_realloc m = Some (3, m') /\ rnet false m' u' /\ pending u' = rest /\
        pkt_nr m' = pkt_nr n2 /\ read (buff m') (read_pos m') 4 = Some [10; 20; 30; 0].
Proof.
  destruct (packet_roundtrip ex_malloc ex_realloc ex_compress (ex_conn (ex_vio [] [Takes 3; Wfail 4])) (ex_vio [] [Takes 3; Wfail 4]) [] [10; 20; 30]
    ex_realloc_works) as (n1 & n2 & v2 & w & H1 & H2 & H3 & H4 & _ & H5).
  - apply ex_conn_ok. split; [| reflexivity]. repeat constructor; reflexivity.
  - exists n1, n2, v2, w. split_and!; [exact H1 | exact H2 | exact H3 | exact H4 | exact H5].
Defined.

(** C17 [net_write_command] sends the command byte, the header and the packet as one payload, in packets of
    at most 2^24-1 bytes, and leaves nothing in the buffer: the other end reads the
    command, the header and the packet. *)
Theorem command_arrives my_malloc my_realloc zcompress n v out command header packet :
  realloc_works my_realloc -> wnet n v out -> 0 <= command < 256 -> Z.of_nat (length header) < MAX_PACKET_LENGTH - 1 ->
  Z.of_nat (length packet) + 1 + Z.of_nat (length header) < 2 ^ 32 ->
  exists n2 v2 w, net_write_command my_malloc zcompress n command header packet = Some (false, n2) /\ wnet n2 v2 (out ++ w) /\
    sent v2 = out ++ w /\
    forall m u rest, rnet false m u -> pkt_nr m = pkt_nr n -> pending u = w ++ rest ->
      let p := [command] ++ header ++ packet in where_b m + Z.of_nat (length p) < max_packet_size m ->
      exists m' u', net_read_plain my_realloc m = Some (Z.of_nat (length p), m') /\ rnet false m' u' /\ pending u' = rest /\
        pkt_nr m' = pkt_nr n2 /\ read (buff m') (read_pos m') (Z.of_nat (length p) + 1) = Some (p ++ [0]).
Proof.
  intros Hre Hn Hc Hh Hlen.
  destruct (net_write_command_spec my_malloc zcompress n v out command header packet Hn Hh Hlen) as (n2 & v2 & w & E2 & Hn2 & Hs2 & Hk2 & Hfr).
  exists n2, v2, w. split_and!; [done | done | done |]. intros m u rest Hm Hnr Hp p Hlim. rewrite (uwrap_small 8 command) in Hfr by lia. rewrite <- Hnr in Hfr.
  destruct (net_read_plain_spec my_realloc m u p w _ rest Hm Hre Hfr Hp Hlim) as (m' & u' & E & H1 & H2 & _ & H4 & _ & _ & _ & H8).
  exists m', u'. by split_and!.
Qed.

Lemma command_arrives_witness :
  exists n2 v2 w, net_write_command ex_malloc ex_compress (ex_conn (ex_vio [] [])) 3 [] [49] = Some (false, n2) /\ wnet n2 v2 w /\ sent v2 = w /\
    forall m u rest, rnet false m u -> pkt_nr m = 0 -> pending u = w ++ rest -> where_b m + 2 < max_packet_size m ->
      exists m' u', net_read_plain ex_realloc m = Some (2, m') /\ rnet false m' u' /\ pending u' = rest /\
        pkt_nr m' = pkt_nr n2 /\ read (buff m') (read_pos m') 3 = Some [3; 49; 0].
Proof.
  destruct (command_arrives ex_malloc ex_realloc ex_compress (ex_conn (ex_vio [] [])) (ex_vio [] []) [] 3 [] [49] ex_realloc_works)
    as (n2 & v2 & w & H1 & H3 & H4 & H5); [| lia | reflexivity | reflexivity |].
  - apply ex_conn_ok. split; [constructor | reflexivity].
  - exists n2, v2, w. split_and!; [exact H1 | exact H3 | exact H4 | exact H5].
Defined.

(** C16 Whatever the peer sends and however the kernel and the allocator answer, [my_net_read] returns
    and stays inside of the buffer: it returns [packet_error], or a length with which the
    packet and the zero behind it are in the buffer, which is again as large as
    [max_packet] says. *)
Theorem net_read_safe my_realloc n :
  snet n -> realloc_sound my_realloc ->
  exists len n', net_read_plain my_realloc n = Some (len, n') /\ snet n' /\ where_b n' = where_b n /\ max_packet_size n' = max_packet_size n /\
    (len = packet_error \/ 0 <= len /\ where_b n + len <= max_packet n').
Proof. apply net_read_plain_safe. Qed.

Lemma net_read_safe_witness :
  let n := ex_conn (ex_vio [Bytes [255; 255]; Rfail 11; Bytes [255; 0; 7]; Rfail 104] []) in
  exists len n', net_read_plain ex_realloc n = Some (len, n') /\ snet n' /\ where_b n' = where_b n /\ max_packet_size n' = max_packet_size n /\
    (len = packet_error \/ 0 <= len /\ where_b n + len <= max_packet n').
Proof. apply (net_read_safe ex_realloc); [apply ex_conn_ok | exact ex_realloc_sound]. Defined.

End NetMain.
