(* ===== verification/NetComp.v ===== *)
(** * NetComp: reading the compressed protocol

    The branch of [my_net_read] for a compressed connection: packets of the protocol are
    cut out of a stream of uncompressed data that is kept in [net->buff]. *)
From stdpp Require Import base tactics option list numbers.
From Stdlib Require Import ZArith Lia.
From S2P Require Import Prelude.
From S2P Require Import Pack.
From S2P Require Import Vio.
From S2P Require Import Compress.
From S2P Require Import Net.
From S2P Require Import NetProps.
From S2P Require Import NetRead.

Module NetComp.
Import Pack Vio Compress Net NetProps NetRead.

Definition ER_NET_UNCOMPRESS_ERROR : Z := 1157.

(** [buf_length], [start_of_packet], [first_packet_offset] and [multi_byte_packet]. *)
Record cursor := mk_cursor {
  c_length : Z;
  c_start : Z;
  c_first : Z;
  c_multi : Z;
}.

(** Move data down to read the next data packet after the current one. *)
Definition move_down (n : NET) (c : cursor) : option (NET * cursor) :=
  if bool_decide (c_first c <> 0) then
    bs ← read (buff n) (c_first c) (u32 (c_length c - c_first c));
    b ← write (buff n) 0 bs;
    Some (set_buff n b, mk_cursor (u32 (c_length c - c_first c)) (u32 (c_start c - c_first c)) 0 (c_multi c))
  else Some (n, c).

(** What a pass through the loop does: [break], [continue] or read more. *)
Inductive pass := Break (n : NET) (c : cursor) | Continue (n : NET) (c : cursor) | More.

(** The packet at [start_of_packet] when all of it is in the buffer. *)
Definition take_packet (n : NET) (c : cursor) : option pass :=
  let avail := u32 (c_length c - c_start c) in
  if bool_decide (avail >= NET_HEADER_SIZE) then
    read_length ← uint3korr (buff n) (c_start c);
    if bool_decide (read_length = 0) then
      Some (Break n (mk_cursor (c_length c) (u32 (c_start c + NET_HEADER_SIZE)) (c_first c) (c_multi c)))
    else if bool_decide (read_length + NET_HEADER_SIZE <= avail) then
      '(n, c) ←
        (if bool_decide (c_multi c <> 0) then
           (* Remove packet header for second packet *)
           bs ← read (buff n) (c_first c + c_start c + NET_HEADER_SIZE) avail;
           b ← write (buff n) (c_first c + c_start c) bs;
           Some (set_buff n b, mk_cursor (u32 (c_length c - NET_HEADER_SIZE)) (u32 (c_start c + read_length)) (c_first c) (c_multi c))
         else Some (n, mk_cursor (c_length c) (u32 (c_start c + read_length + NET_HEADER_SIZE)) (c_first c) (c_multi c)));
      if bool_decide (read_length <> MAX_PACKET_LENGTH)
      then Some (Break n (mk_cursor (c_length c) (c_start c) (c_first c) 0))
      else
        '(n, c) ← move_down n (mk_cursor (c_length c) (c_start c) (c_first c) NET_HEADER_SIZE);
        Some (Continue n c)
    else Some More
  else Some More.

Section Read.
Context (my_malloc : Z -> option (list Z)) (my_realloc : list Z -> Z -> option (list Z)).
Context (zuncompress : Z -> list Z -> list Z + Z).

(** Read one compressed packet behind the data; [None] inside is [packet_error]. *)
Definition read_more (n : NET) (c : cursor) : option (option cursor * NET) :=
  '(n, c) ← move_down n c;
  let n := set_where_b n (c_length c) in
  '(packet_len, complen, n) ← my_real_read my_realloc n;
  if bool_decide (packet_len = packet_error) then Some (None, n)
  else
    data ← read (buff n) (where_b n) packet_len;
    let '(err, out, complen) := my_uncompress my_malloc zuncompress data complen in
    if err : bool then Some (None, set_error n 2 ER_NET_UNCOMPRESS_ERROR)
    else
      b ← write (buff n) (where_b n) out;
      Some (Some (mk_cursor (u32 (c_length c + complen)) (c_start c) (c_first c) (c_multi c)), set_buff n b).

Fixpoint comp_loop (fuel : nat) (n : NET) (c : cursor) : option (option cursor * NET) :=
  match fuel with
  | O => None
  | S fuel =>
      p ← take_packet n c;
      match p with
      | Break n c => Some (Some c, n)
      | Continue n c => comp_loop fuel n c
      | More =>
          '(r, n) ← read_more n c;
          match r with
          | None => Some (None, n)
          | Some c => comp_loop fuel n c
          end
      end
  end.

(** The start of the branch: the data left from the last call. *)
Definition comp_start (n : NET) : option (NET * cursor) :=
  if bool_decide (remain_in_buf n <> 0) then
    let start := u32 (buf_length n - remain_in_buf n) in
    (* Restore the character that was overwritten by the end 0 *)
    b ← store (buff n) start (save_char n);
    Some (set_buff n b, mk_cursor (buf_length n) start start 0)
  else Some (n, mk_cursor 0 0 0 0).

Definition comp_end (n : NET) (c : cursor) : option (Z * NET) :=
  let n := set_read_pos n (c_first c + NET_HEADER_SIZE) in
  let len := u32 (c_start c - c_first c - NET_HEADER_SIZE - c_multi c) in
  ch ← load (buff n) (read_pos n + len);
  let n := set_stream n (u32 (c_length c - c_start c)) (c_length c) ch in
  b ← store (buff n) (read_pos n + len) 0;
  Some (len, set_buff n b).

Definition net_read_compressed (fuel : nat) (n : NET) : option (Z * NET) :=
  '(n, c) ← comp_start n;
  '(r, n) ← comp_loop fuel n c;
  match r with
  | None => Some (packet_error, n)
  | Some c => comp_end n c
  end.

Definition my_net_read (fuel : nat) (n : NET) : option (Z * NET) :=
  if compress n then net_read_compressed fuel n else net_read_plain my_realloc n.

End Read.

(** ** The data between two calls *)

(** The uncompressed data not yet returned, its first byte kept in [save_char]. *)
Definition unread (n : NET) : list Z :=
  if bool_decide (remain_in_buf n = 0) then []
  else save_char n :: take (Z.to_nat (remain_in_buf n - 1)) (drop (Z.to_nat (buf_length n - remain_in_buf n + 1)) (buff n)).

Record cnet (n : NET) : Prop := mk_cnet {
  cn_remain : 0 <= remain_in_buf n <= buf_length n;
  cn_length : buf_length n + 7 <= Z.of_nat (length (buff n)) < 2 ^ 32;
}.

(** [D] is in the buffer at [k]. *)
Definition at_buff (b : list Z) (k : Z) (D : list Z) : Prop := read b k (Z.of_nat (length D)) = Some D.

Lemma at_buff_bounds b k D : at_buff b k D -> 0 <= k /\ k + Z.of_nat (length D) <= Z.of_nat (length b).
Proof. unfold at_buff, read. case_decide; [lia | done]. Qed.

Lemma at_buff_app b k D1 D2 : at_buff b k (D1 ++ D2) <-> at_buff b k D1 /\ at_buff b (k + Z.of_nat (length D1)) D2.
Proof.
  unfold at_buff, read. rewrite length_app, !Nat2Z.id. split.
  - case_decide as Hb; [| done]. intros HE. injection HE as H. rewrite !decide_True by lia.
    replace (Z.to_nat (Z.of_nat (length D1 + length D2))) with (length D1 + length D2)%nat in H by lia.
    apply (f_equal (fun l => (take (length D1) l, drop (length D1) l))) in H. rewrite take_app_length, drop_app_length in H.
    injection H as H1 H2. rewrite take_take, Nat.min_l in H1 by lia. rewrite skipn_firstn_comm, drop_drop in H2.
    split; f_equal; [done |]. rewrite <- H2 at 2. f_equal; [lia |]. f_equal. lia.
  - intros [H1 H2]. case_decide as Hb1; [| done]. case_decide as Hb2; [| done]. rewrite decide_True by lia. f_equal. injection H1 as H1. injection H2 as H2.
    replace (Z.to_nat (Z.of_nat (length D1 + length D2))) with (length D1 + length D2)%nat by lia.
    rewrite <- (take_drop (length D1) (take _ _)), take_take, Nat.min_l, H1 by lia. f_equal.
    rewrite skipn_firstn_comm, drop_drop. rewrite <- H2 at 2. f_equal; [lia |]. f_equal. lia.
Qed.

Lemma at_buff_load b k x D : at_buff b k (x :: D) -> load b k = Some x.
Proof.
  unfold at_buff, read, load. case_decide as Hb; [| done]. intros [= H]. rewrite decide_True by lia.
  apply (f_equal head) in H. cbn [length] in H. rewrite Nat2Z.id in H. cbn [take] in H.
  destruct (drop (Z.to_nat k) b) as [| y l] eqn:Ed; [done |]. cbn in H. injection H as ->.
  pose proof (lookup_drop b (Z.to_nat k) 0) as Hl. rewrite Ed, Nat.add_0_r in Hl. by rewrite <- Hl.
Qed.

Lemma at_buff_header b k len nr D : at_buff b k (header len nr ++ D) -> 0 <= len < 2 ^ 24 -> uint3korr b k = Some len.
Proof.
  intros H Hl. unfold header, int3store in H. cbn [app] in H.
  pose proof (at_buff_load _ _ _ _ H) as H0.
  apply (at_buff_app _ _ [_]) in H as [_ H]. pose proof (at_buff_load _ _ _ _ H) as H1.
  apply (at_buff_app _ _ [_]) in H as [_ H]. pose proof (at_buff_load _ _ _ _ H) as H2.
  cbn [length] in *. replace (k + Z.of_nat 1 + Z.of_nat 1) with (k + 2) in H2 by lia. by apply uint3_back.
Qed.

Lemma at_buff_store b k x D y : at_buff b k (x :: D) -> exists b', store b k y = Some b' /\ length b' = length b /\ at_buff b' k (y :: D).
Proof.
  intros H. pose proof (at_buff_bounds _ _ _ H) as Hb. cbn [length] in Hb. unfold store. rewrite decide_True by lia. eexists. split; [done |].
  rewrite length_insert. split; [done |]. unfold at_buff, read in *. rewrite length_insert. cbn [length] in *. rewrite decide_True in H |- * by lia.
  injection H as H. f_equal. rewrite Nat2Z.id in *.
  rewrite insert_take_drop by lia. rewrite drop_app_length' by (rewrite length_take; lia).
  replace (S (Z.to_nat k)) with (Z.to_nat k + 1)%nat by lia. rewrite <- drop_drop.
  destruct (drop (Z.to_nat k) b) as [| z l]; [done |]. cbn in H |- *. injection H as _ H. by rewrite drop_0, H.
Qed.

Lemma at_buff_before b k D q y b' : at_buff b k D -> k + Z.of_nat (length D) <= q -> store b q y = Some b' -> at_buff b' k D.
Proof.
  intros H Hq Hs. pose proof (at_buff_bounds _ _ _ H) as Hb. unfold store in Hs. case_decide as Hq2; [| done]. injection Hs as <-.
  unfold at_buff, read in *. rewrite length_insert. rewrite decide_True in H |- * by lia. rewrite <- H. f_equal. rewrite !Nat2Z.id.
  apply list_eq. intros i. destruct (decide (i < length D)%nat) as [Hi | Hi].
  - rewrite !lookup_take_lt by done. rewrite !lookup_drop. rewrite list_lookup_insert_ne; [done | lia].
  - rewrite !lookup_take_ge; (done || lia).
Qed.

Lemma at_buff_extend b k D : at_buff b k D -> k + Z.of_nat (length D) < Z.of_nat (length b) -> exists ch, at_buff b k (D ++ [ch]).
Proof.
  intros H Hlt. pose proof (at_buff_bounds _ _ _ H) as Hb.
  destruct (lookup_lt_is_Some_2 b (Z.to_nat (k + Z.of_nat (length D)))) as [ch Hch]; [lia |]. exists ch. apply at_buff_app. split; [done |].
  unfold at_buff, read. cbn [length]. rewrite decide_True by lia. f_equal. change (Z.to_nat (Z.of_nat 1)) with 1%nat.
  apply list_eq. intros [| i]; cbn.
  - rewrite lookup_take_lt by lia. rewrite lookup_drop, Nat.add_0_r. done.
  - rewrite lookup_take_ge by lia. done.
Qed.

Lemma at_buff_write b k D :
  0 <= k -> k + Z.of_nat (length D) <= Z.of_nat (length b) ->
  exists b', write b k D = Some b' /\ length b' = length b /\ at_buff b' k D /\
    (forall j E, at_buff b j E -> j + Z.of_nat (length E) <= k -> at_buff b' j E).
Proof.
  intros Hk H. unfold write. rewrite decide_True by lia. eexists. split; [done |].
  assert (Hl : length (take (Z.to_nat k) b ++ D ++ drop (Z.to_nat k + length D) b) = length b) by (rewrite !length_app, length_take, length_drop; lia).
  split_and!; [done | |].
  - unfold at_buff, read. rewrite decide_True by (rewrite Hl; lia). rewrite Nat2Z.id, drop_app_length' by (rewrite length_take; lia).
    by rewrite take_app_length.
  - intros j E HE Hj. pose proof (at_buff_bounds _ _ _ HE) as Hb. unfold at_buff, read in *. rewrite Hl. rewrite decide_True in HE |- * by lia.
    rewrite <- HE. f_equal. rewrite Nat2Z.id. rewrite drop_app_le by (rewrite length_take; lia). rewrite take_app_le by (rewrite length_drop, length_take; lia).
    rewrite <- (take_drop (Z.to_nat k) b) at 2. rewrite drop_app_le by (rewrite length_take; lia). by rewrite take_app_le by (rewrite length_drop, length_take; lia).
Qed.

(** The last byte of the data left is put back. *)
Lemma comp_start_spec n :
  cnet n -> unread n <> [] ->
  exists b, let F := buf_length n - remain_in_buf n in
    comp_start n = Some (set_buff n b, mk_cursor (buf_length n) F F 0) /\ length b = length (buff n) /\ at_buff b F (unread n) /\
    Z.of_nat (length (unread n)) = remain_in_buf n.
Proof.
  intros [H1 H2] Hne. unfold comp_start. unfold unread in *. destruct (decide (remain_in_buf n = 0)) as [Hz | Hz].
  { rewrite bool_decide_true in Hne by done. done. }
  rewrite (bool_decide_false (remain_in_buf n = 0)) by done. rewrite bool_decide_true by done. rewrite uwrap_small by lia. cbv zeta.
  set (F := buf_length n - remain_in_buf n).
  set (D := take (Z.to_nat (remain_in_buf n - 1)) (drop (Z.to_nat (F + 1)) (buff n))).
  assert (HD : Z.of_nat (length D) = remain_in_buf n - 1) by (subst D; rewrite length_take, length_drop; lia).
  destruct (lookup_lt_is_Some_2 (buff n) (Z.to_nat F)) as [z Hz2]; [lia |].
  assert (Hat : at_buff (buff n) F (z :: D)).
  { unfold at_buff, read. rewrite decide_True by (cbn [length]; lia). f_equal. rewrite Nat2Z.id. cbn [length].
    rewrite (drop_S _ _ _ Hz2). cbn [take]. f_equal.
    replace (length D) with (Z.to_nat (remain_in_buf n - 1)) by lia. subst D. by replace (Z.to_nat (F + 1)) with (S (Z.to_nat F)) by lia. }
  destruct (at_buff_store _ _ _ _ (save_char n) Hat) as (b & -> & Hb & Hat'). cbn [mbind option_bind]. exists b. split_and!; [done | done | done |].
  cbn [length]. lia.
Qed.

Lemma unread_spec n F D : cnet n -> remain_in_buf n = Z.of_nat (length D) -> F = buf_length n - remain_in_buf n ->
  (forall x xs, D = x :: xs -> save_char n = x /\ exists y, at_buff (buff n) F (y :: xs)) -> unread n = D.
Proof.
  intros [H1 H2] Hr -> H. unfold unread. destruct D as [| x xs]; [by rewrite bool_decide_true by (rewrite Hr; done) |].
  cbn [length] in Hr. rewrite bool_decide_false by lia. destruct (H x xs eq_refl) as (-> & y & Hat). f_equal.
  apply (at_buff_app _ _ [y]) in Hat as [_ Hat]. unfold at_buff, read in Hat. case_decide; [| done]. injection Hat as Hat. cbn [length] in Hat.
  rewrite Nat2Z.id in Hat. rewrite <- Hat. by replace (Z.to_nat (remain_in_buf n - 1)) with (length xs) by lia.
Qed.

(** The end of the branch: [p] is returned and the byte behind it saved. *)
Lemma comp_end_spec n L F start multi p x xs :
  Z.of_nat (length (buff n)) < 2 ^ 32 -> L + 7 <= Z.of_nat (length (buff n)) -> 0 <= start <= L -> 0 <= multi -> 0 <= F ->
  start = F + 4 + Z.of_nat (length p) + multi -> at_buff (buff n) (F + 4) (p ++ x :: xs) ->
  exists n', comp_end n (mk_cursor L start F multi) = Some (Z.of_nat (length p), n') /\ cnet n' /\
    at_buff (buff n') (read_pos n') (p ++ 0 :: xs) /\ save_char n' = x /\ remain_in_buf n' = L - start /\ buf_length n' = L /\
    read_pos n' = F + 4 /\ vio n' = vio n /\ pkt_nr n' = pkt_nr n /\ max_packet_size n' = max_packet_size n /\
    (forall c v, rnet c n v -> rnet c n' v).
Proof.
  intros Hl HL Hst Hm HF -> Hat. unfold comp_end, NET_HEADER_SIZE. cbn [c_first c_start c_length c_multi].
  rewrite !(uwrap_small 32) by lia. cbn [set_read_pos buff read_pos].
  replace (F + 4 + Z.of_nat (length p) + multi - F - 4 - multi) with (Z.of_nat (length p)) by lia.
  pose proof Hat as [Hp Hx]%at_buff_app. rewrite (at_buff_load _ _ _ _ Hx). cbn [mbind option_bind set_stream buff read_pos].
  destruct (at_buff_store _ _ _ _ 0 Hx) as (b & Eb & Hb & Hx'). cbn [set_read_pos buff read_pos]. rewrite Eb. cbn [mbind option_bind].
  eexists. split; [done |]. split_and!; try done.
  - split; cbn; lia.
  - cbn. apply at_buff_app. split; [| done]. apply (at_buff_before _ _ _ _ _ _ Hp (Z.le_refl _) Eb).
  - intros c v [R1 R2 R3 R4 R5 R6]. split; cbn; try done. by rewrite Hb.
Qed.

(** ** Packets in the buffer *)

Lemma take_packet_one n L F nr p tail :
  at_buff (buff n) F (header (Z.of_nat (length p)) nr ++ p ++ tail) -> 0 <= F -> L < 2 ^ 32 ->
  L - F = 4 + Z.of_nat (length p) + Z.of_nat (length tail) -> Z.of_nat (length p) < MAX_PACKET_LENGTH ->
  take_packet n (mk_cursor L F F 0) = Some (Break n (mk_cursor L (F + Z.of_nat (length p) + 4) F 0)).
Proof.
  intros Hat HF HL Hlen Hmax. pose proof max_packet_length as HM. unfold take_packet, NET_HEADER_SIZE. cbn [c_length c_start c_first c_multi].
  rewrite (uwrap_small 32 (L - F)) by lia. rewrite bool_decide_true by lia.
  rewrite (at_buff_header _ _ _ _ _ Hat) by lia. cbn [mbind option_bind]. destruct (decide (Z.of_nat (length p) = 0)) as [Hz | Hz].
  - rewrite bool_decide_true by done. rewrite uwrap_small by lia. rewrite Hz. by rewrite Z.add_0_r.
  - rewrite bool_decide_false by done. rewrite bool_decide_true by lia. rewrite (bool_decide_false (0 <> 0)) by tauto. cbn [mbind option_bind c_length c_start c_first].
    rewrite bool_decide_true by lia. by rewrite uwrap_small by lia.
Qed.

(** A packet of the maximal length and the empty one behind it. *)
Lemma take_packet_max n L F nr P rest :
  at_buff (buff n) F (header MAX_PACKET_LENGTH nr ++ P ++ rest) -> Z.of_nat (length P) = MAX_PACKET_LENGTH -> L < 2 ^ 32 ->
  L - F = 4 + MAX_PACKET_LENGTH + Z.of_nat (length rest) ->
  exists b, length b = length (buff n) /\ at_buff b 0 (header MAX_PACKET_LENGTH nr ++ P ++ rest) /\
    take_packet n (mk_cursor L F F 0) = Some (Continue (set_buff n b) (mk_cursor (L - F) (MAX_PACKET_LENGTH + 4) 0 4)).
Proof.
  intros Hat HP HL Hlen. pose proof max_packet_length as HM. pose proof (at_buff_bounds _ _ _ Hat) as Hb. rewrite !length_app, length_header in Hb.
  unfold take_packet, NET_HEADER_SIZE. cbn [c_length c_start c_first c_multi].
  rewrite (uwrap_small 32 (L - F)) by lia. rewrite bool_decide_true by lia.
  rewrite (at_buff_header _ _ _ _ _ Hat) by lia. cbn [mbind option_bind].
  rewrite bool_decide_false by lia. rewrite bool_decide_true by lia. rewrite (bool_decide_false (0 <> 0)) by tauto. cbn [mbind option_bind c_length c_start c_first].
  rewrite (bool_decide_false (_ <> MAX_PACKET_LENGTH)) by tauto. rewrite (uwrap_small 32 (F + MAX_PACKET_LENGTH + 4)) by lia.
  unfold move_down. cbn [c_first c_length c_start c_multi]. destruct (decide (F = 0)) as [-> | HF].
  - rewrite (bool_decide_false (0 <> 0)) by tauto. cbn [mbind option_bind]. exists (buff n). split_and!; [done | done |].
    rewrite Z.sub_0_r. by destruct n.
  - rewrite (bool_decide_true (F <> 0)) by done. rewrite !(uwrap_small 32) by lia.
    assert (HatL : read (buff n) F (L - F) = Some (header MAX_PACKET_LENGTH nr ++ P ++ rest)).
    { rewrite <- Hat. f_equal. rewrite !length_app, length_header. lia. }
    rewrite HatL. cbn [mbind option_bind].
    destruct (at_buff_write (buff n) 0 (header MAX_PACKET_LENGTH nr ++ P ++ rest)) as (b & Eb & Hlb & Hat' & _); [lia | rewrite !length_app, length_header; lia |].
    rewrite Eb. cbn [mbind option_bind]. exists b. split_and!; [done | done |]. do 3 f_equal; lia.
Qed.

(** The end of the branch for a packet of one part. *)
Lemma comp_end_packet n L F nr p tail :
  at_buff (buff n) F (header (Z.of_nat (length p)) nr ++ p ++ tail) -> L - F = 4 + Z.of_nat (length p) + Z.of_nat (length tail) ->
  L + 7 <= Z.of_nat (length (buff n)) -> Z.of_nat (length (buff n)) < 2 ^ 32 ->
  exists n', comp_end n (mk_cursor L (F + Z.of_nat (length p) + 4) F 0) = Some (Z.of_nat (length p), n') /\ cnet n' /\
    read (buff n') (read_pos n') (Z.of_nat (length p) + 1) = Some (p ++ [0]) /\ unread n' = tail /\
    vio n' = vio n /\ pkt_nr n' = pkt_nr n /\ max_packet_size n' = max_packet_size n /\ (forall c v, rnet c n v -> rnet c n' v).
Proof.
  intros Hat HL H7 H32. pose proof (at_buff_bounds _ _ _ Hat) as Hb0. rewrite !length_app, length_header in Hb0.
  assert (Hext : exists x xs, at_buff (buff n) (F + 4) (p ++ x :: xs) /\ (tail = [] \/ tail = x :: xs)).
  { destruct tail as [| x xs].
    - destruct (at_buff_extend _ _ _ Hat) as [ch Hch]; [rewrite !length_app, length_header; cbn [length] in *; lia |]. exists ch, [].
      rewrite app_nil_r, <- app_assoc in Hch. apply at_buff_app in Hch as [_ Hch]. auto.
    - apply at_buff_app in Hat as [_ Hat]. exists x, xs. auto. }
  destruct Hext as (x & xs & Hx & Htail).
  destruct (comp_end_spec n L F (F + Z.of_nat (length p) + 4) 0 p x xs) as (n' & E2 & Hn' & Hat' & Hsc & Hr' & Hl' & Hrp & Hv & Hnr & Hs & Hrn);
    [done | done | lia | lia | lia | lia | done |].
  exists n'. split_and!; try done.
  - change (p ++ 0 :: xs) with (p ++ [0] ++ xs) in Hat'. rewrite app_assoc in Hat'. apply at_buff_app in Hat' as [Hat' _].
    unfold at_buff in Hat'. rewrite length_app in Hat'. cbn [length] in Hat'. by replace (Z.of_nat (length p) + 1) with (Z.of_nat (length p + 1)) by lia.
  - apply (unread_spec n' (F + 4 + Z.of_nat (length p))); [done | lia | lia |]. intros y ys Hy. destruct Htail as [-> | ->]; [done |]. injection Hy as <- <-.
    split; [done |]. exists 0. rewrite Hrp in Hat'. by apply at_buff_app in Hat' as [_ Hat'].
Qed.

Section Buffered.
Context (my_malloc : Z -> option (list Z)) (my_realloc : list Z -> Z -> option (list Z)).
Context (zuncompress : Z -> list Z -> list Z + Z).
Abbreviation read_comp := (net_read_compressed my_malloc my_realloc zuncompress).

(** The byte saved behind a packet of two parts is the first byte of the second header, not
    the byte that follows it. *)
Lemma read_two_parts n nr nr2 P x tail :
  cnet n -> unread n = header MAX_PACKET_LENGTH nr ++ P ++ header 0 nr2 ++ x :: tail -> Z.of_nat (length P) = MAX_PACKET_LENGTH ->
  exists n', read_comp 2 n = Some (MAX_PACKET_LENGTH, n') /\ read (buff n') (read_pos n') (MAX_PACKET_LENGTH + 1) = Some (P ++ [0]) /\
    unread n' = 0 :: tail.
Proof.
  intros Hn Hu HP. pose proof max_packet_length as HM. pose proof Hn as [H1 H2]. destruct (comp_start_spec n Hn) as (b & E1 & Hb & Hat & Hlen); [by rewrite Hu |].
  unfold net_read_compressed. rewrite E1. cbn [mbind option_bind comp_loop]. set (F := buf_length n - remain_in_buf n) in *. rewrite Hu in Hat, Hlen.
  rewrite !length_app, !length_header in Hlen. cbn [length] in Hlen.
  destruct (take_packet_max (set_buff n b) (buf_length n) F nr P (header 0 nr2 ++ x :: tail)) as (b1 & Hb1 & Hat1 & E2);
    [done | done | lia | rewrite length_app, length_header; cbn [length]; lia |].
  rewrite E2. cbn [mbind option_bind]. unfold take_packet at 1. cbn [c_length c_start c_first c_multi set_buff buff] in *.
  set (L := buf_length n - F) in *. unfold NET_HEADER_SIZE. rewrite (uwrap_small 32 (L - _)) by lia. rewrite bool_decide_true by lia.
  pose proof Hat1 as [_ Hat2]%at_buff_app. rewrite length_header in Hat2. pose proof Hat2 as [_ Hat3]%at_buff_app.
  replace (MAX_PACKET_LENGTH + 4) with (0 + Z.of_nat 4 + Z.of_nat (length P)) by lia.
  rewrite (at_buff_header _ _ _ _ _ Hat3) by lia. cbn [mbind option_bind]. rewrite bool_decide_true by done. rewrite uwrap_small by lia.
  destruct (comp_end_spec (set_buff (set_buff n b) b1) L 0 (0 + Z.of_nat 4 + Z.of_nat (length P) + 4) 4 P 0 (drop 1 (header 0 nr2) ++ x :: tail))
    as (n' & E3 & Hn' & Hat' & Hsc & Hr' & Hl' & Hrp & _); [cbn; lia | cbn; lia | lia | lia | lia | lia | exact Hat2 |].
  exists n'. cbn [mbind option_bind]. rewrite E3. split_and!.
  - by rewrite HP.
  - change (P ++ 0 :: ?xs) with (P ++ [0] ++ xs) in Hat'. rewrite app_assoc in Hat'. apply at_buff_app in Hat' as [Hat' _].
    unfold at_buff in Hat'. rewrite length_app in Hat'. cbn [length] in Hat'. by replace (MAX_PACKET_LENGTH + 1) with (Z.of_nat (length P + 1)) by lia.
  - apply (unread_spec n' (L - remain_in_buf n')); [done | cbn [length]; lia | by rewrite Hl' |]. intros y ys [= <- <-].
    split; [done |]. exists x. apply at_buff_app in Hat' as [_ Hat']. change (0 :: drop 1 (header 0 nr2) ++ x :: tail) with (header 0 nr2 ++ x :: tail) in Hat'.
    apply at_buff_app in Hat' as [_ Hat']. rewrite length_header in Hat'. by replace (L - remain_in_buf n') with (read_pos n' + Z.of_nat (length P) + Z.of_nat 4) by lia.
Qed.

End Buffered.

End NetComp.
