(* ===== verification/NetZip.v ===== *)
(** * NetZip: the compressed protocol

    [zipped c D w c'] is the protocol: the data [D] goes over the wire as [w], in compressed
    packets numbered from [c].  The lemmas show that the writing functions of a
    compressed connection produce such packets, and that [my_net_read] cuts the
    packets of the protocol out of the data they carry. *)
From stdpp Require Import base tactics option list numbers.
From Stdlib Require Import ZArith Lia.
From S2P Require Import Prelude.
From S2P Require Import Pack.
From S2P Require Import Vio.
From S2P Require Import Compress.
From S2P Require Import Net.
From S2P Require Import NetProps.
From S2P Require Import NetRead.
From S2P Require Import NetComp.

Module NetZip.
Import Pack Vio Compress Net NetProps NetRead NetComp.

Section Protocol.
Context (my_malloc : Z -> option (list Z)) (zuncompress : Z -> list Z -> list Z + Z).

(** ** The protocol *)

(** A chunk of data and the body and length with which it travels. *)
Record chunk_ok (ch body : list Z) (complen : Z) : Prop := mk_chunk_ok {
  ch_data : ch <> [];
  ch_body : body <> [];
  ch_max : Z.of_nat (length ch) <= MAX_PACKET_LENGTH;
  ch_small : (length body <= length ch)%nat;
  ch_complen : complen = 0 /\ body = ch \/ complen = Z.of_nat (length ch);
  ch_back : my_uncompress my_malloc zuncompress body complen = (false, ch, Z.of_nat (length ch));
}.

Inductive zipped : Z -> list Z -> list Z -> Z -> Prop :=
| zipped_nil c : zipped c [] [] c
| zipped_cons c ch body complen D w c' : chunk_ok ch body complen -> zipped (u32 (c + 1)) D w c' ->
    zipped c (ch ++ D) ((header (Z.of_nat (length body)) c ++ int3store complen) ++ body ++ w) c'.

Lemma zipped_snoc c D w c1 ch body complen :
  zipped c D w c1 -> chunk_ok ch body complen ->
  zipped c (D ++ ch) (w ++ (header (Z.of_nat (length body)) c1 ++ int3store complen) ++ body) (u32 (c1 + 1)).
Proof.
  intros H Hch. induction H as [c | c ch' body' complen' D w c' Hch' Hz IH].
  - pose proof (zipped_cons c ch body complen [] [] _ Hch (zipped_nil _)) as HH. rewrite !app_nil_r in HH. exact HH.
  - pose proof (zipped_cons c ch' body' complen' _ _ _ Hch' IH) as HH. rewrite <- !app_assoc in HH. rewrite <- !app_assoc. exact HH.
Qed.

Lemma zipped_empty c w c' : zipped c [] w c' -> w = [] /\ c' = c.
Proof.
  intros H. remember [] as E eqn:HE. destruct H as [| ? ch ? ? D ? ? [Hne _ _ _ _ _] _]; [done |]. by apply app_eq_nil in HE as [-> _].
Qed.

End Protocol.

(** ** Reading *)

Lemma move_down_spec n L F D :
  at_buff (buff n) F D -> Z.of_nat (length D) = L - F -> L < 2 ^ 32 ->
  exists b, move_down n (mk_cursor L F F 0) = Some (set_buff n b, mk_cursor (L - F) 0 0 0) /\ length b = length (buff n) /\ at_buff b 0 D.
Proof.
  intros Hat Hlen HL. pose proof (at_buff_bounds _ _ _ Hat) as Hb. unfold move_down. cbn [c_first c_length c_start c_multi].
  destruct (decide (F = 0)) as [-> | HF].
  - rewrite (bool_decide_false (0 <> 0)) by tauto. exists (buff n). rewrite Z.sub_0_r. split_and!; [by destruct n | done | done].
  - rewrite bool_decide_true by done. rewrite !(uwrap_small 32) by lia. rewrite <- Hlen, Hat. cbn [mbind option_bind].
    destruct (at_buff_write (buff n) 0 D) as (b & -> & Hlb & Hat' & _); [lia | lia |]. exists b. rewrite Z.sub_diag. by split_and!.
Qed.

(** Packets one behind the other, numbered from [nr]. *)
Fixpoint frames (nr : Z) (ps : list (list Z)) : list Z :=
  match ps with
  | [] => []
  | p :: ps => header (Z.of_nat (length p)) nr ++ p ++ frames (u32 (nr + 1)) ps
  end.

Section Read.
Context (my_malloc : Z -> option (list Z)) (my_realloc : list Z -> Z -> option (list Z)) (zuncompress : Z -> list Z -> list Z + Z).
Abbreviation chunk_ok := (chunk_ok my_malloc zuncompress).
Abbreviation zipped := (zipped my_malloc zuncompress).

(** One compressed packet is appended to the data. *)
Lemma read_more_spec n v L F D ch body complen rest :
  rnet true n v -> realloc_works my_realloc -> at_buff (buff n) F D -> Z.of_nat (length D) = L - F -> L <= max_packet n ->
  chunk_ok ch body complen -> pending v = (header (Z.of_nat (length body)) (pkt_nr n) ++ int3store complen) ++ body ++ rest ->
  Z.of_nat (length D) + Z.of_nat (length ch) < max_packet_size n ->
  exists n' v', read_more my_malloc my_realloc zuncompress n (mk_cursor L F F 0) = Some (Some (mk_cursor (Z.of_nat (length (D ++ ch))) 0 0 0), n') /\
    rnet true n' v' /\ pending v' = rest /\ pkt_nr n' = u32 (pkt_nr n + 1) /\ max_packet_size n' = max_packet_size n /\
    at_buff (buff n') 0 (D ++ ch) /\ Z.of_nat (length (D ++ ch)) <= max_packet n'.
Proof.
  intros Hn Hre Hat Hlen HL [C1 C2 C3 C4 C5 C6] Hp Hlim. pose proof max_packet_length as HM. pose proof (at_buff_bounds _ _ _ Hat) as Hb.
  pose proof Hn as [R1 R2 R3 R4 R5 [R6 R7]]. unfold IO_SIZE in R6. unfold read_more.
  destruct (move_down_spec n L F D Hat Hlen) as (b & -> & Hlb & Hat0); [lia |]. cbn [mbind option_bind c_length c_start c_first c_multi].
  rewrite <- Hlen. set (n0 := set_where_b (set_buff n b) (Z.of_nat (length D))).
  assert (Hn0 : rnet true n0 v) by (split; cbn; try done; unfold IO_SIZE; lia).
  destruct (my_real_read_spec my_realloc true n0 v body rest complen Hn0 Hre) as (n1 & v1 & -> & [G1 G2 G3 G4 G5 G6 G7 G8] & Hroom);
    [done | lia | lia | cbn; lia |]. cbn [mbind option_bind].
  change (where_b n0) with (Z.of_nat (length D)) in *. change (buff n0) with b in *. change (max_packet_size n0) with (max_packet_size n) in *.
  change (pkt_nr n0) with (pkt_nr n) in *. rewrite Nat2Z.id in G8. pose proof G1 as [S1 S2 S3 S4 S5 [S6 S7]]. unfold IO_SIZE in S6.
  assert (HtD : take (length D) b = D).
  { unfold at_buff, read in Hat0. rewrite decide_True in Hat0 by lia. injection Hat0 as Hat0. by rewrite Nat2Z.id in Hat0. }
  rewrite HtD in G8.
  assert (Hat1 : at_buff (buff n1) 0 (D ++ body)).
  { unfold at_buff, read. rewrite length_app. rewrite decide_True by lia. by rewrite Nat2Z.id, drop_0, G8. }
  apply at_buff_app in Hat1 as [HatD Hatb]. rewrite Z.add_0_l in Hatb. unfold packet_error. rewrite bool_decide_false by lia. rewrite G5, Hatb.
  cbn [mbind option_bind]. rewrite C6. specialize (Hroom C2).
  destruct (at_buff_write (buff n1) (Z.of_nat (length D)) ch) as (b2 & -> & Hlb2 & Hat2 & Hkeep);
    [lia | destruct C5 as [[_ ->] | ->]; lia |]. cbn [mbind option_bind]. rewrite uwrap_small by lia.
  exists (set_buff n1 b2), v1. rewrite length_app, Nat2Z.inj_add. split_and!; [done | | done | done | done | |].
  - split; cbn; try done; unfold IO_SIZE; lia.
  - cbn. apply at_buff_app. split; [by apply Hkeep |]. by rewrite Z.add_0_l.
  - cbn. destruct C5 as [[_ ->] | ->]; lia.
Qed.

(** Less than a packet in the buffer. *)
Lemma take_packet_more n L F D D' nr p tail :
  at_buff (buff n) F D -> Z.of_nat (length D) = L - F -> L < 2 ^ 32 -> D ++ D' = header (Z.of_nat (length p)) nr ++ p ++ tail ->
  Z.of_nat (length p) < MAX_PACKET_LENGTH -> Z.of_nat (length D) < 4 + Z.of_nat (length p) ->
  take_packet n (mk_cursor L F F 0) = Some More.
Proof.
  intros Hat Hlen HL Heq Hmax Hshort. pose proof max_packet_length as HM. unfold take_packet, NET_HEADER_SIZE. cbn [c_length c_start c_first c_multi].
  pose proof (at_buff_bounds _ _ _ Hat) as Hb. rewrite (uwrap_small 32) by lia. destruct (decide (L - F >= 4)) as [H4 | H4].
  - rewrite bool_decide_true by done.
    assert (HD : D = header (Z.of_nat (length p)) nr ++ drop 4 D).
    { rewrite <- (take_drop 4 D) at 1. f_equal. apply (f_equal (take 4)) in Heq. rewrite take_app_le in Heq by lia. by rewrite Heq. }
    rewrite HD in Hat. rewrite (at_buff_header _ _ _ _ _ Hat) by lia. cbn [mbind option_bind]. rewrite bool_decide_false by lia.
    by rewrite bool_decide_false by lia.
  - by rewrite bool_decide_false by done.
Qed.

Lemma comp_loop_spec c D w c' : zipped c D w c' -> forall fuel n v L F D0 rest nr p tail,
  rnet true n v -> realloc_works my_realloc -> pkt_nr n = c -> pending v = w ++ rest ->
  at_buff (buff n) F D0 -> Z.of_nat (length D0) = L - F -> L <= max_packet n ->
  D0 ++ D = header (Z.of_nat (length p)) nr ++ p ++ tail -> Z.of_nat (length p) < MAX_PACKET_LENGTH ->
  Z.min (4 + Z.of_nat (length p) + MAX_PACKET_LENGTH) (Z.of_nat (length (D0 ++ D))) < max_packet_size n -> (length D < fuel)%nat ->
  exists n' v' L' F' D' w' tail0,
    comp_loop my_malloc my_realloc zuncompress fuel n (mk_cursor L F F 0) = Some (Some (mk_cursor L' (F' + Z.of_nat (length p) + 4) F' 0), n') /\
    rnet true n' v' /\ zipped (pkt_nr n') D' w' c' /\ pending v' = w' ++ rest /\ max_packet_size n' = max_packet_size n /\
    at_buff (buff n') F' (header (Z.of_nat (length p)) nr ++ p ++ tail0) /\ L' - F' = 4 + Z.of_nat (length p) + Z.of_nat (length tail0) /\
    L' <= max_packet n' /\ tail = tail0 ++ D' /\ (length D' <= length D)%nat.
Proof.
  pose proof max_packet_length as HM.
  induction 1 as [c | c ch body complen D w c' Hch Hz IH]; intros fuel n v L F D0 rest nr p tail Hn Hre Hnr Hp Hat Hlen HL Heq Hmax Hlim Hfuel;
    (destruct fuel as [| fuel]; [lia |]); cbn [comp_loop]; pose proof Hn as [R1 R2 R3 R4 R5 [R6 R7]]; pose proof (at_buff_bounds _ _ _ Hat) as Hb;
    unfold IO_SIZE in R6.
  - rewrite app_nil_r in Heq. subst D0. rewrite !length_app, length_header in Hlen.
    rewrite (take_packet_one n L F nr p tail) by (done || lia). cbn [mbind option_bind].
    exists n, v, L, F, [], [], tail. rewrite app_nil_r. split_and!; try done; [subst c; constructor | lia].
  - destruct (decide (Z.of_nat (length D0) < 4 + Z.of_nat (length p))) as [Hshort | Hall].
    + rewrite (take_packet_more n L F D0 (ch ++ D) nr p tail) by (done || lia). cbn [mbind option_bind]. subst c. rewrite <- !app_assoc in Hp.
      pose proof (ch_max _ _ _ _ _ Hch) as Hc. rewrite !length_app in Hlim. rewrite length_app in Hfuel.
      destruct (read_more_spec n v L F D0 ch body complen (w ++ rest)) as (n1 & v1 & -> & Hn1 & Hp1 & Hnr1 & Hs1 & Hat1 & HL1);
        [done | done | done | done | done | done | by rewrite Hp, <- !app_assoc | lia |]. cbn [mbind option_bind].
      pose proof (ch_data _ _ _ _ _ Hch) as Hcne. assert (0 < length ch)%nat by (destruct ch; [done | cbn; lia]).
      destruct (IH fuel n1 v1 (Z.of_nat (length (D0 ++ ch))) 0 (D0 ++ ch) rest nr p tail) as (n2 & v2 & L' & F' & D' & w' & tail0 & E2 & A1 & A2 & A3 & A4 & A5 & A6 & A7 & A8 & HD');
        [done | done | done | done | done | lia | done | by rewrite <- app_assoc | done | rewrite !length_app; rewrite Hs1; lia | lia |].
      exists n2, v2, L', F', D', w', tail0. rewrite <- Hs1. split_and!; try done. rewrite length_app. lia.
    + assert (HD : exists tail0, D0 = header (Z.of_nat (length p)) nr ++ p ++ tail0 /\ tail = tail0 ++ ch ++ D).
      { exists (drop (4 + length p) D0). split.
        - rewrite <- (take_drop (4 + length p) D0) at 1. rewrite app_assoc. f_equal. apply (f_equal (take (4 + length p))) in Heq.
          rewrite take_app_le in Heq by lia. rewrite app_assoc, take_app_length' in Heq by (rewrite length_app, length_header; lia). done.
        - apply (f_equal (drop (4 + length p))) in Heq. rewrite drop_app_le in Heq by lia.
          rewrite (app_assoc (header _ _)), drop_app_length' in Heq by (rewrite length_app, length_header; lia). done. }
      destruct HD as (tail0 & -> & ->). rewrite !length_app, length_header in Hlen.
      rewrite (take_packet_one n L F nr p tail0) by (done || lia). cbn [mbind option_bind].
      exists n, v, L, F, (ch ++ D), ((header (Z.of_nat (length body)) c ++ int3store complen) ++ body ++ w), tail0.
      split_and!; try done; [subst c; by constructor | lia].
Qed.

(** The data of the next packets: what is left in the buffer and what arrives. *)
Lemma net_read_compressed_spec fuel n v D w c' rest nr p tail :
  rnet true n v -> cnet n -> realloc_works my_realloc -> zipped (pkt_nr n) D w c' -> pending v = w ++ rest ->
  unread n ++ D = header (Z.of_nat (length p)) nr ++ p ++ tail -> Z.of_nat (length p) < MAX_PACKET_LENGTH ->
  Z.min (4 + Z.of_nat (length p) + MAX_PACKET_LENGTH) (Z.of_nat (length (unread n ++ D))) < max_packet_size n -> (length D < fuel)%nat ->
  exists n' v' D' w', net_read_compressed my_malloc my_realloc zuncompress fuel n = Some (Z.of_nat (length p), n') /\
    rnet true n' v' /\ cnet n' /\ zipped (pkt_nr n') D' w' c' /\ pending v' = w' ++ rest /\ max_packet_size n' = max_packet_size n /\
    unread n' ++ D' = tail /\ (length D' <= length D)%nat /\ read (buff n') (read_pos n') (Z.of_nat (length p) + 1) = Some (p ++ [0]).
Proof.
  intros Hn Hc Hre Hz Hp Heq Hmax Hlim Hfuel. pose proof Hn as [R1 R2 R3 R4 R5 R6]. pose proof Hc as [C1 C2].
  assert (Hst : exists b L F, comp_start n = Some (set_buff n b, mk_cursor L F F 0) /\ length b = length (buff n) /\ at_buff b F (unread n) /\
    Z.of_nat (length (unread n)) = L - F /\ L <= max_packet n).
  { destruct (decide (unread n = [])) as [He | Hne].
    - exists (buff n), 0, 0. unfold comp_start, unread in *. destruct (decide (remain_in_buf n = 0)) as [Hr | Hr].
      + rewrite (bool_decide_true (remain_in_buf n = 0)) by done. rewrite (bool_decide_false (remain_in_buf n <> 0)) by tauto.
        split_and!; [by destruct n | done | | done | lia]. unfold at_buff, read. rewrite decide_True by (cbn; lia). done.
      + rewrite bool_decide_false in He by done. done.
    - destruct (comp_start_spec n Hc Hne) as (b & E & Hb & Hat & Hl). eexists b, _, _. split_and!; [exact E | done | done | lia | lia]. }
  destruct Hst as (b & L & F & E & Hb & Hat & Hl & HL). unfold net_read_compressed. rewrite E. cbn [mbind option_bind].
  assert (Hn0 : rnet true (set_buff n b) v) by (split; cbn; try done; by rewrite Hb).
  destruct (comp_loop_spec _ _ _ _ Hz fuel (set_buff n b) v L F (unread n) rest nr p tail)
    as (n1 & v1 & L1 & F1 & D1 & w1 & tail0 & -> & Hn1 & Hz1 & Hp1 & Hs1 & Hat1 & HL1 & HL2 & -> & HD1); [done.. |]. cbn [mbind option_bind].
  pose proof Hn1 as [S1 S2 S3 S4 S5 [S6 S7]]. unfold IO_SIZE in S6.
  destruct (comp_end_packet n1 L1 F1 nr p tail0 Hat1 HL1) as (n2 & -> & Hn2 & Hr2 & Hu2 & Hv2 & Hnr2 & Hs2 & Hrn2); [lia | lia |].
  exists n2, v1, D1, w1. rewrite Hu2, Hnr2, Hs2. split_and!; try done; by apply Hrn2.
Qed.

(** ** Many packets *)

Fixpoint read_all (fuel k : nat) (n : NET) : option (list (list Z) * NET) :=
  match k with
  | O => Some ([], n)
  | S k =>
      '(len, n) ← my_net_read my_malloc my_realloc zuncompress fuel n;
      p ← read (buff n) (read_pos n) len;
      '(ps, n) ← read_all fuel k n;
      Some (p :: ps, n)
  end.

(** A packet that the reader accepts, when [total] bytes of data are to be read. *)
Definition fits (total limit : Z) (p : list Z) : Prop :=
  Z.of_nat (length p) < MAX_PACKET_LENGTH /\ Z.min (4 + Z.of_nat (length p) + MAX_PACKET_LENGTH) total < limit.

Lemma read_all_spec fuel ps : forall n v D w c' rest nr,
  rnet true n v -> cnet n -> realloc_works my_realloc -> zipped (pkt_nr n) D w c' -> pending v = w ++ rest ->
  unread n ++ D = frames nr ps -> Forall (fits (Z.of_nat (length (frames nr ps))) (max_packet_size n)) ps -> (length D < fuel)%nat ->
  exists n' v', read_all fuel (length ps) n = Some (ps, n') /\ rnet true n' v' /\ cnet n' /\ unread n' = [] /\ pending v' = rest /\ pkt_nr n' = c' /\
    max_packet_size n' = max_packet_size n.
Proof.
  induction ps as [| p ps IH]; intros n v D w c' rest nr Hn Hc Hre Hz Hp Heq Hfit Hfuel; cbn [length read_all frames] in *.
  - apply app_eq_nil in Heq as [Hu ->]. apply zipped_empty in Hz as [-> ->]. exists n, v. by split_and!.
  - apply Forall_cons_1 in Hfit as [[Hmax Hlim] Hfit]. unfold my_net_read. rewrite (r_comp _ _ _ Hn).
    destruct (net_read_compressed_spec fuel n v D w c' rest nr p _ Hn Hc Hre Hz Hp Heq Hmax) as (n1 & v1 & D1 & w1 & -> & Hn1 & Hc1 & Hz1 & Hp1 & Hs1 & Hu1 & HD1 & Hr1);
      [by rewrite Heq | done |]. cbn [mbind option_bind].
    assert (Hr : read (buff n1) (read_pos n1) (Z.of_nat (length p)) = Some p).
    { replace (Z.of_nat (length p) + 1) with (Z.of_nat (length (p ++ [0]))) in Hr1 by (rewrite length_app; cbn; lia). by apply at_buff_app in Hr1 as [? _]. }
    rewrite Hr. cbn [mbind option_bind]. rewrite <- Hs1 in Hfit.
    destruct (IH n1 v1 D1 w1 c' rest (u32 (nr + 1))) as (n2 & v2 & -> & H2); [done.. | | lia |].
    + eapply Forall_impl; [| exact Hfit]. intros q [Hq1 Hq2]. split; [done |]. rewrite !length_app in Hq2. lia.
    + cbn [mbind option_bind]. exists n2, v2. rewrite <- Hs1. by split.
Qed.

End Read.

(** ** Writing *)

Section Write.
Context (my_malloc : Z -> option (list Z)) (zcompress zuncompress : Z -> list Z -> list Z + Z).
Abbreviation chunk_ok := (chunk_ok my_malloc zuncompress).
Abbreviation zipped := (zipped my_malloc zuncompress).

(** The data of a compressed connection since [out] was sent: packets numbered from [c] and what
    is still in the buffer. *)
Record zwnet (n : NET) (v : Vio) (c : Z) (out D : list Z) : Prop := mk_zwnet {
  z_vio : vio n = Some v;
  z_ok : vio_writable v;
  z_error : error n <> 2;
  z_comp : compress n = true;
  z_buff : Z.of_nat (length (buff n)) = max_packet n + 7;
  z_size : 0 < max_packet n < 2 ^ 31;
  z_pos : 0 <= write_pos n <= Z.min (max_packet n) MAX_PACKET_LENGTH;
  z_out : exists D0 w, zipped c D0 w (compress_pkt_nr n) /\ sent v = out ++ w /\ D = D0 ++ take (Z.to_nat (write_pos n)) (buff n);
}.

Definition compress_ok : Prop :=
  zlib_ok zcompress zuncompress /\ malloc_works my_malloc /\
  forall bs, Z.of_nat (length bs) <= MAX_PACKET_LENGTH -> compress_works zcompress bs.

Lemma real_write_zip n v packet :
  compress_ok -> vio n = Some v -> vio_writable v -> error n <> 2 -> compress n = true -> packet <> [] -> Z.of_nat (length packet) <= MAX_PACKET_LENGTH ->
  exists v' r body complen, net_real_write my_malloc zcompress n packet =
      Some (0, set_rw (set_pkt_nr (set_vio n v') (pkt_nr n) (u32 (compress_pkt_nr n + 1))) r) /\ vio_writable v' /\ same_input v v' /\
    chunk_ok packet body complen /\
    sent v' = sent v ++ (header (Z.of_nat (length body)) (compress_pkt_nr n) ++ int3store complen) ++ body.
Proof.
  intros (Hz & Hm & Hworks) Hv Hw He Hc Hne Hlen. unfold net_real_write. rewrite Hv. cbn [mbind option_bind]. rewrite bool_decide_false by done.
  change (compress (set_rw n 2)) with (compress n). rewrite Hc. unfold compressed_packet.
  destruct (Hm (Z.of_nat (length packet) + NET_HEADER_SIZE + COMP_HEADER_SIZE)) as [blk ->].
  destruct (my_compress my_malloc zcompress packet) as [[err body] complen] eqn:E.
  destruct (my_compress_roundtrip my_malloc zcompress zuncompress packet err body complen Hz Hm (Hworks _ Hlen) E) as (H1 & H2 & H3 & H4).
  assert (Hpos : (0 < length packet)%nat) by (destruct packet; [done | cbn; lia]).
  assert (Hbody : (if err then packet else body) = body) by (destruct err; [destruct H3 as [[_ ?] | ?]; [done | lia] | done]). rewrite Hbody.
  set (cl := if err then 0 else complen) in *.
  set (data := int3store (Z.of_nat (length body)) ++ [u8 (compress_pkt_nr (set_rw n 2))] ++ int3store cl ++ body).
  set (n1 := set_pkt_nr (set_rw n 2) (pkt_nr (set_rw n 2)) (u32 (compress_pkt_nr (set_rw n 2) + 1))).
  destruct (write_loop_spec (S (length data + length (wscript v))) n1 v data 0 false Hv Hw) as (v1 & al & E1 & Hw1 & Hs1 & Ho1); [lia |].
  rewrite E1. cbn [mbind option_bind]. destruct Hw1 as [Hw1 Hf1].
  destruct (end_alarm_spec (set_vio n1 v1) v1 al (vio_is_blocking v) eq_refl Hf1) as (v2 & -> & Hs2 & Hw2 & Ho2 & Hf2).
  cbn [mbind option_bind]. rewrite bool_decide_true by done. exists v2, 0, body, cl.
  split_and!; [done | by rewrite <- Hw2 in Hw1 | by eapply same_input_trans | by constructor; auto |].
  rewrite Ho2, Ho1. unfold data, header. by rewrite <- !app_assoc.
Qed.

(** What writing on a compressed connection leaves alone. *)
Record zkept (n n' : NET) : Prop := mk_zkept {
  zk_max : max_packet n' = max_packet n;
  zk_nr : pkt_nr n' = pkt_nr n;
}.

Lemma zkept_trans a b c : zkept a b -> zkept b c -> zkept a c.
Proof. intros [A1 A2] [B1 B2]. split; congruence. Qed.

(** Sending a chunk of the data when the buffer is empty or holds just this chunk. *)
Lemma send_chunk n v c out D0 w packet :
  compress_ok -> vio n = Some v -> vio_writable v -> error n <> 2 -> compress n = true -> packet <> [] -> Z.of_nat (length packet) <= MAX_PACKET_LENGTH ->
  zipped c D0 w (compress_pkt_nr n) -> sent v = out ++ w ->
  exists v' r w', net_real_write my_malloc zcompress n packet =
      Some (0, set_rw (set_pkt_nr (set_vio n v') (pkt_nr n) (u32 (compress_pkt_nr n + 1))) r) /\ vio_writable v' /\
    zipped c (D0 ++ packet) w' (u32 (compress_pkt_nr n + 1)) /\ sent v' = out ++ w'.
Proof.
  intros Hok Hv Hw He Hc Hne Hlen Hz Hs. destruct (real_write_zip n v packet) as (v' & r & body & complen & E & Hw' & _ & Hch & Hs'); [done.. |].
  eexists v', r, _. split_and!; [exact E | done | by apply (zipped_snoc _ _ _ _ _ _ _ _ _ Hz Hch) |]. by rewrite Hs', Hs, <- (app_assoc out).
Qed.

Lemma zbuffer_packet_spec n v c out D packet :
  zwnet n v c out D -> write_pos n + Z.of_nat (length packet) <= Z.min (max_packet n) MAX_PACKET_LENGTH ->
  exists n', buffer_packet n packet = Some (false, n') /\ zwnet n' v c out (D ++ packet) /\ zkept n n'.
Proof.
  intros [H1 H2 H3 H4 H5 H6 H7 (D0 & w & Hz & Hs & ->)] Hle. unfold buffer_packet.
  destruct (write_spec (buff n) (write_pos n) packet) as (b & -> & Hb & _ & Ht); [lia | lia |]. cbn [mbind option_bind].
  eexists. split; [done |]. split; [| done].
  split; cbn; try done; [lia | lia |]. exists D0, w. split_and!; [done | done |]. rewrite Z2Nat.inj_add, Nat2Z.id by lia. by rewrite Ht, app_assoc.
Qed.

Lemma zwnet_sent n v c out D : zwnet n v c out D -> write_pos n = 0 -> exists w, zipped c D w (compress_pkt_nr n) /\ sent v = out ++ w.
Proof. intros [_ _ _ _ _ _ _ (D0 & w & Hz & Hs & ->)] H0. rewrite H0. cbn. rewrite app_nil_r. eauto. Qed.

(** A chunk sent on a connection with an empty buffer. *)
Lemma zsend_spec n v c out D packet :
  compress_ok -> zwnet n v c out D -> write_pos n = 0 -> packet <> [] -> Z.of_nat (length packet) <= MAX_PACKET_LENGTH ->
  exists n' v', net_real_write my_malloc zcompress n packet = Some (0, n') /\ zwnet n' v' c out (D ++ packet) /\ write_pos n' = 0 /\ zkept n n'.
Proof.
  intros Hok Hn H0 Hne Hlen. destruct (zwnet_sent _ _ _ _ _ Hn H0) as (w & Hz & Hs). destruct Hn as [H1 H2 H3 H4 H5 H6 H7 _].
  destruct (send_chunk n v c out D w packet) as (v' & r & w' & -> & Hw' & Hz' & Hs'); [done.. |]. eexists _, v'. split; [done |].
  split_and!; [| done | done]. split; cbn; try done. exists (D ++ packet), w'. rewrite H0. cbn. by rewrite app_nil_r.
Qed.

Lemma write_big_spec fuel : forall n v c out D packet,
  compress_ok -> zwnet n v c out D -> write_pos n = 0 -> (length packet < fuel)%nat ->
  exists n' v' D' rest, write_big my_malloc zcompress fuel n packet = Some (false, rest, n') /\ zwnet n' v' c out D' /\ D' ++ rest = D ++ packet /\
    Z.of_nat (length rest) <= MAX_PACKET_LENGTH /\ write_pos n' = 0 /\ zkept n n'.
Proof.
  pose proof max_packet_length as HM. induction fuel as [| fuel IH]; intros n v c out D packet Hok Hn H0 Hf; [lia |]. cbn [write_big].
  destruct (decide (Z.of_nat (length packet) > MAX_PACKET_LENGTH)) as [Hbig | Hsmall].
  - rewrite bool_decide_true by done. set (k := Z.to_nat MAX_PACKET_LENGTH). assert (Hk : Z.of_nat k = MAX_PACKET_LENGTH) by (apply Z2Nat.id; lia). clearbody k.
    assert (Hlk : length (take k packet) = k) by (rewrite length_take; lia).
    destruct (zsend_spec n v c out D (take k packet)) as (n1 & v1 & -> & Hn1 & Hp1 & Hk1); [done | done | done | intros E; rewrite E in Hlk; cbn in Hlk; lia | lia |].
    cbn [mbind option_bind]. rewrite bool_decide_false by tauto.
    destruct (IH n1 v1 c out _ (drop k packet) Hok Hn1 Hp1) as (n2 & v2 & D2 & rest & -> & Hn2 & HD2 & Hr2 & Hp2 & Hk2); [rewrite length_drop; lia |].
    exists n2, v2, D2, rest. rewrite HD2, <- app_assoc, take_drop. split_and!; try done. by eapply zkept_trans.
  - rewrite bool_decide_false by done. exists n, v, D, packet. split_and!; done || lia.
Qed.

(** The buffer is filled and sent as one chunk. *)
Lemma zfill_buff_spec n v c out D packet left_length :
  compress_ok -> zwnet n v c out D -> left_length = Z.min (max_packet n) MAX_PACKET_LENGTH - write_pos n -> left_length < Z.of_nat (length packet) ->
  exists n' v' D' rest, fill_buff my_malloc zcompress n packet left_length = Some (false, rest, n') /\ zwnet n' v' c out D' /\ D' ++ rest = D ++ packet /\
    write_pos n' = 0 /\ zkept n n'.
Proof.
  intros Hok Hn -> Hlen. pose proof max_packet_length as HM. unfold fill_buff. destruct (decide (write_pos n = 0)) as [Hz | Hz].
  { rewrite bool_decide_false by tauto. exists n, v, D, packet. by split_and!. }
  destruct Hn as [H1 H2 H3 H4 H5 H6 H7 (D0 & w & Hzip & Hs & ->)].
  rewrite bool_decide_true by done. set (k := Z.to_nat (Z.min (max_packet n) MAX_PACKET_LENGTH - write_pos n)).
  assert (Hk : length (take k packet) = k) by (rewrite length_take; lia).
  destruct (write_spec (buff n) (write_pos n) (take k packet)) as (b & -> & Hb & _ & Ht); [lia | lia |]. cbn [mbind option_bind].
  cbn [set_buff buff write_pos]. rewrite read_spec by lia. cbn [mbind option_bind].
  replace (Z.to_nat (write_pos n + (Z.min (max_packet n) MAX_PACKET_LENGTH - write_pos n))) with (Z.to_nat (write_pos n) + k)%nat by lia.
  rewrite Hk in Ht. rewrite Ht. set (full := take (Z.to_nat (write_pos n)) (buff n) ++ take k packet).
  assert (Hfull : Z.of_nat (length full) = Z.min (max_packet n) MAX_PACKET_LENGTH) by (subst full; rewrite length_app, Hk, length_take; lia).
  destruct (send_chunk (set_buff n b) v c out D0 w full) as (v' & r & w' & -> & Hw' & Hz' & Hs'); try done; [intros E; rewrite E in Hfull; cbn in Hfull; lia | lia |].
  cbn [mbind option_bind]. rewrite bool_decide_false by tauto. eexists _, v', (D0 ++ full), _. split; [done |]. split_and!; [| | done | done].
  - split; cbn; try done; [by rewrite Hb | lia |]. exists (D0 ++ full), w'. by rewrite app_nil_r.
  - subst full. by rewrite <- !app_assoc, take_drop.
Qed.

Lemma znet_write_buff_spec n v c out D packet :
  compress_ok -> zwnet n v c out D ->
  exists n' v', net_write_buff my_malloc zcompress n packet = Some (false, n') /\ zwnet n' v' c out (D ++ packet) /\ zkept n n'.
Proof.
  intros Hok Hn. pose proof max_packet_length as HM. pose proof Hn as [H1 H2 H3 H4 H5 H6 H7 _]. unfold net_write_buff. rewrite H4. cbn [andb].
  set (left := if bool_decide (max_packet n > MAX_PACKET_LENGTH) then _ else _). assert (Hleft : left = Z.min (max_packet n) MAX_PACKET_LENGTH - write_pos n).
  { subst left. case_bool_decide; rewrite uwrap_small; lia. } clearbody left.
  destruct (decide (Z.of_nat (length packet) > left)) as [Hbig | Hfits].
  2: { rewrite bool_decide_false by done. destruct (zbuffer_packet_spec n v c out D packet Hn) as (n' & ? & ? & ?); [lia |]. eauto. }
  rewrite bool_decide_true by done.
  destruct (zfill_buff_spec n v c out D packet left Hok Hn Hleft) as (n1 & v1 & D1 & rest & -> & Hn1 & HD1 & Hp1 & Hk1); [lia |].
  cbn [mbind option_bind]. rewrite (z_comp _ _ _ _ _ Hn1).
  destruct (write_big_spec (S (length rest)) n1 v1 c out D1 rest Hok Hn1 Hp1) as (n2 & v2 & D2 & rest2 & -> & Hn2 & HD2 & Hr2 & Hp2 & Hk2); [lia |].
  cbn [mbind option_bind]. rewrite <- HD1, <- HD2. pose proof (z_size _ _ _ _ _ Hn2) as Hsz2.
  destruct (decide (Z.of_nat (length rest2) > max_packet n2)) as [Hb | Hs].
  - rewrite bool_decide_true by done.
    destruct (zsend_spec n2 v2 c out D2 rest2) as (n3 & v3 & -> & Hn3 & _ & Hk3); [done | done | done | intros ->; cbn in Hb; lia | done |].
    cbn [mbind option_bind]. rewrite bool_decide_false by tauto. exists n3, v3. split_and!; [done | done |]. eapply zkept_trans; [exact Hk1 |]. by eapply zkept_trans.
  - rewrite bool_decide_false by done. destruct (zbuffer_packet_spec n2 v2 c out D2 rest2 Hn2) as (n3 & -> & Hn3 & Hk3); [lia |].
    exists n3, v2. split_and!; [done | done |]. eapply zkept_trans; [exact Hk1 |]. by eapply zkept_trans.
Qed.

Lemma znet_flush_spec n v c out D :
  compress_ok -> zwnet n v c out D ->
  exists n' v' w, net_flush my_malloc zcompress n = Some (false, n') /\ zwnet n' v' c out D /\ write_pos n' = 0 /\
    zipped c D w (compress_pkt_nr n') /\ sent v' = out ++ w /\ pkt_nr n' = compress_pkt_nr n'.
Proof.
  intros Hok Hn. unfold net_flush. pose proof Hn as [H1 H2 H3 H4 H5 H6 H7 (D0 & w & Hz & Hs & HD)]. destruct (decide (write_pos n = 0)) as [H0 | H0].
  - rewrite bool_decide_false by tauto. cbn [mbind option_bind]. rewrite H4. rewrite H0 in HD. cbn in HD. rewrite app_nil_r in HD. subst D0.
    eexists _, v, w. split; [done |]. split_and!; try done. split; cbn; try done. exists D, w. rewrite H0. cbn. by rewrite app_nil_r.
  - rewrite bool_decide_true by done. rewrite read_spec by lia. cbn [mbind option_bind].
    set (chunk := take (Z.to_nat (write_pos n)) (buff n)) in *. assert (Hl : Z.of_nat (length chunk) = write_pos n) by (subst chunk; rewrite length_take; lia).
    destruct (send_chunk n v c out D0 w chunk) as (v' & r & w' & -> & Hw' & Hz' & Hs'); try done; [intros E; rewrite E in Hl; cbn in Hl; lia | lia |].
    cbn [mbind option_bind]. cbn [set_write_pos set_rw set_vio set_pkt_nr compress compress_pkt_nr]. rewrite H4. rewrite bool_decide_false by tauto.
    eexists _, v', w'. split; [done |]. rewrite HD. split_and!; try done. split; cbn; try done; [lia |]. exists (D0 ++ chunk), w'. by rewrite app_nil_r.
Qed.

(** ** Many packets are written *)

Fixpoint write_all (n : NET) (ps : list (list Z)) : option (bool * NET) :=
  match ps with
  | [] => Some (false, n)
  | p :: ps =>
      '(err, n) ← my_net_write my_malloc zcompress n p;
      if err : bool then Some (true, n) else write_all n ps
  end.

Lemma zmy_net_write_spec n v c out D p :
  compress_ok -> zwnet n v c out D -> Z.of_nat (length p) < MAX_PACKET_LENGTH ->
  exists n' v', my_net_write my_malloc zcompress n p = Some (false, n') /\
    zwnet n' v' c out (D ++ header (Z.of_nat (length p)) (pkt_nr n) ++ p) /\ pkt_nr n' = u32 (pkt_nr n + 1).
Proof.
  intros Hok Hn Hlen. unfold my_net_write. rewrite (z_vio _ _ _ _ _ Hn). cbn [write_packets packet_header]. rewrite bool_decide_false by lia. unfold write_packet.
  assert (Hn0 : zwnet (set_pkt_nr n (u32 (pkt_nr n + 1)) (compress_pkt_nr n)) v c out D) by (destruct Hn; by split).
  destruct (znet_write_buff_spec _ v c out D (int3store (Z.of_nat (length p)) ++ [u8 (pkt_nr n)]) Hok Hn0) as (n1 & v1 & -> & Hn1 & Hk1).
  cbn [mbind option_bind]. destruct (znet_write_buff_spec n1 v1 c out _ p Hok Hn1) as (n2 & v2 & -> & Hn2 & Hk2).
  exists n2, v2. rewrite <- app_assoc in Hn2. split_and!; [done | exact Hn2 |]. by rewrite (zk_nr _ _ Hk2), (zk_nr _ _ Hk1).
Qed.

Lemma write_all_spec ps : forall n v c out D,
  compress_ok -> zwnet n v c out D -> Forall (fun p => Z.of_nat (length p) < MAX_PACKET_LENGTH) ps ->
  exists n' v', write_all n ps = Some (false, n') /\ zwnet n' v' c out (D ++ frames (pkt_nr n) ps).
Proof.
  induction ps as [| p ps IH]; intros n v c out D Hok Hn Hps; cbn [write_all frames]; [exists n, v; by rewrite app_nil_r |].
  apply Forall_cons_1 in Hps as [Hp Hps]. destruct (zmy_net_write_spec n v c out D p Hok Hn Hp) as (n1 & v1 & -> & Hn1 & Hnr1). cbn [mbind option_bind].
  destruct (IH n1 v1 c out _ Hok Hn1 Hps) as (n2 & v2 & -> & Hn2). exists n2, v2. split; [done |]. rewrite Hnr1, <- !app_assoc in Hn2. exact Hn2.
Qed.

(** Everything is sent: a new start. *)
Lemma zwnet_restart n v c out D : zwnet n v c out D -> write_pos n = 0 -> zwnet n v (compress_pkt_nr n) (sent v) [].
Proof.
  intros [H1 H2 H3 H4 H5 H6 H7 _] H0. split; try done. exists [], []. rewrite H0, app_nil_r. split_and!; [constructor | done | done].
Qed.

End Write.

End NetZip.
