(* ===== verification/NetZipMain.v ===== *)
(** * NetZipMain: the contract of the compressed protocol

    What one end of a compressed connection writes the other end reads, and the byte that is lost
    behind a packet of more than one part. *)
From stdpp Require Import base tactics option list numbers.
From Stdlib Require Import ZArith Lia.
From S2P Require Import Prelude.
From S2P Require Import Pack.
From S2P Require Import Vio.
From S2P Require Import Compress.
From S2P Require Import Net.
From S2P Require Import NetProps.
From S2P Require Import NetRead.
From S2P Require Import NetSafe.
From S2P Require Import NetMain.
From S2P Require Import NetComp.
From S2P Require Import NetZip.

Module NetZipMain.
Import Pack Vio Compress Net NetProps NetRead NetMain NetComp NetZip.

(** ** Instances for the examples *)

(** A compressor of runs. *)
Definition rle_body (bs : list Z) : list Z :=
  match bs with
  | x :: _ => if decide (bs = replicate (length bs) x) then [1; x; Z.of_nat (length bs)] else 0 :: bs
  | [] => [0]
  end.

Definition rle_compress (n : Z) (bs : list Z) : list Z + Z :=
  if decide (Z.of_nat (length (rle_body bs)) <= n) then inl (rle_body bs) else inr 0.

Definition rle_uncompress (n : Z) (out : list Z) : list Z + Z :=
  match out with
  | 0 :: bs => if decide (Z.of_nat (length bs) <= n) then inl bs else inr 0
  | [1; x; k] => if decide (0 <= k <= n) then inl (replicate (Z.to_nat k) x) else inr 0
  | _ => inr 0
  end.

Lemma length_rle_body bs : (0 < length (rle_body bs) <= length bs + 3)%nat.
Proof. unfold rle_body. destruct bs; [cbn; lia |]. case_decide; cbn; lia. Qed.

Lemma rle_ok : compress_ok ex_malloc rle_compress rle_uncompress.
Proof.
  split_and!; [split_and! | by eexists |].
  - unfold rle_compress. intros n bs out H. pose proof (length_rle_body bs). case_decide; [| done]. injection H as <-. lia.
  - unfold rle_uncompress. intros n bs out H.
    repeat (case_match; try discriminate); injection H as <-; [done | rewrite length_replicate; lia].
  - unfold rle_compress. intros n m bs out H Hm. case_decide; [| done]. injection H as <-. unfold rle_body.
    destruct bs as [| x bs]; [cbn [rle_uncompress]; by rewrite decide_True by (cbn in *; lia) |]. case_decide as Hr; cbn [rle_uncompress].
    + rewrite decide_True by (cbn [length] in *; lia). by rewrite Nat2Z.id, <- Hr.
    + by rewrite decide_True by done.
  - unfold compress_works, rle_compress. intros bs Hbs. exists (rle_body bs). pose proof (length_rle_body bs). pose proof max_packet_length.
    rewrite decide_True; [done |]. rewrite (uwrap_small 32 (_ * 120)) by lia. rewrite uwrap_small by Zlia. Zlia.
Qed.

Definition ex_zconn (v : Vio) : NET :=
  let n := ex_conn v in
  mk_net (vio n) (buff n) 0 0 0 0 0 (max_packet n) (max_packet_size n) 0 0 (retry_count n) 0 0 true 0 0.

Lemma ex_zconn_writes v : vio_writable v -> zwnet ex_malloc rle_uncompress (ex_zconn v) v 0 (sent v) [].
Proof.
  intros Hv. split; cbn; try done. exists [], []. rewrite app_nil_r. split_and!; [constructor | done | done].
Qed.

(** A connection on which [w] arrives byte by byte. *)
Definition slow_vio (w : list Z) : Vio := ex_vio ((fun x => Bytes [x]) <$> w) [].

Lemma slow_vio_ok w : vio_readable (slow_vio w) /\ pending (slow_vio w) = w.
Proof.
  unfold vio_readable, vio_ok, healthy, pending, arriving, slow_vio. cbn. split_and!; [by induction w; constructor | done | done |].
  induction w as [| x w IH]; [done |]. cbn. by rewrite IH.
Qed.

Lemma ex_zconn_reads v : vio_readable v -> rnet true (ex_zconn v) v /\ cnet (ex_zconn v).
Proof. intros Hv. split; split; cbn; try done; unfold IO_SIZE; lia. Qed.

(** ** The contract *)

(** C15 Any number of packets of less than 2^24-1 bytes that one end of a compressed connection writes and
    flushes is read by the other end, packet for packet: whatever chunks the writer compresses (a
    packet may be spread over several and several packets may share one), whatever compresses
    or does not, in whatever pieces the kernel carries the bytes.  At the end no data is left,
    nothing of what follows is consumed, and both ends agree on the next packet
    number. *)
Theorem compressed_roundtrip my_malloc my_realloc zcompress zuncompress n v out ps :
  compress_ok my_malloc zcompress zuncompress -> realloc_works my_realloc ->
  zwnet my_malloc zuncompress n v (compress_pkt_nr n) out [] -> Forall (fun p => Z.of_nat (length p) < MAX_PACKET_LENGTH) ps ->
  exists n1 n2 v2 w, write_all my_malloc zcompress n ps = Some (false, n1) /\ net_flush my_malloc zcompress n1 = Some (false, n2) /\
    zwnet my_malloc zuncompress n2 v2 (compress_pkt_nr n2) (out ++ w) [] /\ sent v2 = out ++ w /\
    forall m u rest fuel, rnet true m u -> cnet m -> unread m = [] -> pkt_nr m = compress_pkt_nr n -> pending u = w ++ rest ->
      Forall (fits (Z.of_nat (length (frames (pkt_nr n) ps))) (max_packet_size m)) ps -> (length (frames (pkt_nr n) ps) < fuel)%nat ->
      exists m' u', read_all my_malloc my_realloc zuncompress fuel (length ps) m = Some (ps, m') /\ rnet true m' u' /\ cnet m' /\
        unread m' = [] /\ pending u' = rest /\ pkt_nr m' = pkt_nr n2.
Proof.
  intros Hok Hre Hn Hps.
  destruct (write_all_spec my_malloc zcompress zuncompress ps n v _ out [] Hok Hn Hps) as (n1 & v1 & -> & Hn1).
  destruct (znet_flush_spec my_malloc zcompress zuncompress n1 v1 _ out _ Hok Hn1) as (n2 & v2 & w & E2 & Hn2 & Hp2 & Hz & Hs & Hnr).
  exists n1, n2, v2, w. split_and!; [done | done | | done |].
  - rewrite <- Hs. by eapply zwnet_restart.
  - intros m u rest fuel Hm Hc Hu Hnrm Hp Hfit Hfuel. rewrite <- Hnrm in Hz.
    destruct (read_all_spec my_malloc my_realloc zuncompress fuel ps m u _ w _ rest (pkt_nr n) Hm Hc Hre Hz Hp) as (m' & u' & E & H1 & H2 & H3 & H4 & H5 & _);
      [by rewrite Hu | done | done |].
    exists m', u'. split_and!; try done. by rewrite Hnr.
Qed.

Lemma compressed_roundtrip_witness :
  let n := ex_zconn (ex_vio [] [Takes 3; Wfail 4]) in let ps := [replicate 60 7; []; [1; 2; 3]] in
  exists n1 n2 v2 w, write_all ex_malloc rle_compress n ps = Some (false, n1) /\ net_flush ex_malloc rle_compress n1 = Some (false, n2) /\
    sent v2 = w /\
    exists m' u', read_all ex_malloc ex_realloc rle_uncompress 80 3 (ex_zconn (slow_vio w)) = Some (ps, m') /\ rnet true m' u' /\ pending u' = [] /\ pkt_nr m' = pkt_nr n2.
Proof.
  intros n ps.
  destruct (compressed_roundtrip ex_malloc ex_realloc rle_compress rle_uncompress n (ex_vio [] [Takes 3; Wfail 4]) [] ps rle_ok ex_realloc_works)
    as (n1 & n2 & v2 & w & H1 & H2 & _ & H4 & H5).
  - apply ex_zconn_writes. split; [| reflexivity]. repeat constructor; reflexivity.
  - repeat constructor; reflexivity.
  - exists n1, n2, v2, w. split_and!; [exact H1 | exact H2 | exact H4 |]. destruct (slow_vio_ok w) as [Hr Hw]. destruct (ex_zconn_reads _ Hr) as [Hm Hc].
    destruct (H5 (ex_zconn (slow_vio w)) (slow_vio w) [] 80%nat Hm Hc) as (m' & u' & E1 & E2 & _ & _ & E5 & E6).
    + reflexivity.
    + reflexivity.
    + rewrite app_nil_r. exact Hw.
    + repeat constructor; reflexivity.
    + vm_compute. lia.
    + exists m', u'. split_and!; [exact E1 | exact E2 | exact E5 | exact E6].
Defined.

Definition ex_buffered (D : list Z) : NET :=
  mk_net None (D ++ replicate 7 0) 0 0 (Z.of_nat (length D)) (Z.of_nat (length D)) 0 0 0 0 0 0 0 (default 0 (head D)) true 0 0.

Lemma ex_buffered_ok D : Z.of_nat (length D) < 2 ^ 31 -> cnet (ex_buffered D) /\ unread (ex_buffered D) = D.
Proof.
  intros HD. split; [split; cbn [ex_buffered remain_in_buf buf_length buff]; rewrite ?length_app, ?length_replicate; lia |]. unfold unread. cbn [ex_buffered remain_in_buf buf_length save_char buff].
  destruct D as [| x D]; [done |]. rewrite bool_decide_false by (cbn; lia). cbn [length head default]. unfold id. f_equal.
  replace (Z.of_nat (S (length D)) - Z.of_nat (S (length D)) + 1) with 1 by lia. replace (Z.to_nat (Z.of_nat (S (length D)) - 1)) with (length D) by lia.
  change (Z.to_nat 1) with 1%nat. cbn [app drop]. by rewrite drop_0, take_app_length.
Qed.

(** The end of a packet of exactly 2^24-1 bytes, whose second part is empty, is handled wrong: the packet is
    returned, but the byte that is saved is the first one of the header of the second part, so the
    first byte of the data that follows, the length of the next packet, becomes 0. *)
Theorem two_parts_lose_byte my_malloc my_realloc zuncompress n nr nr2 P x tail :
  cnet n -> unread n = header MAX_PACKET_LENGTH nr ++ P ++ header 0 nr2 ++ x :: tail -> Z.of_nat (length P) = MAX_PACKET_LENGTH ->
  exists n', net_read_compressed my_malloc my_realloc zuncompress 2 n = Some (MAX_PACKET_LENGTH, n') /\
    read (buff n') (read_pos n') (MAX_PACKET_LENGTH + 1) = Some (P ++ [0]) /\ unread n' = 0 :: tail.
Proof. apply read_two_parts. Qed.

Lemma two_parts_lose_byte_witness :
  let P := replicate (Z.to_nat MAX_PACKET_LENGTH) 65 in
  let n := ex_buffered (header MAX_PACKET_LENGTH 0 ++ P ++ header 0 1 ++ 5 :: [0; 0; 2]) in
  exists n', net_read_compressed ex_malloc ex_realloc rle_uncompress 2 n = Some (MAX_PACKET_LENGTH, n') /\
    read (buff n') (read_pos n') (MAX_PACKET_LENGTH + 1) = Some (P ++ [0]) /\ unread n' = 0 :: [0; 0; 2].
Proof.
  intros P n. assert (HP : Z.of_nat (length P) = MAX_PACKET_LENGTH) by (subst P; rewrite length_replicate; apply Z2Nat.id; pose proof max_packet_length; lia).
  clearbody P.
  assert (Hn : cnet n /\ unread n = header MAX_PACKET_LENGTH 0 ++ P ++ header 0 1 ++ 5 :: [0; 0; 2]).
  { apply ex_buffered_ok. rewrite !length_app, !length_header. cbn [length]. pose proof max_packet_length. lia. }
  destruct Hn as [Hc Hu]. exact (two_parts_lose_byte ex_malloc ex_realloc rle_uncompress n 0 1 P 5 [0; 0; 2] Hc Hu HP).
Defined.

End NetZipMain.
