(* ===== verification/Hash.v ===== *)
(** * Hash: hash tables

    [mysys/hash.c] and [include/hash.h].  The table is an array of links; a record
    with hash number [h] belongs to the cell [my_hash_mask h blength records], and
    the records of one cell form a chain through the array that starts there.
    The table grows by one cell per record: an insertion splits one chain, a
    deletion merges two.

    Pointers to links are indices into the array.  A record is known by its
    address; [mem] gives the bytes there.  [LinkArray] is what the code uses of
    the dynamic array ([mysys/array.c]), [CHARSET_INFO] what it uses of a
    character set. *)
From stdpp Require Import base tactics option list numbers.
From Stdlib Require Import ZArith Lia.
From S2P Require Import Prelude.

(** ** The array of links *)

Record HASH_LINK := mk_link {
  next : Z;
  data : Z;
}.

#[global] Instance link_inhabited : Inhabited HASH_LINK := populate (mk_link 0 0).

(** The dynamic array as the table uses it.  [links] are the cells that
    [dynamic_element(array, 0, HASH_LINK * )] points to; the code writes through
    this pointer, and [with_links] is the array afterwards.  [None] is an access
    outside the array. *)
Class LinkArray (A : Type) := {
  links : A -> option (list HASH_LINK);
  with_links : A -> list HASH_LINK -> option A;
  (** [init_dynamic_array (sizeof (HASH_LINK)) size growth]; [true] is failure *)
  la_init : Z -> Z -> bool * A;
  (** [alloc_dynamic]; [true] is a null result *)
  la_alloc : A -> option (bool * A);
  (** [pop_dynamic], [reset_dynamic], [delete_dynamic] *)
  la_pop : A -> A;
  la_reset : A -> A;
  la_delete : A -> A;
}.

(** A cell holds 32-bit indices and addresses. *)
Definition link_ok (x : HASH_LINK) : Prop := 0 <= next x < 2 ^ 32 /\ 0 <= data x < 2 ^ 32.
Definition wrap_link (x : HASH_LINK) : HASH_LINK := mk_link (u32 (next x)) (u32 (data x)).

(** What the table relies on.  [room] excludes that the size of the next block
    wraps around. *)
Class LinkArrayLaws (A : Type) {L : LinkArray A} := {
  holds : A -> list HASH_LINK -> Prop;
  room : A -> Prop;
  holds_bound a l : holds a l -> Z.of_nat (length l) < 2 ^ 29;
  links_law a l : holds a l -> links a = Some l;
  with_links_law a l l' :
    holds a l -> length l' = length l ->
    exists a', with_links a l' = Some a' /\ holds a' (wrap_link <$> l');
  init_law size growth :
    0 <= size < 2 ^ 29 -> 0 <= growth -> holds (la_init size growth).2 [];
  alloc_law a l :
    holds a l -> room a ->
    la_alloc a = Some (true, a) \/ exists x a', la_alloc a = Some (false, a') /\ holds a' (l ++ [x]);
  pop_law a l x : holds a (l ++ [x]) -> holds (la_pop a) l;
  reset_law a l : holds a l -> holds (la_reset a) [];
}.

Module Hash.

Definition NO_RECORD : Z := 2 ^ 32 - 1.
Definition LOWFIND : Z := 1.
Definition LOWUSED : Z := 2.
Definition HIGHFIND : Z := 4.
Definition HIGHUSED : Z := 8.
Definition HASH_UNIQUE : Z := 1.

(** The two functions of a collation that are used: [hash_sort] on the key and
    the two numbers, and [strnncoll] on two keys. *)
Record CHARSET_INFO := mk_charset {
  hash_sort : list Z -> Z -> Z -> Z * Z;
  strnncoll : list Z -> list Z -> Z;
}.

Record HASH (A : Type) := mk_hash {
  key_offset : Z;
  key_length : Z;
  blength : Z;
  records : Z;
  flags : Z;
  array : A;
  (** [get_key(record, &length, first)]: the key; [None] is a null pointer *)
  get_key : option (Z -> bool -> list Z);
  (** [free != 0] *)
  free : bool;
  charset : CHARSET_INFO;
}.
Arguments mk_hash {A}.
Arguments key_offset {A}.
Arguments key_length {A}.
Arguments blength {A}.
Arguments records {A}.
Arguments flags {A}.
Arguments array {A}.
Arguments get_key {A}.
Arguments free {A}.
Arguments charset {A}.

Section Ops.
Context {A : Type} {L : LinkArray A}.
(** The bytes of a record. *)
Context (mem : Z -> list Z).

Definition set_array (h : HASH A) (a : A) : HASH A :=
  mk_hash (key_offset h) (key_length h) (blength h) (records h) (flags h) a (get_key h) (free h) (charset h).
Definition set_size (h : HASH A) (b n : Z) : HASH A :=
  mk_hash (key_offset h) (key_length h) b n (flags h) (array h) (get_key h) (free h) (charset h).
Definition set_free (h : HASH A) (f : bool) : HASH A :=
  mk_hash (key_offset h) (key_length h) (blength h) (records h) (flags h) (array h) (get_key h) f (charset h).

Definition calc_hash (h : HASH A) (key : list Z) : Z := (hash_sort (charset h) key 1 4).1.

(** [true] is failure. *)
Definition _my_hash_init (hash : HASH A) (growth_size : Z) (cs : CHARSET_INFO)
    (size koffset klength : Z) (gk : option (Z -> bool -> list Z)) (free_element : bool) (fl : Z)
  : bool * HASH A :=
  let hash := set_size hash (blength hash) 0 in
  let '(failed, a) := la_init size growth_size in
  let hash := set_array hash a in
  if failed : bool then (true, set_free hash false)
  else (false, mk_hash koffset klength 1 0 fl a gk free_element cs).

(** The records passed to [free], in order. *)
Definition my_hash_free_elements (hash : HASH A) : option (HASH A * list Z) :=
  freed ← (if free hash
           then d ← links (array hash);
                cells ← read d 0 (records hash);
                Some (map data cells)
           else Some []);
  Some (set_size hash (blength hash) 0, freed).

Definition my_hash_free (hash : HASH A) : option (HASH A * list Z) :=
  '(hash, freed) ← my_hash_free_elements hash;
  let hash := set_free hash false in
  Some (set_array hash (la_delete (array hash)), freed).

Definition my_hash_reset (hash : HASH A) : option (HASH A * list Z) :=
  '(hash, freed) ← my_hash_free_elements hash;
  let hash := set_array hash (la_reset (array hash)) in
  Some (set_size hash 1 (records hash), freed).

Definition my_hash_key (hash : HASH A) (record : Z) (first : bool) : option (list Z) :=
  match get_key hash with
  | Some gk => Some (gk record first)
  | None => read (mem record) (key_offset hash) (key_length hash)
  end.

Definition my_hash_mask (hashnr buffmax maxlength : Z) : Z :=
  if bool_decide (hashnr &&& u32 (buffmax - 1) < maxlength) then hashnr &&& u32 (buffmax - 1)
  else hashnr &&& u32 ((buffmax ≫ 1) - 1).

Definition rec_hashnr (hash : HASH A) (record : Z) : option Z :=
  key ← my_hash_key hash record false; Some (calc_hash hash key).

Definition my_hash_rec_mask (hash : HASH A) (pos : HASH_LINK) (buffmax maxlength : Z) : option Z :=
  key ← my_hash_key hash (data pos) false;
  Some (my_hash_mask (calc_hash hash key) buffmax maxlength).

(** [key] is the memory at the key, [length] the length given, possibly 0. *)
Definition hashcmp (hash : HASH A) (pos : HASH_LINK) (key : list Z) (length_ : Z) : option bool :=
  rec_key ← my_hash_key hash (data pos) true;
  let rec_keylength := Z.of_nat (length rec_key) in
  if bool_decide (length_ <> 0) && bool_decide (length_ <> rec_keylength) then Some true
  else k ← read key 0 rec_keylength; Some (bool_decide (strnncoll (charset hash) rec_key k <> 0)).

(** The loop of [my_hash_first]: the record, 0 if there is none, and [*current_record]. *)
Fixpoint first_loop (fuel : nat) (hash : HASH A) (d : list HASH_LINK) (key : list Z) (length_ : Z)
    (flag : bool) (idx : Z) : option (Z * Z) :=
  match fuel with
  | O => None
  | S fuel =>
      pos ← load d idx;
      differs ← hashcmp hash pos key length_;
      if negb differs then Some (data pos, idx)
      else
        wrong ← (if flag
                 then m ← my_hash_rec_mask hash pos (blength hash) (records hash);
                      Some (bool_decide (m <> idx))
                 else Some false);
        if (wrong : bool) then Some (0, NO_RECORD)
        else if bool_decide (next pos = NO_RECORD) then Some (0, NO_RECORD)
        else first_loop fuel hash d key length_ false (next pos)
  end.

Definition my_hash_first (hash : HASH A) (key : list Z) (length_ : Z) : option (Z * Z) :=
  if bool_decide (records hash <> 0) then
    d ← links (array hash);
    k ← read key 0 (if bool_decide (length_ <> 0) then length_ else key_length hash);
    let idx := my_hash_mask (calc_hash hash k) (blength hash) (records hash) in
    first_loop (S (length d)) hash d key length_ true idx
  else Some (0, NO_RECORD).

Definition my_hash_search (hash : HASH A) (key : list Z) (length_ : Z) : option Z :=
  '(r, _) ← my_hash_first hash key length_; Some r.

Fixpoint next_loop (fuel : nat) (hash : HASH A) (d : list HASH_LINK) (key : list Z) (length_ : Z)
    (idx : Z) : option (Z * Z) :=
  if bool_decide (idx = NO_RECORD) then Some (0, NO_RECORD)
  else
    match fuel with
    | O => None
    | S fuel =>
        pos ← load d idx;
        differs ← hashcmp hash pos key length_;
        if negb differs then Some (data pos, idx)
        else next_loop fuel hash d key length_ (next pos)
    end.

Definition my_hash_next (hash : HASH A) (key : list Z) (length_ current_record : Z) : option (Z * Z) :=
  if bool_decide (current_record <> NO_RECORD) then
    d ← links (array hash);
    cur ← load d current_record;
    next_loop (length d) hash d key length_ (next cur)
  else Some (0, current_record).

(** The loop walks from [next_link] to the link that points to [find]. *)
Fixpoint movelink (fuel : nat) (d : list HASH_LINK) (find next_link newlink : Z)
  : option (list HASH_LINK) :=
  match fuel with
  | O => None
  | S fuel =>
      old_link ← load d next_link;
      if bool_decide (next old_link <> find) then movelink fuel d find (next old_link) newlink
      else store d next_link (mk_link newlink (data old_link))
  end.

(** ** Insertion *)

(** The variables of the loop that splits a chain. *)
Record split := mk_split {
  sp_data : list HASH_LINK;
  sp_flag : Z;
  sp_empty : Z;
  sp_gpos : Z;
  sp_rec : Z;
  sp_gpos2 : Z;
  sp_rec2 : Z;
}.

Definition has (flag bit : Z) : bool := bool_decide (flag &&& bit <> 0).

(** The key stays in the lower chain. *)
Definition low_step (idx : Z) (st : split) : option split :=
  let '(mk_split d flag empty gpos rec gpos2 rec2) := st in
  if negb (has flag LOWFIND) then
    pos ← load d idx;
    if has flag HIGHFIND
    then Some (mk_split d (LOWFIND ||| HIGHFIND) idx empty (data pos) gpos2 rec2)
    else Some (mk_split d (LOWFIND ||| LOWUSED) empty idx (data pos) gpos2 rec2)
  else
    '(d, flag) ← (if negb (has flag LOWUSED)
                  then d ← store d gpos (mk_link idx rec);
                       Some (d, (flag &&& HIGHFIND) ||| (LOWFIND ||| LOWUSED))
                  else Some (d, flag));
    pos ← load d idx;
    Some (mk_split d flag empty idx (data pos) gpos2 rec2).

(** The key moves to the chain of the new cell. *)
Definition high_step (idx : Z) (st : split) : option split :=
  let '(mk_split d flag empty gpos rec gpos2 rec2) := st in
  if negb (has flag HIGHFIND) then
    pos ← load d idx;
    Some (mk_split d ((flag &&& LOWFIND) ||| HIGHFIND) idx gpos rec empty (data pos))
  else
    '(d, flag) ← (if negb (has flag HIGHUSED)
                  then d ← store d gpos2 (mk_link idx rec2);
                       Some (d, (flag &&& LOWFIND) ||| (HIGHFIND ||| HIGHUSED))
                  else Some (d, flag));
    pos ← load d idx;
    Some (mk_split d flag empty gpos rec idx (data pos)).

Fixpoint split_loop (fuel : nat) (info : HASH A) (first_index halfbuff idx : Z) (st : split)
  : option split :=
  match fuel with
  | O => None
  | S fuel =>
      pos ← load (sp_data st) idx;
      hash_nr ← rec_hashnr info (data pos);
      if bool_decide (sp_flag st = 0) &&
         bool_decide (my_hash_mask hash_nr (blength info) (records info) <> first_index)
      then Some st
      else
        st ← (if bool_decide (hash_nr &&& halfbuff = 0) then low_step idx st else high_step idx st);
        pos ← load (sp_data st) idx;
        if bool_decide (next pos = NO_RECORD) then Some st
        else split_loop fuel info first_index halfbuff (next pos) st
  end.

(** The cells and the empty cell after the split. *)
Definition split_chain (info : HASH A) (d : list HASH_LINK) (empty : Z)
  : option (list HASH_LINK * Z) :=
  let halfbuff := blength info ≫ 1 in
  let first_index := u32 (records info - halfbuff) in
  if bool_decide (first_index <> records info) then
    st ← split_loop (S (length d)) info first_index halfbuff first_index
           (mk_split d 0 empty 0 0 0 0);
    let '(mk_split d flag empty gpos rec gpos2 rec2) := st in
    d ← (if bool_decide (flag &&& (LOWFIND ||| LOWUSED) = LOWFIND)
         then store d gpos (mk_link NO_RECORD rec) else Some d);
    d ← (if bool_decide (flag &&& (HIGHFIND ||| HIGHUSED) = HIGHFIND)
         then store d gpos2 (mk_link NO_RECORD rec2) else Some d);
    Some (d, empty)
  else Some (d, empty).

(** The record is stored in its cell; what was there moves to [empty]. *)
Definition place_record (info : HASH A) (d : list HASH_LINK) (empty record : Z)
  : option (list HASH_LINK) :=
  hash_nr ← rec_hashnr info record;
  let idx := my_hash_mask hash_nr (blength info) (u32 (records info + 1)) in
  pos ← load d idx;
  if bool_decide (idx = empty) then store d idx (mk_link NO_RECORD record)
  else
    d ← store d empty pos;
    gpos ← my_hash_rec_mask info pos (blength info) (u32 (records info + 1));
    if bool_decide (idx = gpos) then store d idx (mk_link empty record)
    else
      d ← store d idx (mk_link NO_RECORD record);
      movelink (length d) d idx gpos empty.

(** [true] is a duplicate key or no memory. *)
Definition my_hash_insert (info : HASH A) (record : Z) : option (bool * HASH A) :=
  dup ← (if has (flags info) HASH_UNIQUE
         then key ← my_hash_key info record true;
              r ← my_hash_search info key (Z.of_nat (length key));
              Some (bool_decide (r <> 0))
         else Some false);
  if (dup : bool) then Some (true, info)
  else
    '(failed, a) ← la_alloc (array info);
    if (failed : bool) then Some (true, set_array info a)
    else
      d ← links a;
      '(d, empty) ← split_chain info d (Z.of_nat (length d) - 1);
      d ← place_record info d empty record;
      a ← with_links a d;
      let n := u32 (records info + 1) in
      let b := if bool_decide (n = blength info) then u32 (blength info + blength info)
               else blength info in
      Some (false, set_size (set_array info a) b n).

(** ** Deletion *)

(** The search for the record: [pos] and [gpos], [None] inside is not found. *)
Fixpoint find_record (fuel : nat) (d : list HASH_LINK) (record pos : Z) (gpos : option Z)
  : option (option (Z * option Z)) :=
  match fuel with
  | O => None
  | S fuel =>
      p ← load d pos;
      if bool_decide (data p <> record) then
        if bool_decide (next p = NO_RECORD) then Some None
        else find_record fuel d record (next p) (Some pos)
      else Some (Some (pos, gpos))
  end.

(** Unlink the record at [pos]; the second component is the empty cell. *)
Definition unlink (d : list HASH_LINK) (pos : Z) (gpos : option Z) : option (list HASH_LINK * Z) :=
  p ← load d pos;
  match gpos with
  | Some g =>
      gl ← load d g;
      d ← store d g (mk_link (next p) (data gl));
      Some (d, pos)
  | None =>
      if bool_decide (next p <> NO_RECORD) then
        e ← load d (next p);
        d ← store d pos (mk_link (next e) (data e));
        Some (d, next p)
      else Some (d, pos)
  end.

(** Move the last link, [lastpos], to its place in the smaller table; [blength_] is
    the size before the deletion, [hash] has the sizes after it. *)
Definition move_last (hash : HASH A) (blength_ : Z) (d : list HASH_LINK) (empty : Z)
  : option (list HASH_LINK) :=
  let lastpos := records hash in
  if bool_decide (empty = lastpos) then Some d
  else
    last ← load d lastpos;
    lastpos_hashnr ← rec_hashnr hash (data last);
    let pos := my_hash_mask lastpos_hashnr (blength hash) (records hash) in
    if bool_decide (pos = empty) then store d empty last
    else
      p ← load d pos;
      pos_hashnr ← rec_hashnr hash (data p);
      let pos3 := my_hash_mask pos_hashnr (blength hash) (records hash) in
      if bool_decide (pos <> pos3) then
        d ← store d empty p;
        d ← store d pos last;
        movelink (length d) d pos pos3 empty
      else
        let pos2 := my_hash_mask lastpos_hashnr blength_ (u32 (records hash + 1)) in
        let same := bool_decide (pos2 = my_hash_mask pos_hashnr blength_ (u32 (records hash + 1))) in
        if same && bool_decide (pos2 <> records hash) then
          d ← store d empty last;
          movelink (length d) d lastpos pos empty
        else
          let idx := if same then pos else NO_RECORD in
          d ← store d empty last;
          p ← load d pos;
          d ← movelink (S (length d)) d idx empty (next p);
          p ← load d pos;
          store d pos (mk_link empty (data p)).

(** [true] is record not found; the last component are the records freed. *)
Definition my_hash_delete (hash : HASH A) (record : Z) : option (bool * HASH A * list Z) :=
  if bool_decide (records hash = 0) then Some (true, hash, [])
  else
    let blength_ := blength hash in
    d ← links (array hash);
    hash_nr ← rec_hashnr hash record;
    r ← find_record (S (length d)) d record (my_hash_mask hash_nr blength_ (records hash)) None;
    match r with
    | None => Some (true, hash, [])
    | Some (pos, gpos) =>
        let n := u32 (records hash - 1) in
        let b := if bool_decide (n < blength hash ≫ 1) then blength hash ≫ 1 else blength hash in
        let hash := set_size hash b n in
        '(d, empty) ← unlink d pos gpos;
        d ← move_last hash blength_ d empty;
        a ← with_links (array hash) d;
        Some (false, set_array hash (la_pop a), if free hash then [record] else [])
    end.

(** ** Update *)

(** Some record other than [record] has the key; [fuel] bounds the calls of [my_hash_next]. *)
Fixpoint other_record (fuel : nat) (hash : HASH A) (key : list Z) (length_ record found state : Z)
  : option bool :=
  if bool_decide (found = 0) then Some false
  else if bool_decide (found <> record) then Some true
  else
    match fuel with
    | O => None
    | S fuel =>
        '(found, state) ← my_hash_next hash key length_ state;
        other_record fuel hash key length_ record found state
    end.

(** Store the link [org] of the record in the cell [new_index], with [empty] free. *)
Definition relink (hash : HASH A) (d : list HASH_LINK) (org : HASH_LINK) (idx empty new_index : Z)
  : option (list HASH_LINK) :=
  if bool_decide (new_index = empty) then
    d ← (if bool_decide (empty <> idx) then store d empty org else Some d);
    e ← load d empty;
    store d empty (mk_link NO_RECORD (data e))
  else
    pos ← load d new_index;
    new_pos_index ← my_hash_rec_mask hash pos (blength hash) (records hash);
    if bool_decide (new_index <> new_pos_index) then
      d ← store d empty pos;
      d ← movelink (length d) d new_index new_pos_index empty;
      store d new_index (mk_link NO_RECORD (data org))
    else
      d ← store d empty (mk_link (next pos) (data org));
      p ← load d new_index;
      store d new_index (mk_link empty (data p)).

(** [true] is a duplicate key or record not found. *)
Definition my_hash_update (hash : HASH A) (record : Z) (old_key : list Z) (old_key_length : Z)
  : option (bool * HASH A) :=
  dup ← (if has HASH_UNIQUE (flags hash)
         then new_key ← my_hash_key hash record true;
              let len := Z.of_nat (length new_key) in
              '(found, state) ← my_hash_first hash new_key len;
              d ← links (array hash);
              other_record (S (length d)) hash new_key len record found state
         else Some false);
  if (dup : bool) then Some (true, hash)
  else
    d ← links (array hash);
    k ← read old_key 0 (if bool_decide (old_key_length <> 0) then old_key_length else key_length hash);
    let idx := my_hash_mask (calc_hash hash k) (blength hash) (records hash) in
    hash_nr ← rec_hashnr hash record;
    let new_index := my_hash_mask hash_nr (blength hash) (records hash) in
    if bool_decide (idx = new_index) then Some (false, hash)
    else
      r ← find_record (S (length d)) d record idx None;
      match r with
      | None => Some (true, hash)
      | Some (pos, previous) =>
          org ← load d pos;
          '(d, empty) ← unlink d pos previous;
          d ← relink hash d org pos empty new_index;
          a ← with_links (array hash) d;
          Some (false, set_array hash a)
      end.

(** ** Access by index *)

Definition my_hash_element (hash : HASH A) (idx : Z) : option Z :=
  if bool_decide (idx < records hash) then
    d ← links (array hash); pos ← load d idx; Some (data pos)
  else Some 0.

Definition my_hash_replace (hash : HASH A) (current_record new_row : Z) : option (HASH A) :=
  if bool_decide (current_record <> NO_RECORD) then
    d ← links (array hash);
    pos ← load d current_record;
    d ← store d current_record (mk_link (next pos) new_row);
    a ← with_links (array hash) d;
    Some (set_array hash a)
  else Some hash.

(** [action] on the state of the caller and a record: the new state and whether
    to stop. *)
Definition my_hash_iterate {S} (hash : HASH A) (action : Z -> S -> bool * S) (argument : S)
  : option (bool * S) :=
  d ← links (array hash);
  r ← for_ret (Z.to_nat (records hash)) 0
        (fun i s =>
           pos ← load d i;
           let '(stop, s) := action (data pos) s in
           Some (if (stop : bool) then Ret s else Next s)) argument;
  Some (match r with Ret s => (true, s) | Next s => (false, s) end).

End Ops.
End Hash.
