(* ===== verification/HashChain.v ===== *)
(** * HashChain: chains through an array

    The representation invariant of [mysys/hash.c], independent of how the array
    is stored: [nx] gives the link of a cell and [home] the cell its record
    belongs to.  [tbl nx home occ ch] states that the occupied cells [occ] are
    partitioned into the chains [ch], each of which starts at its own cell.  The
    lemmas are the steps of the insertion, deletion and update: adding a record,
    moving one to a free cell, removing one, and renaming the homes when a chain
    is split or two are merged. *)
From stdpp Require Import base tactics option list numbers sets.
From Stdlib Require Import ZArith Lia.
From S2P Require Import Prelude.
From S2P Require Import Hash.

Module HashChain.
Import Hash.

(** ** Functions changed at one point *)

Definition upd {B} (f : Z -> B) (i : Z) (v : B) : Z -> B := fun j => if decide (j = i) then v else f j.

Lemma upd_eq {B} (f : Z -> B) i v : upd f i v i = v.
Proof. unfold upd. by rewrite decide_True. Qed.

Lemma upd_ne {B} (f : Z -> B) i v j : j <> i -> upd f i v j = f j.
Proof. intros. unfold upd. by rewrite decide_False. Qed.

Ltac upd :=
  repeat match goal with
  | |- context [upd ?f ?i ?v ?i] => rewrite (upd_eq f i v)
  | H : context [upd ?f ?i ?v ?i] |- _ => rewrite (upd_eq f i v) in H
  | |- context [upd ?f ?i ?v ?j] => rewrite (upd_ne f i v j) by (congruence || lia || set_solver)
  | H : context [upd ?f ?i ?v ?j] |- _ => rewrite (upd_ne f i v j) in H by (congruence || lia || set_solver)
  end.

(** ** Linked cells *)

(** The cells [l] are linked in this order, the last one to [e]. *)
Fixpoint linked (nx : Z -> Z) (l : list Z) (e : Z) : Prop :=
  match l with
  | [] => True
  | i :: l => nx i = hd e l /\ linked nx l e
  end.

Lemma linked_app nx l1 l2 e : linked nx (l1 ++ l2) e <-> linked nx l1 (hd e l2) /\ linked nx l2 e.
Proof.
  induction l1 as [| i [| j l1] IH]; simpl in *; [tauto | tauto |]. rewrite IH. tauto.
Qed.

Lemma linked_ext nx nx' l e : (forall i, i ∈ l -> nx' i = nx i) -> linked nx l e -> linked nx' l e.
Proof.
  induction l as [| i l IH]; simpl; [done |]. intros Hx [H1 H2]. split.
  - rewrite Hx by set_solver. done.
  - apply IH; [set_solver | done].
Qed.

Lemma linked_upd nx l e i v : i ∉ l -> linked nx l e -> linked (upd nx i v) l e.
Proof. intros Hi. apply linked_ext. intros j Hj. upd. done. Qed.

(** ** Chains *)

Definition headed (j : Z) (l : list Z) : Prop := l = [] \/ exists t, l = j :: t.

Record tbl (nx home : Z -> Z) (occ : list Z) (ch : Z -> list Z) : Prop := {
  t_linked j : linked nx (ch j) NO_RECORD;
  t_nodup j : NoDup (ch j);
  t_mem i j : i ∈ ch j <-> i ∈ occ /\ home i = j;
  t_head j : headed j (ch j);
}.

(** Every chain is given anew, or it is unchanged. *)
Lemma tbl_change nx home occ ch nx' home' occ' ch' :
  tbl nx home occ ch ->
  (forall j,
     (linked nx' (ch' j) NO_RECORD /\ NoDup (ch' j) /\
      (forall i, i ∈ ch' j <-> i ∈ occ' /\ home' i = j) /\ headed j (ch' j)) \/
     (ch' j = ch j /\ (forall i, i ∈ occ' /\ home' i = j <-> i ∈ occ /\ home i = j) /\
      (forall i, i ∈ occ -> home i = j -> nx' i = nx i))) ->
  tbl nx' home' occ' ch'.
Proof.
  intros [T1 T2 T3 T4] Hc. split.
  - intros j. destruct (Hc j) as [(H & _) | (-> & _ & H)]; [done |].
    eapply linked_ext; [| apply T1]. intros i Hi. apply T3 in Hi as [Ho Hj]. auto.
  - intros j. destruct (Hc j) as [(_ & H & _) | (-> & _)]; auto.
  - intros i j. destruct (Hc j) as [(_ & _ & H & _) | (-> & H & _)]; [done |]. rewrite T3. symmetry. apply H.
  - intros j. destruct (Hc j) as [(_ & _ & _ & H) | (-> & _)]; auto.
Qed.

(** One chain is given anew. *)
Lemma tbl_set nx home occ ch nx' home' occ' g l :
  tbl nx home occ ch ->
  linked nx' l NO_RECORD -> NoDup l -> headed g l ->
  (forall i, i ∈ l <-> i ∈ occ' /\ home' i = g) ->
  (forall i j, j <> g -> i ∈ occ' /\ home' i = j <-> i ∈ occ /\ home i = j) ->
  (forall i, i ∈ occ -> home i <> g -> nx' i = nx i) ->
  tbl nx' home' occ' (upd ch g l).
Proof.
  intros T Hl Hn Hh Hm Ho Hx. apply (tbl_change _ _ _ _ _ _ _ _ T). intros j.
  destruct (decide (j = g)) as [-> | Hne]; upd; [by left |].
  right. split; [done |]. split; [auto |]. intros i Hi <-. auto.
Qed.

Section Tbl.
Context (nx home : Z -> Z) (occ : list Z) (ch : Z -> list Z) (T : tbl nx home occ ch).

Lemma chain_mem i : i ∈ occ -> i ∈ ch (home i).
Proof. intros Hi. by apply (t_mem _ _ _ _ T). Qed.

Lemma chain_occ i j : i ∈ ch j -> i ∈ occ.
Proof. intros Hi. by apply (t_mem _ _ _ _ T) in Hi as []. Qed.

Lemma chain_home i j : i ∈ ch j -> home i = j.
Proof. intros Hi. by apply (t_mem _ _ _ _ T) in Hi as []. Qed.

(** The first cell of a chain is its own. *)
Lemma chain_start i : i ∈ occ -> exists t, ch (home i) = home i :: t.
Proof.
  intros Hi%chain_mem. destruct (t_head _ _ _ _ T (home i)) as [E | [t E]]; [| by exists t].
  rewrite E in Hi. by apply elem_of_nil in Hi.
Qed.

Lemma home_occ i : i ∈ occ -> home i ∈ occ /\ home (home i) = home i.
Proof.
  intros Hi. destruct (chain_start i Hi) as [t E]. apply (t_mem _ _ _ _ T). rewrite E. set_solver.
Qed.

(** A free cell, or a cell with another chain's record, has no chain. *)
Lemma chain_empty e : ~ (e ∈ occ /\ home e = e) -> ch e = [].
Proof.
  intros He. destruct (t_head _ _ _ _ T e) as [E | [t E]]; [done |]. exfalso. apply He.
  apply (t_mem _ _ _ _ T). rewrite E. set_solver.
Qed.

(** A cell that is not the first of its chain has a predecessor. *)
Lemma chain_pred p :
  p ∈ occ -> home p <> p -> exists l q r, ch (home p) = l ++ q :: p :: r /\ hd p (l ++ [q]) = home p.
Proof.
  intros Hp Hne. destruct (chain_start p Hp) as [t E]. pose proof (chain_mem p Hp) as Hm.
  rewrite E in Hm. apply elem_of_cons in Hm as [E2 | Hm]; [congruence |].
  apply list_elem_of_split in Hm as (l & r & ->).
  destruct (decide (l = [])) as [-> | Hl].
  - exists [], (home p), r. by rewrite E.
  - destruct (exists_last Hl) as (l' & q & ->). exists (home p :: l'), q, r. split; [| done].
    rewrite E. by rewrite <- app_assoc.
Qed.

(** The own cell of a chain is its first. *)
Lemma chain_first j l r : ch j = l ++ j :: r -> l = [].
Proof.
  intros E. pose proof (t_nodup _ _ _ _ T j) as Hn. destruct (t_head _ _ _ _ T j) as [E2 | [t E2]]; rewrite E in *.
  - by destruct l.
  - destruct l as [| x l]; [done |]. injection E2 as -> _. cbn [app] in Hn. apply NoDup_cons in Hn as [Hn _]. set_solver.
Qed.

Lemma chain_next i l r j : ch j = l ++ i :: r -> nx i = hd NO_RECORD r.
Proof.
  intros E. pose proof (t_linked _ _ _ _ T j) as Hl. rewrite E in Hl.
  apply linked_app in Hl as [_ [H _]]. done.
Qed.
End Tbl.

(** ** Steps on one chain *)

Ltac nodup := rewrite ?NoDup_app, ?NoDup_cons, ?NoDup_nil in *; set_solver.

Section Steps.
Context (nx home : Z -> Z) (occ : list Z) (ch : Z -> list Z) (T : tbl nx home occ ch).
(** The links, homes and occupied cells after the step. *)
Context (nx' home' : Z -> Z) (occ' : list Z).

Lemma headed_prefix j l q r r' : headed j (l ++ q :: r) -> headed j (l ++ q :: r').
Proof.
  intros [E | [t E]]; [by destruct l |]. right. destruct l; injection E as -> _; by eexists.
Qed.

(** The record of [p] moves to the free cell [e]; [q] is its predecessor. *)
Lemma tbl_move p q e l r :
  e ∉ occ -> ch (home p) = l ++ q :: p :: r ->
  (forall i, i ∈ occ' <-> i = e \/ (i ∈ occ /\ i <> p)) ->
  nx' e = nx p -> nx' q = e -> (forall i, i ∈ occ -> i <> p -> i <> q -> nx' i = nx i) ->
  home' e = home p -> (forall i, i ∈ occ -> i <> p -> home' i = home i) ->
  tbl nx' home' occ' (upd ch (home p) (l ++ q :: e :: r)).
Proof.
  intros He E Ho Ne Nq Nx Hhe Hh.
  pose proof (t_nodup _ _ _ _ T (home p)) as Hn. pose proof (t_linked _ _ _ _ T (home p)) as Hl.
  pose proof (t_head _ _ _ _ T (home p)) as Hhd.
  assert (Hm : forall i, i ∈ l ++ q :: p :: r <-> i ∈ occ /\ home i = home p).
  { intros i. rewrite <- E. apply (t_mem _ _ _ _ T). }
  rewrite E in Hn, Hl, Hhd. apply NoDup_app in Hn as (N1 & N2 & N3).
  apply NoDup_cons in N3 as [N3 N4]. apply NoDup_cons in N4 as [N4 N5].
  apply linked_app in Hl as [L1 L2]. destruct L2 as [L2 [L3 L4]]. simpl in *.
  assert (Hocc : forall i, i ∈ l ++ q :: p :: r -> i <> e) by (intros i Hi ->; apply He; by apply Hm in Hi as []).
  assert (Hin : forall i, i ∈ l ++ q :: p :: r -> i ∈ occ) by (intros i Hi; by apply Hm in Hi as []).
  apply (tbl_set _ _ _ _ _ _ _ _ _ T).
  - apply linked_app. split; [| split; [done | split]].
    + apply (linked_ext nx); [| done]. intros i Hi. apply Nx; [apply Hin | |]; set_solver.
    + by rewrite Ne.
    + apply (linked_ext nx); [| done]. intros i Hi. apply Nx; [apply Hin | |]; set_solver.
  - apply NoDup_app. split_and!; [done | set_solver |]. apply NoDup_cons. split; [set_solver |].
    apply NoDup_cons. split; [set_solver | done].
  - by eapply headed_prefix.
  - intros i. rewrite Ho. destruct (decide (i = e)) as [-> | Hie].
    + split; [intros _; auto | set_solver].
    + transitivity (i ∈ l ++ q :: p :: r /\ i <> p); [set_solver |]. rewrite Hm. split.
      * intros [[H1 H2] H3]. split; [by right | by rewrite Hh].
      * intros [[? | [H1 H3]] H2]; [done |]. rewrite Hh in H2 by done. done.
  - intros i j Hj. rewrite Ho. destruct (decide (i = e)) as [-> | Hie].
    + split; [intros [_ H]; congruence | intros [H _]; done].
    + destruct (decide (i = p)) as [-> | Hip]; [split; [intros [[? | [_ ?]] _]; done | intros [_ ?]; done] |].
      split; [intros [[Hie' | [Hi _]] H]; [done |]; by rewrite Hh in H | intros [H1 H2]; rewrite Hh by done; tauto].
  - intros i Hi Hne. apply Nx; [done | congruence |]. intros ->. apply Hne.
    assert (Hq : q ∈ l ++ q :: p :: r) by set_solver. by apply Hm in Hq as [].
Qed.

(** A record is stored in a free cell that is its own. *)
Lemma tbl_add_alone e :
  e ∉ occ -> (forall i, i ∈ occ' <-> i = e \/ i ∈ occ) ->
  nx' e = NO_RECORD -> (forall i, i ∈ occ -> nx' i = nx i) ->
  home' e = e -> (forall i, i ∈ occ -> home' i = home i) ->
  tbl nx' home' occ' (upd ch e [e]).
Proof.
  intros He Ho Ne Nx Hhe Hh. assert (E : ch e = []).
  { apply (chain_empty _ _ _ _ T). tauto. }
  assert (Hm : forall i, i ∈ occ -> home i <> e).
  { intros i Hi Hie. assert (Hc : i ∈ ch e) by by apply (t_mem _ _ _ _ T). rewrite E in Hc. set_solver. }
  apply (tbl_set _ _ _ _ _ _ _ _ _ T).
  - done.
  - apply NoDup_singleton.
  - right. by exists [].
  - intros i. rewrite Ho, list_elem_of_singleton. split; [intros ->; auto |].
    intros [[-> | Hi] H]; [done |]. rewrite Hh in H by done. by destruct (Hm i).
  - intros i j Hj. rewrite Ho. split; [intros [[-> | Hi] H]; [congruence |]; by rewrite Hh in H |].
    intros [Hi H]. rewrite Hh by done. tauto.
  - intros i Hi _. auto.
Qed.

(** A record of the chain of [g] is stored in the free cell [e], behind [g]. *)
Lemma tbl_add_second g e t :
  ch g = g :: t -> e ∉ occ -> (forall i, i ∈ occ' <-> i = e \/ i ∈ occ) ->
  nx' e = nx g -> nx' g = e -> (forall i, i ∈ occ -> i <> g -> nx' i = nx i) ->
  home' e = g -> (forall i, i ∈ occ -> home' i = home i) ->
  tbl nx' home' occ' (upd ch g (g :: e :: t)).
Proof.
  intros E He Ho Ne Ng Nx Hhe Hh.
  pose proof (t_nodup _ _ _ _ T g) as Hn. pose proof (t_linked _ _ _ _ T g) as Hl.
  assert (Hm : forall i, i ∈ g :: t <-> i ∈ occ /\ home i = g).
  { intros i. rewrite <- E. apply (t_mem _ _ _ _ T). }
  rewrite E in Hn, Hl. apply NoDup_cons in Hn as [N1 N2]. destruct Hl as [L1 L2].
  assert (Hin : forall i, i ∈ g :: t -> i ∈ occ) by (intros i Hi; by apply Hm in Hi as []).
  apply (tbl_set _ _ _ _ _ _ _ _ _ T).
  - simpl. split; [done |]. split; [by rewrite Ne |].
    apply (linked_ext nx); [| done]. intros i Hi. apply Nx; [apply Hin |]; set_solver.
  - assert (e ∉ t) by set_solver. assert (g <> e) by set_solver. nodup.
  - right. by exists (e :: t).
  - intros i. rewrite Ho. destruct (decide (i = e)) as [-> | Hie]; [set_solver |].
    transitivity (i ∈ g :: t); [set_solver |]. rewrite Hm. split.
    + intros [H1 H2]. rewrite Hh by done. tauto.
    + intros [[? | H1] H2]; [done |]. by rewrite Hh in H2.
  - intros i j Hj. rewrite Ho. split; [intros [[-> | Hi] H]; [congruence |]; by rewrite Hh in H |].
    intros [Hi H]. rewrite Hh by done. tauto.
  - intros i Hi Hne. apply Nx; [done |]. intros ->. apply Hne.
    assert (Hg : g ∈ g :: t) by set_solver. by apply Hm in Hg as [].
Qed.

(** The chain [g] loses the cell [c]; the homes of the others are the same. *)
Lemma tbl_remove g c l :
  c ∈ ch g -> (forall i, i ∈ l <-> i ∈ ch g /\ i <> c) -> NoDup l -> headed g l -> linked nx' l NO_RECORD ->
  (forall i, i ∈ occ' <-> i ∈ occ /\ i <> c) ->
  (forall i, i ∈ occ -> home i <> g -> nx' i = nx i) ->
  (forall i, i ∈ occ -> i <> c -> home' i = home i) ->
  tbl nx' home' occ' (upd ch g l).
Proof.
  intros Hc Hl Hn Hhd Hlk Ho Nx Hh. apply (tbl_set _ _ _ _ _ _ _ _ _ T); try done.
  - intros i. rewrite Hl, Ho, (t_mem _ _ _ _ T). split.
    + intros [[H1 H2] H3]. rewrite Hh by done. tauto.
    + intros [[H1 H3] H2]. rewrite Hh in H2 by done. tauto.
  - intros i j Hj. rewrite Ho. apply (t_mem _ _ _ _ T) in Hc as [_ Hc]. split.
    + intros [[H1 H3] H2]. rewrite Hh in H2 by done. tauto.
    + intros [H1 H2]. assert (i <> c) by congruence. rewrite Hh by done. tauto.
Qed.

(** [p] is taken out behind its predecessor [q]. *)
Lemma tbl_unlink g p q l r :
  ch g = l ++ q :: p :: r -> (forall i, i ∈ occ' <-> i ∈ occ /\ i <> p) ->
  nx' q = nx p -> (forall i, i ∈ occ -> i <> p -> i <> q -> nx' i = nx i) ->
  (forall i, i ∈ occ -> i <> p -> home' i = home i) ->
  tbl nx' home' occ' (upd ch g (l ++ q :: r)).
Proof.
  intros E Ho Nq Nx Hh.
  pose proof (t_nodup _ _ _ _ T g) as Hn. pose proof (t_linked _ _ _ _ T g) as Hl.
  assert (Hin : forall i, i ∈ l ++ q :: p :: r -> i ∈ occ).
  { intros i. rewrite <- E. apply (chain_occ _ _ _ _ T). }
  assert (Hg : forall i, i ∈ l ++ q :: p :: r -> home i = g).
  { intros i. rewrite <- E. apply (chain_home _ _ _ _ T). }
  pose proof (t_head _ _ _ _ T g) as Hhd. rewrite E in Hn, Hl, Hhd.
  apply NoDup_app in Hn as (N1 & N2 & N3).
  apply NoDup_cons in N3 as [N3 N4]. apply NoDup_cons in N4 as [N4 N5].
  apply linked_app in Hl as [L1 L2]. destruct L2 as [L2 [L3 L4]]. simpl in *.
  apply (tbl_remove g p); try done.
  - rewrite E. set_solver.
  - rewrite E. intros i. set_solver.
  - nodup.
  - by eapply headed_prefix.
  - apply linked_app. split; [| split; [by rewrite Nq |]];
      (apply (linked_ext nx); [| done]); intros i Hi; apply Nx; (apply Hin; set_solver) || set_solver.
  - intros i Hi Hne. apply Nx; [done | |]; intros ->; apply Hne, Hg; set_solver.
Qed.

(** The first cell of a chain takes over the record of the second, [c]. *)
Lemma tbl_drop_head p c r :
  ch p = p :: c :: r -> (forall i, i ∈ occ' <-> i ∈ occ /\ i <> c) ->
  nx' p = nx c -> (forall i, i ∈ occ -> i <> c -> i <> p -> nx' i = nx i) ->
  (forall i, i ∈ occ -> i <> c -> home' i = home i) ->
  tbl nx' home' occ' (upd ch p (p :: r)).
Proof. intros E. apply (tbl_unlink p c p []). exact E. Qed.

(** A chain of one record disappears. *)
Lemma tbl_drop_alone p :
  ch p = [p] -> (forall i, i ∈ occ' <-> i ∈ occ /\ i <> p) ->
  (forall i, i ∈ occ -> i <> p -> nx' i = nx i) -> (forall i, i ∈ occ -> i <> p -> home' i = home i) ->
  tbl nx' home' occ' (upd ch p []).
Proof.
  intros E Ho Nx Hh. apply (tbl_remove p p); try done.
  - rewrite E. set_solver.
  - rewrite E. intros i. set_solver.
  - constructor.
  - by left.
  - intros i Hi Hne. apply Nx; [done |]. intros ->. apply Hne.
    apply (chain_home _ _ _ _ T). rewrite E. set_solver.
Qed.

(** ** Steps on two chains *)

Lemma tbl_set2 a b la lb :
  a <> b ->
  linked nx' la NO_RECORD -> NoDup la -> headed a la -> (forall i, i ∈ la <-> i ∈ occ' /\ home' i = a) ->
  linked nx' lb NO_RECORD -> NoDup lb -> headed b lb -> (forall i, i ∈ lb <-> i ∈ occ' /\ home' i = b) ->
  (forall i j, j <> a -> j <> b -> i ∈ occ' /\ home' i = j <-> i ∈ occ /\ home i = j) ->
  (forall i, i ∈ occ -> home i <> a -> home i <> b -> nx' i = nx i) ->
  tbl nx' home' occ' (upd (upd ch a la) b lb).
Proof.
  intros Hab. intros. apply (tbl_change _ _ _ _ _ _ _ _ T). intros j.
  destruct (decide (j = b)) as [-> | Hb]; [upd; by left |]. rewrite upd_ne by done.
  destruct (decide (j = a)) as [-> | Ha]; upd; [by left |].
  right. split; [done |]. split; [auto |]. intros i Hi <-. auto.
Qed.

(** The chain of the cell [last] is joined to the chain of [j], the record of [last]
    itself moving to [e]. *)
Lemma tbl_merge last j e l :
  last <> j -> e ∉ occ -> e <> last -> home last = last -> last ∈ occ ->
  (forall i, i ∈ l <-> i = e \/ ((i ∈ ch j \/ i ∈ ch last) /\ i <> last)) ->
  NoDup l -> headed j l -> linked nx' l NO_RECORD ->
  (forall i, i ∈ occ' <-> i = e \/ (i ∈ occ /\ i <> last)) ->
  (forall i, i ∈ occ -> home i <> last -> home i <> j -> nx' i = nx i) ->
  home' e = j -> (forall i, i ∈ occ -> i <> last -> home' i = if decide (home i = last) then j else home i) ->
  tbl nx' home' occ' (upd (upd ch last []) j l).
Proof.
  intros Hj He Hel Hhl Hlo Hl Hn Hhd Hlk Ho Nx Hhe Hh.
  apply tbl_set2; try (done || apply NoDup_nil_2 || by left).
  - intros i. rewrite Ho. split; [set_solver |]. intros [[-> | [Hi Hne]] H]; [congruence |].
    rewrite Hh in H by done. case_decide; congruence.
  - intros i. rewrite Hl, Ho, !(t_mem _ _ _ _ T). split.
    + intros [-> | [H Hne]]; [auto |]. split; [tauto |].
      destruct H as [[Hi H] | [Hi H]]; rewrite Hh by done; case_decide; congruence.
    + intros [[-> | [Hi Hne]] H]; [auto |]. right. split; [| done]. rewrite Hh in H by done.
      case_decide; tauto.
  - intros i k Hk1 Hk2. rewrite Ho. split.
    + intros [[-> | [Hi Hne]] H]; [congruence |]. rewrite Hh in H by done. case_decide; [congruence | done].
    + intros [Hi H]. assert (i <> last) by congruence. rewrite Hh by done.
      rewrite decide_False by congruence. tauto.
Qed.

(** Only the occupied cells matter. *)
Lemma tbl_ext :
  (forall i, i ∈ occ' <-> i ∈ occ) -> (forall i, i ∈ occ -> nx' i = nx i) ->
  (forall i, i ∈ occ -> home' i = home i) -> tbl nx' home' occ' ch.
Proof.
  intros Ho Nx Hh. apply (tbl_change _ _ _ _ _ _ _ _ T). intros j. right.
  split; [done |]. split; [| auto]. intros i. rewrite Ho. split; intros [Hi H]; (rewrite Hh in * by done); done.
Qed.
End Steps.
End HashChain.
