(* ===== verification/HashProps.v ===== *)
(** * HashProps: a hash table is a multiset of records

    The invariant of [HashChain] for the cells of a table, and its preservation by
    the steps of [mysys/hash.c]: walking and changing a chain, the split and the
    placing of an insertion, the unlinking and the merge of a deletion, the
    relinking of an update. *)
From stdpp Require Import base tactics option list numbers sets.
From Stdlib Require Import ZArith Lia.
From S2P Require Import Prelude.
From S2P Require Import Hash.
From S2P Require Import HashChain.

Module HashProps.
Import Hash HashChain.

(** ** Cells *)

Definition cell (d : list HASH_LINK) (i : Z) : HASH_LINK := default (mk_link 0 0) (load d i).
Abbreviation nxt d := (fun i => next (cell d i)).
Abbreviation dat d := (fun i => data (cell d i)).

Definition inside (d : list HASH_LINK) (i : Z) : Prop := 0 <= i < Z.of_nat (length d).

Lemma load_cell d i : inside d i -> load d i = Some (cell d i).
Proof. intros H. unfold cell. by destruct (load_in d i H) as [v ->]. Qed.

(** [d'] is [d] with the cell [i] set to [x]. *)
Definition changed (d d' : list HASH_LINK) (i : Z) (x : HASH_LINK) : Prop :=
  length d' = length d /\ forall j, cell d' j = upd (cell d) i x j.

Lemma store_cell d i x : inside d i -> exists d', store d i x = Some d' /\ changed d d' i x.
Proof.
  intros H. rewrite store_in by done. eexists. split; [done |]. split; [by rewrite length_insert |].
  intros j. unfold cell. rewrite (load_store d i x _ j) by by apply store_in. unfold upd.
  destruct (decide (i = j)), (decide (j = i)); subst; done.
Qed.

(** [changed] as equations on links and data. *)
Lemma changed_nxt d d' i x j : changed d d' i x -> nxt d' j = upd (nxt d) i (next x) j.
Proof. intros [_ H]. cbn. rewrite H. unfold upd. by case_decide. Qed.

Lemma changed_dat d d' i x j : changed d d' i x -> dat d' j = upd (dat d) i (data x) j.
Proof. intros [_ H]. cbn. rewrite H. unfold upd. by case_decide. Qed.

Lemma changed_inside d d' i x j : changed d d' i x -> inside d' j <-> inside d j.
Proof. intros [H _]. unfold inside. by rewrite H. Qed.

(** Distinct cells are not more than the array has. *)
Lemma cells_bound d l : NoDup l -> (forall i, i ∈ l -> inside d i) -> (length l <= length d)%nat.
Proof.
  intros Hn Hl. transitivity (length (seqZ 0 (Z.of_nat (length d)))).
  - apply submseteq_length, NoDup_submseteq; [done |]. intros i Hi%Hl. apply elem_of_seqZ. unfold inside in Hi. lia.
  - rewrite length_seqZ. lia.
Qed.

(** ** Walking a chain *)

Lemma movelink_spec d find new : forall l q fuel,
  linked (nxt d) (l ++ [q]) find -> find ∉ l ++ [q] -> (forall i, i ∈ l ++ [q] -> inside d i) ->
  (length l < fuel)%nat ->
  exists d', movelink fuel d find (hd q l) new = Some d' /\ changed d d' q (mk_link new (dat d q)).
Proof.
  induction l as [| i l IH]; intros q fuel Hl Hf Hin Hfuel; (destruct fuel as [| fuel]; [simpl in Hfuel; lia |]);
    cbn [movelink hd app] in *.
  - rewrite load_cell by (apply Hin; set_solver). cbn [mbind option_bind].
    destruct Hl as [Hl _]. cbn [hd] in Hl. rewrite bool_decide_false by (rewrite Hl; tauto).
    apply store_cell. apply Hin. set_solver.
  - rewrite load_cell by (apply Hin; set_solver). cbn [mbind option_bind].
    destruct Hl as [Hi Hl]. assert (E : hd find (l ++ [q]) = hd q l) by by destruct l.
    rewrite E in Hi. rewrite Hi.
    assert (Hh : hd q l ∈ l ++ [q]) by (destruct l; set_solver).
    rewrite bool_decide_true by set_solver. apply IH; [done | set_solver | set_solver |].
    simpl in Hfuel. lia.
Qed.

(** The predecessor after a walk over [l] that started with [g]. *)
Definition previous (g : option Z) (l : list Z) : option Z := foldl (fun _ i => Some i) g l.

Lemma previous_snoc g l q : previous g (l ++ [q]) = Some q.
Proof. unfold previous. by rewrite foldl_app. Qed.

Lemma find_record_spec d r : forall l p g fuel,
  linked (nxt d) (p :: l) NO_RECORD -> (forall i, i ∈ p :: l -> inside d i /\ i <> NO_RECORD) ->
  (length l < fuel)%nat ->
  (find_record fuel d r p g = Some None /\ forall i, i ∈ p :: l -> dat d i <> r) \/
  (exists l1 c l2, p :: l = l1 ++ c :: l2 /\ dat d c = r /\
     find_record fuel d r p g = Some (Some (c, previous g l1))).
Proof.
  induction l as [| i l IH]; intros p g fuel Hl Hin Hfuel; (destruct fuel as [| fuel]; [simpl in Hfuel; lia |]);
    cbn [find_record]; rewrite load_cell by (apply Hin; set_solver); cbn [mbind option_bind];
    destruct Hl as [Hp Hl]; cbn [hd] in Hp; rewrite Hp.
  - case_bool_decide as Hd.
    + left. rewrite bool_decide_true by done. split; [done |]. intros i Hi. set_solver.
    + right. by exists [], p, [].
  - case_bool_decide as Hd.
    + rewrite bool_decide_false by (apply Hin; set_solver).
      destruct (IH i (Some p) fuel) as [[E H] | (l1 & c & l2 & E & Hc & H)];
        [done | intros j Hj; apply Hin, elem_of_cons; by right | simpl in Hfuel; lia | left | right].
      * split; [done |]. intros j Hj. apply elem_of_cons in Hj as [-> | Hj]; [done | by apply H].
      * exists (p :: l1), c, l2. by rewrite E.
    + right. by exists [], p, (i :: l).
Qed.

(** ** The invariant of the cells *)

(** The cells [occ] of [d] hold the records [rs], each in the chain of its home [hm]. *)
Record hashed (hm : Z -> Z) (d : list HASH_LINK) (occ rs : list Z) : Prop := {
  hs_tbl : exists ch, tbl (nxt d) (fun i => hm (dat d i)) occ ch;
  hs_nodup : NoDup occ;
  hs_in : forall i, i ∈ occ -> inside d i;
  hs_rs : (dat d <$> occ) ≡ₚ rs;
  hs_small : Z.of_nat (length d) < NO_RECORD;
}.

Lemma inside_no d i : inside d i -> Z.of_nat (length d) < NO_RECORD -> i <> NO_RECORD.
Proof. unfold inside. lia. Qed.

Lemma dat_ext (d d' : list HASH_LINK) (o : list Z) : (forall i, i ∈ o -> dat d' i = dat d i) -> dat d' <$> o = dat d <$> o.
Proof. intros H. apply list_fmap_ext. intros k i Hi. apply H. by eapply list_elem_of_lookup_2. Qed.

Lemma hashed_perm hm d occ occ' rs rs' :
  hashed hm d occ rs -> occ' ≡ₚ occ -> rs' ≡ₚ rs -> hashed hm d occ' rs'.
Proof.
  intros [[ch T] H2 H3 H4 H5] Ho Hr. split.
  - exists ch. eapply tbl_ext; [exact T | | done | done]. intros i. by rewrite Ho.
  - by rewrite Ho.
  - intros i Hi. apply H3. by rewrite <- Ho.
  - by rewrite Ho, H4.
  - done.
Qed.

(** The homes of the records that are in the table matter. *)
Lemma hashed_ext hm hm' d occ rs :
  hashed hm d occ rs -> (forall r, r ∈ rs -> hm' r = hm r) -> hashed hm' d occ rs.
Proof.
  intros [[ch T] H2 H3 H4 H5] He. split; try done. exists ch.
  eapply tbl_ext; [exact T | done | done |]. intros i Hi. apply He. rewrite <- H4.
  apply list_elem_of_fmap. eauto.
Qed.

Section Walk.
Context (d : list HASH_LINK) (home : Z -> Z) (occ : list Z) (ch : Z -> list Z).
Context (T : tbl (nxt d) home occ ch) (Hin : forall i, i ∈ occ -> inside d i).

(** [movelink] finds the link that points to [p]; [d2] differs from [d] in [p] or
    outside [occ] only. *)
Lemma walk_to_pred p d2 new :
  p ∈ occ -> home p <> p -> length d2 = length d ->
  (forall i, i ∈ occ -> i <> p -> nxt d2 i = nxt d i) ->
  exists l q r d', ch (home p) = l ++ q :: p :: r /\ q ∈ occ /\ q <> p /\
    movelink (length d2) d2 p (home p) new = Some d' /\ changed d2 d' q (mk_link new (dat d2 q)).
Proof.
  intros Hp Hh Hlen Hx. destruct (chain_pred _ _ _ _ T p Hp Hh) as (l & q & r & E & Hhd).
  pose proof (t_nodup _ _ _ _ T (home p)) as Hn. pose proof (t_linked _ _ _ _ T (home p)) as Hl.
  assert (Hocc : forall i, i ∈ l ++ [q] -> i ∈ occ).
  { intros i Hi. apply (chain_occ _ _ _ _ T i (home p)). rewrite E. set_solver. }
  rewrite E in Hn, Hl. replace (l ++ q :: p :: r) with ((l ++ [q]) ++ p :: r) in Hn, Hl
    by by rewrite <- app_assoc.
  apply linked_app in Hl as [Hl _]. cbn [hd] in Hl.
  apply NoDup_app in Hn as (Hn & Hnp & _).
  assert (Hnotin : forall i, i ∈ l ++ [q] -> i <> p) by set_solver.
  destruct (movelink_spec d2 p new l q (length d2)) as (d' & Hm & Hc).
  - eapply linked_ext; [| exact Hl]. intros i Hi. apply Hx; auto.
  - intros Hp'. by apply (Hnotin p).
  - intros i Hi. unfold inside. rewrite Hlen. by apply Hin, Hocc.
  - assert (Hb : (length (l ++ [q]) <= length d2)%nat).
    { apply cells_bound; [done |]. intros i Hi. unfold inside. rewrite Hlen. by apply Hin, Hocc. }
    rewrite length_app in Hb. simpl in Hb. lia.
  - assert (Ehd : hd q l = home p) by by destruct l. rewrite Ehd in Hm.
    exists l, q, r, d'. split_and!; try done; [apply Hocc | apply Hnotin]; set_solver.
Qed.
End Walk.

(** ** Putting a record into a table with one free cell *)

(** Links and data of cells that were changed, as conditionals. *)
Ltac cells :=
  cbv beta;
  repeat (match goal with
  | C : changed ?d ?d' _ _ |- context [next (cell ?d' ?j)] => rewrite (changed_nxt _ _ _ _ j C)
  | C : changed ?d ?d' _ _ |- context [data (cell ?d' ?j)] => rewrite (changed_dat _ _ _ _ j C)
  end; unfold upd; cbv beta; cbn [next data]);
  repeat (case_decide; cbn [next data]); try congruence.

Section Add.
Context (hm : Z -> Z) (d : list HASH_LINK) (occ rs : list Z) (e r : Z).
Context (Hs : hashed hm d occ rs) (He : inside d e) (Hfree : e ∉ occ).

(** The result of the steps below holds the record [r] as well. *)
Lemma hashed_add d' ch' :
  tbl (nxt d') (fun i => hm (dat d' i)) (e :: occ) ch' -> length d' = length d ->
  (dat d' <$> e :: occ) ≡ₚ r :: rs -> hashed hm d' (e :: occ) (r :: rs).
Proof.
  intros T Hl Hr. destruct Hs as [_ Hn Hin _ Hsm]. split.
  - by exists ch'.
  - by apply NoDup_cons.
  - intros i Hi. unfold inside. rewrite Hl. apply elem_of_cons in Hi as [-> | Hi]; [done | by apply Hin].
  - done.
  - by rewrite Hl.
Qed.

(** In its own cell, which is free. *)
Lemma hashed_add_alone d' :
  hm r = e -> changed d d' e (mk_link NO_RECORD r) -> hashed hm d' (e :: occ) (r :: rs).
Proof.
  intros Hhm C. pose proof Hs as [[ch T] Hn Hin Hrs Hsm]. eapply hashed_add.
  - apply (tbl_add_alone _ _ _ _ T); [done | intros i; set_solver | cells | | cells | ];
      intros i Hi; assert (i <> e) by congruence; cells.
  - apply C.
  - cbn [fmap list_fmap]. rewrite (dat_ext d) by (intros i Hi; assert (i <> e) by congruence; cells).
    rewrite Hrs. by cells.
Qed.

(** Behind the first cell of its chain, or in front of what that cell held. *)
Lemma hashed_add_second d' :
  hm r ∈ occ -> hm (dat d (hm r)) = hm r -> length d' = length d ->
  nxt d' e = nxt d (hm r) -> nxt d' (hm r) = e ->
  (forall i, i ∈ occ -> i <> hm r -> cell d' i = cell d i) ->
  (dat d' e = r /\ dat d' (hm r) = dat d (hm r)) \/ (dat d' e = dat d (hm r) /\ dat d' (hm r) = r) ->
  hashed hm d' (e :: occ) (r :: rs).
Proof.
  intros Ho Hg Hl Ne Ng Hx Hd. pose proof Hs as [[ch T] Hn Hin Hrs Hsm].
  destruct (chain_start _ _ _ _ T (hm r) Ho) as [t E]. rewrite Hg in E.
  eapply hashed_add; [| done |].
  - apply (tbl_add_second _ _ _ _ T _ _ _ (hm r) e t); try done.
    + intros i. set_solver.
    + intros i Hi Hne. by rewrite Hx.
    + destruct Hd as [[-> _] | [-> _]]; [done |]. done.
    + intros i Hi. destruct (decide (i = hm r)) as [-> | Hne]; [| by rewrite Hx].
      destruct Hd as [[_ ->] | [_ ->]]; [done |]. by rewrite Hg.
  - apply elem_of_Permutation in Ho as [o Ho].
    assert (Hno : hm r ∉ o). { rewrite Ho in Hn. by apply NoDup_cons in Hn as []. }
    rewrite Ho in Hrs |- *. cbn [fmap list_fmap] in *.
    rewrite (dat_ext d d' o); [| intros i Hi; rewrite Hx; [done | rewrite Ho; set_solver | congruence]].
    rewrite <- Hrs. destruct Hd as [[-> ->] | [-> ->]]; [done | by apply perm_swap].
Qed.

(** In its own cell, whose record, of another chain, moves to [e]. *)
Lemma hashed_add_move l q d' rr :
  forall ch, tbl (nxt d) (fun i => hm (dat d i)) occ ch ->
  hm r ∈ occ -> hm (dat d (hm r)) <> hm r -> ch (hm (dat d (hm r))) = l ++ q :: hm r :: rr -> q ∈ occ -> q <> hm r ->
  length d' = length d ->
  cell d' e = cell d (hm r) -> cell d' (hm r) = mk_link NO_RECORD r -> cell d' q = mk_link e (dat d q) ->
  (forall i, i ∈ occ -> i <> hm r -> i <> q -> cell d' i = cell d i) ->
  hashed hm d' (e :: occ) (r :: rs).
Proof.
  intros ch T Ho Hg E Hq Hqr Hl Ce Cr Cq Hx. pose proof Hs as [_ Hn Hin Hrs Hsm].
  apply elem_of_Permutation in Ho as [o Hp].
  assert (Hno : hm r ∉ o). { rewrite Hp in Hn. by apply NoDup_cons in Hn as []. }
  assert (Hdat : forall i, i ∈ o -> dat d' i = dat d i).
  { intros i Hi. destruct (decide (i = q)) as [-> | Hne]; [by rewrite Cq |]. rewrite Hx; [done | | |]; try done.
    - rewrite Hp. set_solver.
    - congruence. }
  assert (Hoe : forall i, i ∈ e :: o <-> i = e \/ (i ∈ occ /\ i <> hm r)).
  { intros i. rewrite Hp. set_solver. }
  assert (T1 : tbl (nxt d') (fun i => hm (dat d' i)) (e :: o) (upd ch (hm (dat d (hm r))) (l ++ q :: e :: rr))).
  { apply (tbl_move _ _ _ _ T _ _ _ (hm r) q e l rr); try done.
    - by rewrite Ce.
    - by rewrite Cq.
    - intros i Hi H1 H2. by rewrite Hx.
    - by rewrite Ce.
    - intros i Hi Hne. rewrite Hdat; [done |]. rewrite Hp in Hi. set_solver. }
  apply (hashed_perm hm d' (hm r :: e :: o) _ (r :: rs)); [| rewrite Hp; apply perm_swap | done].
  assert (Hre : hm r ∉ e :: o).
  { apply not_elem_of_cons. split; [| done]. intros Heq. apply Hfree. rewrite Hp, <- Heq. set_solver. }
  split.
  - eexists. apply (tbl_add_alone _ _ _ _ T1); [done | intros i; set_solver | by rewrite Cr | done | by rewrite Cr | done].
  - apply NoDup_cons. split; [done |]. apply NoDup_cons. rewrite Hp in Hn, Hfree.
    apply NoDup_cons in Hn as []. split; [set_solver | done].
  - intros i Hi. unfold inside. rewrite Hl. assert (Hi' : i = e \/ i ∈ occ) by (rewrite Hp; set_solver).
    destruct Hi' as [-> | Hi']; [done | by apply Hin].
  - cbn [fmap list_fmap]. rewrite (dat_ext d d' o) by done. rewrite Ce, Cr. cbn [data].
    rewrite Hp in Hrs. cbn [fmap list_fmap] in Hrs. by rewrite <- Hrs.
  - by rewrite Hl.
Qed.
End Add.

(** ** Taking a record out *)

Section Remove.
Context (hm : Z -> Z) (d : list HASH_LINK) (occ rs : list Z) (ch : Z -> list Z).
Context (Hs : hashed hm d occ rs) (T : tbl (nxt d) (fun i => hm (dat d i)) occ ch).

(** [e] is the cell that becomes free. *)
Lemma hashed_remove d' e r occ' rs' ch' :
  occ ≡ₚ e :: occ' -> rs ≡ₚ r :: rs' -> length d' = length d ->
  tbl (nxt d') (fun i => hm (dat d' i)) occ' ch' ->
  (dat d <$> occ) ≡ₚ r :: (dat d' <$> occ') -> hashed hm d' occ' rs'.
Proof.
  intros Ho Hr Hl T' Hd. destruct Hs as [_ Hn Hin Hrs Hsm]. split.
  - by exists ch'.
  - rewrite Ho in Hn. by apply NoDup_cons in Hn as [].
  - intros i Hi. unfold inside. rewrite Hl. apply Hin. rewrite Ho. set_solver.
  - apply (Permutation_cons_inv (a := r)). by rewrite <- Hd, Hrs.
  - by rewrite Hl.
Qed.

Lemma unlink_spec c l1 l2 :
  ch (hm (dat d c)) = l1 ++ c :: l2 ->
  exists d' e, unlink d c (previous None l1) = Some (d', e) /\ length d' = length d /\ e ∈ occ /\
    (e = c -> dat d' e = dat d c) /\
    forall occ' rs', occ ≡ₚ e :: occ' -> rs ≡ₚ dat d c :: rs' -> hashed hm d' occ' rs'.
Proof.
  intros E. pose proof Hs as [_ Hn Hin Hrs Hsm].
  assert (Hco : c ∈ occ) by (apply (chain_occ _ _ _ _ T c (hm (dat d c))); rewrite E; set_solver).
  assert (Hocc : forall i, i ∈ l1 ++ c :: l2 -> i ∈ occ).
  { intros i. rewrite <- E. apply (chain_occ _ _ _ _ T). }
  assert (Hnd : NoDup (l1 ++ c :: l2)) by (rewrite <- E; apply (t_nodup _ _ _ _ T)).
  unfold unlink. rewrite load_cell by auto. cbn [mbind option_bind].
  destruct (decide (l1 = [])) as [-> | Hl1].
  - cbn [previous foldl]. pose proof (chain_next _ _ _ _ T _ _ _ _ E) as Hnx. cbv beta in Hnx. rewrite Hnx.
    assert (Hhome : hm (dat d c) = c).
    { destruct (chain_start _ _ _ _ T c Hco) as [t Et]. rewrite E in Et. by injection Et. }
    cbv beta in Hhome, E. rewrite Hhome in E. destruct l2 as [| c2 l2]; cbn [hd].
    + rewrite bool_decide_false by tauto. exists d, c. split_and!; try done. intros occ' rs' Ho Hr.
      eapply (hashed_remove d c); [done | done | done | | by rewrite Ho].
      eapply (tbl_drop_alone _ _ _ _ T); try done. intros i. rewrite Ho in Hn |- *.
      apply NoDup_cons in Hn as [Hn _]. set_solver.
    + assert (Hc2 : c2 ∈ occ) by (apply Hocc; set_solver).
      rewrite bool_decide_true by (eapply inside_no; eauto). rewrite load_cell by auto. cbn [mbind option_bind].
      destruct (store_cell d c (mk_link (nxt d c2) (dat d c2))) as (d' & -> & C); [auto |]. cbn [mbind option_bind].
      exists d', c2. assert (Hne : c2 <> c) by (cbn [app] in Hnd; rewrite !NoDup_cons in Hnd; set_solver).
      split_and!; [done | apply C | done | done |]. intros occ' rs' Ho Hr.
      assert (Hn2 : c2 ∉ occ') by (rewrite Ho in Hn; by apply NoDup_cons in Hn as []).
      assert (Hco' : c ∈ occ') by (rewrite Ho in Hco; set_solver).
      eapply (hashed_remove d' c2); [done | done | apply C | |].
      * eapply (tbl_drop_head _ _ _ _ T _ _ _ c c2 l2); try done.
        -- intros i. rewrite Ho. set_solver.
        -- by cells.
        -- intros i Hi H1 H2. by cells.
        -- intros i Hi H1. cells. subst i. rewrite Hhome.
           apply (chain_home _ _ _ _ T). rewrite E. set_solver.
      * apply elem_of_Permutation in Hco' as [o Ho'].
        assert (Hno : c ∉ o). { rewrite Ho, Ho' in Hn. rewrite !NoDup_cons in Hn. tauto. }
        rewrite Ho, Ho'. cbn [fmap list_fmap]. rewrite (dat_ext d d' o) by (intros i Hi; assert (i <> c) by congruence; by cells).
        rewrite perm_swap. apply perm_skip. by cells.
  - destruct (exists_last Hl1) as (l & q & ->). rewrite previous_snoc.
    rewrite <- app_assoc in E, Hnd, Hocc. cbn [app] in E, Hnd, Hocc.
    assert (Hq : q ∈ occ) by (apply Hocc; set_solver).
    rewrite load_cell by auto. cbn [mbind option_bind].
    destruct (store_cell d q (mk_link (nxt d c) (dat d q))) as (d' & -> & C); [auto |]. cbn [mbind option_bind].
    exists d', c. assert (Hqc : q <> c) by (rewrite NoDup_app, !NoDup_cons in Hnd; set_solver).
    assert (Hdat : forall i, dat d' i = dat d i) by (intros i; by cells).
    split_and!; [done | apply C | done | done |]. intros occ' rs' Ho Hr.
    eapply (hashed_remove d' c); [done | done | apply C | |].
    + eapply (tbl_unlink _ _ _ _ T _ _ _ (hm (dat d c)) c q l l2); try done.
      * intros i. rewrite Ho in Hn |- *. apply NoDup_cons in Hn as [Hn _]. set_solver.
      * by cells.
      * intros i Hi H1 H2. by cells.
      * intros i Hi H1. cbv beta in Hdat. by rewrite Hdat.
    + rewrite Ho. cbn [fmap list_fmap]. by rewrite (dat_ext d d' occ').
Qed.
End Remove.

(** ** Joining two chains *)

(** The cells [e :: m], which end at [find], are put behind [p]. *)
Lemma splice d p e m t find :
  linked (nxt d) (e :: m) find -> find ∉ e :: m -> NoDup (p :: e :: m ++ t) ->
  (forall i, i ∈ p :: e :: m -> inside d i) -> nxt d p = hd NO_RECORD t -> linked (nxt d) t NO_RECORD ->
  exists d2 d', movelink (S (length d)) d find e (nxt d p) = Some d2 /\
    store d2 p (mk_link e (dat d2 p)) = Some d' /\ length d2 = length d /\ length d' = length d /\
    linked (nxt d') (p :: e :: m ++ t) NO_RECORD /\
    (forall i, dat d' i = dat d i) /\ (forall i, i ∉ p :: e :: m -> nxt d' i = nxt d i).
Proof.
  intros Hl Hf Hnd Hin Hp Ht.
  assert (Hne : e :: m <> []) by done. destruct (exists_last Hne) as (l & q & E).
  assert (Hpq : forall i, i ∈ l ++ [q] -> i <> p) by (rewrite <- E; apply NoDup_cons in Hnd as [Hnd _]; set_solver).
  assert (Htq : forall i, i ∈ l ++ [q] -> i ∉ t).
  { rewrite <- E. apply NoDup_cons in Hnd as [_ Hnd]. replace (e :: m ++ t) with ((e :: m) ++ t) in Hnd by done.
    apply NoDup_app in Hnd as (_ & Hnd & _). done. }
  assert (Hql : q ∉ l).
  { apply NoDup_cons in Hnd as [_ Hnd]. replace (e :: m ++ t) with ((e :: m) ++ t) in Hnd by done.
    rewrite E in Hnd. apply NoDup_app in Hnd as (Hnd & _). apply NoDup_app in Hnd as (_ & Hnd & _). set_solver. }
  assert (Hpt : p ∉ t) by (apply NoDup_cons in Hnd as [Hnd _]; set_solver).
  assert (Hinq : forall i, i ∈ l ++ [q] -> inside d i) by (rewrite <- E; intros i Hi; apply Hin, elem_of_cons; by right).
  assert (Hlen : (length l < S (length d))%nat).
  { assert (length (l ++ [q]) <= length d)%nat; [| rewrite length_app in *; lia]. apply cells_bound; [| done].
    rewrite <- E. apply NoDup_cons in Hnd as [_ Hnd]. replace (e :: m ++ t) with ((e :: m) ++ t) in Hnd by done.
    by apply NoDup_app in Hnd as []. }
  assert (Ehd : e = hd q l) by (destruct l; injection E; done).
  rewrite E in Hl, Hf. destruct (movelink_spec d find (nxt d p) l q _ Hl Hf Hinq Hlen) as (d2 & Hm & C2).
  rewrite <- Ehd in Hm. destruct (store_cell d2 p (mk_link e (dat d2 p))) as (d' & Hst & C').
  { apply (changed_inside _ _ _ _ _ C2), Hin. set_solver. }
  exists d2, d'. assert (Hl2 : length d2 = length d) by apply C2. assert (Hl' : length d' = length d) by (destruct C'; congruence).
  split_and!; try done.
  - change (p :: e :: m ++ t) with (p :: (e :: m) ++ t). cbn [linked]. split; [by cells |]. rewrite E.
    apply linked_app in Hl as [Hl _].
    assert (Hq : q <> p) by (apply Hpq; set_solver).
    apply linked_app. split; [apply linked_app; split |].
    + apply (linked_ext (nxt d)); [| exact Hl]. intros i Hi. assert (i <> p) by (apply Hpq; set_solver).
      assert (i <> q) by congruence. by cells.
    + split; [| done]. cbn [hd]. cells.
    + apply (linked_ext (nxt d)); [| done]. intros i Hi. assert (i <> p) by congruence.
      assert (i <> q) by (intros ->; apply (Htq q); set_solver). by cells.
  - intros i. by cells.
  - intros i Hi. assert (i <> p) by set_solver. assert (Hqe : q ∈ e :: m) by (rewrite E; set_solver).
    assert (i <> q) by set_solver. by cells.
Qed.

(** ** Moving the last record *)

Section Move.
Context (hm : Z -> Z) (d : list HASH_LINK) (occ rs : list Z) (e : Z).
Context (Hs : hashed hm d occ rs) (He : inside d e) (Hfree : e ∉ occ).

Lemma free_ne i : i ∈ occ -> i <> e.
Proof. congruence. Qed.

(** The records after a step that fills [e] and frees [p]. *)
Lemma hashed_refill hm' d' p o ch' :
  occ ≡ₚ p :: o -> length d' = length d -> tbl (nxt d') (fun i => hm' (dat d' i)) (e :: o) ch' ->
  (dat d' <$> e :: o) ≡ₚ (dat d <$> occ) -> hashed hm' d' (e :: o) rs.
Proof.
  intros Ho Hl T Hd. destruct Hs as [_ Hn Hin Hrs Hsm]. split.
  - by exists ch'.
  - rewrite Ho in Hn, Hfree. apply NoDup_cons in Hn as []. apply NoDup_cons. set_solver.
  - intros i Hi. unfold inside. rewrite Hl. apply elem_of_cons in Hi as [-> | Hi]; [done |].
    apply Hin. rewrite Ho. set_solver.
  - by rewrite Hd.
  - by rewrite Hl.
Qed.

Lemma minus_mem p o i : occ ≡ₚ p :: o -> i ∈ e :: o <-> i = e \/ (i ∈ occ /\ i <> p).
Proof using Hs.
  clear He Hfree.
  intros Ho. destruct Hs as [_ Hn _ _ _]. rewrite Ho in Hn |- *. apply NoDup_cons in Hn as [Hn _]. set_solver.
Qed.

Lemma minus_in p o i : occ ≡ₚ p :: o -> i ∈ o -> i ∈ occ /\ i <> p.
Proof using Hs.
  clear He Hfree.
  intros Ho Hi. destruct Hs as [_ Hn _ _ _]. rewrite Ho in Hn |- *. apply NoDup_cons in Hn as [Hn _]. set_solver.
Qed.

Lemma refill_dat d' p o :
  occ ≡ₚ p :: o -> dat d' e = dat d p -> (forall i, i ∈ occ -> i <> p -> dat d' i = dat d i) ->
  (dat d' <$> e :: o) ≡ₚ (dat d <$> occ).
Proof.
  intros Ho De Dx. rewrite Ho. cbn [fmap list_fmap]. cbv beta in De. rewrite De.
  rewrite (dat_ext d d' o); [done |]. intros i Hi. by apply Dx; apply (minus_in p o).
Qed.

(** A record that is not the first of its chain moves to [e]. *)
Lemma hashed_move ch p q l r o d' :
  tbl (nxt d) (fun i => hm (dat d i)) occ ch -> ch (hm (dat d p)) = l ++ q :: p :: r ->
  occ ≡ₚ p :: o -> length d' = length d ->
  cell d' e = cell d p -> cell d' q = mk_link e (dat d q) ->
  (forall i, i ∈ occ -> i <> p -> i <> q -> cell d' i = cell d i) ->
  hashed hm d' (e :: o) rs.
Proof.
  intros T E Ho Hl Ce Cq Cx.
  assert (Hdat : forall i, i ∈ occ -> i <> p -> dat d' i = dat d i).
  { intros i Hi Hip. destruct (decide (i = q)) as [-> | Hne]; [by rewrite Cq | by rewrite Cx]. }
  eapply hashed_refill; [done | done | | apply (refill_dat d' p); [done | by rewrite Ce | done]].
  apply (tbl_move _ _ _ _ T _ _ _ p q e l r); try done.
  - intros i. by apply minus_mem.
  - by rewrite Ce.
  - by rewrite Cq.
  - intros i Hi H1 H2. by rewrite Cx.
  - by rewrite Ce.
  - intros i Hi H1. cbv beta in Hdat. by rewrite Hdat.
Qed.

(** The last cell [lst] is given up; the records of its chain belong to [j] then. *)
Context (lst j : Z) (Hj : lst <> j).
Definition shrunk (r : Z) : Z := if decide (hm r = lst) then j else hm r.

Lemma shrunk_last r : hm r = lst -> shrunk r = j.
Proof. intros. unfold shrunk. by rewrite decide_True. Qed.

Lemma shrunk_other r : hm r <> lst -> shrunk r = hm r.
Proof. intros. unfold shrunk. by rewrite decide_False. Qed.

(** Without a chain of [lst] the homes are the same. *)
Lemma hashed_shrunk d' occ' rs' : hashed hm d' occ' rs' -> lst ∉ occ' -> hashed shrunk d' occ' rs'.
Proof.
  intros H Hl. apply (hashed_ext hm); [done |]. intros r Hr. apply shrunk_other. intros Hh.
  destruct H as [[ch T] _ _ Hrs _]. rewrite <- Hrs in Hr. apply list_elem_of_fmap in Hr as (i & -> & Hi).
  apply Hl. rewrite <- Hh. by apply (home_occ _ _ _ _ T).
Qed.

Lemma hashed_merge ch l o d' :
  tbl (nxt d) (fun i => hm (dat d i)) occ ch -> lst ∈ occ -> hm (dat d lst) = lst -> e <> lst ->
  occ ≡ₚ lst :: o -> length d' = length d ->
  (forall i, i ∈ l <-> i = e \/ ((i ∈ ch j \/ i ∈ ch lst) /\ i <> lst)) ->
  NoDup l -> headed j l -> linked (nxt d') l NO_RECORD ->
  (forall i, i ∈ occ -> i ∉ ch lst -> i ∉ ch j -> nxt d' i = nxt d i) ->
  dat d' e = dat d lst -> (forall i, i ∈ occ -> i <> lst -> dat d' i = dat d i) ->
  hashed shrunk d' (e :: o) rs.
Proof.
  intros T Hlo Hhl Hel Ho Hl Hm Hn Hhd Hlk Nx De Dx.
  eapply hashed_refill; [done | done | | by apply (refill_dat d' lst)].
  eapply (tbl_merge _ _ _ _ T _ _ _ lst j e l); try done.
  - intros i. by apply minus_mem.
  - intros i Hi H1 H2. apply Nx; [done | |]; rewrite (t_mem _ _ _ _ T); tauto.
  - cbv beta in De |- *. rewrite De. by apply shrunk_last.
  - intros i Hi H1. cbv beta in Dx. by rewrite Dx.
Qed.

(** The chain of [lst] moves to [j], which is free. *)
Lemma hashed_merge_free o d' :
  lst ∈ occ -> hm (dat d lst) = lst -> e <> lst -> e = j -> occ ≡ₚ lst :: o -> length d' = length d ->
  cell d' e = cell d lst -> (forall i, i ∈ occ -> i <> lst -> cell d' i = cell d i) ->
  hashed shrunk d' (e :: o) rs.
Proof.
  intros Hlo Hhl Hel Hej Ho Hl Ce Cx. pose proof Hs as [[ch T] Hn Hin Hrs Hsm].
  assert (Ej : ch j = []) by (apply (chain_empty _ _ _ _ T); rewrite <- Hej; tauto).
  destruct (chain_start _ _ _ _ T lst Hlo) as [t E]. cbv beta in E, Hhl. rewrite Hhl in E.
  assert (Hnd : NoDup (lst :: t)) by (rewrite <- E; apply (t_nodup _ _ _ _ T)). apply NoDup_cons in Hnd as [Hnl Hnd].
  assert (Ht : forall i, i ∈ t -> i ∈ occ).
  { intros i Hi. apply (chain_occ _ _ _ _ T i lst). rewrite E. set_solver. }
  apply (hashed_merge ch (e :: t) o d' T); try done.
  - intros i. rewrite Ej, E. set_solver.
  - apply NoDup_cons. split; [| done]. intros Het. by apply Hfree, Ht.
  - right. exists t. congruence.
  - pose proof (t_linked _ _ _ _ T lst) as Hlk. rewrite E in Hlk. destruct Hlk as [H1 H2]. cbn [linked].
    split; [by rewrite Ce |]. eapply linked_ext; [| exact H2]. intros i Hi. rewrite Cx; [done | auto | congruence].
  - intros i Hi H1 _. rewrite Cx; [done | done |]. intros ->. apply H1. rewrite E. set_solver.
  - by rewrite Ce.
  - intros i Hi H1. by rewrite Cx.
Qed.
End Move.

Section Ops.
Context {A : Type} {L : LinkArray A} (mem : Z -> list Z) (h : HASH A).

Lemma place_spec hm d occ rs e r hr :
  hashed hm d occ rs -> inside d e -> e ∉ occ -> (forall i, inside d i -> i = e \/ i ∈ occ) ->
  rec_hashnr mem h r = Some hr -> my_hash_mask hr (blength h) (u32 (records h + 1)) = hm r -> inside d (hm r) ->
  (forall i, i ∈ occ ->
     my_hash_rec_mask mem h (cell d i) (blength h) (u32 (records h + 1)) = Some (hm (dat d i))) ->
  exists d', place_record mem h d e r = Some d' /\ length d' = length d /\ hashed hm d' (e :: occ) (r :: rs).
Proof.
  intros Hs He Hfree Hfull Hr Hm Hi Hrm. unfold place_record. rewrite Hr. cbn [mbind option_bind]. rewrite Hm.
  rewrite load_cell by done. cbn [mbind option_bind]. case_bool_decide as Heq.
  { destruct (store_cell d (hm r) (mk_link NO_RECORD r) Hi) as (d' & -> & C).
    exists d'. split; [done |]. split; [apply C |]. rewrite Heq in C. by apply (hashed_add_alone hm d). }
  assert (Ho : hm r ∈ occ) by (destruct (Hfull (hm r) Hi); [done | done]).
  destruct (store_cell d e (cell d (hm r)) He) as (d1 & -> & C1). cbn [mbind option_bind].
  rewrite Hrm by done. cbn [mbind option_bind].
  assert (Hi1 : inside d1 (hm r)) by by apply (changed_inside _ _ _ _ _ C1).
  assert (Hne : forall i, i ∈ occ -> i <> e) by congruence.
  case_bool_decide as Hg.
  { destruct (store_cell d1 (hm r) (mk_link e r) Hi1) as (d' & -> & C2).
    assert (Hl : length d' = length d) by (destruct C1, C2; congruence).
    exists d'. split; [done |]. split; [done |].
    apply (hashed_add_second hm d _ _ e r Hs He Hfree d'); [done | done | done | by cells | by cells | |].
    - intros i Hio Hir. destruct C1 as [_ C1], C2 as [_ C2]. rewrite C2, upd_ne by done.
      by rewrite C1, upd_ne by auto.
    - right. split; by cells. }
  destruct (store_cell d1 (hm r) (mk_link NO_RECORD r) Hi1) as (d2 & -> & C2). cbn [mbind option_bind].
  assert (Hl : length d2 = length d) by (destruct C1, C2; congruence).
  pose proof Hs as [[ch T] _ Hin _ _].
  assert (Hcell : forall i, i ∈ occ -> i <> hm r -> cell d2 i = cell d i).
  { intros i Hio Hir. destruct C1 as [_ C1], C2 as [_ C2]. rewrite C2, upd_ne by done. by rewrite C1, upd_ne by auto. }
  destruct (walk_to_pred d _ occ ch T Hin (hm r) d2 e) as (l & q & rr & d' & E & Hq & Hqr & Hmv & C3); try done.
  { intros i Hio Hir. by rewrite Hcell. }
  rewrite Hmv. exists d'. assert (Hl' : length d' = length d) by (destruct C3; congruence).
  split; [done |]. split; [done |]. pose proof C1 as [_ D1]. pose proof C2 as [_ D2]. pose proof C3 as [_ D3].
  apply (hashed_add_move hm d _ _ e r Hs He Hfree l q d' rr ch T); try done.
  - rewrite D3, upd_ne, D2, upd_ne, D1, upd_eq by (apply not_eq_sym; auto || auto). done.
  - by rewrite D3, upd_ne, D2, upd_eq by done.
  - rewrite D3, upd_eq. by rewrite Hcell.
  - intros i Hio Hir Hiq. by rewrite D3, upd_ne, Hcell by done.
Qed.

Lemma relink_spec hm d occ rs e idx org :
  hashed hm d occ rs -> inside d e -> e ∉ occ -> (forall i, inside d i -> i = e \/ i ∈ occ) ->
  inside d (hm (data org)) -> (e = idx -> dat d e = data org) ->
  (forall i, i ∈ occ ->
     my_hash_rec_mask mem h (cell d i) (blength h) (records h) = Some (hm (dat d i))) ->
  exists d', relink mem h d org idx e (hm (data org)) = Some d' /\ length d' = length d /\
    hashed hm d' (e :: occ) (data org :: rs).
Proof.
  intros Hs He Hfree Hfull Hi Hidx Hrm. unfold relink. set (r := data org) in *.
  assert (Hne : forall i, i ∈ occ -> i <> e) by congruence. case_bool_decide as Heq.
  { assert (Hd1 : exists d1, (if bool_decide (e <> idx) then store d e org else Some d) = Some d1 /\
      length d1 = length d /\ dat d1 e = r /\ forall j, j <> e -> cell d1 j = cell d j).
    { case_bool_decide as Hei.
      - destruct (store_cell d e org He) as (d1 & -> & C). exists d1. split; [done |]. split; [apply C |].
        split; [by cells |]. intros j Hj. destruct C as [_ C]. by rewrite C, upd_ne.
      - exists d. auto. }
    destruct Hd1 as (d1 & -> & Hl & Hd & Hx). cbn [mbind option_bind].
    assert (He1 : inside d1 e) by (unfold inside; by rewrite Hl). rewrite load_cell by done.
    cbn [mbind option_bind]. destruct (store_cell d1 e (mk_link NO_RECORD (dat d1 e)) He1) as (d' & -> & C).
    exists d'. split; [done |]. assert (Hl' : length d' = length d) by (destruct C; congruence).
    split; [done |]. apply (hashed_add_alone hm d _ _ e r Hs He Hfree d'); [done |]. split; [done |].
    intros j. destruct C as [_ C]. rewrite C. cbv beta in Hd. rewrite Hd. unfold upd. case_decide; [done | by apply Hx]. }
  assert (Ho : hm r ∈ occ) by (destruct (Hfull (hm r) Hi); done).
  rewrite load_cell by done. cbn [mbind option_bind]. rewrite Hrm by done. cbn [mbind option_bind].
  pose proof Hs as [[ch T] _ Hin _ _]. case_bool_decide as Hg.
  - destruct (store_cell d e (cell d (hm r)) He) as (d1 & -> & C1). cbn [mbind option_bind].
    assert (Hl : length d1 = length d) by apply C1. pose proof C1 as [_ D1].
    destruct (walk_to_pred d _ occ ch T Hin (hm r) d1 e) as (l & q & rr & d2 & E & Hq & Hqr & -> & C2); try done.
    { intros i Hio _. pose proof (Hne i Hio). cells. }
    cbn [mbind option_bind]. pose proof C2 as [Hl2 D2].
    destruct (store_cell d2 (hm r) (mk_link NO_RECORD r)) as (d' & -> & C3).
    { unfold inside. by rewrite Hl2, Hl. }
    pose proof C3 as [Hl3 D3]. exists d'. split; [done |].
    assert (Hl' : length d' = length d) by congruence. split; [done |].
    apply (hashed_add_move hm d _ _ e r Hs He Hfree l q d' rr ch T); try done.
    + rewrite D3, upd_ne, D2, upd_ne, D1, upd_eq by (apply not_eq_sym; auto || auto). done.
    + by rewrite D3, upd_eq.
    + rewrite D3, upd_ne, D2, upd_eq by done. pose proof (Hne q Hq). cells.
    + intros i Hio Hir Hiq. by rewrite D3, upd_ne, D2, upd_ne, D1, upd_ne by auto.
  - destruct (store_cell d e (mk_link (nxt d (hm r)) r) He) as (d1 & -> & C1). cbn [mbind option_bind].
    pose proof C1 as [Hl D1]. assert (Hi1 : inside d1 (hm r)) by (unfold inside; by rewrite Hl).
    rewrite load_cell by done. cbn [mbind option_bind].
    destruct (store_cell d1 (hm r) (mk_link e (dat d1 (hm r))) Hi1) as (d' & -> & C2). pose proof C2 as [Hl2 D2].
    exists d'. split; [done |]. assert (Hl' : length d' = length d) by congruence. split; [done |].
    apply (hashed_add_second hm d _ _ e r Hs He Hfree d'); [done | congruence | done | by cells | by cells | |].
    + intros i Hio Hir. by rewrite D2, upd_ne, D1, upd_ne by auto.
    + left. split; by cells.
Qed.

(** ** The last step of a deletion *)

Section MoveLast.
Context (hm : Z -> Z) (d : list HASH_LINK) (occ rs : list Z) (e j blength_ : Z).
Let lst := records h.
Let hm' := shrunk hm lst j.
Context (Hs : hashed hm d occ rs) (He : inside d e) (Hfree : e ∉ occ).
Context (Hfull : forall i, inside d i -> i = e \/ i ∈ occ) (Hlen : Z.of_nat (length d) = lst + 1).
Context (Hlst : e <> lst) (Hj : lst <> j).

Let Hlo : lst ∈ occ.
Proof. destruct (Hfull lst) as [E | E]; [unfold inside; unfold inside in He; lia | | done]. by destruct Hlst. Qed.

Lemma rest_mem i : i = e \/ (i ∈ occ /\ i <> lst) <-> 0 <= i < lst.
Proof.
  split.
  - intros [-> | [Hi Hne]]; [unfold inside in He; lia |]. apply (hs_in _ _ _ _ Hs) in Hi. unfold inside in Hi. lia.
  - intros Hi. destruct (Hfull i) as [-> | Ho]; [unfold inside; lia | by left | right; split; [done | lia]].
Qed.

Let done_with o d' : Prop := length d' = length d /\ exists occ', hashed hm' d' occ' rs /\ (forall i, i ∈ occ' <-> 0 <= i < lst) /\ o = Some d'.

Lemma finish_refill o d' :
  occ ≡ₚ lst :: o -> length d' = length d -> hashed hm' d' (e :: o) rs -> done_with (Some d') d'.
Proof.
  intros Ho Hl H. split; [done |]. exists (e :: o). split_and!; [done | | done]. intros i.
  rewrite (minus_mem _ _ _ _ _ Hs lst o) by done. apply rest_mem.
Qed.

(** The cell where the record of [lst] belongs is free. *)
Lemma last_to_free :
  hm' (dat d lst) = e -> exists d', done_with (store d e (cell d lst)) d'.
Proof.
  intros HP. pose proof Hs as [[ch T] _ _ _ _]. destruct (home_occ _ _ _ _ T lst Hlo) as [Hg _]. cbv beta in *.
  assert (Hl : hm (dat d lst) = lst /\ j = e).
  { unfold hm', shrunk in HP. case_decide; [done |]. by rewrite HP in Hg. }
  destruct Hl as [Hl He'], (store_cell d e (cell d lst) He) as (d' & -> & C). pose proof C as [Hc D].
  exists d'. pose proof Hlo as Ho. apply elem_of_Permutation in Ho as [o Ho]. apply (finish_refill o); [done | done |].
  apply (hashed_merge_free hm d occ rs e Hs He Hfree lst j Hj o d'); try done.
  - by rewrite D, upd_eq.
  - intros i Hi _. rewrite D, upd_ne; [done | congruence].
Qed.

(** The cell holds a record of another chain. *)
Lemma last_to_wrong P :
  hm' (dat d lst) = P -> P <> e -> P ∈ occ -> hm' (dat d P) <> P ->
  exists d1 d2 d', store d e (cell d P) = Some d1 /\ store d1 P (cell d lst) = Some d2 /\
    done_with (movelink (length d2) d2 P (hm' (dat d P)) e) d'.
Proof.
  intros HP HPe HPo HP3. pose proof Hs as [[ch T] Hnd Hin Hrs Hsm]. cbv beta in *.
  destruct (home_occ _ _ _ _ T lst Hlo) as [Hg Hgg]. cbv beta in *.
  assert (Hl : hm (dat d lst) = lst).
  { destruct (decide (hm (dat d lst) = lst)) as [E | E]; [done |]. destruct HP3.
    unfold hm' in HP |- *. rewrite shrunk_other in HP by done. rewrite HP in Hgg, E.
    rewrite shrunk_other; [done | by rewrite Hgg]. }
  assert (HPj : P = j) by (rewrite <- HP; by apply shrunk_last).
  assert (Hp : hm (dat d P) <> lst) by (intros E; destruct HP3; unfold hm'; by rewrite shrunk_last).
  assert (HPl : P <> lst) by congruence.
  assert (Eh : hm' (dat d P) = hm (dat d P)) by (unfold hm'; by apply shrunk_other). cbv beta in Eh. rewrite Eh in *.
  destruct (store_cell d e (cell d P) He) as (d1 & S1 & C1). pose proof C1 as [Hl1 D1].
  assert (Hi1 : inside d1 P) by (unfold inside; rewrite Hl1; by apply Hin).
  destruct (store_cell d1 P (cell d lst) Hi1) as (d2 & S2 & C2). pose proof C2 as [Hl2 D2].
  assert (Hle : length d2 = length d) by congruence.
  destruct (walk_to_pred d _ occ ch T Hin P d2 e HPo HP3 Hle) as (l & q & r & d' & E & Hq & HqP & Hmv & C3).
  { intros i Hi Hne. assert (i <> e) by congruence. by cells. }
  pose proof C3 as [Hl3 D3]. exists d1, d2, d'. split; [done |]. split; [done |]. rewrite Hmv.
  assert (Hql : q <> lst).
  { intros ->. assert (Hc : lst ∈ ch (hm (dat d P))) by (rewrite E; set_solver).
    apply (chain_home _ _ _ _ T) in Hc. cbv beta in Hc. congruence. }
  (* the table with the record of [P] in [e] and [P] free *)
  destruct (store_cell d1 q (mk_link e (dat d1 q))) as (db & _ & Cb).
  { unfold inside. rewrite Hl1. by apply Hin. }
  pose proof Cb as [Hlb Db]. pose proof HPo as Ho. apply elem_of_Permutation in Ho as [o Ho].
  assert (Hlen_b : length db = length d) by congruence.
  assert (Hqe : q <> e) by congruence. assert (Hle' : lst <> e) by congruence.
  assert (Hb : hashed hm db (e :: o) rs).
  { apply (hashed_move hm d occ rs e Hs He Hfree ch P q l r o db T); try done.
    - rewrite Db, upd_ne, D1, upd_eq by congruence. done.
    - rewrite Db, upd_eq. cells.
    - intros i Hi H1 H2. rewrite Db, upd_ne, D1, upd_ne by congruence. done. }
  assert (Hlb' : lst ∈ e :: o) by (rewrite Ho in Hlo; set_solver).
  assert (Clst : cell db lst = cell d lst) by (rewrite Db, upd_ne, D1, upd_ne by congruence; done).
  pose proof Hlb' as Ho2. apply elem_of_Permutation in Ho2 as [o2 Ho2].
  assert (HPb : P ∉ e :: o). { apply not_elem_of_cons. split; [done |]. rewrite Ho in Hnd. by apply NoDup_cons in Hnd as []. }
  split; [congruence |]. exists (P :: o2). split_and!; [| | done].
  - apply (hashed_merge_free hm db (e :: o) rs P Hb) with (lst := lst) (o := o2); try done.
    + unfold inside. rewrite Hlen_b. by apply Hin.
    + cbv beta. by rewrite Clst.
    + congruence.
    + rewrite D3, upd_ne, D2, upd_eq by done. congruence.
    + intros i Hi Hne. destruct (decide (i = q)) as [-> | Hiq].
      * rewrite D3, upd_eq, Db, upd_eq. f_equal. cells.
      * assert (i <> P) by congruence. by rewrite D3, upd_ne, D2, upd_ne, Db, upd_ne by congruence.
  - intros i. rewrite (minus_mem _ _ _ _ P Hb lst o2) by done. rewrite (minus_mem _ _ _ _ e Hs P o) by done.
    rewrite <- rest_mem. destruct (decide (i = P)); naive_solver.
Qed.

(** The record of [lst] stays in the chain of [P]. *)
Lemma last_in_chain P :
  hm (dat d lst) = P -> P <> lst ->
  exists d1 d', store d e (cell d lst) = Some d1 /\ done_with (movelink (length d1) d1 lst P e) d'.
Proof.
  intros HP HPl. pose proof Hs as [[ch T] Hnd Hin Hrs Hsm]. cbv beta in HP.
  destruct (store_cell d e (cell d lst) He) as (d1 & S1 & C1). pose proof C1 as [Hl1 D1].
  destruct (walk_to_pred d _ occ ch T Hin lst d1 e Hlo) as (l & q & r & d' & E & Hq & Hql & Hmv & C2);
    [cbv beta; congruence | done | intros i Hi Hne; assert (i <> e) by congruence; by cells |].
  cbv beta in Hmv, E. rewrite HP in Hmv. exists d1, d'. split; [done |]. rewrite Hmv. pose proof C2 as [Hl2 D2].
  pose proof Hlo as Ho. apply elem_of_Permutation in Ho as [o Ho].
  assert (Hl' : length d' = length d) by congruence. apply (finish_refill o); [done | done |].
  apply hashed_shrunk.
  - apply (hashed_move hm d occ rs e Hs He Hfree ch lst q l r o d' T); try done.
    + rewrite D2, upd_ne, D1, upd_eq by congruence. done.
    + rewrite D2, upd_eq. assert (q <> e) by congruence. cells.
    + intros i Hi H1 H2. by rewrite D2, upd_ne, D1, upd_ne by congruence.
  - rewrite (minus_mem _ _ _ _ e Hs lst o) by done. naive_solver.
Qed.

(** The chain of [lst] is put behind the cell [j]: the records [m] of the chain in
    front of [find], and then [t]. *)
Lemma last_splice ch m t find :
  tbl (nxt d) (fun i => hm (dat d i)) occ ch -> hm (dat d lst) = lst -> j ∈ occ ->
  linked (nxt d) (lst :: m) find -> find ∉ e :: lst :: m -> linked (nxt d) t NO_RECORD -> nxt d j = hd NO_RECORD t ->
  NoDup (j :: m ++ t) -> lst ∉ m ++ t -> (forall i, i ∈ m ++ t -> i ∈ occ) ->
  (forall i, i ∈ j :: m ++ t <-> (i ∈ ch j \/ i ∈ ch lst) /\ i <> lst) ->
  exists d1 d2 d', store d e (cell d lst) = Some d1 /\
    movelink (S (length d1)) d1 find e (nxt d1 j) = Some d2 /\ inside d1 j /\ inside d2 j /\
    done_with (store d2 j (mk_link e (dat d2 j))) d'.
Proof.
  intros T Hl Hjo Hlk Hf Ht Hjt Hnd Hlm Hocc Hmem. pose proof Hs as [_ _ Hin Hrs Hsm].
  destruct (store_cell d e (cell d lst) He) as (d1 & S1 & C1). pose proof C1 as [Hl1 D1].
  assert (Hsame : forall i, i ∈ occ -> nxt d1 i = nxt d i).
  { intros i Hi. assert (i <> e) by congruence. by cells. }
  assert (Hem : e ∉ m ++ t) by (intros Hem; by apply Hfree, Hocc).
  assert (Hmo : forall i, i ∈ m -> i ∈ occ) by (intros i Hi; apply Hocc; set_solver).
  assert (Hi1 : forall i, i ∈ occ -> inside d1 i) by (intros i Hi; unfold inside; rewrite Hl1; by apply Hin).
  destruct (splice d1 j e m t find) as (d2 & d' & Hm & S2 & Hl2 & Hl' & Hlk' & Hdat & Hnx).
  - destruct Hlk as [H1 H2]. cbn [linked]. split; [by cells |].
    eapply linked_ext; [| exact H2]. intros i Hi. by apply Hsame, Hmo.
  - set_solver.
  - apply NoDup_cons in Hnd as [N1 N2]. rewrite !NoDup_cons. split_and!; [| set_solver | done].
    apply not_elem_of_cons. split; [congruence | done].
  - intros i Hi. rewrite !elem_of_cons in Hi. destruct Hi as [-> | [-> | Hi]]; [by apply Hi1 | | by apply Hi1, Hmo].
    unfold inside. by rewrite Hl1.
  - rewrite Hsame by done. done.
  - eapply linked_ext; [| exact Ht]. intros i Hi. apply Hsame, Hocc. set_solver.
  - exists d1, d2, d'. split; [done |]. split; [done |]. split; [by apply Hi1 |].
    split; [unfold inside; rewrite Hl2; by apply Hi1 |]. rewrite S2.
    pose proof Hlo as Ho. apply elem_of_Permutation in Ho as [o Ho].
    assert (Hld : length d' = length d) by congruence. apply (finish_refill o); [done | done |].
    apply (hashed_merge hm d occ rs e Hs He Hfree lst j Hj ch (j :: e :: m ++ t) o d' T); try done.
    + intros i. split; [| intros [-> | Hi]; [set_solver | apply Hmem in Hi; set_solver]].
      intros Hi. destruct (decide (i = e)) as [-> | Hne]; [by left | right]. apply Hmem. set_solver.
    + apply NoDup_cons in Hnd as [N1 N2]. rewrite !NoDup_cons. split_and!; [| done | done].
      apply not_elem_of_cons. split; [congruence | done].
    + right. by eexists.
    + intros i Hi H1 H2. assert (i ∉ j :: m) as Hjm.
      { intros Hjm. assert (Hx : i ∈ j :: m ++ t) by set_solver. apply Hmem in Hx. tauto. }
      cbv beta in Hnx, Hsame. rewrite Hnx; [by apply Hsame |]. assert (i <> e) by congruence. set_solver.
    + cbv beta in Hdat. rewrite Hdat. by cells.
    + intros i Hi _. assert (i <> e) by congruence. cbv beta in Hdat. rewrite Hdat. by cells.
Qed.

(** Both records are in the chain of [lst], which is cut at [j]. *)
Lemma last_same_chain :
  hm (dat d lst) = lst -> j ∈ occ -> hm (dat d j) = lst ->
  exists d1 d2 d', store d e (cell d lst) = Some d1 /\
    movelink (S (length d1)) d1 j e (nxt d1 j) = Some d2 /\ inside d1 j /\ inside d2 j /\
    done_with (store d2 j (mk_link e (dat d2 j))) d'.
Proof.
  intros Hl Hjo Hjl. pose proof Hs as [[ch T] _ _ _ _]. cbv beta in *.
  destruct (chain_start _ _ _ _ T lst Hlo) as [t0 E]. cbv beta in E. rewrite Hl in E.
  assert (Hjt : j ∈ lst :: t0) by (rewrite <- E; by apply (t_mem _ _ _ _ T)).
  apply elem_of_cons in Hjt as [? | Hjt]; [congruence |]. apply list_elem_of_split in Hjt as (m & t & ->).
  assert (Hocc : forall i, i ∈ lst :: m ++ j :: t -> i ∈ occ).
  { intros i. rewrite <- E. apply (chain_occ _ _ _ _ T). }
  pose proof (t_nodup _ _ _ _ T lst) as Hnd. pose proof (t_linked _ _ _ _ T lst) as Hlk. rewrite E in Hnd, Hlk.
  replace (lst :: m ++ j :: t) with ((lst :: m) ++ j :: t) in Hlk by done. apply linked_app in Hlk as [Hlk [Hjn Ht]].
  assert (Ej : ch j = []) by (apply (chain_empty _ _ _ _ T); cbv beta; intros [_ Hx]; congruence).
  apply NoDup_cons in Hnd as [Hlm Hnd].
  apply (last_splice ch m t j T); try done.
  - assert (j ∉ m) by (apply NoDup_app in Hnd as (_ & Hnd & _); set_solver). set_solver.
  - apply NoDup_app in Hnd as (N1 & N2 & N3). apply NoDup_cons in N3 as [N3 N4]. rewrite NoDup_cons, NoDup_app. set_solver.
  - set_solver.
  - intros i Hi. apply Hocc. set_solver.
  - intros i. rewrite Ej, E. set_solver.
Qed.

(** The chain of [lst] is joined to the chain of [j]. *)
Lemma last_two_chains :
  hm (dat d lst) = lst -> j ∈ occ -> hm (dat d j) = j ->
  exists d1 d2 d', store d e (cell d lst) = Some d1 /\
    movelink (S (length d1)) d1 NO_RECORD e (nxt d1 j) = Some d2 /\ inside d1 j /\ inside d2 j /\
    done_with (store d2 j (mk_link e (dat d2 j))) d'.
Proof.
  intros Hl Hjo Hjj. pose proof Hs as [[ch T] _ Hin _ Hsm]. cbv beta in *.
  destruct (chain_start _ _ _ _ T lst Hlo) as [m E]. cbv beta in E. rewrite Hl in E.
  destruct (chain_start _ _ _ _ T j Hjo) as [t Ej]. cbv beta in Ej. rewrite Hjj in Ej.
  assert (Hoccl : forall i, i ∈ lst :: m -> i ∈ occ /\ hm (dat d i) = lst).
  { intros i. rewrite <- E. apply (t_mem _ _ _ _ T). }
  assert (Hoccj : forall i, i ∈ j :: t -> i ∈ occ /\ hm (dat d i) = j).
  { intros i. rewrite <- Ej. apply (t_mem _ _ _ _ T). }
  assert (Hdisj : forall i, i ∈ lst :: m -> i ∉ j :: t).
  { intros i Hi Hi'. apply Hoccl in Hi as [_ H1]. apply Hoccj in Hi' as [_ H2]. congruence. }
  pose proof (t_nodup _ _ _ _ T lst) as Hndl. pose proof (t_linked _ _ _ _ T lst) as Hlkl. rewrite E in Hndl, Hlkl.
  pose proof (t_nodup _ _ _ _ T j) as Hndj. pose proof (t_linked _ _ _ _ T j) as Hlkj. rewrite Ej in Hndj, Hlkj.
  apply NoDup_cons in Hndl as [Hlm Hndl]. apply NoDup_cons in Hndj as [Hjt Hndj]. destruct Hlkj as [Hjn Ht].
  assert (Hno : forall i, i ∈ e :: lst :: m -> i <> NO_RECORD).
  { intros i Hi. apply (inside_no d); [| done]. apply elem_of_cons in Hi as [-> | Hi]; [done |].
    apply Hoccl in Hi as [Hi _]. by apply Hin. }
  apply (last_splice ch m t NO_RECORD T); try done.
  - intros Hx. by apply (Hno NO_RECORD).
  - rewrite NoDup_cons, NoDup_app. split_and!; [set_solver | done | set_solver | done].
  - set_solver.
  - intros i Hi. apply elem_of_app in Hi as [Hi | Hi]; [apply Hoccl | apply Hoccj]; set_solver.
  - intros i. rewrite Ej, E. assert (lst ∉ j :: t) by (apply Hdisj; set_solver). set_solver.
Qed.

Lemma move_last_inner :
  0 <= j < lst ->
  (forall r, r ∈ rs -> exists hr, rec_hashnr mem h r = Some hr /\
     my_hash_mask hr (blength h) (records h) = hm' r /\ my_hash_mask hr blength_ (u32 (records h + 1)) = hm r) ->
  exists d', done_with (move_last mem h blength_ d e) d'.
Proof.
  intros Hj0 Hh. pose proof Hs as [[ch T] _ Hin Hrs _]. unfold move_last.
  rewrite (bool_decide_false (e = records h)) by done. fold lst.
  assert (Hd : forall i, i ∈ occ -> dat d i ∈ rs) by (intros i Hi; rewrite <- Hrs; apply list_elem_of_fmap; eauto).
  rewrite load_cell by by apply Hin. cbn [mbind option_bind].
  destruct (Hh _ (Hd lst Hlo)) as (hl & El & Ml' & Ml). cbv beta in El, Ml, Ml'. rewrite El. cbn [mbind option_bind].
  fold lst in Ml', Ml |- *. rewrite Ml'. case_bool_decide as HPe; [by apply last_to_free |].
  destruct (home_occ _ _ _ _ T lst Hlo) as [Hgo Hgg]. cbv beta in Hgo, Hgg.
  assert (HP : hm' (dat d lst) ∈ occ).
  { destruct (Hfull (hm' (dat d lst))) as [? | ?]; [| done | done].
    unfold hm', shrunk. case_decide; [unfold inside; lia | by apply Hin]. }
  rewrite load_cell by by apply Hin. cbn [mbind option_bind].
  destruct (Hh _ (Hd _ HP)) as (hp & Ep & Mp' & Mp). cbv beta in Ep, Mp, Mp', HPe, HP. rewrite Ep. cbn [mbind option_bind].
  fold lst in Mp', Mp. rewrite Mp', Ml, Mp. case_bool_decide as H3.
  { destruct (last_to_wrong _ eq_refl HPe HP) as (d1 & d2 & d' & -> & S2 & Hd'); [cbv beta; congruence |].
    cbn [mbind option_bind]. cbv beta in S2. rewrite S2. cbn [mbind option_bind]. by exists d'. }
  destruct (decide (hm (dat d lst) = lst)) as [Hl | Hl]; cbv beta in Hl.
  - assert (HPj : hm' (dat d lst) = j) by by apply shrunk_last. cbv beta in HPj. rewrite HPj in *. rewrite Hl.
    rewrite (bool_decide_false (lst <> lst)), andb_false_r by tauto.
    destruct (decide (hm (dat d j) = lst)) as [Hjl | Hjl]; cbv beta in Hjl.
    + rewrite (bool_decide_true (lst = _)) by done.
      destruct (last_same_chain Hl HP Hjl) as (d1 & d2 & d' & -> & Hm & Hi1 & Hi2 & Hd').
      cbn [mbind option_bind]. rewrite load_cell by done. cbn [mbind option_bind].
      cbv beta in Hm. rewrite Hm. cbn [mbind option_bind]. rewrite load_cell by done. cbn [mbind option_bind]. by exists d'.
    + rewrite (bool_decide_false (lst = _)) by done.
      assert (Hjj : hm (dat d j) = j) by (rewrite <- (shrunk_other hm lst j) by done; done).
      destruct (last_two_chains Hl HP Hjj) as (d1 & d2 & d' & -> & Hm & Hi1 & Hi2 & Hd').
      cbn [mbind option_bind]. rewrite load_cell by done. cbn [mbind option_bind].
      cbv beta in Hm. rewrite Hm. cbn [mbind option_bind]. rewrite load_cell by done. cbn [mbind option_bind]. by exists d'.
  - assert (HPg : hm' (dat d lst) = hm (dat d lst)) by by apply shrunk_other. cbv beta in HPg. rewrite HPg in *.
    rewrite (bool_decide_true (_ = _)) by done. rewrite bool_decide_true by done. cbn [andb].
    destruct (last_in_chain (hm (dat d lst)) eq_refl Hl) as (d1 & d' & -> & Hd'). cbn [mbind option_bind]. by exists d'.
Qed.
End MoveLast.

Lemma move_last_spec hm d occ rs e j blength_ :
  hashed hm d occ rs -> inside d e -> e ∉ occ -> (forall i, inside d i -> i = e \/ i ∈ occ) ->
  Z.of_nat (length d) = records h + 1 -> (records h = 0 \/ 0 <= j < records h) ->
  (forall r, r ∈ rs -> exists hr, rec_hashnr mem h r = Some hr /\
     my_hash_mask hr (blength h) (records h) = shrunk hm (records h) j r /\
     my_hash_mask hr blength_ (u32 (records h + 1)) = hm r) ->
  exists d' occ', move_last mem h blength_ d e = Some d' /\ length d' = length d /\
    hashed (shrunk hm (records h) j) d' occ' rs /\ (forall i, i ∈ occ' <-> 0 <= i < records h).
Proof.
  intros Hs He Hfree Hfull Hlen Hj Hh. destruct (decide (e = records h)) as [E | E].
  - exists d, occ. split_and!; [| done | |].
    + unfold move_last. by rewrite bool_decide_true.
    + apply hashed_shrunk; [done | congruence].
    + intros i. split.
      * intros Hi. assert (i <> records h) by congruence. apply (hs_in _ _ _ _ Hs) in Hi. unfold inside in Hi. lia.
      * intros Hi. destruct (Hfull i) as [-> | ?]; [unfold inside; lia | lia | done].
  - assert (Hj' : 0 <= j < records h) by (unfold inside in He; destruct Hj; lia).
    destruct (move_last_inner hm d occ rs e j blength_ Hs He Hfree Hfull Hlen E) as (d' & Hl & occ' & H1 & H2 & H3);
      [lia | done | done |]. by exists d', occ'.
Qed.
End Ops.
End HashProps.
