(* ===== verification/HashSplit.v ===== *)
(** * HashSplit: the split of a chain by an insertion

    [my_hash_insert] in [mysys/hash.c] gives the table one more cell, [n], and splits
    the chain of one cell, [j0], by a bit of the hash numbers, in one pass.  The
    loop writes each link as late as possible; [half] describes a chain whose last
    cell is still to be written. *)
From stdpp Require Import base tactics option list numbers sets.
From Stdlib Require Import ZArith Lia.
From S2P Require Import Prelude.
From S2P Require Import Hash.
From S2P Require Import HashChain.
From S2P Require Import HashProps.

Module HashSplit.
Import Hash HashChain HashProps.

(** ** A chain under construction *)

Section Half.
Context (d0 : list HASH_LINK).

(** The records of the cells [src] go to the cells [dst], the last of which is [g];
    its link is not final, and it holds its record [rec] only if it is [used]: then it
    is the cell [p] visited last. *)
Definition half (d : list HASH_LINK) (found used : bool) (src dst : list Z) (g rec p : Z) : Prop :=
  if found
  then exists src' s dst', src = src' ++ [s] /\ dst = dst' ++ [g] /\ linked (nxt d) dst' g /\
         Forall2 (fun s c => dat d c = dat d0 s) src' dst' /\ rec = dat d0 s /\
         (used = true -> g = p /\ s = p)
  else src = [] /\ dst = [] /\ used = false.

Lemma moved_ext (d d' : list HASH_LINK) src dst :
  Forall2 (fun s c => dat d c = dat d0 s) src dst -> (forall c, c ∈ dst -> dat d' c = dat d c) ->
  Forall2 (fun s c => dat d' c = dat d0 s) src dst.
Proof.
  induction 1 as [| s c src dst Hc Hf IH]; intros Hx; constructor.
  - rewrite Hx by set_solver. done.
  - apply IH. set_solver.
Qed.

Lemma half_ext d d' found used src dst g rec p :
  half d found used src dst g rec p -> (forall c, c ∈ dst -> cell d' c = cell d c) ->
  half d' found used src dst g rec p.
Proof.
  destruct found; [| done]. intros (src' & s & dst' & -> & -> & Hl & Hf & Hr & Hu) Hx.
  exists src', s, dst'. split_and!; try done.
  - eapply linked_ext; [| exact Hl]. intros c Hc. rewrite Hx by set_solver. done.
  - apply (moved_ext d); [done |]. intros c Hc. rewrite Hx by set_solver. done.
Qed.

Lemma half_frame d d' found used src dst g rec p i x :
  half d found used src dst g rec p -> changed d d' i x -> i ∉ dst ->
  half d' found used src dst g rec p.
Proof.
  intros H [_ C] Hi. apply (half_ext d); [done |]. intros c Hc. rewrite C, upd_ne by congruence. done.
Qed.

(** The chain goes on elsewhere: the cell is not the last one visited. *)
Lemma half_unused d found used src dst g rec p p' :
  half d found used src dst g rec p -> half d found false src dst g rec p'.
Proof.
  destruct found; [| by intros (? & ? & ?)]. intros (src' & s & dst' & H1 & H2 & H3 & H4 & H5 & _).
  exists src', s, dst'. split_and!; done.
Qed.

(** The next record [p'] of the chain stays in its place. *)
Lemma half_extend d used src dst g rec p p' :
  half d true used src dst g rec p -> NoDup dst -> p' ∉ dst ->
  (used = true -> cell d p = cell d0 p /\ nxt d0 p = p') ->
  cell d p' = cell d0 p' -> inside d g ->
  exists d', (if used then Some d else store d g (mk_link p' rec)) = Some d' /\
    (d' = d \/ changed d d' g (mk_link p' rec)) /\
    half d' true true (src ++ [p']) (dst ++ [p']) p' (dat d0 p') p'.
Proof.
  intros (src' & s & dst' & -> & -> & Hl & Hf & Hr & Hu) Hnd Hp' Hused Hc Hg.
  apply NoDup_app in Hnd as (N1 & N2 & _).
  assert (Hgd : forall c, c ∈ dst' -> c <> g) by set_solver.
  assert (Hext : forall d' : list HASH_LINK, nxt d' g = p' -> dat d' g = dat d0 s ->
    (forall c, c ∈ dst' -> cell d' c = cell d c) ->
    half d' true true ((src' ++ [s]) ++ [p']) ((dst' ++ [g]) ++ [p']) p' (dat d0 p') p').
  { intros d' Hn Hd Hx. exists (src' ++ [s]), p', (dst' ++ [g]). split_and!; try done.
    - apply linked_app. split; [| done]. eapply linked_ext; [| exact Hl]. intros c Hcc. by rewrite Hx.
    - apply Forall2_app; [| by constructor]. apply (moved_ext d); [done |]. intros c Hcc. by rewrite Hx. }
  destruct used.
  - destruct Hu as [-> ->]; [done |]. destruct Hused as [Hcp Hnp]; [done |].
    exists d. split; [done |]. split; [by left |]. apply Hext; [by rewrite Hcp | by rewrite Hcp | done].
  - destruct (store_cell d g (mk_link p' rec) Hg) as (d' & -> & C). exists d'. split; [done |]. split; [by right |].
    apply Hext; [by cells | by cells |]. intros c Hcc. destruct C as [_ C]. rewrite C, upd_ne by auto. done.
Qed.

(** A chain starts with the record of [p'], in its place or in the cell [g]. *)
Lemma half_start d p' g (used : bool) :
  (used = true -> g = p') -> half d true used [p'] [g] g (dat d0 p') p'.
Proof. intros Hu. exists [], p', []. split_and!; try done. intros ->. split; [by apply Hu | done]. Qed.

Lemma half_nonempty d used src dst g rec p : half d true used src dst g rec p -> src <> [] /\ g ∈ dst.
Proof. intros (src' & s & dst' & -> & -> & _). split; [by destruct src' | set_solver]. Qed.

(** At the end the last link is written. *)
Lemma half_finish d used src dst g rec p :
  half d true used src dst g rec p -> NoDup dst -> inside d g ->
  (used = true -> cell d p = cell d0 p /\ nxt d0 p = NO_RECORD) ->
  exists d', (if used then Some d else store d g (mk_link NO_RECORD rec)) = Some d' /\
    (d' = d \/ changed d d' g (mk_link NO_RECORD rec)) /\
    linked (nxt d') dst NO_RECORD /\ Forall2 (fun s c => dat d' c = dat d0 s) src dst.
Proof.
  intros H Hnd Hg Hused.
  assert (Hx : exists d', (if used then Some d else store d g (mk_link NO_RECORD rec)) = Some d' /\
    (d' = d \/ changed d d' g (mk_link NO_RECORD rec)) /\ nxt d' g = NO_RECORD /\ dat d' g = rec /\
    (forall c, c <> g -> cell d' c = cell d c)).
  { destruct used.
    - destruct H as (src' & s & dst' & -> & -> & Hl & Hf & Hr & Hu). destruct Hu as [-> ->]; [done |].
      destruct Hused as [Hcp Hnp]; [done |]. exists d. split_and!; [done | by left | by rewrite Hcp | by rewrite Hcp, Hr | done].
    - destruct (store_cell d g (mk_link NO_RECORD rec) Hg) as (d' & -> & C). exists d'.
      split_and!; [done | by right | by cells | by cells |]. intros c Hc. destruct C as [_ C]. by rewrite C, upd_ne. }
  destruct Hx as (d' & -> & Hd & Hn & Hr' & Hc). exists d'. split; [done |]. split; [done |].
  destruct H as (src' & s & dst' & -> & -> & Hl & Hf & Hr & _). apply NoDup_app in Hnd as (N1 & N2 & _).
  assert (Hgd : forall c, c ∈ dst' -> cell d' c = cell d c) by (intros c Hcc; apply Hc; set_solver). split.
  - apply linked_app. split; [| done]. eapply linked_ext; [| exact Hl]. intros c Hcc. by rewrite Hgd.
  - apply Forall2_app; [| constructor; [congruence | done]]. apply (moved_ext d); [done |].
    intros c Hcc. by rewrite Hgd.
Qed.
End Half.

(** ** The loop *)

(** [flag]: whether a record was found for each chain and whether it is used. *)
Definition code (lf lu hf hu : bool) : Z := Z.b2z lf + 2 * Z.b2z lu + 4 * Z.b2z hf + 8 * Z.b2z hu.

Section Loop.
Context (d0 : list HASH_LINK) (n j0 : Z) (low : Z -> bool).
Context (Hsmall : Z.of_nat (length d0) < NO_RECORD).

Abbreviation lows := (base.filter (fun i => low (dat d0 i) = true)).
Abbreviation highs := (base.filter (fun i => low (dat d0 i) = false)).

(** The state after the cells [P] of the chain, the last of which is [p]. *)
Record sinv (P : list Z) (p : Z) (st : split) (lf lu hf hu : bool) (dl dh : list Z) : Prop := {
  si_flag : sp_flag st = code lf lu hf hu;
  si_used : lu = true -> hu = false;
  si_low : half d0 (sp_data st) lf lu (lows P) dl (sp_gpos st) (sp_rec st) p;
  si_high : half d0 (sp_data st) hf hu (highs P) dh (sp_gpos2 st) (sp_rec2 st) p;
  si_cells : dl ++ dh ++ [sp_empty st] ≡ₚ P ++ [n];
  si_lowhead : headed j0 dl;
  si_highhead : headed n dh;
  si_empty_n : hf = false -> sp_empty st = n;
  si_empty_j : lf = false -> P <> [] -> sp_empty st = j0;
  si_len : length (sp_data st) = length d0;
  si_p : P <> [] -> cell (sp_data st) p = cell d0 p;
  si_rest : forall i, i ∉ P ++ [n] -> cell (sp_data st) i = cell d0 i;
}.

Lemma headed_snoc j l x : headed j l -> l <> [] -> headed j (l ++ [x]).
Proof. intros [-> | [t ->]] Hl; [done |]. right. by exists (t ++ [x]). Qed.

Section Step.
Context (P : list Z) (p p' : Z) (st : split) (lf lu hf hu : bool) (dl dh : list Z).
Context (I : sinv P p st lf lu hf hu dl dh) (Hnd : NoDup (P ++ [n])) (Hp' : p' ∉ P ++ [n]).
Context (Hin : forall i, i ∈ P ++ [n] -> inside d0 i) (Hin' : inside d0 p').
Context (Hfirst : P = [] -> p' = j0) (Hnext : P <> [] -> nxt d0 p = p').

Let Hnd2 : NoDup (dl ++ dh ++ [sp_empty st]).
Proof. destruct I. by rewrite si_cells0. Qed.

Let Hmem i : i ∈ dl ++ dh ++ [sp_empty st] -> i <> p' /\ inside (sp_data st) i.
Proof.
  intros Hi. destruct I. rewrite si_cells0 in Hi. split; [congruence |]. unfold inside. rewrite si_len0. by apply Hin.
Qed.

Let Hload : load (sp_data st) p' = Some (cell d0 p').
Proof. destruct I. rewrite load_cell by (unfold inside; rewrite si_len0; done). by rewrite si_rest0. Qed.

Lemma step_nonempty : lf = true \/ hf = true -> P <> [].
Proof.
  intros Hf ->. destruct I. destruct Hf as [-> | ->];
    [apply half_nonempty in si_low0 as [H _] | apply half_nonempty in si_high0 as [H _]]; done.
Qed.

Lemma step_empty : lf = false -> hf = false -> P = [].
Proof.
  intros -> ->. destruct I as [_ _ (_ & -> & _) (_ & -> & _) Hc]. apply Permutation_length in Hc.
  rewrite !length_app in Hc. simpl in Hc. destruct P; [done | simpl in Hc; lia].
Qed.

(** What both steps keep: the cells outside the chain, and the new last cell. *)
Lemma step_rest (d' : list HASH_LINK) g x :
  d' = sp_data st \/ changed (sp_data st) d' g x -> g ∈ dl ++ dh ++ [sp_empty st] ->
  length d' = length d0 /\ cell d' p' = cell d0 p' /\ (forall i, i ∉ (P ++ [p']) ++ [n] -> cell d' i = cell d0 i).
Proof.
  intros Hd Hg. destruct I. pose proof (Hmem g Hg) as [Hgp _]. rewrite si_cells0 in Hg.
  assert (Hx : forall i, i ∉ P ++ [n] -> cell d' i = cell d0 i).
  { intros i Hi. destruct Hd as [-> | [_ C]]; [by apply si_rest0 |]. rewrite C, upd_ne by congruence. by apply si_rest0. }
  split_and!; [destruct Hd as [-> | [-> _]]; done | by apply Hx |]. intros i Hi. apply Hx. set_solver.
Qed.

Lemma low_step_inv :
  low (dat d0 p') = true ->
  exists st' lf' lu' hf' hu' dl' dh', low_step p' st = Some st' /\ sinv (P ++ [p']) p' st' lf' lu' hf' hu' dl' dh'.
Proof.
  intros Hlow. pose proof I as [I1 I2 I3 I4 I5 I6 I7 I8 I9 I10 I11 I12].
  assert (El : lows (P ++ [p']) = lows P ++ [p']).
  { rewrite filter_app. f_equal. rewrite filter_cons_True by done. done. }
  assert (Eh : highs (P ++ [p']) = highs P).
  { rewrite filter_app, filter_cons_False by (cbv beta in *; congruence). by rewrite filter_nil, app_nil_r. }
  pose proof step_rest as SR. pose proof step_nonempty as SN. pose proof step_empty as SE.
  pose proof Hnd2 as N. pose proof Hmem as M. pose proof Hload as HL. clear Hnd2 Hmem Hload I.
  destruct st as [d flag empty gpos rec gpos2 rec2]. cbn [sp_data sp_flag sp_empty sp_gpos sp_rec sp_gpos2 sp_rec2] in *.
  unfold low_step. subst flag. rewrite HL.
  assert (Hrest : forall i, i ∉ (P ++ [p']) ++ [n] -> cell d i = cell d0 i) by (intros i Hi; apply I12; set_solver).
  destruct lf.
  - (* a further record *)
    destruct (half_nonempty d0 _ _ _ _ _ _ _ I3) as [_ Hg]. assert (Hgm : gpos ∈ dl ++ dh ++ [empty]) by set_solver.
    assert (Hne : P <> []) by (apply SN; by left).
    destruct (half_extend d0 d lu _ dl gpos rec p p' I3) as (d' & Hd' & Hch & Hh).
    { by apply NoDup_app in N as []. }
    { intros Hx. destruct (M p') as [? _]; [set_solver | done]. }
    { intros _. split; [by apply I11 | by apply Hnext]. }
    { by apply I12. }
    { by apply M. }
    destruct (SR d' gpos _ Hch Hgm) as (R1 & R2 & R3).
    assert (Hhi : half d0 d' hf hu (highs P) dh gpos2 rec2 p).
    { destruct Hch as [-> | C]; [done |]. eapply half_frame; [done | done |].
      apply NoDup_app in N as (_ & N & _). set_solver. }
    assert (Hhas : has (code true lu hf hu) LOWFIND = true) by (by destruct lu, hf, hu). rewrite Hhas. cbn [negb].
    assert (Hus : negb (has (code true lu hf hu) LOWUSED) = negb lu) by (by destruct lu, hf, hu). rewrite Hus.
    exists (mk_split d' (code true true hf false) empty p' (dat d0 p') gpos2 rec2), true, true, hf, false, (dl ++ [p']), dh. split.
    + destruct lu; cbn [negb].
      * injection Hd' as <-. cbn [mbind option_bind]. rewrite HL. by rewrite I2.
      * rewrite Hd'. cbn [mbind option_bind]. rewrite load_cell by (unfold inside; rewrite R1; done).
        cbn [mbind option_bind]. rewrite R2. by destruct hf, hu.
    + split; cbn [sp_data sp_flag sp_empty sp_gpos sp_rec sp_gpos2 sp_rec2]; try done.
      * by rewrite El.
      * rewrite Eh. by eapply half_unused.
      * rewrite <- app_assoc, (Permutation_app_comm [p']), app_assoc, I5. rewrite <- !app_assoc. by apply Permutation_app_head, Permutation_app_comm.
      * apply headed_snoc; [done |]. intros ->. by apply elem_of_nil in Hg.
  - destruct I3 as (Hl0 & -> & ->).
    assert (Hlf : has (code false false hf hu) LOWFIND = false) by (by destruct hf, hu). rewrite Hlf. cbn [negb].
    assert (Hhf : has (code false false hf hu) HIGHFIND = hf) by (by destruct hf, hu). rewrite Hhf. cbn [mbind option_bind].
    destruct hf.
    + (* the first one, behind records of the other chain *)
      assert (Hne : P <> []) by (apply SN; by right). assert (He : empty = j0) by by apply I9.
      eexists _, true, false, true, false, [empty], dh. split; [reflexivity |].
      split; cbn [sp_data sp_flag sp_empty sp_gpos sp_rec sp_gpos2 sp_rec2]; try done.
      * rewrite El, Hl0. by apply half_start.
      * rewrite Eh. by eapply half_unused.
      * rewrite app_nil_l in I5. rewrite app_assoc, (Permutation_app_comm [empty]), I5.
        rewrite <- !app_assoc. by apply Permutation_app_head, Permutation_app_comm.
      * right. exists []. by rewrite He.
      * intros _. by apply I12.
    + (* the very first record *)
      assert (HP : P = []) by by apply SE. destruct I4 as (Hh0 & -> & ->).
      eexists _, true, true, false, false, [p'], []. split; [reflexivity |].
      split; cbn [sp_data sp_flag sp_empty sp_gpos sp_rec sp_gpos2 sp_rec2]; try done.
      * rewrite El, Hl0. by apply half_start.
      * by rewrite Eh, Hh0.
      * rewrite HP. by rewrite I8.
      * right. exists []. by rewrite Hfirst.
      * intros _. by apply I12.
Qed.

Lemma high_step_inv :
  low (dat d0 p') = false ->
  exists st' lf' lu' hf' hu' dl' dh', high_step p' st = Some st' /\ sinv (P ++ [p']) p' st' lf' lu' hf' hu' dl' dh'.
Proof.
  intros Hlow. pose proof I as [I1 I2 I3 I4 I5 I6 I7 I8 I9 I10 I11 I12].
  assert (Eh : highs (P ++ [p']) = highs P ++ [p']).
  { rewrite filter_app. f_equal. rewrite filter_cons_True by done. done. }
  assert (El : lows (P ++ [p']) = lows P).
  { rewrite filter_app, filter_cons_False by (cbv beta in *; congruence). by rewrite filter_nil, app_nil_r. }
  pose proof step_rest as SR. pose proof step_nonempty as SN. pose proof step_empty as SE.
  pose proof Hnd2 as N. pose proof Hmem as M. pose proof Hload as HL. clear Hnd2 Hmem Hload I.
  destruct st as [d flag empty gpos rec gpos2 rec2]. cbn [sp_data sp_flag sp_empty sp_gpos sp_rec sp_gpos2 sp_rec2] in *.
  unfold high_step. subst flag. rewrite HL.
  assert (Hrest : forall i, i ∉ (P ++ [p']) ++ [n] -> cell d i = cell d0 i) by (intros i Hi; apply I12; set_solver).
  destruct hf.
  - (* a further record *)
    destruct (half_nonempty d0 _ _ _ _ _ _ _ I4) as [_ Hg]. assert (Hgm : gpos2 ∈ dl ++ dh ++ [empty]) by set_solver.
    assert (Hne : P <> []) by (apply SN; by right).
    destruct (half_extend d0 d hu _ dh gpos2 rec2 p p' I4) as (d' & Hd' & Hch & Hh).
    { apply NoDup_app in N as (_ & _ & N). by apply NoDup_app in N as []. }
    { intros Hx. destruct (M p') as [? _]; [set_solver | done]. }
    { intros _. split; [by apply I11 | by apply Hnext]. }
    { by apply I12. }
    { by apply M. }
    destruct (SR d' gpos2 _ Hch Hgm) as (R1 & R2 & R3).
    assert (Hlo : half d0 d' lf lu (lows P) dl gpos rec p).
    { destruct Hch as [-> | C]; [done |]. eapply half_frame; [done | done |].
      apply NoDup_app in N as (_ & N & _). set_solver. }
    assert (Hhas : has (code lf lu true hu) HIGHFIND = true) by (by destruct lf, lu, hu). rewrite Hhas. cbn [negb].
    assert (Hus : negb (has (code lf lu true hu) HIGHUSED) = negb hu) by (by destruct lf, lu, hu). rewrite Hus.
    exists (mk_split d' (code lf false true true) empty gpos rec p' (dat d0 p')), lf, false, true, true, dl, (dh ++ [p']). split.
    + destruct hu; cbn [negb].
      * injection Hd' as <-. cbn [mbind option_bind]. rewrite HL.
        destruct lu; [by specialize (I2 eq_refl) | done].
      * rewrite Hd'. cbn [mbind option_bind]. rewrite load_cell by (unfold inside; rewrite R1; done).
        cbn [mbind option_bind]. rewrite R2. by destruct lf, lu.
    + split; cbn [sp_data sp_flag sp_empty sp_gpos sp_rec sp_gpos2 sp_rec2]; try done.
      * rewrite El. by eapply half_unused.
      * by rewrite Eh.
      * rewrite <- app_assoc, (Permutation_app_comm [p']), !app_assoc, <- (app_assoc dl), I5.
        rewrite <- !app_assoc. by apply Permutation_app_head, Permutation_app_comm.
      * apply headed_snoc; [done |]. intros ->. by apply elem_of_nil in Hg.
      * intros -> _. by apply I9.
  - destruct I4 as (Hh0 & -> & ->). pose proof (I8 eq_refl) as He.
    assert (Hhf : has (code lf lu false false) HIGHFIND = false) by (by destruct lf, lu). rewrite Hhf. cbn [negb mbind option_bind].
    exists (mk_split d (code lf false true false) p' gpos rec empty (dat d0 p')), lf, false, true, false, dl, [empty].
    split; [by destruct lf, lu |].
    split; cbn [sp_data sp_flag sp_empty sp_gpos sp_rec sp_gpos2 sp_rec2]; try done.
    + rewrite El. by eapply half_unused.
    + rewrite Eh, Hh0. by apply half_start.
    + rewrite app_nil_l in I5. rewrite app_assoc, I5. rewrite <- !app_assoc. by apply Permutation_app_head, Permutation_app_comm.
    + right. exists []. by rewrite He.
    + intros -> _. apply Hfirst. by apply SE.
    + intros _. by apply I12.
Qed.
End Step.

Section Run.
Context {A : Type} {L : LinkArray A} (mem : Z -> list Z) (info : HASH A) (halfbuff : Z) (C : list Z).
Context (Hlk : linked (nxt d0) C NO_RECORD) (Hnd : NoDup (C ++ [n])) (Hin : forall i, i ∈ C ++ [n] -> inside d0 i).
Context (Hhash : forall i, i ∈ C -> exists hr, rec_hashnr mem info (dat d0 i) = Some hr /\
  my_hash_mask hr (blength info) (records info) = j0 /\ bool_decide (hr &&& halfbuff = 0) = low (dat d0 i)).

(** One pass for the cell [p'] behind the cells [P]. *)
Lemma split_pass P p p' Q st lf lu hf hu dl dh fuel :
  C = P ++ p' :: Q -> (P = [] -> p' = j0) -> (P <> [] -> nxt d0 p = p') -> sinv P p st lf lu hf hu dl dh ->
  exists st' lf' lu' hf' hu' dl' dh', sinv (P ++ [p']) p' st' lf' lu' hf' hu' dl' dh' /\
    split_loop mem (S fuel) info j0 halfbuff p' st =
      if bool_decide (nxt d0 p' = NO_RECORD) then Some st' else split_loop mem fuel info j0 halfbuff (nxt d0 p') st'.
Proof.
  intros EC Hfirst Hnext I. pose proof Hnd as N. rewrite EC, <- app_assoc in N. cbn [app] in N.
  apply NoDup_app in N as (N1 & N2 & N3). apply NoDup_cons in N3 as [N3 N4].
  assert (Hp' : p' ∉ P ++ [n]) by set_solver.
  assert (HndP : NoDup (P ++ [n])) by (apply NoDup_app; split_and!; [done | set_solver | apply NoDup_singleton]).
  assert (HinP : forall i, i ∈ P ++ [n] -> inside d0 i) by (intros i Hi; apply Hin; rewrite EC; set_solver).
  assert (Hin' : inside d0 p') by (apply Hin; rewrite EC; set_solver).
  destruct (Hhash p') as (hr & Er & Hm & Hl); [rewrite EC; set_solver |].
  assert (Hst : exists st' lf' lu' hf' hu' dl' dh',
    (if low (dat d0 p') then low_step p' st else high_step p' st) = Some st' /\
    sinv (P ++ [p']) p' st' lf' lu' hf' hu' dl' dh').
  { destruct (low (dat d0 p')) eqn:Elow; [eapply low_step_inv | eapply high_step_inv]; done. }
  destruct Hst as (st' & lf' & lu' & hf' & hu' & dl' & dh' & Est & I'). cbv beta in Est, Er.
  exists st', lf', lu', hf', hu', dl', dh'. split; [done |]. destruct I, I'. cbn [split_loop].
  rewrite load_cell by (unfold inside; rewrite si_len0; done). cbn [mbind option_bind].
  rewrite si_rest0 by done. rewrite Er. cbn [mbind option_bind].
  rewrite Hm, (bool_decide_false (j0 <> j0)), andb_false_r by tauto. rewrite Hl. cbv beta. rewrite Est. cbn [mbind option_bind].
  rewrite load_cell by (unfold inside; rewrite si_len1; done). cbn [mbind option_bind].
  by rewrite si_p1 by by destruct P.
Qed.

Lemma split_loop_inv : forall Q P p p' st lf lu hf hu dl dh fuel,
  C = P ++ p' :: Q -> (P = [] -> p' = j0) -> (P <> [] -> nxt d0 p = p') ->
  sinv P p st lf lu hf hu dl dh -> (length Q < fuel)%nat ->
  exists st' pl lf' lu' hf' hu' dl' dh', split_loop mem fuel info j0 halfbuff p' st = Some st' /\
    sinv C pl st' lf' lu' hf' hu' dl' dh' /\ nxt d0 pl = NO_RECORD.
Proof.
  induction Q as [| p'' Q IH]; intros P p p' st lf lu hf hu dl dh fuel EC Hfirst Hnext I Hfuel;
    (destruct fuel as [| fuel]; [simpl in Hfuel; lia |]);
    destruct (split_pass P p p' _ st lf lu hf hu dl dh fuel EC Hfirst Hnext I)
      as (st' & lf' & lu' & hf' & hu' & dl' & dh' & I' & ->);
    pose proof Hlk as Hlk'; rewrite EC in Hlk'; apply linked_app in Hlk' as [_ [Hn _]]; cbn [hd] in Hn.
  - rewrite bool_decide_true by done. exists st', p', lf', lu', hf', hu', dl', dh'. by rewrite EC.
  - cbv beta in Hn. rewrite Hn.
    rewrite bool_decide_false by (eapply inside_no; [apply Hin; rewrite EC; set_solver | done]).
    apply (IH (P ++ [p']) p' p'' st' lf' lu' hf' hu' dl' dh'); try done.
    + rewrite EC. by rewrite <- app_assoc.
    + by destruct P.
    + simpl in Hfuel. lia.
Qed.
End Run.
End Loop.

(** ** The whole split *)

(** The last write for one chain; [bit] tells whether it is needed. *)
Lemma finish_chain d0 d found used src dst g rec p (bit : bool) :
  half d0 d found used src dst g rec p -> bit = found && negb used -> NoDup dst -> (forall i, i ∈ dst -> inside d i) ->
  (used = true -> cell d p = cell d0 p /\ nxt d0 p = NO_RECORD) ->
  exists d', (if bit then store d g (mk_link NO_RECORD rec) else Some d) = Some d' /\ length d' = length d /\
    (forall i, i ∉ dst -> cell d' i = cell d i) /\
    linked (nxt d') dst NO_RECORD /\ Forall2 (fun s c => dat d' c = dat d0 s) src dst.
Proof.
  intros H -> Hnd Hin Hp. destruct found.
  - destruct (half_nonempty d0 _ _ _ _ _ _ _ H) as [_ Hg].
    destruct (half_finish d0 d used src dst g rec p H Hnd) as (d' & E & Hd & Hl & Hf); [by apply Hin | done |].
    exists d'. split_and!; [by destruct used | | | done | done].
    + destruct Hd as [-> | [Hd _]]; done.
    + intros i Hi. destruct Hd as [-> | [_ C]]; [done |]. rewrite C, upd_ne by congruence. done.
  - destruct H as (-> & -> & ->). by exists d.
Qed.

(** Both last writes. *)
Lemma finish_split d0 n j0 low C pl st lf lu hf hu dl dh :
  sinv d0 n j0 low C pl st lf lu hf hu dl dh -> nxt d0 pl = NO_RECORD -> C <> [] -> NoDup (C ++ [n]) ->
  (forall i, i ∈ C ++ [n] -> inside d0 i) ->
  exists d1 d, (if bool_decide (sp_flag st &&& (LOWFIND ||| LOWUSED) = LOWFIND)
      then store (sp_data st) (sp_gpos st) (mk_link NO_RECORD (sp_rec st)) else Some (sp_data st)) = Some d1 /\
    (if bool_decide (sp_flag st &&& (HIGHFIND ||| HIGHUSED) = HIGHFIND)
     then store d1 (sp_gpos2 st) (mk_link NO_RECORD (sp_rec2 st)) else Some d1) = Some d /\
    length d = length d0 /\ linked (nxt d) dl NO_RECORD /\ linked (nxt d) dh NO_RECORD /\
    Forall2 (fun s c => dat d c = dat d0 s) (base.filter (fun i => low (dat d0 i) = true) C) dl /\
    Forall2 (fun s c => dat d c = dat d0 s) (base.filter (fun i => low (dat d0 i) = false) C) dh /\
    (forall i, i ∉ C ++ [n] -> cell d i = cell d0 i).
Proof.
  intros [I1 I2 I3 I4 I5 I6 I7 I8 I9 I10 I11 I12] Hpl HC Hnd Hin.
  assert (N : NoDup (dl ++ dh ++ [sp_empty st])) by by rewrite I5.
  apply NoDup_app in N as (N1 & N2 & N3). apply NoDup_app in N3 as (N3 & _ & _).
  assert (Hcells : forall i, i ∈ dl \/ i ∈ dh -> i ∈ C ++ [n]) by (intros i Hi; rewrite <- I5; set_solver).
  assert (Hind : forall i, i ∈ dl \/ i ∈ dh -> inside (sp_data st) i).
  { intros i Hi%Hcells. unfold inside. rewrite I10. by apply Hin. }
  rewrite I1. assert (Hcp : cell (sp_data st) pl = cell d0 pl) by by apply I11.
  destruct (finish_chain d0 _ lf lu _ dl (sp_gpos st) (sp_rec st) pl
    (bool_decide (code lf lu hf hu &&& (LOWFIND ||| LOWUSED) = LOWFIND)) I3) as (d1 & E1 & Hl1 & Hx1 & Lk1 & F1).
  { destruct lf; [by destruct lu, hf, hu |]. destruct I3 as (_ & _ & ->). by destruct hf, hu. }
  { done. }
  { intros i Hi. apply Hind. by left. }
  { done. }
  assert (Hdis : forall i, i ∈ dh -> cell d1 i = cell (sp_data st) i).
  { intros i Hi. apply Hx1. intros Hi'. apply (N2 i Hi'). set_solver. }
  destruct (finish_chain d0 d1 hf hu _ dh (sp_gpos2 st) (sp_rec2 st) pl
    (bool_decide (code lf lu hf hu &&& (HIGHFIND ||| HIGHUSED) = HIGHFIND))
    (half_ext d0 _ d1 _ _ _ _ _ _ _ I4 Hdis)) as (d & E2 & Hl2 & Hx2 & Lk2 & F2).
  { destruct hf; [by destruct lf, lu, hu |]. destruct I4 as (_ & _ & ->). by destruct lf, lu. }
  { done. }
  { intros i Hi. unfold inside. rewrite Hl1. apply Hind. by right. }
  { intros ->. destruct hf; [| by destruct I4 as (_ & _ & ?)].
    destruct (half_nonempty d0 _ _ _ _ _ _ _ I4) as [_ Hg]. destruct I4 as (? & ? & ? & _ & _ & _ & _ & _ & Hu).
    destruct Hu as [Hgp _]; [done |]. rewrite Hgp in Hg. by rewrite Hdis. }
  exists d1, d. split_and!; try done; [congruence | | |].
  - eapply linked_ext; [| exact Lk1]. intros i Hi. rewrite Hx2; [done |]. intros Hi'. apply (N2 i Hi). set_solver.
  - apply (moved_ext d0 d1); [done |]. intros i Hi. rewrite Hx2; [done |]. intros Hi'. apply (N2 i Hi). set_solver.
  - intros i Hi. rewrite Hx2, Hx1; [by apply I12 | |]; intros Hi'; apply Hi, Hcells; tauto.
Qed.

Lemma moved_dat (d0 d : list HASH_LINK) src dst :
  Forall2 (fun s c => dat d c = dat d0 s) src dst -> dat d <$> dst = dat d0 <$> src.
Proof. induction 1 as [| s c src dst Hc _ IH]; [done |]. cbn [fmap list_fmap]. cbv beta in Hc. by rewrite Hc, IH. Qed.

Lemma moved_mem (d0 d : list HASH_LINK) src dst c :
  Forall2 (fun s c => dat d c = dat d0 s) src dst -> c ∈ dst -> exists s, s ∈ src /\ dat d c = dat d0 s.
Proof.
  induction 1 as [| s c' src dst Hc _ IH]; [by intros ?%elem_of_nil |]. intros [-> | Hi]%elem_of_cons.
  - exists s. split; [set_solver | done].
  - destruct (IH Hi) as (s' & Hs' & E). exists s'. split; [set_solver | done].
Qed.

Lemma filter_split_perm (f : Z -> bool) l :
  base.filter (fun i => f i = true) l ++ base.filter (fun i => f i = false) l ≡ₚ l.
Proof.
  induction l as [| x l IH]; [done |]. rewrite !filter_cons. destruct (f x) eqn:E.
  - rewrite decide_True, decide_False by congruence. cbn [app]. by rewrite IH.
  - rewrite decide_False, decide_True by congruence. by rewrite <- Permutation_middle, IH.
Qed.

Section Result.
Context (hm hm1 : Z -> Z) (d0 : list HASH_LINK) (occ rs : list Z) (n j0 : Z) (low : Z -> bool) (ch : Z -> list Z).
Context (Hs : hashed hm d0 occ rs) (T : tbl (nxt d0) (fun i => hm (dat d0 i)) occ ch).
Context (Hocc : forall i, i ∈ occ <-> 0 <= i < n) (Hlen : Z.of_nat (length d0) = n + 1) (Hj0 : 0 <= j0 < n).
Context (Hgrow : forall r, r ∈ rs -> hm1 r = if decide (hm r = j0 /\ low r = false) then n else hm r).

(** The chain of [j0] in the cells [dl] and [dh]. *)
Lemma split_result d e dl dh :
  dl ++ dh ++ [e] ≡ₚ ch j0 ++ [n] -> headed j0 dl -> headed n dh -> length d = length d0 ->
  linked (nxt d) dl NO_RECORD -> linked (nxt d) dh NO_RECORD ->
  Forall2 (fun s c => dat d c = dat d0 s) (base.filter (fun i => low (dat d0 i) = true) (ch j0)) dl ->
  Forall2 (fun s c => dat d c = dat d0 s) (base.filter (fun i => low (dat d0 i) = false) (ch j0)) dh ->
  (forall i, i ∉ ch j0 ++ [n] -> cell d i = cell d0 i) ->
  exists occ', hashed hm1 d occ' rs /\ inside d e /\ e ∉ occ' /\ (forall i, inside d i -> i = e \/ i ∈ occ').
Proof.
  intros Hc Hdl Hdh Hld Ll Lh Fl Fh Hrest. pose proof Hs as [_ Hn Hin Hrs Hsm].
  set (R := base.filter (fun i => i ∉ ch j0) occ).
  assert (HR : occ ≡ₚ ch j0 ++ R).
  { apply NoDup_Permutation; [done | | intros i; unfold R; rewrite elem_of_app, list_elem_of_filter].
    - apply NoDup_app. split_and!; [apply (t_nodup _ _ _ _ T) | | by apply NoDup_filter].
      intros i Hi. unfold R. rewrite list_elem_of_filter. tauto.
    - split; [intros Hi; destruct (decide (i ∈ ch j0)); tauto |]. intros [Hi | Hi]; [by apply (chain_occ _ _ _ _ T i j0) | tauto]. }
  assert (HRr : forall i, i ∈ R -> i ∈ occ /\ i ∉ ch j0 /\ cell d i = cell d0 i /\ hm1 (dat d0 i) = hm (dat d0 i) /\ hm (dat d0 i) <> j0 /\ hm (dat d0 i) <> n).
  { intros i Hi. unfold R in Hi. apply list_elem_of_filter in Hi as [H1 H2]. split_and!; try done.
    - apply Hrest. apply Hocc in H2. rewrite not_elem_of_app, list_elem_of_singleton. split; [done | lia].
    - rewrite Hgrow; [| rewrite <- Hrs; apply list_elem_of_fmap; eauto]. rewrite decide_False; [done |].
      intros [H3 _]. apply H1, (t_mem _ _ _ _ T). done.
    - intros H3. apply H1, (t_mem _ _ _ _ T). done.
    - destruct (home_occ _ _ _ _ T i H2) as [H3 _]. apply Hocc in H3. lia. }
  assert (HC : forall i, i ∈ ch j0 -> i ∈ occ /\ hm (dat d0 i) = j0 /\ hm1 (dat d0 i) = if low (dat d0 i) then j0 else n).
  { intros i Hi. apply (t_mem _ _ _ _ T) in Hi as [H1 H2]. split_and!; try done.
    rewrite Hgrow by (rewrite <- Hrs; apply list_elem_of_fmap; eauto).
    destruct (low _) eqn:El; [by rewrite decide_False by naive_solver | by rewrite decide_True]. }
  assert (Hml : forall i, i ∈ dl -> hm1 (dat d i) = j0).
  { intros i Hi. destruct (moved_mem _ _ _ _ _ Fl Hi) as (s & H1 & H2). cbv beta in H2 |- *. rewrite H2.
    apply list_elem_of_filter in H1 as [H1 H3]. destruct (HC s H3) as (_ & _ & ->). by rewrite H1. }
  assert (Hmh : forall i, i ∈ dh -> hm1 (dat d i) = n).
  { intros i Hi. destruct (moved_mem _ _ _ _ _ Fh Hi) as (s & H1 & H2). cbv beta in H2 |- *. rewrite H2.
    apply list_elem_of_filter in H1 as [H1 H3]. destruct (HC s H3) as (_ & _ & ->). by rewrite H1. }
  assert (HmR : forall i, i ∈ R -> hm1 (dat d i) = hm (dat d0 i) /\ hm (dat d0 i) <> j0 /\ hm (dat d0 i) <> n).
  { intros i Hi. destruct (HRr i Hi) as (_ & _ & E & H1 & H2). cbv beta. rewrite E. done. }
  assert (Hall : (dl ++ dh ++ [e]) ++ R ≡ₚ seqZ 0 (n + 1)).
  { rewrite Hc. rewrite <- app_assoc, (Permutation_app_comm [n]), app_assoc, <- HR.
    apply NoDup_Permutation; [| apply NoDup_seqZ |].
    - apply NoDup_app. split_and!; [done | | apply NoDup_singleton]. intros i Hi%Hocc. rewrite list_elem_of_singleton. lia.
    - intros i. rewrite elem_of_app, list_elem_of_singleton, Hocc, elem_of_seqZ. lia. }
  assert (Hnd : NoDup ((dl ++ dh ++ [e]) ++ R)) by (rewrite Hall; apply NoDup_seqZ).
  exists (dl ++ dh ++ R).
  assert (Hperm : e :: dl ++ dh ++ R ≡ₚ seqZ 0 (n + 1)).
  { rewrite <- Hall. rewrite <- !app_assoc. cbn [app]. by rewrite !Permutation_middle. }
  assert (Hins : forall i, inside d i <-> 0 <= i < n + 1) by (intros i; unfold inside; rewrite Hld; lia).
  assert (Hnde : NoDup (e :: dl ++ dh ++ R)) by (rewrite Hperm; apply NoDup_seqZ). apply NoDup_cons in Hnde as [He Hnde].
  split_and!; [| | done |].
  - split; [eexists | done | | | rewrite Hld; done].
    + apply (tbl_set2 _ _ _ _ T _ _ _ j0 n dl dh); try done; [lia | | | | | |].
      * apply NoDup_app in Hnde as [Hx _]. done.
      * intros i. split; [intros Hi; split; [set_solver | by apply Hml] |]. intros [Hi He']. cbv beta in *.
        rewrite !elem_of_app in Hi. destruct Hi as [Hi | [Hi | Hi]]; [done | rewrite (Hmh i Hi) in He'; lia |].
        destruct (HmR i Hi) as (H1 & H2 & _). congruence.
      * apply NoDup_app in Hnde as (_ & _ & Hx). by apply NoDup_app in Hx as [Hx _].
      * intros i. split; [intros Hi; split; [set_solver | by apply Hmh] |]. intros [Hi He']. cbv beta in *.
        rewrite !elem_of_app in Hi. destruct Hi as [Hi | [Hi | Hi]]; [rewrite (Hml i Hi) in He'; lia | done |].
        destruct (HmR i Hi) as (H1 & _ & H2). congruence.
      * intros i k Hk1 Hk2. cbv beta. rewrite HR, !elem_of_app. split.
        -- intros [[Hi | [Hi | Hi]] He']; [by rewrite (Hml i Hi) in He' | by rewrite (Hmh i Hi) in He' |].
           destruct (HmR i Hi) as (H1 & _). split; [tauto | congruence].
        -- intros [[Hi | Hi] He']; [destruct (HC i Hi) as (_ & H1 & _); congruence |].
           destruct (HmR i Hi) as (H1 & _). split; [tauto | congruence].
      * intros i Hi H1 _. rewrite HR in Hi. apply elem_of_app in Hi as [Hi | Hi]; [destruct (HC i Hi) as (_ & H2 & _); done |].
        destruct (HRr i Hi) as (_ & _ & -> & _). done.
    + intros i Hi. apply Hins. assert (Hi' : i ∈ e :: dl ++ dh ++ R) by set_solver. rewrite Hperm in Hi'.
      apply elem_of_seqZ in Hi'. lia.
    + rewrite !fmap_app, (moved_dat _ _ _ _ Fl), (moved_dat _ _ _ _ Fh).
      rewrite (dat_ext d0 d R) by (intros i Hi; destruct (HRr i Hi) as (_ & _ & -> & _); done).
      rewrite <- Hrs, HR, !fmap_app, app_assoc. apply Permutation_app_tail. rewrite <- fmap_app. apply fmap_Permutation.
      apply (filter_split_perm (fun i => low (dat d0 i))).
  - apply Hins. assert (Hi' : e ∈ e :: dl ++ dh ++ R) by set_solver. rewrite Hperm in Hi'. apply elem_of_seqZ in Hi'. lia.
  - intros i Hi. apply Hins in Hi. assert (Hi' : i ∈ e :: dl ++ dh ++ R) by (rewrite Hperm; apply elem_of_seqZ; lia). set_solver.
Qed.

Context {A : Type} {L : LinkArray A} (mem : Z -> list Z) (info : HASH A).
Context (Hn : records info = n) (Hfi : u32 (n - (blength info ≫ 1)) = j0).
Context (Hhash : forall r, r ∈ rs -> exists hr, rec_hashnr mem info r = Some hr /\
  my_hash_mask hr (blength info) (records info) = hm r /\ bool_decide (hr &&& (blength info ≫ 1) = 0) = low r).

Lemma split_chain_some :
  exists d e occ', split_chain mem info d0 n = Some (d, e) /\ length d = length d0 /\
    hashed hm1 d occ' rs /\ inside d e /\ e ∉ occ' /\ (forall i, inside d i -> i = e \/ i ∈ occ').
Proof.
  pose proof Hs as [_ Hnd Hin Hrs Hsm]. unfold split_chain. rewrite Hn, Hfi.
  rewrite bool_decide_true by lia. assert (Hjo : j0 ∈ occ) by by apply Hocc.
  assert (Hh : forall i, i ∈ occ -> exists hr, rec_hashnr mem info (dat d0 i) = Some hr /\
    my_hash_mask hr (blength info) (records info) = hm (dat d0 i) /\
    bool_decide (hr &&& (blength info ≫ 1) = 0) = low (dat d0 i)).
  { intros i Hi. apply Hhash. rewrite <- Hrs. apply list_elem_of_fmap. eauto. }
  destruct (decide (hm (dat d0 j0) = j0)) as [Hown | Hown]; cbv beta in Hown.
  - destruct (chain_start _ _ _ _ T j0 Hjo) as [t Et]. cbv beta in Et. rewrite Hown in Et.
    assert (Hndc : NoDup (ch j0 ++ [n])).
    { apply NoDup_app. split_and!; [apply (t_nodup _ _ _ _ T) | | apply NoDup_singleton].
      intros i Hi%(chain_occ _ _ _ _ T)%Hocc. rewrite list_elem_of_singleton. lia. }
    assert (Hinc : forall i, i ∈ ch j0 ++ [n] -> inside d0 i).
    { intros i Hi. unfold inside. apply elem_of_app in Hi as [Hi | Hi].
      - apply (chain_occ _ _ _ _ T), Hocc in Hi. lia.
      - apply list_elem_of_singleton in Hi. lia. }
    destruct (split_loop_inv d0 n j0 low Hsm mem info (blength info ≫ 1) (ch j0) (t_linked _ _ _ _ T j0) Hndc Hinc)
      with (Q := t) (P := @nil Z) (p := 0) (p' := j0) (st := mk_split d0 0 n 0 0 0 0)
           (lf := false) (lu := false) (hf := false) (hu := false) (dl := @nil Z) (dh := @nil Z) (fuel := S (length d0))
      as (st & pl & lf & lu & hf & hu & dl & dh & -> & I & Hpl); try done.
    { intros i Hi. pose proof Hi as Hi'. apply (t_mem _ _ _ _ T) in Hi' as [Hio Hih]. destruct (Hh i Hio) as (hr & H1 & H2 & H3).
      exists hr. cbv beta in *. split_and!; [done | congruence | done]. }
    { split; cbn; try done; by left. }
    { assert (length (ch j0) <= length d0)%nat; [| rewrite Et in *; simpl in *; lia].
      apply cells_bound; [apply (t_nodup _ _ _ _ T) |]. intros i Hi. apply Hinc. set_solver. }
    cbn [mbind option_bind].
    destruct (finish_split _ _ _ _ _ _ _ _ _ _ _ _ _ I Hpl) as (d1 & d & E1 & E2 & Hl & L1 & L2 & F1 & F2 & Hx);
      [by rewrite Et | done | done |].
    destruct I. destruct st as [d2 flag empty gpos rec gpos2 rec2].
    cbn [sp_data sp_flag sp_empty sp_gpos sp_rec sp_gpos2 sp_rec2] in *. rewrite E1. cbn [mbind option_bind].
    rewrite E2. cbn [mbind option_bind].
    destruct (split_result d empty dl dh) as (occ' & H); try done. by exists d, empty, occ'.
  - exists d0, n, occ. cbn [split_loop sp_data sp_flag]. rewrite load_cell by by apply Hin. cbn [mbind option_bind].
    destruct (Hh j0 Hjo) as (hr & H1 & H2 & _). cbv beta in H1, H2. rewrite H1. cbn [mbind option_bind]. rewrite H2.
    rewrite (bool_decide_true (0 = 0)), bool_decide_true by done. cbn [andb]. cbn [mbind option_bind].
    split_and!; try done.
    + apply (hashed_ext hm); [done |]. intros r Hr. rewrite Hgrow by done. rewrite decide_False; [done |].
      intros [Hr0 _]. rewrite <- Hrs in Hr. apply list_elem_of_fmap in Hr as (i & -> & Hi). apply Hown.
      destruct (home_occ _ _ _ _ T i Hi) as [_ H3]. cbv beta in H3, Hr0. by rewrite Hr0 in H3.
    + unfold inside. lia.
    + rewrite Hocc. lia.
    + intros i Hi. rewrite Hocc. unfold inside in Hi. lia.
Qed.
End Result.
End HashSplit.
