(* ===== verification/HashTable.v ===== *)
(** * HashTable: the operations of a hash table on a multiset of records

    The properties of [mysys/hash.c].  [table key h rs] relates a table to the
    multiset [rs] of its records: insertion adds a record, deletion removes it,
    update moves it, and a search visits exactly the records with the key. *)
From stdpp Require Import base tactics option list numbers sets.
From Stdlib Require Import ZArith Lia.
From S2P Require Import Prelude.
From S2P Require Import Hash.
From S2P Require Import HashChain.
From S2P Require Import HashProps.
From S2P Require Import HashSplit.

Module HashTable.
Import Hash HashChain HashProps HashSplit.

(** ** The cell of a hash number *)

(** [b] is the power of two above the number of records. *)
Definition sized (b n : Z) : Prop := exists k, 0 <= k <= 29 /\ b = 2 ^ k /\ b / 2 <= n < b.

Lemma mask_low h k m :
  0 <= h -> 0 <= k <= 30 -> h mod 2 ^ k < m -> my_hash_mask h (2 ^ k) m = h mod 2 ^ k.
Proof.
  intros Hh Hk Hm. assert (0 < 2 ^ k <= 2 ^ 30) by (split; [lia | apply Z.pow_le_mono_r; lia]).
  unfold my_hash_mask. rewrite uwrap_small by lia.
  assert (E : h &&& (2 ^ k - 1) = h mod 2 ^ k) by (rewrite <- Z.land_ones by lia; f_equal; rewrite Z.ones_equiv; lia).
  rewrite E. by rewrite bool_decide_true.
Qed.

Lemma mask_high h k m :
  0 <= h -> 1 <= k <= 30 -> m <= h mod 2 ^ k -> my_hash_mask h (2 ^ k) m = h mod 2 ^ (k - 1).
Proof.
  intros Hh Hk Hm. assert (0 < 2 ^ k <= 2 ^ 30) by (split; [lia | apply Z.pow_le_mono_r; lia]).
  unfold my_hash_mask. rewrite uwrap_small by lia.
  assert (E : forall j, 0 <= j -> h &&& (2 ^ j - 1) = h mod 2 ^ j).
  { intros j Hj. rewrite <- Z.land_ones by lia. f_equal. rewrite Z.ones_equiv. lia. }
  rewrite E by lia. rewrite bool_decide_false by lia.
  rewrite Z.shiftr_div_pow2 by lia. change (2 ^ 1) with 2.
  assert (Ek : 2 ^ k = 2 * 2 ^ (k - 1)) by (rewrite <- Z.pow_succ_r by lia; f_equal; lia).
  assert (0 < 2 ^ (k - 1)) by lia.
  replace (2 ^ k / 2) with (2 ^ (k - 1)) by (rewrite Ek, Z.mul_comm, Z.div_mul by lia; done).
  rewrite uwrap_small by lia. apply E. lia.
Qed.

Lemma half_pow k : 1 <= k -> 2 ^ k / 2 = 2 ^ (k - 1) /\ 2 ^ k = 2 * 2 ^ (k - 1) /\ 0 < 2 ^ (k - 1).
Proof.
  intros Hk. assert (Ek : 2 ^ k = 2 * 2 ^ (k - 1)) by (rewrite <- Z.pow_succ_r by lia; f_equal; lia).
  split_and!; [rewrite Ek, Z.mul_comm, Z.div_mul by lia; done | done | lia].
Qed.

Lemma sized_pow b n : sized b n -> 1 <= n -> exists k, 1 <= k <= 29 /\ b = 2 ^ k /\ 2 ^ (k - 1) <= n < 2 ^ k.
Proof.
  intros (k & Hk & -> & Hn) H1. destruct (decide (k = 0)) as [-> | Hk0]; [simpl in Hn; lia |].
  exists k. destruct (half_pow k) as (E & _); [lia |]. rewrite E in Hn. split_and!; lia.
Qed.

Lemma mod_half h k : 0 <= h -> 1 <= k ->
  h mod 2 ^ (k - 1) = if decide (h mod 2 ^ k < 2 ^ (k - 1)) then h mod 2 ^ k else h mod 2 ^ k - 2 ^ (k - 1).
Proof.
  intros Hh Hk. destruct (half_pow k Hk) as (_ & E & Hp). set (p := 2 ^ (k - 1)) in *. rewrite E.
  pose proof (Z.mod_pos_bound h (2 * p) ltac:(lia)) as Hb.
  assert (Hq : h = (2 * p) * (h / (2 * p)) + h mod (2 * p)) by (apply Z.div_mod; lia).
  set (q := h / (2 * p)) in *. set (x := h mod (2 * p)) in *. case_decide.
  - symmetry. apply (Z.mod_unique_pos _ _ (2 * q)); lia.
  - symmetry. apply (Z.mod_unique_pos _ _ (2 * q + 1)); lia.
Qed.

(** A cell of the table. *)
Lemma mask_range h b n : 0 <= h -> sized b n -> 1 <= n -> 0 <= my_hash_mask h b n < n.
Proof.
  intros Hh Hs Hn. destruct (sized_pow b n Hs Hn) as (k & Hk & -> & Hb).
  pose proof (Z.mod_pos_bound h (2 ^ k) ltac:(lia)). destruct (decide (h mod 2 ^ k < n)).
  - rewrite mask_low by lia. lia.
  - rewrite mask_high by lia. pose proof (Z.mod_pos_bound h (2 ^ (k - 1)) ltac:(lia)). lia.
Qed.

(** One more cell moves the records with the bit [halfbuff] from one cell to it. *)
Lemma mask_grow h b n :
  0 <= h -> sized b n -> 1 <= n ->
  my_hash_mask h b (n + 1) =
    if decide (my_hash_mask h b n = n - b / 2 /\ bool_decide (h &&& (b ≫ 1) = 0) = false) then n
    else my_hash_mask h b n.
Proof.
  intros Hh Hs Hn. destruct (sized_pow b n Hs Hn) as (k & Hk & -> & Hb).
  destruct (half_pow k) as (E & E2 & Hp); [lia |]. rewrite E.
  assert (Hbit : bool_decide (h &&& (2 ^ k ≫ 1) = 0) = bool_decide (h mod 2 ^ k < 2 ^ (k - 1))).
  { rewrite Z.shiftr_div_pow2 by lia. change (2 ^ 1) with 2. rewrite E. rewrite land_pow2 by lia.
    assert (Ht : Z.testbit h (k - 1) = negb (bool_decide (h mod 2 ^ k < 2 ^ (k - 1)))).
    { rewrite Z.testbit_odd, Z.shiftr_div_pow2 by lia.
      assert (Hq : h = 2 ^ k * (h / 2 ^ k) + h mod 2 ^ k) by (apply Z.div_mod; lia).
      pose proof (Z.mod_pos_bound h (2 ^ k) ltac:(lia)) as Hx. set (q := h / 2 ^ k) in *. set (x := h mod 2 ^ k) in *.
      set (p := 2 ^ (k - 1)) in *. rewrite Hq. case_bool_decide.
      - replace ((2 ^ k * q + x) / p) with (2 * q) by (apply (Z.div_unique_pos _ _ _ x); nia).
        by rewrite Z.odd_mul.
      - replace ((2 ^ k * q + x) / p) with (2 * q + 1) by (apply (Z.div_unique_pos _ _ _ (x - p)); nia).
        by rewrite Z.odd_add, Z.odd_mul. }
    rewrite Ht. destruct (bool_decide (h mod _ < _)); cbn [negb]; [done | apply bool_decide_eq_false; lia]. }
  rewrite Hbit. pose proof (mod_half h k Hh ltac:(lia)) as Hm. pose proof (Z.mod_pos_bound h (2 ^ k) ltac:(lia)).
  destruct (decide (h mod 2 ^ k < n)).
  - rewrite !mask_low by lia. rewrite decide_False; [done |]. intros [H1 H2%bool_decide_eq_false]. lia.
  - rewrite decide_False in Hm by lia. rewrite (mask_high h k n) by lia. rewrite Hm.
    destruct (decide (h mod 2 ^ k = n)) as [Hx | Hx].
    + rewrite mask_low by lia. rewrite decide_True; [done |]. split; [lia |]. apply bool_decide_eq_false. lia.
    + rewrite mask_high by lia. rewrite Hm. rewrite decide_False; [done |]. lia.
Qed.

(** The number of buckets of the next size. *)
Definition grown (b n : Z) : Z := if bool_decide (n + 1 = b) then 2 * b else b.

Lemma mask_grown h b n : 0 <= h -> sized b n -> my_hash_mask h (grown b n) (n + 1) = my_hash_mask h b (n + 1).
Proof.
  intros Hh (k & Hk & -> & Hn). unfold grown. case_bool_decide as Hb; [| done]. rewrite Hb.
  replace (2 * 2 ^ k) with (2 ^ (k + 1)) by (rewrite Z.pow_add_r by lia; lia).
  pose proof (Z.mod_pos_bound h (2 ^ k) ltac:(lia)). rewrite (mask_low h k) by lia.
  pose proof (mod_half h (k + 1) Hh ltac:(lia)) as Hm. replace (k + 1 - 1) with k in Hm by lia.
  destruct (decide (h mod 2 ^ (k + 1) < 2 ^ k)).
  - rewrite mask_low by lia. lia.
  - rewrite mask_high by lia. by replace (k + 1 - 1) with k by lia.
Qed.

Lemma sized_grown b n : sized b n -> n + 1 < 2 ^ 29 -> sized (grown b n) (n + 1).
Proof.
  intros (k & Hk & -> & Hn) Hb. unfold grown. case_bool_decide as E.
  - assert (k < 29). { destruct (decide (k < 29)); [done |]. replace k with 29 in * by lia. lia. }
    assert (Ed : 2 * 2 ^ k / 2 = 2 ^ k) by (rewrite Z.mul_comm, Z.div_mul by lia; done).
    exists (k + 1). rewrite Ed, Z.pow_add_r by lia. lia.
  - exists k. split_and!; lia.
Qed.

Lemma sized_shrunk b n :
  sized b (n + 1) -> 0 <= n ->
  let b' := if bool_decide (n < b / 2) then b / 2 else b in sized b' n /\ grown b' n = b.
Proof.
  intros (k & Hk & -> & Hn) H0. cbv zeta. case_bool_decide as Hh.
  - assert (Hk1 : 1 <= k). { destruct (decide (k = 0)) as [-> |]; [simpl in Hh; lia | lia]. }
    destruct (half_pow k Hk1) as (E & E2 & Hp). rewrite E in *. assert (n + 1 = 2 ^ (k - 1)) by lia.
    split.
    + exists (k - 1). assert (2 ^ (k - 1) / 2 <= n) by Zlia. lia.
    + unfold grown. rewrite bool_decide_true by lia. lia.
  - split; [exists k; split_and!; lia |]. unfold grown. by rewrite bool_decide_false by lia.
Qed.

(** ** Tables *)

(** What the table relies on of a character set: equal keys have the same hash number. *)
Record good_charset (cs : CHARSET_INFO) : Prop := {
  hash_range k : 0 <= (hash_sort cs k 1 4).1 < 2 ^ 32;
  coll_refl k : strnncoll cs k k = 0;
  coll_hash a b : length a = length b -> strnncoll cs a b = 0 -> hash_sort cs a 1 4 = hash_sort cs b 1 4;
}.

Lemma hashed_dat hm d occ rs i : hashed hm d occ rs -> i ∈ occ -> dat d i ∈ rs.
Proof. intros [_ _ _ Hrs _] Hi. rewrite <- Hrs. apply list_elem_of_fmap. eauto. Qed.

(** The cells of a full table can be stored. *)
Lemma hashed_link_ok hm d occ rs :
  hashed hm d occ rs -> (forall i, inside d i -> i ∈ occ) -> (forall r, r ∈ rs -> 0 < r < 2 ^ 32) -> Forall link_ok d.
Proof.
  intros Hs Hall Haddr. apply Forall_of_load. intros i x Hx. apply load_bounds in Hx as Hi.
  rewrite load_cell in Hx by done. injection Hx as <-. pose proof (Hall i Hi) as Ho. split.
  - destruct Hs as [[ch T] _ Hin _ Hsm]. pose proof (chain_mem _ _ _ _ T i Ho) as Hc.
    apply list_elem_of_split in Hc as (l1 & l2 & E). pose proof (chain_next _ _ _ _ T _ _ _ _ E) as Hn. cbv beta in Hn.
    rewrite Hn. unfold NO_RECORD in *. destruct l2 as [| c l2]; [simpl; lia |]. cbn [hd].
    assert (Hc : c ∈ occ) by (eapply (chain_occ _ _ _ _ T); rewrite E; set_solver). apply Hin in Hc. unfold inside in Hc. lia.
  - assert (0 < dat d i < 2 ^ 32) by (apply Haddr; by eapply hashed_dat). cbv beta in *. lia.
Qed.

Lemma wrap_links l : Forall link_ok l -> wrap_link <$> l = l.
Proof.
  induction 1 as [| [nx dt] l [H1 H2] _ IH]; [done |]. cbn [fmap list_fmap]. f_equal; [| done].
  unfold wrap_link. cbn [next data] in *. by rewrite !uwrap_small by lia.
Qed.

Lemma count_records hm d n rs : hashed hm d (seqZ 0 n) rs -> Z.of_nat (length rs) = Z.max 0 n.
Proof. intros [_ _ _ Hrs _]. apply Permutation_length in Hrs. rewrite length_fmap, length_seqZ in Hrs. lia. Qed.

Section Table.
Context {A : Type} {L : LinkArray A} {W : LinkArrayLaws A} (mem : Z -> list Z).

(** The cell a record with the key [key r] belongs to. *)
Definition home (h : HASH A) (key : Z -> list Z) (r : Z) : Z :=
  my_hash_mask (calc_hash h (key r)) (blength h) (records h).

(** The keys of the records [rs] in memory. *)
Definition keyed (h : HASH A) (key : Z -> list Z) (rs : list Z) : Prop :=
  forall r first, r ∈ rs -> my_hash_key mem h r first = Some (key r).

Record table (key : Z -> list Z) (h : HASH A) (rs : list Z) : Prop := {
  tb_charset : good_charset (charset h);
  tb_addr : forall r, r ∈ rs -> 0 < r < 2 ^ 32;
  tb_size : sized (blength h) (records h);
  tb_cells : exists d, holds (array h) d /\ records h = Z.of_nat (length d) /\
    hashed (home h key) d (seqZ 0 (records h)) rs;
}.

Lemma calc_range (h : HASH A) k : good_charset (charset h) -> 0 <= calc_hash h k < 2 ^ 32.
Proof. intros H. apply (hash_range _ H). Qed.

Lemma keyed_hashnr h key rs r : keyed h key rs -> r ∈ rs -> rec_hashnr mem h r = Some (calc_hash h (key r)).
Proof. intros Hk Hr. unfold rec_hashnr. by rewrite (Hk r false Hr). Qed.

Lemma keyed_mask h key rs d i b n :
  keyed h key rs -> dat d i ∈ rs ->
  my_hash_rec_mask mem h (cell d i) b n = Some (my_hash_mask (calc_hash h (key (dat d i))) b n).
Proof. intros Hk Hr. unfold my_hash_rec_mask. by rewrite (Hk _ false Hr). Qed.

End Table.

(** ** Searching *)

Section Search.
Context {A : Type} {L : LinkArray A} (mem : Z -> list Z) (h : HASH A) (d : list HASH_LINK) (km : list Z) (len : Z).
(** Which cells have the key. *)
Context (m : Z -> bool).

(** The first of the cells [l] with the key, as the search functions return it. *)
Fixpoint pick (l : list Z) : Z * Z :=
  match l with
  | [] => (0, NO_RECORD)
  | c :: l => if m c then (dat d c, c) else pick l
  end.

Definition walkable (l : list Z) : Prop :=
  linked (nxt d) l NO_RECORD /\
  forall c, c ∈ l -> inside d c /\ c <> NO_RECORD /\ hashcmp mem h (cell d c) km len = Some (negb (m c)).

Lemma walkable_tail c l : walkable (c :: l) -> walkable l.
Proof. intros [[_ H1] H2]. split; [done |]. intros i Hi. apply H2. set_solver. Qed.

Lemma first_loop_pick c l fuel :
  walkable (c :: l) -> (length l < fuel)%nat -> first_loop mem fuel h d km len false c = Some (pick (c :: l)).
Proof.
  revert c l. induction fuel as [| fuel IH]; intros c l Hw Hf; [lia |]. cbn [first_loop pick].
  pose proof Hw as [[Hn _] Hc]. destruct (Hc c) as (Hi & Hno & He); [set_solver |].
  rewrite load_cell by done. cbn [mbind option_bind]. rewrite He. cbn [mbind option_bind]. rewrite negb_involutive.
  destruct (m c); [done |]. cbn [mbind option_bind]. cbv beta in Hn. rewrite Hn.
  destruct l as [| c2 l]; cbn [hd]; [by rewrite bool_decide_true |].
  rewrite bool_decide_false by (apply Hc; set_solver). apply IH; [by eapply walkable_tail | simpl in Hf; lia].
Qed.

(** The first cell is tested for belonging to the chain. *)
Lemma first_loop_start c l fuel wrong :
  walkable (c :: l) -> (length l < fuel)%nat ->
  my_hash_rec_mask mem h (cell d c) (blength h) (records h) = Some wrong ->
  first_loop mem fuel h d km len true c =
    Some (if m c then (dat d c, c) else if bool_decide (wrong <> c) then (0, NO_RECORD) else pick l).
Proof.
  intros Hw Hf Hr. destruct fuel as [| fuel]; [lia |]. cbn [first_loop].
  pose proof Hw as [[Hn _] Hc]. destruct (Hc c) as (Hi & Hno & He); [set_solver |].
  rewrite load_cell by done. cbn [mbind option_bind]. rewrite He. cbn [mbind option_bind]. rewrite negb_involutive.
  destruct (m c); [done |]. rewrite Hr. cbn [mbind option_bind]. case_bool_decide; [done |]. cbv beta in Hn. rewrite Hn.
  destruct l as [| c2 l]; cbn [hd]; [by rewrite bool_decide_true |].
  rewrite bool_decide_false by (apply Hc; set_solver).
  rewrite (first_loop_pick c2 l); [done | by eapply walkable_tail | simpl in Hf; lia].
Qed.

Lemma next_loop_pick l fuel :
  walkable l -> (length l <= fuel)%nat -> next_loop mem fuel h d km len (hd NO_RECORD l) = Some (pick l).
Proof.
  revert l. induction fuel as [| fuel IH]; intros [| c l] Hw Hf; cbn [next_loop hd]; try (by rewrite bool_decide_true).
  - simpl in Hf. lia.
  - pose proof Hw as [[Hn _] Hc]. destruct (Hc c) as (Hi & Hno & He); [set_solver |].
    rewrite bool_decide_false by done. rewrite load_cell by done. cbn [mbind option_bind pick]. rewrite He.
    cbn [mbind option_bind]. rewrite negb_involutive. destruct (m c); [done |]. cbv beta in Hn. rewrite Hn.
    apply IH; [by eapply walkable_tail | simpl in Hf; lia].
Qed.
End Search.

(** The loop [for (r = my_hash_first(..); r; r = my_hash_next(..))]: all records it visits. *)
Fixpoint search_rest {A} {L : LinkArray A} (mem : Z -> list Z) (fuel : nat) (h : HASH A) (key : list Z) (len found state : Z)
  : option (list Z) :=
  if bool_decide (found = 0) then Some []
  else
    match fuel with
    | O => None
    | S fuel =>
        '(r, state) ← my_hash_next mem h key len state;
        rest ← search_rest mem fuel h key len r state;
        Some (found :: rest)
    end.

Section Lookup.
Context {A : Type} {L : LinkArray A} {W : LinkArrayLaws A} (mem : Z -> list Z).
Context (key : Z -> list Z) (h : HASH A) (rs : list Z) (k km : list Z).
Context (Hk : k <> []) (Hkm : take (length k) km = k).
Let len := Z.of_nat (length k).

(** The records with the key [k]. *)
Definition matches (r : Z) : bool :=
  bool_decide (length (key r) = length k) && bool_decide (strnncoll (charset h) (key r) k = 0).

Lemma key_read : read km 0 len = Some k.
Proof.
  assert (Hl : (length k <= length km)%nat). { rewrite <- Hkm. rewrite length_take. lia. }
  unfold read. rewrite decide_True by lia. subst len. rewrite Nat2Z.id. cbn [Z.to_nat]. by rewrite drop_0, Hkm.
Qed.

Lemma hashcmp_matches d c :
  my_hash_key mem h (dat d c) true = Some (key (dat d c)) -> hashcmp mem h (cell d c) km len = Some (negb (matches (dat d c))).
Proof.
  intros Hr. unfold hashcmp, matches. cbv beta in *. rewrite Hr. cbn [mbind option_bind].
  assert (Hlen : len <> 0) by (subst len; destruct k; simpl; [done | lia]).
  rewrite (bool_decide_true (len <> 0)) by done. cbn [andb]. destruct (decide (length (key (data (cell d c))) = length k)) as [E | E].
  - rewrite (bool_decide_false (len <> _)) by (subst len; lia). rewrite (bool_decide_true (length _ = _)) by done.
    rewrite E. fold len. rewrite key_read. cbn [mbind option_bind andb]. f_equal. by rewrite bool_decide_not.
  - rewrite (bool_decide_true (len <> _)) by (subst len; lia). by rewrite (bool_decide_false (length _ = _)) by done.
Qed.

(** The chains are those of homes [hm], which may be those of other keys. *)
Context (Hcs : good_charset (charset h)) (Haddr : forall r, r ∈ rs -> 0 < r < 2 ^ 32).
Context (Hsz : sized (blength h) (records h)) (Hkeys : keyed mem h key rs) (Hrec : records h <> 0).
Context (d : list HASH_LINK) (Hd : holds (array h) d) (Hn : records h = Z.of_nat (length d)).
Context (hm : Z -> Z) (ch : Z -> list Z) (T : tbl (nxt d) (fun i => hm (dat d i)) (seqZ 0 (records h)) ch).
Context (Hs : hashed hm d (seqZ 0 (records h)) rs).
Let idx := my_hash_mask (calc_hash h k) (blength h) (records h).
Let m c := matches (dat d c).

Lemma all_cells i : inside d i <-> i ∈ seqZ 0 (records h).
Proof. rewrite elem_of_seqZ. unfold inside. lia. Qed.

Lemma idx_inside : inside d idx.
Proof.
  unfold inside. rewrite <- Hn. apply mask_range; [by apply calc_range | done | lia].
Qed.

Lemma matches_home r : matches r = true -> home h key r = idx.
Proof.
  unfold matches. intros [Hl%bool_decide_eq_true H%bool_decide_eq_true]%andb_true_iff.
  unfold home, idx, calc_hash. by rewrite (coll_hash _ Hcs _ _ Hl H).
Qed.

Lemma chain_walkable j l1 l2 : ch j = l1 ++ l2 -> walkable mem h d km len m l2.
Proof.
  intros E. split.
  - pose proof (t_linked _ _ _ _ T j) as Hl. rewrite E in Hl. by apply linked_app in Hl as [].
  - intros c Hc. assert (Hco : c ∈ seqZ 0 (records h)) by (apply (chain_occ _ _ _ _ T c j); rewrite E; set_solver).
    pose proof Hco as Hci. apply all_cells in Hci. split_and!; [done | eapply inside_no; [done | apply Hs] |].
    apply hashcmp_matches, Hkeys. by eapply hashed_dat.
Qed.

Lemma chain_length l1 l2 j : ch j = l1 ++ l2 -> (length l2 <= length d)%nat.
Proof.
  intros E. assert (Hc : (length (ch j) <= length d)%nat).
  { apply cells_bound; [apply (t_nodup _ _ _ _ T) |]. intros i Hi. apply all_cells. by apply (chain_occ _ _ _ _ T i j). }
  rewrite E, length_app in Hc. lia.
Qed.

Lemma first_is_pick :
  (forall r, r ∈ rs -> hm r = home h key r) -> my_hash_first mem h km len = Some (pick d m (ch idx)).
Proof.
  intros Hhm. unfold my_hash_first. rewrite bool_decide_true by done. rewrite (links_law _ _ Hd). cbn [mbind option_bind].
  assert (Hlen : len <> 0) by (subst len; destruct k; simpl; [done | lia]).
  rewrite (bool_decide_true (len <> 0)) by done. rewrite key_read. cbn [mbind option_bind]. fold idx.
  pose proof idx_inside as Hi. pose proof Hi as Ho. apply all_cells in Ho.
  pose proof (chain_mem _ _ _ _ T idx Ho) as Hc. apply list_elem_of_split in Hc as (l1 & l2 & E).
  rewrite (first_loop_start mem h d km len m idx l2 _ (home h key (dat d idx))).
  - assert (Hdi : dat d idx ∈ rs) by by eapply hashed_dat. cbv beta in Hdi. rewrite <- (Hhm _ Hdi).
    destruct (decide (hm (dat d idx) = idx)) as [Hh | Hh]; cbv beta in Hh, E.
    + rewrite Hh in E.
      rewrite (bool_decide_false (_ <> idx)) by tauto.
      assert (El : l1 = []) by by apply (chain_first _ _ _ _ T idx l1 l2).
      rewrite E, El. cbn [app pick]. done.
    + assert (Hm : m idx = false). { destruct (m idx) eqn:Em; [| done]. apply matches_home in Em. cbv beta in Em. by rewrite <- Hhm in Em. }
      rewrite Hm, bool_decide_true by done. rewrite (chain_empty _ _ _ _ T idx); [done |]. tauto.
  - by apply (chain_walkable (hm (dat d idx)) l1).
  - pose proof (chain_length l1 (idx :: l2) _ E). simpl in *. lia.
  - apply (keyed_mask mem h key rs d idx); [done | by eapply hashed_dat].
Qed.

Lemma next_is_pick j l1 c l2 : ch j = l1 ++ c :: l2 -> my_hash_next mem h km len c = Some (pick d m l2).
Proof.
  intros E. assert (Hc : inside d c). { apply all_cells, (chain_occ _ _ _ _ T c j). rewrite E. set_solver. }
  unfold my_hash_next. rewrite bool_decide_true by (eapply inside_no; [done | apply Hs]).
  rewrite (links_law _ _ Hd). cbn [mbind option_bind]. rewrite load_cell by done. cbn [mbind option_bind].
  pose proof (chain_next _ _ _ _ T _ _ _ _ E) as Hx. cbv beta in Hx. rewrite Hx.
  assert (E' : ch j = (l1 ++ [c]) ++ l2) by (rewrite <- app_assoc; done).
  apply next_loop_pick; [by eapply chain_walkable | by eapply chain_length].
Qed.

Lemma search_rest_chain j l1 l2 fuel :
  ch j = l1 ++ l2 -> (length l2 <= fuel)%nat ->
  search_rest mem fuel h km len (pick d m l2).1 (pick d m l2).2 = Some (dat d <$> base.filter (fun c => m c = true) l2).
Proof.
  revert l1 l2. induction fuel as [| fuel IH]; intros l1 l2 E Hf.
  - destruct l2; [done | simpl in Hf; lia].
  - revert l1 E Hf. induction l2 as [| c l2 IH2]; intros l1 E Hf; [done |]. cbn [pick]. rewrite filter_cons.
    assert (E' : ch j = (l1 ++ [c]) ++ l2) by (rewrite <- app_assoc; done). destruct (m c) eqn:Em.
    + rewrite decide_True by done. cbn [search_rest fst snd].
      assert (Hc : dat d c ∈ rs). { eapply hashed_dat; [exact Hs |]. apply (chain_occ _ _ _ _ T c j). rewrite E. set_solver. }
      apply Haddr in Hc. cbv beta in Hc. rewrite bool_decide_false by lia.
      rewrite (next_is_pick j l1 c l2 E). cbn [mbind option_bind]. specialize (IH (l1 ++ [c]) l2 E' ltac:(simpl in Hf; lia)).
      destruct (pick d m l2) as [r st]. cbn [fst snd] in IH. rewrite IH. done.
    + rewrite decide_False by congruence. apply (IH2 (l1 ++ [c]) E'). simpl in Hf. lia.
Qed.

Lemma filter_dat (l : list Z) :
  base.filter (fun r => matches r = true) (dat d <$> l) = dat d <$> base.filter (fun c => m c = true) l.
Proof.
  induction l as [| c l IH]; [done |]. cbn [fmap list_fmap]. rewrite !filter_cons. unfold m in *.
  case_decide; [cbn [fmap list_fmap]; by f_equal | done].
Qed.

(** The chain has all records with the key. *)
Lemma chain_matches :
  (forall r, r ∈ rs -> hm r = home h key r) ->
  (dat d <$> base.filter (fun c => m c = true) (ch idx)) ≡ₚ base.filter (fun r => matches r = true) rs.
Proof.
  intros Hhm. rewrite <- (hs_rs _ _ _ _ Hs). rewrite filter_dat. apply fmap_Permutation.
  apply NoDup_Permutation; [apply NoDup_filter, (t_nodup _ _ _ _ T) | apply NoDup_filter, (hs_nodup _ _ _ _ Hs) |].
  intros c. rewrite !list_elem_of_filter, (t_mem _ _ _ _ T). unfold m. split; [tauto |].
  intros [H1 H2]. split_and!; [done | done |]. rewrite Hhm by by eapply hashed_dat. by apply matches_home.
Qed.

(** The loop of [my_hash_update] that looks for another record with the key. *)
Lemma other_record_chain record j l1 l2 fuel :
  ch j = l1 ++ l2 -> (length l2 <= fuel)%nat ->
  other_record mem fuel h km len record (pick d m l2).1 (pick d m l2).2 =
  Some (existsb (fun c => m c && bool_decide (dat d c <> record)) l2).
Proof.
  revert l1 l2. induction fuel as [| fuel IH]; intros l1 l2 E Hf.
  - destruct l2; [done | simpl in Hf; lia].
  - revert l1 E Hf. induction l2 as [| c l2 IH2]; intros l1 E Hf; [done |]. cbn [pick existsb].
    assert (E' : ch j = (l1 ++ [c]) ++ l2) by (rewrite <- app_assoc; done). destruct (m c) eqn:Em.
    + cbn [other_record fst snd andb].
      assert (Hc : dat d c ∈ rs). { eapply hashed_dat; [exact Hs |]. apply (chain_occ _ _ _ _ T c j). rewrite E. set_solver. }
      apply Haddr in Hc. cbv beta in Hc. rewrite bool_decide_false by lia.
      case_bool_decide as Hr; [done |]. cbn [orb].
      rewrite (next_is_pick j l1 c l2 E). cbn [mbind option_bind]. specialize (IH (l1 ++ [c]) l2 E' ltac:(simpl in Hf; lia)).
      destruct (pick d m l2) as [r st]. cbn [fst snd] in IH. done.
    + cbn [andb orb]. apply (IH2 (l1 ++ [c]) E'). simpl in Hf. lia.
Qed.

(** It finds one exactly if there is one, although the table still has the record
    in the chain of its old key. *)
Lemma other_record_spec record :
  matches record = true ->
  (forall r, r ∈ rs -> r <> record -> hm r = home h key r) ->
  exists b, ('(found, state) ← my_hash_first mem h km len; d ← links (array h);
     other_record mem (S (length d)) h km len record found state) = Some b /\
    (b = true <-> exists r, r ∈ rs /\ r <> record /\ matches r = true).
Proof.
  intros Hrecm Hhm. unfold my_hash_first. rewrite bool_decide_true by done. rewrite (links_law _ _ Hd). cbn [mbind option_bind].
  assert (Hlen : len <> 0) by (subst len; destruct k; simpl; [done | lia]).
  rewrite (bool_decide_true (len <> 0)) by done. rewrite key_read. cbn [mbind option_bind]. fold idx.
  pose proof idx_inside as Hi. pose proof Hi as Ho. apply all_cells in Ho.
  pose proof (chain_mem _ _ _ _ T idx Ho) as Hc. apply list_elem_of_split in Hc as (l1 & l2 & E). cbv beta in E.
  assert (Hdi : dat d idx ∈ rs) by by eapply hashed_dat.
  assert (Hlen2 : (length (idx :: l2) <= length d)%nat) by by eapply chain_length.
  rewrite (first_loop_start mem h d km len m idx l2 _ (home h key (dat d idx)));
    [| by apply (chain_walkable (hm (dat d idx)) l1) | simpl in *; lia | by apply (keyed_mask mem h key rs d idx)].
  set (f c := m c && bool_decide (dat d c <> record)).
  assert (Hf : forall l j l1, ch j = l1 ++ l -> existsb f l = true -> exists r, r ∈ rs /\ r <> record /\ matches r = true).
  { intros l j l0 El (c & Hc & Hfc)%existsb_exists. unfold f in Hfc. apply andb_true_iff in Hfc as [H1 H2%bool_decide_eq_true].
    exists (dat d c). split_and!; [| done | done]. eapply hashed_dat; [exact Hs |]. apply (chain_occ _ _ _ _ T c j).
    rewrite El. apply elem_of_app. right. by apply list_elem_of_In. }
  assert (Hback : forall r, r ∈ rs -> r <> record -> matches r = true ->
    existsb f (idx :: l2) = true /\ (m idx = false -> home h key (dat d idx) = idx)).
  { intros r Hr Hne Hm. pose proof (matches_home r Hm) as Hh. rewrite <- Hhm in Hh by done.
    pose proof Hr as Hr2. rewrite <- (hs_rs _ _ _ _ Hs) in Hr2. apply list_elem_of_fmap in Hr2 as (c & -> & Hco). cbv beta in *.
    destruct (home_occ _ _ _ _ T c Hco) as [_ Hg]. cbv beta in Hg. rewrite Hh in Hg. rewrite Hg in E.
    assert (El : l1 = []) by by apply (chain_first _ _ _ _ T idx l1 l2).
    subst l1. split.
    - apply existsb_exists. exists c. split.
      + apply list_elem_of_In. change (c ∈ [] ++ idx :: l2). rewrite <- E. by apply (t_mem _ _ _ _ T).
      + unfold f, m. rewrite Hm. by rewrite bool_decide_true.
    - intros Hmi. rewrite <- Hhm; [done | done |]. intros Hx. unfold m in Hmi. cbv beta in Hmi. congruence. }
  destruct (m idx) eqn:Em.
  - (* found in the first cell *)
    assert (Epick : pick d m (idx :: l2) = (dat d idx, idx)) by (cbn [pick]; by rewrite Em).
    pose proof (other_record_chain record _ l1 (idx :: l2) (S (length d)) E ltac:(lia)) as Hoc. rewrite Epick in Hoc.
    cbn [fst snd] in Hoc. cbn [mbind option_bind]. exists (existsb f (idx :: l2)). split; [exact Hoc |]. split; [by eapply Hf |].
    intros (r & Hr & Hne & Hm). by apply (Hback r).
  - cbn [mbind option_bind]. case_bool_decide as Hw.
    + exists false. split; [done |]. split; [done |]. intros (r & Hr & Hne & Hm). destruct (Hback r Hr Hne Hm) as [_ Hx].
      by destruct (Hw (Hx eq_refl)).
    + assert (E' : ch (hm (dat d idx)) = (l1 ++ [idx]) ++ l2) by (rewrite <- app_assoc; done).
      pose proof (other_record_chain record _ _ l2 (S (length d)) E' ltac:(simpl in *; lia)) as Hoc.
      destruct (pick d m l2) as [fd stt]. cbn [fst snd] in Hoc. cbn [mbind option_bind]. exists (existsb f l2). split; [exact Hoc |].
      split; [by eapply Hf |]. intros (r & Hr & Hne & Hm). destruct (Hback r Hr Hne Hm) as [Hx _].
      cbn [existsb] in Hx. unfold f at 1 in Hx. by rewrite Em in Hx.
Qed.
End Lookup.

Section Main.
Context {A : Type} {L : LinkArray A} {W : LinkArrayLaws A} (mem : Z -> list Z).

Lemma search_spec key (h : HASH A) rs k km :
  table key h rs -> keyed mem h key rs -> k <> [] -> take (length k) km = k ->
  exists r st l, my_hash_first mem h km (Z.of_nat (length k)) = Some (r, st) /\
    search_rest mem (length rs) h km (Z.of_nat (length k)) r st = Some l /\
    l ≡ₚ base.filter (fun r => matches key h k r = true) rs /\ r = hd 0 l.
Proof.
  intros [Hcs Haddr Hsz (d & Hd & Hn & Hs)] Hkeys Hk Hkm.
  pose proof (count_records _ _ _ _ Hs) as Hlen. destruct (decide (records h = 0)) as [E | E].
  - exists 0, NO_RECORD, []. unfold my_hash_first. rewrite bool_decide_false by tauto.
    destruct rs; [| simpl in Hlen; lia]. done.
  - pose proof Hs as [[ch T] _ _ _ _].
    erewrite first_is_pick by done.
    set (idx := my_hash_mask _ _ _). set (m := fun c => matches key h k (dat d c)).
    exists (pick d m (ch idx)).1, (pick d m (ch idx)).2, (dat d <$> base.filter (fun c => m c = true) (ch idx)).
    split_and!; [by destruct (pick d m (ch idx)) | | |].
    + eapply search_rest_chain with (j := idx) (l1 := []); try done.
      assert (length (ch idx) <= length d)%nat by (eapply chain_length with (l1 := []); done). lia.
    + by eapply chain_matches.
    + clear. induction (ch idx) as [| c l IH]; [done |]. cbn [pick]. rewrite filter_cons.
      destruct (m c) eqn:Em; [by rewrite decide_True | by rewrite decide_False by congruence].
Qed.

(** The result of a search. *)
Lemma search_found key (h : HASH A) rs k :
  table key h rs -> keyed mem h key rs -> k <> [] ->
  exists r, my_hash_search mem h k (Z.of_nat (length k)) = Some r /\
    (if bool_decide (r = 0) then forall r', r' ∈ rs -> matches key h k r' = false
     else r ∈ rs /\ matches key h k r = true).
Proof.
  intros Ht Hkeys Hk.
  destruct (search_spec key h rs k k Ht Hkeys Hk) as (r & st & l & E & _ & Hl & Hr); [by apply take_ge |].
  exists r. unfold my_hash_search. rewrite E. split; [done |].
  assert (Hin : forall r', r' ∈ l <-> r' ∈ rs /\ matches key h k r' = true).
  { intros r'. rewrite Hl, list_elem_of_filter. tauto. }
  destruct l as [| r0 l]; cbn [hd] in Hr; subst r.
  - rewrite bool_decide_true by done. intros r' Hr'. destruct (matches key h k r') eqn:Em; [| done].
    assert (Hx : r' ∈ []) by by apply Hin. by apply elem_of_nil in Hx.
  - assert (Hr0 : r0 ∈ rs /\ matches key h k r0 = true) by (apply Hin; set_solver).
    destruct Hr0 as [H1 H2]. pose proof (tb_addr _ _ _ Ht r0 H1). by rewrite bool_decide_false by lia.
Qed.

(** ** Insertion *)

Lemma hashed_app hm d x n rs :
  hashed hm d (seqZ 0 n) rs -> n = Z.of_nat (length d) -> n + 1 < NO_RECORD -> hashed hm (d ++ [x]) (seqZ 0 n) rs.
Proof.
  intros [[ch T] Hnd Hin Hrs Hsm] Hn Hb.
  assert (Hc : forall i, i ∈ seqZ 0 n -> cell (d ++ [x]) i = cell d i).
  { intros i Hi. apply elem_of_seqZ in Hi. unfold cell, load. rewrite !decide_True by lia. by rewrite lookup_app_l by lia. }
  split.
  - exists ch. eapply tbl_ext; [exact T | done | |]; intros i Hi; by rewrite Hc.
  - done.
  - intros i Hi. unfold inside. rewrite length_app. apply Hin in Hi. unfold inside in Hi. lia.
  - rewrite <- Hrs. rewrite (dat_ext d); [done |]. intros i Hi. by rewrite Hc.
  - rewrite length_app. simpl. lia.
Qed.

Lemma full_perm n e occ d :
  Z.of_nat (length d) = n -> inside d e -> e ∉ occ -> NoDup occ -> (forall i, i ∈ occ -> inside d i) ->
  (forall i, inside d i -> i = e \/ i ∈ occ) -> (e :: occ) ≡ₚ seqZ 0 n.
Proof.
  intros Hl He Hf Hn Hin Hall. apply NoDup_Permutation; [by apply NoDup_cons | apply NoDup_seqZ |].
  intros i. rewrite elem_of_cons, elem_of_seqZ. unfold inside in *. split.
  - intros [-> | Hi]; [lia |]. apply Hin in Hi. lia.
  - intros Hi. apply Hall. lia.
Qed.

(** The split, for any number of records. *)
Lemma split_chain_spec key (h : HASH A) rs d0 :
  table key h rs -> keyed mem h key rs -> Z.of_nat (length d0) = records h + 1 ->
  hashed (home h key) d0 (seqZ 0 (records h)) rs ->
  let hm1 r := my_hash_mask (calc_hash h (key r)) (blength h) (records h + 1) in
  exists d e occ, split_chain mem h d0 (records h) = Some (d, e) /\ length d = length d0 /\
    hashed hm1 d occ rs /\ inside d e /\ e ∉ occ /\ (forall i, inside d i -> i = e \/ i ∈ occ).
Proof.
  intros Ht Hkeys Hlen Hs hm1. pose proof Ht as [Hcs Haddr Hsz (d & Hd & Hn & _)].
  assert (Hr0 : 0 <= records h) by lia. pose proof (holds_bound _ _ Hd) as Hb.
  destruct (decide (records h = 0)) as [E | E].
  - exists d0, 0, []. unfold split_chain. destruct Hsz as (k & Hk & Hbk & Hn2).
    assert (Hb1 : blength h = 1). { rewrite E in Hn2. destruct (decide (k = 0)) as [-> |]; [done |].
      destruct (half_pow k) as (Eh & _ & Hp); [lia |]. rewrite Hbk, Eh in Hn2. lia. }
    rewrite Hb1, E. change (u32 (0 - (1 ≫ 1))) with 0. rewrite bool_decide_false by tauto.
    rewrite E in Hs. pose proof (count_records _ _ _ _ Hs) as Hc. destruct rs; [| simpl in Hc; lia].
    split_and!; try done.
    + apply (hashed_ext (home h key)); [done |]. intros r Hr. by apply elem_of_nil in Hr.
    + unfold inside. lia.
    + apply not_elem_of_nil.
    + intros i Hi. unfold inside in Hi. left. lia.
  - pose proof Hs as [[ch T] _ _ _ _]. destruct (sized_pow _ _ Hsz ltac:(lia)) as (k & Hk & Hbk & Hkn).
    destruct (half_pow k) as (Eh & E2 & Hp); [lia |].
    assert (Hsh : blength h ≫ 1 = blength h / 2) by (rewrite Z.shiftr_div_pow2 by lia; done).
    assert (Hhalf : blength h / 2 = 2 ^ (k - 1)) by (rewrite Hbk; done).
    apply (split_chain_some (home h key) hm1 d0 (seqZ 0 (records h)) rs (records h) (records h - blength h / 2)
      (fun r => bool_decide (calc_hash h (key r) &&& (blength h ≫ 1) = 0)) ch Hs T); try done.
    + intros i. rewrite elem_of_seqZ. lia.
    + lia.
    + intros r Hr. unfold hm1, home. apply mask_grow; [apply calc_range; done | done | lia].
    + rewrite Hsh. apply uwrap_small. lia.
    + intros r Hr. exists (calc_hash h (key r)). split_and!; [by eapply keyed_hashnr | done | done].
Qed.

Lemma insert_spec key (h : HASH A) rs r :
  table key h rs -> keyed mem h key (r :: rs) -> 0 < r < 2 ^ 32 -> key r <> [] -> room (array h) ->
  (my_hash_insert mem h r = Some (true, h) /\
     ((has (flags h) HASH_UNIQUE = true /\ exists r', r' ∈ rs /\ matches key h (key r) r' = true) \/
      la_alloc (array h) = Some (true, array h))) \/
  (exists b n a, my_hash_insert mem h r = Some (false, set_size (set_array h a) b n) /\
     table key (set_size (set_array h a) b n) (r :: rs) /\
     (has (flags h) HASH_UNIQUE = true -> forall r', r' ∈ rs -> matches key h (key r) r' = false)).
Proof.
  intros Ht Hkeys Hr Hkr Hroom. pose proof Ht as [Hcs Haddr Hsz (d & Hd & Hn & Hs)].
  assert (Hkeys' : keyed mem h key rs) by (intros r' f Hr'; apply Hkeys; set_solver).
  unfold my_hash_insert.
  assert (Hdup : exists dup, (if has (flags h) HASH_UNIQUE
      then key0 ← my_hash_key mem h r true; r0 ← my_hash_search mem h key0 (Z.of_nat (length key0)); Some (bool_decide (r0 <> 0))
      else Some false) = Some dup /\
    (if dup : bool then has (flags h) HASH_UNIQUE = true /\ exists r', r' ∈ rs /\ matches key h (key r) r' = true
     else has (flags h) HASH_UNIQUE = true -> forall r', r' ∈ rs -> matches key h (key r) r' = false)).
  { destruct (has (flags h) HASH_UNIQUE); [| by exists false]. rewrite (Hkeys r true) by set_solver. cbn [mbind option_bind].
    destruct (search_found key h rs (key r) Ht Hkeys' Hkr) as (r0 & -> & H0). cbn [mbind option_bind].
    exists (bool_decide (r0 <> 0)). split; [done |]. destruct (decide (r0 = 0)) as [E | E].
    - rewrite bool_decide_true in H0 by done. rewrite bool_decide_false by tauto. auto.
    - rewrite bool_decide_false in H0 by done. rewrite bool_decide_true by done. eauto. }
  destruct Hdup as (dup & -> & Hdup). cbn [mbind option_bind]. destruct dup; [left; auto |].
  destruct (alloc_law _ _ Hd Hroom) as [E | (x & a & -> & Ha)].
  { left. rewrite E. cbn [mbind option_bind]. split; [| auto]. by destruct h. }
  right. cbn [mbind option_bind]. rewrite (links_law _ _ Ha). cbn [mbind option_bind].
  pose proof (holds_bound _ _ Ha) as Hb. rewrite length_app in Hb. simpl in Hb.
  assert (Hl0 : Z.of_nat (length (d ++ [x])) = records h + 1) by (rewrite length_app; simpl; lia).
  replace (Z.of_nat (length (d ++ [x])) - 1) with (records h) by lia.
  destruct (split_chain_spec key h rs (d ++ [x]) Ht Hkeys' Hl0) as (d1 & e & occ & -> & Hl1 & Hs1 & He & Hfree & Hall).
  { apply hashed_app; [done | done |]. unfold NO_RECORD. lia. }
  cbn [mbind option_bind]. set (hm1 := fun r => my_hash_mask (calc_hash h (key r)) (blength h) (records h + 1)) in *.
  assert (Hu : u32 (records h + 1) = records h + 1) by (apply uwrap_small; lia).
  assert (Hg : forall r, hm1 r = my_hash_mask (calc_hash h (key r)) (grown (blength h) (records h)) (records h + 1)).
  { intros r'. symmetry. apply mask_grown; [by apply calc_range | done]. }
  assert (Hszg : sized (grown (blength h) (records h)) (records h + 1)) by (apply sized_grown; [done | lia]).
  destruct (place_spec mem h hm1 d1 occ rs e r (calc_hash h (key r)) Hs1 He Hfree Hall) as (d2 & -> & Hl2 & Hs2).
  { apply (keyed_hashnr mem h key (r :: rs)); [done | set_solver]. }
  { by rewrite Hu. }
  { unfold inside. rewrite Hl1, Hl0, Hg. apply mask_range; [by apply calc_range | done | lia]. }
  { intros i Hi. rewrite Hu. apply (keyed_mask mem h key rs); [done |]. by eapply hashed_dat. }
  cbn [mbind option_bind].
  assert (Hp : (e :: occ) ≡ₚ seqZ 0 (records h + 1)).
  { destruct Hs1. apply (full_perm _ e occ d1); try done. by rewrite Hl1. }
  assert (Haddr' : forall r', r' ∈ r :: rs -> 0 < r' < 2 ^ 32) by (intros r' [-> | Hr']%elem_of_cons; [done | by apply Haddr]).
  destruct (with_links_law a (d ++ [x]) d2 Ha) as (a' & -> & Ha').
  { by rewrite Hl2, Hl1. }
  rewrite wrap_links in Ha'.
  2: { eapply hashed_link_ok; [exact Hs2 | | done]. intros i Hi. apply elem_of_cons, Hall.
    unfold inside. by rewrite <- Hl2. }
  cbn [mbind option_bind]. rewrite Hu. eexists _, _, a'. split; [done |]. split; [| done].
  assert (Egrow : (if bool_decide (records h + 1 = blength h) then u32 (blength h + blength h) else blength h) = grown (blength h) (records h)).
  { unfold grown. case_bool_decide; [| done]. rewrite uwrap_small by lia. lia. }
  rewrite Egrow. split; cbn; try done.
  exists d2. split; [done |]. split; [rewrite Hl2, Hl1, Hl0; done |].
  apply (hashed_perm _ _ (e :: occ) _ (r :: rs)); [| by symmetry | done]. apply (hashed_ext hm1); [done |].
  intros r' _. rewrite Hg. done.
Qed.

(** ** Deletion *)

(** The search by address finds the record in its chain. *)
Lemma find_spec hm d n rs r idx :
  hashed hm d (seqZ 0 n) rs -> n = Z.of_nat (length d) -> 0 <= idx < n -> (r ∈ rs -> hm r = idx) ->
  (find_record (S (length d)) d r idx None = Some None /\ r ∉ rs) \/
  (exists ch l1 c l2, tbl (nxt d) (fun i => hm (dat d i)) (seqZ 0 n) ch /\ ch idx = l1 ++ c :: l2 /\
     dat d c = r /\ r ∈ rs /\ hm r = idx /\ find_record (S (length d)) d r idx None = Some (Some (c, previous None l1))).
Proof.
  intros Hs Hn Hi Hh. pose proof Hs as [[ch T] _ Hin Hrs Hsm].
  assert (Ho : idx ∈ seqZ 0 n) by (apply elem_of_seqZ; lia).
  pose proof (chain_mem _ _ _ _ T idx Ho) as Hc. apply list_elem_of_split in Hc as (l & t & E). cbv beta in E.
  assert (Hcell : forall i, i ∈ l ++ idx :: t -> i ∈ seqZ 0 n).
  { intros i. rewrite <- E. apply (chain_occ _ _ _ _ T). }
  destruct (find_record_spec d r t idx None (S (length d))) as [[Hf Hno] | (l1 & c & l2 & Ec & Hc & Hf)].
  - pose proof (t_linked _ _ _ _ T (hm (dat d idx))) as Hl. cbv beta in Hl. rewrite E in Hl. by apply linked_app in Hl as [].
  - intros i Hic. assert (Hii : inside d i) by (apply Hin, Hcell; set_solver). split; [done | by eapply inside_no].
  - assert (Hb : (length (l ++ idx :: t) <= length d)%nat).
    { apply cells_bound; [rewrite <- E; apply (t_nodup _ _ _ _ T) |]. intros i Hic. by apply Hin, Hcell. }
    rewrite length_app in Hb. simpl in Hb. lia.
  - left. split; [done |]. intros Hr. specialize (Hh Hr). rewrite <- Hrs in Hr.
    apply list_elem_of_fmap in Hr as (c & -> & Hco). destruct (home_occ _ _ _ _ T c Hco) as [_ Hhh]. cbv beta in *.
    rewrite Hh in Hhh. rewrite Hhh in E.
    assert (Hci : c ∈ ch idx) by (apply (t_mem _ _ _ _ T); done).
    assert (El : l = []) by by apply (chain_first _ _ _ _ T idx l t).
    rewrite E, El in Hci. by apply (Hno c).
  - right. assert (Hcc : c ∈ l ++ idx :: t) by (rewrite Ec; set_solver).
    assert (Hr : r ∈ rs) by (rewrite <- Hc; eapply hashed_dat; [done | by apply Hcell]).
    assert (Hg : hm (dat d idx) = idx).
    { rewrite <- E in Hcc. apply (chain_home _ _ _ _ T) in Hcc. cbv beta in *. rewrite Hc, (Hh Hr) in Hcc. done. }
    cbv beta in Hg. rewrite Hg in E.
    assert (El : l = []) by by apply (chain_first _ _ _ _ T idx l t).
    exists ch, l1, c, l2. split_and!; [done | rewrite E, El; done | done | done | by apply Hh | done].
Qed.

(** The table without its last cell, which is free. *)
Lemma hashed_pop hm d occ rs n :
  hashed hm d occ rs -> 0 <= n -> Z.of_nat (length d) = n + 1 -> (forall i, i ∈ occ <-> 0 <= i < n) ->
  exists l x, d = l ++ [x] /\ hashed hm l (seqZ 0 n) rs /\ Z.of_nat (length l) = n.
Proof.
  intros [[ch T] Hnd Hin Hrs Hsm] Hn Hl Ho.
  assert (Hne : d <> []) by (intros ->; simpl in Hl; lia). destruct (exists_last Hne) as (l & x & ->).
  rewrite length_app in Hl. simpl in Hl. exists l, x. split; [done |]. split; [| lia].
  assert (Hc : forall i, i ∈ occ -> cell (l ++ [x]) i = cell l i).
  { intros i Hi%Ho. unfold cell, load. rewrite !decide_True by lia. by rewrite lookup_app_l by lia. }
  assert (Hp : seqZ 0 n ≡ₚ occ).
  { apply NoDup_Permutation; [apply NoDup_seqZ | done |]. intros i. rewrite elem_of_seqZ, Ho. lia. }
  split.
  - exists ch. eapply tbl_ext; [exact T | intros i; by rewrite Hp | |]; intros i Hi; cbv beta; by rewrite Hc.
  - apply NoDup_seqZ.
  - intros i Hi. apply elem_of_seqZ in Hi. unfold inside. lia.
  - rewrite Hp, <- Hrs. rewrite (dat_ext (l ++ [x]) l); [done |]. intros i Hi. by rewrite Hc.
  - rewrite length_app in Hsm. simpl in Hsm. lia.
Qed.

Lemma mask_shrunk h b n :
  0 <= h -> sized b (n + 1) -> 0 < n ->
  let b' := if bool_decide (n < b / 2) then b / 2 else b in
  my_hash_mask h b' n = if decide (my_hash_mask h b (n + 1) = n) then n - b' / 2 else my_hash_mask h b (n + 1).
Proof.
  intros Hh Hs Hn b'. destruct (sized_shrunk b n Hs ltac:(lia)) as [Hs' Hg]. fold b' in Hs', Hg.
  assert (E : my_hash_mask h b (n + 1) = my_hash_mask h b' (n + 1)) by (rewrite <- Hg; by apply mask_grown).
  pose proof (mask_range h b' n Hh Hs' ltac:(lia)). rewrite E. rewrite (mask_grow h b' n) by (done || lia).
  destruct (decide (_ /\ _)) as [[H1 _] | H1]; [by rewrite decide_True | by rewrite decide_False by lia].
Qed.

Lemma delete_spec key (h : HASH A) rs r :
  table key h rs -> keyed mem h key (r :: rs) ->
  (my_hash_delete mem h r = Some (true, h, []) /\ r ∉ rs) \/
  (exists b n a rs', my_hash_delete mem h r = Some (false, set_array (set_size h b n) a, if free h then [r] else []) /\
     rs ≡ₚ r :: rs' /\ table key (set_array (set_size h b n) a) rs').
Proof.
  intros Ht Hkeys. pose proof Ht as [Hcs Haddr Hsz (d & Hd & Hn & Hs)].
  assert (Hkeys' : keyed mem h key rs) by (intros r' f Hr'; apply Hkeys; set_solver).
  unfold my_hash_delete. destruct (decide (records h = 0)) as [E0 | E0].
  { left. rewrite bool_decide_true by done. split; [done |]. pose proof (count_records _ _ _ _ Hs).
    destruct rs; [apply not_elem_of_nil | simpl in *; lia]. }
  rewrite bool_decide_false by done. rewrite (links_law _ _ Hd). cbn [mbind option_bind].
  rewrite (keyed_hashnr mem h key (r :: rs)) by (done || set_solver). cbn [mbind option_bind].
  pose proof (holds_bound _ _ Hd) as Hb.
  set (idx := my_hash_mask _ _ _).
  assert (Hi : 0 <= idx < records h) by (apply mask_range; [by apply calc_range | done | lia]).
  destruct (find_spec (home h key) d (records h) rs r idx Hs Hn Hi) as [[-> Hno] | (ch & l1 & c & l2 & T & E & Hc & Hr & Hh & ->)];
    [done | left; done | right]. cbn [mbind option_bind].
  assert (Hu : u32 (records h - 1) = records h - 1) by (apply uwrap_small; lia). rewrite Hu.
  assert (Hsh : blength h ≫ 1 = blength h / 2) by (rewrite Z.shiftr_div_pow2 by lia; done). rewrite Hsh.
  set (n := records h - 1). assert (Hn1 : records h = n + 1) by lia.
  set (b := if bool_decide (n < blength h / 2) then blength h / 2 else blength h).
  set (h1 := set_size h b n). subst r.
  destruct (unlink_spec (home h key) d _ rs ch Hs T c l1 l2) as (d1 & e & -> & Hl1 & He & _ & Hun); [by rewrite Hh |].
  cbn [mbind option_bind]. pose proof He as Hocc. apply elem_of_Permutation in Hocc as [occ Hocc].
  pose proof Hr as Hrs. apply elem_of_Permutation in Hrs as [rs' Hrs']. pose proof (Hun occ rs' Hocc Hrs') as Hs1.
  rewrite Hn1 in Hsz. destruct (sized_shrunk (blength h) n Hsz) as [Hsz1 Hgr]; [lia |]. fold b in Hsz1, Hgr.
  destruct (move_last_spec mem h1 (home h key) d1 occ rs' e (n - b / 2) (blength h)) as (d2 & occ2 & -> & Hl2 & Hs2 & Ho2).
  - done.
  - unfold inside. rewrite Hl1. apply elem_of_seqZ in He. lia.
  - pose proof (hs_nodup _ _ _ _ Hs) as Hnd. rewrite Hocc in Hnd. by apply NoDup_cons in Hnd as [].
  - intros i Hii. apply elem_of_cons. rewrite <- Hocc, elem_of_seqZ. unfold inside in Hii. lia.
  - cbn. lia.
  - cbn. destruct (decide (n = 0)); [by left | right]. destruct (sized_pow b n Hsz1) as (k & Hk & -> & Hkn); [lia |].
    destruct (half_pow k) as (-> & Eh & Hp); lia.
  - intros r' Hr'. cbn. exists (calc_hash h (key r')). assert (Hr2 : r' ∈ rs) by (rewrite Hrs'; set_solver).
    assert (Hpos : 0 < n).
    { apply Permutation_length in Hrs'. pose proof (count_records _ _ _ _ Hs). simpl in Hrs'. destruct rs'; [by apply elem_of_nil in Hr' |]. simpl in *. lia. }
    split_and!.
    + rewrite <- (keyed_hashnr mem h key rs) by done. done.
    + unfold shrunk, home. rewrite Hn1. apply mask_shrunk; [by apply calc_range | done | lia].
    + rewrite uwrap_small by lia. by rewrite <- Hn1.
  - cbn [mbind option_bind]. destruct (hashed_pop _ d2 occ2 rs' n Hs2) as (l & x & -> & Hs3 & Hl3); [lia | | done |].
    { rewrite Hl2, Hl1. lia. }
    destruct (with_links_law (array h1) d (l ++ [x]) Hd) as (a & -> & Ha); [by rewrite Hl2, Hl1 |]. cbn [mbind option_bind].
    assert (Haddr' : forall r', r' ∈ rs' -> 0 < r' < 2 ^ 32) by (intros r' Hr'; apply Haddr; rewrite Hrs'; set_solver).
    rewrite fmap_app, wrap_links in Ha.
    2: { eapply hashed_link_ok; [exact Hs3 | | done]. intros i Hii. apply elem_of_seqZ. unfold inside in Hii. lia. }
    exists b, n, (la_pop a), rs'. split_and!; [done | done |]. split; cbn; [done | done | done |].
    exists l. split_and!; [by eapply pop_law | lia |]. apply (hashed_ext (shrunk (home h key) n (n - b / 2))); [done |].
    intros r' Hr'. unfold shrunk, home. cbn. rewrite Hn1. apply mask_shrunk; [by apply calc_range | done |].
    apply Permutation_length in Hrs'. pose proof (count_records _ _ _ _ Hs). simpl in Hrs'. destruct rs'; [by apply elem_of_nil in Hr' |]. simpl in *. lia.
Qed.

(** ** Update *)

Lemma old_idx (h : HASH A) (k okm : list Z) len :
  k <> [] -> take (length k) okm = k -> len = Z.of_nat (length k) ->
  read okm 0 (if bool_decide (len <> 0) then len else key_length h) = Some k.
Proof.
  intros Hk Ht ->. rewrite bool_decide_true by (destruct k; simpl; [done | lia]). by apply key_read.
Qed.

Lemma update_spec key key' (h : HASH A) rs r okm :
  table key h rs -> keyed mem h key' (r :: rs) -> NoDup rs -> r ∈ rs ->
  (forall r', r' ∈ rs -> r' <> r -> key' r' = key r') -> key r <> [] -> key' r <> [] ->
  take (length (key r)) okm = key r ->
  let dup := has HASH_UNIQUE (flags h) = true /\ exists r', r' ∈ rs /\ r' <> r /\ matches key' h (key' r) r' = true in
  (my_hash_update mem h r okm (Z.of_nat (length (key r))) = Some (true, h) /\ dup) \/
  (exists a, my_hash_update mem h r okm (Z.of_nat (length (key r))) = Some (false, set_array h a) /\
     ~ dup /\ table key' (set_array h a) rs).
Proof.
  intros Ht Hkeys0 Hnd Hr Hsame Hk Hk' Hokm dup. pose proof Ht as [Hcs Haddr Hsz (d & Hd & Hn & Hs)].
  assert (Hkeys : keyed mem h key' rs) by (intros r' f Hr'; apply Hkeys0; set_solver).
  pose proof (count_records _ _ _ _ Hs) as Hcount.
  assert (Hpos : records h <> 0) by (destruct rs; [by apply elem_of_nil in Hr | simpl in Hcount; lia]).
  assert (Hhome : forall r', r' ∈ rs -> r' <> r -> home h key r' = home h key' r') by (intros r' H1 H2; unfold home; by rewrite Hsame).
  unfold my_hash_update.
  assert (Hdup : exists b, (if has HASH_UNIQUE (flags h)
      then new_key ← my_hash_key mem h r true;
           '(found, state) ← my_hash_first mem h new_key (Z.of_nat (length new_key));
           d ← links (array h);
           other_record mem (S (length d)) h new_key (Z.of_nat (length new_key)) r found state
      else Some false) = Some b /\ (b = true <-> dup)).
  { unfold dup. destruct (has HASH_UNIQUE (flags h)); [| exists false; split; [done |]; split; [done | by intros []]].
    rewrite (Hkeys r true Hr). cbn [mbind option_bind]. cbv zeta. pose proof Hs as [[ch T] _ _ _ _].
    destruct (other_record_spec mem key' h rs (key' r) (key' r) Hk' ltac:(by apply take_ge) Hcs Haddr Hsz Hkeys Hpos d Hd Hn
      (home h key) ch T Hs r) as (b & Hb & Hiff).
    - unfold matches. rewrite !bool_decide_true; [done | by apply (coll_refl _ Hcs) | done].
    - intros r' H1 H2. by apply Hhome.
    - exists b. split; [exact Hb |]. rewrite Hiff. tauto. }
  destruct Hdup as (b & -> & Hb). cbn [mbind option_bind]. destruct b; [left; split; [done | by apply Hb] |].
  assert (Hnodup : ~ dup) by (intros Hx; by apply Hb in Hx). clear Hb. right.
  rewrite (links_law _ _ Hd). cbn [mbind option_bind]. rewrite (old_idx h (key r)) by done. cbn [mbind option_bind].
  rewrite (keyed_hashnr mem h key' rs r Hkeys Hr). cbn [mbind option_bind].
  change (my_hash_mask (calc_hash h (key r)) (blength h) (records h)) with (home h key r).
  change (my_hash_mask (calc_hash h (key' r)) (blength h) (records h)) with (home h key' r).
  assert (Hrange : forall k, 0 <= my_hash_mask (calc_hash h k) (blength h) (records h) < records h).
  { intros k. apply mask_range; [by apply calc_range | done | lia]. }
  destruct (decide (home h key r = home h key' r)) as [Eq | Ne].
  { rewrite bool_decide_true by done. exists (array h). split; [by destruct h |]. split; [done |]. split; cbn; try done.
    exists d. split_and!; try done. apply (hashed_ext (home h key)); [done |]. intros r' Hr'. cbn.
    destruct (decide (r' = r)) as [-> | Hne]; [done |]. symmetry. by apply Hhome. }
  rewrite bool_decide_false by done.
  destruct (find_spec (home h key) d (records h) rs r (home h key r) Hs Hn (Hrange (key r)))
    as [[_ Hno] | (ch & l1 & c & l2 & T & E & Hc & _ & _ & ->)]; [done | done |]. cbn [mbind option_bind].
  assert (Hco : c ∈ seqZ 0 (records h)) by (apply (chain_occ _ _ _ _ T c (home h key r)); rewrite E; set_solver).
  rewrite load_cell by (apply elem_of_seqZ in Hco; unfold inside; lia). cbn [mbind option_bind].
  destruct (unlink_spec (home h key) d _ rs ch Hs T c l1 l2) as (d1 & e & -> & Hl1 & He & Hec & Hun);
    [cbv beta in Hc |- *; by rewrite Hc |]. cbn [mbind option_bind].
  pose proof He as Hocc. apply elem_of_Permutation in Hocc as [occ Hocc].
  pose proof Hr as Hrs. apply elem_of_Permutation in Hrs as [rs' Hrs'].
  assert (Hr' : r ∉ rs') by (rewrite Hrs' in Hnd; by apply NoDup_cons in Hnd as []).
  assert (Hs1 : hashed (home h key') d1 occ rs').
  { apply (hashed_ext (home h key)); [apply Hun; [done | by rewrite Hc] |]. intros r' Hr2. symmetry.
    apply Hhome; [rewrite Hrs'; set_solver | congruence]. }
  destruct (relink_spec mem h (home h key') d1 occ rs' e c (cell d c) Hs1) as (d2 & Hre & Hl2 & Hs2).
  { unfold inside. rewrite Hl1. apply elem_of_seqZ in He. lia. }
  { pose proof (hs_nodup _ _ _ _ Hs) as Hn2. rewrite Hocc in Hn2. by apply NoDup_cons in Hn2 as []. }
  { intros i Hii. apply elem_of_cons. rewrite <- Hocc, elem_of_seqZ. unfold inside in Hii. lia. }
  { unfold inside. rewrite Hl1, <- Hn. apply Hrange. }
  { intros ->. by apply Hec. }
  { intros i Hi. apply (keyed_mask mem h key' rs); [done |]. rewrite Hrs'. apply elem_of_cons. right. by eapply hashed_dat. }
  cbv beta in Hc. rewrite Hc in Hre, Hs2. rewrite Hre. cbn [mbind option_bind].
  assert (Hs3 : hashed (home h key') d2 (seqZ 0 (records h)) rs) by (by apply (hashed_perm _ _ _ _ _ _ Hs2)).
  destruct (with_links_law (array h) d d2 Hd) as (a & -> & Ha); [by rewrite Hl2 |]. cbn [mbind option_bind].
  rewrite wrap_links in Ha.
  2: { eapply hashed_link_ok; [exact Hs3 | | done]. intros i Hii. apply elem_of_seqZ. unfold inside in Hii. lia. }
  exists a. split; [done |]. split; [done |]. split; cbn; try done. exists d2. split_and!; [done | by rewrite Hl2, Hl1 | done].
Qed.
End Main.
End HashTable.
