(* ===== verification/HashMain.v ===== *)
(** * HashMain: the properties of hash tables

    The theorems on [mysys/hash.c] for every array of links that obeys
    [LinkArrayLaws]; the witnesses run the code on dynamic arrays ([HashArray])
    with the binary collation ([CtypeBin]). *)
From stdpp Require Import base tactics option list numbers sets.
From Stdlib Require Import ZArith Lia.
From S2P Require Import Prelude DynArray Pack Hash CtypeBin HashChain HashProps HashSplit HashTable.

(** * HashArray: the links of a hash table in a dynamic array

    [DYNAMIC_ARRAY] ([mysys/array.c]) offers what [Hash] asks of an array of links:
    a cell is eight bytes, the 32-bit index [next] and the address [data], both with
    the low byte first.  [dyn_links] are the operations, [dyn_laws] that they obey
    [LinkArrayLaws]. *)
Module HashArray.
Import DynArray.

(** ** A cell in memory *)

Definition link_bytes (x : HASH_LINK) : list Z := Pack.int4store (next x) ++ Pack.int4store (data x).

Definition link_at (b : list Z) : HASH_LINK :=
  mk_link (default 0 (Pack.uint4korr b 0)) (default 0 (Pack.uint4korr b 4)).

Fixpoint link_cells (n : nat) (b : list Z) : list HASH_LINK :=
  match n with O => [] | S n => link_at (take 8 b) :: link_cells n (drop 8 b) end.

Lemma int4_wrap x l : Pack.uint4korr (Pack.int4store x ++ l) 0 = Some (u32 x).
Proof.
  set (m := Pack.int4store x ++ l).
  assert (load m 0 = Some (u8 x)) by done. assert (load m (0 + 1) = Some (u8 (x ≫ 8))) by done.
  assert (load m (0 + 2) = Some (u8 (x ≫ 16))) by done. assert (load m (0 + 3) = Some (u8 (x ≫ 24))) by done.
  clearbody m. unfold Pack.uint4korr. Pack.korr_solve.
Qed.

Lemma link_roundtrip x : link_at (link_bytes x) = wrap_link x.
Proof.
  unfold link_at, wrap_link, link_bytes. rewrite int4_wrap. cbn [default]. f_equal.
  assert (E : Pack.uint4korr (Pack.int4store (next x) ++ Pack.int4store (data x)) 4 =
              Pack.uint4korr (Pack.int4store (data x) ++ []) 0) by done.
  by rewrite E, int4_wrap.
Qed.

Lemma link_cells_concat (els : list (list Z)) rest :
  Forall (fun e => Z.of_nat (length e) = 8) els ->
  link_cells (length els) (concat els ++ rest) = link_at <$> els.
Proof.
  induction 1 as [| e els He _ IH]; [done |]. cbn [length link_cells concat fmap list_fmap].
  assert (length e = 8%nat) as H8 by lia.
  rewrite <- app_assoc, <- H8, take_app_length, drop_app_length. by f_equal.
Qed.

Section Instance_.
Context (my_malloc : Z -> option (list Z)) (my_realloc : list Z -> Z -> option (list Z)).

(** [reset_dynamic] is the assignment of 0 to [elements]. *)
#[local] Instance dyn_links : LinkArray DYNAMIC_ARRAY := {|
  links a :=
    b ← read (bytes (buffer a)) 0 (elements a * 8);
    Some (link_cells (Z.to_nat (elements a)) b);
  with_links a l := memcpy_to a 0 (concat (link_bytes <$> l));
  la_init size growth := init_dynamic_array my_malloc 8 size growth;
  la_alloc a := '(r, a) ← alloc_dynamic my_malloc my_realloc a; Some (bool_decide (r = None), a);
  la_pop a := (pop_dynamic a).2;
  la_reset a := set_elements a 0;
  la_delete := delete_dynamic;
|}.

Context {Hal : alloc_ok my_malloc my_realloc}.

Definition cells_held (a : DYNAMIC_ARRAY) (l : list HASH_LINK) : Prop :=
  exists els, repr a els /\ size_of_element a = 8 /\ l = link_at <$> els.

(** The bytes behind the elements become a new element. *)
Lemma reserve a l :
  repr a l -> elements a < max_element a ->
  exists x, repr (set_elements a (Z.of_nat (length l + 1))) (l ++ [x]).
Proof.
  intros [H1 H2 H3 H4 H5 H6 [rest H7] H8] Hm.
  pose proof (length_concat_each l _ H6) as Hl.
  rewrite H7, length_app in H4.
  exists (take (Z.to_nat (size_of_element a)) rest).
  split; simpl; try done; try lia.
  - rewrite length_app. simpl. lia.
  - rewrite H7, length_app. lia.
  - apply Forall_app. split; [done |]. apply Forall_singleton. rewrite length_take. nia.
  - exists (drop (Z.to_nat (size_of_element a)) rest).
    rewrite concat_app. cbn [concat]. by rewrite app_nil_r, <- app_assoc, take_drop.
Qed.

Lemma cells_links a l : cells_held a l -> links a = Some l.
Proof.
  intros (els & [H1 H2 H3 H4 H5 H6 [rest H7] H8] & Hs & ->). cbn [links dyn_links].
  pose proof (length_concat_each els _ H6) as Hl. rewrite H7.
  replace (elements a * 8) with (Z.of_nat (length (concat els))) by nia.
  rewrite read_app_0. cbn [mbind option_bind]. rewrite H2, Nat2Z.id.
  rewrite <- (app_nil_r (concat els)). by rewrite link_cells_concat by (by rewrite <- Hs).
Qed.

Lemma link_bytes_each (l : list HASH_LINK) : Forall (fun e => Z.of_nat (length e) = 8) (link_bytes <$> l).
Proof. apply Forall_fmap, Forall_true. done. Qed.

Lemma cells_with a l l' :
  cells_held a l -> length l' = length l ->
  exists a', with_links a l' = Some a' /\ cells_held a' (wrap_link <$> l').
Proof.
  intros (els & [H1 H2 H3 H4 H5 H6 [rest H7] H8] & Hs & ->) Hlen. rewrite length_fmap in Hlen.
  pose proof (length_concat_each els _ H6) as Hl.
  pose proof (length_concat_each _ _ (link_bytes_each l')) as Hl'. rewrite length_fmap in Hl'.
  cbn [with_links dyn_links]. unfold memcpy_to. rewrite H7, write_app_0 by nia. cbn [mbind option_bind].
  eexists. split; [done |]. exists (link_bytes <$> l'). split_and!; [| done |].
  - assert (Hn : buffer a = Null \/ buffer a <> Null) by (destruct (buffer a); [by left | by right | by right]).
    destruct Hn as [En | En].
    + rewrite En in H4, H7 |- *. simpl in H4.
      assert (E : els = [] /\ rest = []).
      { destruct els as [| e els]; [split; [done |]; by symmetry in H7 |]. simpl in H2. nia. }
      destruct E as [-> ->]. destruct l'; [| done].
      split; simpl; rewrite ?En; try done. by exists [].
    + split; simpl; rewrite ?bytes_with by done; try done; rewrite ?length_fmap; try lia.
      * rewrite H7, length_app in H4. rewrite length_app. nia.
      * rewrite Hs. apply link_bytes_each.
      * by eexists.
  - rewrite <- list_fmap_compose. apply list_fmap_ext. intros i x _. simpl. by rewrite link_roundtrip.
Qed.

Lemma cells_alloc a l :
  cells_held a l -> (max_element a + alloc_increment a) * 8 < 2 ^ 32 ->
  la_alloc a = Some (true, a) \/ exists x a', la_alloc a = Some (false, a') /\ cells_held a' (l ++ [x]).
Proof.
  intros (els & R & Hs & ->) Hroom. cbn [la_alloc dyn_links].
  destruct (alloc_dynamic_spec my_malloc my_realloc a els R) as [[E _] | (a1 & E & R1 & Hm & Hs1)];
    [by rewrite Hs | left | right]; rewrite E; cbn [mbind option_bind]; [done |].
  destruct (reserve a1 els R1 Hm) as [x Rx].
  exists (link_at x), (set_elements a1 (Z.of_nat (length els + 1))).
  split; [done |]. exists (els ++ [x]). split_and!; [done | simpl; congruence | by rewrite fmap_app].
Qed.

Lemma cells_pop a l x : cells_held a (l ++ [x]) -> cells_held (la_pop a) l.
Proof.
  intros (els & R & Hs & E). symmetry in E. apply fmap_app_inv in E as (l1 & l2 & -> & E2 & ->).
  destruct l2 as [| e [| e' l2]]; try done.
  destruct (pop_dynamic_spec a l1 e R) as (off & a' & Ep & R' & _).
  cbn [la_pop dyn_links]. rewrite Ep. exists l1. split_and!; [done | | done].
  revert Ep. unfold pop_dynamic. case_bool_decide; [| done]. intros [= _ <-]. done.
Qed.

Lemma cells_init size growth :
  0 <= size < 2 ^ 29 -> 0 <= growth -> cells_held (la_init size growth).2 [].
Proof.
  intros Hs Hg. cbn [la_init dyn_links]. unfold init_dynamic_array.
  destruct (init_dynamic_array2_spec my_malloc my_realloc 8 Null size growth) as (r & a & E & H8 & R & _);
    try lia; [by intros b [] |].
  rewrite E. by exists [].
Qed.

Lemma cells_held_bound a l : cells_held a l -> Z.of_nat (length l) < 2 ^ 29.
Proof.
  intros (els & [H1 H2 H3 H4 H5 H6 _ _] & Hs & ->). rewrite length_fmap. rewrite Hs in H5. lia.
Qed.

Lemma cells_reset a l : cells_held a l -> cells_held (la_reset a) [].
Proof.
  intros (els & [H1 H2 H3 H4 H5 H6 [rest H7] H8] & Hs & ->). exists [].
  split_and!; [| done | done]. cbn [la_reset dyn_links]. split; simpl; try done; try lia. by eexists.
Qed.

#[local] Instance dyn_laws : LinkArrayLaws DYNAMIC_ARRAY := {|
  holds := cells_held;
  room a := (max_element a + alloc_increment a) * 8 < 2 ^ 32;
  holds_bound := cells_held_bound;
  links_law := cells_links;
  with_links_law := cells_with;
  init_law := cells_init;
  alloc_law := cells_alloc;
  pop_law := cells_pop;
  reset_law := cells_reset;
|}.

End Instance_.
End HashArray.

Module HashMain.
Import Hash HashTable.

(** ** The binary collation *)

Definition my_charset_bin : CHARSET_INFO :=
  mk_charset CtypeBin.my_hash_sort_bin (fun s t => CtypeBin.my_strnncoll_binary s t false).

Lemma charset_bin_good : good_charset my_charset_bin.
Proof.
  split; simpl.
  - intros k. by apply CtypeBin.hash_fold_range.
  - apply CtypeBin.strnncoll_binary_refl.
  - intros a b Hl H. by rewrite (CtypeBin.strnncoll_binary_eq a b Hl H).
Qed.

(** ** A new table *)

Section New.
Context {A : Type} {L : LinkArray A} {W : LinkArrayLaws A}.

Lemma sized_new : sized 1 0.
Proof. exists 0. by split_and!. Qed.

Lemma hashed_nil hm : HashProps.hashed hm [] (seqZ 0 0) [].
Proof.
  split; [| apply NoDup_nil_2 | | done | done].
  - exists (fun _ => []). split; [done | intros; apply NoDup_nil_2 | | by left].
    intros i j. rewrite !elem_of_nil. tauto.
  - intros i Hi. by apply elem_of_nil in Hi.
Qed.

Lemma init_table key (hash : HASH A) growth cs size koff klen gk fr fl :
  good_charset cs -> 0 <= size < 2 ^ 29 -> 0 <= growth ->
  exists failed h, _my_hash_init hash growth cs size koff klen gk fr fl = (failed, h) /\
    (if failed : bool then free h = false /\ records h = 0 else table key h []).
Proof.
  intros Hcs Hs Hg. pose proof (init_law size growth Hs Hg) as Hi. unfold _my_hash_init.
  destruct (la_init size growth) as [[] a]; eexists _, _; (split; [done |]); [done |].
  split; simpl; [done | | apply sized_new | exists []; split_and!; [done | done | apply hashed_nil]].
  intros r Hr. by apply elem_of_nil in Hr.
Qed.

(** The records in the order of the cells. *)
Lemma data_in_order (d : list HASH_LINK) :
  ((fun i => data (HashProps.cell d i)) <$> seqZ 0 (Z.of_nat (length d))) = map data d.
Proof.
  apply list_eq. intros i. rewrite list_lookup_fmap.
  change (map data d) with (data <$> d). rewrite list_lookup_fmap.
  destruct (decide (i < length d)%nat) as [Hi | Hi].
  - rewrite lookup_seqZ_lt by lia. cbn [fmap option_fmap option_map]. unfold HashProps.cell. rewrite Z.add_0_l, load_nat.
    by destruct (lookup_lt_is_Some_2 d i Hi) as [x ->].
  - rewrite lookup_seqZ_ge by lia. by rewrite lookup_ge_None_2 by lia.
Qed.

(** Every record is freed once, if there is a [free] function. *)
Lemma free_elements_spec key (h : HASH A) rs :
  table key h rs -> exists l, my_hash_free_elements h = Some (set_size h (blength h) 0, l) /\
    l ≡ₚ if free h then rs else [].
Proof.
  intros [_ _ _ (d & Hd & Hn & Hs)]. unfold my_hash_free_elements. destruct (free h); [| by eexists].
  rewrite (links_law _ _ Hd). cbn [mbind option_bind]. rewrite Hn.
  pose proof (read_app_0 d []) as Er. rewrite app_nil_r in Er. rewrite Er. cbn [mbind option_bind].
  eexists. split; [done |]. pose proof (HashProps.hs_rs _ _ _ _ Hs) as Hrs. rewrite Hn in Hrs.
  by rewrite data_in_order in Hrs.
Qed.

Lemma reset_table key (h : HASH A) rs :
  table key h rs -> exists h' l, my_hash_reset h = Some (h', l) /\
    (l ≡ₚ if free h then rs else []) /\ table key h' [].
Proof.
  intros Ht. destruct (free_elements_spec key h rs Ht) as (l & E & Hl).
  destruct Ht as [Hcs _ _ (d & Hd & _ & _)].
  unfold my_hash_reset. rewrite E. cbn [mbind option_bind]. eexists _, _. split; [done |]. split; [done |].
  split; simpl; [done | | apply sized_new | exists []; split_and!; [by eapply reset_law | done | apply hashed_nil]].
  intros r Hr. by apply elem_of_nil in Hr.
Qed.

(** The action is applied to every record once, unless it stops. *)
Fixpoint visit {S} (action : Z -> S -> bool * S) (l : list Z) (s : S) : bool * S :=
  match l with
  | [] => (false, s)
  | r :: l => let '(stop, s) := action r s in if (stop : bool) then (true, s) else visit action l s
  end.

Lemma iterate_loop {S} (action : Z -> S -> bool * S) (d2 d1 : list HASH_LINK) (s : S) :
  (r ← for_ret (length d2) (Z.of_nat (length d1))
        (fun i s =>
           pos ← load (d1 ++ d2) i;
           let '(stop, s) := action (data pos) s in
           Some (if (stop : bool) then Ret s else Next s)) s;
   Some (match r with Ret s => (true, s) | Next s => (false, s) end)) =
  Some (visit action (map data d2) s).
Proof.
  revert d1 s. induction d2 as [| x d2 IH]; intros d1 s; [done |].
  cbn [length for_ret]. rewrite load_nat, list_lookup_middle by done. cbn [mbind option_bind map visit].
  destruct (action (data x) s) as [[] s']; [done |].
  specialize (IH (d1 ++ [x]) s'). rewrite <- app_assoc in IH. simpl in IH.
  rewrite length_app in IH. simpl in IH. rewrite Nat2Z.inj_add in IH. exact IH.
Qed.

Lemma iterate_spec {S} key (h : HASH A) rs (action : Z -> S -> bool * S) s :
  table key h rs -> exists l, l ≡ₚ rs /\ my_hash_iterate h action s = Some (visit action l s).
Proof.
  intros [_ _ _ (d & Hd & Hn & Hs)]. pose proof (HashProps.hs_rs _ _ _ _ Hs) as Hrs.
  rewrite Hn, data_in_order in Hrs. exists (map data d). split; [done |].
  unfold my_hash_iterate. rewrite (links_law _ _ Hd). cbn [mbind option_bind].
  rewrite Hn, Nat2Z.id. apply (iterate_loop action d []).
Qed.
End New.

(** ** A concrete table

    Records of two bytes, the first one is the key, in a dynamic array. *)

Definition ex_mem (r : Z) : list Z := [r mod 7; r].
Definition ex_key (r : Z) : list Z := [r mod 7].

#[local] Instance ex_links : LinkArray DynArray.DYNAMIC_ARRAY :=
  HashArray.dyn_links DynArray.ex_malloc DynArray.ex_realloc.
#[local] Instance ex_laws : LinkArrayLaws DynArray.DYNAMIC_ARRAY :=
  HashArray.dyn_laws DynArray.ex_malloc DynArray.ex_realloc (Hal := DynArray.ex_alloc_ok).

Definition ex_none : HASH DynArray.DYNAMIC_ARRAY :=
  mk_hash 0 0 0 0 0 (DynArray.mk_DYNAMIC_ARRAY DynArray.Null 0 0 0 8) None false my_charset_bin.
Definition ex_h0 : HASH DynArray.DYNAMIC_ARRAY :=
  (_my_hash_init ex_none 2 my_charset_bin 2 0 1 None true HASH_UNIQUE).2.
Definition ex_insert (h : HASH DynArray.DYNAMIC_ARRAY) (r : Z) : HASH DynArray.DYNAMIC_ARRAY :=
  match my_hash_insert ex_mem h r with Some (_, h') => h' | None => h end.
Definition ex_h3 : HASH DynArray.DYNAMIC_ARRAY := ex_insert (ex_insert (ex_insert ex_h0 12) 24) 36.

Lemma ex_h0_table : table ex_key ex_h0 [].
Proof.
  destruct (init_table ex_key ex_none 2 my_charset_bin 2 0 1 None true HASH_UNIQUE charset_bin_good)
    as (f & h & E & Ht); [lia | lia |].
  unfold ex_h0. rewrite E. assert (f = false) as ->; [| done].
  assert (E2 : (_my_hash_init ex_none 2 my_charset_bin 2 0 1 None true HASH_UNIQUE).1 = false) by (vm_compute; reflexivity).
  rewrite E in E2. exact E2.
Qed.

Lemma ex_keyed (h : HASH DynArray.DYNAMIC_ARRAY) rs : key_offset h = 0 -> key_length h = 1 -> get_key h = None -> keyed ex_mem h ex_key rs.
Proof. intros H1 H2 H3 r f _. unfold my_hash_key. by rewrite H1, H2, H3. Qed.

Lemma ex_insert_table h rs r :
  table ex_key h rs -> key_offset h = 0 -> key_length h = 1 -> get_key h = None ->
  0 < r < 2 ^ 32 -> room (array h) ->
  (fst <$> my_hash_insert ex_mem h r = Some false) -> table ex_key (ex_insert h r) (r :: rs).
Proof.
  intros Ht H1 H2 H3 Hr Hroom E1. apply fmap_Some in E1 as ([f h'] & E & Ef). simpl in Ef. subst f.
  unfold ex_insert. rewrite E.
  destruct (insert_spec ex_mem ex_key h rs r Ht) as [[E' _] | (b & n & a & E' & Ht' & _)];
    try done; [by apply ex_keyed | congruence |].
  rewrite E in E'. by injection E' as ->.
Qed.

Lemma ex_h3_table : table ex_key ex_h3 [36; 24; 12].
Proof.
  repeat (apply ex_insert_table;
    [ | vm_compute; reflexivity | vm_compute; reflexivity | vm_compute; reflexivity | lia
      | vm_compute; reflexivity | vm_compute; reflexivity]).
  apply ex_h0_table.
Qed.


(** ** Properties *)

(** C10 [my_hash_insert] adds the record to the multiset of records, in the chain of
    its key; the table grows by one cell, which splits a chain.  It returns [TRUE]
    and leaves the table as it was exactly when the table is unique and has a
    record with the key, or when there is no memory for the cell. *)
Theorem hash_insert_adds {A : Type} {L : LinkArray A} {W : LinkArrayLaws A} mem key (h : HASH A) rs r :
  table key h rs -> keyed mem h key (r :: rs) -> 0 < r < 2 ^ 32 -> key r <> [] -> room (array h) ->
  (my_hash_insert mem h r = Some (true, h) /\
     ((has (flags h) HASH_UNIQUE = true /\ exists r', r' ∈ rs /\ matches key h (key r) r' = true) \/
      la_alloc (array h) = Some (true, array h))) \/
  (exists b n a, my_hash_insert mem h r = Some (false, set_size (set_array h a) b n) /\
     table key (set_size (set_array h a) b n) (r :: rs) /\
     (has (flags h) HASH_UNIQUE = true -> forall r', r' ∈ rs -> matches key h (key r) r' = false)).
Proof. apply insert_spec. Qed.

Lemma hash_insert_adds_witness :
  exists h, my_hash_insert ex_mem ex_h3 20 = Some (false, h) /\ table ex_key h [20; 36; 24; 12].
Proof.
  destruct (hash_insert_adds ex_mem ex_key ex_h3 [36; 24; 12] 20 ex_h3_table)
    as [[E _] | (b & n & a & E & Ht & _)].
  - apply ex_keyed; vm_compute; reflexivity.
  - lia.
  - done.
  - vm_compute; reflexivity.
  - assert (E2 : fst <$> my_hash_insert ex_mem ex_h3 20 = Some false) by (vm_compute; reflexivity).
    rewrite E in E2. discriminate E2.
  - eexists. split; [exact E | exact Ht].
Defined.

(** C11 [my_hash_delete] removes one occurrence of the record, passes it to the [free]
    function if there is one, and shrinks the table by a cell, which merges two
    chains; it returns [TRUE] and changes nothing exactly when the record is not in
    the table.  The remaining records stay reachable from the cells of their keys. *)
Theorem hash_delete_removes {A : Type} {L : LinkArray A} {W : LinkArrayLaws A} mem key (h : HASH A) rs r :
  table key h rs -> keyed mem h key (r :: rs) ->
  (my_hash_delete mem h r = Some (true, h, []) /\ r ∉ rs) \/
  (exists b n a rs', my_hash_delete mem h r = Some (false, set_array (set_size h b n) a, if free h then [r] else []) /\
     rs ≡ₚ r :: rs' /\ table key (set_array (set_size h b n) a) rs').
Proof. apply delete_spec. Qed.

Lemma hash_delete_removes_witness :
  exists h rs, my_hash_delete ex_mem ex_h3 24 = Some (false, h, [24]) /\
    [36; 24; 12] ≡ₚ 24 :: rs /\ table ex_key h rs.
Proof.
  destruct (hash_delete_removes ex_mem ex_key ex_h3 [36; 24; 12] 24 ex_h3_table)
    as [[_ Hno] | (b & n & a & rs' & E & Hrs & Ht)].
  - apply ex_keyed; vm_compute; reflexivity.
  - destruct Hno. set_solver.
  - eexists _, rs'. split; [exact E | split; [exact Hrs | exact Ht]].
Defined.

(** C12 The loop over [my_hash_first] and [my_hash_next] ends and visits every record
    whose key equals the key sought, each as often as it is in the table, and no
    other record.  [km] is the memory at the key. *)
Theorem hash_search_enumerates {A : Type} {L : LinkArray A} {W : LinkArrayLaws A} mem key (h : HASH A) rs k km :
  table key h rs -> keyed mem h key rs -> k <> [] -> take (length k) km = k ->
  exists r st l, my_hash_first mem h km (Z.of_nat (length k)) = Some (r, st) /\
    search_rest mem (length rs) h km (Z.of_nat (length k)) r st = Some l /\
    l ≡ₚ base.filter (fun r => matches key h k r = true) rs.
Proof.
  intros Ht Hk Hne Hkm. destruct (search_spec mem key h rs k km Ht Hk Hne Hkm) as (r & st & l & H1 & H2 & H3 & _).
  by exists r, st, l.
Qed.

Lemma hash_search_enumerates_witness :
  exists r st l, my_hash_first ex_mem ex_h3 [3; 9] 1 = Some (r, st) /\
    search_rest ex_mem 3 ex_h3 [3; 9] 1 r st = Some l /\ l ≡ₚ [24].
Proof.
  destruct (hash_search_enumerates ex_mem ex_key ex_h3 [36; 24; 12] [3] [3; 9] ex_h3_table)
    as (r & st & l & H1 & H2 & H3).
  - apply ex_keyed; vm_compute; reflexivity.
  - done.
  - done.
  - exists r, st, l. split; [exact H1 | split; [exact H2 |]]. rewrite H3. vm_compute. reflexivity.
Defined.

(** C13 [my_hash_update] after the key of a record changed in place from [key r] to
    [key' r]: the table is one for the new keys, with the same records, unless the
    table is unique and another record has the new key, when [TRUE] is returned and
    nothing is changed. *)
Theorem hash_update_moves {A : Type} {L : LinkArray A} {W : LinkArrayLaws A} mem key key' (h : HASH A) rs r okm :
  table key h rs -> keyed mem h key' (r :: rs) -> NoDup rs -> r ∈ rs ->
  (forall r', r' ∈ rs -> r' <> r -> key' r' = key r') -> key r <> [] -> key' r <> [] ->
  take (length (key r)) okm = key r ->
  let dup := has HASH_UNIQUE (flags h) = true /\ exists r', r' ∈ rs /\ r' <> r /\ matches key' h (key' r) r' = true in
  (my_hash_update mem h r okm (Z.of_nat (length (key r))) = Some (true, h) /\ dup) \/
  (exists a, my_hash_update mem h r okm (Z.of_nat (length (key r))) = Some (false, set_array h a) /\
     ~ dup /\ table key' (set_array h a) rs).
Proof. apply update_spec. Qed.

Definition ex_mem2 (r : Z) : list Z := if bool_decide (r = 24) then [6; 24] else ex_mem r.
Definition ex_key2 (r : Z) : list Z := if bool_decide (r = 24) then [6] else ex_key r.

Lemma hash_update_moves_witness :
  exists h, my_hash_update ex_mem2 ex_h3 24 [3] 1 = Some (false, h) /\ table ex_key2 h [36; 24; 12].
Proof.
  destruct (hash_update_moves ex_mem2 ex_key ex_key2 ex_h3 [36; 24; 12] 24 [3] ex_h3_table)
    as [[E _] | (a & E & _ & Ht)].
  - intros r f _. unfold my_hash_key, ex_mem2, ex_key2, ex_mem.
    destruct (bool_decide (r = 24)); vm_compute; reflexivity.
  - repeat constructor; set_solver.
  - set_solver.
  - intros r' _ Hr. unfold ex_key2. by rewrite bool_decide_false.
  - done.
  - done.
  - done.
  - assert (E2 : fst <$> my_hash_update ex_mem2 ex_h3 24 [3] 1 = Some false) by (vm_compute; reflexivity).
    change (Z.of_nat (length (ex_key 24))) with 1 in E. rewrite E in E2. discriminate E2.
  - eexists. split; [exact E | exact Ht].
Defined.

End HashMain.
